(* ===== verification/_CoqProject ===== *)
-Q . S2P
Prelude.v
Strings.v
Shared.v
Messages.v
MatchModel.v
Bitmap.v
BookHeap.v
OrderBookDirect.v
Engine.v
BookSide.v
EngineSpec.v
EngineRefine.v
EngineView.v
MatchFacts.v
EngineInv.v
EngineProps.v
SortedBook.v
BookInterface.v
RingBuffer.v
RingConc.v
Protocol.v
Candles.v
PostTrade.v
RollupJournal.v
Auth.v
AuthProps.v
RollupState.v
RollupReplay.v
RollupRoots.v
RollupProps.v
Merkle.v
MerkleProps.v
AcceptedSnapshot.v
AcceptedProps.v
VerifierAuth.v
VerifierAuthProps.v
RollupSubmission.v
VerifierBundle.v
VerifierBundleProps.v
RollupSubmitter.v
RollupCore.v
ForcedWithdrawal.v
EscapeHatch.v
RollupSubmitterProps.v
SubmissionStore.v
SubmissionRuns.v
MatchStore.v
MatchStoreProps.v
PostTradeProps.v
Pipeline.v
PipelineInv.v
PipelineProps.v
PipelineDrain.v
Account.v
AccountInv.v
AccountProps.v
AccountEvents.v
AccountSql.v
AccountEventProps.v
OrderService.v
AccountGrpc.v
OrderProps.v
Custody.v
CustodyProps.v
SessionStore.v
SessionProps.v
OperatorAuth.v
ApiHandlers.v
ApiJoin.v
ApiRuns.v
Ledger.v
LedgerProps.v
Settlement.v
SettlementSql.v
SettlementProps.v
SettlementSqlProps.v
Oracle.v
OracleWorker.v
OracleProps.v
OracleRuns.v
