(* ===== verification/Prelude.v ===== *)
(** * FunnyOption: a verification development of its exchange back end

    FunnyOption is a prediction-market exchange written in Go ([src/backend]).  A wallet
    registers a trading key with the API, which checks the signature of every order, its
    nonce and its session and journals what authorized it.  The order then enters the
    order service, which validates it and freezes the money or the
    shares it may cost in the account service; its command travels over Kafka to the
    matching service, where a gateway routes it to the single-writer engine of its
    book; the results go to the post-trade stage, which stores them, writes them to the
    shadow journal of the rollup and publishes the events that move balances (account),
    book them (ledger), change positions and pay winners (settlement).  The rollup
    replays the journal into a state, commits to it by a tree of hashes, joins every order
    to the authorization of its key, submits the batches to the contract and derives the
    withdrawal and escape trees of the accepted ones.

    ** Conventions

    A definition keeps the name of the code it translates (paths are under
    [src/backend/internal]).  Structs are records, each in a module of its own name;
    string enumerations are inductive types; [int64] and [uint64] values are integers,
    and every unguarded operation on them is the wrapped one of [go_scope].  A Go
    [(value, error)] is [result]; [None] in an [option] result of code that indexes or
    dereferences is a run-time panic or an exhausted fuel, and the theorems show that
    neither happens.  A mutation is explicit state passing; an object shared by pointer
    lives in a store ([BookHeap]).  Interfaces of the code are type classes with their
    laws in a second class, so that a client is proved against the interface and an
    implementation discharges it.  Goroutines are step relations over the state they
    share.  Code outside the repository (PostgreSQL, Kafka, gRPC status texts,
    [encoding/json], SHA-256, Keccak-256, signature schemes, ABI encoding, the Groth16
    prover, the Ethereum node, the custody wallet service) is a parameter or a class.

    ** Shared files

    - [Prelude]: machine integers, results, Go's string and slice primitives, sums.
    - [Strings]: facts on normalised names, decimal and hexadecimal text, big-endian bytes.
    - [Shared]: [shared/fee], [shared/assets].  [Messages]:
      [shared/kafka].

    ** Matching ([matching/model], [matching/engine])

    - [MatchModel]: orders, trades, book keys.  [Bitmap], [BookHeap],
      [OrderBookDirect]: the price bitmap, the pool of intrusive nodes and the
      array-indexed book.  [Engine]: [PlaceOrder] in its four time-in-force modes,
      self-trade prevention, cancel, amend, restore.
    - [EngineSpec] is the abstract book (two price-time sorted lists of orders) with
      its own matching; [BookSide], [EngineView], [EngineRefine], [MatchFacts],
      [EngineInv] relate the two, and [EngineProps] states: no
      operation panics, [PlaceOrder] computes the abstract matching, quantities are
      conserved, priority and limit prices are respected, the book stays uncrossed.
    - [SortedBook], [BookInterface]: the sorted-slice book and the interface both
      books implement, which no client can tell apart.

    ** Matching pipeline and service ([matching/pipeline], [matching/service])

    - [RingBuffer], [RingConc]: the single-producer queue, interleaved atom
      by atom; it is FIFO and wait-free.  [Protocol]: the ring-buffer commands.
    - [Pipeline], [PipelineInv], [PipelineProps], [PipelineDrain]:
      gateway, one engine per book, dispatcher and workers under every interleaving:
      each book's results are those of one engine fed in order, nothing panics, and
      everything accepted can be finished.
    - [Candles], [PostTrade], [MatchStore] with [PostTradeProps], [MatchStoreProps]:
      what is stored and published for a result, one by one and in batches, and what a
      restart reads back.

    ** Money ([account], [order], [ledger], [settlement])

    - [Account], [AccountInv], [AccountProps]: the balance book is solvent after every
      operation, whatever its database answers, and credits are exactly once.
      [AccountEvents], [AccountEventProps]: the order and trade events.  [AccountSql]: the
      tables behind it; memory and tables agree through failures and restarts, and a
      reference is applied once for all.  [AccountGrpc]: the server and client between the
      services.
    - [OrderService], [OrderProps]: an accepted order is backed by a freeze that covers
      its worst case; a refused one costs nothing.
    - [Ledger], [LedgerProps]: the journal is a double-entry book, and so are its tables.
    - [Settlement], [SettlementProps]: winners and only winners are paid, once.
      [SettlementSql], [SettlementSqlProps]: the store of production as transactions that
      may fail: settled quantities, payout rows, published payouts and the rollup journal
      agree, and a resolution handled without error has paid everyone.

    ** Oracle ([oracle])

    - [Oracle]: contracts on prices, decimal numbers, evidence and attestations.
      [OracleWorker]: the poll, its SQL store on the tables of the settlement, and the
      price provider.  [OracleProps]: prices and attestations round-trip.  [OracleRuns]:
      an announced outcome is justified by a genuine observation in its window, and the
      settlement carries it, its evidence and its attestation into the journal.

    ** Rollup ([rollup])

    - [RollupJournal]: appending entries.  [RollupState]: the replayed state.
      [RollupReplay], [RollupRoots]: roots, batches, the store's cache, and a concrete codec
      for evaluation.  [RollupProps]: what every entry keeps; along a journal, locked
      balances are backed by open orders, money comes from deposits and settlements only,
      nonces are used once, and a root commits to the state.
    - [Merkle], [MerkleProps]: withdrawal and escape trees.  [AcceptedSnapshot],
      [AcceptedProps]: the snapshot of the accepted batches and the conservation
      record.
    - [Auth], [AuthProps]: [shared/auth]: grants, order intents, trading-key
      authorizations and their witnesses; the signed text determines the order.
      [VerifierAuth], [VerifierAuthProps]: the join of accepted nonces to authorizations.
      [VerifierBundle], [VerifierBundleProps]: public inputs, digests and
      the packed calls of a submission; what the gate digest binds, and that a bundle is
      ready exactly when every nonce is joined.
    - [RollupSubmission], [RollupSubmitter], [RollupSubmitterProps], [SubmissionStore],
      [SubmissionRuns]: the submission lifecycle of [rollup/store.go] and
      [chain/service/rollup_submitter.go] as a state machine over the answers of a node:
      batches are submitted in order, one at a time, accepted on the evidence of the chain
      only, and the claims of their withdrawals queued once.

    ** Chain ([chain])

    - [RollupCore]: the views of the contract that the service reads, their decoding, and
      the steps of a service (statements that may fail, transactions handed to the node).
    - [ForcedWithdrawal]: the mirror of the requests and the satisfier: the tables follow
      the contract, and a claim is submitted for a request only when it answers it.
    - [EscapeHatch]: the commands that request, freeze and claim; a claim is submitted for
      a verified leaf of the newest root and recorded as paid on a receipt only.

    ** API ([api])

    - [SessionStore], [SessionProps]: sessions, challenges, keys, nonces and profiles of
      [handler/sql_store.go]: a nonce is accepted once, a challenge authorizes one
      registration, a wallet has one active key.
    - [OperatorAuth]: operator proofs and the middleware guards.  [ApiHandlers]: the
      handlers of sessions, keys, orders, first liquidity and resolution, over the order
      service.  [ApiJoin]: an accepted order is the signed one, and the entries
      that a registration and an order leave in the journal are joined by the verifier.
      [ApiRuns]: runs and witnesses.

    ** Custody ([custody])

    - [Custody], [CustodyProps]: deposit callbacks, deposit addresses and withdrawals
      through an external wallet service: a deposit is credited once, rounded down, to
      the user of its address; a withdrawal that is paid was covered.

    The last parts of [EngineProps], [PipelineDrain], [AccountSql], [SettlementSqlProps],
    [OracleRuns], [SubmissionRuns], [ForcedWithdrawal], [EscapeHatch], [ApiRuns] and
    [CustodyProps] hold runs on which the
    code does not do what it means to.

    ** Fuel

    A scan of the bitmap visits each of its 157 words once ([bitmap_fuel]); a walk over
    a bucket visits each order of the book at most once ([bucket_fuel], one more than
    the order index); matching visits each price at most once ([price_fuel], the
    maximal price); building a Merkle tree halves its level every round (a unit per
    leaf).  That these suffice is part of the theorems, which show that the functions
    return.

    ** Not modelled

    Of the API: HTTP transport, rate limits, market creation and proposals, payout
    claims, and the SQL read models behind the listings.  Of [chain]: the Ethereum
    clients, signing and gas, and the statements on queued claims, which nothing calls.  The Groth16 circuit
    itself, the notification service, the counters and the HTTP exchange of the oracle, the
    market maker and process start-up.  They move data between the modelled parts and the outside,
    or only report it.  Column widths are left out; clocks and identifiers are arguments. *)

From stdpp Require Export base numbers gmap strings list pretty.
From Stdlib Require Import Ascii.

(** ** Machine integers

    Go's [int64] and [uint64] arithmetic wraps silently.  A value of either
    type is a [Z]; every unguarded [+], [-], [*] of the source is written with
    the wrapped operators of [go_scope]. *)

Declare Scope go_scope.
Delimit Scope go_scope with go.

Definition MaxInt64 : Z := 9223372036854775807.
Definition MinInt64 : Z := -9223372036854775808.

Definition wrap64 (z : Z) : Z := (z + 2 ^ 63) `mod` 2 ^ 64 - 2 ^ 63.
Definition wrapu64 (z : Z) : Z := z `mod` 2 ^ 64.

Notation "a ⊞ b" := (wrap64 (a + b)) (at level 50, left associativity) : go_scope.
Notation "a ⊟ b" := (wrap64 (a - b)) (at level 50, left associativity) : go_scope.
Notation "a ⊠ b" := (wrap64 (a * b)) (at level 40, left associativity) : go_scope.

Definition int64 (z : Z) : Prop := (MinInt64 ≤ z ≤ MaxInt64)%Z.
Definition uint64 (z : Z) : Prop := (0 ≤ z < 2 ^ 64)%Z.

#[global] Instance int64_dec z : Decision (int64 z).
Proof. unfold int64. apply _. Defined.

#[global] Instance uint64_dec z : Decision (uint64 z).
Proof. unfold uint64. apply _. Defined.

Lemma wrap64_id z : int64 z → wrap64 z = z.
Proof.
  unfold int64, wrap64, MinInt64, MaxInt64. intros ?.
  rewrite Z.mod_small; lia.
Qed.

Lemma wrap64_range z : int64 (wrap64 z).
Proof.
  unfold int64, wrap64, MinInt64, MaxInt64.
  pose proof (Z.mod_pos_bound (z + 2 ^ 63) (2 ^ 64) ltac:(lia)). lia.
Qed.

Lemma wrapu64_id z : uint64 z → wrapu64 z = z.
Proof. unfold uint64, wrapu64. intros ?. rewrite Z.mod_small; lia. Qed.

Lemma wrapu64_range z : uint64 (wrapu64 z).
Proof. unfold uint64, wrapu64. apply Z.mod_pos_bound. lia. Qed.

(** Wrapping is a ring morphism modulo [2 ^ 64]: an intermediate wrap can be
    dropped under a later one. *)
Lemma wrap64_add_l a b : wrap64 (wrap64 a + b) = wrap64 (a + b).
Proof.
  unfold wrap64.
  replace ((a + 2 ^ 63) `mod` 2 ^ 64 - 2 ^ 63 + b + 2 ^ 63)%Z
    with ((a + 2 ^ 63) `mod` 2 ^ 64 + b)%Z by lia.
  rewrite Zplus_mod_idemp_l. f_equal. f_equal. lia.
Qed.

Lemma wrap64_sub_l a b : wrap64 (wrap64 a - b) = wrap64 (a - b).
Proof. apply (wrap64_add_l a (- b)). Qed.

(** Facts the arithmetic side conditions need everywhere. *)
Create HintDb go.
#[export] Hint Resolve wrap64_range wrapu64_range : go.
#[export] Hint Rewrite @wrap64_add_l @wrap64_sub_l : go.

(** Steps past the guard in front of a result: the branch that returns an error cannot
    be the one that answered. *)
Ltac pass_guard :=
  match goal with
  | |- (if ?b then _ else _) = _ → _ => destruct b eqn:?; [discriminate 1|]
  end.

(** ** Results: Go's [(value, error)] pairs *)

Inductive result (E A : Type) : Type :=
| Ok (a : A)
| Err (e : E).
Arguments Ok {E A} _.
Arguments Err {E A} _.

#[global] Instance result_ret E : MRet (result E) := λ A a, Ok a.
#[global] Instance result_bind E : MBind (result E) := λ A B f m,
  match m with Ok a => f a | Err e => Err e end.
#[global] Instance result_fmap E : FMap (result E) := λ A B f m,
  match m with Ok a => Ok (f a) | Err e => Err e end.

Definition is_Ok {E A} (r : result E A) : bool :=
  match r with Ok _ => true | Err _ => false end.


Lemma result_bind_Ok {E A B} (f : A → result E B) m b :
  m ≫= f = Ok b ↔ ∃ a, m = Ok a ∧ f a = Ok b.
Proof. destruct m; simpl; split; [eauto | by intros (? & [= ->] & ?) | done | by intros (? & ? & ?)]. Qed.

(** ** Strings

    A Go string is its byte sequence.  [TrimSpace], [ToUpper] and [ToLower]
    are the [strings] package's functions on ASCII text; a byte outside ASCII
    is left as it is. *)

Definition is_space_byte (a : ascii) : bool :=
  match nat_of_ascii a with
  | 9 | 10 | 11 | 12 | 13 | 32 => true
  | _ => false
  end.

Definition upper_byte (a : ascii) : ascii :=
  let n := nat_of_ascii a in
  if (97 <=? n) && (n <=? 122) then ascii_of_nat (n - 32) else a.

Definition lower_byte (a : ascii) : ascii :=
  let n := nat_of_ascii a in
  if (65 <=? n) && (n <=? 90) then ascii_of_nat (n + 32) else a.

Fixpoint string_map (f : ascii → ascii) (s : string) : string :=
  match s with
  | EmptyString => EmptyString
  | String a s => String (f a) (string_map f s)
  end.

Definition ToUpper : string → string := string_map upper_byte.
Definition ToLower : string → string := string_map lower_byte.

Fixpoint trim_left (s : string) : string :=
  match s with
  | EmptyString => EmptyString
  | String a s' => if is_space_byte a then trim_left s' else s
  end.

Definition TrimSpace (s : string) : string :=
  String.rev (trim_left (String.rev (trim_left s))).

Definition normalize_upper (s : string) : string := ToUpper (TrimSpace s).

(** [strconv.FormatInt(z, 10)], [fmt.Sprintf("%d", z)]. *)
Definition itoa (z : Z) : string := pretty z.

#[global] Instance itoa_inj : Inj (=) (=) itoa.
Proof. unfold itoa. apply _. Qed.

(** [strconv.ParseInt(s, 10, 64)]: an optional sign, then at least one digit
    and nothing else, in range. *)
Definition digit_value (a : ascii) : option Z :=
  let n := nat_of_ascii a in
  if (48 <=? n) && (n <=? 57) then Some (Z.of_nat (n - 48)) else None.

Fixpoint parse_digits (acc : Z) (s : string) : option Z :=
  match s with
  | EmptyString => Some acc
  | String a s => d ← digit_value a; parse_digits (acc * 10 + d) s
  end.

Definition parse_unsigned (s : string) : option Z :=
  match s with EmptyString => None | _ => parse_digits 0 s end.

Definition ParseInt (s : string) : option Z :=
  let check z := if bool_decide (int64 z) then Some z else None in
  match s with
  | String "-" s => parse_unsigned s ≫= λ z, check (- z)%Z
  | String "+" s => parse_unsigned s ≫= check
  | _ => parse_unsigned s ≫= check
  end.

(** [strings.SplitN(s, ":", 2)] when the separator occurs, and [None] when it
    does not. *)
Fixpoint split_colon (s : string) : option (string * string) :=
  match s with
  | EmptyString => None
  | String a s =>
      if Ascii.eqb a ":" then Some ("", s)
      else '(l, r) ← split_colon s; Some (String a l, r)
  end.

(** ** Arrays and slices

    A Go index expression panics when the index is out of range: reads and
    writes return [None] there. *)
Definition arr_get {A} (l : list A) (i : Z) : option A :=
  if (i <? 0)%Z then None else l !! Z.to_nat i.

Definition arr_set {A} (l : list A) (i : Z) (x : A) : option (list A) :=
  if (i <? 0)%Z then None
  else if (Z.to_nat i <? length l)%nat then Some (<[Z.to_nat i := x]> l) else None.

Lemma arr_get_Some {A} (l : list A) i :
  (0 ≤ i < Z.of_nat (length l))%Z → ∃ x, arr_get l i = Some x.
Proof.
  intros Hi. unfold arr_get. destruct (Z.ltb_spec i 0); [lia|].
  destruct (lookup_lt_is_Some_2 l (Z.to_nat i)) as [x ->]; [lia|eauto].
Qed.

Lemma arr_get_bound {A} (l : list A) i x :
  arr_get l i = Some x → (0 ≤ i < Z.of_nat (length l))%Z.
Proof.
  unfold arr_get. destruct (Z.ltb_spec i 0); [done|].
  intros ?%lookup_lt_Some. lia.
Qed.

Lemma arr_set_Some {A} (l : list A) i x :
  (0 ≤ i < Z.of_nat (length l))%Z → arr_set l i x = Some (<[Z.to_nat i := x]> l).
Proof.
  intros Hi. unfold arr_set. destruct (Z.ltb_spec i 0); [lia|].
  destruct (Nat.ltb_spec (Z.to_nat i) (length l)); [done|lia].
Qed.

Lemma arr_get_set {A} (l : list A) i j x :
  (0 ≤ i < Z.of_nat (length l))%Z →
  arr_get (<[Z.to_nat i := x]> l) j = if decide (i = j) then Some x else arr_get l j.
Proof.
  intros Hi. unfold arr_get. destruct (Z.ltb_spec j 0).
  { rewrite decide_False by lia. done. }
  case_decide as E.
  - subst. apply list_lookup_insert_eq. lia.
  - apply list_lookup_insert_ne. lia.
Qed.

(** Panics: [None] is a run-time panic (or a loop that exhausts its fuel). *)
Lemma Some_bind {A B} (x : A) (f : A → option B) : Some x ≫= f = f x.
Proof. done. Qed.

(** ** Lists *)
Lemma list_filter_ext_in {A} (P Q : A → Prop) `{∀ x, Decision (P x), ∀ x, Decision (Q x)} (l : list A) :
  (∀ x, x ∈ l → P x ↔ Q x) → filter P l = filter Q l.
Proof.
  induction l as [|x l IH]; intros HPQ; [done|].
  assert (P x ↔ Q x) as Hx by (apply HPQ; left).
  assert (filter P l = filter Q l) as Hl by (apply IH; intros y Hy; apply HPQ; by right).
  destruct (decide (P x)).
  - by rewrite !filter_cons_True, Hl by tauto.
  - by rewrite !filter_cons_False, Hl by tauto.
Qed.

(** ** Sums over lists *)

Fixpoint sumZ {A} (f : A → Z) (l : list A) : Z :=
  match l with [] => 0 | x :: l => f x + sumZ f l end%Z.

Lemma sumZ_app {A} (f : A → Z) l1 l2 : (sumZ f (l1 ++ l2) = sumZ f l1 + sumZ f l2)%Z.
Proof. induction l1; simpl; lia. Qed.

Lemma sumZ_nonneg {A} (f : A → Z) l : Forall (λ x, 0 ≤ f x)%Z l → (0 ≤ sumZ f l)%Z.
Proof. induction 1; simpl; lia. Qed.

Lemma sumZ_ext_in {A} (f g : A → Z) l : (∀ x, x ∈ l → f x = g x) → sumZ f l = sumZ g l.
Proof.
  induction l as [|x l IH]; intros H; simpl; [done|].
  rewrite (H x), IH; [done| |left]. intros y Hy. apply H. by right.
Qed.

Lemma sumZ_perm {A} (f : A → Z) l1 l2 : l1 ≡ₚ l2 → sumZ f l1 = sumZ f l2.
Proof. induction 1; simpl; lia. Qed.

(** ** Filters *)

Lemma list_filter_fmap {A B} (f : A → B) (P : B → Prop) `{∀ x, Decision (P x)} (l : list A) :
  filter P (f <$> l) = f <$> filter (λ x, P (f x)) l.
Proof.
  induction l as [|x l IH]; [done|]. rewrite fmap_cons. destruct (decide (P (f x))).
  - by rewrite !filter_cons_True, IH by done.
  - by rewrite !filter_cons_False, IH by done.
Qed.

Lemma list_filter_all {A} (P : A → Prop) `{∀ x, Decision (P x)} (l : list A) :
  Forall P l → filter P l = l.
Proof. induction 1 as [|x l Hx _ IH]; [done|]. by rewrite filter_cons_True, IH. Qed.

Lemma list_filter_none {A} (P : A → Prop) `{∀ x, Decision (P x)} (l : list A) :
  (∀ x, x ∈ l → ¬ P x) → filter P l = [].
Proof.
  induction l as [|x l IH]; intros Hl; [done|].
  rewrite filter_cons_False by (apply Hl; left). apply IH. intros y Hy. apply Hl. by right.
Qed.

(** ** Sums over finite maps *)

Definition msum `{Countable K} {V} (f : V → Z) (m : gmap K V) : Z :=
  sumZ (λ kv, f kv.2) (map_to_list m).

Section msum.
Context `{Countable K} {V : Type}.
Implicit Types m : gmap K V.

Lemma msum_empty (f : V → Z) : msum f (∅ : gmap K V) = 0%Z.
Proof. unfold msum. by rewrite map_to_list_empty. Qed.

Lemma msum_insert (f : V → Z) m k v :
  m !! k = None → msum f (<[k := v]> m) = (f v + msum f m)%Z.
Proof. intros Hk. unfold msum. by rewrite (sumZ_perm _ _ _ (map_to_list_insert m k v Hk)). Qed.

Lemma msum_singleton (f : V → Z) k v : msum f ({[k := v]} : gmap K V) = f v.
Proof. unfold msum. rewrite map_to_list_singleton. simpl. lia. Qed.

Lemma msum_delete (f : V → Z) m k v :
  m !! k = Some v → msum f (delete k m) = (msum f m - f v)%Z.
Proof.
  intros Hk. rewrite <-(insert_delete_id m k v Hk) at 2.
  rewrite msum_insert by apply lookup_delete_eq. lia.
Qed.

Lemma msum_update (f : V → Z) m k v v' :
  m !! k = Some v → msum f (<[k := v']> m) = (msum f m - f v + f v')%Z.
Proof.
  intros Hk. rewrite <-insert_delete_eq, msum_insert by apply lookup_delete_eq.
  rewrite (msum_delete f m k v Hk). lia.
Qed.

Lemma msum_nonneg (f : V → Z) m : map_Forall (λ _ v, 0 ≤ f v)%Z m → (0 ≤ msum f m)%Z.
Proof.
  intros Hm. apply sumZ_nonneg, Forall_forall. intros [k v] Hkv%elem_of_map_to_list.
  by apply (Hm k).
Qed.

Lemma msum_ge (f : V → Z) m k v :
  map_Forall (λ _ v, 0 ≤ f v)%Z m → m !! k = Some v → (f v ≤ msum f m)%Z.
Proof.
  intros Hm Hk. pose proof (msum_nonneg f (delete k m) (map_Forall_delete _ _ _ Hm)) as H0.
  rewrite (msum_delete f m k v Hk) in H0. lia.
Qed.

Lemma msum_ext (f g : V → Z) m : map_Forall (λ _ v, f v = g v) m → msum f m = msum g m.
Proof.
  intros Hm. apply sumZ_ext_in. intros [k v] Hkv%elem_of_map_to_list. by apply (Hm k).
Qed.
End msum.
