(* ===== verification/Strings.v ===== *)
(** * Strings: normalisation and decimal numbers

    Facts about the string functions of the prelude that the services rely on:
    normalised names are stable, decimal printing is inverted by parsing and
    contains no separator, so composite keys are injective. *)

From Stdlib Require Import Ascii.
From S2P Require Import Prelude.

(** ** Mapping, reversing, trimming *)

Lemma string_map_rev_app f s1 s2 :
  string_map f (String.rev_app s1 s2) = String.rev_app (string_map f s1) (string_map f s2).
Proof. revert s2. induction s1 as [|a s1 IH]; intros s2; simpl; [done|]. by rewrite IH. Qed.

Lemma string_map_rev f s : string_map f (String.rev s) = String.rev (string_map f s).
Proof. apply string_map_rev_app. Qed.

Lemma upper_byte_space a : is_space_byte (upper_byte a) = is_space_byte a.
Proof. by destruct a as [[] [] [] [] [] [] [] []]. Qed.

Lemma upper_byte_idem a : upper_byte (upper_byte a) = upper_byte a.
Proof. by destruct a as [[] [] [] [] [] [] [] []]. Qed.

Lemma trim_left_upper s : trim_left (ToUpper s) = ToUpper (trim_left s).
Proof.
  induction s as [|a s IH]; simpl; [done|]. rewrite upper_byte_space.
  by destruct (is_space_byte a).
Qed.

Lemma TrimSpace_upper s : TrimSpace (ToUpper s) = ToUpper (TrimSpace s).
Proof.
  unfold TrimSpace. rewrite trim_left_upper. unfold ToUpper. rewrite <-string_map_rev.
  fold (ToUpper (String.rev (trim_left s))). rewrite trim_left_upper. unfold ToUpper.
  by rewrite <-string_map_rev.
Qed.

Lemma ToUpper_idem s : ToUpper (ToUpper s) = ToUpper s.
Proof.
  unfold ToUpper. induction s as [|a s IH]; cbn [string_map]; [done|].
  by rewrite upper_byte_idem, IH.
Qed.

(** A string is tight on the left when it is empty or starts with a non-space. *)
Definition tight (s : string) : Prop :=
  match s with EmptyString => True | String a _ => is_space_byte a = false end.

Lemma trim_left_tight s : tight (trim_left s).
Proof.
  induction s as [|a s IH]; simpl; [done|]. by destruct (is_space_byte a) eqn:E.
Qed.

Lemma tight_trim_left s : tight s → trim_left s = s.
Proof. destruct s as [|a s]; simpl; [done|]. by intros ->. Qed.

Lemma rev_app_app s1 s2 s3 : String.rev_app s1 (s2 +:+ s3) = String.rev_app s1 s2 +:+ s3.
Proof. revert s2. induction s1 as [|a s1 IH]; intros s2; simpl; [done|]. apply (IH (String a s2)). Qed.

Lemma rev_cons a s : String.rev (String a s) = String.rev s +:+ String a "".
Proof. unfold String.rev. simpl. apply (rev_app_app s "" (String a "")). Qed.

Lemma rev_app_rev s1 s2 : String.rev_app (String.rev_app s1 s2) "" = String.rev_app s2 s1.
Proof. revert s2. induction s1 as [|a s1 IH]; intros s2; simpl; [done|]. by rewrite IH. Qed.

Lemma rev_rev s : String.rev (String.rev s) = s.
Proof. unfold String.rev. apply (rev_app_rev s ""). Qed.

(** Trimming the right end of a tight string leaves it tight. *)
Lemma trim_left_snoc a s :
  is_space_byte a = false →
  ∃ s', trim_left (s +:+ String a "") = s' +:+ String a "".
Proof.
  intros Ha. induction s as [|b s [s' IH]]; simpl; [exists ""; by rewrite Ha|].
  destruct (is_space_byte b); [by exists s'|by exists (String b s)].
Qed.

Lemma rev_snoc s a : String.rev (s +:+ String a "") = String a (String.rev s).
Proof. rewrite <-(rev_rev (String a (String.rev s))), rev_cons, rev_rev. done. Qed.

Lemma TrimSpace_tight s : tight (TrimSpace s).
Proof.
  unfold TrimSpace. pose proof (trim_left_tight s) as Ht.
  destruct (trim_left s) as [|a s']; [done|]. simpl in Ht.
  rewrite rev_cons. destruct (trim_left_snoc a (String.rev s') Ht) as [t ->].
  by rewrite rev_snoc.
Qed.

Lemma TrimSpace_idem s : TrimSpace (TrimSpace s) = TrimSpace s.
Proof.
  unfold TrimSpace at 1. rewrite (tight_trim_left (TrimSpace s)) by apply TrimSpace_tight.
  unfold TrimSpace. rewrite rev_rev. by rewrite (tight_trim_left (trim_left _)) by apply trim_left_tight.
Qed.

Lemma normalize_upper_idem s : normalize_upper (normalize_upper s) = normalize_upper s.
Proof. unfold normalize_upper. by rewrite TrimSpace_upper, ToUpper_idem, TrimSpace_idem. Qed.

(** ** Decimal numbers *)

Lemma digit_value_char (x : N) : (x < 10)%N → digit_value (pretty_N_char x) = Some (Z.of_N x).
Proof.
  intros Hx. assert (x = 0 ∨ x = 1 ∨ x = 2 ∨ x = 3 ∨ x = 4 ∨ x = 5 ∨ x = 6 ∨ x = 7 ∨ x = 8 ∨ x = 9)%N
    as Hc by lia. by repeat (destruct Hc as [->|Hc]; [done|]); subst.
Qed.

Lemma parse_pretty_N_go x s : parse_digits 0 (pretty_N_go x s) = parse_digits (Z.of_N x) s.
Proof.
  revert s. induction (N.lt_wf_0 x) as [x _ IH]; intros s.
  destruct (decide (x = 0)%N) as [->|Hx]; [done|].
  rewrite pretty_N_go_step, IH by (try apply N.div_lt; lia). cbn [parse_digits].
  rewrite digit_value_char by (apply N.mod_lt; lia). cbn [mbind option_bind]. f_equal.
  pose proof (N.div_mod x 10 ltac:(lia)). lia.
Qed.

(** A decimal digit. *)
Definition is_digit (a : ascii) : bool := bool_decide (is_Some (digit_value a)).

Fixpoint all_digits (s : string) : bool :=
  match s with EmptyString => true | String a s => is_digit a && all_digits s end.

Lemma all_digits_N_go x s : all_digits s = true → all_digits (pretty_N_go x s) = true.
Proof.
  revert s. induction (N.lt_wf_0 x) as [x _ IH]; intros s Hs.
  destruct (decide (x = 0)%N) as [->|Hx]; [done|].
  rewrite pretty_N_go_step by lia. apply IH; [apply N.div_lt; lia|]. cbn [all_digits].
  rewrite Hs, andb_true_r. apply bool_decide_eq_true.
  rewrite digit_value_char by (apply N.mod_lt; lia). by eexists.
Qed.

Lemma pretty_N_go_nonempty x s : (0 < x)%N ∨ s ≠ "" → pretty_N_go x s ≠ "".
Proof.
  revert s. induction (N.lt_wf_0 x) as [x _ IH]; intros s Hs.
  destruct (decide (x = 0)%N) as [->|Hx]; [by destruct Hs|].
  rewrite pretty_N_go_step by lia. apply IH; [apply N.div_lt; lia|]. by right.
Qed.

Lemma pretty_N_parse (n : N) :
  parse_unsigned (pretty n) = Some (Z.of_N n) ∧ all_digits (pretty n) = true ∧ pretty n ≠ "".
Proof.
  unfold pretty, pretty_N. destruct (decide (n = 0)%N) as [->|Hn]; [by vm_compute|].
  pose proof (pretty_N_go_nonempty n "" ltac:(left; lia)) as Hne.
  split_and!; [|by apply all_digits_N_go|done].
  unfold parse_unsigned. destruct (pretty_N_go n "") eqn:E; [done|].
  rewrite <-E, parse_pretty_N_go. done.
Qed.

(** A printed integer is an optional minus sign and digits. *)
Lemma itoa_shape (z : Z) :
  (∃ n : N, z = Z.of_N n ∧ itoa z = pretty n) ∨
  (∃ n : N, z = (- Z.of_N n)%Z ∧ itoa z = "-" +:+ pretty n).
Proof.
  unfold itoa, pretty, pretty_Z. destruct z as [|p|p].
  - left. by exists 0%N.
  - left. by exists (N.pos p).
  - right. by exists (N.pos p).
Qed.

Lemma digit_not (a : ascii) s c :
  all_digits (String a s) = true → is_digit c = false → a ≠ c.
Proof. intros [H _]%andb_true_iff Hc ->. congruence. Qed.

Lemma ParseInt_itoa z : int64 z → ParseInt (itoa z) = Some z.
Proof.
  intros Hz.
  assert (∀ n : N, ∀ s, pretty n = s → ParseInt s =
    parse_unsigned s ≫= λ z, if bool_decide (int64 z) then Some z else None) as Hpos.
  { intros n s <-. destruct (pretty_N_parse n) as (_ & Hd & Hne).
    destruct (pretty n) as [|a s]; [done|].
    assert (a ≠ "-"%char ∧ a ≠ "+"%char) as [H1 H2] by (split; eapply digit_not; done).
    unfold ParseInt. by destruct a as [[] [] [] [] [] [] [] []]; try done. }
  destruct (itoa_shape z) as [(n & -> & ->)|(n & -> & ->)].
  - rewrite (Hpos n _ eq_refl), (proj1 (pretty_N_parse n)). simpl. by rewrite bool_decide_true.
  - change (ParseInt ("-" +:+ pretty n)) with
      (parse_unsigned (pretty n) ≫= λ z, if bool_decide (int64 (- z)) then Some (- z)%Z else None).
    rewrite (proj1 (pretty_N_parse n)). simpl. by rewrite bool_decide_true.
Qed.

(** ** Keys with a separator *)

Lemma split_colon_digits s rest :
  all_digits s = true → split_colon (s +:+ ":" +:+ rest) = Some (s, rest).
Proof.
  induction s as [|a s IH]; [done|]. intros H. pose proof (digit_not a s ":" H eq_refl) as Ha.
  apply andb_true_iff in H as [_ H].
  change (split_colon (String a s +:+ ":" +:+ rest)) with
    (if Ascii.eqb a ":" then Some ("", s +:+ ":" +:+ rest)
     else '(l, r) ← split_colon (s +:+ ":" +:+ rest); Some (String a l, r)).
  destruct (Ascii.eqb_spec a ":"); [done|]. by rewrite (IH H).
Qed.

Lemma split_colon_itoa z rest : split_colon (itoa z +:+ ":" +:+ rest) = Some (itoa z, rest).
Proof.
  destruct (itoa_shape z) as [(n & -> & ->)|(n & -> & ->)].
  - apply split_colon_digits, pretty_N_parse.
  - change (split_colon (("-" +:+ pretty n) +:+ ":" +:+ rest)) with
      ('(l, r) ← split_colon (pretty n +:+ ":" +:+ rest); Some (String "-" l, r)).
    by rewrite (split_colon_digits (pretty n)) by apply pretty_N_parse.
Qed.

Lemma itoa_key_inj a b s t : itoa a +:+ ":" +:+ s = itoa b +:+ ":" +:+ t → a = b ∧ s = t.
Proof.
  intros E. assert (Some (itoa a, s) = Some (itoa b, t)) as H
    by (rewrite <-!split_colon_itoa; by rewrite E).
  injection H as H1 H2. split; [by apply itoa_inj|done].
Qed.

(** ** Trimmed composite keys *)

Lemma append_assoc s1 s2 s3 : (s1 +:+ s2) +:+ s3 = s1 +:+ s2 +:+ s3.
Proof. induction s1 as [|a s1 IH]; [done|]. exact (f_equal (String a) IH). Qed.

Lemma append_nil_r s : s +:+ "" = s.
Proof. induction s as [|a s IH]; [done|]. exact (f_equal (String a) IH). Qed.

Lemma rev_append s1 s2 : String.rev (s1 +:+ s2) = String.rev s2 +:+ String.rev s1.
Proof.
  induction s1 as [|a s1 IH]; [by rewrite append_nil_r|].
  change (String a s1 +:+ s2) with (String a (s1 +:+ s2)).
  by rewrite !rev_cons, IH, append_assoc.
Qed.

Lemma tight_append s1 s2 : s1 ≠ "" → tight s1 → tight (s1 +:+ s2).
Proof. by destruct s1. Qed.

Lemma TrimSpace_id s : tight s → tight (String.rev s) → TrimSpace s = s.
Proof. intros H1 H2. unfold TrimSpace. by rewrite !tight_trim_left, rev_rev by (rewrite ?tight_trim_left; done). Qed.

Lemma rev_TrimSpace_tight s : tight (String.rev (TrimSpace s)).
Proof. unfold TrimSpace. rewrite rev_rev. apply trim_left_tight. Qed.

Lemma tight_upper s : tight s → tight (ToUpper s).
Proof. destruct s as [|a s]; [done|]. simpl. by rewrite upper_byte_space. Qed.

Lemma rev_normalize_tight s : tight (String.rev (normalize_upper s)).
Proof.
  unfold normalize_upper, ToUpper. rewrite <-string_map_rev. apply tight_upper, rev_TrimSpace_tight.
Qed.

Lemma all_digits_tight s : all_digits s = true → tight s.
Proof.
  destruct s as [|a s]; [done|]. intros H. simpl.
  assert (is_digit a = true) as Ha by (by apply andb_true_iff in H as [? _]). clear H. revert Ha.
  by destruct a as [[] [] [] [] [] [] [] []].
Qed.

Lemma itoa_tight z : tight (itoa z) ∧ itoa z ≠ "".
Proof.
  destruct (itoa_shape z) as [(n & -> & ->)|(n & -> & ->)]; [|done].
  destruct (pretty_N_parse n) as (_ & Hd & Hne). split; [by apply all_digits_tight|done].
Qed.

(** [itoa m ++ ":" ++ name] is already trimmed when [name] is normalised. *)
Lemma TrimSpace_key m s : TrimSpace (itoa m +:+ ":" +:+ normalize_upper s) =
  itoa m +:+ ":" +:+ normalize_upper s.
Proof.
  apply TrimSpace_id.
  - apply tight_append; apply itoa_tight.
  - rewrite !rev_append. pose proof (rev_normalize_tight s) as Ht.
    destruct (String.rev (normalize_upper s)) as [|a t]; [done|]. done.
Qed.

(** ** Zero padding *)

Fixpoint no_colon (s : string) : bool :=
  match s with EmptyString => true | String a s => negb (Ascii.eqb a ":") && no_colon s end.

Lemma no_colon_append s1 s2 : no_colon (s1 +:+ s2) = no_colon s1 && no_colon s2.
Proof.
  induction s1 as [|a s1 IH]; [done|].
  change (no_colon (String a s1 +:+ s2)) with (negb (Ascii.eqb a ":") && no_colon (s1 +:+ s2)).
  cbn [no_colon]. by rewrite IH, andb_assoc.
Qed.

Lemma all_digits_no_colon s : all_digits s = true → no_colon s = true.
Proof.
  induction s as [|a s IH]; [done|]. intros H. pose proof (digit_not a s ":" H eq_refl) as Ha.
  apply andb_true_iff in H as [_ H]. cbn [no_colon]. rewrite (IH H), andb_true_r.
  by destruct (Ascii.eqb_spec a ":").
Qed.

Lemma split_no_colon s rest : no_colon s = true → split_colon (s +:+ ":" +:+ rest) = Some (s, rest).
Proof.
  induction s as [|a s IH]; [done|]. intros [H1 H2]%andb_true_iff.
  change (split_colon (String a s +:+ ":" +:+ rest)) with
    (if Ascii.eqb a ":" then Some ("", s +:+ ":" +:+ rest)
     else '(l, r) ← split_colon (s +:+ ":" +:+ rest); Some (String a l, r)).
  destruct (Ascii.eqb a ":"); [done|]. by rewrite (IH H2).
Qed.

Lemma no_colon_rev s : no_colon (String.rev s) = no_colon s.
Proof.
  induction s as [|a s IH]; [done|]. rewrite rev_cons, no_colon_append, IH. simpl.
  by rewrite andb_true_r, andb_comm.
Qed.

(** The part after the last separator is unique when it has none itself. *)
Lemma last_colon_inj k1 k2 d1 d2 :
  no_colon d1 = true → no_colon d2 = true →
  k1 +:+ ":" +:+ d1 = k2 +:+ ":" +:+ d2 → k1 = k2 ∧ d1 = d2.
Proof.
  intros H1 H2 E. assert (String.rev (k1 +:+ ":" +:+ d1) = String.rev (k2 +:+ ":" +:+ d2)) as Er
    by by rewrite E.
  rewrite !rev_append in Er. change (String.rev ":") with ":" in Er. rewrite !append_assoc in Er.
  assert (Some (String.rev d1, String.rev k1) = Some (String.rev d2, String.rev k2)) as H.
  { rewrite <-!split_no_colon by (by rewrite no_colon_rev). by rewrite Er. }
  injection H as Hd Hk. split; [by rewrite <-(rev_rev k1), Hk, rev_rev|].
  by rewrite <-(rev_rev d1), Hd, rev_rev.
Qed.

Lemma all_digits_upper s : all_digits s = true → ToUpper s = s.
Proof.
  unfold ToUpper. induction s as [|a s IH]; [done|]. cbn [all_digits string_map].
  intros [Ha Hs]%andb_true_iff. rewrite (IH Hs). f_equal. revert Ha.
  by destruct a as [[] [] [] [] [] [] [] []].
Qed.

Lemma itoa_upper z : ToUpper (itoa z) = itoa z.
Proof.
  destruct (itoa_shape z) as [(n & -> & ->)|(n & -> & ->)];
    destruct (pretty_N_parse n) as (_ & Hd & _); [by apply all_digits_upper|].
  exact (f_equal (String "-") (all_digits_upper _ Hd)).
Qed.

(** A string that starts with a non-space does not normalise to nothing. *)
Lemma normalize_upper_nonempty s : s ≠ "" → tight s → normalize_upper s ≠ "".
Proof.
  destruct s as [|a s]; [done|]. intros _ Ha. simpl in Ha. unfold normalize_upper, TrimSpace.
  rewrite (tight_trim_left (String a s)) by done. rewrite rev_cons.
  destruct (trim_left_snoc a (String.rev s) Ha) as [t ->]. by rewrite rev_snoc.
Qed.

(** ** Lower case *)

Lemma lower_byte_space a : is_space_byte (lower_byte a) = is_space_byte a.
Proof. by destruct a as [[] [] [] [] [] [] [] []]. Qed.

Lemma lower_byte_idem a : lower_byte (lower_byte a) = lower_byte a.
Proof. by destruct a as [[] [] [] [] [] [] [] []]. Qed.

Lemma trim_left_lower s : trim_left (ToLower s) = ToLower (trim_left s).
Proof.
  induction s as [|a s IH]; simpl; [done|]. rewrite lower_byte_space.
  by destruct (is_space_byte a).
Qed.

Lemma TrimSpace_lower s : TrimSpace (ToLower s) = ToLower (TrimSpace s).
Proof.
  unfold TrimSpace. rewrite trim_left_lower. unfold ToLower. rewrite <-string_map_rev.
  fold (ToLower (String.rev (trim_left s))). rewrite trim_left_lower. unfold ToLower.
  by rewrite <-string_map_rev.
Qed.

Lemma ToLower_idem s : ToLower (ToLower s) = ToLower s.
Proof.
  unfold ToLower. induction s as [|a s IH]; cbn [string_map]; [done|].
  by rewrite lower_byte_idem, IH.
Qed.

Lemma lower_trim_idem s : ToLower (TrimSpace (ToLower (TrimSpace s))) = ToLower (TrimSpace s).
Proof. by rewrite TrimSpace_lower, TrimSpace_idem, ToLower_idem. Qed.

Lemma string_map_append f s1 s2 : string_map f (s1 +:+ s2) = string_map f s1 +:+ string_map f s2.
Proof. induction s1 as [|a s1 IH]; [done|]. exact (f_equal (String (f a)) IH). Qed.

Lemma all_digits_lower s : all_digits s = true → ToLower s = s.
Proof.
  unfold ToLower. induction s as [|a s IH]; [done|]. cbn [all_digits string_map].
  intros [Ha Hs]%andb_true_iff. rewrite (IH Hs). f_equal. revert Ha.
  by destruct a as [[] [] [] [] [] [] [] []].
Qed.

Lemma itoa_lower z : ToLower (itoa z) = itoa z.
Proof.
  destruct (itoa_shape z) as [(n & -> & ->)|(n & -> & ->)];
    destruct (pretty_N_parse n) as (_ & Hd & _); [by apply all_digits_lower|].
  exact (f_equal (String "-") (all_digits_lower _ Hd)).
Qed.

(** A string that starts with a non-space does not trim to nothing. *)
Lemma TrimSpace_nonempty s : s ≠ "" → tight s → TrimSpace s ≠ "".
Proof.
  destruct s as [|a s]; [done|]. intros _ Ha. simpl in Ha. unfold TrimSpace.
  rewrite (tight_trim_left (String a s)) by done. rewrite rev_cons.
  destruct (trim_left_snoc a (String.rev s) Ha) as [t ->]. by rewrite rev_snoc.
Qed.

(** ** Big-endian integers and hexadecimal text

    What the rollup uses of [encoding/binary] and [encoding/hex].  A byte slice is a
    string, one character per byte. *)

Local Open Scope Z_scope.

(** ** [encoding/binary] *)

Definition byte_of (z : Z) : ascii := ascii_of_N (Z.to_N (z mod 256)).

(** The [n] low bytes of [z], most significant first. *)
Fixpoint big_endian (n : nat) (z : Z) : string :=
  match n with
  | O => ""
  | S n => String (byte_of (z / 256 ^ Z.of_nat n)) (big_endian n z)
  end.

(** [binary.BigEndian.PutUint64] of [uint64(z)], [PutUint32] of [uint32(z)]. *)
Definition PutUint64 (z : Z) : string := big_endian 8 z.
Definition PutUint32 (z : Z) : string := big_endian 4 z.

Lemma length_big_endian n z : String.length (big_endian n z) = n.
Proof. induction n as [|n IH]; [done|]. simpl. by rewrite IH. Qed.

Lemma byte_of_inj z1 z2 : byte_of z1 = byte_of z2 → z1 mod 256 = z2 mod 256.
Proof.
  unfold byte_of. intros E%(f_equal N_of_ascii).
  pose proof (Z.mod_pos_bound z1 256 ltac:(lia)). pose proof (Z.mod_pos_bound z2 256 ltac:(lia)).
  rewrite !N_ascii_embedding in E by lia. lia.
Qed.

Lemma big_endian_inj n z1 z2 :
  big_endian n z1 = big_endian n z2 → z1 mod 256 ^ Z.of_nat n = z2 mod 256 ^ Z.of_nat n.
Proof.
  induction n as [|n IH]; [by rewrite !Z.mod_1_r|]. cbn [big_endian]. intros [= E1 E2].
  apply byte_of_inj in E1. specialize (IH E2).
  set (p := 256 ^ Z.of_nat n) in *. assert (0 < p) as Hp by (apply Z.pow_pos_nonneg; lia).
  replace (256 ^ Z.of_nat (S n)) with (p * 256) by (unfold p; rewrite Nat2Z.inj_succ, Z.pow_succ_r; lia).
  by rewrite !Z.rem_mul_r, E1, IH by lia.
Qed.

Lemma PutUint64_inj z1 z2 : uint64 z1 → uint64 z2 → PutUint64 z1 = PutUint64 z2 → z1 = z2.
Proof.
  intros H1 H2 E%big_endian_inj. unfold uint64 in *.
  change (256 ^ Z.of_nat 8) with 18446744073709551616 in E. rewrite !Z.mod_small in E by lia. done.
Qed.

(** ** [encoding/hex] *)

Definition hex_digit (n : N) : ascii :=
  if (n <? 10)%N then ascii_of_N (48 + n) else ascii_of_N (87 + n).

Fixpoint EncodeToString (s : string) : string :=
  match s with
  | EmptyString => EmptyString
  | String b s =>
      String (hex_digit (N_of_ascii b / 16)) (String (hex_digit (N_of_ascii b mod 16)) (EncodeToString s))
  end.

Definition fromHexChar (c : ascii) : option N :=
  let n := N_of_ascii c in
  if ((48 <=? n) && (n <=? 57))%N then Some (n - 48)%N
  else if ((97 <=? n) && (n <=? 102))%N then Some (n - 87)%N
  else if ((65 <=? n) && (n <=? 70))%N then Some (n - 55)%N
  else None.

Fixpoint DecodeString (s : string) : option string :=
  match s with
  | EmptyString => Some EmptyString
  | String _ EmptyString => None
  | String a (String b s) =>
      hi ← fromHexChar a; lo ← fromHexChar b; rest ← DecodeString s;
      Some (String (ascii_of_N (hi * 16 + lo)) rest)
  end.

Lemma hex_byte (b : ascii) :
  fromHexChar (hex_digit (N_of_ascii b / 16)) = Some (N_of_ascii b / 16)%N ∧
  fromHexChar (hex_digit (N_of_ascii b mod 16)) = Some (N_of_ascii b mod 16)%N ∧
  ascii_of_N (N_of_ascii b / 16 * 16 + N_of_ascii b mod 16) = b.
Proof. by destruct b as [[] [] [] [] [] [] [] []]. Qed.

Lemma DecodeString_Encode s : DecodeString (EncodeToString s) = Some s.
Proof.
  induction s as [|b s IH]; [done|]. cbn [EncodeToString DecodeString].
  destruct (hex_byte b) as (-> & -> & E). simpl. rewrite IH. simpl. by rewrite E.
Qed.

Lemma EncodeToString_inj s1 s2 : EncodeToString s1 = EncodeToString s2 → s1 = s2.
Proof. intros E%(f_equal DecodeString). rewrite !DecodeString_Encode in E. congruence. Qed.

Lemma length_EncodeToString s : String.length (EncodeToString s) = (2 * String.length s)%nat.
Proof. induction s as [|b s IH]; [done|]. cbn [EncodeToString String.length]. rewrite IH. lia. Qed.

(** [strings.TrimPrefix(s, "0x")]. *)
Definition TrimPrefix0x (s : string) : string :=
  match s with
  | String a (String b s') => if Ascii.eqb a "0" && Ascii.eqb b "x" then s' else s
  | _ => s
  end.

Definition hex_text (s : string) : string := "0x" +:+ EncodeToString s.
(** [hex.DecodeString(strings.TrimPrefix(strings.TrimSpace(s), "0x"))]. *)
Definition hex_bytes (s : string) : option string := DecodeString (TrimPrefix0x (TrimSpace s)).

Fixpoint no_space (s : string) : bool :=
  match s with EmptyString => true | String a s => negb (is_space_byte a) && no_space s end.

Lemma no_space_append s1 s2 : no_space (s1 +:+ s2) = no_space s1 && no_space s2.
Proof.
  induction s1 as [|a s1 IH]; [done|]. change (String a s1 +:+ s2) with (String a (s1 +:+ s2)).
  cbn [no_space]. by rewrite IH, andb_assoc.
Qed.

Lemma no_space_rev s : no_space (String.rev s) = no_space s.
Proof.
  induction s as [|a s IH]; [done|]. rewrite rev_cons, no_space_append, IH. cbn [no_space].
  by rewrite andb_true_r, andb_comm.
Qed.

Lemma no_space_tight s : no_space s = true → tight s.
Proof. destruct s as [|a s]; [done|]. cbn [no_space tight]. by intros [?%negb_true_iff _]%andb_true_iff. Qed.

Lemma TrimSpace_no_space s : no_space s = true → TrimSpace s = s.
Proof. intros H. apply TrimSpace_id; apply no_space_tight; by rewrite ?no_space_rev. Qed.

Lemma no_space_hex s : no_space (EncodeToString s) = true.
Proof.
  induction s as [|b s IH]; [done|]. cbn [EncodeToString no_space]. rewrite IH.
  by destruct b as [[] [] [] [] [] [] [] []].
Qed.

Lemma hex_bytes_text s : hex_bytes (hex_text s) = Some s.
Proof.
  unfold hex_bytes. rewrite TrimSpace_no_space; [exact (DecodeString_Encode s)|].
  unfold hex_text. by rewrite no_space_append, no_space_hex.
Qed.

(** ** Length-prefixed concatenation ([hashStrings]) *)

Fixpoint length_prefixed (parts : list string) : string :=
  match parts with
  | [] => ""
  | part :: parts => PutUint64 (Z.of_nat (String.length part)) +:+ part +:+ length_prefixed parts
  end.

(** A part whose length fits its eight bytes. *)
Definition short (s : string) : Prop := Z.of_nat (String.length s) < 2 ^ 64.

Lemma append_inj_l s1 s2 t1 t2 :
  String.length s1 = String.length s2 → s1 +:+ t1 = s2 +:+ t2 → s1 = s2 ∧ t1 = t2.
Proof.
  revert s2. induction s1 as [|a s1 IH]; intros [|b s2]; try done. intros [= Hl].
  change (String a s1 +:+ t1) with (String a (s1 +:+ t1)).
  change (String b s2 +:+ t2) with (String b (s2 +:+ t2)).
  intros [= -> E]. by destruct (IH s2 Hl E) as [-> ->].
Qed.

Lemma length_prefixed_inj l1 l2 :
  Forall short l1 → Forall short l2 → length_prefixed l1 = length_prefixed l2 → l1 = l2.
Proof.
  intros H1. revert l2. induction H1 as [|p1 l1 Hp1 _ IH]; intros l2 H2.
  { destruct H2 as [|p2 l2 _ _]; [done|]. discriminate 1. }
  destruct H2 as [|p2 l2 Hp2 H2]; [discriminate 1|]. cbn [length_prefixed]. intros E.
  apply append_inj_l in E as [E1 E]; [|unfold PutUint64; by rewrite !length_big_endian].
  apply PutUint64_inj in E1; [|unfold short, uint64 in *; lia..].
  apply append_inj_l in E as [-> E]; [|lia]. by rewrite (IH l2 H2 E).
Qed.
