(* ===== verification/Shared.v ===== *)
(** * Shared packages: fees, assets and units

    [shared/fee/schedule.go], [shared/assets/assets.go] and
    [shared/assets/units.go].  Amounts are [int64]; Go's integer division
    truncates towards zero ([Z.quot], [Z.rem]). *)

From S2P Require Import Prelude Strings.

Local Open Scope Z_scope.
Local Open Scope go_scope.

(** ** Fees *)

Inductive FeeError :=
| ErrFeeOverflow (amount bps : Z)
| ErrTakerFeeOverflow (e : FeeError)
| ErrMakerFeeOverflow (e : FeeError).

Record Schedule := mkSchedule { TakerFeeBps : Z; MakerFeeBps : Z }.
Record FeeResult := mkFeeResult { TakerFee : Z; MakerFee : Z }.

Definition DefaultSchedule : Schedule := mkSchedule 200 (-50).

Definition NetTakerCredit (r : FeeResult) (grossCredit : Z) : Z := grossCredit ⊟ TakerFee r.
Definition NetMakerCredit (r : FeeResult) (grossCredit : Z) : Z := grossCredit ⊟ MakerFee r.
Definition PlatformRevenue (r : FeeResult) : Z := TakerFee r ⊞ MakerFee r.

Definition applyBps (amount bps : Z) : result FeeError Z :=
  if bps =? 0 then Ok 0
  else
    let absBps := if bps <? 0 then wrap64 (- bps) else bps in
    if MaxInt64 `quot` absBps <? amount then Err (ErrFeeOverflow amount bps)
    else Ok ((amount ⊠ bps) `quot` 10000).

Definition Compute (s : Schedule) (notional : Z) : result FeeError FeeResult :=
  if notional <=? 0 then Ok (mkFeeResult 0 0)
  else
    match applyBps notional (TakerFeeBps s) with
    | Err e => Err (ErrTakerFeeOverflow e)
    | Ok takerFee =>
        match applyBps notional (MakerFeeBps s) with
        | Err e => Err (ErrMakerFeeOverflow e)
        | Ok makerFee => Ok (mkFeeResult takerFee makerFee)
        end
    end.

(** ** Assets *)

Inductive AssetError :=
| ErrWinningQuantity
| ErrPayoutOverflow
| ErrNegativeAmount
| ErrNegativeDecimals
| ErrAmountOverflow
| ErrPrecision (amount : Z) (digits : Z)
| ErrNegativeExponent
| ErrPow10Overflow.

Definition DefaultCollateralAsset : string := "USDT".
Definition DefaultWinningSharePayout : Z := 100.
Definition DefaultCollateralDisplayDigits : Z := 2.
Definition DefaultCollateralChainDecimals : Z := 6.

Definition NormalizeAsset (asset : string) : string :=
  let normalized := normalize_upper asset in
  if String.eqb normalized "" then DefaultCollateralAsset else normalized.

Definition PositionAsset (marketID : Z) (outcome : string) : string :=
  "POSITION:" +:+ itoa marketID +:+ ":" +:+ normalize_upper outcome.

(** The name of a position asset is its own normal form. *)
Lemma PositionAsset_normal m o : normalize_upper (PositionAsset m o) = PositionAsset m o.
Proof.
  unfold normalize_upper at 1, PositionAsset. rewrite TrimSpace_id.
  - unfold ToUpper. rewrite !string_map_append.
    change (string_map upper_byte) with ToUpper. rewrite itoa_upper.
    assert (ToUpper (normalize_upper o) = normalize_upper o) as -> by apply ToUpper_idem. done.
  - done.
  - rewrite !rev_append. pose proof (rev_normalize_tight o) as Ht.
    by destruct (String.rev (normalize_upper o)) as [|a t].
Qed.

(** [d] at the balance of [(u, s)], nothing elsewhere. *)
Definition on_balance (u : Z) (s : string) (d : Z) (u' : Z) (s' : string) : Z :=
  if bool_decide (u = u' ∧ normalize_upper s = normalize_upper s') then d else 0.

Lemma on_balance_opp u s d u' s' : on_balance u s (- d) u' s' = - on_balance u s d u' s'.
Proof. unfold on_balance. case_bool_decide; lia. Qed.
Lemma on_balance_0 u s u' s' : on_balance u s 0 u' s' = 0.
Proof. unfold on_balance. by case_bool_decide. Qed.

Definition WinningPayoutAmount (quantity : Z) : result AssetError Z :=
  if quantity <=? 0 then Err ErrWinningQuantity
  else if MaxInt64 `quot` DefaultWinningSharePayout <? quantity then Err ErrPayoutOverflow
  else Ok (quantity ⊠ DefaultWinningSharePayout).

(** ** Units *)

Definition AccountingDigits (asset : string) : Z :=
  if String.eqb (NormalizeAsset asset) DefaultCollateralAsset
  then DefaultCollateralDisplayDigits else 0.

Definition ChainDecimals (asset : string) : Z :=
  if String.eqb (NormalizeAsset asset) DefaultCollateralAsset
  then DefaultCollateralChainDecimals else AccountingDigits asset.

Fixpoint pow10_loop (n : nat) (value : Z) : result AssetError Z :=
  match n with
  | O => Ok value
  | S n => if MaxInt64 `quot` 10 <? value then Err ErrPow10Overflow else pow10_loop n (value ⊠ 10)
  end.

Definition pow10Int64 (exp : Z) : result AssetError Z :=
  if exp <? 0 then Err ErrNegativeExponent else pow10_loop (Z.to_nat exp) 1.

Definition scale_up (amount factor : Z) : result AssetError Z :=
  if MaxInt64 `quot` factor <? amount then Err ErrAmountOverflow else Ok (amount ⊠ factor).

Definition ChainToAccountingAmountFloor (rawAmount chainDecimals accountingDigits : Z)
    : result AssetError Z :=
  if rawAmount <? 0 then Err ErrNegativeAmount
  else if (chainDecimals <? 0) || (accountingDigits <? 0) then Err ErrNegativeDecimals
  else if chainDecimals =? accountingDigits then Ok rawAmount
  else
    let diff := chainDecimals ⊟ accountingDigits in
    if 0 <? diff then
      factor ← pow10Int64 diff;
      Ok (rawAmount `quot` factor)
    else
      factor ← pow10Int64 (- diff);
      scale_up rawAmount factor.

Definition ChainToAccountingAmount (rawAmount chainDecimals accountingDigits : Z)
    : result AssetError Z :=
  if rawAmount <? 0 then Err ErrNegativeAmount
  else if (chainDecimals <? 0) || (accountingDigits <? 0) then Err ErrNegativeDecimals
  else if chainDecimals =? accountingDigits then Ok rawAmount
  else
    let diff := chainDecimals ⊟ accountingDigits in
    if 0 <? diff then
      factor ← pow10Int64 diff;
      if negb (rawAmount `rem` factor =? 0) then Err (ErrPrecision rawAmount accountingDigits)
      else Ok (rawAmount `quot` factor)
    else
      factor ← pow10Int64 (- diff);
      scale_up rawAmount factor.

Definition AccountingToChainAmount (accountingAmount chainDecimals accountingDigits : Z)
    : result AssetError Z :=
  if accountingAmount <? 0 then Err ErrNegativeAmount
  else if (chainDecimals <? 0) || (accountingDigits <? 0) then Err ErrNegativeDecimals
  else if chainDecimals =? accountingDigits then Ok accountingAmount
  else
    let diff := chainDecimals ⊟ accountingDigits in
    if 0 <? diff then
      factor ← pow10Int64 diff;
      scale_up accountingAmount factor
    else
      factor ← pow10Int64 (- diff);
      if negb (accountingAmount `rem` factor =? 0)
      then Err (ErrPrecision accountingAmount chainDecimals)
      else Ok (accountingAmount `quot` factor).

Definition AccountingToAssetChainAmount (asset : string) (amount : Z) : result AssetError Z :=
  AccountingToChainAmount amount (ChainDecimals asset) (AccountingDigits asset).

Definition ChainToAssetAccountingAmount (asset : string) (amount : Z) : result AssetError Z :=
  ChainToAccountingAmount amount (ChainDecimals asset) (AccountingDigits asset).

(** ** Arithmetic *)

(** The guard [amount > MaxInt64 / f] is exactly the overflow test. *)
Lemma quot_guard a f : 0 < f → 0 ≤ a → (MaxInt64 `quot` f <? a) = false ↔ a * f ≤ MaxInt64.
Proof.
  intros Hf Ha. rewrite Z.ltb_ge, Z.quot_div_nonneg by (unfold MaxInt64; lia).
  split; intros H.
  - pose proof (Z.mul_div_le MaxInt64 f Hf). nia.
  - apply Z.div_le_lower_bound; lia.
Qed.

Lemma mul_fits a f : 0 ≤ a → 0 ≤ f → a * f ≤ MaxInt64 → a ⊠ f = a * f.
Proof. intros. apply wrap64_id. unfold int64, MinInt64, MaxInt64 in *. nia. Qed.

Lemma scale_up_ok a f r :
  0 ≤ a → 0 < f → scale_up a f = Ok r ↔ r = a * f ∧ a * f ≤ MaxInt64.
Proof.
  intros Ha Hf. unfold scale_up. pose proof (quot_guard a f Hf Ha) as Hg.
  destruct (MaxInt64 `quot` f <? a).
  - split; [done|]. intros [_ H]. by apply Hg in H.
  - assert (a * f ≤ MaxInt64) as Hle by by apply Hg.
    rewrite mul_fits by lia. naive_solver.
Qed.

Lemma pow10_loop_ok n v r :
  0 < v → pow10_loop n v = Ok r → r = v * 10 ^ Z.of_nat n ∧ r ≤ Z.max v MaxInt64.
Proof.
  revert v. induction n as [|n IH]; intros v Hv; cbn [pow10_loop].
  { intros [= <-]. rewrite Z.mul_1_r. lia. }
  destruct (MaxInt64 `quot` 10 <? v) eqn:Hg; [done|].
  apply quot_guard in Hg; [|lia|lia]. rewrite mul_fits by lia. intros Hr.
  destruct (IH (v * 10) ltac:(lia) Hr) as [-> Hle]. split; [|lia].
  rewrite Nat2Z.inj_succ, Z.pow_succ_r by lia. lia.
Qed.

Lemma pow10Int64_ok e f : pow10Int64 e = Ok f → 0 ≤ e ∧ f = 10 ^ e ∧ 0 < f ≤ MaxInt64.
Proof.
  unfold pow10Int64. destruct (Z.ltb_spec e 0); [done|]. intros Hr.
  destruct (pow10_loop_ok (Z.to_nat e) 1 f ltac:(lia) Hr) as [-> Hle].
  rewrite Z2Nat.id in * by lia. split_and!; [done|lia|lia|]. unfold MaxInt64 in *. lia.
Qed.

Lemma applyBps_exact amount bps r :
  0 < amount → int64 bps → applyBps amount bps = Ok r →
  r = (amount * bps) `quot` 10000 ∧ - MaxInt64 ≤ amount * bps ≤ MaxInt64.
Proof.
  intros Ha Hb. unfold applyBps. destruct (Z.eqb_spec bps 0) as [->|Hne].
  { intros [= <-]. rewrite Z.mul_0_r. unfold MaxInt64. done. }
  unfold int64, MinInt64, MaxInt64 in Hb.
  destruct (Z.ltb_spec bps 0) as [Hneg|Hpos].
  - destruct (Z.eq_dec bps (- 2 ^ 63)) as [->|Hmin].
    { assert (wrap64 (- - 2 ^ 63) = - 2 ^ 63) as -> by done.
      assert (MaxInt64 `quot` (- 2 ^ 63) = 0) as -> by done.
      rewrite (proj2 (Z.ltb_lt _ _)) by lia. done. }
    rewrite wrap64_id by (unfold int64, MinInt64, MaxInt64; lia).
    destruct (MaxInt64 `quot` (- bps) <? amount) eqn:Hg; [done|].
    apply quot_guard in Hg; [|lia|lia]. intros [= <-].
    rewrite wrap64_id by (unfold int64, MinInt64, MaxInt64 in *; lia). lia.
  - destruct (MaxInt64 `quot` bps <? amount) eqn:Hg; [done|].
    apply quot_guard in Hg; [|lia|lia]. intros [= <-].
    rewrite mul_fits by lia. nia.
Qed.

(** ** Properties *)

(** C12: fees never overflow silently: when [Compute] succeeds on a positive
    notional, both fees are the exact mathematical quotients rounded towards
    zero. *)
Theorem compute_exact s notional r :
  0 < notional → int64 (TakerFeeBps s) → int64 (MakerFeeBps s) →
  Compute s notional = Ok r →
  TakerFee r = (notional * TakerFeeBps s) `quot` 10000 ∧
  MakerFee r = (notional * MakerFeeBps s) `quot` 10000.
Proof.
  intros Hn Ht Hm. unfold Compute. rewrite (proj2 (Z.leb_gt _ _)) by lia.
  destruct (applyBps notional (TakerFeeBps s)) as [t|] eqn:E1; [|done].
  destruct (applyBps notional (MakerFeeBps s)) as [m|] eqn:E2; [|done]. intros [= <-]. simpl.
  split; [by apply (applyBps_exact _ _ _ Hn Ht) in E1 as [? _]
         |by apply (applyBps_exact _ _ _ Hn Hm) in E2 as [? _]].
Qed.

Lemma compute_exact_witness :
  Compute DefaultSchedule 12345 = Ok (mkFeeResult 246 (-61)) ∧
  TakerFee (mkFeeResult 246 (-61)) = (12345 * 200) `quot` 10000 ∧
  MakerFee (mkFeeResult 246 (-61)) = (12345 * -50) `quot` 10000.
Proof.
  split; [reflexivity|].
  apply (compute_exact DefaultSchedule 12345 (mkFeeResult 246 (-61)));
    [lia|done|done|reflexivity].
Defined.

(** Under the default schedule the platform never pays out of its own
    pocket and no fee exceeds the notional: the taker fee covers the maker
    rebate, and the seller's net credit stays within [0, 2 * notional]. *)
Theorem default_schedule_solvent notional r :
  0 < notional ≤ MaxInt64 → Compute DefaultSchedule notional = Ok r →
  0 ≤ PlatformRevenue r ≤ notional ∧ 0 ≤ TakerFee r ≤ notional ∧
  - notional ≤ MakerFee r ≤ 0 ∧ 0 ≤ NetTakerCredit r notional.
Proof.
  intros Hn E.
  assert (TakerFee r = (notional * 200) `quot` 10000 ∧ MakerFee r = (notional * -50) `quot` 10000)
    as [Et Em].
  { revert E. unfold Compute. rewrite (proj2 (Z.leb_gt _ _)) by lia.
    destruct (applyBps notional (TakerFeeBps DefaultSchedule)) as [t|] eqn:E1; [|done].
    destruct (applyBps notional (MakerFeeBps DefaultSchedule)) as [m|] eqn:E2; [|done].
    intros [= <-]. apply applyBps_exact in E1 as [-> _], E2 as [-> _]; (done || lia). }
  assert (MakerFee r = - ((notional * 50) / 10000)) as Em'.
  { rewrite Em. replace (notional * -50) with (- (notional * 50)) by lia.
    rewrite Z.quot_opp_l by lia. rewrite Z.quot_div_nonneg by lia. done. }
  rewrite Z.quot_div_nonneg in Et by lia.
  pose proof (Z.div_le_mono (notional * 50) (notional * 200) 10000 ltac:(lia) ltac:(lia)).
  assert ((notional * 200) / 10000 ≤ notional) by (apply Z.div_le_upper_bound; lia).
  pose proof (Z.div_pos (notional * 50) 10000 ltac:(lia) ltac:(lia)).
  unfold PlatformRevenue, NetTakerCredit.
  rewrite !wrap64_id by (unfold int64, MinInt64, MaxInt64 in *; lia). lia.
Qed.

Lemma default_schedule_solvent_witness :
  0 ≤ PlatformRevenue (mkFeeResult 20 (-5)) ≤ 1000 ∧ 0 ≤ TakerFee (mkFeeResult 20 (-5)) ≤ 1000 ∧
  - 1000 ≤ MakerFee (mkFeeResult 20 (-5)) ≤ 0 ∧ 0 ≤ NetTakerCredit (mkFeeResult 20 (-5)) 1000.
Proof.
  apply (default_schedule_solvent 1000 (mkFeeResult 20 (-5))); [unfold MaxInt64; lia|reflexivity].
Defined.

(** What both conversions compute when they succeed. *)
Lemma AccountingToChain_ok a c d r :
  0 ≤ c ≤ 1000 → 0 ≤ d ≤ 1000 → AccountingToChainAmount a c d = Ok r →
  0 ≤ a ∧ if d <=? c then r = a * 10 ^ (c - d) ∧ (c ≠ d → r ≤ MaxInt64)
          else a = r * 10 ^ (d - c) ∧ 0 ≤ r.
Proof.
  intros Hc Hd. unfold AccountingToChainAmount.
  destruct (Z.ltb_spec a 0); [done|]. destruct ((c <? 0) || (d <? 0)); [done|].
  destruct (Z.eqb_spec c d) as [->|Hne].
  { intros [= <-]. rewrite Z.leb_refl, Z.sub_diag. simpl. lia. }
  rewrite wrap64_id by (unfold int64, MinInt64, MaxInt64; lia).
  destruct (Z.ltb_spec 0 (c - d)).
  - rewrite (proj2 (Z.leb_le _ _)) by lia. destruct (pow10Int64 (c - d)) as [f|] eqn:Ef; [|done].
    apply pow10Int64_ok in Ef as (_ & -> & Hf). simpl.
    intros [-> Hle]%scale_up_ok; [|lia|lia]. lia.
  - rewrite (proj2 (Z.leb_gt _ _)) by lia. destruct (pow10Int64 (- (c - d))) as [f|] eqn:Ef; [|done].
    apply pow10Int64_ok in Ef as (_ & -> & Hf). simpl.
    replace (- (c - d)) with (d - c) in * by lia.
    destruct (Z.eqb_spec (a `rem` 10 ^ (d - c)) 0) as [Hr|]; [|done]. simpl. intros [= <-].
    pose proof (Z.quot_rem' a (10 ^ (d - c))). split; [done|]. split; [lia|].
    apply Z.quot_pos; lia.
Qed.

(** Converting an accounting amount to chain units and back gives the
    amount back, whenever the first conversion succeeds within [int64]. *)
Theorem units_round_trip a c d r :
  0 ≤ c ≤ 1000 → 0 ≤ d ≤ 1000 → a ≤ MaxInt64 →
  AccountingToChainAmount a c d = Ok r → ChainToAccountingAmount r c d = Ok a.
Proof.
  intros Hc Hd Ha E. destruct (AccountingToChain_ok a c d r Hc Hd E) as [H0 Hr].
  assert (Hpow := E). revert Hpow. unfold AccountingToChainAmount, ChainToAccountingAmount.
  rewrite (proj2 (Z.ltb_ge a 0)) by lia.
  assert (0 ≤ r) as Hr0 by (destruct (Z.leb_spec d c);
    [destruct Hr as [-> _]; apply Z.mul_nonneg_nonneg; [lia|by apply Z.pow_nonneg]|lia]).
  rewrite (proj2 (Z.ltb_ge r 0)) by lia. destruct ((c <? 0) || (d <? 0)); [done|].
  destruct (Z.eqb_spec c d); [congruence|].
  rewrite wrap64_id by (unfold int64, MinInt64, MaxInt64; lia).
  destruct (Z.ltb_spec 0 (c - d)).
  - rewrite (proj2 (Z.leb_le _ _)) in Hr by lia. destruct Hr as [-> Hle].
    destruct (pow10Int64 (c - d)) as [f|] eqn:Ef; [|done].
    apply pow10Int64_ok in Ef as (_ & -> & Hf). intros _. simpl.
    rewrite Z.rem_mul, Z.quot_mul by lia. done.
  - rewrite (proj2 (Z.leb_gt _ _)) in Hr by lia. destruct Hr as [-> _].
    destruct (pow10Int64 (- (c - d))) as [f|] eqn:Ef; [|done].
    apply pow10Int64_ok in Ef as (_ & -> & Hf). intros _. simpl.
    replace (- (c - d)) with (d - c) in * by lia. apply scale_up_ok; [lia|lia|]. done.
Qed.

Lemma units_round_trip_witness : ChainToAccountingAmount 1230000 6 2 = Ok 123.
Proof. apply (units_round_trip 123 6 2 1230000); [lia|lia|unfold MaxInt64; lia|reflexivity]. Defined.

(** The floor conversion never credits more than was received, loses less
    than one accounting unit, and agrees with the strict conversion whenever
    that one succeeds. *)
Theorem floor_conversion_sound raw c d r :
  0 ≤ d < c → c ≤ 1000 → ChainToAccountingAmountFloor raw c d = Ok r →
  0 ≤ r ∧ r * 10 ^ (c - d) ≤ raw < (r + 1) * 10 ^ (c - d) ∧
  ∀ r', ChainToAccountingAmount raw c d = Ok r' → r' = r.
Proof.
  intros Hd Hc. unfold ChainToAccountingAmountFloor, ChainToAccountingAmount.
  destruct (Z.ltb_spec raw 0); [done|]. destruct ((c <? 0) || (d <? 0)); [done|].
  rewrite (proj2 (Z.eqb_neq c d)) by lia.
  rewrite wrap64_id by (unfold int64, MinInt64, MaxInt64; lia).
  rewrite (proj2 (Z.ltb_lt 0 (c - d))) by lia.
  destruct (pow10Int64 (c - d)) as [f|] eqn:Ef; [|done].
  apply pow10Int64_ok in Ef as (_ & Ef & Hf). simpl. rewrite <-Ef. intros [= <-].
  rewrite Z.quot_div_nonneg by lia.
  pose proof (Z.mul_div_le raw f ltac:(lia)). pose proof (Z.mul_succ_div_gt raw f ltac:(lia)).
  pose proof (Z.div_pos raw f ltac:(lia) ltac:(lia)). split_and!; [lia|lia|lia|].
  intros r'. by destruct (negb _); [|intros [= <-]].
Qed.

Lemma floor_conversion_sound_witness :
  0 ≤ 123 ∧ 123 * 10 ^ (6 - 2) ≤ 1234567 < (123 + 1) * 10 ^ (6 - 2) ∧
  ∀ r', ChainToAccountingAmount 1234567 6 2 = Ok r' → r' = 123.
Proof. apply (floor_conversion_sound 1234567 6 2 123); [lia|lia|reflexivity]. Defined.
