(* ===== verification/Messages.v ===== *)
(** * Messages between the services

    The event records of [shared/kafka/messages.go] that the modelled handlers
    consume or publish, with the fields of the JSON structs. *)

From S2P Require Import Prelude.

Local Open Scope Z_scope.

Module OrderCommand.
Record t := mk {
  CommandID : string;
  TraceID : string;
  OrderID : string;
  ClientOrderID : string;
  FreezeID : string;
  FreezeAsset : string;
  FreezeAmount : Z;
  CollateralAsset : string;
  UserID : Z;
  MarketID : Z;
  Outcome : string;
  BookKey : string;
  Side : string;
  Type_ : string;
  TimeInForce : string;
  STPStrategy : string;
  Price : Z;
  Quantity : Z;
  RequestedAtMillis : Z;
}.
End OrderCommand.

Module OrderEvent.
Record t := mk {
  EventID : string;
  CommandID : string;
  TraceID : string;
  OrderID : string;
  ClientOrderID : string;
  FreezeID : string;
  FreezeAsset : string;
  FreezeAmount : Z;
  CollateralAsset : string;
  UserID : Z;
  MarketID : Z;
  Outcome : string;
  Side : string;
  Type_ : string;
  TimeInForce : string;
  Status : string;
  CancelReason : string;
  Price : Z;
  Quantity : Z;
  FilledQuantity : Z;
  RemainingQuantity : Z;
  OccurredAtMillis : Z;
}.
End OrderEvent.

Module TradeMatchedEvent.
Record t := mk {
  EventID : string;
  TradeID : string;
  Sequence : Z;
  EpochID : Z;
  TraceID : string;
  CollateralAsset : string;
  MarketID : Z;
  Outcome : string;
  BookKey : string;
  Price : Z;
  Quantity : Z;
  TakerOrderID : string;
  MakerOrderID : string;
  TakerUserID : Z;
  MakerUserID : Z;
  TakerSide : string;
  MakerSide : string;
  TakerFeeBps : Z;
  MakerFeeBps : Z;
  TakerFee : Z;
  MakerFee : Z;
  OccurredAtMillis : Z;
}.
End TradeMatchedEvent.

Module PositionChangedEvent.
Record t := mk {
  EventID : string;
  TraceID : string;
  SourceTradeID : string;
  UserID : Z;
  MarketID : Z;
  Outcome : string;
  PositionAsset : string;
  DeltaQuantity : Z;
  OccurredAtMillis : Z;
}.
End PositionChangedEvent.

Module MarketEvent.
Record t := mk {
  EventID : string;
  TraceID : string;
  MarketID : Z;
  Status : string;
  ResolvedOutcome : string;
  OccurredAtMillis : Z;
}.
End MarketEvent.

Module SettlementCompletedEvent.
Record t := mk {
  EventID : string;
  MarketID : Z;
  UserID : Z;
  WinningOutcome : string;
  PositionAsset : string;
  SettledQuantity : Z;
  PayoutAsset : string;
  PayoutAmount : Z;
  OccurredAtMillis : Z;
}.
End SettlementCompletedEvent.

Module QuoteLevel.
Record t := mk { Price : Z; Quantity : Z }.
End QuoteLevel.

Module QuoteDepthEvent.
Record t := mk {
  EventID : string;
  TraceID : string;
  MarketID : Z;
  Outcome : string;
  BookKey : string;
  Bids : list QuoteLevel.t;
  Asks : list QuoteLevel.t;
  OccurredAtMillis : Z;
}.
End QuoteDepthEvent.

Module QuoteTickerEvent.
Record t := mk {
  EventID : string;
  TraceID : string;
  MarketID : Z;
  Outcome : string;
  BookKey : string;
  LastPrice : Z;
  LastQuantity : Z;
  BestBid : Z;
  BestAsk : Z;
  OccurredAtMillis : Z;
}.
End QuoteTickerEvent.

Module QuoteCandle.
Record t := mk {
  BucketStartMillis : Z;
  BucketEndMillis : Z;
  Open : Z;
  High : Z;
  Low : Z;
  Close : Z;
  Volume : Z;
  TradeCount : Z;
}.
End QuoteCandle.

Module QuoteCandleEvent.
Record t := mk {
  EventID : string;
  TraceID : string;
  MarketID : Z;
  Outcome : string;
  BookKey : string;
  IntervalSec : Z;
  Candles : list QuoteCandle.t;
  OccurredAtMillis : Z;
}.
Definition zero : t := mk "" "" 0 "" "" 0 [] 0.
End QuoteCandleEvent.

Module CustodyDepositEvent.
Record t := mk {
  DepositID : string;
  UserID : Z;
  Asset : string;
  CreditAsset : string;
  CreditAmount : Z;
  ChainAmount : string;
  TxHash : string;
  CreatedAt : Z;
}.
End CustodyDepositEvent.

(** ** Publishing events

    The [Publisher] interface of [shared/kafka/publisher.go] with the topics of
    [topics.go] and the payloads the modelled services send.  A topic's name is
    configuration: a topic is the field of the [Topics] struct it is read from. *)

Inductive Topic :=
| TopicOrderCommand
| TopicOrderEvent
| TopicTradeMatched
| TopicPositionChange
| TopicQuoteDepth
| TopicQuoteTicker
| TopicQuoteCandle
| TopicSettlementDone
| TopicMarketEvent
| TopicCustodyDeposit.

#[global] Instance Topic_eq_dec : EqDecision Topic.
Proof. solve_decision. Defined.

Inductive Payload :=
| PayloadCommand (e : OrderCommand.t)
| PayloadOrder (e : OrderEvent.t)
| PayloadTrade (e : TradeMatchedEvent.t)
| PayloadPosition (e : PositionChangedEvent.t)
| PayloadDepth (e : QuoteDepthEvent.t)
| PayloadTicker (e : QuoteTickerEvent.t)
| PayloadCandle (e : QuoteCandleEvent.t)
| PayloadSettlement (e : SettlementCompletedEvent.t)
| PayloadMarket (e : MarketEvent.t)
| PayloadCustodyDeposit (e : CustodyDepositEvent.t).

(** [BatchItem]: topic, key, payload. *)
Definition BatchItem : Type := Topic * string * Payload.

Class Publisher (P : Type) := {
  PublishJSON : P → Topic → string → Payload → P * option string;
  PublishJSONBatch : P → list BatchItem → P * option string;
}.

(** What a publisher promises: what it accepted is in its log, in order; of what it
    refused, any part may be. *)
Class PublisherLog (P : Type) `{!Publisher P} := {
  published : P → list BatchItem;
  publish_ok p t k v p' :
    PublishJSON p t k v = (p', None) → published p' = published p ++ [(t, k, v)];
  publish_err p t k v p' e :
    PublishJSON p t k v = (p', Some e) →
    published p' = published p ∨ published p' = published p ++ [(t, k, v)];
  publish_batch_ok p items p' :
    PublishJSONBatch p items = (p', None) → published p' = published p ++ items;
  publish_batch_err p items p' e :
    PublishJSONBatch p items = (p', Some e) →
    ∃ part, part `sublist_of` items ∧ published p' = published p ++ part;
}.

(** A publisher that keeps what it is given, and one that refuses everything. *)
#[export] Instance recording_publisher : Publisher (list BatchItem) := {|
  PublishJSON q t k v := (q ++ [(t, k, v)], None);
  PublishJSONBatch q items := (q ++ items, None);
|}.

#[export, refine] Instance recording_log : PublisherLog (list BatchItem) :=
  {| published q := q |}.
Proof.
  - by intros p t k v p' [= <-].
  - by intros p t k v p' e [=].
  - by intros p items p' [= <-].
  - by intros p items p' e [=].
Defined.

Record refusing := mkRefusing { kept : list BatchItem }.

#[export] Instance refusing_publisher : Publisher refusing := {|
  PublishJSON q t k v := (q, Some "broker unavailable");
  PublishJSONBatch q items := (q, Some "broker unavailable");
|}.

#[export, refine] Instance refusing_log : PublisherLog refusing := {| published := kept |}.
Proof.
  - by intros p t k v p' [=].
  - intros p t k v p' e [= <- _]. by left.
  - by intros p items p' [=].
  - intros p items p' e [= <- _]. exists []. split; [apply sublist_nil_l|by rewrite app_nil_r].
Defined.
