(* ===== verification/MatchModel.v ===== *)
(** * Matching: orders and trades

    The data of [backend/internal/matching/model]: the string enumerations of
    [types.go], the [Order] of [order.go], the [Trade] of [trade.go] and the
    snapshot records of [snapshot.go]. *)

From Stdlib Require Import Ascii.
From S2P Require Import Prelude Strings.

Local Open Scope Z_scope.
Local Open Scope go_scope.

(** ** Enumerations ([types.go])

    Each Go string type has one constructor per declared constant; the zero
    value [""] has its own constructor where the code tests for it, and every
    other string is [...Other s]. *)

Inductive OrderSide :=
| OrderSideBuy
| OrderSideSell
| OrderSideOther (s : string).

Inductive OrderType :=
| OrderTypeLimit
| OrderTypeMarket
| OrderTypeOther (s : string).

Inductive TimeInForce :=
| TimeInForceGTC
| TimeInForceIOC
| TimeInForceFOK
| TimeInForcePostOnly
| TimeInForceOther (s : string).

Inductive STPStrategy :=
| STPNone
| STPCancelTaker
| STPCancelMaker
| STPCancelBoth
| STPOther (s : string).

Inductive OrderStatus :=
| OrderStatusUnset
| OrderStatusNew
| OrderStatusPartiallyFilled
| OrderStatusFilled
| OrderStatusCancelled
| OrderStatusRejected
| OrderStatusOther (s : string).

Inductive CancelReason :=
| CancelReasonUnset
| CancelReasonNone
| CancelReasonIOCNoLiquidity
| CancelReasonIOCPartialFill
| CancelReasonMarketClosed
| CancelReasonMarketNoLiquidity
| CancelReasonMarketNotTradable
| CancelReasonMarketResolved
| CancelReasonValidationFailed
| CancelReasonSTPTaker
| CancelReasonSTPMaker
| CancelReasonSTPBoth
| CancelReasonFOKNotFilled
| CancelReasonPostOnlyCross
| CancelReasonAmended
| CancelReasonOther (s : string).

#[global] Instance OrderSide_eq_dec : EqDecision OrderSide.
Proof. solve_decision. Defined.
#[global] Instance OrderType_eq_dec : EqDecision OrderType.
Proof. solve_decision. Defined.
#[global] Instance TimeInForce_eq_dec : EqDecision TimeInForce.
Proof. solve_decision. Defined.
#[global] Instance STPStrategy_eq_dec : EqDecision STPStrategy.
Proof. solve_decision. Defined.
#[global] Instance OrderStatus_eq_dec : EqDecision OrderStatus.
Proof. solve_decision. Defined.
#[global] Instance CancelReason_eq_dec : EqDecision CancelReason.
Proof. solve_decision. Defined.

(** The strings the constants stand for ([string(order.Side)] and the like). *)
Definition OrderSide_string (s : OrderSide) : string :=
  match s with
  | OrderSideBuy => "BUY" | OrderSideSell => "SELL" | OrderSideOther s => s
  end.

Definition OrderType_string (t : OrderType) : string :=
  match t with
  | OrderTypeLimit => "LIMIT" | OrderTypeMarket => "MARKET" | OrderTypeOther s => s
  end.

Definition TimeInForce_string (t : TimeInForce) : string :=
  match t with
  | TimeInForceGTC => "GTC" | TimeInForceIOC => "IOC" | TimeInForceFOK => "FOK"
  | TimeInForcePostOnly => "POST_ONLY" | TimeInForceOther s => s
  end.

Definition OrderStatus_string (s : OrderStatus) : string :=
  match s with
  | OrderStatusUnset => "" | OrderStatusNew => "NEW"
  | OrderStatusPartiallyFilled => "PARTIALLY_FILLED" | OrderStatusFilled => "FILLED"
  | OrderStatusCancelled => "CANCELLED" | OrderStatusRejected => "REJECTED"
  | OrderStatusOther s => s
  end.

Definition CancelReason_string (r : CancelReason) : string :=
  match r with
  | CancelReasonUnset => ""
  | CancelReasonNone => "NONE"
  | CancelReasonIOCNoLiquidity => "IOC_NO_LIQUIDITY"
  | CancelReasonIOCPartialFill => "IOC_PARTIAL_FILL"
  | CancelReasonMarketClosed => "MARKET_CLOSED"
  | CancelReasonMarketNoLiquidity => "MARKET_NO_LIQUIDITY"
  | CancelReasonMarketNotTradable => "MARKET_NOT_TRADABLE"
  | CancelReasonMarketResolved => "MARKET_RESOLVED"
  | CancelReasonValidationFailed => "VALIDATION_FAILED"
  | CancelReasonSTPTaker => "STP_CANCEL_TAKER"
  | CancelReasonSTPMaker => "STP_CANCEL_MAKER"
  | CancelReasonSTPBoth => "STP_CANCEL_BOTH"
  | CancelReasonFOKNotFilled => "FOK_NOT_FILLED"
  | CancelReasonPostOnlyCross => "POST_ONLY_CROSS"
  | CancelReasonAmended => "AMENDED"
  | CancelReasonOther s => s
  end.

Definition OrderSide_IsValid (s : OrderSide) : bool :=
  bool_decide (s = OrderSideBuy) || bool_decide (s = OrderSideSell).

Definition OrderType_IsValid (t : OrderType) : bool :=
  bool_decide (t = OrderTypeLimit) || bool_decide (t = OrderTypeMarket).

Definition TimeInForce_IsValid (t : TimeInForce) : bool :=
  match t with
  | TimeInForceGTC | TimeInForceIOC | TimeInForceFOK | TimeInForcePostOnly => true
  | TimeInForceOther _ => false
  end.

Definition BuildBookKey (marketID : Z) (outcome : string) : string :=
  itoa marketID +:+ ":" +:+ normalize_upper outcome.

(** ** Orders ([order.go]) *)

(** The errors of [Order.Validate] and of the engine. *)
Inductive EngineError :=
| ErrOrderIDRequired
| ErrQuantityNotPositive
| ErrPriceOutOfRange
| ErrOrderNil
| ErrDuplicateOrderID (id : string)
| ErrUnsupportedOrderType (t : OrderType)
| ErrCancelReasonRequired
| ErrBookNotFound (key : string)
| ErrOrderNotFoundOrFilled (id : string).

#[global] Instance EngineError_eq_dec : EqDecision EngineError.
Proof. solve_decision. Defined.

Module Order.
Record t := mk {
  OrderID : string;
  ClientOrderID : string;
  UserID : Z;
  MarketID : Z;
  Outcome : string;
  Side : OrderSide;
  Type_ : OrderType;
  TIF : TimeInForce;
  STP : STPStrategy;
  Price : Z;
  Quantity : Z;
  FilledQuantity : Z;
  Status : OrderStatus;
  Reason : CancelReason;
  CreatedAtMillis : Z;
  UpdatedAtMillis : Z;
}.

(** Field assignments. *)
Definition set_Status (o : t) (s : OrderStatus) : t :=
  mk (OrderID o) (ClientOrderID o) (UserID o) (MarketID o) (Outcome o) (Side o)
     (Type_ o) (TIF o) (STP o) (Price o) (Quantity o) (FilledQuantity o)
     s (Reason o) (CreatedAtMillis o) (UpdatedAtMillis o).
Definition set_Reason (o : t) (r : CancelReason) : t :=
  mk (OrderID o) (ClientOrderID o) (UserID o) (MarketID o) (Outcome o) (Side o)
     (Type_ o) (TIF o) (STP o) (Price o) (Quantity o) (FilledQuantity o)
     (Status o) r (CreatedAtMillis o) (UpdatedAtMillis o).
Definition set_FilledQuantity (o : t) (q : Z) : t :=
  mk (OrderID o) (ClientOrderID o) (UserID o) (MarketID o) (Outcome o) (Side o)
     (Type_ o) (TIF o) (STP o) (Price o) (Quantity o) q
     (Status o) (Reason o) (CreatedAtMillis o) (UpdatedAtMillis o).
Definition set_UpdatedAtMillis (o : t) (ts : Z) : t :=
  mk (OrderID o) (ClientOrderID o) (UserID o) (MarketID o) (Outcome o) (Side o)
     (Type_ o) (TIF o) (STP o) (Price o) (Quantity o) (FilledQuantity o)
     (Status o) (Reason o) (CreatedAtMillis o) ts.
Definition set_PriceQuantity (o : t) (p q : Z) : t :=
  mk (OrderID o) (ClientOrderID o) (UserID o) (MarketID o) (Outcome o) (Side o)
     (Type_ o) (TIF o) (STP o) p q (FilledQuantity o)
     (Status o) (Reason o) (CreatedAtMillis o) (UpdatedAtMillis o).

(** The Go zero value. *)
Definition zero : t :=
  mk "" "" 0 0 "" (OrderSideOther "") (OrderTypeOther "") (TimeInForceOther "")
     STPNone 0 0 0 OrderStatusUnset CancelReasonUnset 0 0.

Definition Validate (o : t) : result EngineError () :=
  if String.eqb (OrderID o) "" then Err ErrOrderIDRequired
  else if Quantity o <=? 0 then Err ErrQuantityNotPositive
  else if (Price o <? 1) || (9999 <? Price o) then Err ErrPriceOutOfRange
  else Ok ().

Definition BookKey (o : t) : string := BuildBookKey (MarketID o) (Outcome o).
Definition IsBuy (o : t) : bool := bool_decide (Side o = OrderSideBuy).
Definition IsSell (o : t) : bool := bool_decide (Side o = OrderSideSell).
Definition IsLimit (o : t) : bool := bool_decide (Type_ o = OrderTypeLimit).
Definition IsMarket (o : t) : bool := bool_decide (Type_ o = OrderTypeMarket).

Definition RemainingQuantity (o : t) : Z :=
  let remaining := Quantity o ⊟ FilledQuantity o in
  if remaining <? 0 then 0 else remaining.

Definition ApplyFill (o : t) (quantity : Z) : t :=
  let o := set_FilledQuantity o (FilledQuantity o ⊞ quantity) in
  if Quantity o <=? FilledQuantity o then set_Status o OrderStatusFilled
  else if 0 <? FilledQuantity o then set_Status o OrderStatusPartiallyFilled
  else o.

Definition Cancel (o : t) (reason : CancelReason) : t :=
  set_Status (set_Reason o reason) OrderStatusCancelled.

Definition Reject (o : t) (reason : CancelReason) : t :=
  set_Status (set_Reason o reason) OrderStatusRejected.

(** An order whose quantities are the ones the system produces: nothing
    overfilled, everything in range. *)
Definition quantities_ok (o : t) : Prop :=
  0 ≤ FilledQuantity o ≤ Quantity o ∧ Quantity o ≤ MaxInt64.

#[global] Instance quantities_ok_dec o : Decision (quantities_ok o).
Proof. unfold quantities_ok. apply _. Defined.

Lemma RemainingQuantity_ok o :
  quantities_ok o → RemainingQuantity o = Quantity o - FilledQuantity o.
Proof.
  unfold quantities_ok, RemainingQuantity, MaxInt64. intros ?.
  rewrite wrap64_id by (unfold int64, MinInt64, MaxInt64; lia).
  destruct (Z.ltb_spec (Quantity o - FilledQuantity o) 0); lia.
Qed.

Lemma RemainingQuantity_nonneg o : 0 ≤ RemainingQuantity o.
Proof.
  unfold RemainingQuantity.
  destruct (Z.ltb_spec (wrap64 (Quantity o - FilledQuantity o)) 0); lia.
Qed.

Lemma ApplyFill_FilledQuantity o q :
  quantities_ok o → 0 ≤ q ≤ RemainingQuantity o →
  FilledQuantity (ApplyFill o q) = FilledQuantity o + q.
Proof.
  intros Hok. rewrite RemainingQuantity_ok by done. intros Hq.
  assert (wrap64 (FilledQuantity o + q) = FilledQuantity o + q) as E.
  { apply wrap64_id. unfold quantities_ok, MaxInt64 in *.
    unfold int64, MinInt64, MaxInt64. lia. }
  unfold ApplyFill; simpl. rewrite E. by repeat case_match.
Qed.

Lemma ApplyFill_fields o q :
  Quantity (ApplyFill o q) = Quantity o ∧ Price (ApplyFill o q) = Price o ∧
  OrderID (ApplyFill o q) = OrderID o ∧ UserID (ApplyFill o q) = UserID o ∧
  Side (ApplyFill o q) = Side o ∧ MarketID (ApplyFill o q) = MarketID o ∧
  Outcome (ApplyFill o q) = Outcome o ∧ STP (ApplyFill o q) = STP o ∧
  TIF (ApplyFill o q) = TIF o ∧ Reason (ApplyFill o q) = Reason o.
Proof. unfold ApplyFill. repeat case_match; done. Qed.

Lemma ApplyFill_quantities_ok o q :
  quantities_ok o → 0 ≤ q ≤ RemainingQuantity o → quantities_ok (ApplyFill o q).
Proof.
  intros Hok Hq. unfold quantities_ok.
  rewrite ApplyFill_FilledQuantity by done.
  rewrite (proj1 (ApplyFill_fields o q)).
  rewrite RemainingQuantity_ok in Hq by done.
  unfold quantities_ok in Hok. lia.
Qed.

(** A fill of [q] lowers the remaining quantity by exactly [q]. *)
Lemma ApplyFill_Remaining o q :
  quantities_ok o → 0 ≤ q ≤ RemainingQuantity o →
  RemainingQuantity (ApplyFill o q) = RemainingQuantity o - q.
Proof.
  intros Hok Hq.
  rewrite (RemainingQuantity_ok (ApplyFill o q)) by by apply ApplyFill_quantities_ok.
  rewrite (RemainingQuantity_ok o) by done.
  rewrite ApplyFill_FilledQuantity by done.
  rewrite (proj1 (ApplyFill_fields o q)). lia.
Qed.

Lemma Cancel_Remaining o r : RemainingQuantity (Cancel o r) = RemainingQuantity o.
Proof. done. Qed.
End Order.

(** ** Trades ([trade.go]) *)

Module Trade.
Record t := mk {
  Sequence : Z;
  TradeID : string;
  MarketID : Z;
  Outcome : string;
  BookKey : string;
  Price : Z;
  Quantity : Z;
  TakerOrderID : string;
  MakerOrderID : string;
  TakerUserID : Z;
  MakerUserID : Z;
  TakerSide : OrderSide;
  MakerSide : OrderSide;
  MatchedAtMillis : Z;
  EpochID : Z;
}.
End Trade.

Fixpoint zeros (n : nat) : string :=
  match n with O => "" | S n => String "0"%char (zeros n) end.

(** [strconv.AppendUint], then left padding to eight digits. *)
Definition DeterministicTradeID (bookKey : string) (localSeq : Z) : string :=
  let digits := itoa localSeq in
  bookKey +:+ ":" +:+ zeros (8 - String.length digits) +:+ digits.

(** ** Snapshots ([snapshot.go]) *)

Record BookLevel := mkBookLevel { level_Price : Z; level_Quantity : Z }.

Record BookSnapshot := mkBookSnapshot {
  snap_Key : string;
  snap_MarketID : Z;
  snap_Outcome : string;
  snap_Bids : list BookLevel;
  snap_Asks : list BookLevel;
  snap_BestBid : Z;
  snap_BestAsk : Z;
}.

Definition parseBookKey (key : string) : option (Z * string) :=
  '(l, r) ← split_colon (TrimSpace key);
  marketID ← ParseInt l;
  Some (marketID, normalize_upper r).

(** ** Book keys and trade identifiers

    The strings by which books and trades are named: a book key can be parsed back,
    and a trade identifier determines the book and the sequence number. *)

(** A book key is parsed back to the market and the normalised outcome it was
    built from, for every int64 market id and every outcome text. *)
Theorem book_key_round_trip m o :
  int64 m → parseBookKey (BuildBookKey m o) = Some (m, normalize_upper o).
Proof.
  intros Hm. unfold parseBookKey, BuildBookKey.
  rewrite TrimSpace_key, split_colon_itoa, Some_bind, ParseInt_itoa, Some_bind by done.
  by rewrite normalize_upper_idem.
Qed.

Lemma book_key_round_trip_witness : parseBookKey (BuildBookKey 88 " yes") = Some (88, "YES").
Proof.
  assert (int64 88) as H by (unfold int64, MinInt64, MaxInt64; lia).
  exact (book_key_round_trip 88 " yes" H).
Defined.

Lemma parse_zeros k s : parse_digits 0 (zeros k +:+ s) = parse_digits 0 s.
Proof.
  induction k as [|k IH]; [done|].
  change (parse_digits 0 (zeros (S k) +:+ s)) with (parse_digits 0 (zeros k +:+ s)). exact IH.
Qed.

Lemma no_colon_zeros k : no_colon (zeros k) = true.
Proof. by induction k. Qed.

Lemma itoa_digits z : 0 ≤ z → all_digits (itoa z) = true ∧ parse_digits 0 (itoa z) = Some z.
Proof.
  intros Hz. destruct (itoa_shape z) as [(n & -> & ->)|(n & E & E2)].
  - destruct (pretty_N_parse n) as (Hp & Hd & Hne). split; [done|].
    unfold parse_unsigned in Hp. by destruct (pretty n).
  - assert (z = 0) as -> by lia. done.
Qed.

(** A trade identifier determines its book key and its per-book sequence
    number, so no two trades of the exchange share one, whatever the padding. *)
Theorem trade_id_injective k1 n1 k2 n2 :
  uint64 n1 → uint64 n2 →
  DeterministicTradeID k1 n1 = DeterministicTradeID k2 n2 → k1 = k2 ∧ n1 = n2.
Proof.
  intros [H1 _] [H2 _] E. unfold DeterministicTradeID in E.
  destruct (itoa_digits n1 H1) as [D1 P1]. destruct (itoa_digits n2 H2) as [D2 P2].
  apply last_colon_inj in E as [-> E];
    [|by rewrite no_colon_append, no_colon_zeros, all_digits_no_colon..].
  split; [done|]. apply (f_equal (parse_digits 0)) in E. rewrite !parse_zeros, P1, P2 in E. congruence.
Qed.

Lemma trade_id_injective_witness :
  DeterministicTradeID "88:YES" 7 = "88:YES:00000007" ∧
  (DeterministicTradeID "88:YES" 7 = "88:YES:00000007" → "88:YES" = "88:YES" ∧ 7 = 7).
Proof.
  split; [vm_compute; reflexivity|]. intros _.
  assert (uint64 7) as H by (unfold uint64; lia).
  exact (trade_id_injective "88:YES" 7 "88:YES" 7 H H eq_refl).
Defined.
