(* ===== verification/Bitmap.v ===== *)
(** * Matching: the price bitmap of [order_book_direct.go]

    One bit per price in 157 words of 64 bits.  The model keeps the words and
    the shifts of the code; the theorems say that the scans return the nearest
    occupied price above or below the current one, and the best price. *)

From S2P Require Import Prelude.

Local Open Scope Z_scope.

Definition maxPrice : Z := 10000.
Definition priceBitmapWords : Z := (maxPrice + 63) / 64.

(** [bits.TrailingZeros64] and [bits.LeadingZeros64]. *)
Fixpoint pos_trailing_zeros (p : positive) : Z :=
  match p with
  | xO p => 1 + pos_trailing_zeros p
  | _ => 0
  end.

Definition TrailingZeros64 (x : Z) : Z :=
  match x with Zpos p => pos_trailing_zeros p | _ => 64 end.

Definition LeadingZeros64 (x : Z) : Z :=
  if x =? 0 then 64 else 63 - Z.log2 x.

(** [bm[price/64] |= 1 << (uint(price) % 64)] *)
Definition bitmap_set (bm : list Z) (price : Z) : option (list Z) :=
  w ← arr_get bm (price ÷ 64);
  arr_set bm (price ÷ 64) (Z.lor w (Z.shiftl 1 (price mod 64))).

(** [bm[price/64] &^= 1 << (uint(price) % 64)] *)
Definition bitmap_clear (bm : list Z) (price : Z) : option (list Z) :=
  w ← arr_get bm (price ÷ 64);
  arr_set bm (price ÷ 64) (Z.ldiff w (Z.shiftl 1 (price mod 64))).

(** The word loop of [NextAskBucket]; the outer [option] is a panic or a loop
    that does not end within the fuel, the inner one a nil bucket. *)
Fixpoint next_up_loop (fuel : nat) (bm : list Z) (word masked : Z) : option (option Z) :=
  match fuel with
  | O => None
  | S fuel =>
      if word <? priceBitmapWords then
        if negb (masked =? 0) then
          let price := word * 64 + TrailingZeros64 masked in
          if maxPrice <=? price then Some None else Some (Some price)
        else
          let word := word + 1 in
          if word <? priceBitmapWords then
            masked ← arr_get bm word;
            next_up_loop fuel bm word masked
          else next_up_loop fuel bm word masked
      else Some None
  end.

Definition bitmap_fuel : nat := S (Z.to_nat priceBitmapWords).
#[global] Arguments bitmap_fuel : simpl never.

Definition next_up (bm : list Z) (currentPrice : Z) : option (option Z) :=
  let p := currentPrice + 1 in
  if maxPrice <=? p then Some None
  else
    let word := p ÷ 64 in
    let bit := p mod 64 in
    w ← arr_get bm word;
    next_up_loop bitmap_fuel bm word (wrapu64 (Z.shiftl (Z.shiftr w bit) bit)).

(** The word loop of [NextBidBucket]. *)
Fixpoint next_down_loop (fuel : nat) (bm : list Z) (word masked : Z) : option (option Z) :=
  match fuel with
  | O => None
  | S fuel =>
      if 0 <=? word then
        if negb (masked =? 0) then
          let price := word * 64 + (63 - LeadingZeros64 masked) in
          if price <? 1 then Some None else Some (Some price)
        else
          let word := word - 1 in
          if 0 <=? word then
            masked ← arr_get bm word;
            next_down_loop fuel bm word masked
          else next_down_loop fuel bm word masked
      else Some None
  end.

Definition next_down (bm : list Z) (currentPrice : Z) : option (option Z) :=
  let p := currentPrice - 1 in
  if p <? 1 then Some None
  else
    let word := p ÷ 64 in
    let bit := p mod 64 in
    w ← arr_get bm word;
    next_down_loop bitmap_fuel bm word
      (Z.land w (wrapu64 (wrapu64 (Z.shiftl 1 (bit + 1)) - 1))).

(** [scanBestAsk]: words upward, price 0 masked off. *)
Fixpoint scan_up_loop (fuel : nat) (bm : list Z) (w : Z) : option Z :=
  match fuel with
  | O => None
  | S fuel =>
      if w <? priceBitmapWords then
        word ← arr_get bm w;
        let word := if w =? 0 then Z.ldiff word 1 else word in
        if negb (word =? 0) && (w * 64 + TrailingZeros64 word <? maxPrice)
        then Some (w * 64 + TrailingZeros64 word)
        else scan_up_loop fuel bm (w + 1)
      else Some 0
  end.

Definition scanBestAsk (bm : list Z) : option Z := scan_up_loop bitmap_fuel bm 0.

(** [scanBestBid]: words downward. *)
Fixpoint scan_down_loop (fuel : nat) (bm : list Z) (w : Z) : option Z :=
  match fuel with
  | O => None
  | S fuel =>
      if 0 <=? w then
        word ← arr_get bm w;
        let price := w * 64 + (63 - LeadingZeros64 word) in
        if negb (word =? 0) && ((1 <=? price) && (price <? maxPrice))
        then Some price
        else scan_down_loop fuel bm (w - 1)
      else Some 0
  end.

Definition scanBestBid (bm : list Z) : option Z :=
  scan_down_loop bitmap_fuel bm (priceBitmapWords - 1).

(** ** Specification *)

(** The set of prices the words denote. *)
Definition word_at (bm : list Z) (w : Z) : Z := default 0 (arr_get bm w).
Definition bit_at (bm : list Z) (p : Z) : bool := Z.testbit (word_at bm (p / 64)) (p mod 64).

Record bitmap_ok (bm : list Z) : Prop := {
  bitmap_length : Z.of_nat (length bm) = priceBitmapWords;
  bitmap_words : ∀ w, uint64 (word_at bm w);
  bitmap_prices : ∀ p, bit_at bm p = true → 1 ≤ p < maxPrice;
}.

(** [p] is the least, or the greatest, occupied price of a range. *)
Definition first_in (bm : list Z) (lo p : Z) : Prop :=
  lo ≤ p ∧ bit_at bm p = true ∧ ∀ q, lo ≤ q < p → bit_at bm q = false.
Definition last_in (bm : list Z) (hi p : Z) : Prop :=
  p ≤ hi ∧ bit_at bm p = true ∧ ∀ q, p < q ≤ hi → bit_at bm q = false.

Lemma TrailingZeros64_spec x :
  0 < x →
  0 ≤ TrailingZeros64 x ∧ Z.testbit x (TrailingZeros64 x) = true ∧
  ∀ i, i < TrailingZeros64 x → Z.testbit x i = false.
Proof.
  intros Hx. destruct x as [|p|p]; [lia| |lia]. clear Hx. simpl.
  assert (∀ i, i < 0 → ∀ z, Z.testbit z i = false) as Hneg.
  { intros i Hi z. apply Z.testbit_neg_r. lia. }
  induction p as [p _|p (IH0 & IH1 & IH2)|]; simpl.
  - split_and!; [lia|done|]. intros. by apply Hneg.
  - rewrite Pos2Z.inj_xO. replace (1 + pos_trailing_zeros p)
      with (Z.succ (pos_trailing_zeros p)) by lia.
    split_and!; [lia|by rewrite Z.testbit_even_succ by lia|].
    intros i Hi. destruct (Z.lt_trichotomy i 0) as [?|[->|?]].
    + by apply Hneg.
    + apply Z.testbit_even_0.
    + replace i with (Z.succ (i - 1)) by lia.
      rewrite Z.testbit_even_succ by lia. apply IH2. lia.
  - split_and!; [lia|done|]. intros. by apply Hneg.
Qed.

Lemma TrailingZeros64_range x : 0 < x < 2 ^ 64 → 0 ≤ TrailingZeros64 x < 64.
Proof.
  intros Hx. destruct (TrailingZeros64_spec x) as (H0 & H1 & _); [lia|].
  split; [done|]. destruct (Z.lt_ge_cases (TrailingZeros64 x) 64) as [|Hge]; [done|].
  rewrite Z.bits_above_log2 in H1; [done|lia|].
  pose proof (Z.log2_lt_pow2 x 64). lia.
Qed.

Lemma LeadingZeros64_spec x :
  0 < x < 2 ^ 64 →
  0 ≤ 63 - LeadingZeros64 x < 64 ∧ Z.testbit x (63 - LeadingZeros64 x) = true ∧
  ∀ i, 63 - LeadingZeros64 x < i → Z.testbit x i = false.
Proof.
  intros Hx. unfold LeadingZeros64. destruct (Z.eqb_spec x 0); [lia|].
  replace (63 - (63 - Z.log2 x)) with (Z.log2 x) by lia.
  pose proof (Z.log2_nonneg x). pose proof (Z.log2_lt_pow2 x 64).
  split_and!; [lia|lia|apply Z.bit_log2; lia|].
  intros i Hi. apply Z.bits_above_log2; lia.
Qed.

(** Words stay words: a number without bits at or above 64 is a [uint64]. *)
Lemma bits_uint64 x : (∀ k, 64 ≤ k → Z.testbit x k = false) → uint64 x.
Proof.
  intros H. assert (x = x mod 2 ^ 64) as ->; [|apply Z.mod_pos_bound; lia].
  apply Z.bits_inj'. intros k Hk. destruct (Z.lt_ge_cases k 64).
  - by rewrite Z.mod_pow2_bits_low by lia.
  - rewrite Z.mod_pow2_bits_high by lia. by apply H.
Qed.

Lemma uint64_high_bits x k : uint64 x → 64 ≤ k → Z.testbit x k = false.
Proof.
  intros Hx Hk. rewrite <-(wrapu64_id x Hx). unfold wrapu64.
  apply Z.mod_pow2_bits_high. lia.
Qed.

Lemma bit_at_split bm w k : 0 ≤ k < 64 → bit_at bm (w * 64 + k) = Z.testbit (word_at bm w) k.
Proof.
  intros Hk. unfold bit_at.
  rewrite Z.div_add_l, (Z.div_small k), Z.add_0_r by lia.
  by rewrite Z.add_comm, Z.mod_add, Z.mod_small by lia.
Qed.

Lemma bit_at_divmod bm p : bit_at bm p = Z.testbit (word_at bm (p / 64)) (p mod 64).
Proof. done. Qed.

Lemma arr_get_word bm w :
  bitmap_ok bm → 0 ≤ w < priceBitmapWords → arr_get bm w = Some (word_at bm w).
Proof.
  intros Hbm Hw. destruct (arr_get_Some bm w) as [x Hx].
  { by rewrite bitmap_length. }
  unfold word_at. by rewrite Hx.
Qed.

(** A scan is exhausted once it is past the last word. *)
Lemma bit_at_beyond bm q : bitmap_ok bm → priceBitmapWords * 64 ≤ q → bit_at bm q = false.
Proof.
  intros Hbm Hq. destruct (bit_at bm q) eqn:E; [|done].
  apply (bitmap_prices bm Hbm) in E. unfold priceBitmapWords, maxPrice in *.
  change ((10000 + 63) / 64) with 157 in Hq. lia.
Qed.

(** The bits of one word, the ones below [lo] masked off. *)
Definition masks_above (bm : list Z) (lo word masked : Z) : Prop :=
  0 ≤ masked < 2 ^ 64 ∧
  ∀ k, 0 ≤ k < 64 → Z.testbit masked k = bit_at bm (word * 64 + k) && (lo <=? word * 64 + k).
Definition masks_below (bm : list Z) (hi word masked : Z) : Prop :=
  0 ≤ masked < 2 ^ 64 ∧
  ∀ k, 0 ≤ k < 64 → Z.testbit masked k = bit_at bm (word * 64 + k) && (word * 64 + k <=? hi).

Lemma masks_above_zero bm lo word q :
  masks_above bm lo word 0 → lo ≤ q → word * 64 ≤ q < (word + 1) * 64 → bit_at bm q = false.
Proof.
  intros [_ H] Hlo Hq. specialize (H (q - word * 64) ltac:(lia)).
  rewrite Z.testbit_0_l in H. replace (word * 64 + (q - word * 64)) with q in H by lia.
  destruct (Z.leb_spec lo q); [|lia]. by rewrite andb_true_r in H.
Qed.

Lemma masks_below_zero bm hi word q :
  masks_below bm hi word 0 → q ≤ hi → word * 64 ≤ q < (word + 1) * 64 → bit_at bm q = false.
Proof.
  intros [_ H] Hhi Hq. specialize (H (q - word * 64) ltac:(lia)).
  rewrite Z.testbit_0_l in H. replace (word * 64 + (q - word * 64)) with q in H by lia.
  destruct (Z.leb_spec q hi); [|lia]. by rewrite andb_true_r in H.
Qed.

Lemma masks_above_first bm lo word masked :
  masks_above bm lo word masked → masked ≠ 0 →
  (∀ q, lo ≤ q < word * 64 → bit_at bm q = false) →
  first_in bm lo (word * 64 + TrailingZeros64 masked).
Proof.
  intros [Hr H] Hne Hlow.
  destruct (TrailingZeros64_spec masked) as (_ & Ht & Hl); [lia|].
  pose proof (TrailingZeros64_range masked ltac:(lia)) as Hz.
  rewrite (H _ Hz) in Ht. apply andb_true_iff in Ht as [Ht Hle].
  apply Z.leb_le in Hle. split_and!; [done|done|]. intros q Hq.
  destruct (Z.lt_ge_cases q (word * 64)); [apply Hlow; lia|].
  specialize (Hl (q - word * 64) ltac:(lia)). rewrite H in Hl by lia.
  replace (word * 64 + (q - word * 64)) with q in Hl by lia.
  destruct (Z.leb_spec lo q); [|lia]. by rewrite andb_true_r in Hl.
Qed.

Lemma masks_below_last bm hi word masked :
  masks_below bm hi word masked → masked ≠ 0 →
  (∀ q, (word + 1) * 64 ≤ q ≤ hi → bit_at bm q = false) →
  last_in bm hi (word * 64 + (63 - LeadingZeros64 masked)).
Proof.
  intros [Hr H] Hne Hhigh.
  destruct (LeadingZeros64_spec masked) as (Hz & Ht & Hl); [lia|].
  rewrite (H _ Hz) in Ht. apply andb_true_iff in Ht as [Ht Hle].
  apply Z.leb_le in Hle. split_and!; [done|done|]. intros q Hq.
  destruct (Z.lt_ge_cases q ((word + 1) * 64)); [|apply Hhigh; lia].
  specialize (Hl (q - word * 64) ltac:(lia)). rewrite H in Hl by lia.
  replace (word * 64 + (q - word * 64)) with q in Hl by lia.
  destruct (Z.leb_spec q hi); [|lia]. by rewrite andb_true_r in Hl.
Qed.

Lemma word_masks_above bm lo word :
  bitmap_ok bm → lo ≤ word * 64 → masks_above bm lo word (word_at bm word).
Proof.
  intros Hbm Hlo. split; [apply (bitmap_words bm Hbm)|]. intros k Hk.
  rewrite bit_at_split by done. destruct (Z.leb_spec lo (word * 64 + k)); [|lia].
  by rewrite andb_true_r.
Qed.

Lemma word_masks_below bm hi word :
  bitmap_ok bm → (word + 1) * 64 ≤ hi + 1 → masks_below bm hi word (word_at bm word).
Proof.
  intros Hbm Hhi. split; [apply (bitmap_words bm Hbm)|]. intros k Hk.
  rewrite bit_at_split by done. destruct (Z.leb_spec (word * 64 + k) hi); [|lia].
  by rewrite andb_true_r.
Qed.

Lemma next_up_loop_spec fuel bm word masked lo :
  bitmap_ok bm → 0 ≤ word ≤ priceBitmapWords → priceBitmapWords - word < Z.of_nat fuel →
  (word < priceBitmapWords → masks_above bm lo word masked) →
  lo < (word + 1) * 64 →
  (∀ q, lo ≤ q < word * 64 → bit_at bm q = false) →
  ∃ r, next_up_loop fuel bm word masked = Some r ∧
    match r with
    | Some p => first_in bm lo p
    | None => ∀ q, lo ≤ q → bit_at bm q = false
    end.
Proof.
  intros Hbm. revert word masked. induction fuel as [|fuel IH]; intros word masked Hw Hf Hm Hlo Hlow.
  { lia. }
  simpl. destruct (Z.ltb_spec word priceBitmapWords) as [Hlt|Hge]; cycle 1.
  { exists None. split; [done|]. intros q Hq.
    destruct (Z.lt_ge_cases q (word * 64)); [by apply Hlow|].
    apply bit_at_beyond; [done|lia]. }
  specialize (Hm Hlt). destruct (Z.eqb_spec masked 0) as [->|Hne]; simpl.
  - assert (∀ q, lo ≤ q < (word + 1) * 64 → bit_at bm q = false) as Hlow'.
    { intros q Hq. destruct (Z.lt_ge_cases q (word * 64)); [apply Hlow; lia|].
      eapply masks_above_zero; [done|lia|lia]. }
    destruct (Z.ltb_spec (word + 1) priceBitmapWords).
    + rewrite arr_get_word by (done || lia). simpl. apply IH; [lia|lia| |lia|done].
      intros _. apply word_masks_above; [done|lia].
    + apply IH; [lia|lia|lia|lia|done].
  - pose proof (masks_above_first _ _ _ _ Hm Hne Hlow) as Hfst.
    destruct (Z.leb_spec maxPrice (word * 64 + TrailingZeros64 masked)) as [Hbig|].
    + destruct Hfst as (_ & Hb & _). apply (bitmap_prices bm Hbm) in Hb. lia.
    + eauto.
Qed.

Lemma next_down_loop_spec fuel bm word masked hi :
  bitmap_ok bm → -1 ≤ word < priceBitmapWords → word + 1 < Z.of_nat fuel →
  (0 ≤ word → masks_below bm hi word masked) →
  word * 64 ≤ hi + 1 →
  (∀ q, (word + 1) * 64 ≤ q ≤ hi → bit_at bm q = false) →
  ∃ r, next_down_loop fuel bm word masked = Some r ∧
    match r with
    | Some p => last_in bm hi p
    | None => ∀ q, q ≤ hi → bit_at bm q = false
    end.
Proof.
  intros Hbm. revert word masked. induction fuel as [|fuel IH]; intros word masked Hw Hf Hm Hhi Hhigh.
  { lia. }
  simpl. destruct (Z.leb_spec 0 word) as [Hge|Hlt]; cycle 1.
  { exists None. split; [done|]. intros q Hq.
    destruct (Z.lt_ge_cases q 0); [|apply Hhigh; lia].
    destruct (bit_at bm q) eqn:E; [|done]. apply (bitmap_prices bm Hbm) in E. lia. }
  specialize (Hm Hge). destruct (Z.eqb_spec masked 0) as [->|Hne]; simpl.
  - assert (∀ q, (word - 1 + 1) * 64 ≤ q ≤ hi → bit_at bm q = false) as Hhigh'.
    { intros q Hq. destruct (Z.lt_ge_cases q ((word + 1) * 64)); [|apply Hhigh; lia].
      eapply masks_below_zero; [done|lia|lia]. }
    destruct (Z.leb_spec 0 (word - 1)).
    + rewrite arr_get_word by (done || lia). simpl. apply IH; [lia|lia| |lia|done].
      intros _. apply word_masks_below; [done|lia].
    + apply IH; [lia|lia|lia|lia|done].
  - pose proof (masks_below_last _ _ _ _ Hm Hne Hhigh) as Hlst.
    destruct (Z.ltb_spec (word * 64 + (63 - LeadingZeros64 masked)) 1) as [Hsm|].
    + destruct Hlst as (_ & Hb & _). apply (bitmap_prices bm Hbm) in Hb. lia.
    + eauto.
Qed.

Lemma priceBitmapWords_eq : priceBitmapWords = 157.
Proof. done. Qed.

Lemma bitmap_fuel_eq : Z.of_nat bitmap_fuel = priceBitmapWords + 1.
Proof. done. Qed.

Lemma price_word_range p : 0 ≤ p < maxPrice → 0 ≤ p / 64 < priceBitmapWords.
Proof.
  unfold maxPrice. rewrite priceBitmapWords_eq. intros Hp.
  split; [apply Z.div_pos; lia|]. apply Z.div_lt_upper_bound; lia.
Qed.

Lemma shift_masks_above bm p :
  bitmap_ok bm → 0 ≤ p →
  masks_above bm p (p / 64)
    (wrapu64 (Z.shiftl (Z.shiftr (word_at bm (p / 64)) (p mod 64)) (p mod 64))).
Proof.
  intros Hbm Hp. pose proof (Z.mod_pos_bound p 64 ltac:(lia)) as Hb.
  split; [apply wrapu64_range|]. intros k Hk. rewrite bit_at_split by done.
  unfold wrapu64. rewrite Z.mod_pow2_bits_low by lia.
  rewrite Z.shiftl_spec by lia. pose proof (Z.div_mod p 64 ltac:(lia)).
  destruct (Z.leb_spec p (p / 64 * 64 + k)).
  - rewrite Z.shiftr_spec by lia. rewrite andb_true_r. f_equal. lia.
  - rewrite Z.testbit_neg_r by lia. by rewrite andb_false_r.
Qed.

Lemma low_ones bit : 0 ≤ bit < 64 →
  wrapu64 (wrapu64 (Z.shiftl 1 (bit + 1)) - 1) = Z.ones (bit + 1).
Proof.
  intros Hb. rewrite Z.shiftl_1_l, Z.ones_equiv. unfold wrapu64.
  pose proof (Z.pow_pos_nonneg 2 (bit + 1) ltac:(lia) ltac:(lia)).
  destruct (decide (bit = 63)) as [->|Hne]; [done|].
  assert (2 ^ (bit + 1) ≤ 2 ^ 63) by (apply Z.pow_le_mono_r; lia).
  rewrite (Z.mod_small (2 ^ (bit + 1))) by lia. apply Z.mod_small. lia.
Qed.

Lemma land_masks_below bm p :
  bitmap_ok bm → 0 ≤ p →
  masks_below bm p (p / 64)
    (Z.land (word_at bm (p / 64)) (wrapu64 (wrapu64 (Z.shiftl 1 (p mod 64 + 1)) - 1))).
Proof.
  intros Hbm Hp. pose proof (Z.mod_pos_bound p 64 ltac:(lia)) as Hb.
  rewrite low_ones by done. pose proof (bitmap_words bm Hbm (p / 64)) as Hw.
  unfold uint64 in Hw. rewrite Z.land_ones by lia. split.
  { pose proof (Z.mod_pos_bound (word_at bm (p / 64)) (2 ^ (p mod 64 + 1)) ltac:(lia)).
    pose proof (Z.mod_le (word_at bm (p / 64)) (2 ^ (p mod 64 + 1))). lia. }
  intros k Hk. rewrite bit_at_split by done. pose proof (Z.div_mod p 64 ltac:(lia)).
  destruct (Z.leb_spec (p / 64 * 64 + k) p).
  - rewrite Z.mod_pow2_bits_low by lia. by rewrite andb_true_r.
  - rewrite Z.mod_pow2_bits_high by lia. by rewrite andb_false_r.
Qed.

Lemma next_up_spec bm cur :
  bitmap_ok bm → 0 ≤ cur →
  ∃ r, next_up bm cur = Some r ∧
    match r with
    | Some p => first_in bm (cur + 1) p
    | None => ∀ q, cur < q → bit_at bm q = false
    end.
Proof.
  intros Hbm Hc. unfold next_up. destruct (Z.leb_spec maxPrice (cur + 1)).
  { exists None. split; [done|]. intros q Hq. destruct (bit_at bm q) eqn:E; [|done].
    apply (bitmap_prices bm Hbm) in E. lia. }
  rewrite Z.quot_div_nonneg by lia.
  pose proof (price_word_range (cur + 1) ltac:(lia)) as Hw.
  pose proof (Z.div_mod (cur + 1) 64 ltac:(lia)) as Hdm.
  pose proof (Z.mod_pos_bound (cur + 1) 64 ltac:(lia)) as Hmb.
  rewrite arr_get_word, Some_bind by done.
  destruct (next_up_loop_spec bitmap_fuel bm ((cur + 1) / 64)
    (wrapu64 (Z.shiftl (Z.shiftr (word_at bm ((cur + 1) / 64)) ((cur + 1) mod 64))
       ((cur + 1) mod 64))) (cur + 1)) as (r & -> & Hr); try done.
  - lia.
  - rewrite bitmap_fuel_eq. lia.
  - intros _. apply shift_masks_above; [done|lia].
  - lia.
  - lia.
  - exists r. split; [done|]. destruct r; [done|]. intros q Hq. apply Hr. lia.
Qed.

Lemma next_down_spec bm cur :
  bitmap_ok bm → cur ≤ maxPrice →
  ∃ r, next_down bm cur = Some r ∧
    match r with
    | Some p => last_in bm (cur - 1) p
    | None => ∀ q, q < cur → bit_at bm q = false
    end.
Proof.
  intros Hbm Hc. unfold next_down. destruct (Z.ltb_spec (cur - 1) 1).
  { exists None. split; [done|]. intros q Hq. destruct (bit_at bm q) eqn:E; [|done].
    apply (bitmap_prices bm Hbm) in E. lia. }
  rewrite Z.quot_div_nonneg by lia.
  pose proof (price_word_range (cur - 1) ltac:(lia)) as Hw.
  pose proof (Z.div_mod (cur - 1) 64 ltac:(lia)) as Hdm.
  pose proof (Z.mod_pos_bound (cur - 1) 64 ltac:(lia)) as Hmb.
  rewrite arr_get_word, Some_bind by done.
  destruct (next_down_loop_spec bitmap_fuel bm ((cur - 1) / 64)
    (Z.land (word_at bm ((cur - 1) / 64))
      (wrapu64 (wrapu64 (Z.shiftl 1 ((cur - 1) mod 64 + 1)) - 1))) (cur - 1))
    as (r & -> & Hr); try done.
  - lia.
  - rewrite bitmap_fuel_eq. lia.
  - intros _. apply land_masks_below; [done|lia].
  - lia.
  - lia.
  - exists r. split; [done|]. destruct r; [done|]. intros q Hq. apply Hr. lia.
Qed.

Lemma scan_up_loop_spec fuel bm w :
  bitmap_ok bm → 0 ≤ w ≤ priceBitmapWords → priceBitmapWords - w < Z.of_nat fuel →
  (∀ q, q < w * 64 → bit_at bm q = false) →
  ∃ p, scan_up_loop fuel bm w = Some p ∧
    ((p = 0 ∧ ∀ q, bit_at bm q = false) ∨ (1 ≤ p ∧ first_in bm 1 p)).
Proof.
  intros Hbm. revert w. induction fuel as [|fuel IH]; intros w Hw Hf Hlow; [lia|].
  simpl. destruct (Z.ltb_spec w priceBitmapWords); cycle 1.
  { exists 0. split; [done|]. left. split; [done|]. intros q.
    destruct (Z.lt_ge_cases q (w * 64)); [by apply Hlow|].
    apply bit_at_beyond; [done|lia]. }
  rewrite arr_get_word by (done || lia). simpl.
  assert (masks_above bm (if w =? 0 then 1 else w * 64) w
            (if w =? 0 then Z.ldiff (word_at bm w) 1 else word_at bm w)) as Hm.
  { destruct (Z.eqb_spec w 0) as [->|]; [|apply word_masks_above; [done|lia]].
    pose proof (bitmap_words bm Hbm 0) as Hu. unfold uint64 in Hu. split.
    - apply bits_uint64. intros k Hk. rewrite Z.ldiff_spec.
      by rewrite (uint64_high_bits (word_at bm 0)) by done.
    - intros k Hk. rewrite Z.ldiff_spec, bit_at_split by done. f_equal.
      destruct (Z.leb_spec 1 (0 * 64 + k)).
      + rewrite (Z.bits_above_log2 1); [done|lia|]. simpl. change (Z.log2 1) with 0. lia.
      + replace k with 0 by lia. done. }
  set (word := if w =? 0 then Z.ldiff (word_at bm w) 1 else word_at bm w) in *.
  destruct (Z.eqb_spec word 0) as [Hz|Hne]; simpl.
  - apply IH; [lia|lia|]. intros q Hq.
    destruct (Z.lt_ge_cases q (w * 64)); [by apply Hlow|].
    destruct (bit_at bm q) eqn:E; [|done]. pose proof (bitmap_prices bm Hbm q E).
    rewrite Hz in Hm. rewrite (masks_above_zero _ _ _ q Hm) in E; [done| |lia].
    destruct (Z.eqb_spec w 0); lia.
  - pose proof (masks_above_first _ _ _ _ Hm Hne) as Hfst.
    assert (first_in bm 1 (w * 64 + TrailingZeros64 word)) as (H1 & H2 & H3).
    { destruct Hfst as (Ha & Hb & Hc).
      { intros q Hq. destruct (Z.eqb_spec w 0); [lia|]. apply Hlow. lia. }
      pose proof (bitmap_prices bm Hbm _ Hb). split_and!; [lia|done|].
      intros q Hq. destruct (Z.eqb_spec w 0); [apply Hc; lia|].
      destruct (Z.lt_ge_cases q (w * 64)); [by apply Hlow|]. apply Hc. lia. }
    pose proof (bitmap_prices bm Hbm _ H2).
    destruct (Z.ltb_spec (w * 64 + TrailingZeros64 word) maxPrice); [|lia].
    eexists. split; [done|]. right. by split_and!.
Qed.

Lemma scan_down_loop_spec fuel bm w :
  bitmap_ok bm → -1 ≤ w < priceBitmapWords → w + 1 < Z.of_nat fuel →
  (∀ q, (w + 1) * 64 ≤ q → bit_at bm q = false) →
  ∃ p, scan_down_loop fuel bm w = Some p ∧
    ((p = 0 ∧ ∀ q, bit_at bm q = false) ∨ (1 ≤ p ∧ last_in bm (maxPrice - 1) p)).
Proof.
  intros Hbm. revert w. induction fuel as [|fuel IH]; intros w Hw Hf Hhigh; [lia|].
  simpl. destruct (Z.leb_spec 0 w); cycle 1.
  { exists 0. split; [done|]. left. split; [done|]. intros q.
    destruct (Z.lt_ge_cases q 0); [|apply Hhigh; lia].
    destruct (bit_at bm q) eqn:E; [|done]. apply (bitmap_prices bm Hbm) in E. lia. }
  rewrite arr_get_word by (done || lia). simpl.
  pose proof (word_masks_below bm ((w + 1) * 64) w Hbm ltac:(lia)) as Hm.
  destruct (Z.eqb_spec (word_at bm w) 0) as [Hz|Hne]; simpl.
  - apply IH; [lia|lia|]. intros q Hq. rewrite Hz in Hm.
    destruct (Z.lt_ge_cases q ((w + 1) * 64)); [|by apply Hhigh].
    eapply masks_below_zero; [done|lia|lia].
  - destruct (masks_below_last _ _ _ _ Hm Hne) as (H1 & H2 & H3).
    { intros q Hq. apply Hhigh. lia. }
    pose proof (bitmap_prices bm Hbm _ H2).
    destruct (Z.leb_spec 1 (w * 64 + (63 - LeadingZeros64 (word_at bm w)))); [|lia].
    destruct (Z.ltb_spec (w * 64 + (63 - LeadingZeros64 (word_at bm w))) maxPrice); [|lia].
    eexists. split; [done|]. right. split; [lia|]. split_and!; [lia|done|]. intros q Hq.
    destruct (Z.le_gt_cases q ((w + 1) * 64)); [apply H3; lia|apply Hhigh; lia].
Qed.

(** The best-price scans return the extreme occupied price, and 0 exactly when
    no price is occupied. *)
Lemma scanBestAsk_spec bm :
  bitmap_ok bm →
  ∃ p, scanBestAsk bm = Some p ∧
    ((p = 0 ∧ ∀ q, bit_at bm q = false) ∨ (1 ≤ p ∧ first_in bm 1 p)).
Proof.
  intros Hbm. apply scan_up_loop_spec; [done| | |].
  - by rewrite priceBitmapWords_eq.
  - rewrite bitmap_fuel_eq. lia.
  - intros q Hq. destruct (bit_at bm q) eqn:E; [|done].
    apply (bitmap_prices bm Hbm) in E. lia.
Qed.

Lemma scanBestBid_spec bm :
  bitmap_ok bm →
  ∃ p, scanBestBid bm = Some p ∧
    ((p = 0 ∧ ∀ q, bit_at bm q = false) ∨ (1 ≤ p ∧ last_in bm (maxPrice - 1) p)).
Proof.
  intros Hbm. apply scan_down_loop_spec; [done| | |].
  - by rewrite priceBitmapWords_eq.
  - rewrite bitmap_fuel_eq. lia.
  - intros q Hq. apply bit_at_beyond; [done|lia].
Qed.

(** ** Setting and clearing one bit *)

Lemma bit_at_insert bm w x p :
  0 ≤ w < Z.of_nat (length bm) →
  bit_at (<[Z.to_nat w := x]> bm) p =
    if decide (p / 64 = w) then Z.testbit x (p mod 64) else bit_at bm p.
Proof.
  intros Hw. unfold bit_at, word_at. rewrite arr_get_set by done.
  destruct (decide (w = p / 64)) as [->|]; [by rewrite decide_True|].
  by rewrite decide_False.
Qed.

Lemma testbit_one k : Z.testbit 1 k = bool_decide (k = 0).
Proof.
  case_bool_decide; [by subst|]. destruct (Z.lt_ge_cases k 0).
  - by rewrite Z.testbit_neg_r.
  - apply Z.bits_above_log2; [lia|]. change (Z.log2 1) with 0. lia.
Qed.

Lemma shiftl_one_bit n k : 0 ≤ n → 0 ≤ k → Z.testbit (Z.shiftl 1 n) k = bool_decide (k = n).
Proof.
  intros Hn Hk. rewrite Z.shiftl_spec, testbit_one by lia. apply bool_decide_ext. lia.
Qed.

Lemma same_price p q : p = q ↔ p / 64 = q / 64 ∧ p mod 64 = q mod 64.
Proof.
  split; [by intros ->|]. intros [H1 H2].
  rewrite (Z.div_mod p 64), (Z.div_mod q 64), H1, H2 by lia. done.
Qed.

(** The shape shared by [|=] and [&^=] on one word. *)
Lemma bitmap_update_spec bm price f (b : bool) :
  bitmap_ok bm → 1 ≤ price < maxPrice →
  (∀ x k, uint64 x → 0 ≤ k →
     Z.testbit (f x) k = if decide (k = price mod 64) then b else Z.testbit x k) →
  ∃ bm', (w ← arr_get bm (price ÷ 64); arr_set bm (price ÷ 64) (f w)) = Some bm' ∧
    bitmap_ok bm' ∧
    ∀ q, bit_at bm' q = if decide (q = price) then b else bit_at bm q.
Proof.
  intros Hbm Hp Hf. pose proof (price_word_range price ltac:(lia)) as Hw.
  rewrite Z.quot_div_nonneg, arr_get_word, Some_bind by (done || lia).
  rewrite arr_set_Some by (rewrite bitmap_length by done; lia).
  eexists. split; [done|].
  assert (∀ q, bit_at (<[Z.to_nat (price / 64) := f (word_at bm (price / 64))]> bm) q =
               if decide (q = price) then b else bit_at bm q) as Hbits.
  { intros q. rewrite bit_at_insert by (rewrite bitmap_length by done; lia).
    pose proof (Z.mod_pos_bound q 64 ltac:(lia)).
    destruct (decide (q / 64 = price / 64)) as [E|E].
    - rewrite Hf by (apply (bitmap_words bm Hbm) || lia).
      destruct (decide (q mod 64 = price mod 64)).
      + rewrite decide_True; [done|]. by apply same_price.
      + rewrite decide_False; [|by intros ->]. by rewrite bit_at_divmod, E.
    - rewrite decide_False; [done|]. by intros ->. }
  split; [|done]. split.
  - rewrite length_insert. by apply bitmap_length.
  - intros w. unfold word_at.
    rewrite arr_get_set by (rewrite bitmap_length by done; lia). case_decide.
    + simpl. apply bits_uint64. intros k Hk. rewrite Hf; [|apply (bitmap_words bm Hbm)|lia].
      pose proof (Z.mod_pos_bound price 64 ltac:(lia)).
      rewrite decide_False by lia. apply uint64_high_bits; [|done].
      apply (bitmap_words bm Hbm).
    + apply (bitmap_words bm Hbm).
  - intros q. rewrite Hbits. case_decide; [lia|]. apply (bitmap_prices bm Hbm).
Qed.

Lemma bitmap_set_spec bm price :
  bitmap_ok bm → 1 ≤ price < maxPrice →
  ∃ bm', bitmap_set bm price = Some bm' ∧ bitmap_ok bm' ∧
    ∀ q, bit_at bm' q = if decide (q = price) then true else bit_at bm q.
Proof.
  intros Hbm Hp. apply (bitmap_update_spec bm price (λ w, Z.lor w (Z.shiftl 1 (price mod 64))));
    [done|done|]. intros x k Hx Hk. pose proof (Z.mod_pos_bound price 64 ltac:(lia)).
  rewrite Z.lor_spec, shiftl_one_bit by lia.
  destruct (decide (k = price mod 64)).
  - rewrite bool_decide_true by done. apply orb_true_r.
  - rewrite bool_decide_false by done. apply orb_false_r.
Qed.

Lemma bitmap_clear_spec bm price :
  bitmap_ok bm → 1 ≤ price < maxPrice →
  ∃ bm', bitmap_clear bm price = Some bm' ∧ bitmap_ok bm' ∧
    ∀ q, bit_at bm' q = if decide (q = price) then false else bit_at bm q.
Proof.
  intros Hbm Hp. apply (bitmap_update_spec bm price (λ w, Z.ldiff w (Z.shiftl 1 (price mod 64))));
    [done|done|]. intros x k Hx Hk. pose proof (Z.mod_pos_bound price 64 ltac:(lia)).
  rewrite Z.ldiff_spec, shiftl_one_bit by lia.
  destruct (decide (k = price mod 64)).
  - rewrite bool_decide_true by done. apply andb_false_r.
  - rewrite bool_decide_false by done. apply andb_true_r.
Qed.

(** The zeroed bitmap of a new book. *)
Definition empty_bitmap : list Z := replicate (Z.to_nat priceBitmapWords) 0.

Lemma bit_at_empty p : bit_at empty_bitmap p = false.
Proof.
  unfold bit_at, word_at, arr_get. destruct (p / 64 <? 0); [apply Z.testbit_0_l|].
  destruct (empty_bitmap !! Z.to_nat (p / 64)) as [x|] eqn:E; [|apply Z.testbit_0_l].
  unfold empty_bitmap in E. apply lookup_replicate in E as [-> _]. apply Z.testbit_0_l.
Qed.

Lemma empty_bitmap_ok : bitmap_ok empty_bitmap.
Proof.
  split.
  - done.
  - intros w. unfold word_at, arr_get. destruct (w <? 0); [done|].
    destruct (empty_bitmap !! Z.to_nat w) as [x|] eqn:E; [|done].
    unfold empty_bitmap in E. by apply lookup_replicate in E as [-> _].
  - intros p. by rewrite bit_at_empty.
Qed.
