(* ===== verification/BookHeap.v ===== *)
(** * Matching: order storage of a book

    The slab allocator of [order_pool.go], the intrusive nodes of
    [direct_order.go] and the FIFO buckets of [bucket.go].

    Nodes live in a store addressed by pointers.  A pointer is the backing
    array it points into (the pool replaces its array when it grows, and older
    arrays stay reachable through the nodes handed out before) and the index in
    it.  [None] is a nil dereference or an index out of range. *)

From S2P Require Import Prelude MatchModel.

Local Open Scope Z_scope.
Local Open Scope go_scope.

Abbreviation ptr := (nat * nat)%type.

(** A bucket's address: its side ([true] for bids) and its price index. *)
Abbreviation bucketRef := (bool * Z)%type.

(** The sixteen fields [DirectOrder] shares with [Order] are kept as one
    [Order.t]: [FromOrder] and [ToOrder] copy all of them. *)
Module DirectOrder.
Record t := mk {
  data : Order.t;
  bucket : option bucketRef;
  prev : option ptr;
  next : option ptr;
  poolID : nat;
}.

Definition set_data (d : t) (o : Order.t) : t :=
  mk o (bucket d) (prev d) (next d) (poolID d).
Definition set_links (d : t) (b : option bucketRef) (p n : option ptr) : t :=
  mk (data d) b p n (poolID d).
Definition set_prev (d : t) (p : option ptr) : t :=
  mk (data d) (bucket d) p (next d) (poolID d).
Definition set_next (d : t) (n : option ptr) : t :=
  mk (data d) (bucket d) (prev d) n (poolID d).
Definition set_poolID (d : t) (i : nat) : t :=
  mk (data d) (bucket d) (prev d) (next d) i.

Definition RemainingQuantity (d : t) : Z := Order.RemainingQuantity (data d).
Definition ApplyFill (d : t) (quantity : Z) : t :=
  set_data d (Order.ApplyFill (data d) quantity).
Definition Cancel (d : t) (reason : CancelReason) : t :=
  set_data d (Order.Cancel (data d) reason).
Definition IsBuy (d : t) : bool := Order.IsBuy (data d).

Definition FromOrder (d : t) (o : Order.t) : t := mk o None None None (poolID d).
Definition ToOrder (d : t) : Order.t := data d.
Definition reset (d : t) : t := mk Order.zero None None None (poolID d).

(** An element of a freshly made slab. *)
Definition fresh (i : nat) : t := mk Order.zero None None None i.
End DirectOrder.

Abbreviation heap := (gmap ptr DirectOrder.t).

(** ** The pool ([order_pool.go]) *)

Module OrderPool.
(** [slab] is the backing array number [gen], of [size] elements. *)
Record t := mk {
  gen : nat;
  size : nat;
  free : list nat;
  next : nat;
}.

Definition defaultPoolSize : nat := 64.

(** [make([]DirectOrder, size)] with the pool ids from [from] on set. *)
Definition alloc_slab (g : nat) (from n : nat) (h : heap) : heap :=
  foldr (λ i h, <[(g, i) := DirectOrder.fresh i]> h) h (seq from n).

Definition NewOrderPool (initialSize : nat) : heap * t :=
  let n := if (initialSize =? 0)%nat then defaultPoolSize else initialSize in
  (alloc_slab 0 0 n ∅, mk 0 n [] 0).

(** [copy(newSlab, p.slab)]. *)
Definition copy_slab (g : nat) (n : nat) (h : heap) : heap :=
  foldr (λ i h', match h !! (g, i) with
                 | Some d => <[(S g, i) := d]> h'
                 | None => h'
                 end) h (seq 0 n).

Definition grow (h : heap) (p : t) : heap * t :=
  let oldLen := size p in
  let newLen := (oldLen * 2)%nat in
  (alloc_slab (S (gen p)) oldLen (newLen - oldLen) (copy_slab (gen p) oldLen h),
   mk (S (gen p)) newLen (free p) (next p)).

Definition Get (h : heap) (p : t) : option (heap * t * ptr) :=
  match last (free p) with
  | Some idx =>
      let o := (gen p, idx) in
      d ← h !! o;
      Some (<[o := DirectOrder.reset d]> h,
            mk (gen p) (size p) (removelast (free p)) (next p), o)
  | None =>
      let '(h, p) := if (size p <=? next p)%nat then grow h p else (h, p) in
      let o := (gen p, next p) in
      d ← h !! o;
      Some (<[o := DirectOrder.set_poolID d (next p)]> h,
            mk (gen p) (size p) (free p) (S (next p)), o)
  end.

Definition Put (h : heap) (p : t) (o : ptr) : option (heap * t) :=
  d ← h !! o;
  Some (<[o := DirectOrder.reset d]> h,
        mk (gen p) (size p) (free p ++ [DirectOrder.poolID d]) (next p)).
End OrderPool.

(** ** Buckets ([bucket.go]) *)

Module Bucket.
Record t := mk {
  Price : Z;
  Head : option ptr;
  Tail : option ptr;
  Volume : Z;
  NumOrders : Z;
}.

Definition wrap32 (z : Z) : Z := (z + 2 ^ 31) mod 2 ^ 32 - 2 ^ 31.

Definition Append (self : bucketRef) (h : heap) (b : t) (o : ptr) : option (heap * t) :=
  d ← h !! o;
  let d := DirectOrder.set_links d (Some self) (Tail b) None in
  let h := <[o := d]> h in
  '(h, hd) ← match Tail b with
             | Some tl =>
                 dt ← h !! tl;
                 Some (<[tl := DirectOrder.set_next dt (Some o)]> h, Head b)
             | None => Some (h, Some o)
             end;
  Some (h, mk (Price b) hd (Some o)
             (Volume b ⊞ DirectOrder.RemainingQuantity d) (wrap32 (NumOrders b + 1))).

Definition Remove (h : heap) (b : t) (o : ptr) : option (heap * t) :=
  d ← h !! o;
  '(h, hd) ← match DirectOrder.prev d with
             | Some q =>
                 dq ← h !! q;
                 Some (<[q := DirectOrder.set_next dq (DirectOrder.next d)]> h, Head b)
             | None => Some (h, DirectOrder.next d)
             end;
  d ← h !! o;
  '(h, tl) ← match DirectOrder.next d with
             | Some n =>
                 dn ← h !! n;
                 Some (<[n := DirectOrder.set_prev dn (DirectOrder.prev d)]> h, Tail b)
             | None => Some (h, DirectOrder.prev d)
             end;
  d ← h !! o;
  Some (<[o := DirectOrder.set_links d None None None]> h,
        mk (Price b) hd tl (Volume b ⊟ DirectOrder.RemainingQuantity d)
           (wrap32 (NumOrders b - 1))).

Definition IsEmpty (b : t) : bool := bool_decide (Head b = None).

Definition TotalQuantity (b : t) : Z := Volume b.

(** A bucket of a new book. *)
Definition empty (price : Z) : t := mk price None None 0 0.
End Bucket.

(** ** Doubly linked segments

    [dseg h pp l nn]: the nodes [l] are linked in this order, the first one's
    [prev] is [pp] and the last one's [next] is [nn]. *)

Definition hd_or (l : list ptr) (nn : option ptr) : option ptr :=
  match l with [] => nn | y :: _ => Some y end.
Definition last_or (pp : option ptr) (l : list ptr) : option ptr :=
  match last l with Some z => Some z | None => pp end.

Fixpoint dseg (h : heap) (pp : option ptr) (l : list ptr) (nn : option ptr) : Prop :=
  match l with
  | [] => True
  | x :: l =>
      (∃ d, h !! x = Some d ∧ DirectOrder.prev d = pp ∧ DirectOrder.next d = hd_or l nn) ∧
      dseg h (Some x) l nn
  end.

(** The FIFO queue a bucket stands for. *)
Record bucket_rep (h : heap) (b : Bucket.t) (l : list ptr) : Prop := {
  rep_head : Bucket.Head b = hd_or l None;
  rep_tail : Bucket.Tail b = last_or None l;
  rep_links : dseg h None l None;
  rep_nodup : NoDup l;
}.

(** The part of the store that link updates leave alone. *)
Definition payload (d : DirectOrder.t) : Order.t * nat :=
  (DirectOrder.data d, DirectOrder.poolID d).
Definition links (d : DirectOrder.t) : option ptr * option ptr :=
  (DirectOrder.prev d, DirectOrder.next d).

Lemma last_or_cons pp x l : last_or pp (x :: l) = last_or (Some x) l.
Proof. unfold last_or. rewrite last_cons. by destruct (last l). Qed.

Lemma last_or_snoc pp l x : last_or pp (l ++ [x]) = Some x.
Proof. unfold last_or. by rewrite last_snoc. Qed.

Lemma hd_or_app l1 l2 nn : hd_or (l1 ++ l2) nn = hd_or l1 (hd_or l2 nn).
Proof. by destruct l1. Qed.

Lemma last_or_app pp l1 l2 : last_or pp (l1 ++ l2) = last_or (last_or pp l1) l2.
Proof. unfold last_or. rewrite last_app. by destruct (last l2). Qed.

Lemma dseg_app h pp l1 l2 nn :
  dseg h pp (l1 ++ l2) nn ↔ dseg h pp l1 (hd_or l2 nn) ∧ dseg h (last_or pp l1) l2 nn.
Proof.
  revert pp. induction l1 as [|x l1 IH]; intros pp; simpl; [tauto|].
  rewrite IH, hd_or_app, last_or_cons. tauto.
Qed.

Lemma dseg_frame h h' pp l nn :
  (∀ x, x ∈ l → links <$> h' !! x = links <$> h !! x) →
  dseg h pp l nn → dseg h' pp l nn.
Proof.
  revert pp. induction l as [|x l IH]; intros pp Hf; simpl; [done|].
  intros [(d & Hd & Hp & Hn) Hs]. split.
  - specialize (Hf x ltac:(left)). rewrite Hd in Hf.
    destruct (h' !! x) as [d'|]; [|done]. simpl in Hf. injection Hf as Hp' Hn'.
    exists d'. split_and!; [done|congruence|congruence].
  - apply IH; [|done]. intros y Hy. apply Hf. by right.
Qed.

Lemma dseg_lookup h pp l nn x : dseg h pp l nn → x ∈ l → is_Some (h !! x).
Proof.
  revert pp. induction l as [|y l IH]; intros pp; simpl; [by intros ? ?%elem_of_nil|].
  intros [(d & Hd & _) Hs] [->|?]%elem_of_cons; eauto.
Qed.

Lemma bucket_rep_frame h h' b l :
  (∀ x, x ∈ l → links <$> h' !! x = links <$> h !! x) →
  bucket_rep h b l → bucket_rep h' b l.
Proof. intros Hf []. split; try done. by eapply dseg_frame. Qed.

Lemma bucket_rep_empty h p : bucket_rep h (Bucket.empty p) [].
Proof. split; [done|done|done|constructor]. Qed.

Lemma bucket_rep_IsEmpty h b l : bucket_rep h b l → Bucket.IsEmpty b = bool_decide (l = []).
Proof.
  intros []. unfold Bucket.IsEmpty. rewrite rep_head0. apply bool_decide_ext.
  by destruct l.
Qed.

(** Re-linking a node changes neither the payload map nor other nodes. *)
Lemma payload_insert_same (h : heap) x d d' :
  h !! x = Some d → payload d' = payload d → payload <$> <[x := d']> h = payload <$> h.
Proof.
  intros Hd Hp. rewrite fmap_insert, Hp. apply insert_id.
  by rewrite lookup_fmap, Hd.
Qed.

Lemma links_insert_same (h : heap) x y d d' :
  h !! x = Some d → links d' = links d →
  links <$> <[x := d']> h !! y = links <$> h !! y.
Proof.
  intros Hd Hl. destruct (decide (x = y)) as [->|].
  - by rewrite lookup_insert_eq, Hd; simpl; rewrite Hl.
  - by rewrite lookup_insert_ne.
Qed.

Lemma dseg_insert_ne h pp l nn x d :
  x ∉ l → dseg h pp l nn → dseg (<[x := d]> h) pp l nn.
Proof.
  intros Hx. apply dseg_frame. intros y Hy. rewrite lookup_insert_ne; [done|].
  by intros ->.
Qed.

(** Re-targeting the two ends of a segment. *)
Lemma dseg_set_next_last h pp l z nn nn' d :
  NoDup (l ++ [z]) → dseg h pp (l ++ [z]) nn → h !! z = Some d →
  dseg (<[z := DirectOrder.set_next d nn']> h) pp (l ++ [z]) nn'.
Proof.
  intros Hnd Hs Hd. apply NoDup_app in Hnd as (_ & Hz & _).
  rewrite dseg_app in *. destruct Hs as [Hs1 [(d' & Hd' & Hp & _) _]].
  split.
  - apply dseg_insert_ne; [|done]. intros ?. apply (Hz z); [done|]. by left.
  - simpl. split; [|done]. eexists. split; [apply lookup_insert_eq|].
    by simplify_eq.
Qed.

Lemma dseg_set_prev_head h pp pp' x l nn d :
  NoDup (x :: l) → dseg h pp (x :: l) nn → h !! x = Some d →
  dseg (<[x := DirectOrder.set_prev d pp']> h) pp' (x :: l) nn.
Proof.
  intros [Hx _]%NoDup_cons [(d' & Hd' & _ & Hn) Hs] Hd. split.
  - eexists. split; [apply lookup_insert_eq|]. by simplify_eq.
  - by apply dseg_insert_ne.
Qed.

(** [Append] is a queue push; [Remove] takes a node out of any position. *)
Lemma Append_spec self h b l o d :
  bucket_rep h b l → h !! o = Some d → o ∉ l →
  ∃ h' b', Bucket.Append self h b o = Some (h', b') ∧
    bucket_rep h' b' (l ++ [o]) ∧
    payload <$> h' = payload <$> h ∧
    (∀ x, x ≠ o → x ∉ l → h' !! x = h !! x) ∧
    Bucket.Price b' = Bucket.Price b ∧
    Bucket.Volume b' = Bucket.Volume b ⊞ DirectOrder.RemainingQuantity d.
Proof.
  intros [Hh Ht Hs Hnd] Hd Ho. unfold Bucket.Append. rewrite Hd, Some_bind. rewrite Ht.
  set (d' := DirectOrder.set_links d _ _ _).
  assert (payload <$> <[o := d']> h = payload <$> h) as Hpay by by eapply payload_insert_same.
  assert (NoDup (l ++ [o])) as Hnd'.
  { apply NoDup_app. split_and!; [done| |apply NoDup_singleton].
    by intros x Hx ->%list_elem_of_singleton. }
  destruct l as [|z l _] using rev_ind.
  - simpl. eexists _, _. split; [done|]. split_and!; try done.
    + split; try done. simpl. split; [|done]. eexists. split; [apply lookup_insert_eq|].
      done.
    + intros x Hx _. by rewrite lookup_insert_ne.
  - rewrite last_or_snoc in *.
    assert (z ≠ o) as Hzo. { intros ->. apply Ho, elem_of_app. right. by left. }
    destruct (dseg_lookup _ _ _ _ z Hs) as [dz Hdz].
    { apply elem_of_app. right. by left. }
    rewrite lookup_insert_ne, Hdz by done. simpl.
    eexists _, _. split; [done|]. split_and!; try done.
    + split; simpl.
      * rewrite Hh. by rewrite !hd_or_app.
      * by rewrite last_or_snoc.
      * rewrite dseg_app. split.
        -- eapply (dseg_set_next_last _ _ _ _ None); [done| |].
           ++ by apply dseg_insert_ne.
           ++ by rewrite lookup_insert_ne.
        -- rewrite last_or_snoc. simpl. split; [|done]. exists d'.
           rewrite lookup_insert_ne, lookup_insert_eq by done. split_and!; [done| |done]. apply last_or_snoc.
      * done.
    + rewrite (payload_insert_same _ z dz); [done|by rewrite lookup_insert_ne|done].
    + intros x Hx Hxl. rewrite !lookup_insert_ne; [done|done|].
      intros ->. apply Hxl, elem_of_app. right. by left.
Qed.

(** Unlinking on the previous node's side, then on the next node's side. *)
Lemma unlink_prev h l1 o l2 d :
  NoDup (l1 ++ o :: l2) → dseg h None (l1 ++ o :: l2) None → h !! o = Some d →
  ∃ h' hd, match DirectOrder.prev d with
    | Some q =>
        dq ← h !! q;
        Some (<[q := DirectOrder.set_next dq (DirectOrder.next d)]> h, hd_or (l1 ++ o :: l2) None)
    | None => Some (h, DirectOrder.next d)
    end = Some (h', hd) ∧
    hd = hd_or (l1 ++ l2) None ∧ dseg h' None l1 (hd_or l2 None) ∧
    dseg h' (Some o) l2 None ∧ h' !! o = Some d ∧
    DirectOrder.prev d = last_or None l1 ∧ DirectOrder.next d = hd_or l2 None ∧
    payload <$> h' = payload <$> h ∧ (∀ x, x ∉ l1 → h' !! x = h !! x).
Proof.
  intros Hnd Hs Hd. rewrite dseg_app in Hs. destruct Hs as [Hs1 [(d0 & Hd0 & Hp & Hn) Hs2]].
  simplify_eq. apply NoDup_app in Hnd as (Hnd1 & Hdis & Hnd2).
  rewrite Hp, Hn. destruct l1 as [|z l1 _] using rev_ind.
  { by eexists _, _. }
  rewrite last_or_snoc.
  assert (z ≠ o) as Hzo. { intros ->. apply (Hdis o); [|by left]. apply elem_of_app. right. by left. }
  assert (z ∉ l2) as Hzl2.
  { intros ?. apply (Hdis z); [|by right]. apply elem_of_app. right. by left. }
  destruct (dseg_lookup _ _ _ _ z Hs1) as [dz Hdz].
  { apply elem_of_app. right. by left. }
  rewrite Hdz. simpl. eexists _, _. split_and!; try done.
  - by rewrite !hd_or_app.
  - by eapply dseg_set_next_last.
  - by apply dseg_insert_ne.
  - by rewrite lookup_insert_ne.
  - by eapply payload_insert_same.
  - intros x Hx. rewrite lookup_insert_ne; [done|]. intros ->. apply Hx, elem_of_app. right. by left.
Qed.

Lemma unlink_next h l1 o l2 d :
  NoDup (l1 ++ o :: l2) → dseg h None l1 (hd_or l2 None) → dseg h (Some o) l2 None →
  h !! o = Some d →
  DirectOrder.prev d = last_or None l1 → DirectOrder.next d = hd_or l2 None →
  ∃ h' tl, match DirectOrder.next d with
    | Some n =>
        dn ← h !! n;
        Some (<[n := DirectOrder.set_prev dn (DirectOrder.prev d)]> h, last_or None (l1 ++ o :: l2))
    | None => Some (h, DirectOrder.prev d)
    end = Some (h', tl) ∧
    tl = last_or None (l1 ++ l2) ∧ dseg h' None (l1 ++ l2) None ∧ h' !! o = Some d ∧
    payload <$> h' = payload <$> h ∧ (∀ x, x ∉ l2 → h' !! x = h !! x).
Proof.
  intros Hnd Hs1 Hs2 Hd Hp Hn. apply NoDup_app in Hnd as (Hnd1 & Hdis & [Ho Hnd2]%NoDup_cons).
  rewrite Hn, Hp. destruct l2 as [|n l2]; simpl.
  { eexists _, _. split_and!; try done. - by rewrite app_nil_r. - by rewrite app_nil_r. }
  destruct Hs2 as [(dn & Hdn & Hpn & Hnn) Hs2]. rewrite Hdn. simpl.
  assert (n ≠ o) as Hno. { intros ->. apply Ho. by left. }
  assert (n ∉ l1) as Hnl1. { intros ?. apply (Hdis n); [done|]. right. by left. }
  eexists _, _. split_and!; try done.
  - rewrite !last_or_app. simpl. by rewrite !last_or_cons.
  - apply dseg_app. split; [by apply dseg_insert_ne|].
    apply (dseg_set_prev_head _ (Some o)); [done| |done].
    simpl. split; [by exists dn|done].
  - by rewrite lookup_insert_ne.
  - by eapply payload_insert_same.
  - intros x Hx. rewrite lookup_insert_ne; [done|]. intros ->. apply Hx. by left.
Qed.

Lemma Remove_spec h b l1 o l2 d :
  bucket_rep h b (l1 ++ o :: l2) → h !! o = Some d →
  ∃ h' b', Bucket.Remove h b o = Some (h', b') ∧
    bucket_rep h' b' (l1 ++ l2) ∧
    payload <$> h' = payload <$> h ∧
    (∀ x, x ∉ l1 ++ o :: l2 → h' !! x = h !! x) ∧
    Bucket.Price b' = Bucket.Price b ∧
    Bucket.Volume b' = Bucket.Volume b ⊟ DirectOrder.RemainingQuantity d.
Proof.
  intros [Hh Ht Hs Hnd] Hd. unfold Bucket.Remove. rewrite Hd, Some_bind, Hh.
  destruct (unlink_prev h l1 o l2 d) as
    (h1 & hd & -> & -> & Hs1 & Hs2 & Hd1 & Hp & Hn & Hpay1 & Hfr1); try done.
  rewrite Some_bind, Hd1, Some_bind, Ht.
  destruct (unlink_next h1 l1 o l2 d) as
    (h2 & tl & -> & -> & Hs3 & Hd2 & Hpay2 & Hfr2); try done.
  rewrite Some_bind, Hd2, Some_bind. eexists _, _. split; [done|].
  assert (o ∉ l1 ++ l2) as Ho.
  { apply NoDup_app in Hnd as (_ & Hdis & [? _]%NoDup_cons).
    intros [?|?]%elem_of_app; [|done]. apply (Hdis o); [done|]. by left. }
  split_and!; try done.
  - split; try done.
    + by apply dseg_insert_ne.
    + apply NoDup_app in Hnd as (? & Hdis & [? ?]%NoDup_cons). apply NoDup_app.
      split_and!; [done| |done]. intros x Hx ?. apply (Hdis x Hx). by right.
  - erewrite payload_insert_same; [|done|done]. by rewrite Hpay2, Hpay1.
  - intros x Hx. rewrite lookup_insert_ne.
    + rewrite Hfr2, Hfr1; [done| |]; intros ?; apply Hx, elem_of_app; [by left|].
      right. by right.
    + intros ->. apply Hx, elem_of_app. right. by left.
Qed.

(** ** The pool never hands out a node that is in use

    [pool_ok h p live]: [live] are the nodes handed out and not yet returned.
    Their slab indices are pairwise distinct and not on the free list, also
    across a growth, after which they still point into older arrays. *)

Record pool_ok (h : heap) (p : OrderPool.t) (live : ptr → Prop) : Prop := {
  pool_size_pos : (0 < OrderPool.size p)%nat;
  pool_slab : ∀ i, (i < OrderPool.size p)%nat →
    (DirectOrder.poolID <$> h !! (OrderPool.gen p, i)) = Some i;
  pool_next_le : (OrderPool.next p ≤ OrderPool.size p)%nat;
  pool_free_nodup : NoDup (OrderPool.free p);
  pool_free_lt : ∀ i, i ∈ OrderPool.free p → (i < OrderPool.next p)%nat;
  pool_live : ∀ x, live x →
    (fst x ≤ OrderPool.gen p)%nat ∧ (snd x < OrderPool.next p)%nat ∧
    (snd x ∉ OrderPool.free p) ∧ (DirectOrder.poolID <$> h !! x) = Some (snd x);
  pool_live_inj : ∀ x y, live x → live y → snd x = snd y → x = y;
}.

Lemma pool_ok_ext h h' p (live live' : ptr → Prop) :
  (∀ x, DirectOrder.poolID <$> h' !! x = DirectOrder.poolID <$> h !! x) →
  (∀ x, live' x → live x) →
  pool_ok h p live → pool_ok h' p live'.
Proof.
  intros Hids Hl []. split; try done.
  - intros i Hi. rewrite Hids. auto.
  - intros x Hx. rewrite Hids. auto.
  - auto.
Qed.

Lemma payload_ids (h h' : heap) :
  payload <$> h' = payload <$> h →
  ∀ x, DirectOrder.poolID <$> h' !! x = DirectOrder.poolID <$> h !! x.
Proof.
  intros Hp x. assert ((payload <$> h') !! x = (payload <$> h) !! x) as E by by rewrite Hp.
  rewrite !lookup_fmap in E.
  destruct (h' !! x), (h !! x); simpl in *; unfold payload in *; congruence.
Qed.

Lemma lookup_alloc_slab g from n h x :
  OrderPool.alloc_slab g from n h !! x =
    if decide (fst x = g ∧ from ≤ snd x < from + n)%nat
    then Some (DirectOrder.fresh (snd x)) else h !! x.
Proof.
  unfold OrderPool.alloc_slab. revert from. induction n as [|n IH]; intros from; simpl.
  { rewrite decide_False by lia. done. }
  destruct (decide ((g, from) = x)) as [<-|Hne].
  - rewrite lookup_insert_eq. simpl. rewrite decide_True by lia. done.
  - rewrite lookup_insert_ne by done. rewrite IH.
    destruct x as [g' i]. simpl. apply decide_ext.
    assert (g' = g → i ≠ from) by (intros -> ->; done). lia.
Qed.

Lemma lookup_copy_slab g n h x :
  (∀ i, (i < n)%nat → is_Some (h !! (g, i))) →
  OrderPool.copy_slab g n h !! x =
    if decide (fst x = S g ∧ snd x < n)%nat then h !! (g, snd x) else h !! x.
Proof.
  intros Hsome. unfold OrderPool.copy_slab.
  assert (∀ m k, (k + m ≤ n)%nat →
    foldr (λ i h', match h !! (g, i) with
                   | Some d => <[(S g, i) := d]> h' | None => h' end) h (seq k m) !! x =
    if decide (fst x = S g ∧ k ≤ snd x < k + m)%nat then h !! (g, snd x) else h !! x) as H.
  { induction m as [|m IH]; intros k Hk; simpl; [by rewrite decide_False by lia|].
    destruct (Hsome k) as [d Hd]; [lia|]. rewrite Hd.
    destruct (decide ((S g, k) = x)) as [<-|Hne].
    - rewrite lookup_insert_eq. simpl. rewrite decide_True by lia. done.
    - rewrite lookup_insert_ne by done. rewrite IH by lia.
      destruct x as [g' i]. simpl. apply decide_ext.
      assert (g' = S g → i ≠ k) by (intros -> ->; done). lia. }
  rewrite (H n 0%nat) by lia. apply decide_ext. lia.
Qed.

Lemma grow_ok h p live :
  pool_ok h p live →
  let '(h', p') := OrderPool.grow h p in
  pool_ok h' p' live ∧ (OrderPool.next p' < OrderPool.size p')%nat ∧
  OrderPool.free p' = OrderPool.free p ∧ ∀ x, live x → h' !! x = h !! x.
Proof.
  intros [Hpos Hslab Hnext Hnd Hlt Hlive Hinj]. unfold OrderPool.grow. simpl.
  assert (∀ i, (i < OrderPool.size p)%nat → is_Some (h !! (OrderPool.gen p, i))) as Hsome.
  { intros i Hi. specialize (Hslab i Hi). by destruct (h !! _). }
  assert (∀ x, live x →
    OrderPool.alloc_slab (S (OrderPool.gen p)) (OrderPool.size p)
      (OrderPool.size p * 2 - OrderPool.size p)
      (OrderPool.copy_slab (OrderPool.gen p) (OrderPool.size p) h) !! x = h !! x) as Hold.
  { intros x Hx. specialize (Hlive x Hx). rewrite lookup_alloc_slab, decide_False by lia.
    by rewrite lookup_copy_slab, decide_False by (done || lia). }
  split_and!; [|simpl; lia|done|done]. split; simpl; try done.
  - lia.
  - intros i Hi. rewrite lookup_alloc_slab. simpl. case_decide; [done|].
    rewrite lookup_copy_slab by done. simpl. rewrite decide_True by lia. apply Hslab. lia.
  - lia.
  - intros x Hx. rewrite Hold by done. destruct (Hlive x Hx) as (? & ? & ? & ?).
    split_and!; (done || lia).
Qed.

Lemma removelast_snoc {A} (l : list A) x : removelast (l ++ [x]) = l.
Proof. apply removelast_last. Qed.

Lemma Get_spec h p live :
  pool_ok h p live →
  ∃ h' p' o, OrderPool.Get h p = Some (h', p', o) ∧ ¬ live o ∧
    pool_ok h' p' (λ x, live x ∨ x = o) ∧ is_Some (h' !! o) ∧
    ∀ x, live x → h' !! x = h !! x.
Proof.
  intros Hok. unfold OrderPool.Get.
  destruct (last (OrderPool.free p)) as [idx|] eqn:Hlast.
  - apply last_Some in Hlast as [fr Hfr]. destruct Hok as [Hpos Hslab Hnext Hnd Hlt Hlive Hinj].
    rewrite Hfr in *. apply NoDup_app in Hnd as (Hnd & Hdis & _).
    pose proof (Hlt idx ltac:(apply elem_of_app; right; left)) as Hidx.
    pose proof (Hslab idx ltac:(lia)) as Hid.
    destruct (h !! (OrderPool.gen p, idx)) as [d|] eqn:Hd; [|done]. simpl in Hid.
    simplify_eq. rewrite Some_bind. eexists _, _, _. split; [done|].
    assert (¬ live (OrderPool.gen p, DirectOrder.poolID d)) as Hnl.
    { intros (_ & _ & Hn & _)%Hlive. apply Hn, elem_of_app. right. by left. }
    rewrite removelast_snoc.
    split_and!; [done| |rewrite lookup_insert_eq; eauto|].
    + split; simpl; try done.
      * intros i Hi. destruct (decide (DirectOrder.poolID d = i)) as [<-|].
        -- by rewrite lookup_insert_eq.
        -- rewrite lookup_insert_ne by congruence. by apply Hslab.
      * intros i Hi. apply Hlt, elem_of_app. by left.
      * intros x [Hx| ->].
        -- rewrite lookup_insert_ne by (intros <-; done).
           destruct (Hlive x Hx) as (? & ? & Hn & ?). split_and!; try done.
           intros ?. apply Hn, elem_of_app. by left.
        -- rewrite lookup_insert_eq. simpl. split_and!; try (done || lia).
           intros ?. apply (Hdis (DirectOrder.poolID d)); [done|]. by left.
      * intros x y [Hx| ->] [Hy| ->] E; [by apply Hinj| | |done]; exfalso.
        -- destruct (Hlive x Hx) as (_ & _ & Hn & _). apply Hn. rewrite E.
           apply elem_of_app. right. by left.
        -- destruct (Hlive y Hy) as (_ & _ & Hn & _). apply Hn. rewrite <-E.
           apply elem_of_app. right. by left.
    + intros x Hx. rewrite lookup_insert_ne; [done|]. by intros <-.
  - assert (∃ h1 p1, (if (OrderPool.size p <=? OrderPool.next p)%nat
                      then OrderPool.grow h p else (h, p)) = (h1, p1) ∧
      pool_ok h1 p1 live ∧ (OrderPool.next p1 < OrderPool.size p1)%nat ∧
      OrderPool.free p1 = [] ∧ ∀ x, live x → h1 !! x = h !! x)
      as (h1 & p1 & -> & Hok1 & Hlt1 & Hfr1 & Hsame).
    { apply last_None in Hlast. destruct (Nat.leb_spec (OrderPool.size p) (OrderPool.next p)).
      - pose proof (grow_ok h p live Hok) as H'. destruct (OrderPool.grow h p) as [h1 p1].
        destruct H' as (? & ? & Hf & ?). eexists _, _. split_and!; try done. by rewrite Hf.
      - by eexists _, _. }
    destruct Hok1 as [Hpos Hslab Hnext Hnd Hlt Hlive Hinj].
    pose proof (Hslab _ Hlt1) as Hid. destruct (h1 !! _) as [d|] eqn:Hd; [|done].
    simpl in Hid. rewrite Some_bind. eexists _, _, _. split; [done|].
    assert (¬ live (OrderPool.gen p1, OrderPool.next p1)) as Hnl.
    { intros (_ & Hn & _)%Hlive. simpl in Hn. lia. }
    split_and!; [done| |rewrite lookup_insert_eq; eauto|].
    + split; simpl; try done.
      * intros i Hi. destruct (decide (OrderPool.next p1 = i)) as [<-|].
        -- by rewrite lookup_insert_eq.
        -- rewrite lookup_insert_ne by congruence. by apply Hslab.
      * intros i Hi. rewrite Hfr1 in Hi. by apply elem_of_nil in Hi.
      * rewrite Hfr1. intros x [Hx| ->].
        -- rewrite lookup_insert_ne by (intros <-; done).
           destruct (Hlive x Hx) as (? & ? & ? & ?). split_and!; try (done || lia).
           apply not_elem_of_nil.
        -- rewrite lookup_insert_eq. simpl. split_and!; try (done || lia).
           apply not_elem_of_nil.
      * intros x y [Hx| ->] [Hy| ->] E; [by apply Hinj| | |done]; exfalso.
        -- destruct (Hlive x Hx) as (_ & Hn & _). simpl in E. lia.
        -- destruct (Hlive y Hy) as (_ & Hn & _). simpl in E. lia.
    + intros x Hx. rewrite lookup_insert_ne; [by apply Hsame|]. by intros <-.
Qed.

Lemma Put_spec h p (live : ptr → Prop) o :
  pool_ok h p live → live o →
  ∃ h' p', OrderPool.Put h p o = Some (h', p') ∧
    pool_ok h' p' (λ x, live x ∧ x ≠ o) ∧ ∀ x, x ≠ o → h' !! x = h !! x.
Proof.
  intros [Hpos Hslab Hnext Hnd Hlt Hlive Hinj] Ho. unfold OrderPool.Put.
  destruct (Hlive o Ho) as (Hg & Hn & Hf & Hid).
  destruct (h !! o) as [d|] eqn:Hd; [|done]. simpl in Hid. injection Hid as Hid.
  rewrite Some_bind. eexists _, _. split; [done|]. rewrite Hid.
  assert (∀ x, DirectOrder.poolID <$> <[o := DirectOrder.reset d]> h !! x =
               DirectOrder.poolID <$> h !! x) as Hids.
  { intros x. destruct (decide (o = x)) as [<-|]; [|by rewrite lookup_insert_ne].
    by rewrite lookup_insert_eq, Hd. }
  split.
  - split; simpl; try done.
    + intros i Hi. rewrite Hids. by apply Hslab.
    + apply NoDup_app. split_and!; [done| |apply NoDup_singleton].
      by intros x Hx ->%list_elem_of_singleton.
    + intros i [?| ->%list_elem_of_singleton]%elem_of_app; [by apply Hlt|done].
    + intros x [Hx Hxo]. rewrite Hids. destruct (Hlive x Hx) as (? & ? & ? & ?).
      split_and!; try done. intros [?|E%list_elem_of_singleton]%elem_of_app; [done|].
      apply Hxo, Hinj; done.
    + intros x y [? _] [? _]. by apply Hinj.
  - intros x Hx. by rewrite lookup_insert_ne.
Qed.

Lemma NewOrderPool_ok n :
  let '(h, p) := OrderPool.NewOrderPool n in pool_ok h p (λ _, False).
Proof.
  unfold OrderPool.NewOrderPool. set (m := if (n =? 0)%nat then _ else n).
  assert (0 < m)%nat as Hm.
  { unfold m, OrderPool.defaultPoolSize. destruct (Nat.eqb_spec n 0); lia. }
  split; simpl; try done; try lia.
  - intros i Hi. rewrite lookup_alloc_slab. simpl. by rewrite decide_True by lia.
  - constructor.
  - intros i Hi. by apply elem_of_nil in Hi.
Qed.
