(* ===== verification/OrderBookDirect.v ===== *)
(** * Matching: the array-indexed order book of [order_book_direct.go]

    Bucket arrays and bitmaps per side, the order index, the cached best prices
    and the pool.  Every operation is total up to a panic ([None]); [book_rep]
    below is the representation invariant, under which no operation panics. *)

From S2P Require Import Prelude MatchModel Bitmap BookHeap.

Local Open Scope Z_scope.

Record OrderBookDirect := mkBook {
  Key : string;
  askBuckets : list Bucket.t;
  bidBuckets : list Bucket.t;
  askBitmap : list Z;
  bidBitmap : list Z;
  orderIndex : gmap string ptr;
  bestAsk : Z;   (* 0 means no asks *)
  bestBid : Z;   (* 0 means no bids *)
  pool : OrderPool.t;
  store : heap;
}.

Definition new_buckets : list Bucket.t := Bucket.empty <$> seqZ 0 maxPrice.

Definition NewOrderBookDirect (key : string) : OrderBookDirect :=
  let '(h, p) := OrderPool.NewOrderPool OrderPool.defaultPoolSize in
  mkBook key new_buckets new_buckets empty_bitmap empty_bitmap ∅ 0 0 p h.

Definition HasOrder (ob : OrderBookDirect) (orderID : string) : bool :=
  bool_decide (is_Some (orderIndex ob !! orderID)).

Definition GetDirectOrder (ob : OrderBookDirect) (orderID : string) : option ptr :=
  orderIndex ob !! orderID.

Definition OrderCount (ob : OrderBookDirect) : Z := Z.of_nat (size (orderIndex ob)).

(** The bucket and bitmap updates of one side, the same on both sides. *)
Definition add_to_side (side : bool) (h : heap) (buckets : list Bucket.t) (bm : list Z)
    (price : Z) (d : ptr) : option (heap * list Bucket.t * list Z) :=
  b ← arr_get buckets price;
  '(h, b) ← Bucket.Append (side, price) h b d;
  buckets ← arr_set buckets price b;
  bm ← bitmap_set bm price;
  Some (h, buckets, bm).

Definition AddOrder (ob : OrderBookDirect) (order : Order.t) : option OrderBookDirect :=
  '(h, p, d) ← OrderPool.Get (store ob) (pool ob);
  node ← h !! d;
  let h := <[d := DirectOrder.FromOrder node order]> h in
  let price := Order.Price order in
  if Order.IsBuy order then
    '(h, buckets, bm) ← add_to_side true h (bidBuckets ob) (bidBitmap ob) price d;
    let best := if (bestBid ob =? 0) || (bestBid ob <? price) then price else bestBid ob in
    Some (mkBook (Key ob) (askBuckets ob) buckets (askBitmap ob) bm
            (<[Order.OrderID order := d]> (orderIndex ob)) (bestAsk ob) best p h)
  else
    '(h, buckets, bm) ← add_to_side false h (askBuckets ob) (askBitmap ob) price d;
    let best := if (bestAsk ob =? 0) || (price <? bestAsk ob) then price else bestAsk ob in
    Some (mkBook (Key ob) buckets (bidBuckets ob) bm (bidBitmap ob)
            (<[Order.OrderID order := d]> (orderIndex ob)) best (bestBid ob) p h).

(** [removeFromSide]; [scan] is the side's best-price scan. *)
Definition remove_from (scan : list Z → option Z) (h : heap) (buckets : list Bucket.t)
    (bm : list Z) (best price : Z) (d : ptr) : option (heap * list Bucket.t * list Z * Z) :=
  b ← arr_get buckets price;
  '(h, b) ← Bucket.Remove h b d;
  buckets ← arr_set buckets price b;
  if Bucket.IsEmpty b then
    bm ← bitmap_clear bm price;
    if price =? best then
      best ← scan bm;
      Some (h, buckets, bm, best)
    else Some (h, buckets, bm, best)
  else Some (h, buckets, bm, best).

Definition removeFromSide (ob : OrderBookDirect) (d : ptr) : option OrderBookDirect :=
  node ← store ob !! d;
  let price := Order.Price (DirectOrder.data node) in
  if DirectOrder.IsBuy node then
    '(h, buckets, bm, best) ←
      remove_from scanBestBid (store ob) (bidBuckets ob) (bidBitmap ob) (bestBid ob) price d;
    Some (mkBook (Key ob) (askBuckets ob) buckets (askBitmap ob) bm
            (orderIndex ob) (bestAsk ob) best (pool ob) h)
  else
    '(h, buckets, bm, best) ←
      remove_from scanBestAsk (store ob) (askBuckets ob) (askBitmap ob) (bestAsk ob) price d;
    Some (mkBook (Key ob) buckets (bidBuckets ob) bm (bidBitmap ob)
            (orderIndex ob) best (bestBid ob) (pool ob) h).

(** [delete(ob.orderIndex, id)] and [ob.pool.Put(do)]. *)
Definition drop_node (ob : OrderBookDirect) (orderID : string) (d : ptr) : option OrderBookDirect :=
  '(h, p) ← OrderPool.Put (store ob) (pool ob) d;
  Some (mkBook (Key ob) (askBuckets ob) (bidBuckets ob) (askBitmap ob) (bidBitmap ob)
          (delete orderID (orderIndex ob)) (bestAsk ob) (bestBid ob) p h).

Definition RemoveDirectOrder (ob : OrderBookDirect) (d : option ptr) : option OrderBookDirect :=
  match d with
  | None => Some ob
  | Some d =>
      ob ← removeFromSide ob d;
      node ← store ob !! d;
      drop_node ob (Order.OrderID (DirectOrder.data node)) d
  end.

Definition RemoveFromMap (ob : OrderBookDirect) (orderID : string) : option OrderBookDirect :=
  match orderIndex ob !! orderID with
  | None => Some ob
  | Some d => ob ← removeFromSide ob d; drop_node ob orderID d
  end.

Definition RemoveOrder (ob : OrderBookDirect) (order : Order.t) : option OrderBookDirect :=
  match orderIndex ob !! Order.OrderID order with
  | None => Some ob
  | Some d => ob ← removeFromSide ob d; drop_node ob (Order.OrderID order) d
  end.

Definition BestBidPrice (ob : OrderBookDirect) : option Z :=
  if bestBid ob =? 0 then None else Some (bestBid ob).
Definition BestAskPrice (ob : OrderBookDirect) : option Z :=
  if bestAsk ob =? 0 then None else Some (bestAsk ob).

Definition IsCross (ob : OrderBookDirect) (order : Order.t) : bool :=
  if Order.IsBuy order then
    if bestAsk ob =? 0 then false else bestAsk ob <=? Order.Price order
  else
    if bestBid ob =? 0 then false else Order.Price order <=? bestBid ob.

Definition IsCrossWithPrice (order : Order.t) (price : Z) : bool :=
  if Order.IsBuy order then price <=? Order.Price order else Order.Price order <=? price.

(** Bucket iteration: a bucket pointer is its index in the side's array. *)
Definition FirstAskBucket (ob : OrderBookDirect) : option (option Z) :=
  if bestAsk ob =? 0 then Some None
  else _ ← arr_get (askBuckets ob) (bestAsk ob); Some (Some (bestAsk ob)).
Definition NextAskBucket (ob : OrderBookDirect) (currentPrice : Z) : option (option Z) :=
  next_up (askBitmap ob) currentPrice.
Definition FirstBidBucket (ob : OrderBookDirect) : option (option Z) :=
  if bestBid ob =? 0 then Some None
  else _ ← arr_get (bidBuckets ob) (bestBid ob); Some (Some (bestBid ob)).
Definition NextBidBucket (ob : OrderBookDirect) (currentPrice : Z) : option (option Z) :=
  next_down (bidBitmap ob) currentPrice.

(** [RestingOrders] ranges over a map: its order is unspecified. *)
Definition RestingOrders (ob : OrderBookDirect) : option (list Order.t) :=
  mapM (λ '(_, d), DirectOrder.ToOrder <$> store ob !! d) (map_to_list (orderIndex ob)).

(** The level loop of [Snapshot]: at most [limit] buckets. *)
Fixpoint snapshot_levels (limit : nat) (buckets : list Bucket.t)
    (next : Z → option (option Z)) (cur : option Z) : option (list BookLevel) :=
  match limit, cur with
  | O, _ | _, None => Some []
  | S limit, Some p =>
      b ← arr_get buckets p;
      nxt ← next (Bucket.Price b);
      rest ← snapshot_levels limit buckets next nxt;
      Some (mkBookLevel (Bucket.Price b) (Bucket.Volume b) :: rest)
  end.

Definition Snapshot (ob : OrderBookDirect) (limit : Z) : option BookSnapshot :=
  let limit := if limit <=? 0 then 5 else limit in
  b ← FirstBidBucket ob;
  bids ← snapshot_levels (Z.to_nat limit) (bidBuckets ob) (NextBidBucket ob) b;
  a ← FirstAskBucket ob;
  asks ← snapshot_levels (Z.to_nat limit) (askBuckets ob) (NextAskBucket ob) a;
  let '(marketID, outcome) := default (0, "") (parseBookKey (Key ob)) in
  Some (mkBookSnapshot (Key ob) marketID outcome bids asks
          (if 0 <? bestBid ob then bestBid ob else 0)
          (if 0 <? bestAsk ob then bestAsk ob else 0)).

(** ** Representation invariant

    [L side price] is the FIFO queue of nodes resting at a price. *)

Record side_rep (h : heap) (buckets : list Bucket.t) (bm : list Z) (Ls : Z → list ptr) : Prop := {
  side_length : Z.of_nat (length buckets) = maxPrice;
  side_bitmap : bitmap_ok bm;
  side_bits : ∀ p, bit_at bm p = bool_decide (Ls p ≠ []);
  side_buckets : ∀ p, 0 ≤ p < maxPrice →
    ∃ b, arr_get buckets p = Some b ∧ Bucket.Price b = p ∧ bucket_rep h b (Ls p);
}.

(** [best] is the first occupied price in the order [R], 0 when there is none. *)
Definition best_ok (R : Z → Z → Prop) (best : Z) (Ls : Z → list ptr) : Prop :=
  (best = 0 ∧ ∀ p, Ls p = []) ∨
  (1 ≤ best < maxPrice ∧ Ls best ≠ [] ∧ ∀ q, Ls q ≠ [] → q = best ∨ R best q).

Record book_rep (ob : OrderBookDirect) (L : bool → Z → list ptr) : Prop := {
  rep_asks : side_rep (store ob) (askBuckets ob) (askBitmap ob) (L false);
  rep_bids : side_rep (store ob) (bidBuckets ob) (bidBitmap ob) (L true);
  rep_bestAsk : best_ok Z.lt (bestAsk ob) (L false);
  rep_bestBid : best_ok Z.gt (bestBid ob) (L true);
  rep_nodes : ∀ s p x, x ∈ L s p →
    ∃ d, store ob !! x = Some d ∧ DirectOrder.IsBuy d = s ∧
      Order.Price (DirectOrder.data d) = p ∧
      orderIndex ob !! Order.OrderID (DirectOrder.data d) = Some x;
  rep_index : ∀ id x, orderIndex ob !! id = Some x →
    ∃ d, store ob !! x = Some d ∧ Order.OrderID (DirectOrder.data d) = id ∧
      x ∈ L (DirectOrder.IsBuy d) (Order.Price (DirectOrder.data d));
  rep_pool : pool_ok (store ob) (pool ob) (λ x, ∃ id, orderIndex ob !! id = Some x);
}.

(** The order a node holds. *)
Definition order_at (h : heap) (x : ptr) : Order.t :=
  default Order.zero (DirectOrder.data <$> h !! x).

Lemma side_rep_occupied h buckets bm Ls p :
  side_rep h buckets bm Ls → Ls p ≠ [] → 1 ≤ p < maxPrice.
Proof.
  intros Hs Hne. apply (bitmap_prices bm (side_bitmap _ _ _ _ Hs)).
  rewrite (side_bits _ _ _ _ Hs). by apply bool_decide_eq_true.
Qed.

Lemma side_rep_frame h h' buckets bm Ls :
  (∀ p x, x ∈ Ls p → links <$> h' !! x = links <$> h !! x) →
  side_rep h buckets bm Ls → side_rep h' buckets bm Ls.
Proof.
  intros Hf []. split; try done. intros p Hp.
  destruct (side_buckets0 p Hp) as (b & ? & ? & ?). exists b. split_and!; try done.
  eapply bucket_rep_frame; [|done]. eauto.
Qed.

Definition upd (Ls : Z → list ptr) (p : Z) (l : list ptr) : Z → list ptr :=
  λ q, if decide (q = p) then l else Ls q.

Lemma upd_eq Ls p l : upd Ls p l p = l.
Proof. unfold upd. by rewrite decide_True. Qed.

Lemma upd_ne Ls p q l : q ≠ p → upd Ls p l q = Ls q.
Proof. intros. unfold upd. by rewrite decide_False. Qed.

(** Replacing one bucket of a side, and its bit when it becomes occupied or
    empty. *)
Lemma side_rep_update h h' buckets bm bm' Ls p b' l' :
  side_rep h buckets bm Ls → 1 ≤ p < maxPrice →
  (∀ q x, q ≠ p → x ∈ Ls q → h' !! x = h !! x) →
  bucket_rep h' b' l' → Bucket.Price b' = p →
  bitmap_ok bm' →
  (∀ q, bit_at bm' q = if decide (q = p) then bool_decide (l' ≠ []) else bit_at bm q) →
  side_rep h' (<[Z.to_nat p := b']> buckets) bm' (upd Ls p l').
Proof.
  intros [Hlen Hbm Hbits Hbuc] Hp Hf Hb' Hpr Hbm' Hbits'. split.
  - by rewrite length_insert.
  - done.
  - intros q. rewrite Hbits'. case_decide as E; [by rewrite E, upd_eq|].
    by rewrite upd_ne, Hbits.
  - intros q Hq. rewrite arr_get_set by lia. case_decide as E.
    + subst. exists b'. by rewrite upd_eq.
    + destruct (Hbuc q Hq) as (b & Hb & HP & Hr). exists b. rewrite upd_ne by done.
      split_and!; try done. eapply bucket_rep_frame; [|done].
      intros x Hx. by rewrite (Hf q x).
Qed.

Lemma add_to_side_spec side h buckets bm Ls p x d :
  side_rep h buckets bm Ls → 1 ≤ p < maxPrice → h !! x = Some d →
  (∀ q, x ∉ Ls q) → (∀ q q' y, y ∈ Ls q → y ∈ Ls q' → q = q') →
  ∃ h' buckets' bm', add_to_side side h buckets bm p x = Some (h', buckets', bm') ∧
    side_rep h' buckets' bm' (upd Ls p (Ls p ++ [x])) ∧
    payload <$> h' = payload <$> h ∧
    (∀ y, y ≠ x → y ∉ Ls p → h' !! y = h !! y).
Proof.
  intros Hs Hp Hd Hx Huniq. unfold add_to_side.
  destruct (side_buckets _ _ _ _ Hs p) as (b & Hb & HP & Hrep); [lia|].
  rewrite Hb, Some_bind.
  destruct (Append_spec (side, p) h b (Ls p) x d) as
    (h' & b' & -> & Hrep' & Hpay & Hfr & HP' & _); try done.
  rewrite Some_bind, arr_set_Some, Some_bind by (rewrite (side_length _ _ _ _ Hs); lia).
  destruct (bitmap_set_spec bm p (side_bitmap _ _ _ _ Hs) Hp) as (bm' & -> & Hbm' & Hbits).
  rewrite Some_bind. eexists _, _, _. split; [done|]. split_and!; try done.
  eapply side_rep_update; try done.
  - intros q y Hqp Hy. apply Hfr.
    + intros ->. by eapply Hx.
    + intros Hyp. by apply Hqp, (Huniq q p y).
  - by rewrite HP'.
  - intros q. rewrite Hbits. case_decide; [|done].
    symmetry. apply bool_decide_eq_true. by destruct (Ls p).
Qed.

Lemma bool_decide_neq_nil {A} (l : list A) : bool_decide (l ≠ []) = negb (bool_decide (l = [])).
Proof. by destruct l. Qed.

Lemma remove_from_spec scan h buckets bm best Ls p x l1 l2 d :
  side_rep h buckets bm Ls → Ls p = l1 ++ x :: l2 → h !! x = Some d →
  (∀ q q' y, y ∈ Ls q → y ∈ Ls q' → q = q') →
  (∀ bm', bitmap_ok bm' → ∃ r, scan bm' = Some r) →
  ∃ h' buckets' bm' best', remove_from scan h buckets bm best p x = Some (h', buckets', bm', best') ∧
    side_rep h' buckets' bm' (upd Ls p (l1 ++ l2)) ∧
    payload <$> h' = payload <$> h ∧
    (∀ y, y ∉ Ls p → h' !! y = h !! y) ∧
    (best' = best ∧ (l1 ++ l2 ≠ [] ∨ p ≠ best) ∨ scan bm' = Some best').
Proof.
  intros Hs HL Hd Huniq Hscan. unfold remove_from.
  assert (1 ≤ p < maxPrice) as Hp.
  { eapply side_rep_occupied; [done|]. rewrite HL. by destruct l1. }
  destruct (side_buckets _ _ _ _ Hs p) as (b & Hb & HP & Hrep); [lia|].
  rewrite Hb, Some_bind. rewrite HL in Hrep.
  destruct (Remove_spec h b l1 x l2 d) as (h' & b' & -> & Hrep' & Hpay & Hfr & HP' & _); try done.
  rewrite Some_bind, arr_set_Some, Some_bind by (rewrite (side_length _ _ _ _ Hs); lia).
  assert (∀ q y, q ≠ p → y ∈ Ls q → h' !! y = h !! y) as Hfr'.
  { intros q y Hqp Hy. apply Hfr. rewrite <-HL. intros Hyp. by apply Hqp, (Huniq q p y). }
  rewrite (bucket_rep_IsEmpty _ _ _ Hrep').
  assert (∀ bm', bitmap_ok bm' →
    (∀ q, bit_at bm' q = if decide (q = p) then bool_decide (l1 ++ l2 ≠ []) else bit_at bm q) →
    side_rep h' (<[Z.to_nat p := b']> buckets) bm' (upd Ls p (l1 ++ l2))) as Hside.
  { intros bm' ? ?. eapply side_rep_update; try done. by rewrite HP'. }
  rewrite <-HL in Hfr.
  destruct (bool_decide (l1 ++ l2 = [])) eqn:Hemp.
  - destruct (bitmap_clear_spec bm p (side_bitmap _ _ _ _ Hs) Hp) as (bm' & -> & Hbm' & Hbits).
    rewrite Some_bind.
    assert (side_rep h' (<[Z.to_nat p := b']> buckets) bm' (upd Ls p (l1 ++ l2))).
    { apply Hside; [done|]. intros q. rewrite Hbits, bool_decide_neq_nil, Hemp. done. }
    destruct (Z.eqb_spec p best).
    + destruct (Hscan bm' Hbm') as [r Hr]. rewrite Hr, Some_bind.
      eexists _, _, _, _. split; [done|]. split_and!; try done. by right.
    + eexists _, _, _, _. split; [done|]. split_and!; try done. left. split; [done|]. by right.
  - eexists _, _, _, _. split; [done|]. split_and!; try done.
    + apply Hside; [apply (side_bitmap _ _ _ _ Hs)|]. intros q. case_decide; [|done]. subst q.
      rewrite bool_decide_neq_nil, Hemp. rewrite (side_bits _ _ _ _ Hs).
      apply bool_decide_eq_true. rewrite HL. by destruct l1.
    + left. split; [done|]. left. by apply bool_decide_eq_false in Hemp.
Qed.

Lemma rep_unique ob L s s' p p' x :
  book_rep ob L → x ∈ L s p → x ∈ L s' p' → s = s' ∧ p = p'.
Proof.
  intros Hr H1 H2.
  destruct (rep_nodes _ _ Hr _ _ _ H1) as (d1 & E1 & ? & ? & _).
  destruct (rep_nodes _ _ Hr _ _ _ H2) as (d2 & E2 & ? & ? & _). by simplify_eq.
Qed.

Lemma rep_live ob L s p x :
  book_rep ob L → x ∈ L s p → ∃ id, orderIndex ob !! id = Some x.
Proof. intros Hr (d & _ & _ & _ & ?)%(rep_nodes _ _ Hr). eauto. Qed.

Lemma best_ok_add R Ls best p x (test : bool) :
  best_ok R best Ls → 1 ≤ p < maxPrice →
  (∀ a b, a = b ∨ R a b ∨ R b a) → (∀ a b c, R a b → R b c → R a c) →
  (test = true ↔ best = 0 ∨ R p best) →
  best_ok R (if test then p else best) (upd Ls p (Ls p ++ [x])).
Proof.
  intros Hb Hp Htri Htr Htest. right. assert (Ls p ++ [x] ≠ []) as Hne by by destruct (Ls p).
  destruct test.
  - rewrite upd_eq. split_and!; [lia|lia|done|]. intros q Hq.
    destruct (decide (q = p)) as [->|Hqp]; [by left|]. rewrite upd_ne in Hq by done.
    destruct Hb as [[-> Hall]|(Hr & Hbne & Hbest)]; [by rewrite Hall in Hq|].
    destruct (proj1 Htest eq_refl) as [?|HR]; [lia|]. right.
    destruct (Hbest q Hq) as [->|]; eauto.
  - destruct Hb as [[-> _]|(Hr & Hbne & Hbest)]; [naive_solver|].
    assert (¬ R p best) as Hnr by naive_solver.
    split_and!; [lia|lia| |].
    + destruct (decide (best = p)) as [->|]; [by rewrite upd_eq|by rewrite upd_ne].
    + intros q Hq. destruct (decide (q = p)) as [->|Hqp].
      * destruct (Htri best p) as [?|[?|?]]; [by left|by right|done].
      * rewrite upd_ne in Hq by done. by apply Hbest.
Qed.

Definition push (L : bool → Z → list ptr) (s : bool) (p : Z) (x : ptr) : bool → Z → list ptr :=
  λ s', if Bool.eqb s' s then upd (L s') p (L s' p ++ [x]) else L s'.

Lemma elem_of_push L s p x s' p' y :
  y ∈ push L s p x s' p' ↔ y ∈ L s' p' ∨ (y = x ∧ s' = s ∧ p' = p).
Proof.
  unfold push. destruct (Bool.eqb_spec s' s) as [->|]; [|naive_solver].
  unfold upd. case_decide as E; [|naive_solver].
  rewrite E, elem_of_app, list_elem_of_singleton. naive_solver.
Qed.

Lemma order_at_payload h h' x :
  payload <$> h' = payload <$> h → order_at h' x = order_at h x.
Proof.
  intros Hp. assert ((payload <$> h') !! x = (payload <$> h) !! x) as E by by rewrite Hp.
  rewrite !lookup_fmap in E. unfold order_at.
  destruct (h' !! x), (h !! x); simpl in *; unfold payload in *; congruence.
Qed.

Lemma payload_lookup (h h' : heap) x d :
  payload <$> h' = payload <$> h → h !! x = Some d →
  ∃ d', h' !! x = Some d' ∧ DirectOrder.data d' = DirectOrder.data d.
Proof.
  intros Hp Hx. assert ((payload <$> h') !! x = (payload <$> h) !! x) as E by by rewrite Hp.
  rewrite !lookup_fmap, Hx in E. destruct (h' !! x) as [d'|]; [|done].
  exists d'. split; [done|]. unfold payload in E. simpl in E. congruence.
Qed.

Lemma payload_lookup_inv (h h' : heap) x d' :
  payload <$> h' = payload <$> h → h' !! x = Some d' →
  ∃ d, h !! x = Some d ∧ DirectOrder.data d = DirectOrder.data d'.
Proof. intros Hp. by apply payload_lookup. Qed.

(** Adding a node that is not yet in the book, on either side. *)
Lemma book_rep_add ob L h p x o :
  book_rep ob L →
  1 ≤ Order.Price o < maxPrice → orderIndex ob !! Order.OrderID o = None →
  ¬ (∃ id, orderIndex ob !! id = Some x) →
  (∀ y, (∃ id, orderIndex ob !! id = Some y) → h !! y = store ob !! y) →
  (∃ d, h !! x = Some d ∧ DirectOrder.data d = o) →
  pool_ok h p (λ y, (∃ id, orderIndex ob !! id = Some y) ∨ y = x) →
  let s := Order.IsBuy o in
  ∃ h' buckets' bm',
    add_to_side s h (if s then bidBuckets ob else askBuckets ob)
      (if s then bidBitmap ob else askBitmap ob) (Order.Price o) x = Some (h', buckets', bm') ∧
    payload <$> h' = payload <$> h ∧
    ∀ bestA bestB,
      best_ok Z.lt bestA (push L s (Order.Price o) x false) →
      best_ok Z.gt bestB (push L s (Order.Price o) x true) →
      book_rep (mkBook (Key ob)
        (if s then askBuckets ob else buckets') (if s then buckets' else bidBuckets ob)
        (if s then askBitmap ob else bm') (if s then bm' else bidBitmap ob)
        (<[Order.OrderID o := x]> (orderIndex ob)) bestA bestB p h')
        (push L s (Order.Price o) x).
Proof.
  intros Hr Hp Hfresh Hnl Hsame (d & Hd & Hdo) Hpool s.
  assert (∀ s' q, x ∉ L s' q) as Hx. { intros s' q ?. apply Hnl. by eapply rep_live. }
  assert (∀ s' q y, y ∈ L s' q → h !! y = store ob !! y) as Hsame'.
  { intros s' q y Hy. apply Hsame. by eapply rep_live. }
  assert (∀ s' q q' y, y ∈ L s' q → y ∈ L s' q' → q = q') as Huniq.
  { intros s' q q' y H1 H2. by destruct (rep_unique _ _ _ _ _ _ _ Hr H1 H2). }
  assert (side_rep h (askBuckets ob) (askBitmap ob) (L false)) as Ha.
  { eapply side_rep_frame; [|apply (rep_asks _ _ Hr)]. intros q y Hy. by erewrite Hsame'. }
  assert (side_rep h (bidBuckets ob) (bidBitmap ob) (L true)) as Hb.
  { eapply side_rep_frame; [|apply (rep_bids _ _ Hr)]. intros q y Hy. by erewrite Hsame'. }
  assert (side_rep h (if s then bidBuckets ob else askBuckets ob)
            (if s then bidBitmap ob else askBitmap ob) (L s)) as Hs by by destruct s.
  destruct (add_to_side_spec s h _ _ (L s) (Order.Price o) x d Hs Hp Hd) as
    (h' & buckets' & bm' & Hadd & Hs' & Hpay & Hfr); [done|by apply Huniq|].
  exists h', buckets', bm'. split_and!; [done|done|]. intros bestA bestB HbA HbB.
  assert (∀ s' q y, s' ≠ s → y ∈ L s' q → links <$> h' !! y = links <$> h !! y) as Hfr'.
  { intros s' q y Hs1 Hy. rewrite Hfr; [done| |].
    - intros ->. by eapply Hx.
    - intros Hy'. apply Hs1. by destruct (rep_unique _ _ _ _ _ _ _ Hr Hy Hy'). }
  assert (∀ s' q y, y ∈ push L s (Order.Price o) x s' q →
    ∃ d', h' !! y = Some d' ∧ DirectOrder.IsBuy d' = s' ∧
      Order.Price (DirectOrder.data d') = q ∧
      <[Order.OrderID o := x]> (orderIndex ob) !! Order.OrderID (DirectOrder.data d') = Some y)
    as Hnodes.
  { intros s' q y [Hy|(-> & -> & ->)]%elem_of_push.
    - destruct (rep_nodes _ _ Hr _ _ _ Hy) as (dy & Hdy & HB & HP & HI).
      rewrite <-(Hsame' s' q y Hy) in Hdy.
      destruct (payload_lookup _ _ _ _ Hpay Hdy) as (d' & Hd' & E). exists d'.
      unfold DirectOrder.IsBuy in *. rewrite E. split_and!; try done.
      rewrite lookup_insert_ne; [done|]. intros E'. rewrite <-E' in HI. congruence.
    - destruct (payload_lookup _ _ _ _ Hpay Hd) as (d' & Hd' & E). exists d'.
      unfold DirectOrder.IsBuy. rewrite E, Hdo. split_and!; try done.
      apply lookup_insert_eq. }
  split; simpl; try done.
  - unfold push. destruct s eqn:Es; simpl; [|done].
    eapply side_rep_frame; [|done]. intros q y. apply (Hfr' false q y). done.
  - unfold push. destruct s eqn:Es; simpl; [done|].
    eapply side_rep_frame; [|done]. intros q y. apply (Hfr' true q y). done.
  - intros id y. destruct (decide (id = Order.OrderID o)) as [->|Hid].
    + rewrite lookup_insert_eq. intros [= <-].
      destruct (payload_lookup _ _ _ _ Hpay Hd) as (d' & Hd' & E). exists d'.
      unfold DirectOrder.IsBuy. rewrite E, Hdo. split_and!; try done.
      apply elem_of_push. by right.
    + rewrite lookup_insert_ne by done. intros Hy.
      destruct (rep_index _ _ Hr _ _ Hy) as (dy & Hdy & HI & HL).
      rewrite <-(Hsame y) in Hdy by eauto.
      destruct (payload_lookup _ _ _ _ Hpay Hdy) as (d' & Hd' & E). exists d'.
      unfold DirectOrder.IsBuy in *. rewrite E. split_and!; try done.
      apply elem_of_push. by left.
  - eapply pool_ok_ext; [by apply payload_ids| |done]. simpl.
    intros y [id Hy]. destruct (decide (id = Order.OrderID o)) as [->|Hid].
    + rewrite lookup_insert_eq in Hy. simplify_eq. by right.
    + rewrite lookup_insert_ne in Hy by done. left. eauto.
Qed.

(** [AddOrder] queues the order at the back of its price level and leaves every
    other resting order as it is. *)
Lemma AddOrder_spec ob L o :
  book_rep ob L → 1 ≤ Order.Price o < maxPrice → orderIndex ob !! Order.OrderID o = None →
  ∃ ob' x, AddOrder ob o = Some ob' ∧
    book_rep ob' (push L (Order.IsBuy o) (Order.Price o) x) ∧
    order_at (store ob') x = o ∧ (∀ s p, x ∉ L s p) ∧
    (∀ s p y, y ∈ L s p → order_at (store ob') y = order_at (store ob) y) ∧
    Key ob' = Key ob ∧ orderIndex ob' = <[Order.OrderID o := x]> (orderIndex ob).
Proof.
  intros Hr Hp Hfresh. unfold AddOrder.
  destruct (Get_spec _ _ _ (rep_pool _ _ Hr)) as (h & p & x & -> & Hnl & Hpool & [d Hd] & Hsame).
  rewrite Some_bind, Hd, Some_bind.
  set (h1 := <[x := DirectOrder.FromOrder d o]> h).
  destruct (book_rep_add ob L h1 p x o) as (h' & buckets & bm & Hadd & Hpay & Hrep); try done.
  { intros y Hy. unfold h1. rewrite lookup_insert_ne; [by apply Hsame|]. by intros ->. }
  { exists (DirectOrder.FromOrder d o). split; [apply lookup_insert_eq|done]. }
  { eapply pool_ok_ext; [|by intros ? Hy; apply Hy|exact Hpool]. intros y. unfold h1.
    destruct (decide (x = y)) as [<-|]; [|by rewrite lookup_insert_ne].
    by rewrite lookup_insert_eq, Hd. }
  assert (∀ s q, x ∉ L s q) as Hx. { intros s q ?. apply Hnl. by eapply rep_live. }
  assert (order_at h' x = o) as Hox.
  { rewrite (order_at_payload h1 h') by done. unfold order_at, h1. by rewrite lookup_insert_eq. }
  assert (∀ s q y, y ∈ L s q → order_at h' y = order_at (store ob) y) as Hoy.
  { intros s q y Hy. rewrite (order_at_payload h1 h') by done. unfold order_at, h1.
    rewrite lookup_insert_ne by (intros ->; by eapply Hx).
    rewrite Hsame; [done|]. by eapply rep_live. }
  pose proof (rep_bestAsk _ _ Hr) as HbA. pose proof (rep_bestBid _ _ Hr) as HbB.
  destruct (Order.IsBuy o); rewrite Hadd, Some_bind; eexists _, x;
    (split; [reflexivity|]); split_and!; try done; apply Hrep; try done.
  - apply (best_ok_add Z.gt _ _ _ _ ((bestBid ob =? 0) || (bestBid ob <? Order.Price o))); try done.
    + intros a b. lia.
    + intros a b c. lia.
    + rewrite orb_true_iff, Z.eqb_eq, Z.ltb_lt. lia.
  - apply (best_ok_add Z.lt _ _ _ _ ((bestAsk ob =? 0) || (Order.Price o <? bestAsk ob))); try done.
    + intros a b. lia.
    + intros a b c. lia.
    + rewrite orb_true_iff, Z.eqb_eq, Z.ltb_lt. lia.
Qed.

(** Removing a node empties its slot in the queues. *)
Definition drop (L : bool → Z → list ptr) (xs : list ptr) : bool → Z → list ptr :=
  λ s p, filter (λ y, y ∉ xs) (L s p).

Lemma filter_not_elem (xs l : list ptr) :
  (∀ y, y ∈ l → y ∉ xs) → filter (λ y, y ∉ xs) l = l.
Proof.
  induction l as [|y l IH]; intros H; [done|].
  rewrite filter_cons_True by (apply H; left). f_equal. apply IH.
  intros z Hz. apply H. by right.
Qed.

Lemma filter_drop_one (x : ptr) l1 l2 :
  NoDup (l1 ++ x :: l2) → filter (λ y, y ∉ [x]) (l1 ++ x :: l2) = l1 ++ l2.
Proof.
  intros (_ & Hd & [Hx _]%NoDup_cons)%NoDup_app.
  rewrite filter_app, filter_cons_False by (intros H; apply H; left).
  rewrite !filter_not_elem; [done| |].
  - intros y Hy ->%list_elem_of_singleton. done.
  - intros y Hy ->%list_elem_of_singleton. apply (Hd x Hy). left.
Qed.

Lemma best_ok_ext R best Ls Ls' : (∀ p, Ls p = Ls' p) → best_ok R best Ls → best_ok R best Ls'.
Proof.
  intros E [[-> H]|(H1 & H2 & H3)]; [left; split; [done|]; intros p; by rewrite <-E|].
  right. split_and!; [lia|lia|by rewrite <-E|]. intros q. rewrite <-E. apply H3.
Qed.

Lemma best_ok_same R Ls best p l :
  best_ok R best Ls → (l ≠ [] ∨ p ≠ best) → Ls p ≠ [] →
  best_ok R best (upd Ls p l).
Proof.
  intros [[-> Hall]|(Hr & Hbne & Hbest)] Hc Hp; [by rewrite Hall in Hp|].
  right. split_and!; [lia|lia| |].
  - destruct (decide (best = p)) as [->|]; [|by rewrite upd_ne]. rewrite upd_eq. tauto.
  - intros q Hq. destruct (decide (q = p)) as [->|].
    + by apply Hbest.
    + rewrite upd_ne in Hq by done. by apply Hbest.
Qed.

Lemma best_ok_scan_ask h buckets bm Ls r :
  side_rep h buckets bm Ls → scanBestAsk bm = Some r → best_ok Z.lt r Ls.
Proof.
  intros Hs Hscan. destruct (scanBestAsk_spec bm (side_bitmap _ _ _ _ Hs)) as (r' & E & Hr).
  simplify_eq. pose proof (side_bits _ _ _ _ Hs) as Hbits.
  destruct Hr as [[-> Hz]|(Hr1 & Hlo & Hb & Hmin)].
  - left. split; [done|]. intros p. specialize (Hz p). rewrite Hbits in Hz.
    apply bool_decide_eq_false in Hz. by destruct (Ls p); [|destruct Hz].
  - right. rewrite Hbits in Hb. apply bool_decide_eq_true in Hb.
    split_and!; [done| |done|]; [by eapply side_rep_occupied|].
    intros q Hq. pose proof (side_rep_occupied _ _ _ _ _ Hs Hq).
    destruct (Z.lt_trichotomy q r) as [Hlt|[->|]]; [|by left|by right].
    specialize (Hmin q ltac:(lia)). rewrite Hbits in Hmin.
    by apply bool_decide_eq_false in Hmin.
Qed.

Lemma best_ok_scan_bid h buckets bm Ls r :
  side_rep h buckets bm Ls → scanBestBid bm = Some r → best_ok Z.gt r Ls.
Proof.
  intros Hs Hscan. destruct (scanBestBid_spec bm (side_bitmap _ _ _ _ Hs)) as (r' & E & Hr).
  simplify_eq. pose proof (side_bits _ _ _ _ Hs) as Hbits.
  destruct Hr as [[-> Hz]|(Hr1 & Hlo & Hb & Hmax)].
  - left. split; [done|]. intros p. specialize (Hz p). rewrite Hbits in Hz.
    apply bool_decide_eq_false in Hz. by destruct (Ls p); [|destruct Hz].
  - right. rewrite Hbits in Hb. apply bool_decide_eq_true in Hb.
    split_and!; [done| |done|]; [by eapply side_rep_occupied|].
    intros q Hq. pose proof (side_rep_occupied _ _ _ _ _ Hs Hq).
    destruct (Z.lt_trichotomy q r) as [|[->|Hlt]]; [right; lia|by left|].
    specialize (Hmax q ltac:(lia)). rewrite Hbits in Hmax.
    by apply bool_decide_eq_false in Hmax.
Qed.

Lemma side_rep_ext h buckets bm Ls Ls' :
  (∀ p, Ls p = Ls' p) → side_rep h buckets bm Ls → side_rep h buckets bm Ls'.
Proof.
  intros E []. split; try done.
  - intros p. by rewrite <-E.
  - intros p Hp. rewrite <-E. auto.
Qed.

Lemma book_rep_ext ob L L' :
  (∀ s p, L s p = L' s p) → book_rep ob L → book_rep ob L'.
Proof.
  intros E [Ha Hb HA HB Hn Hi Hp]. split; try done.
  - by eapply side_rep_ext; [apply E|].
  - by eapply side_rep_ext; [apply E|].
  - by eapply best_ok_ext; [apply E|].
  - by eapply best_ok_ext; [apply E|].
  - intros s p y. rewrite <-E. apply Hn.
  - intros id y Hy. destruct (Hi id y Hy) as (d & ? & ? & ?). exists d. by rewrite <-E.
Qed.

Lemma elem_of_drop L xs s p y : y ∈ drop L xs s p ↔ (y ∉ xs) ∧ y ∈ L s p.
Proof. unfold drop. by rewrite list_elem_of_filter. Qed.

Lemma drop_other ob L s p x s' :
  book_rep ob L → x ∈ L s p → s' ≠ s → ∀ q, drop L [x] s' q = L s' q.
Proof.
  intros Hr Hx Hs q. apply filter_not_elem. intros y Hy ->%list_elem_of_singleton.
  apply Hs. by destruct (rep_unique _ _ _ _ _ _ _ Hr Hy Hx).
Qed.

Lemma drop_upd ob L s p x l1 l2 :
  book_rep ob L → L s p = l1 ++ x :: l2 → NoDup (L s p) →
  ∀ q, upd (L s) p (l1 ++ l2) q = drop L [x] s q.
Proof.
  intros Hr HL Hnd q. unfold drop. destruct (decide (q = p)) as [->|Hq].
  - rewrite upd_eq, HL. rewrite HL in Hnd. by rewrite filter_drop_one.
  - rewrite upd_ne by done. symmetry. apply filter_not_elem.
    intros y Hy ->%list_elem_of_singleton. apply Hq.
    assert (x ∈ L s p) as Hx by (rewrite HL; apply elem_of_app; right; left).
    by destruct (rep_unique _ _ _ _ _ _ _ Hr Hy Hx).
Qed.

Lemma rep_nodup_queue ob L s p : book_rep ob L → NoDup (L s p).
Proof.
  intros Hr.
  assert (∃ h bu bm, side_rep h bu bm (L s)) as (h & bu & bm & Hs).
  { destruct s; eexists _, _, _; [apply (rep_bids _ _ Hr)|apply (rep_asks _ _ Hr)]. }
  destruct (L s p) as [|y l] eqn:E; [constructor|].
  destruct (side_buckets _ _ _ _ Hs p) as (b & _ & _ & Hb).
  { pose proof (side_rep_occupied _ _ _ _ p Hs). rewrite E in H. specialize (H ltac:(done)). lia. }
  rewrite <-E. by destruct Hb.
Qed.

Lemma removeFromSide_spec ob L s p x :
  book_rep ob L → x ∈ L s p →
  ∃ ob', removeFromSide ob x = Some ob' ∧
    side_rep (store ob') (askBuckets ob') (askBitmap ob') (drop L [x] false) ∧
    side_rep (store ob') (bidBuckets ob') (bidBitmap ob') (drop L [x] true) ∧
    best_ok Z.lt (bestAsk ob') (drop L [x] false) ∧
    best_ok Z.gt (bestBid ob') (drop L [x] true) ∧
    payload <$> store ob' = payload <$> store ob ∧
    Key ob' = Key ob ∧ orderIndex ob' = orderIndex ob ∧ pool ob' = pool ob.
Proof.
  intros Hr Hx. unfold removeFromSide.
  destruct (rep_nodes _ _ Hr _ _ _ Hx) as (d & Hd & HB & HP & HI).
  rewrite Hd, Some_bind, HP, HB.
  pose proof (rep_nodup_queue ob L s p Hr) as Hnd.
  destruct (list_elem_of_split _ _ Hx) as (l1 & l2 & HL).
  assert (∀ s' q q' y, y ∈ L s' q → y ∈ L s' q' → q = q') as Huniq.
  { intros s' q q' y H1 H2. by destruct (rep_unique _ _ _ _ _ _ _ Hr H1 H2). }
  assert (L s p ≠ []) as Hne by (rewrite HL; by destruct l1).
  assert (∀ h' : heap, (∀ y, y ∉ L s p → h' !! y = store ob !! y) →
    ∀ q y, y ∈ L (negb s) q → links <$> h' !! y = links <$> store ob !! y) as Hother.
  { intros h' Hfr q y Hy. rewrite Hfr; [done|]. intros Hy'.
    destruct (rep_unique _ _ _ _ _ _ _ Hr Hy Hy') as [E _]. by destruct s. }
  destruct s.
  - destruct (remove_from_spec scanBestBid (store ob) (bidBuckets ob) (bidBitmap ob) (bestBid ob)
      (L true) p x l1 l2 d (rep_bids _ _ Hr) HL Hd (Huniq true)) as
      (h' & bu & bm & best & -> & Hside & Hpay & Hfr & Hbest).
    { intros bm' Hbm'. destruct (scanBestBid_spec bm' Hbm') as (r & ? & _). eauto. }
    rewrite Some_bind. eexists. split; [reflexivity|]. simpl. split_and!; try done.
    + eapply side_rep_ext; [intros q; symmetry; by eapply (drop_other _ _ true)|].
      eapply side_rep_frame; [|apply (rep_asks _ _ Hr)]. by apply (Hother h' Hfr).
    + eapply side_rep_ext; [by eapply drop_upd|done].
    + eapply best_ok_ext; [intros q; symmetry; by eapply (drop_other _ _ true)|apply (rep_bestAsk _ _ Hr)].
    + destruct Hbest as [[-> Hc]|Hscan].
      * eapply best_ok_ext; [by eapply drop_upd|]. apply best_ok_same; try done.
        apply (rep_bestBid _ _ Hr).
      * eapply best_ok_ext; [by eapply drop_upd|]. by eapply best_ok_scan_bid.
  - destruct (remove_from_spec scanBestAsk (store ob) (askBuckets ob) (askBitmap ob) (bestAsk ob)
      (L false) p x l1 l2 d (rep_asks _ _ Hr) HL Hd (Huniq false)) as
      (h' & bu & bm & best & -> & Hside & Hpay & Hfr & Hbest).
    { intros bm' Hbm'. destruct (scanBestAsk_spec bm' Hbm') as (r & ? & _). eauto. }
    rewrite Some_bind. eexists. split; [reflexivity|]. simpl. split_and!; try done.
    + eapply side_rep_ext; [by eapply drop_upd|done].
    + eapply side_rep_ext; [intros q; symmetry; by eapply (drop_other _ _ false)|].
      eapply side_rep_frame; [|apply (rep_bids _ _ Hr)]. by apply (Hother h' Hfr).
    + destruct Hbest as [[-> Hc]|Hscan].
      * eapply best_ok_ext; [by eapply drop_upd|]. apply best_ok_same; try done.
        apply (rep_bestAsk _ _ Hr).
      * eapply best_ok_ext; [by eapply drop_upd|]. by eapply best_ok_scan_ask.
    + eapply best_ok_ext; [intros q; symmetry; by eapply (drop_other _ _ false)|apply (rep_bestBid _ _ Hr)].
Qed.

(** Unlinking, un-indexing and returning a node to the pool. *)
Lemma remove_node_spec ob L s p x d :
  book_rep ob L → x ∈ L s p → store ob !! x = Some d →
  let id := Order.OrderID (DirectOrder.data d) in
  ∃ ob1 d1 ob', removeFromSide ob x = Some ob1 ∧ store ob1 !! x = Some d1 ∧
    DirectOrder.data d1 = DirectOrder.data d ∧ drop_node ob1 id x = Some ob' ∧
    book_rep ob' (drop L [x]) ∧
    (∀ y, y ≠ x → order_at (store ob') y = order_at (store ob) y) ∧
    Key ob' = Key ob ∧ orderIndex ob' = delete id (orderIndex ob).
Proof.
  intros Hr Hx Hd id.
  destruct (removeFromSide_spec ob L s p x Hr Hx) as
    (ob1 & -> & Ha & Hb & HbA & HbB & Hpay & HK & HI & HP).
  destruct (payload_lookup _ _ _ _ Hpay Hd) as (d1 & Hd1 & Hdata).
  assert (orderIndex ob !! id = Some x) as Hidx.
  { destruct (rep_nodes _ _ Hr _ _ _ Hx) as (d' & Hd' & _ & _ & ?). by simplify_eq. }
  assert (pool_ok (store ob1) (pool ob1) (λ y, ∃ id, orderIndex ob !! id = Some y)) as Hpool.
  { rewrite HP. eapply pool_ok_ext; [by apply payload_ids| |apply (rep_pool _ _ Hr)]. done. }
  destruct (Put_spec _ _ _ x Hpool) as (h' & p' & HPut & Hpool' & Hfr); [eauto|].
  eexists ob1, d1, _.
  split_and!; [done|done|done|unfold drop_node; by rewrite HPut| | | |]; simpl; rewrite ?HK, ?HI; try done; cycle 1.
  { intros y Hy. rewrite <-(order_at_payload _ _ y Hpay). unfold order_at. by rewrite Hfr. }
  assert (∀ s' q y, y ∈ drop L [x] s' q → h' !! y = store ob1 !! y) as Hfr'.
  { intros s' q y [Hy _]%elem_of_drop. apply Hfr. intros ->. apply Hy. left. }
  assert (∀ id' y, orderIndex ob !! id' = Some y → id' ≠ id → y ≠ x) as Hinj.
  { intros id' y Hy Hne ->. apply Hne. destruct (rep_index _ _ Hr _ _ Hy) as (d' & Hd' & ? & _).
    by simplify_eq. }
  split; simpl; try done.
  - eapply side_rep_frame; [|done]. intros q y Hy. by erewrite Hfr'.
  - eapply side_rep_frame; [|done]. intros q y Hy. by erewrite Hfr'.
  - intros s' q y Hy. rewrite (Hfr' s' q y) by done. apply elem_of_drop in Hy as [Hyx Hy].
    destruct (rep_nodes _ _ Hr _ _ _ Hy) as (dy & Hdy & HB & HPr & HIy).
    destruct (payload_lookup _ _ _ _ Hpay Hdy) as (dy' & Hdy' & E). exists dy'.
    unfold DirectOrder.IsBuy in *. rewrite E. split_and!; try done.
    rewrite lookup_delete_ne; [done|]. intros E'. rewrite <-E', Hidx in HIy. simplify_eq.
    apply Hyx. left.
  - intros id' y. intros [Hne Hy]%lookup_delete_Some.
    assert (y ≠ x) as Hyx by (eapply Hinj; [done|congruence]).
    rewrite (Hfr y Hyx). destruct (rep_index _ _ Hr _ _ Hy) as (dy & Hdy & HIy & HLy).
    destruct (payload_lookup _ _ _ _ Hpay Hdy) as (dy' & Hdy' & E). exists dy'.
    unfold DirectOrder.IsBuy in *. rewrite E. split_and!; try done.
    apply elem_of_drop. split; [|done]. by intros ->%list_elem_of_singleton.
  - eapply pool_ok_ext; [done| |done]. simpl. intros y [id' Hy].
    apply lookup_delete_Some in Hy as [Hne Hy]. split; [eauto|].
    eapply Hinj; [done|congruence].
Qed.

Lemma RemoveDirectOrder_spec ob L s p x :
  book_rep ob L → x ∈ L s p →
  ∃ ob', RemoveDirectOrder ob (Some x) = Some ob' ∧ book_rep ob' (drop L [x]) ∧
    (∀ y, y ≠ x → order_at (store ob') y = order_at (store ob) y) ∧
    Key ob' = Key ob ∧
    orderIndex ob' = delete (Order.OrderID (order_at (store ob) x)) (orderIndex ob).
Proof.
  intros Hr Hx. destruct (rep_nodes _ _ Hr _ _ _ Hx) as (d & Hd & _).
  destruct (remove_node_spec ob L s p x d Hr Hx Hd) as
    (ob1 & d1 & ob' & H1 & Hd1 & E & H2 & Hr' & Hsame & HK & HI).
  exists ob'. unfold RemoveDirectOrder. rewrite H1, Some_bind, Hd1, Some_bind, E.
  split_and!; try done. unfold order_at. by rewrite Hd.
Qed.
