(* ===== verification/Engine.v ===== *)
(** * Matching: the engine of [engine.go]

    The single-writer [Engine]: order placement with its four time-in-force
    modes and self-trade prevention, restore, cancel and amend.  Every operation
    is in the panic monad: [None] is a run-time panic or a loop that does not
    end within its fuel.  The wall clock is an argument: [clock n] is the reading
    taken for the trade with local sequence [n], [now] the one of a cancel.
    The reusable buffers of the struct are not part of the state: every call
    truncates them first and returns copies. *)

From S2P Require Import Prelude MatchModel Bitmap BookHeap OrderBookDirect.

Local Open Scope Z_scope.

Record Engine := mkEngine {
  books : gmap string OrderBookDirect;
  sequence : Z;
  localSeq : Z;
}.

Record Result := mkResult {
  res_Order : option Order.t;
  res_Affected : list Order.t;
  res_Trades : list Trade.t;
  res_Book : BookSnapshot;
}.

Record CancelResult := mkCancelResult {
  cancel_Orders : list Order.t;
  cancel_Books : list BookSnapshot;
}.

Definition zero_snapshot : BookSnapshot := mkBookSnapshot "" 0 "" [] [] 0 0.
Definition zero_result : Result := mkResult None [] [] zero_snapshot.
Definition order_result (o : Order.t) : Result := mkResult (Some o) [] [] zero_snapshot.

Definition New : Engine := mkEngine ∅ 0 0.
Definition SetSequence (e : Engine) (seq : Z) : Engine := mkEngine (books e) seq (localSeq e).
Definition SetLocalSeq (e : Engine) (seq : Z) : Engine := mkEngine (books e) (sequence e) seq.

Definition BookCount (e : Engine) : Z :=
  map_fold (λ _ book count, if 0 <? OrderCount book then count + 1 else count) 0 (books e).

Definition getOrCreateBook (e : Engine) (key : string) : Engine * OrderBookDirect :=
  match books e !! key with
  | Some book => (e, book)
  | None =>
      let book := NewOrderBookDirect key in
      (mkEngine (<[key := book]> (books e)) (sequence e) (localSeq e), book)
  end.

Definition set_book (e : Engine) (key : string) (book : OrderBookDirect) : Engine :=
  mkEngine (<[key := book]> (books e)) (sequence e) (localSeq e).

(** ** Self-trade prevention *)

Definition stpWouldCancelTaker (taker : Order.t) (maker : DirectOrder.t) : bool :=
  if negb (Order.UserID taker =? Order.UserID (DirectOrder.data maker))
     || bool_decide (Order.STP taker = STPNone) then false
  else bool_decide (Order.STP taker = STPCancelTaker) ||
       bool_decide (Order.STP taker = STPCancelBoth).

Definition stpWouldSkipMaker (taker : Order.t) (maker : DirectOrder.t) : bool :=
  if negb (Order.UserID taker =? Order.UserID (DirectOrder.data maker))
     || bool_decide (Order.STP taker = STPNone) then false
  else bool_decide (Order.STP taker = STPCancelMaker) ||
       bool_decide (Order.STP taker = STPCancelBoth).

(** ** The bucket iterator of one side *)

Record bucketIter := mkIter {
  it_first : option (option Z);
  it_next : Z → option (option Z);
  it_cross : Z → bool;
  it_bucket : Z → option Bucket.t;
}.

Definition bucket_iter (order : Order.t) (ob : OrderBookDirect) : bucketIter :=
  if Order.IsBuy order then
    mkIter (FirstAskBucket ob) (NextAskBucket ob)
      (λ p, p <=? Order.Price order) (arr_get (askBuckets ob))
  else
    mkIter (FirstBidBucket ob) (NextBidBucket ob)
      (λ p, Order.Price order <=? p) (arr_get (bidBuckets ob)).

(** Loop bounds: no bucket holds more nodes than the index, no side more
    buckets than prices. *)
Definition bucket_fuel (ob : OrderBookDirect) : nat := S (size (orderIndex ob)).
Definition price_fuel : nat := Z.to_nat maxPrice.

Lemma price_fuel_eq : Z.of_nat price_fuel = maxPrice.
Proof. unfold price_fuel. apply Z2Nat.id. unfold maxPrice. lia. Qed.

Global Opaque price_fuel.

(** ** Fill-or-kill simulation ([fokCanFill])

    The inner loop returns [Some None] for the early [return false]. *)
Fixpoint fok_bucket (fuel : nat) (h : heap) (order : Order.t) (maker : option ptr)
    (remaining : Z) : option (option Z) :=
  match fuel with
  | O => None
  | S fuel =>
      match maker with
      | None => Some (Some remaining)
      | Some m =>
          if 0 <? remaining then
            d ← h !! m;
            if stpWouldCancelTaker order d then Some None
            else if stpWouldSkipMaker order d then
              fok_bucket fuel h order (DirectOrder.next d) remaining
            else
              let qty := Z.min remaining (DirectOrder.RemainingQuantity d) in
              fok_bucket fuel h order (DirectOrder.next d)
                (if 0 <? qty then remaining - qty else remaining)
          else Some (Some remaining)
      end
  end.

Fixpoint fok_buckets (fuel : nat) (nodes : nat) (h : heap) (it : bucketIter) (order : Order.t)
    (bucket : option Z) (remaining : Z) : option bool :=
  match fuel with
  | O => None
  | S fuel =>
      match bucket with
      | None => Some (remaining =? 0)
      | Some p =>
          if 0 <? remaining then
            b ← it_bucket it p;
            if negb (it_cross it (Bucket.Price b)) then Some (remaining =? 0)
            else
              r ← fok_bucket nodes h order (Bucket.Head b) remaining;
              match r with
              | None => Some false
              | Some remaining =>
                  nxt ← it_next it (Bucket.Price b);
                  fok_buckets fuel nodes h it order nxt remaining
              end
          else Some (remaining =? 0)
      end
  end.

Definition fokCanFill (order : Order.t) (ob : OrderBookDirect) : option bool :=
  let it := bucket_iter order ob in
  first ← it_first it;
  fok_buckets price_fuel (bucket_fuel ob) (store ob) it order first
    (Order.RemainingQuantity order).

(** ** Matching ([match]) *)

Record mstate := mkMState {
  m_order : Order.t;
  m_store : heap;
  m_sequence : Z;
  m_localSeq : Z;
  m_trades : list Trade.t;
  m_affected : list Order.t;
  m_remove : list ptr;
  m_takerDone : bool;
}.

Definition mk_trade (bookKey : string) (seq lseq : Z) (order maker : Order.t)
    (tradeQty at_ : Z) : Trade.t :=
  Trade.mk seq (DeterministicTradeID bookKey lseq) (Order.MarketID order) (Order.Outcome order)
    bookKey (Order.Price maker) tradeQty (Order.OrderID order) (Order.OrderID maker)
    (Order.UserID order) (Order.UserID maker) (Order.Side order) (Order.Side maker) at_ 0.

(** What one maker does to the loop state: self-trade prevention, the skip of
    the same user, or a trade. *)
Definition match_maker (clock : Z → Z) (bookKey : string) (m : ptr) (d : DirectOrder.t)
    (st : mstate) : mstate :=
  let order := m_order st in
  let maker := DirectOrder.data d in
  if (Order.UserID order =? Order.UserID maker) && negb (bool_decide (Order.STP order = STPNone))
  then
    match Order.STP order with
    | STPCancelTaker =>
        mkMState (Order.Cancel order CancelReasonSTPTaker) (m_store st) (m_sequence st)
          (m_localSeq st) (m_trades st) (m_affected st) (m_remove st) true
    | STPCancelMaker =>
        let d := DirectOrder.Cancel d CancelReasonSTPMaker in
        mkMState order (<[m := d]> (m_store st)) (m_sequence st) (m_localSeq st) (m_trades st)
          (m_affected st ++ [DirectOrder.ToOrder d]) (m_remove st ++ [m]) (m_takerDone st)
    | STPCancelBoth =>
        let d := DirectOrder.Cancel d CancelReasonSTPBoth in
        mkMState (Order.Cancel order CancelReasonSTPBoth) (<[m := d]> (m_store st))
          (m_sequence st) (m_localSeq st) (m_trades st)
          (m_affected st ++ [DirectOrder.ToOrder d]) (m_remove st ++ [m]) true
    | _ => st
    end
  else if Order.UserID order =? Order.UserID maker then st
  else
    let tradeQty := Z.min (Order.RemainingQuantity order) (DirectOrder.RemainingQuantity d) in
    if tradeQty <=? 0 then st
    else
      let order' := Order.ApplyFill order tradeQty in
      let d' := DirectOrder.ApplyFill d tradeQty in
      let lseq := wrapu64 (m_localSeq st + 1) in
      let seq := wrapu64 (m_sequence st + 1) in
      mkMState order' (<[m := d']> (m_store st)) seq lseq
        (m_trades st ++
           [mk_trade bookKey seq lseq order' (DirectOrder.data d') tradeQty (clock lseq)])
        (m_affected st ++ [DirectOrder.ToOrder d'])
        (if DirectOrder.RemainingQuantity d' =? 0 then m_remove st ++ [m] else m_remove st)
        (m_takerDone st).

Definition wants_more (st : mstate) : bool :=
  (0 <? Order.RemainingQuantity (m_order st)) && negb (m_takerDone st).

Fixpoint match_bucket (fuel : nat) (clock : Z → Z) (bookKey : string) (maker : option ptr)
    (st : mstate) : option mstate :=
  match fuel with
  | O => None
  | S fuel =>
      match maker with
      | None => Some st
      | Some m =>
          if wants_more st then
            d ← m_store st !! m;
            match_bucket fuel clock bookKey (DirectOrder.next d) (match_maker clock bookKey m d st)
          else Some st
      end
  end.

Fixpoint match_buckets (fuel nodes : nat) (clock : Z → Z) (bookKey : string) (it : bucketIter)
    (bucket : option Z) (st : mstate) : option mstate :=
  match fuel with
  | O => None
  | S fuel =>
      match bucket with
      | None => Some st
      | Some p =>
          if wants_more st then
            b ← it_bucket it p;
            if negb (it_cross it (Bucket.Price b)) then Some st
            else
              st ← match_bucket nodes clock bookKey (Bucket.Head b) st;
              nxt ← it_next it (Bucket.Price b);
              match_buckets fuel nodes clock bookKey it nxt st
          else Some st
      end
  end.

Definition set_store (ob : OrderBookDirect) (h : heap) : OrderBookDirect :=
  mkBook (Key ob) (askBuckets ob) (bidBuckets ob) (askBitmap ob) (bidBitmap ob)
    (orderIndex ob) (bestAsk ob) (bestBid ob) (pool ob) h.

Fixpoint remove_all (ob : OrderBookDirect) (ds : list ptr) : option OrderBookDirect :=
  match ds with
  | [] => Some ob
  | d :: ds => ob ← RemoveDirectOrder ob (Some d); remove_all ob ds
  end.

(** The result of [match]: the mutated order and book, the two counters, the
    trades and the affected orders. *)
Record MatchOut := mkMatchOut {
  mo_order : Order.t;
  mo_book : OrderBookDirect;
  mo_sequence : Z;
  mo_localSeq : Z;
  mo_trades : list Trade.t;
  mo_affected : list Order.t;
}.

Definition match_ (clock : Z → Z) (e : Engine) (order : Order.t) (ob : OrderBookDirect)
    : option MatchOut :=
  if negb (IsCross ob order) then
    Some (mkMatchOut order ob (sequence e) (localSeq e) [] [])
  else
    let it := bucket_iter order ob in
    first ← it_first it;
    st ← match_buckets price_fuel (bucket_fuel ob) clock (Order.BookKey order) it first
           (mkMState order (store ob) (sequence e) (localSeq e) [] [] [] false);
    ob ← remove_all (set_store ob (m_store st)) (m_remove st);
    Some (mkMatchOut (m_order st) ob (m_sequence st) (m_localSeq st) (m_trades st)
            (m_affected st)).

(** ** Time in force *)

Definition set_order (out : MatchOut) (o : Order.t) : MatchOut :=
  mkMatchOut o (mo_book out) (mo_sequence out) (mo_localSeq out) (mo_trades out)
    (mo_affected out).

Definition processPostOnly (e : Engine) (order : Order.t) (ob : OrderBookDirect)
    : option MatchOut :=
  if IsCross ob order then
    Some (mkMatchOut (Order.Cancel order CancelReasonPostOnlyCross) ob
            (sequence e) (localSeq e) [] [])
  else
    ob ← AddOrder ob order;
    Some (mkMatchOut (Order.set_Status order OrderStatusNew) ob (sequence e) (localSeq e) [] []).

Definition processFOK (clock : Z → Z) (e : Engine) (order : Order.t) (ob : OrderBookDirect)
    : option MatchOut :=
  let kill := mkMatchOut (Order.Cancel order CancelReasonFOKNotFilled) ob
                (sequence e) (localSeq e) [] [] in
  if negb (IsCross ob order) then Some kill
  else
    can ← fokCanFill order ob;
    if negb can then Some kill else match_ clock e order ob.

Definition processGTCOrIOC (clock : Z → Z) (e : Engine) (order : Order.t) (ob : OrderBookDirect)
    : option MatchOut :=
  out ← match_ clock e order ob;
  let order := mo_order out in
  if Order.RemainingQuantity order =? 0 then Some out
  else if bool_decide (Order.Status order = OrderStatusCancelled) then Some out
  else if bool_decide (Order.TIF order = TimeInForceIOC) then
    Some (set_order out (Order.Cancel order
      (if bool_decide (mo_trades out = []) then CancelReasonIOCNoLiquidity
       else CancelReasonIOCPartialFill)))
  else
    ob ← AddOrder (mo_book out) order;
    Some (mkMatchOut
      (Order.set_Status order
        (if 0 <? Order.FilledQuantity order then OrderStatusPartiallyFilled else OrderStatusNew))
      ob (mo_sequence out) (mo_localSeq out) (mo_trades out) (mo_affected out)).

Definition processLimitOrder (clock : Z → Z) (e : Engine) (order : Order.t) (ob : OrderBookDirect)
    : option MatchOut :=
  match Order.TIF order with
  | TimeInForcePostOnly => processPostOnly e order ob
  | TimeInForceFOK => processFOK clock e order ob
  | _ => processGTCOrIOC clock e order ob
  end.

(** ** Engine operations *)

Definition PlaceOrder (clock : Z → Z) (e : Engine) (order : option Order.t)
    : option (Engine * Result * option EngineError) :=
  match order with
  | None => Some (e, zero_result, Some ErrOrderNil)
  | Some order =>
      match Order.Validate order with
      | Err err =>
          Some (e, order_result (Order.Reject order CancelReasonValidationFailed), Some err)
      | Ok _ =>
          let order := if bool_decide (Order.Status order = OrderStatusUnset)
                       then Order.set_Status order OrderStatusNew else order in
          let '(e, book) := getOrCreateBook e (Order.BookKey order) in
          if HasOrder book (Order.OrderID order) then
            Some (e, order_result (Order.Reject order CancelReasonValidationFailed),
                  Some (ErrDuplicateOrderID (Order.OrderID order)))
          else
            match Order.Type_ order with
            | OrderTypeLimit =>
                out ← processLimitOrder clock e order book;
                snap ← Snapshot (mo_book out) 5;
                Some (mkEngine (<[Order.BookKey order := mo_book out]> (books e))
                        (mo_sequence out) (mo_localSeq out),
                      mkResult (Some (mo_order out)) (mo_affected out) (mo_trades out) snap,
                      None)
            | t =>
                Some (e, order_result (Order.Reject order CancelReasonValidationFailed),
                      Some (ErrUnsupportedOrderType t))
            end
      end
  end.

Definition RestoreOrder (e : Engine) (order : option Order.t)
    : option (Engine * option EngineError) :=
  match order with
  | None => Some (e, None)
  | Some order =>
      match Order.Validate order with
      | Err err => Some (e, Some err)
      | Ok _ =>
          if Order.RemainingQuantity order <=? 0 then Some (e, None)
          else
            let '(e, book) := getOrCreateBook e (Order.BookKey order) in
            if HasOrder book (Order.OrderID order) then Some (e, None)
            else
              let restored :=
                if bool_decide (Order.Status order = OrderStatusUnset) then
                  Order.set_Status order
                    (if 0 <? Order.FilledQuantity order then OrderStatusPartiallyFilled
                     else OrderStatusNew)
                else order in
              book ← AddOrder book restored;
              Some (set_book e (Order.BookKey order) book, None)
      end
  end.

(** The candidate loop of [CancelOrders]: books, cancelled orders, book keys. *)
Definition cancel_one (reason : CancelReason) (now : Z)
    (acc : gmap string OrderBookDirect * list Order.t * list string)
    (candidate : option Order.t)
    : option (gmap string OrderBookDirect * list Order.t * list string) :=
  let '(bs, cancelled, keys) := acc in
  match candidate with
  | None => Some acc
  | Some candidate =>
      match bs !! Order.BookKey candidate with
      | None => Some acc
      | Some book =>
          match GetDirectOrder book (Order.OrderID candidate) with
          | None => Some acc
          | Some x =>
              existing ← store book !! x;
              if DirectOrder.RemainingQuantity existing <=? 0 then Some acc
              else
                let existing := DirectOrder.Cancel existing reason in
                let existing := DirectOrder.set_data existing
                  (Order.set_UpdatedAtMillis (DirectOrder.data existing) now) in
                let book := set_store book (<[x := existing]> (store book)) in
                book ← RemoveDirectOrder book (Some x);
                Some (<[Order.BookKey candidate := book]> bs,
                      cancelled ++ [DirectOrder.ToOrder existing],
                      if bool_decide (Key book ∈ keys) then keys else keys ++ [Key book])
          end
      end
  end.

Fixpoint cancel_loop (reason : CancelReason) (now : Z) (orders : list (option Order.t))
    (acc : gmap string OrderBookDirect * list Order.t * list string)
    : option (gmap string OrderBookDirect * list Order.t * list string) :=
  match orders with
  | [] => Some acc
  | o :: orders => acc ← cancel_one reason now acc o; cancel_loop reason now orders acc
  end.

(** The snapshot loop of [CancelOrders]; emptied books are deleted. *)
Fixpoint snapshot_loop (keys : list string) (bs : gmap string OrderBookDirect)
    : option (gmap string OrderBookDirect * list BookSnapshot) :=
  match keys with
  | [] => Some (bs, [])
  | key :: keys =>
      match bs !! key with
      | None => snapshot_loop keys bs
      | Some book =>
          snap ← Snapshot book 5;
          '(bs, snaps) ← snapshot_loop keys
             (if OrderCount book =? 0 then delete key bs else bs);
          Some (bs, snap :: snaps)
      end
  end.

Definition CancelOrders (now : Z) (e : Engine) (orders : list (option Order.t))
    (reason : CancelReason) : option (Engine * CancelResult * option EngineError) :=
  match orders with
  | [] => Some (e, mkCancelResult [] [], None)
  | _ =>
      if bool_decide (reason = CancelReasonUnset) then
        Some (e, mkCancelResult [] [], Some ErrCancelReasonRequired)
      else
        '(bs, cancelled, keys) ← cancel_loop reason now orders (books e, [], []);
        '(bs, snaps) ← snapshot_loop keys bs;
        Some (mkEngine bs (sequence e) (localSeq e), mkCancelResult cancelled snaps, None)
  end.

Definition AmendOrder (clock : Z → Z) (now : Z) (e : Engine) (original : option Order.t)
    (newPrice newQty : Z) : option (Engine * Result * option EngineError) :=
  match original with
  | None => Some (e, zero_result, Some ErrOrderNil)
  | Some original =>
      match books e !! Order.BookKey original with
      | None => Some (e, zero_result, Some (ErrBookNotFound (Order.BookKey original)))
      | Some book =>
          let missing :=
            Some (e, zero_result, Some (ErrOrderNotFoundOrFilled (Order.OrderID original))) in
          match GetDirectOrder book (Order.OrderID original) with
          | None => missing
          | Some x =>
              existing ← store book !! x;
              if DirectOrder.RemainingQuantity existing <=? 0 then missing
              else
                let existing := DirectOrder.Cancel existing CancelReasonAmended in
                let existing := DirectOrder.set_data existing
                  (Order.set_UpdatedAtMillis (DirectOrder.data existing) now) in
                let cancelled := DirectOrder.ToOrder existing in
                let book := set_store book (<[x := existing]> (store book)) in
                book ← RemoveDirectOrder book (Some x);
                let e := set_book e (Order.BookKey original) book in
                let amended := Order.set_FilledQuantity
                  (Order.set_Reason (Order.set_Status cancelled OrderStatusNew)
                     CancelReasonUnset) 0 in
                let amended := Order.set_PriceQuantity amended
                  (if 0 <? newPrice then newPrice else Order.Price amended)
                  (if 0 <? newQty then newQty else Order.Quantity amended) in
                '(e, result, err) ← PlaceOrder clock e (Some amended);
                Some (e, mkResult (res_Order result) (cancelled :: res_Affected result)
                           (res_Trades result) (res_Book result), err)
          end
      end
  end.
