(* ===== verification/BookSide.v ===== *)
(** * Matching: the priority order of a book side

    The orders of a side in price-time priority, as the bucket iteration of the
    engine visits them: best price first, FIFO within a price. *)

From stdpp Require Import sorting.
From S2P Require Import Prelude MatchModel Bitmap BookHeap OrderBookDirect.
From S2P Require Import Engine.

Local Open Scope Z_scope.

(** Bids run from high to low prices, asks from low to high. *)
Definition better (s : bool) : Z → Z → Prop := if s then Z.gt else Z.lt.

Definition price_order (s : bool) : list Z :=
  if s then (λ i, maxPrice - i) <$> seqZ 1 (maxPrice - 1) else seqZ 1 (maxPrice - 1).

Definition occupied (L : bool → Z → list ptr) (s : bool) : list Z :=
  filter (λ p, L s p ≠ []) (price_order s).

Definition flat (L : bool → Z → list ptr) (s : bool) : list ptr := occupied L s ≫= L s.

(** ** Executable view: walking the links and the buckets *)

Fixpoint walk (fuel : nat) (h : heap) (x : option ptr) : list ptr :=
  match fuel, x with
  | S fuel, Some x =>
      x :: match h !! x with Some d => walk fuel h (DirectOrder.next d) | None => [] end
  | _, _ => []
  end.

Fixpoint walk_buckets (fuel nodes : nat) (h : heap) (it : bucketIter) (p : option Z) : list ptr :=
  match fuel, p with
  | S fuel, Some p =>
      match it_bucket it p with
      | Some b =>
          walk nodes h (Bucket.Head b) ++
          walk_buckets fuel nodes h it (default None (it_next it (Bucket.Price b)))
      | None => []
      end
  | _, _ => []
  end.

Definition side_iter (ob : OrderBookDirect) (s : bool) (cross : Z → bool) : bucketIter :=
  if s then mkIter (FirstBidBucket ob) (NextBidBucket ob) cross (arr_get (bidBuckets ob))
  else mkIter (FirstAskBucket ob) (NextAskBucket ob) cross (arr_get (askBuckets ob)).

Definition crosses (order : Order.t) (p : Z) : bool :=
  if Order.IsBuy order then p <=? Order.Price order else Order.Price order <=? p.

Lemma bucket_iter_side order ob :
  bucket_iter order ob = side_iter ob (negb (Order.IsBuy order)) (crosses order).
Proof. unfold bucket_iter, side_iter, crosses. by destruct (Order.IsBuy order). Qed.

Definition side_nodes (ob : OrderBookDirect) (s : bool) : list ptr :=
  let it := side_iter ob s (λ _, true) in
  walk_buckets price_fuel (bucket_fuel ob) (store ob) it (default None (it_first it)).

(** The resting orders of a side in priority order. *)
Definition side_orders (ob : OrderBookDirect) (s : bool) : list Order.t :=
  order_at (store ob) <$> side_nodes ob s.

(** ** The iterator visits the occupied prices in order *)

Lemma price_order_sorted s : StronglySorted (better s) (price_order s).
Proof.
  assert (∀ n m, StronglySorted Z.lt (seqZ m (Z.of_nat n))) as Hseq.
  { induction n as [|n IH]; intros m; [constructor|].
    rewrite seqZ_cons by lia. constructor.
    - replace (Z.pred (Z.of_nat (S n))) with (Z.of_nat n) by lia. apply IH.
    - apply Forall_forall. intros x Hx%elem_of_seqZ. lia. }
  unfold price_order, better. replace (maxPrice - 1) with (Z.of_nat (Z.to_nat (maxPrice - 1))).
  - destruct s; [|apply Hseq]. eapply StronglySorted_fmap; [|apply Hseq]. simpl. lia.
  - rewrite Z2Nat.id; [done|]. unfold maxPrice. lia.
Qed.

Lemma elem_of_price_order s p : p ∈ price_order s ↔ 1 ≤ p < maxPrice.
Proof.
  unfold price_order. destruct s.
  - rewrite list_elem_of_fmap. setoid_rewrite elem_of_seqZ. split; [naive_solver lia|].
    intros ?. exists (maxPrice - p). lia.
  - rewrite elem_of_seqZ. lia.
Qed.

Lemma StronglySorted_filter {A} (R : A → A → Prop) (P : A → Prop) `{∀ x, Decision (P x)} l :
  StronglySorted R l → StronglySorted R (filter P l).
Proof.
  induction 1 as [|x l Hs IH Hx]; [constructor|].
  destruct (decide (P x)); [|by rewrite filter_cons_False].
  rewrite filter_cons_True by done. constructor; [done|].
  apply Forall_forall. intros y [_ Hy]%list_elem_of_filter.
  rewrite Forall_forall in Hx. by apply Hx.
Qed.

Lemma length_price_order s : length (price_order s) = pred price_fuel.
Proof.
  pose proof price_fuel_eq. unfold price_order.
  destruct s; rewrite ?length_fmap, length_seqZ; lia.
Qed.

Lemma occupied_sorted L s : StronglySorted (better s) (occupied L s).
Proof. apply StronglySorted_filter, price_order_sorted. Qed.

Lemma length_occupied L s : (length (occupied L s) < price_fuel)%nat.
Proof.
  unfold occupied. pose proof (length_filter (λ p, L s p ≠ []) (price_order s)) as H.
  rewrite length_price_order in H.
  pose proof price_fuel_eq as Hf. unfold maxPrice in Hf. lia.
Qed.

Record iter_ok (h : heap) (it : bucketIter) (Ls : Z → list ptr) (ps : list Z) : Prop := {
  iter_first : it_first it = Some (head ps);
  iter_next : ∀ l1 p l2, ps = l1 ++ p :: l2 → it_next it p = Some (head l2);
  iter_bucket : ∀ p, p ∈ ps → ∃ b, it_bucket it p = Some b ∧ Bucket.Price b = p ∧
    bucket_rep h b (Ls p) ∧ Ls p ≠ [];
}.

(** The neighbour a bitmap scan finds is the next element of the sorted list. *)
Lemma sorted_next (R : Z → Z → Prop) ps l1 p l2 (r : option Z) :
  (∀ a, ¬ R a a) → (∀ a b, R a b → ¬ R b a) →
  StronglySorted R ps → ps = l1 ++ p :: l2 →
  match r with
  | Some q => q ∈ ps ∧ R p q ∧ ∀ q', q' ∈ ps → R p q' → q = q' ∨ R q q'
  | None => ∀ q', q' ∈ ps → ¬ R p q'
  end → r = head l2.
Proof.
  intros Hirr Hasym Hs -> Hr. apply StronglySorted_app in Hs as (H12 & _ & Hs).
  apply StronglySorted_cons in Hs as [Hp Hs]. rewrite Forall_forall in Hp.
  destruct l2 as [|q2 l2]; simpl.
  - destruct r as [q|]; [|done]. destruct Hr as (Hq & HR & _).
    apply elem_of_app in Hq as [Hq|Hq].
    + exfalso. apply (Hasym p q HR). apply H12; [done|left].
    + apply list_elem_of_singleton in Hq as ->. by destruct (Hirr p).
  - assert (R p q2) as HR2 by (apply Hp; left).
    assert (q2 ∈ l1 ++ p :: q2 :: l2) as Hin2 by (apply elem_of_app; right; right; left).
    destruct r as [q|]; [|by destruct (Hr q2)]. destruct Hr as (Hq & HR & Hmin).
    destruct (Hmin q2) as [->|HR']; [done|done|done|]. exfalso.
    apply StronglySorted_cons in Hs as [Hq2 _]. rewrite Forall_forall in Hq2.
    apply elem_of_app in Hq as [Hq|Hq].
    + apply (Hasym p q HR). apply H12; [done|left].
    + apply elem_of_cons in Hq as [->|[->|Hq]%elem_of_cons].
      * by destruct (Hirr p).
      * by destruct (Hirr q2).
      * apply (Hasym q q2 HR'). by apply Hq2.
Qed.

Lemma elem_of_occupied h bu bm L s p :
  side_rep h bu bm (L s) → p ∈ occupied L s ↔ bit_at bm p = true.
Proof.
  intros Hs. unfold occupied. rewrite list_elem_of_filter, elem_of_price_order.
  rewrite (side_bits _ _ _ _ Hs), bool_decide_eq_true. split; [tauto|].
  intros Hne. split; [done|]. by eapply side_rep_occupied.
Qed.

Lemma sorted_first (R : Z → Z → Prop) ps best (Ls : Z → list ptr) :
  (∀ a b, R a b → ¬ R b a) →
  StronglySorted R ps → (∀ p, p ∈ ps ↔ Ls p ≠ []) → best_ok R best Ls →
  head ps = if best =? 0 then None else Some best.
Proof.
  intros Hasym Hs Hin [[-> Hall]|(Hr & Hne & Hbest)].
  - simpl. destruct ps as [|p ps]; [done|].
    assert (Ls p ≠ []) as Hp by (apply Hin; left). by rewrite Hall in Hp.
  - destruct (Z.eqb_spec best 0); [lia|]. apply Hin in Hne.
    destruct ps as [|p ps]; [by apply elem_of_nil in Hne|]. simpl. f_equal.
    apply StronglySorted_cons in Hs as [Hp _]. rewrite Forall_forall in Hp.
    apply elem_of_cons in Hne as [->|Hb]; [done|].
    destruct (Hbest p) as [->|HR]; [apply Hin; left|done|].
    exfalso. by apply (Hasym best p HR), Hp.
Qed.

Lemma first_bucket_eq (buckets : list Bucket.t) h bm L s best :
  side_rep h buckets bm (L s) → best_ok (better s) best (L s) →
  (if best =? 0 then Some None
   else _ ← arr_get buckets best; Some (Some best)) = Some (head (occupied L s)).
Proof.
  intros Hs Hb. rewrite (sorted_first (better s) (occupied L s) best (L s)); try done.
  - destruct (Z.eqb_spec best 0); [done|].
    destruct Hb as [[-> _]|(Hr & _ & _)]; [done|].
    destruct (side_buckets _ _ _ _ Hs best) as (b & -> & _); [lia|]. done.
  - unfold better. destruct s; lia.
  - apply occupied_sorted.
  - intros p. rewrite (elem_of_occupied _ _ _ _ _ _ Hs), (side_bits _ _ _ _ Hs).
    by rewrite bool_decide_eq_true.
Qed.

Lemma side_iter_ok ob L s cross :
  book_rep ob L → iter_ok (store ob) (side_iter ob s cross) (L s) (occupied L s).
Proof.
  intros Hr.
  assert (∀ bu bm p, side_rep (store ob) bu bm (L s) → p ∈ occupied L s →
    ∃ b, arr_get bu p = Some b ∧ Bucket.Price b = p ∧
      bucket_rep (store ob) b (L s p) ∧ L s p ≠ []) as Hbu.
  { intros bu bm p Hs Hp. apply list_elem_of_filter in Hp as [Hne Hp].
    apply elem_of_price_order in Hp.
    destruct (side_buckets _ _ _ _ Hs p) as (b & ? & ? & ?); [lia|]. eauto. }
  destruct s; simpl.
  - pose proof (rep_bids _ _ Hr) as Hs. split; simpl.
    + apply (first_bucket_eq _ _ _ _ _ _ Hs). apply (rep_bestBid _ _ Hr).
    + intros l1 p l2 E. unfold NextBidBucket.
      assert (1 ≤ p < maxPrice) as Hp.
      { apply (elem_of_price_order true). apply (list_elem_of_filter (λ p, L true p ≠ [])).
        fold (occupied L true). rewrite E. apply elem_of_app. right. left. }
      destruct (next_down_spec (bidBitmap ob) p) as (r & -> & Hspec);
        [apply (side_bitmap _ _ _ _ Hs)|lia|]. f_equal.
      eapply (sorted_next Z.gt); [lia|lia|apply (occupied_sorted L true)|done|].
      destruct r as [q|].
      * destruct Hspec as (Hle & Hbit & Hmax). rewrite (elem_of_occupied _ _ _ _ _ _ Hs).
        split_and!; [done|lia|]. intros q' Hq' HR.
        rewrite (elem_of_occupied _ _ _ _ _ _ Hs) in Hq'.
        destruct (Z.lt_trichotomy q q') as [?|[->|?]]; [|by left|by right; lia].
        rewrite Hmax in Hq' by lia. done.
      * intros q' Hq' HR. rewrite (elem_of_occupied _ _ _ _ _ _ Hs), Hspec in Hq' by lia. done.
    + intros p. by eapply Hbu.
  - pose proof (rep_asks _ _ Hr) as Hs. split; simpl.
    + apply (first_bucket_eq _ _ _ _ _ _ Hs). apply (rep_bestAsk _ _ Hr).
    + intros l1 p l2 E. unfold NextAskBucket.
      assert (1 ≤ p < maxPrice) as Hp.
      { apply (elem_of_price_order false). apply (list_elem_of_filter (λ p, L false p ≠ [])).
        fold (occupied L false). rewrite E. apply elem_of_app. right. left. }
      destruct (next_up_spec (askBitmap ob) p) as (r & -> & Hspec);
        [apply (side_bitmap _ _ _ _ Hs)|lia|]. f_equal.
      eapply (sorted_next Z.lt); [lia|lia|apply (occupied_sorted L false)|done|].
      destruct r as [q|].
      * destruct Hspec as (Hle & Hbit & Hmin). rewrite (elem_of_occupied _ _ _ _ _ _ Hs).
        split_and!; [done|lia|]. intros q' Hq' HR.
        rewrite (elem_of_occupied _ _ _ _ _ _ Hs) in Hq'.
        destruct (Z.lt_trichotomy q q') as [?|[->|?]]; [by right|by left|].
        rewrite Hmin in Hq' by lia. done.
      * intros q' Hq' HR. rewrite (elem_of_occupied _ _ _ _ _ _ Hs), Hspec in Hq' by lia. done.
    + intros p. by eapply Hbu.
Qed.

(** ** The view is the flattened queues *)

Lemma rep_order_id ob L s p x :
  book_rep ob L → x ∈ L s p → orderIndex ob !! Order.OrderID (order_at (store ob) x) = Some x.
Proof.
  intros Hr Hx. destruct (rep_nodes _ _ Hr _ _ _ Hx) as (d & Hd & _ & _ & HI).
  unfold order_at. by rewrite Hd.
Qed.

Lemma rep_order_fields ob L s p x :
  book_rep ob L → x ∈ L s p →
  Order.IsBuy (order_at (store ob) x) = s ∧ Order.Price (order_at (store ob) x) = p.
Proof.
  intros Hr Hx. destruct (rep_nodes _ _ Hr _ _ _ Hx) as (d & Hd & ? & ? & _).
  unfold order_at. by rewrite Hd.
Qed.

(** A duplicate-free list of indexed nodes is no longer than the index. *)
Lemma nodes_bound ob L xs :
  book_rep ob L → NoDup xs → (∀ x, x ∈ xs → ∃ s p, x ∈ L s p) →
  (length xs ≤ size (orderIndex ob))%nat.
Proof.
  intros Hr Hnd Hin.
  set (f := λ x, Order.OrderID (order_at (store ob) x)).
  assert (NoDup (f <$> xs)) as Hnd'.
  { apply NoDup_fmap_2_strong; [|done]. intros x y Hx Hy E.
    destruct (Hin x Hx) as (s & p & Hx'), (Hin y Hy) as (s' & p' & Hy').
    apply (rep_order_id _ _ _ _ _ Hr) in Hx', Hy'. unfold f in E. rewrite E in Hx'.
    by simplify_eq. }
  rewrite <-(length_fmap f), <-(size_list_to_set (C:=gset string)) by done.
  rewrite <-size_dom. apply subseteq_size. intros id Hid.
  apply elem_of_list_to_set, list_elem_of_fmap in Hid as (x & -> & Hx).
  destruct (Hin x Hx) as (s & p & Hx'). apply elem_of_dom.
  exists x. by apply (rep_order_id _ _ _ _ _ Hr Hx').
Qed.

Lemma walk_dseg fuel h pp l :
  dseg h pp l None → (length l ≤ fuel)%nat → walk fuel h (hd_or l None) = l.
Proof.
  revert pp l. induction fuel as [|fuel IH]; intros pp l Hs Hl.
  { destruct l; [done|simpl in Hl; lia]. }
  destruct l as [|x l]; [done|]. simpl in *. destruct Hs as [(d & -> & _ & ->) Hs].
  f_equal. apply (IH (Some x)); [done|lia].
Qed.

Lemma hd_or_head (l : list ptr) : hd_or l None = head l.
Proof. by destruct l. Qed.

Lemma walk_buckets_chain fuel nodes h it Ls ps l1 l2 :
  iter_ok h it Ls ps → ps = l1 ++ l2 → (length l2 ≤ fuel)%nat →
  (∀ p, p ∈ ps → (length (Ls p) ≤ nodes)%nat) →
  walk_buckets fuel nodes h it (head l2) = l2 ≫= Ls.
Proof.
  intros Hit. revert l1 l2. induction fuel as [|fuel IH]; intros l1 l2 Hps Hl Hn.
  { destruct l2; [done|simpl in Hl; lia]. }
  destruct l2 as [|p l2]; [done|]. simpl.
  assert (p ∈ ps) as Hp by (rewrite Hps; apply elem_of_app; right; left).
  destruct (iter_bucket _ _ _ _ Hit p Hp) as (b & -> & HP & Hrep & _). rewrite HP.
  rewrite (iter_next _ _ _ _ Hit l1 p l2) by done. simpl. f_equal.
  - rewrite (rep_head _ _ _ Hrep). eapply walk_dseg; [apply (rep_links _ _ _ Hrep)|by apply Hn].
  - apply (IH (l1 ++ [p])); [by rewrite <-app_assoc|simpl in Hl; lia|done].
Qed.

Lemma side_nodes_flat ob L s : book_rep ob L → side_nodes ob s = flat L s.
Proof.
  intros Hr. unfold side_nodes, flat. pose proof (side_iter_ok ob L s (λ _, true) Hr) as Hit.
  rewrite (iter_first _ _ _ _ Hit). simpl.
  eapply (walk_buckets_chain _ _ _ _ _ _ []); [done|done| |].
  - pose proof (length_occupied L s). lia.
  - intros p _. unfold bucket_fuel. apply le_S.
    eapply nodes_bound; [done|by eapply rep_nodup_queue|eauto].
Qed.

Lemma side_orders_flat ob L s :
  book_rep ob L → side_orders ob s = order_at (store ob) <$> flat L s.
Proof. intros Hr. unfold side_orders. by rewrite (side_nodes_flat ob L). Qed.

Lemma elem_of_flat ob L s x : book_rep ob L → x ∈ flat L s ↔ ∃ p, x ∈ L s p.
Proof.
  intros Hr. unfold flat. rewrite list_elem_of_bind. split; [naive_solver|].
  intros [p Hp]. exists p. split; [done|]. apply list_elem_of_filter.
  assert (L s p ≠ []) as Hne by (intros E; rewrite E in Hp; by apply elem_of_nil in Hp).
  split; [done|]. apply elem_of_price_order.
  destruct s; (eapply side_rep_occupied; [|exact Hne]);
    [apply (rep_bids _ _ Hr)|apply (rep_asks _ _ Hr)].
Qed.

Lemma NoDup_bind_disjoint {A B} (f : A → list B) l :
  NoDup l → (∀ x, x ∈ l → NoDup (f x)) →
  (∀ x x' y, x ∈ l → x' ∈ l → y ∈ f x → y ∈ f x' → x = x') → NoDup (l ≫= f).
Proof.
  induction 1 as [|x l Hx Hl IH]; intros Hf Hd; [constructor|]. simpl. apply NoDup_app.
  split_and!; [apply Hf; left| |].
  - intros y Hy (x' & Hy' & Hx')%list_elem_of_bind.
    assert (x = x') as -> by (eapply Hd; [left|by right|done|done]). done.
  - apply IH.
    + intros y Hy. apply Hf. by right.
    + intros y y' z Hy Hy'. apply Hd; by right.
Qed.

Lemma flat_nodup ob L s : book_rep ob L → NoDup (flat L s).
Proof.
  intros Hr. apply NoDup_bind_disjoint.
  - assert (∀ l, StronglySorted (better s) l → NoDup l) as H; [|apply H, occupied_sorted].
    induction 1 as [|p l Hs IH Hp]; constructor; [|done].
    rewrite Forall_forall in Hp. intros ?%Hp. unfold better in *. destruct s; lia.
  - intros p _. by eapply rep_nodup_queue.
  - intros p p' x _ _ H1 H2. by destruct (rep_unique _ _ _ _ _ _ _ Hr H1 H2).
Qed.

(** A new book holds nothing. *)
Lemma arr_get_new_buckets p : 0 ≤ p < maxPrice → arr_get new_buckets p = Some (Bucket.empty p).
Proof.
  intros Hp. unfold arr_get, new_buckets. destruct (Z.ltb_spec p 0); [lia|].
  rewrite list_lookup_fmap, lookup_seqZ_lt by lia. simpl. do 2 f_equal. lia.
Qed.

Lemma NewOrderBookDirect_rep key : book_rep (NewOrderBookDirect key) (λ _ _, []).
Proof.
  assert (∀ h, side_rep h new_buckets empty_bitmap (λ _, [])) as Hs.
  { intros h. split.
    - unfold new_buckets. rewrite length_fmap, length_seqZ. unfold maxPrice. lia.
    - apply empty_bitmap_ok.
    - intros p. rewrite bit_at_empty. done.
    - intros p Hp. rewrite arr_get_new_buckets by done. eexists. split_and!; [done|done|].
      apply bucket_rep_empty. }
  unfold NewOrderBookDirect.
  pose proof (NewOrderPool_ok OrderPool.defaultPoolSize) as Hpool.
  destruct (OrderPool.NewOrderPool OrderPool.defaultPoolSize) as [h p].
  split; simpl; try done.
  - by left.
  - by left.
  - intros s q x Hx. by apply elem_of_nil in Hx.
  - eapply pool_ok_ext; [done| |exact Hpool]. simpl. intros x [id Hx].
    by rewrite lookup_empty in Hx.
Qed.

(** Empty levels contribute nothing, so the view ranges over all prices. *)
Lemma flat_all L s : flat L s = price_order s ≫= L s.
Proof.
  unfold flat, occupied. induction (price_order s) as [|p ps IH]; [done|].
  destruct (decide (L s p ≠ [])) as [Hne|Hne].
  - by rewrite filter_cons_True, !bind_cons, IH by done.
  - rewrite filter_cons_False, bind_cons, IH by done.
    by destruct (L s p) eqn:E; [|destruct Hne].
Qed.

Lemma filter_bind {A B} (P : B → Prop) `{∀ x, Decision (P x)} (f : A → list B) (l : list A) :
  filter P (l ≫= f) = l ≫= (λ x, filter P (f x)).
Proof. induction l as [|x l IH]; [done|]. by rewrite !bind_cons, filter_app, IH. Qed.

Lemma flat_drop L rs s : flat (drop L rs) s = filter (λ y, y ∉ rs) (flat L s).
Proof. by rewrite !flat_all, filter_bind. Qed.

Lemma crosses_mono order p q :
  better (negb (Order.IsBuy order)) p q → crosses order p = false → crosses order q = false.
Proof.
  unfold better, crosses. destruct (Order.IsBuy order); simpl; rewrite !Z.leb_gt; lia.
Qed.

(** [IsCross] compares with the best price: nothing behind it crosses either. *)
Lemma IsCross_false ob L order :
  book_rep ob L → IsCross ob order = false →
  ∀ x, x ∈ flat L (negb (Order.IsBuy order)) →
    crosses order (Order.Price (order_at (store ob) x)) = false.
Proof.
  intros Hr Hc x Hx. apply (elem_of_flat ob) in Hx as [p Hx]; [|done].
  rewrite (proj2 (rep_order_fields _ _ _ _ _ Hr Hx)).
  assert (L (negb (Order.IsBuy order)) p ≠ []) as Hne.
  { intros E. rewrite E in Hx. by apply elem_of_nil in Hx. }
  unfold IsCross in Hc. unfold crosses.
  destruct (Order.IsBuy order); simpl in *.
  - destruct (rep_bestAsk _ _ Hr) as [[_ Hall]|(Hb & _ & Hbest)]; [by rewrite Hall in Hne|].
    destruct (Z.eqb_spec (bestAsk ob) 0); [lia|]. destruct (Hbest p Hne); lia.
  - destruct (rep_bestBid _ _ Hr) as [[_ Hall]|(Hb & _ & Hbest)]; [by rewrite Hall in Hne|].
    destruct (Z.eqb_spec (bestBid ob) 0); [lia|]. destruct (Hbest p Hne); lia.
Qed.

Lemma IsCross_true ob L order :
  book_rep ob L → IsCross ob order = true →
  ∃ x, x ∈ flat L (negb (Order.IsBuy order)) ∧
    crosses order (Order.Price (order_at (store ob) x)) = true.
Proof.
  intros Hr Hc.
  assert (∀ best, L (negb (Order.IsBuy order)) best ≠ [] → crosses order best = true →
    ∃ x, x ∈ flat L (negb (Order.IsBuy order)) ∧
      crosses order (Order.Price (order_at (store ob) x)) = true) as H.
  { intros best Hne Hcr. destruct (L (negb (Order.IsBuy order)) best) as [|x l] eqn:E; [done|].
    assert (x ∈ L (negb (Order.IsBuy order)) best) as Hx by (rewrite E; left).
    exists x. split; [apply (elem_of_flat ob); eauto|].
    by rewrite (proj2 (rep_order_fields _ _ _ _ _ Hr Hx)). }
  unfold IsCross in Hc. unfold crosses in *. destruct (Order.IsBuy order); simpl in *.
  - destruct (Z.eqb_spec (bestAsk ob) 0); [done|].
    destruct (rep_bestAsk _ _ Hr) as [[? _]|(_ & Hne & _)]; [done|]. by apply (H (bestAsk ob)).
  - destruct (Z.eqb_spec (bestBid ob) 0); [done|].
    destruct (rep_bestBid _ _ Hr) as [[? _]|(_ & Hne & _)]; [done|]. by apply (H (bestBid ob)).
Qed.
