(* ===== verification/EngineSpec.v ===== *)
(** * Matching: specification

    Price-time priority matching on a plain list: an incoming order against the
    opposite side's resting orders, best price first and oldest first within a
    price.  [EngineRefine] shows that the engine computes exactly this. *)

From S2P Require Import Prelude MatchModel Bitmap BookHeap OrderBookDirect.
From S2P Require Import Engine BookSide.

Local Open Scope Z_scope.

Record sstate := mkSState {
  s_order : Order.t;
  s_sequence : Z;
  s_localSeq : Z;
  s_trades : list Trade.t;
  s_affected : list Order.t;
  s_takerDone : bool;
}.

Section spec.
Context (clock : Z → Z) (bookKey : string).

(** One resting order: what it does to the taker, and what is left of it
    ([None] when it leaves the book). *)
Definition spec_maker (st : sstate) (m : Order.t) : sstate * option Order.t :=
  let o := s_order st in
  if Order.UserID o =? Order.UserID m then
    match Order.STP o with
    | STPCancelTaker =>
        (mkSState (Order.Cancel o CancelReasonSTPTaker) (s_sequence st) (s_localSeq st)
           (s_trades st) (s_affected st) true, Some m)
    | STPCancelMaker =>
        (mkSState o (s_sequence st) (s_localSeq st) (s_trades st)
           (s_affected st ++ [Order.Cancel m CancelReasonSTPMaker]) (s_takerDone st), None)
    | STPCancelBoth =>
        (mkSState (Order.Cancel o CancelReasonSTPBoth) (s_sequence st) (s_localSeq st)
           (s_trades st) (s_affected st ++ [Order.Cancel m CancelReasonSTPBoth]) true, None)
    | _ => (st, Some m)
    end
  else
    let q := Z.min (Order.RemainingQuantity o) (Order.RemainingQuantity m) in
    if q <=? 0 then (st, Some m)
    else
      let o' := Order.ApplyFill o q in
      let m' := Order.ApplyFill m q in
      let lseq := wrapu64 (s_localSeq st + 1) in
      let seq := wrapu64 (s_sequence st + 1) in
      (mkSState o' seq lseq
         (s_trades st ++ [mk_trade bookKey seq lseq o' m' q (clock lseq)])
         (s_affected st ++ [m']) (s_takerDone st),
       if Order.RemainingQuantity m' =? 0 then None else Some m').

Definition spec_wants (st : sstate) : bool :=
  (0 <? Order.RemainingQuantity (s_order st)) && negb (s_takerDone st).

Fixpoint spec_match (ms : list Order.t) (st : sstate) : sstate * list Order.t :=
  match ms with
  | [] => (st, [])
  | m :: ms' =>
      if spec_wants st && crosses (s_order st) (Order.Price m) then
        let '(st, k) := spec_maker st m in
        let '(st, ks) := spec_match ms' st in
        (st, option_list k ++ ks)
      else (st, ms)
  end.

(** The taker's limit does not move while it is being filled. *)
Lemma spec_maker_crosses st m p :
  crosses (s_order (spec_maker st m).1) p = crosses (s_order st) p.
Proof.
  unfold spec_maker, crosses, Order.IsBuy.
  destruct (_ =? _); [by destruct (Order.STP (s_order st))|].
  destruct (_ <=? 0); [done|]. simpl.
  destruct (Order.ApplyFill_fields (s_order st)
    (Z.min (Order.RemainingQuantity (s_order st)) (Order.RemainingQuantity m)))
    as (_ & -> & _ & _ & -> & _). done.
Qed.

Lemma spec_match_crosses ms st p :
  crosses (s_order (spec_match ms st).1) p = crosses (s_order st) p.
Proof.
  revert st. induction ms as [|m ms IH]; intros st; simpl; [done|].
  destruct (spec_wants st && _); [|done].
  pose proof (spec_maker_crosses st m p) as H. destruct (spec_maker st m) as [st1 k].
  specialize (IH st1). destruct (spec_match ms st1) as [st2 ks]. simpl in *. congruence.
Qed.

(** Neither does its identity. *)
Definition taker_id (o : Order.t) : string * Z * bool * STPStrategy * Z * TimeInForce * Z * string :=
  (Order.OrderID o, Order.UserID o, Order.IsBuy o, Order.STP o, Order.Price o, Order.TIF o,
   Order.Quantity o, Order.BookKey o).

Lemma taker_id_ApplyFill o q : taker_id (Order.ApplyFill o q) = taker_id o.
Proof.
  unfold taker_id, Order.IsBuy, Order.BookKey.
  by destruct (Order.ApplyFill_fields o q) as (-> & -> & -> & -> & -> & -> & -> & -> & -> & _).
Qed.

Lemma spec_maker_id st m : taker_id (s_order (spec_maker st m).1) = taker_id (s_order st).
Proof.
  unfold spec_maker. destruct (_ =? _); [by destruct (Order.STP (s_order st))|].
  destruct (_ <=? 0); [done|]. apply taker_id_ApplyFill.
Qed.

Lemma spec_match_id ms st : taker_id (s_order (spec_match ms st).1) = taker_id (s_order st).
Proof.
  revert st. induction ms as [|m ms IH]; intros st; simpl; [done|].
  destruct (spec_wants st && _); [|done].
  pose proof (spec_maker_id st m) as H. destruct (spec_maker st m) as [st1 k].
  specialize (IH st1). destruct (spec_match ms st1) as [st2 ks]. simpl in *. congruence.
Qed.

Lemma spec_match_IsBuy ms st :
  Order.IsBuy (s_order (spec_match ms st).1) = Order.IsBuy (s_order st).
Proof. pose proof (spec_match_id ms st) as H. unfold taker_id in H. congruence. Qed.

Lemma spec_match_stop ms st : spec_wants st = false → spec_match ms st = (st, ms).
Proof. intros H. destruct ms; simpl; [done|]. by rewrite H. Qed.

Lemma spec_match_no_cross ms st :
  Forall (λ m, crosses (s_order st) (Order.Price m) = false) ms → spec_match ms st = (st, ms).
Proof. intros H. destruct H as [|m ms H _]; simpl; [done|]. by rewrite H, andb_false_r. Qed.

(** A level that crosses is processed before the levels behind it. *)
Lemma spec_match_app ms1 ms2 st :
  Forall (λ m, crosses (s_order st) (Order.Price m) = true) ms1 →
  spec_match (ms1 ++ ms2) st =
    let '(st1, k1) := spec_match ms1 st in
    let '(st2, k2) := spec_match ms2 st1 in (st2, k1 ++ k2).
Proof.
  revert st. induction ms1 as [|m ms1 IH]; intros st Hc; simpl.
  { by destruct (spec_match ms2 st). }
  inversion_clear Hc as [|? ? Hm Hms]. rewrite Hm, andb_true_r.
  destruct (spec_wants st) eqn:Hw; cycle 1.
  { by rewrite spec_match_stop. }
  pose proof (λ p, spec_maker_crosses st m p) as Hcr. destruct (spec_maker st m) as [st1 k].
  simpl in Hcr. rewrite IH.
  - destruct (spec_match ms1 st1) as [st2 k2], (spec_match ms2 st2) as [st3 k3].
    by rewrite app_assoc.
  - eapply Forall_impl; [done|]. simpl. intros m'. by rewrite Hcr.
Qed.
End spec.
