(* ===== verification/EngineRefine.v ===== *)
(** * Matching: the engine implements the specification

    The nested bucket loop of [match] over linked nodes computes [spec_match]
    over the opposite side in priority order, never panics, and keeps the
    representation invariant of the book. *)

From stdpp Require Import sorting.
From S2P Require Import Prelude MatchModel Bitmap BookHeap OrderBookDirect.
From S2P Require Import Engine BookSide EngineSpec.

Local Open Scope Z_scope.

(** What matching leaves alone in a node. *)
Definition skel (d : DirectOrder.t) : option ptr * option ptr * nat * string * Z * bool :=
  (links d, DirectOrder.poolID d, Order.OrderID (DirectOrder.data d),
   Order.Price (DirectOrder.data d), DirectOrder.IsBuy d).

Lemma skel_ApplyFill d q : skel (DirectOrder.ApplyFill d q) = skel d.
Proof.
  unfold skel, DirectOrder.ApplyFill, DirectOrder.IsBuy, Order.IsBuy, links. simpl.
  destruct (Order.ApplyFill_fields (DirectOrder.data d) q)
    as (_ & -> & -> & _ & -> & _). done.
Qed.

Lemma skel_Cancel d r : skel (DirectOrder.Cancel d r) = skel d.
Proof. done. Qed.

Lemma skel_insert (h : heap) x d d' y :
  h !! x = Some d → skel d' = skel d → skel <$> <[x := d']> h !! y = skel <$> h !! y.
Proof.
  intros Hd Hs. destruct (decide (x = y)) as [<-|]; [|by rewrite lookup_insert_ne].
  by rewrite lookup_insert_eq, Hd; simpl; rewrite Hs.
Qed.

Lemma skel_links (h h' : heap) y :
  skel <$> h' !! y = skel <$> h !! y → links <$> h' !! y = links <$> h !! y.
Proof. destruct (h' !! y), (h !! y); simpl; unfold skel; congruence. Qed.

(** Matching changes orders, not the structure of the book. *)
Lemma book_rep_set_store ob L h' :
  book_rep ob L → (∀ y, skel <$> h' !! y = skel <$> store ob !! y) →
  book_rep (set_store ob h') L.
Proof.
  intros [Ha Hb HA HB Hn Hi Hp] Hs.
  assert (∀ y d, store ob !! y = Some d → ∃ d', h' !! y = Some d' ∧
    DirectOrder.IsBuy d' = DirectOrder.IsBuy d ∧
    Order.Price (DirectOrder.data d') = Order.Price (DirectOrder.data d) ∧
    Order.OrderID (DirectOrder.data d') = Order.OrderID (DirectOrder.data d)) as Hd.
  { intros y d Hd. specialize (Hs y). rewrite Hd in Hs. destruct (h' !! y) as [d'|]; [|done].
    exists d'. unfold skel in Hs. simpl in Hs. split_and!; congruence. }
  split; simpl; try done.
  - eapply side_rep_frame; [|done]. intros p x _. by apply skel_links.
  - eapply side_rep_frame; [|done]. intros p x _. by apply skel_links.
  - intros s p x Hx. destruct (Hn s p x Hx) as (d & Hd1 & HB1 & HP & HI).
    destruct (Hd x d Hd1) as (d' & Hd' & E1 & E2 & E3). exists d'.
    rewrite E1, E2, E3. done.
  - intros id x Hx. destruct (Hi id x Hx) as (d & Hd1 & HI & HL).
    destruct (Hd x d Hd1) as (d' & Hd' & E1 & E2 & E3). exists d'.
    rewrite E1, E2, E3. done.
  - eapply pool_ok_ext; [| |exact Hp]; [|done]. intros x. specialize (Hs x).
    destruct (h' !! x), (store ob !! x); simpl in *; unfold skel in *; congruence.
Qed.

(** ** Removing the filled and cancelled makers *)

Lemma remove_all_spec ob L rs :
  book_rep ob L → NoDup rs → (∀ x, x ∈ rs → ∃ s p, x ∈ L s p) →
  ∃ ob', remove_all ob rs = Some ob' ∧ book_rep ob' (drop L rs) ∧
    (∀ y, y ∉ rs → order_at (store ob') y = order_at (store ob) y) ∧ Key ob' = Key ob ∧
    (∀ id, orderIndex ob' !! id = None ↔
       orderIndex ob !! id = None ∨ ∃ x, orderIndex ob !! id = Some x ∧ x ∈ rs).
Proof.
  revert ob L. induction rs as [|x rs IH]; intros ob L Hr Hnd Hin; cbn [remove_all].
  { exists ob. split_and!; try done.
    - eapply book_rep_ext; [|done]. intros s p. symmetry. apply filter_not_elem.
      intros ? _. apply not_elem_of_nil.
    - intros id. split; [by left|]. intros [|(y & _ & Hy)]; [done|]. by apply elem_of_nil in Hy. }
  apply NoDup_cons in Hnd as [Hx Hnd].
  destruct (Hin x) as (s & p & HL); [left|].
  destruct (RemoveDirectOrder_spec ob L s p x Hr HL) as (ob1 & -> & Hr1 & Hsame1 & HK1 & HI1).
  rewrite Some_bind. destruct (IH ob1 (drop L [x])) as (ob' & Hrm & Hr' & Hsame & HK & HI); try done.
  { intros y Hy. destruct (Hin y) as (s' & p' & HL'); [by right|]. exists s', p'.
    apply elem_of_drop. split; [|done]. by intros ->%list_elem_of_singleton. }
  exists ob'. rewrite Hrm. split_and!; [done| | | |].
  - eapply book_rep_ext; [|done]. intros s' p'. unfold drop. rewrite list_filter_filter.
    apply list_filter_iff. intros y. set_solver.
  - intros y [Hyx Hy]%not_elem_of_cons. by rewrite Hsame, Hsame1.
  - by rewrite HK.
  - intros id. rewrite HI, HI1, !lookup_delete_None.
    pose proof (rep_order_id ob L s p x Hr HL) as Hox. split.
    + intros [[<-|?]|(y & [_ Hy]%lookup_delete_Some & Hyr)]; [|by left|].
      * right. exists x. split; [done|left].
      * right. exists y. split; [done|by right].
    + intros [?|(y & Hy & [->|Hyr]%elem_of_cons)]; [by left; right| |].
      * left. left. destruct (rep_index _ _ Hr _ _ Hy) as (d & Hd & HId & _).
        unfold order_at. by rewrite Hd.
      * destruct (decide (Order.OrderID (order_at (store ob) x) = id)) as [E|E]; [by left; left|].
        right. exists y. split; [|done]. by rewrite lookup_delete_ne.
Qed.

(** ** The loops over nodes and prices *)

Section loops.
Context (clock : Z → Z) (bookKey : string).

Definition abs (st : mstate) : sstate :=
  mkSState (m_order st) (m_sequence st) (m_localSeq st) (m_trades st) (m_affected st)
    (m_takerDone st).

Fixpoint run_nodes (xs : list ptr) (st : mstate) : mstate :=
  match xs with
  | [] => st
  | x :: xs =>
      if wants_more st then
        match m_store st !! x with
        | Some d => run_nodes xs (match_maker clock bookKey x d st)
        | None => st
        end
      else st
  end.

Fixpoint run_prices (cross : Z → bool) (Ls : Z → list ptr) (ps : list Z) (st : mstate) : mstate :=
  match ps with
  | [] => st
  | p :: ps =>
      if wants_more st && cross p then run_prices cross Ls ps (run_nodes (Ls p) st) else st
  end.

Lemma match_maker_skel x d st y :
  m_store st !! x = Some d →
  skel <$> m_store (match_maker clock bookKey x d st) !! y = skel <$> m_store st !! y.
Proof.
  intros Hd. unfold match_maker. repeat case_match; simpl; try done;
    by apply (skel_insert _ _ d); [|by rewrite ?skel_Cancel, ?skel_ApplyFill].
Qed.

Lemma run_nodes_skel xs st y :
  skel <$> m_store (run_nodes xs st) !! y = skel <$> m_store st !! y.
Proof.
  revert st. induction xs as [|x xs IH]; intros st; simpl; [done|].
  destruct (wants_more st); [|done]. destruct (m_store st !! x) as [d|] eqn:Hd; [|done].
  rewrite IH. by apply match_maker_skel.
Qed.

Lemma match_bucket_run fuel pp l st :
  dseg (m_store st) pp l None → (length l < fuel)%nat →
  match_bucket fuel clock bookKey (hd_or l None) st = Some (run_nodes l st).
Proof.
  revert fuel pp st. induction l as [|x l IH]; intros fuel pp st Hs Hl.
  { destruct fuel; [simpl in Hl; lia|done]. }
  destruct fuel as [|fuel]; [simpl in Hl; lia|]. simpl.
  destruct (wants_more st); [|done]. destruct Hs as [(d & Hd & _ & Hn) Hs].
  rewrite Hd, Some_bind, Hn. apply (IH _ (Some x)); [|simpl in Hl; lia].
  eapply dseg_frame; [|done]. intros y _. apply skel_links. by apply match_maker_skel.
Qed.

Lemma match_buckets_run fuel nodes h it Ls ps l1 l2 st :
  iter_ok h it Ls ps → ps = l1 ++ l2 → (length l2 < fuel)%nat →
  (∀ p, p ∈ ps → (length (Ls p) < nodes)%nat) →
  (∀ y, skel <$> m_store st !! y = skel <$> h !! y) →
  match_buckets fuel nodes clock bookKey it (head l2) st =
    Some (run_prices (it_cross it) Ls l2 st).
Proof.
  intros Hit. revert l1 l2 st. induction fuel as [|fuel IH]; intros l1 l2 st Hps Hl Hn Hsk; [lia|].
  destruct l2 as [|p l2]; [done|]. simpl. destruct (wants_more st); [|done]. simpl.
  assert (p ∈ ps) as Hp by (rewrite Hps; apply elem_of_app; right; left).
  destruct (iter_bucket _ _ _ _ Hit p Hp) as (b & -> & HP & Hrep & _).
  rewrite Some_bind, HP. destruct (it_cross it p); [|done]. simpl.
  rewrite (rep_head _ _ _ Hrep), (match_bucket_run _ None (Ls p)), Some_bind.
  - rewrite (iter_next _ _ _ _ Hit l1 p l2), Some_bind by done.
    apply (IH (l1 ++ [p])); [by rewrite <-app_assoc|simpl in Hl; lia|done|].
    intros y. by rewrite run_nodes_skel.
  - eapply dseg_frame; [|apply (rep_links _ _ _ Hrep)]. intros y _. by apply skel_links.
  - by apply Hn.
Qed.

(** ** Simulation of the specification *)

Record sim (xs : list ptr) (st st' : mstate) (ks : list Order.t) : Prop := {
  sim_kept : order_at (m_store st') <$> filter (λ y, y ∉ m_remove st') xs = ks;
  sim_removed : ∃ rs, m_remove st' = m_remove st ++ rs ∧ NoDup rs ∧ ∀ x, x ∈ rs → x ∈ xs;
  sim_frame : ∀ y, y ∉ xs → m_store st' !! y = m_store st !! y;
  sim_skel : ∀ y, skel <$> m_store st' !! y = skel <$> m_store st !! y;
}.

Lemma sim_refl xs st :
  (∀ x, x ∈ xs → x ∉ m_remove st) → sim xs st st (order_at (m_store st) <$> xs).
Proof.
  intros Hd. split; [|exists []|done|done].
  - by rewrite filter_not_elem.
  - split_and!; [by rewrite app_nil_r|constructor|]. intros x Hx. by apply elem_of_nil in Hx.
Qed.

Lemma sim_app xs1 xs2 st st1 st2 k1 k2 :
  NoDup (xs1 ++ xs2) → (∀ x, x ∈ xs1 ++ xs2 → x ∉ m_remove st) →
  sim xs1 st st1 k1 → sim xs2 st1 st2 k2 → sim (xs1 ++ xs2) st st2 (k1 ++ k2).
Proof.
  intros (Hnd1 & Hdis & Hnd2)%NoDup_app Hrm [Hk1 (r1 & E1 & Hn1 & Hr1) Hf1 Hs1]
    [Hk2 (r2 & E2 & Hn2 & Hr2) Hf2 Hs2].
  split.
  - rewrite filter_app, fmap_app. f_equal; [|done]. rewrite <-Hk1.
    assert (filter (λ y, y ∉ m_remove st2) xs1 = filter (λ y, y ∉ m_remove st1) xs1) as ->.
    { apply list_filter_ext_in. intros y Hy. rewrite E2, not_elem_of_app.
      split; [tauto|]. intros Hy'. split; [done|]. intros ?%Hr2. by apply (Hdis y). }
    apply list_fmap_ext. intros i y Hy. unfold order_at. rewrite Hf2; [done|].
    intros ?. apply (Hdis y); [|done]. apply list_elem_of_lookup_2 in Hy.
    by apply list_elem_of_filter in Hy as [_ ?].
  - exists (r1 ++ r2). split_and!.
    + by rewrite E2, E1, app_assoc.
    + apply NoDup_app. split_and!; try done. intros x Hx1%Hr1 Hx2%Hr2. by apply (Hdis x).
    + intros x [?%Hr1|?%Hr2]%elem_of_app; apply elem_of_app; auto.
  - intros y Hy. rewrite not_elem_of_app in Hy. destruct Hy. by rewrite Hf2, Hf1.
  - intros y. by rewrite Hs2, Hs1.
Qed.

Lemma match_maker_sim x d st :
  m_store st !! x = Some d → x ∉ m_remove st →
  let st' := match_maker clock bookKey x d st in
  let '(sp, k) := spec_maker clock bookKey (abs st) (order_at (m_store st) x) in
  abs st' = sp ∧ sim [x] st st' (option_list k).
Proof.
  intros Hd Hx. unfold match_maker, spec_maker. simpl.
  assert (order_at (m_store st) x = DirectOrder.data d) as Ho by (unfold order_at; by rewrite Hd).
  rewrite Ho.
  assert (∀ st', m_remove st' = m_remove st → m_store st' = m_store st →
    sim [x] st st' [DirectOrder.data d]) as Hstay.
  { intros st' Hr' Hs'. split.
    - rewrite Hr', Hs', filter_not_elem; [by rewrite <-Ho|]. by intros y ->%list_elem_of_singleton.
    - exists []. split_and!; [by rewrite app_nil_r|constructor|].
      intros y Hy. by apply elem_of_nil in Hy.
    - by rewrite Hs'.
    - by rewrite Hs'. }
  assert (∀ st' d', skel d' = skel d → m_store st' = <[x := d']> (m_store st) →
    m_remove st' = m_remove st ++ [x] → sim [x] st st' []) as Hgone.
  { intros st' d' Hsk Hs' Hr'. split.
    - rewrite filter_cons_False; [done|]. rewrite Hr'. set_solver.
    - exists [x]. split_and!; [done|apply NoDup_singleton|done].
    - intros y Hy. rewrite Hs', lookup_insert_ne; [done|]. set_solver.
    - intros y. rewrite Hs'. by eapply skel_insert. }
  assert (∀ st' d', skel d' = skel d → m_store st' = <[x := d']> (m_store st) →
    m_remove st' = m_remove st → sim [x] st st' [DirectOrder.data d']) as Hchange.
  { intros st' d' Hsk Hs' Hr'. split.
    - rewrite Hr', Hs', filter_not_elem; [|by intros y ->%list_elem_of_singleton].
      simpl. unfold order_at. by rewrite lookup_insert_eq.
    - exists []. split_and!; [by rewrite app_nil_r|constructor|].
      intros y Hy. by apply elem_of_nil in Hy.
    - intros y Hy. rewrite Hs', lookup_insert_ne; [done|]. set_solver.
    - intros y. rewrite Hs'. by eapply skel_insert. }
  destruct (Order.UserID (m_order st) =? Order.UserID (DirectOrder.data d)); simpl.
  - destruct (Order.STP (m_order st)) eqn:HSTP; simpl; (split; [done|]).
    + by apply Hstay.
    + by apply Hstay.
    + by eapply (Hgone _ (DirectOrder.Cancel d CancelReasonSTPMaker)).
    + by eapply (Hgone _ (DirectOrder.Cancel d CancelReasonSTPBoth)).
    + by apply Hstay.
  - unfold DirectOrder.RemainingQuantity. destruct (_ <=? 0); [by split; [|apply Hstay]|].
    set (q := Z.min _ _). simpl. split; [done|]. pose proof (skel_ApplyFill d q) as Hsk.
    destruct (_ =? 0); [by eapply Hgone|by apply (Hchange _ (DirectOrder.ApplyFill d q))].
Qed.

Lemma run_nodes_sim xs st :
  NoDup xs → (∀ x, x ∈ xs → is_Some (m_store st !! x)) → (∀ x, x ∈ xs → x ∉ m_remove st) →
  (∀ x, x ∈ xs → crosses (m_order st) (Order.Price (order_at (m_store st) x)) = true) →
  let st' := run_nodes xs st in
  let '(sp, ks) := spec_match clock bookKey (order_at (m_store st) <$> xs) (abs st) in
  abs st' = sp ∧ sim xs st st' ks.
Proof.
  revert st. induction xs as [|x xs IH]; intros st Hnd Hsome Hrm Hc.
  { split; [done|]. by apply sim_refl. }
  rewrite fmap_cons. cbn [run_nodes spec_match].
  change (spec_wants (abs st)) with (wants_more st). change (s_order (abs st)) with (m_order st). rewrite (Hc x) by left. rewrite andb_true_r.
  destruct (wants_more st) eqn:Hw; cycle 1.
  { split; [done|]. by apply (sim_refl (x :: xs)). }
  destruct (Hsome x) as [d Hd]; [left|]. rewrite Hd.
  pose proof (match_maker_sim x d st Hd ltac:(apply Hrm; left)) as Hm.
  pose proof (λ p, spec_maker_crosses clock bookKey (abs st) (order_at (m_store st) x) p) as Hcr.
  destruct (spec_maker clock bookKey (abs st) (order_at (m_store st) x)) as [sp1 k].
  destruct Hm as [<- Hsim]. set (st1 := match_maker clock bookKey x d st) in *.
  assert (Hnd' := Hnd). apply NoDup_cons in Hnd' as [Hx Hnd'].
  assert (∀ y, y ∈ xs → m_store st1 !! y = m_store st !! y) as Hsame.
  { intros y Hy. apply (sim_frame _ _ _ _ Hsim). by intros ->%list_elem_of_singleton. }
  assert (order_at (m_store st) <$> xs = order_at (m_store st1) <$> xs) as ->.
  { apply list_fmap_ext. intros i y Hy%list_elem_of_lookup_2. unfold order_at. by rewrite Hsame. }
  specialize (IH st1 Hnd').
  destruct (spec_match clock bookKey (order_at (m_store st1) <$> xs) (abs st1)) as [sp2 ks].
  destruct IH as [-> Hsim2].
  - intros y Hy. rewrite Hsame by done. apply Hsome. by right.
  - intros y Hy. destruct (sim_removed _ _ _ _ Hsim) as (rs & -> & _ & Hrs).
    rewrite not_elem_of_app. split; [apply Hrm; by right|].
    intros ->%Hrs%list_elem_of_singleton. done.
  - intros y Hy. simpl in Hcr. change (m_order st1) with (s_order (abs st1)). rewrite Hcr.
    unfold order_at. rewrite Hsame by done. apply Hc. by right.
  - split; [done|]. by apply (sim_app [x] xs st st1).
Qed.

Lemma run_prices_sim cross s (Ls : Z → list ptr) ps st :
  s = negb (Order.IsBuy (m_order st)) →
  (∀ p, cross p = crosses (m_order st) p) →
  StronglySorted (better s) ps → NoDup (ps ≫= Ls) →
  (∀ x, x ∈ ps ≫= Ls → is_Some (m_store st !! x)) →
  (∀ x, x ∈ ps ≫= Ls → x ∉ m_remove st) →
  (∀ p x, p ∈ ps → x ∈ Ls p → Order.Price (order_at (m_store st) x) = p) →
  let st' := run_prices cross Ls ps st in
  let '(sp, ks) := spec_match clock bookKey (order_at (m_store st) <$> (ps ≫= Ls)) (abs st) in
  abs st' = sp ∧ sim (ps ≫= Ls) st st' ks.
Proof.
  revert st. induction ps as [|p ps IH]; intros st Hside Hcr Hsort Hnd Hsome Hrm Hpr.
  { split; [done|]. by apply sim_refl. }
  cbn [run_prices]. destruct (wants_more st) eqn:Hw; cycle 1.
  { rewrite spec_match_stop by done. split; [done|]. by apply sim_refl. }
  apply StronglySorted_cons in Hsort as [Hbet Hsort]. rewrite Forall_forall in Hbet.
  rewrite bind_cons in *. cbn [andb]. rewrite Hcr.
  destruct (crosses (m_order st) p) eqn:Hcp; cycle 1.
  { rewrite spec_match_no_cross; [split; [done|]; by apply (sim_refl (Ls p ++ (ps ≫= Ls)))|].
    apply Forall_forall. intros m (x & -> & Hx)%list_elem_of_fmap. simpl.
    assert (∃ q, q ∈ p :: ps ∧ x ∈ Ls q) as (q & Hq & Hxq).
    { apply elem_of_app in Hx as [Hx|(q & Hxq & Hq)%list_elem_of_bind];
        [exists p; split; [left|done]|exists q; split; [by right|done]]. }
    rewrite (Hpr q x Hq Hxq). apply elem_of_cons in Hq as [->|Hq]; [done|].
    eapply crosses_mono; [|exact Hcp]. rewrite <-Hside. by apply Hbet. }
  assert (Hnd' := Hnd). apply NoDup_app in Hnd' as (Hnd1 & Hdis & Hnd2).
  rewrite fmap_app, spec_match_app; cycle 1.
  { apply Forall_forall. intros m (x & -> & Hx)%list_elem_of_fmap. simpl.
    by rewrite (Hpr p x ltac:(left) Hx). }
  pose proof (run_nodes_sim (Ls p) st Hnd1) as Hrun. cbv zeta in Hrun.
  pose proof (λ q, spec_match_crosses clock bookKey (order_at (m_store st) <$> Ls p) (abs st) q) as Hc1.
  assert (Order.IsBuy (s_order (spec_match clock bookKey (order_at (m_store st) <$> Ls p) (abs st)).1)
          = Order.IsBuy (m_order st)) as HB1 by apply spec_match_IsBuy.
  destruct (spec_match clock bookKey (order_at (m_store st) <$> Ls p) (abs st)) as [sp1 k1].
  destruct Hrun as [<- Hsim1].
  { intros x Hx. apply Hsome, elem_of_app. by left. }
  { intros x Hx. apply Hrm, elem_of_app. by left. }
  { intros x Hx. by rewrite (Hpr p x ltac:(left) Hx). }
  set (st1 := run_nodes (Ls p) st) in *. simpl in Hc1, HB1.
  assert (∀ y, y ∈ ps ≫= Ls → m_store st1 !! y = m_store st !! y) as Hsame.
  { intros y Hy. apply (sim_frame _ _ _ _ Hsim1). intros Hy'. by apply (Hdis y). }
  assert (order_at (m_store st) <$> (ps ≫= Ls) = order_at (m_store st1) <$> (ps ≫= Ls)) as ->.
  { apply list_fmap_ext. intros i y Hy%list_elem_of_lookup_2. unfold order_at. by rewrite Hsame. }
  specialize (IH st1). cbv zeta in IH.
  destruct (spec_match clock bookKey (order_at (m_store st1) <$> (ps ≫= Ls)) (abs st1)) as [sp2 k2].
  destruct IH as [-> Hsim2]; try done.
  - by rewrite HB1.
  - intros q. by rewrite Hc1, Hcr.
  - intros x Hx. rewrite Hsame by done. apply Hsome, elem_of_app. by right.
  - intros x Hx. destruct (sim_removed _ _ _ _ Hsim1) as (rs & -> & _ & Hrs).
    rewrite not_elem_of_app. split; [apply Hrm, elem_of_app; by right|].
    intros Hx'%Hrs. by apply (Hdis x).
  - intros q x Hq Hx. unfold order_at. rewrite Hsame; [apply (Hpr q x); [by right|done]|].
    apply list_elem_of_bind. eauto.
  - split; [done|]. by apply (sim_app (Ls p) (ps ≫= Ls) st st1).
Qed.
End loops.

(** ** The whole of [match] *)

Definition opposite (o : Order.t) : bool := negb (Order.IsBuy o).

(** What [match] is allowed to do to a book: replace the opposite side by the
    kept orders, leave the own side, and drop identifiers without adding any. *)
Record match_post (ob ob' : OrderBookDirect) (s : bool) (kept : list Order.t) : Prop := {
  post_rep : ∃ L', book_rep ob' L';
  post_opposite : side_orders ob' s = kept;
  post_own : side_orders ob' (negb s) = side_orders ob (negb s);
  post_key : Key ob' = Key ob;
  post_index : ∀ id, orderIndex ob !! id = None → orderIndex ob' !! id = None;
}.

Lemma flat_live ob L s x : book_rep ob L → x ∈ flat L s → is_Some (store ob !! x).
Proof.
  intros Hr [p Hx]%(elem_of_flat ob); [|done].
  destruct (rep_nodes _ _ Hr _ _ _ Hx) as (d & -> & _). by eexists.
Qed.

Lemma flat_sides ob L s x : book_rep ob L → x ∈ flat L s → x ∉ flat L (negb s).
Proof.
  intros Hr [p Hx]%(elem_of_flat ob) [p' Hx']%(elem_of_flat ob); [|done..].
  destruct (rep_unique _ _ _ _ _ _ _ Hr Hx Hx') as [E _]. by destruct s.
Qed.

Lemma remove_nodes_post ob L s st st' ks :
  book_rep ob L → m_store st = store ob → m_remove st = [] →
  sim (flat L s) st st' ks →
  ∃ ob', remove_all (set_store ob (m_store st')) (m_remove st') = Some ob' ∧
    match_post ob ob' s ks.
Proof.
  intros Hr Hst Hrm [Hk (rs & Er & Hnd & Hin) Hf Hsk]. rewrite Hrm in Er. simpl in Er. subst rs.
  rewrite Hst in *.
  assert (book_rep (set_store ob (m_store st')) L) as Hr1 by by apply book_rep_set_store.
  destruct (remove_all_spec _ L (m_remove st') Hr1 Hnd) as (ob' & E & Hr' & Hsame & HK & HI).
  { intros x Hx%Hin. apply (elem_of_flat ob) in Hx as [p Hx]; [|done]. eauto. }
  exists ob'. split; [done|]. split; [by eexists|..].
  - rewrite (side_orders_flat _ _ _ Hr'), flat_drop, <-Hk.
    apply list_fmap_ext. intros i y Hy%list_elem_of_lookup_2.
    apply list_elem_of_filter in Hy as [Hy _]. by apply Hsame.
  - rewrite (side_orders_flat _ _ _ Hr'), (side_orders_flat _ _ _ Hr), flat_drop.
    rewrite filter_not_elem.
    + apply list_fmap_ext. intros i y Hy%list_elem_of_lookup_2.
      assert (y ∉ flat L s) as Hn.
      { intros Hy'. by apply (flat_sides _ _ _ _ Hr Hy'). }
      rewrite Hsame; [|by intros ?%Hin]. unfold order_at. simpl. by rewrite Hf.
    + intros y Hy Hy'%Hin. by apply (flat_sides _ _ _ _ Hr Hy').
  - by rewrite HK.
  - intros id Hid. apply HI. by left.
Qed.

Definition match_init (e : Engine) (order : Order.t) : sstate :=
  mkSState order (sequence e) (localSeq e) [] [] false.

Lemma match_refines clock e order ob L :
  book_rep ob L →
  let '(sp, ks) := spec_match clock (Order.BookKey order) (side_orders ob (opposite order))
                     (match_init e order) in
  ∃ ob', match_ clock e order ob =
      Some (mkMatchOut (s_order sp) ob' (s_sequence sp) (s_localSeq sp) (s_trades sp)
              (s_affected sp)) ∧
    match_post ob ob' (opposite order) ks.
Proof.
  intros Hr. unfold match_. destruct (IsCross ob order) eqn:Hc; cbn [negb]; cycle 1.
  { rewrite spec_match_no_cross.
    - exists ob. split; [done|]. split; eauto.
    - rewrite (side_orders_flat _ _ _ Hr). apply Forall_fmap, Forall_forall. intros x Hx. simpl.
      by eapply IsCross_false. }
  rewrite bucket_iter_side. set (s := negb (Order.IsBuy order)).
  pose proof (side_iter_ok ob L s (crosses order) Hr) as Hit.
  rewrite (iter_first _ _ _ _ Hit), Some_bind.
  set (st := mkMState order (store ob) (sequence e) (localSeq e) [] [] [] false).
  erewrite (match_buckets_run _ _ _ _ _ _ _ (occupied L s) [] (occupied L s) st Hit);
    [|done|apply length_occupied| |done]; cycle 1.
  { intros p _. unfold bucket_fuel. apply Nat.lt_succ_r.
    eapply nodes_bound; [done|by eapply rep_nodup_queue|eauto]. }
  rewrite Some_bind.
  assert (it_cross (side_iter ob s (crosses order)) = crosses order) as -> by by destruct s.
  pose proof (run_prices_sim clock (Order.BookKey order) (crosses order) s (L s) (occupied L s) st)
    as Hsim. cbv zeta in Hsim.
  rewrite (side_orders_flat _ _ _ Hr). unfold flat at 1. unfold opposite. fold s.
  change (match_init e order) with (abs st).
  change (store ob) with (m_store st) at 1.
  destruct (spec_match clock _ _ _) as [sp ks].
  destruct Hsim as [<- Hsim]; try done.
  - apply occupied_sorted.
  - by apply (flat_nodup ob).
  - intros x Hx. by eapply flat_live.
  - intros x _. apply not_elem_of_nil.
  - intros p x _ Hx. by eapply rep_order_fields.
  - destruct (remove_nodes_post ob L s st _ ks Hr eq_refl eq_refl Hsim)
      as (ob' & -> & Hpost). exists ob'. by rewrite Some_bind.
Qed.
