(* ===== verification/EngineView.v ===== *)
(** * Matching: a book as two priority lists

    The operations of the engine seen on [side_orders]: adding an order is an
    insertion behind its price, cancelling removes it, the fill-or-kill
    simulation walks the same list as matching.  [spec_process] is the
    specification of a limit order; [processLimitOrder_refines] shows that the
    code implements it. *)

From stdpp Require Import sorting.
From S2P Require Import Prelude MatchModel Bitmap BookHeap OrderBookDirect.
From S2P Require Import Engine BookSide EngineSpec EngineRefine.

Local Open Scope Z_scope.

(** ** Adding *)

(** An order queues behind every resting order at least as good. *)
Fixpoint enqueue (s : bool) (o : Order.t) (ms : list Order.t) : list Order.t :=
  match ms with
  | [] => [o]
  | m :: ms =>
      if (if s then Order.Price m <? Order.Price o else Order.Price o <? Order.Price m)
      then o :: m :: ms else m :: enqueue s o ms
  end.

Lemma enqueue_app s o l1 l2 :
  Forall (λ m, ¬ better s (Order.Price o) (Order.Price m)) l1 →
  Forall (λ m, better s (Order.Price o) (Order.Price m)) l2 →
  enqueue s o (l1 ++ l2) = l1 ++ o :: l2.
Proof.
  unfold better. induction 1 as [|m l1 Hm _ IH]; intros H2; simpl.
  - destruct H2 as [|m l2 Hm _]; [done|]. simpl.
    by destruct s; rewrite (proj2 (Z.ltb_lt _ _)) by lia.
  - rewrite IH by done. by destruct s; rewrite (proj2 (Z.ltb_ge _ _)) by lia.
Qed.

Lemma elem_of_enqueue s o ms m : m ∈ enqueue s o ms ↔ m = o ∨ m ∈ ms.
Proof.
  induction ms as [|m' ms IH]; simpl; [set_solver|].
  destruct (if s then _ else _); set_solver.
Qed.

Lemma bind_ext_in {A B} (f g : A → list B) l :
  (∀ x, x ∈ l → f x = g x) → l ≫= f = l ≫= g.
Proof.
  induction l as [|x l IH]; intros H; [done|].
  rewrite !bind_cons, (H x), IH; [done| |left]. intros y Hy. apply H. by right.
Qed.

Lemma price_order_split s p :
  1 ≤ p < maxPrice → ∃ l1 l2, price_order s = l1 ++ p :: l2 ∧
    (∀ q, q ∈ l1 → better s q p) ∧ (∀ q, q ∈ l2 → better s p q).
Proof.
  intros Hp. destruct (list_elem_of_split (price_order s) p) as (l1 & l2 & E);
    [by apply elem_of_price_order|]. exists l1, l2. split; [done|].
  pose proof (price_order_sorted s) as Hs. rewrite E in Hs.
  apply StronglySorted_app in Hs as (H12 & _ & Hs). apply StronglySorted_cons in Hs as [Hp2 _].
  rewrite Forall_forall in Hp2. split; [|done]. intros q Hq. apply H12; [done|left].
Qed.

Lemma push_same L s p x : push L s p x s = upd (L s) p (L s p ++ [x]).
Proof. unfold push. by rewrite Bool.eqb_reflx. Qed.

Lemma push_other L s p x : push L s p x (negb s) = L (negb s).
Proof. unfold push. by destruct s. Qed.

Lemma flat_push L s p x l1 l2 :
  price_order s = l1 ++ p :: l2 → p ∉ l1 → p ∉ l2 →
  flat (push L s p x) s = (l1 ≫= L s) ++ (L s p ++ x :: (l2 ≫= L s)).
Proof.
  intros E H1 H2. rewrite flat_all, push_same, E, bind_app, bind_cons, upd_eq.
  rewrite !(bind_ext_in (upd _ _ _) (L s)).
  - by rewrite <-app_assoc.
  - intros q Hq. apply upd_ne. by intros ->.
  - intros q Hq. apply upd_ne. by intros ->.
Qed.

Lemma flat_split L s p l1 l2 :
  price_order s = l1 ++ p :: l2 → flat L s = (l1 ≫= L s) ++ L s p ++ (l2 ≫= L s).
Proof. intros E. by rewrite flat_all, E, bind_app, bind_cons. Qed.

Lemma better_irrefl s p : ¬ better s p p.
Proof. unfold better. destruct s; lia. Qed.

Lemma better_asym s p q : better s p q → ¬ better s q p.
Proof. unfold better. destruct s; lia. Qed.

(** The prices of a run of levels are the levels'. *)
Lemma level_prices ob L s l (P : Z → Prop) :
  book_rep ob L → (∀ p, p ∈ l → P p) →
  Forall (λ m, P (Order.Price m)) (order_at (store ob) <$> (l ≫= L s)).
Proof.
  intros Hr HP. apply Forall_fmap, Forall_forall. intros x (p & Hx & Hp)%list_elem_of_bind.
  simpl. rewrite (proj2 (rep_order_fields _ _ _ _ _ Hr Hx)). by apply HP.
Qed.

(** What adding an order does to a book. *)
Record added (ob ob' : OrderBookDirect) (o : Order.t) : Prop := {
  added_rep : ∃ L', book_rep ob' L';
  added_own : side_orders ob' (Order.IsBuy o) =
    enqueue (Order.IsBuy o) o (side_orders ob (Order.IsBuy o));
  added_opposite : side_orders ob' (opposite o) = side_orders ob (opposite o);
  added_key : Key ob' = Key ob;
}.

Lemma AddOrder_added ob L o :
  book_rep ob L → 1 ≤ Order.Price o < maxPrice → orderIndex ob !! Order.OrderID o = None →
  ∃ ob', AddOrder ob o = Some ob' ∧ added ob ob' o.
Proof.
  intros Hr Hp Hid.
  destruct (AddOrder_spec ob L o Hr Hp Hid) as (ob' & x & E & Hr' & Hx & Hnew & Hsame & HK & HI).
  exists ob'. split; [done|]. set (s := Order.IsBuy o) in *.
  assert (∀ s' l, order_at (store ob') <$> (l ≫= L s') = order_at (store ob) <$> (l ≫= L s')) as Hl.
  { intros s' l. apply list_fmap_ext.
    intros i y (q & Hy & _)%list_elem_of_lookup_2%list_elem_of_bind. by apply (Hsame s' q). }
  split; [by eexists| | |done]; cycle 1.
  - rewrite (side_orders_flat _ _ _ Hr), (side_orders_flat _ _ _ Hr'), !flat_all.
    unfold opposite. fold s. by rewrite push_other, Hl.
  - destruct (price_order_split s (Order.Price o)) as (l1 & l2 & Es & H1 & H2); [done|].
    fold s. rewrite (side_orders_flat _ _ _ Hr), (side_orders_flat _ _ _ Hr').
    rewrite (flat_push _ _ _ _ l1 l2 Es); cycle 1.
    { intros ?%H1. by eapply better_irrefl. } { intros ?%H2. by eapply better_irrefl. }
    rewrite (flat_split L s (Order.Price o) l1 l2 Es), !fmap_app, fmap_cons, !Hl, Hx.
    rewrite app_assoc. symmetry. rewrite app_assoc.
    assert (order_at (store ob') <$> L s (Order.Price o) =
            order_at (store ob) <$> L s (Order.Price o)) as ->.
    { apply list_fmap_ext. intros i y Hy%list_elem_of_lookup_2. by apply (Hsame s (Order.Price o)). }
    apply enqueue_app.
    + apply Forall_app. split.
      * eapply (level_prices ob L s l1 (λ q, ¬ better s (Order.Price o) q)); [done|].
        intros q Hq%H1. by apply better_asym.
      * apply Forall_fmap, Forall_forall. intros y Hy. simpl.
        rewrite (proj2 (rep_order_fields _ _ _ _ _ Hr Hy)). apply better_irrefl.
    + by apply (level_prices ob L s l2 (λ q, better s (Order.Price o) q)).
Qed.

(** ** The index is the set of resting identifiers *)

Lemma elem_of_side_orders ob L s o :
  book_rep ob L → o ∈ side_orders ob s ↔ ∃ p x, x ∈ L s p ∧ o = order_at (store ob) x.
Proof.
  intros Hr. rewrite (side_orders_flat _ _ _ Hr), list_elem_of_fmap.
  setoid_rewrite (elem_of_flat ob); [|done..]. naive_solver.
Qed.

Lemma index_None ob L id :
  book_rep ob L →
  orderIndex ob !! id = None ↔ ∀ s o, o ∈ side_orders ob s → Order.OrderID o ≠ id.
Proof.
  intros Hr. split.
  - intros Hid s o (p & x & Hx & ->)%(elem_of_side_orders _ _ _ _ Hr) <-.
    by rewrite (rep_order_id _ _ _ _ _ Hr Hx) in Hid.
  - intros Hall. destruct (orderIndex ob !! id) as [x|] eqn:Hid; [|done].
    destruct (rep_index _ _ Hr _ _ Hid) as (d & Hd & HId & HL).
    destruct (Hall (DirectOrder.IsBuy d) (order_at (store ob) x)).
    + apply (elem_of_side_orders _ _ _ _ Hr). eauto.
    + unfold order_at. by rewrite Hd.
Qed.

Lemma side_orders_side ob L s o :
  book_rep ob L → o ∈ side_orders ob s → Order.IsBuy o = s ∧ 1 ≤ Order.Price o < maxPrice.
Proof.
  intros Hr (p & x & Hx & ->)%(elem_of_side_orders _ _ _ _ Hr).
  destruct (rep_order_fields _ _ _ _ _ Hr Hx) as [-> ->]. split; [done|].
  assert (L s p ≠ []) as Hne by (intros E; rewrite E in Hx; by apply elem_of_nil in Hx).
  destruct s; (eapply side_rep_occupied; [|exact Hne]);
    [apply (rep_bids _ _ Hr)|apply (rep_asks _ _ Hr)].
Qed.

(** Identifiers are unique within a side. *)
Lemma side_orders_ids ob L s : book_rep ob L → NoDup (Order.OrderID <$> side_orders ob s).
Proof.
  intros Hr. rewrite (side_orders_flat _ _ _ Hr), <-list_fmap_compose.
  apply NoDup_fmap_2_strong; [|by eapply flat_nodup].
  intros x y [p Hx]%(elem_of_flat ob) [q Hy]%(elem_of_flat ob) E; [|done..].
  apply (rep_order_id _ _ _ _ _ Hr) in Hx, Hy. simpl in E. rewrite E in Hx. congruence.
Qed.

(** The crossing test looks at the best price only, which is enough. *)
Lemma IsCross_view ob L order :
  book_rep ob L →
  IsCross ob order =
    existsb (λ m, crosses order (Order.Price m)) (side_orders ob (opposite order)).
Proof.
  intros Hr. rewrite (side_orders_flat _ _ _ Hr). symmetry.
  destruct (IsCross ob order) eqn:Hc.
  - destruct (IsCross_true _ _ _ Hr Hc) as (x & Hx & Hcr). apply existsb_exists.
    exists (order_at (store ob) x). split; [|done].
    by apply list_elem_of_In, list_elem_of_fmap_2.
  - apply Bool.not_true_is_false. intros (m & Hm & Hcr)%existsb_exists.
    apply list_elem_of_In, list_elem_of_fmap in Hm as (x & -> & Hx).
    by rewrite (IsCross_false _ _ _ Hr Hc x Hx) in Hcr.
Qed.

(** ** Fill or kill *)

(** The quantity still missing after the makers; [None] when self-trade
    prevention would cancel the taker. *)
Fixpoint fok_walk (order : Order.t) (ms : list Order.t) (remaining : Z) : option Z :=
  match ms with
  | [] => Some remaining
  | m :: ms =>
      if (0 <? remaining) && crosses order (Order.Price m) then
        let own := Order.UserID order =? Order.UserID m in
        match own, Order.STP order with
        | true, (STPCancelTaker | STPCancelBoth) => None
        | true, STPCancelMaker => fok_walk order ms remaining
        | _, _ => fok_walk order ms (remaining - Z.min remaining (Order.RemainingQuantity m))
        end
      else Some remaining
  end.

Definition spec_fok (order : Order.t) (ms : list Order.t) : bool :=
  match fok_walk order ms (Order.RemainingQuantity order) with
  | Some remaining => remaining =? 0
  | None => false
  end.

Lemma fok_walk_stop order ms remaining :
  remaining ≤ 0 → fok_walk order ms remaining = Some remaining.
Proof. intros H. destruct ms; simpl; [done|]. by rewrite (proj2 (Z.ltb_ge _ _)). Qed.

Lemma fok_walk_no_cross order ms remaining :
  Forall (λ m, crosses order (Order.Price m) = false) ms →
  fok_walk order ms remaining = Some remaining.
Proof. intros H. destruct H as [|m ms H _]; simpl; [done|]. by rewrite H, andb_false_r. Qed.

Lemma fok_walk_app order ms1 ms2 remaining :
  Forall (λ m, crosses order (Order.Price m) = true) ms1 →
  fok_walk order (ms1 ++ ms2) remaining =
    r ← fok_walk order ms1 remaining; fok_walk order ms2 r.
Proof.
  intros Hc. revert remaining. induction Hc as [|m ms1 Hm _ IH]; intros remaining; simpl; [done|].
  rewrite Hm, andb_true_r. destruct (Z.ltb_spec 0 remaining).
  - repeat case_match; auto.
  - by rewrite Some_bind, fok_walk_stop.
Qed.

Lemma fok_bucket_run fuel h order pp l remaining :
  dseg h pp l None → (length l < fuel)%nat → 0 ≤ remaining →
  (∀ x, x ∈ l → crosses order (Order.Price (order_at h x)) = true) →
  fok_bucket fuel h order (hd_or l None) remaining =
    Some (fok_walk order (order_at h <$> l) remaining).
Proof.
  revert fuel pp remaining. induction l as [|x l IH]; intros fuel pp remaining Hs Hl Hrem Hc.
  { destruct fuel; [simpl in Hl; lia|done]. }
  destruct fuel as [|fuel]; [simpl in Hl; lia|]. destruct Hs as [(d & Hd & _ & Hn) Hs].
  rewrite fmap_cons. cbn [hd_or fok_bucket fok_walk]. rewrite (Hc x) by left.
  rewrite andb_true_r. destruct (Z.ltb_spec 0 remaining) as [H0|]; [|done].
  rewrite Hd, Some_bind, Hn.
  assert (order_at h x = DirectOrder.data d) as -> by (unfold order_at; by rewrite Hd).
  assert (∀ r, 0 ≤ r → fok_bucket fuel h order (hd_or l None) r =
    Some (fok_walk order (order_at h <$> l) r)) as IH'.
  { intros r Hr. apply (IH _ (Some x)); [done|simpl in Hl; lia|done|].
    intros y Hy. apply Hc. by right. }
  unfold stpWouldCancelTaker, stpWouldSkipMaker, DirectOrder.RemainingQuantity.
  pose proof (Order.RemainingQuantity_nonneg (DirectOrder.data d)) as Hq.
  set (q := Z.min remaining (Order.RemainingQuantity (DirectOrder.data d))).
  assert ((if 0 <? q then remaining - q else remaining) = remaining - q) as ->.
  { destruct (Z.ltb_spec 0 q); lia. }
  destruct (Order.UserID order =? Order.UserID (DirectOrder.data d)); cbn [negb orb];
    [|apply IH'; lia].
  destruct (Order.STP order); cbn; try (apply IH'; lia); done.
Qed.

Lemma fok_walk_nonneg order ms remaining r :
  0 ≤ remaining → fok_walk order ms remaining = Some r → 0 ≤ r.
Proof.
  revert remaining. induction ms as [|m ms IH]; intros remaining H; simpl; [naive_solver|].
  pose proof (Order.RemainingQuantity_nonneg m).
  repeat case_match; try naive_solver; intros; (eapply IH; [|done]); lia.
Qed.

Lemma fok_buckets_run fuel nodes h it order s Ls ps l1 l2 remaining :
  iter_ok h it Ls ps → ps = l1 ++ l2 → (length l2 < fuel)%nat → 0 ≤ remaining →
  (∀ p, it_cross it p = crosses order p) → s = opposite order →
  StronglySorted (better s) ps →
  (∀ p x, p ∈ ps → x ∈ Ls p → Order.Price (order_at h x) = p) →
  (∀ p, p ∈ ps → (length (Ls p) < nodes)%nat) →
  fok_buckets fuel nodes h it order (head l2) remaining =
    Some (match fok_walk order (order_at h <$> (l2 ≫= Ls)) remaining with
          | Some r => r =? 0 | None => false end).
Proof.
  intros Hit Hps Hl Hrem Hcr Hside Hsort Hpr Hn. revert l1 l2 remaining Hps Hl Hrem.
  induction fuel as [|fuel IH]; intros l1 l2 remaining Hps Hl Hrem; [lia|].
  destruct l2 as [|p l2]; [done|]. cbn [head fok_buckets].
  destruct (Z.ltb_spec 0 remaining) as [H0|]; [|by rewrite fok_walk_stop].
  assert (p ∈ ps) as Hp by (rewrite Hps; apply elem_of_app; right; left).
  destruct (iter_bucket _ _ _ _ Hit p Hp) as (b & -> & HP & Hrep & _).
  rewrite Some_bind, HP, Hcr.
  assert (∀ q x, q ∈ p :: l2 → x ∈ Ls q → Order.Price (order_at h x) = q) as Hpr2.
  { intros q x Hq. apply Hpr. rewrite Hps. apply elem_of_app. by right. }
  destruct (crosses order p) eqn:Hcp; cbn [negb]; cycle 1.
  { rewrite fok_walk_no_cross; [done|]. apply Forall_fmap, Forall_forall.
    intros x (q & Hx & Hq)%list_elem_of_bind. simpl. rewrite (Hpr2 q x Hq Hx).
    apply elem_of_cons in Hq as [->|Hq]; [done|]. eapply crosses_mono; [|exact Hcp].
    change (negb _) with (opposite order). rewrite <-Hside. rewrite Hps in Hsort.
    apply StronglySorted_app in Hsort as (_ & _ & Hsort).
    apply StronglySorted_cons in Hsort as [Hb _]. rewrite Forall_forall in Hb. by apply Hb. }
  assert (∀ x, x ∈ Ls p → crosses order (Order.Price (order_at h x)) = true) as Hc.
  { intros x Hx. by rewrite (Hpr2 p x ltac:(left) Hx). }
  rewrite (rep_head _ _ _ Hrep), (fok_bucket_run _ _ _ None);
    [|apply (rep_links _ _ _ Hrep)|by apply Hn|done|done].
  rewrite Some_bind, bind_cons, fmap_app, fok_walk_app by (by apply Forall_fmap, Forall_forall).
  destruct (fok_walk order (order_at h <$> Ls p) remaining) as [r|] eqn:Er; [|done].
  rewrite (iter_next _ _ _ _ Hit l1 p l2), !Some_bind by done.
  apply (IH (l1 ++ [p])); [by rewrite <-app_assoc|simpl in Hl; lia|].
  by eapply fok_walk_nonneg.
Qed.

Lemma fokCanFill_view ob L order :
  book_rep ob L → fokCanFill order ob = Some (spec_fok order (side_orders ob (opposite order))).
Proof.
  intros Hr. unfold fokCanFill, spec_fok. rewrite bucket_iter_side.
  set (s := negb (Order.IsBuy order)).
  pose proof (side_iter_ok ob L s (crosses order) Hr) as Hit.
  rewrite (iter_first _ _ _ _ Hit), Some_bind, (side_orders_flat _ _ _ Hr).
  apply (fok_buckets_run _ _ _ _ _ s (L s) (occupied L s) []); try done.
  - apply length_occupied.
  - apply Order.RemainingQuantity_nonneg.
  - by destruct s.
  - apply occupied_sorted.
  - intros p x _ Hx. by eapply rep_order_fields.
  - intros p _. unfold bucket_fuel. apply Nat.lt_succ_r.
    eapply nodes_bound; [done|by eapply rep_nodup_queue|eauto].
Qed.

(** ** A limit order on the two lists *)

Definition view := bool → list Order.t.

Definition set_side (V : view) (s : bool) (l : list Order.t) : view :=
  λ s', if Bool.eqb s' s then l else V s'.

Record outcome := mkOutcome {
  oc_order : Order.t;
  oc_view : view;
  oc_sequence : Z;
  oc_localSeq : Z;
  oc_trades : list Trade.t;
  oc_affected : list Order.t;
}.

(** Resting: the stored copy is made before the status of the result is set. *)
Definition spec_rest (o : Order.t) (V : view) : view :=
  set_side V (Order.IsBuy o) (enqueue (Order.IsBuy o) o (V (Order.IsBuy o))).

Section process_spec.
Context (clock : Z → Z) (order : Order.t) (V : view) (seq lseq : Z).

Definition spec_cross : bool :=
  existsb (λ m, crosses order (Order.Price m)) (V (opposite order)).

Definition spec_matched : sstate * list Order.t :=
  spec_match clock (Order.BookKey order) (V (opposite order))
    (mkSState order seq lseq [] [] false).

(** The order taken as [o] and the view [W], with or without the trades. *)
Definition with_trades (o : Order.t) (W : view) : outcome :=
  let sp := fst spec_matched in
  mkOutcome o W (s_sequence sp) (s_localSeq sp) (s_trades sp) (s_affected sp).
Definition without_trades (o : Order.t) (W : view) : outcome := mkOutcome o W seq lseq [] [].

Definition matched_order : Order.t := s_order (fst spec_matched).
Definition matched_view : view := set_side V (opposite order) (snd spec_matched).

Definition spec_PostOnly : outcome :=
  if spec_cross then without_trades (Order.Cancel order CancelReasonPostOnlyCross) V
  else without_trades (Order.set_Status order OrderStatusNew) (spec_rest order V).

Definition spec_FOK : outcome :=
  if spec_cross && spec_fok order (V (opposite order))
  then with_trades matched_order matched_view
  else without_trades (Order.Cancel order CancelReasonFOKNotFilled) V.

Definition spec_GTCOrIOC : outcome :=
  let o := matched_order in
  if (Order.RemainingQuantity o =? 0) || bool_decide (Order.Status o = OrderStatusCancelled)
  then with_trades o matched_view
  else if bool_decide (Order.TIF o = TimeInForceIOC) then
    with_trades
      (Order.Cancel o (if bool_decide (s_trades (fst spec_matched) = [])
                       then CancelReasonIOCNoLiquidity else CancelReasonIOCPartialFill))
      matched_view
  else
    with_trades
      (Order.set_Status o (if 0 <? Order.FilledQuantity o
                           then OrderStatusPartiallyFilled else OrderStatusNew))
      (spec_rest o matched_view).

Definition spec_process : outcome :=
  match Order.TIF order with
  | TimeInForcePostOnly => spec_PostOnly
  | TimeInForceFOK => spec_FOK
  | _ => spec_GTCOrIOC
  end.
End process_spec.

Definition implements (ob : OrderBookDirect) (V : view) : Prop :=
  (∃ L, book_rep ob L) ∧ ∀ s, side_orders ob s = V s.

Lemma set_side_eq V s l : set_side V s l s = l.
Proof. unfold set_side. by rewrite Bool.eqb_reflx. Qed.

Lemma set_side_neg V s l : set_side V s l (negb s) = V (negb s).
Proof. unfold set_side. by destruct s. Qed.

Lemma both_sides (P : bool → Prop) s : P s → P (negb s) → ∀ s', P s'.
Proof. by destruct s; intros ?? []. Qed.

Lemma added_implements ob ob' V o :
  added ob ob' o → (∀ s, side_orders ob s = V s) → implements ob' (spec_rest o V).
Proof.
  intros [Hr Hown Hopp HK] HV. split; [done|]. unfold spec_rest.
  apply (both_sides _ (Order.IsBuy o)).
  - by rewrite set_side_eq, Hown, HV.
  - rewrite set_side_neg. change (negb _) with (opposite o). by rewrite Hopp.
Qed.

Lemma match_post_implements ob ob' s ks V :
  match_post ob ob' s ks → (∀ s, side_orders ob s = V s) → implements ob' (set_side V s ks).
Proof.
  intros [Hr Hk Ho HK Hi] HV. split; [done|]. apply (both_sides _ s).
  - by rewrite set_side_eq.
  - by rewrite set_side_neg, Ho.
Qed.

Section process_refines.
Context (clock : Z → Z) (e : Engine) (order : Order.t) (ob : OrderBookDirect) (L : bool → Z → list ptr).
Context (Hr : book_rep ob L) (Hp : 1 ≤ Order.Price order < maxPrice).
Context (Hid : orderIndex ob !! Order.OrderID order = None).

(** [out] is the specified outcome on some book. *)
Definition produces (out : option MatchOut) (oc : outcome) : Prop :=
  ∃ ob', out = Some (mkMatchOut (oc_order oc) ob' (oc_sequence oc) (oc_localSeq oc)
                       (oc_trades oc) (oc_affected oc)) ∧
    implements ob' (oc_view oc) ∧ Key ob' = Key ob.

Local Notation V := (side_orders ob).
Local Notation seq := (sequence e).
Local Notation lseq := (localSeq e).

Lemma unchanged_implements : implements ob V.
Proof. split; eauto. Qed.

Lemma match_produces :
  ∃ ob1, match_ clock e order ob = Some (mkMatchOut (matched_order clock order V seq lseq) ob1
      (s_sequence (spec_matched clock order V seq lseq).1)
      (s_localSeq (spec_matched clock order V seq lseq).1)
      (s_trades (spec_matched clock order V seq lseq).1)
      (s_affected (spec_matched clock order V seq lseq).1)) ∧
    implements ob1 (matched_view clock order V seq lseq) ∧ Key ob1 = Key ob ∧
    orderIndex ob1 !! Order.OrderID order = None.
Proof.
  pose proof (match_refines clock e order ob L Hr) as Hm. unfold matched_order, matched_view.
  change (spec_match _ _ _ _) with (spec_matched clock order V seq lseq) in Hm.
  destruct (spec_matched clock order V seq lseq) as [sp ks]. destruct Hm as (ob1 & -> & Hpost).
  exists ob1. split_and!; [done| |apply Hpost|by apply Hpost].
  by eapply match_post_implements.
Qed.

Lemma processPostOnly_refines :
  produces (processPostOnly e order ob) (spec_PostOnly order V seq lseq).
Proof.
  unfold processPostOnly, spec_PostOnly, spec_cross. rewrite <-(IsCross_view _ _ _ Hr).
  destruct (IsCross ob order).
  - exists ob. split_and!; [done|apply unchanged_implements|done].
  - destruct (AddOrder_added ob L order Hr Hp Hid) as (ob' & -> & Hadd). rewrite Some_bind.
    exists ob'. split_and!; [done| |apply Hadd]. by eapply added_implements.
Qed.

Lemma processFOK_refines :
  produces (processFOK clock e order ob) (spec_FOK clock order V seq lseq).
Proof.
  unfold processFOK, spec_FOK, spec_cross. rewrite <-(IsCross_view _ _ _ Hr).
  destruct (IsCross ob order); cbn [negb andb]; cycle 1.
  { exists ob. split_and!; [done|apply unchanged_implements|done]. }
  rewrite (fokCanFill_view _ _ _ Hr), Some_bind.
  destruct (spec_fok order (V (opposite order))); cbn [negb]; cycle 1.
  { exists ob. split_and!; [done|apply unchanged_implements|done]. }
  destruct match_produces as (ob1 & -> & Hi & HK & _). by exists ob1.
Qed.

Lemma processGTCOrIOC_refines :
  produces (processGTCOrIOC clock e order ob) (spec_GTCOrIOC clock order V seq lseq).
Proof.
  unfold processGTCOrIOC, spec_GTCOrIOC.
  destruct match_produces as (ob1 & -> & Hi & HK & Hid1). rewrite Some_bind.
  cbn [mo_order mo_trades mo_book].
  assert (taker_id (matched_order clock order V seq lseq) = taker_id order) as Hto
    by apply spec_match_id.
  set (o := matched_order clock order V seq lseq) in *. unfold taker_id in Hto.
  destruct (_ =? 0); cbn [orb]; [by exists ob1|]. case_bool_decide; [by exists ob1|].
  case_bool_decide; [by exists ob1|].
  destruct Hi as [[L1 Hr1] HV1].
  destruct (AddOrder_added ob1 L1 o Hr1) as (ob' & -> & Hadd).
  - assert (Order.Price o = Order.Price order) as -> by congruence. done.
  - assert (Order.OrderID o = Order.OrderID order) as -> by congruence. done.
  - rewrite Some_bind. exists ob'. split_and!; [done| |].
    + by eapply added_implements.
    + by rewrite (added_key _ _ _ Hadd).
Qed.

Lemma processLimitOrder_refines :
  produces (processLimitOrder clock e order ob) (spec_process clock order V seq lseq).
Proof.
  unfold processLimitOrder, spec_process.
  destruct (Order.TIF order); first [apply processPostOnly_refines|apply processFOK_refines
    |apply processGTCOrIOC_refines].
Qed.
End process_refines.
