(* ===== verification/MatchFacts.v ===== *)
(** * Matching: what a run of the matching specification does

    [spec_match] as a transition system: one step per resting order reached.
    Quantity conservation, price-time priority, self-trade prevention and the
    state of the book when matching stops, by rule induction. *)

From stdpp Require Import sorting.
From S2P Require Import Prelude MatchModel Bitmap BookHeap OrderBookDirect.
From S2P Require Import Engine BookSide EngineSpec EngineRefine EngineView.

Local Open Scope Z_scope.

(** A resting order: quantities in range, something left to fill. *)
Definition live (o : Order.t) : Prop := Order.quantities_ok o ∧ 0 < Order.RemainingQuantity o.

#[global] Instance live_dec o : Decision (live o).
Proof. unfold live. apply _. Defined.

Section facts.
Context (clock : Z → Z) (bookKey : string).

(** The state after a trade of [q] against [m]. *)
Definition traded (st : sstate) (m : Order.t) (q : Z) : sstate :=
  let lseq := wrapu64 (s_localSeq st + 1) in
  let seq := wrapu64 (s_sequence st + 1) in
  let o' := Order.ApplyFill (s_order st) q in
  let m' := Order.ApplyFill m q in
  mkSState o' seq lseq
    (s_trades st ++ [mk_trade bookKey seq lseq o' m' q (clock lseq)])
    (s_affected st ++ [m']) (s_takerDone st).

Inductive maker_step (st : sstate) (m : Order.t) : sstate → option Order.t → Prop :=
| step_skip :
    Order.UserID (s_order st) = Order.UserID m →
    Order.STP (s_order st) ∉ [STPCancelTaker; STPCancelMaker; STPCancelBoth] →
    maker_step st m st (Some m)
| step_stp_taker :
    Order.UserID (s_order st) = Order.UserID m → Order.STP (s_order st) = STPCancelTaker →
    maker_step st m
      (mkSState (Order.Cancel (s_order st) CancelReasonSTPTaker) (s_sequence st) (s_localSeq st)
         (s_trades st) (s_affected st) true) (Some m)
| step_stp_maker :
    Order.UserID (s_order st) = Order.UserID m → Order.STP (s_order st) = STPCancelMaker →
    maker_step st m
      (mkSState (s_order st) (s_sequence st) (s_localSeq st) (s_trades st)
         (s_affected st ++ [Order.Cancel m CancelReasonSTPMaker]) (s_takerDone st)) None
| step_stp_both :
    Order.UserID (s_order st) = Order.UserID m → Order.STP (s_order st) = STPCancelBoth →
    maker_step st m
      (mkSState (Order.Cancel (s_order st) CancelReasonSTPBoth) (s_sequence st) (s_localSeq st)
         (s_trades st) (s_affected st ++ [Order.Cancel m CancelReasonSTPBoth]) true) None
| step_partial q :
    Order.UserID (s_order st) ≠ Order.UserID m →
    q = Order.RemainingQuantity (s_order st) → 0 < q < Order.RemainingQuantity m →
    maker_step st m (traded st m q) (Some (Order.ApplyFill m q))
| step_filled q :
    Order.UserID (s_order st) ≠ Order.UserID m →
    q = Order.RemainingQuantity m → 0 < q ≤ Order.RemainingQuantity (s_order st) →
    maker_step st m (traded st m q) None.

Inductive run : sstate → list Order.t → sstate → list Order.t → Prop :=
| run_stop st ms :
    (spec_wants st = true → ∀ m, head ms = Some m → crosses (s_order st) (Order.Price m) = false) →
    run st ms st ms
| run_step st m ms st1 k st2 ks :
    spec_wants st = true → crosses (s_order st) (Order.Price m) = true →
    maker_step st m st1 k → run st1 ms st2 ks →
    run st (m :: ms) st2 (option_list k ++ ks).

Lemma spec_wants_remaining st :
  spec_wants st = true ↔ 0 < Order.RemainingQuantity (s_order st) ∧ s_takerDone st = false.
Proof. unfold spec_wants. rewrite andb_true_iff, negb_true_iff, Z.ltb_lt. done. Qed.

Lemma spec_maker_step st m :
  spec_wants st = true → live m →
  maker_step st m (spec_maker clock bookKey st m).1 (spec_maker clock bookKey st m).2.
Proof.
  intros [Hw _]%spec_wants_remaining [Hok Hm]. unfold spec_maker.
  destruct (Z.eqb_spec (Order.UserID (s_order st)) (Order.UserID m)) as [Hu|Hu].
  - destruct (Order.STP (s_order st)) eqn:HS; simpl.
    + apply step_skip; [done|]. rewrite HS. set_solver.
    + by apply step_stp_taker.
    + by apply step_stp_maker.
    + by apply step_stp_both.
    + apply step_skip; [done|]. rewrite HS. set_solver.
  - set (q := Z.min _ _). destruct (Z.leb_spec q 0); [lia|]. cbn [fst snd].
    rewrite Order.ApplyFill_Remaining by (done || lia).
    destruct (Z.eqb_spec (Order.RemainingQuantity m - q) 0).
    + apply step_filled; [done|lia|lia].
    + apply step_partial; [done|lia|lia].
Qed.

Lemma spec_match_run ms st :
  Forall live ms → run st ms (spec_match clock bookKey ms st).1 (spec_match clock bookKey ms st).2.
Proof.
  intros Hl. revert st. induction Hl as [|m ms Hm _ IH]; intros st; simpl.
  { by apply run_stop. }
  destruct (spec_wants st) eqn:Hw; simpl; [|by apply run_stop; rewrite Hw].
  destruct (crosses (s_order st) (Order.Price m)) eqn:Hc; cycle 1.
  { apply run_stop. intros _ m' [= <-]. done. }
  pose proof (spec_maker_step st m Hw Hm) as Hstep.
  destruct (spec_maker clock bookKey st m) as [st1 k]. specialize (IH st1).
  destruct (spec_match clock bookKey ms st1) as [st2 ks]. by eapply run_step.
Qed.

(** ** The taker *)

Lemma maker_step_taker st m st1 k :
  maker_step st m st1 k → taker_id (s_order st1) = taker_id (s_order st).
Proof. destruct 1; simpl; try done; apply taker_id_ApplyFill. Qed.

Lemma maker_step_ok st m st1 k :
  spec_wants st = true → maker_step st m st1 k → Order.quantities_ok (s_order st) →
  Order.quantities_ok (s_order st1).
Proof.
  intros [Hw _]%spec_wants_remaining. destruct 1; intros Hok; try done;
    apply Order.ApplyFill_quantities_ok; (done || lia).
Qed.

Lemma run_taker st ms st' ks :
  run st ms st' ks → taker_id (s_order st') = taker_id (s_order st).
Proof. induction 1 as [|st m ms st1 k st2 ks Hw Hc Hs Hrun IH]; [done|]. rewrite IH. by eapply maker_step_taker. Qed.

Lemma run_ok st ms st' ks :
  run st ms st' ks → Order.quantities_ok (s_order st) → Order.quantities_ok (s_order st').
Proof. induction 1; [done|]. intros. eauto using maker_step_ok. Qed.

(** Only self-trade prevention ends a taker early, and it cancels it. *)
Lemma run_done st ms st' ks :
  run st ms st' ks →
  (s_takerDone st = true → Order.Status (s_order st) = OrderStatusCancelled) →
  s_takerDone st' = true → Order.Status (s_order st') = OrderStatusCancelled.
Proof.
  intros Hrun. induction Hrun as [|st m ms st1 k st2 ks Hw Hc Hstep Hrun IH]; [done|].
  intros Hst. apply IH. apply spec_wants_remaining in Hw as [_ Hd].
  destruct Hstep; simpl; try done; rewrite Hd; done.
Qed.

(** ** Conservation *)

Definition volume (ts : list Trade.t) : Z := sumZ Trade.Quantity ts.
Definition volume_of (id : string) (ts : list Trade.t) : Z :=
  sumZ (λ t, if String.eqb (Trade.MakerOrderID t) id then Trade.Quantity t else 0) ts.

(** A trade of taker [o] against maker [m]. *)
Record trade_ok (o m : Order.t) (t : Trade.t) : Prop := {
  trade_maker : Trade.MakerOrderID t = Order.OrderID m;
  trade_taker : Trade.TakerOrderID t = Order.OrderID o;
  trade_users : Trade.TakerUserID t = Order.UserID o ∧ Trade.MakerUserID t = Order.UserID m;
  trade_not_self : Trade.TakerUserID t ≠ Trade.MakerUserID t;
  trade_price : Trade.Price t = Order.Price m ∧ crosses o (Trade.Price t) = true;
  trade_quantity : 0 < Trade.Quantity t ≤ Order.RemainingQuantity m;
}.

Lemma taker_id_trade_ok o o' m t : taker_id o' = taker_id o → trade_ok o' m t → trade_ok o m t.
Proof.
  intros E [H1 H2 [H3 H4] H5 [H6 H7] H8]. unfold taker_id in E. injection E as E1 E2 E3 E4 E5 E6 E7 E8.
  unfold crosses in *. split; try done; unfold crosses.
  - by rewrite H2.
  - by rewrite H3, H4.
  - by rewrite <-E3, <-E5.
Qed.

Lemma traded_trade st m q :
  Order.UserID (s_order st) ≠ Order.UserID m → 0 < q ≤ Order.RemainingQuantity m →
  crosses (s_order st) (Order.Price m) = true →
  ∃ t, s_trades (traded st m q) = s_trades st ++ [t] ∧ trade_ok (s_order st) m t ∧
    Trade.Quantity t = q.
Proof.
  intros Hu Hq Hc. eexists. split; [done|]. split; [|done].
  destruct (Order.ApplyFill_fields (s_order st) q) as (_ & _ & E1 & E2 & _).
  destruct (Order.ApplyFill_fields m q) as (_ & E3 & E4 & E5 & _).
  split; simpl; rewrite ?E1, ?E2, ?E3, ?E4, ?E5; done.
Qed.

(** What one step adds to the trades, and what it takes from the two orders. *)
Lemma maker_step_trades st m st1 k :
  spec_wants st = true → crosses (s_order st) (Order.Price m) = true → live m →
  Order.quantities_ok (s_order st) → maker_step st m st1 k →
  ∃ ts, s_trades st1 = s_trades st ++ ts ∧ Forall (trade_ok (s_order st) m) ts ∧
    Order.FilledQuantity (s_order st1) = Order.FilledQuantity (s_order st) + volume ts ∧
    (∀ m', k = Some m' → live m' ∧ Order.OrderID m' = Order.OrderID m ∧
       Order.UserID m' = Order.UserID m ∧ Order.BookKey m' = Order.BookKey m ∧
       Order.FilledQuantity m' = Order.FilledQuantity m + volume ts ∧
       Order.Quantity m' = Order.Quantity m ∧ Order.Price m' = Order.Price m) ∧
    (k = None → Order.UserID m ≠ Order.UserID (s_order st) →
       volume ts = Order.RemainingQuantity m).
Proof.
  intros [Hw _]%spec_wants_remaining Hc [Hmok Hm] Hok Hstep.
  assert (∀ q, 0 < q ≤ Order.RemainingQuantity m → q ≤ Order.RemainingQuantity (s_order st) →
    Order.UserID (s_order st) ≠ Order.UserID m →
    ∃ ts, s_trades (traded st m q) = s_trades st ++ ts ∧ Forall (trade_ok (s_order st) m) ts ∧
      volume ts = q ∧ Order.FilledQuantity (s_order (traded st m q)) =
        Order.FilledQuantity (s_order st) + volume ts) as Htr.
  { intros q Hq Hq2 Hu. destruct (traded_trade st m q Hu Hq Hc) as (t & E & Ht & Hqt).
    exists [t]. split_and!; [done|by constructor| |].
    - unfold volume; simpl; lia.
    - simpl. rewrite Order.ApplyFill_FilledQuantity by (done || lia). unfold volume; simpl; lia. }
  destruct Hstep as [Hu HS|Hu HS|Hu HS|Hu HS|q Hu Eq Hq|q Hu Eq Hq];
    try (exists []; rewrite app_nil_r; split_and!; [done|constructor|simpl; unfold volume; simpl; lia
      |intros m' [= <-]; unfold volume; simpl; split_and!; try done; lia|congruence]).
  - destruct (Htr q) as (ts & E & Ht & Ev & Ef); [lia|lia|done|].
    exists ts. split_and!; try done. intros m' [= <-].
    destruct (Order.ApplyFill_fields m q) as (E1 & E2 & E3 & E4 & _ & E5 & E6 & _).
    unfold live, Order.BookKey. rewrite E1, E2, E3, E4, E5, E6, Ev.
    rewrite Order.ApplyFill_Remaining, Order.ApplyFill_FilledQuantity by (done || lia).
    split_and!; try done; [apply Order.ApplyFill_quantities_ok; (done||lia)|lia].
  - destruct (Htr q) as (ts & E & Ht & Ev & Ef); [lia|lia|done|].
    exists ts. split_and!; try done. intros _ _. lia.
Qed.

Lemma volume_app ts1 ts2 : volume (ts1 ++ ts2) = volume ts1 + volume ts2.
Proof. apply sumZ_app. Qed.

Lemma volume_of_app id ts1 ts2 : volume_of id (ts1 ++ ts2) = volume_of id ts1 + volume_of id ts2.
Proof. apply sumZ_app. Qed.

Lemma volume_of_own id ts :
  Forall (λ t, Trade.MakerOrderID t = id) ts → volume_of id ts = volume ts.
Proof.
  unfold volume_of, volume. induction 1 as [|t ts Ht _ IH]; simpl; [done|].
  rewrite Ht, String.eqb_refl. lia.
Qed.

Lemma volume_of_absent id ts :
  Forall (λ t, Trade.MakerOrderID t ≠ id) ts → volume_of id ts = 0.
Proof.
  unfold volume_of. induction 1 as [|t ts Ht _ IH]; simpl; [done|].
  apply String.eqb_neq in Ht. rewrite Ht. lia.
Qed.

(** [m'] is [m] after fills of [q]. *)
Record filled_by (m m' : Order.t) (q : Z) : Prop := {
  fb_id : Order.OrderID m' = Order.OrderID m;
  fb_user : Order.UserID m' = Order.UserID m;
  fb_book : Order.BookKey m' = Order.BookKey m;
  fb_price : Order.Price m' = Order.Price m;
  fb_quantity : Order.Quantity m' = Order.Quantity m;
  fb_filled : Order.FilledQuantity m' = Order.FilledQuantity m + q;
}.

Record run_facts (st : sstate) (ms : list Order.t) (st' : sstate) (ks : list Order.t)
    (ts : list Trade.t) : Prop := {
  rf_trades : s_trades st' = s_trades st ++ ts;
  rf_each : Forall (λ t, ∃ m, m ∈ ms ∧ trade_ok (s_order st) m t) ts;
  rf_taker : Order.FilledQuantity (s_order st') = Order.FilledQuantity (s_order st) + volume ts;
  rf_live : Forall live ks;
  rf_kept : ∀ m', m' ∈ ks → ∃ m, m ∈ ms ∧ filled_by m m' (volume_of (Order.OrderID m) ts);
  rf_gone : ∀ m, m ∈ ms → Order.UserID m ≠ Order.UserID (s_order st) →
    Order.OrderID m ∉ Order.OrderID <$> ks →
    volume_of (Order.OrderID m) ts = Order.RemainingQuantity m;
}.

Lemma trade_ids_in o (ms : list Order.t) ts :
  Forall (λ t, ∃ m, m ∈ ms ∧ trade_ok o m t) ts →
  ∀ id, id ∉ Order.OrderID <$> ms → Forall (λ t, Trade.MakerOrderID t ≠ id) ts.
Proof.
  intros H id Hid. eapply Forall_impl; [exact H|]. intros t (m & Hm & Ht) <-.
  apply Hid. rewrite (trade_maker _ _ _ Ht). by apply list_elem_of_fmap_2.
Qed.

Lemma run_facts_hold st ms st' ks :
  run st ms st' ks → Forall live ms → NoDup (Order.OrderID <$> ms) →
  Order.quantities_ok (s_order st) → ∃ ts, run_facts st ms st' ks ts.
Proof.
  induction 1 as [st ms Hstop|st m ms st1 k st2 ks Hw Hc Hstep Hrun IH]; intros Hl Hnd Hok.
  { exists []. split; try done.
    - by rewrite app_nil_r.
    - unfold volume; simpl; lia.
    - intros m Hm. exists m. split; [done|]. split; try done. unfold volume_of; simpl; lia.
    - intros m Hm _ []. by apply list_elem_of_fmap_2. }
  inversion_clear Hl as [|? ? Hlm Hlms]. rewrite fmap_cons in Hnd.
  apply NoDup_cons in Hnd as [Hid Hnd].
  destruct (maker_step_trades st m st1 k Hw Hc Hlm Hok Hstep) as (ts1 & E1 & H1 & Hf1 & Hk1 & Hn1).
  pose proof (maker_step_taker _ _ _ _ Hstep) as Htk.
  destruct (IH Hlms Hnd) as [ts2 [E2 H2 Hf2 Hlk Hk2 Hg2]]; [by eapply maker_step_ok|].
  assert (Forall (λ t, Trade.MakerOrderID t = Order.OrderID m) ts1) as Hown.
  { eapply Forall_impl; [exact H1|]. intros t Ht. apply Ht. }
  pose proof (trade_ids_in _ _ _ H2 _ Hid) as Habs.
  assert (∀ m', m' ∈ ms → volume_of (Order.OrderID m') ts1 = 0) as Hothers.
  { intros m' Hm'. apply volume_of_absent. eapply Forall_impl; [exact Hown|].
    intros t -> E. apply Hid. rewrite E. by apply list_elem_of_fmap_2. }
  exists (ts1 ++ ts2). split.
  - by rewrite E2, E1, app_assoc.
  - apply Forall_app. split.
    + eapply Forall_impl; [exact H1|]. intros t Ht. exists m. split; [left|done].
    + eapply Forall_impl; [exact H2|]. intros t (m' & Hm' & Ht). exists m'.
      split; [by right|]. by eapply taker_id_trade_ok.
  - rewrite Hf2, Hf1, volume_app. lia.
  - apply Forall_app. split; [|done]. destruct k as [m'|]; constructor; [|constructor].
    by apply Hk1.
  - intros m' [Hm'|Hm']%elem_of_app.
    + destruct k as [k|]; [|by apply elem_of_nil in Hm'].
      apply list_elem_of_singleton in Hm' as ->. exists m. split; [left|].
      destruct (Hk1 k eq_refl) as (_ & ? & ? & ? & Hf & ? & ?).
      split; try done. by rewrite Hf, volume_of_app, volume_of_own, (volume_of_absent _ ts2), Z.add_0_r.
    + destruct (Hk2 m' Hm') as (m0 & Hm0 & [? ? ? ? ? Hf]). exists m0. split; [by right|].
      split; try done. by rewrite Hf, volume_of_app, Hothers.
  - intros m0 [->|Hm0]%elem_of_cons Hu Hnk; rewrite fmap_app, not_elem_of_app in Hnk;
      destruct Hnk as [Hnk1 Hnk2]; rewrite volume_of_app.
    + rewrite volume_of_own, (volume_of_absent _ ts2), Z.add_0_r by done.
      apply Hn1; [|done]. destruct k as [k|]; [|done]. exfalso. apply Hnk1.
      destruct (Hk1 k eq_refl) as (_ & <- & _). left.
    + rewrite Hothers by done. rewrite Hg2; [lia|done| |done].
      unfold taker_id in Htk. congruence.
Qed.

(** ** Price-time priority *)

(** Nothing behind a maker of another user that is still there traded. *)
Lemma run_priority st ms st' ks :
  run st ms st' ks → Forall live ms → NoDup (Order.OrderID <$> ms) →
  Order.quantities_ok (s_order st) →
  ∀ ts, s_trades st' = s_trades st ++ ts →
  ∀ l1 m l2 t, ms = l1 ++ m :: l2 → Order.UserID m ≠ Order.UserID (s_order st) →
    Order.OrderID m ∈ Order.OrderID <$> ks →
    t ∈ ts → Trade.MakerOrderID t ∉ Order.OrderID <$> l2.
Proof.
  induction 1 as [st ms Hstop|st m0 ms st1 k st2 ks Hw Hc Hstep Hrun IH];
    intros Hl Hnd Hok ts Ets l1 m l2 t Ems Hu Hm Ht Hin.
  { assert (ts = []) as -> by (apply (app_inv_head (s_trades st)); by rewrite app_nil_r).
    by apply elem_of_nil in Ht. }
  inversion_clear Hl as [|? ? Hlm Hlms]. assert (Hnd' := Hnd). rewrite fmap_cons in Hnd'.
  apply NoDup_cons in Hnd' as [Hid Hnd'].
  destruct (maker_step_trades st m0 st1 k Hw Hc Hlm Hok Hstep) as (ts1 & E1 & H1 & Hf1 & Hk1 & _).
  pose proof (maker_step_ok _ _ _ _ Hw Hstep Hok) as Hok1.
  pose proof (maker_step_taker _ _ _ _ Hstep) as Htk.
  destruct (run_facts_hold _ _ _ _ Hrun Hlms Hnd' Hok1) as [ts2 Hf].
  pose proof (rf_trades _ _ _ _ _ Hf) as E2.
  assert (ts = ts1 ++ ts2) as ->.
  { apply (app_inv_head (s_trades st)). by rewrite <-Ets, E2, E1, app_assoc. }
  apply elem_of_app in Ht as [Ht|Ht].
  { rewrite Forall_forall in H1. rewrite (trade_maker _ _ _ (H1 t Ht)) in Hin. apply Hid.
    destruct l1 as [|? l1]; simplify_list_eq; set_solver. }
  destruct l1 as [|? l1]; injection Ems as -> ->.
  - (* the head stayed: the taker is exhausted *)
    rewrite fmap_app in Hm. apply elem_of_app in Hm as [Hm|Hm]; cycle 1.
    { apply Hid. apply list_elem_of_fmap in Hm as (m' & E & Hm').
      destruct (rf_kept _ _ _ _ _ Hf m' Hm') as (m1 & Hm1 & [Ei _ _ _ _ _]).
      rewrite E, Ei. by apply list_elem_of_fmap_2. }
    destruct k as [k|]; [|by apply elem_of_nil in Hm].
    inversion Hstep as [| | | |q Hus Eq Hq|]; simplify_eq.
    assert (Order.RemainingQuantity (s_order (traded st m (Order.RemainingQuantity (s_order st)))) = 0) as Hz.
    { simpl. rewrite Order.ApplyFill_Remaining by (done || lia). lia. }
    assert (spec_wants (traded st m (Order.RemainingQuantity (s_order st))) = false) as Hw'.
    { unfold spec_wants. by rewrite Hz. }
    inversion Hrun; simplify_eq; [|congruence].
    assert (ts2 = []) as -> by (eapply app_inv_head; by rewrite app_nil_r).
    by apply elem_of_nil in Ht.
  - eapply (IH Hlms Hnd' Hok1 ts2 E2 l1 m l2); try done.
    + unfold taker_id in Htk. congruence.
    + rewrite fmap_app in Hm. apply elem_of_app in Hm as [Hm|Hm]; [|done]. exfalso. apply Hid.
      destruct k as [k|]; [|by apply elem_of_nil in Hm].
      apply list_elem_of_singleton in Hm. destruct (Hk1 k eq_refl) as (_ & Ek & _).
      rewrite <-Ek, <-Hm, fmap_app, fmap_cons. apply elem_of_app. right. left.
Qed.

(** ** Where matching stops *)

Definition stp_enabled (o : Order.t) : bool :=
  bool_decide (Order.STP o ∈ [STPCancelTaker; STPCancelMaker; STPCancelBoth]).

(** No resting order is strictly better than one before it. *)
Definition in_order (s : bool) (ms : list Order.t) : Prop :=
  StronglySorted (λ a b, ¬ better s (Order.Price b) (Order.Price a)) ms.

Lemma taker_id_crosses o o' p : taker_id o' = taker_id o → crosses o' p = crosses o p.
Proof. unfold taker_id, crosses. intros E. injection E as _ _ -> _ -> _ _ _. done. Qed.

Lemma run_exhausted st ms st' ks :
  run st ms st' ks → spec_wants st = false → st' = st.
Proof. destruct 1; congruence. Qed.

Lemma run_uncrossed st ms st' ks :
  run st ms st' ks → spec_wants st' = true → Order.quantities_ok (s_order st) →
  in_order (opposite (s_order st)) ms →
  ∀ m, m ∈ ks → crosses (s_order st) (Order.Price m) = true →
    Order.UserID m = Order.UserID (s_order st) ∧ stp_enabled (s_order st) = false.
Proof.
  induction 1 as [st ms Hstop|st m0 ms st1 k st2 ks Hw Hc Hstep Hrun IH]; intros Hw' Hok Hord m Hm Hcr.
  { exfalso. specialize (Hstop Hw'). destruct ms as [|m0 ms]; [by apply elem_of_nil in Hm|].
    specialize (Hstop m0 eq_refl). apply elem_of_cons in Hm as [->|Hm]; [congruence|].
    apply StronglySorted_cons in Hord as [Hord _]. rewrite Forall_forall in Hord.
    specialize (Hord m Hm). clear -Hstop Hcr Hord. unfold crosses, better, opposite in *.
    destruct (Order.IsBuy (s_order st)); simpl in *; lia. }
  pose proof (maker_step_taker _ _ _ _ Hstep) as Htk.
  apply StronglySorted_cons in Hord as [_ Hord].
  apply elem_of_app in Hm as [Hm|Hm].
  - destruct Hstep as [Hu HS|Hu HS|Hu HS|Hu HS|q Hu Eq Hq|q Hu Eq Hq];
      try by apply elem_of_nil in Hm.
    + apply list_elem_of_singleton in Hm as ->. split; [done|].
      unfold stp_enabled. by rewrite bool_decide_eq_false.
    + assert (∀ o a b c d, spec_wants (mkSState o a b c d true) = false) as Hz.
      { intros. unfold spec_wants. simpl. by rewrite andb_false_r. }
      by rewrite (run_exhausted _ _ _ _ Hrun (Hz _ _ _ _ _)), Hz in Hw'.
    + assert (spec_wants (traded st m0 q) = false) as Hz.
      { unfold spec_wants. simpl. rewrite Order.ApplyFill_Remaining by (done || lia).
        by rewrite Eq, Z.sub_diag. }
      by rewrite (run_exhausted _ _ _ _ Hrun Hz), Hz in Hw'.
  - assert (Order.UserID (s_order st1) = Order.UserID (s_order st) ∧
      stp_enabled (s_order st1) = stp_enabled (s_order st) ∧
      opposite (s_order st1) = opposite (s_order st)) as (E1 & E2 & E3).
    { unfold taker_id, stp_enabled, opposite in *. injection Htk as _ -> -> -> _ _ _ _. done. }
    rewrite <-E1, <-E2. apply IH; [done|exact (maker_step_ok _ _ _ _ Hw Hstep Hok)|by rewrite E3|done|].
    by rewrite (taker_id_crosses _ _ _ Htk).
Qed.

(** ** Fill or kill *)

(** When the simulation says yes, and counted no order of the taker's own that
    matching skips, matching fills the taker completely. *)
Lemma run_fok order st ms st' ks :
  run st ms st' ks → taker_id (s_order st) = taker_id order →
  Order.quantities_ok (s_order st) → s_takerDone st = false →
  (stp_enabled order = true ∨ Forall (λ m, Order.UserID m ≠ Order.UserID order) ms) →
  fok_walk order ms (Order.RemainingQuantity (s_order st)) = Some 0 →
  Order.RemainingQuantity (s_order st') = 0 ∧ s_takerDone st' = false.
Proof.
  induction 1 as [st ms Hstop|st m ms st1 k st2 ks Hw Hc Hstep Hrun IH];
    intros Htk Hok Hd Hown Hf.
  { split; [|done]. pose proof (Order.RemainingQuantity_nonneg (s_order st)).
    destruct (Z.eq_dec (Order.RemainingQuantity (s_order st)) 0); [done|].
    assert (spec_wants st = true) as Hw by (apply spec_wants_remaining; split; [lia|done]).
    specialize (Hstop Hw). destruct ms as [|m ms]; simpl in Hf; [congruence|].
    specialize (Hstop m eq_refl). rewrite (taker_id_crosses _ _ _ Htk) in Hstop.
    rewrite Hstop, andb_false_r in Hf. congruence. }
  apply spec_wants_remaining in Hw as Hrem. destruct Hrem as [Hrem _].
  rewrite (taker_id_crosses _ _ _ Htk) in Hc. simpl in Hf. rewrite Hc, andb_true_r in Hf.
  rewrite (proj2 (Z.ltb_lt _ _) Hrem) in Hf.
  assert (Order.UserID (s_order st) = Order.UserID order ∧
          Order.STP (s_order st) = Order.STP order) as [Eu Es]
    by (unfold taker_id in Htk; split; congruence).
  assert (stp_enabled order = true ∨ Forall (λ m, Order.UserID m ≠ Order.UserID order) ms) as Hown'.
  { destruct Hown as [?|Hown]; [by left|right]. by apply Forall_cons in Hown as [_ ?]. }
  pose proof (maker_step_taker _ _ _ _ Hstep) as Htk1. rewrite Htk in Htk1.
  pose proof (maker_step_ok _ _ _ _ Hw Hstep Hok) as Hok1.
  destruct Hstep as [Hu HS|Hu HS|Hu HS|Hu HS|q Hu Eq Hq|q Hu Eq Hq]; rewrite Eu in Hu;
    try rewrite Es in HS.
  - exfalso. destruct Hown as [Hstp|Hown].
    + unfold stp_enabled in Hstp. by apply bool_decide_eq_true in Hstp.
    + apply Forall_cons in Hown as [? _]. congruence.
  - by rewrite (proj2 (Z.eqb_eq _ _) Hu), HS in Hf.
  - rewrite (proj2 (Z.eqb_eq _ _) Hu), HS in Hf. by apply IH.
  - by rewrite (proj2 (Z.eqb_eq _ _) Hu), HS in Hf.
  - apply IH; try done. rewrite (proj2 (Z.eqb_neq _ _) Hu) in Hf. simpl in *.
    rewrite Order.ApplyFill_Remaining by (done || lia). by rewrite Z.min_l in Hf by lia; rewrite Eq.
  - apply IH; try done. rewrite (proj2 (Z.eqb_neq _ _) Hu) in Hf. simpl in *.
    rewrite Order.ApplyFill_Remaining by (done || lia). by rewrite Z.min_r in Hf by lia; rewrite Eq.
Qed.

(** ** Numbering *)

(** The counters go up by one per trade, and number the trades. *)
Record numbered (seq lseq : Z) (ts : list Trade.t) (seq' lseq' : Z) : Prop := {
  num_seq : seq' = wrapu64 (seq + Z.of_nat (length ts));
  num_lseq : lseq' = wrapu64 (lseq + Z.of_nat (length ts));
  num_trades : ∀ i t, ts !! i = Some t →
    Trade.Sequence t = wrapu64 (seq + 1 + Z.of_nat i) ∧
    Trade.TradeID t = DeterministicTradeID bookKey (wrapu64 (lseq + 1 + Z.of_nat i)) ∧
    Trade.BookKey t = bookKey;
}.

Lemma numbered_nil seq lseq : uint64 seq → uint64 lseq → numbered seq lseq [] seq lseq.
Proof.
  intros H1 H2. split; simpl; [by rewrite Z.add_0_r, wrapu64_id..|]. intros i t Ht.
  by rewrite lookup_nil in Ht.
Qed.

Lemma wrapu64_add_l a b : wrapu64 (wrapu64 a + b) = wrapu64 (a + b).
Proof. unfold wrapu64. by rewrite Zplus_mod_idemp_l. Qed.

Lemma maker_step_counters st m st1 k :
  maker_step st m st1 k →
  (s_trades st1 = s_trades st ∧ s_sequence st1 = s_sequence st ∧ s_localSeq st1 = s_localSeq st) ∨
  (∃ t, s_trades st1 = s_trades st ++ [t] ∧
     s_sequence st1 = wrapu64 (s_sequence st + 1) ∧ s_localSeq st1 = wrapu64 (s_localSeq st + 1) ∧
     Trade.Sequence t = s_sequence st1 ∧ Trade.BookKey t = bookKey ∧
     Trade.TradeID t = DeterministicTradeID bookKey (s_localSeq st1)).
Proof. destruct 1; [by left..|right|right]; eexists; split_and!; try done. Qed.

Lemma run_numbered st ms st' ks :
  run st ms st' ks → uint64 (s_sequence st) → uint64 (s_localSeq st) →
  ∀ ts, s_trades st' = s_trades st ++ ts →
  numbered (s_sequence st) (s_localSeq st) ts (s_sequence st') (s_localSeq st').
Proof.
  induction 1 as [st ms Hstop|st m ms st1 k st2 ks Hw Hc Hstep Hrun IH]; intros H1 H2 ts Ets.
  { assert (ts = []) as -> by (apply (app_inv_head (s_trades st)); by rewrite app_nil_r).
    by apply numbered_nil. }
  destruct (maker_step_counters _ _ _ _ Hstep)
    as [(E1 & E2 & E3)|(t & E1 & E2 & E3 & Et1 & Et2 & Et3)].
  { rewrite <-E2, <-E3. apply IH; rewrite ?E1, ?E2, ?E3; done. }
  assert (uint64 (s_sequence st1) ∧ uint64 (s_localSeq st1)) as [U1 U2]
    by (rewrite E2, E3; split; apply wrapu64_range).
  assert (∃ ts', s_trades st2 = s_trades st1 ++ ts') as [ts' E'].
  { clear -Hrun. induction Hrun as [|st m ms st1 k st2 ks Hw Hc Hstep Hrun [ts' IH]];
      [exists []; by rewrite app_nil_r|].
    destruct (maker_step_counters _ _ _ _ Hstep) as [(E & _)|(t & E & _)];
      rewrite IH, E; [by eexists|]. rewrite <-app_assoc. by eexists. }
  destruct (IH U1 U2 ts' E') as [N1 N2 N3].
  assert (ts = t :: ts') as ->.
  { apply (app_inv_head (s_trades st)). by rewrite <-Ets, E', E1, <-app_assoc. }
  split.
  - rewrite N1, E2, wrapu64_add_l. f_equal. simpl. lia.
  - rewrite N2, E3, wrapu64_add_l. f_equal. simpl. lia.
  - intros [|i] t' Ht; simpl in Ht.
    + injection Ht as <-. rewrite Et1, Et2, Et3, E2, E3. by rewrite !Z.add_0_r.
    + destruct (N3 i t' Ht) as (-> & -> & ->). rewrite E2, E3.
      assert (∀ a, wrapu64 (wrapu64 (a + 1) + 1 + Z.of_nat i) =
        wrapu64 (a + 1 + Z.of_nat (S i))) as Hs.
      { intros a. rewrite <-Z.add_assoc, wrapu64_add_l. f_equal. lia. }
      by rewrite !Hs.
Qed.
End facts.
