(* ===== verification/EngineInv.v ===== *)
(** * Matching: the engine invariant and the specification of its operations

    Every book of the engine implements two priority lists of live orders; each
    operation of [Engine] is specified on these lists and preserves the
    invariant.  Nothing here panics. *)

From stdpp Require Import sorting.
From S2P Require Import Prelude MatchModel Bitmap BookHeap OrderBookDirect.
From S2P Require Import Engine BookSide EngineSpec EngineRefine EngineView.
From S2P Require Import MatchFacts.

Local Open Scope Z_scope.

(** ** Depth snapshots *)

Lemma snapshot_levels_run n buckets h it Ls ps l1 l2 :
  iter_ok h it Ls ps → it_bucket it = arr_get buckets → ps = l1 ++ l2 →
  ∃ lv, snapshot_levels n buckets (it_next it) (head l2) = Some lv ∧
    level_Price <$> lv = take n l2.
Proof.
  intros Hit Hb. revert l1 l2. induction n as [|n IH]; intros l1 l2 Hps; [by eexists|].
  destruct l2 as [|p l2]; [by eexists|]. cbn [head snapshot_levels].
  destruct (iter_bucket _ _ _ _ Hit p) as (b & Eb & HP & _).
  { rewrite Hps. apply elem_of_app. right. left. }
  rewrite Hb in Eb. rewrite Eb, Some_bind, HP, (iter_next _ _ _ _ Hit l1 p l2), Some_bind by done.
  destruct (IH (l1 ++ [p]) l2) as (lv & -> & Elv); [by rewrite <-app_assoc|].
  rewrite Some_bind. eexists. split; [done|]. rewrite fmap_cons, Elv. done.
Qed.

(** The distinct prices of a side, best first. *)
Definition side_prices (ob : OrderBookDirect) (s : bool) : list Z :=
  remove_dups (Order.Price <$> side_orders ob s).

Lemma remove_dups_group (p : Z) l rest :
  Forall (.= p) l → l ≠ [] → p ∉ rest → remove_dups (l ++ rest) = p :: remove_dups rest.
Proof.
  induction 1 as [|q l -> Hl IH]; intros Hne Hp; [done|].
  cbn [app remove_dups]. destruct l as [|q' l].
  - by destruct (decide_rel _ p ([] ++ rest)).
  - apply Forall_cons in Hl as [-> _].
    destruct (decide_rel _ p ((p :: l) ++ rest)) as [|Hn]; [by apply IH|]. destruct Hn. left.
Qed.

Lemma side_prices_occupied ob L s : book_rep ob L → side_prices ob s = occupied L s.
Proof.
  intros Hr. unfold side_prices. rewrite (side_orders_flat _ _ _ Hr). unfold flat.
  assert (∀ p, p ∈ occupied L s → L s p ≠ []) as Hne
    by (intros p [? _]%list_elem_of_filter; done).
  assert (NoDup (occupied L s)) as Hnd.
  { pose proof (occupied_sorted L s) as Hs.
    induction Hs as [|p l Hs IH Hp]; constructor; [|apply IH; intros q Hq; apply Hne; by right].
    rewrite Forall_forall in Hp. intros ?%Hp. by eapply better_irrefl. }
  induction Hnd as [|p l Hp Hnd IH]; [done|]. rewrite bind_cons, !fmap_app.
  assert (∀ q x, x ∈ L s q → Order.Price (order_at (store ob) x) = q) as Hpr.
  { intros q x Hx. by eapply rep_order_fields. }
  rewrite (remove_dups_group p), IH; [done| | | |].
  - intros q Hq. apply Hne. by right.
  - apply Forall_fmap, Forall_fmap, Forall_forall. intros x Hx. by apply Hpr.
  - intros E. destruct (Hne p ltac:(left)). by destruct (L s p).
  - intros (o & Ep & (x & -> & (q & Hx & Hq)%list_elem_of_bind)%list_elem_of_fmap)%list_elem_of_fmap.
    rewrite (Hpr q x Hx) in Ep. by subst.
Qed.

Lemma elem_of_occupied_ne ob L s p : book_rep ob L → p ∈ occupied L s ↔ L s p ≠ [].
Proof.
  intros Hr. destruct s.
  - rewrite (elem_of_occupied _ _ _ L true _ (rep_bids _ _ Hr)).
    by rewrite (side_bits _ _ _ _ (rep_bids _ _ Hr)), bool_decide_eq_true.
  - rewrite (elem_of_occupied _ _ _ L false _ (rep_asks _ _ Hr)).
    by rewrite (side_bits _ _ _ _ (rep_asks _ _ Hr)), bool_decide_eq_true.
Qed.

(** A snapshot lists the best [limit] occupied prices of each side. *)
Lemma Snapshot_view ob limit :
  (∃ L, book_rep ob L) →
  ∃ snap, Snapshot ob limit = Some snap ∧
    let n := Z.to_nat (if limit <=? 0 then 5 else limit) in
    level_Price <$> snap_Bids snap = take n (side_prices ob true) ∧
    level_Price <$> snap_Asks snap = take n (side_prices ob false) ∧
    snap_BestBid snap = default 0 (head (side_prices ob true)) ∧
    snap_BestAsk snap = default 0 (head (side_prices ob false)) ∧
    snap_Key snap = Key ob.
Proof.
  intros [L Hr]. unfold Snapshot.
  set (n := Z.to_nat (if limit <=? 0 then 5 else limit)).
  pose proof (side_iter_ok ob L true (λ _, true) Hr) as Hb.
  pose proof (side_iter_ok ob L false (λ _, true) Hr) as Ha.
  rewrite !(side_prices_occupied _ _ _ Hr).
  pose proof (iter_first _ _ _ _ Hb) as Fb. pose proof (iter_first _ _ _ _ Ha) as Fa.
  simpl in Fb, Fa. rewrite Fb, Some_bind.
  destruct (snapshot_levels_run n (bidBuckets ob) _ _ _ _ [] (occupied L true) Hb)
    as (lb & Eb & Pb); [done|done|]. simpl in Eb. rewrite Eb, Some_bind, Fa, Some_bind.
  destruct (snapshot_levels_run n (askBuckets ob) _ _ _ _ [] (occupied L false) Ha)
    as (la & Ea & Pa); [done|done|]. simpl in Ea. rewrite Ea, Some_bind.
  assert (∀ s best, best_ok (better s) best (L s) →
    (if 0 <? best then best else 0) = default 0 (head (occupied L s))) as Hbest.
  { intros s best Hbst. rewrite (sorted_first (better s) _ best (L s)).
    - destruct Hbst as [[-> _]|(? & _)]; [done|].
      rewrite (proj2 (Z.ltb_lt _ _)), (proj2 (Z.eqb_neq _ _)) by lia. done.
    - apply better_asym.
    - apply occupied_sorted.
    - intros p. by apply (elem_of_occupied_ne ob).
    - done. }
  destruct (default (0, "") (parseBookKey (Key ob))) as [marketID outcome].
  eexists. split; [done|]. simpl.
  rewrite (Hbest true) by apply Hr. by rewrite (Hbest false) by apply Hr.
Qed.

(** ** The invariant *)

Definition view_of (e : Engine) (key : string) : view :=
  match books e !! key with Some ob => side_orders ob | None => λ _, [] end.

Record book_inv (key : string) (ob : OrderBookDirect) : Prop := {
  bi_rep : ∃ L, book_rep ob L;
  bi_key : Key ob = key;
  bi_live : ∀ s, Forall (λ o, live o ∧ Order.BookKey o = key) (side_orders ob s);
}.

Record engine_inv (e : Engine) : Prop := {
  ei_books : map_Forall book_inv (books e);
  ei_sequence : uint64 (sequence e);
  ei_localSeq : uint64 (localSeq e);
}.

Lemma New_inv : engine_inv New.
Proof. split; [apply map_Forall_empty|by vm_compute..]. Qed.

Lemma empty_side_orders key s : side_orders (NewOrderBookDirect key) s = [].
Proof.
  rewrite (side_orders_flat _ _ _ (NewOrderBookDirect_rep key)). unfold flat.
  induction (occupied _ s) as [|p l IH]; [done|]. by rewrite bind_cons.
Qed.

Lemma NewOrderBookDirect_Key key : Key (NewOrderBookDirect key) = key.
Proof. unfold NewOrderBookDirect. by destruct (OrderPool.NewOrderPool _). Qed.

Lemma NewOrderBookDirect_inv key : book_inv key (NewOrderBookDirect key).
Proof.
  split.
  - eexists. apply NewOrderBookDirect_rep.
  - apply NewOrderBookDirect_Key.
  - intros s. by rewrite empty_side_orders.
Qed.

Lemma getOrCreateBook_spec e key :
  engine_inv e →
  ∃ e1 ob, getOrCreateBook e key = (e1, ob) ∧ engine_inv e1 ∧ books e1 !! key = Some ob ∧
    (∀ s, side_orders ob s = view_of e key s) ∧ sequence e1 = sequence e ∧
    localSeq e1 = localSeq e ∧ ∀ key', key' ≠ key → books e1 !! key' = books e !! key'.
Proof.
  intros He. unfold getOrCreateBook, view_of.
  destruct (books e !! key) as [ob|] eqn:Eb; [by exists e, ob|].
  eexists _, _. split; [done|]. split_and!; simpl; try done.
  - destruct He as [Hb H1 H2]. split; try done. apply map_Forall_insert_2; [|done].
    apply NewOrderBookDirect_inv.
  - apply lookup_insert_eq.
  - intros s. apply empty_side_orders.
  - intros key' Hk. by rewrite lookup_insert_ne.
Qed.

Lemma fresh_index e key ob id :
  book_inv key ob → (∀ s, side_orders ob s = view_of e key s) →
  (∀ s o, o ∈ view_of e key s → Order.OrderID o ≠ id) → orderIndex ob !! id = None.
Proof.
  intros [[L Hr] _ _] HV Hf. apply (index_None ob L); [done|]. intros s o Ho.
  rewrite HV in Ho. by apply (Hf s).
Qed.

(** ** Limit orders preserve the invariant *)

Definition view_ok (key : string) (V : view) : Prop :=
  ∀ s, Forall (λ o, live o ∧ Order.BookKey o = key) (V s) ∧ NoDup (Order.OrderID <$> V s) ∧
    in_order s (V s).

Lemma sorted_groups s ps (f : Z → list Order.t) :
  StronglySorted (better s) ps → (∀ p o, p ∈ ps → o ∈ f p → Order.Price o = p) →
  in_order s (ps ≫= f).
Proof.
  intros Hs Hf. induction Hs as [|p ps Hs IH Hp]; [constructor|]. rewrite bind_cons.
  unfold in_order in *. apply StronglySorted_app. split_and!.
  - intros a b Ha (q & Hb & Hq)%list_elem_of_bind.
    rewrite (Hf p a ltac:(left) Ha), (Hf q b ltac:(by right) Hb).
    rewrite Forall_forall in Hp. apply better_asym. by apply Hp.
  - assert (∀ o, o ∈ f p → Order.Price o = p) as Hfp by (intros o; apply Hf; left).
    induction (f p) as [|a l IHl]; [constructor|]. constructor.
    + apply IHl. intros o Ho. apply Hfp. by right.
    + apply Forall_forall. intros b Hb. rewrite (Hfp a), (Hfp b) by (by left || by right).
      apply better_irrefl.
  - apply IH. intros q o Hq. apply Hf. by right.
Qed.

Lemma fmap_bind_list {A B C} (g : B → C) (f : A → list B) l :
  g <$> (l ≫= f) = l ≫= (λ x, g <$> f x).
Proof. induction l as [|x l IH]; [done|]. by rewrite !bind_cons, fmap_app, IH. Qed.

Lemma side_orders_sorted ob L s : book_rep ob L → in_order s (side_orders ob s).
Proof.
  intros Hr. rewrite (side_orders_flat _ _ _ Hr). unfold flat. rewrite fmap_bind_list.
  apply sorted_groups; [apply occupied_sorted|].
  intros p o _ (x & -> & Hx)%list_elem_of_fmap. by eapply rep_order_fields.
Qed.

Lemma book_inv_view key ob : book_inv key ob → view_ok key (side_orders ob).
Proof.
  intros [[L Hr] _ Hl] s. split_and!; [done|by eapply side_orders_ids|by eapply side_orders_sorted].
Qed.

Lemma view_of_ok e key : engine_inv e → view_ok key (view_of e key).
Proof.
  intros He s. unfold view_of. destruct (books e !! key) as [ob|] eqn:Eb.
  - apply book_inv_view. by apply (ei_books _ He).
  - split_and!; [done|constructor|constructor].
Qed.

Section process_ok.
Context (clock : Z → Z) (order : Order.t) (V : view) (seq lseq : Z).
Context (HV : view_ok (Order.BookKey order) V) (Ho : live order).

Local Notation st0 := (mkSState order seq lseq [] [] false).
Local Notation sp := (fst (spec_matched clock order V seq lseq)).
Local Notation kept := (snd (spec_matched clock order V seq lseq)).
Local Notation opp := (opposite order).

Lemma makers_live : Forall live (V opp).
Proof. eapply Forall_impl; [apply (HV opp)|]. by intros o [? _]. Qed.

Lemma matched_run : run clock (Order.BookKey order) st0 (V opp) sp kept.
Proof. apply spec_match_run, makers_live. Qed.

Lemma matched_facts : run_facts st0 (V opp) sp kept (s_trades sp).
Proof.
  destruct (run_facts_hold _ _ _ _ _ _ matched_run makers_live) as [ts Hf];
    [apply (HV opp)|apply Ho|].
  pose proof (rf_trades _ _ _ _ _ Hf) as E. simpl in E. by rewrite E.
Qed.

Lemma matched_taker : taker_id (matched_order clock order V seq lseq) = taker_id order.
Proof. apply (run_taker _ _ _ _ _ _ matched_run). Qed.

Lemma matched_ok : Order.quantities_ok (matched_order clock order V seq lseq).
Proof. apply (run_ok _ _ _ _ _ _ matched_run), Ho. Qed.

Lemma kept_live : Forall (λ o, live o ∧ Order.BookKey o = Order.BookKey order) kept.
Proof.
  pose proof matched_facts as Hf. apply Forall_forall. intros m' Hm'.
  split; [pose proof (rf_live _ _ _ _ _ Hf) as Hl; rewrite Forall_forall in Hl; by apply Hl|].
  destruct (rf_kept _ _ _ _ _ Hf m' Hm') as (m & Hm & Hfb). rewrite (fb_book _ _ _ Hfb).
  destruct (HV opp) as [Hl _]. rewrite Forall_forall in Hl. by apply Hl.
Qed.

Lemma matched_view_live s :
  Forall (λ o, live o ∧ Order.BookKey o = Order.BookKey order)
    (matched_view clock order V seq lseq s).
Proof.
  revert s. apply (both_sides _ opp); unfold matched_view.
  - rewrite set_side_eq. apply kept_live.
  - rewrite set_side_neg. apply HV.
Qed.

Lemma spec_rest_live o (W : view) :
  live o → Order.BookKey o = Order.BookKey order →
  (∀ s, Forall (λ o, live o ∧ Order.BookKey o = Order.BookKey order) (W s)) →
  ∀ s, Forall (λ o, live o ∧ Order.BookKey o = Order.BookKey order) (spec_rest o W s).
Proof.
  intros Hl Hk HW. apply (both_sides _ (Order.IsBuy o)); unfold spec_rest.
  - rewrite set_side_eq. apply Forall_forall. intros m [->|Hm]%elem_of_enqueue; [done|].
    specialize (HW (Order.IsBuy o)). rewrite Forall_forall in HW. by apply HW.
  - rewrite set_side_neg. apply HW.
Qed.

Lemma spec_process_live s :
  Forall (λ o, live o ∧ Order.BookKey o = Order.BookKey order)
    (oc_view (spec_process clock order V seq lseq) s).
Proof.
  assert (∀ s, Forall (λ o, live o ∧ Order.BookKey o = Order.BookKey order) (V s)) as HVl
    by (intros s'; apply HV).
  unfold spec_process, spec_PostOnly, spec_FOK, spec_GTCOrIOC.
  pose proof matched_view_live as Hm.
  assert (Order.BookKey (matched_order clock order V seq lseq) = Order.BookKey order) as HK.
  { pose proof matched_taker as E. unfold taker_id in E. congruence. }
  repeat case_match; simpl; auto; try (by apply spec_rest_live);
    (apply spec_rest_live; [|done|done]); split; try apply matched_ok;
    pose proof (Order.RemainingQuantity_nonneg (matched_order clock order V seq lseq));
    match goal with H : (_ =? 0) || _ = false |- _ =>
      apply orb_false_iff in H as [H%Z.eqb_neq _]; lia end.
Qed.

Lemma spec_process_counters :
  uint64 seq → uint64 lseq →
  uint64 (oc_sequence (spec_process clock order V seq lseq)) ∧
  uint64 (oc_localSeq (spec_process clock order V seq lseq)).
Proof.
  intros H1 H2.
  destruct (run_numbered _ _ _ _ _ _ matched_run H1 H2 (s_trades sp) eq_refl) as [N1 N2 _].
  assert (uint64 (s_sequence sp) ∧ uint64 (s_localSeq sp)) as Hm
    by (rewrite N1, N2; split; apply wrapu64_range).
  unfold spec_process, spec_PostOnly, spec_FOK, spec_GTCOrIOC.
  repeat case_match; simpl; try done; apply Hm.
Qed.
End process_ok.

(** ** Placing *)

(** A limit order the engine accepts: valid, live, with an unused identifier. *)
Record accepted (e : Engine) (o : Order.t) : Prop := {
  acc_valid : Order.Validate o = Ok ();
  acc_limit : Order.Type_ o = OrderTypeLimit;
  acc_live : live o;
  acc_fresh : ∀ s m, m ∈ view_of e (Order.BookKey o) s → Order.OrderID m ≠ Order.OrderID o;
}.

(** The status default applied on entry. *)
Definition incoming (o : Order.t) : Order.t :=
  if bool_decide (Order.Status o = OrderStatusUnset)
  then Order.set_Status o OrderStatusNew else o.

Definition place_spec (clock : Z → Z) (e : Engine) (o : Order.t) : outcome :=
  spec_process clock (incoming o) (view_of e (Order.BookKey o)) (sequence e) (localSeq e).

Lemma incoming_fields o :
  Order.OrderID (incoming o) = Order.OrderID o ∧ Order.BookKey (incoming o) = Order.BookKey o ∧
  Order.Price (incoming o) = Order.Price o ∧ Order.Type_ (incoming o) = Order.Type_ o ∧
  (live (incoming o) ↔ live o).
Proof. unfold incoming. by case_bool_decide. Qed.

Lemma Validate_price o : Order.Validate o = Ok () → 1 ≤ Order.Price o < maxPrice.
Proof.
  unfold Order.Validate, maxPrice. repeat case_match; try done. intros _.
  match goal with H : (_ || _) = false |- _ =>
    apply orb_false_iff in H as [?%Z.ltb_ge ?%Z.ltb_ge] end. lia.
Qed.

Lemma spec_process_ext clock order V V' seq lseq :
  (∀ s, V s = V' s) →
  let oc := spec_process clock order V seq lseq in
  let oc' := spec_process clock order V' seq lseq in
  oc_order oc = oc_order oc' ∧ oc_sequence oc = oc_sequence oc' ∧
  oc_localSeq oc = oc_localSeq oc' ∧ oc_trades oc = oc_trades oc' ∧
  oc_affected oc = oc_affected oc' ∧ ∀ s, oc_view oc s = oc_view oc' s.
Proof.
  intros HV. unfold spec_process, spec_PostOnly, spec_FOK, spec_GTCOrIOC, with_trades,
    matched_order, matched_view, spec_matched, spec_cross, spec_rest.
  rewrite (HV (opposite order)).
  assert (∀ (W W' : view) s l, (∀ s, W s = W' s) → ∀ s', set_side W s l s' = set_side W' s l s') as Hset.
  { intros W W' s l H s'. unfold set_side. by rewrite H. }
  repeat case_match; simpl; split_and!; try done; intros side; rewrite ?HV;
    try (by apply Hset); unfold set_side; repeat case_match; rewrite ?HV; done.
Qed.

Lemma PlaceOrder_accepted clock e o :
  engine_inv e → accepted e o →
  let oc := place_spec clock e o in
  ∃ e' snap, PlaceOrder clock e (Some o) =
      Some (e', mkResult (Some (oc_order oc)) (oc_affected oc) (oc_trades oc) snap, None) ∧
    engine_inv e' ∧ sequence e' = oc_sequence oc ∧ localSeq e' = oc_localSeq oc ∧
    (∀ s, view_of e' (Order.BookKey o) s = oc_view oc s) ∧
    (∀ key, key ≠ Order.BookKey o → books e' !! key = books e !! key).
Proof.
  intros He [Hv Ht Hl Hf]. unfold PlaceOrder, place_spec. rewrite Hv.
  destruct (incoming_fields o) as (EI & EK & EP & ET & HL). fold (incoming o). rewrite EK.
  destruct (getOrCreateBook_spec e (Order.BookKey o) He)
    as (e1 & ob & -> & He1 & Hob & HV & Es & El & Hother).
  assert (book_inv (Order.BookKey o) ob) as Hb by by apply (ei_books _ He1).
  assert (orderIndex ob !! Order.OrderID (incoming o) = None) as Hid
    by (rewrite EI; by apply (fresh_index e (Order.BookKey o))).
  unfold HasOrder. rewrite bool_decide_eq_false_2; [|by rewrite Hid; intros []].
  rewrite ET, Ht. destruct (bi_rep _ _ Hb) as [L Hr].
  assert (1 ≤ Order.Price (incoming o) < maxPrice) as Hp by (rewrite EP; by apply Validate_price).
  destruct (processLimitOrder_refines clock e1 (incoming o) ob L Hr Hp Hid)
    as (ob' & -> & [Hr' HV'] & HK). rewrite Some_bind. cbn [mo_book].
  destruct (Snapshot_view ob' 5 Hr') as (snap & -> & _). rewrite Some_bind.
  rewrite Es, El in *.
  destruct (spec_process_ext clock (incoming o) _ _ (sequence e) (localSeq e) HV)
    as (X1 & X2 & X3 & X4 & X5 & X6).
  assert (view_ok (Order.BookKey (incoming o)) (side_orders ob)) as Hvo
    by (rewrite EK; by apply book_inv_view).
  eexists _, snap. split.
  { cbn [mo_order mo_affected mo_trades]. by rewrite X1, X4, X5. }
  cbn [mo_sequence mo_localSeq sequence localSeq books].
  assert (live (incoming o)) as Hli by by apply HL.
  split_and!; [split|..]; cbn [sequence localSeq books].
  - apply map_Forall_insert_2; [|apply He1]. split; [done|by rewrite HK, (bi_key _ _ Hb)|].
    intros s. rewrite HV', <-EK. by apply spec_process_live.
  - apply (spec_process_counters clock (incoming o)); try done; apply He.
  - apply (spec_process_counters clock (incoming o)); try done; apply He.
  - done.
  - done.
  - intros s. unfold view_of at 1. cbn [books]. rewrite lookup_insert_eq. by rewrite HV', X6.
  - intros key Hk. by rewrite lookup_insert_ne, Hother.
Qed.

(** Placing never panics, whatever the order. *)
Lemma PlaceOrder_total clock e o :
  engine_inv e → (∀ o', o = Some o' → live o') →
  ∃ e' r err, PlaceOrder clock e o = Some (e', r, err) ∧ engine_inv e' ∧
    (err ≠ None → (∀ key s, view_of e' key s = view_of e key s) ∧ res_Trades r = [] ∧
       sequence e' = sequence e ∧ localSeq e' = localSeq e).
Proof.
  intros He Hl. destruct o as [o|]; [|eexists _, _, _; split; [done|by split]].
  specialize (Hl o eq_refl).
  destruct (Order.Validate o) as [[]|err] eqn:Hv; cycle 1.
  { eexists _, _, _. unfold PlaceOrder. rewrite Hv. split; [done|by split]. }
  destruct (decide (∃ s, Exists (λ m, Order.OrderID m = Order.OrderID o)
    (view_of e (Order.BookKey o) s))) as [Hdup|Hfresh].
  - unfold PlaceOrder. rewrite Hv.
    destruct (incoming_fields o) as (EI & EK & _). fold (incoming o). rewrite EK.
    destruct (getOrCreateBook_spec e (Order.BookKey o) He)
      as (e1 & ob & -> & He1 & Hob & HV & Es & El & Hother).
    assert (HasOrder ob (Order.OrderID (incoming o)) = true) as ->.
    { rewrite EI. unfold HasOrder. apply bool_decide_eq_true.
      assert (book_inv (Order.BookKey o) ob) as [[L Hr] _ _] by by apply (ei_books _ He1).
      apply not_eq_None_Some. intros Hid. destruct Hdup as [s Hdup].
      apply Exists_exists in Hdup as (m & Hm & E). rewrite <-HV in Hm.
      by apply (proj1 (index_None ob L _ Hr) Hid s m). }
    eexists _, _, _. split_and!; [done|done|]. intros _. split_and!; try done.
    intros key s. destruct (decide (key = Order.BookKey o)) as [->|Hk].
    + unfold view_of at 1. by rewrite Hob, HV.
    + unfold view_of. by rewrite Hother.
  - assert (∀ s m, m ∈ view_of e (Order.BookKey o) s → Order.OrderID m ≠ Order.OrderID o) as Hf.
    { intros s m Hm E. apply Hfresh. exists s. apply Exists_exists. eauto. }
    destruct (decide (Order.Type_ o = OrderTypeLimit)) as [Ht|Ht].
    { destruct (PlaceOrder_accepted clock e o He) as (e' & snap & -> & He' & _); [done|].
      eexists _, _, _. split_and!; try done. }
    unfold PlaceOrder. rewrite Hv.
    destruct (incoming_fields o) as (EI & EK & _ & ET & _). fold (incoming o). rewrite EK.
    destruct (getOrCreateBook_spec e (Order.BookKey o) He)
      as (e1 & ob & -> & He1 & Hob & HV & Es & El & Hother).
    assert (HasOrder ob (Order.OrderID (incoming o)) = false) as ->.
    { rewrite EI. unfold HasOrder. apply bool_decide_eq_false.
      rewrite (fresh_index e (Order.BookKey o) ob); [by intros []| |done|done].
      by apply (ei_books _ He1). }
    rewrite ET.
    assert (∀ key s, view_of e1 key s = view_of e key s) as Hview.
    { intros key s. destruct (decide (key = Order.BookKey o)) as [->|Hk].
      - unfold view_of at 1. by rewrite Hob, HV.
      - unfold view_of. by rewrite Hother. }
    destruct (Order.Type_ o); [done|..]; eexists _, _, _; by split_and!.
Qed.

(** ** Restoring *)

Definition restored (o : Order.t) : Order.t :=
  if bool_decide (Order.Status o = OrderStatusUnset) then
    Order.set_Status o (if 0 <? Order.FilledQuantity o then OrderStatusPartiallyFilled
                        else OrderStatusNew)
  else o.

Lemma restored_fields o :
  Order.OrderID (restored o) = Order.OrderID o ∧ Order.BookKey (restored o) = Order.BookKey o ∧
  Order.Price (restored o) = Order.Price o ∧ Order.IsBuy (restored o) = Order.IsBuy o ∧
  (live (restored o) ↔ live o).
Proof. unfold restored. by case_bool_decide. Qed.

Lemma set_book_view e key ob ob0 s key' :
  books e !! key = Some ob0 →
  view_of (set_book e key ob) key' s = if decide (key' = key) then side_orders ob s
                                       else view_of e key' s.
Proof.
  intros _. unfold view_of, set_book. cbn [books]. case_decide as E.
  - subst. by rewrite lookup_insert_eq.
  - by rewrite lookup_insert_ne.
Qed.

Lemma set_book_inv e key ob :
  engine_inv e → book_inv key ob → engine_inv (set_book e key ob).
Proof. intros [Hb H1 H2] Ho. split; [|done..]. by apply map_Forall_insert_2. Qed.

Lemma RestoreOrder_accepted e o :
  engine_inv e → accepted e o →
  ∃ e', RestoreOrder e (Some o) = Some (e', None) ∧ engine_inv e' ∧
    (∀ s, view_of e' (Order.BookKey o) s = spec_rest (restored o) (view_of e (Order.BookKey o)) s) ∧
    (∀ key, key ≠ Order.BookKey o → books e' !! key = books e !! key).
Proof.
  intros He [Hv Ht Hl Hf]. unfold RestoreOrder. rewrite Hv.
  rewrite (proj2 (Z.leb_gt _ _) (proj2 Hl)).
  destruct (getOrCreateBook_spec e (Order.BookKey o) He)
    as (e1 & ob & -> & He1 & Hob & HV & Es & El & Hother).
  assert (book_inv (Order.BookKey o) ob) as Hb by by apply (ei_books _ He1).
  assert (orderIndex ob !! Order.OrderID o = None) as Hid
    by by apply (fresh_index e (Order.BookKey o)).
  unfold HasOrder. rewrite bool_decide_eq_false_2; [|by rewrite Hid; intros []].
  fold (restored o). destruct (restored_fields o) as (EI & EK & EP & EB & HL).
  destruct (bi_rep _ _ Hb) as [L Hr].
  destruct (AddOrder_added ob L (restored o) Hr) as (ob' & -> & Hadd).
  { rewrite EP. by apply Validate_price. } { by rewrite EI. }
  rewrite Some_bind. destruct (added_implements _ _ _ _ Hadd HV) as [Hr' HV'].
  eexists. split; [done|]. split_and!.
  - apply set_book_inv; [done|]. split; [done| |].
    + by rewrite (added_key _ _ _ Hadd), (bi_key _ _ Hb).
    + intros s. rewrite HV', <-EK. apply spec_rest_live; [by apply HL|done|].
      intros s'. rewrite EK. apply (view_of_ok _ _ He).
  - intros s. by rewrite (set_book_view _ _ _ _ _ _ Hob), decide_True.
  - intros key Hk. unfold set_book. cbn [books]. by rewrite lookup_insert_ne, Hother.
Qed.

Lemma RestoreOrder_total e o :
  engine_inv e → (∀ o', o = Some o' → Order.quantities_ok o') →
  ∃ e' err, RestoreOrder e o = Some (e', err) ∧ engine_inv e'.
Proof.
  intros He Hq. destruct o as [o|]; [|by eexists _, _]. specialize (Hq o eq_refl).
  unfold RestoreOrder. destruct (Order.Validate o) as [[]|err] eqn:Hv; [|by eexists _, _].
  destruct (Z.leb_spec (Order.RemainingQuantity o) 0); [by eexists _, _|].
  destruct (getOrCreateBook_spec e (Order.BookKey o) He)
    as (e1 & ob & -> & He1 & Hob & HV & Es & El & Hother).
  assert (book_inv (Order.BookKey o) ob) as Hb by by apply (ei_books _ He1).
  destruct (HasOrder ob (Order.OrderID o)) eqn:Hh; [by eexists _, _|].
  fold (restored o). destruct (restored_fields o) as (EI & EK & EP & EB & HL).
  destruct (bi_rep _ _ Hb) as [L Hr].
  destruct (AddOrder_added ob L (restored o) Hr) as (ob' & -> & Hadd).
  { rewrite EP. by apply Validate_price. }
  { rewrite EI. unfold HasOrder in Hh. apply bool_decide_eq_false in Hh.
    by apply eq_None_not_Some. }
  rewrite Some_bind. destruct (added_implements _ _ _ _ Hadd HV) as [Hr' HV'].
  eexists _, _. split; [done|]. apply set_book_inv; [done|]. split; [done| |].
  - by rewrite (added_key _ _ _ Hadd), (bi_key _ _ Hb).
  - intros s. rewrite HV', <-EK. apply spec_rest_live; [by apply HL|done|].
    intros s'. rewrite EK. apply (view_of_ok _ _ He).
Qed.

(** ** Cancelling *)

Definition cancel_copy (reason : CancelReason) (now : Z) (o : Order.t) : Order.t :=
  Order.set_UpdatedAtMillis (Order.Cancel o reason) now.

Definition without (id : string) (ms : list Order.t) : list Order.t :=
  filter (λ o, Order.OrderID o ≠ id) ms.

(** Cancelling a resting order of a book: what the engine does to the node and
    to the lists. *)
Lemma cancel_node ob L id x reason now :
  book_rep ob L → orderIndex ob !! id = Some x →
  ∃ d, store ob !! x = Some d ∧ order_at (store ob) x = DirectOrder.data d ∧
    DirectOrder.data d ∈ side_orders ob (DirectOrder.IsBuy d) ∧
    Order.OrderID (DirectOrder.data d) = id ∧
    let d' := DirectOrder.set_data (DirectOrder.Cancel d reason)
      (Order.set_UpdatedAtMillis (DirectOrder.data (DirectOrder.Cancel d reason)) now) in
    DirectOrder.ToOrder d' = cancel_copy reason now (DirectOrder.data d) ∧
    ∃ ob', RemoveDirectOrder (set_store ob (<[x := d']> (store ob))) (Some x) = Some ob' ∧
      (∃ L', book_rep ob' L') ∧ Key ob' = Key ob ∧
      ∀ s, side_orders ob' s = without id (side_orders ob s).
Proof.
  intros Hr Hx. destruct (rep_index _ _ Hr _ _ Hx) as (d & Hd & Hid & HL).
  assert (order_at (store ob) x = DirectOrder.data d) as Ho by (unfold order_at; by rewrite Hd).
  exists d. split_and!; try done.
  { apply (elem_of_side_orders _ _ _ _ Hr). eauto. }
  intros d'. split; [done|].
  assert (skel d' = skel d) as Hsk by done.
  assert (book_rep (set_store ob (<[x := d']> (store ob))) L) as Hr1.
  { apply book_rep_set_store; [done|]. intros y. by apply (skel_insert _ _ d). }
  destruct (RemoveDirectOrder_spec _ L _ _ x Hr1 HL) as (ob' & E & Hr' & Hsame & HK & HI).
  exists ob'. split_and!; [done|by eexists|by rewrite HK|]. intros s.
  rewrite (side_orders_flat _ _ _ Hr'), (side_orders_flat _ _ _ Hr), flat_drop.
  unfold without. rewrite list_filter_fmap.
  assert (filter (λ y, Order.OrderID (order_at (store ob) y) ≠ id) (flat L s) =
          filter (λ y, y ∉ [x]) (flat L s)) as ->.
  { apply list_filter_ext_in. intros y [p Hy]%(elem_of_flat ob); [|done]. simpl.
    rewrite not_elem_of_cons. pose proof (rep_order_id _ _ _ _ _ Hr Hy) as Hyi. split.
    - intros Hne. split; [|apply not_elem_of_nil]. intros ->. congruence.
    - intros [Hyx _] E'. rewrite E' in Hyi. congruence. }
  apply list_fmap_ext. intros i y [Hy _]%list_elem_of_lookup_2%list_elem_of_filter.
  assert (y ≠ x) as Hyx by by intros ->; apply Hy; left.
  rewrite Hsame by done. unfold order_at. simpl. by rewrite lookup_insert_ne.
Qed.

Lemma without_live key id (V : view) s :
  (∀ s, Forall (λ o, live o ∧ Order.BookKey o = key) (V s)) →
  Forall (λ o, live o ∧ Order.BookKey o = key) (without id (V s)).
Proof.
  intros H. apply Forall_forall. intros o [_ Ho]%list_elem_of_filter.
  specialize (H s). rewrite Forall_forall in H. by apply H.
Qed.

(** What one cancel request names. *)
Definition names (c : option Order.t) (o : Order.t) : bool :=
  match c with
  | Some c => bool_decide (Order.BookKey c = Order.BookKey o) &&
              bool_decide (Order.OrderID c = Order.OrderID o)
  | None => false
  end.

Definition bview (bs : gmap string OrderBookDirect) (key : string) : view :=
  match bs !! key with Some ob => side_orders ob | None => λ _, [] end.

Lemma bview_live bs key s :
  map_Forall book_inv bs → Forall (λ o, live o ∧ Order.BookKey o = key) (bview bs key s).
Proof.
  intros Hbs. unfold bview. destruct (bs !! key) as [ob|] eqn:E; [|done].
  apply (bi_live _ _ (Hbs _ _ E)).
Qed.

(** One candidate: it leaves its book if it rests there, and is reported. *)
Lemma cancel_one_spec reason now bs cancelled keys c :
  map_Forall book_inv bs →
  ∃ bs' cs keys', cancel_one reason now (bs, cancelled, keys) c = Some (bs', cancelled ++ cs, keys') ∧
    map_Forall book_inv bs' ∧
    (∀ key s, bview bs' key s = filter (λ o, names c o = false) (bview bs key s)) ∧
    (∀ k, k ∈ cs ↔ ∃ key s o, o ∈ bview bs key s ∧ names c o = true ∧
       k = cancel_copy reason now o) ∧ (length cs ≤ 1)%nat.
Proof.
  intros Hbs.
  assert (∀ key s, (∀ o, o ∈ bview bs key s → names c o = false) →
    bview bs key s = filter (λ o, names c o = false) (bview bs key s)) as Hid.
  { intros key s Hall. symmetry. by apply list_filter_all, Forall_forall. }
  assert ((∀ key s o, o ∈ bview bs key s → names c o = false) →
    ∃ bs' cs keys', Some (bs, cancelled, keys) = Some (bs', cancelled ++ cs, keys') ∧
    map_Forall book_inv bs' ∧
    (∀ key s, bview bs' key s = filter (λ o, names c o = false) (bview bs key s)) ∧
    (∀ k, k ∈ cs ↔ ∃ key s o, o ∈ bview bs key s ∧ names c o = true ∧
       k = cancel_copy reason now o) ∧ (length cs ≤ 1)%nat) as Hnone.
  { intros Hall. exists bs, [], keys. split_and!; [by rewrite app_nil_r|done| | |simpl; lia].
    - intros key s. apply Hid. eauto.
    - intros k. split; [by intros ?%elem_of_nil|]. intros (key & s & o & Ho & Hn & _).
      by rewrite (Hall key s o Ho) in Hn. }
  unfold cancel_one. destruct c as [c|]; [|by apply Hnone].
  assert (∀ key s o, o ∈ bview bs key s → names (Some c) o = true →
    key = Order.BookKey c ∧ Order.OrderID o = Order.OrderID c) as Hnames.
  { intros key s o Ho [E1%bool_decide_eq_true E2%bool_decide_eq_true]%andb_true_iff.
    pose proof (bview_live bs key s Hbs) as Hl. rewrite Forall_forall in Hl.
    destruct (Hl o Ho) as [_ E]. split; congruence. }
  destruct (bs !! Order.BookKey c) as [book|] eqn:Eb; cycle 1.
  { apply Hnone. intros key s o Ho. destruct (names (Some c) o) eqn:En; [|done].
    destruct (Hnames key s o Ho En) as [-> _]. unfold bview in Ho. rewrite Eb in Ho.
    by apply elem_of_nil in Ho. }
  pose proof (Hbs _ _ Eb) as Hinv. destruct (bi_rep _ _ Hinv) as [L Hr].
  unfold GetDirectOrder. destruct (orderIndex book !! Order.OrderID c) as [x|] eqn:Ex; cycle 1.
  { apply Hnone. intros key s o Ho. destruct (names (Some c) o) eqn:En; [|done].
    destruct (Hnames key s o Ho En) as [-> Eo]. unfold bview in Ho. rewrite Eb in Ho.
    by destruct (proj1 (index_None book L _ Hr) Ex s o Ho). }
  destruct (cancel_node book L (Order.OrderID c) x reason now Hr Ex)
    as (d & Hd & _ & Hin & Hid' & Hcopy & ob' & Erm & Hr' & HK & HV).
  rewrite Hd, Some_bind.
  pose proof (bi_live _ _ Hinv (DirectOrder.IsBuy d)) as Hl. rewrite Forall_forall in Hl.
  destruct (Hl _ Hin) as [[Hok Hrem] HBK].
  unfold DirectOrder.RemainingQuantity. rewrite (proj2 (Z.leb_gt _ _) Hrem).
  rewrite Erm, Some_bind, Hcopy.
  assert (names (Some c) (DirectOrder.data d) = true) as Hnd.
  { unfold names. by rewrite HBK, Hid', !bool_decide_true. }
  eexists _, [_], _. split; [done|]. split_and!; [| | |simpl; lia].
  - apply map_Forall_insert_2; [|done]. split; [done|by rewrite HK, (bi_key _ _ Hinv)|].
    intros s. rewrite HV. apply without_live, Hinv.
  - intros key s. unfold bview. destruct (decide (key = Order.BookKey c)) as [->|Hk].
    + rewrite lookup_insert_eq, Eb, HV. apply list_filter_ext_in. intros o Ho.
      pose proof (bi_live _ _ Hinv s) as Hl'. rewrite Forall_forall in Hl'.
      destruct (Hl' o Ho) as [_ E]. unfold names. rewrite E, bool_decide_true by done. simpl.
      rewrite bool_decide_eq_false. split; congruence.
    + rewrite lookup_insert_ne by done. apply Hid. intros o Ho.
      destruct (names (Some c) o) eqn:En; [|done]. by destruct (Hnames key s o Ho En).
  - intros k. rewrite list_elem_of_singleton. split.
    + intros ->. exists (Order.BookKey c), (DirectOrder.IsBuy d), (DirectOrder.data d).
      unfold bview. by rewrite Eb.
    + intros (key & s & o & Ho & Hn & ->). destruct (Hnames key s o Ho Hn) as [-> Eo].
      f_equal. unfold bview in Ho. rewrite Eb in Ho.
      apply (elem_of_side_orders _ _ _ _ Hr) in Ho as (p & y & Hy & ->).
      pose proof (rep_order_id _ _ _ _ _ Hr Hy) as Hyi. rewrite Eo, Ex in Hyi.
      injection Hyi as ->. unfold order_at. by rewrite Hd.
Qed.

(** A batch of candidates. *)
Definition named (cs : list (option Order.t)) (o : Order.t) : bool := existsb (λ c, names c o) cs.

Lemma cancel_loop_spec reason now orders bs cancelled keys :
  map_Forall book_inv bs →
  ∃ bs' cs keys', cancel_loop reason now orders (bs, cancelled, keys) =
      Some (bs', cancelled ++ cs, keys') ∧ map_Forall book_inv bs' ∧
    (∀ key s, bview bs' key s = filter (λ o, named orders o = false) (bview bs key s)) ∧
    (∀ k, k ∈ cs ↔ ∃ key s o, o ∈ bview bs key s ∧ named orders o = true ∧
       k = cancel_copy reason now o).
Proof.
  revert bs cancelled keys. induction orders as [|c orders IH]; intros bs cancelled keys Hbs.
  { exists bs, [], keys. split_and!; [by rewrite app_nil_r|done| |].
    - intros key s. symmetry. by apply list_filter_all, Forall_forall.
    - intros k. split; [by intros ?%elem_of_nil|naive_solver]. }
  cbn [cancel_loop].
  destruct (cancel_one_spec reason now bs cancelled keys c Hbs)
    as (bs1 & cs1 & keys1 & -> & Hbs1 & HV1 & Hc1 & _). rewrite Some_bind.
  destruct (IH bs1 (cancelled ++ cs1) keys1 Hbs1) as (bs2 & cs2 & keys2 & -> & Hbs2 & HV2 & Hc2).
  exists bs2, (cs1 ++ cs2), keys2. split_and!; [by rewrite <-app_assoc|done| |].
  - intros key s. rewrite HV2, HV1, list_filter_filter. apply list_filter_iff. intros o.
    cbn [named existsb]. unfold named. rewrite orb_false_iff. tauto.
  - intros k. rewrite elem_of_app, Hc1, Hc2. cbn [named existsb]. split.
    + intros [(key & s & o & Ho & Hn & ->)|(key & s & o & Ho & Hn & ->)]; exists key, s, o.
      * split_and!; [done|by rewrite Hn|done].
      * rewrite HV1, list_elem_of_filter in Ho. destruct Ho as [_ Ho].
        split_and!; [done| |done]. unfold named in Hn. by rewrite Hn, orb_true_r.
    + intros (key & s & o & Ho & Hn & ->). destruct (names c o) eqn:En.
      * left. by exists key, s, o.
      * right. exists key, s, o. rewrite HV1, list_elem_of_filter. done.
Qed.

Lemma OrderCount_empty ob L s : book_rep ob L → OrderCount ob = 0 → side_orders ob s = [].
Proof.
  intros Hr Hc. unfold OrderCount in Hc.
  assert (orderIndex ob = ∅) as He by (apply map_size_empty_iff; lia).
  destruct (side_orders ob s) as [|o l] eqn:E; [done|].
  assert (orderIndex ob !! Order.OrderID o = None) as Hn by by rewrite He, lookup_empty.
  exfalso. apply (proj1 (index_None ob L _ Hr) Hn s o); [rewrite E; left|done].
Qed.

Lemma snapshot_loop_spec keys bs :
  map_Forall book_inv bs →
  ∃ bs' snaps, snapshot_loop keys bs = Some (bs', snaps) ∧ map_Forall book_inv bs' ∧
    ∀ key s, bview bs' key s = bview bs key s.
Proof.
  revert bs. induction keys as [|key keys IH]; intros bs Hbs; cbn [snapshot_loop];
    [by exists bs, []|].
  destruct (bs !! key) as [ob|] eqn:Eb; [|by apply IH].
  destruct (Snapshot_view ob 5) as (snap & -> & _); [apply (bi_rep _ _ (Hbs _ _ Eb))|].
  rewrite Some_bind. set (bs1 := if OrderCount ob =? 0 then delete key bs else bs).
  assert (map_Forall book_inv bs1) as Hbs1.
  { unfold bs1. destruct (_ =? 0); [|done]. by apply map_Forall_delete. }
  destruct (IH bs1 Hbs1) as (bs' & snaps & -> & Hbs' & HV). rewrite Some_bind.
  exists bs', (snap :: snaps). split_and!; try done. intros key' s. rewrite HV.
  unfold bs1. destruct (Z.eqb_spec (OrderCount ob) 0) as [E0|]; [|done]. unfold bview.
  destruct (decide (key' = key)) as [->|]; [|by rewrite lookup_delete_ne].
  rewrite lookup_delete_eq, Eb. destruct (bi_rep _ _ (Hbs _ _ Eb)) as [L Hr].
  by rewrite (OrderCount_empty _ _ _ Hr).
Qed.

Lemma CancelOrders_spec now e orders reason :
  engine_inv e → reason ≠ CancelReasonUnset →
  ∃ e' r, CancelOrders now e orders reason = Some (e', r, None) ∧ engine_inv e' ∧
    sequence e' = sequence e ∧ localSeq e' = localSeq e ∧
    (∀ key s, view_of e' key s = filter (λ o, named orders o = false) (view_of e key s)) ∧
    (∀ k, k ∈ cancel_Orders r ↔ ∃ key s o, o ∈ view_of e key s ∧ named orders o = true ∧
       k = cancel_copy reason now o).
Proof.
  intros [Hbs H1 H2] Hreason. unfold CancelOrders. destruct orders as [|c orders].
  { eexists _, _. split; [done|]. split_and!; try done.
    - intros key s. symmetry. by apply list_filter_all, Forall_forall.
    - intros k. split; [by intros ?%elem_of_nil|naive_solver]. }
  rewrite bool_decide_eq_false_2 by done.
  destruct (cancel_loop_spec reason now (c :: orders) (books e) [] [] Hbs)
    as (bs1 & cs & keys & -> & Hbs1 & HV1 & Hc). rewrite Some_bind.
  destruct (snapshot_loop_spec keys bs1 Hbs1) as (bs2 & snaps & -> & Hbs2 & HV2).
  rewrite Some_bind. eexists _, _. split; [done|]. split_and!; try done.
  intros key s. etrans; [apply HV2|apply HV1].
Qed.

(** ** Amending *)

Definition amended (newPrice newQty : Z) (o : Order.t) : Order.t :=
  Order.set_PriceQuantity
    (Order.set_FilledQuantity
       (Order.set_Reason (Order.set_Status o OrderStatusNew) CancelReasonUnset) 0)
    (if 0 <? newPrice then newPrice else Order.Price o)
    (if 0 <? newQty then newQty else Order.Quantity o).

Lemma amended_live newPrice newQty o :
  live o → newQty ≤ MaxInt64 → live (amended newPrice newQty o).
Proof.
  intros [Hok Hr] Hq. rewrite Order.RemainingQuantity_ok in Hr by done.
  assert (Order.quantities_ok (amended newPrice newQty o)) as Hok'.
  { unfold Order.quantities_ok in *. simpl. destruct (Z.ltb_spec 0 newQty); lia. }
  split; [done|]. rewrite Order.RemainingQuantity_ok by done. simpl.
  unfold Order.quantities_ok in *. destruct (Z.ltb_spec 0 newQty); lia.
Qed.

(** An amendment is a cancel followed by a new placement of the amended copy. *)
Lemma AmendOrder_spec clock now e original newPrice newQty s o :
  engine_inv e → o ∈ view_of e (Order.BookKey original) s →
  Order.OrderID o = Order.OrderID original →
  let copy := cancel_copy CancelReasonAmended now o in
  ∃ e1, engine_inv e1 ∧ sequence e1 = sequence e ∧ localSeq e1 = localSeq e ∧
    (∀ key s, view_of e1 key s = filter (λ m, names (Some original) m = false) (view_of e key s)) ∧
    AmendOrder clock now e (Some original) newPrice newQty =
      '(e', r, err) ← PlaceOrder clock e1 (Some (amended newPrice newQty copy));
      Some (e', mkResult (res_Order r) (copy :: res_Affected r) (res_Trades r) (res_Book r), err).
Proof.
  intros He Ho Hid copy. unfold AmendOrder.
  unfold view_of in Ho. destruct (books e !! Order.BookKey original) as [book|] eqn:Eb;
    [|by apply elem_of_nil in Ho].
  pose proof (ei_books _ He _ _ Eb) as Hinv. destruct (bi_rep _ _ Hinv) as [L Hr].
  unfold GetDirectOrder. destruct (orderIndex book !! Order.OrderID original) as [x|] eqn:Ex; cycle 1.
  { by destruct (proj1 (index_None book L _ Hr) Ex s o Ho). }
  destruct (cancel_node book L _ x CancelReasonAmended now Hr Ex)
    as (d & Hd & _ & Hin & Hid' & Hcopy & ob' & Erm & Hr' & HK & HV).
  rewrite Hd, Some_bind.
  assert (DirectOrder.data d = o) as Edo.
  { apply (elem_of_side_orders _ _ _ _ Hr) in Ho as (p & y & Hy & ->).
    pose proof (rep_order_id _ _ _ _ _ Hr Hy) as Hyi. rewrite Hid, Ex in Hyi.
    injection Hyi as ->. unfold order_at. by rewrite Hd. }
  pose proof (bi_live _ _ Hinv (DirectOrder.IsBuy d)) as Hl. rewrite Forall_forall in Hl.
  destruct (Hl _ Hin) as [[Hok Hrem] HBK].
  unfold DirectOrder.RemainingQuantity. rewrite (proj2 (Z.leb_gt _ _) Hrem).
  rewrite Erm, Some_bind, Hcopy, Edo.
  exists (set_book e (Order.BookKey original) ob'). split_and!; try done.
  - apply set_book_inv; [done|]. split; [done|by rewrite HK, (bi_key _ _ Hinv)|].
    intros s'. rewrite HV. apply without_live, Hinv.
  - intros key s'. rewrite (set_book_view _ _ _ _ _ _ Eb). case_decide as Ek; [subst key|].
    + unfold view_of. rewrite Eb, HV. apply list_filter_ext_in. intros m Hm.
      pose proof (bi_live _ _ Hinv s') as Hl'. rewrite Forall_forall in Hl'.
      destruct (Hl' m Hm) as [_ E]. unfold names. rewrite E, bool_decide_true by done. simpl.
      rewrite bool_decide_eq_false. split; congruence.
    + symmetry. apply list_filter_all, Forall_forall. intros m Hm.
      destruct (view_of_ok e key He s') as [Hl' _]. rewrite Forall_forall in Hl'.
      destruct (Hl' m Hm) as [_ E]. unfold names.
      rewrite bool_decide_eq_false_2; [done|]. congruence.
Qed.

Lemma AmendOrder_total clock now e original newPrice newQty :
  engine_inv e → newQty ≤ MaxInt64 →
  ∃ e' r err, AmendOrder clock now e original newPrice newQty = Some (e', r, err) ∧ engine_inv e'.
Proof.
  intros He Hq. destruct original as [original|]; [|by eexists _, _, _].
  destruct (books e !! Order.BookKey original) as [book|] eqn:Eb; cycle 1.
  { eexists _, _, _. unfold AmendOrder. by rewrite Eb. }
  pose proof (ei_books _ He _ _ Eb) as Hinv. destruct (bi_rep _ _ Hinv) as [L Hr].
  destruct (orderIndex book !! Order.OrderID original) as [x|] eqn:Ex; cycle 1.
  { eexists _, _, _. unfold AmendOrder, GetDirectOrder. by rewrite Eb, Ex. }
  destruct (cancel_node book L _ x CancelReasonAmended now Hr Ex)
    as (d & _ & _ & Hin & Hid & _).
  assert (DirectOrder.data d ∈ view_of e (Order.BookKey original) (DirectOrder.IsBuy d)) as Hin'
    by (unfold view_of; by rewrite Eb).
  destruct (AmendOrder_spec clock now e original newPrice newQty _ _ He Hin' Hid)
    as (e1 & He1 & _ & _ & _ & ->).
  destruct (PlaceOrder_total clock e1
    (Some (amended newPrice newQty (cancel_copy CancelReasonAmended now (DirectOrder.data d)))))
    as (e' & r & err & -> & He' & _); [done| |].
  { intros o' [= <-]. apply amended_live; [|done].
    pose proof (bi_live _ _ Hinv (DirectOrder.IsBuy d)) as Hl. rewrite Forall_forall in Hl.
    apply (Hl _ Hin). }
  rewrite Some_bind. by eexists _, _, _.
Qed.
