(* ===== verification/EngineProps.v ===== *)
(** * Matching: properties of the engine

    The theorems about [PlaceOrder], [CancelOrders], [RestoreOrder] and
    [AmendOrder]: panic freedom of every operation sequence, conservation,
    price-time priority, self-trade prevention, time in force, the uncrossed
    book, trade numbering.  All are read off the specification the engine was
    shown to implement. *)

From stdpp Require Import sorting.
From S2P Require Import Prelude MatchModel Bitmap BookHeap OrderBookDirect.
From S2P Require Import Engine BookSide EngineSpec EngineRefine EngineView.
From S2P Require Import MatchFacts EngineInv.

Local Open Scope Z_scope.

(** ** The operations as a transition system *)

Inductive op :=
| OpPlace (o : option Order.t)
| OpRestore (o : option Order.t)
| OpCancel (now : Z) (os : list (option Order.t)) (reason : CancelReason)
| OpAmend (now : Z) (original : option Order.t) (newPrice newQty : Z)
| OpSetSequence (seq : Z)
| OpSetLocalSeq (seq : Z).

(** The engine after an operation, [None] on a panic. *)
Definition exec (clock : Z → Z) (e : Engine) (c : op) : option Engine :=
  match c with
  | OpPlace o => (λ r, r.1.1) <$> PlaceOrder clock e o
  | OpRestore o => fst <$> RestoreOrder e o
  | OpCancel now os reason => (λ r, r.1.1) <$> CancelOrders now e os reason
  | OpAmend now original p q => (λ r, r.1.1) <$> AmendOrder clock now e original p q
  | OpSetSequence seq => Some (SetSequence e seq)
  | OpSetLocalSeq seq => Some (SetLocalSeq e seq)
  end.

(** What a client is expected to send: quantities within [int64], nothing
    overfilled, and new orders with something to fill. *)
Definition op_ok (c : op) : Prop :=
  match c with
  | OpPlace (Some o) => live o
  | OpRestore (Some o) => Order.quantities_ok o
  | OpAmend _ _ _ q => q ≤ MaxInt64
  | OpSetSequence seq | OpSetLocalSeq seq => uint64 seq
  | _ => True
  end.

Inductive reachable (clock : Z → Z) : Engine → Prop :=
| reach_New : reachable clock New
| reach_step e c e' : reachable clock e → op_ok c → exec clock e c = Some e' → reachable clock e'.

Lemma exec_total clock e c :
  engine_inv e → op_ok c → ∃ e', exec clock e c = Some e' ∧ engine_inv e'.
Proof.
  intros He Hc. destruct c as [o|o|now os reason|now original p q|seq|seq]; simpl in *.
  - destruct (PlaceOrder_total clock e o He) as (e' & r & err & -> & He' & _); [|by eexists].
    by intros o' ->.
  - destruct (RestoreOrder_total e o He) as (e' & err & -> & He'); [|by eexists]. by intros o' ->.
  - destruct (decide (reason = CancelReasonUnset)) as [->|Hr].
    + exists e. split; [|done]. by destruct os.
    + destruct (CancelOrders_spec now e os reason He Hr) as (e' & r & -> & He' & _). by eexists.
  - destruct (AmendOrder_total clock now e original p q He Hc) as (e' & r & err & -> & He').
    by eexists.
  - eexists. split; [done|]. destruct He. by split.
  - eexists. split; [done|]. destruct He. by split.
Qed.

Lemma reachable_inv clock e : reachable clock e → engine_inv e.
Proof.
  induction 1 as [|e c e' _ IH Hc He']; [apply New_inv|].
  destruct (exec_total clock e c IH Hc) as (e1 & E & He1). by simplify_eq.
Qed.

(** ** The two kinds of outcome *)

Section outcomes.
Context (clock : Z → Z) (order : Order.t) (V : view) (seq lseq : Z).

Local Notation sp := (fst (spec_matched clock order V seq lseq)).
Local Notation kept := (snd (spec_matched clock order V seq lseq)).
Local Notation oc := (spec_process clock order V seq lseq).
Local Notation opp := (opposite order).

(** Either nothing was matched, or the trades and the opposite side are those
    of the matching run. *)
Lemma outcome_cases :
  (oc_trades oc = [] ∧ oc_view oc opp = V opp ∧ oc_sequence oc = seq ∧ oc_localSeq oc = lseq ∧
   Order.FilledQuantity (oc_order oc) = Order.FilledQuantity order ∧
   Order.Quantity (oc_order oc) = Order.Quantity order) ∨
  (oc_trades oc = s_trades sp ∧ oc_view oc opp = kept ∧ oc_sequence oc = s_sequence sp ∧
   oc_localSeq oc = s_localSeq sp ∧
   Order.FilledQuantity (oc_order oc) = Order.FilledQuantity (s_order sp) ∧
   Order.Quantity (oc_order oc) = Order.Quantity (s_order sp)).
Proof.
  assert (Order.IsBuy (matched_order clock order V seq lseq) = Order.IsBuy order) as HB
    by apply spec_match_IsBuy.
  unfold spec_process, spec_PostOnly, spec_FOK, spec_GTCOrIOC, spec_rest.
  repeat case_match; simpl; rewrite ?HB; unfold opposite; rewrite ?set_side_neg;
    unfold matched_view, opposite; rewrite ?set_side_eq; (by left) || (by right).
Qed.

(** The own side gains the order or stays. *)
Lemma outcome_own :
  oc_view oc (Order.IsBuy order) = V (Order.IsBuy order) ∨
  ∃ o, taker_id o = taker_id order ∧
    oc_view oc (Order.IsBuy order) = enqueue (Order.IsBuy order) o (V (Order.IsBuy order)).
Proof.
  assert (Order.IsBuy (matched_order clock order V seq lseq) = Order.IsBuy order) as HB
    by apply spec_match_IsBuy.
  assert (taker_id (matched_order clock order V seq lseq) = taker_id order) as Htk
    by apply spec_match_id.
  assert (matched_view clock order V seq lseq (Order.IsBuy order) = V (Order.IsBuy order)) as Hmv.
  { unfold matched_view, opposite. unfold set_side. by destruct (Order.IsBuy order). }
  unfold spec_process, spec_PostOnly, spec_FOK, spec_GTCOrIOC, spec_rest.
  repeat case_match; simpl; rewrite ?HB, ?set_side_eq, ?Hmv; (by left) ||
    (right; eexists; split; [|reflexivity]; done).
Qed.
End outcomes.

(** The result of a placement, in terms of the specification. *)
Lemma place_result clock e o e' r err :
  engine_inv e → accepted e o → PlaceOrder clock e (Some o) = Some (e', r, err) →
  let oc := place_spec clock e o in
  err = None ∧ engine_inv e' ∧ res_Order r = Some (oc_order oc) ∧ res_Trades r = oc_trades oc ∧
  res_Affected r = oc_affected oc ∧ sequence e' = oc_sequence oc ∧ localSeq e' = oc_localSeq oc ∧
  (∀ s, view_of e' (Order.BookKey o) s = oc_view oc s) ∧
  (∀ key, key ≠ Order.BookKey o → books e' !! key = books e !! key).
Proof.
  intros He Ha E. destruct (PlaceOrder_accepted clock e o He Ha) as (e1 & snap & E1 & H).
  rewrite E1 in E. injection E as <- <- <-. naive_solver.
Qed.

Lemma incoming_static o :
  taker_id (incoming o) = taker_id o ∧ Order.FilledQuantity (incoming o) = Order.FilledQuantity o ∧
  opposite (incoming o) = opposite o.
Proof. unfold incoming. by case_bool_decide. Qed.

(** The facts of the matching run behind a placement. *)
Lemma place_facts clock e o :
  engine_inv e → accepted e o →
  let m := spec_matched clock (incoming o) (view_of e (Order.BookKey o)) (sequence e) (localSeq e) in
  run clock (Order.BookKey o) (mkSState (incoming o) (sequence e) (localSeq e) [] [] false)
    (view_of e (Order.BookKey o) (opposite o)) m.1 m.2 ∧
  run_facts (mkSState (incoming o) (sequence e) (localSeq e) [] [] false)
    (view_of e (Order.BookKey o) (opposite o)) m.1 m.2 (s_trades m.1) ∧
  view_ok (Order.BookKey o) (view_of e (Order.BookKey o)) ∧ live (incoming o).
Proof.
  intros He Ha. destruct (incoming_fields o) as (_ & EK & _ & _ & HL).
  assert (live (incoming o)) as Hl by apply HL, Ha.
  assert (view_ok (Order.BookKey (incoming o)) (view_of e (Order.BookKey o))) as Hv
    by (rewrite EK; by apply view_of_ok).
  pose proof (matched_run clock (incoming o) _ (sequence e) (localSeq e) Hv) as Hrun.
  pose proof (matched_facts clock (incoming o) _ (sequence e) (localSeq e) Hv Hl) as Hf.
  rewrite EK in *. destruct (incoming_static o) as (_ & _ & EO). rewrite EO in *. done.
Qed.

(** ** A small concrete engine, for the witnesses *)

Definition demo_order (id : string) (user : Z) (side : OrderSide) (tif : TimeInForce)
    (stp : STPStrategy) (price quantity : Z) : Order.t :=
  Order.mk id "" user 7 "yes" side OrderTypeLimit tif stp price quantity 0
    OrderStatusUnset CancelReasonUnset 0 0.

Definition demo_clock : Z → Z := λ n, 1000 + n.

(** Two asks of user 1: 10 at 40, then 5 at 45. *)
Definition demo_ask1 := demo_order "a1" 1 OrderSideSell TimeInForceGTC STPCancelTaker 40 10.
Definition demo_ask2 := demo_order "a2" 1 OrderSideSell TimeInForceGTC STPCancelTaker 45 5.

Definition demo_key : string := Order.BookKey demo_ask1.
Definition resting_new (o : Order.t) : Order.t := Order.set_Status o OrderStatusNew.

(** The engine holds exactly these orders under [demo_key]. *)
Record demo_state (e : Engine) (asks bids : list Order.t) : Prop := {
  demo_reach : reachable demo_clock e;
  demo_view : ∀ s, view_of e demo_key s = if s then bids else asks;
}.

Lemma demo_accepted e asks bids o :
  demo_state e asks bids → Order.Validate o = Ok () → Order.Type_ o = OrderTypeLimit →
  Order.BookKey o = demo_key → live o →
  Order.OrderID o ∉ Order.OrderID <$> (asks ++ bids) → accepted e o.
Proof.
  intros [Hr HV] Hv Ht Hk Hl Hn. split; try done. intros s m Hm E. apply Hn.
  rewrite <-E. apply list_elem_of_fmap_2, elem_of_app. rewrite Hk, HV in Hm.
  destruct s; [by right|by left].
Qed.

Definition demo_next (e : Engine) (o : Order.t) : Engine :=
  default New (exec demo_clock e (OpPlace (Some o))).

Lemma demo_next_state e asks bids o :
  demo_state e asks bids → accepted e o → Order.BookKey o = demo_key →
  let oc := spec_process demo_clock (incoming o) (λ s, if s then bids else asks)
              (sequence e) (localSeq e) in
  demo_state (demo_next e o) (oc_view oc false) (oc_view oc true).
Proof.
  intros [Hr HV] Ha Hk. pose proof (reachable_inv _ _ Hr) as He.
  destruct (PlaceOrder_accepted demo_clock e o He Ha) as (e' & snap & E & _ & _ & _ & HV' & _).
  unfold demo_next, exec. rewrite E. simpl. split.
  - eapply (reach_step _ e (OpPlace (Some o))); [done|apply Ha|]. unfold exec. by rewrite E.
  - intros s. rewrite <-Hk, HV'. unfold place_spec. rewrite Hk.
    destruct (spec_process_ext demo_clock (incoming o) _ _ (sequence e) (localSeq e) HV)
      as (_ & _ & _ & _ & _ & ->). by destruct s.
Qed.

Definition demo : Engine := demo_next (demo_next New demo_ask1) demo_ask2.

Lemma demo_ok : demo_state demo [resting_new demo_ask1; resting_new demo_ask2] [].
Proof.
  assert (demo_state New [] []) as H0 by (split; [constructor|by intros []]).
  assert (demo_state (demo_next New demo_ask1) [resting_new demo_ask1] []) as H1.
  { apply (demo_next_state New [] [] demo_ask1 H0); [|done].
    eapply demo_accepted; [exact H0|done|done|done|by vm_compute|set_solver]. }
  apply (demo_next_state _ _ _ demo_ask2 H1); [|done].
  eapply demo_accepted; [exact H1|done|done|done|by vm_compute|].
  by intros ?%list_elem_of_singleton.
Qed.

Lemma demo_inv : engine_inv demo.
Proof. eapply reachable_inv, demo_ok. Qed.

#[local] Opaque demo PlaceOrder.

(** Takers of user 2 against the two asks. *)
Definition demo_buy (tif : TimeInForce) (price quantity : Z) : Order.t :=
  demo_order "b1" 2 OrderSideBuy tif STPCancelTaker price quantity.

Lemma demo_buy_accepted tif price quantity :
  Order.Validate (demo_buy tif price quantity) = Ok () → live (demo_buy tif price quantity) →
  accepted demo (demo_buy tif price quantity).
Proof.
  intros Hv Hl. eapply demo_accepted; [apply demo_ok|done|done|done|done|].
  intros [?|[?|?%elem_of_nil]%elem_of_cons]%elem_of_cons; done.
Qed.

Lemma demo_total o : live o → ∃ e' r err, PlaceOrder demo_clock demo (Some o) = Some (e', r, err).
Proof.
  intros Hl. destruct (PlaceOrder_total demo_clock demo (Some o) demo_inv) as (e' & r & err & E & _).
  - by intros o' [= <-].
  - eauto.
Qed.

(** ** Panic freedom *)

(** C1: in every state the engine can reach from [New] by well-formed
    operations, every further well-formed operation (placing, restoring,
    cancelling, amending) terminates within its fuel, without a nil dereference
    or an index out of range, and leaves books that satisfy the invariant. *)
Theorem engine_never_panics clock e c :
  reachable clock e → op_ok c → ∃ e', exec clock e c = Some e' ∧ engine_inv e'.
Proof. intros He Hc. apply exec_total; [by eapply reachable_inv|done]. Qed.

Lemma engine_never_panics_witness :
  ∃ e', exec demo_clock demo (OpPlace (Some (demo_buy TimeInForceGTC 50 12))) = Some e' ∧
    engine_inv e'.
Proof. apply engine_never_panics; [apply demo_ok|by vm_compute]. Defined.

(** ** Refinement *)

(** C2: placing an accepted limit order computes exactly the price-time
    priority specification on the two priority lists of its book: the returned
    order, the trades, the affected makers, both counters and both sides
    afterwards are those of [place_spec], and no other book changes. *)
Theorem place_order_refines clock e o :
  engine_inv e → accepted e o →
  let oc := place_spec clock e o in
  ∃ e' snap, PlaceOrder clock e (Some o) =
      Some (e', mkResult (Some (oc_order oc)) (oc_affected oc) (oc_trades oc) snap, None) ∧
    sequence e' = oc_sequence oc ∧ localSeq e' = oc_localSeq oc ∧
    (∀ s, view_of e' (Order.BookKey o) s = oc_view oc s) ∧
    (∀ key, key ≠ Order.BookKey o → books e' !! key = books e !! key).
Proof.
  intros He Ha. destruct (PlaceOrder_accepted clock e o He Ha) as (e' & snap & E & _ & H).
  by exists e', snap.
Qed.

Lemma place_order_refines_witness :
  let o := demo_buy TimeInForceGTC 50 12 in
  let oc := place_spec demo_clock demo o in
  ∃ e' snap, PlaceOrder demo_clock demo (Some o) =
      Some (e', mkResult (Some (oc_order oc)) (oc_affected oc) (oc_trades oc) snap, None) ∧
    sequence e' = oc_sequence oc ∧ localSeq e' = oc_localSeq oc ∧
    (∀ s, view_of e' (Order.BookKey o) s = oc_view oc s) ∧
    (∀ key, key ≠ Order.BookKey o → books e' !! key = books demo !! key).
Proof.
  apply place_order_refines; [apply demo_inv|]. by apply demo_buy_accepted; [|vm_compute].
Defined.

(** ** Conservation *)

(** C3: quantities are conserved.  The taker's filled quantity grows by exactly
    the traded volume and never exceeds its quantity; every order still resting
    on the opposite side has grown by exactly the volume of the trades that name
    it; a maker of another user that left the book was filled completely; the
    own side only gains the order itself. *)
Theorem place_order_conserves clock e o e' r err :
  engine_inv e → accepted e o → PlaceOrder clock e (Some o) = Some (e', r, err) →
  ∃ o', res_Order r = Some o' ∧
    Order.FilledQuantity o' = Order.FilledQuantity o + volume (res_Trades r) ∧
    Order.FilledQuantity o' ≤ Order.Quantity o' ∧ Order.Quantity o' = Order.Quantity o ∧
    (∀ m', m' ∈ view_of e' (Order.BookKey o) (opposite o) →
       ∃ m, m ∈ view_of e (Order.BookKey o) (opposite o) ∧
         filled_by m m' (volume_of (Order.OrderID m) (res_Trades r))) ∧
    (∀ m, m ∈ view_of e (Order.BookKey o) (opposite o) → Order.UserID m ≠ Order.UserID o →
       Order.OrderID m ∉ Order.OrderID <$> view_of e' (Order.BookKey o) (opposite o) →
       volume_of (Order.OrderID m) (res_Trades r) = Order.RemainingQuantity m) ∧
    (∀ m', m' ∈ view_of e' (Order.BookKey o) (Order.IsBuy o) →
       m' ∈ view_of e (Order.BookKey o) (Order.IsBuy o) ∨ Order.OrderID m' = Order.OrderID o).
Proof.
  intros He Ha E. destruct (place_result _ _ _ _ _ _ He Ha E) as
    (_ & _ & -> & -> & _ & _ & _ & HV & _).
  destruct (place_facts clock e o He Ha) as (Hrun & Hf & Hv & Hl).
  destruct (incoming_static o) as (ET & EF & EO).
  pose proof (run_ok _ _ _ _ _ _ Hrun (proj1 Hl)) as Hok.
  pose proof (run_taker _ _ _ _ _ _ Hrun) as Htk. simpl in Htk.
  assert (Order.Quantity (incoming o) = Order.Quantity o ∧
    Order.UserID (incoming o) = Order.UserID o ∧ Order.OrderID (incoming o) = Order.OrderID o ∧
    Order.IsBuy (incoming o) = Order.IsBuy o) as (EQ & EU & EI & EB)
    by (unfold taker_id in ET; split_and!; congruence).
  unfold place_spec in *. rewrite !HV.
  pose proof (outcome_cases clock (incoming o) (view_of e (Order.BookKey o))
    (sequence e) (localSeq e)) as Hc. rewrite EO in Hc.
  set (oc := spec_process _ _ _ _ _) in *. eexists. split; [done|].
  assert (∀ m', m' ∈ oc_view oc (Order.IsBuy o) →
    m' ∈ view_of e (Order.BookKey o) (Order.IsBuy o) ∨ Order.OrderID m' = Order.OrderID o) as Hown.
  { destruct (outcome_own clock (incoming o) (view_of e (Order.BookKey o)) (sequence e) (localSeq e))
      as [Hs|(q & Hq & Hs)]; fold oc in Hs; rewrite EB in Hs; rewrite Hs; [by left|].
    intros m' [->|?]%elem_of_enqueue; [right|by left]. unfold taker_id in Hq. congruence. }
  destruct Hc as [(-> & -> & _ & _ & E1 & E2)|(-> & -> & _ & _ & E1 & E2)].
  - rewrite E1, E2, EF, EQ. destruct Hl as [[Hq _] _]. rewrite EF, EQ in Hq.
    split_and!; [unfold volume; simpl; lia|lia|done| | |done].
    + intros m Hm. exists m. split; [done|]. split; try done. unfold volume_of; simpl; lia.
    + intros m Hm _ []. by apply list_elem_of_fmap_2.
  - pose proof (rf_taker _ _ _ _ _ Hf) as Hft. simpl in Hft. destruct Hok as [[_ Hle] _].
    rewrite E1, E2. split_and!; [by rewrite Hft, EF|done| | | |done].
    + unfold taker_id in Htk. injection Htk as _ _ _ _ _ _ -> _. done.
    + apply Hf.
    + intros m Hm Hu. apply (rf_gone _ _ _ _ _ Hf); [done|]. simpl. by rewrite EU.
Qed.

Lemma place_order_conserves_witness :
  let o := demo_buy TimeInForceGTC 50 12 in
  ∃ e' r err, PlaceOrder demo_clock demo (Some o) = Some (e', r, err) ∧
    ∃ o', res_Order r = Some o' ∧
      Order.FilledQuantity o' = Order.FilledQuantity o + volume (res_Trades r).
Proof.
  intros o. assert (live o) as Hl by by vm_compute.
  destruct (demo_total o Hl) as (e' & r & err & E).
  exists e', r, err. split; [exact E|].
  assert (accepted demo o) as Ha by (apply demo_buy_accepted; [done|exact Hl]).
  destruct (place_order_conserves demo_clock demo o e' r err demo_inv Ha E)
    as (o' & H1 & H2 & _).
  exists o'. exact (conj H1 H2).
Defined.

(** ** Trades *)




Lemma demo_place_view o s :
  accepted demo o → Order.BookKey o = demo_key → ∀ e' r err,
  PlaceOrder demo_clock demo (Some o) = Some (e', r, err) →
  view_of e' (Order.BookKey o) s =
    oc_view (spec_process demo_clock (incoming o)
      (λ s, if s then [] else [resting_new demo_ask1; resting_new demo_ask2])
      (sequence demo) (localSeq demo)) s.
Proof.
  intros Ha Hk e' r err E.
  destruct (place_result _ _ _ _ _ _ demo_inv Ha E) as (_ & _ & _ & _ & _ & _ & _ & HV & _).
  rewrite HV. unfold place_spec. rewrite Hk.
  apply (spec_process_ext demo_clock (incoming o) _ _ (sequence demo) (localSeq demo)
    (demo_view _ _ _ demo_ok)).
Qed.


(** ** Time in force *)

(** Matching on behalf of a placement that finds enough is not stopped by
    self-trade prevention when fill-or-kill promised it. *)
Lemma spec_FOK_filled clock order V seq lseq :
  view_ok (Order.BookKey order) V → live order →
  (stp_enabled order = true ∨ Forall (λ m, Order.UserID m ≠ Order.UserID order) (V (opposite order))) →
  spec_fok order (V (opposite order)) = true →
  Order.RemainingQuantity (matched_order clock order V seq lseq) = 0.
Proof.
  intros HV Hl Hown Hf. unfold spec_fok in Hf.
  destruct (fok_walk order (V (opposite order)) (Order.RemainingQuantity order)) as [z|] eqn:Ew;
    [|done]. apply Z.eqb_eq in Hf as ->.
  pose proof (matched_run clock order V seq lseq HV) as Hrun.
  destruct (run_fok _ _ order _ _ _ _ Hrun) as [H _]; try done. apply Hl.
Qed.

(** Fill-or-kill is all or nothing.  When the taker uses one of the three
    self-trade-prevention strategies, or has no resting order of its own on the
    opposite side, a fill-or-kill order is either filled completely or cancelled
    with [FOK_NOT_FILLED], no trade and no change to either side. *)
Theorem fok_all_or_nothing clock e o e' r err :
  engine_inv e → accepted e o → Order.TIF o = TimeInForceFOK →
  stp_enabled o = true ∨
    Forall (λ m, Order.UserID m ≠ Order.UserID o) (view_of e (Order.BookKey o) (opposite o)) →
  PlaceOrder clock e (Some o) = Some (e', r, err) →
  ∃ o', res_Order r = Some o' ∧
    ((Order.RemainingQuantity o' = 0 ∧ volume (res_Trades r) = Order.RemainingQuantity o) ∨
     (o' = Order.Cancel (incoming o) CancelReasonFOKNotFilled ∧ res_Trades r = [] ∧
      ∀ s, view_of e' (Order.BookKey o) s = view_of e (Order.BookKey o) s)).
Proof.
  intros He Ha Htif Hown E.
  destruct (place_result _ _ _ _ _ _ He Ha E) as (_ & _ & -> & -> & _ & _ & _ & HV & _).
  destruct (place_facts clock e o He Ha) as (Hrun & Hf & Hv & Hl).
  destruct (incoming_static o) as (ET & EF & EO).
  assert (Order.TIF (incoming o) = TimeInForceFOK ∧ Order.UserID (incoming o) = Order.UserID o ∧
    stp_enabled (incoming o) = stp_enabled o ∧ Order.Quantity (incoming o) = Order.Quantity o)
    as (EI & EU & ES & EQ).
  { unfold taker_id, stp_enabled in *. injection ET as _ -> _ -> _ -> -> _. done. }
  assert (Order.BookKey (incoming o) = Order.BookKey o) as EK by apply incoming_fields.
  eexists. split; [done|]. unfold place_spec, spec_process, spec_FOK in *. rewrite EI in *.
  destruct (_ && _) eqn:Hc; [left|by right].
  apply andb_true_iff in Hc as [_ Hc]. cbn [oc_order oc_trades with_trades].
  assert (Order.RemainingQuantity (matched_order clock (incoming o) (view_of e (Order.BookKey o))
    (sequence e) (localSeq e)) = 0) as H0.
  { apply spec_FOK_filled; [by rewrite EK|done| |done]. by rewrite ES, EU, EO. }
  split; [done|]. pose proof (run_ok _ _ _ _ _ _ Hrun (proj1 Hl)) as Hok.
  pose proof (rf_taker _ _ _ _ _ Hf) as Hft. pose proof (run_taker _ _ _ _ _ _ Hrun) as Htk.
  unfold matched_order in H0. rewrite Order.RemainingQuantity_ok in H0 by done.
  assert (Order.quantities_ok o) as Ho by apply Ha. rewrite Order.RemainingQuantity_ok by done.
  simpl in Hft, Htk. unfold taker_id in Htk. injection Htk as _ _ _ _ _ _ EQ' _. lia.
Qed.

Lemma fok_all_or_nothing_witness :
  let o := demo_buy TimeInForceFOK 50 12 in
  ∃ e' r err, PlaceOrder demo_clock demo (Some o) = Some (e', r, err) ∧
  ∃ o', res_Order r = Some o' ∧
    ((Order.RemainingQuantity o' = 0 ∧ volume (res_Trades r) = Order.RemainingQuantity o) ∨
     (o' = Order.Cancel (incoming o) CancelReasonFOKNotFilled ∧ res_Trades r = [] ∧
      ∀ s, view_of e' (Order.BookKey o) s = view_of demo (Order.BookKey o) s)).
Proof.
  intros o. assert (live o) as Hl by by vm_compute.
  destruct (demo_total o Hl) as (e' & r & err & E).
  exists e', r, err. split; [exact E|].
  assert (accepted demo o) as Ha by (apply demo_buy_accepted; [done|exact Hl]).
  exact (fok_all_or_nothing demo_clock demo o e' r err demo_inv Ha eq_refl (or_introl eq_refl) E).
Defined.

(** An immediate-or-cancel order never rests: its own side is unchanged and
    what is left of it is cancelled. *)
Theorem ioc_never_rests clock e o e' r err :
  engine_inv e → accepted e o → Order.TIF o = TimeInForceIOC →
  PlaceOrder clock e (Some o) = Some (e', r, err) →
  view_of e' (Order.BookKey o) (Order.IsBuy o) = view_of e (Order.BookKey o) (Order.IsBuy o) ∧
  ∃ o', res_Order r = Some o' ∧
    (Order.RemainingQuantity o' = 0 ∨ Order.Status o' = OrderStatusCancelled).
Proof.
  intros He Ha Htif E.
  destruct (place_result _ _ _ _ _ _ He Ha E) as (_ & _ & -> & _ & _ & _ & _ & HV & _).
  destruct (incoming_static o) as (ET & EF & EO). rewrite HV.
  assert (Order.TIF (incoming o) = TimeInForceIOC) as EI by (unfold taker_id in ET; congruence).
  unfold place_spec, spec_process, spec_GTCOrIOC. rewrite EI.
  set (o' := matched_order _ _ _ _ _).
  assert (Order.TIF o' = TimeInForceIOC) as ->.
  { assert (taker_id o' = taker_id (incoming o)) as Ht by apply spec_match_id.
    unfold taker_id in Ht. congruence. }
  rewrite (bool_decide_eq_true_2 (TimeInForceIOC = _)) by done.
  assert (matched_view clock (incoming o) (view_of e (Order.BookKey o)) (sequence e) (localSeq e)
    (Order.IsBuy o) = view_of e (Order.BookKey o) (Order.IsBuy o)) as Hmv.
  { unfold matched_view, set_side. rewrite EO. unfold opposite. by destruct (Order.IsBuy o). }
  destruct ((Order.RemainingQuantity o' =? 0) || _) eqn:Hd; cbn [oc_view oc_order with_trades];
    (split; [done|]; eexists; split; [done|]).
  - apply orb_true_iff in Hd as [?%Z.eqb_eq|?%bool_decide_eq_true]; auto.
  - by right.
Qed.

Lemma ioc_never_rests_witness :
  let o := demo_buy TimeInForceIOC 42 30 in
  ∃ e' r err, PlaceOrder demo_clock demo (Some o) = Some (e', r, err) ∧
  view_of e' (Order.BookKey o) (Order.IsBuy o) = view_of demo (Order.BookKey o) (Order.IsBuy o) ∧
  ∃ o', res_Order r = Some o' ∧
    (Order.RemainingQuantity o' = 0 ∨ Order.Status o' = OrderStatusCancelled).
Proof.
  intros o. assert (live o) as Hl by by vm_compute.
  destruct (demo_total o Hl) as (e' & r & err & E).
  exists e', r, err. split; [exact E|].
  assert (accepted demo o) as Ha by (apply demo_buy_accepted; [done|exact Hl]).
  exact (ioc_never_rests demo_clock demo o e' r err demo_inv Ha eq_refl E).
Defined.

(** A post-only order never trades: it is cancelled with [POST_ONLY_CROSS]
    when some opposite order is within its limit, and queues unchanged behind its
    price otherwise. *)
Theorem post_only_never_trades clock e o e' r err :
  engine_inv e → accepted e o → Order.TIF o = TimeInForcePostOnly →
  PlaceOrder clock e (Some o) = Some (e', r, err) →
  let V := view_of e (Order.BookKey o) in
  res_Trades r = [] ∧ view_of e' (Order.BookKey o) (opposite o) = V (opposite o) ∧
  ((∃ m, m ∈ V (opposite o) ∧ crosses o (Order.Price m) = true) ∧
     res_Order r = Some (Order.Cancel (incoming o) CancelReasonPostOnlyCross) ∧
     view_of e' (Order.BookKey o) (Order.IsBuy o) = V (Order.IsBuy o) ∨
   (∀ m, m ∈ V (opposite o) → crosses o (Order.Price m) = false) ∧
     res_Order r = Some (Order.set_Status (incoming o) OrderStatusNew) ∧
     view_of e' (Order.BookKey o) (Order.IsBuy o) =
       enqueue (Order.IsBuy o) (incoming o) (V (Order.IsBuy o))).
Proof.
  intros He Ha Htif E V.
  destruct (place_result _ _ _ _ _ _ He Ha E) as (_ & _ & -> & -> & _ & _ & _ & HV & _).
  destruct (incoming_static o) as (ET & EF & EO). rewrite !HV.
  assert (Order.TIF (incoming o) = TimeInForcePostOnly ∧ Order.IsBuy (incoming o) = Order.IsBuy o)
    as [EI EB] by (unfold taker_id in ET; split; congruence).
  assert (∀ p, crosses (incoming o) p = crosses o p) as EC by (intros p; by apply taker_id_crosses).
  unfold place_spec, spec_process, spec_PostOnly, spec_cross, spec_rest. rewrite EI, EO, EB.
  fold V. destruct (existsb _ (V (opposite o))) eqn:Hc; cbn [oc_trades oc_view oc_order without_trades];
    unfold opposite; rewrite ?set_side_eq, ?set_side_neg; (split_and!; [done|done|]).
  - left. split_and!; try done. apply existsb_exists in Hc as (m & Hm%list_elem_of_In & Hcr).
    exists m. by rewrite <-EC.
  - right. split_and!; try done. intros m Hm. rewrite <-EC. apply Bool.not_true_is_false.
    intros Hcr. assert (existsb (λ m, crosses (incoming o) (Order.Price m)) (V (opposite o)) = true)
      as Ht; [|congruence]. apply existsb_exists. exists m. by rewrite <-list_elem_of_In.
Qed.

Lemma post_only_never_trades_witness :
  let o := demo_buy TimeInForcePostOnly 42 30 in
  ∃ e' r err, PlaceOrder demo_clock demo (Some o) = Some (e', r, err) ∧ res_Trades r = [].
Proof.
  intros o. assert (live o) as Hl by by vm_compute.
  destruct (demo_total o Hl) as (e' & r & err & E).
  exists e', r, err. split; [exact E|].
  assert (accepted demo o) as Ha by (apply demo_buy_accepted; [done|exact Hl]).
  exact (proj1 (post_only_never_trades demo_clock demo o e' r err demo_inv Ha eq_refl E)).
Defined.

(** ** The book between operations

    The uncrossed-book invariant, trade numbering, cancel, restore, amend,
    snapshots and rejections. *)

#[local] Opaque demo PlaceOrder.

(** ** Uncrossed books *)

(** Every bid is strictly below every ask. *)
Definition uncrossed (V : view) : Prop :=
  ∀ b a, b ∈ V true → a ∈ V false → Order.Price b < Order.Price a.

(** The same, from the point of view of one side. *)
Lemma uncrossed_sided V s :
  uncrossed V ↔ ∀ x y, x ∈ V s → y ∈ V (negb s) →
    if s then Order.Price x < Order.Price y else Order.Price y < Order.Price x.
Proof. unfold uncrossed. destruct s; simpl; naive_solver. Qed.

Lemma crosses_false o p :
  crosses o p = false ↔ if Order.IsBuy o then Order.Price o < p else p < Order.Price o.
Proof. unfold crosses. destruct (Order.IsBuy o); rewrite Z.leb_gt; lia. Qed.

(** Resting an order that crosses nothing keeps the book uncrossed. *)
Lemma spec_rest_uncrossed o V :
  uncrossed V → (∀ m, m ∈ V (opposite o) → crosses o (Order.Price m) = false) →
  uncrossed (spec_rest o V).
Proof.
  intros HV Hc. apply (uncrossed_sided _ (Order.IsBuy o)). unfold spec_rest.
  rewrite set_side_eq, set_side_neg. intros x y [->|Hx]%elem_of_enqueue Hy.
  - apply crosses_false. by apply Hc.
  - by apply (uncrossed_sided V (Order.IsBuy o)).
Qed.

(** Matching keeps only orders that were there. *)
Lemma matched_view_uncrossed clock order V seq lseq :
  view_ok (Order.BookKey order) V → live order → uncrossed V →
  uncrossed (matched_view clock order V seq lseq).
Proof.
  intros Hv Hl HV. pose proof (matched_facts clock order V seq lseq Hv Hl) as Hf.
  apply (uncrossed_sided _ (opposite order)). unfold matched_view.
  rewrite set_side_eq, set_side_neg. intros x y Hx Hy.
  destruct (rf_kept _ _ _ _ _ Hf x Hx) as (m & Hm & Hfb). rewrite (fb_price _ _ _ Hfb).
  by apply (uncrossed_sided V (opposite order)).
Qed.

Lemma spec_process_uncrossed clock order V seq lseq :
  view_ok (Order.BookKey order) V → live order → Order.Status order ≠ OrderStatusCancelled →
  uncrossed V →
  (stp_enabled order = true ∨ Forall (λ m, Order.UserID m ≠ Order.UserID order) (V (opposite order))) →
  uncrossed (oc_view (spec_process clock order V seq lseq)).
Proof.
  intros Hv Hl Hst HV Hown.
  pose proof (matched_view_uncrossed clock order V seq lseq Hv Hl HV) as Hmv.
  pose proof (matched_run clock order V seq lseq Hv) as Hrun.
  pose proof (matched_facts clock order V seq lseq Hv Hl) as Hf.
  assert (taker_id (matched_order clock order V seq lseq) = taker_id order) as Htk
    by apply spec_match_id.
  unfold spec_process, spec_PostOnly, spec_FOK.
  assert (uncrossed (oc_view (spec_GTCOrIOC clock order V seq lseq))) as HG.
  { unfold spec_GTCOrIOC. set (o := matched_order clock order V seq lseq) in *.
    destruct ((Order.RemainingQuantity o =? 0) || _) eqn:Hd; [exact Hmv|]. destruct (bool_decide (Order.TIF o = TimeInForceIOC)); [exact Hmv|].
    apply orb_false_iff in Hd as [Hrem%Z.eqb_neq Hnc%bool_decide_eq_false].
    apply spec_rest_uncrossed; [done|]. intros m.
    assert (opposite o = opposite order) as EO by (unfold taker_id, opposite in *; congruence).
    rewrite EO. unfold matched_view. rewrite set_side_eq. intros Hm.
    rewrite (taker_id_crosses _ _ _ Htk).
    destruct (crosses order (Order.Price m)) eqn:Hc; [|done]. exfalso.
    assert (spec_wants (spec_matched clock order V seq lseq).1 = true) as Hw.
    { apply spec_wants_remaining. split.
      - pose proof (Order.RemainingQuantity_nonneg o). unfold o, matched_order in *. lia.
      - destruct (s_takerDone _) eqn:Hdone; [|done]. destruct Hnc.
        by apply (run_done _ _ _ _ _ _ Hrun). }
    destruct (run_uncrossed _ _ _ _ _ _ Hrun Hw (proj1 Hl) (proj2 (proj2 (Hv (opposite order)))) m Hm Hc)
      as [Hu Hs]. simpl in *. destruct Hown as [Hs'|Hown]; [congruence|].
    destruct (rf_kept _ _ _ _ _ Hf m Hm) as (m0 & Hm0 & Hfb).
    rewrite Forall_forall in Hown. apply (Hown m0 Hm0). by rewrite <-(fb_user _ _ _ Hfb). }
  destruct (Order.TIF order); try done.
  - by destruct (_ && _).
  - destruct (spec_cross order V) eqn:Hc; [done|]. apply spec_rest_uncrossed; [done|].
    intros m Hm. apply Bool.not_true_is_false. intros Hcr. unfold spec_cross in Hc.
    assert (existsb (λ m, crosses order (Order.Price m)) (V (opposite order)) = true) as Ht;
      [|congruence]. apply existsb_exists. exists m. by rewrite <-list_elem_of_In.
Qed.



(** ** Trade numbering *)

(** Trades are numbered without gaps.  The global sequence and the local
    sequence advance by the number of trades, the i-th trade carries the i-th
    new sequence number and the deterministic identifier of the i-th new local
    number. *)
Theorem trades_numbered clock e o e' r err :
  engine_inv e → accepted e o → PlaceOrder clock e (Some o) = Some (e', r, err) →
  numbered (Order.BookKey o) (sequence e) (localSeq e) (res_Trades r) (sequence e') (localSeq e').
Proof.
  intros He Ha E. destruct (place_result _ _ _ _ _ _ He Ha E) as
    (_ & _ & _ & -> & _ & -> & -> & _). destruct He as [Hb H1 H2].
  destruct (place_facts clock e o ltac:(by split) Ha) as (Hrun & _). unfold place_spec.
  destruct (outcome_cases clock (incoming o) (view_of e (Order.BookKey o)) (sequence e) (localSeq e))
    as [(-> & _ & -> & -> & _)|(-> & _ & -> & -> & _)].
  - by apply numbered_nil.
  - by apply (run_numbered _ _ _ _ _ _ Hrun H1 H2).
Qed.

Lemma trades_numbered_witness :
  let o := demo_buy TimeInForceGTC 50 12 in
  ∃ e' r err, PlaceOrder demo_clock demo (Some o) = Some (e', r, err) ∧
    numbered (Order.BookKey o) (sequence demo) (localSeq demo) (res_Trades r)
      (sequence e') (localSeq e').
Proof.
  intros o. assert (live o) as Hl by by vm_compute.
  destruct (demo_total o Hl) as (e' & r & err & E).
  exists e', r, err. split; [exact E|].
  assert (accepted demo o) as Ha by (apply demo_buy_accepted; [done|exact Hl]).
  exact (trades_numbered demo_clock demo o e' r err demo_inv Ha E).
Defined.

(** ** Cancelling, restoring, amending *)

(** Cancelling a batch removes exactly the named resting orders from their
    books, keeps the priority of the others, reports one cancelled copy (status,
    reason, time) of each of them and nothing else, and moves no counter. *)
Theorem cancel_orders_exact now e orders reason :
  engine_inv e → reason ≠ CancelReasonUnset →
  ∃ e' r, CancelOrders now e orders reason = Some (e', r, None) ∧
    sequence e' = sequence e ∧ localSeq e' = localSeq e ∧
    (∀ key s, view_of e' key s = filter (λ o, named orders o = false) (view_of e key s)) ∧
    (∀ k, k ∈ cancel_Orders r ↔ ∃ key s o, o ∈ view_of e key s ∧ named orders o = true ∧
       k = cancel_copy reason now o).
Proof.
  intros He Hr. destruct (CancelOrders_spec now e orders reason He Hr) as (e' & r & E & _ & H).
  by exists e', r.
Qed.

Lemma cancel_orders_exact_witness :
  ∃ e' r, CancelOrders 5 demo [Some demo_ask1] CancelReasonMarketClosed = Some (e', r, None) ∧
    view_of e' demo_key false = [resting_new demo_ask2].
Proof.
  destruct (cancel_orders_exact 5 demo [Some demo_ask1] CancelReasonMarketClosed demo_inv)
    as (e' & r & E & _ & _ & HV & _); [done|].
  exists e', r. split; [exact E|]. rewrite HV, (demo_view _ _ _ demo_ok false). by vm_compute.
Defined.

(** Restoring a live order queues it behind the orders already at its price
    and changes nothing else; placement and restore agree on where an order
    rests. *)
Theorem restore_order_queues e o :
  engine_inv e → accepted e o →
  ∃ e', RestoreOrder e (Some o) = Some (e', None) ∧
    (∀ s, view_of e' (Order.BookKey o) s = spec_rest (restored o) (view_of e (Order.BookKey o)) s) ∧
    (∀ key, key ≠ Order.BookKey o → books e' !! key = books e !! key).
Proof.
  intros He Ha. destruct (RestoreOrder_accepted e o He Ha) as (e' & E & _ & H). by exists e'.
Qed.

Lemma restore_order_queues_witness :
  let o := demo_buy TimeInForceGTC 30 3 in
  ∃ e', RestoreOrder demo (Some o) = Some (e', None).
Proof.
  intros o. assert (accepted demo o) as Ha by (apply demo_buy_accepted; [done|by vm_compute]).
  destruct (restore_order_queues demo o demo_inv Ha) as (e' & E & _). by exists e'.
Defined.

(** Amending a resting order cancels it and places the amended copy: the
    result is that of [PlaceOrder] on the book without it, with the cancelled
    original first among the affected orders. *)
Theorem amend_is_cancel_place clock now e original newPrice newQty s o :
  engine_inv e → o ∈ view_of e (Order.BookKey original) s →
  Order.OrderID o = Order.OrderID original →
  let copy := cancel_copy CancelReasonAmended now o in
  ∃ e1, engine_inv e1 ∧ sequence e1 = sequence e ∧ localSeq e1 = localSeq e ∧
    (∀ key s, view_of e1 key s = filter (λ m, names (Some original) m = false) (view_of e key s)) ∧
    AmendOrder clock now e (Some original) newPrice newQty =
      '(e', r, err) ← PlaceOrder clock e1 (Some (amended newPrice newQty copy));
      Some (e', mkResult (res_Order r) (copy :: res_Affected r) (res_Trades r) (res_Book r), err).
Proof. apply AmendOrder_spec. Qed.

Lemma amend_is_cancel_place_witness :
  ∃ e1 : Engine, AmendOrder demo_clock 9 demo (Some demo_ask1) 41 0 =
    '(e', r, err) ← PlaceOrder demo_clock e1
        (Some (amended 41 0 (cancel_copy CancelReasonAmended 9 (resting_new demo_ask1))));
    Some (e', mkResult (res_Order r)
      (cancel_copy CancelReasonAmended 9 (resting_new demo_ask1) :: res_Affected r)
      (res_Trades r) (res_Book r), err).
Proof.
  destruct (amend_is_cancel_place demo_clock 9 demo demo_ask1 41 0 false (resting_new demo_ask1) demo_inv)
    as (e1 & _ & _ & _ & _ & E).
  - pose proof (demo_view _ _ _ demo_ok false) as Hv. unfold demo_key in Hv. rewrite Hv. left.
  - reflexivity.
  - exists e1. exact E.
Defined.

(** ** Behaviours that differ from what the code says it does

    Concrete runs of the modelled engine, evaluated by the kernel.  Each shows a
    divergence between the code and a comment beside it, or a result its caller
    cannot want. *)

(** Places a list of orders on a new engine; the last result. *)
Definition scenario (os : list Order.t) : option (Engine * Result) :=
  fold_left
    (λ acc o, '(e, _) ← acc; '(e, r, _) ← PlaceOrder demo_clock e (Some o); Some (e, r))
    os (Some (New, zero_result)).

(** The depth of a partially filled level still shows the quantity it had when
    its orders were added: [Bucket.Volume] is not lowered by a fill.  Six are
    left, the snapshot says ten. *)
Theorem depth_overstates_after_fill :
  ('(e, r) ← scenario [demo_ask1; demo_buy TimeInForceGTC 40 4];
   Some (snap_Asks (res_Book r), Order.RemainingQuantity <$> view_of e demo_key false)) =
  Some ([mkBookLevel 40 10], [6]).
Proof. vm_compute. reflexivity. Qed.

(** Without self-trade prevention the fill-or-kill simulation counts the taker's
    own resting order, which matching then skips: the order is filled in part,
    and neither cancelled nor resting. *)
Theorem fok_partial_without_stp :
  ('(e, r) ← scenario
     [demo_order "own" 2 OrderSideSell TimeInForceGTC STPNone 40 5;
      demo_order "other" 1 OrderSideSell TimeInForceGTC STPNone 41 5;
      demo_order "fok" 2 OrderSideBuy TimeInForceFOK STPNone 50 8];
   o ← res_Order r;
   Some (Order.Status o, Order.RemainingQuantity o, view_of e demo_key true)) =
  Some (OrderStatusPartiallyFilled, 3, []).
Proof. vm_compute. reflexivity. Qed.

(** [STPNone] is documented as allowing a self trade; the engine skips the own
    order instead and then rests the taker through it: the book is crossed,
    the best bid above the best ask. *)
Theorem stp_none_crosses_book :
  ('(e, r) ← scenario
     [demo_order "own" 2 OrderSideSell TimeInForceGTC STPNone 40 5;
      demo_order "buy" 2 OrderSideBuy TimeInForceGTC STPNone 50 5];
   Some (res_Trades r, snap_BestBid (res_Book r), snap_BestAsk (res_Book r))) =
  Some ([], 50, 40).
Proof. vm_compute. reflexivity. Qed.

(** Amending only the price of a partially filled order puts its full original
    quantity back on the book: four of ten were filled, ten rest again. *)
Theorem amend_restores_filled_quantity :
  ('(e, _) ← scenario [demo_ask1; demo_buy TimeInForceGTC 40 4];
   '(e, r, err) ← AmendOrder demo_clock 5 e (Some demo_ask1) 41 0;
   Some (err, Order.RemainingQuantity <$> view_of e demo_key false)) =
  Some (None, [10]).
Proof. vm_compute. reflexivity. Qed.

(** An amendment whose new price is out of range fails after the original was
    already cancelled: the order is gone and the caller gets an error. *)
Theorem amend_failure_loses_order :
  ('(e, _) ← scenario [demo_ask1];
   '(e, r, err) ← AmendOrder demo_clock 5 e (Some demo_ask1) 10000 0;
   Some (err, view_of e demo_key false)) =
  Some (Some ErrPriceOutOfRange, []).
Proof. vm_compute. reflexivity. Qed.
