(* ===== verification/SortedBook.v ===== *)
(** * Matching: the sorted-slice order book of [order_book.go]

    The other implementation of the [Book] interface ([book_interface.go]): per
    side a slice of price levels kept sorted by binary search, per level a slice
    of orders in arrival order ([depth_level.go]), and a map of the resting orders.
    [sort.Search] is written out as the library's binary search. *)

From stdpp Require Import sorting.
From S2P Require Import Prelude MatchModel.

Local Open Scope Z_scope.
Local Open Scope go_scope.

Module DepthLevel.
Record t := mk { Price : Z; Orders : list Order.t }.
Definition Append (l : t) (order : Order.t) : t := mk (Price l) (Orders l ++ [order]).
Definition IsEmpty (l : t) : bool := bool_decide (Orders l = []).
Definition TotalQuantity (l : t) : Z :=
  fold_left (λ total order, total ⊞ Order.RemainingQuantity order) (Orders l) 0.
End DepthLevel.

(** [sort.Search(n, f)]: the smallest index of [0..n) at which [f] holds, [n] if
    there is none, for an [f] that is false and then true.  [fuel] is at least the
    length of the interval. *)
Fixpoint search_loop (fuel : nat) (f : nat → bool) (i j : nat) : nat :=
  match fuel with
  | O => i
  | S fuel =>
      if (i <? j)%nat then
        let h := Nat.div2 (i + j) in
        if f h then search_loop fuel f i h else search_loop fuel f (h + 1) j
      else i
  end.
Definition sort_Search (n : nat) (f : nat → bool) : nat := search_loop n f 0 n.

(** [aggregateLevels]: the first [limit] levels, those with no quantity skipped. *)
Definition aggregateLevels (levels : list DepthLevel.t) (limit : nat) : list BookLevel :=
  let levels := take (if (length levels <? limit)%nat then length levels else limit) levels in
  omap (λ l, let qty := DepthLevel.TotalQuantity l in
             if qty <=? 0 then None else Some (mkBookLevel (DepthLevel.Price l) qty)) levels.

Module OrderBook.
Record t := mk {
  Key : string;
  Bids : list DepthLevel.t;
  Asks : list DepthLevel.t;
  OrderMap : gmap string Order.t;
}.

Definition NewOrderBook (key : string) : t := mk key [] [] ∅.

Definition HasOrder (b : t) (orderID : string) : bool :=
  bool_decide (is_Some (OrderMap b !! orderID)).

(** [bookFor], as the levels of a side and their update. *)
Definition levels (b : t) (isBuy : bool) : list DepthLevel.t := if isBuy then Bids b else Asks b.
Definition set_levels (b : t) (isBuy : bool) (ls : list DepthLevel.t) : t :=
  if isBuy then mk (Key b) ls (Asks b) (OrderMap b) else mk (Key b) (Bids b) ls (OrderMap b).
Definition set_map (b : t) (m : gmap string Order.t) : t := mk (Key b) (Bids b) (Asks b) m.

Fixpoint level_index (ls : list DepthLevel.t) (price : Z) : option nat :=
  match ls with
  | [] => None
  | l :: ls => if DepthLevel.Price l =? price then Some 0%nat else S <$> level_index ls price
  end.
Definition findLevelIndex (b : t) (price : Z) (isBuy : bool) : option nat :=
  level_index (levels b isBuy) price.

Definition findOrInsertLevel (b : t) (price : Z) (isBuy : bool) : t * nat :=
  match findLevelIndex b price isBuy with
  | Some idx => (b, idx)
  | None =>
      let book := levels b isBuy in
      let insertAt := sort_Search (length book) (λ i,
        match book !! i with
        | Some l => if isBuy then DepthLevel.Price l <=? price else price <=? DepthLevel.Price l
        | None => true
        end) in
      (set_levels b isBuy (take insertAt book ++ DepthLevel.mk price [] :: drop insertAt book),
       insertAt)
  end.

Definition AddOrder (b : t) (order : Order.t) : option t :=
  let isBuy := Order.IsBuy order in
  let '(b, idx) := findOrInsertLevel b (Order.Price order) isBuy in
  level ← levels b isBuy !! idx;
  let b := set_levels b isBuy (<[idx := DepthLevel.Append level order]> (levels b isBuy)) in
  Some (set_map b (<[Order.OrderID order := order]> (OrderMap b))).

(** The loop of [RemoveOrder]: the first level of that price only. *)
Fixpoint remove_from_levels (ls : list DepthLevel.t) (price : Z) (orderID : string)
    : list DepthLevel.t :=
  match ls with
  | [] => []
  | l :: ls =>
      if negb (DepthLevel.Price l =? price) then l :: remove_from_levels ls price orderID
      else
        let l := DepthLevel.mk (DepthLevel.Price l)
          (filter (λ c, Order.OrderID c ≠ orderID) (DepthLevel.Orders l)) in
        if DepthLevel.IsEmpty l then ls else l :: ls
  end.

Definition RemoveOrder (b : t) (order : Order.t) : t :=
  let isBuy := Order.IsBuy order in
  let b := set_levels b isBuy
    (remove_from_levels (levels b isBuy) (Order.Price order) (Order.OrderID order)) in
  set_map b (delete (Order.OrderID order) (OrderMap b)).

Definition RemoveFromMap (b : t) (orderID : string) : t := set_map b (delete orderID (OrderMap b)).

Definition BestBidPrice (b : t) : option Z := DepthLevel.Price <$> head (Bids b).
Definition BestAskPrice (b : t) : option Z := DepthLevel.Price <$> head (Asks b).

Definition IsCross (b : t) (order : Order.t) : bool :=
  if Order.IsBuy order then
    match BestAskPrice b with Some best => best <=? Order.Price order | None => false end
  else
    match BestBidPrice b with Some best => Order.Price order <=? best | None => false end.

Definition IsCrossWithPrice (order : Order.t) (price : Z) : bool :=
  if Order.IsBuy order then price <=? Order.Price order else Order.Price order <=? price.

Definition OppositeLevels (b : t) (order : Order.t) : list DepthLevel.t :=
  if Order.IsBuy order then Asks b else Bids b.
Definition SetOppositeLevels (b : t) (order : Order.t) (ls : list DepthLevel.t) : t :=
  if Order.IsBuy order then mk (Key b) (Bids b) ls (OrderMap b)
  else mk (Key b) ls (Asks b) (OrderMap b).

Definition OrderCount (b : t) : Z := Z.of_nat (size (OrderMap b)).

Definition Snapshot (b : t) (limit : Z) : BookSnapshot :=
  let limit := Z.to_nat (if limit <=? 0 then 5 else limit) in
  let '(marketID, outcome) := default (0, "") (parseBookKey (Key b)) in
  mkBookSnapshot (Key b) marketID outcome (aggregateLevels (Bids b) limit)
    (aggregateLevels (Asks b) limit) (default 0 (BestBidPrice b)) (default 0 (BestAskPrice b)).
End OrderBook.

(** ** Binary search *)

Lemma search_loop_spec fuel f n i j :
  (j - i ≤ fuel)%nat → (i ≤ j ≤ n)%nat →
  (∀ k l, (k ≤ l < n)%nat → f k = true → f l = true) →
  (∀ k, (k < i)%nat → f k = false) → (∀ k, (j ≤ k < n)%nat → f k = true) →
  let r := search_loop fuel f i j in
  (r ≤ n)%nat ∧ (∀ k, (k < r)%nat → f k = false) ∧ (∀ k, (r ≤ k < n)%nat → f k = true).
Proof.
  intros Hf Hij Hmono. revert i j Hf Hij.
  induction fuel as [|fuel IH]; intros i j Hf Hij Hlo Hhi; cbn [search_loop].
  { assert (i = j) as -> by lia. split_and!; [lia|done|done]. }
  destruct (Nat.ltb_spec i j) as [Hlt|]; [|assert (i = j) as -> by lia; split_and!; [lia|done|done]].
  set (h := Nat.div2 (i + j)).
  assert (i ≤ h < j)%nat as Hh.
  { unfold h. rewrite Nat.div2_div. split; [apply Nat.div_le_lower_bound; lia|].
    apply Nat.Div0.div_lt_upper_bound; lia. }
  destruct (f h) eqn:Efh.
  - apply IH; [lia|lia|done|]. intros k Hk. apply (Hmono h k); [lia|done].
  - apply IH; [lia|lia| |done]. intros k Hk.
    destruct (f k) eqn:Efk; [|done]. rewrite (Hmono k h) in Efh; [done|lia|done].
Qed.

Lemma sort_Search_spec n f :
  (∀ k l, (k ≤ l < n)%nat → f k = true → f l = true) →
  let r := sort_Search n f in
  (r ≤ n)%nat ∧ (∀ k, (k < r)%nat → f k = false) ∧ (∀ k, (r ≤ k < n)%nat → f k = true).
Proof. intros H. apply search_loop_spec; [lia|lia|done|lia|lia]. Qed.
