(* ===== verification/BookInterface.v ===== *)
(** * Matching: the [Book] interface and its two implementations

    [book_interface.go] names what the sorted-slice book and the array-indexed book
    have in common.  [Book] is that interface, [BookLaws] what it promises in terms
    of the two priority lists of a book; both implementations satisfy the laws, and
    anything that is proved from the laws holds of both.  In particular the two
    cannot be told apart. *)

From stdpp Require Import sorting.
From S2P Require Import Prelude MatchModel Bitmap BookHeap OrderBookDirect.
From S2P Require Import Engine BookSide EngineSpec EngineRefine EngineView.
From S2P Require Import EngineInv SortedBook.

Local Open Scope Z_scope.

(** [AddOrder] and [RemoveOrder] return [None] for a panic. *)
Class Book (B : Type) := {
  book_HasOrder : B → string → bool;
  book_AddOrder : B → Order.t → option B;
  book_RemoveOrder : B → Order.t → option B;
  book_BestBidPrice : B → option Z;
  book_BestAskPrice : B → option Z;
  book_IsCross : B → Order.t → bool;
  book_OrderCount : B → Z;
}.

(** The order a removal names is the resting one, if any: same side, same price. *)
Definition same_place (V : bool → list Order.t) (o : Order.t) : Prop :=
  ∀ s m, m ∈ V s → Order.OrderID m = Order.OrderID o → s = Order.IsBuy o ∧ Order.Price m = Order.Price o.

Definition unknown (V : bool → list Order.t) (id : string) : Prop :=
  ∀ s m, m ∈ V s → Order.OrderID m ≠ id.

Class BookLaws (B : Type) `{!Book B} := {
  book_ok : B → Prop;
  book_side : B → bool → list Order.t;
  law_add b o :
    book_ok b → 1 ≤ Order.Price o < maxPrice → unknown (book_side b) (Order.OrderID o) →
    ∃ b', book_AddOrder b o = Some b' ∧ book_ok b' ∧
      book_side b' (Order.IsBuy o) = enqueue (Order.IsBuy o) o (book_side b (Order.IsBuy o)) ∧
      book_side b' (opposite o) = book_side b (opposite o);
  law_remove b o :
    book_ok b → same_place (book_side b) o →
    ∃ b', book_RemoveOrder b o = Some b' ∧ book_ok b' ∧
      ∀ s, book_side b' s = without (Order.OrderID o) (book_side b s);
  law_has b id :
    book_ok b → book_HasOrder b id = false ↔ unknown (book_side b) id;
  law_best_bid b : book_ok b → book_BestBidPrice b = Order.Price <$> head (book_side b true);
  law_best_ask b : book_ok b → book_BestAskPrice b = Order.Price <$> head (book_side b false);
  law_cross b o :
    book_ok b →
    book_IsCross b o = existsb (λ m, crosses o (Order.Price m)) (book_side b (opposite o));
  law_count b :
    book_ok b → book_OrderCount b = Z.of_nat (length (book_side b true ++ book_side b false));
}.

(** ** The sorted-slice book *)

Record levels_ok (s : bool) (ls : list DepthLevel.t) : Prop := {
  levels_sorted : StronglySorted (better s) (DepthLevel.Price <$> ls);
  levels_orders : Forall (λ l, DepthLevel.Orders l ≠ [] ∧
    Forall (λ o, Order.Price o = DepthLevel.Price l ∧ Order.IsBuy o = s) (DepthLevel.Orders l)) ls;
}.

Definition slice_side (b : OrderBook.t) (s : bool) : list Order.t :=
  OrderBook.levels b s ≫= DepthLevel.Orders.

Record slice_ok (b : OrderBook.t) : Prop := {
  slice_levels : ∀ s, levels_ok s (OrderBook.levels b s);
  slice_ids : NoDup (Order.OrderID <$> slice_side b true ++ slice_side b false);
  slice_map : ∀ id o, OrderBook.OrderMap b !! id = Some o ↔
    Order.OrderID o = id ∧ o ∈ slice_side b true ++ slice_side b false;
}.

Lemma levels_ok_app s l1 l2 :
  levels_ok s (l1 ++ l2) ↔ levels_ok s l1 ∧ levels_ok s l2 ∧
    ∀ a b, a ∈ l1 → b ∈ l2 → better s (DepthLevel.Price a) (DepthLevel.Price b).
Proof.
  split.
  - intros [Hs Ho]. rewrite fmap_app in Hs. apply StronglySorted_app in Hs as (H12 & H1 & H2).
    apply Forall_app in Ho as [Ho1 Ho2]. split_and!; [done|done|]. intros a b Ha Hb.
    apply H12; by apply list_elem_of_fmap_2.
  - intros ([H1 Ho1] & [H2 Ho2] & H12). split; [|by apply Forall_app].
    rewrite fmap_app. apply StronglySorted_app. split_and!; [|done|done].
    intros ? ? (a & -> & Ha)%list_elem_of_fmap (b & -> & Hb)%list_elem_of_fmap. by apply H12.
Qed.

(** Every order of a run of levels has a price of these levels. *)
Lemma levels_price (P : Z → Prop) s ls :
  levels_ok s ls → (∀ l, l ∈ ls → P (DepthLevel.Price l)) →
  Forall (λ o, P (Order.Price o)) (ls ≫= DepthLevel.Orders).
Proof.
  intros [_ Ho] HP. apply Forall_forall. intros o (l & Hol & Hl)%list_elem_of_bind.
  rewrite Forall_forall in Ho. destruct (Ho l Hl) as [_ Hf]. rewrite Forall_forall in Hf.
  destruct (Hf o Hol) as [-> _]. by apply HP.
Qed.

Lemma levels_side s ls o : levels_ok s ls → o ∈ ls ≫= DepthLevel.Orders → Order.IsBuy o = s.
Proof.
  intros [_ Ho] (l & Hol & Hl)%list_elem_of_bind. rewrite Forall_forall in Ho.
  destruct (Ho l Hl) as [_ Hf]. rewrite Forall_forall in Hf. by destruct (Hf o Hol).
Qed.

Lemma level_index_Some ls p i :
  OrderBook.level_index ls p = Some i →
  ∃ l1 l l2, ls = l1 ++ l :: l2 ∧ length l1 = i ∧ DepthLevel.Price l = p.
Proof.
  revert i. induction ls as [|l ls IH]; intros i; simpl; [done|].
  destruct (Z.eqb_spec (DepthLevel.Price l) p) as [E|_].
  - intros [= <-]. by exists [], l, ls.
  - destruct (OrderBook.level_index ls p) as [k|]; [|done]. intros [= <-].
    destruct (IH k eq_refl) as (l1 & l' & l2 & -> & <- & Hp). by exists (l :: l1), l', l2.
Qed.

Lemma level_index_None ls p :
  OrderBook.level_index ls p = None → ∀ l, l ∈ ls → DepthLevel.Price l ≠ p.
Proof.
  induction ls as [|l ls IH]; simpl; [by intros _ l ?%not_elem_of_nil|].
  destruct (Z.eqb_spec (DepthLevel.Price l) p) as [E|E]; [done|].
  destruct (OrderBook.level_index ls p); [done|]. intros _ l' [->|Hl]%elem_of_cons; [done|].
  by apply IH.
Qed.

Lemma StronglySorted_lookup {A} (R : A → A → Prop) (l : list A) i j x y :
  StronglySorted R l → l !! i = Some x → l !! j = Some y → (i < j)%nat → R x y.
Proof.
  intros Hs. revert i j. induction Hs as [|a l _ IH Hall]; intros i j; [by rewrite lookup_nil|].
  destruct i as [|i], j as [|j]; simpl; [lia| |lia|].
  - intros [= ->] Hy _. rewrite Forall_forall in Hall. by apply Hall, list_elem_of_lookup_2 with j.
  - intros Hx Hy Hij. apply (IH i j); [done|done|lia].
Qed.

(** The test of the binary search is monotone on a sorted side. *)
Definition level_test (s : bool) (p : Z) (ls : list DepthLevel.t) (i : nat) : bool :=
  match ls !! i with
  | Some l => if s then DepthLevel.Price l <=? p else p <=? DepthLevel.Price l
  | None => true
  end.

Lemma level_test_mono s p ls k m :
  levels_ok s ls → (k ≤ m < length ls)%nat → level_test s p ls k = true → level_test s p ls m = true.
Proof.
  intros Hok Hkm. unfold level_test.
  destruct (ls !! k) as [a|] eqn:Ea; [|apply lookup_ge_None in Ea; lia].
  destruct (ls !! m) as [c|] eqn:Ec; [|done].
  destruct (decide (k = m)) as [->|Hk]; [by simplify_eq|].
  pose proof (StronglySorted_lookup (better s) (DepthLevel.Price <$> ls) k m
    (DepthLevel.Price a) (DepthLevel.Price c) (levels_sorted _ _ Hok)) as H.
  rewrite !list_lookup_fmap, Ea, Ec in H. specialize (H eq_refl eq_refl ltac:(lia)).
  unfold better in H. destruct s; rewrite !Z.leb_le; lia.
Qed.

(** The level at which a new price is inserted splits the side. *)
Lemma insert_split s ls p :
  levels_ok s ls → (∀ l, l ∈ ls → DepthLevel.Price l ≠ p) →
  let i := sort_Search (length ls) (level_test s p ls) in
  (i ≤ length ls)%nat ∧
  (∀ l, l ∈ take i ls → better s (DepthLevel.Price l) p) ∧
  (∀ l, l ∈ list.drop i ls → better s p (DepthLevel.Price l)).
Proof.
  intros Hok Hne.
  destruct (sort_Search_spec (length ls) (level_test s p ls)) as (Hle & Hlo & Hhi).
  { intros k m. by apply level_test_mono. }
  split_and!; [done| |]; intros l Hl.
  - apply elem_of_take in Hl as (k & Hk & Hlt). specialize (Hlo k Hlt). unfold level_test in Hlo.
    rewrite Hk in Hlo. unfold better. destruct s; apply Z.leb_gt in Hlo; lia.
  - apply list_elem_of_lookup in Hl as (k & Hk). rewrite lookup_drop in Hk.
    assert (level_test s p ls (sort_Search (length ls) (level_test s p ls) + k)%nat = true) as Hf.
    { apply Hhi. apply lookup_lt_Some in Hk. lia. }
    unfold level_test in Hf at 1. rewrite Hk in Hf.
    pose proof (Hne l (list_elem_of_lookup_2 _ _ _ Hk)).
    unfold better. destruct s; apply Z.leb_le in Hf; lia.
Qed.

Lemma levels_set b s ls s' :
  OrderBook.levels (OrderBook.set_levels b s ls) s' =
  if Bool.eqb s s' then ls else OrderBook.levels b s'.
Proof. by destruct s, s'. Qed.

Lemma levels_set_map b m s : OrderBook.levels (OrderBook.set_map b m) s = OrderBook.levels b s.
Proof. done. Qed.

(** Appending to the level of the order's price. *)
Lemma append_level s o l1 l l2 :
  levels_ok s (l1 ++ l :: l2) ∨ (levels_ok s l1 ∧ levels_ok s l2 ∧ DepthLevel.Orders l = [] ∧
    (∀ a, a ∈ l1 → better s (DepthLevel.Price a) (DepthLevel.Price l)) ∧
    (∀ b, b ∈ l2 → better s (DepthLevel.Price l) (DepthLevel.Price b)) ∧
    (∀ a b, a ∈ l1 → b ∈ l2 → better s (DepthLevel.Price a) (DepthLevel.Price b))) →
  DepthLevel.Price l = Order.Price o → Order.IsBuy o = s →
  levels_ok s (l1 ++ DepthLevel.Append l o :: l2) ∧
  (l1 ++ DepthLevel.Append l o :: l2) ≫= DepthLevel.Orders =
    enqueue s o ((l1 ++ l :: l2) ≫= DepthLevel.Orders).
Proof.
  intros Hcase Hp Hb.
  assert (levels_ok s l1 ∧ levels_ok s l2 ∧
    Forall (λ m, Order.Price m = DepthLevel.Price l ∧ Order.IsBuy m = s) (DepthLevel.Orders l) ∧
    (∀ a, a ∈ l1 → better s (DepthLevel.Price a) (DepthLevel.Price l)) ∧
    (∀ b, b ∈ l2 → better s (DepthLevel.Price l) (DepthLevel.Price b)) ∧
    (∀ a b, a ∈ l1 → b ∈ l2 → better s (DepthLevel.Price a) (DepthLevel.Price b)))
    as (H1 & H2 & Hl & H1l & Hl2 & H12).
  { destruct Hcase as [(H1 & H2 & H12)%levels_ok_app|(H1 & H2 & -> & Ha & Hb' & Hc)];
      [|split_and!; done].
    change (l :: l2) with ([l] ++ l2) in H2. apply levels_ok_app in H2 as (Hl & H2 & Hl2).
    split_and!; [done|done| | | |].
    - by destruct Hl as [_ [[_ ?] _]%Forall_cons].
    - intros a Ha. apply H12; [done|left].
    - intros c Hc. apply Hl2; [left|done].
    - intros a c Ha Hc. apply H12; [done|by right]. }
  split.
  - apply levels_ok_app. split_and!; [done| |].
    + change (DepthLevel.Append l o :: l2) with ([DepthLevel.Append l o] ++ l2).
      apply levels_ok_app. split_and!; [|done|].
      * split; simpl; [repeat constructor|]. constructor; [|done]. split; [by intros [_ ?]%app_eq_nil|].
        apply Forall_app. split; [done|by repeat constructor].
      * intros a c ->%list_elem_of_singleton Hc. by apply Hl2.
    + intros a c Ha [->|Hc]%elem_of_cons; [by apply H1l|by apply H12].
  - rewrite !bind_app, !bind_cons. simpl. rewrite <-app_assoc, !app_assoc. symmetry. simpl.
    rewrite enqueue_app; [by rewrite <-!app_assoc| |].
    + apply Forall_app. split.
      * apply (levels_price (λ q, ¬ better s (Order.Price o) q) s); [done|].
        intros a Ha. rewrite <-Hp. apply better_asym. by apply H1l.
      * eapply Forall_impl; [exact Hl|]. intros m [-> _]. rewrite Hp. apply better_irrefl.
    + apply (levels_price (λ q, better s (Order.Price o) q) s); [done|].
      intros c Hc. rewrite <-Hp. by apply Hl2.
Qed.

Lemma AddOrder_levels b o :
  let s := Order.IsBuy o in
  levels_ok s (OrderBook.levels b s) →
  ∃ b' ls, OrderBook.AddOrder b o = Some b' ∧
    b' = OrderBook.set_map (OrderBook.set_levels b s ls)
           (<[Order.OrderID o := o]> (OrderBook.OrderMap b)) ∧
    levels_ok s ls ∧ ls ≫= DepthLevel.Orders = enqueue s o (slice_side b s).
Proof.
  intros s Hok. unfold OrderBook.AddOrder, OrderBook.findOrInsertLevel, OrderBook.findLevelIndex.
  fold s. unfold slice_side.
  destruct (OrderBook.level_index (OrderBook.levels b s) (Order.Price o)) as [i|] eqn:Ei.
  - destruct (level_index_Some _ _ _ Ei) as (l1 & l & l2 & E & <- & Hp).
    rewrite E in Hok |- *. rewrite list_lookup_middle by done. rewrite Some_bind.
    eexists _, (l1 ++ DepthLevel.Append l o :: l2). split; [reflexivity|]. split.
    + rewrite insert_app_r_alt, Nat.sub_diag by lia. by destruct s.
    + apply append_level; [by left|done|done].
  - pose proof (level_index_None _ _ Ei) as Hne.
    destruct (insert_split s _ _ Hok Hne) as (Hle & H1 & H2).
    change (sort_Search (length (OrderBook.levels b s)) _)
      with (sort_Search (length (OrderBook.levels b s))
              (level_test s (Order.Price o) (OrderBook.levels b s))).
    set (i := sort_Search _ _) in *. set (ls := OrderBook.levels b s) in *.
    rewrite levels_set, Bool.eqb_reflx.
    assert (length (take i ls) = i) as Hi by (rewrite length_take; lia).
    set (nl := DepthLevel.mk (Order.Price o) []).
    assert ((take i ls ++ nl :: list.drop i ls) !! i = Some nl) as ->.
    { rewrite <-Hi at 3. by apply list_lookup_middle. }
    rewrite Some_bind. eexists _, (take i ls ++ DepthLevel.Append nl o :: list.drop i ls).
    split; [reflexivity|]. split.
    + rewrite insert_app_r_alt by lia. rewrite Hi, Nat.sub_diag. by destruct s.
    + rewrite <-(take_drop i ls) in Hok. apply levels_ok_app in Hok as (Hok1 & Hok2 & H12).
      destruct (append_level s o (take i ls) nl (list.drop i ls)) as [Ha Hb]; [by right|done|done|].
      split; [done|]. rewrite Hb. f_equal.
      rewrite <-(take_drop i ls) at 3. by rewrite !bind_app, bind_cons.
Qed.

(** Removing by price and identifier. *)
Lemma remove_levels s ls p id :
  levels_ok s ls →
  (∀ m, m ∈ ls ≫= DepthLevel.Orders → Order.OrderID m = id → Order.Price m = p) →
  levels_ok s (OrderBook.remove_from_levels ls p id) ∧
  (∀ l', l' ∈ OrderBook.remove_from_levels ls p id → ∃ l, l ∈ ls ∧
     DepthLevel.Price l' = DepthLevel.Price l) ∧
  OrderBook.remove_from_levels ls p id ≫= DepthLevel.Orders =
    without id (ls ≫= DepthLevel.Orders).
Proof.
  induction ls as [|l ls IH]; intros Hok Hp.
  { split_and!; [done|by intros l ?%not_elem_of_nil|done]. }
  change (l :: ls) with ([l] ++ ls) in Hok. apply levels_ok_app in Hok as (Hl & Hls & Hlls).
  rewrite bind_cons in Hp.
  pose proof (levels_orders _ _ Hl) as [[Hne Hf] _]%Forall_cons.
  cbn [OrderBook.remove_from_levels]. rewrite bind_cons. unfold without. rewrite filter_app.
  destruct (Z.eqb_spec (DepthLevel.Price l) p) as [Epr|Epr]; cbn [negb].
  - assert (filter (λ o, Order.OrderID o ≠ id) (ls ≫= DepthLevel.Orders) =
      ls ≫= DepthLevel.Orders) as Hrest.
    { assert (Forall (λ m, Order.Price m ≠ p) (ls ≫= DepthLevel.Orders)) as Hx.
      { apply (levels_price (λ q, q ≠ p) s); [done|]. intros l' Hl' E.
        specialize (Hlls l l' ltac:(left) Hl'). rewrite E, Epr in Hlls. by apply better_irrefl in Hlls. }
      rewrite Forall_forall in Hx. apply list_filter_all, Forall_forall. intros m Hm E.
      apply (Hx m Hm), Hp; [apply elem_of_app; by right|done]. }
    unfold DepthLevel.IsEmpty. cbn [DepthLevel.Orders]. rewrite Hrest.
    case_bool_decide as E.
    + rewrite E. split_and!; [done| |done]. intros l' Hl'. exists l'. split; [by right|done].
    + split_and!.
      * change (?x :: ls) with ([x] ++ ls). apply levels_ok_app. split_and!; [|done|].
        -- split; simpl; [repeat constructor|]. constructor; [|done]. split; [done|].
           rewrite Forall_forall in Hf |- *. intros m [_ Hm]%list_elem_of_filter. by apply Hf.
        -- intros a c ->%list_elem_of_singleton Hc. cbn [DepthLevel.Price]. apply Hlls; [left|done].
      * intros l' [->|Hl']%elem_of_cons; [exists l; split; [left|done]|exists l'; split; [by right|done]].
      * by rewrite bind_cons.
  - destruct IH as (H1 & H2 & H3); [done|intros m Hm; apply Hp, elem_of_app; by right|].
    split_and!.
    + change (?x :: ?y) with ([x] ++ y). apply levels_ok_app. split_and!; [done|done|].
      intros a c ->%list_elem_of_singleton (l' & Hl' & ->)%H2. apply Hlls; [left|done].
    + intros l' [->|Hl']%elem_of_cons; [exists l; split; [left|done]|].
      destruct (H2 l' Hl') as (l'' & ? & ?). exists l''. split; [by right|done].
    + rewrite bind_cons, H3. unfold without. f_equal. symmetry.
      apply list_filter_all, Forall_forall. intros m Hm E. apply Epr.
      rewrite Forall_forall in Hf. destruct (Hf m Hm) as [<- _]. apply Hp; [|done].
      apply elem_of_app. by left.
Qed.

(** The two sides of a map-backed book. *)
Lemma slice_map_None b id :
  slice_ok b → OrderBook.OrderMap b !! id = None ↔ unknown (slice_side b) id.
Proof.
  intros Hok. split.
  - intros Hn s m Hm E. assert (OrderBook.OrderMap b !! id = Some m) as H; [|congruence].
    apply (slice_map _ Hok). split; [done|]. apply elem_of_app. destruct s; auto.
  - intros Hu. destruct (OrderBook.OrderMap b !! id) as [m|] eqn:E; [|done].
    apply (slice_map _ Hok) in E as [<- [Hm|Hm]%elem_of_app]; by destruct (Hu _ _ Hm).
Qed.

Lemma slice_add b o :
  slice_ok b → unknown (slice_side b) (Order.OrderID o) →
  ∃ b', OrderBook.AddOrder b o = Some b' ∧ slice_ok b' ∧
    slice_side b' (Order.IsBuy o) = enqueue (Order.IsBuy o) o (slice_side b (Order.IsBuy o)) ∧
    slice_side b' (opposite o) = slice_side b (opposite o).
Proof.
  intros Hok Hu. destruct (AddOrder_levels b o (slice_levels _ Hok _)) as (b' & ls & E & -> & Hl & Hs).
  exists (OrderBook.set_map (OrderBook.set_levels b (Order.IsBuy o) ls)
    (<[Order.OrderID o := o]> (OrderBook.OrderMap b))).
  set (s := Order.IsBuy o) in *. set (b' := OrderBook.set_map _ _).
  assert (slice_side b' s = enqueue s o (slice_side b s)) as Hown.
  { unfold slice_side at 1, b'. by rewrite levels_set_map, levels_set, Bool.eqb_reflx. }
  assert (slice_side b' (negb s) = slice_side b (negb s)) as Hopp.
  { unfold slice_side, b'. rewrite levels_set_map, levels_set. by destruct s. }
  assert (enqueue s o (slice_side b s) ≡ₚ o :: slice_side b s) as Hperm.
  { clear. induction (slice_side b s) as [|m ms IH]; [done|]. cbn [enqueue].
    destruct (if s then _ else _); [done|]. rewrite IH. apply Permutation_swap. }
  assert (slice_side b' true ++ slice_side b' false ≡ₚ
          o :: slice_side b true ++ slice_side b false) as Hall.
  { destruct s; cbn [negb] in Hopp; rewrite Hown, Hopp, Hperm; [done|].
    by rewrite Permutation_middle. }
  split_and!; [done| |done|done]. split.
  - intros s'. unfold b'. rewrite levels_set_map, levels_set.
    destruct (Bool.eqb_spec s s') as [<-|]; [done|apply Hok].
  - rewrite Hall. cbn [fmap list_fmap]. constructor; [|apply Hok].
    intros (m & Em & [Hm|Hm]%elem_of_app)%list_elem_of_fmap; by destruct (Hu _ _ Hm).
  - intros id m. rewrite Hall, elem_of_cons. cbn [b' OrderBook.OrderMap OrderBook.set_map].
    destruct (decide (Order.OrderID o = id)) as [<-|Hne].
    + rewrite lookup_insert_eq. split; [intros [= ->]; by auto|].
      intros [Em [->|[Hm|Hm]%elem_of_app]]; [done|by destruct (Hu _ _ Hm)..].
    + rewrite lookup_insert_ne by done. rewrite (slice_map _ Hok). naive_solver.
Qed.

Lemma slice_remove b o :
  slice_ok b → same_place (slice_side b) o →
  slice_ok (OrderBook.RemoveOrder b o) ∧
  ∀ s, slice_side (OrderBook.RemoveOrder b o) s = without (Order.OrderID o) (slice_side b s).
Proof.
  intros Hok Hsame. unfold OrderBook.RemoveOrder. set (s := Order.IsBuy o). set (id := Order.OrderID o).
  destruct (remove_levels s (OrderBook.levels b s) (Order.Price o) id) as (H1 & _ & H3);
    [apply Hok|intros m Hm E; by destruct (Hsame s m Hm E)|].
  set (b' := OrderBook.set_map _ _).
  assert (∀ s', slice_side b' s' = without id (slice_side b s')) as Hside.
  { intros s'. unfold slice_side at 1, b'. rewrite levels_set_map, levels_set.
    destruct (Bool.eqb_spec s s') as [<-|Hne]; [done|]. symmetry.
    apply list_filter_all, Forall_forall. intros m Hm E. by destruct (Hsame s' m Hm E). }
  split; [|done]. split.
  - intros s'. unfold b'. rewrite levels_set_map, levels_set.
    destruct (Bool.eqb_spec s s') as [<-|]; [done|apply Hok].
  - rewrite !Hside. unfold without. rewrite <-filter_app.
    eapply sublist_NoDup; [apply (slice_ids _ Hok)|]. apply fmap_sublist, sublist_filter.
  - intros id' m. rewrite !Hside. unfold without. rewrite <-filter_app, list_elem_of_filter.
    replace (OrderBook.OrderMap b') with (delete id (OrderBook.OrderMap b)) by (unfold b'; by destruct s).
    rewrite lookup_delete_Some, (slice_map _ Hok). naive_solver.
Qed.

Lemma slice_head b s :
  slice_ok b →
  DepthLevel.Price <$> head (OrderBook.levels b s) = Order.Price <$> head (slice_side b s).
Proof.
  intros Hok. pose proof (levels_orders _ _ (slice_levels _ Hok s)) as Ho. unfold slice_side.
  destruct (OrderBook.levels b s) as [|l ls]; [done|]. rewrite bind_cons.
  apply Forall_cons in Ho as [[Hne Hf] _]. destruct (DepthLevel.Orders l) as [|o os]; [done|].
  apply Forall_cons in Hf as [[Hp _] _]. simpl. by rewrite Hp.
Qed.

(** On a sorted list the head decides whether anything crosses. *)
Lemma head_crosses b o :
  slice_ok b → OrderBook.IsCross b o =
  existsb (λ m, crosses o (Order.Price m)) (slice_side b (opposite o)).
Proof.
  intros Hok. pose proof (slice_head b (opposite o) Hok) as Hh.
  assert (OrderBook.IsCross b o = match Order.Price <$> head (slice_side b (opposite o)) with
    | Some p => crosses o p | None => false end) as ->.
  { rewrite <-Hh. unfold OrderBook.IsCross, crosses, opposite, OrderBook.BestAskPrice,
      OrderBook.BestBidPrice. by destruct (Order.IsBuy o). }
  destruct (slice_side b (opposite o)) as [|m ms] eqn:E; [done|]. cbn [head fmap option_fmap option_map existsb].
  destruct (crosses o (Order.Price m)) eqn:Ec; [done|]. symmetry. apply Bool.not_true_is_false.
  intros (m' & Hm' & Hc)%existsb_exists. apply list_elem_of_In in Hm'.
  pose proof (slice_levels _ Hok (opposite o)) as Hl. unfold slice_side in E.
  destruct (OrderBook.levels b (opposite o)) as [|l ls]; [done|]. rewrite bind_cons in E.
  change (l :: ls) with ([l] ++ ls) in Hl. apply levels_ok_app in Hl as (Hl & Hls & Hb).
  pose proof (levels_orders _ _ Hl) as [[Hne Hf] _]%Forall_cons.
  destruct (DepthLevel.Orders l) as [|m0 os]; [done|]. simpl in E. injection E as -> <-.
  apply Forall_cons in Hf as [[Hp _] Hf].
  assert (Order.Price m' = DepthLevel.Price l ∨ better (opposite o) (DepthLevel.Price l) (Order.Price m'))
    as Hcmp.
  { apply elem_of_app in Hm' as [Hm'|Hm'].
    - rewrite Forall_forall in Hf. left. by destruct (Hf m' Hm').
    - right. assert (Forall (λ x, better (opposite o) (DepthLevel.Price l) (Order.Price x))
        (ls ≫= DepthLevel.Orders)) as Hx.
      { apply (levels_price _ (opposite o)); [done|]. intros l' Hl'. apply Hb; [left|done]. }
      rewrite Forall_forall in Hx. by apply Hx. }
  rewrite Hp in Ec. revert Ec Hc Hcmp. unfold crosses, better, opposite.
  destruct (Order.IsBuy o); simpl; rewrite !Z.leb_gt, !Z.leb_le; lia.
Qed.

Lemma size_ids {A} (m : gmap string A) (ids : list string) :
  NoDup ids → (∀ id, is_Some (m !! id) ↔ id ∈ ids) → size m = length ids.
Proof.
  intros Hnd Hm. rewrite <-(size_list_to_set (C := gset string) ids), <-size_dom by done.
  apply (f_equal size), set_eq. intros id. by rewrite elem_of_dom, elem_of_list_to_set.
Qed.

Lemma slice_count b :
  slice_ok b →
  OrderBook.OrderCount b = Z.of_nat (length (slice_side b true ++ slice_side b false)).
Proof.
  intros Hok. unfold OrderBook.OrderCount. f_equal.
  rewrite (size_ids _ (Order.OrderID <$> slice_side b true ++ slice_side b false));
    [by rewrite length_fmap|apply Hok|].
  intros id. rewrite list_elem_of_fmap. split.
  - intros [m [<- Hm]%(slice_map _ Hok)]. eauto.
  - intros (m & -> & Hm). exists m. by apply (slice_map _ Hok).
Qed.

#[export] Instance slice_Book : Book OrderBook.t := {|
  book_HasOrder := OrderBook.HasOrder;
  book_AddOrder := OrderBook.AddOrder;
  book_RemoveOrder b o := Some (OrderBook.RemoveOrder b o);
  book_BestBidPrice := OrderBook.BestBidPrice;
  book_BestAskPrice := OrderBook.BestAskPrice;
  book_IsCross := OrderBook.IsCross;
  book_OrderCount := OrderBook.OrderCount;
|}.

#[export, refine] Instance slice_BookLaws : BookLaws OrderBook.t :=
  {| book_ok := slice_ok; book_side := slice_side |}.
Proof.
  - intros b o Hok _ Hu. by apply slice_add.
  - intros b o Hok Hs. eexists. split; [reflexivity|]. by apply slice_remove.
  - intros b id Hok. simpl. unfold OrderBook.HasOrder.
    by rewrite bool_decide_eq_false, <-eq_None_not_Some, slice_map_None.
  - intros b Hok. by apply (slice_head b true).
  - intros b Hok. by apply (slice_head b false).
  - intros b o. apply head_crosses.
  - apply slice_count.
Defined.

(** ** The array-indexed book *)

Lemma direct_remove ob L o :
  book_rep ob L →
  ∃ ob' L', RemoveOrder ob o = Some ob' ∧ book_rep ob' L' ∧
    ∀ s, side_orders ob' s = without (Order.OrderID o) (side_orders ob s).
Proof.
  intros Hr. unfold RemoveOrder. destruct (orderIndex ob !! Order.OrderID o) as [x|] eqn:Ex.
  2:{ exists ob, L. split_and!; [done|done|]. intros s. symmetry. apply list_filter_all, Forall_forall.
      intros m Hm. by apply (proj1 (index_None ob L _ Hr) Ex s). }
  destruct (rep_index _ _ Hr _ _ Ex) as (d & Hd & Hid & HL).
  destruct (remove_node_spec ob L _ _ x d Hr HL Hd) as
    (ob1 & d1 & ob' & H1 & _ & _ & H2 & Hr' & Hsame & HK & HI).
  rewrite H1, Some_bind, <-Hid, H2. exists ob', (drop L [x]). split_and!; [done|done|]. intros s.
  rewrite (side_orders_flat _ _ _ Hr'), (side_orders_flat _ _ _ Hr), flat_drop.
  unfold without. rewrite list_filter_fmap.
  rewrite (list_filter_ext_in (λ y, y ∉ [x])
    (λ y, Order.OrderID (order_at (store ob) y) ≠ Order.OrderID (DirectOrder.data d))).
  - apply list_fmap_ext. intros i y [Hy [p Hyp]%(elem_of_flat ob)]%list_elem_of_lookup_2%list_elem_of_filter; [|done].
    apply Hsame. intros ->. apply Hy. unfold order_at. by rewrite Hd.
  - intros y [p Hy]%(elem_of_flat ob); [|done]. rewrite not_elem_of_cons.
    pose proof (rep_order_id _ _ _ _ _ Hr Hy) as Hyi. split.
    + intros [Hyx _] E'. rewrite E', Hid in Hyi. congruence.
    + intros Hne. split; [|apply not_elem_of_nil]. intros ->. apply Hne. unfold order_at. by rewrite Hd.
Qed.

Lemma direct_ids ob L :
  book_rep ob L → NoDup (Order.OrderID <$> side_orders ob true ++ side_orders ob false).
Proof.
  intros Hr. rewrite fmap_app. apply NoDup_app.
  split_and!; [by eapply side_orders_ids| |by eapply side_orders_ids].
  intros id (m & -> & Hm)%list_elem_of_fmap (m' & E & Hm')%list_elem_of_fmap.
  apply (elem_of_side_orders _ _ _ _ Hr) in Hm as (p & x & Hx & ->), Hm' as (p' & x' & Hx' & ->).
  pose proof (rep_order_id _ _ _ _ _ Hr Hx) as Hi. pose proof (rep_order_id _ _ _ _ _ Hr Hx') as Hi'.
  rewrite E, Hi' in Hi. injection Hi as ->.
  destruct (rep_order_fields _ _ _ _ _ Hr Hx) as [E1 _].
  destruct (rep_order_fields _ _ _ _ _ Hr Hx') as [E2 _]. congruence.
Qed.

Lemma direct_count ob L :
  book_rep ob L → OrderCount ob = Z.of_nat (length (side_orders ob true ++ side_orders ob false)).
Proof.
  intros Hr. unfold OrderCount. f_equal.
  rewrite (size_ids _ (Order.OrderID <$> side_orders ob true ++ side_orders ob false));
    [by rewrite length_fmap|by eapply direct_ids|].
  intros id. rewrite list_elem_of_fmap. rewrite <-not_eq_None_Some, (index_None ob L id Hr). split.
  - intros Hn. destruct (orderIndex ob !! id) as [x|] eqn:E; cycle 1.
    { destruct Hn. by apply (index_None ob L id Hr). }
    destruct (rep_index _ _ Hr _ _ E) as (d & Hd & <- & HL). exists (order_at (store ob) x).
    split; [unfold order_at; by rewrite Hd|]. apply elem_of_app.
    assert (order_at (store ob) x ∈ side_orders ob (DirectOrder.IsBuy d)) as H
      by (apply (elem_of_side_orders _ _ _ _ Hr); eauto).
    destruct (DirectOrder.IsBuy d); [left; exact H|right; exact H].
  - intros (m & -> & [Hm|Hm]%elem_of_app) Hall; by destruct (Hall _ _ Hm).
Qed.

(** The cached best price is the head of the side. *)
Lemma occupied_iff h bu bm L s p : side_rep h bu bm (L s) → p ∈ occupied L s ↔ L s p ≠ [].
Proof.
  intros Hs. by rewrite (elem_of_occupied _ _ _ _ _ _ Hs), (side_bits _ _ _ _ Hs), bool_decide_eq_true.
Qed.

Lemma occupied_head h bu bm L s best :
  side_rep h bu bm (L s) → best_ok (better s) best (L s) →
  head (occupied L s) = if best =? 0 then None else Some best.
Proof.
  intros Hs Hb. apply (sorted_first (better s) (occupied L s) best (L s)).
  - apply better_asym.
  - apply occupied_sorted.
  - intros p. by eapply occupied_iff.
  - exact Hb.
Qed.

Lemma flat_head ob L s :
  book_rep ob L → (∀ p, p ∈ occupied L s ↔ L s p ≠ []) →
  head (occupied L s) = Order.Price <$> head (order_at (store ob) <$> flat L s).
Proof.
  intros Hr Hocc. unfold flat. destruct (occupied L s) as [|p ps]; [reflexivity|]. rewrite bind_cons.
  assert (L s p ≠ []) as Hne by (apply Hocc; left).
  destruct (L s p) as [|x xs] eqn:El; [destruct (Hne eq_refl)|].
  assert (x ∈ L s p) as Hx by (rewrite El; left).
  cbn [head app fmap list_fmap option_fmap option_map].
  by rewrite (proj2 (rep_order_fields _ _ _ _ _ Hr Hx)).
Qed.

Lemma direct_best_bid ob L :
  book_rep ob L → BestBidPrice ob = Order.Price <$> head (side_orders ob true).
Proof.
  intros Hr. rewrite (side_orders_flat ob L true Hr), <-(flat_head ob L true Hr).
  - unfold BestBidPrice. symmetry. eapply (occupied_head _ _ _ L true);
      [apply (rep_bids _ _ Hr)|apply (rep_bestBid _ _ Hr)].
  - intros p. eapply (occupied_iff _ _ _ L true), (rep_bids _ _ Hr).
Qed.

Lemma direct_best_ask ob L :
  book_rep ob L → BestAskPrice ob = Order.Price <$> head (side_orders ob false).
Proof.
  intros Hr. rewrite (side_orders_flat ob L false Hr), <-(flat_head ob L false Hr).
  - unfold BestAskPrice. symmetry. eapply (occupied_head _ _ _ L false);
      [apply (rep_asks _ _ Hr)|apply (rep_bestAsk _ _ Hr)].
  - intros p. eapply (occupied_iff _ _ _ L false), (rep_asks _ _ Hr).
Qed.

#[export] Instance direct_Book : Book OrderBookDirect := {|
  book_HasOrder := HasOrder;
  book_AddOrder := AddOrder;
  book_RemoveOrder := RemoveOrder;
  book_BestBidPrice := BestBidPrice;
  book_BestAskPrice := BestAskPrice;
  book_IsCross := IsCross;
  book_OrderCount := OrderCount;
|}.

#[export, refine] Instance direct_BookLaws : BookLaws OrderBookDirect :=
  {| book_ok ob := ∃ L, book_rep ob L; book_side := side_orders |}.
Proof.
  - intros ob o [L Hr] Hp Hu. destruct (AddOrder_added ob L o Hr Hp) as (ob' & E & [Hr' Ho Hop _]).
    { by apply (index_None ob L _ Hr). }
    exists ob'. by split_and!.
  - intros ob o [L Hr] _. destruct (direct_remove ob L o Hr) as (ob' & L' & E & Hr' & Hs).
    exists ob'. split_and!; [exact E|by exists L'|exact Hs].
  - intros ob id [L Hr]. simpl. unfold HasOrder.
    by rewrite bool_decide_eq_false, <-eq_None_not_Some, (index_None ob L id Hr).
  - intros ob [L Hr]. by eapply direct_best_bid.
  - intros ob [L Hr]. by eapply direct_best_ask.
  - intros ob o [L Hr]. by eapply IsCross_view.
  - intros ob [L Hr]. by eapply direct_count.
Defined.

(** ** Clients of the interface *)

Inductive book_op := OpAdd (o : Order.t) | OpRemove (o : Order.t).

(** What an operation does to the two lists, and when it may be used. *)
Definition op_view (V : bool → list Order.t) (op : book_op) : bool → list Order.t :=
  match op with
  | OpAdd o => λ s, if Bool.eqb s (Order.IsBuy o) then enqueue s o (V s) else V s
  | OpRemove o => λ s, without (Order.OrderID o) (V s)
  end.

Definition op_allowed (V : bool → list Order.t) (op : book_op) : Prop :=
  match op with
  | OpAdd o => 1 ≤ Order.Price o < maxPrice ∧ unknown V (Order.OrderID o)
  | OpRemove o => same_place V o
  end.

Fixpoint ops_allowed (V : bool → list Order.t) (ops : list book_op) : Prop :=
  match ops with
  | [] => True
  | op :: ops => op_allowed V op ∧ ops_allowed (op_view V op) ops
  end.

Section client.
Context {B : Type} `{!Book B, !BookLaws B}.

Definition run_op (b : B) (op : book_op) : option B :=
  match op with OpAdd o => book_AddOrder b o | OpRemove o => book_RemoveOrder b o end.

Fixpoint run_ops (b : B) (ops : list book_op) : option B :=
  match ops with [] => Some b | op :: ops => b ← run_op b op; run_ops b ops end.

Lemma unknown_ext V W id : (∀ s, V s = W s) → unknown V id → unknown W id.
Proof. intros E H s m Hm. apply (H s). by rewrite E. Qed.

Lemma same_place_ext V W o : (∀ s, V s = W s) → same_place V o → same_place W o.
Proof. intros E H s m Hm. apply H. by rewrite E. Qed.

Lemma run_op_view b V op :
  book_ok b → (∀ s, book_side b s = V s) → op_allowed V op →
  ∃ b', run_op b op = Some b' ∧ book_ok b' ∧ ∀ s, book_side b' s = op_view V op s.
Proof.
  intros Hb HV. destruct op as [o|o]; simpl.
  - intros [Hp Hu]. destruct (law_add b o Hb Hp) as (b' & E & Hb' & Ho & Hop).
    { eapply unknown_ext; [|exact Hu]. intros s. by rewrite HV. }
    exists b'. split_and!; [done|done|]. intros s. rewrite <-HV.
    destruct (Bool.eqb_spec s (Order.IsBuy o)) as [->|Hne]; [done|].
    replace s with (opposite o); [done|]. unfold opposite. by destruct s, (Order.IsBuy o).
  - intros Hs. destruct (law_remove b o Hb) as (b' & E & Hb' & Hs').
    { eapply same_place_ext; [|exact Hs]. intros s. by rewrite HV. }
    exists b'. split_and!; [done|done|]. intros s. by rewrite Hs', HV.
Qed.

Lemma run_ops_view ops b V :
  book_ok b → (∀ s, book_side b s = V s) → ops_allowed V ops →
  ∃ b', run_ops b ops = Some b' ∧ book_ok b' ∧ ∀ s, book_side b' s = foldl op_view V ops s.
Proof.
  revert b V. induction ops as [|op ops IH]; intros b V Hb HV; cbn [run_ops ops_allowed foldl].
  { intros _. by exists b. }
  intros [Hop Hops]. destruct (run_op_view b V op Hb HV Hop) as (b1 & E & Hb1 & HV1).
  rewrite E, Some_bind. by apply IH.
Qed.
End client.

(** Everything the interface lets a client observe. *)
Definition same_book {B1 B2} `{!Book B1, !Book B2} (b1 : B1) (b2 : B2) : Prop :=
  (∀ id, book_HasOrder b1 id = book_HasOrder b2 id) ∧
  book_BestBidPrice b1 = book_BestBidPrice b2 ∧ book_BestAskPrice b1 = book_BestAskPrice b2 ∧
  (∀ o, book_IsCross b1 o = book_IsCross b2 o) ∧ book_OrderCount b1 = book_OrderCount b2.

Lemma same_view_same_book {B1 B2} `{!Book B1, !BookLaws B1, !Book B2, !BookLaws B2}
    (b1 : B1) (b2 : B2) :
  book_ok b1 → book_ok b2 → (∀ s, book_side b1 s = book_side b2 s) → same_book b1 b2.
Proof.
  intros H1 H2 E. split_and!.
  - intros id. apply Bool.eq_iff_eq_true. rewrite <-!Bool.not_false_iff_true, !law_has by done.
    apply not_iff_compat. split; apply unknown_ext; intros s; by rewrite E.
  - by rewrite !law_best_bid, E.
  - by rewrite !law_best_ask, E.
  - intros o. by rewrite !law_cross, E.
  - by rewrite !law_count, !E.
Qed.

Lemma slice_new_ok key : slice_ok (OrderBook.NewOrderBook key).
Proof.
  split.
  - by destruct s; split; constructor.
  - constructor.
  - intros id o. unfold OrderBook.NewOrderBook. cbn [OrderBook.OrderMap]. rewrite lookup_empty.
    split; [done|]. intros [_ H]. destruct (not_elem_of_nil o H).
Qed.

Lemma direct_new_side key s : side_orders (NewOrderBookDirect key) s = [].
Proof.
  rewrite (side_orders_flat _ _ s (NewOrderBookDirect_rep key)), flat_all.
  generalize (price_order s). intros l. induction l as [|p l IH]; [reflexivity|].
  rewrite bind_cons. exact IH.
Qed.


(** Three bids at two prices, one of them removed. *)
Definition book_demo_order (id : string) (price : Z) : Order.t :=
  Order.mk id "" 1 88 "YES" OrderSideBuy OrderTypeLimit TimeInForceGTC STPNone price 10 0
    OrderStatusNew CancelReasonUnset 0 0.

Definition book_demo_ops : list book_op :=
  [OpAdd (book_demo_order "a" 40); OpAdd (book_demo_order "b" 50); OpAdd (book_demo_order "c" 40);
   OpRemove (book_demo_order "a" 40)].

