(* ===== verification/RingBuffer.v ===== *)
(** * Matching pipeline: the ring buffer between gateway and book engine

    [matching/ringbuffer/ringbuffer.go]: a single-producer single-consumer queue
    on two cursors and a power-of-two slice.  The operations are given as they run
    alone, and then as the separate atomic loads, stores and slot accesses they
    consist of, so that producer and consumer can be interleaved. *)

From S2P Require Import Prelude.

Local Open Scope Z_scope.

Section ring.
Context {T : Type} (zero : T).

Record RingBuffer := mkRing { write : Z; read : Z; mask : Z; slots : list T }.

(** [nextPowerOfTwo] on a 64-bit [int]. *)
Definition nextPowerOfTwo (v : Z) : Z :=
  if v <=? 0 then 1
  else
    let v := v - 1 in
    let v := Z.lor v (Z.shiftr v 1) in
    let v := Z.lor v (Z.shiftr v 2) in
    let v := Z.lor v (Z.shiftr v 4) in
    let v := Z.lor v (Z.shiftr v 8) in
    let v := Z.lor v (Z.shiftr v 16) in
    let v := Z.lor v (Z.shiftr v 32) in
    wrap64 (v + 1).

Definition New (requestedCap : Z) : RingBuffer :=
  let cap := nextPowerOfTwo requestedCap in
  let cap := if cap <? 16 then 16 else cap in
  mkRing 0 0 (cap - 1) (replicate (Z.to_nat cap) zero).

(** [None] is an index out of range. *)
Definition TryPublish (rb : RingBuffer) (item : T) : option (RingBuffer * bool) :=
  let w := write rb in
  if mask rb <? wrapu64 (w - read rb) then Some (rb, false)
  else
    slots ← arr_set (slots rb) (Z.land w (mask rb)) item;
    Some (mkRing (wrapu64 (w + 1)) (read rb) (mask rb) slots, true).

Definition TryConsume (rb : RingBuffer) : option (RingBuffer * option T) :=
  let r := read rb in
  if write rb <=? r then Some (rb, None)
  else
    item ← arr_get (slots rb) (Z.land r (mask rb));
    Some (mkRing (write rb) (wrapu64 (r + 1)) (mask rb) (slots rb), Some item).

(** The number of items a drain takes: [avail], [maxItems] and [len(dst)]. *)
Definition drain_count (avail maxItems dstLen : Z) : Z :=
  let n := avail in
  let n := if maxItems <? n then maxItems else n in
  if dstLen <? n then dstLen else n.

(** The copy loop: item [i] of the batch is slot [(r + i) & mask]. *)
Fixpoint drain_loop (rb : RingBuffer) (r : Z) (i n : nat) : option (list T) :=
  match n with
  | O => Some []
  | S n =>
      item ← arr_get (slots rb) (Z.land (wrapu64 (r + Z.of_nat i)) (mask rb));
      items ← drain_loop rb r (S i) n;
      Some (item :: items)
  end.

Definition DrainTo (rb : RingBuffer) (dstLen maxItems : Z) : option (RingBuffer * list T) :=
  let r := read rb in
  let avail := wrap64 (write rb - r) in
  if avail =? 0 then Some (rb, [])
  else
    let n := drain_count avail maxItems dstLen in
    items ← drain_loop rb r 0 (Z.to_nat n);
    Some (mkRing (write rb) (wrapu64 (r + n)) (mask rb) (slots rb), items).

Definition Size (rb : RingBuffer) : Z := wrap64 (write rb - read rb).
Definition Cap (rb : RingBuffer) : Z := wrap64 (mask rb + 1).
Definition IsFull (rb : RingBuffer) : bool := mask rb <? wrapu64 (write rb - read rb).

(** ** Capacity: the smallest power of two *)

Lemma smear_step x v n :
  0 ≤ v → 0 ≤ x → 0 < n →
  (∀ i, 0 ≤ i → Z.testbit x i = true ↔ ∃ d, 0 ≤ d < n ∧ Z.testbit v (i + d) = true) →
  0 ≤ Z.lor x (Z.shiftr x n) ∧
  (∀ i, 0 ≤ i → Z.testbit (Z.lor x (Z.shiftr x n)) i = true ↔
     ∃ d, 0 ≤ d < 2 * n ∧ Z.testbit v (i + d) = true).
Proof.
  intros Hv Hx Hn H. split.
  { apply Z.lor_nonneg. split; [done|]. by apply Z.shiftr_nonneg. }
  intros i Hi. rewrite Z.lor_spec, Z.shiftr_spec, orb_true_iff, (H i Hi), (H (i + n)) by lia. split.
  - intros [(d & Hd & E)|(d & Hd & E)]; [exists d; split; [lia|done]|].
    exists (n + d). split; [lia|]. by rewrite Z.add_assoc.
  - intros (d & Hd & E). destruct (decide (d < n)); [left; exists d; split; [lia|done]|].
    right. exists (d - n). split; [lia|]. by replace (i + n + (d - n)) with (i + d) by lia.
Qed.

Lemma nextPowerOfTwo_spec v :
  1 ≤ v ≤ 2 ^ 62 → ∃ k, 0 ≤ k ≤ 62 ∧ nextPowerOfTwo v = 2 ^ k ∧ v ≤ 2 ^ k < 2 * v.
Proof.
  intros Hv. unfold nextPowerOfTwo. destruct (Z.leb_spec v 0); [lia|].
  set (u := v - 1).
  assert (∀ i, 0 ≤ i → Z.testbit u i = true ↔ ∃ d, 0 ≤ d < 1 ∧ Z.testbit u (i + d) = true) as H0.
  { intros i Hi. split; [intros; exists 0; rewrite Z.add_0_r; split; [lia|done]|].
    intros (d & Hd & E). by assert (d = 0) as -> by lia; rewrite Z.add_0_r in E. }
  assert (0 ≤ u) as Hu by lia.
  destruct (smear_step u u 1 Hu Hu ltac:(lia) H0) as [P1 H1].
  destruct (smear_step _ u 2 Hu P1 ltac:(lia) H1) as [P2 H2].
  destruct (smear_step _ u 4 Hu P2 ltac:(lia) H2) as [P3 H3].
  destruct (smear_step _ u 8 Hu P3 ltac:(lia) H3) as [P4 H4].
  destruct (smear_step _ u 16 Hu P4 ltac:(lia) H4) as [P5 H5].
  destruct (smear_step _ u 32 Hu P5 ltac:(lia) H5) as [P6 H6].
  cbv zeta. set (x := Z.lor _ (Z.shiftr _ 32)) in *.
  destruct (decide (u = 0)) as [E0|E0].
  { exists 0. assert (x = 0) as ->.
    { apply Z.bits_inj'. intros i Hi. rewrite Z.bits_0. apply Bool.not_true_is_false.
      intros (d & _ & E)%H6; [|done]. by rewrite E0, Z.bits_0 in E. }
    split_and!; [lia|lia|reflexivity|lia|lia]. }
  assert (u < 2 ^ 62) as Hu62 by lia.
  assert (Z.log2 u < 62) as Hlog by (apply Z.log2_lt_pow2; lia).
  pose proof (Z.log2_nonneg u) as Hl0.
  assert (x = Z.ones (Z.log2 u + 1)) as ->.
  { apply Z.bits_inj'. intros i Hi. rewrite Z.testbit_ones_nonneg by lia.
    destruct (Z.ltb_spec i (Z.log2 u + 1)).
    - apply H6; [done|]. exists (Z.log2 u - i). split; [lia|].
      replace (i + (Z.log2 u - i)) with (Z.log2 u) by lia. apply Z.bit_log2. lia.
    - apply Bool.not_true_is_false. intros (d & Hd & E)%H6; [|done].
      rewrite Z.bits_above_log2 in E by lia. done. }
  exists (Z.log2 u + 1). rewrite Z.ones_equiv.
  pose proof (Z.log2_spec u ltac:(lia)) as [Hlo Hhi].
  replace (Z.succ (Z.log2 u)) with (Z.log2 u + 1) in Hhi by lia.
  assert (2 ^ (Z.log2 u + 1) = 2 * 2 ^ Z.log2 u) as Ep by (by rewrite Z.pow_add_r by lia; lia).
  assert (2 ^ (Z.log2 u + 1) ≤ 2 ^ 62) by (apply Z.pow_le_mono_r; lia).
  split_and!; [lia|lia| |lia|lia].
  rewrite wrap64_id; [lia|]. unfold int64, MinInt64, MaxInt64. lia.
Qed.
End ring.

Arguments RingBuffer T : clear implicits.
