(* ===== verification/RingConc.v ===== *)
(** * Matching pipeline: producer and consumer of the ring buffer, interleaved

    One goroutine calls [TryPublish], another [TryConsume] and [DrainTo].  A step of
    the machine is one atomic load, one atomic store or one slot access of either
    goroutine, in program order; Go's atomics are sequentially consistent, so an
    execution is a sequence of such steps.  [pubs] and [outs] record what
    [TryPublish] accepted and what the consumer returned. *)

From S2P Require Import Prelude RingBuffer.

Local Open Scope Z_scope.

Section conc.
Context {T : Type} (zero : T).

(** Where the producer is inside [TryPublish]. *)
Inductive pstate :=
| PIdle
| PLoaded (item : T) (w : Z)    (* w := rb.write.Load() *)
| PRoom (item : T) (w : Z)      (* w - rb.read.Load() <= rb.mask *)
| PWritten (item : T) (w : Z).  (* rb.slots[w & rb.mask] = item *)

(** Where the consumer is inside [TryConsume] or [DrainTo]. *)
Inductive cstate :=
| CIdle
| CLoaded1 (r : Z)                       (* TryConsume: r := rb.read.Load() *)
| CLoaded (r : Z) (dstLen maxItems : Z)  (* DrainTo: r := rb.read.Load() *)
| CCopy (r : Z) (n : nat) (acc : list T). (* n slots to read, [acc] read so far *)

Record sys := mkSys {
  ring : RingBuffer T;
  prod : pstate;
  cons : cstate;
  pubs : list T;
  outs : list T;
}.

Inductive pstep : sys → sys → Prop :=
| p_call rb c ps os item :
    pstep (mkSys rb PIdle c ps os) (mkSys rb (PLoaded item (write rb)) c ps os)
| p_full rb c ps os item w :
    mask rb < wrapu64 (w - read rb) →
    pstep (mkSys rb (PLoaded item w) c ps os) (mkSys rb PIdle c ps os)
| p_room rb c ps os item w :
    wrapu64 (w - read rb) ≤ mask rb →
    pstep (mkSys rb (PLoaded item w) c ps os) (mkSys rb (PRoom item w) c ps os)
| p_slot rb c ps os item w ss :
    arr_set (slots rb) (Z.land w (mask rb)) item = Some ss →
    pstep (mkSys rb (PRoom item w) c ps os)
          (mkSys (mkRing (write rb) (read rb) (mask rb) ss) (PWritten item w) c ps os)
| p_store rb c ps os item w :
    pstep (mkSys rb (PWritten item w) c ps os)
          (mkSys (mkRing (wrapu64 (w + 1)) (read rb) (mask rb) (slots rb)) PIdle c (ps ++ [item]) os).

Inductive cstep : sys → sys → Prop :=
| c_call1 rb p ps os :
    cstep (mkSys rb p CIdle ps os) (mkSys rb p (CLoaded1 (read rb)) ps os)
| c_empty1 rb p ps os r :
    write rb ≤ r → cstep (mkSys rb p (CLoaded1 r) ps os) (mkSys rb p CIdle ps os)
| c_some1 rb p ps os r :
    r < write rb → cstep (mkSys rb p (CLoaded1 r) ps os) (mkSys rb p (CCopy r 1 []) ps os)
| c_call rb p ps os dstLen maxItems :
    0 ≤ dstLen → 0 ≤ maxItems →
    cstep (mkSys rb p CIdle ps os) (mkSys rb p (CLoaded (read rb) dstLen maxItems) ps os)
| c_empty rb p ps os r dstLen maxItems :
    wrap64 (write rb - r) = 0 →
    cstep (mkSys rb p (CLoaded r dstLen maxItems) ps os) (mkSys rb p CIdle ps os)
| c_some rb p ps os r dstLen maxItems :
    wrap64 (write rb - r) ≠ 0 →
    cstep (mkSys rb p (CLoaded r dstLen maxItems) ps os)
          (mkSys rb p
             (CCopy r (Z.to_nat (drain_count (wrap64 (write rb - r)) maxItems dstLen)) []) ps os)
| c_copy rb p ps os r n acc item :
    (length acc < n)%nat →
    arr_get (slots rb) (Z.land (wrapu64 (r + Z.of_nat (length acc))) (mask rb)) = Some item →
    cstep (mkSys rb p (CCopy r n acc) ps os) (mkSys rb p (CCopy r n (acc ++ [item])) ps os)
| c_done rb p ps os r n acc :
    length acc = n →
    cstep (mkSys rb p (CCopy r n acc) ps os)
          (mkSys (mkRing (write rb) (wrapu64 (r + Z.of_nat n)) (mask rb) (slots rb)) p CIdle ps
             (os ++ acc)).

Definition step (s s' : sys) : Prop := pstep s s' ∨ cstep s s'.

Inductive rreach (requestedCap : Z) : sys → Prop :=
| rreach_new : rreach requestedCap (mkSys (New zero requestedCap) PIdle CIdle [] [])
| rreach_step s s' : rreach requestedCap s → step s s' → rreach requestedCap s'.

(** ** The invariant *)

(** Slot [i mod cap] holds the [i]-th published item, for every [i] not yet
    consumed. *)
Record ring_ok (k : Z) (s : sys) : Prop := {
  ok_k : 0 ≤ k ≤ 62;
  ok_mask : mask (ring s) = 2 ^ k - 1;
  ok_len : Z.of_nat (length (slots (ring s))) = 2 ^ k;
  ok_write : write (ring s) = Z.of_nat (length (pubs s));
  ok_read : read (ring s) = Z.of_nat (length (outs s));
  ok_outs : outs s `prefix_of` pubs s;
  ok_size : Z.of_nat (length (pubs s)) ≤ Z.of_nat (length (outs s)) + 2 ^ k;
  ok_slots : ∀ i : nat, (length (outs s) ≤ i < length (pubs s))%nat →
    slots (ring s) !! Z.to_nat (Z.of_nat i `mod` 2 ^ k) = pubs s !! i;
  ok_prod : match prod s with
    | PIdle => True
    | PLoaded _ w => w = write (ring s)
    | PRoom _ w => w = write (ring s) ∧ w - read (ring s) < 2 ^ k
    | PWritten item w => w = write (ring s) ∧ w - read (ring s) < 2 ^ k ∧
        slots (ring s) !! Z.to_nat (w `mod` 2 ^ k) = Some item
    end;
  ok_cons : match cons s with
    | CIdle => True
    | CLoaded1 r => r = read (ring s)
    | CLoaded r dstLen maxItems => r = read (ring s) ∧ 0 ≤ dstLen ∧ 0 ≤ maxItems
    | CCopy r n acc => r = read (ring s) ∧ r + Z.of_nat n ≤ write (ring s) ∧
        (length acc ≤ n)%nat ∧ (outs s ++ acc) `prefix_of` pubs s
    end;
}.

Definition bounded (s : sys) : Prop := Z.of_nat (length (pubs s)) < 2 ^ 64.

Lemma land_mask w k : 0 ≤ k → Z.land w (2 ^ k - 1) = w `mod` 2 ^ k.
Proof. intros Hk. rewrite <-Z.land_ones by done. by rewrite Z.ones_equiv, Z.sub_1_r. Qed.

Lemma pow_bound k : 0 ≤ k ≤ 62 → 1 ≤ 2 ^ k ≤ 2 ^ 62.
Proof.
  intros Hk. split; [|apply Z.pow_le_mono_r; lia]. apply (Z.pow_le_mono_r 2 0 k); lia.
Qed.

Lemma wrapu64_small z : 0 ≤ z < 2 ^ 64 → wrapu64 z = z.
Proof. apply wrapu64_id. Qed.

(** Two indices less than a capacity apart use different slots. *)
Lemma mod_apart a b c : 0 < c → a < b < a + c → a `mod` c ≠ b `mod` c.
Proof.
  intros Hc Hab E. assert (c ≠ 0) as Hc0 by lia.
  pose proof (Z.div_mod a c Hc0) as Ha. pose proof (Z.div_mod b c Hc0) as Hb. rewrite E in Ha.
  revert Ha Hb. generalize (a `div` c) (b `div` c) (b `mod` c). intros x y m Ha Hb. clear E.
  assert (b - a = c * (y - x)) by nia. destruct (decide (y - x ≤ 0)); nia.
Qed.

Lemma prefix_snoc_lookup (l1 l2 : list T) x :
  l1 `prefix_of` l2 → l2 !! length l1 = Some x → (l1 ++ [x]) `prefix_of` l2.
Proof.
  intros [l ->] H. rewrite lookup_app_r, Nat.sub_diag in H by lia.
  destruct l as [|y l]; [done|]. injection H as ->. exists l. by rewrite <-app_assoc.
Qed.

Lemma ring_ok_new requestedCap :
  requestedCap ≤ 2 ^ 62 →
  ∃ k, 4 ≤ k ≤ 62 ∧ requestedCap ≤ 2 ^ k ∧
    ring_ok k (mkSys (New zero requestedCap) PIdle CIdle [] []).
Proof.
  intros Hc. assert (∃ k, 4 ≤ k ≤ 62 ∧ requestedCap ≤ 2 ^ k ∧
    (let cap := nextPowerOfTwo requestedCap in if cap <? 16 then 16 else cap) = 2 ^ k)
    as (k & Hk & Hle & E).
  { destruct (Z.leb_spec requestedCap 0) as [H0|H0].
    { exists 4. split_and!; [lia..|]. unfold nextPowerOfTwo. by rewrite (proj2 (Z.leb_le _ _) H0). }
    destruct (nextPowerOfTwo_spec requestedCap) as (k & Hk & E & Hv); [lia|]. rewrite E. cbv zeta.
    destruct (Z.ltb_spec (2 ^ k) 16); [exists 4; split_and!; [lia..|done]|].
    exists k. split_and!; [|lia|lia|done]. change 16 with (2 ^ 4) in *.
    apply (Z.pow_le_mono_r_iff 2); lia. }
  pose proof (pow_bound k ltac:(lia)).
  exists k. split_and!; [lia|lia|lia|]. unfold New. cbv zeta in E. rewrite E.
  split; cbn [ring mask slots write read pubs outs prod cons]; try done.
  - lia.
  - rewrite length_replicate. lia.
  - simpl. lia.
  - intros i Hi. simpl in Hi. lia.
Qed.

(** ** The invariant is kept *)

Lemma ring_ok_pstep k s s' : ring_ok k s → bounded s' → pstep s s' → ring_ok k s'.
Proof.
  intros Hok Hbd Hs. destruct Hok as [Hk Hm Hl Hw Hr Ho Hsz Hsl Hp Hc].
  pose proof (pow_bound k Hk) as Hpow. unfold bounded in Hbd.
  pose proof (prefix_length _ _ Ho) as Hlen.
  destruct Hs as [rb c ps os item|rb c ps os item w Hfull|rb c ps os item w Hroom
    |rb c ps os item w ss Hset|rb c ps os item w];
    cbn [ring prod cons pubs outs] in *.
  - by split; cbn [ring prod cons pubs outs].
  - by split; cbn [ring prod cons pubs outs].
  - split; cbn [ring prod cons pubs outs]; try done. split; [done|].
    rewrite wrapu64_small in Hroom by lia. lia.
  - destruct Hp as [-> Hlt]. rewrite Hm, land_mask in Hset by lia.
    set (j := write rb `mod` 2 ^ k) in *.
    assert (0 ≤ j < 2 ^ k) as Hj by (apply Z.mod_pos_bound; lia).
    rewrite arr_set_Some in Hset by lia. injection Hset as <-.
    split; cbn [ring prod cons pubs outs write read mask slots]; try done.
    + by rewrite length_insert.
    + intros i Hi. rewrite list_lookup_insert_ne; [by apply Hsl|]. intros E.
      apply (mod_apart (Z.of_nat i) (write rb) (2 ^ k)); [lia|lia|]. fold j.
      pose proof (Z.mod_pos_bound (Z.of_nat i) (2 ^ k)). lia.
    + split_and!; [done|done|]. apply list_lookup_insert_eq. lia.
  - destruct Hp as (-> & Hlt & Hslot). rewrite length_app in Hbd. simpl in Hbd.
    rewrite wrapu64_small by lia.
    split; cbn [ring prod cons pubs outs write read mask slots]; try done.
    + rewrite length_app. simpl. lia.
    + by apply prefix_app_r.
    + rewrite length_app. simpl. lia.
    + intros i Hi. rewrite length_app in Hi. simpl in Hi.
      destruct (decide (i = length ps)) as [->|Hne].
      * rewrite <-Hw, Hslot, lookup_app_r, Nat.sub_diag by lia. done.
      * rewrite lookup_app_l by lia. apply Hsl. lia.
    + destruct c as [|r|r d m|r n acc]; try done.
      destruct Hc as (-> & Hn & Hacc & Hpre). split_and!; [done|lia|done|by apply prefix_app_r].
Qed.

Lemma ring_ok_cstep k s s' : ring_ok k s → bounded s' → cstep s s' → ring_ok k s'.
Proof.
  intros Hok Hbd Hs. destruct Hok as [Hk Hm Hl Hw Hr Ho Hsz Hsl Hp Hc].
  pose proof (pow_bound k Hk) as Hpow. unfold bounded in Hbd.
  pose proof (prefix_length _ _ Ho) as Hlen.
  destruct Hs as [rb p ps os|rb p ps os r He|rb p ps os r He|rb p ps os d m Hd Hmx|rb p ps os r d m He
    |rb p ps os r d m He|rb p ps os r n acc item Hn Hget|rb p ps os r n acc Hn];
    cbn [ring prod cons pubs outs] in *;
    try by split; cbn [ring prod cons pubs outs].
  - subst r. split; cbn [ring prod cons pubs outs]; try done.
    split_and!; [done|lia|simpl; lia|]. by rewrite app_nil_r.
  - destruct Hc as (-> & Hd & Hmx). rewrite wrap64_id in He |- * by (unfold int64, MinInt64, MaxInt64; lia).
    split; cbn [ring prod cons pubs outs]; try done.
    split_and!; [done| |simpl; lia|by rewrite app_nil_r].
    unfold drain_count. cbv zeta. repeat case_match; lia.
  - destruct Hc as (-> & Hn' & Hacc & Hpre). pose proof (prefix_length _ _ Hpre) as Hpl.
    rewrite length_app in Hpl.
    split; cbn [ring prod cons pubs outs]; try done.
    rewrite length_app. simpl. split_and!; [done|done|lia|]. rewrite app_assoc.
    apply prefix_snoc_lookup; [done|]. rewrite <-Hsl by (rewrite length_app; lia).
    rewrite wrapu64_small, Hm, land_mask in Hget by lia. unfold arr_get in Hget.
    destruct (Z.ltb_spec ((read rb + Z.of_nat (length acc)) `mod` 2 ^ k) 0); [done|].
    rewrite <-Hget. f_equal. f_equal. f_equal. rewrite length_app. lia.
  - destruct Hc as (-> & Hn' & Hacc & Hpre). subst n. rewrite wrapu64_small by lia.
    split; cbn [ring prod cons pubs outs write read mask slots]; try done.
    + rewrite length_app. lia.
    + rewrite length_app. lia.
    + intros i Hi. rewrite length_app in Hi. apply Hsl. lia.
    + destruct p as [|item w|item w|item w]; try done.
      * destruct Hp as [-> Hlt]. split; [done|lia].
      * destruct Hp as (-> & Hlt & Hslot). split_and!; [done|lia|done].
Qed.

Lemma step_pubs s s' : step s s' → pubs s `prefix_of` pubs s'.
Proof. intros [Hs|Hs]; destruct Hs; simpl; try done. by apply prefix_app_r. Qed.

Lemma rreach_ok requestedCap s :
  requestedCap ≤ 2 ^ 62 → rreach requestedCap s → bounded s →
  ∃ k, 4 ≤ k ≤ 62 ∧ requestedCap ≤ 2 ^ k ∧ ring_ok k s.
Proof.
  intros Hc. induction 1 as [|s s' _ IH Hs]; intros Hb; [by apply ring_ok_new|].
  destruct IH as (k & Hk & Hle & Hok).
  { unfold bounded in *. pose proof (prefix_length _ _ (step_pubs _ _ Hs)). lia. }
  exists k. split_and!; [lia|lia|done|].
  destruct Hs as [Hs|Hs]; [by eapply ring_ok_pstep|by eapply ring_ok_cstep].
Qed.

(** ** What is in the buffer *)

Lemma drain_loop_items k s i n :
  ring_ok k s → bounded s → (length (outs s) + i + n ≤ length (pubs s))%nat →
  drain_loop (ring s) (read (ring s)) i n = Some (take n (drop (length (outs s) + i) (pubs s))).
Proof.
  intros Hok Hbd. pose proof (pow_bound k (ok_k _ _ Hok)) as Hpow.
  pose proof (ok_read _ _ Hok) as Hr. unfold bounded in Hbd.
  revert i. induction n as [|n IH]; intros i Hn; cbn [drain_loop]; [done|].
  destruct (lookup_lt_is_Some_2 (pubs s) (length (outs s) + i)) as [x Hx]; [lia|].
  rewrite wrapu64_small, (ok_mask _ _ Hok), land_mask by (lia || apply (ok_k _ _ Hok)).
  pose proof (Z.mod_pos_bound (read (ring s) + Z.of_nat i) (2 ^ k) ltac:(lia)) as Hj.
  unfold arr_get. destruct (Z.ltb_spec ((read (ring s) + Z.of_nat i) `mod` 2 ^ k) 0); [lia|].
  replace (read (ring s) + Z.of_nat i) with (Z.of_nat (length (outs s) + i)) by lia.
  rewrite (ok_slots _ _ Hok), Hx, Some_bind by lia.
  rewrite IH, Some_bind by lia. rewrite (drop_S _ _ _ Hx). simpl.
  by replace (length (outs s) + S i)%nat with (S (length (outs s) + i)) by lia.
Qed.

(** The unconsumed items, read off the slots. *)
Definition contents (rb : RingBuffer T) : option (list T) :=
  drain_loop rb (read rb) 0 (Z.to_nat (Size rb)).

(** ** Own steps left in the operation a goroutine is in *)

Definition pmeasure (s : sys) : nat :=
  match prod s with PIdle => 0 | PWritten _ _ => 1 | PRoom _ _ => 2 | PLoaded _ _ => 3 end.

Definition cmeasure (s : sys) : nat :=
  match cons s with
  | CIdle => 0
  | CCopy _ n acc => (n - length acc) + 1
  | CLoaded1 _ => 3
  | CLoaded _ _ _ => Z.to_nat (mask (ring s) + 1) + 2
  end.

Lemma pstep_decreases s s' : pstep s s' → prod s ≠ PIdle → (pmeasure s' < pmeasure s)%nat.
Proof. by destruct 1; cbn; intros ?; try lia. Qed.

Lemma drain_count_le avail maxItems dstLen : drain_count avail maxItems dstLen ≤ avail.
Proof. unfold drain_count. cbv zeta. repeat case_match; lia. Qed.

Lemma cstep_decreases k s s' :
  ring_ok k s → bounded s → cstep s s' → cons s ≠ CIdle → (cmeasure s' < cmeasure s)%nat.
Proof.
  intros Hok Hbd Hs. pose proof (pow_bound k (ok_k _ _ Hok)) as Hpow.
  destruct Hok as [Hk Hm Hl Hw Hr Ho Hsz Hsl Hp Hc]. unfold bounded in Hbd.
  destruct Hs; cbn [cons ring pubs outs cmeasure] in *; intros ?; try done; try (cbn; lia).
  - destruct Hc as (-> & _). pose proof (prefix_length _ _ Ho).
    pose proof (drain_count_le (wrap64 (write rb - read rb)) maxItems dstLen) as Hd.
    revert Hd. rewrite wrap64_id by (unfold int64, MinInt64, MaxInt64; lia).
    intros Hd. cbn. lia.
  - cbn. rewrite length_app. cbn. lia.
Qed.

Lemma ring_progress k s :
  ring_ok k s →
  (∃ s', pstep s s') ∧ (∃ s', cstep s s').
Proof.
  intros Hok. pose proof (pow_bound k (ok_k _ _ Hok)) as Hpow.
  destruct Hok as [Hk Hm Hl _ _ _ _ _ _ Hc]. destruct s as [rb p c ps os].
  cbn [ring prod cons pubs outs] in *.
  assert (∀ w, 0 ≤ Z.land w (mask rb) < Z.of_nat (length (slots rb))) as Hidx.
  { intros w. rewrite Hm, land_mask, Hl by lia. apply Z.mod_pos_bound. lia. }
  split.
  - destruct p as [|item w|item w|item w].
    + destruct (slots rb) as [|x l]; [simpl in Hl; lia|]. eexists. by apply (p_call _ _ _ _ x).
    + destruct (decide (mask rb < wrapu64 (w - read rb))); eexists;
        [by apply p_full|apply p_room; lia].
    + eexists. apply p_slot. by apply arr_set_Some.
    + eexists. apply p_store.
  - destruct c as [|r|r d m|r n acc].
    + eexists. apply c_call1.
    + destruct (decide (write rb ≤ r)); eexists; [by apply c_empty1|apply c_some1; lia].
    + destruct (decide (wrap64 (write rb - r) = 0)); eexists; [by apply c_empty|by apply c_some].
    + destruct Hc as (_ & _ & Hle & _). destruct (decide (length acc = n)).
      * eexists. by apply c_done.
      * destruct (arr_get_Some (slots rb) _ (Hidx (wrapu64 (r + Z.of_nat (length acc)))))
          as [x Hx]. eexists. apply c_copy; [lia|exact Hx].
Qed.

(** ** Theorems *)

(** C11: the ring buffer is a FIFO queue under every interleaving: whatever the
    producer and the consumer do, step by step, the items the consumer has returned
    and the items still in the slots are together exactly the items [TryPublish]
    accepted, in order, none lost, repeated or overwritten, and there are never more
    than the capacity pending. *)
Theorem ring_fifo requestedCap s :
  requestedCap ≤ 2 ^ 62 → rreach requestedCap s → bounded s →
  ∃ pending, contents (ring s) = Some pending ∧ pubs s = outs s ++ pending ∧
    Z.of_nat (length pending) ≤ Cap (ring s) ∧ requestedCap ≤ Cap (ring s).
Proof.
  intros Hc Hr Hb. destruct (rreach_ok _ _ Hc Hr Hb) as (k & Hk & Hle & Hok).
  pose proof (pow_bound k ltac:(lia)) as Hpow. pose proof (prefix_length _ _ (ok_outs _ _ Hok)) as Hlen.
  pose proof (ok_size _ _ Hok) as Hsz. unfold bounded in Hb.
  assert (Size (ring s) = Z.of_nat (length (pubs s) - length (outs s))) as Esz.
  { unfold Size. rewrite (ok_write _ _ Hok), (ok_read _ _ Hok).
    rewrite wrap64_id by (unfold int64, MinInt64, MaxInt64; lia). lia. }
  assert (Cap (ring s) = 2 ^ k) as Ecap.
  { unfold Cap. rewrite (ok_mask _ _ Hok), wrap64_id by (unfold int64, MinInt64, MaxInt64; lia). lia. }
  exists (drop (length (outs s)) (pubs s)). unfold contents. rewrite Esz, Nat2Z.id.
  rewrite (drain_loop_items k) by (done || lia). rewrite Nat.add_0_r.
  split_and!.
  - f_equal. apply take_ge. rewrite length_drop. lia.
  - destruct (ok_outs _ _ Hok) as [l El]. rewrite El at 2. by rewrite El, drop_app_length.
  - rewrite length_drop, Ecap. lia.
  - lia.
Qed.

(** The operations are wait-free: in every reachable state both goroutines can
    take a step whatever the other is doing, and each step a goroutine takes inside
    an operation brings it closer to the end of that operation (at most four steps
    for [TryPublish], capacity plus three for [DrainTo]). *)
Theorem ring_wait_free requestedCap s :
  requestedCap ≤ 2 ^ 62 → rreach requestedCap s → bounded s →
  (∃ s', pstep s s') ∧ (∃ s', cstep s s') ∧
  (∀ s', pstep s s' → prod s ≠ PIdle → (pmeasure s' < pmeasure s)%nat) ∧
  (∀ s', cstep s s' → cons s ≠ CIdle → (cmeasure s' < cmeasure s)%nat).
Proof.
  intros Hc Hr Hb. destruct (rreach_ok _ _ Hc Hr Hb) as (k & Hk & Hle & Hok).
  destruct (ring_progress k s Hok) as [Hp Hcs].
  split_and!; [done|done|intros s'; apply pstep_decreases|intros s'; by apply (cstep_decreases k)].
Qed.
End conc.

Arguments sys T : clear implicits.

(** ** Witness: two items published, the first being drained *)

Definition ring_demo1 : sys Z :=
  mkSys (mkRing 1 0 15 [7; 0; 0; 0; 0; 0; 0; 0; 0; 0; 0; 0; 0; 0; 0; 0]) PIdle CIdle [7] [].

Lemma ring_demo1_reach : rreach 0 10 ring_demo1.
Proof.
  change ring_demo1 with (mkSys (mkRing (wrapu64 (write (New 0 10) + 1)) (read (New 0 10))
    (mask (New 0 10)) [7; 0; 0; 0; 0; 0; 0; 0; 0; 0; 0; 0; 0; 0; 0; 0]) PIdle CIdle ([] ++ [7]) []).
  eapply rreach_step; [eapply rreach_step; [eapply rreach_step; [eapply rreach_step;
    [apply (rreach_new 0 10)|left; apply (p_call _ _ _ _ 7)]
    |left; apply p_room; vm_compute; discriminate]
    |left; apply p_slot; vm_compute; reflexivity]
    |left; exact (p_store (mkRing (write (New 0 10)) (read (New 0 10)) (mask (New 0 10)) _) _ [] _ 7 _)].
Qed.

Lemma ring_fifo_witness :
  ∃ pending, contents (ring ring_demo1) = Some pending ∧ [7] = [] ++ pending ∧
    Z.of_nat (length pending) ≤ Cap (ring ring_demo1) ∧ 10 ≤ Cap (ring ring_demo1).
Proof.
  apply (ring_fifo 0 10 ring_demo1); [lia|exact ring_demo1_reach|vm_compute; reflexivity].
Defined.

Lemma ring_wait_free_witness :
  (∃ s', pstep ring_demo1 s') ∧ (∃ s', cstep ring_demo1 s').
Proof.
  destruct (ring_wait_free 0 10 ring_demo1) as (H1 & H2 & _);
    [lia|exact ring_demo1_reach|vm_compute; reflexivity|].
  split; [exact H1|exact H2].
Defined.

(** ** The ring buffer as a queue

    What [TryPublish] and [DrainTo] do to the queue when each runs to its end, from
    the invariant of the interleaved machine; and what happens when a second
    goroutine publishes, which the buffer is not made for. *)

Section seq.
Context {T : Type}.
Implicit Types (rb : RingBuffer T) (published taken : list T).

(** Neither goroutine is inside an operation; [published] were accepted, [taken]
    were consumed. *)
Definition queue (k : Z) rb published taken : Prop :=
  ring_ok k (mkSys rb PIdle CIdle published taken).

Lemma queue_prefix k rb published taken : queue k rb published taken → taken `prefix_of` published.
Proof. apply ok_outs. Qed.

Lemma TryPublish_queue k rb published taken item :
  queue k rb published taken → Z.of_nat (S (length published)) < 2 ^ 64 →
  ∃ rb' ok, TryPublish rb item = Some (rb', ok) ∧
    if ok then queue k rb' (published ++ [item]) taken
    else rb' = rb ∧ Z.of_nat (length published) = Z.of_nat (length taken) + 2 ^ k.
Proof.
  intros Hq Hb. pose proof (pow_bound k (ok_k _ _ Hq)) as Hpow.
  pose proof (ok_write _ _ Hq) as Hw. pose proof (ok_read _ _ Hq) as Hr.
  pose proof (ok_mask _ _ Hq) as Hm. pose proof (ok_size _ _ Hq) as Hsz.
  pose proof (ok_len _ _ Hq) as Hl. pose proof (prefix_length _ _ (ok_outs _ _ Hq)) as Hle.
  cbn [ring pubs outs] in *. unfold TryPublish.
  assert (∀ s' : sys T, Z.of_nat (length (pubs s')) ≤ Z.of_nat (S (length published)) → bounded s') as Hbd.
  { intros s'. unfold bounded. lia. }
  assert (0 ≤ Z.land (write rb) (mask rb) < Z.of_nat (length (slots rb))) as Hidx.
  { rewrite Hm, land_mask, Hl by apply (ok_k _ _ Hq). apply Z.mod_pos_bound. lia. }
  destruct (Z.ltb_spec (mask rb) (wrapu64 (write rb - read rb))) as [Hfull|Hroom].
  - exists rb, false. split; [done|]. split; [done|].
    rewrite wrapu64_small in Hfull by lia. lia.
  - rewrite (arr_set_Some _ _ _ Hidx), Some_bind. eexists _, true. split; [done|].
    assert (ring_ok k (mkSys rb (PLoaded item (write rb)) CIdle published taken)) as H1
      by (eapply ring_ok_pstep; [exact Hq|apply Hbd; simpl; lia|apply p_call]).
    assert (ring_ok k (mkSys rb (PRoom item (write rb)) CIdle published taken)) as H2
      by (eapply ring_ok_pstep; [exact H1|apply Hbd; simpl; lia|by apply p_room]).
    eapply ring_ok_pstep in H2; [|apply (Hbd _)|by apply p_slot, arr_set_Some]; [|simpl; lia].
    eapply ring_ok_pstep; [exact H2|apply Hbd; simpl; rewrite length_app; simpl; lia|].
    exact (p_store (mkRing (write rb) (read rb) (mask rb)
      (<[Z.to_nat (Z.land (write rb) (mask rb)) := item]> (slots rb))) CIdle published taken item (write rb)).
Qed.

Lemma DrainTo_queue k rb published taken n :
  queue k rb published taken → Z.of_nat (length published) < 2 ^ 64 → 1 ≤ n →
  ∃ rb' items, DrainTo rb n n = Some (rb', items) ∧ queue k rb' published (taken ++ items) ∧
    Z.of_nat (length items) ≤ n ∧ (items = [] → taken = published).
Proof.
  intros Hq Hb Hn. pose proof (pow_bound k (ok_k _ _ Hq)) as Hpow.
  pose proof (ok_write _ _ Hq) as Hw. pose proof (ok_read _ _ Hq) as Hr.
  pose proof (ok_size _ _ Hq) as Hsz. pose proof (ok_outs _ _ Hq) as Ho.
  pose proof (prefix_length _ _ Ho) as Hle. cbn [ring pubs outs] in *.
  unfold DrainTo. rewrite wrap64_id by (unfold int64, MinInt64, MaxInt64; lia).
  destruct (Z.eqb_spec (write rb - read rb) 0) as [E0|E0].
  - exists rb, []. rewrite app_nil_r. split_and!; [done|done|simpl; lia|]. intros _.
    by apply prefix_length_eq; [|lia].
  - set (m := drain_count (write rb - read rb) n n).
    assert (1 ≤ m ≤ write rb - read rb ∧ m ≤ n) as [Hm1 Hm2].
    { unfold m, drain_count. cbv zeta.
      destruct (Z.ltb_spec n (write rb - read rb)).
      - destruct (Z.ltb_spec n n); lia.
      - destruct (Z.ltb_spec n (write rb - read rb)); lia. }
    pose proof (drain_loop_items k _ 0 (Z.to_nat m) Hq Hb ltac:(simpl; lia)) as Hd.
    cbn [ring pubs outs] in Hd. rewrite Hd, Some_bind, Nat.add_0_r.
    set (items := take (Z.to_nat m) (drop (length taken) published)).
    assert (length items = Z.to_nat m) as Hlen
      by (unfold items; rewrite length_take, length_drop; lia).
    assert (taken ++ items `prefix_of` published) as Hpre.
    { destruct Ho as [rest ->]. unfold items. rewrite drop_app_length. apply prefix_app, prefix_take. }
    eexists _, items. split; [done|]. split_and!; [|lia|intros ->; simpl in Hlen; lia].
    assert (ring_ok k (mkSys rb PIdle (CCopy (read rb) (Z.to_nat m) items) published taken)) as Hc.
    { destruct Hq as [Hk1 Hk2 Hk3 Hk4 Hk5 Hk6 Hk7 Hk8 Hk9 _]. cbn [ring prod cons pubs outs] in *.
      split; cbn [ring prod cons pubs outs]; try done. split_and!; [done|lia|lia|done]. }
    apply (ring_ok_cstep k _ (mkSys (mkRing (write rb) (wrapu64 (read rb + m)) (mask rb) (slots rb))
      PIdle CIdle published (taken ++ items))) in Hc; [exact Hc|done|].
    pose proof (c_done rb PIdle published taken (read rb) (Z.to_nat m) items Hlen) as Hdone.
    by rewrite Z2Nat.id in Hdone by lia.
Qed.
End seq.

(** ** Two producers

    The matching service publishes to a book's ring buffer from the gateway's
    partition goroutine ([Route]) and from the expiry sweeper's ([SubmitCancel]). *)

Section two.
Context {T : Type}.

(** The second producer's program counter beside the machine. *)
Inductive step2 : sys T * pstate → sys T * pstate → Prop :=
| step2_first s s' p2 : pstep s s' → step2 (s, p2) (s', p2)
| step2_second s s' p2 :
    pstep (mkSys (ring s) p2 (cons s) (pubs s) (outs s)) s' →
    step2 (s, p2) (mkSys (ring s') (prod s) (cons s') (pubs s') (outs s'), prod s').
End two.

(** Both calls read the same write cursor; both report success, and one of the two
    commands is gone. *)
Lemma two_producers_lose_a_command :
  ∃ s, rtc step2 (mkSys (New 0 16) PIdle CIdle [] [], PIdle) (s, PIdle) ∧ prod s = PIdle ∧
    pubs s = [1; 2] ∧ contents (ring s) = Some [2].
Proof.
  set (r0 := New 0 16).
  set (r1 := mkRing 0 0 15 (<[0%nat := 1]> (replicate 16 0))).
  set (r2 := mkRing 0 0 15 (<[0%nat := 2]> (replicate 16 0))).
  set (r3 := mkRing 1 0 15 (<[0%nat := 2]> (replicate 16 0))).
  exists (mkSys r3 PIdle CIdle [1; 2] []). split; [|by vm_compute].
  assert (∀ (rb rb' : RingBuffer Z) p p' ps ps' p2, pstep (mkSys rb p CIdle ps []) (mkSys rb' p' CIdle ps' []) →
    step2 (mkSys rb p CIdle ps [], p2) (mkSys rb' p' CIdle ps' [], p2)) as A by (intros; by constructor).
  assert (∀ (rb rb' : RingBuffer Z) p p2 p2' ps ps', pstep (mkSys rb p2 CIdle ps []) (mkSys rb' p2' CIdle ps' []) →
    step2 (mkSys rb p CIdle ps [], p2) (mkSys rb' p CIdle ps' [], p2')) as B.
  { intros rb rb' p p2 p2' ps ps' H. exact (step2_second (mkSys rb p CIdle ps []) _ p2 H). }
  eapply rtc_l; [apply A, (p_call r0 _ _ _ 1)|].
  eapply rtc_l; [apply B, (p_call r0 _ _ _ 2)|].
  eapply rtc_l; [apply A, p_room; by vm_compute|].
  eapply rtc_l; [apply B, p_room; by vm_compute|].
  eapply rtc_l; [apply A, (p_slot r0 _ _ _ _ _ (<[0%nat := 1]> (replicate 16 0))); reflexivity|].
  eapply rtc_l; [apply B, (p_slot r1 _ _ _ _ _ (<[0%nat := 2]> (replicate 16 0))); reflexivity|].
  eapply rtc_l; [apply A, (p_store r2)|].
  eapply rtc_l; [apply B, (p_store r3)|].
  apply rtc_refl.
Qed.
