(* ===== verification/Protocol.v ===== *)
(** * Matching pipeline: the ring-buffer protocol

    [matching/pipeline/protocol.go]: the flags that replace the enumeration
    strings on the hot path, the [MatchCommand] a ring buffer carries, its
    conversions from and to the Kafka command and to the engine's order, and the
    [MatchResult] on the output channel. *)

From S2P Require Import Prelude Strings Messages MatchModel Engine.

Local Open Scope Z_scope.

(** ** From strings to the enumerations ([model.OrderSide(s)] and the like) *)

Definition OrderSide_of_string (s : string) : OrderSide :=
  if String.eqb s "BUY" then OrderSideBuy
  else if String.eqb s "SELL" then OrderSideSell else OrderSideOther s.

Definition OrderType_of_string (s : string) : OrderType :=
  if String.eqb s "LIMIT" then OrderTypeLimit
  else if String.eqb s "MARKET" then OrderTypeMarket else OrderTypeOther s.

Definition TimeInForce_of_string (s : string) : TimeInForce :=
  if String.eqb s "GTC" then TimeInForceGTC
  else if String.eqb s "IOC" then TimeInForceIOC
  else if String.eqb s "FOK" then TimeInForceFOK
  else if String.eqb s "POST_ONLY" then TimeInForcePostOnly else TimeInForceOther s.

Definition STPStrategy_of_string (s : string) : STPStrategy :=
  if String.eqb s "" then STPNone
  else if String.eqb s "CANCEL_TAKER" then STPCancelTaker
  else if String.eqb s "CANCEL_MAKER" then STPCancelMaker
  else if String.eqb s "CANCEL_BOTH" then STPCancelBoth else STPOther s.

Definition STPStrategy_string (s : STPStrategy) : string :=
  match s with
  | STPNone => "" | STPCancelTaker => "CANCEL_TAKER" | STPCancelMaker => "CANCEL_MAKER"
  | STPCancelBoth => "CANCEL_BOTH" | STPOther s => s
  end.

(** ** Flags (each a [uint8]) *)

Definition SideBuy : Z := 0.
Definition SideSell : Z := 1.
Definition SideFlagFrom (s : OrderSide) : Z :=
  if bool_decide (s = OrderSideSell) then SideSell else SideBuy.
Definition SideFlag_ToModel (f : Z) : OrderSide :=
  if f =? SideSell then OrderSideSell else OrderSideBuy.

Definition TypeLimit : Z := 0.
Definition TypeMarket : Z := 1.
Definition TypeFlagFrom (t : OrderType) : Z :=
  if bool_decide (t = OrderTypeMarket) then TypeMarket else TypeLimit.
Definition TypeFlag_ToModel (f : Z) : OrderType :=
  if f =? TypeMarket then OrderTypeMarket else OrderTypeLimit.

Definition TIFGTC : Z := 0.
Definition TIFIOC : Z := 1.
Definition TIFFOK : Z := 2.
Definition TIFPostOnly : Z := 3.
Definition TIFFlagFrom (t : TimeInForce) : Z :=
  match t with
  | TimeInForceIOC => TIFIOC
  | TimeInForceFOK => TIFFOK
  | TimeInForcePostOnly => TIFPostOnly
  | _ => TIFGTC
  end.
Definition TIFFlag_ToModel (f : Z) : TimeInForce :=
  if f =? TIFIOC then TimeInForceIOC
  else if f =? TIFFOK then TimeInForceFOK
  else if f =? TIFPostOnly then TimeInForcePostOnly else TimeInForceGTC.

Definition STPFlagNone : Z := 0.
Definition STPFlagCancelTaker : Z := 1.
Definition STPFlagCancelMaker : Z := 2.
Definition STPFlagCancelBoth : Z := 3.
Definition STPFlagFrom (s : STPStrategy) : Z :=
  match s with
  | STPCancelTaker => STPFlagCancelTaker
  | STPCancelMaker => STPFlagCancelMaker
  | STPCancelBoth => STPFlagCancelBoth
  | _ => STPFlagNone
  end.
Definition STPFlag_ToModel (f : Z) : STPStrategy :=
  if f =? STPFlagCancelTaker then STPCancelTaker
  else if f =? STPFlagCancelMaker then STPCancelMaker
  else if f =? STPFlagCancelBoth then STPCancelBoth else STPNone.

Definition ActionPlace : Z := 0.
Definition ActionCancel : Z := 1.

Definition CancelReasonFlagMarketClosed : Z := 1.
Definition CancelReasonFlag_ToModel (f : Z) : CancelReason :=
  if f =? CancelReasonFlagMarketClosed then CancelReasonMarketClosed else CancelReasonNone.

(** ** Commands *)

Module MatchCommand.
Record t := mk {
  UserID : Z;
  MarketID : Z;
  Price : Z;
  Quantity : Z;
  FreezeAmount : Z;
  RequestedAtMillis : Z;
  OrderID : string;
  ClientOrderID : string;
  Outcome : string;
  BookKey : string;
  CommandID : string;
  TraceID : string;
  FreezeID : string;
  FreezeAsset : string;
  CollateralAsset : string;
  Action : Z;
  Side : Z;
  Type_ : Z;
  TimeInForce : Z;
  STP : Z;
  CancelReason : Z;
}.

(** The Go zero value. *)
Definition zero : t := mk 0 0 0 0 0 0 "" "" "" "" "" "" "" "" "" 0 0 0 0 0 0.

Definition set_Action (c : t) (a : Z) : t :=
  mk (UserID c) (MarketID c) (Price c) (Quantity c) (FreezeAmount c) (RequestedAtMillis c)
     (OrderID c) (ClientOrderID c) (Outcome c) (BookKey c) (CommandID c) (TraceID c)
     (FreezeID c) (FreezeAsset c) (CollateralAsset c) a (Side c) (Type_ c) (TimeInForce c)
     (STP c) (CancelReason c).

Definition ToOrder (c : t) (nowMillis : Z) : Order.t :=
  Order.mk (OrderID c) (ClientOrderID c) (UserID c) (MarketID c) (Outcome c)
    (SideFlag_ToModel (Side c)) (TypeFlag_ToModel (Type_ c)) (TIFFlag_ToModel (TimeInForce c))
    (STPFlag_ToModel (STP c)) (Price c) (Quantity c) 0 OrderStatusUnset CancelReasonUnset
    (RequestedAtMillis c) nowMillis.

Definition ToKafkaCommand (c : t) : OrderCommand.t :=
  OrderCommand.mk (CommandID c) (TraceID c) (OrderID c) (ClientOrderID c) (FreezeID c)
    (FreezeAsset c) (FreezeAmount c) (CollateralAsset c) (UserID c) (MarketID c) (Outcome c)
    (BookKey c) (OrderSide_string (SideFlag_ToModel (Side c)))
    (OrderType_string (TypeFlag_ToModel (Type_ c)))
    (TimeInForce_string (TIFFlag_ToModel (TimeInForce c)))
    (STPStrategy_string (STPFlag_ToModel (STP c))) (Price c) (Quantity c) (RequestedAtMillis c).
End MatchCommand.

Definition CommandFromKafka (cmd : OrderCommand.t) : MatchCommand.t :=
  let bookKey := if String.eqb (OrderCommand.BookKey cmd) ""
                 then BuildBookKey (OrderCommand.MarketID cmd) (OrderCommand.Outcome cmd)
                 else OrderCommand.BookKey cmd in
  MatchCommand.mk (OrderCommand.UserID cmd) (OrderCommand.MarketID cmd) (OrderCommand.Price cmd)
    (OrderCommand.Quantity cmd) (OrderCommand.FreezeAmount cmd)
    (OrderCommand.RequestedAtMillis cmd) (OrderCommand.OrderID cmd)
    (OrderCommand.ClientOrderID cmd) (OrderCommand.Outcome cmd) bookKey
    (OrderCommand.CommandID cmd) (OrderCommand.TraceID cmd) (OrderCommand.FreezeID cmd)
    (OrderCommand.FreezeAsset cmd) (OrderCommand.CollateralAsset cmd) ActionPlace
    (SideFlagFrom (OrderSide_of_string (OrderCommand.Side cmd)))
    (TypeFlagFrom (OrderType_of_string (OrderCommand.Type_ cmd)))
    (TIFFlagFrom (TimeInForce_of_string (OrderCommand.TimeInForce cmd)))
    (STPFlagFrom (STPStrategy_of_string (OrderCommand.STPStrategy cmd))) 0.

(** [MatchResult] (the [engine.Result] by its fields' record). *)
Module MatchResult.
Record t := mk {
  Command : MatchCommand.t;
  Res : Result;
  Rejected : bool;
  EpochID : Z;
}.
End MatchResult.

(** ** Round trip *)

(** The strings a command may carry without loss. *)
Definition known_enums (cmd : OrderCommand.t) : Prop :=
  OrderCommand.Side cmd ∈ ["BUY"; "SELL"] ∧ OrderCommand.Type_ cmd ∈ ["LIMIT"; "MARKET"] ∧
  OrderCommand.TimeInForce cmd ∈ ["GTC"; "IOC"; "FOK"; "POST_ONLY"] ∧
  OrderCommand.STPStrategy cmd ∈ [""; "CANCEL_TAKER"; "CANCEL_MAKER"; "CANCEL_BOTH"].

#[global] Instance known_enums_dec cmd : Decision (known_enums cmd).
Proof. unfold known_enums. apply _. Defined.

Definition with_BookKey (cmd : OrderCommand.t) : OrderCommand.t :=
  let '(OrderCommand.mk cid tid oid coid fid fas fam col u m out bk s t tif stp p q at_) := cmd in
  OrderCommand.mk cid tid oid coid fid fas fam col u m out
    (if String.eqb bk "" then BuildBookKey m out else bk) s t tif stp p q at_.

Ltac enum_cases :=
  repeat match goal with
  | H : _ ∈ [] |- _ => destruct (not_elem_of_nil _ H)
  | H : _ ∈ _ :: _ |- _ => apply elem_of_cons in H as [->|H]
  end.

Lemma side_flag_round_trip s :
  s ∈ ["BUY"; "SELL"] → OrderSide_string (SideFlag_ToModel (SideFlagFrom (OrderSide_of_string s))) = s.
Proof. intros H. by enum_cases. Qed.

Lemma type_flag_round_trip s :
  s ∈ ["LIMIT"; "MARKET"] → OrderType_string (TypeFlag_ToModel (TypeFlagFrom (OrderType_of_string s))) = s.
Proof. intros H. by enum_cases. Qed.

Lemma tif_flag_round_trip s :
  s ∈ ["GTC"; "IOC"; "FOK"; "POST_ONLY"] →
  TimeInForce_string (TIFFlag_ToModel (TIFFlagFrom (TimeInForce_of_string s))) = s.
Proof. intros H. by enum_cases. Qed.

Lemma stp_flag_round_trip s :
  s ∈ [""; "CANCEL_TAKER"; "CANCEL_MAKER"; "CANCEL_BOTH"] →
  STPStrategy_string (STPFlag_ToModel (STPFlagFrom (STPStrategy_of_string s))) = s.
Proof. intros H. by enum_cases. Qed.

(** A Kafka order command whose enumeration strings are the declared
    constants survives the trip through the ring-buffer representation: packing it
    with [CommandFromKafka] and rebuilding it with [ToKafkaCommand] gives the same
    command in every field, with the book key filled in when it was empty. *)
Theorem command_round_trip cmd :
  known_enums cmd → MatchCommand.ToKafkaCommand (CommandFromKafka cmd) = with_BookKey cmd.
Proof.
  intros (Hs & Ht & Htif & Hstp). destruct cmd.
  unfold CommandFromKafka, MatchCommand.ToKafkaCommand. cbn in *.
  by rewrite side_flag_round_trip, type_flag_round_trip, tif_flag_round_trip, stp_flag_round_trip.
Qed.

Definition sample_command : OrderCommand.t :=
  OrderCommand.mk "cmd-1" "trace-1" "o1" "" "f1" "USDT" 550 "USDT" 7 88 "YES" "" "BUY" "LIMIT"
    "POST_ONLY" "CANCEL_MAKER" 55 10 1000.

Lemma command_round_trip_witness :
  MatchCommand.ToKafkaCommand (CommandFromKafka sample_command) = with_BookKey sample_command ∧
  OrderCommand.BookKey (with_BookKey sample_command) = "88:YES".
Proof.
  split; [|by vm_compute].
  apply (command_round_trip sample_command).
  refine (bool_decide_unpack (known_enums sample_command) _). by vm_compute.
Defined.

(** A command outside the constants is repaired rather than refused: an unknown
    side buys, an unknown type is a limit order, an unknown time in force rests. *)
Lemma unknown_enums_default cmd :
  OrderCommand.Side cmd ∉ ["BUY"; "SELL"] → OrderCommand.Type_ cmd ∉ ["LIMIT"; "MARKET"] →
  OrderCommand.TimeInForce cmd ∉ ["GTC"; "IOC"; "FOK"; "POST_ONLY"] →
  let o := MatchCommand.ToOrder (CommandFromKafka cmd) 0 in
  Order.Side o = OrderSideBuy ∧ Order.Type_ o = OrderTypeLimit ∧ Order.TIF o = TimeInForceGTC.
Proof.
  intros Hs Ht Htif. cbn. unfold OrderSide_of_string, OrderType_of_string, TimeInForce_of_string.
  destruct (String.eqb_spec (OrderCommand.Side cmd) "SELL"); [set_solver|].
  destruct (String.eqb_spec (OrderCommand.Type_ cmd) "MARKET"); [set_solver|].
  destruct (String.eqb_spec (OrderCommand.TimeInForce cmd) "IOC"); [set_solver|].
  destruct (String.eqb_spec (OrderCommand.TimeInForce cmd) "FOK"); [set_solver|].
  destruct (String.eqb_spec (OrderCommand.TimeInForce cmd) "POST_ONLY"); [set_solver|].
  repeat case_match; by simplify_eq.
Qed.
