(* ===== verification/Candles.v ===== *)
(** * Matching service: candles

    [matching/service/candles.go]: one series of open/high/low/close candles per
    book, fed trade by trade.  The specification groups the trades of a book into
    runs that fall into the same interval and summarises each run. *)

From S2P Require Import Prelude Messages MatchModel.

Local Open Scope Z_scope.
Local Open Scope go_scope.

Definition defaultCandleIntervalMillis : Z := 60000.
Definition defaultCandleHistoryLimit : Z := 48.

Record CandleBook := mkCandleBook {
  intervalMillis : Z;
  historyLimit : Z;
  series : gmap string (list QuoteCandle.t);
}.

Definition NewCandleBook (intervalMillis historyLimit : Z) : CandleBook :=
  mkCandleBook
    (if intervalMillis <=? 0 then defaultCandleIntervalMillis else intervalMillis)
    (if historyLimit <=? 0 then defaultCandleHistoryLimit else historyLimit) ∅.

Definition bucketStart (b : CandleBook) (trade : Trade.t) : Z :=
  Trade.MatchedAtMillis trade ⊟ Z.rem (Trade.MatchedAtMillis trade) (intervalMillis b).

Definition extend_candle (candle : QuoteCandle.t) (trade : Trade.t) : QuoteCandle.t :=
  QuoteCandle.mk (QuoteCandle.BucketStartMillis candle) (QuoteCandle.BucketEndMillis candle)
    (QuoteCandle.Open candle)
    (if QuoteCandle.High candle <? Trade.Price trade then Trade.Price trade
     else QuoteCandle.High candle)
    (if Trade.Price trade <? QuoteCandle.Low candle then Trade.Price trade
     else QuoteCandle.Low candle)
    (Trade.Price trade)
    (QuoteCandle.Volume candle ⊞ Trade.Quantity trade)
    (QuoteCandle.TradeCount candle ⊞ 1).

Definition new_candle (b : CandleBook) (trade : Trade.t) : QuoteCandle.t :=
  QuoteCandle.mk (bucketStart b trade) (bucketStart b trade ⊞ intervalMillis b)
    (Trade.Price trade) (Trade.Price trade) (Trade.Price trade) (Trade.Price trade)
    (Trade.Quantity trade) 1.

(** The slice after the trade, before the history is cut. *)
Definition push_trade (b : CandleBook) (candles : list QuoteCandle.t) (trade : Trade.t)
    : list QuoteCandle.t :=
  match last candles with
  | Some candle =>
      if QuoteCandle.BucketStartMillis candle =? bucketStart b trade
      then <[(length candles - 1)%nat := extend_candle candle trade]> candles
      else candles ++ [new_candle b trade]
  | None => candles ++ [new_candle b trade]
  end.

Definition cut_history (limit : Z) (candles : list QuoteCandle.t) : list QuoteCandle.t :=
  if limit <? Z.of_nat (length candles)
  then drop (Z.to_nat (Z.of_nat (length candles) - limit)) candles else candles.

(** [fresh] is the event's [NewID]. *)
Definition ApplyTrade (b : CandleBook) (fresh : string) (trade : Trade.t)
    : CandleBook * QuoteCandleEvent.t :=
  let candles := default [] (series b !! Trade.BookKey trade) in
  let candles := cut_history (historyLimit b) (push_trade b candles trade) in
  (mkCandleBook (intervalMillis b) (historyLimit b) (<[Trade.BookKey trade := candles]> (series b)),
   QuoteCandleEvent.mk fresh "" (Trade.MarketID trade) (Trade.Outcome trade) (Trade.BookKey trade)
     (intervalMillis b `quot` 1000) candles (Trade.MatchedAtMillis trade)).

(** ** Specification: runs of trades in one interval *)

Section runs.
Context {A : Type} (f : A → Z).

(** The runs of a history, newest element first, newest run first. *)
Fixpoint runs (l : list A) : list (list A) :=
  match l with
  | [] => []
  | x :: l =>
      match runs l with
      | (y :: r) :: rs => if f y =? f x then (x :: y :: r) :: rs else [x] :: (y :: r) :: rs
      | rs => [x] :: rs
      end
  end.

(** The runs partition the history, in order. *)
Lemma runs_concat l : concat (runs l) = l.
Proof.
  induction l as [|x l IH]; [done|]. simpl. destruct (runs l) as [|[|y r] rs]; simpl in *.
  - by rewrite IH.
  - by rewrite IH.
  - case_match; simpl; by rewrite <-IH.
Qed.

Definition one_interval (r : list A) : Prop := r ≠ [] ∧ ∀ x y, x ∈ r → y ∈ r → f x = f y.

(** A run is not empty and lies in one interval. *)
Lemma runs_same l : Forall one_interval (runs l).
Proof.
  induction l as [|x l IH]; [constructor|]. simpl.
  assert (∀ rs, Forall one_interval rs → Forall one_interval ([x] :: rs)) as Hs.
  { intros rs Hrs. constructor; [|done]. split; [done|].
    by intros ? ? ->%list_elem_of_singleton ->%list_elem_of_singleton. }
  destruct (runs l) as [|[|y r] rs]; [by apply Hs..|].
  destruct (Z.eqb_spec (f y) (f x)) as [E|]; [|by apply Hs].
  apply Forall_cons in IH as [[_ Hr] Hrs]. constructor; [|done]. split; [done|].
  assert (∀ z, z ∈ x :: y :: r → f z = f y) as Hz.
  { intros z [->|Hz]%elem_of_cons; [done|]. apply Hr; [done|left]. }
  intros a b Ha Hb. by rewrite (Hz a Ha), (Hz b Hb).
Qed.

(** Neighbouring runs lie in different intervals. *)
Lemma runs_apart l i r1 r2 x y :
  runs l !! i = Some r1 → runs l !! S i = Some r2 → x ∈ r1 → y ∈ r2 → f x ≠ f y.
Proof.
  revert i r1 r2 x y. induction l as [|z l IH]; intros i r1 r2 x y; [done|]. simpl.
  pose proof (runs_same l) as Hs.
  destruct (runs l) as [|[|w r] rs]; [by destruct i|by apply Forall_cons in Hs as [[? _] _]|].
  destruct (Z.eqb_spec (f w) (f z)) as [E|E].
  - destruct i as [|i]; [|apply (IH (S i))]. intros [= <-] H2 Hx Hy.
    assert (f x = f w) as ->.
    { apply Forall_cons in Hs as [[_ Hr] _]. apply elem_of_cons in Hx as [->|Hx]; [done|].
      apply Hr; [done|left]. }
    apply (IH 0%nat (w :: r) r2 w y); [done|done|left|done].
  - destruct i as [|i]; [|apply (IH i)]. intros [= <-] [= <-] ->%list_elem_of_singleton Hy Exy.
    apply E. rewrite Exy. apply Forall_cons in Hs as [[_ Hr] _]. apply Hr; [left|done].
Qed.
End runs.

(** A run's candle; [r] holds the trades newest first. *)
Definition last_price (r : list Trade.t) : Z :=
  match r with [] => 0 | t :: _ => Trade.Price t end.
Fixpoint first_price (r : list Trade.t) : Z :=
  match r with [] => 0 | [t] => Trade.Price t | _ :: r => first_price r end.
Fixpoint max_price (r : list Trade.t) : Z :=
  match r with [] => 0 | [t] => Trade.Price t | t :: r => Z.max (Trade.Price t) (max_price r) end.
Fixpoint min_price (r : list Trade.t) : Z :=
  match r with [] => 0 | [t] => Trade.Price t | t :: r => Z.min (Trade.Price t) (min_price r) end.

Definition run_start (b : CandleBook) (r : list Trade.t) : Z :=
  match r with [] => 0 | t :: _ => bucketStart b t end.

Definition summary (b : CandleBook) (r : list Trade.t) : QuoteCandle.t :=
  QuoteCandle.mk (run_start b r) (run_start b r ⊞ intervalMillis b)
    (first_price r) (max_price r) (min_price r) (last_price r)
    (wrap64 (sumZ Trade.Quantity r)) (wrap64 (Z.of_nat (length r))).

Definition spec_series (b : CandleBook) (history : list Trade.t) : list QuoteCandle.t :=
  reverse (take (Z.to_nat (historyLimit b)) (summary b <$> runs (bucketStart b) history)).

(** What one trade does to the run it joins. *)
Lemma summary_extend b t u r :
  bucketStart b u = bucketStart b t →
  extend_candle (summary b (u :: r)) t = summary b (t :: u :: r).
Proof.
  intros E. unfold extend_candle, summary.
  cbn [QuoteCandle.BucketStartMillis QuoteCandle.BucketEndMillis QuoteCandle.Open QuoteCandle.High
       QuoteCandle.Low QuoteCandle.Close QuoteCandle.Volume QuoteCandle.TradeCount run_start last_price].
  rewrite E, !wrap64_add_l. f_equal.
  - change (max_price (t :: u :: r)) with (Z.max (Trade.Price t) (max_price (u :: r))).
    destruct (Z.ltb_spec (max_price (u :: r)) (Trade.Price t)); lia.
  - change (min_price (t :: u :: r)) with (Z.min (Trade.Price t) (min_price (u :: r))).
    destruct (Z.ltb_spec (Trade.Price t) (min_price (u :: r))); lia.
  - f_equal. simpl. lia.
  - f_equal. cbn [length]. lia.
Qed.

Lemma summary_single b t : int64 (Trade.Quantity t) → new_candle b t = summary b [t].
Proof.
  intros Hq. unfold new_candle, summary. cbn. by rewrite Z.add_0_r, (wrap64_id (Trade.Quantity t)).
Qed.

Lemma push_trade_spec b hist t :
  int64 (Trade.Quantity t) → 1 ≤ historyLimit b →
  cut_history (historyLimit b) (push_trade b (spec_series b hist) t) = spec_series b (t :: hist).
Proof.
  intros Hq Hl. unfold spec_series.
  set (L := summary b <$> runs (bucketStart b) hist).
  assert (∀ c, cut_history (historyLimit b) (reverse (take (Z.to_nat (historyLimit b)) L) ++ [c]) =
     reverse (take (Z.to_nat (historyLimit b)) (c :: L))) as Hnew.
  { intros c. rewrite <-reverse_cons. unfold cut_history. rewrite length_reverse. cbn [length].
    rewrite length_take.
    replace (take (Z.to_nat (historyLimit b)) (c :: L))
      with (take (Z.to_nat (historyLimit b)) (c :: take (Z.to_nat (historyLimit b)) L)).
    2:{ destruct (Z.to_nat (historyLimit b)) as [|n] eqn:E; [lia|]. rewrite !firstn_cons.
        f_equal. rewrite take_take. f_equal. lia. }
    case_match eqn:E; [apply Z.ltb_lt in E|apply Z.ltb_ge in E].
    - rewrite drop_reverse. cbn [length]. rewrite length_take. do 2 f_equal. lia.
    - rewrite (take_ge (c :: _)); [done|]. cbn [length]. rewrite length_take. lia. }
  unfold push_trade. rewrite last_reverse. cbn [runs]. unfold L in *. clear L.
  pose proof (runs_same (bucketStart b) hist) as Hs.
  destruct (runs (bucketStart b) hist) as [|[|u r] rs]; cbn [fmap list_fmap].
  - cbn [fmap list_fmap] in Hnew. setoid_rewrite take_nil in Hnew. rewrite take_nil. cbn [head].
    by rewrite Hnew, (summary_single _ _ Hq).
  - by apply Forall_cons in Hs as [[? _] _].
  - cbn [fmap list_fmap] in Hnew.
    destruct (Z.to_nat (historyLimit b)) as [|n] eqn:En; [lia|]. rewrite firstn_cons. cbn [head].
    change (QuoteCandle.BucketStartMillis (summary b (u :: r))) with (bucketStart b u).
    destruct (Z.eqb_spec (bucketStart b u) (bucketStart b t)) as [E|E].
    + cbn [fmap list_fmap]. rewrite firstn_cons, !reverse_cons.
      rewrite insert_app_r_alt by (rewrite length_app, length_reverse; simpl; lia).
      rewrite length_app. cbn [length]. replace (_ - _)%nat with 0%nat by lia. cbn [insert list_insert].
      unfold cut_history. rewrite length_app, length_reverse, length_take. cbn [length].
      case_match eqn:Ec; [apply Z.ltb_lt in Ec; lia|]. by rewrite summary_extend.
    + cbn [fmap list_fmap]. rewrite firstn_cons in Hnew |- *. rewrite Hnew, (summary_single _ _ Hq). done.
Qed.

(** ** The theorem *)

Definition applyAll (b : CandleBook) (fresh : string) (ts : list Trade.t) : CandleBook :=
  foldl (λ b t, (ApplyTrade b fresh t).1) b ts.

(** The trades of one book, newest first. *)
Definition history_of (key : string) (ts : list Trade.t) : list Trade.t :=
  reverse (filter (λ t, Trade.BookKey t = key) ts).

Lemma history_snoc key ts t :
  history_of key (ts ++ [t]) =
    if decide (Trade.BookKey t = key) then t :: history_of key ts else history_of key ts.
Proof.
  unfold history_of. rewrite filter_app, reverse_app.
  case_decide; [by rewrite filter_cons_True|by rewrite filter_cons_False].
Qed.

(** Whatever trades have been applied, the series of every book is exactly
    the last [historyLimit] candles of its own trades, where a candle is the
    open, high, low, close, volume and count of one maximal run of consecutive
    trades in the same interval; the event returned with a trade carries it. *)
Theorem candle_series_spec interval limit fresh ts t :
  Forall (λ t, int64 (Trade.Quantity t)) (ts ++ [t]) →
  let b0 := NewCandleBook interval limit in
  let b := applyAll b0 fresh ts in
  (∀ key, default [] (series b !! key) = spec_series b0 (history_of key ts)) ∧
  QuoteCandleEvent.Candles (ApplyTrade b fresh t).2 =
    spec_series b0 (history_of (Trade.BookKey t) (ts ++ [t])).
Proof.
  intros Hq b0.
  assert (1 ≤ historyLimit b0) as Hl.
  { subst b0. unfold NewCandleBook. simpl. destruct (Z.leb_spec limit 0); [|lia].
    unfold defaultCandleHistoryLimit. lia. }
  assert (∀ b t, intervalMillis b = intervalMillis b0 → historyLimit b = historyLimit b0 →
    int64 (Trade.Quantity t) → ∀ hist,
    default [] (series b !! Trade.BookKey t) = spec_series b0 hist →
    cut_history (historyLimit b) (push_trade b (default [] (series b !! Trade.BookKey t)) t) =
      spec_series b0 (t :: hist)) as Hstep.
  { intros b t' Ei Eh Hq' hist ->. rewrite Eh, <-push_trade_spec by done.
    unfold push_trade, new_candle, bucketStart. by rewrite Ei. }
  assert (∀ key b, b = applyAll b0 fresh ts →
    default [] (series b !! key) = spec_series b0 (history_of key ts) ∧
    intervalMillis b = intervalMillis b0 ∧ historyLimit b = historyLimit b0) as Hall.
  { apply Forall_app in Hq as [Hq _]. clear t. induction ts as [|t ts IH] using rev_ind.
    { intros key b ->. simpl. unfold spec_series. simpl. by rewrite take_nil. }
    apply Forall_app in Hq as [Hq [Ht _]%Forall_cons]. intros key b ->. unfold applyAll.
    rewrite foldl_app. cbn [foldl]. fold (applyAll b0 fresh ts).
    destruct (IH Hq (Trade.BookKey t) _ eq_refl) as (Et & Ei & Eh).
    cbn [ApplyTrade fst series intervalMillis historyLimit]. split; [|done].
    rewrite history_snoc. case_decide as Ek.
    - subst key. rewrite lookup_insert_eq. cbn [default from_option id].
      apply Hstep; [exact Ei|exact Eh|exact Ht|exact Et].
    - rewrite lookup_insert_ne by done. apply (IH Hq key _ eq_refl). }
  intros b. split; [intros key; by apply (Hall key)|].
  destruct (Hall (Trade.BookKey t) b eq_refl) as (Et & Ei & Eh).
  rewrite history_snoc, decide_True by done. cbn [ApplyTrade snd QuoteCandleEvent.Candles].
  apply Hstep; [done|done| |done]. by apply Forall_app in Hq as [_ [Ht _]%Forall_cons].
Qed.

Definition sample_trade (key : string) (price quantity at_ : Z) : Trade.t :=
  Trade.mk 1 "t" 88 "YES" key price quantity "b" "a" 2 1 OrderSideBuy OrderSideSell at_ 0.

Lemma candle_series_spec_witness :
  QuoteCandleEvent.Candles
    (ApplyTrade (applyAll (NewCandleBook 1000 2) "id"
       [sample_trade "88:YES" 40 1 100; sample_trade "88:YES" 45 2 1200; sample_trade "9:NO" 1 1 1300;
        sample_trade "88:YES" 44 3 1900]) "id" (sample_trade "88:YES" 50 4 2500)).2 =
  [QuoteCandle.mk 1000 2000 45 45 44 44 5 2; QuoteCandle.mk 2000 3000 50 50 50 50 4 1].
Proof.
  rewrite (λ H, proj2 (candle_series_spec 1000 2 "id"
    [sample_trade "88:YES" 40 1 100; sample_trade "88:YES" 45 2 1200; sample_trade "9:NO" 1 1 1300;
     sample_trade "88:YES" 44 3 1900] (sample_trade "88:YES" 50 4 2500) H)); [by vm_compute|].
  refine (bool_decide_unpack (Forall _ _) _). by vm_compute.
Defined.
