(* ===== verification/PostTrade.v ===== *)
(** * Post-trade service

    [posttrade/service.go]: persists a match result and publishes its events: the
    order, the affected makers, and for every trade the trade event with its fees,
    the two position changes and the candle; then depth and ticker.  Building the
    events draws identifiers and clock readings and feeds the candle tracker, so the
    builders run in a small state monad over those. *)

From S2P Require Import Prelude Shared Messages MatchModel.
From S2P Require Import Engine Candles.

Local Open Scope Z_scope.
Local Open Scope go_scope.

(** ** The interfaces of the service *)

Class CandleTracker (C : Type) :=
  TrackTrade : C → string → Trade.t → C * QuoteCandleEvent.t.

#[export] Instance candle_book_tracker : CandleTracker CandleBook := ApplyTrade.

(** [PersistItem]: command and result. *)
Definition PersistItem : Type := OrderCommand.t * Result.

Class PersistStore (D : Type) := {
  PersistResult : D → OrderCommand.t → Result → D * option string;
  PersistBatch : D → list PersistItem → D * option string;
}.

Module MatchResult.
Record t := mk {
  Command : OrderCommand.t;
  Res : Result;
  Rejected : bool;
  EpochID : Z;
}.
End MatchResult.

Definition positionSides (trade : Trade.t) : Z * Z :=
  if bool_decide (Trade.TakerSide trade = OrderSideBuy)
  then (Trade.TakerUserID trade, Trade.MakerUserID trade)
  else (Trade.MakerUserID trade, Trade.TakerUserID trade).

(** The orders a result reports: the command's own and the makers it touched. *)
Definition result_orders (r : Result) : list Order.t := option_list (res_Order r) ++ res_Affected r.

(** ** The builder monad *)

Section service.
Context {C D P : Type} `{!CandleTracker C, !PersistStore D, !Publisher P}.
(** [kafka.NewID prefix] and [time.Now().UnixMilli()], by the number of draws so far. *)
Context (fresh : string → nat → string) (clock : nat → Z).

Record bstate := mkBState { draws : nat; tracker : option C }.

Definition Build (A : Type) : Type := bstate → A * bstate.

#[local] Instance Build_ret : MRet Build := λ A a s, (a, s).
#[local] Instance Build_bind : MBind Build := λ A B f m s, let '(a, s) := m s in f a s.

Definition NewID (prefix : string) : Build string := λ s,
  (fresh prefix (draws s), mkBState (S (draws s)) (tracker s)).
Definition Now : Build Z := λ s, (clock (draws s), mkBState (S (draws s)) (tracker s)).

(** ** Event builders *)

Definition buildOrderEvent (command : OrderCommand.t) (order : option Order.t)
    : Build (list BatchItem) :=
  match order with
  | None => mret []
  | Some order =>
      id ← NewID "evt_order";
      now ← Now;
      mret [(TopicOrderEvent, Order.BookKey order, PayloadOrder
        (OrderEvent.mk id (OrderCommand.CommandID command) (OrderCommand.TraceID command)
           (Order.OrderID order) (Order.ClientOrderID order) (OrderCommand.FreezeID command)
           (OrderCommand.FreezeAsset command) (OrderCommand.FreezeAmount command)
           (OrderCommand.CollateralAsset command) (Order.UserID order) (Order.MarketID order)
           (Order.Outcome order) (OrderSide_string (Order.Side order))
           (OrderType_string (Order.Type_ order)) (TimeInForce_string (Order.TIF order))
           (OrderStatus_string (Order.Status order)) (CancelReason_string (Order.Reason order))
           (Order.Price order) (Order.Quantity order) (Order.FilledQuantity order)
           (Order.RemainingQuantity order) now))]
  end.

Definition buildPassiveOrderEvent (traceID collateralAsset : string) (order : option Order.t)
    : Build (list BatchItem) :=
  match order with
  | None => mret []
  | Some order =>
      id ← NewID "evt_order";
      now ← Now;
      mret [(TopicOrderEvent, Order.BookKey order, PayloadOrder
        (OrderEvent.mk id "" traceID (Order.OrderID order) (Order.ClientOrderID order) "" "" 0
           collateralAsset (Order.UserID order) (Order.MarketID order)
           (Order.Outcome order) (OrderSide_string (Order.Side order))
           (OrderType_string (Order.Type_ order)) (TimeInForce_string (Order.TIF order))
           (OrderStatus_string (Order.Status order)) (CancelReason_string (Order.Reason order))
           (Order.Price order) (Order.Quantity order) (Order.FilledQuantity order)
           (Order.RemainingQuantity order) now))]
  end.

(** A failed fee computation is logged and replaced by zero fees. *)
Definition trade_fees (feeSched : Schedule) (trade : Trade.t) : FeeResult :=
  match Compute feeSched (Trade.Price trade ⊠ Trade.Quantity trade) with
  | Ok r => r
  | Err _ => mkFeeResult 0 0
  end.

Definition buildTradeEvent (feeSched : Schedule) (traceID collateralAsset : string)
    (trade : Trade.t) : Build BatchItem :=
  let feeResult := trade_fees feeSched trade in
  id ← NewID "evt_trade";
  mret (TopicTradeMatched, Trade.BookKey trade, PayloadTrade
    (TradeMatchedEvent.mk id (Trade.TradeID trade) (Trade.Sequence trade) (Trade.EpochID trade)
       traceID collateralAsset (Trade.MarketID trade) (Trade.Outcome trade) (Trade.BookKey trade)
       (Trade.Price trade) (Trade.Quantity trade) (Trade.TakerOrderID trade)
       (Trade.MakerOrderID trade) (Trade.TakerUserID trade) (Trade.MakerUserID trade)
       (OrderSide_string (Trade.TakerSide trade)) (OrderSide_string (Trade.MakerSide trade))
       (TakerFeeBps feeSched) (MakerFeeBps feeSched) (TakerFee feeResult) (MakerFee feeResult)
       (Trade.MatchedAtMillis trade))).

Definition position_event (id traceID : string) (trade : Trade.t) (userID delta : Z) : BatchItem :=
  (TopicPositionChange, Trade.BookKey trade, PayloadPosition
    (PositionChangedEvent.mk id traceID
       (Trade.TakerOrderID trade +:+ ":" +:+ Trade.MakerOrderID trade) userID
       (Trade.MarketID trade) (Trade.Outcome trade)
       (PositionAsset (Trade.MarketID trade) (Trade.Outcome trade)) delta
       (Trade.MatchedAtMillis trade))).

Definition buildPositionEvents (traceID : string) (trade : Trade.t) : Build (list BatchItem) :=
  let '(buyerUserID, sellerUserID) := positionSides trade in
  id1 ← NewID "evt_pos";
  id2 ← NewID "evt_pos";
  mret [position_event id1 traceID trade buyerUserID (Trade.Quantity trade);
        position_event id2 traceID trade sellerUserID (wrap64 (- Trade.Quantity trade))].

Definition buildQuoteEvents (traceID : string) (result : Result) : Build (list BatchItem) :=
  let book := res_Book result in
  let level l := QuoteLevel.mk (level_Price l) (level_Quantity l) in
  id1 ← NewID "evt_depth";
  now1 ← Now;
  id2 ← NewID "evt_ticker";
  now2 ← Now;
  let '(lastPrice, lastQuantity) :=
    match last (res_Trades result) with
    | Some lastTrade => (Trade.Price lastTrade, Trade.Quantity lastTrade)
    | None => (0, 0)
    end in
  mret [(TopicQuoteDepth, snap_Key book, PayloadDepth
           (QuoteDepthEvent.mk id1 traceID (snap_MarketID book) (snap_Outcome book) (snap_Key book)
              (level <$> snap_Bids book) (level <$> snap_Asks book) now1));
        (TopicQuoteTicker, snap_Key book, PayloadTicker
           (QuoteTickerEvent.mk id2 traceID (snap_MarketID book) (snap_Outcome book) (snap_Key book)
              lastPrice lastQuantity (snap_BestBid book) (snap_BestAsk book) now2))].

Definition set_TraceID (e : QuoteCandleEvent.t) (traceID : string) : QuoteCandleEvent.t :=
  QuoteCandleEvent.mk (QuoteCandleEvent.EventID e) traceID (QuoteCandleEvent.MarketID e)
    (QuoteCandleEvent.Outcome e) (QuoteCandleEvent.BookKey e) (QuoteCandleEvent.IntervalSec e)
    (QuoteCandleEvent.Candles e) (QuoteCandleEvent.OccurredAtMillis e).

(** The tracker draws the event's identifier itself. *)
Definition buildCandleEvent (traceID : string) (trade : Trade.t) : Build BatchItem := λ s,
  match tracker s with
  | None => ((TopicQuoteCandle, Trade.BookKey trade, PayloadCandle QuoteCandleEvent.zero), s)
  | Some c =>
      let '(c, event) := TrackTrade c (fresh "evt_candle" (draws s)) trade in
      ((TopicQuoteCandle, Trade.BookKey trade, PayloadCandle (set_TraceID event traceID)),
       mkBState (S (draws s)) (Some c))
  end.

(** ** One result *)

Fixpoint build_affected (command : OrderCommand.t) (affected : list Order.t)
    : Build (list BatchItem) :=
  match affected with
  | [] => mret []
  | o :: affected =>
      item ← buildPassiveOrderEvent (OrderCommand.TraceID command)
               (OrderCommand.CollateralAsset command) (Some o);
      items ← build_affected command affected;
      mret (item ++ items)
  end.

Fixpoint build_trades (feeSched : Schedule) (command : OrderCommand.t) (trades : list Trade.t)
    : Build (list BatchItem) :=
  match trades with
  | [] => mret []
  | trade :: trades =>
      te ← buildTradeEvent feeSched (OrderCommand.TraceID command)
             (OrderCommand.CollateralAsset command) trade;
      pe ← buildPositionEvents (OrderCommand.TraceID command) trade;
      ce ← buildCandleEvent (OrderCommand.TraceID command) trade;
      items ← build_trades feeSched command trades;
      mret (te :: pe ++ ce :: items)
  end.

Definition build_result (feeSched : Schedule) (mr : MatchResult.t) : Build (list BatchItem) :=
  let command := MatchResult.Command mr in
  let result := MatchResult.Res mr in
  items1 ← buildOrderEvent command (res_Order result);
  items2 ← build_affected command (res_Affected result);
  items3 ← build_trades feeSched command (res_Trades result);
  items4 ← buildQuoteEvents (OrderCommand.TraceID command) result;
  mret (items1 ++ items2 ++ items3 ++ items4).

Fixpoint build_results (feeSched : Schedule) (mrs : list MatchResult.t) : Build (list BatchItem) :=
  match mrs with
  | [] => mret []
  | mr :: mrs =>
      items ← build_result feeSched mr;
      rest ← build_results feeSched mrs;
      mret (items ++ rest)
  end.

(** ** The service *)

Record Service := mkService {
  publisher : P;
  store : option D;
  building : bstate;
  feeSched : Schedule;
}.

(** The end of both handlers: an empty batch is not published. *)
Definition publish_batch (s : Service) (st : bstate) (batch : list BatchItem)
    : Service * option string :=
  match batch with
  | [] => (mkService (publisher s) (store s) st (feeSched s), None)
  | _ =>
      let '(p, err) := PublishJSONBatch (publisher s) batch in
      (mkService p (store s) st (feeSched s), err)
  end.

Definition set_pstore (s : Service) (d : D) : Service :=
  mkService (publisher s) (Some d) (building s) (feeSched s).

Definition ProcessResult (s : Service) (mr : MatchResult.t) : Service * option string :=
  let publish s :=
    let '(batch, st) := build_result (feeSched s) mr (building s) in publish_batch s st batch in
  match store s with
  | None => publish s
  | Some d =>
      let '(d, err) := PersistResult d (MatchResult.Command mr) (MatchResult.Res mr) in
      match err with
      | Some err => (set_pstore s d, Some err)
      | None => publish (set_pstore s d)
      end
  end.

Definition persist_item (mr : MatchResult.t) : PersistItem :=
  (MatchResult.Command mr, MatchResult.Res mr).

Definition ProcessBatch (s : Service) (mrs : list MatchResult.t) : Service * option string :=
  match mrs with
  | [] => (s, None)
  | [mr] => ProcessResult s mr
  | _ =>
      let publish s :=
        let '(batch, st) := build_results (feeSched s) mrs (building s) in
        publish_batch s st batch in
      match store s with
      | None => publish s
      | Some d =>
          let '(d, err) := PersistBatch d (persist_item <$> mrs) in
          match err with
          | Some err => (set_pstore s d, Some err)
          | None => publish (set_pstore s d)
          end
      end
  end.
End service.

Arguments bstate C : clear implicits.
Arguments Service C D P : clear implicits.
