(* ===== verification/RollupJournal.v ===== *)
(** * Rollup: the shadow journal

    The append side of [rollup/store.go] with the entry and payload types of
    [rollup/types.go], and [matching/service/rollup_shadow.go], which turns a match
    result into journal entries.  The journal is the table
    [rollup_shadow_journal_entries]: rows in sequence order, unique in
    [entry_id] and in [(entry_type, source_type, source_ref)]; its [BIGSERIAL]
    advances for every row an [INSERT] proposes, inserted or not. *)

From S2P Require Import Prelude Shared Messages MatchModel Engine.

Local Open Scope Z_scope.

Definition EntryTypeOrderAccepted : string := "ORDER_ACCEPTED".
Definition EntryTypeOrderCancelled : string := "ORDER_CANCELLED".
Definition EntryTypeTradeMatched : string := "TRADE_MATCHED".
Definition SourceTypeMatchingOrder : string := "MATCHING_ORDER".
Definition SourceTypeMatchingTrade : string := "MATCHING_TRADE".

(** ** Payloads *)

Module OrderAcceptedPayload.
Record t := mk {
  OrderID : string;
  CommandID : string;
  ClientOrderID : string;
  AccountID : Z;
  MarketID : Z;
  Outcome : string;
  Side : string;
  OrderType : string;
  TimeInForce : string;
  CollateralAsset : string;
  ReserveAsset : string;
  ReserveAmount : Z;
  Price : Z;
  Quantity : Z;
  RequestedAtMillis : Z;
}.
End OrderAcceptedPayload.

Module OrderCancelledPayload.
Record t := mk {
  OrderID : string;
  AccountID : Z;
  MarketID : Z;
  Outcome : string;
  Side : string;
  ReserveAsset : string;
  Price : Z;
  RemainingQuantity : Z;
  CancelReason : string;
}.
End OrderCancelledPayload.

Module TradeMatchedPayload.
Record t := mk {
  TradeID : string;
  Sequence : Z;
  CollateralAsset : string;
  MarketID : Z;
  Outcome : string;
  Price : Z;
  Quantity : Z;
  TakerOrderID : string;
  MakerOrderID : string;
  TakerAccountID : Z;
  MakerAccountID : Z;
  TakerSide : string;
  MakerSide : string;
  OccurredAtMillis : Z;
}.
End TradeMatchedPayload.

(** The payloads the matching service writes; any other as its JSON text. *)
Inductive JournalPayload :=
| OrderAccepted (p : OrderAcceptedPayload.t)
| OrderCancelled (p : OrderCancelledPayload.t)
| TradeMatched (p : TradeMatchedPayload.t)
| OtherPayload (json : string).

Module JournalAppend.
Record t := mk {
  EntryID : string;
  EntryType : string;
  SourceType : string;
  SourceRef : string;
  OccurredAtMillis : Z;
  Payload : JournalPayload;
}.
End JournalAppend.

Module JournalEntry.
Record t := mk {
  Sequence : Z;
  EntryID : string;
  EntryType : string;
  SourceType : string;
  SourceRef : string;
  OccurredAtMillis : Z;
  Payload : JournalPayload;
}.

(** The columns of the unique index. *)
Definition source (e : t) : string * string * string := (EntryType e, SourceType e, SourceRef e).
End JournalEntry.

Record Journal := mkJournal { entries : list JournalEntry.t; next_sequence : Z }.

(** ** Appending *)

Definition append_source (e : JournalAppend.t) : string * string * string :=
  (TrimSpace (JournalAppend.EntryType e), TrimSpace (JournalAppend.SourceType e),
   TrimSpace (JournalAppend.SourceRef e)).

(** [INSERT ... ON CONFLICT (entry_type, source_type, source_ref) DO NOTHING] of
    one row. *)
Definition insert_row (j : Journal) (entryID : string) (e : JournalAppend.t)
    : result string Journal :=
  if bool_decide (append_source e ∈ JournalEntry.source <$> entries j)
  then Ok (mkJournal (entries j) (next_sequence j + 1))
  else if bool_decide (entryID ∈ JournalEntry.EntryID <$> entries j)
  then Err "duplicate key value violates unique constraint"
  else Ok (mkJournal
    (entries j ++
       [JournalEntry.mk (next_sequence j) entryID (TrimSpace (JournalAppend.EntryType e))
          (TrimSpace (JournalAppend.SourceType e)) (TrimSpace (JournalAppend.SourceRef e))
          (JournalAppend.OccurredAtMillis e) (JournalAppend.Payload e)])
    (next_sequence j + 1)).

(** [fresh] is the [NewID] drawn when the entry has no identifier. *)
Definition entry_id (fresh : string) (e : JournalAppend.t) : string :=
  let entryID := TrimSpace (JournalAppend.EntryID e) in
  if String.eqb entryID "" then fresh else entryID.

Definition appendEntry (fresh : string) (j : Journal) (e : JournalAppend.t)
    : result string Journal :=
  if String.eqb (TrimSpace (JournalAppend.EntryType e)) "" then Err "rollup entry type is required"
  else if String.eqb (TrimSpace (JournalAppend.SourceType e)) ""
  then Err "rollup source type is required"
  else if String.eqb (TrimSpace (JournalAppend.SourceRef e)) ""
  then Err "rollup source ref is required"
  else insert_row j (entry_id fresh e) e.

(** The loop over [entries]; [fresh i] is drawn for the [i]-th. *)
Fixpoint AppendEntriesTx (fresh : nat → string) (j : Journal) (es : list JournalAppend.t)
    : result string Journal :=
  match es with
  | [] => Ok j
  | e :: es => j ← appendEntry (fresh 0%nat) j e; AppendEntriesTx (λ i, fresh (S i)) j es
  end.

Definition missing_field (e : JournalAppend.t) : bool :=
  String.eqb (TrimSpace (JournalAppend.EntryType e)) ""
  || String.eqb (TrimSpace (JournalAppend.SourceType e)) ""
  || String.eqb (TrimSpace (JournalAppend.SourceRef e)) "".

(** The single multi-row [INSERT]. *)
Fixpoint insert_rows (fresh : nat → string) (j : Journal) (es : list JournalAppend.t)
    : result string Journal :=
  match es with
  | [] => Ok j
  | e :: es =>
      j ← insert_row j (entry_id (fresh 0%nat) e) e;
      insert_rows (λ i, fresh (S i)) j es
  end.

Definition AppendBatchTx (fresh : nat → string) (j : Journal) (es : list JournalAppend.t)
    : result string Journal :=
  if (length es <=? 2)%nat then AppendEntriesTx fresh j es
  else if existsb missing_field es then Err "rollup entry missing required field"
  else insert_rows fresh j es.

(** ** Entries of a match result ([rollup_shadow.go]) *)

Definition reserveAsset (command : OrderCommand.t) : string :=
  if String.eqb (TrimSpace (OrderCommand.FreezeAsset command)) ""
  then OrderCommand.CollateralAsset command else OrderCommand.FreezeAsset command.

Definition assetsOrFallback (order : option Order.t) : string :=
  match order with None => "" | Some _ => DefaultCollateralAsset end.

Definition cancellationReserveAsset (order : option Order.t) : string :=
  match order with
  | None => ""
  | Some o =>
      match Order.Side o with
      | OrderSideSell =>
          "POSITION:" +:+ itoa (Order.MarketID o) +:+ ":" +:+ normalize_upper (Order.Outcome o)
      | _ => assetsOrFallback order
      end
  end.

Definition cancellationEntry (order : Order.t) (sourceRef : string) : JournalAppend.t :=
  JournalAppend.mk "" EntryTypeOrderCancelled SourceTypeMatchingOrder sourceRef
    (Order.UpdatedAtMillis order)
    (OrderCancelled (OrderCancelledPayload.mk (Order.OrderID order) (Order.UserID order)
       (Order.MarketID order) (Order.Outcome order) (OrderSide_string (Order.Side order))
       (cancellationReserveAsset (Some order)) (Order.Price order)
       (Order.RemainingQuantity order) (CancelReason_string (Order.Reason order)))).

Definition acceptedEntry (command : OrderCommand.t) (order : Order.t) : JournalAppend.t :=
  JournalAppend.mk "" EntryTypeOrderAccepted SourceTypeMatchingOrder (Order.OrderID order)
    (OrderCommand.RequestedAtMillis command)
    (OrderAccepted (OrderAcceptedPayload.mk (Order.OrderID order) (OrderCommand.CommandID command)
       (OrderCommand.ClientOrderID command) (OrderCommand.UserID command)
       (OrderCommand.MarketID command) (OrderCommand.Outcome command) (OrderCommand.Side command)
       (OrderCommand.Type_ command) (OrderCommand.TimeInForce command)
       (OrderCommand.CollateralAsset command) (reserveAsset command)
       (OrderCommand.FreezeAmount command) (OrderCommand.Price command)
       (OrderCommand.Quantity command) (OrderCommand.RequestedAtMillis command))).

Definition tradeEntry (command : OrderCommand.t) (trade : Trade.t) : JournalAppend.t :=
  JournalAppend.mk "" EntryTypeTradeMatched SourceTypeMatchingTrade (itoa (Trade.Sequence trade))
    (Trade.MatchedAtMillis trade)
    (TradeMatched (TradeMatchedPayload.mk ("trd_" +:+ itoa (Trade.Sequence trade))
       (Trade.Sequence trade) (OrderCommand.CollateralAsset command) (Trade.MarketID trade)
       (Trade.Outcome trade) (Trade.Price trade) (Trade.Quantity trade)
       (Trade.TakerOrderID trade) (Trade.MakerOrderID trade) (Trade.TakerUserID trade)
       (Trade.MakerUserID trade) (OrderSide_string (Trade.TakerSide trade))
       (OrderSide_string (Trade.MakerSide trade)) (Trade.MatchedAtMillis trade))).

Definition buildRollupEntries (command : OrderCommand.t) (result : Result)
    : list JournalAppend.t :=
  match res_Order result with
  | Some o =>
      if bool_decide (Order.Status o = OrderStatusRejected) then []
      else acceptedEntry command o ::
           (if bool_decide (Order.Status o = OrderStatusCancelled)
            then [cancellationEntry o (Order.OrderID o)] else [])
  | None => []
  end ++
  ((λ o, cancellationEntry o (Order.OrderID o)) <$>
     filter (λ o, Order.Status o = OrderStatusCancelled) (res_Affected result)) ++
  (tradeEntry command <$> res_Trades result).

(** ** Facts *)

(** Rows keep the order of their sequence numbers and their sources are unique. *)
Record journal_ok (j : Journal) : Prop := {
  jo_sorted : ∀ i k x y, entries j !! i = Some x → entries j !! k = Some y → (i < k)%nat →
    JournalEntry.Sequence x < JournalEntry.Sequence y;
  jo_next : Forall (λ x, JournalEntry.Sequence x < next_sequence j) (entries j);
  jo_source : NoDup (JournalEntry.source <$> entries j);
}.

Lemma insert_row_ok j id e j' :
  journal_ok j → insert_row j id e = Ok j' →
  journal_ok j' ∧ entries j `prefix_of` entries j' ∧ next_sequence j ≤ next_sequence j' ∧
  append_source e ∈ JournalEntry.source <$> entries j'.
Proof.
  intros [Hs Hn Hd]. unfold insert_row. case_bool_decide as Ec.
  { intros [= <-]. split_and!; [|by exists []; rewrite app_nil_r|simpl; lia|done].
    split; [done| |done]. simpl. eapply Forall_impl; [exact Hn|]. simpl. lia. }
  case_bool_decide as Ei; [done|]. intros [= <-]. split_and!.
  - split.
    + intros i k x y. simpl. rewrite !lookup_snoc_Some. intros [(? & Hx)|(-> & <-)] [(? & Hy)|(-> & <-)] Hik.
      * by apply (Hs i k).
      * simpl. rewrite Forall_lookup in Hn. by apply (Hn i).
      * lia.
      * lia.
    + simpl. apply Forall_app. split; [|by repeat constructor; simpl; lia].
      eapply Forall_impl; [exact Hn|]. simpl. lia.
    + simpl. rewrite fmap_app. apply NoDup_app. split_and!; [done| |by apply NoDup_singleton].
      intros x Hx ->%list_elem_of_singleton. by apply Ec.
  - by eexists.
  - simpl. lia.
  - simpl. rewrite fmap_app. apply elem_of_app. right. by apply list_elem_of_singleton.
Qed.

Lemma appendEntry_insert fresh j e j' :
  appendEntry fresh j e = Ok j' ↔
  missing_field e = false ∧ insert_row j (entry_id fresh e) e = Ok j'.
Proof.
  unfold appendEntry, missing_field.
  destruct (String.eqb (TrimSpace (JournalAppend.EntryType e)) ""); simpl; [naive_solver|].
  destruct (String.eqb (TrimSpace (JournalAppend.SourceType e)) ""); simpl; [naive_solver|].
  destruct (String.eqb (TrimSpace (JournalAppend.SourceRef e)) ""); simpl; naive_solver.
Qed.

Lemma AppendEntriesTx_rows fresh j es j' :
  AppendEntriesTx fresh j es = Ok j' ↔
  existsb missing_field es = false ∧ insert_rows fresh j es = Ok j'.
Proof.
  revert fresh j. induction es as [|e es IH]; intros fresh j; cbn [AppendEntriesTx insert_rows existsb].
  { naive_solver. }
  rewrite !result_bind_Ok, orb_false_iff. setoid_rewrite appendEntry_insert. setoid_rewrite IH.
  naive_solver.
Qed.

(** A batch that goes through went through the row insert. *)
Lemma journal_batch_rows fresh j es j' :
  AppendBatchTx fresh j es = Ok j' → insert_rows fresh j es = Ok j'.
Proof.
  unfold AppendBatchTx. case_match; [|by case_match]. by intros [_ ?]%AppendEntriesTx_rows.
Qed.

(** The multi-row insert of [AppendBatchTx] is the entry-by-entry
    [AppendEntriesTx]: it succeeds on exactly the same batches, with the same
    journal; a batch with a missing field is refused by both. *)
Theorem journal_batch_equivalent fresh j es j' :
  AppendBatchTx fresh j es = Ok j' ↔ AppendEntriesTx fresh j es = Ok j'.
Proof.
  unfold AppendBatchTx. case_match; [done|]. rewrite AppendEntriesTx_rows.
  case_match; naive_solver.
Qed.

Lemma insert_rows_ok fresh j es j' :
  journal_ok j → insert_rows fresh j es = Ok j' →
  journal_ok j' ∧ entries j `prefix_of` entries j' ∧ next_sequence j ≤ next_sequence j' ∧
  Forall (λ e, append_source e ∈ JournalEntry.source <$> entries j') es.
Proof.
  revert fresh j. induction es as [|e es IH]; intros fresh j Hj; cbn [insert_rows].
  { intros [= <-]. by split_and!; [|exists []; rewrite app_nil_r|lia|]. }
  intros (j1 & E1 & E2)%result_bind_Ok. apply insert_row_ok in E1 as (Hj1 & Hp1 & Hn1 & Hin); [|done].
  destruct (IH _ _ Hj1 E2) as (Hj' & Hp' & Hn' & Hall). split_and!; [done|by etrans|lia|].
  constructor; [|done]. destruct Hp' as [rest ->]. rewrite fmap_app. apply elem_of_app. by left.
Qed.

(** Rows already present are skipped. *)
Lemma insert_rows_present fresh j es :
  Forall (λ e, append_source e ∈ JournalEntry.source <$> entries j) es →
  insert_rows fresh j es = Ok (mkJournal (entries j) (next_sequence j + Z.of_nat (length es))).
Proof.
  revert fresh j. induction es as [|e es IH]; intros fresh [l n] Hall; cbn [insert_rows].
  { by rewrite Z.add_0_r. }
  apply Forall_cons in Hall as [He Hall]. unfold insert_row at 1.
  rewrite bool_decide_eq_true_2 by done. cbn -[Z.of_nat]. rewrite IH by done. simpl. do 2 f_equal. lia.
Qed.

(** The journal is append-only and replay-safe.  A successful append keeps
    every row, keeps sequence numbers increasing and sources unique, records every
    entry of the batch, and appending the same batch again (a redelivered command)
    succeeds and adds no row. *)
Theorem journal_append_idempotent fresh fresh' j es j' :
  journal_ok j → AppendEntriesTx fresh j es = Ok j' →
  journal_ok j' ∧ entries j `prefix_of` entries j' ∧
  Forall (λ e, append_source e ∈ JournalEntry.source <$> entries j') es ∧
  ∃ j'', AppendEntriesTx fresh' j' es = Ok j'' ∧ entries j'' = entries j'.
Proof.
  intros Hj [Hm Hr]%AppendEntriesTx_rows.
  destruct (insert_rows_ok _ _ _ _ Hj Hr) as (Hj' & Hp & _ & Hall).
  split_and!; [done..|]. eexists. split.
  - apply AppendEntriesTx_rows. split; [done|by apply insert_rows_present].
  - done.
Qed.

Definition sample_entries : list JournalAppend.t :=
  [JournalAppend.mk "" "ORDER_ACCEPTED" "MATCHING_ORDER" "o1" 5 (OtherPayload "{}");
   JournalAppend.mk "" "ORDER_ACCEPTED" "MATCHING_ORDER" "o2 " 5 (OtherPayload "{}");
   JournalAppend.mk "" "ORDER_ACCEPTED" "MATCHING_ORDER" "o1" 6 (OtherPayload "{}")].

Definition sample_fresh (i : nat) : string := "rj_" +:+ itoa (Z.of_nat i).

Lemma journal_append_idempotent_witness :
  ∃ j' j'', AppendEntriesTx sample_fresh (mkJournal [] 1) sample_entries = Ok j' ∧
    JournalEntry.SourceRef <$> entries j' = ["o1"; "o2"] ∧
    AppendEntriesTx sample_fresh j' sample_entries = Ok j'' ∧ entries j'' = entries j'.
Proof.
  destruct (AppendEntriesTx sample_fresh (mkJournal [] 1) sample_entries) as [j'|] eqn:E;
    [|by vm_compute in E].
  destruct (journal_append_idempotent sample_fresh sample_fresh (mkJournal [] 1) sample_entries j')
    as (_ & _ & _ & j'' & E2 & E3).
  - split; [by intros []|constructor|constructor].
  - exact E.
  - exists j', j''. split_and!; [done| |done..]. vm_compute in E. by injection E as <-.
Defined.
