(* ===== verification/Auth.v ===== *)
(** * Shared packages: session and trading-key authorization

    [shared/auth/session.go].  A wallet authorizes a trading key with a typed-data
    signature, the trading key signs order intents, and both leave a witness in the
    rollup journal whose bindings are joined later.  Signature schemes and digests are
    parameters: [sha256] ([crypto/sha256]), [Ed25519Verify] ([crypto/ed25519]),
    [hexutil_Decode], [IsHexAddress], [TextHash], [TypedDataAndHash] and [SigToAddress]
    (go-ethereum).  A time is its [UnixMilli]. *)

From Stdlib Require Import Ascii.
From S2P Require Import Prelude Strings.

Local Open Scope Z_scope.
Local Open Scope go_scope.

Definition DefaultSessionScope : string := "TRADE".
Definition DefaultTradingKeyScheme : string := "ED25519".
Definition DefaultWalletSignatureStandard : string := "EIP712_V4".
Definition TradingAuthorizationDomainName : string := "FunnyOption Trading Authorization".
Definition TradingAuthorizationDomainVersion : string := "2".
Definition AuthorizeTradingKeyAction : string := "AUTHORIZE_TRADING_KEY".
Definition CanonicalTradingKeyAuthVersion : string := "TRADING_KEY_V2".
Definition LegacySessionCompatAuthVersion : string := "LEGACY_SESSION_COMPAT".

(** ** Text helpers *)

Definition NormalizeHex (value : string) : string :=
  let trimmed := TrimSpace value in if String.eqb trimmed "" then "" else ToLower trimmed.

Definition formatHexWithPrefix (value : string) : string :=
  let normalized := NormalizeHex value in
  if String.eqb normalized "" then ""
  else if String.prefix "0x" normalized then normalized
  else "0x" +:+ normalized.

(** An upper-case field that has a default. *)
Definition upper_or (fallback value : string) : string :=
  let v := normalize_upper value in if String.eqb v "" then fallback else v.

Definition newline : string := String "010" "".

(** One line of a message. *)
Definition line (label value rest : string) : string := label +:+ value +:+ newline +:+ rest.

(** ** Data *)

Module SessionGrant.
Record t := mk {
  WalletAddress : string;
  SessionPublicKey : string;
  Scope : string;
  ChainID : Z;
  Nonce : string;
  IssuedAtMillis : Z;
  ExpiresAtMillis : Z;
}.

Definition Normalize (g : t) : t :=
  mk (NormalizeHex (WalletAddress g)) (NormalizeHex (SessionPublicKey g))
    (upper_or DefaultSessionScope (Scope g)) (ChainID g) (TrimSpace (Nonce g)) (IssuedAtMillis g)
    (ExpiresAtMillis g).

Definition Validate (g : t) (now : Z) : option string :=
  let n := Normalize g in
  if String.eqb (WalletAddress n) "" then Some "wallet address is required"
  else if String.eqb (SessionPublicKey n) "" then Some "session public key is required"
  else if ChainID n <=? 0 then Some "chain_id must be positive"
  else if String.eqb (Nonce n) "" then Some "nonce is required"
  else if (IssuedAtMillis n <=? 0) || (ExpiresAtMillis n <=? 0) then Some "issued_at and expires_at are required"
  else if ExpiresAtMillis n <=? IssuedAtMillis n then Some "expires_at must be greater than issued_at"
  else if ExpiresAtMillis n <? now then Some "session grant expired"
  else None.

Definition SessionID (sha256 : string → string) (g : t) : string :=
  let n := Normalize g in
  "sess_" +:+ EncodeToString (String.substring 0 16 (sha256 (WalletAddress n +:+ ":" +:+ SessionPublicKey n))).

Definition Message (g : t) : string :=
  let n := Normalize g in
  "FunnyOption Session Authorization" +:+ newline +:+ newline +:+
  line "wallet: " (WalletAddress n) (line "session_public_key: " (SessionPublicKey n)
  (line "scope: " (Scope n) (line "chain_id: " (itoa (ChainID n))
  (line "issued_at: " (itoa (IssuedAtMillis n)) (line "expires_at: " (itoa (ExpiresAtMillis n))
  (line "nonce: " (Nonce n) "")))))).
End SessionGrant.

Module OrderIntent.
Record t := mk {
  SessionID : string;
  WalletAddress : string;
  UserID : Z;
  MarketID : Z;
  Outcome : string;
  Side : string;
  OrderType : string;
  TimeInForce : string;
  Price : Z;
  Quantity : Z;
  ClientOrderID : string;
  Nonce : Z;
  RequestedAtMillis : Z;
}.

Definition Normalize (i : t) : t :=
  mk (TrimSpace (SessionID i)) (NormalizeHex (WalletAddress i)) (UserID i) (MarketID i)
    (normalize_upper (Outcome i)) (normalize_upper (Side i)) (normalize_upper (OrderType i))
    (normalize_upper (TimeInForce i)) (Price i) (Quantity i) (TrimSpace (ClientOrderID i)) (Nonce i)
    (RequestedAtMillis i).

Definition Validate (i : t) (now : Z) : option string :=
  let n := Normalize i in
  if String.eqb (SessionID n) "" then Some "session_id is required"
  else if String.eqb (WalletAddress n) "" then Some "wallet address is required"
  else if UserID n <=? 0 then Some "user_id must be positive"
  else if MarketID n <=? 0 then Some "market_id must be positive"
  else if String.eqb (Outcome n) "" || String.eqb (Side n) "" then Some "outcome and side are required"
  else if String.eqb (OrderType n) "" || String.eqb (TimeInForce n) ""
  then Some "order_type and time_in_force are required"
  else if Quantity n <=? 0 then Some "quantity must be positive"
  else if Nonce n =? 0 then Some "order nonce must be positive"
  else if RequestedAtMillis n <=? 0 then Some "requested_at is required"
  else if 300000 <? (now ⊟ RequestedAtMillis n) then Some "order intent expired"
  else None.

Definition Message (i : t) : string :=
  let n := Normalize i in
  "FunnyOption Order Authorization" +:+ newline +:+ newline +:+
  line "session_id: " (SessionID n) (line "wallet: " (WalletAddress n)
  (line "user_id: " (itoa (UserID n)) (line "market_id: " (itoa (MarketID n))
  (line "outcome: " (Outcome n) (line "side: " (Side n)
  (line "order_type: " (OrderType n) (line "time_in_force: " (TimeInForce n)
  (line "price: " (itoa (Price n)) (line "quantity: " (itoa (Quantity n))
  (line "client_order_id: " (ClientOrderID n) (line "nonce: " (itoa (Nonce n))
  (line "requested_at: " (itoa (RequestedAtMillis n)) "")))))))))))).
End OrderIntent.

Module TradingKeyAuthorization.
Record t := mk {
  WalletAddress : string;
  TradingPublicKey : string;
  TradingKeyScheme : string;
  Scope : string;
  Challenge : string;
  ChallengeExpiresAtMillis : Z;
  KeyExpiresAtMillis : Z;
  ChainID : Z;
  VaultAddress : string;
}.

Definition Normalize (a : t) : t :=
  mk (NormalizeHex (WalletAddress a)) (NormalizeHex (TradingPublicKey a))
    (upper_or DefaultTradingKeyScheme (TradingKeyScheme a)) (upper_or DefaultSessionScope (Scope a))
    (NormalizeHex (Challenge a)) (ChallengeExpiresAtMillis a) (KeyExpiresAtMillis a) (ChainID a)
    (NormalizeHex (VaultAddress a)).

Definition TradingKeyID (sha256 : string → string) (a : t) : string :=
  let n := Normalize a in
  "tk_" +:+ EncodeToString (String.substring 0 16
    (sha256 (WalletAddress n +:+ ":" +:+ itoa (ChainID n) +:+ ":" +:+ VaultAddress n +:+ ":" +:+ TradingPublicKey n))).
End TradingKeyAuthorization.

Module AuthorizedTradingKey.
Record t := mk {
  TradingKeyID : string;
  AccountID : Z;
  WalletAddress : string;
  TradingPublicKey : string;
  TradingKeyScheme : string;
  Scope : string;
  ChainID : Z;
  VaultAddress : string;
  Status : string;
  ExpiresAtMillis : Z;
  AuthorizationNonce : string;
}.

Definition Normalize (k : t) : t :=
  mk (TrimSpace (TradingKeyID k)) (AccountID k) (NormalizeHex (WalletAddress k))
    (NormalizeHex (TradingPublicKey k)) (upper_or DefaultTradingKeyScheme (TradingKeyScheme k))
    (upper_or DefaultSessionScope (Scope k)) (ChainID k) (NormalizeHex (VaultAddress k))
    (normalize_upper (Status k)) (ExpiresAtMillis k) (formatHexWithPrefix (AuthorizationNonce k)).

Definition AuthorizationRef (k : t) : string :=
  let n := Normalize k in
  if String.eqb (TradingKeyID n) "" || String.eqb (AuthorizationNonce n) "" then ""
  else TradingKeyID n +:+ ":" +:+ AuthorizationNonce n.

Definition VerifierEligibility (k : t) : bool * string :=
  let n := Normalize k in
  if negb (String.prefix "tk_" (TradingKeyID n))
  then (false, "deprecated /api/v1/sessions compatibility trading key")
  else if String.eqb (VaultAddress n) ""
  then (false, "blank-vault auth rows are deprecated compatibility state")
  else if ChainID n <=? 0 then (false, "chain_id is missing from trading key scope")
  else if String.eqb (TradingPublicKey n) "" then (false, "trading public key is missing from trading key scope")
  else (true, "").
End AuthorizedTradingKey.

Module TradingKeyAuthorizationWitness.
Record t := mk {
  AuthVersion : string;
  VerifierEligible : bool;
  AuthorizationRef : string;
  TradingKeyID : string;
  AccountID : Z;
  WalletAddress : string;
  ChainID : Z;
  VaultAddress : string;
  TradingPublicKey : string;
  TradingKeyScheme : string;
  Scope : string;
  KeyStatus : string;
  Challenge : string;
  ChallengeExpiresAtMillis : Z;
  KeyExpiresAtMillis : Z;
  AuthorizedAtMillis : Z;
  WalletSignatureStandard : string;
  WalletTypedDataHash : string;
  WalletSignature : string;
}.
End TradingKeyAuthorizationWitness.

Module OrderIntentWitness.
Record t := mk {
  SessionID : string;
  WalletAddress : string;
  UserID : Z;
  MarketID : Z;
  Outcome : string;
  Side : string;
  OrderType : string;
  TimeInForce : string;
  Price : Z;
  Quantity : Z;
  ClientOrderID : string;
  Nonce : Z;
  RequestedAtMillis : Z;
  Message : string;
  MessageHash : string;
  Signature : string;
}.
End OrderIntentWitness.

Module OrderAuthorizationWitness.
Record t := mk {
  AuthVersion : string;
  VerifierEligible : bool;
  IneligibleReason : string;
  AuthorizationRef : string;
  TradingKeyID : string;
  AccountID : Z;
  WalletAddress : string;
  ChainID : Z;
  VaultAddress : string;
  TradingPublicKey : string;
  TradingKeyScheme : string;
  Scope : string;
  KeyStatus : string;
  KeyExpiresAtMillis : Z;
  Intent : OrderIntentWitness.t;
}.
End OrderAuthorizationWitness.

Module VerifierAuthBinding.
Record t := mk {
  AuthorizationRef : string;
  TradingKeyID : string;
  AccountID : Z;
  WalletAddress : string;
  ChainID : Z;
  VaultAddress : string;
  TradingPublicKey : string;
  TradingKeyScheme : string;
  Scope : string;
  KeyStatus : string;
}.

#[global] Instance t_eq_dec : EqDecision t.
Proof. solve_decision. Defined.

Definition normalize (b : t) : t :=
  mk (TrimSpace (AuthorizationRef b)) (TrimSpace (TradingKeyID b)) (AccountID b) (NormalizeHex (WalletAddress b))
    (ChainID b) (NormalizeHex (VaultAddress b)) (NormalizeHex (TradingPublicKey b))
    (normalize_upper (TradingKeyScheme b)) (normalize_upper (Scope b)) (normalize_upper (KeyStatus b)).

Definition validate (b : t) (label : string) : result string t :=
  if String.eqb (TrimSpace (AuthorizationRef b)) "" then Err (label +:+ " authorization_ref is required")
  else if String.eqb (TrimSpace (TradingKeyID b)) "" then Err (label +:+ " trading_key_id is required")
  else if AccountID b <=? 0 then Err (label +:+ " account_id must be positive")
  else if String.eqb (WalletAddress b) "" then Err (label +:+ " wallet_address is required")
  else if ChainID b <=? 0 then Err (label +:+ " chain_id must be positive")
  else if String.eqb (VaultAddress b) "" then Err (label +:+ " vault_address is required")
  else if String.eqb (TradingPublicKey b) "" then Err (label +:+ " trading_public_key is required")
  else if String.eqb (TradingKeyScheme b) "" then Err (label +:+ " trading_key_scheme is required")
  else if String.eqb (Scope b) "" then Err (label +:+ " scope is required")
  else if String.eqb (KeyStatus b) "" then Err (label +:+ " key_status is required")
  else Ok b.
End VerifierAuthBinding.

(** [apitypes.TypedData]: the types of the message, the domain and the message. *)
Module TypedData.
Record t := mk {
  Types : list (string * list (string * string));
  PrimaryType : string;
  DomainName : string;
  DomainVersion : string;
  DomainChainId : Z;
  DomainVerifyingContract : string;
  Message : list (string * string);
}.
End TypedData.

(** ** Operations *)

Definition TypedData_of (a : TradingKeyAuthorization.t) : TypedData.t :=
  let n := TradingKeyAuthorization.Normalize a in
  TypedData.mk
    [("EIP712Domain", [("name", "string"); ("version", "string"); ("chainId", "uint256");
                       ("verifyingContract", "address")]);
     ("AuthorizeTradingKey", [("action", "string"); ("wallet", "address"); ("tradingPublicKey", "bytes32");
                              ("tradingKeyScheme", "string"); ("scope", "string"); ("challenge", "bytes32");
                              ("challengeExpiresAt", "uint64"); ("keyExpiresAt", "uint64")])]
    "AuthorizeTradingKey" TradingAuthorizationDomainName TradingAuthorizationDomainVersion
    (TradingKeyAuthorization.ChainID n) (TradingKeyAuthorization.VaultAddress n)
    [("action", AuthorizeTradingKeyAction);
     ("wallet", TradingKeyAuthorization.WalletAddress n);
     ("tradingPublicKey", TradingKeyAuthorization.TradingPublicKey n);
     ("tradingKeyScheme", TradingKeyAuthorization.TradingKeyScheme n);
     ("scope", TradingKeyAuthorization.Scope n);
     ("challenge", TradingKeyAuthorization.Challenge n);
     ("challengeExpiresAt", itoa (TradingKeyAuthorization.ChallengeExpiresAtMillis n));
     ("keyExpiresAt", itoa (TradingKeyAuthorization.KeyExpiresAtMillis n))].

Section crypto.
Context (sha256 : string → string) (Ed25519Verify : string → string → string → bool).
Context (hexutil_Decode : string → option string) (IsHexAddress : string → bool).
Context (TextHash : string → string) (TypedDataAndHash : TypedData.t → result string string).
Context (SigToAddress : string → string → result string string).

Definition decodeHexBytes (value : string) : result string string :=
  let trimmed := TrimSpace value in
  if String.eqb trimmed "" then Err "hex value is required"
  else
    let trimmed := if String.prefix "0x" trimmed then trimmed else "0x" +:+ trimmed in
    match hexutil_Decode trimmed with Some bytes => Ok bytes | None => Err "invalid hex string" end.

Definition validateFixedHex (label value : string) (size : nat) : option string :=
  match decodeHexBytes value with
  | Err e => Some ("decode " +:+ label +:+ ": " +:+ e)
  | Ok raw => if (String.length raw =? size)%nat then None else Some ("invalid " +:+ label +:+ " length")
  end.

Definition ValidateTradingKeyAuthorization (a : TradingKeyAuthorization.t) (now : Z) : option string :=
  let n := TradingKeyAuthorization.Normalize a in
  if negb (IsHexAddress (TradingKeyAuthorization.WalletAddress n)) then Some "wallet address is invalid"
  else if negb (IsHexAddress (TradingKeyAuthorization.VaultAddress n)) then Some "vault address is invalid"
  else if TradingKeyAuthorization.ChainID n <=? 0 then Some "chain_id must be positive"
  else if negb (String.eqb (TradingKeyAuthorization.TradingKeyScheme n) DefaultTradingKeyScheme)
  then Some ("trading_key_scheme must be " +:+ DefaultTradingKeyScheme)
  else if String.eqb (TradingKeyAuthorization.Scope n) "" then Some "scope is required"
  else match validateFixedHex "trading public key" (TradingKeyAuthorization.TradingPublicKey n) 32 with
  | Some e => Some e
  | None =>
  match validateFixedHex "challenge" (TradingKeyAuthorization.Challenge n) 32 with
  | Some e => Some e
  | None =>
  if TradingKeyAuthorization.ChallengeExpiresAtMillis n <=? 0 then Some "challenge_expires_at is required"
  else if TradingKeyAuthorization.ChallengeExpiresAtMillis n <? now then Some "challenge expired"
  else if TradingKeyAuthorization.KeyExpiresAtMillis n <? 0 then Some "key_expires_at must be zero or positive"
  else if (0 <? TradingKeyAuthorization.KeyExpiresAtMillis n) &&
          (TradingKeyAuthorization.KeyExpiresAtMillis n <=? now) then Some "key authorization expired"
  else None
  end end.

Definition messageHashHex (message : string) : string := "0x" +:+ EncodeToString (sha256 message).

Definition BuildTradingKeyAuthorizationWitness (accountID : Z) (authz : TradingKeyAuthorization.t)
    (key : AuthorizedTradingKey.t) (walletSignature : string) (authorizedAtMillis : Z)
    : result string TradingKeyAuthorizationWitness.t :=
  let a := TradingKeyAuthorization.Normalize authz in
  let k := AuthorizedTradingKey.Normalize key in
  match TypedDataAndHash (TypedData_of a) with
  | Err e => Err e
  | Ok typedDataHash =>
      Ok (TradingKeyAuthorizationWitness.mk CanonicalTradingKeyAuthVersion
            (AuthorizedTradingKey.VerifierEligibility k).1 (AuthorizedTradingKey.AuthorizationRef k)
            (AuthorizedTradingKey.TradingKeyID k) accountID (TradingKeyAuthorization.WalletAddress a)
            (TradingKeyAuthorization.ChainID a) (TradingKeyAuthorization.VaultAddress a)
            (TradingKeyAuthorization.TradingPublicKey a) (TradingKeyAuthorization.TradingKeyScheme a)
            (TradingKeyAuthorization.Scope a) (AuthorizedTradingKey.Status k)
            (TradingKeyAuthorization.Challenge a) (TradingKeyAuthorization.ChallengeExpiresAtMillis a)
            (TradingKeyAuthorization.KeyExpiresAtMillis a) authorizedAtMillis DefaultWalletSignatureStandard
            ("0x" +:+ EncodeToString typedDataHash) (NormalizeHex walletSignature))
  end.

Definition BuildOrderIntentWitness (intent : OrderIntent.t) (signature : string) : OrderIntentWitness.t :=
  let n := OrderIntent.Normalize intent in
  let message := OrderIntent.Message n in
  OrderIntentWitness.mk (OrderIntent.SessionID n) (OrderIntent.WalletAddress n) (OrderIntent.UserID n)
    (OrderIntent.MarketID n) (OrderIntent.Outcome n) (OrderIntent.Side n) (OrderIntent.OrderType n)
    (OrderIntent.TimeInForce n) (OrderIntent.Price n) (OrderIntent.Quantity n) (OrderIntent.ClientOrderID n)
    (OrderIntent.Nonce n) (OrderIntent.RequestedAtMillis n) message (messageHashHex message)
    (NormalizeHex signature).

Definition BuildOrderAuthorizationWitness (accountID : Z) (key : AuthorizedTradingKey.t)
    (intent : OrderIntent.t) (signature : string) : OrderAuthorizationWitness.t :=
  let k := AuthorizedTradingKey.Normalize key in
  let '(eligible, reason) := AuthorizedTradingKey.VerifierEligibility k in
  let '(authVersion, authorizationRef) :=
    if negb (String.prefix "tk_" (AuthorizedTradingKey.TradingKeyID k)) then (LegacySessionCompatAuthVersion, "")
    else (CanonicalTradingKeyAuthVersion, AuthorizedTradingKey.AuthorizationRef k) in
  OrderAuthorizationWitness.mk authVersion eligible reason authorizationRef (AuthorizedTradingKey.TradingKeyID k)
    accountID (AuthorizedTradingKey.WalletAddress k) (AuthorizedTradingKey.ChainID k)
    (AuthorizedTradingKey.VaultAddress k) (AuthorizedTradingKey.TradingPublicKey k)
    (AuthorizedTradingKey.TradingKeyScheme k) (AuthorizedTradingKey.Scope k) (AuthorizedTradingKey.Status k)
    (AuthorizedTradingKey.ExpiresAtMillis k) (BuildOrderIntentWitness intent signature).

(** [TradingKeyAuthorizationWitness.VerifierBinding]. *)
Definition KeyVerifierBinding (w : TradingKeyAuthorizationWitness.t) : result string VerifierAuthBinding.t :=
  if negb (TradingKeyAuthorizationWitness.VerifierEligible w)
  then Err "trading key authorization witness is not verifier-eligible"
  else if negb (String.eqb (TrimSpace (TradingKeyAuthorizationWitness.AuthVersion w)) CanonicalTradingKeyAuthVersion)
  then Err ("trading key authorization witness auth_version must be " +:+ CanonicalTradingKeyAuthVersion)
  else VerifierAuthBinding.validate (VerifierAuthBinding.normalize (VerifierAuthBinding.mk
         (TradingKeyAuthorizationWitness.AuthorizationRef w) (TradingKeyAuthorizationWitness.TradingKeyID w)
         (TradingKeyAuthorizationWitness.AccountID w) (TradingKeyAuthorizationWitness.WalletAddress w)
         (TradingKeyAuthorizationWitness.ChainID w) (TradingKeyAuthorizationWitness.VaultAddress w)
         (TradingKeyAuthorizationWitness.TradingPublicKey w) (TradingKeyAuthorizationWitness.TradingKeyScheme w)
         (TradingKeyAuthorizationWitness.Scope w) (TradingKeyAuthorizationWitness.KeyStatus w)))
         "trading key authorization witness".

(** [OrderAuthorizationWitness.VerifierBinding]. *)
Definition OrderVerifierBinding (w : OrderAuthorizationWitness.t) : result string VerifierAuthBinding.t :=
  if negb (OrderAuthorizationWitness.VerifierEligible w)
  then Err "order authorization witness is not verifier-eligible"
  else if negb (String.eqb (TrimSpace (OrderAuthorizationWitness.AuthVersion w)) CanonicalTradingKeyAuthVersion)
  then Err ("order authorization witness auth_version must be " +:+ CanonicalTradingKeyAuthVersion)
  else VerifierAuthBinding.validate (VerifierAuthBinding.normalize (VerifierAuthBinding.mk
         (OrderAuthorizationWitness.AuthorizationRef w) (OrderAuthorizationWitness.TradingKeyID w)
         (OrderAuthorizationWitness.AccountID w) (OrderAuthorizationWitness.WalletAddress w)
         (OrderAuthorizationWitness.ChainID w) (OrderAuthorizationWitness.VaultAddress w)
         (OrderAuthorizationWitness.TradingPublicKey w) (OrderAuthorizationWitness.TradingKeyScheme w)
         (OrderAuthorizationWitness.Scope w) (OrderAuthorizationWitness.KeyStatus w)))
         "order authorization witness".

Definition ValidateVerifierBindingMatch (authorized order : VerifierAuthBinding.t) : option string :=
  match VerifierAuthBinding.validate (VerifierAuthBinding.normalize authorized) "authorized binding" with
  | Err e => Some e
  | Ok l =>
      match VerifierAuthBinding.validate (VerifierAuthBinding.normalize order) "order binding" with
      | Err e => Some e
      | Ok r => if bool_decide (l = r) then None else Some "verifier auth binding mismatch"
      end
  end.

(** The signature with the recovery byte brought to 0 or 1. *)
Definition recovery_signature (signature : string) : result string string :=
  match decodeHexBytes signature with
  | Err e => Err ("decode signature: " +:+ e)
  | Ok raw =>
      if negb (String.length raw =? 65)%nat then Err "invalid signature length"
      else
        let v := match String.get 64 raw with Some c => Z.of_N (N_of_ascii c) | None => 0 end in
        let body := String.substring 0 64 raw in
        if (v =? 27) || (v =? 28) then Ok (body +:+ String (byte_of (v - 27)) "")
        else if (v =? 0) || (v =? 1) then Ok raw
        else Err "invalid signature recovery id"
  end.

Definition RecoverPersonalSignAddress (message signature : string) : result string string :=
  match recovery_signature signature with
  | Err e => Err e
  | Ok sig =>
      match SigToAddress (TextHash message) sig with
      | Err e => Err ("recover signer: " +:+ e)
      | Ok address => Ok (NormalizeHex address)
      end
  end.

Definition RecoverTypedDataAddress (typedData : TypedData.t) (signature : string) : result string string :=
  match recovery_signature signature with
  | Err e => Err e
  | Ok sig =>
      match TypedDataAndHash typedData with
      | Err e => Err ("build typed data hash: " +:+ e)
      | Ok hash =>
          match SigToAddress hash sig with
          | Err e => Err ("recover signer: " +:+ e)
          | Ok address => Ok (NormalizeHex address)
          end
      end
  end.

Definition VerifyGrantSignature (grant : SessionGrant.t) (signature : string) : result string string :=
  let n := SessionGrant.Normalize grant in
  match RecoverPersonalSignAddress (SessionGrant.Message n) signature with
  | Err e => Err e
  | Ok recovered =>
      if String.eqb recovered (SessionGrant.WalletAddress n) then Ok recovered
      else Err "wallet signature does not match wallet address"
  end.

Definition VerifyTradingKeyAuthorizationSignature (auth : TradingKeyAuthorization.t) (signature : string)
    : result string string :=
  let n := TradingKeyAuthorization.Normalize auth in
  match RecoverTypedDataAddress (TypedData_of n) signature with
  | Err e => Err e
  | Ok recovered =>
      if String.eqb recovered (TradingKeyAuthorization.WalletAddress n) then Ok recovered
      else Err "wallet signature does not match wallet address"
  end.

Definition VerifyOrderIntentSignature (intent : OrderIntent.t) (sessionPublicKey signature : string)
    : option string :=
  match decodeHexBytes sessionPublicKey with
  | Err e => Some ("decode session public key: " +:+ e)
  | Ok pubKey =>
      if negb (String.length pubKey =? 32)%nat then Some "invalid session public key length"
      else
        match decodeHexBytes signature with
        | Err e => Some ("decode order signature: " +:+ e)
        | Ok sig =>
            if negb (String.length sig =? 64)%nat then Some "invalid order signature length"
            else if negb (Ed25519Verify pubKey (OrderIntent.Message intent) sig) then Some "invalid session signature"
            else None
        end
  end.
End crypto.
