(* ===== verification/AuthProps.v ===== *)
(** * Shared packages: what an authorization binds

    The text an order is signed over determines the order, normalising is idempotent,
    and the witnesses of a trading key and of an order signed with it carry the same
    binding. *)

From Stdlib Require Import Ascii.
From S2P Require Import Prelude Strings Auth.

Local Open Scope Z_scope.
Local Open Scope go_scope.

(** ** Splitting a text *)

(** No character of the string satisfies [P]. *)
Fixpoint free (P : ascii → bool) (s : string) : bool :=
  match s with
  | EmptyString => true
  | String a s => negb (P a) && free P s
  end.

Lemma free_append P s1 s2 : free P (s1 +:+ s2) = free P s1 && free P s2.
Proof.
  induction s1 as [|a s1 IH]; [done|]. change (String a s1 +:+ s2) with (String a (s1 +:+ s2)).
  cbn [free]. by rewrite IH, andb_assoc.
Qed.

Lemma free_rev P s : free P (String.rev s) = free P s.
Proof.
  induction s as [|a s IH]; [done|]. rewrite rev_cons, free_append, IH. cbn [free].
  by rewrite andb_true_r, andb_comm.
Qed.

(** The text before the first character that satisfies [P] is unique, and so is the
    text after the last one. *)
Lemma first_split P s1 s2 c1 c2 r1 r2 :
  free P s1 = true → free P s2 = true → P c1 = true → P c2 = true →
  s1 +:+ String c1 r1 = s2 +:+ String c2 r2 → s1 = s2 ∧ String c1 r1 = String c2 r2.
Proof.
  intros F1 F2 H1 H2. revert s2 F1 F2. induction s1 as [|a s1 IH]; intros [|b s2]; cbn [free]; intros F1 F2.
  - done.
  - intros E. injection E as -> _. rewrite H1 in F2. discriminate F2.
  - intros E. injection E as -> _. rewrite H2 in F1. discriminate F1.
  - intros E. injection E as -> E. apply andb_true_iff in F1 as [_ F1], F2 as [_ F2].
    by destruct (IH s2 F1 F2 E) as [-> ->].
Qed.

Lemma append_inj_r s1 s2 t : s1 +:+ t = s2 +:+ t → s1 = s2.
Proof.
  intros E. apply (f_equal String.rev) in E. rewrite !rev_append in E.
  apply (inj (String.append _)) in E. by rewrite <-(rev_rev s1), E, rev_rev.
Qed.

Lemma last_split P s1 s2 c d1 d2 :
  free P d1 = true → free P d2 = true → P c = true →
  s1 +:+ String c d1 = s2 +:+ String c d2 → s1 = s2 ∧ d1 = d2.
Proof.
  intros F1 F2 Hc E. apply (f_equal String.rev) in E. rewrite !rev_append, !rev_cons, !append_assoc in E.
  apply (first_split P) in E; [|by rewrite free_rev..|done|done]. destruct E as [Ed Es].
  injection Es as Es. split; [by rewrite <-(rev_rev s1), Es, rev_rev|by rewrite <-(rev_rev d1), Ed, rev_rev].
Qed.

Definition is_newline (a : ascii) : bool := Ascii.eqb a "010".
Definition is_lower (a : ascii) : bool := let n := nat_of_ascii a in (97 <=? n)%nat && (n <=? 122)%nat.

Lemma free_upper s : free is_lower (ToUpper s) = true.
Proof.
  unfold ToUpper. induction s as [|a s IH]; [done|]. cbn [string_map free]. rewrite IH, andb_true_r.
  by destruct a as [[] [] [] [] [] [] [] []].
Qed.

Lemma free_digits s : all_digits s = true → free is_newline s = true.
Proof.
  induction s as [|a s IH]; [done|]. cbn [all_digits free]. intros [Ha Hs]%andb_true_iff. rewrite (IH Hs), andb_true_r.
  revert Ha. by destruct a as [[] [] [] [] [] [] [] []].
Qed.

Lemma free_itoa z : free is_newline (itoa z) = true.
Proof.
  destruct (itoa_shape z) as [(n & -> & ->)|(n & -> & ->)];
    destruct (pretty_N_parse n) as (_ & Hd & _); [by apply free_digits|].
  change ("-" +:+ pretty n) with (String "-" (pretty n)). cbn [free]. exact (free_digits _ Hd).
Qed.

(** ** Lines *)

(** A line whose value has no newline. *)
Lemma line_inj label v1 v2 r1 r2 :
  free is_newline v1 = true → free is_newline v2 = true →
  line label v1 r1 = line label v2 r2 → v1 = v2 ∧ r1 = r2.
Proof.
  unfold line, newline. intros F1 F2 E. apply (inj (String.append label)) in E.
  apply (first_split is_newline) in E as [-> E]; [|done..]. by injection E as ->.
Qed.

(** A line whose value is in upper case, before a line whose label is not. *)
Lemma upper_line_inj label v1 v2 c l w1 w2 r1 r2 :
  is_lower c = true →
  line label (ToUpper v1) (line (String c l) w1 r1) = line label (ToUpper v2) (line (String c l) w2 r2) →
  ToUpper v1 = ToUpper v2 ∧ line (String c l) w1 r1 = line (String c l) w2 r2.
Proof.
  intros Hc. unfold line at 1 3. intros E. apply (inj (String.append label)) in E. rewrite <-!append_assoc in E.
  apply (first_split is_lower) in E as [E1 E2]; [|by rewrite free_append, free_upper..|done|done].
  split; [by apply append_inj_r in E1|exact E2].
Qed.

(** The last two lines. *)
Lemma last_lines_inj c1 c2 n1 n2 r1 r2 :
  line "client_order_id: " c1 (line "nonce: " (itoa n1) (line "requested_at: " (itoa r1) "")) =
  line "client_order_id: " c2 (line "nonce: " (itoa n2) (line "requested_at: " (itoa r2) "")) →
  c1 = c2 ∧ n1 = n2 ∧ r1 = r2.
Proof.
  unfold line. intros E. apply (inj (String.append "client_order_id: ")) in E. rewrite append_nil_r in E.
  rewrite <-!append_assoc in E. apply append_inj_r in E. rewrite !append_assoc in E.
  assert (∀ c n r, c +:+ newline +:+ "nonce: " +:+ itoa n +:+ newline +:+ "requested_at: " +:+ itoa r =
    (c +:+ newline +:+ "nonce: " +:+ itoa n) +:+ String "010" ("requested_at: " +:+ itoa r)) as Hform.
  { intros c n r. by rewrite !append_assoc. }
  rewrite !Hform in E. apply (last_split is_newline) in E as [E Er];
    [|by rewrite free_append, free_itoa..|done].
  apply (inj (String.append "requested_at: ")), (inj itoa) in Er.
  change (newline +:+ "nonce: " +:+ itoa n1) with (String "010" ("nonce: " +:+ itoa n1)) in E.
  change (newline +:+ "nonce: " +:+ itoa n2) with (String "010" ("nonce: " +:+ itoa n2)) in E.
  apply (last_split is_newline) in E as [-> En]; [|by rewrite free_append, free_itoa..|done].
  by apply (inj (String.append "nonce: ")), (inj itoa) in En.
Qed.

(** ** The order message *)

(** The fields that come from the session: one line each. *)
Definition single_lines (i : OrderIntent.t) : Prop :=
  free is_newline (TrimSpace (OrderIntent.SessionID i)) = true ∧
  free is_newline (NormalizeHex (OrderIntent.WalletAddress i)) = true.

Lemma Message_inj i j :
  single_lines i → single_lines j → OrderIntent.Message i = OrderIntent.Message j →
  OrderIntent.Normalize i = OrderIntent.Normalize j.
Proof.
  intros [Hi1 Hi2] [Hj1 Hj2]. unfold OrderIntent.Message. cbv zeta. intros E.
  apply (inj (String.append "FunnyOption Order Authorization")), (inj (String.append newline)),
    (inj (String.append newline)) in E.
  unfold OrderIntent.Normalize in *. cbn [OrderIntent.SessionID OrderIntent.WalletAddress OrderIntent.UserID
    OrderIntent.MarketID OrderIntent.Outcome OrderIntent.Side OrderIntent.OrderType OrderIntent.TimeInForce
    OrderIntent.Price OrderIntent.Quantity OrderIntent.ClientOrderID OrderIntent.Nonce
    OrderIntent.RequestedAtMillis] in E. unfold normalize_upper in *.
  apply line_inj in E as [-> E]; [|done..]. apply line_inj in E as [-> E]; [|done..].
  apply line_inj in E as [->%(inj itoa) E]; [|apply free_itoa..].
  apply line_inj in E as [->%(inj itoa) E]; [|apply free_itoa..].
  apply upper_line_inj in E as [-> E]; [|done]. apply upper_line_inj in E as [-> E]; [|done].
  apply upper_line_inj in E as [-> E]; [|done]. apply upper_line_inj in E as [-> E]; [|done].
  apply line_inj in E as [->%(inj itoa) E]; [|apply free_itoa..].
  apply line_inj in E as [->%(inj itoa) E]; [|apply free_itoa..].
  by apply last_lines_inj in E as (-> & -> & ->).
Qed.

(** ** Normalising *)

Lemma NormalizeHex_lower v : NormalizeHex v = ToLower (TrimSpace v).
Proof. unfold NormalizeHex. cbv zeta. by destruct (String.eqb_spec (TrimSpace v) "") as [->|]. Qed.

Lemma NormalizeHex_idem v : NormalizeHex (NormalizeHex v) = NormalizeHex v.
Proof. rewrite !NormalizeHex_lower. apply lower_trim_idem. Qed.

Lemma OrderIntent_Normalize_idem i : OrderIntent.Normalize (OrderIntent.Normalize i) = OrderIntent.Normalize i.
Proof.
  unfold OrderIntent.Normalize. with_strategy opaque [TrimSpace normalize_upper NormalizeHex] cbn.
  by rewrite !TrimSpace_idem, !normalize_upper_idem, NormalizeHex_idem.
Qed.

Lemma Message_Normalize i : OrderIntent.Message (OrderIntent.Normalize i) = OrderIntent.Message i.
Proof. unfold OrderIntent.Message. by rewrite OrderIntent_Normalize_idem. Qed.

Lemma binding_normalize_idem b :
  VerifierAuthBinding.normalize (VerifierAuthBinding.normalize b) = VerifierAuthBinding.normalize b.
Proof.
  unfold VerifierAuthBinding.normalize. with_strategy opaque [TrimSpace normalize_upper NormalizeHex] cbn.
  by rewrite !TrimSpace_idem, !normalize_upper_idem, !NormalizeHex_idem.
Qed.

Lemma upper_or_idem d v : d ≠ "" → normalize_upper d = d → upper_or d (upper_or d v) = upper_or d v.
Proof.
  intros Hd Hn. unfold upper_or. cbv zeta. destruct (String.eqb_spec (normalize_upper v) "") as [E|E].
  - rewrite Hn. by destruct (String.eqb_spec d "").
  - rewrite normalize_upper_idem. by destruct (String.eqb_spec (normalize_upper v) "").
Qed.

Lemma normalize_upper_or d v : normalize_upper d = d → normalize_upper (upper_or d v) = upper_or d v.
Proof.
  intros Hn. unfold upper_or. cbv zeta. case_match; [done|]. apply normalize_upper_idem.
Qed.

Lemma upper_or_nonempty d v : d ≠ "" → upper_or d v ≠ "".
Proof. intros Hd. unfold upper_or. cbv zeta. by destruct (String.eqb_spec (normalize_upper v) ""). Qed.

(** A validated binding, by its fields. *)
Record binding_ok (b : VerifierAuthBinding.t) : Prop := {
  bo_ref : TrimSpace (VerifierAuthBinding.AuthorizationRef b) ≠ "";
  bo_key : TrimSpace (VerifierAuthBinding.TradingKeyID b) ≠ "";
  bo_account : 0 < VerifierAuthBinding.AccountID b;
  bo_wallet : VerifierAuthBinding.WalletAddress b ≠ "";
  bo_chain : 0 < VerifierAuthBinding.ChainID b;
  bo_vault : VerifierAuthBinding.VaultAddress b ≠ "";
  bo_public : VerifierAuthBinding.TradingPublicKey b ≠ "";
  bo_scheme : VerifierAuthBinding.TradingKeyScheme b ≠ "";
  bo_scope : VerifierAuthBinding.Scope b ≠ "";
  bo_status : VerifierAuthBinding.KeyStatus b ≠ "";
}.

Lemma validate_ok b label : binding_ok b → VerifierAuthBinding.validate b label = Ok b.
Proof.
  intros []. unfold VerifierAuthBinding.validate. rewrite !(proj2 (String.eqb_neq _ _)) by done.
  by rewrite !(proj2 (Z.leb_gt _ _)) by lia.
Qed.

Lemma validate_inv b label b' : VerifierAuthBinding.validate b label = Ok b' → b' = b ∧ binding_ok b.
Proof.
  unfold VerifierAuthBinding.validate. repeat pass_guard. intros [= <-]. split; [done|].
  split; first [by apply Z.leb_gt|by apply String.eqb_neq].
Qed.

Lemma match_spec a b :
  ValidateVerifierBindingMatch a b = None ↔
  VerifierAuthBinding.normalize a = VerifierAuthBinding.normalize b ∧ binding_ok (VerifierAuthBinding.normalize a).
Proof.
  unfold ValidateVerifierBindingMatch. split.
  - destruct (VerifierAuthBinding.validate _ "authorized binding") as [l|] eqn:El; [|done].
    destruct (VerifierAuthBinding.validate _ "order binding") as [r|] eqn:Er; [|done].
    apply validate_inv in El as [-> Hl], Er as [-> Hr]. by case_bool_decide.
  - intros [E Hok]. rewrite <-E, !validate_ok by done. by rewrite bool_decide_true.
Qed.

(** ** Keys *)

Lemma lower_tight s : tight s → tight (ToLower s).
Proof. unfold tight. intros H. destruct s as [|a s]; [done|]. cbn. by rewrite lower_byte_space. Qed.

Lemma NormalizeHex_tight v : tight (NormalizeHex v) ∧ tight (String.rev (NormalizeHex v)).
Proof.
  rewrite NormalizeHex_lower. split; [apply lower_tight, TrimSpace_tight|].
  unfold ToLower. rewrite <-string_map_rev. apply lower_tight, rev_TrimSpace_tight.
Qed.

Lemma NormalizeHex_0x n : n ≠ "" → NormalizeHex n = n → NormalizeHex ("0x" +:+ n) = "0x" +:+ n.
Proof.
  intros Hn Hid. destruct (NormalizeHex_tight n) as [_ Ht]. rewrite Hid in Ht.
  rewrite NormalizeHex_lower, TrimSpace_id.
  - rewrite NormalizeHex_lower in Hid. unfold ToLower in *. rewrite string_map_append. f_equal.
    rewrite <-Hid at 1. change (ToLower (ToLower (TrimSpace n)) = n). by rewrite ToLower_idem.
  - by apply tight_append.
  - rewrite rev_append. apply tight_append; [|done]. intros E. apply Hn. by rewrite <-(rev_rev n), E.
Qed.

Lemma formatHexWithPrefix_idem v : formatHexWithPrefix (formatHexWithPrefix v) = formatHexWithPrefix v.
Proof.
  unfold formatHexWithPrefix. cbv zeta. destruct (String.eqb_spec (NormalizeHex v) "") as [E|E]; [done|].
  destruct (String.prefix "0x" (NormalizeHex v)) eqn:Ep.
  - rewrite NormalizeHex_idem, Ep. by destruct (String.eqb_spec (NormalizeHex v) "").
  - rewrite (NormalizeHex_0x _ E) by apply NormalizeHex_idem.
    change ("0x" +:+ NormalizeHex v) with (String "0" (String "x" (NormalizeHex v))). by destruct (NormalizeHex v).
Qed.

Lemma AuthorizedTradingKey_Normalize_idem k :
  AuthorizedTradingKey.Normalize (AuthorizedTradingKey.Normalize k) = AuthorizedTradingKey.Normalize k.
Proof.
  unfold AuthorizedTradingKey.Normalize.
  with_strategy opaque [TrimSpace normalize_upper NormalizeHex upper_or formatHexWithPrefix] cbn.
  by rewrite TrimSpace_idem, normalize_upper_idem, !NormalizeHex_idem, formatHexWithPrefix_idem, !upper_or_idem.
Qed.

Lemma AuthorizationRef_Normalize k :
  AuthorizedTradingKey.AuthorizationRef (AuthorizedTradingKey.Normalize k) = AuthorizedTradingKey.AuthorizationRef k.
Proof. unfold AuthorizedTradingKey.AuthorizationRef. by rewrite AuthorizedTradingKey_Normalize_idem. Qed.

Lemma VerifierEligibility_Normalize k :
  AuthorizedTradingKey.VerifierEligibility (AuthorizedTradingKey.Normalize k) =
  AuthorizedTradingKey.VerifierEligibility k.
Proof. unfold AuthorizedTradingKey.VerifierEligibility. by rewrite AuthorizedTradingKey_Normalize_idem. Qed.

(** The stored key belongs to the authorization. *)
Record key_matches (a : TradingKeyAuthorization.t) (k : AuthorizedTradingKey.t) : Prop := {
  km_wallet : NormalizeHex (TradingKeyAuthorization.WalletAddress a) = NormalizeHex (AuthorizedTradingKey.WalletAddress k);
  km_public : NormalizeHex (TradingKeyAuthorization.TradingPublicKey a) =
              NormalizeHex (AuthorizedTradingKey.TradingPublicKey k);
  km_scheme : upper_or DefaultTradingKeyScheme (TradingKeyAuthorization.TradingKeyScheme a) =
              upper_or DefaultTradingKeyScheme (AuthorizedTradingKey.TradingKeyScheme k);
  km_scope : upper_or DefaultSessionScope (TradingKeyAuthorization.Scope a) =
             upper_or DefaultSessionScope (AuthorizedTradingKey.Scope k);
  km_chain : TradingKeyAuthorization.ChainID a = AuthorizedTradingKey.ChainID k;
  km_vault : NormalizeHex (TradingKeyAuthorization.VaultAddress a) = NormalizeHex (AuthorizedTradingKey.VaultAddress k);
}.

(** What a key must have to be joined. *)
Record key_complete (accountID : Z) (k : AuthorizedTradingKey.t) : Prop := {
  kc_account : 0 < accountID;
  kc_eligible : (AuthorizedTradingKey.VerifierEligibility k).1 = true;
  kc_ref : TrimSpace (AuthorizedTradingKey.AuthorizationRef k) ≠ "";
  kc_wallet : NormalizeHex (AuthorizedTradingKey.WalletAddress k) ≠ "";
  kc_status : normalize_upper (AuthorizedTradingKey.Status k) ≠ "";
}.

(** The binding of a key. *)
Definition key_binding (accountID : Z) (k : AuthorizedTradingKey.t) : VerifierAuthBinding.t :=
  VerifierAuthBinding.mk (TrimSpace (AuthorizedTradingKey.AuthorizationRef k))
    (TrimSpace (AuthorizedTradingKey.TradingKeyID k)) accountID (NormalizeHex (AuthorizedTradingKey.WalletAddress k))
    (AuthorizedTradingKey.ChainID k) (NormalizeHex (AuthorizedTradingKey.VaultAddress k))
    (NormalizeHex (AuthorizedTradingKey.TradingPublicKey k))
    (upper_or DefaultTradingKeyScheme (AuthorizedTradingKey.TradingKeyScheme k))
    (upper_or DefaultSessionScope (AuthorizedTradingKey.Scope k)) (normalize_upper (AuthorizedTradingKey.Status k)).

Lemma eligible_fields k :
  (AuthorizedTradingKey.VerifierEligibility k).1 = true →
  String.prefix "tk_" (TrimSpace (AuthorizedTradingKey.TradingKeyID k)) = true ∧
  NormalizeHex (AuthorizedTradingKey.VaultAddress k) ≠ "" ∧ 0 < AuthorizedTradingKey.ChainID k ∧
  NormalizeHex (AuthorizedTradingKey.TradingPublicKey k) ≠ "".
Proof.
  unfold AuthorizedTradingKey.VerifierEligibility, AuthorizedTradingKey.Normalize.
  with_strategy opaque [TrimSpace normalize_upper NormalizeHex upper_or formatHexWithPrefix String.prefix] cbn.
  destruct (String.prefix "tk_" _); [|done]. cbn [negb].
  destruct (String.eqb_spec (NormalizeHex (AuthorizedTradingKey.VaultAddress k)) ""); [done|].
  destruct (Z.leb_spec (AuthorizedTradingKey.ChainID k) 0); [done|].
  by destruct (String.eqb_spec (NormalizeHex (AuthorizedTradingKey.TradingPublicKey k)) "").
Qed.

Lemma key_binding_ok accountID k :
  key_complete accountID k →
  binding_ok (key_binding accountID k) ∧
  VerifierAuthBinding.normalize (key_binding accountID k) = key_binding accountID k.
Proof.
  intros [Ha He Hr Hw Hs]. destruct (eligible_fields k He) as (Hp & Hv & Hc & Hk). split.
  - split; with_strategy opaque [TrimSpace normalize_upper NormalizeHex upper_or] cbn; rewrite ?TrimSpace_idem;
      try done; try by apply upper_or_nonempty. intros E. by rewrite E in Hp.
  - unfold VerifierAuthBinding.normalize, key_binding.
    with_strategy opaque [TrimSpace normalize_upper NormalizeHex upper_or] cbn.
    by rewrite !TrimSpace_idem, !NormalizeHex_idem, !normalize_upper_or, normalize_upper_idem.
Qed.

Section join.
Context (sha256 : string → string) (TypedDataAndHash : TypedData.t → result string string).

Lemma key_witness_binding accountID authz key signature at_ w :
  key_matches authz key → key_complete accountID key →
  BuildTradingKeyAuthorizationWitness TypedDataAndHash accountID authz key signature at_ = Ok w →
  KeyVerifierBinding w = Ok (key_binding accountID key).
Proof.
  intros [Mw Mp Msch Msc Mch Mv] Hc. pose proof (key_binding_ok accountID key Hc) as [Hok Hid].
  unfold BuildTradingKeyAuthorizationWitness. cbv zeta. destruct (TypedDataAndHash _) as [hash|e]; [|done].
  rewrite VerifierEligibility_Normalize, AuthorizationRef_Normalize, (kc_eligible _ _ Hc). intros [= <-].
  unfold KeyVerifierBinding. cbn [TradingKeyAuthorizationWitness.VerifierEligible
    TradingKeyAuthorizationWitness.AuthVersion negb].
  change (TrimSpace CanonicalTradingKeyAuthVersion) with CanonicalTradingKeyAuthVersion. rewrite String.eqb_refl.
  cbn [negb]. rewrite <-(validate_ok (key_binding accountID key) "trading key authorization witness") by done.
  rewrite <-Hid at 1. f_equal. unfold VerifierAuthBinding.normalize, key_binding, TradingKeyAuthorization.Normalize,
    AuthorizedTradingKey.Normalize.
  with_strategy opaque [TrimSpace normalize_upper NormalizeHex upper_or formatHexWithPrefix
    AuthorizedTradingKey.AuthorizationRef] cbn.
  by rewrite Mw, Mp, Msch, Msc, Mch, Mv, !TrimSpace_idem.
Qed.

Lemma order_witness_binding accountID key intent signature :
  key_complete accountID key →
  OrderVerifierBinding (BuildOrderAuthorizationWitness sha256 accountID key intent signature) =
  Ok (key_binding accountID key).
Proof.
  intros Hc. pose proof (key_binding_ok accountID key Hc) as [Hok Hid].
  destruct (eligible_fields key (kc_eligible _ _ Hc)) as (Hp & _ & _ & _).
  unfold BuildOrderAuthorizationWitness. cbv zeta. rewrite VerifierEligibility_Normalize.
  destruct (AuthorizedTradingKey.VerifierEligibility key) as [eligible reason] eqn:Ee.
  pose proof (kc_eligible _ _ Hc) as He. rewrite Ee in He. cbn [fst] in He. subst eligible.
  change (AuthorizedTradingKey.TradingKeyID (AuthorizedTradingKey.Normalize key)) with
    (TrimSpace (AuthorizedTradingKey.TradingKeyID key)). rewrite Hp. cbn [negb].
  rewrite AuthorizationRef_Normalize. unfold OrderVerifierBinding.
  cbn [OrderAuthorizationWitness.VerifierEligible OrderAuthorizationWitness.AuthVersion negb].
  change (TrimSpace CanonicalTradingKeyAuthVersion) with CanonicalTradingKeyAuthVersion. rewrite String.eqb_refl.
  cbn [negb]. rewrite <-(validate_ok (key_binding accountID key) "order authorization witness") by done.
  rewrite <-Hid at 1. f_equal.
  unfold VerifierAuthBinding.normalize, key_binding, AuthorizedTradingKey.Normalize.
  with_strategy opaque [TrimSpace normalize_upper NormalizeHex upper_or formatHexWithPrefix
    AuthorizedTradingKey.AuthorizationRef] cbn.
  by rewrite !TrimSpace_idem.
Qed.
End join.

(** The text an order is signed over determines the order.  Two order intents whose
    session and wallet are single lines have the same message exactly when they are the
    same intent after normalising, although outcome, side, type and time in force may
    hold line breaks and the client's order id any text at all: a signature given for
    one order never fits another. *)
Theorem order_message_binds (i j : OrderIntent.t) :
  single_lines i → single_lines j →
  OrderIntent.Message i = OrderIntent.Message j ↔ OrderIntent.Normalize i = OrderIntent.Normalize j.
Proof.
  intros Hi Hj. split; [by apply Message_inj|]. intros E. by rewrite <-Message_Normalize, E, Message_Normalize.
Qed.

Definition tricky_intent (client : string) (nonce : Z) : OrderIntent.t :=
  OrderIntent.mk " tk_1" "0xAB " 1 7 "yes" "buy" "limit" "gtc" 60 10 client nonce 1000.

Lemma order_message_binds_witness :
  single_lines (tricky_intent ("a" +:+ newline +:+ "nonce: 5") 6) ∧
  (OrderIntent.Message (tricky_intent ("a" +:+ newline +:+ "nonce: 5") 6) = OrderIntent.Message (tricky_intent "a" 5) ↔
   OrderIntent.Normalize (tricky_intent ("a" +:+ newline +:+ "nonce: 5") 6) =
   OrderIntent.Normalize (tricky_intent "a" 5)).
Proof.
  split; [split; vm_compute; reflexivity|].
  apply order_message_binds; split; vm_compute; reflexivity.
Defined.
