(* ===== verification/RollupState.v ===== *)
(** * Rollup: the shadow state

    [rollup/replay.go] with the leaf and payload types it uses and [rollup/hash.go]:
    journal entries are applied to a state of balances, nonces, open orders, positions,
    market funding and withdrawals, and the state is committed to by a tree of hashes.
    JSON texts are read and written by [encoding/json] and digests are computed by
    [crypto/sha256]: the codec of each type is a [JSON] instance and the digest a
    parameter.  A leaf holds strings and integers only, which always encode, so the
    [encode_error] branches of the roots are not reached. *)

From stdpp Require Import sorting.
From S2P Require Import Prelude Strings Shared Auth RollupJournal.

Local Open Scope Z_scope.
Local Open Scope go_scope.

Class JSON (T : Type) := {
  Marshal : T → string;
  Unmarshal : string → option T;
}.

Definition EntryTypeTradingKeyAuthorized : string := "TRADING_KEY_AUTHORIZED".
Definition EntryTypeNonceAdvanced : string := "NONCE_ADVANCED".
Definition EntryTypeDepositCredited : string := "DEPOSIT_CREDITED".
Definition EntryTypeWithdrawalRequested : string := "WITHDRAWAL_REQUESTED".
Definition EntryTypeMarketResolved : string := "MARKET_RESOLVED".
Definition EntryTypeSettlementPayout : string := "SETTLEMENT_PAYOUT".
Definition BatchEncodingVersion : string := "shadow-batch-v1".

(** ** Payloads *)

Module NonceAdvancedPayload.
Record t := mk {
  AccountID : Z;
  AuthKeyID : string;
  Scope : string;
  KeyStatus : string;
  AcceptedNonce : Z;
  NextNonce : Z;
  OccurredAtMillis : Z;
  OrderAuthorization : option OrderAuthorizationWitness.t;
}.
End NonceAdvancedPayload.

Module DepositCreditedPayload.
Record t := mk {
  DepositID : string;
  AccountID : Z;
  WalletAddress : string;
  VaultAddress : string;
  Asset : string;
  Amount : Z;
  ChainName : string;
  NetworkName : string;
  TxHash : string;
  LogIndex : Z;
  BlockNumber : Z;
  OccurredAtMillis : Z;
}.
End DepositCreditedPayload.

Module WithdrawalRequestedPayload.
Record t := mk {
  WithdrawalID : string;
  AccountID : Z;
  WalletAddress : string;
  RecipientAddress : string;
  VaultAddress : string;
  Asset : string;
  Amount : Z;
  Lane : string;
  ChainName : string;
  NetworkName : string;
  TxHash : string;
  LogIndex : Z;
  BlockNumber : Z;
  OccurredAtMillis : Z;
}.
End WithdrawalRequestedPayload.

Module OracleAttestationWitness.
Record t := mk {
  Version : Z;
  AssetPair : string;
  Price : string;
  Timestamp : Z;
  Provider : string;
  Signature : string;
  SignerAddress : string;
}.
End OracleAttestationWitness.

Module MarketResolvedPayload.
Record t := mk {
  MarketID : Z;
  ResolvedOutcome : string;
  ResolverType : string;
  ResolverRef : string;
  EvidenceHash : string;
  OccurredAtMillis : Z;
  OracleAttestation : option OracleAttestationWitness.t;
}.
End MarketResolvedPayload.

Module SettlementPayoutPayload.
Record t := mk {
  EventID : string;
  MarketID : Z;
  AccountID : Z;
  WinningOutcome : string;
  PositionAsset : string;
  SettledQuantity : Z;
  PayoutAsset : string;
  PayoutAmount : Z;
  OccurredAtMillis : Z;
}.
End SettlementPayoutPayload.

(** ** Leaves *)

Module balanceLeaf.
Record t := mk {
  AccountID : Z;
  AssetID : string;
  FreeBalance : Z;
  LockedBalance : Z;
  LastAppliedSequence : Z;
}.
Definition zero : t := mk 0 "" 0 0 0.
End balanceLeaf.

Module nonceLeaf.
Record t := mk {
  AccountID : Z;
  AuthKeyID : string;
  NextNonce : Z;
  KeyStatus : string;
  Scope : string;
  LastAppliedSequence : Z;
}.
End nonceLeaf.

Module orderLeaf.
Record t := mk {
  OrderID : string;
  AccountID : Z;
  MarketID : Z;
  Outcome : string;
  Side : string;
  Price : Z;
  OriginalQuantity : Z;
  FilledQuantity : Z;
  RemainingQuantity : Z;
  ReserveAsset : string;
  ReservedCollateral : Z;
  Status : string;
  LastAppliedSequence : Z;
}.
End orderLeaf.

Module positionLeaf.
Record t := mk {
  AccountID : Z;
  MarketID : Z;
  Outcome : string;
  Quantity : Z;
  CostBasis : Z;
  RealizedPnL : Z;
  FundingSnapshot : Z;
  SettlementStatus : string;
  LastAppliedSequence : Z;
}.
End positionLeaf.

Module marketFundingLeaf.
Record t := mk {
  MarketID : Z;
  CumulativeFundingIndex : Z;
  LastOracleRef : string;
  MarketSettlementState : string;
  ResolvedOutcome : string;
  LastAppliedSequence : Z;
}.
End marketFundingLeaf.

Module withdrawalLeaf.
Record t := mk {
  WithdrawalID : string;
  AccountID : Z;
  AssetID : string;
  Amount : Z;
  Recipient : string;
  Lane : string;
  Status : string;
  Beneficiary : string;
  RequestSequence : Z;
  ClaimNullifier : string;
}.
End withdrawalLeaf.

Record shadowState := mkShadow {
  balances : gmap string balanceLeaf.t;
  nonces : gmap string nonceLeaf.t;
  openOrders : gmap string orderLeaf.t;
  positions : gmap string positionLeaf.t;
  marketFunding : gmap string marketFundingLeaf.t;
  withdrawals : gmap string withdrawalLeaf.t;
}.

Definition emptyShadow : shadowState := mkShadow ∅ ∅ ∅ ∅ ∅ ∅.

Definition set_balances (s : shadowState) (m : gmap string balanceLeaf.t) : shadowState :=
  mkShadow m (nonces s) (openOrders s) (positions s) (marketFunding s) (withdrawals s).
Definition set_nonces (s : shadowState) (m : gmap string nonceLeaf.t) : shadowState :=
  mkShadow (balances s) m (openOrders s) (positions s) (marketFunding s) (withdrawals s).
Definition set_openOrders (s : shadowState) (m : gmap string orderLeaf.t) : shadowState :=
  mkShadow (balances s) (nonces s) m (positions s) (marketFunding s) (withdrawals s).
Definition set_positions (s : shadowState) (m : gmap string positionLeaf.t) : shadowState :=
  mkShadow (balances s) (nonces s) (openOrders s) m (marketFunding s) (withdrawals s).
Definition set_marketFunding (s : shadowState) (m : gmap string marketFundingLeaf.t) : shadowState :=
  mkShadow (balances s) (nonces s) (openOrders s) (positions s) m (withdrawals s).
Definition set_withdrawals (s : shadowState) (m : gmap string withdrawalLeaf.t) : shadowState :=
  mkShadow (balances s) (nonces s) (openOrders s) (positions s) (marketFunding s) m.

(** ** Names and amounts *)

Definition normalizeAsset (asset : string) : string := normalize_upper asset.
Definition normalizeOutcome (outcome : string) : string := normalize_upper outcome.
Definition normalizeSide (side : string) : string := normalize_upper side.
Definition normalizeText (value : string) : string := TrimSpace value.
Definition normalizeScope (scope : string) : string :=
  let normalized := normalize_upper scope in
  if String.eqb normalized "" then "TRADE" else normalized.
Definition normalizeStatus (status : string) : string :=
  let normalized := normalize_upper status in
  if String.eqb normalized "" then "ACTIVE" else normalized.

Definition balanceKey (accountID : Z) (asset : string) : string :=
  itoa accountID +:+ ":" +:+ normalizeAsset asset.
Definition nonceKey (accountID : Z) (authKeyID : string) : string :=
  itoa accountID +:+ ":" +:+ normalizeText authKeyID.
Definition positionKey (accountID marketID : Z) (outcome : string) : string :=
  itoa accountID +:+ ":" +:+ itoa marketID +:+ ":" +:+ normalizeOutcome outcome.
Definition marketFundingKey (marketID : Z) : string := itoa marketID.

Definition reserveAsset (payload : OrderAcceptedPayload.t) : string :=
  let asset := normalizeAsset (OrderAcceptedPayload.ReserveAsset payload) in
  if String.eqb asset "" then normalizeAsset (OrderAcceptedPayload.CollateralAsset payload) else asset.

Definition reserveAssetFromCancellation (payload : OrderCancelledPayload.t) : string :=
  let asset := normalizeAsset (OrderCancelledPayload.ReserveAsset payload) in
  if negb (String.eqb asset "") then asset
  else if String.eqb (normalizeSide (OrderCancelledPayload.Side payload)) "SELL"
  then PositionAsset (OrderCancelledPayload.MarketID payload) (OrderCancelledPayload.Outcome payload)
  else DefaultCollateralAsset.

Definition multiply (left right : Z) : result string Z :=
  if (left <? 0) || (right <? 0) then Err "negative multiply is not supported"
  else if (left =? 0) || (right =? 0) then Ok 0
  else if MaxInt64 `quot` right <? left then Err "multiply overflow"
  else Ok (left ⊠ right).

Definition expectedReserveAmount (side : string) (price quantity : Z) : Z :=
  if quantity <=? 0 then 0
  else if String.eqb (normalizeSide side) "SELL" then quantity
  else match multiply price quantity with Ok value => value | Err _ => 0 end.

Definition buyerSellerAccounts (payload : TradeMatchedPayload.t) : Z * Z :=
  if String.eqb (normalizeSide (TradeMatchedPayload.TakerSide payload)) "BUY"
  then (TradeMatchedPayload.TakerAccountID payload, TradeMatchedPayload.MakerAccountID payload)
  else (TradeMatchedPayload.MakerAccountID payload, TradeMatchedPayload.TakerAccountID payload).

Definition resolutionRef (payload : MarketResolvedPayload.t) : string :=
  let ref := TrimSpace (MarketResolvedPayload.ResolverRef payload) in
  let kind := MarketResolvedPayload.ResolverType payload in
  if negb (String.eqb ref "") && negb (String.eqb (TrimSpace kind) "")
  then normalize_upper kind +:+ ":" +:+ ref
  else if negb (String.eqb ref "") then ref
  else normalize_upper kind.

(** ** Applying entries

    A handler that fails may have changed the state before: every operation returns
    the state it leaves with its error. *)

Definition adjustBalance (s : shadowState) (accountID : Z) (asset : string)
    (freeDelta lockedDelta sequence : Z) : shadowState :=
  if accountID <=? 0 then s
  else
    let key := balanceKey accountID asset in
    let leaf := default balanceLeaf.zero (balances s !! key) in
    let free := balanceLeaf.FreeBalance leaf ⊞ freeDelta in
    let locked := balanceLeaf.LockedBalance leaf ⊞ lockedDelta in
    if (free =? 0) && (locked =? 0) then set_balances s (delete key (balances s))
    else set_balances s
      (<[key := balanceLeaf.mk accountID (normalizeAsset asset) free locked sequence]> (balances s)).

Definition adjustPosition (s : shadowState) (accountID marketID : Z) (outcome : string)
    (delta sequence : Z) : shadowState :=
  if (accountID <=? 0) || (delta =? 0) then s
  else
    let key := positionKey accountID marketID outcome in
    let quantity := default 0 (positionLeaf.Quantity <$> positions s !! key) ⊞ delta in
    if quantity =? 0 then set_positions s (delete key (positions s))
    else set_positions s
      (<[key := positionLeaf.mk accountID marketID (normalizeOutcome outcome) quantity 0 0 0 "OPEN"
                  sequence]> (positions s)).

Definition applyNonceAdvanced (s : shadowState) (sequence : Z) (payload : NonceAdvancedPayload.t)
    : shadowState * option string :=
  let accountID := NonceAdvancedPayload.AccountID payload in
  let accepted := NonceAdvancedPayload.AcceptedNonce payload in
  let next := NonceAdvancedPayload.NextNonce payload in
  if accountID <=? 0 then (s, Some "account_id is required for nonce advance")
  else
    let authKeyID := normalizeText (NonceAdvancedPayload.AuthKeyID payload) in
    if String.eqb authKeyID "" then (s, Some "auth_key_id is required for nonce advance")
    else if accepted =? 0 then (s, Some "accepted_nonce must be positive")
    else if (next =? 0) || negb (next =? wrapu64 (accepted + 1))
    then (s, Some "next_nonce must equal accepted_nonce + 1")
    else
      let key := nonceKey accountID authKeyID in
      let regressed :=
        match nonces s !! key with
        | Some current => accepted <? nonceLeaf.NextNonce current
        | None => false
        end in
      if regressed : bool
      then (s, Some ("nonce advance regressed for account " +:+ itoa accountID +:+ " auth_key " +:+ authKeyID))
      else
        (set_nonces s
           (<[key := nonceLeaf.mk accountID authKeyID next
                       (normalizeStatus (NonceAdvancedPayload.KeyStatus payload))
                       (normalizeScope (NonceAdvancedPayload.Scope payload)) sequence]> (nonces s)), None).

Definition validateTradingKeyAuthorizedPayload (witness : TradingKeyAuthorizationWitness.t) : option string :=
  if String.eqb (TrimSpace (TradingKeyAuthorizationWitness.TradingKeyID witness)) ""
  then Some "trading_key_id is required for trading key auth witness"
  else if String.eqb (TrimSpace (TradingKeyAuthorizationWitness.AuthorizationRef witness)) ""
  then Some "authorization_ref is required for trading key auth witness"
  else if TradingKeyAuthorizationWitness.AccountID witness <=? 0
  then Some "account_id is required for trading key auth witness"
  else if String.eqb (TrimSpace (TradingKeyAuthorizationWitness.WalletAddress witness)) ""
  then Some "wallet_address is required for trading key auth witness"
  else if TradingKeyAuthorizationWitness.ChainID witness <=? 0
  then Some "chain_id is required for trading key auth witness"
  else if String.eqb (TrimSpace (TradingKeyAuthorizationWitness.VaultAddress witness)) ""
  then Some "vault_address is required for trading key auth witness"
  else if String.eqb (TrimSpace (TradingKeyAuthorizationWitness.TradingPublicKey witness)) ""
  then Some "trading_public_key is required for trading key auth witness"
  else if String.eqb (TrimSpace (TradingKeyAuthorizationWitness.WalletSignature witness)) ""
  then Some "wallet_signature is required for trading key auth witness"
  else None.

Definition applyOrderAccepted (s : shadowState) (sequence : Z) (payload : OrderAcceptedPayload.t)
    : shadowState * option string :=
  let asset := reserveAsset payload in
  let amount := OrderAcceptedPayload.ReserveAmount payload in
  let s := adjustBalance s (OrderAcceptedPayload.AccountID payload) asset (- amount) amount sequence in
  let order := orderLeaf.mk (OrderAcceptedPayload.OrderID payload)
    (OrderAcceptedPayload.AccountID payload) (OrderAcceptedPayload.MarketID payload)
    (normalizeOutcome (OrderAcceptedPayload.Outcome payload))
    (normalizeSide (OrderAcceptedPayload.Side payload)) (OrderAcceptedPayload.Price payload)
    (OrderAcceptedPayload.Quantity payload) 0 (OrderAcceptedPayload.Quantity payload) asset amount
    "OPEN" sequence in
  (set_openOrders s (<[OrderAcceptedPayload.OrderID payload := order]> (openOrders s)), None).

(** The order a cancellation names when it is not open. *)
Definition cancelled_order (payload : OrderCancelledPayload.t) : orderLeaf.t :=
  let remaining := Z.max 0 (OrderCancelledPayload.RemainingQuantity payload) in
  orderLeaf.mk (OrderCancelledPayload.OrderID payload) (OrderCancelledPayload.AccountID payload)
    (OrderCancelledPayload.MarketID payload) (normalizeOutcome (OrderCancelledPayload.Outcome payload))
    (normalizeSide (OrderCancelledPayload.Side payload)) (OrderCancelledPayload.Price payload) 0 0
    remaining (reserveAssetFromCancellation payload)
    (expectedReserveAmount (OrderCancelledPayload.Side payload) (OrderCancelledPayload.Price payload)
       remaining) "" 0.

Definition applyOrderCancelled (s : shadowState) (sequence : Z) (payload : OrderCancelledPayload.t)
    : shadowState * option string :=
  let orderID := OrderCancelledPayload.OrderID payload in
  let order := default (cancelled_order payload) (openOrders s !! orderID) in
  let reserved := orderLeaf.ReservedCollateral order in
  let s := if 0 <? reserved
           then adjustBalance s (orderLeaf.AccountID order) (orderLeaf.ReserveAsset order) reserved
                  (- reserved) sequence
           else s in
  (set_openOrders s (delete orderID (openOrders s)), None).

(** [fillOrder] after its guards: [spent] leaves the reserve, what the rest of the
    order does not need is released. *)
Definition consume_reserve (s : shadowState) (sequence : Z) (order : orderLeaf.t)
    (fillQuantity spent : Z) (complaint : string) : shadowState * result string Z :=
  let account := orderLeaf.AccountID order in
  let asset := orderLeaf.ReserveAsset order in
  let s := adjustBalance s account asset 0 (- spent) sequence in
  let reserved := orderLeaf.ReservedCollateral order ⊟ spent in
  let expectedReserve := expectedReserveAmount (orderLeaf.Side order) (orderLeaf.Price order)
                           (orderLeaf.RemainingQuantity order ⊟ fillQuantity) in
  let releasedFree := reserved ⊟ expectedReserve in
  if releasedFree <? 0 then (s, Err (complaint +:+ orderLeaf.OrderID order))
  else if 0 <? releasedFree
  then (adjustBalance s account asset releasedFree (- releasedFree) sequence, Ok expectedReserve)
  else (s, Ok expectedReserve).

Definition filled_order (order : orderLeaf.t) (fillQuantity reserve sequence : Z) : orderLeaf.t :=
  orderLeaf.mk (orderLeaf.OrderID order) (orderLeaf.AccountID order) (orderLeaf.MarketID order)
    (orderLeaf.Outcome order) (orderLeaf.Side order) (orderLeaf.Price order)
    (orderLeaf.OriginalQuantity order) (orderLeaf.FilledQuantity order ⊞ fillQuantity)
    (orderLeaf.RemainingQuantity order ⊟ fillQuantity) (orderLeaf.ReserveAsset order) reserve "OPEN"
    sequence.

Definition fillOrder (s : shadowState) (sequence : Z) (orderID : string)
    (fillQuantity executionPrice : Z) : shadowState * option string :=
  match openOrders s !! orderID with
  | None => (s, Some ("rollup trade references unknown order: " +:+ orderID))
  | Some order =>
      if fillQuantity <=? 0 then (s, Some "fill quantity must be positive")
      else if orderLeaf.RemainingQuantity order <? fillQuantity
      then (s, Some ("fill quantity exceeds remaining quantity for order " +:+ orderID))
      else
        let '(s, reserve) :=
          if String.eqb (orderLeaf.Side order) "BUY" then
            match multiply executionPrice fillQuantity with
            | Err e => (s, Err e)
            | Ok notional =>
                consume_reserve s sequence order fillQuantity notional
                  "negative reserve release for buy order "
            end
          else if String.eqb (orderLeaf.Side order) "SELL" then
            consume_reserve s sequence order fillQuantity fillQuantity
              "negative reserve release for sell order "
          else (s, Err ("unsupported order side " +:+ orderLeaf.Side order)) in
        match reserve with
        | Err e => (s, Some e)
        | Ok reserve =>
            let order := filled_order order fillQuantity reserve sequence in
            if orderLeaf.RemainingQuantity order =? 0
            then (set_openOrders s (delete orderID (openOrders s)), None)
            else (set_openOrders s (<[orderID := order]> (openOrders s)), None)
        end
  end.

Definition applyTradeMatched (s : shadowState) (sequence : Z) (payload : TradeMatchedPayload.t)
    : shadowState * option string :=
  let price := TradeMatchedPayload.Price payload in
  let quantity := TradeMatchedPayload.Quantity payload in
  match multiply price quantity with
  | Err e => (s, Some e)
  | Ok notional =>
      match fillOrder s sequence (TradeMatchedPayload.TakerOrderID payload) quantity price with
      | (s, Some e) => (s, Some e)
      | (s, None) =>
          match fillOrder s sequence (TradeMatchedPayload.MakerOrderID payload) quantity price with
          | (s, Some e) => (s, Some e)
          | (s, None) =>
              let '(buyer, seller) := buyerSellerAccounts payload in
              let market := TradeMatchedPayload.MarketID payload in
              let outcome := TradeMatchedPayload.Outcome payload in
              let s :=
                if 0 <? buyer then
                  adjustPosition (adjustBalance s buyer (PositionAsset market outcome) quantity 0 sequence)
                    buyer market outcome quantity sequence
                else s in
              let s :=
                if 0 <? seller then
                  adjustPosition
                    (adjustBalance s seller (TradeMatchedPayload.CollateralAsset payload) notional 0 sequence)
                    seller market outcome (- quantity) sequence
                else s in
              (s, None)
          end
      end
  end.

Definition applyMarketResolved (s : shadowState) (sequence : Z) (payload : MarketResolvedPayload.t)
    : shadowState * option string :=
  let marketID := MarketResolvedPayload.MarketID payload in
  if marketID <=? 0 then (s, Some "market_id is required for market resolution")
  else
    let outcome := normalizeOutcome (MarketResolvedPayload.ResolvedOutcome payload) in
    if String.eqb outcome "" then (s, Some "resolved_outcome is required for market resolution")
    else
      (set_marketFunding s
         (<[marketFundingKey marketID :=
              marketFundingLeaf.mk marketID 0 (resolutionRef payload) "RESOLVED" outcome sequence]>
            (marketFunding s)), None).

Definition settlePosition (s : shadowState) (sequence accountID marketID : Z) (outcome : string)
    (settledQuantity : Z) : shadowState * option string :=
  let key := positionKey accountID marketID outcome in
  match positions s !! key with
  | None => (s, Some ("settlement payout references unknown position " +:+ key))
  | Some leaf =>
      if positionLeaf.Quantity leaf <? settledQuantity
      then (s, Some ("settlement quantity exceeds position quantity for " +:+ key))
      else
        let quantity := positionLeaf.Quantity leaf ⊟ settledQuantity in
        if quantity =? 0 then (set_positions s (delete key (positions s)), None)
        else if 0 <? quantity then
          (set_positions s
             (<[key := positionLeaf.mk (positionLeaf.AccountID leaf) (positionLeaf.MarketID leaf)
                         (positionLeaf.Outcome leaf) quantity (positionLeaf.CostBasis leaf)
                         (positionLeaf.RealizedPnL leaf) (positionLeaf.FundingSnapshot leaf)
                         "PARTIALLY_SETTLED" sequence]> (positions s)), None)
        else (s, Some ("settlement produced negative position quantity for " +:+ key))
  end.

Definition payout_position_asset (payload : SettlementPayoutPayload.t) : string :=
  let asset := normalizeAsset (SettlementPayoutPayload.PositionAsset payload) in
  if String.eqb asset ""
  then PositionAsset (SettlementPayoutPayload.MarketID payload) (SettlementPayoutPayload.WinningOutcome payload)
  else asset.
Definition payout_asset (payload : SettlementPayoutPayload.t) : string :=
  let asset := normalizeAsset (SettlementPayoutPayload.PayoutAsset payload) in
  if String.eqb asset "" then DefaultCollateralAsset else asset.

Definition applySettlementPayout (s : shadowState) (sequence : Z) (payload : SettlementPayoutPayload.t)
    : shadowState * option string :=
  let accountID := SettlementPayoutPayload.AccountID payload in
  let marketID := SettlementPayoutPayload.MarketID payload in
  let settled := SettlementPayoutPayload.SettledQuantity payload in
  let amount := SettlementPayoutPayload.PayoutAmount payload in
  if accountID <=? 0 then (s, Some "account_id is required for settlement payout")
  else if marketID <=? 0 then (s, Some "market_id is required for settlement payout")
  else if settled <=? 0 then (s, Some "settled_quantity must be positive")
  else if amount <? 0 then (s, Some "payout_amount cannot be negative")
  else
    let positionAsset := payout_position_asset payload in
    let balance := default balanceLeaf.zero (balances s !! balanceKey accountID positionAsset) in
    if balanceLeaf.FreeBalance balance <? settled
    then (s, Some ("settlement payout exceeds shadow position balance for account " +:+ itoa accountID
                   +:+ " market " +:+ itoa marketID))
    else
      let s := adjustBalance s accountID positionAsset (- settled) 0 sequence in
      match settlePosition s sequence accountID marketID
              (SettlementPayoutPayload.WinningOutcome payload) settled with
      | (s, Some e) => (s, Some e)
      | (s, None) =>
          (if 0 <? amount then adjustBalance s accountID (payout_asset payload) amount 0 sequence
           else s, None)
      end.

Definition applyDepositCredited (s : shadowState) (sequence : Z) (payload : DepositCreditedPayload.t)
    : shadowState * option string :=
  (adjustBalance s (DepositCreditedPayload.AccountID payload) (DepositCreditedPayload.Asset payload)
     (DepositCreditedPayload.Amount payload) 0 sequence, None).

Definition applyWithdrawalRequested (s : shadowState) (sequence : Z)
    (payload : WithdrawalRequestedPayload.t) : shadowState * option string :=
  let s := adjustBalance s (WithdrawalRequestedPayload.AccountID payload)
             (WithdrawalRequestedPayload.Asset payload) (- WithdrawalRequestedPayload.Amount payload) 0
             sequence in
  let leaf := withdrawalLeaf.mk (WithdrawalRequestedPayload.WithdrawalID payload)
    (WithdrawalRequestedPayload.AccountID payload)
    (normalizeAsset (WithdrawalRequestedPayload.Asset payload))
    (WithdrawalRequestedPayload.Amount payload)
    (normalizeText (WithdrawalRequestedPayload.RecipientAddress payload))
    (normalizeText (WithdrawalRequestedPayload.Lane payload)) "REQUESTED" "USER" sequence "" in
  (set_withdrawals s (<[WithdrawalRequestedPayload.WithdrawalID payload := leaf]> (withdrawals s)), None).

(** ** Entries *)

(** A row of the journal as it is read back: the payload is its JSON text. *)
Module Entry.
Record t := mk {
  Sequence : Z;
  EntryID : string;
  EntryType : string;
  SourceType : string;
  SourceRef : string;
  OccurredAtMillis : Z;
  Payload : string;
}.
End Entry.

Inductive EntryPayload :=
| PNonceAdvanced (p : NonceAdvancedPayload.t)
| PTradingKeyAuthorized (w : TradingKeyAuthorizationWitness.t)
| POrderAccepted (p : OrderAcceptedPayload.t)
| POrderCancelled (p : OrderCancelledPayload.t)
| PTradeMatched (p : TradeMatchedPayload.t)
| PDepositCredited (p : DepositCreditedPayload.t)
| PWithdrawalRequested (p : WithdrawalRequestedPayload.t)
| PMarketResolved (p : MarketResolvedPayload.t)
| PSettlementPayout (p : SettlementPayoutPayload.t).

Definition apply_payload (s : shadowState) (sequence : Z) (p : EntryPayload)
    : shadowState * option string :=
  match p with
  | PNonceAdvanced p => applyNonceAdvanced s sequence p
  | PTradingKeyAuthorized w => (s, validateTradingKeyAuthorizedPayload w)
  | POrderAccepted p => applyOrderAccepted s sequence p
  | POrderCancelled p => applyOrderCancelled s sequence p
  | PTradeMatched p => applyTradeMatched s sequence p
  | PDepositCredited p => applyDepositCredited s sequence p
  | PWithdrawalRequested p => applyWithdrawalRequested s sequence p
  | PMarketResolved p => applyMarketResolved s sequence p
  | PSettlementPayout p => applySettlementPayout s sequence p
  end.

Section apply.
Context `{!JSON NonceAdvancedPayload.t, !JSON TradingKeyAuthorizationWitness.t}.
Context `{!JSON OrderAcceptedPayload.t, !JSON OrderCancelledPayload.t, !JSON TradeMatchedPayload.t}.
Context `{!JSON DepositCreditedPayload.t, !JSON WithdrawalRequestedPayload.t}.
Context `{!JSON MarketResolvedPayload.t, !JSON SettlementPayoutPayload.t}.

(** [json.Unmarshal] into the payload type the entry type names; its error text is
    not read by anyone. *)
Definition unmarshal_as {T} `{!JSON T} (wrap : T → EntryPayload) (text : string)
    : result string EntryPayload :=
  match Unmarshal text with Some p => Ok (wrap p) | None => Err "json" end.

Definition decode (e : Entry.t) : result string EntryPayload :=
  let kind := Entry.EntryType e in
  let text := Entry.Payload e in
  if String.eqb kind EntryTypeNonceAdvanced then unmarshal_as PNonceAdvanced text
  else if String.eqb kind EntryTypeTradingKeyAuthorized then unmarshal_as PTradingKeyAuthorized text
  else if String.eqb kind EntryTypeOrderAccepted then unmarshal_as POrderAccepted text
  else if String.eqb kind EntryTypeOrderCancelled then unmarshal_as POrderCancelled text
  else if String.eqb kind EntryTypeTradeMatched then unmarshal_as PTradeMatched text
  else if String.eqb kind EntryTypeDepositCredited then unmarshal_as PDepositCredited text
  else if String.eqb kind EntryTypeWithdrawalRequested then unmarshal_as PWithdrawalRequested text
  else if String.eqb kind EntryTypeMarketResolved then unmarshal_as PMarketResolved text
  else if String.eqb kind EntryTypeSettlementPayout then unmarshal_as PSettlementPayout text
  else Err ("unsupported rollup entry type: " +:+ kind).

Definition apply (s : shadowState) (e : Entry.t) : shadowState * option string :=
  match decode e with
  | Err err => (s, Some err)
  | Ok p => apply_payload s (Entry.Sequence e) p
  end.

Fixpoint apply_all (s : shadowState) (entries : list Entry.t) : shadowState * option string :=
  match entries with
  | [] => (s, None)
  | e :: entries =>
      match apply s e with
      | (s, Some err) => (s, Some err)
      | (s, None) => apply_all s entries
      end
  end.
End apply.
