(* ===== verification/RollupReplay.v ===== *)
(** * Rollup: roots, batches and their replay

    The hashing of [rollup/hash.go] and the roots of [replay.go], the replay of stored
    batches, and [Store.MaterializeNextBatch] of [store.go], which turns the journal
    rows after the last batch into a new one: with a cached state when its root fits,
    by a full replay otherwise. *)

From stdpp Require Import sorting.
From S2P Require Import Prelude Strings Auth RollupJournal RollupState.

Local Open Scope Z_scope.

Module BatchInput.
Record t := mk { EncodingVersion : string; Entries : list Entry.t }.
End BatchInput.

Module StoredBatch.
Record t := mk {
  BatchID : Z;
  EncodingVersion : string;
  FirstSequence : Z;
  LastSequence : Z;
  EntryCount : Z;
  InputData : string;
  InputHash : string;
  PrevStateRoot : string;
  BalancesRoot : string;
  OrdersRoot : string;
  PositionsFundingRoot : string;
  WithdrawalsRoot : string;
  StateRoot : string;
  CreatedAt : Z;
}.
End StoredBatch.

Record RootSet := mkRoots {
  BalancesRoot : string;
  OrdersRoot : string;
  PositionsFundingRoot : string;
  WithdrawalsRoot : string;
  StateRoot : string;
}.

Section hashing.
Context (sha256 : string → string).

Definition hashStrings (parts : list string) : string := EncodeToString (sha256 (length_prefixed parts)).

Definition hashStruct {T} `{!JSON T} (namespace key : string) (value : T) : string :=
  hashStrings [namespace; key; Marshal value].

Definition ZeroBalancesRoot : string := hashStrings ["shadow"; "balances"; "empty"].
Definition ZeroNonceRoot : string := hashStrings ["shadow"; "orders"; "nonce"; "empty"].
Definition ZeroOpenOrdersRoot : string := hashStrings ["shadow"; "orders"; "open"; "empty"].
Definition ZeroPositionsRoot : string := hashStrings ["shadow"; "positions"; "leafs"; "empty"].
Definition ZeroMarketFundingRoot : string := hashStrings ["shadow"; "positions"; "funding"; "empty"].
Definition ZeroInsuranceRoot : string := hashStrings ["shadow"; "positions"; "insurance"; "empty"].
Definition ZeroWithdrawalsRoot : string := hashStrings ["shadow"; "withdrawals"; "empty"].
Definition ZeroStateRoot : string :=
  hashStrings ["shadow"; "state"; "v1"; ZeroBalancesRoot;
    hashStrings ["shadow"; "orders"; ZeroNonceRoot; ZeroOpenOrdersRoot];
    hashStrings ["shadow"; "positions_funding"; ZeroPositionsRoot; ZeroMarketFundingRoot; ZeroInsuranceRoot];
    ZeroWithdrawalsRoot].

(** [sort.Strings] of the keys. *)
Definition sorted_keys {V} (m : gmap string V) : list string := merge_sort String.le (map_to_list m).*1.

(** The common shape of [leafRoot] and [nonceLeafRoot]. *)
Definition root_of {T} `{!JSON T} (prefix : list string) (namespace zero : string)
    (leaves : gmap string T) : string :=
  if bool_decide (leaves = ∅) then zero
  else hashStrings (prefix ++
    ((λ key, default "" (hashStruct namespace key <$> leaves !! key)) <$> sorted_keys leaves)).

Definition leafRoot {T} `{!JSON T} (namespace : string) (leaves : gmap string T) (zero : string) : string :=
  root_of ["shadow"; namespace] namespace zero leaves.

Section state.
Context `{!JSON balanceLeaf.t, !JSON nonceLeaf.t, !JSON orderLeaf.t}.
Context `{!JSON positionLeaf.t, !JSON marketFundingLeaf.t, !JSON withdrawalLeaf.t}.

Definition nonceLeafRoot (leaves : gmap string nonceLeaf.t) : string :=
  root_of ["shadow"; "orders"; "nonce"] "orders_nonce" ZeroNonceRoot leaves.

Definition roots (s : shadowState) : RootSet :=
  let balancesRoot := leafRoot "balances" (balances s) ZeroBalancesRoot in
  let nonceRoot := nonceLeafRoot (nonces s) in
  let openOrdersRoot := leafRoot "open_orders" (openOrders s) ZeroOpenOrdersRoot in
  let positionRoot := leafRoot "positions" (positions s) ZeroPositionsRoot in
  let marketFundingRoot := leafRoot "market_funding" (marketFunding s) ZeroMarketFundingRoot in
  let withdrawalsRoot := leafRoot "withdrawals" (withdrawals s) ZeroWithdrawalsRoot in
  let ordersRoot := hashStrings ["shadow"; "orders"; nonceRoot; openOrdersRoot] in
  let positionsFundingRoot :=
    hashStrings ["shadow"; "positions_funding"; positionRoot; marketFundingRoot; ZeroInsuranceRoot] in
  mkRoots balancesRoot ordersRoot positionsFundingRoot withdrawalsRoot
    (hashStrings ["shadow"; "state"; "v1"; balancesRoot; ordersRoot; positionsFundingRoot; withdrawalsRoot]).

(** ** Batches *)

Context `{!JSON NonceAdvancedPayload.t, !JSON TradingKeyAuthorizationWitness.t}.
Context `{!JSON OrderAcceptedPayload.t, !JSON OrderCancelledPayload.t, !JSON TradeMatchedPayload.t}.
Context `{!JSON DepositCreditedPayload.t, !JSON WithdrawalRequestedPayload.t}.
Context `{!JSON MarketResolvedPayload.t, !JSON SettlementPayoutPayload.t, !JSON BatchInput.t}.

Definition EncodeBatchInput (entries : list Entry.t) : string * string :=
  let inputData := Marshal (BatchInput.mk BatchEncodingVersion entries) in
  (inputData, hashStrings ["shadow"; "batch_input"; inputData]).

Definition DecodeBatchInput (input : string) : result string BatchInput.t :=
  match Unmarshal input with
  | None => Err "json"
  | Some batchInput =>
      if negb (String.eqb (TrimSpace (BatchInput.EncodingVersion batchInput)) BatchEncodingVersion)
      then Err ("unsupported rollup batch encoding version: " +:+ BatchInput.EncodingVersion batchInput)
      else Ok batchInput
  end.

(** One batch on a state whose root is [root]: the hash of its input and the root it
    starts from are checked, then its entries are applied. *)
Definition replay_batch (s : shadowState) (root : string) (batch : StoredBatch.t)
    : shadowState * option string :=
  if negb (String.eqb (StoredBatch.InputHash batch) "") &&
     negb (String.eqb (hashStrings ["shadow"; "batch_input"; StoredBatch.InputData batch])
             (StoredBatch.InputHash batch))
  then (s, Some ("rollup batch input hash mismatch for batch " +:+ itoa (StoredBatch.BatchID batch)))
  else
    let trimmed := TrimSpace (StoredBatch.PrevStateRoot batch) in
    let expectedPrev := if String.eqb trimmed "" then ZeroStateRoot else trimmed in
    if negb (String.eqb root expectedPrev)
    then (s, Some ("rollup batch prev_state_root mismatch: have " +:+ root +:+ " want " +:+ expectedPrev))
    else
      match DecodeBatchInput (StoredBatch.InputData batch) with
      | Err e => (s, Some e)
      | Ok input => apply_all s (BatchInput.Entries input)
      end.

(** The state pointer is changed in place, also when the replay fails. *)
Definition ReplayBatchOnState (s : shadowState) (batch : StoredBatch.t)
    : shadowState * result string RootSet :=
  match replay_batch s (StateRoot (roots s)) batch with
  | (s, Some e) => (s, Err e)
  | (s, None) => (s, Ok (roots s))
  end.

Fixpoint replay_loop (s : shadowState) (r : RootSet) (batches : list StoredBatch.t)
    : result string RootSet :=
  match batches with
  | [] => Ok r
  | batch :: batches =>
      match replay_batch s (StateRoot r) batch with
      | (_, Some e) => Err e
      | (s, None) => replay_loop s (roots s) batches
      end
  end.

Definition ReplayStoredBatches (batches : list StoredBatch.t) : result string RootSet :=
  replay_loop emptyShadow (roots emptyShadow) batches.

(** ** The store *)

(** The journal table in sequence order, the batch table in batch order with its
    serial, and the cache. *)
Record Store := mkStore {
  journal_rows : list Entry.t;
  batch_rows : list StoredBatch.t;
  next_batch : Z;
  cachedState : option shadowState;
  cachedStateRoot : string;
}.

Definition set_cache (st : Store) (s : shadowState) (root : string) : Store :=
  mkStore (journal_rows st) (batch_rows st) (next_batch st) (Some s) root.

Definition loadJournalEntriesAfter (st : Store) (afterSequence : Z) (limit : nat) : list Entry.t :=
  take limit (filter (λ e, afterSequence < Entry.Sequence e) (journal_rows st)).

Definition latestBatch (st : Store) : option StoredBatch.t := last (batch_rows st).

Fixpoint warm_state (s : shadowState) (batches : list StoredBatch.t) : option shadowState :=
  match batches with
  | [] => Some s
  | batch :: batches =>
      match DecodeBatchInput (StoredBatch.InputData batch) with
      | Err _ => None
      | Ok input =>
          match apply_all s (BatchInput.Entries input) with
          | (_, Some _) => None
          | (s, None) => warm_state s batches
          end
      end
  end.

Definition warmCacheFromFullReplay (st : Store) (batches : list StoredBatch.t) (r : RootSet) : Store :=
  match warm_state emptyShadow batches with
  | None => st
  | Some s => set_cache st s (StateRoot r)
  end.

(** The roots after the new batch, from the cache when it starts at the right root.  The
    replay works on a clone ([cloneShadowState]): a failure leaves the cache alone. *)
Definition next_roots (st : Store) (newBatch : StoredBatch.t) : Store * result string RootSet :=
  let replay :=
    let replayBatches := batch_rows st ++ [newBatch] in
    match ReplayStoredBatches replayBatches with
    | Err e => (st, Err e)
    | Ok r => (warmCacheFromFullReplay st replayBatches r, Ok r)
    end in
  match cachedState st with
  | Some cached =>
      if String.eqb (cachedStateRoot st) (StoredBatch.PrevStateRoot newBatch) then
        match ReplayBatchOnState cached newBatch with
        | (_, Err e) => (st, Err e)
        | (s, Ok r) => (set_cache st s (StateRoot r), Ok r)
        end
      else replay
  | None => replay
  end.

Inductive MaterializeError :=
| ErrNoPendingBatch
| ErrReplay (e : string)
| ErrInsert (e : string).

Definition draft_batch (prev inputData inputHash : string) : StoredBatch.t :=
  StoredBatch.mk 0 BatchEncodingVersion 0 0 0 inputData inputHash prev "" "" "" "" "" 0.

(** [insert] is what the [INSERT] answers: the creation time, or an error. *)
Definition MaterializeNextBatch (insert : StoredBatch.t → result string Z) (st : Store) (limit : Z)
    : Store * result MaterializeError StoredBatch.t :=
  let limit := if limit <=? 0 then 256 else limit in
  let lastBatch := latestBatch st in
  let after := match lastBatch with Some b => StoredBatch.LastSequence b | None => 0 end in
  let prev := match lastBatch with Some b => StoredBatch.StateRoot b | None => ZeroStateRoot end in
  match loadJournalEntriesAfter st after (Z.to_nat limit) with
  | [] => (st, Err ErrNoPendingBatch)
  | (first :: rest) as entries =>
      let '(inputData, inputHash) := EncodeBatchInput entries in
      match next_roots st (draft_batch prev inputData inputHash) with
      | (st, Err e) => (st, Err (ErrReplay e))
      | (st, Ok r) =>
          let batch := StoredBatch.mk (next_batch st) BatchEncodingVersion (Entry.Sequence first)
            (Entry.Sequence (List.last rest first)) (Z.of_nat (length entries)) inputData inputHash prev
            (BalancesRoot r) (OrdersRoot r) (PositionsFundingRoot r) (WithdrawalsRoot r) (StateRoot r) in
          match insert (batch 0) with
          | Err e => (mkStore (journal_rows st) (batch_rows st) (next_batch st + 1) (cachedState st)
                        (cachedStateRoot st), Err (ErrInsert e))
          | Ok createdAt =>
              (mkStore (journal_rows st) (batch_rows st ++ [batch createdAt]) (next_batch st + 1)
                 (cachedState st) (cachedStateRoot st), Ok (batch createdAt))
          end
      end
  end.
End state.
End hashing.
