(* ===== verification/RollupRoots.v ===== *)
(** * Rollup: what a state root commits to

    Two states with the same root are the same state, or hashing them runs into a
    collision of the digest; hence the cached state of the store may be used in place of a full replay. *)

From stdpp Require Import sorting.
From Stdlib Require Import Ascii.
From S2P Require Import Prelude Strings Shared Auth RollupJournal RollupState.
From S2P Require Import RollupReplay.

Local Open Scope Z_scope.

(** Distinct values have distinct JSON texts. *)
Class JSONInj (T : Type) `{!JSON T} := Marshal_inj (x y : T) : Marshal x = Marshal y → x = y.

Section items.
Context {T : Type}.

Definition sorted_items (m : gmap string T) : list (string * T) :=
  omap (λ k, (k,.) <$> m !! k) (sorted_keys m).

Lemma sorted_items_keys (l : list (string * T)) (m : gmap string T) ks :
  ks ≡ₚ l.*1 → (∀ k v, (k, v) ∈ l ↔ m !! k = Some v) → NoDup l.*1 →
  omap (λ k, (k,.) <$> m !! k) ks ≡ₚ l.
Proof.
  intros Hp Hm Hnd. rewrite Hp. clear Hp ks.
  assert (∀ l', l' ⊆ l → omap (λ k, (k,.) <$> m !! k) l'.*1 = l') as Hsub.
  { induction l' as [|[k v] l' IH]; intros Hs; [done|]. simpl.
    rewrite (proj1 (Hm k v)) by (apply Hs; left). simpl. f_equal. apply IH. set_solver. }
  by rewrite Hsub.
Qed.

Lemma sorted_items_perm m : sorted_items m ≡ₚ map_to_list m.
Proof.
  apply sorted_items_keys; [apply merge_sort_Permutation|apply elem_of_map_to_list|apply NoDup_fst_map_to_list].
Qed.

Lemma sorted_items_map m : list_to_map (sorted_items m) = m.
Proof.
  rewrite <-(list_to_map_to_list m) at 2. apply list_to_map_proper; [|apply sorted_items_perm].
  rewrite sorted_items_perm. apply NoDup_fst_map_to_list.
Qed.

End items.

Section binding.
Context (sha256 : string → string).

(** Different part lists of [A] and [B] with the same hash. *)
Definition collision (A B : list (list string)) : Prop :=
  ∃ x y, x ∈ A ∧ y ∈ B ∧ x ≠ y ∧ hashStrings sha256 x = hashStrings sha256 y.

Lemma collision_mono A B A' B' : A ⊆ A' → B ⊆ B' → collision A B → collision A' B'.
Proof. intros HA HB (x & y & Hx & Hy & H). exists x, y. split_and!; [by apply HA|by apply HB|apply H|apply H]. Qed.

Lemma hashStrings_eq A B x y :
  x ∈ A → y ∈ B → hashStrings sha256 x = hashStrings sha256 y → x = y ∨ collision A B.
Proof. intros Hx Hy E. destruct (decide (x = y)); [by left|]. right. by exists x, y. Qed.

(** On parts that are not absurdly long it is a collision of the digest itself. *)
Lemma collision_sha256 l1 l2 :
  Forall short l1 → Forall short l2 → l1 ≠ l2 → hashStrings sha256 l1 = hashStrings sha256 l2 →
  ∃ x y, x ≠ y ∧ sha256 x = sha256 y.
Proof.
  intros H1 H2 Hne E%EncodeToString_inj. exists (length_prefixed l1), (length_prefixed l2).
  split; [|done]. intros ?%length_prefixed_inj; done.
Qed.

(** A hash is a text of even length: none is the name of an empty root. *)
Lemma hash_even l : Nat.even (String.length (hashStrings sha256 l)) = true.
Proof. unfold hashStrings. rewrite length_EncodeToString. apply Nat.even_spec. by eexists. Qed.

Section leaves.
Context {T : Type} `{!JSON T, !JSONInj T}.

Lemma leaf_hashes ns (m : gmap string T) :
  (λ key, default "" (hashStruct sha256 ns key <$> m !! key)) <$> sorted_keys m =
  (λ kv : string * T, hashStruct sha256 ns kv.1 kv.2) <$> sorted_items m.
Proof.
  unfold sorted_items.
  assert (Forall (λ k, is_Some (m !! k)) (sorted_keys m)) as Hk.
  { apply Forall_forall. unfold sorted_keys. intros k. rewrite merge_sort_Permutation.
    intros [[k' v] [-> Hkv%elem_of_map_to_list]]%list_elem_of_fmap. by exists v. }
  induction Hk as [|k ks [v Hv] _ IH]; [done|]. rewrite fmap_cons, IH. simpl. by rewrite Hv.
Qed.

(** What is hashed on the way to a root: the list of the root and one list per leaf. *)
Definition leaf_inputs (ns : string) (m : gmap string T) : list (list string) :=
  (λ kv : string * T, [ns; kv.1; Marshal kv.2]) <$> sorted_items m.
Definition root_input (prefix : list string) (ns : string) (zero : list string) (m : gmap string T)
    : list string :=
  if bool_decide (m = ∅) then zero
  else prefix ++ ((λ kv : string * T, hashStruct sha256 ns kv.1 kv.2) <$> sorted_items m).
Definition root_inputs prefix ns zero m : list (list string) :=
  root_input prefix ns zero m :: leaf_inputs ns m.

Lemma root_of_input prefix ns zero (m : gmap string T) :
  root_of sha256 prefix ns (hashStrings sha256 zero) m = hashStrings sha256 (root_input prefix ns zero m).
Proof. unfold root_of, root_input. rewrite leaf_hashes. by case_bool_decide. Qed.

Lemma leaf_hashes_inj ns (l1 l2 : list (string * T)) :
  (λ kv, hashStruct sha256 ns kv.1 kv.2) <$> l1 = (λ kv, hashStruct sha256 ns kv.1 kv.2) <$> l2 →
  l1 = l2 ∨ collision ((λ kv, [ns; kv.1; Marshal kv.2]) <$> l1) ((λ kv, [ns; kv.1; Marshal kv.2]) <$> l2).
Proof.
  revert l2. induction l1 as [|[k1 v1] l1 IH]; intros [|[k2 v2] l2]; try discriminate 1; [by left|].
  rewrite !fmap_cons. cbn [fst snd]. intros [= E1 E2].
  destruct (IH l2 E2) as [->|Hc]; [|right; eapply collision_mono; [..|exact Hc]; by apply list_subseteq_cons].
  destruct (hashStrings_eq ([ns; k1; Marshal v1] :: ((λ kv : string * T, [ns; kv.1; Marshal kv.2]) <$> l2))
    ([ns; k2; Marshal v2] :: ((λ kv : string * T, [ns; kv.1; Marshal kv.2]) <$> l2)) _ _
    ltac:(left) ltac:(left) E1) as [[= -> ->%Marshal_inj]|]; [by left|by right].
Qed.

Lemma root_of_inj prefix ns zero m1 m2 :
  (∀ hashes, Forall (λ h, Nat.even (String.length h) = true) hashes → zero ≠ prefix ++ hashes) →
  root_of sha256 prefix ns (hashStrings sha256 zero) m1 =
  root_of sha256 prefix ns (hashStrings sha256 zero) m2 →
  m1 = m2 ∨ collision (root_inputs prefix ns zero m1) (root_inputs prefix ns zero m2).
Proof.
  intros Hz. rewrite !root_of_input.
  intros [E|?]%(hashStrings_eq (root_inputs prefix ns zero m1) (root_inputs prefix ns zero m2));
    [|by right|left|left]. revert E.
  assert (∀ l : list (string * T), Forall (λ h, Nat.even (String.length h) = true)
    ((λ kv, hashStruct sha256 ns kv.1 kv.2) <$> l)) as Heven.
  { intros l. apply Forall_fmap, Forall_true. intros kv. apply hash_even. }
  unfold root_input. case_bool_decide as E1; case_bool_decide as E2; intros E; [left; congruence|..].
  - by destruct (Hz _ (Heven _) E).
  - symmetry in E. by destruct (Hz _ (Heven _) E).
  - apply (inj (prefix ++.)), leaf_hashes_inj in E as [E|Hc].
    + left. by rewrite <-(sorted_items_map m1), <-(sorted_items_map m2), E.
    + right. eapply collision_mono; [..|exact Hc]; by apply list_subseteq_cons.
Qed.
End leaves.

Context `{!JSON balanceLeaf.t, !JSON nonceLeaf.t, !JSON orderLeaf.t}.
Context `{!JSON positionLeaf.t, !JSON marketFundingLeaf.t, !JSON withdrawalLeaf.t}.
Context `{!JSONInj balanceLeaf.t, !JSONInj nonceLeaf.t, !JSONInj orderLeaf.t}.
Context `{!JSONInj positionLeaf.t, !JSONInj marketFundingLeaf.t, !JSONInj withdrawalLeaf.t}.

(** Every list of strings that is hashed for the root of a state. *)
Definition orders_input (s : shadowState) : list string :=
  ["shadow"; "orders"; nonceLeafRoot sha256 (nonces s);
   leafRoot sha256 "open_orders" (openOrders s) (ZeroOpenOrdersRoot sha256)].
Definition positions_input (s : shadowState) : list string :=
  ["shadow"; "positions_funding"; leafRoot sha256 "positions" (positions s) (ZeroPositionsRoot sha256);
   leafRoot sha256 "market_funding" (marketFunding s) (ZeroMarketFundingRoot sha256); ZeroInsuranceRoot sha256].
Definition state_input (s : shadowState) : list string :=
  ["shadow"; "state"; "v1"; leafRoot sha256 "balances" (balances s) (ZeroBalancesRoot sha256);
   hashStrings sha256 (orders_input s); hashStrings sha256 (positions_input s);
   leafRoot sha256 "withdrawals" (withdrawals s) (ZeroWithdrawalsRoot sha256)].
Definition hash_inputs (s : shadowState) : list (list string) :=
  [state_input s; orders_input s; positions_input s] ++
  root_inputs ["shadow"; "balances"] "balances" ["shadow"; "balances"; "empty"] (balances s) ++
  root_inputs ["shadow"; "orders"; "nonce"] "orders_nonce" ["shadow"; "orders"; "nonce"; "empty"] (nonces s) ++
  root_inputs ["shadow"; "open_orders"] "open_orders" ["shadow"; "orders"; "open"; "empty"] (openOrders s) ++
  root_inputs ["shadow"; "positions"] "positions" ["shadow"; "positions"; "leafs"; "empty"] (positions s) ++
  root_inputs ["shadow"; "market_funding"] "market_funding" ["shadow"; "positions"; "funding"; "empty"]
    (marketFunding s) ++
  root_inputs ["shadow"; "withdrawals"] "withdrawals" ["shadow"; "withdrawals"; "empty"] (withdrawals s).

(** One tree at a time: its leaves are equal, or the collision is one of the states'. *)
Ltac one_root Hodd A B H :=
  apply root_of_inj in H as [H|H];
    [|right; eapply collision_mono; [..|exact H]; intros z Hz; unfold A, B, hash_inputs; rewrite !elem_of_app; tauto|
     intros h Hh [= E]; symmetry in E; first [done|
       by destruct (Hodd h Hh []) as [[] _]|by destruct (Hodd h Hh ["empty"]) as [_ []]]].

Lemma state_root_binding s1 s2 :
  StateRoot (roots sha256 s1) = StateRoot (roots sha256 s2) → s1 = s2 ∨ collision (hash_inputs s1) (hash_inputs s2).
Proof.
  change (hashStrings sha256 (state_input s1) = hashStrings sha256 (state_input s2) →
    s1 = s2 ∨ collision (hash_inputs s1) (hash_inputs s2)).
  set (A := hash_inputs s1). set (B := hash_inputs s2). intros E.
  assert (∀ hashes : list string, Forall (λ h, Nat.even (String.length h) = true) hashes →
    ∀ rest, hashes ≠ "empty" :: rest ∧ hashes ≠ "leafs" :: rest) as Hodd.
  { intros hashes Hh rest. split; intros ->; by apply Forall_cons in Hh as [? _]. }
  apply (hashStrings_eq A B) in E as [[= Eb Eo Ep Ew]|]; [|by right|by repeat constructor..].
  apply (hashStrings_eq A B) in Eo as [[= En Eop]|]; [|by right|by repeat constructor..].
  apply (hashStrings_eq A B) in Ep as [[= Epos Em]|]; [|by right|by repeat constructor..].
  unfold leafRoot, nonceLeafRoot in *.
  one_root Hodd A B Eb. one_root Hodd A B En. one_root Hodd A B Eop.
  one_root Hodd A B Epos. one_root Hodd A B Em. one_root Hodd A B Ew.
  left. destruct s1, s2. simpl in *. congruence.
Qed.
End binding.

(** ** The store *)

Section store.
Context (sha256 : string → string).
Context `{!JSON balanceLeaf.t, !JSON nonceLeaf.t, !JSON orderLeaf.t}.
Context `{!JSON positionLeaf.t, !JSON marketFundingLeaf.t, !JSON withdrawalLeaf.t}.
Context `{!JSON NonceAdvancedPayload.t, !JSON TradingKeyAuthorizationWitness.t}.
Context `{!JSON OrderAcceptedPayload.t, !JSON OrderCancelledPayload.t, !JSON TradeMatchedPayload.t}.
Context `{!JSON DepositCreditedPayload.t, !JSON WithdrawalRequestedPayload.t}.
Context `{!JSON MarketResolvedPayload.t, !JSON SettlementPayoutPayload.t, !JSON BatchInput.t}.
Context `{!JSONInj balanceLeaf.t, !JSONInj nonceLeaf.t, !JSONInj orderLeaf.t}.
Context `{!JSONInj positionLeaf.t, !JSONInj marketFundingLeaf.t, !JSONInj withdrawalLeaf.t}.

Notation state_root s := (StateRoot (roots sha256 s)).

(** The state a replay reaches. *)
Fixpoint replay_state (s : shadowState) (bs : list StoredBatch.t) : result string shadowState :=
  match bs with
  | [] => Ok s
  | b :: bs =>
      match replay_batch sha256 s (state_root s) b with
      | (_, Some e) => Err e
      | (s, None) => replay_state s bs
      end
  end.

Definition roots_of (r : result string shadowState) : result string RootSet :=
  match r with Ok s => Ok (roots sha256 s) | Err e => Err e end.

Lemma replay_loop_state s bs :
  replay_loop sha256 s (roots sha256 s) bs = roots_of (replay_state s bs).
Proof.
  revert s. induction bs as [|b bs IH]; intros s; [done|]. cbn [replay_loop replay_state].
  destruct (replay_batch _ _ _ _) as [s' [e|]]; [done|]. apply IH.
Qed.

Lemma replay_state_snoc s s1 bs b :
  replay_state s bs = Ok s1 →
  replay_state s (bs ++ [b]) =
    match replay_batch sha256 s1 (state_root s1) b with (_, Some e) => Err e | (s2, None) => Ok s2 end.
Proof.
  revert s. induction bs as [|b' bs IH]; intros s; [by intros [= ->]|]. cbn [replay_state app].
  destruct (replay_batch sha256 s _ b') as [s' [e|]]; [done|]. apply IH.
Qed.

(** A replay that succeeds reads three fields of the batch. *)
Lemma replay_batch_ext s r b b' s' :
  StoredBatch.InputData b = StoredBatch.InputData b' →
  StoredBatch.InputHash b = StoredBatch.InputHash b' →
  StoredBatch.PrevStateRoot b = StoredBatch.PrevStateRoot b' →
  replay_batch sha256 s r b = (s', None) → replay_batch sha256 s r b' = (s', None).
Proof.
  intros E1 E2 E3. unfold replay_batch. rewrite <-E1, <-E2, <-E3.
  destruct (_ && _); [done|]. destruct (negb _); [done|]. by destruct (DecodeBatchInput _).
Qed.

Lemma warm_replay s bs s' : replay_state s bs = Ok s' → warm_state s bs = Some s'.
Proof.
  revert s. induction bs as [|b bs IH]; intros s; [by intros [= ->]|].
  cbn [replay_state warm_state]. unfold replay_batch at 1.
  destruct (_ && _); [done|]. destruct (negb _); [done|]. destruct (DecodeBatchInput _) as [i|]; [|done].
  destruct (apply_all s _) as [s1 [e|]]; [done|]. apply IH.
Qed.

Definition last_root (st : Store) : string :=
  match latestBatch st with Some b => StoredBatch.StateRoot b | None => ZeroStateRoot sha256 end.

(** The stored batches replay to the root of the last one, and the cache is a state
    with the root it is filed under. *)
Record store_ok (st : Store) (s : shadowState) : Prop := {
  so_replay : replay_state emptyShadow (batch_rows st) = Ok s;
  so_root : last_root st = state_root s;
  so_cache : ∀ c, cachedState st = Some c → state_root c = cachedStateRoot st;
}.

Definition drop_cache (st : Store) : Store :=
  mkStore (journal_rows st) (batch_rows st) (next_batch st) None "".

Definition full_roots (s : shadowState) (b : StoredBatch.t) : result string RootSet :=
  match replay_batch sha256 s (state_root s) b with (_, Some e) => Err e | (s, None) => Ok (roots sha256 s) end.

(** Hashing the cached state and [s] meets two different inputs with the same digest. *)
Definition cache_collision (st : Store) (s : shadowState) : Prop :=
  ∃ c, cachedState st = Some c ∧ collision sha256 (hash_inputs sha256 c) (hash_inputs sha256 s).

(** Both ways to the next roots give those of the replayed state, and the cache they
    leave is in order. *)
Lemma next_roots_ok st s b :
  store_ok st s → StoredBatch.PrevStateRoot b = last_root st →
  (∃ st', next_roots sha256 st b = (st', full_roots s b) ∧
    journal_rows st' = journal_rows st ∧ batch_rows st' = batch_rows st ∧ next_batch st' = next_batch st ∧
    ∀ c, cachedState st' = Some c → state_root c = cachedStateRoot st') ∨ cache_collision st s.
Proof.
  intros [Hr Hl Hc] Hp.
  assert (∃ st', (match ReplayStoredBatches sha256 (batch_rows st ++ [b]) with
    | Err e => (st, Err e)
    | Ok r => (warmCacheFromFullReplay st (batch_rows st ++ [b]) r, Ok r)
    end) = (st', full_roots s b) ∧ journal_rows st' = journal_rows st ∧
    batch_rows st' = batch_rows st ∧ next_batch st' = next_batch st ∧
    ∀ c, cachedState st' = Some c → state_root c = cachedStateRoot st') as Hfull.
  { unfold ReplayStoredBatches. rewrite replay_loop_state.
    pose proof (replay_state_snoc _ _ _ b Hr) as Es. unfold full_roots.
    destruct (replay_batch _ s _ b) as [s2 [e|]]; rewrite Es; cbn [roots_of]; [by exists st|].
    unfold warmCacheFromFullReplay. rewrite (warm_replay _ _ _ Es).
    eexists. split; [done|]. split_and!; [done..|]. by intros c [= <-]. }
  unfold next_roots. destruct (cachedState st) as [c|] eqn:Ec; [|by left].
  destruct (String.eqb_spec (cachedStateRoot st) (StoredBatch.PrevStateRoot b)) as [E|]; [|by left].
  destruct (state_root_binding sha256 c s) as [-> |]; [rewrite (Hc c eq_refl); congruence| |right; by exists c].
  left. unfold ReplayBatchOnState, full_roots. destruct (replay_batch _ s _ b) as [s2 [e|]].
  - exists st. rewrite Ec. by split_and!.
  - eexists. split; [done|]. split_and!; [done..|]. by intros c [= <-].
Qed.
End store.

(** A materialised batch chain always replays, and the cache is invisible.  From a
    store whose batches replay to the root of the last one, [MaterializeNextBatch]
    answers exactly what it answers without the cached state and leaves a store of the
    same kind (whether the insert succeeds or not), unless the cached state and the
    replayed one exhibit two different inputs with the same hash. *)
Theorem materialize_cache_transparent (sha256 : string → string)
    `{!JSON balanceLeaf.t, !JSON nonceLeaf.t, !JSON orderLeaf.t}
    `{!JSON positionLeaf.t, !JSON marketFundingLeaf.t, !JSON withdrawalLeaf.t}
    `{!JSON NonceAdvancedPayload.t, !JSON TradingKeyAuthorizationWitness.t}
    `{!JSON OrderAcceptedPayload.t, !JSON OrderCancelledPayload.t, !JSON TradeMatchedPayload.t}
    `{!JSON DepositCreditedPayload.t, !JSON WithdrawalRequestedPayload.t}
    `{!JSON MarketResolvedPayload.t, !JSON SettlementPayoutPayload.t, !JSON BatchInput.t}
    `{!JSONInj balanceLeaf.t, !JSONInj nonceLeaf.t, !JSONInj orderLeaf.t}
    `{!JSONInj positionLeaf.t, !JSONInj marketFundingLeaf.t, !JSONInj withdrawalLeaf.t}
    insert st s limit :
  store_ok sha256 st s →
  (∃ s', store_ok sha256 (MaterializeNextBatch sha256 insert st limit).1 s' ∧
     (MaterializeNextBatch sha256 insert st limit).2 =
     (MaterializeNextBatch sha256 insert (drop_cache st) limit).2) ∨
  cache_collision sha256 st s.
Proof.
  intros Hok. unfold MaterializeNextBatch. cbv zeta.
  fold (last_root sha256 st) (last_root sha256 (drop_cache st)).
  change (latestBatch (drop_cache st)) with (latestBatch st).
  change (last_root sha256 (drop_cache st)) with (last_root sha256 st).
  set (after := match latestBatch st with Some b => _ | None => 0 end).
  set (n := Z.to_nat _).
  change (loadJournalEntriesAfter (drop_cache st) after n) with (loadJournalEntriesAfter st after n).
  destruct (loadJournalEntriesAfter st after n) as [|first rest]; [left; by exists s|].
  destruct (EncodeBatchInput sha256 (first :: rest)) as [data hash].
  set (draft := draft_batch (last_root sha256 st) data hash).
  assert (store_ok sha256 (drop_cache st) s) as Hok' by (by destruct Hok; split).
  destruct (next_roots_ok sha256 st s draft Hok eq_refl) as [(st1 & E1 & J1 & B1 & N1 & C1)|]; [|by right].
  destruct (next_roots_ok sha256 (drop_cache st) s draft Hok' eq_refl) as
    [(st2 & E2 & J2 & B2 & N2 & C2)|(c & [=] & _)].
  left. rewrite E1, E2. unfold full_roots. destruct Hok as [Hr Hl Hc].
  destruct (replay_batch _ s _ draft) as [s2 [e|]] eqn:ER.
  { exists s. split; [|done]. split; cbn [fst]; [by rewrite B1| |done].
    unfold last_root, latestBatch. by rewrite B1. }
  rewrite N1, N2, B1. cbn [drop_cache next_batch].
  destruct (insert _) as [createdAt|e].
  - exists s2. split; [|done]. split; cbn [fst batch_rows]; [| |done].
    + rewrite (replay_state_snoc _ _ _ _ _ Hr). by rewrite (replay_batch_ext _ _ _ draft _ s2).
    + unfold last_root, latestBatch. cbn [batch_rows]. by rewrite last_snoc.
  - exists s. split; [|done]. split; cbn [fst batch_rows]; [done| |done].
    unfold last_root, latestBatch. cbn [batch_rows]. exact Hl.
Qed.

(** ** A concrete codec

    An instance of the JSON codecs and of the digest, for evaluating the replay on
    concrete journals: leaves are written as the escaped list of their fields, payloads
    are read from a table of texts. *)

(** ** Escaped fields *)

(** Every character is quoted, a field ends with a semicolon. *)
Fixpoint quote (s rest : string) : string :=
  match s with
  | EmptyString => String ";" rest
  | String c s => String "'" (String c (quote s rest))
  end.

Fixpoint seal (fields : list string) : string :=
  match fields with
  | [] => ""
  | f :: fields => quote f (seal fields)
  end.

Lemma quote_inj s1 s2 r1 r2 : quote s1 r1 = quote s2 r2 → s1 = s2 ∧ r1 = r2.
Proof.
  revert s2. induction s1 as [|c1 s1 IH]; intros [|c2 s2]; cbn [quote]; try discriminate 1.
  - by intros [= ->].
  - intros [= -> [-> ->]%IH]. done.
Qed.

Lemma seal_inj l1 l2 : seal l1 = seal l2 → l1 = l2.
Proof.
  revert l2. induction l1 as [|f1 l1 IH]; intros [|f2 l2]; cbn [seal]; [done| | |].
  - by destruct f2.
  - by destruct f1.
  - by intros [-> ->%IH]%quote_inj.
Qed.

(** ** Leaves *)

Definition write_only {T} (fields : T → list string) : JSON T :=
  {| Marshal x := seal (fields x); Unmarshal _ := None |}.

#[global] Instance balanceLeaf_json : JSON balanceLeaf.t := write_only (λ l,
  [itoa (balanceLeaf.AccountID l); balanceLeaf.AssetID l; itoa (balanceLeaf.FreeBalance l);
   itoa (balanceLeaf.LockedBalance l); itoa (balanceLeaf.LastAppliedSequence l)]).
#[global] Instance nonceLeaf_json : JSON nonceLeaf.t := write_only (λ l,
  [itoa (nonceLeaf.AccountID l); nonceLeaf.AuthKeyID l; itoa (nonceLeaf.NextNonce l);
   nonceLeaf.KeyStatus l; nonceLeaf.Scope l; itoa (nonceLeaf.LastAppliedSequence l)]).
#[global] Instance orderLeaf_json : JSON orderLeaf.t := write_only (λ l,
  [orderLeaf.OrderID l; itoa (orderLeaf.AccountID l); itoa (orderLeaf.MarketID l); orderLeaf.Outcome l;
   orderLeaf.Side l; itoa (orderLeaf.Price l); itoa (orderLeaf.OriginalQuantity l);
   itoa (orderLeaf.FilledQuantity l); itoa (orderLeaf.RemainingQuantity l); orderLeaf.ReserveAsset l;
   itoa (orderLeaf.ReservedCollateral l); orderLeaf.Status l; itoa (orderLeaf.LastAppliedSequence l)]).
#[global] Instance positionLeaf_json : JSON positionLeaf.t := write_only (λ l,
  [itoa (positionLeaf.AccountID l); itoa (positionLeaf.MarketID l); positionLeaf.Outcome l;
   itoa (positionLeaf.Quantity l); itoa (positionLeaf.CostBasis l); itoa (positionLeaf.RealizedPnL l);
   itoa (positionLeaf.FundingSnapshot l); positionLeaf.SettlementStatus l;
   itoa (positionLeaf.LastAppliedSequence l)]).
#[global] Instance marketFundingLeaf_json : JSON marketFundingLeaf.t := write_only (λ l,
  [itoa (marketFundingLeaf.MarketID l); itoa (marketFundingLeaf.CumulativeFundingIndex l);
   marketFundingLeaf.LastOracleRef l; marketFundingLeaf.MarketSettlementState l;
   marketFundingLeaf.ResolvedOutcome l; itoa (marketFundingLeaf.LastAppliedSequence l)]).
#[global] Instance withdrawalLeaf_json : JSON withdrawalLeaf.t := write_only (λ l,
  [withdrawalLeaf.WithdrawalID l; itoa (withdrawalLeaf.AccountID l); withdrawalLeaf.AssetID l;
   itoa (withdrawalLeaf.Amount l); withdrawalLeaf.Recipient l; withdrawalLeaf.Lane l;
   withdrawalLeaf.Status l; withdrawalLeaf.Beneficiary l; itoa (withdrawalLeaf.RequestSequence l);
   withdrawalLeaf.ClaimNullifier l]).

(** Equal fields make equal leaves. *)
Ltac leaf_inj :=
  intros x y H; apply seal_inj in H; destruct x, y; injection H; intros; f_equal;
  first [assumption|by apply (inj itoa)].

#[global] Instance balanceLeaf_inj : JSONInj balanceLeaf.t.
Proof. leaf_inj. Qed.
#[global] Instance nonceLeaf_inj : JSONInj nonceLeaf.t.
Proof. leaf_inj. Qed.
#[global] Instance orderLeaf_inj : JSONInj orderLeaf.t.
Proof. leaf_inj. Qed.
#[global] Instance positionLeaf_inj : JSONInj positionLeaf.t.
Proof. leaf_inj. Qed.
#[global] Instance marketFundingLeaf_inj : JSONInj marketFundingLeaf.t.
Proof. leaf_inj. Qed.
#[global] Instance withdrawalLeaf_inj : JSONInj withdrawalLeaf.t.
Proof. leaf_inj. Qed.

(** ** Payloads *)

Definition read_only {T} (table : list (string * T)) : JSON T :=
  {| Marshal _ := ""; Unmarshal text := (list_to_map table : gmap string T) !! text |}.

Lemma read_only_in {T} (table : list (string * T)) text p :
  @Unmarshal T (read_only table) text = Some p → (text, p) ∈ table.
Proof. apply elem_of_list_to_map_2. Qed.

#[global] Instance deposit_json : JSON DepositCreditedPayload.t := read_only
  [("cash of 1", DepositCreditedPayload.mk "d1" 1 "" "" "usdt" 1000 "" "" "" 0 0 0);
   ("shares of 2", DepositCreditedPayload.mk "d2" 2 "" "" (PositionAsset 7 "YES") 10 "" "" "" 0 0 0)].
#[global] Instance nonce_json : JSON NonceAdvancedPayload.t := read_only
  [("nonce 1", NonceAdvancedPayload.mk 1 "key" "TRADE" "ACTIVE" 1 2 0 None);
   ("nonce 4", NonceAdvancedPayload.mk 1 " key " "TRADE" "ACTIVE" 4 5 0 None)].
#[global] Instance accepted_json : JSON OrderAcceptedPayload.t := read_only
  [("bid of 1", OrderAcceptedPayload.mk "b" "" "" 1 7 "YES" "BUY" "LIMIT" "GTC" "USDT" "" 600 60 10 0);
   ("ask of 2", OrderAcceptedPayload.mk "s" "" "" 2 7 "YES" "SELL" "LIMIT" "GTC" "USDT"
                  (PositionAsset 7 "YES") 4 50 4 0)].
#[global] Instance cancelled_json : JSON OrderCancelledPayload.t := read_only
  [("cancel of b", OrderCancelledPayload.mk "b" 1 7 "YES" "BUY" "USDT" 60 6 "USER")].
#[global] Instance trade_json : JSON TradeMatchedPayload.t := read_only
  [("ask hits bid", TradeMatchedPayload.mk "t" 1 "USDT" 7 "YES" 60 4 "s" "b" 2 1 "SELL" "BUY" 0)].
#[global] Instance withdrawal_json : JSON WithdrawalRequestedPayload.t := read_only
  [("cash of 2", WithdrawalRequestedPayload.mk "w" 2 "" "0xab" "" "USDT" 100 "SLOW" "" "" "" 0 0 0)].
#[global] Instance key_json : JSON TradingKeyAuthorizationWitness.t := read_only [].
#[global] Instance resolved_json : JSON MarketResolvedPayload.t := read_only
  [("yes wins", MarketResolvedPayload.mk 7 "YES" "ORACLE" "ref" "" 0 None)].
#[global] Instance payout_json : JSON SettlementPayoutPayload.t := read_only
  [("payout of 1", SettlementPayoutPayload.mk "p" 7 1 "YES" "" 4 "USDT" 400 0)].

Definition entry (sequence : Z) (kind text : string) : Entry.t :=
  Entry.mk sequence "" kind "" "" 0 text.

(** A funded account buys from one that holds shares; the rest of its bid is
    cancelled, the market resolves and the shares are paid out. *)
Definition sample_journal : list Entry.t :=
  [entry 1 EntryTypeDepositCredited "cash of 1"; entry 2 EntryTypeDepositCredited "shares of 2";
   entry 3 EntryTypeNonceAdvanced "nonce 1"; entry 4 EntryTypeOrderAccepted "bid of 1";
   entry 5 EntryTypeOrderAccepted "ask of 2"; entry 6 EntryTypeTradeMatched "ask hits bid";
   entry 7 EntryTypeNonceAdvanced "nonce 4"; entry 8 EntryTypeOrderCancelled "cancel of b";
   entry 9 EntryTypeWithdrawalRequested "cash of 2"; entry 10 EntryTypeMarketResolved "yes wins";
   entry 11 EntryTypeSettlementPayout "payout of 1"].

(** A batch input is the escaped list of its payload texts; only the batches of the
    sample journal are read back. *)
Definition input_text (i : BatchInput.t) : string :=
  seal (BatchInput.EncodingVersion i :: (Entry.Payload <$> BatchInput.Entries i)).
Definition sample_inputs : list BatchInput.t :=
  ((λ n, BatchInput.mk BatchEncodingVersion (take n sample_journal)) <$> seq 0 12) ++
  ((λ n, BatchInput.mk BatchEncodingVersion (drop n sample_journal)) <$> seq 0 12).
#[global] Instance input_json : JSON BatchInput.t :=
  {| Marshal := input_text;
     Unmarshal text := (list_to_map ((λ i, (input_text i, i)) <$> sample_inputs)
                          : gmap string BatchInput.t) !! text |}.
