(* ===== verification/RollupProps.v ===== *)
(** * Rollup: what the replay guarantees

    Locked balances are backed by the reserves of open orders, assets are neither made
    nor lost except by deposits, withdrawals and settlements, and an order nonce is
    accepted once.  Amounts are [int64] and added without overflow checks: the balance
    statements are congruences modulo [2^64], equalities whenever the exact sums fit. *)

From S2P Require Import Prelude Strings Shared Auth RollupJournal RollupState RollupReplay RollupRoots.

Local Open Scope Z_scope.
Local Open Scope go_scope.

(** ** Arithmetic modulo [2^64] *)

Definition cong (a b : Z) : Prop := ∃ k, a = b + k * 2 ^ 64.

#[global] Instance cong_equivalence : Equivalence cong.
Proof.
  split.
  - intros a. exists 0. lia.
  - intros a b [k ->]. exists (- k). lia.
  - intros a b c [k ->] [k' ->]. exists (k + k'). lia.
Qed.

#[global] Instance cong_add_proper : Proper (cong ==> cong ==> cong) Z.add.
Proof. intros a a' [k ->] b b' [k' ->]. exists (k + k'). lia. Qed.
#[global] Instance cong_opp_proper : Proper (cong ==> cong) Z.opp.
Proof. intros a a' [k ->]. exists (- k). lia. Qed.
#[global] Instance cong_sub_proper : Proper (cong ==> cong ==> cong) Z.sub.
Proof. intros a a' [k ->] b b' [k' ->]. exists (k - k'). lia. Qed.

Lemma wrap64_cong z : cong (wrap64 z) z.
Proof.
  unfold wrap64. exists (- ((z + 2 ^ 63) / 2 ^ 64)).
  pose proof (Z.div_mod (z + 2 ^ 63) (2 ^ 64) ltac:(lia)). lia.
Qed.

(** Congruent [int64] values are equal. *)
Lemma cong_int64 a b : int64 a → int64 b → cong a b → a = b.
Proof. unfold int64, MinInt64, MaxInt64. intros ? ? [k ->]. assert (k = 0) by lia. lia. Qed.

(** ** Balances *)

Definition free_at (s : shadowState) (u : Z) (a : string) : Z :=
  default 0 (balanceLeaf.FreeBalance <$> balances s !! balanceKey u a).
Definition locked_at (s : shadowState) (u : Z) (a : string) : Z :=
  default 0 (balanceLeaf.LockedBalance <$> balances s !! balanceKey u a).

Lemma balanceKey_eq u a u' a' : balanceKey u a = balanceKey u' a' ↔ u = u' ∧ normalizeAsset a = normalizeAsset a'.
Proof.
  split; [apply itoa_key_inj|]. intros [-> E]. unfold balanceKey. by rewrite E.
Qed.

(** Only positive accounts have balances. *)
Definition moved (u : Z) (a : string) (d : Z) (u' : Z) (a' : string) : Z :=
  if 0 <? u then on_balance u a d u' a' else 0.

Lemma adjustBalance_frame s u a f l seq :
  openOrders (adjustBalance s u a f l seq) = openOrders s ∧
  nonces (adjustBalance s u a f l seq) = nonces s.
Proof. unfold adjustBalance. by repeat case_match. Qed.

Lemma adjustBalance_exact s u a f l seq u' a' :
  0 < u →
  free_at (adjustBalance s u a f l seq) u' a' =
    (if decide (balanceKey u a = balanceKey u' a') then free_at s u a ⊞ f else free_at s u' a') ∧
  locked_at (adjustBalance s u a f l seq) u' a' =
    (if decide (balanceKey u a = balanceKey u' a') then locked_at s u a ⊞ l else locked_at s u' a').
Proof.
  intros Hu. unfold adjustBalance. destruct (Z.leb_spec u 0); [lia|].
  assert (balanceLeaf.FreeBalance (default balanceLeaf.zero (balances s !! balanceKey u a)) = free_at s u a ∧
    balanceLeaf.LockedBalance (default balanceLeaf.zero (balances s !! balanceKey u a)) = locked_at s u a)
    as [-> ->] by (unfold free_at, locked_at; by destruct (balances s !! _)).
  set (F := free_at s u a ⊞ f). set (L := locked_at s u a ⊞ l).
  destruct ((F =? 0) && (L =? 0)) eqn:Ez; unfold free_at, locked_at; cbn [balances set_balances];
    case_decide as E.
  - apply andb_true_iff in Ez as [-> %Z.eqb_eq ->%Z.eqb_eq]. by rewrite <-E, lookup_delete_eq.
  - by rewrite lookup_delete_ne.
  - by rewrite <-E, lookup_insert_eq.
  - by rewrite lookup_insert_ne.
Qed.

Lemma moved_key u a d u' a' :
  0 < u → moved u a d u' a' = if decide (balanceKey u a = balanceKey u' a') then d else 0.
Proof.
  intros Hu. unfold moved, on_balance. destruct (Z.ltb_spec 0 u); [|lia].
  case_decide as E; case_bool_decide as H'; try done; rewrite balanceKey_eq in E; tauto.
Qed.

Lemma balance_at_key s u a u' a' :
  balanceKey u a = balanceKey u' a' → free_at s u a = free_at s u' a' ∧ locked_at s u a = locked_at s u' a'.
Proof. unfold free_at, locked_at. by intros ->. Qed.

Lemma adjustBalance_at s u a f l seq u' a' :
  cong (free_at (adjustBalance s u a f l seq) u' a') (free_at s u' a' + moved u a f u' a') ∧
  cong (locked_at (adjustBalance s u a f l seq) u' a') (locked_at s u' a' + moved u a l u' a').
Proof.
  destruct (Z.ltb_spec 0 u) as [Hu|Hu].
  - destruct (adjustBalance_exact s u a f l seq u' a' Hu) as [-> ->]. rewrite !moved_key by done.
    case_decide as E; [|by rewrite !Z.add_0_r].
    destruct (balance_at_key s _ _ _ _ E) as [-> ->]. by rewrite !wrap64_cong.
  - unfold moved, adjustBalance. destruct (Z.leb_spec u 0); [|lia]. destruct (Z.ltb_spec 0 u); [lia|].
    by rewrite !Z.add_0_r.
Qed.

(** ** Totals *)

Definition leaf_value (a : string) (leaf : balanceLeaf.t) : Z :=
  if String.eqb (balanceLeaf.AssetID leaf) (normalizeAsset a)
  then balanceLeaf.FreeBalance leaf + balanceLeaf.LockedBalance leaf else 0.

(** All of one asset that the state holds, over every account. *)
Definition total (s : shadowState) (a : string) : Z := msum (leaf_value a) (balances s).

Definition keyed (s : shadowState) : Prop :=
  map_Forall (λ k leaf, k = balanceKey (balanceLeaf.AccountID leaf) (balanceLeaf.AssetID leaf) ∧
    normalizeAsset (balanceLeaf.AssetID leaf) = balanceLeaf.AssetID leaf) (balances s).

Definition of_asset (u : Z) (a : string) (d : Z) (a' : string) : Z :=
  if (0 <? u) && String.eqb (normalizeAsset a) (normalizeAsset a') then d else 0.

Lemma shadow_asset_idem a : normalizeAsset (normalizeAsset a) = normalizeAsset a.
Proof. apply normalize_upper_idem. Qed.

Lemma adjustBalance_keyed s u a f l seq : keyed s → keyed (adjustBalance s u a f l seq).
Proof.
  intros Hk. unfold adjustBalance. destruct (u <=? 0); [done|]. destruct (_ && _); unfold keyed;
    cbn [balances set_balances].
  - by apply map_Forall_delete.
  - apply map_Forall_insert_2; [|done]. cbn [balanceLeaf.AccountID balanceLeaf.AssetID].
    rewrite shadow_asset_idem. split; [|done]. apply balanceKey_eq. by rewrite shadow_asset_idem.
Qed.

Lemma adjustBalance_total s u a f l seq a' :
  keyed s → cong (total (adjustBalance s u a f l seq) a') (total s a' + of_asset u a (f + l) a').
Proof.
  intros Hk. unfold adjustBalance, of_asset. rewrite Z.ltb_antisym.
  destruct (u <=? 0); cbn [negb andb]; [by rewrite Z.add_0_r|].
  set (key := balanceKey u a). set (old := default balanceLeaf.zero (balances s !! key)).
  set (F := balanceLeaf.FreeBalance old ⊞ f). set (L := balanceLeaf.LockedBalance old ⊞ l).
  set (same := String.eqb (normalizeAsset a) (normalizeAsset a')).
  set (rest := msum (leaf_value a') (delete key (balances s))).
  assert (total s a' = (if same then balanceLeaf.FreeBalance old + balanceLeaf.LockedBalance old else 0)
    + rest) as ->.
  { unfold total, old, rest. destruct (balances s !! key) as [v|] eqn:Ev; simpl.
    - rewrite (msum_delete _ _ _ _ Ev). destruct (Hk _ _ Ev) as [[_ Ea]%balanceKey_eq Hn].
      assert (leaf_value a' v = if same then balanceLeaf.FreeBalance v + balanceLeaf.LockedBalance v else 0)
        as -> by (unfold leaf_value, same; by rewrite <-Hn, <-Ea).
      destruct same; lia.
    - rewrite delete_id by done. destruct same; lia. }
  transitivity ((if same then F + L else 0) + rest).
  - unfold rest. destruct ((F =? 0) && (L =? 0)) eqn:Ez; unfold total; cbn [balances set_balances].
    + apply andb_true_iff in Ez as [->%Z.eqb_eq ->%Z.eqb_eq]. by destruct same.
    + rewrite <-insert_delete_eq, msum_insert by apply lookup_delete_eq. unfold leaf_value at 1.
      cbn [balanceLeaf.AssetID balanceLeaf.FreeBalance balanceLeaf.LockedBalance]. done.
  - unfold F, L. destruct same; [|by rewrite !Z.add_0_l, Z.add_0_r]. rewrite !wrap64_cong.
    by replace (balanceLeaf.FreeBalance old + f + (balanceLeaf.LockedBalance old + l) + rest) with
      (balanceLeaf.FreeBalance old + balanceLeaf.LockedBalance old + rest + (f + l)) by lia.
Qed.

(** Positions are not balances. *)
Lemma adjustPosition_frame s u m o d seq :
  balances (adjustPosition s u m o d seq) = balances s ∧
  openOrders (adjustPosition s u m o d seq) = openOrders s ∧ nonces (adjustPosition s u m o d seq) = nonces s.
Proof. unfold adjustPosition. by repeat case_match. Qed.

Lemma settlePosition_frame s seq u m o q :
  balances (settlePosition s seq u m o q).1 = balances s ∧
  openOrders (settlePosition s seq u m o q).1 = openOrders s ∧
  nonces (settlePosition s seq u m o q).1 = nonces s.
Proof. unfold settlePosition. by repeat case_match. Qed.

(** What depends on the balances only. *)
Lemma balances_ext s s' :
  balances s' = balances s →
  (keyed s → keyed s') ∧ (∀ a, total s' a = total s a) ∧
  ∀ u a, free_at s' u a = free_at s u a ∧ locked_at s' u a = locked_at s u a.
Proof. intros E. unfold keyed, total, free_at, locked_at. by rewrite E. Qed.

(** ** Reserves *)

Definition reserve_for (u : Z) (a : string) (o : orderLeaf.t) : Z :=
  moved (orderLeaf.AccountID o) (orderLeaf.ReserveAsset o) (orderLeaf.ReservedCollateral o) u a.
Definition reserved (s : shadowState) (u : Z) (a : string) : Z := msum (reserve_for u a) (openOrders s).

(** The locked part of every balance is the sum of the reserves of the account's open
    orders in that asset. *)
Record shadow_ok (s : shadowState) : Prop := {
  sh_keyed : keyed s;
  sh_locked : ∀ u a, cong (locked_at s u a) (reserved s u a);
  sh_orders : map_Forall (λ _ o, 0 ≤ orderLeaf.ReservedCollateral o) (openOrders s);
}.

Lemma emptyShadow_ok : shadow_ok emptyShadow.
Proof.
  split; [done| |done]. intros u a. unfold reserved, emptyShadow. cbn [openOrders]. by rewrite msum_empty.
Qed.

Lemma moved_add u a d d' u' a' : moved u a (d + d') u' a' = moved u a d u' a' + moved u a d' u' a'.
Proof. unfold moved, on_balance. destruct (0 <? u); [|lia]. case_bool_decide; lia. Qed.
Lemma moved_opp u a d u' a' : moved u a (- d) u' a' = - moved u a d u' a'.
Proof. unfold moved, on_balance. destruct (0 <? u); [|lia]. case_bool_decide; lia. Qed.
Lemma moved_cong u a d d' u' a' : cong d d' → cong (moved u a d u' a') (moved u a d' u' a').
Proof. intros Hd. unfold moved, on_balance. destruct (0 <? u); [|done]. by case_bool_decide. Qed.
Lemma moved_0 u a u' a' : moved u a 0 u' a' = 0.
Proof. unfold moved. rewrite on_balance_0. by destruct (0 <? u). Qed.
Lemma of_asset_opp u a d a' : of_asset u a (- d) a' = - of_asset u a d a'.
Proof. unfold of_asset. destruct (_ && _); lia. Qed.
Lemma of_asset_0 u a a' : of_asset u a 0 a' = 0.
Proof. unfold of_asset. by destruct (_ && _). Qed.

Lemma multiply_ok l r v : multiply l r = Ok v → 0 ≤ v ∧ v = l * r.
Proof.
  unfold multiply. destruct (Z.ltb_spec l 0), (Z.ltb_spec r 0); try done. cbn [orb].
  destruct (Z.eqb_spec l 0), (Z.eqb_spec r 0); cbn [orb]; try (intros [= <-]; nia).
  destruct (Z.ltb_spec (MaxInt64 `quot` r) l) as [|Hle]; [done|]. intros [= <-].
  rewrite Z.quot_div_nonneg in Hle by (unfold MaxInt64; lia).
  pose proof (Z.mul_div_le MaxInt64 r ltac:(lia)).
  rewrite wrap64_id by (unfold int64, MinInt64, MaxInt64 in *; nia). nia.
Qed.

Lemma expectedReserveAmount_nonneg side price q : 0 ≤ expectedReserveAmount side price q.
Proof.
  unfold expectedReserveAmount. destruct (Z.leb_spec q 0); [lia|]. destruct (String.eqb _ _); [lia|].
  destruct (multiply price q) as [v|] eqn:E; [|lia]. by apply multiply_ok in E as [? _].
Qed.

Lemma adjustBalance_ok_parts s u a f l seq :
  keyed s →
  let s' := adjustBalance s u a f l seq in
  keyed s' ∧ openOrders s' = openOrders s ∧ nonces s' = nonces s ∧
  (∀ u' a', cong (locked_at s' u' a') (locked_at s u' a' + moved u a l u' a')) ∧
  (∀ a', cong (total s' a') (total s a' + of_asset u a (f + l) a')).
Proof.
  intros Hk. destruct (adjustBalance_frame s u a f l seq) as [E1 E2]. split_and!; try done.
  - by apply adjustBalance_keyed.
  - intros u' a'. apply adjustBalance_at.
  - intros a'. by apply adjustBalance_total.
Qed.

(** Spending from a reserve and releasing what is not needed any more. *)
Lemma consume_reserve_ok s seq o q spent msg s' r :
  keyed s → consume_reserve s seq o q spent msg = (s', Ok r) →
  r = expectedReserveAmount (orderLeaf.Side o) (orderLeaf.Price o) (orderLeaf.RemainingQuantity o ⊟ q) ∧
  keyed s' ∧ openOrders s' = openOrders s ∧ nonces s' = nonces s ∧
  (∀ u a, cong (locked_at s' u a)
     (locked_at s u a + moved (orderLeaf.AccountID o) (orderLeaf.ReserveAsset o)
        (r - orderLeaf.ReservedCollateral o) u a)) ∧
  (∀ a, cong (total s' a)
     (total s a - of_asset (orderLeaf.AccountID o) (orderLeaf.ReserveAsset o) spent a)).
Proof.
  intros Hk. unfold consume_reserve. set (acct := orderLeaf.AccountID o).
  set (asset := orderLeaf.ReserveAsset o). set (R := orderLeaf.ReservedCollateral o).
  set (E := expectedReserveAmount _ _ _). set (rel := (R ⊟ spent) ⊟ E).
  destruct (adjustBalance_ok_parts s acct asset 0 (- spent) seq Hk) as (K1 & O1 & N1 & L1 & T1).
  set (s1 := adjustBalance s acct asset 0 (- spent) seq) in *.
  assert (cong rel (R - spent - E)) as Hrel by (unfold rel; by rewrite !wrap64_cong).
  assert (∀ a, cong (total s1 a) (total s a - of_asset acct asset spent a)) as T1'.
  { intros a. rewrite T1, Z.add_0_l, of_asset_opp. done. }
  destruct (Z.ltb_spec rel 0); [done|]. destruct (Z.ltb_spec 0 rel); intros [= <- <-].
  - destruct (adjustBalance_ok_parts s1 acct asset rel (- rel) seq K1) as (K2 & O2 & N2 & L2 & T2).
    split_and!; [done|done|by rewrite O2|by rewrite N2| |].
    + intros u a. rewrite L2, L1, <-Z.add_assoc, <-moved_add. apply cong_add_proper; [done|].
      apply moved_cong. rewrite Hrel. replace (- spent + - (R - spent - E)) with (E - R) by lia. done.
    + intros a. rewrite T2, T1'. replace (rel + - rel) with 0 by lia. by rewrite of_asset_0, Z.add_0_r.
  - assert (rel = 0) as Hz by lia. rewrite Hz in Hrel. split_and!; [done|done|done|done| |done].
    intros u a. rewrite L1. apply cong_add_proper; [done|]. apply moved_cong.
    transitivity (- spent + - 0); [by rewrite Z.add_0_r|]. rewrite Hrel.
    by replace (- spent + - (R - spent - E)) with (E - R) by lia.
Qed.

(** Replacing or removing one open order whose reserve changed with the locked balance. *)
Lemma shadow_ok_order s s1 s' id o r (upd : option orderLeaf.t) :
  shadow_ok s → openOrders s !! id = Some o → keyed s1 →
  (∀ u a, cong (locked_at s1 u a)
     (locked_at s u a + moved (orderLeaf.AccountID o) (orderLeaf.ReserveAsset o)
        (r - orderLeaf.ReservedCollateral o) u a)) →
  match upd with
  | Some o' => orderLeaf.AccountID o' = orderLeaf.AccountID o ∧
               orderLeaf.ReserveAsset o' = orderLeaf.ReserveAsset o ∧
               orderLeaf.ReservedCollateral o' = r ∧ 0 ≤ r
  | None => r = 0
  end →
  balances s' = balances s1 →
  openOrders s' = match upd with Some o' => <[id := o']> (openOrders s) | None => delete id (openOrders s) end →
  shadow_ok s'.
Proof.
  intros [_ HL HO] Ho Hk1 HL1 Hupd Eb Eo. destruct (balances_ext s1 s' Eb) as (Kx & _ & Lx).
  split; [by apply Kx| |].
  - intros u a. rewrite (proj2 (Lx u a)), HL1, (HL u a). unfold reserved. rewrite Eo.
    replace (moved (orderLeaf.AccountID o) (orderLeaf.ReserveAsset o) (r - orderLeaf.ReservedCollateral o) u a)
      with (moved (orderLeaf.AccountID o) (orderLeaf.ReserveAsset o) r u a - reserve_for u a o)
      by (unfold reserve_for; rewrite <-Z.add_opp_r, <-moved_opp, <-moved_add; f_equal; lia).
    destruct upd as [o'|].
    + rewrite (msum_update _ _ _ _ _ Ho). destruct Hupd as (E1 & E2 & E3 & _).
      assert (reserve_for u a o' = moved (orderLeaf.AccountID o) (orderLeaf.ReserveAsset o) r u a) as ->
        by (unfold reserve_for; by rewrite E1, E2, E3).
      apply reflexive_eq. lia.
    + rewrite (msum_delete _ _ _ _ Ho). rewrite Hupd, moved_0. apply reflexive_eq. lia.
  - rewrite Eo. destruct upd as [o'|].
    + apply map_Forall_insert_2; [|done]. destruct Hupd as (_ & _ & -> & ?). done.
    + by apply map_Forall_delete.
Qed.

(** The effect of a successful fill. *)
Record filled (s s' : shadowState) (id : string) (o : orderLeaf.t) (spent : Z) : Prop := {
  fl_ok : shadow_ok s';
  fl_total : ∀ a, cong (total s' a)
    (total s a - of_asset (orderLeaf.AccountID o) (orderLeaf.ReserveAsset o) spent a);
  fl_others : ∀ id', id' ≠ id → openOrders s' !! id' = openOrders s !! id';
  fl_nonces : nonces s' = nonces s;
}.

Lemma fillOrder_ok s seq id q price s' :
  shadow_ok s → fillOrder s seq id q price = (s', None) →
  ∃ o, openOrders s !! id = Some o ∧
    ((orderLeaf.Side o = "BUY" ∧ filled s s' id o (price * q)) ∨
     (orderLeaf.Side o = "SELL" ∧ filled s s' id o q)).
Proof.
  intros Hs. unfold fillOrder. destruct (openOrders s !! id) as [o|] eqn:Ho; [|done].
  do 2 pass_guard. intros H. exists o. split; [done|].
  assert (∀ spent msg s1 r, consume_reserve s seq o q spent msg = (s1, Ok r) →
    (let o' := filled_order o q r seq in
     if orderLeaf.RemainingQuantity o' =? 0 then (set_openOrders s1 (delete id (openOrders s1)), None)
     else (set_openOrders s1 (<[id := o']> (openOrders s1)), None)) = (s', None : option string) →
    filled s s' id o spent) as Hdone.
  { intros spent msg s1 r Hc. cbv zeta.
    destruct (consume_reserve_ok _ _ _ _ _ _ _ _ (sh_keyed _ Hs) Hc) as (Er & K1 & O1 & N1 & L1 & T1).
    cbn [filled_order orderLeaf.RemainingQuantity].
    destruct (Z.eqb_spec (orderLeaf.RemainingQuantity o ⊟ q) 0) as [E0|E0]; intros [= <-]; rewrite O1.
    - assert (r = 0) as -> by (rewrite Er, E0; done).
      split; [eapply (shadow_ok_order s s1 _ id o 0 None); done|done| |done].
      intros id' Hne. cbn [openOrders set_openOrders]. by rewrite lookup_delete_ne.
    - split; [|done| |done].
      + eapply (shadow_ok_order s s1 _ id o r (Some (filled_order o q r seq))); try done.
        split_and!; try done. rewrite Er. apply expectedReserveAmount_nonneg.
      + intros id' Hne. cbn [openOrders set_openOrders]. by rewrite lookup_insert_ne. }
  destruct (String.eqb_spec (orderLeaf.Side o) "BUY") as [Eb|_].
  - left. split; [done|]. destruct (multiply price q) as [n|] eqn:Em; [|done].
    apply multiply_ok in Em as [_ En]. rewrite En in *.
    destruct (consume_reserve _ _ _ _ _ _) as [s1 [r|e]] eqn:Hc; [|done]. by apply (Hdone _ _ _ _ Hc).
  - destruct (String.eqb_spec (orderLeaf.Side o) "SELL") as [Es|_]; [|done].
    right. split; [done|].
    destruct (consume_reserve _ _ _ _ _ _) as [s1 [r|e]] eqn:Hc; [|done]. by apply (Hdone _ _ _ _ Hc).
Qed.

(** ** One entry *)

Lemma shadow_ok_ext s s' :
  balances s' = balances s → openOrders s' = openOrders s → shadow_ok s → shadow_ok s'.
Proof.
  intros Eb Eo [K L O]. destruct (balances_ext s s' Eb) as (Kx & _ & Lx). split; [by apply Kx| |by rewrite Eo].
  intros u a. rewrite (proj2 (Lx u a)). unfold reserved. rewrite Eo. apply L.
Qed.

(** Free balances are not backed by orders. *)
Lemma shadow_ok_free s u a f seq :
  shadow_ok s → shadow_ok (adjustBalance s u a f 0 seq) ∧
  ∀ a', cong (total (adjustBalance s u a f 0 seq) a') (total s a' + of_asset u a f a').
Proof.
  intros [K L O]. destruct (adjustBalance_ok_parts s u a f 0 seq K) as (K1 & O1 & _ & L1 & T1).
  split; [split; [done| |by rewrite O1]|].
  - intros u' a'. rewrite L1, moved_0, Z.add_0_r. unfold reserved. rewrite O1. apply L.
  - intros a'. rewrite T1. by rewrite Z.add_0_r.
Qed.

(** A trade between the open orders it names: a buy and a sell of the accounts of the
    payload, reserved in the collateral and in the position asset. *)
Definition trade_fits (s : shadowState) (p : TradeMatchedPayload.t) : Prop :=
  let '(buyer, seller) := buyerSellerAccounts p in
  ∃ bid sid bo so,
    ((bid, sid) = (TradeMatchedPayload.TakerOrderID p, TradeMatchedPayload.MakerOrderID p) ∨
     (sid, bid) = (TradeMatchedPayload.TakerOrderID p, TradeMatchedPayload.MakerOrderID p)) ∧
    openOrders s !! bid = Some bo ∧ openOrders s !! sid = Some so ∧
    orderLeaf.Side bo = "BUY" ∧ orderLeaf.Side so = "SELL" ∧
    0 < buyer ∧ 0 < seller ∧ orderLeaf.AccountID bo = buyer ∧ orderLeaf.AccountID so = seller ∧
    normalizeAsset (orderLeaf.ReserveAsset bo) = normalizeAsset (TradeMatchedPayload.CollateralAsset p) ∧
    normalizeAsset (orderLeaf.ReserveAsset so) =
      normalizeAsset (PositionAsset (TradeMatchedPayload.MarketID p) (TradeMatchedPayload.Outcome p)).

(** What the services that write the journal see to. *)
Definition payload_ok (s : shadowState) (p : EntryPayload) : Prop :=
  match p with
  | POrderAccepted p =>
      openOrders s !! OrderAcceptedPayload.OrderID p = None ∧ 0 ≤ OrderAcceptedPayload.ReserveAmount p
  | POrderCancelled p =>
      is_Some (openOrders s !! OrderCancelledPayload.OrderID p) ∨
      orderLeaf.ReservedCollateral (cancelled_order p) = 0
  | PTradeMatched p => trade_fits s p
  | _ => True
  end.

(** What an entry brings in or takes out of an asset. *)
Definition external (p : EntryPayload) (a : string) : Z :=
  match p with
  | PDepositCredited p =>
      of_asset (DepositCreditedPayload.AccountID p) (DepositCreditedPayload.Asset p)
        (DepositCreditedPayload.Amount p) a
  | PWithdrawalRequested p =>
      - of_asset (WithdrawalRequestedPayload.AccountID p) (WithdrawalRequestedPayload.Asset p)
          (WithdrawalRequestedPayload.Amount p) a
  | PSettlementPayout p =>
      of_asset (SettlementPayoutPayload.AccountID p) (payout_asset p)
        (SettlementPayoutPayload.PayoutAmount p) a -
      of_asset (SettlementPayoutPayload.AccountID p) (payout_position_asset p)
        (SettlementPayoutPayload.SettledQuantity p) a
  | _ => 0
  end.

Definition step_keeps (s s' : shadowState) (p : EntryPayload) : Prop :=
  shadow_ok s' ∧ ∀ a, cong (total s' a) (total s a + external p a).

Lemma accepted_keeps s seq p s' e :
  shadow_ok s → payload_ok s (POrderAccepted p) → applyOrderAccepted s seq p = (s', e) →
  step_keeps s s' (POrderAccepted p).
Proof.
  intros [K L O] [Hnew Hpos] [= <- <-].
  set (u := OrderAcceptedPayload.AccountID p). set (asset := reserveAsset p).
  set (n := OrderAcceptedPayload.ReserveAmount p) in *.
  destruct (adjustBalance_ok_parts s u asset (- n) n seq K) as (K1 & O1 & _ & L1 & T1).
  split.
  - split; cbn [openOrders set_openOrders]; [done| |].
    + intros u' a'. rewrite (L1 u' a'), (L u' a'). unfold reserved. cbn [openOrders set_openOrders].
      rewrite O1, msum_insert by done. unfold reserve_for at 2.
      cbn [orderLeaf.AccountID orderLeaf.ReserveAsset orderLeaf.ReservedCollateral].
      apply reflexive_eq. unfold u, asset, n. lia.
    + rewrite O1. by apply map_Forall_insert_2.
  - intros a. cbn [external]. rewrite Z.add_0_r. etransitivity; [apply T1|].
    replace (- n + n) with 0 by lia. by rewrite of_asset_0, Z.add_0_r.
Qed.

Lemma cancelled_keeps s seq p s' e :
  shadow_ok s → payload_ok s (POrderCancelled p) → applyOrderCancelled s seq p = (s', e) →
  step_keeps s s' (POrderCancelled p).
Proof.
  intros Hs Hp. unfold applyOrderCancelled.
  destruct (openOrders s !! OrderCancelledPayload.OrderID p) as [o|] eqn:Ho; cbv zeta; cbn [default from_option id].
  - set (R := orderLeaf.ReservedCollateral o). pose proof (sh_orders _ Hs _ _ Ho) as HR. cbv beta in HR. fold R in HR.
    set (u := orderLeaf.AccountID o). set (a := orderLeaf.ReserveAsset o).
    destruct (adjustBalance_ok_parts s u a R (- R) seq (sh_keyed _ Hs)) as (K1 & O1 & _ & L1 & T1).
    fold u a. destruct (Z.ltb_spec 0 R) as [Hlt|Hge]; intros [= <- <-].
    + split.
      * apply (shadow_ok_order s (adjustBalance s u a R (- R) seq) _ (OrderCancelledPayload.OrderID p) o 0 None);
          try done. cbn [openOrders set_openOrders]. by rewrite O1.
      * intros a'. cbn [external]. rewrite Z.add_0_r. etransitivity; [apply T1|].
        replace (R + - R) with 0 by lia. by rewrite of_asset_0, Z.add_0_r.
    + split.
      * apply (shadow_ok_order s s _ (OrderCancelledPayload.OrderID p) o 0 None); try done; [apply Hs|].
        intros u' a'. fold R. replace (0 - R) with 0 by lia. by rewrite moved_0, Z.add_0_r.
      * intros a'. cbn [external]. by rewrite Z.add_0_r.
  - cbn [payload_ok] in Hp. rewrite Ho in Hp. destruct Hp as [[? [=]]|E0]. rewrite E0. cbn [Z.ltb Z.compare].
    intros [= <- <-]. split.
    + apply (shadow_ok_ext s); [done| |done]. cbn [openOrders set_openOrders]. by rewrite delete_id.
    + intros a'. cbn [external]. by rewrite Z.add_0_r.
Qed.

(** Both fills of a trade, whichever side takes. *)
Lemma trade_fills s seq p s1 s2 :
  shadow_ok s → trade_fits s p →
  fillOrder s seq (TradeMatchedPayload.TakerOrderID p) (TradeMatchedPayload.Quantity p)
    (TradeMatchedPayload.Price p) = (s1, None) →
  fillOrder s1 seq (TradeMatchedPayload.MakerOrderID p) (TradeMatchedPayload.Quantity p)
    (TradeMatchedPayload.Price p) = (s2, None) →
  let n := TradeMatchedPayload.Price p * TradeMatchedPayload.Quantity p in
  let '(buyer, seller) := buyerSellerAccounts p in
  0 < buyer ∧ 0 < seller ∧ shadow_ok s2 ∧ nonces s2 = nonces s ∧
  ∀ a, cong (total s2 a)
    (total s a - of_asset buyer (TradeMatchedPayload.CollateralAsset p) n a -
     of_asset seller (PositionAsset (TradeMatchedPayload.MarketID p) (TradeMatchedPayload.Outcome p))
       (TradeMatchedPayload.Quantity p) a).
Proof.
  intros Hs Hfit F1 F2. cbv zeta. unfold trade_fits in Hfit.
  destruct (buyerSellerAccounts p) as [buyer seller].
  destruct Hfit as (bid & sid & bo & so & Hids & Hb & Hso & Sb & Ss & Hpb & Hps & Ab & As & Rb & Rs).
  assert (bid ≠ sid) as Hne by congruence.
  destruct (fillOrder_ok _ _ _ _ _ _ Hs F1) as (o1 & L1 & C1).
  assert (shadow_ok s1) as Hs1 by (destruct C1 as [[_ []]|[_ []]]; done).
  destruct (fillOrder_ok _ _ _ _ _ _ Hs1 F2) as (o2 & L2 & C2).
  assert (∀ u x y d a, normalizeAsset x = normalizeAsset y → of_asset u x d a = of_asset u y d a) as Hof.
  { intros u x y d a E. unfold of_asset. by rewrite E. }
  destruct Hids as [[= -> ->]|[= -> ->]]; simplify_eq.
  - assert (o2 = so) as -> by (destruct C1 as [[_ [_ _ Hoth _]]|[E _]];
      [rewrite Hoth in L2 by done|]; congruence).
    destruct C1 as [[_ [_ T1 _ N1]]|[E _]]; [|congruence].
    destruct C2 as [[E _]|[_ [Ok2 T2 _ N2]]]; [congruence|].
    split_and!; try done; [by rewrite N2|]. intros a. rewrite T2, T1.
    by rewrite (Hof _ _ _ _ _ Rb), (Hof _ _ _ _ _ Rs).
  - assert (o2 = bo) as -> by (destruct C1 as [[E _]|[_ [_ _ Hoth _]]];
      [|rewrite Hoth in L2 by done]; congruence).
    destruct C1 as [[E _]|[_ [_ T1 _ N1]]]; [congruence|].
    destruct C2 as [[_ [Ok2 T2 _ N2]]|[E _]]; [|congruence].
    split_and!; try done; [by rewrite N2|]. intros a. rewrite T2, T1.
    rewrite (Hof _ _ _ _ _ Rb), (Hof _ _ _ _ _ Rs). apply reflexive_eq. lia.
Qed.

Lemma trade_keeps s seq p s' :
  shadow_ok s → payload_ok s (PTradeMatched p) → applyTradeMatched s seq p = (s', None) →
  step_keeps s s' (PTradeMatched p) ∧ nonces s' = nonces s.
Proof.
  intros Hs Hfit. unfold applyTradeMatched.
  destruct (multiply _ _) as [n|] eqn:Em; [|done]. apply multiply_ok in Em as [_ En].
  destruct (fillOrder s _ _ _ _) as [s1 [e|]] eqn:F1; [done|].
  destruct (fillOrder s1 _ _ _ _) as [s2 [e|]] eqn:F2; [done|].
  pose proof (trade_fills s seq p s1 s2 Hs Hfit F1 F2) as Ht. cbv zeta in Ht.
  destruct (buyerSellerAccounts p) as [buyer seller]. destruct Ht as (Hb & Hse & Hs2 & HN & HT).
  rewrite (proj2 (Z.ltb_lt 0 buyer)), (proj2 (Z.ltb_lt 0 seller)) by done.
  set (q := TradeMatchedPayload.Quantity p) in *. set (m := TradeMatchedPayload.MarketID p) in *.
  set (o := TradeMatchedPayload.Outcome p) in *. set (c := TradeMatchedPayload.CollateralAsset p) in *.
  destruct (shadow_ok_free s2 buyer (PositionAsset m o) q seq Hs2) as [Hs3 T3].
  set (s3 := adjustBalance s2 buyer _ q 0 seq) in *.
  destruct (adjustPosition_frame s3 buyer m o q seq) as (B4 & O4 & N4).
  set (s4 := adjustPosition s3 buyer m o q seq) in *.
  assert (shadow_ok s4) as Hs4 by by apply (shadow_ok_ext s3).
  destruct (shadow_ok_free s4 seller c n seq Hs4) as [Hs5 T5].
  set (s5 := adjustBalance s4 seller c n 0 seq) in *.
  destruct (adjustPosition_frame s5 seller m o (- q) seq) as (B6 & O6 & N6).
  intros [= <-]. split; [split; [by apply (shadow_ok_ext s5)|]|].
  - intros a. cbn [external].
    rewrite (proj1 (proj2 (balances_ext _ _ B6)) a), (T5 a), (proj1 (proj2 (balances_ext _ _ B4)) a), (T3 a),
      (HT a). rewrite <-En. unfold of_asset. rewrite (proj2 (Z.ltb_lt 0 buyer)), (proj2 (Z.ltb_lt 0 seller)) by done.
    apply reflexive_eq. lia.
  - rewrite N6. unfold s5. rewrite (proj2 (adjustBalance_frame _ _ _ _ _ _)), N4. unfold s3.
    by rewrite (proj2 (adjustBalance_frame _ _ _ _ _ _)).
Qed.

Lemma settlement_keeps s seq p s' :
  shadow_ok s → applySettlementPayout s seq p = (s', None) →
  step_keeps s s' (PSettlementPayout p) ∧ nonces s' = nonces s.
Proof.
  intros Hs. unfold applySettlementPayout.
  set (u := SettlementPayoutPayload.AccountID p). set (q := SettlementPayoutPayload.SettledQuantity p).
  set (n := SettlementPayoutPayload.PayoutAmount p).
  do 3 pass_guard. destruct (Z.ltb_spec n 0) as [|Hn]; [done|]. pass_guard.
  destruct (shadow_ok_free s u (payout_position_asset p) (- q) seq Hs) as [Hs1 T1].
  set (s1 := adjustBalance s u _ (- q) 0 seq) in *.
  pose proof (settlePosition_frame s1 seq u (SettlementPayoutPayload.MarketID p)
    (SettlementPayoutPayload.WinningOutcome p) q) as Hf.
  destruct (settlePosition s1 _ _ _ _ _) as [s2 [e|]]; [done|]. simpl in Hf. destruct Hf as (B2 & O2 & N2).
  assert (shadow_ok s2) as Hs2 by by apply (shadow_ok_ext s1).
  assert (nonces s2 = nonces s) as HN2.
  { rewrite N2. unfold s1. by rewrite (proj2 (adjustBalance_frame _ _ _ _ _ _)). }
  assert (∀ a, cong (total s2 a) (total s a - of_asset u (payout_position_asset p) q a)) as T2.
  { intros a. rewrite (proj1 (proj2 (balances_ext _ _ B2)) a), (T1 a), of_asset_opp. done. }
  destruct (shadow_ok_free s2 u (payout_asset p) n seq Hs2) as [Hs3 T3].
  intros [= <-]. destruct (Z.ltb_spec 0 n).
  - split; [split; [done|]|by rewrite (proj2 (adjustBalance_frame _ _ _ _ _ _))].
    intros a. cbn [external]. fold u q n. rewrite (T3 a), (T2 a). apply reflexive_eq. lia.
  - split; [split; [done|]|done]. intros a. cbn [external]. fold u q n. rewrite (T2 a).
    assert (n = 0) as -> by lia. rewrite of_asset_0. apply reflexive_eq. lia.
Qed.

Lemma payload_keeps s seq p s' :
  shadow_ok s → payload_ok s p → apply_payload s seq p = (s', None) → step_keeps s s' p.
Proof.
  intros Hs Hp. destruct p as [p|w|p|p|p|p|p|p|p]; cbn [apply_payload].
  - unfold applyNonceAdvanced. intros H.
    assert (balances s' = balances s ∧ openOrders s' = openOrders s) as [Eb Eo]
      by (revert H; repeat case_match; intros; by simplify_eq).
    split; [by apply (shadow_ok_ext s)|]. intros a. cbn [external].
    by rewrite (proj1 (proj2 (balances_ext _ _ Eb)) a), Z.add_0_r.
  - intros [= <- _]. split; [done|]. intros a. by rewrite Z.add_0_r.
  - by apply accepted_keeps.
  - by apply cancelled_keeps.
  - intros H. by apply (trade_keeps s seq p s').
  - intros [= <-]. apply shadow_ok_free. done.
  - intros [= <-]. destruct (shadow_ok_free s (WithdrawalRequestedPayload.AccountID p)
      (WithdrawalRequestedPayload.Asset p) (- WithdrawalRequestedPayload.Amount p) seq Hs) as [H1 H2].
    split; [by eapply shadow_ok_ext; [| |exact H1]|]. intros a. cbn [external].
    rewrite <-of_asset_opp. apply H2.
  - unfold applyMarketResolved. repeat case_match; intros [= <-].
    split; [by apply (shadow_ok_ext s)|]. intros a. cbn [external]. by rewrite Z.add_0_r.
  - intros H. by apply (settlement_keeps s seq p s').
Qed.

(** ** Nonces *)

(** The nonce an entry uses up, of one account and key. *)
Definition uses_nonce (p : EntryPayload) (key : string) (n : Z) : Prop :=
  match p with
  | PNonceAdvanced p =>
      nonceKey (NonceAdvancedPayload.AccountID p) (NonceAdvancedPayload.AuthKeyID p) = key ∧
      NonceAdvancedPayload.AcceptedNonce p = n
  | _ => False
  end.

(** The nonces of a payload are [uint64]. *)
Definition nonce_typed (p : EntryPayload) : Prop :=
  match p with PNonceAdvanced p => uint64 (NonceAdvancedPayload.AcceptedNonce p) | _ => True end.

(** [n] is behind the next nonce. *)
Definition past_nonce (s : shadowState) (key : string) (n : Z) : Prop :=
  ∃ leaf, nonces s !! key = Some leaf ∧ n < nonceLeaf.NextNonce leaf.

Lemma fillOrder_nonces s seq id q price : nonces (fillOrder s seq id q price).1 = nonces s.
Proof.
  unfold fillOrder, consume_reserve.
  repeat (case_match || (progress simplify_eq)); cbn [fst nonces set_openOrders];
    repeat (rewrite (proj2 (adjustBalance_frame _ _ _ _ _ _))); try done.
Qed.

Lemma trade_nonces s seq p : nonces (applyTradeMatched s seq p).1 = nonces s.
Proof.
  unfold applyTradeMatched. destruct (multiply _ _) as [n|]; [|done].
  pose proof (fillOrder_nonces s seq (TradeMatchedPayload.TakerOrderID p) (TradeMatchedPayload.Quantity p)
    (TradeMatchedPayload.Price p)) as E1. destruct (fillOrder s _ _ _ _) as [s1 [e|]]; [done|].
  pose proof (fillOrder_nonces s1 seq (TradeMatchedPayload.MakerOrderID p) (TradeMatchedPayload.Quantity p)
    (TradeMatchedPayload.Price p)) as E2. destruct (fillOrder s1 _ _ _ _) as [s2 [e|]]; cbn [fst] in *;
    [by rewrite E2|]. rewrite <-E1, <-E2. destruct (buyerSellerAccounts p) as [b l]. cbn [fst].
  repeat case_match; rewrite ?(proj2 (proj2 (adjustPosition_frame _ _ _ _ _ _))),
    ?(proj2 (adjustBalance_frame _ _ _ _ _ _)), ?(proj2 (proj2 (adjustPosition_frame _ _ _ _ _ _))),
    ?(proj2 (adjustBalance_frame _ _ _ _ _ _)); done.
Qed.

Lemma settlement_nonces s seq p : nonces (applySettlementPayout s seq p).1 = nonces s.
Proof.
  unfold applySettlementPayout. do 5 (case_match; [done|]).
  match goal with |- context [settlePosition ?s1 ?q ?u ?m ?o ?n] =>
    pose proof (proj2 (proj2 (settlePosition_frame s1 q u m o n))) as E;
    destruct (settlePosition s1 q u m o n) as [s2 [e|]] end; cbn [fst] in *;
    rewrite ?(proj2 (adjustBalance_frame _ _ _ _ _ _)) in E; [done|].
  case_match; [|done]. by rewrite (proj2 (adjustBalance_frame _ _ _ _ _ _)).
Qed.

(** Only a nonce entry touches the nonces, and it moves one of them up. *)
Lemma payload_nonces s seq p s' :
  apply_payload s seq p = (s', None) →
  ((∀ key n, ¬ uses_nonce p key n) ∧ nonces s' = nonces s) ∨
  ∃ q, p = PNonceAdvanced q ∧
    let key := nonceKey (NonceAdvancedPayload.AccountID q) (NonceAdvancedPayload.AuthKeyID q) in
    (∀ leaf, nonces s !! key = Some leaf → nonceLeaf.NextNonce leaf ≤ NonceAdvancedPayload.AcceptedNonce q) ∧
    ∃ leaf, nonces s' = <[key := leaf]> (nonces s) ∧
      nonceLeaf.NextNonce leaf = NonceAdvancedPayload.NextNonce q ∧
      NonceAdvancedPayload.NextNonce q ≠ 0 ∧
      NonceAdvancedPayload.NextNonce q = wrapu64 (NonceAdvancedPayload.AcceptedNonce q + 1).
Proof.
  destruct p as [p|w|p|p|p|p|p|p|p]; cbn [apply_payload].
  - unfold applyNonceAdvanced. set (u := NonceAdvancedPayload.AccountID p).
    set (k := NonceAdvancedPayload.AuthKeyID p).
    assert (nonceKey u (normalizeText k) = nonceKey u k) as ->
      by (unfold nonceKey, normalizeText; by rewrite TrimSpace_idem).
    do 3 pass_guard.
    destruct (Z.eqb_spec (NonceAdvancedPayload.NextNonce p) 0); [done|]. cbn [orb].
    destruct (Z.eqb_spec (NonceAdvancedPayload.NextNonce p)
      (wrapu64 (NonceAdvancedPayload.AcceptedNonce p + 1))); [cbn [negb]|done].
    destruct (nonces s !! nonceKey u k) as [leaf|] eqn:El.
    + destruct (Z.ltb_spec (NonceAdvancedPayload.AcceptedNonce p) (nonceLeaf.NextNonce leaf)); [done|].
      intros [= <-]. right. exists p. split; [done|]. cbv zeta. fold u k. rewrite El.
      split; [by intros ? [= <-]|]. by eexists.
    + intros [= <-]. right. exists p. split; [done|]. cbv zeta. fold u k. rewrite El.
      split; [done|]. by eexists.
  - intros [= <- _]. left. by split; [intros ? ? []|].
  - intros [= <-]. left. split; [by intros ? ? []|]. cbn [nonces set_openOrders]. apply adjustBalance_frame.
  - intros [= <-]. left. split; [by intros ? ? []|]. cbn [nonces set_openOrders]. case_match; [apply adjustBalance_frame|done].
  - intros H. left. split; [by intros ? ? []|]. apply (f_equal fst) in H. cbn [fst] in H. rewrite <-H. apply trade_nonces.
  - intros [= <-]. left. split; [by intros ? ? []|]. apply adjustBalance_frame.
  - intros [= <-]. left. split; [by intros ? ? []|]. cbn [nonces set_withdrawals]. apply adjustBalance_frame.
  - unfold applyMarketResolved. repeat case_match; intros [= <-]. left. by split; [intros ? ? []|].
  - intros H. left. split; [by intros ? ? []|]. apply (f_equal fst) in H. cbn [fst] in H. rewrite <-H. apply settlement_nonces.
Qed.

Lemma next_no_wrap n m : uint64 n → m ≠ 0 → m = wrapu64 (n + 1) → m = n + 1.
Proof.
  unfold uint64, wrapu64. intros Hn Hm E. destruct (decide (n = 2 ^ 64 - 1)) as [-> |]; [by rewrite E in Hm|].
  rewrite E. apply Z.mod_small. lia.
Qed.

(** A nonce that was used is past, one that is past stays so, and what is past cannot
    be used. *)
Lemma nonce_step s seq p s' :
  nonce_typed p → apply_payload s seq p = (s', None) →
  (∀ key n, uses_nonce p key n → past_nonce s' key n) ∧
  (∀ key n, past_nonce s key n → past_nonce s' key n) ∧
  (∀ key n m, past_nonce s key n → uses_nonce p key m → n < m).
Proof.
  intros Ht [[Hno E]|(q & -> & Hle & leaf & En & El & H0 & Ew)]%payload_nonces.
  - split_and!; [intros ? ? []%Hno| |intros ? ? ? _ []%Hno]. unfold past_nonce. by rewrite E.
  - cbn [nonce_typed uses_nonce] in *. apply (next_no_wrap _ _ Ht H0) in Ew. split_and!.
    + intros key n [<- <-]. exists leaf. rewrite En, lookup_insert_eq. split; [done|]. lia.
    + intros key n (leaf' & Hl & Hn). unfold past_nonce. rewrite En.
      destruct (decide (key = nonceKey (NonceAdvancedPayload.AccountID q) (NonceAdvancedPayload.AuthKeyID q)))
        as [-> |Hne].
      * rewrite lookup_insert_eq. exists leaf. split; [done|]. specialize (Hle _ Hl). lia.
      * rewrite lookup_insert_ne by done. by exists leaf'.
    + intros key n m (leaf' & Hl & Hn) [<- <-]. specialize (Hle _ Hl). lia.
Qed.

(** ** Runs of the replay

    The entry-by-entry facts of [RollupProps] along a whole journal, and what the
    roots and the cache of the store promise, with concrete runs. *)

Section runs.
Context `{!JSON NonceAdvancedPayload.t, !JSON TradingKeyAuthorizationWitness.t}.
Context `{!JSON OrderAcceptedPayload.t, !JSON OrderCancelledPayload.t, !JSON TradeMatchedPayload.t}.
Context `{!JSON DepositCreditedPayload.t, !JSON WithdrawalRequestedPayload.t}.
Context `{!JSON MarketResolvedPayload.t, !JSON SettlementPayoutPayload.t}.

(** Every entry fits the state it meets. *)
Fixpoint run_ok (s : shadowState) (es : list Entry.t) : Prop :=
  match es with
  | [] => True
  | e :: es =>
      match decode e with
      | Ok p => payload_ok s p ∧ run_ok (apply s e).1 es
      | Err _ => False
      end
  end.

(** What the entries bring in and take out. *)
Fixpoint flows (es : list Entry.t) (a : string) : Z :=
  match es with
  | [] => 0
  | e :: es => match decode e with Ok p => external p a | Err _ => 0 end + flows es a
  end.

Lemma apply_Ok s e s' :
  apply s e = (s', None) → ∃ p, decode e = Ok p ∧ apply_payload s (Entry.Sequence e) p = (s', None).
Proof. unfold apply. destruct (decode e) as [p|]; [|done]. intros H. by exists p. Qed.

Lemma apply_all_cons s e es s' :
  apply_all s (e :: es) = (s', None) → ∃ s1, apply s e = (s1, None) ∧ apply_all s1 es = (s', None).
Proof. cbn [apply_all]. destruct (apply s e) as [s1 [err|]]; [done|]. intros H. by exists s1. Qed.

Lemma run_keeps es s s' :
  shadow_ok s → run_ok s es → apply_all s es = (s', None) →
  shadow_ok s' ∧ ∀ a, cong (total s' a) (total s a + flows es a).
Proof.
  revert s. induction es as [|e es IH]; intros s Hs Hr.
  - intros [= <-]. split; [done|]. intros a. by rewrite Z.add_0_r.
  - intros (s1 & E1 & E2)%apply_all_cons. cbn [run_ok flows] in *. rewrite E1 in Hr.
    destruct (apply_Ok _ _ _ E1) as (p & Ed & Ep). rewrite Ed in *. destruct Hr as [Hp Hr].
    destruct (payload_keeps s _ p s1 Hs Hp Ep) as [Hs1 HT1].
    destruct (IH s1 Hs1 Hr E2) as [Hs' HT]. split; [done|]. intros a. rewrite (HT a), (HT1 a).
    by rewrite Z.add_assoc.
Qed.

(** [encoding/json] refuses a number that is not a [uint64]. *)
Definition nonces_typed : Prop :=
  ∀ text (p : NonceAdvancedPayload.t), Unmarshal text = Some p → uint64 (NonceAdvancedPayload.AcceptedNonce p).

Lemma decode_typed e p : nonces_typed → decode e = Ok p → nonce_typed p.
Proof.
  intros Hty. unfold decode, unmarshal_as. repeat case_match; intros; simplify_eq; try done. by eapply Hty.
Qed.

(** A past nonce stays so for the rest of the run, and is not used again. *)
Lemma run_past es s s' key n :
  nonces_typed → past_nonce s key n → apply_all s es = (s', None) →
  ∀ e p m, e ∈ es → decode e = Ok p → uses_nonce p key m → n < m.
Proof.
  intros Hty. revert s. induction es as [|e es IH]; intros s Hpast Hrun e' p m; [by intros ?%not_elem_of_nil|].
  apply apply_all_cons in Hrun as (s1 & E1 & E2). destruct (apply_Ok _ _ _ E1) as (p1 & Ed & Ep).
  destruct (nonce_step s _ p1 s1 (decode_typed _ _ Hty Ed) Ep) as (_ & Hkeep & Hbar).
  intros [-> |Hin]%elem_of_cons Hd Hu.
  - assert (p1 = p) as -> by congruence. by apply (Hbar key).
  - by apply (IH s1 (Hkeep _ _ Hpast) E2 e' p).
Qed.
End runs.


(** C19: an order nonce is accepted once.  Along a journal that replays, the nonces of one
    account and trading key are strictly increasing: no entry reuses one. *)
Theorem nonces_never_reused
    `{!JSON NonceAdvancedPayload.t, !JSON TradingKeyAuthorizationWitness.t}
    `{!JSON OrderAcceptedPayload.t, !JSON OrderCancelledPayload.t, !JSON TradeMatchedPayload.t}
    `{!JSON DepositCreditedPayload.t, !JSON WithdrawalRequestedPayload.t}
    `{!JSON MarketResolvedPayload.t, !JSON SettlementPayoutPayload.t}
    s s' es1 e1 es2 e2 es3 p1 p2 key n1 n2 :
  nonces_typed → apply_all s (es1 ++ e1 :: es2 ++ e2 :: es3) = (s', None) →
  decode e1 = Ok p1 → decode e2 = Ok p2 → uses_nonce p1 key n1 → uses_nonce p2 key n2 → n1 < n2.
Proof.
  intros Hty Hrun D1 D2 U1 U2. revert s Hrun. induction es1 as [|e es1 IH]; intros s; cbn [app].
  - intros (s1 & E1 & E2)%apply_all_cons. destruct (apply_Ok _ _ _ E1) as (p & Ed & Ep).
    assert (p = p1) as -> by congruence.
    destruct (nonce_step s _ p1 s1 (decode_typed _ _ Hty D1) Ep) as (Hpast & _).
    refine (run_past _ _ _ key n1 Hty (Hpast _ _ U1) E2 e2 p2 n2 _ D2 U2). set_solver.
  - intros (s1 & _ & E2)%apply_all_cons. by apply (IH s1).
Qed.


(** ** Concrete runs *)

Definition sample_state : shadowState := (apply_all emptyShadow sample_journal).1.


Lemma nonces_never_reused_witness : 1 < 4.
Proof.
  apply (nonces_never_reused emptyShadow sample_state (take 2 sample_journal)
    (entry 3 EntryTypeNonceAdvanced "nonce 1") (take 3 (drop 3 sample_journal))
    (entry 7 EntryTypeNonceAdvanced "nonce 4") (drop 7 sample_journal)
    (PNonceAdvanced (NonceAdvancedPayload.mk 1 "key" "TRADE" "ACTIVE" 1 2 0 None))
    (PNonceAdvanced (NonceAdvancedPayload.mk 1 " key " "TRADE" "ACTIVE" 4 5 0 None)) "1:key"); [|vm_compute; reflexivity..|by split; [vm_compute|]|by split; [vm_compute|]].
  intros text p Hp%read_only_in. set_unfold in Hp.
  by destruct Hp as [[= _ ->]|[[= _ ->]|[]]].
Defined.

Definition identity_hash (s : string) : string := s.


(** A store with one batch, its state cached, and the rest of the journal pending. *)
Definition one_batch_store : Store :=
  (MaterializeNextBatch identity_hash (λ _, Ok 0) (mkStore sample_journal [] 1 None "") 5).1.

Lemma materialize_cache_transparent_witness :
  let s := (apply_all emptyShadow (take 5 sample_journal)).1 in
  let run st := MaterializeNextBatch identity_hash (λ _, Ok 0) st 20 in
  (∃ s', store_ok identity_hash (run one_batch_store).1 s' ∧
     (run one_batch_store).2 = (run (drop_cache one_batch_store)).2) ∨
  cache_collision identity_hash one_batch_store s.
Proof.
  cbv zeta. refine (materialize_cache_transparent identity_hash _ _ _ _ _). split.
  - by vm_compute.
  - by vm_compute.
  - intros c Hc. assert (cachedState one_batch_store = Some (apply_all emptyShadow (take 5 sample_journal)).1) as E
      by by vm_compute.
    rewrite E in Hc. injection Hc as <-. by vm_compute.
Defined.
