(* ===== verification/Merkle.v ===== *)
(** * Rollup: withdrawal and escape trees

    [rollup/withdrawal_tree.go], [escape_collateral.go] and [accepted.go]: the claims of
    an accepted batch are hashed into a Merkle tree, every leaf with the proof that is
    later checked against the root.  [Keccak256] hashes the concatenation of its
    arguments and [HexToAddress] is the 20 bytes of an address: both belong to
    go-ethereum and are parameters.  The two files build and check their trees with
    the same code, which is [build_tree] and [verify_proof] here. *)

From stdpp Require Import sorting.
From S2P Require Import Prelude Strings Shared Auth RollupJournal RollupState RollupReplay.

Local Open Scope Z_scope.
Local Open Scope go_scope.

Definition normalizeHex32 (value : string) : string :=
  let trimmed := TrimSpace (ToLower value) in
  if String.eqb trimmed "" then ""
  else if String.prefix "0x" trimmed then trimmed else "0x" +:+ trimmed.

Fixpoint zero_bytes (n : nat) : string :=
  match n with O => "" | S n => String (byte_of 0) (zero_bytes n) end.

Definition int64ToBytes (value : Z) : string := zero_bytes 24 +:+ PutUint64 value.

(** ** Records *)

Module AcceptedWithdrawalRecord.
Record t := mk {
  WithdrawalID : string;
  BatchID : Z;
  AccountID : Z;
  WalletAddress : string;
  RecipientAddress : string;
  VaultAddress : string;
  Asset : string;
  Amount : Z;
  Lane : string;
  ChainName : string;
  NetworkName : string;
  RequestSequence : Z;
  ClaimID : string;
  ClaimStatus : string;
  ClaimTxHash : string;
  ClaimSubmittedAt : Z;
  ClaimedAt : Z;
  LastError : string;
  LastErrorAt : Z;
  CreatedAt : Z;
  UpdatedAt : Z;
}.
End AcceptedWithdrawalRecord.

Module AcceptedWithdrawalRootRecord.
Record t := mk { BatchID : Z; MerkleRoot : string; LeafCount : Z; CreatedAt : Z; UpdatedAt : Z }.
End AcceptedWithdrawalRootRecord.

Module AcceptedWithdrawalLeafRecord.
Record t := mk {
  BatchID : Z;
  WithdrawalID : string;
  AccountID : Z;
  WalletAddress : string;
  RecipientAddress : string;
  Amount : Z;
  LeafIndex : Z;
  LeafHash : string;
  ProofHashes : list string;
  ClaimID : string;
  ClaimStatus : string;
  ClaimTxHash : string;
  ClaimSubmittedAt : Z;
  ClaimedAt : Z;
  LastError : string;
  LastErrorAt : Z;
  CreatedAt : Z;
  UpdatedAt : Z;
}.
End AcceptedWithdrawalLeafRecord.

Module AcceptedBalanceRecord.
Record t := mk { BatchID : Z; AccountID : Z; Asset : string; Available : Z; Frozen : Z; SequenceNo : Z }.
End AcceptedBalanceRecord.

Module acceptedEscapeLeafInput.
Record t := mk { AccountID : Z; WalletAddress : string; CollateralAsset : string; ClaimAmount : Z }.
End acceptedEscapeLeafInput.

Module AcceptedEscapeCollateralRootRecord.
Record t := mk {
  BatchID : Z;
  StateRoot : string;
  CollateralAsset : string;
  MerkleRoot : string;
  LeafCount : Z;
  TotalAmount : Z;
  AnchorStatus : string;
  AnchorTxHash : string;
  AnchorSubmittedAt : Z;
  AnchoredAt : Z;
  LastError : string;
  LastErrorAt : Z;
  CreatedAt : Z;
  UpdatedAt : Z;
}.
End AcceptedEscapeCollateralRootRecord.

Module AcceptedEscapeCollateralLeafRecord.
Record t := mk {
  BatchID : Z;
  AccountID : Z;
  WalletAddress : string;
  CollateralAsset : string;
  ClaimAmount : Z;
  LeafIndex : Z;
  LeafHash : string;
  ProofHashes : list string;
  ClaimID : string;
  ClaimStatus : string;
  ClaimTxHash : string;
  ClaimSubmittedAt : Z;
  ClaimedAt : Z;
  LastError : string;
  LastErrorAt : Z;
  CreatedAt : Z;
  UpdatedAt : Z;
}.
End AcceptedEscapeCollateralLeafRecord.

(** ** The tree *)

Section tree.
Context (Keccak256 : string → string).

(** One proof gets one more hash. *)
Definition append_proof (proofs : list (list string)) (i : nat) (hash : string) : list (list string) :=
  alter (λ p, p ++ [hex_text hash]) i proofs.

(** The nodes of a level, each with the index that stands for it, taken in pairs. *)
Fixpoint pair_up (proofs : list (list string)) (nodes : list (string * nat))
    : list (list string) * list (string * nat) :=
  match nodes with
  | (l, i) :: (r, j) :: rest =>
      let proofs := if (i <? length proofs)%nat
                    then append_proof proofs i r else proofs in
      let proofs := if ((j <? length proofs) && negb (j =? i))%nat
                    then append_proof proofs j l else proofs in
      let '(proofs, next) := pair_up proofs rest in
      (proofs, (Keccak256 (l +:+ r), Nat.min i j) :: next)
  | _ => (proofs, [])
  end.

(** An odd level repeats its last node. *)
Definition pad (nodes : list (string * nat)) : list (string * nat) :=
  if Nat.odd (length nodes) then nodes ++ option_list (last nodes) else nodes.

(** [for len(level) > 1]; a round leaves half the nodes, rounded up. *)
Fixpoint tree_loop (fuel : nat) (proofs : list (list string)) (nodes : list (string * nat))
    : option (string * list (list string)) :=
  match nodes with
  | [] => None
  | [(root, _)] => Some (root, proofs)
  | _ =>
      match fuel with
      | O => None
      | S fuel => let '(proofs, nodes) := pair_up proofs (pad nodes) in tree_loop fuel proofs nodes
      end
  end.

Definition build_tree (empty : string) (leaves : list string) : option (string * list (list string)) :=
  if bool_decide (leaves = []) then Some (Keccak256 empty, [])
  else tree_loop (length leaves) (replicate (length leaves) []) (zip leaves (seq 0 (length leaves))).

Definition buildWithdrawalMerkleTree : list string → option (string * list (list string)) :=
  build_tree "funny-rollup-empty-withdrawal-root".
Definition buildAcceptedEscapeMerkleTree : list string → option (string * list (list string)) :=
  build_tree "funny-rollup-empty-escape-collateral-root".

Definition DecodeEscapeProofHex (proof : list string) : option (list string) := mapM hex_bytes proof.

(** The loop of the two [Verify] functions. *)
Fixpoint climb (current : string) (index : Z) (proof : list string) : string :=
  match proof with
  | [] => current
  | sibling :: proof =>
      climb (if Z.rem index 2 =? 0 then Keccak256 (current +:+ sibling) else Keccak256 (sibling +:+ current))
        (Z.quot index 2) proof
  end.

Definition verify_proof (rootHex leafHex : string) (proof : list string) (leafIndex : Z) : bool :=
  match hex_bytes rootHex, hex_bytes leafHex, DecodeEscapeProofHex proof with
  | Some root, Some leaf, Some proof => String.eqb (climb leaf leafIndex proof) root
  | _, _, _ => false
  end.

Definition VerifyAcceptedWithdrawalProof : string → string → list string → Z → bool := verify_proof.
Definition VerifyAcceptedEscapeCollateralProof : string → string → list string → Z → bool := verify_proof.

(** ** Accepted withdrawals *)

Definition WithdrawalClaimStatusClaimable : string := "CLAIMABLE".
Definition AcceptedWithdrawalStatusClaimable : string := "CLAIMABLE".
Definition EscapeCollateralClaimStatusClaimable : string := "CLAIMABLE".
Definition EscapeCollateralAnchorStatusReady : string := "READY".

Definition acceptedWithdrawalClaimID (withdrawalID : string) : string :=
  hex_text (Keccak256 (TrimSpace withdrawalID)).

Definition acceptedWithdrawal (batchID sequence : Z) (withdrawalID : string)
    (payload : WithdrawalRequestedPayload.t) : AcceptedWithdrawalRecord.t :=
  AcceptedWithdrawalRecord.mk withdrawalID batchID (WithdrawalRequestedPayload.AccountID payload)
    (normalizeText (WithdrawalRequestedPayload.WalletAddress payload))
    (normalizeText (WithdrawalRequestedPayload.RecipientAddress payload))
    (normalizeText (WithdrawalRequestedPayload.VaultAddress payload))
    (normalizeAsset (WithdrawalRequestedPayload.Asset payload))
    (WithdrawalRequestedPayload.Amount payload)
    (normalizeText (WithdrawalRequestedPayload.Lane payload))
    (normalizeText (WithdrawalRequestedPayload.ChainName payload))
    (normalizeText (WithdrawalRequestedPayload.NetworkName payload)) sequence
    (acceptedWithdrawalClaimID withdrawalID) AcceptedWithdrawalStatusClaimable "" 0 0 "" 0 0 0.

Section extract.
Context `{!JSON WithdrawalRequestedPayload.t, !JSON BatchInput.t}.

(** The records by identifier and the identifiers in order of first appearance. *)
Fixpoint extract_loop (batchID : Z) (entries : list Entry.t)
    (byID : gmap string AcceptedWithdrawalRecord.t) (order : list string)
    : result string (gmap string AcceptedWithdrawalRecord.t * list string) :=
  match entries with
  | [] => Ok (byID, order)
  | entry :: entries =>
      if negb (String.eqb (Entry.EntryType entry) EntryTypeWithdrawalRequested)
      then extract_loop batchID entries byID order
      else
        match Unmarshal (Entry.Payload entry) with
        | None => Err "decode withdrawal payload"
        | Some payload =>
            let withdrawalID := normalizeText (WithdrawalRequestedPayload.WithdrawalID payload) in
            if String.eqb withdrawalID "" then Err "accepted withdrawal is missing withdrawal_id"
            else
              let record := acceptedWithdrawal batchID (Entry.Sequence entry) withdrawalID payload in
              extract_loop batchID entries (<[withdrawalID := record]> byID)
                (if bool_decide (is_Some (byID !! withdrawalID)) then order else order ++ [withdrawalID])
        end
  end.

Definition ExtractAcceptedWithdrawals (batch : StoredBatch.t)
    : result string (list AcceptedWithdrawalRecord.t) :=
  match DecodeBatchInput (StoredBatch.InputData batch) with
  | Err e => Err e
  | Ok input =>
      match extract_loop (StoredBatch.BatchID batch) (BatchInput.Entries input) ∅ [] with
      | Err e => Err e
      | Ok (byID, order) => Ok (omap (λ id, byID !! id) order)
      end
  end.
End extract.

(** ** The withdrawal tree *)

Definition hashWithdrawalLeaf (batchID leafIndex : Z) (withdrawalID walletAddress : string) (amount : Z)
    (recipientAddress : string) : string :=
  Keccak256 ("funny-rollup-withdrawal-leaf-v1" +:+ PutUint64 batchID +:+ PutUint64 leafIndex +:+
    Keccak256 withdrawalID +:+ NormalizeHex walletAddress +:+ int64ToBytes amount +:+
    NormalizeHex recipientAddress).

Definition buildWithdrawalClaimID (batchID leafIndex : Z) (withdrawalID walletAddress : string) : string :=
  hex_text (Keccak256 ("funny-rollup-withdrawal-claim-v1" +:+ PutUint64 batchID +:+ PutUint64 leafIndex +:+
    Keccak256 withdrawalID +:+ NormalizeHex walletAddress)).

(** The leaf hashes and the leaves without their proofs. *)
Fixpoint withdrawal_leaves (batchID index : Z) (ws : list AcceptedWithdrawalRecord.t)
    : result string (list (string * (list string → AcceptedWithdrawalLeafRecord.t))) :=
  match ws with
  | [] => Ok []
  | w :: ws =>
      match AccountingToAssetChainAmount (NormalizeAsset (AcceptedWithdrawalRecord.Asset w))
              (AcceptedWithdrawalRecord.Amount w) with
      | Err _ => Err ("convert withdrawal amount for " +:+ AcceptedWithdrawalRecord.WithdrawalID w)
      | Ok chainAmount =>
          let id := AcceptedWithdrawalRecord.WithdrawalID w in
          let recipientAddr := NormalizeHex (AcceptedWithdrawalRecord.RecipientAddress w) in
          let walletAddr := NormalizeHex (AcceptedWithdrawalRecord.WalletAddress w) in
          let leafHash := hashWithdrawalLeaf batchID index id walletAddr chainAmount recipientAddr in
          match withdrawal_leaves batchID (index + 1) ws with
          | Err e => Err e
          | Ok rest =>
              Ok ((leafHash, λ proof,
                    AcceptedWithdrawalLeafRecord.mk batchID id (AcceptedWithdrawalRecord.AccountID w)
                      walletAddr recipientAddr chainAmount index (hex_text leafHash) proof
                      (buildWithdrawalClaimID batchID index id walletAddr) WithdrawalClaimStatusClaimable
                      "" 0 0 "" 0 0 0)
                  :: rest)
          end
      end
  end.

Definition by_sequence (w1 w2 : AcceptedWithdrawalRecord.t) : Prop :=
  AcceptedWithdrawalRecord.RequestSequence w1 ≤ AcceptedWithdrawalRecord.RequestSequence w2.
#[global] Instance by_sequence_dec w1 w2 : Decision (by_sequence w1 w2).
Proof. unfold by_sequence. apply _. Defined.

(** Every leaf with its proof. *)
Definition with_proofs {A L} (leaves : list (A * (list string → L))) (proofs : list (list string)) : list L :=
  zip_with (λ l proof, l.2 proof) leaves proofs.

Definition BuildAcceptedWithdrawalMerkleTree (batchID : Z) (withdrawals : list AcceptedWithdrawalRecord.t)
    : option (result string
        (AcceptedWithdrawalRootRecord.t * list AcceptedWithdrawalLeafRecord.t)) :=
  match withdrawal_leaves batchID 0 (merge_sort by_sequence withdrawals) with
  | Err e => Some (Err e)
  | Ok leaves =>
      '(root, proofs) ← buildWithdrawalMerkleTree leaves.*1;
      Some (Ok (AcceptedWithdrawalRootRecord.mk batchID (hex_text root) (Z.of_nat (length leaves)) 0 0,
                with_proofs leaves proofs))
  end.

(** ** The escape tree *)

Context (HexToAddress : string → string).

(** [None] skips the balance. *)
Definition escape_input (walletByAccount : gmap Z string) (balance : AcceptedBalanceRecord.t)
    : result string (option acceptedEscapeLeafInput.t) :=
  if negb (String.eqb (NormalizeAsset (AcceptedBalanceRecord.Asset balance)) DefaultCollateralAsset)
  then Ok None
  else
    let accountingTotal := AcceptedBalanceRecord.Available balance ⊞ AcceptedBalanceRecord.Frozen balance in
    if accountingTotal <=? 0 then Ok None
    else
      match AccountingToAssetChainAmount DefaultCollateralAsset accountingTotal with
      | Err _ => Err ("convert accepted escape collateral amount for account " +:+
                      itoa (AcceptedBalanceRecord.AccountID balance))
      | Ok claimAmount =>
          if claimAmount <=? 0 then Ok None
          else
            let walletAddress :=
              NormalizeHex (default "" (walletByAccount !! AcceptedBalanceRecord.AccountID balance)) in
            if String.eqb walletAddress "" then Ok None
            else Ok (Some (acceptedEscapeLeafInput.mk (AcceptedBalanceRecord.AccountID balance)
                             walletAddress DefaultCollateralAsset claimAmount))
      end.

Fixpoint escape_inputs (walletByAccount : gmap Z string) (balances : list AcceptedBalanceRecord.t)
    : result string (list acceptedEscapeLeafInput.t) :=
  match balances with
  | [] => Ok []
  | balance :: balances =>
      match escape_input walletByAccount balance with
      | Err e => Err e
      | Ok input =>
          match escape_inputs walletByAccount balances with
          | Err e => Err e
          | Ok inputs => Ok (option_list input ++ inputs)
          end
      end
  end.

Definition by_account (x y : acceptedEscapeLeafInput.t) : Prop :=
  acceptedEscapeLeafInput.AccountID x < acceptedEscapeLeafInput.AccountID y ∨
  (acceptedEscapeLeafInput.AccountID x = acceptedEscapeLeafInput.AccountID y ∧
   String.le (acceptedEscapeLeafInput.WalletAddress x) (acceptedEscapeLeafInput.WalletAddress y)).
#[global] Instance by_account_dec x y : Decision (by_account x y).
Proof. unfold by_account. apply _. Defined.

Definition hashAcceptedEscapeCollateralLeaf (batchID leafIndex : Z) (input : acceptedEscapeLeafInput.t)
    : string :=
  Keccak256 ("funny-rollup-escape-collateral-v1" +:+ PutUint64 batchID +:+ PutUint64 leafIndex +:+
    HexToAddress (NormalizeHex (acceptedEscapeLeafInput.WalletAddress input)) +:+
    int64ToBytes (acceptedEscapeLeafInput.ClaimAmount input)).

Definition buildEscapeCollateralClaimID (batchID leafIndex : Z) (walletAddress : string) (amount : Z) : string :=
  hex_text (Keccak256 ("funny-rollup-escape-claim-v1" +:+ PutUint64 batchID +:+ PutUint64 leafIndex +:+
    HexToAddress (NormalizeHex walletAddress) +:+ int64ToBytes amount)).

Fixpoint escape_leaves (batchID index : Z) (inputs : list acceptedEscapeLeafInput.t)
    : list (string * (list string → AcceptedEscapeCollateralLeafRecord.t)) :=
  match inputs with
  | [] => []
  | input :: inputs =>
      let leafHash := hashAcceptedEscapeCollateralLeaf batchID index input in
      let wallet := acceptedEscapeLeafInput.WalletAddress input in
      let amount := acceptedEscapeLeafInput.ClaimAmount input in
      (leafHash, λ proof,
        AcceptedEscapeCollateralLeafRecord.mk batchID (acceptedEscapeLeafInput.AccountID input) wallet
          (acceptedEscapeLeafInput.CollateralAsset input) amount index (hex_text leafHash) proof
          (buildEscapeCollateralClaimID batchID index wallet amount) EscapeCollateralClaimStatusClaimable
          "" 0 0 "" 0 0 0)
      :: escape_leaves batchID (index + 1) inputs
  end.

Definition BuildAcceptedEscapeCollateralSnapshot (batchID : Z) (stateRoot : string)
    (balances : list AcceptedBalanceRecord.t) (walletByAccount : gmap Z string)
    : option (result string
        (AcceptedEscapeCollateralRootRecord.t * list AcceptedEscapeCollateralLeafRecord.t)) :=
  match escape_inputs walletByAccount balances with
  | Err e => Some (Err e)
  | Ok inputs =>
      let inputs := merge_sort by_account inputs in
      let leaves := escape_leaves batchID 0 inputs in
      let totalAmount := fold_left (λ acc i, acc ⊞ acceptedEscapeLeafInput.ClaimAmount i) inputs 0 in
      '(root, proofs) ← buildAcceptedEscapeMerkleTree leaves.*1;
      Some (Ok (AcceptedEscapeCollateralRootRecord.mk batchID (normalizeHex32 stateRoot)
                  DefaultCollateralAsset (hex_text root) (Z.of_nat (length leaves)) totalAmount
                  EscapeCollateralAnchorStatusReady "" 0 0 "" 0 0 0,
                with_proofs leaves proofs))
  end.
End tree.
