(* ===== verification/MerkleProps.v ===== *)
(** * Rollup: which claims can be proved

    The tree is always built.  A proof collects the siblings of its leaf only as long
    as the leaf stands for its node, which is the leftmost leaf: the first leaf's proof
    reaches the root, and so do both proofs of a tree of two. *)

From stdpp Require Import sorting.
From S2P Require Import Prelude Strings Shared RollupJournal RollupState RollupReplay Merkle.

Local Open Scope Z_scope.

Section tree.
Context (Keccak256 : string → string).

Lemma climb_snoc c i p s :
  0 ≤ i →
  climb Keccak256 c i (p ++ [s]) =
  let h := climb Keccak256 c i p in
  if (i / 2 ^ Z.of_nat (length p)) mod 2 =? 0 then Keccak256 (h +:+ s) else Keccak256 (s +:+ h).
Proof.
  revert c i. induction p as [|x p IH]; intros c i Hi; cbn [climb app length].
  - rewrite Z.div_1_r, Z.rem_mod_nonneg by lia. done.
  - rewrite IH by (apply Z.quot_pos; lia). rewrite Z.quot_div_nonneg by lia.
    rewrite Z.div_div by (try apply Z.pow_pos_nonneg; lia).
    replace (2 * 2 ^ Z.of_nat (length p)) with (2 ^ Z.of_nat (S (length p)))
      by (rewrite Nat2Z.inj_succ, Z.pow_succ_r; lia). done.
Qed.

Section leaves.
Context (leaves : list string).

(** [h] is the node above leaf [i] at height [k] and position [q], and the proof
    collected so far leads there. *)
Definition leads (proofs : list (list string)) (k q : nat) (h : string) (i : nat) : Prop :=
  i = (q * 2 ^ k)%nat ∧
  ∃ leaf p, leaves !! i = Some leaf ∧ proofs !! i = Some (hex_text <$> p) ∧ length p = k ∧
    climb Keccak256 leaf (Z.of_nat i) p = h.

Lemma leads_index proofs k q h i : leads proofs k q h i → i = (q * 2 ^ k)%nat ∧ (i < length proofs)%nat.
Proof. intros [-> (leaf & p & _ & Hp & _)]. split; [done|]. by eapply lookup_lt_Some. Qed.

Lemma leads_frame proofs proofs' k q h i :
  proofs' !! i = proofs !! i → leads proofs k q h i → leads proofs' k q h i.
Proof. intros E [Hi (leaf & p & Hl & Hp & H)]. split; [done|]. exists leaf, p. by rewrite E. Qed.

(** A left node whose right sibling is [r]. *)
Lemma leads_up proofs k m l r i :
  leads proofs k (2 * m) l i → leads (append_proof proofs i r) (S k) m (Keccak256 (l +:+ r)) i.
Proof.
  intros [Hi (leaf & p & Hl & Hp & Hk & Hc)]. split; [rewrite Hi; simpl; lia|].
  exists leaf, (p ++ [r]). split_and!; [done| |rewrite length_app; simpl; lia|].
  - unfold append_proof. rewrite list_lookup_alter_eq, Hp. simpl. by rewrite fmap_app.
  - rewrite climb_snoc by lia. cbv zeta. rewrite Hc, Hk, Hi.
    rewrite Nat2Z.inj_mul, Nat2Z.inj_pow, Nat2Z.inj_mul. change (Z.of_nat 2) with 2.
    rewrite Z.div_mul by (apply Z.pow_nonzero; lia). rewrite Z.mul_comm, Z.mod_mul by lia. done.
Qed.

Lemma pad_cons2 x y nodes : pad (x :: y :: nodes) = x :: y :: pad nodes.
Proof.
  unfold pad. replace (Nat.odd (length (x :: y :: nodes))) with (Nat.odd (length nodes)) by done.
  destruct nodes as [|z nodes]; [done|]. by destruct (Nat.odd _).
Qed.

(** One round from position [2 * m] on. *)
Lemma pair_up_leads nodes proofs k m :
  (∀ q h i, nodes !! q = Some (h, i) → leads proofs k (2 * m + q) h i) →
  let '(proofs', next) := pair_up Keccak256 proofs (pad nodes) in
  length proofs' = length proofs ∧ length next = (length nodes `div` 2 + length nodes `mod` 2)%nat ∧
  (∀ q h i, next !! q = Some (h, i) → leads proofs' (S k) (m + q) h i) ∧
  (∀ i, (i < 2 * m * 2 ^ k)%nat → proofs' !! i = proofs !! i).
Proof.
  remember (length nodes) as len eqn:Hlen. revert nodes proofs m Hlen.
  induction (lt_wf len) as [len _ IH]. intros [|[l i] [|[r j] rest]] proofs m -> Hn.
  - split_and!; done.
  - pose proof (Hn 0%nat l i eq_refl) as Hi. rewrite Nat.add_0_r in Hi.
    destruct (leads_index _ _ _ _ _ Hi) as [Ei Hlt].
    change (pad [(l, i)]) with [(l, i); (l, i)]. cbn [pair_up]. rewrite (proj2 (Nat.ltb_lt _ _) Hlt), Nat.eqb_refl, andb_false_r, Nat.min_id.
    split_and!; [by apply length_alter|done| |].
    + intros [|[|q]] h i' [= <- <-]. rewrite Nat.add_0_r. by apply leads_up.
    + intros i' Hi'. apply list_lookup_alter_ne. lia.
  - pose proof (Hn 0%nat l i eq_refl) as Hi. pose proof (Hn 1%nat r j eq_refl) as Hj. rewrite Nat.add_0_r in Hi.
    destruct (leads_index _ _ _ _ _ Hi) as [Ei Hlti]. destruct (leads_index _ _ _ _ _ Hj) as [Ej Hltj].
    assert (0 < 2 ^ k)%nat as Hpow by (apply Nat.neq_0_lt_0, Nat.pow_nonzero; lia).
    assert (i < j)%nat as Hij by nia.
    rewrite pad_cons2. cbn [pair_up]. rewrite (proj2 (Nat.ltb_lt _ _) Hlti).
    assert (length (append_proof proofs i r) = length proofs) as Hlen1 by apply length_alter.
    rewrite Hlen1, (proj2 (Nat.ltb_lt _ _) Hltj), (proj2 (Nat.eqb_neq j i)) by lia. cbn [andb negb].
    set (proofs1 := append_proof (append_proof proofs i r) j l).
    assert (∀ x, x ≠ i → x ≠ j → proofs1 !! x = proofs !! x) as Hframe.
    { intros x ? ?. unfold proofs1, append_proof. by rewrite !list_lookup_alter_ne. }
    specialize (IH (length rest) ltac:(simpl; lia) rest proofs1 (S m) eq_refl).
    destruct (pair_up Keccak256 proofs1 (pad rest)) as [proofs' next].
    destruct IH as (L1 & L2 & Hnext & Hsame).
    { intros q h x Hq. replace (2 * S m + q)%nat with (2 * m + S (S q))%nat by lia.
      specialize (Hn (S (S q)) h x Hq). apply (leads_frame proofs); [|done].
      destruct (leads_index _ _ _ _ _ Hn) as [Ex _]. apply Hframe; nia. }
    split_and!.
    + rewrite L1. unfold proofs1, append_proof. by rewrite !length_alter.
    + cbn [length]. rewrite L2. replace (S (S (length rest))) with (length rest + 1 * 2)%nat by lia.
      rewrite Nat.div_add, Nat.Div0.mod_add by lia. lia.
    + intros [|q] h x; [|cbn [lookup list_lookup]; intros Hq;
        replace (m + S q)%nat with (S m + q)%nat by lia; by apply Hnext].
      intros [= <- <-]. rewrite Nat.min_l, Nat.add_0_r by lia.
      apply (leads_frame proofs1); [apply Hsame; nia|].
      apply (leads_frame (append_proof proofs i r)); [apply list_lookup_alter_ne; lia|]. by apply leads_up.
    + intros x Hx. rewrite Hsame by nia. apply Hframe; nia.
Qed.

(** With a unit of fuel per node the loop ends, and the first proof leads to the root. *)
Lemma tree_loop_leads fuel proofs nodes k :
  nodes ≠ [] → (length nodes ≤ S fuel)%nat →
  (∀ q h i, nodes !! q = Some (h, i) → leads proofs k q h i) →
  ∃ root proofs' k', tree_loop Keccak256 fuel proofs nodes = Some (root, proofs') ∧
    length proofs' = length proofs ∧ leads proofs' k' 0 root 0.
Proof.
  revert proofs nodes k. induction fuel as [|fuel IH]; intros proofs [|[h i] [|x nodes]] k Hne Hlen Hn; try done.
  - exists h, proofs, k. specialize (Hn 0%nat h i eq_refl).
    destruct (leads_index _ _ _ _ _ Hn) as [Ei _]. simpl in Ei. by subst.
  - simpl in Hlen. lia.
  - exists h, proofs, k. specialize (Hn 0%nat h i eq_refl).
    destruct (leads_index _ _ _ _ _ Hn) as [Ei _]. simpl in Ei. by subst.
  - cbn [tree_loop]. pose proof (pair_up_leads ((h, i) :: x :: nodes) proofs k 0) as Hp.
    destruct (pair_up _ _ _) as [proofs' next]. destruct Hp as (L1 & L2 & Hnext & _); [exact Hn|].
    cbn [length] in L2, Hlen.
    pose proof (Nat.div_mod_eq (S (S (length nodes))) 2).
    pose proof (Nat.mod_upper_bound (S (S (length nodes))) 2 ltac:(lia)).
    destruct (IH proofs' next (S k)) as (root & proofs'' & k' & E & L & Hr).
    + intros ->. cbn [length] in L2. lia.
    + lia.
    + exact Hnext.
    + exists root, proofs'', k'. split_and!; [done|congruence|done].
Qed.

Lemma build_tree_leads empty :
  leaves ≠ [] →
  ∃ root proofs k, build_tree Keccak256 empty leaves = Some (root, proofs) ∧
    length proofs = length leaves ∧ leads proofs k 0 root 0.
Proof.
  intros Hne. unfold build_tree. rewrite bool_decide_false by done.
  destruct (tree_loop_leads (length leaves) (replicate (length leaves) [])
    (zip leaves (seq 0 (length leaves))) 0) as (root & proofs & k & E & L & Hl).
  - destruct leaves; [done|]. done.
  - rewrite length_zip_with, length_seq. lia.
  - intros q h i (Hh & Hi)%lookup_zip_Some. apply lookup_seq in Hi as [-> Hq]. simpl.
    split; [simpl; lia|]. exists h, []. split_and!; [done| |done|done]. by apply lookup_replicate_2.
  - exists root, proofs, k. split_and!; [done| |done]. by rewrite L, length_replicate.
Qed.
End leaves.

Lemma DecodeEscapeProofHex_text p : DecodeEscapeProofHex (hex_text <$> p) = Some p.
Proof.
  apply mapM_Some. induction p as [|s p IH]; constructor; [apply hex_bytes_text|done].
Qed.

Lemma verify_climb root leaf p i :
  verify_proof Keccak256 (hex_text root) (hex_text leaf) (hex_text <$> p) i =
  String.eqb (climb Keccak256 leaf i p) root.
Proof. unfold verify_proof. by rewrite !hex_bytes_text, DecodeEscapeProofHex_text. Qed.

Lemma build_tree_total empty leaves :
  ∃ root proofs, build_tree Keccak256 empty leaves = Some (root, proofs) ∧ length proofs = length leaves.
Proof.
  destruct leaves as [|x leaves]; [by eexists _, _|].
  destruct (build_tree_leads (x :: leaves) empty) as (root & proofs & k & E & L & _); [done|]. by eexists _, _.
Qed.

Lemma tree_verifies empty leaves root proofs q leaf p :
  build_tree Keccak256 empty leaves = Some (root, proofs) →
  leaves !! q = Some leaf → proofs !! q = Some p → (q = 0 ∨ length leaves ≤ 2)%nat →
  verify_proof Keccak256 (hex_text root) (hex_text leaf) p (Z.of_nat q) = true.
Proof.
  intros Hb Hl Hp Hq. destruct (decide (q = 0%nat)) as [-> |Hne].
  - destruct (build_tree_leads leaves empty) as (root' & proofs' & k & E & _ & _ & leaf' & p' & Hl' & Hp' & _ & Hc).
    { by intros ->. }
    simplify_eq. rewrite verify_climb. apply String.eqb_eq. done.
  - assert (length leaves ≤ 2)%nat as Hlen by (by destruct Hq). pose proof (lookup_lt_Some _ _ _ Hl).
    destruct leaves as [|a [|b [|c leaves]]]; simpl in *; try lia. assert (q = 1%nat) as -> by lia.
    revert Hb. unfold build_tree. cbn. intros [= <- <-]. injection Hl as <-. injection Hp as <-.
    change [hex_text a] with (hex_text <$> [a]). rewrite verify_climb. apply String.eqb_refl.
Qed.
End tree.

(** ** The claims of a batch *)

(** The hash of every leaf and what the leaf makes of its proof. *)
Lemma withdrawal_leaves_at K batchID ws i leaves :
  withdrawal_leaves K batchID i ws = Ok leaves →
  length leaves = length ws ∧
  ∀ q hash leaf proof, leaves !! q = Some (hash, leaf) →
    AcceptedWithdrawalLeafRecord.LeafHash (leaf proof) = hex_text hash ∧
    AcceptedWithdrawalLeafRecord.ProofHashes (leaf proof) = proof ∧
    AcceptedWithdrawalLeafRecord.LeafIndex (leaf proof) = i + Z.of_nat q.
Proof.
  revert i leaves. induction ws as [|w ws IH]; intros i leaves; cbn [withdrawal_leaves]; [by intros [= <-]|].
  destruct (AccountingToAssetChainAmount _ _) as [n|]; [|done].
  destruct (withdrawal_leaves K batchID (i + 1) ws) as [rest|] eqn:E; [|done]. intros [= <-].
  destruct (IH _ _ E) as [L H]. split; [simpl; by rewrite L|].
  intros [|q] hash leaf proof; cbn [lookup list_lookup].
  - intros [= <- <-]. split_and!; [done..|]. cbn. lia.
  - intros Hq. destruct (H q hash leaf proof Hq) as (-> & -> & ->). split_and!; [done..|lia].
Qed.

Lemma withdrawal_leaves_err K batchID ws i e :
  withdrawal_leaves K batchID i ws = Err e →
  ∃ w err, w ∈ ws ∧ AccountingToAssetChainAmount (NormalizeAsset (AcceptedWithdrawalRecord.Asset w))
    (AcceptedWithdrawalRecord.Amount w) = Err err.
Proof.
  revert i e. induction ws as [|w ws IH]; intros i e; cbn [withdrawal_leaves]; [done|].
  destruct (AccountingToAssetChainAmount _ _) as [n|err] eqn:En.
  - destruct (withdrawal_leaves K batchID (i + 1) ws) as [rest|e'] eqn:E; [done|]. intros _.
    destruct (IH _ _ E) as (w' & err & Hin & Hw). exists w', err. split; [by right|done].
  - intros _. exists w, err. split; [by left|done].
Qed.

(** Withdrawals of an accepted batch can be claimed.  The withdrawal tree is always
    built, with one leaf per withdrawal, unless an amount does not convert to chain
    units; the proof stored with the first leaf, and every proof when the batch has at
    most two withdrawals, passes [VerifyAcceptedWithdrawalProof] against the stored
    root. *)
Theorem withdrawal_claims_verify (Keccak256 : string → string) batchID ws :
  (∃ e w err, BuildAcceptedWithdrawalMerkleTree Keccak256 batchID ws = Some (Err e) ∧ w ∈ ws ∧
     AccountingToAssetChainAmount (NormalizeAsset (AcceptedWithdrawalRecord.Asset w))
       (AcceptedWithdrawalRecord.Amount w) = Err err) ∨
  ∃ root leaves, BuildAcceptedWithdrawalMerkleTree Keccak256 batchID ws = Some (Ok (root, leaves)) ∧
    length leaves = length ws ∧
    ∀ q leaf, leaves !! q = Some leaf → (q = 0 ∨ length ws ≤ 2)%nat →
      VerifyAcceptedWithdrawalProof Keccak256 (AcceptedWithdrawalRootRecord.MerkleRoot root)
        (AcceptedWithdrawalLeafRecord.LeafHash leaf) (AcceptedWithdrawalLeafRecord.ProofHashes leaf)
        (AcceptedWithdrawalLeafRecord.LeafIndex leaf) = true.
Proof.
  unfold BuildAcceptedWithdrawalMerkleTree.
  pose proof (merge_sort_Permutation by_sequence ws) as Hperm.
  destruct (withdrawal_leaves _ _ _ _) as [items|e] eqn:E.
  - right. destruct (withdrawal_leaves_at _ _ _ _ _ E) as [L Hat]. rewrite Hperm in L.
    unfold buildWithdrawalMerkleTree.
    destruct (build_tree_total Keccak256 "funny-rollup-empty-withdrawal-root" items.*1)
      as (root & proofs & Eb & Lp). rewrite Eb. cbn [mbind option_bind]. rewrite length_fmap in Lp.
    eexists _, _. split; [done|]. split.
    { unfold with_proofs. rewrite length_zip_with. lia. }
    intros q leaf Hleaf Hq. unfold with_proofs in Hleaf.
    apply lookup_zip_with_Some in Hleaf as ([hash mk] & p & -> & Hi & Hp).
    cbn [snd]. destruct (Hat q hash mk p Hi) as (-> & -> & ->). rewrite Z.add_0_l.
    cbn [AcceptedWithdrawalRootRecord.MerkleRoot]. unfold VerifyAcceptedWithdrawalProof.
    eapply (tree_verifies Keccak256 _ items.*1); [done| |done|rewrite length_fmap; lia].
    by rewrite list_lookup_fmap, Hi.
  - left. destruct (withdrawal_leaves_err _ _ _ _ _ E) as (w & err & Hin & Hw).
    exists e, w, err. split_and!; [done| |done]. by rewrite Hperm in Hin.
Qed.

(** ** Proofs that fail *)

Definition shown (s : string) : string := "(" +:+ s +:+ ")".

(** Three withdrawals: the node above the first two is taken up by the first one's
    index alone, so the second one's proof ends there, one hash short of the root. *)
Definition three_withdrawals : list AcceptedWithdrawalRecord.t :=
  (λ i, AcceptedWithdrawalRecord.mk ("w" +:+ itoa i) 1 i "0xa" "0xb" "" "USDT" 100 "" "" "" i "" "CLAIMABLE"
          "" 0 0 "" 0 0 0)
    <$> [1; 2; 3].

Definition checked (root : AcceptedWithdrawalRootRecord.t) (leaf : AcceptedWithdrawalLeafRecord.t)
    : nat * bool :=
  (length (AcceptedWithdrawalLeafRecord.ProofHashes leaf),
   VerifyAcceptedWithdrawalProof shown (AcceptedWithdrawalRootRecord.MerkleRoot root)
     (AcceptedWithdrawalLeafRecord.LeafHash leaf) (AcceptedWithdrawalLeafRecord.ProofHashes leaf)
     (AcceptedWithdrawalLeafRecord.LeafIndex leaf)).

Theorem second_of_three_is_rejected :
  match BuildAcceptedWithdrawalMerkleTree shown 1 three_withdrawals with
  | Some (Ok (root, leaves)) => checked root <$> leaves = [(2%nat, true); (1%nat, false); (2%nat, true)]
  | _ => False
  end.
Proof. vm_compute. reflexivity. Qed.
