(* ===== verification/AcceptedSnapshot.v ===== *)
(** * Rollup: accepted snapshots

    [rollup/accepted_snapshot.go]: the accepted batches are replayed once more, beside
    the payouts they settled, and the resulting balances, positions and payouts are
    exported as the rows the read models serve; [conservation.go]: what a batch credits
    and debits in every asset. *)

From stdpp Require Import sorting.
From S2P Require Import Prelude Strings Shared Auth RollupJournal RollupState.
From S2P Require Import RollupReplay RollupRoots Merkle.

Local Open Scope Z_scope.
Local Open Scope go_scope.

(** ** Records, by the fields that are set here *)

Module settledPositionAccumulator.
Record t := mk {
  MarketID : Z;
  AccountID : Z;
  Outcome : string;
  PositionAsset : string;
  SettledQuantity : Z;
  LastAppliedBatch : Z;
}.
End settledPositionAccumulator.

Module AcceptedPositionRecord.
Record t := mk {
  BatchID : Z;
  AccountID : Z;
  MarketID : Z;
  Outcome : string;
  PositionAsset : string;
  Quantity : Z;
  SettledQuantity : Z;
  SettlementStatus : string;
  SequenceNo : Z;
}.
End AcceptedPositionRecord.

Module AcceptedPayoutRecord.
Record t := mk {
  EventID : string;
  BatchID : Z;
  MarketID : Z;
  UserID : Z;
  WinningOutcome : string;
  PositionAsset : string;
  SettledQuantity : Z;
  PayoutAsset : string;
  PayoutAmount : Z;
  Status : string;
}.
End AcceptedPayoutRecord.

Module AcceptedReplaySnapshot.
Record t := mk {
  BatchID : Z;
  Roots : RootSet;
  Balances : list AcceptedBalanceRecord.t;
  Positions : list AcceptedPositionRecord.t;
  Payouts : list AcceptedPayoutRecord.t;
}.
End AcceptedReplaySnapshot.

Module ConservationAssetDelta.
Record t := mk { Asset : string; TotalDebit : Z; TotalCredit : Z; NetDelta : Z }.
End ConservationAssetDelta.

Module ConservationRecord.
Record t := mk {
  Version : string;
  BatchID : Z;
  AssetDeltas : list ConservationAssetDelta.t;
  ConservationHash : string;
  Conserved : bool;
}.
End ConservationRecord.

(** ** Exports *)

Definition exportAcceptedBalances (batchID : Z) (balances : gmap string balanceLeaf.t)
    : list AcceptedBalanceRecord.t :=
  omap (λ key, (λ leaf, AcceptedBalanceRecord.mk batchID (balanceLeaf.AccountID leaf)
                  (balanceLeaf.AssetID leaf) (balanceLeaf.FreeBalance leaf)
                  (balanceLeaf.LockedBalance leaf) (balanceLeaf.LastAppliedSequence leaf))
                <$> balances !! key)
    (sorted_keys balances).

(** The row of one key, if there is one. *)
Definition position_row (batchID : Z) (leaf : option positionLeaf.t)
    (settle : option settledPositionAccumulator.t) : option AcceptedPositionRecord.t :=
  let from_leaf :=
    match leaf with
    | Some l => (positionLeaf.AccountID l, positionLeaf.MarketID l, positionLeaf.Outcome l,
                 PositionAsset (positionLeaf.MarketID l) (positionLeaf.Outcome l),
                 positionLeaf.Quantity l, positionLeaf.LastAppliedSequence l,
                 normalizeText (positionLeaf.SettlementStatus l))
    | None => (0, 0, "", "", 0, 0, "")
    end in
  let '(accountID, marketID, outcome, positionAsset, remaining, sequenceNo, status) := from_leaf in
  let '(accountID, marketID, outcome, positionAsset, sequenceNo) :=
    match settle with
    | Some s => (settledPositionAccumulator.AccountID s, settledPositionAccumulator.MarketID s,
                 settledPositionAccumulator.Outcome s, settledPositionAccumulator.PositionAsset s,
                 if (0 <? settledPositionAccumulator.LastAppliedBatch s) && (sequenceNo =? 0)
                 then settledPositionAccumulator.LastAppliedBatch s else sequenceNo)
    | None => (accountID, marketID, outcome, positionAsset, sequenceNo)
    end in
  let positionAsset := if String.eqb positionAsset "" then PositionAsset marketID outcome else positionAsset in
  let settledQuantity := default 0 (settledPositionAccumulator.SettledQuantity <$> settle) in
  let totalQuantity := remaining ⊞ settledQuantity in
  if (totalQuantity =? 0) && (settledQuantity =? 0) then None
  else
    let status := if String.eqb status "" then (if 0 <? settledQuantity then "SETTLED" else "OPEN")
                  else status in
    Some (AcceptedPositionRecord.mk batchID accountID marketID outcome positionAsset totalQuantity
            settledQuantity status sequenceNo).

(** The keys of both maps, each once. *)
Definition exportAcceptedPositions (batchID : Z) (positions : gmap string positionLeaf.t)
    (settled : gmap string settledPositionAccumulator.t) : list AcceptedPositionRecord.t :=
  omap (λ key, position_row batchID (positions !! key) (settled !! key))
    (sorted_keys (((const () : positionLeaf.t → unit) <$> positions) ∪
       ((const () : settledPositionAccumulator.t → unit) <$> settled))).

Definition exportAcceptedPayouts (order : list string) (payouts : gmap string AcceptedPayoutRecord.t)
    : list AcceptedPayoutRecord.t := omap (λ id, payouts !! id) order.

(** ** The snapshot *)

(** What the loop carries beside the state. *)
Record Tally := mkTally {
  payoutOrder : list string;
  payoutByEventID : gmap string AcceptedPayoutRecord.t;
  settledByPosition : gmap string settledPositionAccumulator.t;
}.

Definition decodeAcceptedSettlementPayout (batchID : Z) (payload : SettlementPayoutPayload.t)
    : AcceptedPayoutRecord.t :=
  AcceptedPayoutRecord.mk (normalizeText (SettlementPayoutPayload.EventID payload)) batchID
    (SettlementPayoutPayload.MarketID payload) (SettlementPayoutPayload.AccountID payload)
    (normalizeOutcome (SettlementPayoutPayload.WinningOutcome payload)) (payout_position_asset payload)
    (SettlementPayoutPayload.SettledQuantity payload) (payout_asset payload)
    (SettlementPayoutPayload.PayoutAmount payload) "COMPLETED".

Definition tally_payout (batchID : Z) (t : Tally) (payload : SettlementPayoutPayload.t) : Tally :=
  let record := decodeAcceptedSettlementPayout batchID payload in
  let eventID := AcceptedPayoutRecord.EventID record in
  let key := positionKey (SettlementPayoutPayload.AccountID payload)
               (SettlementPayoutPayload.MarketID payload) (SettlementPayoutPayload.WinningOutcome payload) in
  let current := default 0 (settledPositionAccumulator.SettledQuantity <$> settledByPosition t !! key) in
  mkTally
    (if bool_decide (is_Some (payoutByEventID t !! eventID)) then payoutOrder t else payoutOrder t ++ [eventID])
    (<[eventID := record]> (payoutByEventID t))
    (<[key := settledPositionAccumulator.mk (SettlementPayoutPayload.MarketID payload)
                (SettlementPayoutPayload.AccountID payload)
                (normalizeOutcome (SettlementPayoutPayload.WinningOutcome payload))
                (AcceptedPayoutRecord.PositionAsset record)
                (current ⊞ SettlementPayoutPayload.SettledQuantity payload) batchID]> (settledByPosition t)).

Section snapshot.
Context (sha256 : string → string).
Context `{!JSON balanceLeaf.t, !JSON nonceLeaf.t, !JSON orderLeaf.t}.
Context `{!JSON positionLeaf.t, !JSON marketFundingLeaf.t, !JSON withdrawalLeaf.t}.
Context `{!JSON NonceAdvancedPayload.t, !JSON TradingKeyAuthorizationWitness.t}.
Context `{!JSON OrderAcceptedPayload.t, !JSON OrderCancelledPayload.t, !JSON TradeMatchedPayload.t}.
Context `{!JSON DepositCreditedPayload.t, !JSON WithdrawalRequestedPayload.t}.
Context `{!JSON MarketResolvedPayload.t, !JSON SettlementPayoutPayload.t, !JSON BatchInput.t}.

Fixpoint snapshot_entries (batchID : Z) (s : shadowState) (t : Tally) (entries : list Entry.t)
    : result string (shadowState * Tally) :=
  match entries with
  | [] => Ok (s, t)
  | entry :: entries =>
      let tallied : result string Tally :=
        if String.eqb (Entry.EntryType entry) EntryTypeSettlementPayout then
          match Unmarshal (Entry.Payload entry) with
          | None => Err "json"
          | Some payload => Ok (tally_payout batchID t payload)
          end
        else Ok t in
      match tallied with
      | Err e => Err e
      | Ok t =>
          match apply s entry with
          | (_, Some e) => Err e
          | (s, None) => snapshot_entries batchID s t entries
          end
      end
  end.

Fixpoint snapshot_batches (s : shadowState) (r : RootSet) (t : Tally) (batches : list StoredBatch.t)
    : result string (shadowState * RootSet * Tally) :=
  match batches with
  | [] => Ok (s, r, t)
  | batch :: batches =>
      if negb (String.eqb (StoredBatch.InputHash batch) "") &&
         negb (String.eqb (hashStrings sha256 ["shadow"; "batch_input"; StoredBatch.InputData batch])
                 (StoredBatch.InputHash batch))
      then Err ("rollup batch input hash mismatch for batch " +:+ itoa (StoredBatch.BatchID batch))
      else
        let trimmed := TrimSpace (StoredBatch.PrevStateRoot batch) in
        let expectedPrev := if String.eqb trimmed "" then ZeroStateRoot sha256 else trimmed in
        if negb (String.eqb (StateRoot r) expectedPrev)
        then Err ("rollup batch prev_state_root mismatch: have " +:+ StateRoot r +:+ " want " +:+ expectedPrev)
        else
          match DecodeBatchInput (StoredBatch.InputData batch) with
          | Err e => Err e
          | Ok input =>
              match snapshot_entries (StoredBatch.BatchID batch) s t (BatchInput.Entries input) with
              | Err e => Err e
              | Ok (s, t) =>
                  let r := roots sha256 s in
                  if negb (String.eqb (TrimSpace (StoredBatch.StateRoot batch)) "") &&
                     negb (String.eqb (StateRoot r) (StoredBatch.StateRoot batch))
                  then Err ("accepted replay state_root mismatch for batch " +:+
                            itoa (StoredBatch.BatchID batch) +:+ ": have " +:+ StateRoot r +:+ " want " +:+
                            StoredBatch.StateRoot batch)
                  else snapshot_batches s r t batches
              end
          end
  end.

Definition BuildAcceptedReplaySnapshot (batches : list StoredBatch.t)
    : result string AcceptedReplaySnapshot.t :=
  match snapshot_batches emptyShadow (roots sha256 emptyShadow) (mkTally [] ∅ ∅) batches with
  | Err e => Err e
  | Ok (s, r, t) =>
      let latestBatchID := default 0 (StoredBatch.BatchID <$> last batches) in
      Ok (AcceptedReplaySnapshot.mk latestBatchID r (exportAcceptedBalances latestBatchID (balances s))
            (exportAcceptedPositions latestBatchID (positions s) (settledByPosition t))
            (exportAcceptedPayouts (payoutOrder t) (payoutByEventID t)))
  end.
End snapshot.

(** ** Conservation *)

Definition ConservationVersion : string := "funny-rollup-conservation-v1".

Definition normalizeConservationAsset (asset : string) : string := normalize_upper asset.

(** [m[asset] += amount]. *)
Definition bump (m : gmap string Z) (asset : string) (amount : Z) : gmap string Z :=
  let key := normalizeConservationAsset asset in <[key := default 0 (m !! key) ⊞ amount]> m.

Section conservation.
Context (Keccak256 : string → string).
Context `{!JSON TradeMatchedPayload.t, !JSON DepositCreditedPayload.t}.
Context `{!JSON WithdrawalRequestedPayload.t, !JSON SettlementPayoutPayload.t}.

(** The credits and debits after one more entry. *)
Definition conserve_entry (entry : Entry.t) (cd : gmap string Z * gmap string Z)
    : result string (gmap string Z * gmap string Z) :=
  let '(credits, debits) := cd in
  let kind := Entry.EntryType entry in
  let at_seq := " payload seq=" +:+ itoa (Entry.Sequence entry) in
  if String.eqb kind EntryTypeDepositCredited then
    match Unmarshal (Entry.Payload entry) with
    | None => Err ("decode deposit" +:+ at_seq)
    | Some p => Ok (bump credits (DepositCreditedPayload.Asset p) (DepositCreditedPayload.Amount p), debits)
    end
  else if String.eqb kind EntryTypeWithdrawalRequested then
    match Unmarshal (Entry.Payload entry) with
    | None => Err ("decode withdrawal" +:+ at_seq)
    | Some p => Ok (credits, bump debits (WithdrawalRequestedPayload.Asset p)
                               (WithdrawalRequestedPayload.Amount p))
    end
  else if String.eqb kind EntryTypeTradeMatched then
    match Unmarshal (Entry.Payload entry) with
    | None => Err ("decode trade" +:+ at_seq)
    | Some p =>
        let cost := TradeMatchedPayload.Price p ⊠ TradeMatchedPayload.Quantity p in
        Ok (bump credits (TradeMatchedPayload.CollateralAsset p) cost,
            bump debits (TradeMatchedPayload.CollateralAsset p) cost)
    end
  else if String.eqb kind EntryTypeSettlementPayout then
    match Unmarshal (Entry.Payload entry) with
    | None => Err ("decode settlement" +:+ at_seq)
    | Some p =>
        Ok (bump credits (SettlementPayoutPayload.PayoutAsset p) (SettlementPayoutPayload.PayoutAmount p),
            bump debits (SettlementPayoutPayload.PayoutAsset p) (SettlementPayoutPayload.PayoutAmount p))
    end
  else Ok cd.

Fixpoint conserve_entries (entries : list Entry.t) (cd : gmap string Z * gmap string Z)
    : result string (gmap string Z * gmap string Z) :=
  match entries with
  | [] => Ok cd
  | entry :: entries =>
      match conserve_entry entry cd with
      | Err e => Err e
      | Ok cd => conserve_entries entries cd
      end
  end.

(** The 32-byte two's complement of an [int64]. *)
Definition net_bytes (net : Z) : string :=
  (if 0 <=? net then zero_bytes 24 else big_endian 24 (-1)) +:+ PutUint64 net.

Definition computeConservationHash (batchID : Z) (deltas : list ConservationAssetDelta.t) : string :=
  hex_text (Keccak256 (ConservationVersion +:+ PutUint64 batchID +:+ PutUint32 (Z.of_nat (length deltas)) +:+
    foldr (λ d rest, Keccak256 (ConservationAssetDelta.Asset d) +:+
                     net_bytes (ConservationAssetDelta.NetDelta d) +:+ rest) "" deltas)).

Definition asset_delta (credits debits : gmap string Z) (asset : string) : ConservationAssetDelta.t :=
  let credit := default 0 (credits !! asset) in
  let debit := default 0 (debits !! asset) in
  ConservationAssetDelta.mk asset debit credit (credit ⊟ debit).

Definition BuildConservationRecord (batchID : Z) (entries : list Entry.t)
    : result string ConservationRecord.t :=
  match conserve_entries entries (∅, ∅) with
  | Err e => Err e
  | Ok (credits, debits) =>
      let deltas := asset_delta credits debits <$> sorted_keys (credits ∪ debits) in
      let conserved := forallb (λ d, ConservationAssetDelta.NetDelta d =? 0) deltas in
      Ok (ConservationRecord.mk ConservationVersion batchID deltas
            (computeConservationHash batchID deltas) conserved)
  end.
End conservation.
