(* ===== verification/AcceptedProps.v ===== *)
(** * Rollup: accepted snapshots agree with the replay

    The snapshot an accepted batch is served from is the state the batches replay to,
    and the conservation record of a batch is the balance of its deposits and
    withdrawals. *)

From stdpp Require Import sorting.
From S2P Require Import Prelude Strings Shared Auth RollupJournal RollupState RollupProps.
From S2P Require Import RollupReplay RollupRoots Merkle AcceptedSnapshot.

Local Open Scope Z_scope.
Local Open Scope go_scope.

(** ** Exports *)

Lemma sorted_keys_omap {V W} (f : V → W) (m : gmap string V) :
  omap (λ k, f <$> m !! k) (sorted_keys m) ≡ₚ f <$> (map_to_list m).*2.
Proof.
  transitivity (f <$> (sorted_items m).*2); [|apply fmap_Permutation, fmap_Permutation, sorted_items_perm].
  unfold sorted_items. apply reflexive_eq. induction (sorted_keys m) as [|k ks IH]; [done|].
  simpl. destruct (m !! k); simpl; [f_equal|]; exact IH.
Qed.

Definition balance_row (batchID : Z) (leaf : balanceLeaf.t) : AcceptedBalanceRecord.t :=
  AcceptedBalanceRecord.mk batchID (balanceLeaf.AccountID leaf) (balanceLeaf.AssetID leaf)
    (balanceLeaf.FreeBalance leaf) (balanceLeaf.LockedBalance leaf) (balanceLeaf.LastAppliedSequence leaf).

(** Every payout is filed under its event, and listed once. *)
Record tally_ok (t : Tally) : Prop := {
  tl_order : NoDup (payoutOrder t);
  tl_dom : ∀ id, id ∈ payoutOrder t ↔ is_Some (payoutByEventID t !! id);
  tl_id : map_Forall (λ id r, AcceptedPayoutRecord.EventID r = id) (payoutByEventID t);
}.

Lemma tally_payout_ok batchID t p : tally_ok t → tally_ok (tally_payout batchID t p).
Proof.
  intros [Hn Hd Hi]. unfold tally_payout. cbv zeta.
  set (r := decodeAcceptedSettlementPayout batchID p). set (id := AcceptedPayoutRecord.EventID r).
  split; cbn [payoutOrder payoutByEventID].
  - case_bool_decide as E; [done|]. apply NoDup_app. split_and!; [done| |apply NoDup_singleton].
    intros x Hx ->%list_elem_of_singleton. apply E. by apply Hd.
  - intros x. rewrite lookup_insert_is_Some. case_bool_decide as E.
    + rewrite Hd. destruct (decide (id = x)) as [<-|]; naive_solver.
    + rewrite elem_of_app, list_elem_of_singleton, Hd. destruct (decide (id = x)) as [<-|]; naive_solver.
  - by apply map_Forall_insert_2.
Qed.

Lemma payouts_unique t : tally_ok t →
  AcceptedPayoutRecord.EventID <$> exportAcceptedPayouts (payoutOrder t) (payoutByEventID t) = payoutOrder t.
Proof.
  intros [_ Hd Hi]. unfold exportAcceptedPayouts.
  assert (∀ ids : list string, (∀ id, id ∈ ids → is_Some (payoutByEventID t !! id)) →
    AcceptedPayoutRecord.EventID <$> omap (λ id, payoutByEventID t !! id) ids = ids) as H.
  { induction ids as [|id ids IH]; intros Hs; [done|]. simpl.
    destruct (Hs id (list_elem_of_here _ _)) as [r Er]. rewrite Er. simpl.
    rewrite (Hi _ _ Er). f_equal. apply IH. intros; apply Hs; by right. }
  apply H. intros id. apply Hd.
Qed.

Lemma empty_tally_ok : tally_ok (mkTally [] ∅ ∅).
Proof.
  split; [apply NoDup_nil_2| |done]. intros id. cbn. rewrite lookup_empty.
  split; [by intros ?%not_elem_of_nil|by intros []].
Qed.

Section snapshot.
Context (sha256 : string → string).
Context `{!JSON balanceLeaf.t, !JSON nonceLeaf.t, !JSON orderLeaf.t}.
Context `{!JSON positionLeaf.t, !JSON marketFundingLeaf.t, !JSON withdrawalLeaf.t}.
Context `{!JSON NonceAdvancedPayload.t, !JSON TradingKeyAuthorizationWitness.t}.
Context `{!JSON OrderAcceptedPayload.t, !JSON OrderCancelledPayload.t, !JSON TradeMatchedPayload.t}.
Context `{!JSON DepositCreditedPayload.t, !JSON WithdrawalRequestedPayload.t}.
Context `{!JSON MarketResolvedPayload.t, !JSON SettlementPayoutPayload.t, !JSON BatchInput.t}.

Lemma snapshot_entries_apply batchID s t es s' t' :
  snapshot_entries batchID s t es = Ok (s', t') → apply_all s es = (s', None) ∧ (tally_ok t → tally_ok t').
Proof.
  revert s t. induction es as [|e es IH]; intros s t; cbn [snapshot_entries apply_all]; [by intros [= <- <-]|].
  destruct (String.eqb (Entry.EntryType e) EntryTypeSettlementPayout).
  - destruct (Unmarshal (Entry.Payload e)) as [p|]; [|done].
    destruct (apply s e) as [s1 [err|]]; [done|]. intros [H1 H2]%IH. split; [done|].
    intros Ht. by apply H2, tally_payout_ok.
  - destruct (apply s e) as [s1 [err|]]; [done|]. by apply IH.
Qed.

(** The other way round: a settlement entry that applies can be read. *)
Lemma apply_all_snapshot batchID s t es s' :
  apply_all s es = (s', None) → ∃ t', snapshot_entries batchID s t es = Ok (s', t').
Proof.
  revert s t. induction es as [|e es IH]; intros s t; cbn [snapshot_entries apply_all]; [intros [= <-]; by eexists|].
  destruct (apply s e) as [s1 [err|]] eqn:Ea; [done|]. intros H.
  destruct (String.eqb_spec (Entry.EntryType e) EntryTypeSettlementPayout) as [Ek|_]; [|by apply IH].
  destruct (Unmarshal (Entry.Payload e)) as [p|] eqn:Ep; [by apply IH|].
  exfalso. revert Ea. unfold apply, decode. rewrite Ek. cbn. unfold unmarshal_as. by rewrite Ep.
Qed.

Lemma snapshot_batches_replay s t bs s' r' t' :
  tally_ok t → snapshot_batches sha256 s (roots sha256 s) t bs = Ok (s', r', t') →
  replay_state sha256 s bs = Ok s' ∧ r' = roots sha256 s' ∧ tally_ok t'.
Proof.
  revert s t. induction bs as [|b bs IH]; intros s t Ht; cbn [snapshot_batches replay_state]; [by intros [= <- <- <-]|].
  unfold replay_batch. destruct (_ && _); [done|]. destruct (negb (String.eqb (StateRoot _) _)); [done|].
  destruct (DecodeBatchInput _) as [i|]; [|done].
  destruct (snapshot_entries _ s t _) as [[s1 t1]|] eqn:Es; [|done].
  destruct (snapshot_entries_apply _ _ _ _ _ _ Es) as [-> Ht1].
  destruct (_ && _); [done|]. intros H. by apply (IH s1 t1 (Ht1 Ht)).
Qed.

(** Every batch replays from where the one before it ended, to the root it is stored
    with (if it is stored with one). *)
Fixpoint roots_match (s : shadowState) (bs : list StoredBatch.t) : Prop :=
  match bs with
  | [] => True
  | b :: bs =>
      match replay_batch sha256 s (StateRoot (roots sha256 s)) b with
      | (_, Some _) => False
      | (s, None) =>
          (TrimSpace (StoredBatch.StateRoot b) = "" ∨ StateRoot (roots sha256 s) = StoredBatch.StateRoot b) ∧
          roots_match s bs
      end
  end.

Lemma snapshot_batches_match s t bs :
  (∃ x, snapshot_batches sha256 s (roots sha256 s) t bs = Ok x) ↔ roots_match s bs.
Proof.
  revert s t. induction bs as [|b bs IH]; intros s t; cbn [snapshot_batches roots_match].
  { split; [done|by eexists]. }
  unfold replay_batch. destruct (_ && _); [by split; [intros []|]|].
  destruct (negb (String.eqb (StateRoot _) _)); [by split; [intros []|]|].
  destruct (DecodeBatchInput _) as [i|]; [|by split; [intros []|]].
  destruct (apply_all s (BatchInput.Entries i)) as [s1 [e|]] eqn:Ea.
  - split; [|done]. intros [x Hx].
    destruct (snapshot_entries _ s t _) as [[s2 t2]|] eqn:Es; [|done].
    destruct (snapshot_entries_apply _ _ _ _ _ _ Es) as [? _]. congruence.
  - destruct (apply_all_snapshot (StoredBatch.BatchID b) s t _ _ Ea) as [t1 ->].
    rewrite <-(IH s1 t1).
    destruct (String.eqb_spec (TrimSpace (StoredBatch.StateRoot b)) "") as [E|E]; cbn [negb andb];
      [by split; [intros ?; split; [left|]|intros []]|].
    destruct (String.eqb_spec (StateRoot (roots sha256 s1)) (StoredBatch.StateRoot b)) as [E'|E']; cbn [negb].
    + split; [intros ?; split; [by right|done]|by intros []].
    + split; [by intros []|]. intros [[?|?] _]; done.
Qed.
End snapshot.

(** C21: the read models serve the replayed state.  The snapshot of the accepted batches is
    built exactly when the batches replay to the roots they are stored with; then
    replaying the batches succeeds with the same roots, the balance
    rows are exactly the balance leaves of the replayed state, and every settlement
    event is paid out in one row. *)
Theorem accepted_snapshot_agrees (sha256 : string → string)
    `{!JSON balanceLeaf.t, !JSON nonceLeaf.t, !JSON orderLeaf.t}
    `{!JSON positionLeaf.t, !JSON marketFundingLeaf.t, !JSON withdrawalLeaf.t}
    `{!JSON NonceAdvancedPayload.t, !JSON TradingKeyAuthorizationWitness.t}
    `{!JSON OrderAcceptedPayload.t, !JSON OrderCancelledPayload.t, !JSON TradeMatchedPayload.t}
    `{!JSON DepositCreditedPayload.t, !JSON WithdrawalRequestedPayload.t}
    `{!JSON MarketResolvedPayload.t, !JSON SettlementPayoutPayload.t, !JSON BatchInput.t} batches snap :
  ((∃ x, BuildAcceptedReplaySnapshot sha256 batches = Ok x) ↔ roots_match sha256 emptyShadow batches) ∧
  (BuildAcceptedReplaySnapshot sha256 batches = Ok snap →
  ∃ s, replay_state sha256 emptyShadow batches = Ok s ∧
    ReplayStoredBatches sha256 batches = Ok (AcceptedReplaySnapshot.Roots snap) ∧
    AcceptedReplaySnapshot.Roots snap = roots sha256 s ∧
    AcceptedReplaySnapshot.Balances snap ≡ₚ
      balance_row (AcceptedReplaySnapshot.BatchID snap) <$> (map_to_list (balances s)).*2 ∧
    NoDup (AcceptedPayoutRecord.EventID <$> AcceptedReplaySnapshot.Payouts snap)).
Proof.
  split.
  { rewrite <-(snapshot_batches_match sha256 emptyShadow (mkTally [] ∅ ∅)). unfold BuildAcceptedReplaySnapshot.
    destruct (snapshot_batches _ _ _ _ _) as [[[s r] t]|]; [|by split; intros []]. split; by eexists. }
  unfold BuildAcceptedReplaySnapshot. destruct (snapshot_batches _ _ _ _ _) as [[[s r] t]|] eqn:E; [|done].
  intros [= <-]. apply snapshot_batches_replay in E as (Hr & -> & Ht).
  - exists s. cbn [AcceptedReplaySnapshot.Roots AcceptedReplaySnapshot.Balances AcceptedReplaySnapshot.Payouts
      AcceptedReplaySnapshot.BatchID]. split_and!; [done| |done| |].
    + unfold ReplayStoredBatches. by rewrite replay_loop_state, Hr.
    + apply (sorted_keys_omap (balance_row _)).
    + rewrite payouts_unique by done. apply Ht.
  - apply empty_tally_ok.
Qed.

Definition sample_batches : list StoredBatch.t :=
  batch_rows (MaterializeNextBatch identity_hash (λ _, Ok 0) one_batch_store 20).1.

Definition sample_snapshot : AcceptedReplaySnapshot.t :=
  match BuildAcceptedReplaySnapshot identity_hash sample_batches with
  | Ok snap => snap
  | Err _ => AcceptedReplaySnapshot.mk 0 (mkRoots "" "" "" "" "") [] [] []
  end.

Lemma accepted_snapshot_agrees_witness :
  ∃ s, replay_state identity_hash emptyShadow sample_batches = Ok s ∧
    ReplayStoredBatches identity_hash sample_batches = Ok (AcceptedReplaySnapshot.Roots sample_snapshot) ∧
    AcceptedReplaySnapshot.Roots sample_snapshot = roots identity_hash s ∧
    AcceptedReplaySnapshot.Balances sample_snapshot ≡ₚ
      balance_row (AcceptedReplaySnapshot.BatchID sample_snapshot) <$> (map_to_list (balances s)).*2 ∧
    NoDup (AcceptedPayoutRecord.EventID <$> AcceptedReplaySnapshot.Payouts sample_snapshot).
Proof.
  apply (accepted_snapshot_agrees identity_hash sample_batches sample_snapshot).
  vm_compute. reflexivity.
Defined.

(** ** Conservation *)

Section conservation.
Context `{!JSON TradeMatchedPayload.t, !JSON DepositCreditedPayload.t}.
Context `{!JSON WithdrawalRequestedPayload.t, !JSON SettlementPayoutPayload.t}.

Definition at_asset (asset : string) (amount : Z) (a : string) : Z :=
  if String.eqb (normalizeConservationAsset asset) a then amount else 0.

(** What an entry deposits less what it withdraws. *)
Definition net_deposit (e : Entry.t) (a : string) : Z :=
  if String.eqb (Entry.EntryType e) EntryTypeDepositCredited then
    match Unmarshal (Entry.Payload e) with
    | Some p => at_asset (DepositCreditedPayload.Asset p) (DepositCreditedPayload.Amount p) a
    | None => 0
    end
  else if String.eqb (Entry.EntryType e) EntryTypeWithdrawalRequested then
    match Unmarshal (Entry.Payload e) with
    | Some p => - at_asset (WithdrawalRequestedPayload.Asset p) (WithdrawalRequestedPayload.Amount p) a
    | None => 0
    end
  else 0.

Definition net_deposits (es : list Entry.t) (a : string) : Z := foldr (λ e acc, net_deposit e a + acc) 0 es.

Definition at_key (m : gmap string Z) (a : string) : Z := default 0 (m !! a).

Lemma bump_at m asset n a : cong (at_key (bump m asset n) a) (at_key m a + at_asset asset n a).
Proof.
  unfold bump, at_key, at_asset. cbv zeta. destruct (String.eqb_spec (normalizeConservationAsset asset) a) as [<-|Hne].
  - rewrite lookup_insert_eq. apply wrap64_cong.
  - rewrite lookup_insert_ne by done. by rewrite Z.add_0_r.
Qed.

(** Trades and payouts are credited and debited alike. *)
Lemma conserve_entry_net e cd cd' a :
  conserve_entry e cd = Ok cd' →
  cong (at_key cd'.1 a - at_key cd'.2 a) (at_key cd.1 a - at_key cd.2 a + net_deposit e a).
Proof.
  destruct cd as [c d]. unfold conserve_entry, net_deposit.
  assert (∀ x n, cong (at_key (bump c x n) a - at_key (bump d x n) a) (at_key c a - at_key d a + 0)) as Hboth.
  { intros x n. rewrite !bump_at. apply reflexive_eq. lia. }
  destruct (String.eqb_spec (Entry.EntryType e) EntryTypeDepositCredited).
  { destruct (Unmarshal _) as [p|]; [|done]. intros [= <-]. cbn [fst snd]. rewrite bump_at. apply reflexive_eq. lia. }
  destruct (String.eqb_spec (Entry.EntryType e) EntryTypeWithdrawalRequested).
  { destruct (Unmarshal _) as [p|]; [|done]. intros [= <-]. cbn [fst snd]. rewrite bump_at. apply reflexive_eq. lia. }
  destruct (String.eqb_spec (Entry.EntryType e) EntryTypeTradeMatched).
  { destruct (Unmarshal _) as [p|]; [|done]. intros [= <-]. apply Hboth. }
  destruct (String.eqb_spec (Entry.EntryType e) EntryTypeSettlementPayout).
  { destruct (Unmarshal _) as [p|]; [|done]. intros [= <-]. apply Hboth. }
  intros [= <-]. cbn [fst snd]. by rewrite Z.add_0_r.
Qed.

Lemma conserve_entries_net es cd cd' a :
  conserve_entries es cd = Ok cd' →
  cong (at_key cd'.1 a - at_key cd'.2 a) (at_key cd.1 a - at_key cd.2 a + net_deposits es a).
Proof.
  revert cd. induction es as [|e es IH]; intros cd; cbn [conserve_entries net_deposits foldr].
  { intros [= <-]. by rewrite Z.add_0_r. }
  destruct (conserve_entry e cd) as [cd1|] eqn:E; [|done]. intros H.
  rewrite (IH _ H), (conserve_entry_net _ _ _ a E). apply reflexive_eq. unfold net_deposits. lia.
Qed.
End conservation.

(** A batch is conserved exactly when it brings nothing in and takes nothing out.
    Whenever the conservation record of a batch is built, the net delta of every asset
    it lists is deposits less withdrawals, trades and settlement payouts cancel out,
    and [Conserved] holds when the two are equal in every asset (modulo [2^64]). *)
Theorem conservation_balances (Keccak256 : string → string)
    `{!JSON TradeMatchedPayload.t, !JSON DepositCreditedPayload.t}
    `{!JSON WithdrawalRequestedPayload.t, !JSON SettlementPayoutPayload.t} batchID es rec :
  BuildConservationRecord Keccak256 batchID es = Ok rec →
  (∀ d, d ∈ ConservationRecord.AssetDeltas rec →
     cong (ConservationAssetDelta.NetDelta d) (net_deposits es (ConservationAssetDelta.Asset d))) ∧
  (ConservationRecord.Conserved rec = true ↔ ∀ a, cong (net_deposits es a) 0).
Proof.
  unfold BuildConservationRecord. destruct (conserve_entries es (∅, ∅)) as [[c d]|] eqn:E; [|done].
  intros [= <-]. cbn [ConservationRecord.AssetDeltas ConservationRecord.Conserved].
  assert (∀ a, cong (at_key c a - at_key d a) (net_deposits es a)) as Hnet.
  { intros a. rewrite (conserve_entries_net _ _ _ a E). cbn. unfold at_key. by rewrite lookup_empty. }
  assert (∀ a, cong (at_key c a ⊟ at_key d a) (net_deposits es a)) as Hwrap.
  { intros a. by rewrite wrap64_cong. }
  assert (∀ a, a ∈ sorted_keys (c ∪ d) ↔ is_Some ((c ∪ d) !! a)) as Hkeys.
  { intros a. unfold sorted_keys. rewrite merge_sort_Permutation. split.
    - intros [[k v] [-> Hkv%elem_of_map_to_list]]%list_elem_of_fmap. by eexists.
    - intros [v Hv]. apply list_elem_of_fmap. exists (a, v). split; [done|]. by apply elem_of_map_to_list. }
  split.
  - intros x [a [-> _]]%list_elem_of_fmap. apply (Hwrap a).
  - rewrite forallb_forall. split.
    + intros Hall a. rewrite <-Hwrap. destruct (decide (is_Some ((c ∪ d) !! a))) as [Hin|Hout].
      * specialize (Hall (asset_delta c d a)). cbv beta in Hall. rewrite Z.eqb_eq in Hall.
        change (at_key c a ⊟ at_key d a) with (ConservationAssetDelta.NetDelta (asset_delta c d a)).
        rewrite Hall; [done|]. apply in_map, list_elem_of_In, Hkeys, Hin.
      * apply eq_None_not_Some, lookup_union_None in Hout as [Ec Ed]. unfold at_key. by rewrite Ec, Ed.
    + intros Hz x Hx. apply list_elem_of_In, list_elem_of_fmap in Hx as (a & -> & _).
      apply Z.eqb_eq. apply cong_int64; [apply wrap64_range|done|]. by rewrite (Hwrap a).
Qed.

Lemma conservation_balances_witness :
  ∃ rec, BuildConservationRecord identity_hash 1 (take 2 sample_journal) = Ok rec ∧
    ConservationRecord.Conserved rec = false ∧ ¬ (∀ a, cong (net_deposits (take 2 sample_journal) a) 0).
Proof.
  destruct (BuildConservationRecord identity_hash 1 (take 2 sample_journal)) as [rec|] eqn:E; [|by vm_compute in E].
  exists rec. split; [done|]. destruct (conservation_balances identity_hash 1 (take 2 sample_journal) rec E) as [_ H].
  assert (ConservationRecord.Conserved rec = false) as Hf.
  { vm_compute in E. injection E as <-. reflexivity. }
  split; [done|]. rewrite <-H. by rewrite Hf.
Defined.
