(* ===== verification/VerifierAuth.v ===== *)
(** * Rollup: which orders the verifier can join to an authorization

    The authorization part of [rollup/verifier_contract.go]: every accepted order nonce
    of a batch is joined, by its authorization reference, to the trading key
    authorization that was journalled before it, in an earlier batch or in the same
    one.  The texts that describe the contract are left out. *)

From stdpp Require Import sorting.
From S2P Require Import Prelude Strings Shared Auth RollupJournal RollupState RollupReplay.

Local Open Scope Z_scope.

Definition VerifierAuthJoinSatisfied : string := "JOINED".
Definition VerifierAuthJoinMissing : string := "MISSING_TRADING_KEY_AUTHORIZED".
Definition VerifierAuthJoinIneligible : string := "NON_VERIFIER_ELIGIBLE".

Module VerifierTradingKeyAuthorization.
Record t := mk {
  BatchID : Z;
  Sequence : Z;
  SourceRef : string;
  Binding : VerifierAuthBinding.t;
  WalletTypedDataHash : string;
  WalletSignature : string;
}.
End VerifierTradingKeyAuthorization.

Module VerifierNonceAuthorization.
Record t := mk {
  BatchID : Z;
  Sequence : Z;
  SourceRef : string;
  AuthVersion : string;
  AuthorizationRef : string;
  JoinStatus : string;
  IneligibleReason : string;
  Binding : option VerifierAuthBinding.t;
  IntentMessageHash : string;
  IntentSignature : string;
}.
End VerifierNonceAuthorization.

Module VerifierAuthProofContract.
Record t := mk {
  ReadyForVerifier : bool;
  TradingKeyAuthorizations : list VerifierTradingKeyAuthorization.t;
  NonceAuthorizations : list VerifierNonceAuthorization.t;
}.
End VerifierAuthProofContract.

Notation AuthIndex := (gmap string VerifierTradingKeyAuthorization.t).

Definition normalizeVerifierField (value : string) : string := normalize_upper value.

Definition validateVerifierIntent (binding : VerifierAuthBinding.t) (intent : OrderIntentWitness.t) : option string :=
  if negb (String.eqb (TrimSpace (OrderIntentWitness.SessionID intent)) (VerifierAuthBinding.TradingKeyID binding))
  then Some "order intent session_id does not match verifier binding trading_key_id"
  else if negb (String.eqb (NormalizeHex (OrderIntentWitness.WalletAddress intent))
                  (VerifierAuthBinding.WalletAddress binding))
  then Some "order intent wallet_address does not match verifier binding wallet_address"
  else if negb (OrderIntentWitness.UserID intent =? VerifierAuthBinding.AccountID binding)
  then Some "order intent user_id does not match verifier binding account_id"
  else if String.eqb (TrimSpace (OrderIntentWitness.MessageHash intent)) ""
  then Some "order authorization witness intent_message_hash is required"
  else if String.eqb (TrimSpace (OrderIntentWitness.Signature intent)) ""
  then Some "order authorization witness intent_signature is required"
  else None.

(** The record and the reference that was used, if it was joined. *)
Definition buildVerifierNonceAuthorization (batchID : Z) (entry : Entry.t) (payload : NonceAdvancedPayload.t)
    (index : AuthIndex) : result string (VerifierNonceAuthorization.t * string) :=
  let record := VerifierNonceAuthorization.mk batchID (Entry.Sequence entry) (TrimSpace (Entry.SourceRef entry)) in
  match NonceAdvancedPayload.OrderAuthorization payload with
  | None => Ok (record "" "" VerifierAuthJoinIneligible "order_authorization is missing" None "" "", "")
  | Some witness =>
      let intent := OrderAuthorizationWitness.Intent witness in
      let record status reason binding :=
        record (TrimSpace (OrderAuthorizationWitness.AuthVersion witness))
          (TrimSpace (OrderAuthorizationWitness.AuthorizationRef witness)) status reason binding
          (TrimSpace (OrderIntentWitness.MessageHash intent)) (TrimSpace (OrderIntentWitness.Signature intent)) in
      if negb (OrderAuthorizationWitness.VerifierEligible witness) then
        let reason := TrimSpace (OrderAuthorizationWitness.IneligibleReason witness) in
        Ok (record VerifierAuthJoinIneligible
              (if String.eqb reason "" then "order authorization witness is not verifier-eligible" else reason)
              None, "")
      else
        match OrderVerifierBinding witness with
        | Err e => Err e
        | Ok binding =>
            if negb (String.eqb (TrimSpace (NonceAdvancedPayload.AuthKeyID payload))
                       (VerifierAuthBinding.TradingKeyID binding))
            then Err "nonce advance auth_key_id does not match verifier binding trading_key_id"
            else if negb (NonceAdvancedPayload.AccountID payload =? VerifierAuthBinding.AccountID binding)
            then Err "nonce advance account_id does not match verifier binding account_id"
            else if negb (String.eqb (normalizeVerifierField (NonceAdvancedPayload.Scope payload))
                            (VerifierAuthBinding.Scope binding))
            then Err "nonce advance scope does not match verifier binding scope"
            else if negb (String.eqb (normalizeVerifierField (NonceAdvancedPayload.KeyStatus payload))
                            (VerifierAuthBinding.KeyStatus binding))
            then Err "nonce advance key_status does not match verifier binding key_status"
            else
              match validateVerifierIntent binding intent with
              | Some e => Err e
              | None =>
                  match index !! VerifierAuthBinding.AuthorizationRef binding with
                  | None => Ok (record VerifierAuthJoinMissing
                      "missing canonical TRADING_KEY_AUTHORIZED witness for authorization_ref" (Some binding), "")
                  | Some authRecord =>
                      match ValidateVerifierBindingMatch (VerifierTradingKeyAuthorization.Binding authRecord) binding with
                      | Some e => Err e
                      | None => Ok (record VerifierAuthJoinSatisfied "" (Some binding),
                                    VerifierAuthBinding.AuthorizationRef binding)
                      end
                  end
              end
        end
  end.

Section auth_proof.
Context `{!JSON NonceAdvancedPayload.t, !JSON TradingKeyAuthorizationWitness.t, !JSON BatchInput.t}.

Definition verifierTradingKeyAuthorizationFromEntry (batchID : Z) (entry : Entry.t)
    : result string VerifierTradingKeyAuthorization.t :=
  match Unmarshal (Entry.Payload entry) with
  | None => Err "json"
  | Some witness =>
      match KeyVerifierBinding witness with
      | Err e => Err e
      | Ok binding =>
          let hash := TrimSpace (TradingKeyAuthorizationWitness.WalletTypedDataHash witness) in
          let signature := TrimSpace (TradingKeyAuthorizationWitness.WalletSignature witness) in
          if String.eqb hash "" then Err "wallet_typed_data_hash is required for verifier auth witness"
          else if String.eqb signature "" then Err "wallet_signature is required for verifier auth witness"
          else Ok (VerifierTradingKeyAuthorization.mk batchID (Entry.Sequence entry)
                     (TrimSpace (Entry.SourceRef entry)) binding hash signature)
      end
  end.

Definition index_record (record : VerifierTradingKeyAuthorization.t) (index : AuthIndex) : AuthIndex :=
  <[VerifierAuthBinding.AuthorizationRef (VerifierTradingKeyAuthorization.Binding record) := record]> index.

Fixpoint index_entries (batchID : Z) (entries : list Entry.t) (index : AuthIndex) : result string AuthIndex :=
  match entries with
  | [] => Ok index
  | entry :: entries =>
      if negb (String.eqb (Entry.EntryType entry) EntryTypeTradingKeyAuthorized)
      then index_entries batchID entries index
      else
        match verifierTradingKeyAuthorizationFromEntry batchID entry with
        | Err e => Err e
        | Ok record => index_entries batchID entries (index_record record index)
        end
  end.

Fixpoint index_history (history : list StoredBatch.t) (index : AuthIndex) : result string AuthIndex :=
  match history with
  | [] => Ok index
  | batch :: history =>
      match DecodeBatchInput (StoredBatch.InputData batch) with
      | Err e => Err e
      | Ok input =>
          match index_entries (StoredBatch.BatchID batch) (BatchInput.Entries input) index with
          | Err e => Err e
          | Ok index => index_history history index
          end
      end
  end.

Definition indexVerifierTradingKeyAuthorizations (history : list StoredBatch.t) : result string AuthIndex :=
  index_history history ∅.

(** What the loop over the entries of the batch has gathered. *)
Record Joined := mkJoined {
  index : AuthIndex;
  usedRefs : AuthIndex;
  nonceAuthorizations : list VerifierNonceAuthorization.t;
  readyForVerifier : bool;
}.

Definition join_nonce (j : Joined) (record : VerifierNonceAuthorization.t) (usedRef : string) : Joined :=
  mkJoined (index j)
    (if String.eqb usedRef "" then usedRefs j
     else match index j !! usedRef with Some r => <[usedRef := r]> (usedRefs j) | None => usedRefs j end)
    (nonceAuthorizations j ++ [record])
    (if String.eqb (VerifierNonceAuthorization.JoinStatus record) VerifierAuthJoinSatisfied
     then readyForVerifier j else false).

Fixpoint join_entries (batchID : Z) (entries : list Entry.t) (j : Joined) : result string Joined :=
  match entries with
  | [] => Ok j
  | entry :: entries =>
      if String.eqb (Entry.EntryType entry) EntryTypeTradingKeyAuthorized then
        match verifierTradingKeyAuthorizationFromEntry batchID entry with
        | Err e => Err e
        | Ok record => join_entries batchID entries
            (mkJoined (index_record record (index j)) (usedRefs j) (nonceAuthorizations j) (readyForVerifier j))
        end
      else if String.eqb (Entry.EntryType entry) EntryTypeNonceAdvanced then
        match Unmarshal (Entry.Payload entry) with
        | None => Err "json"
        | Some payload =>
            match buildVerifierNonceAuthorization batchID entry payload (index j) with
            | Err e => Err e
            | Ok (record, usedRef) => join_entries batchID entries (join_nonce j record usedRef)
            end
        end
      else join_entries batchID entries j
  end.

Definition key_order (x y : VerifierTradingKeyAuthorization.t) : Prop :=
  let bx := VerifierTradingKeyAuthorization.BatchID x in
  let by_ := VerifierTradingKeyAuthorization.BatchID y in
  let sx := VerifierTradingKeyAuthorization.Sequence x in
  let sy := VerifierTradingKeyAuthorization.Sequence y in
  bx < by_ ∨ bx = by_ ∧ (sx < sy ∨ sx = sy ∧
    String.le (VerifierTradingKeyAuthorization.SourceRef x) (VerifierTradingKeyAuthorization.SourceRef y)).
#[global] Instance key_order_dec : RelDecision key_order.
Proof. intros x y. unfold key_order. apply _. Defined.

Definition nonce_order (x y : VerifierNonceAuthorization.t) : Prop :=
  let sx := VerifierNonceAuthorization.Sequence x in
  let sy := VerifierNonceAuthorization.Sequence y in
  sx < sy ∨ sx = sy ∧
    String.le (VerifierNonceAuthorization.SourceRef x) (VerifierNonceAuthorization.SourceRef y).
#[global] Instance nonce_order_dec : RelDecision nonce_order.
Proof. intros x y. unfold nonce_order. apply _. Defined.

Definition BuildVerifierAuthProofContract (history : list StoredBatch.t) (batch : StoredBatch.t)
    : result string VerifierAuthProofContract.t :=
  match indexVerifierTradingKeyAuthorizations history with
  | Err e => Err e
  | Ok index =>
      match DecodeBatchInput (StoredBatch.InputData batch) with
      | Err e => Err e
      | Ok input =>
          match join_entries (StoredBatch.BatchID batch) (BatchInput.Entries input) (mkJoined index ∅ [] true) with
          | Err e => Err e
          | Ok j =>
              Ok (VerifierAuthProofContract.mk (readyForVerifier j)
                    (merge_sort key_order (map_to_list (usedRefs j)).*2)
                    (merge_sort nonce_order (nonceAuthorizations j)))
          end
      end
  end.
End auth_proof.
