(* ===== verification/VerifierAuthProps.v ===== *)
(** * Rollup: joined orders are authorized

    A batch that is ready for the verifier holds, for every accepted order nonce, an
    order witness bound to the trading key authorization journalled before it; and an
    order signed with an authorized key is joined. *)

From stdpp Require Import sorting.
From S2P Require Import Prelude Strings Shared Auth AuthProps RollupJournal RollupState RollupReplay.
From S2P Require Import VerifierAuth.

Local Open Scope Z_scope.

Section auth_proof.
Context `{!JSON NonceAdvancedPayload.t, !JSON TradingKeyAuthorizationWitness.t, !JSON BatchInput.t}.

(** The entries of the batches, in order. *)
Fixpoint history_entries (history : list StoredBatch.t) : list Entry.t :=
  match history with
  | [] => []
  | batch :: history =>
      match DecodeBatchInput (StoredBatch.InputData batch) with
      | Ok input => BatchInput.Entries input
      | Err _ => []
      end ++ history_entries history
  end.

(** An entry that authorizes the binding with a wallet signature. *)
Definition authorizes (e : Entry.t) (b : VerifierAuthBinding.t) : Prop :=
  Entry.EntryType e = EntryTypeTradingKeyAuthorized ∧
  ∃ w, Unmarshal (Entry.Payload e) = Some w ∧ KeyVerifierBinding w = Ok b ∧
    TrimSpace (TradingKeyAuthorizationWitness.WalletTypedDataHash w) ≠ "" ∧
    TrimSpace (TradingKeyAuthorizationWitness.WalletSignature w) ≠ "".

(** Every record of the index comes from one of the entries. *)
Definition index_from (es : list Entry.t) (ix : AuthIndex) : Prop :=
  ∀ ref record, ix !! ref = Some record →
    VerifierAuthBinding.AuthorizationRef (VerifierTradingKeyAuthorization.Binding record) = ref ∧
    ∃ e, e ∈ es ∧ authorizes e (VerifierTradingKeyAuthorization.Binding record).

Lemma index_from_mono es es' ix : es ⊆ es' → index_from es ix → index_from es' ix.
Proof. intros Hsub H ref record Hr. destruct (H _ _ Hr) as (? & e & He & ?). split; [done|]. exists e. set_solver. Qed.

Lemma from_entry_authorizes b e record :
  Entry.EntryType e = EntryTypeTradingKeyAuthorized →
  verifierTradingKeyAuthorizationFromEntry b e = Ok record →
  authorizes e (VerifierTradingKeyAuthorization.Binding record).
Proof.
  intros Ht. unfold verifierTradingKeyAuthorizationFromEntry.
  destruct (Unmarshal (Entry.Payload e)) as [w|] eqn:Eu; [|done].
  destruct (KeyVerifierBinding w) as [binding|] eqn:Eb; [|done].
  cbv zeta. repeat pass_guard. intros [= <-]. split; [done|]. exists w. split_and!; [done..| |];
    by apply String.eqb_neq.
Qed.

Lemma index_record_from es ix e record :
  index_from es ix → authorizes e (VerifierTradingKeyAuthorization.Binding record) →
  index_from (es ++ [e]) (index_record record ix).
Proof.
  intros Hix He ref r. unfold index_record. rewrite lookup_insert. case_decide as Hd.
  - intros [= <-]. split; [done|]. exists e. split; [set_solver|done].
  - intros Hr. destruct (Hix _ _ Hr) as (? & e' & ? & ?). split; [done|]. exists e'. split; [set_solver|done].
Qed.

Lemma index_entries_from b es ix ix' before :
  index_entries b es ix = Ok ix' → index_from before ix → index_from (before ++ es) ix'.
Proof.
  revert ix before. induction es as [|e es IH]; intros ix before; cbn [index_entries].
  { intros [= <-]. by rewrite app_nil_r. }
  rewrite cons_middle, app_assoc. destruct (String.eqb_spec (Entry.EntryType e) EntryTypeTradingKeyAuthorized) as [Ht|];
    cbn [negb]; intros H Hix.
  - destruct (verifierTradingKeyAuthorizationFromEntry b e) as [record|] eqn:Er; [|done].
    eapply IH; [done|]. by eapply index_record_from, from_entry_authorizes.
  - eapply IH; [done|]. eapply index_from_mono; [|done]. set_solver.
Qed.

Lemma index_history_from history ix ix' before :
  index_history history ix = Ok ix' → index_from before ix → index_from (before ++ history_entries history) ix'.
Proof.
  revert ix before. induction history as [|b history IH]; intros ix before; cbn [index_history history_entries].
  { intros [= <-]. by rewrite app_nil_r. }
  destruct (DecodeBatchInput _) as [input|]; [|done].
  destruct (index_entries _ _ _) as [ix1|] eqn:E; [|done]. intros H Hix. rewrite app_assoc.
  eapply IH; [done|]. by eapply index_entries_from.
Qed.

(** A nonce entry whose order is bound to an authorization among [es]. *)
Definition joined_to (es : list Entry.t) (e : Entry.t) : Prop :=
  ∃ payload w binding auth,
    Unmarshal (Entry.Payload e) = Some payload ∧ NonceAdvancedPayload.OrderAuthorization payload = Some w ∧
    OrderVerifierBinding w = Ok binding ∧
    TrimSpace (NonceAdvancedPayload.AuthKeyID payload) = VerifierAuthBinding.TradingKeyID binding ∧
    NonceAdvancedPayload.AccountID payload = VerifierAuthBinding.AccountID binding ∧
    validateVerifierIntent binding (OrderAuthorizationWitness.Intent w) = None ∧
    auth ∈ es ∧ authorizes auth binding.

(** Both bindings are normal, so a match is an equality. *)
Lemma key_binding_normal w b : KeyVerifierBinding w = Ok b → VerifierAuthBinding.normalize b = b.
Proof.
  unfold KeyVerifierBinding. repeat pass_guard. intros [-> _]%validate_inv. apply binding_normalize_idem.
Qed.
Lemma order_binding_normal w b : OrderVerifierBinding w = Ok b → VerifierAuthBinding.normalize b = b.
Proof.
  unfold OrderVerifierBinding. repeat pass_guard. intros [-> _]%validate_inv. apply binding_normalize_idem.
Qed.

Lemma buildVerifierNonceAuthorization_joined b e payload es ix record ref :
  index_from es ix → Unmarshal (Entry.Payload e) = Some payload →
  buildVerifierNonceAuthorization b e payload ix = Ok (record, ref) →
  VerifierNonceAuthorization.JoinStatus record = VerifierAuthJoinSatisfied → joined_to es e.
Proof.
  intros Hix Hp. unfold buildVerifierNonceAuthorization. cbv zeta.
  destruct (NonceAdvancedPayload.OrderAuthorization payload) as [w|] eqn:Ew; [|by intros [= <- _]].
  destruct (OrderAuthorizationWitness.VerifierEligible w); cbn [negb]; [|by intros [= <- _]].
  destruct (OrderVerifierBinding w) as [binding|] eqn:Eb; [|done].
  destruct (String.eqb_spec (TrimSpace (NonceAdvancedPayload.AuthKeyID payload)) (VerifierAuthBinding.TradingKeyID binding));
    cbn [negb]; [|done].
  destruct (Z.eqb_spec (NonceAdvancedPayload.AccountID payload) (VerifierAuthBinding.AccountID binding));
    cbn [negb]; [|done].
  do 2 (destruct (String.eqb _ _); cbn [negb]; [|done]).
  destruct (validateVerifierIntent binding _) eqn:Ei; [done|].
  destruct (ix !! _) as [auth|] eqn:Ea; [|by intros [= <- _]].
  destruct (ValidateVerifierBindingMatch _ binding) eqn:Em; [done|]. intros _ _.
  destruct (Hix _ _ Ea) as (_ & ae & Hin & Hauth). apply match_spec in Em as [Em _].
  rewrite (order_binding_normal _ _ Eb) in Em. pose proof Hauth as (_ & kw & _ & Hkb & _).
  rewrite (key_binding_normal _ _ Hkb) in Em. rewrite Em in Hauth.
  exists payload, w, binding, ae. done.
Qed.

Lemma join_entries_joined b es before j j' :
  join_entries b es j = Ok j' → index_from before (index j) → readyForVerifier j' = true →
  readyForVerifier j = true ∧
  ∀ i e, es !! i = Some e → Entry.EntryType e = EntryTypeNonceAdvanced → joined_to (before ++ take i es) e.
Proof.
  revert before j. induction es as [|e es IH]; intros before j; cbn [join_entries]; [by intros [= <-]|].
  assert (∀ j1 e', join_entries b es j1 = Ok j' → index_from (before ++ [e]) (index j1) → readyForVerifier j' = true →
    (readyForVerifier j1 = true → readyForVerifier j = true ∧
       (e' = e → Entry.EntryType e = EntryTypeNonceAdvanced → joined_to before e)) → e' = e →
    readyForVerifier j = true ∧
    ∀ i x, (e :: es) !! i = Some x → Entry.EntryType x = EntryTypeNonceAdvanced → joined_to (before ++ take i (e :: es)) x)
    as Hstep.
  { intros j1 e' H Hix Hr Hhere He'. destruct (IH _ _ H Hix Hr) as [Hr1 Hall]. destruct (Hhere Hr1) as [Hrj Hj].
    split; [done|]. intros [|i] x Hx Hty; cbn [take].
    - injection Hx as <-. rewrite app_nil_r. by apply Hj.
    - rewrite cons_middle, app_assoc. by apply Hall. }
  destruct (String.eqb_spec (Entry.EntryType e) EntryTypeTradingKeyAuthorized) as [Ht|Ht].
  { destruct (verifierTradingKeyAuthorizationFromEntry b e) as [record|] eqn:Er; [|done]. intros H Hix Hr.
    apply (Hstep _ e H); [by eapply index_record_from, from_entry_authorizes|done| |done].
    intros Hr1. split; [done|]. intros _ Hn. by rewrite Ht in Hn. }
  destruct (String.eqb_spec (Entry.EntryType e) EntryTypeNonceAdvanced) as [Hn|Hn].
  - destruct (Unmarshal (Entry.Payload e)) as [payload|] eqn:Ep; [|done].
    destruct (buildVerifierNonceAuthorization b e payload (index j)) as [[record ref]|] eqn:Eb; [|done]. intros H Hix Hr.
    apply (Hstep _ e H); [|done| |done].
    + eapply index_from_mono; [|exact Hix]. set_solver.
    + cbn [readyForVerifier join_nonce].
      destruct (String.eqb_spec (VerifierNonceAuthorization.JoinStatus record) VerifierAuthJoinSatisfied); [|done].
      intros Hr1. split; [done|]. intros _ _. by eapply buildVerifierNonceAuthorization_joined.
  - intros H Hix Hr. apply (Hstep _ e H); [|done| |done].
    + eapply index_from_mono; [|exact Hix]. set_solver.
    + intros Hr1. by split.
Qed.

(** One record for every nonce entry. *)
Lemma join_entries_count b es j j' :
  join_entries b es j = Ok j' →
  VerifierNonceAuthorization.Sequence <$> nonceAuthorizations j' =
  (VerifierNonceAuthorization.Sequence <$> nonceAuthorizations j) ++
  (Entry.Sequence <$> filter (λ e, Entry.EntryType e = EntryTypeNonceAdvanced) es).
Proof.
  revert j. induction es as [|e es IH]; intros j; cbn [join_entries].
  { intros [= <-]. by rewrite filter_nil, app_nil_r. }
  rewrite filter_cons. destruct (String.eqb_spec (Entry.EntryType e) EntryTypeTradingKeyAuthorized) as [Ht|Ht].
  { rewrite decide_False by (by rewrite Ht). destruct (verifierTradingKeyAuthorizationFromEntry b e); [|done].
    intros H. by rewrite (IH _ H). }
  destruct (String.eqb_spec (Entry.EntryType e) EntryTypeNonceAdvanced) as [Hn|Hn].
  - rewrite decide_True by done. destruct (Unmarshal (Entry.Payload e)) as [payload|]; [|done].
    destruct (buildVerifierNonceAuthorization b e payload (index j)) as [[record ref]|] eqn:Eb; [|done]. intros H.
    rewrite (IH _ H). cbn [nonceAuthorizations join_nonce]. rewrite fmap_app, <-app_assoc. f_equal.
    cbn. f_equal. revert Eb. unfold buildVerifierNonceAuthorization. cbv zeta.
    repeat case_match; intros; simplify_eq; done.
  - rewrite decide_False by done. intros H. by rewrite (IH _ H).
Qed.
End auth_proof.

(** A batch that is ready for the verifier holds only authorized orders.  The
    contract lists one record for every accepted nonce of the batch, and when it is
    ready every one of them carries an order witness of the same account and key, with
    a signed intent of that key and wallet, whose binding is exactly the one a trading
    key authorization with a wallet signature journalled before it (in the history, or
    earlier in the batch) carries. *)
Theorem auth_join_sound
    `{!JSON NonceAdvancedPayload.t, !JSON TradingKeyAuthorizationWitness.t, !JSON BatchInput.t} history batch c :
  BuildVerifierAuthProofContract history batch = Ok c →
  ∃ input, DecodeBatchInput (StoredBatch.InputData batch) = Ok input ∧
    VerifierNonceAuthorization.Sequence <$> VerifierAuthProofContract.NonceAuthorizations c ≡ₚ
      Entry.Sequence <$> filter (λ e, Entry.EntryType e = EntryTypeNonceAdvanced) (BatchInput.Entries input) ∧
    (VerifierAuthProofContract.ReadyForVerifier c = true →
     ∀ i e, BatchInput.Entries input !! i = Some e → Entry.EntryType e = EntryTypeNonceAdvanced →
       joined_to (history_entries history ++ take i (BatchInput.Entries input)) e).
Proof.
  unfold BuildVerifierAuthProofContract, indexVerifierTradingKeyAuthorizations.
  destruct (index_history history ∅) as [ix|] eqn:Ex; [|done].
  destruct (DecodeBatchInput _) as [input|]; [|done].
  destruct (join_entries _ _ _) as [j|] eqn:Ej; [|done]. intros [= <-]. exists input. split; [done|].
  cbn [VerifierAuthProofContract.NonceAuthorizations VerifierAuthProofContract.ReadyForVerifier]. split.
  - rewrite merge_sort_Permutation. by rewrite (join_entries_count _ _ _ _ Ej).
  - intros Hr. eapply join_entries_joined; [done| |done].
    apply (index_history_from history ∅ ix []); [done|]. intros ref r Hr'. by rewrite lookup_empty in Hr'.
Qed.

Lemma hex_text_nonempty s : TrimSpace ("0x" +:+ s) ≠ "".
Proof. by apply TrimSpace_nonempty. Qed.

(** An intent signed with the key by its owner. *)
Record intent_of (accountID : Z) (key : AuthorizedTradingKey.t) (i : OrderIntent.t) : Prop := {
  io_session : TrimSpace (OrderIntent.SessionID i) = TrimSpace (AuthorizedTradingKey.TradingKeyID key);
  io_wallet : NormalizeHex (OrderIntent.WalletAddress i) = NormalizeHex (AuthorizedTradingKey.WalletAddress key);
  io_user : OrderIntent.UserID i = accountID;
}.

Lemma intent_witness_valid sha256 accountID key i signature :
  intent_of accountID key i → TrimSpace (NormalizeHex signature) ≠ "" →
  validateVerifierIntent (key_binding accountID key) (BuildOrderIntentWitness sha256 i signature) = None.
Proof.
  intros [Hs Hw Hu] Hsig. unfold validateVerifierIntent, BuildOrderIntentWitness, key_binding, OrderIntent.Normalize.
  cbn [OrderIntentWitness.SessionID OrderIntentWitness.WalletAddress OrderIntentWitness.UserID
    OrderIntentWitness.MessageHash OrderIntentWitness.Signature OrderIntent.SessionID OrderIntent.WalletAddress
    OrderIntent.UserID VerifierAuthBinding.TradingKeyID VerifierAuthBinding.WalletAddress VerifierAuthBinding.AccountID].
  rewrite TrimSpace_idem, NormalizeHex_idem, Hs, Hw, Hu, !String.eqb_refl, Z.eqb_refl. cbn [negb].
  unfold messageHashHex.
  by rewrite (proj2 (String.eqb_neq _ _) (hex_text_nonempty _)), (proj2 (String.eqb_neq _ _) Hsig).
Qed.

(** When the journal entry of a trading key authorization is the latest of its reference,
    the nonce entry of every order that the key's owner signed with it is joined to it:
    the record is JOINED, names that reference, and carries the binding of the key. *)
Lemma authorized_order_joins (sha256 : string → string) (TypedDataAndHash : TypedData.t → result string string)
    `{!JSON NonceAdvancedPayload.t, !JSON TradingKeyAuthorizationWitness.t}
    accountID authz key walletSig at_ w kb ke intent orderSig nb ne payload (ix : AuthIndex) :
  key_matches authz key → key_complete accountID key →
  BuildTradingKeyAuthorizationWitness TypedDataAndHash accountID authz key walletSig at_ = Ok w →
  Unmarshal (Entry.Payload ke) = Some w → TrimSpace (NormalizeHex walletSig) ≠ "" →
  intent_of accountID key intent → TrimSpace (NormalizeHex orderSig) ≠ "" →
  NonceAdvancedPayload.OrderAuthorization payload =
    Some (BuildOrderAuthorizationWitness sha256 accountID key intent orderSig) →
  TrimSpace (NonceAdvancedPayload.AuthKeyID payload) = TrimSpace (AuthorizedTradingKey.TradingKeyID key) →
  NonceAdvancedPayload.AccountID payload = accountID →
  normalize_upper (NonceAdvancedPayload.Scope payload) =
    upper_or DefaultSessionScope (AuthorizedTradingKey.Scope key) →
  normalize_upper (NonceAdvancedPayload.KeyStatus payload) = normalize_upper (AuthorizedTradingKey.Status key) →
  ∃ keyRecord record,
    verifierTradingKeyAuthorizationFromEntry kb ke = Ok keyRecord ∧
    VerifierTradingKeyAuthorization.Binding keyRecord = key_binding accountID key ∧
    buildVerifierNonceAuthorization nb ne payload (index_record keyRecord ix) =
      Ok (record, TrimSpace (AuthorizedTradingKey.AuthorizationRef key)) ∧
    VerifierNonceAuthorization.JoinStatus record = VerifierAuthJoinSatisfied ∧
    VerifierNonceAuthorization.Binding record = Some (key_binding accountID key).
Proof.
  intros Hm Hc Hw Hu Hsig Hi Hosig Hoa Hk Ha Hsc Hst.
  pose proof (key_witness_binding TypedDataAndHash _ _ _ _ _ _ Hm Hc Hw) as Hkb.
  pose proof (order_witness_binding sha256 accountID key intent orderSig Hc) as Hob.
  destruct (key_binding_ok accountID key Hc) as [Hok Hid].
  set (keyRecord := VerifierTradingKeyAuthorization.mk kb (Entry.Sequence ke) (TrimSpace (Entry.SourceRef ke))
    (key_binding accountID key) (TrimSpace (TradingKeyAuthorizationWitness.WalletTypedDataHash w))
    (TrimSpace (TradingKeyAuthorizationWitness.WalletSignature w))).
  assert (verifierTradingKeyAuthorizationFromEntry kb ke = Ok keyRecord) as Hrec.
  { unfold verifierTradingKeyAuthorizationFromEntry. rewrite Hu, Hkb. revert Hw.
    unfold BuildTradingKeyAuthorizationWitness. cbv zeta. destruct (TypedDataAndHash _); [|done]. intros [= <-].
    cbn [TradingKeyAuthorizationWitness.WalletTypedDataHash TradingKeyAuthorizationWitness.WalletSignature] in *.
    by rewrite (proj2 (String.eqb_neq _ _) (hex_text_nonempty _)), (proj2 (String.eqb_neq _ _) Hsig). }
  eexists keyRecord, _. split; [done|]. split; [done|]. unfold buildVerifierNonceAuthorization. cbv zeta. rewrite Hoa, Hob.
  assert (OrderAuthorizationWitness.VerifierEligible
    (BuildOrderAuthorizationWitness sha256 accountID key intent orderSig) = true) as ->.
  { revert Hob. unfold OrderVerifierBinding. by destruct (OrderAuthorizationWitness.VerifierEligible _). }
  assert (OrderAuthorizationWitness.Intent (BuildOrderAuthorizationWitness sha256 accountID key intent orderSig) =
    BuildOrderIntentWitness sha256 intent orderSig) as ->.
  { unfold BuildOrderAuthorizationWitness. cbv zeta. by repeat case_match. }
  rewrite (intent_witness_valid _ _ _ _ _ Hi Hosig). cbn [negb].
  unfold normalizeVerifierField. rewrite Hk, Ha, Hsc, Hst.
  unfold key_binding at 1 2 3 4. cbn [VerifierAuthBinding.TradingKeyID VerifierAuthBinding.AccountID
    VerifierAuthBinding.Scope VerifierAuthBinding.KeyStatus]. rewrite !String.eqb_refl, Z.eqb_refl. cbn [negb].
  unfold index_record. cbn [VerifierTradingKeyAuthorization.Binding keyRecord]. rewrite lookup_insert_eq.
  cbn [VerifierTradingKeyAuthorization.Binding keyRecord].
  rewrite (proj2 (match_spec (key_binding accountID key) (key_binding accountID key))) by (by rewrite Hid).
  done.
Qed.

(** ** A concrete batch *)

Definition sample_authz : TradingKeyAuthorization.t :=
  TradingKeyAuthorization.mk "0xAA" "0xBB" "" "trade" "0x01" 10 0 1 " 0xCC".
Definition sample_key : AuthorizedTradingKey.t :=
  AuthorizedTradingKey.mk "tk_1" 5 "0xaa" "0xbb" "ED25519" "" 1 "0xcc" "active" 0 "77".
Definition sample_typed_hash (t : TypedData.t) : result string string := Ok "hash".
Definition sample_intent : OrderIntent.t :=
  OrderIntent.mk "tk_1" "0xAA" 5 7 "YES" "BUY" "LIMIT" "GTC" 60 10 "" 1 1000.
Definition sample_payload : NonceAdvancedPayload.t :=
  NonceAdvancedPayload.mk 5 "tk_1" "TRADE" "ACTIVE" 1 2 0
    (Some (BuildOrderAuthorizationWitness (λ s, s) 5 sample_key sample_intent "0x5160")).

Definition key_entry : Entry.t := Entry.mk 1 "" EntryTypeTradingKeyAuthorized "" "key" 0 "key".
Definition nonce_entry : Entry.t := Entry.mk 2 "" EntryTypeNonceAdvanced "" "nonce" 0 "nonce".

#[local] Instance sample_key_json : JSON TradingKeyAuthorizationWitness.t :=
  {| Marshal _ := "key";
     Unmarshal text :=
       if String.eqb text "key" then
         match BuildTradingKeyAuthorizationWitness sample_typed_hash 5 sample_authz sample_key "0x51" 9 with
         | Ok w => Some w | Err _ => None end
       else None |}.
#[local] Instance sample_nonce_json : JSON NonceAdvancedPayload.t :=
  {| Marshal _ := "nonce"; Unmarshal text := if String.eqb text "nonce" then Some sample_payload else None |}.
#[local] Instance sample_input_json : JSON BatchInput.t :=
  {| Marshal _ := "";
     Unmarshal text := Some (BatchInput.mk BatchEncodingVersion
       (if String.eqb text "both" then [key_entry; nonce_entry] else [])) |}.

Definition sample_batch : StoredBatch.t :=
  StoredBatch.mk 1 BatchEncodingVersion 1 2 2 "both" "" "" "" "" "" "" "" 0.

Lemma auth_join_sound_witness :
  ∃ c input, BuildVerifierAuthProofContract [] sample_batch = Ok c ∧
    VerifierAuthProofContract.ReadyForVerifier c = true ∧
    DecodeBatchInput (StoredBatch.InputData sample_batch) = Ok input ∧
    VerifierNonceAuthorization.Sequence <$> VerifierAuthProofContract.NonceAuthorizations c ≡ₚ
      Entry.Sequence <$> filter (λ e, Entry.EntryType e = EntryTypeNonceAdvanced) (BatchInput.Entries input) ∧
    joined_to ([] ++ take 1 (BatchInput.Entries input)) nonce_entry.
Proof.
  destruct (BuildVerifierAuthProofContract [] sample_batch) as [c|e] eqn:E; [|exfalso; by vm_compute in E].
  destruct (auth_join_sound [] sample_batch c E) as (input & Hi & Hp & Hj). exists c, input.
  assert (VerifierAuthProofContract.ReadyForVerifier c = true) as Hr.
  { vm_compute in E. injection E as <-. reflexivity. }
  split_and!; [done..|]. apply (Hj Hr 1%nat); [|reflexivity]. vm_compute in Hi. injection Hi as <-. reflexivity.
Defined.
