(* ===== verification/RollupSubmission.v ===== *)
(** * Rollup: submissions and accepted batches

    The rest of [rollup/store.go]: the submission of every batch with the transactions
    that carry it, and what an accepted submission is turned into: the accepted batch
    and its withdrawals, the queued claims, the snapshot the read models serve, the
    escape and withdrawal trees.  A table is the list of its rows in key order, or a
    finite map by key; every operation is one statement or one transaction, and an
    operation that fails leaves the database as it was.  [now] is the database clock.
    A bundle ([submission.go]) carries a Groth16 proof (gnark), digests and ABI-encoded
    calls: these are the parameter [artifacts]; its JSON text is a codec like those of
    the payloads. *)

From stdpp Require Import sorting.
From S2P Require Import Prelude Strings Shared Auth RollupJournal RollupState.
From S2P Require Import RollupReplay Merkle AcceptedSnapshot VerifierAuth.

Local Open Scope Z_scope.

(** ** Submissions *)

Inductive SubmissionStatus :=
| SubmissionStatusReady
| SubmissionStatusBlockedAuth
| SubmissionStatusRecordSubmitted
| SubmissionStatusPublishSubmitted
| SubmissionStatusDataPublished
| SubmissionStatusAcceptSubmitted
| SubmissionStatusAccepted
| SubmissionStatusFailed.

#[global] Instance SubmissionStatus_eq_dec : EqDecision SubmissionStatus.
Proof. solve_decision. Defined.

Definition SubmissionStatus_string (st : SubmissionStatus) : string :=
  match st with
  | SubmissionStatusReady => "READY"
  | SubmissionStatusBlockedAuth => "BLOCKED_AUTH"
  | SubmissionStatusRecordSubmitted => "RECORD_SUBMITTED"
  | SubmissionStatusPublishSubmitted => "PUBLISH_SUBMITTED"
  | SubmissionStatusDataPublished => "DATA_PUBLISHED"
  | SubmissionStatusAcceptSubmitted => "ACCEPT_SUBMITTED"
  | SubmissionStatusAccepted => "ACCEPTED"
  | SubmissionStatusFailed => "FAILED"
  end.

Definition SubmissionEncodingVersion : string := "shadow-submit-v1".

Module StoredSubmission.
Record t := mk {
  SubmissionID : string;
  BatchID : Z;
  EncodingVersion : string;
  Status : SubmissionStatus;
  BatchDataHash : string;
  NextStateRoot : string;
  AuthProofHash : string;
  VerifierGateHash : string;
  RecordCalldata : string;
  PublishCalldata : string;
  AcceptCalldata : string;
  SubmissionData : string;
  SubmissionHash : string;
  RecordTxHash : string;
  PublishTxHash : string;
  AcceptTxHash : string;
  RecordSubmittedAt : Z;
  PublishSubmittedAt : Z;
  AcceptSubmittedAt : Z;
  AcceptedAt : Z;
  LastError : string;
  LastErrorAt : Z;
  CreatedAt : Z;
  UpdatedAt : Z;
}.

(** The columns the runtime updates. *)
Definition set_runtime (r : t) (status : SubmissionStatus) (record publish accept : string * Z)
    (acceptedAt : Z) (error : string * Z) (now : Z) : t :=
  mk (SubmissionID r) (BatchID r) (EncodingVersion r) status (BatchDataHash r) (NextStateRoot r)
    (AuthProofHash r) (VerifierGateHash r) (RecordCalldata r) (PublishCalldata r) (AcceptCalldata r)
    (SubmissionData r) (SubmissionHash r) record.1 publish.1 accept.1 record.2 publish.2 accept.2
    acceptedAt error.1 error.2 (CreatedAt r) now.

Definition record_tx (r : t) : string * Z := (RecordTxHash r, RecordSubmittedAt r).
Definition publish_tx (r : t) : string * Z := (PublishTxHash r, PublishSubmittedAt r).
Definition accept_tx (r : t) : string * Z := (AcceptTxHash r, AcceptSubmittedAt r).
Definition no_error : string * Z := ("", 0).
End StoredSubmission.

Module SubmissionBatchSummary.
Record t := mk {
  BatchID : Z;
  EncodingVersion : string;
  FirstSequence : Z;
  LastSequence : Z;
  EntryCount : Z;
  InputHash : string;
  BatchDataHash : string;
  PrevStateRoot : string;
  BalancesRoot : string;
  OrdersRoot : string;
  PositionsFundingRoot : string;
  WithdrawalsRoot : string;
  NextStateRoot : string;
  ConservationHash : string;
}.
End SubmissionBatchSummary.

Module VerifierAcceptanceAuthStatus.
Record t := mk { Sequence : Z; SourceRef : string; JoinStatus : string }.
End VerifierAcceptanceAuthStatus.

(** What the verifier artifacts and the packed calls of a batch contribute. *)
Module Artifacts.
Record t := mk {
  AuthStatuses : list VerifierAcceptanceAuthStatus.t;
  AuthProofHash : string;
  VerifierGateHash : string;
  RecordCalldata : string;
  PublishCalldata : string;
  AcceptCalldata : string;
}.
End Artifacts.

(** The bundle by the parts that are stored and read back. *)
Module ShadowBatchSubmissionBundle.
Record t := mk {
  Status : SubmissionStatus;
  Batch : SubmissionBatchSummary.t;
  AuthProofHash : string;
  VerifierGateHash : string;
  RecordCalldata : string;
  PublishCalldata : string;
  AcceptCalldata : string;
}.
End ShadowBatchSubmissionBundle.

Module AcceptedBatchRecord.
Record t := mk {
  BatchID : Z;
  SubmissionID : string;
  EncodingVersion : string;
  FirstSequence : Z;
  LastSequence : Z;
  EntryCount : Z;
  BatchDataHash : string;
  PrevStateRoot : string;
  BalancesRoot : string;
  OrdersRoot : string;
  PositionsFundingRoot : string;
  WithdrawalsRoot : string;
  NextStateRoot : string;
  RecordTxHash : string;
  AcceptTxHash : string;
  AcceptedAt : Z;
  CreatedAt : Z;
  UpdatedAt : Z;
}.
End AcceptedBatchRecord.

Module acceptedWithdrawalClaimPayload.
Record t := mk {
  EventID : string;
  UserID : Z;
  WalletAddress : string;
  RecipientAddress : string;
  PayoutAsset : string;
  PayoutAmount : Z;
}.
End acceptedWithdrawalClaimPayload.

Definition normalizeSubmissionTxHash (txHash : string) : string := TrimPrefix0x (ToLower (TrimSpace txHash)).
Definition normalizeSubmissionError (errMsg : string) : string := TrimSpace errMsg.

Definition solidityBytes32 (value field : string) : result string string :=
  let normalized := TrimPrefix0x (ToLower (TrimSpace value)) in
  if negb (String.length normalized =? 64)%nat then Err (field +:+ " must be 32-byte hex for Solidity export")
  else match DecodeString normalized with
       | None => Err (field +:+ " must be 32-byte hex for Solidity export")
       | Some _ => Ok ("0x" +:+ normalized)
       end.

(** ** Rows in key order *)

(** [INSERT ... ON CONFLICT (key) DO UPDATE]. *)
Fixpoint upsert_by {R} (key : R → Z) (k : Z) (fresh : R) (update : R → R) (rows : list R) : list R :=
  match rows with
  | [] => [fresh]
  | r :: rows =>
      if k <? key r then fresh :: r :: rows
      else if key r =? k then update r :: rows
      else r :: upsert_by key k fresh update rows
  end.

Definition row_of {R} (key : R → Z) (k : Z) (rows : list R) : option R :=
  snd <$> list_find (λ r, key r = k) rows.

(** ** The submission table *)

Definition updateSubmissionRuntime (rows : list StoredSubmission.t) (id : string)
    (f : StoredSubmission.t → StoredSubmission.t) : list StoredSubmission.t * result string StoredSubmission.t :=
  match list_find (λ r, StoredSubmission.SubmissionID r = id) rows with
  | Some (i, r) => (<[i := f r]> rows, Ok (f r))
  | None => (rows, Err ("rollup submission " +:+ TrimSpace id +:+ " not found"))
  end.

Section submissions.
Context (now : Z).
Import StoredSubmission.

Definition record_submitted (txHash : string) (r : t) : t :=
  set_runtime r SubmissionStatusRecordSubmitted (normalizeSubmissionTxHash txHash, now) (publish_tx r)
    (accept_tx r) (AcceptedAt r) no_error now.
Definition publish_submitted (txHash : string) (r : t) : t :=
  set_runtime r SubmissionStatusPublishSubmitted (record_tx r) (normalizeSubmissionTxHash txHash, now)
    (accept_tx r) (AcceptedAt r) no_error now.
Definition data_published (r : t) : t :=
  set_runtime r SubmissionStatusDataPublished (record_tx r) (publish_tx r) (accept_tx r) (AcceptedAt r)
    no_error now.
Definition accept_submitted (txHash : string) (r : t) : t :=
  set_runtime r SubmissionStatusAcceptSubmitted (record_tx r) (publish_tx r)
    (normalizeSubmissionTxHash txHash, now) (AcceptedAt r) no_error now.
Definition accepted (r : t) : t :=
  set_runtime r SubmissionStatusAccepted (record_tx r) (publish_tx r) (accept_tx r) now no_error now.
Definition failed (errMsg : string) (r : t) : t :=
  set_runtime r SubmissionStatusFailed (record_tx r) (publish_tx r) (accept_tx r) (AcceptedAt r)
    (normalizeSubmissionError errMsg, now) now.
Definition with_error (errMsg : string) (r : t) : t :=
  set_runtime r (Status r) (record_tx r) (publish_tx r) (accept_tx r) (AcceptedAt r)
    (normalizeSubmissionError errMsg, now) now.
(** [ReprepareFailedSubmission]'s last statement. *)
Definition resumed (status : SubmissionStatus) (r : t) : t :=
  set_runtime r status (record_tx r) (publish_tx r) ("", AcceptSubmittedAt r) (AcceptedAt r) no_error now.

(** Where a failed submission is taken up again. *)
Definition resumeStatus (existing : t) : SubmissionStatus :=
  if negb (String.eqb (TrimSpace (RecordTxHash existing)) "") &&
     negb (String.eqb (TrimSpace (PublishTxHash existing)) "") then SubmissionStatusDataPublished
  else if negb (String.eqb (TrimSpace (RecordTxHash existing)) "") then SubmissionStatusRecordSubmitted
  else SubmissionStatusReady.

Context (sha256 : string → string) `{!JSON ShadowBatchSubmissionBundle.t}.

(** The row of a bundle; a row that exists keeps its identifier, its transactions and
    its errors. *)
Definition submission_row (batchID : Z) (bundle : ShadowBatchSubmissionBundle.t)
    (batchDataHash nextStateRoot : string) (old : option t) : t :=
  let submissionData := Marshal bundle in
  let base := default (mk ("rsub_" +:+ itoa batchID) batchID "" SubmissionStatusReady "" "" "" "" "" "" "" ""
                         "" "" "" "" 0 0 0 0 "" 0 now now) old in
  mk (SubmissionID base) (BatchID base) SubmissionEncodingVersion (ShadowBatchSubmissionBundle.Status bundle)
    batchDataHash nextStateRoot (ShadowBatchSubmissionBundle.AuthProofHash bundle)
    (ShadowBatchSubmissionBundle.VerifierGateHash bundle) (ShadowBatchSubmissionBundle.RecordCalldata bundle)
    (ShadowBatchSubmissionBundle.PublishCalldata bundle) (ShadowBatchSubmissionBundle.AcceptCalldata bundle)
    submissionData (hashStrings sha256 ["shadow"; "submission_bundle"; submissionData])
    (RecordTxHash base) (PublishTxHash base) (AcceptTxHash base) (RecordSubmittedAt base)
    (PublishSubmittedAt base) (AcceptSubmittedAt base) (AcceptedAt base) (LastError base) (LastErrorAt base)
    (CreatedAt base) now.

Definition upsertSubmission (rows : list t) (batchID : Z) (bundle : ShadowBatchSubmissionBundle.t)
    : result string (list t * t) :=
  match solidityBytes32 (SubmissionBatchSummary.BatchDataHash (ShadowBatchSubmissionBundle.Batch bundle))
          "bundle.batch.batch_data_hash" with
  | Err e => Err e
  | Ok batchDataHash =>
      match solidityBytes32 (SubmissionBatchSummary.NextStateRoot (ShadowBatchSubmissionBundle.Batch bundle))
              "bundle.batch.next_state_root" with
      | Err e => Err e
      | Ok nextStateRoot =>
          let row := submission_row batchID bundle batchDataHash nextStateRoot in
          Ok (upsert_by BatchID batchID (row None) (λ old, row (Some old)) rows,
              row (row_of BatchID batchID rows))
      end
  end.
End submissions.

(** ** The database *)

Record DB := mkDB {
  base : Store;  (* journal, batches and the cached state *)
  submissions : list StoredSubmission.t;
  frozen : bool;
  user_profiles : gmap Z string;
  accepted_batches : list AcceptedBatchRecord.t;
  accepted_withdrawals : gmap string AcceptedWithdrawalRecord.t;
  claim_queue : gmap string acceptedWithdrawalClaimPayload.t;  (* chain_transactions, WITHDRAWAL_CLAIM *)
  read_truth : option AcceptedReplaySnapshot.t;
  escape_roots : list AcceptedEscapeCollateralRootRecord.t;
  escape_leaf_rows : gmap Z (list AcceptedEscapeCollateralLeafRecord.t);
  withdrawal_roots : gmap Z AcceptedWithdrawalRootRecord.t;
  withdrawal_leaf_rows : gmap Z (list AcceptedWithdrawalLeafRecord.t);
}.

Definition set_base (d : DB) (b : Store) : DB :=
  mkDB b (submissions d) (frozen d) (user_profiles d) (accepted_batches d) (accepted_withdrawals d)
    (claim_queue d) (read_truth d) (escape_roots d) (escape_leaf_rows d) (withdrawal_roots d)
    (withdrawal_leaf_rows d).
Definition set_submissions (d : DB) (rows : list StoredSubmission.t) : DB :=
  mkDB (base d) rows (frozen d) (user_profiles d) (accepted_batches d) (accepted_withdrawals d)
    (claim_queue d) (read_truth d) (escape_roots d) (escape_leaf_rows d) (withdrawal_roots d)
    (withdrawal_leaf_rows d).
Definition set_escape_roots (d : DB) (rows : list AcceptedEscapeCollateralRootRecord.t) : DB :=
  mkDB (base d) (submissions d) (frozen d) (user_profiles d) (accepted_batches d) (accepted_withdrawals d)
    (claim_queue d) (read_truth d) rows (escape_leaf_rows d) (withdrawal_roots d) (withdrawal_leaf_rows d).

(** ** Escape roots *)

Module EscapeRoot.
Import AcceptedEscapeCollateralRootRecord.

Definition set_anchor (r : t) (status txHash : string) (submittedAt anchoredAt : Z) (error : string * Z)
    (now : Z) : t :=
  mk (BatchID r) (StateRoot r) (CollateralAsset r) (MerkleRoot r) (LeafCount r) (TotalAmount r) status txHash
    submittedAt anchoredAt error.1 error.2 (CreatedAt r) now.

Definition anchor_submitted (now : Z) (txHash : string) (r : t) : t :=
  set_anchor r "SUBMITTED" (normalizeSubmissionTxHash txHash) now (AnchoredAt r) ("", 0) now.
Definition anchored (now : Z) (r : t) : t :=
  set_anchor r "ANCHORED" (AnchorTxHash r) (AnchorSubmittedAt r) now ("", 0) now.
Definition anchor_failed (now : Z) (errMsg : string) (r : t) : t :=
  set_anchor r "FAILED" (AnchorTxHash r) (AnchorSubmittedAt r) (AnchoredAt r)
    (normalizeSubmissionError errMsg, now) now.

(** [upsertAcceptedEscapeRoot] on a row that exists. *)
Definition refreshed (root : t) (acceptedAt : Z) (old : t) : t :=
  mk (BatchID old) (StateRoot root) (CollateralAsset root) (MerkleRoot root) (LeafCount root)
    (TotalAmount root) (AnchorStatus old) (AnchorTxHash old) (AnchorSubmittedAt old) (AnchoredAt old)
    (LastError old) (LastErrorAt old) (CreatedAt old) acceptedAt.
Definition inserted (root : t) (acceptedAt : Z) : t :=
  mk (BatchID root) (StateRoot root) (CollateralAsset root) (MerkleRoot root) (LeafCount root)
    (TotalAmount root) (if String.eqb (AnchorStatus root) "" then "READY" else AnchorStatus root)
    (AnchorTxHash root) (AnchorSubmittedAt root) (AnchoredAt root) (LastError root) (LastErrorAt root)
    acceptedAt acceptedAt.

Definition pending (r : t) : bool :=
  bool_decide (AnchorStatus r ∈ ["READY"; "SUBMITTED"; "FAILED"]).
End EscapeRoot.

Definition NextEscapeCollateralRootForAnchor (d : DB) : option AcceptedEscapeCollateralRootRecord.t :=
  snd <$> list_find (λ r, Is_true (EscapeRoot.pending r)) (escape_roots d).

Definition updateEscapeCollateralRoot (d : DB) (batchID : Z)
    (f : AcceptedEscapeCollateralRootRecord.t → AcceptedEscapeCollateralRootRecord.t)
    : DB * result string AcceptedEscapeCollateralRootRecord.t :=
  match list_find (λ r, AcceptedEscapeCollateralRootRecord.BatchID r = batchID) (escape_roots d) with
  | Some (i, r) => (set_escape_roots d (<[i := f r]> (escape_roots d)), Ok (f r))
  | None => (d, Err ("rollup accepted escape root " +:+ itoa batchID +:+ " not found"))
  end.

(** ** Claims that are already under way keep their state *)

Definition preserveAcceptedEscapeClaimRuntime (existing : option AcceptedEscapeCollateralLeafRecord.t)
    (next : AcceptedEscapeCollateralLeafRecord.t) : AcceptedEscapeCollateralLeafRecord.t :=
  match existing with
  | None => next
  | Some e =>
      if String.eqb (AcceptedEscapeCollateralLeafRecord.ClaimID e) "" ||
         negb (String.eqb (AcceptedEscapeCollateralLeafRecord.ClaimID e)
                 (AcceptedEscapeCollateralLeafRecord.ClaimID next)) then next
      else
        AcceptedEscapeCollateralLeafRecord.mk (AcceptedEscapeCollateralLeafRecord.BatchID next)
          (AcceptedEscapeCollateralLeafRecord.AccountID next)
          (AcceptedEscapeCollateralLeafRecord.WalletAddress next)
          (AcceptedEscapeCollateralLeafRecord.CollateralAsset next)
          (AcceptedEscapeCollateralLeafRecord.ClaimAmount next)
          (AcceptedEscapeCollateralLeafRecord.LeafIndex next)
          (AcceptedEscapeCollateralLeafRecord.LeafHash next)
          (AcceptedEscapeCollateralLeafRecord.ProofHashes next)
          (AcceptedEscapeCollateralLeafRecord.ClaimID next)
          (AcceptedEscapeCollateralLeafRecord.ClaimStatus e)
          (AcceptedEscapeCollateralLeafRecord.ClaimTxHash e)
          (AcceptedEscapeCollateralLeafRecord.ClaimSubmittedAt e)
          (AcceptedEscapeCollateralLeafRecord.ClaimedAt e)
          (AcceptedEscapeCollateralLeafRecord.LastError e)
          (AcceptedEscapeCollateralLeafRecord.LastErrorAt e)
          (AcceptedEscapeCollateralLeafRecord.CreatedAt next)
          (AcceptedEscapeCollateralLeafRecord.UpdatedAt next)
  end.

Definition preserveAcceptedWithdrawalClaimRuntime (existing : option AcceptedWithdrawalLeafRecord.t)
    (next : AcceptedWithdrawalLeafRecord.t) : AcceptedWithdrawalLeafRecord.t :=
  match existing with
  | None => next
  | Some e =>
      if String.eqb (AcceptedWithdrawalLeafRecord.ClaimID e) "" ||
         negb (String.eqb (AcceptedWithdrawalLeafRecord.ClaimID e)
                 (AcceptedWithdrawalLeafRecord.ClaimID next)) then next
      else
        AcceptedWithdrawalLeafRecord.mk (AcceptedWithdrawalLeafRecord.BatchID next)
          (AcceptedWithdrawalLeafRecord.WithdrawalID next) (AcceptedWithdrawalLeafRecord.AccountID next)
          (AcceptedWithdrawalLeafRecord.WalletAddress next) (AcceptedWithdrawalLeafRecord.RecipientAddress next)
          (AcceptedWithdrawalLeafRecord.Amount next) (AcceptedWithdrawalLeafRecord.LeafIndex next)
          (AcceptedWithdrawalLeafRecord.LeafHash next) (AcceptedWithdrawalLeafRecord.ProofHashes next)
          (AcceptedWithdrawalLeafRecord.ClaimID next) (AcceptedWithdrawalLeafRecord.ClaimStatus e)
          (AcceptedWithdrawalLeafRecord.ClaimTxHash e) (AcceptedWithdrawalLeafRecord.ClaimSubmittedAt e)
          (AcceptedWithdrawalLeafRecord.ClaimedAt e) (AcceptedWithdrawalLeafRecord.LastError e)
          (AcceptedWithdrawalLeafRecord.LastErrorAt e) (AcceptedWithdrawalLeafRecord.CreatedAt next)
          (AcceptedWithdrawalLeafRecord.UpdatedAt next)
  end.

(** The rows of one batch by claim; a later row of the same claim wins. *)
Definition by_claim {R} (claim : R → string) (rows : list R) : gmap string R :=
  fold_left (λ m r, <[claim r := r]> m) rows ∅.

(** The leaves of a batch are deleted and written anew ([created_at] and [updated_at]
    are set to the acceptance time). *)
Definition replaceAcceptedWithdrawalLeaves (table : gmap Z (list AcceptedWithdrawalLeafRecord.t))
    (batchID : Z) (leaves : list AcceptedWithdrawalLeafRecord.t) (acceptedAt : Z)
    : gmap Z (list AcceptedWithdrawalLeafRecord.t) :=
  let existing := by_claim AcceptedWithdrawalLeafRecord.ClaimID (default [] (table !! batchID)) in
  let row leaf :=
    let l := preserveAcceptedWithdrawalClaimRuntime (existing !! AcceptedWithdrawalLeafRecord.ClaimID leaf) leaf in
    AcceptedWithdrawalLeafRecord.mk batchID (AcceptedWithdrawalLeafRecord.WithdrawalID l)
      (AcceptedWithdrawalLeafRecord.AccountID l) (AcceptedWithdrawalLeafRecord.WalletAddress l)
      (AcceptedWithdrawalLeafRecord.RecipientAddress l) (AcceptedWithdrawalLeafRecord.Amount l)
      (AcceptedWithdrawalLeafRecord.LeafIndex l) (AcceptedWithdrawalLeafRecord.LeafHash l)
      (AcceptedWithdrawalLeafRecord.ProofHashes l) (AcceptedWithdrawalLeafRecord.ClaimID l)
      (AcceptedWithdrawalLeafRecord.ClaimStatus l) (AcceptedWithdrawalLeafRecord.ClaimTxHash l)
      (AcceptedWithdrawalLeafRecord.ClaimSubmittedAt l) (AcceptedWithdrawalLeafRecord.ClaimedAt l)
      (AcceptedWithdrawalLeafRecord.LastError l) (AcceptedWithdrawalLeafRecord.LastErrorAt l)
      acceptedAt acceptedAt in
  <[batchID := row <$> leaves]> table.

Definition replaceAcceptedEscapeLeaves (table : gmap Z (list AcceptedEscapeCollateralLeafRecord.t))
    (batchID : Z) (leaves : list AcceptedEscapeCollateralLeafRecord.t) (acceptedAt : Z)
    : gmap Z (list AcceptedEscapeCollateralLeafRecord.t) :=
  let existing := by_claim AcceptedEscapeCollateralLeafRecord.ClaimID (default [] (table !! batchID)) in
  let row leaf :=
    let l := preserveAcceptedEscapeClaimRuntime
               (existing !! AcceptedEscapeCollateralLeafRecord.ClaimID leaf) leaf in
    AcceptedEscapeCollateralLeafRecord.mk batchID (AcceptedEscapeCollateralLeafRecord.AccountID l)
      (AcceptedEscapeCollateralLeafRecord.WalletAddress l) (AcceptedEscapeCollateralLeafRecord.CollateralAsset l)
      (AcceptedEscapeCollateralLeafRecord.ClaimAmount l) (AcceptedEscapeCollateralLeafRecord.LeafIndex l)
      (AcceptedEscapeCollateralLeafRecord.LeafHash l) (AcceptedEscapeCollateralLeafRecord.ProofHashes l)
      (AcceptedEscapeCollateralLeafRecord.ClaimID l) (AcceptedEscapeCollateralLeafRecord.ClaimStatus l)
      (AcceptedEscapeCollateralLeafRecord.ClaimTxHash l) (AcceptedEscapeCollateralLeafRecord.ClaimSubmittedAt l)
      (AcceptedEscapeCollateralLeafRecord.ClaimedAt l) (AcceptedEscapeCollateralLeafRecord.LastError l)
      (AcceptedEscapeCollateralLeafRecord.LastErrorAt l) acceptedAt acceptedAt in
  <[batchID := row <$> leaves]> table.

(** ** An accepted submission *)

Section accept.
Context (sha256 Keccak256 HexToAddress : string → string).
Context `{!JSON balanceLeaf.t, !JSON nonceLeaf.t, !JSON orderLeaf.t}.
Context `{!JSON positionLeaf.t, !JSON marketFundingLeaf.t, !JSON withdrawalLeaf.t}.
Context `{!JSON NonceAdvancedPayload.t, !JSON TradingKeyAuthorizationWitness.t}.
Context `{!JSON OrderAcceptedPayload.t, !JSON OrderCancelledPayload.t, !JSON TradeMatchedPayload.t}.
Context `{!JSON DepositCreditedPayload.t, !JSON WithdrawalRequestedPayload.t}.
Context `{!JSON MarketResolvedPayload.t, !JSON SettlementPayoutPayload.t, !JSON BatchInput.t}.
Context `{!JSON ShadowBatchSubmissionBundle.t}.
Context (now : Z).

Definition loadBatchByID (d : DB) (batchID : Z) : result string StoredBatch.t :=
  match row_of StoredBatch.BatchID batchID (batch_rows (base d)) with
  | Some b => Ok b
  | None => Err ("rollup batch " +:+ itoa batchID +:+ " not found")
  end.

Definition loadSubmissionByID (d : DB) (submissionID : string) : result string StoredSubmission.t :=
  match list_find (λ r, StoredSubmission.SubmissionID r = TrimSpace submissionID) (submissions d) with
  | Some (_, r) => Ok r
  | None => Err ("rollup submission " +:+ TrimSpace submissionID +:+ " not found")
  end.

Definition accepted_batch (batch : StoredBatch.t) (sub : StoredSubmission.t)
    (old : option AcceptedBatchRecord.t) : AcceptedBatchRecord.t :=
  AcceptedBatchRecord.mk (StoredBatch.BatchID batch) (StoredSubmission.SubmissionID sub)
    (StoredBatch.EncodingVersion batch) (StoredBatch.FirstSequence batch) (StoredBatch.LastSequence batch)
    (StoredBatch.EntryCount batch) (StoredSubmission.BatchDataHash sub) (StoredBatch.PrevStateRoot batch)
    (StoredBatch.BalancesRoot batch) (StoredBatch.OrdersRoot batch) (StoredBatch.PositionsFundingRoot batch)
    (StoredBatch.WithdrawalsRoot batch) (StoredBatch.StateRoot batch) (StoredSubmission.RecordTxHash sub)
    (StoredSubmission.AcceptTxHash sub) (StoredSubmission.AcceptedAt sub)
    (default now (AcceptedBatchRecord.CreatedAt <$> old)) now.

Definition upsertAcceptedBatch (rows : list AcceptedBatchRecord.t) (batch : StoredBatch.t)
    (sub : StoredSubmission.t) : list AcceptedBatchRecord.t :=
  upsert_by AcceptedBatchRecord.BatchID (StoredBatch.BatchID batch) (accepted_batch batch sub None)
    (λ old, accepted_batch batch sub (Some old)) rows.

(** A withdrawal that is stored already keeps the state of its claim. *)
Definition withdrawal_row (w : AcceptedWithdrawalRecord.t) (old : option AcceptedWithdrawalRecord.t)
    : AcceptedWithdrawalRecord.t :=
  let run := default (AcceptedWithdrawalRecord.mk "" 0 0 "" "" "" "" 0 "" "" "" 0 ""
                        AcceptedWithdrawalStatusClaimable "" 0 0 "" 0 now now) old in
  AcceptedWithdrawalRecord.mk (AcceptedWithdrawalRecord.WithdrawalID w) (AcceptedWithdrawalRecord.BatchID w)
    (AcceptedWithdrawalRecord.AccountID w) (AcceptedWithdrawalRecord.WalletAddress w)
    (AcceptedWithdrawalRecord.RecipientAddress w) (AcceptedWithdrawalRecord.VaultAddress w)
    (AcceptedWithdrawalRecord.Asset w) (AcceptedWithdrawalRecord.Amount w) (AcceptedWithdrawalRecord.Lane w)
    (AcceptedWithdrawalRecord.ChainName w) (AcceptedWithdrawalRecord.NetworkName w)
    (AcceptedWithdrawalRecord.RequestSequence w) (AcceptedWithdrawalRecord.ClaimID w)
    (AcceptedWithdrawalRecord.ClaimStatus run) (AcceptedWithdrawalRecord.ClaimTxHash run)
    (AcceptedWithdrawalRecord.ClaimSubmittedAt run) (AcceptedWithdrawalRecord.ClaimedAt run)
    (AcceptedWithdrawalRecord.LastError run) (AcceptedWithdrawalRecord.LastErrorAt run)
    (AcceptedWithdrawalRecord.CreatedAt run) now.

Definition claim_payload (w : AcceptedWithdrawalRecord.t) : acceptedWithdrawalClaimPayload.t :=
  acceptedWithdrawalClaimPayload.mk (AcceptedWithdrawalRecord.WithdrawalID w)
    (AcceptedWithdrawalRecord.AccountID w) (AcceptedWithdrawalRecord.WalletAddress w)
    (AcceptedWithdrawalRecord.RecipientAddress w) (AcceptedWithdrawalRecord.Asset w)
    (AcceptedWithdrawalRecord.Amount w).

(** The tables of withdrawals and of queued claims; the claim of a withdrawal is queued
    by the first insertion only ([ON CONFLICT (biz_type, ref_id) DO NOTHING]). *)
Definition upsertAcceptedWithdrawal
    (tables : gmap string AcceptedWithdrawalRecord.t * gmap string acceptedWithdrawalClaimPayload.t)
    (w : AcceptedWithdrawalRecord.t)
    : gmap string AcceptedWithdrawalRecord.t * gmap string acceptedWithdrawalClaimPayload.t
      * AcceptedWithdrawalRecord.t :=
  let '(withdrawals, queue) := tables in
  let id := AcceptedWithdrawalRecord.WithdrawalID w in
  let stored := withdrawal_row w (withdrawals !! id) in
  (<[id := stored]> withdrawals,
   match queue !! id with Some _ => queue | None => <[id := claim_payload stored]> queue end,
   stored).

Fixpoint upsert_withdrawals
    (tables : gmap string AcceptedWithdrawalRecord.t * gmap string acceptedWithdrawalClaimPayload.t)
    (ws : list AcceptedWithdrawalRecord.t)
    : gmap string AcceptedWithdrawalRecord.t * gmap string acceptedWithdrawalClaimPayload.t
      * list AcceptedWithdrawalRecord.t :=
  match ws with
  | [] => (tables, [])
  | w :: ws =>
      let '(tables, stored) := upsertAcceptedWithdrawal tables w in
      let '(tables, rest) := upsert_withdrawals tables ws in
      (tables, stored :: rest)
  end.

Definition listAcceptedBatchesForReplay (d : DB) (accepted : list AcceptedBatchRecord.t)
    : list StoredBatch.t :=
  filter (λ b, StoredBatch.BatchID b ∈ AcceptedBatchRecord.BatchID <$> accepted) (batch_rows (base d)).

Definition lookupAcceptedWallets (d : DB) (balances : list AcceptedBalanceRecord.t) : gmap Z string :=
  filter (λ kv, kv.1 ∈ AcceptedBalanceRecord.AccountID <$> balances) (user_profiles d).

(** The replayed snapshot against the latest accepted batch. *)
Definition check_snapshot (snapshot : AcceptedReplaySnapshot.t) (latest : option AcceptedBatchRecord.t)
    : option string :=
  match latest with
  | None => None
  | Some l =>
      if negb (0 <? AcceptedBatchRecord.BatchID l) then None
      else if negb (AcceptedReplaySnapshot.BatchID snapshot =? AcceptedBatchRecord.BatchID l)
      then Some ("accepted replay batch mismatch: have " +:+ itoa (AcceptedReplaySnapshot.BatchID snapshot)
                 +:+ " want " +:+ itoa (AcceptedBatchRecord.BatchID l))
      else if negb (String.eqb (StateRoot (AcceptedReplaySnapshot.Roots snapshot))
                      (AcceptedBatchRecord.NextStateRoot l))
      then Some ("accepted replay state_root mismatch: have " +:+
                 StateRoot (AcceptedReplaySnapshot.Roots snapshot) +:+ " want " +:+
                 AcceptedBatchRecord.NextStateRoot l)
      else None
  end.

(** [None] of a tree cannot happen ([MerkleProps]); it is an error here. *)
Definition built {A} (r : option (result string A)) : result string A := default (Err "tree") r.

(** The transaction: either everything is written or nothing. *)
Definition materialize_tx (d : DB) (submissionID : string) : result string DB :=
  sub ← loadSubmissionByID d submissionID;
  if bool_decide (StoredSubmission.Status sub ≠ SubmissionStatusAccepted)
  then Err ("submission " +:+ TrimSpace submissionID +:+ " is not accepted")
  else
    batch ← loadBatchByID d (StoredSubmission.BatchID sub);
    let accepted := upsertAcceptedBatch (accepted_batches d) batch sub in
    ws ← ExtractAcceptedWithdrawals Keccak256 batch;
    let '(withdrawals, queue, stored) := upsert_withdrawals (accepted_withdrawals d, claim_queue d) ws in
    snapshot ← BuildAcceptedReplaySnapshot sha256 (listAcceptedBatchesForReplay d accepted);
    let latest := last accepted in
    match check_snapshot snapshot latest with
    | Some e => Err e
    | None =>
        let acceptedAt := default 0 (AcceptedBatchRecord.AcceptedAt <$> latest) in
        let stateRoot := default "" (AcceptedBatchRecord.NextStateRoot <$> latest) in
        let wallets := lookupAcceptedWallets d (AcceptedReplaySnapshot.Balances snapshot) in
        '(escapeRoot, escapeLeaves) ←
          built (BuildAcceptedEscapeCollateralSnapshot Keccak256 HexToAddress
                   (AcceptedReplaySnapshot.BatchID snapshot) stateRoot
                   (AcceptedReplaySnapshot.Balances snapshot) wallets);
        '(withdrawalRoot, withdrawalLeaves) ←
          built (BuildAcceptedWithdrawalMerkleTree Keccak256 (AcceptedReplaySnapshot.BatchID snapshot) stored);
        let escapeBatch := AcceptedEscapeCollateralRootRecord.BatchID escapeRoot in
        let withdrawalBatch := AcceptedWithdrawalRootRecord.BatchID withdrawalRoot in
        let rootRow old := AcceptedWithdrawalRootRecord.mk withdrawalBatch
          (AcceptedWithdrawalRootRecord.MerkleRoot withdrawalRoot)
          (AcceptedWithdrawalRootRecord.LeafCount withdrawalRoot) old acceptedAt in
        Ok (mkDB (base d) (submissions d) (frozen d) (user_profiles d) accepted withdrawals queue
              (Some snapshot)
              (upsert_by AcceptedEscapeCollateralRootRecord.BatchID escapeBatch
                 (EscapeRoot.inserted escapeRoot acceptedAt) (EscapeRoot.refreshed escapeRoot acceptedAt)
                 (escape_roots d))
              (replaceAcceptedEscapeLeaves (escape_leaf_rows d) escapeBatch escapeLeaves acceptedAt)
              (<[withdrawalBatch :=
                   rootRow (default acceptedAt (AcceptedWithdrawalRootRecord.CreatedAt <$>
                                                  withdrawal_roots d !! withdrawalBatch))]>
                 (withdrawal_roots d))
              (replaceAcceptedWithdrawalLeaves (withdrawal_leaf_rows d) withdrawalBatch withdrawalLeaves
                 acceptedAt))
    end.

Definition MaterializeAcceptedSubmission (d : DB) (submissionID : string) : DB * option string :=
  match materialize_tx d submissionID with Ok d => (d, None) | Err e => (d, Some e) end.

Fixpoint materialize_each (d : DB) (subs : list StoredSubmission.t) : DB * option string :=
  match subs with
  | [] => (d, None)
  | sub :: subs =>
      if bool_decide (StoredSubmission.Status sub ≠ SubmissionStatusAccepted) then materialize_each d subs
      else
        match MaterializeAcceptedSubmission d (StoredSubmission.SubmissionID sub) with
        | (d, Some e) => (d, Some e)
        | (d, None) => materialize_each d subs
        end
  end.

Definition MaterializeAcceptedSubmissions (d : DB) : DB * option string := materialize_each d (submissions d).

(** ** Preparing submissions *)

Context (artifacts : list StoredBatch.t → StoredBatch.t → result string Artifacts.t).
Context (insert_batch : StoredBatch.t → result string Z).

Definition canonicalBatchDataHash (batch : StoredBatch.t) : string :=
  EncodeToString (Keccak256 (StoredBatch.InputData batch)).

Definition defaultComponentRoot (root fallback : string) : string :=
  if String.eqb (TrimSpace root) "" then fallback else root.
Definition defaultStateRoot (root : string) : string := defaultComponentRoot root (ZeroStateRoot sha256).

Definition ZeroConservationHash : string := hashStrings sha256 ["shadow"; "conservation"; "empty"].

Definition buildBatchConservationHash (batch : StoredBatch.t) : string :=
  match DecodeBatchInput (StoredBatch.InputData batch) with
  | Err _ => ZeroConservationHash
  | Ok input =>
      match BuildConservationRecord Keccak256 (StoredBatch.BatchID batch) (BatchInput.Entries input) with
      | Err _ => ZeroConservationHash
      | Ok record => ConservationRecord.ConservationHash record
      end
  end.

Definition buildSubmissionBatchSummary (batch : StoredBatch.t) : SubmissionBatchSummary.t :=
  SubmissionBatchSummary.mk (StoredBatch.BatchID batch) (TrimSpace (StoredBatch.EncodingVersion batch))
    (StoredBatch.FirstSequence batch) (StoredBatch.LastSequence batch) (StoredBatch.EntryCount batch)
    (TrimSpace (StoredBatch.InputHash batch)) (canonicalBatchDataHash batch)
    (defaultStateRoot (StoredBatch.PrevStateRoot batch))
    (defaultComponentRoot (StoredBatch.BalancesRoot batch) (ZeroBalancesRoot sha256))
    (defaultComponentRoot (StoredBatch.OrdersRoot batch)
       (hashStrings sha256 ["shadow"; "orders"; ZeroNonceRoot sha256; ZeroOpenOrdersRoot sha256]))
    (defaultComponentRoot (StoredBatch.PositionsFundingRoot batch)
       (hashStrings sha256 ["shadow"; "positions_funding"; ZeroPositionsRoot sha256;
          ZeroMarketFundingRoot sha256; ZeroInsuranceRoot sha256]))
    (defaultComponentRoot (StoredBatch.WithdrawalsRoot batch) (ZeroWithdrawalsRoot sha256))
    (defaultStateRoot (StoredBatch.StateRoot batch)) (buildBatchConservationHash batch).

(** The blockers that are listed with the status are not read by the runtime. *)
Definition buildSubmissionStatus (authStatuses : list VerifierAcceptanceAuthStatus.t) : SubmissionStatus :=
  if forallb (λ a, String.eqb (VerifierAcceptanceAuthStatus.JoinStatus a) VerifierAuthJoinSatisfied) authStatuses
  then SubmissionStatusReady else SubmissionStatusBlockedAuth.

Definition BuildShadowBatchSubmissionBundle (history : list StoredBatch.t) (batch : StoredBatch.t)
    : result string ShadowBatchSubmissionBundle.t :=
  match artifacts history batch with
  | Err e => Err e
  | Ok a =>
      Ok (ShadowBatchSubmissionBundle.mk (buildSubmissionStatus (Artifacts.AuthStatuses a))
            (buildSubmissionBatchSummary batch) (Artifacts.AuthProofHash a) (Artifacts.VerifierGateHash a)
            (Artifacts.RecordCalldata a) (Artifacts.PublishCalldata a) (Artifacts.AcceptCalldata a))
  end.

Inductive PrepareError := ErrNoPendingSubmission | ErrPrepare (e : string).

(** The first batch without a submission, with the batches before it. *)
Fixpoint first_unsubmitted (submitted : list Z) (before batches : list StoredBatch.t)
    : option (list StoredBatch.t * StoredBatch.t) :=
  match batches with
  | [] => None
  | b :: batches =>
      if bool_decide (StoredBatch.BatchID b ∈ submitted)
      then first_unsubmitted submitted (before ++ [b]) batches
      else Some (before, b)
  end.

Definition materialize_error (e : MaterializeError) : PrepareError :=
  match e with
  | ErrNoPendingBatch => ErrNoPendingSubmission
  | ErrReplay e => ErrPrepare e
  | ErrInsert e => ErrPrepare e
  end.

Definition submit_bundle (d : DB) (history : list StoredBatch.t) (batch : StoredBatch.t)
    : DB * result string StoredSubmission.t :=
  match BuildShadowBatchSubmissionBundle history batch with
  | Err e => (d, Err e)
  | Ok bundle =>
      match upsertSubmission now sha256 (submissions d) (StoredBatch.BatchID batch) bundle with
      | Err e => (d, Err e)
      | Ok (rows, row) => (set_submissions d rows, Ok row)
      end
  end.

Definition PrepareNextSubmission (d : DB) (limit : Z) : DB * result PrepareError StoredSubmission.t :=
  let batches := batch_rows (base d) in
  let answer (x : DB * result string StoredSubmission.t) :=
    (x.1, match x.2 with Ok row => Ok row | Err e => Err (ErrPrepare e) end) in
  match first_unsubmitted (StoredSubmission.BatchID <$> submissions d) [] batches with
  | Some (history, batch) => answer (submit_bundle d history batch)
  | None =>
      match MaterializeNextBatch sha256 insert_batch (base d) limit with
      | (b, Err e) => (set_base d b, Err (materialize_error e))
      | (b, Ok batch) => answer (submit_bundle (set_base d b) batches batch)
      end
  end.

Definition ReprepareFailedSubmission (d : DB) (batchID : Z) : DB * result string StoredSubmission.t :=
  match row_of StoredSubmission.BatchID batchID (submissions d) with
  | None => (d, Err ("no submission found for batch " +:+ itoa batchID))
  | Some existing =>
      if bool_decide (StoredSubmission.Status existing ≠ SubmissionStatusFailed)
      then (d, Err ("submission for batch " +:+ itoa batchID +:+ " is " +:+
                    SubmissionStatus_string (StoredSubmission.Status existing) +:+ ", not FAILED"))
      else
        match list_find (λ b, StoredBatch.BatchID b = batchID) (batch_rows (base d)) with
        | None => (d, Err ("batch " +:+ itoa batchID +:+ " not found in rollup_shadow_batches"))
        | Some (i, batch) =>
            match submit_bundle d (take i (batch_rows (base d))) batch with
            | (d, Err e) => (d, Err e)
            | (d, Ok _) =>
                let '(rows, r) := updateSubmissionRuntime (submissions d) ("rsub_" +:+ itoa batchID)
                                    (resumed now (resumeStatus existing)) in
                (set_submissions d rows, r)
            end
        end
  end.
End accept.
