(* ===== verification/VerifierBundle.v ===== *)
(** * Rollup: what a submission carries for the verifier

    [rollup/witness.go], [rollup/transition_witness.go], the hashes of
    [rollup/groth16_lane.go] and the rest of [rollup/verifier_contract.go] and
    [rollup/submission.go]: the public inputs of a batch, their Solidity export, the
    digests the verifier contract recomputes, the witness material of the transition,
    and the three packed calls.  [AbiPack] is [abi.Arguments.Pack] and [selector] the
    method identifiers (go-ethereum); [prove] is the Groth16 proof of a batch (gnark)
    as the bytes of its tuple, or the reason why there is none.  The texts that describe
    the exported schemas are left out. *)

From stdpp Require Import sorting.
From S2P Require Import Prelude Strings Shared Auth RollupJournal RollupState.
From S2P Require Import RollupReplay Merkle AcceptedSnapshot VerifierAuth RollupSubmission.

Local Open Scope Z_scope.

(** ** Data *)

Module ShadowBatchPublicInputs.
Record t := mk {
  EncodingVersion : string;
  BatchID : Z;
  FirstSequence : Z;
  LastSequence : Z;
  EntryCount : Z;
  BatchDataHash : string;
  PrevStateRoot : string;
  BalancesRoot : string;
  OrdersRoot : string;
  PositionsFundingRoot : string;
  WithdrawalsRoot : string;
  NextStateRoot : string;
  ConservationHash : string;
}.
End ShadowBatchPublicInputs.

Module L1BatchMetadata.
Record t := mk { BatchID : Z; BatchDataHash : string; PrevStateRoot : string; NextStateRoot : string }.
End L1BatchMetadata.

Module SolidityVerifierPublicInputs.
Record t := mk {
  BatchID : Z;
  FirstSequence : Z;
  LastSequence : Z;
  EntryCount : Z;
  BatchDataHash : string;
  PrevStateRoot : string;
  BalancesRoot : string;
  OrdersRoot : string;
  PositionsFundingRoot : string;
  WithdrawalsRoot : string;
  NextStateRoot : string;
  ConservationHash : string;
}.
End SolidityVerifierPublicInputs.

Module SolidityL1BatchMetadata.
Record t := mk { BatchID : Z; BatchDataHash : string; PrevStateRoot : string; NextStateRoot : string }.
End SolidityL1BatchMetadata.

Inductive SolidityAuthJoinStatus :=
| SolidityAuthJoinStatusUnspecified
| SolidityAuthJoinStatusJoined
| SolidityAuthJoinStatusMissingTradingKeyAuthorized
| SolidityAuthJoinStatusNonVerifierEligible.

Definition SolidityAuthJoinStatus_ordinal (s : SolidityAuthJoinStatus) : Z :=
  match s with
  | SolidityAuthJoinStatusUnspecified => 0
  | SolidityAuthJoinStatusJoined => 1
  | SolidityAuthJoinStatusMissingTradingKeyAuthorized => 2
  | SolidityAuthJoinStatusNonVerifierEligible => 3
  end.

Module VerifierAcceptanceSolidityCalldata.
Record t := mk {
  PublicInputs : SolidityVerifierPublicInputs.t;
  MetadataSubset : SolidityL1BatchMetadata.t;
  AuthStatuses : list SolidityAuthJoinStatus;
}.
End VerifierAcceptanceSolidityCalldata.

Module VerifierStateRootAcceptanceContract.
Record t := mk {
  PublicInputs : ShadowBatchPublicInputs.t;
  L1BatchMetadata_ : L1BatchMetadata.t;
  ReadyForAcceptance : bool;
  AuthStatuses : list VerifierAcceptanceAuthStatus.t;
  Calldata : VerifierAcceptanceSolidityCalldata.t;
}.
End VerifierStateRootAcceptanceContract.

Module StateTransitionWitnessMaterial.
Record t := mk {
  EntrySetHash : string;
  AcceptedBalancesHash : string;
  AcceptedPositionsHash : string;
  AcceptedPayoutsHash : string;
  AcceptedWithdrawalRootHash : string;
  AcceptedWithdrawalLeavesHash : string;
  EscapeCollateralRootHash : string;
  EscapeCollateralLeavesHash : string;
}.
End StateTransitionWitnessMaterial.

Module SolidityVerifierGateContext.
Record t := mk {
  BatchEncodingHash : string;
  PublicInputs : SolidityVerifierPublicInputs.t;
  AuthProofHash : string;
  VerifierGateHash : string;
}.
End SolidityVerifierGateContext.

(** The values that are packed. *)
Inductive AbiValue :=
| AbiUint64 (z : Z)
| AbiBytes32 (bytes : string)
| AbiBytes (bytes : string)
| AbiUint8s (values : list Z)
| AbiTuple (fields : list AbiValue).

(** ** Solidity export *)

(** The 32 bytes. *)
Definition solidityHashFromBytes32 (value field : string) : result string string :=
  normalized ← solidityBytes32 value field;
  match DecodeString (TrimPrefix0x normalized) with Some bytes => Ok bytes | None => Err "hex" end.

Definition solidityUint64FromInt64 (value : Z) (field : string) : result string Z :=
  if value <? 0 then Err (field +:+ " must be non-negative for Solidity uint64 export") else Ok (wrapu64 value).

Definition solidityAuthJoinStatus (joinStatus : string) : result string SolidityAuthJoinStatus :=
  let status := TrimSpace joinStatus in
  if String.eqb status VerifierAuthJoinSatisfied then Ok SolidityAuthJoinStatusJoined
  else if String.eqb status VerifierAuthJoinMissing then Ok SolidityAuthJoinStatusMissingTradingKeyAuthorized
  else if String.eqb status VerifierAuthJoinIneligible then Ok SolidityAuthJoinStatusNonVerifierEligible
  else Err "unsupported auth join status for Solidity export".

Fixpoint buildSolidityAuthStatuses (authStatuses : list VerifierAcceptanceAuthStatus.t)
    : result string (list SolidityAuthJoinStatus) :=
  match authStatuses with
  | [] => Ok []
  | a :: authStatuses =>
      status ← solidityAuthJoinStatus (VerifierAcceptanceAuthStatus.JoinStatus a);
      rest ← buildSolidityAuthStatuses authStatuses;
      Ok (status :: rest)
  end.

Definition buildSolidityL1BatchMetadata (metadata : L1BatchMetadata.t) : result string SolidityL1BatchMetadata.t :=
  batchID ← solidityUint64FromInt64 (L1BatchMetadata.BatchID metadata) "l1_batch_metadata.batch_id";
  batchDataHash ← solidityBytes32 (L1BatchMetadata.BatchDataHash metadata) "l1_batch_metadata.batch_data_hash";
  prevStateRoot ← solidityBytes32 (L1BatchMetadata.PrevStateRoot metadata) "l1_batch_metadata.prev_state_root";
  nextStateRoot ← solidityBytes32 (L1BatchMetadata.NextStateRoot metadata) "l1_batch_metadata.next_state_root";
  Ok (SolidityL1BatchMetadata.mk batchID batchDataHash prevStateRoot nextStateRoot).

Section digests.
Context (sha256 Keccak256 : string → string).
Context (AbiPack : list AbiValue → result string string).

Definition Keccak256Hex (s : string) : string := hex_text (Keccak256 s).

Definition buildSolidityVerifierPublicInputs (p : ShadowBatchPublicInputs.t)
    : result string SolidityVerifierPublicInputs.t :=
  batchID ← solidityUint64FromInt64 (ShadowBatchPublicInputs.BatchID p) "public_inputs.batch_id";
  firstSequence ← solidityUint64FromInt64 (ShadowBatchPublicInputs.FirstSequence p) "public_inputs.first_sequence_no";
  lastSequence ← solidityUint64FromInt64 (ShadowBatchPublicInputs.LastSequence p) "public_inputs.last_sequence_no";
  entryCount ← solidityUint64FromInt64 (ShadowBatchPublicInputs.EntryCount p) "public_inputs.entry_count";
  batchDataHash ← solidityBytes32 (ShadowBatchPublicInputs.BatchDataHash p) "public_inputs.batch_data_hash";
  prevStateRoot ← solidityBytes32 (ShadowBatchPublicInputs.PrevStateRoot p) "public_inputs.prev_state_root";
  balancesRoot ← solidityBytes32 (ShadowBatchPublicInputs.BalancesRoot p) "public_inputs.balances_root";
  ordersRoot ← solidityBytes32 (ShadowBatchPublicInputs.OrdersRoot p) "public_inputs.orders_root";
  positionsFundingRoot ← solidityBytes32 (ShadowBatchPublicInputs.PositionsFundingRoot p)
                           "public_inputs.positions_funding_root";
  withdrawalsRoot ← solidityBytes32 (ShadowBatchPublicInputs.WithdrawalsRoot p) "public_inputs.withdrawals_root";
  nextStateRoot ← solidityBytes32 (ShadowBatchPublicInputs.NextStateRoot p) "public_inputs.next_state_root";
  let conservationHash := ShadowBatchPublicInputs.ConservationHash p in
  conservationHash ← solidityBytes32
    (if String.eqb (TrimSpace conservationHash) "" then ZeroConservationHash sha256 else conservationHash)
    "public_inputs.conservation_hash";
  Ok (SolidityVerifierPublicInputs.mk batchID firstSequence lastSequence entryCount batchDataHash prevStateRoot
        balancesRoot ordersRoot positionsFundingRoot withdrawalsRoot nextStateRoot conservationHash).

Definition buildVerifierAcceptanceSolidityExport (publicInputs : ShadowBatchPublicInputs.t)
    (metadata : L1BatchMetadata.t) (authStatuses : list VerifierAcceptanceAuthStatus.t)
    : result string VerifierAcceptanceSolidityCalldata.t :=
  exportedPublicInputs ← buildSolidityVerifierPublicInputs publicInputs;
  exportedMetadata ← buildSolidityL1BatchMetadata metadata;
  exportedAuthStatuses ← buildSolidityAuthStatuses authStatuses;
  Ok (VerifierAcceptanceSolidityCalldata.mk exportedPublicInputs exportedMetadata exportedAuthStatuses).

(** [keccak256(abi.encode(authStatuses))]. *)
Definition buildVerifierAuthProofDigest (authStatuses : list SolidityAuthJoinStatus) : result string string :=
  packed ← AbiPack [AbiUint8s (SolidityAuthJoinStatus_ordinal <$> authStatuses)];
  Ok (Keccak256Hex packed).

(** The fields of the gate digest and of the context hash, in order. *)
Definition gate_fields (batchEncodingHash : string) (p : SolidityVerifierPublicInputs.t) (authProofHash ns : string)
    : result string (list AbiValue) :=
  batchDataHash ← solidityHashFromBytes32 (SolidityVerifierPublicInputs.BatchDataHash p) (ns +:+ "batch_data_hash");
  prevStateRoot ← solidityHashFromBytes32 (SolidityVerifierPublicInputs.PrevStateRoot p) (ns +:+ "prev_state_root");
  balancesRoot ← solidityHashFromBytes32 (SolidityVerifierPublicInputs.BalancesRoot p) (ns +:+ "balances_root");
  ordersRoot ← solidityHashFromBytes32 (SolidityVerifierPublicInputs.OrdersRoot p) (ns +:+ "orders_root");
  positionsFundingRoot ← solidityHashFromBytes32 (SolidityVerifierPublicInputs.PositionsFundingRoot p)
                           (ns +:+ "positions_funding_root");
  withdrawalsRoot ← solidityHashFromBytes32 (SolidityVerifierPublicInputs.WithdrawalsRoot p)
                      (ns +:+ "withdrawals_root");
  nextStateRoot ← solidityHashFromBytes32 (SolidityVerifierPublicInputs.NextStateRoot p) (ns +:+ "next_state_root");
  conservationHash ← solidityHashFromBytes32 (SolidityVerifierPublicInputs.ConservationHash p)
                       (ns +:+ "conservation_hash");
  authProof ← solidityHashFromBytes32 authProofHash "auth_proof_hash";
  Ok [AbiBytes32 batchEncodingHash; AbiUint64 (SolidityVerifierPublicInputs.BatchID p);
      AbiUint64 (SolidityVerifierPublicInputs.FirstSequence p);
      AbiUint64 (SolidityVerifierPublicInputs.LastSequence p);
      AbiUint64 (SolidityVerifierPublicInputs.EntryCount p); AbiBytes32 batchDataHash; AbiBytes32 prevStateRoot;
      AbiBytes32 balancesRoot; AbiBytes32 ordersRoot; AbiBytes32 positionsFundingRoot; AbiBytes32 withdrawalsRoot;
      AbiBytes32 nextStateRoot; AbiBytes32 conservationHash; AbiBytes32 authProof].

(** The context of the verifier: the encoding hash, the inputs and the two digests. *)
Definition buildVerifierGateDigestContract (publicInputs : SolidityVerifierPublicInputs.t) (authProofHash : string)
    : result string SolidityVerifierGateContext.t :=
  fields ← gate_fields (Keccak256 BatchEncodingVersion) publicInputs authProofHash "public_inputs.";
  packed ← AbiPack fields;
  Ok (SolidityVerifierGateContext.mk (Keccak256Hex BatchEncodingVersion) publicInputs authProofHash
        (Keccak256Hex packed)).

(** ** Hashes of the transition *)

Definition buildTransitionContextHash (context : SolidityVerifierGateContext.t) : result string string :=
  batchEncodingHash ← solidityHashFromBytes32 (SolidityVerifierGateContext.BatchEncodingHash context)
                        "context.batch_encoding_hash";
  fields ← gate_fields batchEncodingHash (SolidityVerifierGateContext.PublicInputs context)
             (SolidityVerifierGateContext.AuthProofHash context) "context.public_inputs.";
  packed ← AbiPack fields;
  Ok (hex_text (sha256 packed)).

Definition buildStateTransitionMaterialHash (m : StateTransitionWitnessMaterial.t) : result string string :=
  entrySetHash ← solidityHashFromBytes32 (StateTransitionWitnessMaterial.EntrySetHash m)
                   "witness_material.entry_set_hash";
  balances ← solidityHashFromBytes32 (StateTransitionWitnessMaterial.AcceptedBalancesHash m)
               "witness_material.accepted_balances_hash";
  positions ← solidityHashFromBytes32 (StateTransitionWitnessMaterial.AcceptedPositionsHash m)
                "witness_material.accepted_positions_hash";
  payouts ← solidityHashFromBytes32 (StateTransitionWitnessMaterial.AcceptedPayoutsHash m)
              "witness_material.accepted_payouts_hash";
  withdrawalRoot ← solidityHashFromBytes32 (StateTransitionWitnessMaterial.AcceptedWithdrawalRootHash m)
                     "witness_material.accepted_withdrawal_root_hash";
  withdrawalLeaves ← solidityHashFromBytes32 (StateTransitionWitnessMaterial.AcceptedWithdrawalLeavesHash m)
                       "witness_material.accepted_withdrawal_leaves_hash";
  escapeRoot ← solidityHashFromBytes32 (StateTransitionWitnessMaterial.EscapeCollateralRootHash m)
                 "witness_material.escape_collateral_root_hash";
  escapeLeaves ← solidityHashFromBytes32 (StateTransitionWitnessMaterial.EscapeCollateralLeavesHash m)
                   "witness_material.escape_collateral_leaves_hash";
  leftPacked ← AbiPack [AbiBytes32 entrySetHash; AbiBytes32 balances; AbiBytes32 positions; AbiBytes32 payouts];
  rightPacked ← AbiPack [AbiBytes32 withdrawalRoot; AbiBytes32 withdrawalLeaves; AbiBytes32 escapeRoot;
                         AbiBytes32 escapeLeaves];
  packed ← AbiPack [AbiBytes32 (sha256 leftPacked); AbiBytes32 (sha256 rightPacked)];
  Ok (hex_text (sha256 packed)).

Definition buildTransitionWitnessHash (context : SolidityVerifierGateContext.t)
    (m : StateTransitionWitnessMaterial.t) : result string string :=
  contextHash ← buildTransitionContextHash context;
  materialHash ← buildStateTransitionMaterialHash m;
  contextHash ← solidityHashFromBytes32 contextHash "witness_material.transition_context_hash";
  materialHash ← solidityHashFromBytes32 materialHash "witness_material.material_hash";
  packed ← AbiPack [AbiBytes32 contextHash; AbiBytes32 materialHash];
  Ok (hex_text (sha256 packed)).

Definition uint128Hex (raw : string) : string := hex_text raw.

Definition buildGroth16PublicInputsHex (batchEncodingHash authProofHash verifierGateHash witnessHash : string)
    : result string (list string) :=
  batchEncoding ← solidityHashFromBytes32 batchEncodingHash "groth16.batch_encoding_hash";
  authProof ← solidityHashFromBytes32 authProofHash "groth16.auth_proof_hash";
  verifierGate ← solidityHashFromBytes32 verifierGateHash "groth16.verifier_gate_hash";
  witness ← solidityHashFromBytes32 witnessHash "groth16.transition_witness_hash";
  let halves s := [uint128Hex (String.substring 0 16 s); uint128Hex (String.substring 16 16 s)] in
  Ok (halves batchEncoding ++ halves authProof ++ halves verifierGate ++ halves witness).
End digests.

(** ** Witness material *)

(** Sorted by account and asset; by account, market and outcome; by event; by leaf. *)
Definition balance_order (x y : AcceptedBalanceRecord.t) : Prop :=
  AcceptedBalanceRecord.AccountID x < AcceptedBalanceRecord.AccountID y ∨
  AcceptedBalanceRecord.AccountID x = AcceptedBalanceRecord.AccountID y ∧
  String.le (AcceptedBalanceRecord.Asset x) (AcceptedBalanceRecord.Asset y).
#[global] Instance balance_order_dec : RelDecision balance_order.
Proof. intros x y. unfold balance_order. apply _. Defined.

Definition position_order (x y : AcceptedPositionRecord.t) : Prop :=
  AcceptedPositionRecord.AccountID x < AcceptedPositionRecord.AccountID y ∨
  AcceptedPositionRecord.AccountID x = AcceptedPositionRecord.AccountID y ∧
  (AcceptedPositionRecord.MarketID x < AcceptedPositionRecord.MarketID y ∨
   AcceptedPositionRecord.MarketID x = AcceptedPositionRecord.MarketID y ∧
   String.le (AcceptedPositionRecord.Outcome x) (AcceptedPositionRecord.Outcome y)).
#[global] Instance position_order_dec : RelDecision position_order.
Proof. intros x y. unfold position_order. apply _. Defined.

Definition payout_order (x y : AcceptedPayoutRecord.t) : Prop :=
  String.le (AcceptedPayoutRecord.EventID x) (AcceptedPayoutRecord.EventID y).
#[global] Instance payout_order_dec : RelDecision payout_order.
Proof. intros x y. unfold payout_order. apply _. Defined.

Definition leaf_order (x y : AcceptedWithdrawalLeafRecord.t) : Prop :=
  AcceptedWithdrawalLeafRecord.LeafIndex x <= AcceptedWithdrawalLeafRecord.LeafIndex y.
#[global] Instance leaf_order_dec : RelDecision leaf_order.
Proof. intros x y. unfold leaf_order. apply _. Defined.

Definition escape_order (x y : AcceptedEscapeCollateralLeafRecord.t) : Prop :=
  AcceptedEscapeCollateralLeafRecord.LeafIndex x <= AcceptedEscapeCollateralLeafRecord.LeafIndex y.
#[global] Instance escape_order_dec : RelDecision escape_order.
Proof. intros x y. unfold escape_order. apply _. Defined.

Section material.
Context (sha256 Keccak256 HexToAddress : string → string).
Context `{!JSON balanceLeaf.t, !JSON nonceLeaf.t, !JSON orderLeaf.t}.
Context `{!JSON positionLeaf.t, !JSON marketFundingLeaf.t, !JSON withdrawalLeaf.t}.
Context `{!JSON NonceAdvancedPayload.t, !JSON TradingKeyAuthorizationWitness.t}.
Context `{!JSON OrderAcceptedPayload.t, !JSON OrderCancelledPayload.t, !JSON TradeMatchedPayload.t}.
Context `{!JSON DepositCreditedPayload.t, !JSON WithdrawalRequestedPayload.t}.
Context `{!JSON MarketResolvedPayload.t, !JSON SettlementPayoutPayload.t, !JSON BatchInput.t}.
Context `{!JSON Entry.t, !JSON AcceptedBalanceRecord.t, !JSON AcceptedPositionRecord.t, !JSON AcceptedPayoutRecord.t}.
Context `{!JSON AcceptedWithdrawalRootRecord.t, !JSON AcceptedWithdrawalLeafRecord.t}.
Context `{!JSON AcceptedEscapeCollateralRootRecord.t, !JSON AcceptedEscapeCollateralLeafRecord.t}.

Definition hashAcceptedItems {T} `{!JSON T} (namespace : string) (items : list T) (key : T → string) : string :=
  match items with
  | [] => hashStrings sha256 ["shadow"; "transition"; namespace; "empty"]
  | _ => hashStrings sha256 (["shadow"; "transition"; namespace] ++
           ((λ item, hashStruct sha256 ("shadow_transition_" +:+ namespace) (key item) item) <$> items))
  end.

Definition hashJournalEntries (entries : list Entry.t) : string :=
  match entries with
  | [] => hashStrings sha256 ["shadow"; "transition"; "entries"; "empty"]
  | _ => hashStrings sha256 (["shadow"; "transition"; "entries"] ++
           ((λ e, hashStruct sha256 "shadow_transition_entry" (itoa (Entry.Sequence e) +:+ ":" +:+ Entry.EntryID e) e)
              <$> entries))
  end.

Definition hashAcceptedBalances (items : list AcceptedBalanceRecord.t) : string :=
  hashAcceptedItems "balances" (merge_sort balance_order items)
    (λ i, itoa (AcceptedBalanceRecord.AccountID i) +:+ ":" +:+ AcceptedBalanceRecord.Asset i).
Definition hashAcceptedPositions (items : list AcceptedPositionRecord.t) : string :=
  hashAcceptedItems "positions" (merge_sort position_order items)
    (λ i, itoa (AcceptedPositionRecord.AccountID i) +:+ ":" +:+ itoa (AcceptedPositionRecord.MarketID i) +:+ ":" +:+
          AcceptedPositionRecord.Outcome i).
Definition hashAcceptedPayouts (items : list AcceptedPayoutRecord.t) : string :=
  hashAcceptedItems "payouts" (merge_sort payout_order items) AcceptedPayoutRecord.EventID.
Definition hashAcceptedWithdrawalRoot (item : AcceptedWithdrawalRootRecord.t) : string :=
  hashStrings sha256 ["shadow"; "transition"; "withdrawal_root";
    hashStruct sha256 "shadow_transition_withdrawal_root" (itoa (AcceptedWithdrawalRootRecord.BatchID item)) item].
Definition hashAcceptedWithdrawalLeaves (items : list AcceptedWithdrawalLeafRecord.t) : string :=
  hashAcceptedItems "withdrawal_leaves" (merge_sort leaf_order items)
    (λ i, itoa (AcceptedWithdrawalLeafRecord.LeafIndex i) +:+ ":" +:+ AcceptedWithdrawalLeafRecord.ClaimID i).
Definition hashAcceptedEscapeRoot (item : AcceptedEscapeCollateralRootRecord.t) : string :=
  hashStrings sha256 ["shadow"; "transition"; "escape_root";
    hashStruct sha256 "shadow_transition_escape_root" (itoa (AcceptedEscapeCollateralRootRecord.BatchID item)) item].
Definition hashAcceptedEscapeLeaves (items : list AcceptedEscapeCollateralLeafRecord.t) : string :=
  hashAcceptedItems "escape_leaves" (merge_sort escape_order items)
    (λ i, itoa (AcceptedEscapeCollateralLeafRecord.LeafIndex i) +:+ ":" +:+
          AcceptedEscapeCollateralLeafRecord.ClaimID i).

(** The replay without the checks of the accepted one. *)
Fixpoint transition_batches (s : shadowState) (t : Tally) (batches : list StoredBatch.t)
    : result string (shadowState * Tally) :=
  match batches with
  | [] => Ok (s, t)
  | batch :: batches =>
      input ← DecodeBatchInput (StoredBatch.InputData batch);
      '(s, t) ← snapshot_entries (StoredBatch.BatchID batch) s t (BatchInput.Entries input);
      transition_batches s t batches
  end.

Definition buildTransitionAcceptedReplaySnapshot (batches : list StoredBatch.t)
    : result string AcceptedReplaySnapshot.t :=
  '(s, t) ← transition_batches emptyShadow (mkTally [] ∅ ∅) batches;
  let latestBatchID := default 0 (StoredBatch.BatchID <$> last batches) in
  Ok (AcceptedReplaySnapshot.mk latestBatchID (roots sha256 s) (exportAcceptedBalances latestBatchID (balances s))
        (exportAcceptedPositions latestBatchID (positions s) (settledByPosition t))
        (exportAcceptedPayouts (payoutOrder t) (payoutByEventID t))).

(** [map[accountID] = wallet] for the entries that name a wallet; a later one wins. *)
Definition mirror_entry (e : Entry.t) (m : gmap Z string) : result string (gmap Z string) :=
  let kind := Entry.EntryType e in
  if String.eqb kind EntryTypeTradingKeyAuthorized then
    match Unmarshal (Entry.Payload e) with
    | None => Err "json"
    | Some w => Ok (<[TradingKeyAuthorizationWitness.AccountID w := TradingKeyAuthorizationWitness.WalletAddress w]> m)
    end
  else if String.eqb kind EntryTypeDepositCredited then
    match Unmarshal (Entry.Payload e) with
    | None => Err "json"
    | Some p => Ok (<[DepositCreditedPayload.AccountID p := DepositCreditedPayload.WalletAddress p]> m)
    end
  else if String.eqb kind EntryTypeWithdrawalRequested then
    match Unmarshal (Entry.Payload e) with
    | None => Err "json"
    | Some p => Ok (<[WithdrawalRequestedPayload.AccountID p := WithdrawalRequestedPayload.WalletAddress p]> m)
    end
  else if String.eqb kind EntryTypeNonceAdvanced then
    match Unmarshal (Entry.Payload e) with
    | None => Err "json"
    | Some p =>
        match NonceAdvancedPayload.OrderAuthorization p with
        | None => Ok m
        | Some w => Ok (<[NonceAdvancedPayload.AccountID p := OrderAuthorizationWitness.WalletAddress w]> m)
        end
    end
  else Ok m.

Fixpoint mirror_entries (es : list Entry.t) (m : gmap Z string) : result string (gmap Z string) :=
  match es with
  | [] => Ok m
  | e :: es => m ← mirror_entry e m; mirror_entries es m
  end.

Fixpoint mirror_batches (batches : list StoredBatch.t) (m : gmap Z string) : result string (gmap Z string) :=
  match batches with
  | [] => Ok m
  | batch :: batches =>
      input ← DecodeBatchInput (StoredBatch.InputData batch);
      m ← mirror_entries (BatchInput.Entries input) m;
      mirror_batches batches m
  end.

Definition buildWitnessWalletMirror (batches : list StoredBatch.t) : result string (gmap Z string) :=
  mirror_batches batches ∅.

Definition BuildStateTransitionWitnessMaterial (history : list StoredBatch.t) (batch : StoredBatch.t)
    : result string StateTransitionWitnessMaterial.t :=
  input ← DecodeBatchInput (StoredBatch.InputData batch);
  let replayBatches := history ++ [batch] in
  snapshot ← buildTransitionAcceptedReplaySnapshot replayBatches;
  walletByAccount ← buildWitnessWalletMirror replayBatches;
  '(escapeRoot, escapeLeaves) ←
    built (BuildAcceptedEscapeCollateralSnapshot Keccak256 HexToAddress (AcceptedReplaySnapshot.BatchID snapshot)
             (defaultStateRoot sha256 (StoredBatch.StateRoot batch)) (AcceptedReplaySnapshot.Balances snapshot)
             walletByAccount);
  withdrawals ← ExtractAcceptedWithdrawals Keccak256 batch;
  '(withdrawalRoot, withdrawalLeaves) ←
    built (BuildAcceptedWithdrawalMerkleTree Keccak256 (StoredBatch.BatchID batch) withdrawals);
  Ok (StateTransitionWitnessMaterial.mk (hashJournalEntries (BatchInput.Entries input))
        (hashAcceptedBalances (AcceptedReplaySnapshot.Balances snapshot))
        (hashAcceptedPositions (AcceptedReplaySnapshot.Positions snapshot))
        (hashAcceptedPayouts (AcceptedReplaySnapshot.Payouts snapshot)) (hashAcceptedWithdrawalRoot withdrawalRoot)
        (hashAcceptedWithdrawalLeaves withdrawalLeaves) (hashAcceptedEscapeRoot escapeRoot)
        (hashAcceptedEscapeLeaves escapeLeaves)).

(** ** The public inputs and the acceptance contract *)

Definition BuildShadowBatchPublicInputs (batch : StoredBatch.t) : ShadowBatchPublicInputs.t :=
  let encodingVersion := TrimSpace (StoredBatch.EncodingVersion batch) in
  ShadowBatchPublicInputs.mk (if String.eqb encodingVersion "" then BatchEncodingVersion else encodingVersion)
    (StoredBatch.BatchID batch) (StoredBatch.FirstSequence batch) (StoredBatch.LastSequence batch)
    (StoredBatch.EntryCount batch) (canonicalBatchDataHash Keccak256 batch)
    (defaultStateRoot sha256 (StoredBatch.PrevStateRoot batch))
    (defaultComponentRoot (StoredBatch.BalancesRoot batch) (ZeroBalancesRoot sha256))
    (defaultComponentRoot (StoredBatch.OrdersRoot batch)
       (hashStrings sha256 ["shadow"; "orders"; ZeroNonceRoot sha256; ZeroOpenOrdersRoot sha256]))
    (defaultComponentRoot (StoredBatch.PositionsFundingRoot batch)
       (hashStrings sha256 ["shadow"; "positions_funding"; ZeroPositionsRoot sha256;
          ZeroMarketFundingRoot sha256; ZeroInsuranceRoot sha256]))
    (defaultComponentRoot (StoredBatch.WithdrawalsRoot batch) (ZeroWithdrawalsRoot sha256))
    (defaultStateRoot sha256 (StoredBatch.StateRoot batch))
    (buildBatchConservationHash sha256 Keccak256 batch).

Definition BuildL1BatchMetadata (batch : StoredBatch.t) : L1BatchMetadata.t :=
  L1BatchMetadata.mk (StoredBatch.BatchID batch) (canonicalBatchDataHash Keccak256 batch)
    (defaultStateRoot sha256 (StoredBatch.PrevStateRoot batch))
    (defaultStateRoot sha256 (StoredBatch.StateRoot batch)).

Definition auth_status (n : VerifierNonceAuthorization.t) : VerifierAcceptanceAuthStatus.t :=
  VerifierAcceptanceAuthStatus.mk (VerifierNonceAuthorization.Sequence n) (VerifierNonceAuthorization.SourceRef n)
    (VerifierNonceAuthorization.JoinStatus n).

Definition BuildVerifierStateRootAcceptanceContract (history : list StoredBatch.t) (batch : StoredBatch.t)
    : result string VerifierStateRootAcceptanceContract.t :=
  authProof ← BuildVerifierAuthProofContract history batch;
  let publicInputs := BuildShadowBatchPublicInputs batch in
  let metadata := BuildL1BatchMetadata batch in
  let nonces := VerifierAuthProofContract.NonceAuthorizations authProof in
  let authStatuses := auth_status <$> nonces in
  let ready := VerifierAuthProofContract.ReadyForVerifier authProof &&
    forallb (λ n, String.eqb (VerifierNonceAuthorization.JoinStatus n) VerifierAuthJoinSatisfied) nonces in
  calldata ← buildVerifierAcceptanceSolidityExport sha256 publicInputs metadata authStatuses;
  Ok (VerifierStateRootAcceptanceContract.mk publicInputs metadata ready authStatuses calldata).
End material.

(** ** The proof and the packed calls *)

Definition FunnyRollupBatchVerifierProofSchemaVersion : string := "funny-rollup-proof-envelope-v1".
Definition FunnyRollupBatchVerifierPublicSignalsV1 : string := "funny-rollup-public-signals-v1".
Definition FunnyRollupBatchVerifierProofDataVersion : string := "funny-rollup-proof-data-v1".
Definition FunnyRollupBatchVerifierProofVersion : string :=
  "funny-rollup-proof-groth16-bn254-2x128-shadow-state-transition-context-material-pair-hash-v5".
Definition maxOnChainPublishBytes : Z := 120000.

Section calls.
Context (sha256 Keccak256 HexToAddress FromHex : string → string).
Context (AbiPack : list AbiValue → result string string) (selector : string → string).
Context (prove : SolidityVerifierGateContext.t → StateTransitionWitnessMaterial.t → result string string).
Context `{!JSON balanceLeaf.t, !JSON nonceLeaf.t, !JSON orderLeaf.t}.
Context `{!JSON positionLeaf.t, !JSON marketFundingLeaf.t, !JSON withdrawalLeaf.t}.
Context `{!JSON NonceAdvancedPayload.t, !JSON TradingKeyAuthorizationWitness.t}.
Context `{!JSON OrderAcceptedPayload.t, !JSON OrderCancelledPayload.t, !JSON TradeMatchedPayload.t}.
Context `{!JSON DepositCreditedPayload.t, !JSON WithdrawalRequestedPayload.t}.
Context `{!JSON MarketResolvedPayload.t, !JSON SettlementPayoutPayload.t, !JSON BatchInput.t}.
Context `{!JSON Entry.t, !JSON AcceptedBalanceRecord.t, !JSON AcceptedPositionRecord.t, !JSON AcceptedPayoutRecord.t}.
Context `{!JSON AcceptedWithdrawalRootRecord.t, !JSON AcceptedWithdrawalLeafRecord.t}.
Context `{!JSON AcceptedEscapeCollateralRootRecord.t, !JSON AcceptedEscapeCollateralLeafRecord.t}.

Definition decode_hash (value field : string) : result string string :=
  match hex_bytes value with Some bytes => Ok bytes | None => Err ("decode " +:+ field) end.

(** The witness digests, then the tuple of the proof. *)
Definition buildBatchSpecificGroth16Proof (context : SolidityVerifierGateContext.t)
    (m : StateTransitionWitnessMaterial.t) : result string (string * list string) :=
  witnessHash ← buildTransitionWitnessHash sha256 AbiPack context m;
  publicInputs ← buildGroth16PublicInputsHex (SolidityVerifierGateContext.BatchEncodingHash context)
    (SolidityVerifierGateContext.AuthProofHash context) (SolidityVerifierGateContext.VerifierGateHash context)
    witnessHash;
  rawTuple ← prove context m;
  if (String.length rawTuple <? 256)%nat then Err "expected at least 256-byte Groth16 proof tuple"
  else
    witness ← decode_hash witnessHash "transition witness hash";
    if negb (String.length witness =? 32)%nat then Err "transition witness hash must be 32 bytes"
    else
      entrySet ← decode_hash (StateTransitionWitnessMaterial.EntrySetHash m) "entry_set_hash";
      balances ← decode_hash (StateTransitionWitnessMaterial.AcceptedBalancesHash m) "accepted_balances_hash";
      positions ← decode_hash (StateTransitionWitnessMaterial.AcceptedPositionsHash m) "accepted_positions_hash";
      payouts ← decode_hash (StateTransitionWitnessMaterial.AcceptedPayoutsHash m) "accepted_payouts_hash";
      withdrawalRoot ← decode_hash (StateTransitionWitnessMaterial.AcceptedWithdrawalRootHash m)
                         "accepted_withdrawal_root_hash";
      withdrawalLeaves ← decode_hash (StateTransitionWitnessMaterial.AcceptedWithdrawalLeavesHash m)
                           "accepted_withdrawal_leaves_hash";
      escapeRoot ← decode_hash (StateTransitionWitnessMaterial.EscapeCollateralRootHash m)
                     "escape_collateral_root_hash";
      escapeLeaves ← decode_hash (StateTransitionWitnessMaterial.EscapeCollateralLeavesHash m)
                       "escape_collateral_leaves_hash";
      Ok (witness +:+ entrySet +:+ balances +:+ positions +:+ payouts +:+ withdrawalRoot +:+ withdrawalLeaves +:+
          escapeRoot +:+ escapeLeaves +:+ rawTuple, publicInputs).

(** The hexadecimal proof bytes. *)
Definition BuildFixedGroth16Artifact (context : SolidityVerifierGateContext.t)
    (m : StateTransitionWitnessMaterial.t) : result string (string * list string) :=
  '(proofBytes, publicInputs) ← buildBatchSpecificGroth16Proof context m;
  Ok (hex_text proofBytes, publicInputs).

(** The proof as it is passed to the contract. *)
Definition buildVerifierInterfaceSolidityExport (context : SolidityVerifierGateContext.t)
    (m : StateTransitionWitnessMaterial.t) : result string string :=
  batchEncodingHash ← solidityHashFromBytes32 (SolidityVerifierGateContext.BatchEncodingHash context)
                        "batch_encoding_hash";
  authProofHash ← solidityHashFromBytes32 (SolidityVerifierGateContext.AuthProofHash context) "auth_proof_hash";
  verifierGateHash ← solidityHashFromBytes32 (SolidityVerifierGateContext.VerifierGateHash context)
                       "verifier_gate_hash";
  '(proofBytes, publicInputs) ← BuildFixedGroth16Artifact context m;
  proofData ← AbiPack [AbiBytes32 (Keccak256 FunnyRollupBatchVerifierProofDataVersion);
                       AbiBytes32 (Keccak256 FunnyRollupBatchVerifierProofVersion);
                       AbiBytes32 batchEncodingHash; AbiBytes32 authProofHash; AbiBytes32 verifierGateHash;
                       AbiBytes (FromHex proofBytes)];
  proof ← AbiPack [AbiBytes32 (Keccak256 FunnyRollupBatchVerifierProofSchemaVersion);
                   AbiBytes32 (Keccak256 FunnyRollupBatchVerifierPublicSignalsV1);
                   AbiBytes32 batchEncodingHash; AbiBytes32 authProofHash; AbiBytes32 verifierGateHash;
                   AbiBytes proofData];
  if negb (length publicInputs =? 8)%nat then Err "expected 8 Groth16 public inputs"
  else Ok (hex_text proof).

Definition packed_call (method : string) (data : string) : string := hex_text (selector method +:+ data).

Definition buildRecordBatchMetadataCall (metadata : L1BatchMetadata.t) : result string string :=
  batchID ← solidityUint64FromInt64 (L1BatchMetadata.BatchID metadata) "l1_batch_metadata.batch_id";
  batchDataHash ← solidityHashFromBytes32 (L1BatchMetadata.BatchDataHash metadata) "l1_batch_metadata.batch_data_hash";
  prevStateRoot ← solidityHashFromBytes32 (L1BatchMetadata.PrevStateRoot metadata) "l1_batch_metadata.prev_state_root";
  nextStateRoot ← solidityHashFromBytes32 (L1BatchMetadata.NextStateRoot metadata) "l1_batch_metadata.next_state_root";
  data ← AbiPack [AbiUint64 batchID; AbiBytes32 batchDataHash; AbiBytes32 prevStateRoot; AbiBytes32 nextStateRoot];
  Ok (packed_call "recordBatchMetadata" data).

Definition buildPublishByOperatorCall (batchID : Z) (batchData : string) : result string string :=
  data ← AbiPack [AbiUint64 batchID; AbiBytes32 (Keccak256 batchData)];
  Ok (packed_call "publishBatchDataByOperator" data).

Definition buildPublishBatchDataCall (batch : StoredBatch.t) : result string string :=
  batchID ← solidityUint64FromInt64 (StoredBatch.BatchID batch) "batch.batch_id";
  let batchData := StoredBatch.InputData batch in
  if maxOnChainPublishBytes <? Z.of_nat (String.length batchData) then buildPublishByOperatorCall batchID batchData
  else
    data ← AbiPack [AbiUint64 batchID; AbiBytes batchData];
    Ok (packed_call "publishBatchData" data).

Definition buildSubmissionPublicInputsCall (p : SolidityVerifierPublicInputs.t) : result string AbiValue :=
  batchDataHash ← solidityHashFromBytes32 (SolidityVerifierPublicInputs.BatchDataHash p) "public_inputs.batch_data_hash";
  prevStateRoot ← solidityHashFromBytes32 (SolidityVerifierPublicInputs.PrevStateRoot p) "public_inputs.prev_state_root";
  balancesRoot ← solidityHashFromBytes32 (SolidityVerifierPublicInputs.BalancesRoot p) "public_inputs.balances_root";
  ordersRoot ← solidityHashFromBytes32 (SolidityVerifierPublicInputs.OrdersRoot p) "public_inputs.orders_root";
  positionsFundingRoot ← solidityHashFromBytes32 (SolidityVerifierPublicInputs.PositionsFundingRoot p)
                           "public_inputs.positions_funding_root";
  withdrawalsRoot ← solidityHashFromBytes32 (SolidityVerifierPublicInputs.WithdrawalsRoot p)
                      "public_inputs.withdrawals_root";
  nextStateRoot ← solidityHashFromBytes32 (SolidityVerifierPublicInputs.NextStateRoot p) "public_inputs.next_state_root";
  conservationHash ← solidityHashFromBytes32 (SolidityVerifierPublicInputs.ConservationHash p)
                       "public_inputs.conservation_hash";
  Ok (AbiTuple [AbiUint64 (SolidityVerifierPublicInputs.BatchID p);
        AbiUint64 (SolidityVerifierPublicInputs.FirstSequence p); AbiUint64 (SolidityVerifierPublicInputs.LastSequence p);
        AbiUint64 (SolidityVerifierPublicInputs.EntryCount p); AbiBytes32 batchDataHash; AbiBytes32 prevStateRoot;
        AbiBytes32 balancesRoot; AbiBytes32 ordersRoot; AbiBytes32 positionsFundingRoot; AbiBytes32 withdrawalsRoot;
        AbiBytes32 nextStateRoot; AbiBytes32 conservationHash]).

Definition buildSubmissionMetadataSubsetCall (m : SolidityL1BatchMetadata.t) : result string AbiValue :=
  batchDataHash ← solidityHashFromBytes32 (SolidityL1BatchMetadata.BatchDataHash m) "metadata_subset.batch_data_hash";
  prevStateRoot ← solidityHashFromBytes32 (SolidityL1BatchMetadata.PrevStateRoot m) "metadata_subset.prev_state_root";
  nextStateRoot ← solidityHashFromBytes32 (SolidityL1BatchMetadata.NextStateRoot m) "metadata_subset.next_state_root";
  Ok (AbiTuple [AbiUint64 (SolidityL1BatchMetadata.BatchID m); AbiBytes32 batchDataHash; AbiBytes32 prevStateRoot;
        AbiBytes32 nextStateRoot]).

Definition buildAcceptVerifiedBatchCall (calldata : VerifierAcceptanceSolidityCalldata.t) (verifierProof : string)
    : result string string :=
  publicInputs ← buildSubmissionPublicInputsCall (VerifierAcceptanceSolidityCalldata.PublicInputs calldata);
  metadataSubset ← buildSubmissionMetadataSubsetCall (VerifierAcceptanceSolidityCalldata.MetadataSubset calldata);
  data ← AbiPack [publicInputs; metadataSubset;
    AbiUint8s (SolidityAuthJoinStatus_ordinal <$> VerifierAcceptanceSolidityCalldata.AuthStatuses calldata);
    AbiBytes (FromHex (TrimSpace verifierProof))];
  Ok (packed_call "acceptVerifiedBatch" data).

(** [BuildVerifierArtifactBundle] by what a submission keeps of it: the statuses, the
    two digests, the calldata and the proof. *)
Definition BuildVerifierArtifactBundle (history : list StoredBatch.t) (batch : StoredBatch.t)
    : result string (VerifierStateRootAcceptanceContract.t * SolidityVerifierGateContext.t * string) :=
  contract ← BuildVerifierStateRootAcceptanceContract sha256 Keccak256 history batch;
  let calldata := VerifierStateRootAcceptanceContract.Calldata contract in
  authProofHash ← buildVerifierAuthProofDigest Keccak256 AbiPack
                    (VerifierAcceptanceSolidityCalldata.AuthStatuses calldata);
  gate ← buildVerifierGateDigestContract Keccak256 AbiPack (VerifierAcceptanceSolidityCalldata.PublicInputs calldata)
           authProofHash;
  material ← BuildStateTransitionWitnessMaterial sha256 Keccak256 HexToAddress history batch;
  proof ← buildVerifierInterfaceSolidityExport gate material;
  Ok (contract, gate, proof).

(** What [BuildShadowBatchSubmissionBundle] builds around the batch summary. *)
Definition verifierArtifacts (history : list StoredBatch.t) (batch : StoredBatch.t) : result string Artifacts.t :=
  _ ← DecodeBatchInput (StoredBatch.InputData batch);
  '(contract, gate, proof) ← BuildVerifierArtifactBundle history batch;
  record ← buildRecordBatchMetadataCall (VerifierStateRootAcceptanceContract.L1BatchMetadata_ contract);
  publish ← buildPublishBatchDataCall batch;
  accept ← buildAcceptVerifiedBatchCall (VerifierStateRootAcceptanceContract.Calldata contract) proof;
  Ok (Artifacts.mk (VerifierStateRootAcceptanceContract.AuthStatuses contract)
        (SolidityVerifierGateContext.AuthProofHash gate) (SolidityVerifierGateContext.VerifierGateHash gate)
        record publish accept).
End calls.
