(* ===== verification/VerifierBundleProps.v ===== *)
(** * Rollup: what a submission commits to

    A bundle that is ready holds only authorized orders, the digest the verifier
    contract recomputes determines the public inputs and the statuses it was built
    from, and the state a proof is made for is the state the read models serve. *)

From stdpp Require Import sorting.
From Stdlib Require Import Ascii.
From S2P Require Import Prelude Strings Shared Auth AuthProps RollupJournal RollupState RollupProps.
From S2P Require Import RollupReplay RollupRoots Merkle AcceptedSnapshot AcceptedProps.
From S2P Require Import VerifierAuth VerifierAuthProps RollupSubmission VerifierBundle.

Local Open Scope Z_scope.

(** ** Hexadecimal words *)

Lemma fromHexChar_lower a n : fromHexChar a = Some n → lower_byte a = hex_digit n ∧ (n < 16)%N.
Proof. destruct a as [[] [] [] [] [] [] [] []]; by intros [= <-]. Qed.

Lemma hex_byte_inv hi lo : (hi < 16)%N → (lo < 16)%N →
  N_of_ascii (ascii_of_N (hi * 16 + lo)) = (hi * 16 + lo)%N.
Proof. intros ??. apply N_ascii_embedding. lia. Qed.

Lemma DecodeString_inv n s b :
  (String.length s <= n)%nat → DecodeString s = Some b → ToLower s = EncodeToString b.
Proof.
  revert s b. induction n as [|n IH]; intros [|x [|y s]] b Hn; cbn [String.length] in Hn; try lia;
    cbn [DecodeString]; [by intros [= <-]..|done|].
  destruct (fromHexChar x) as [hi|] eqn:Ex; [|done]. destruct (fromHexChar y) as [lo|] eqn:Ey; [|done]. simpl.
  destruct (DecodeString s) as [r|] eqn:Es; [|done]. simpl. intros [= <-].
  apply fromHexChar_lower in Ex as [Ex ?], Ey as [Ey ?]. cbn [EncodeToString]. rewrite hex_byte_inv by done.
  rewrite N.div_add_l, N.div_small, N.add_0_r by lia.
  replace ((hi * 16 + lo) mod 16)%N with lo by (rewrite N.add_comm, N.Div0.mod_add, N.mod_small; lia).
  unfold ToLower in *. cbn [string_map]. rewrite Ex, Ey, (IH s r); [done|lia|done].
Qed.

Lemma lower_TrimPrefix0x s : ToLower s = s → ToLower (TrimPrefix0x s) = TrimPrefix0x s.
Proof.
  destruct s as [|a [|b s]]; try done. unfold TrimPrefix0x. destruct (_ && _); [|done].
  unfold ToLower. cbn [string_map]. by intros [= _ _ ->].
Qed.

Lemma ToLower_Encode b : ToLower (EncodeToString b) = EncodeToString b.
Proof.
  induction b as [|a b IH]; [done|]. unfold ToLower in *. cbn [EncodeToString string_map]. rewrite IH.
  by destruct a as [[] [] [] [] [] [] [] []].
Qed.

(** A Solidity word is the lower-case text of its 32 bytes. *)
Lemma solidityBytes32_word value field t :
  solidityBytes32 value field = Ok t → ∃ b, t = hex_text b ∧ String.length b = 32%nat.
Proof.
  unfold solidityBytes32. cbv zeta. set (n := TrimPrefix0x (ToLower (TrimSpace value))).
  destruct (Nat.eqb_spec (String.length n) 64) as [Hl|]; cbn [negb]; [|done].
  destruct (DecodeString n) as [b|] eqn:E; [|done]. intros [= <-]. exists b.
  apply (DecodeString_inv _ _ _ (le_n _)) in E.
  assert (ToLower n = n) as Hn by (apply lower_TrimPrefix0x, ToLower_idem). rewrite Hn in E.
  split; [by rewrite E|]. rewrite E, length_EncodeToString in Hl. lia.
Qed.

Lemma solidityHashFromBytes32_word b field :
  String.length b = 32%nat → solidityHashFromBytes32 (hex_text b) field = Ok b.
Proof.
  intros Hb. unfold solidityHashFromBytes32, solidityBytes32. cbv zeta.
  assert (TrimPrefix0x (ToLower (TrimSpace (hex_text b))) = EncodeToString b) as ->.
  { rewrite TrimSpace_no_space by (unfold hex_text; by rewrite no_space_append, no_space_hex).
    change (ToLower (hex_text b)) with ("0x" +:+ ToLower (EncodeToString b)). by rewrite ToLower_Encode. }
  rewrite length_EncodeToString, Hb, DecodeString_Encode. change (2 * 32 =? 64)%nat with true. cbn [negb].
  apply result_bind_Ok. exists ("0x" +:+ EncodeToString b). split; [done|].
  change (TrimPrefix0x ("0x" +:+ EncodeToString b)) with (EncodeToString b). by rewrite DecodeString_Encode.
Qed.

(** ** The packed words *)

(** [abi.encode] of [uint64] and [bytes32] arguments, which are one word each, and of one
    [uint8[]] argument determines the arguments. *)
Inductive same_static : AbiValue → AbiValue → Prop :=
| same_uint64 x y : uint64 x → uint64 y → same_static (AbiUint64 x) (AbiUint64 y)
| same_bytes32 x y : String.length x = 32%nat → String.length y = 32%nat → same_static (AbiBytes32 x) (AbiBytes32 y).

Definition small_uint8s (xs : list Z) : Prop := Forall (λ x, 0 <= x < 256) xs.

Record abi_injective (AbiPack : list AbiValue → result string string) : Prop := {
  abi_static xs ys bytes :
    Forall2 same_static xs ys → AbiPack xs = Ok bytes → AbiPack ys = Ok bytes → xs = ys;
  abi_uint8s xs ys bytes :
    small_uint8s xs → small_uint8s ys →
    AbiPack [AbiUint8s xs] = Ok bytes → AbiPack [AbiUint8s ys] = Ok bytes → xs = ys;
}.

Lemma ordinal_inj x y : SolidityAuthJoinStatus_ordinal x = SolidityAuthJoinStatus_ordinal y → x = y.
Proof. by destruct x, y. Qed.
Lemma ordinals_small (xs : list SolidityAuthJoinStatus) : small_uint8s (SolidityAuthJoinStatus_ordinal <$> xs).
Proof. apply Forall_fmap, Forall_true. intros []; simpl; lia. Qed.
Lemma ordinals_inj (xs ys : list SolidityAuthJoinStatus) :
  SolidityAuthJoinStatus_ordinal <$> xs = SolidityAuthJoinStatus_ordinal <$> ys → xs = ys.
Proof. apply list_fmap_eq_inj. intros ??. apply ordinal_inj. Qed.

(** Words that are exported: numbers of 64 bits, roots of 32 bytes. *)
Definition word (t : string) : Prop := ∃ b, t = hex_text b ∧ String.length b = 32%nat.

Record words (p : SolidityVerifierPublicInputs.t) : Prop := {
  w_batch : uint64 (SolidityVerifierPublicInputs.BatchID p);
  w_first : uint64 (SolidityVerifierPublicInputs.FirstSequence p);
  w_last : uint64 (SolidityVerifierPublicInputs.LastSequence p);
  w_count : uint64 (SolidityVerifierPublicInputs.EntryCount p);
  w_data : word (SolidityVerifierPublicInputs.BatchDataHash p);
  w_prev : word (SolidityVerifierPublicInputs.PrevStateRoot p);
  w_balances : word (SolidityVerifierPublicInputs.BalancesRoot p);
  w_orders : word (SolidityVerifierPublicInputs.OrdersRoot p);
  w_positions : word (SolidityVerifierPublicInputs.PositionsFundingRoot p);
  w_withdrawals : word (SolidityVerifierPublicInputs.WithdrawalsRoot p);
  w_next : word (SolidityVerifierPublicInputs.NextStateRoot p);
  w_conservation : word (SolidityVerifierPublicInputs.ConservationHash p);
}.

Lemma solidityUint64_range v f z : solidityUint64FromInt64 v f = Ok z → uint64 z.
Proof. unfold solidityUint64FromInt64. destruct (v <? 0); [done|]. intros [= <-]. apply wrapu64_range. Qed.

Lemma exported_words sha256 p s : buildSolidityVerifierPublicInputs sha256 p = Ok s → words s.
Proof.
  unfold buildSolidityVerifierPublicInputs. cbv zeta. intros H.
  repeat (apply result_bind_Ok in H as (? & ? & H)). injection H as <-.
  split; cbn; first [by eapply solidityUint64_range | by eapply solidityBytes32_word].
Qed.

(** The packed fields of well-formed inputs, and what they determine. *)
Lemma gate_fields_words h p a ns :
  words p → word a → String.length h = 32%nat → ∃ fields,
    gate_fields h p a ns = Ok fields ∧
    ∀ p' a' fields', words p' → word a' → gate_fields h p' a' ns = Ok fields' →
      Forall2 same_static fields fields' ∧ (fields = fields' → p = p' ∧ a = a').
Proof.
  destruct p. intros [] Ha Hh. cbn in *.
  repeat match goal with H : word _ |- _ => destruct H as (? & -> & ?) end.
  eexists. split.
  { unfold gate_fields. cbn [SolidityVerifierPublicInputs.BatchDataHash SolidityVerifierPublicInputs.PrevStateRoot
      SolidityVerifierPublicInputs.BalancesRoot SolidityVerifierPublicInputs.OrdersRoot
      SolidityVerifierPublicInputs.PositionsFundingRoot SolidityVerifierPublicInputs.WithdrawalsRoot
      SolidityVerifierPublicInputs.NextStateRoot SolidityVerifierPublicInputs.ConservationHash].
    rewrite !solidityHashFromBytes32_word by done. reflexivity. }
  intros [] a' fields' [] Ha'. cbn in *.
  repeat match goal with H : word _ |- _ => destruct H as (? & -> & ?) end.
  unfold gate_fields. cbn [SolidityVerifierPublicInputs.BatchDataHash SolidityVerifierPublicInputs.PrevStateRoot
      SolidityVerifierPublicInputs.BalancesRoot SolidityVerifierPublicInputs.OrdersRoot
      SolidityVerifierPublicInputs.PositionsFundingRoot SolidityVerifierPublicInputs.WithdrawalsRoot
      SolidityVerifierPublicInputs.NextStateRoot SolidityVerifierPublicInputs.ConservationHash].
  rewrite !solidityHashFromBytes32_word by done. intros [= <-]. split.
  - repeat first [apply Forall2_nil_2 | apply Forall2_cons_2; [first [by apply same_uint64|by apply same_bytes32]|]].
  - intros [=]. by subst.
Qed.

(** The digest the verifier contract checks determines what is accepted.  Two
    bundles with the same gate hash export the same public inputs (every root, count
    and sequence number) and the same authorization statuses, or the two texts that
    were hashed for the statuses or for the gate collide under Keccak-256. *)
Theorem gate_hash_binds (sha256 Keccak256 : string → string) (AbiPack : list AbiValue → result string string)
    q1 q2 p1 p2 statuses1 statuses2 a1 a2 g1 g2 :
  abi_injective AbiPack → (∀ s, String.length (Keccak256 s) = 32%nat) →
  buildSolidityVerifierPublicInputs sha256 q1 = Ok p1 → buildSolidityVerifierPublicInputs sha256 q2 = Ok p2 →
  buildVerifierAuthProofDigest Keccak256 AbiPack statuses1 = Ok a1 →
  buildVerifierAuthProofDigest Keccak256 AbiPack statuses2 = Ok a2 →
  buildVerifierGateDigestContract Keccak256 AbiPack p1 a1 = Ok g1 →
  buildVerifierGateDigestContract Keccak256 AbiPack p2 a2 = Ok g2 →
  SolidityVerifierGateContext.VerifierGateHash g1 = SolidityVerifierGateContext.VerifierGateHash g2 →
  (p1 = p2 ∧ statuses1 = statuses2) ∨
  ∃ v1 v2 x y, AbiPack v1 = Ok x ∧ AbiPack v2 = Ok y ∧ x ≠ y ∧ Keccak256 x = Keccak256 y ∧
    (v1 = [AbiUint8s (SolidityAuthJoinStatus_ordinal <$> statuses1)] ∧
     v2 = [AbiUint8s (SolidityAuthJoinStatus_ordinal <$> statuses2)] ∨
     gate_fields (Keccak256 BatchEncodingVersion) p1 a1 "public_inputs." = Ok v1 ∧
     gate_fields (Keccak256 BatchEncodingVersion) p2 a2 "public_inputs." = Ok v2).
Proof.
  intros [Hst H8] HK Hp1%exported_words Hp2%exported_words Ha1 Ha2 Hg1 Hg2 Heq.
  apply result_bind_Ok in Ha1 as (x1 & Ex1 & [= <-]), Ha2 as (x2 & Ex2 & [= <-]).
  apply result_bind_Ok in Hg1 as (f1 & Ef1 & (y1 & Ey1 & [= <-])%result_bind_Ok).
  apply result_bind_Ok in Hg2 as (f2 & Ef2 & (y2 & Ey2 & [= <-])%result_bind_Ok).
  cbn in Heq. unfold Keccak256Hex, hex_text in Heq. injection Heq as Heq%EncodeToString_inj.
  assert (∀ x, word (Keccak256Hex Keccak256 x)) as Hw by (intros x; by exists (Keccak256 x)).
  destruct (gate_fields_words _ _ _ "public_inputs." Hp1 (Hw x1) (HK BatchEncodingVersion)) as (f & Ef & Hf).
  rewrite Ef in Ef1. injection Ef1 as ->. destruct (Hf _ _ _ Hp2 (Hw x2) Ef2) as [Hsame Hdet].
  destruct (decide (y1 = y2)) as [<-|Hy]; [|right; exists f1, f2, y1, y2; auto 8].
  destruct (Hdet (Hst _ _ _ Hsame Ey1 Ey2)) as [-> Hk].
  unfold Keccak256Hex, hex_text in Hk. injection Hk as Hk%EncodeToString_inj.
  destruct (decide (x1 = x2)) as [<-|Hx].
  - left. split; [done|]. apply ordinals_inj. eapply H8; [apply ordinals_small..|done|done].
  - right. by eexists _, _, x1, x2; split_and!; [done..|left].
Qed.

(** ** Ready bundles *)

Section ready.
Context `{!JSON NonceAdvancedPayload.t, !JSON TradingKeyAuthorizationWitness.t, !JSON BatchInput.t}.

Definition satisfied (n : VerifierNonceAuthorization.t) : bool :=
  String.eqb (VerifierNonceAuthorization.JoinStatus n) VerifierAuthJoinSatisfied.

(** The flag says that every record is joined. *)
Definition flag_exact (j : Joined) : Prop := readyForVerifier j = forallb satisfied (nonceAuthorizations j).

Lemma join_entries_flag b es j j' : join_entries b es j = Ok j' → flag_exact j → flag_exact j'.
Proof.
  revert j. induction es as [|e es IH]; intros j; cbn [join_entries]; [by intros [= <-]|].
  destruct (String.eqb _ _).
  { destruct (verifierTradingKeyAuthorizationFromEntry b e); [|done]. intros H Hj. by eapply IH. }
  destruct (String.eqb _ _); [|apply IH]. destruct (Unmarshal _) as [p|]; [|done].
  destruct (buildVerifierNonceAuthorization b e p (index j)) as [[r ref]|]; [|done].
  intros H Hj. apply (IH _ H). unfold flag_exact in *. cbn [readyForVerifier nonceAuthorizations join_nonce].
  rewrite forallb_app, <-Hj. cbn [forallb]. unfold satisfied. rewrite andb_true_r.
  destruct (String.eqb _ _); [by rewrite andb_true_r|by rewrite andb_false_r].
Qed.

Lemma forallb_fmap {A B} (f : B → bool) (g : A → B) xs : forallb f (g <$> xs) = forallb (f ∘ g) xs.
Proof. induction xs as [|x xs IH]; [done|]. cbn. by rewrite IH. Qed.

Lemma forallb_Permutation {A} (f : A → bool) xs ys : xs ≡ₚ ys → forallb f xs = forallb f ys.
Proof. induction 1; cbn; try congruence. by rewrite !andb_assoc, (andb_comm (f y)). Qed.

Lemma auth_contract_ready history batch c :
  BuildVerifierAuthProofContract history batch = Ok c →
  VerifierAuthProofContract.ReadyForVerifier c =
    forallb satisfied (VerifierAuthProofContract.NonceAuthorizations c).
Proof.
  unfold BuildVerifierAuthProofContract. destruct (indexVerifierTradingKeyAuthorizations history); [|done].
  destruct (DecodeBatchInput _) as [input|]; [|done]. destruct (join_entries _ _ _) as [j|] eqn:Ej; [|done].
  intros [= <-]. cbn. rewrite (forallb_Permutation _ _ _ (merge_sort_Permutation _ _)).
  by apply (join_entries_flag _ _ _ _ Ej).
Qed.
End ready.


(** ** The state of the proof is the state that is served *)

Lemma snapshot_batches_transition (sha256 : string → string)
    `{!JSON balanceLeaf.t, !JSON nonceLeaf.t, !JSON orderLeaf.t}
    `{!JSON positionLeaf.t, !JSON marketFundingLeaf.t, !JSON withdrawalLeaf.t}
    `{!JSON NonceAdvancedPayload.t, !JSON TradingKeyAuthorizationWitness.t}
    `{!JSON OrderAcceptedPayload.t, !JSON OrderCancelledPayload.t, !JSON TradeMatchedPayload.t}
    `{!JSON DepositCreditedPayload.t, !JSON WithdrawalRequestedPayload.t}
    `{!JSON MarketResolvedPayload.t, !JSON SettlementPayoutPayload.t, !JSON BatchInput.t} s t bs s' r' t' :
  snapshot_batches sha256 s (roots sha256 s) t bs = Ok (s', r', t') →
  transition_batches s t bs = Ok (s', t') ∧ r' = roots sha256 s'.
Proof.
  revert s t. induction bs as [|b bs IH]; intros s t; cbn [snapshot_batches transition_batches]; [by intros [= <- <- <-]|].
  destruct (_ && _); [done|]. destruct (negb (String.eqb (StateRoot _) _)); [done|].
  destruct (DecodeBatchInput _) as [i|]; [|done]. cbn [mbind result_bind].
  destruct (snapshot_entries _ s t _) as [[s1 t1]|]; [|done]. destruct (_ && _); [done|]. apply IH.
Qed.

(** A proof is made for the state that is served.  Whenever the batches replay to
    the roots they are stored with, the replay of the transition witness, which checks
    none of the roots, ends in the same snapshot, and the hashes of balances,
    positions and payouts in the witness material are those of the rows the read
    models serve. *)
Theorem transition_material_agrees (sha256 Keccak256 HexToAddress : string → string)
    `{!JSON balanceLeaf.t, !JSON nonceLeaf.t, !JSON orderLeaf.t}
    `{!JSON positionLeaf.t, !JSON marketFundingLeaf.t, !JSON withdrawalLeaf.t}
    `{!JSON NonceAdvancedPayload.t, !JSON TradingKeyAuthorizationWitness.t}
    `{!JSON OrderAcceptedPayload.t, !JSON OrderCancelledPayload.t, !JSON TradeMatchedPayload.t}
    `{!JSON DepositCreditedPayload.t, !JSON WithdrawalRequestedPayload.t}
    `{!JSON MarketResolvedPayload.t, !JSON SettlementPayoutPayload.t, !JSON BatchInput.t}
    `{!JSON Entry.t, !JSON AcceptedBalanceRecord.t, !JSON AcceptedPositionRecord.t, !JSON AcceptedPayoutRecord.t}
    `{!JSON AcceptedWithdrawalRootRecord.t, !JSON AcceptedWithdrawalLeafRecord.t}
    `{!JSON AcceptedEscapeCollateralRootRecord.t, !JSON AcceptedEscapeCollateralLeafRecord.t}
    history batch snap m :
  BuildAcceptedReplaySnapshot sha256 (history ++ [batch]) = Ok snap →
  BuildStateTransitionWitnessMaterial sha256 Keccak256 HexToAddress history batch = Ok m →
  buildTransitionAcceptedReplaySnapshot sha256 (history ++ [batch]) = Ok snap ∧
  StateTransitionWitnessMaterial.AcceptedBalancesHash m =
    hashAcceptedBalances sha256 (AcceptedReplaySnapshot.Balances snap) ∧
  StateTransitionWitnessMaterial.AcceptedPositionsHash m =
    hashAcceptedPositions sha256 (AcceptedReplaySnapshot.Positions snap) ∧
  StateTransitionWitnessMaterial.AcceptedPayoutsHash m =
    hashAcceptedPayouts sha256 (AcceptedReplaySnapshot.Payouts snap).
Proof.
  intros Hs Hm.
  assert (buildTransitionAcceptedReplaySnapshot sha256 (history ++ [batch]) = Ok snap) as Ht.
  { revert Hs. unfold BuildAcceptedReplaySnapshot, buildTransitionAcceptedReplaySnapshot.
    destruct (snapshot_batches _ _ _ _ _) as [[[s r] t]|] eqn:E; [|done].
    apply snapshot_batches_transition in E as [-> ->]. done. }
  split; [done|]. apply result_bind_Ok in Hm as (input & _ & (snap' & Hs' & Hm)%result_bind_Ok).
  rewrite Ht in Hs'. injection Hs' as <-. apply result_bind_Ok in Hm as (w & _ & Hm).
  apply result_bind_Ok in Hm as ([er el] & _ & Hm). apply result_bind_Ok in Hm as (ws & _ & Hm).
  apply result_bind_Ok in Hm as ([wr wl] & _ & [= <-]). done.
Qed.
