(* ===== verification/RollupSubmitter.v ===== *)
(** * Chain service: the submission runtime

    [chain/service/rollup_submitter.go]: one poll takes the earliest batch that is not
    accepted one leg further: record its metadata, publish its data, accept it, each by
    a transaction whose receipt and on-chain effect are awaited.  The store is the
    interface [rollupSubmissionStore]; the node is a [Chain], the answers it gives
    during one poll ([submitCalldata] signs and sends through go-ethereum, the reads
    decode ABI values). *)

From S2P Require Import Prelude Strings Shared RollupState RollupReplay Merkle RollupSubmission.

Local Open Scope Z_scope.

(** ** The interface of the store *)

Class rollupSubmissionStore (S : Type) := {
  store_ListSubmissions : S → list StoredSubmission.t;
  store_MaterializeAcceptedSubmissions : S → S * option string;
  store_MaterializeAcceptedSubmission : S → string → S * option string;
  store_NextEscapeCollateralRootForAnchor : S → option AcceptedEscapeCollateralRootRecord.t;
  store_MarkEscapeCollateralRootSubmitted :
    S → Z → string → S * result string AcceptedEscapeCollateralRootRecord.t;
  store_MarkEscapeCollateralRootAnchored : S → Z → S * result string AcceptedEscapeCollateralRootRecord.t;
  store_MarkEscapeCollateralRootFailed :
    S → Z → string → S * result string AcceptedEscapeCollateralRootRecord.t;
  store_RollupFrozen : S → bool;
  store_PrepareNextSubmission : S → Z → S * result PrepareError StoredSubmission.t;
  store_MarkSubmissionRecordSubmitted : S → string → string → S * result string StoredSubmission.t;
  store_MarkSubmissionPublishSubmitted : S → string → string → S * result string StoredSubmission.t;
  store_MarkSubmissionDataPublished : S → string → S * result string StoredSubmission.t;
  store_MarkSubmissionAcceptSubmitted : S → string → string → S * result string StoredSubmission.t;
  store_MarkSubmissionAccepted : S → string → S * result string StoredSubmission.t;
  store_MarkSubmissionFailed : S → string → string → S * result string StoredSubmission.t;
  store_RecordSubmissionError : S → string → string → S * result string StoredSubmission.t;
  store_ReprepareFailedSubmission : S → Z → S * result string StoredSubmission.t;
}.

(** ** The node *)

Module rollupCoreBatchMetadataState.
Record t := mk {
  LatestBatchID : Z;
  LatestStateRoot : string;
  BatchDataHash : string;
  PrevStateRoot : string;
  NextStateRoot : string;
}.
End rollupCoreBatchMetadataState.

Module rollupCoreAcceptedBatchState.
Record t := mk {
  LatestAcceptedBatchID : Z;
  LatestAcceptedStateRoot : string;
  FirstSequenceNo : Z;
  LastSequenceNo : Z;
  EntryCount : Z;
  BatchDataHash : string;
  PrevStateRoot : string;
  BalancesRoot : string;
  OrdersRoot : string;
  PositionsFundingRoot : string;
  WithdrawalsRoot : string;
  NextStateRoot : string;
  ConservationHash : string;
  AuthProofHash : string;
  VerifierGateHash : string;
}.
End rollupCoreAcceptedBatchState.

Module expectedRollupSubmissionState.
Record t := mk {
  BatchID : Z;
  FirstSequenceNo : Z;
  LastSequenceNo : Z;
  EntryCount : Z;
  BatchDataHash : string;
  PrevStateRoot : string;
  BalancesRoot : string;
  OrdersRoot : string;
  PositionsFundingRoot : string;
  WithdrawalsRoot : string;
  NextStateRoot : string;
  ConservationHash : string;
  AuthProofHash : string;
  VerifierGateHash : string;
}.
End expectedRollupSubmissionState.

(** A receipt is found or not ([ethereum.NotFound]); [true] is
    [types.ReceiptStatusSuccessful]. *)
Record Chain := mkChain {
  submitCalldata : string → result string string;
  TransactionReceipt : string → result string (option bool);
  loadRecordedBatchState : Z → result string rollupCoreBatchMetadataState.t;
  loadBatchDataPublishedState : Z → result string bool;
  loadAcceptedBatchState : Z → result string rollupCoreAcceptedBatchState.t;
  loadEscapeCollateralRootState : Z → result string (Z * string);  (* latest batch, root of the batch *)
  PackEscapeCollateralRootCalldata : AcceptedEscapeCollateralRootRecord.t → string;
  HexToHash : string → string;
}.

Definition normalizeChainTxHash (txHash : string) : string := TrimPrefix0x (ToLower (TrimSpace txHash)).

Definition lookupReceipt (c : Chain) (txHash : string) : result string (option bool) :=
  let normalized := normalizeChainTxHash txHash in
  if String.eqb normalized "" then Err "submission tx hash is required"
  else TransactionReceipt c ("0x" +:+ normalized).

(** The 32 bytes of a hash. *)
Definition parseExpectedHash (value field : string) : result string string :=
  let normalized := TrimPrefix0x (ToLower (TrimSpace value)) in
  if negb (String.length normalized =? 64)%nat then Err (field +:+ " must be 32-byte hex")
  else match DecodeString normalized with
       | None => Err (field +:+ " must be 32-byte hex")
       | Some bytes => Ok bytes
       end.

Section expected.
Context `{!JSON ShadowBatchSubmissionBundle.t}.

Definition DecodeSubmissionBundle (data : string) : result string ShadowBatchSubmissionBundle.t :=
  if String.eqb (TrimSpace data) "" then Err "submission data is required"
  else match Unmarshal data with Some b => Ok b | None => Err "decode submission bundle" end.

Definition buildExpectedSubmissionState (sub : StoredSubmission.t)
    : result string expectedRollupSubmissionState.t :=
  bundle ← DecodeSubmissionBundle (StoredSubmission.SubmissionData sub);
  let batch := ShadowBatchSubmissionBundle.Batch bundle in
  batchDataHash ← parseExpectedHash (SubmissionBatchSummary.BatchDataHash batch) "bundle.batch.batch_data_hash";
  prevStateRoot ← parseExpectedHash (SubmissionBatchSummary.PrevStateRoot batch) "bundle.batch.prev_state_root";
  balancesRoot ← parseExpectedHash (SubmissionBatchSummary.BalancesRoot batch) "bundle.batch.balances_root";
  ordersRoot ← parseExpectedHash (SubmissionBatchSummary.OrdersRoot batch) "bundle.batch.orders_root";
  positionsFundingRoot ← parseExpectedHash (SubmissionBatchSummary.PositionsFundingRoot batch)
                           "bundle.batch.positions_funding_root";
  withdrawalsRoot ← parseExpectedHash (SubmissionBatchSummary.WithdrawalsRoot batch)
                      "bundle.batch.withdrawals_root";
  nextStateRoot ← parseExpectedHash (SubmissionBatchSummary.NextStateRoot batch) "bundle.batch.next_state_root";
  conservationHash ← parseExpectedHash (SubmissionBatchSummary.ConservationHash batch)
                       "bundle.batch.conservation_hash";
  authProofHash ← parseExpectedHash (StoredSubmission.AuthProofHash sub) "submission.auth_proof_hash";
  verifierGateHash ← parseExpectedHash (StoredSubmission.VerifierGateHash sub) "submission.verifier_gate_hash";
  if StoredSubmission.BatchID sub <=? 0 then Err "submission batch_id must be positive"
  else Ok (expectedRollupSubmissionState.mk (wrapu64 (StoredSubmission.BatchID sub))
             (wrapu64 (SubmissionBatchSummary.FirstSequence batch))
             (wrapu64 (SubmissionBatchSummary.LastSequence batch))
             (wrapu64 (SubmissionBatchSummary.EntryCount batch)) batchDataHash prevStateRoot balancesRoot
             ordersRoot positionsFundingRoot withdrawalsRoot nextStateRoot conservationHash authProofHash
             verifierGateHash).

Definition recorded_as (observed : rollupCoreBatchMetadataState.t)
    (expected : expectedRollupSubmissionState.t) : bool :=
  (rollupCoreBatchMetadataState.LatestBatchID observed =? expectedRollupSubmissionState.BatchID expected) &&
  String.eqb (rollupCoreBatchMetadataState.LatestStateRoot observed)
    (expectedRollupSubmissionState.NextStateRoot expected) &&
  String.eqb (rollupCoreBatchMetadataState.BatchDataHash observed)
    (expectedRollupSubmissionState.BatchDataHash expected) &&
  String.eqb (rollupCoreBatchMetadataState.PrevStateRoot observed)
    (expectedRollupSubmissionState.PrevStateRoot expected) &&
  String.eqb (rollupCoreBatchMetadataState.NextStateRoot observed)
    (expectedRollupSubmissionState.NextStateRoot expected).

Definition accepted_as (observed : rollupCoreAcceptedBatchState.t)
    (expected : expectedRollupSubmissionState.t) : bool :=
  (rollupCoreAcceptedBatchState.LatestAcceptedBatchID observed =?
     expectedRollupSubmissionState.BatchID expected) &&
  String.eqb (rollupCoreAcceptedBatchState.LatestAcceptedStateRoot observed)
    (expectedRollupSubmissionState.NextStateRoot expected) &&
  (rollupCoreAcceptedBatchState.FirstSequenceNo observed =?
     expectedRollupSubmissionState.FirstSequenceNo expected) &&
  (rollupCoreAcceptedBatchState.LastSequenceNo observed =?
     expectedRollupSubmissionState.LastSequenceNo expected) &&
  (rollupCoreAcceptedBatchState.EntryCount observed =? expectedRollupSubmissionState.EntryCount expected) &&
  String.eqb (rollupCoreAcceptedBatchState.BatchDataHash observed)
    (expectedRollupSubmissionState.BatchDataHash expected) &&
  String.eqb (rollupCoreAcceptedBatchState.PrevStateRoot observed)
    (expectedRollupSubmissionState.PrevStateRoot expected) &&
  String.eqb (rollupCoreAcceptedBatchState.BalancesRoot observed)
    (expectedRollupSubmissionState.BalancesRoot expected) &&
  String.eqb (rollupCoreAcceptedBatchState.OrdersRoot observed)
    (expectedRollupSubmissionState.OrdersRoot expected) &&
  String.eqb (rollupCoreAcceptedBatchState.PositionsFundingRoot observed)
    (expectedRollupSubmissionState.PositionsFundingRoot expected) &&
  String.eqb (rollupCoreAcceptedBatchState.WithdrawalsRoot observed)
    (expectedRollupSubmissionState.WithdrawalsRoot expected) &&
  String.eqb (rollupCoreAcceptedBatchState.NextStateRoot observed)
    (expectedRollupSubmissionState.NextStateRoot expected) &&
  String.eqb (rollupCoreAcceptedBatchState.ConservationHash observed)
    (expectedRollupSubmissionState.ConservationHash expected) &&
  String.eqb (rollupCoreAcceptedBatchState.AuthProofHash observed)
    (expectedRollupSubmissionState.AuthProofHash expected) &&
  String.eqb (rollupCoreAcceptedBatchState.VerifierGateHash observed)
    (expectedRollupSubmissionState.VerifierGateHash expected).

Definition reconcileRecordSubmissionState (c : Chain) (sub : StoredSubmission.t) : result string bool :=
  expected ← buildExpectedSubmissionState sub;
  observed ← loadRecordedBatchState c (expectedRollupSubmissionState.BatchID expected);
  Ok (recorded_as observed expected).

Definition reconcilePublishDataState (c : Chain) (sub : StoredSubmission.t) : result string bool :=
  if StoredSubmission.BatchID sub <=? 0 then Err "submission batch_id must be positive"
  else loadBatchDataPublishedState c (wrapu64 (StoredSubmission.BatchID sub)).

Definition reconcileAcceptedSubmissionState (c : Chain) (sub : StoredSubmission.t) : result string bool :=
  expected ← buildExpectedSubmissionState sub;
  observed ← loadAcceptedBatchState c (expectedRollupSubmissionState.BatchID expected);
  Ok (accepted_as observed expected).
End expected.

(** ** The processor *)

Inductive RollupSubmissionAction :=
| RollupSubmissionActionNoop
| RollupSubmissionActionFrozen
| RollupSubmissionActionEscapeRootSubmitted
| RollupSubmissionActionEscapeRootPending
| RollupSubmissionActionEscapeRootAnchored
| RollupSubmissionActionEscapeRootFailed
| RollupSubmissionActionBlockedAuth
| RollupSubmissionActionFailedBlocked
| RollupSubmissionActionRecordSubmitted
| RollupSubmissionActionRecordPending
| RollupSubmissionActionPublishSubmitted
| RollupSubmissionActionPublishPending
| RollupSubmissionActionAcceptSubmitted
| RollupSubmissionActionAcceptPending
| RollupSubmissionActionAccepted
| RollupSubmissionActionReprepared
| RollupSubmissionActionFailed.

Section processor.
Context {S : Type} `{!rollupSubmissionStore S, !JSON ShadowBatchSubmissionBundle.t}.
Context (c : Chain) (batchLimit : Z).

(** A poll answers an action, or fails with an error that is logged. *)
Notation Poll := (S * result string RollupSubmissionAction)%type.

(** The error is noted at the submission; the answer of that update is ignored. *)
Definition note_error (s : S) (sub : StoredSubmission.t) (e : string) : Poll :=
  ((store_RecordSubmissionError s (StoredSubmission.SubmissionID sub) e).1, Err e).

(** An update of the store, then the action. *)
Definition marked (x : S * result string StoredSubmission.t) (a : RollupSubmissionAction) : Poll :=
  (x.1, match x.2 with Ok _ => Ok a | Err e => Err e end).
Definition marked_root (x : S * result string AcceptedEscapeCollateralRootRecord.t)
    (a : RollupSubmissionAction) : Poll :=
  (x.1, match x.2 with Ok _ => Ok a | Err e => Err e end).

Definition submitRecordLeg (s : S) (sub : StoredSubmission.t) : Poll :=
  match submitCalldata c (StoredSubmission.RecordCalldata sub) with
  | Err e => note_error s sub e
  | Ok txHash =>
      marked (store_MarkSubmissionRecordSubmitted s (StoredSubmission.SubmissionID sub) txHash)
        RollupSubmissionActionRecordSubmitted
  end.

Definition submitPublishDataLeg (s : S) (sub : StoredSubmission.t) : Poll :=
  match submitCalldata c (StoredSubmission.PublishCalldata sub) with
  | Err e => note_error s sub e
  | Ok txHash =>
      marked (store_MarkSubmissionPublishSubmitted s (StoredSubmission.SubmissionID sub) txHash)
        RollupSubmissionActionPublishSubmitted
  end.

Definition submitAcceptLeg (s : S) (sub : StoredSubmission.t) : Poll :=
  match submitCalldata c (StoredSubmission.AcceptCalldata sub) with
  | Err e => note_error s sub e
  | Ok txHash =>
      marked (store_MarkSubmissionAcceptSubmitted s (StoredSubmission.SubmissionID sub) txHash)
        RollupSubmissionActionAcceptSubmitted
  end.

Definition advanceAfterRecordReceipt (s : S) (sub : StoredSubmission.t) : Poll :=
  let txHash := StoredSubmission.RecordTxHash sub in
  match lookupReceipt c txHash with
  | Err e => note_error s sub e
  | Ok None => (s, Ok RollupSubmissionActionRecordPending)
  | Ok (Some false) =>
      marked (store_MarkSubmissionFailed s (StoredSubmission.SubmissionID sub)
                ("recordBatchMetadata tx reverted: " +:+ txHash)) RollupSubmissionActionFailed
  | Ok (Some true) =>
      match reconcileRecordSubmissionState c sub with
      | Err e => note_error s sub e
      | Ok false => (s, Ok RollupSubmissionActionRecordPending)
      | Ok true => submitPublishDataLeg s sub
      end
  end.

Definition advanceAfterPublishReceipt (s : S) (sub : StoredSubmission.t) : Poll :=
  let txHash := StoredSubmission.PublishTxHash sub in
  match lookupReceipt c txHash with
  | Err e => note_error s sub e
  | Ok None => (s, Ok RollupSubmissionActionPublishPending)
  | Ok (Some false) =>
      marked (store_MarkSubmissionFailed s (StoredSubmission.SubmissionID sub)
                ("publishBatchData tx reverted: " +:+ txHash)) RollupSubmissionActionFailed
  | Ok (Some true) =>
      match reconcilePublishDataState c sub with
      | Err e => note_error s sub e
      | Ok false => (s, Ok RollupSubmissionActionPublishPending)
      | Ok true =>
          match store_MarkSubmissionDataPublished s (StoredSubmission.SubmissionID sub) with
          | (s, Err e) => (s, Err e)
          | (s, Ok updated) => submitAcceptLeg s updated
          end
      end
  end.

Definition advanceAfterAcceptReceipt (s : S) (sub : StoredSubmission.t) : Poll :=
  let txHash := StoredSubmission.AcceptTxHash sub in
  match lookupReceipt c txHash with
  | Err e => note_error s sub e
  | Ok None => (s, Ok RollupSubmissionActionAcceptPending)
  | Ok (Some false) =>
      marked (store_MarkSubmissionFailed s (StoredSubmission.SubmissionID sub)
                ("acceptVerifiedBatch tx reverted: " +:+ txHash)) RollupSubmissionActionFailed
  | Ok (Some true) =>
      match reconcileAcceptedSubmissionState c sub with
      | Err e => note_error s sub e
      | Ok false => (s, Ok RollupSubmissionActionAcceptPending)
      | Ok true =>
          match store_MarkSubmissionAccepted s (StoredSubmission.SubmissionID sub) with
          | (s, Err e) => (s, Err e)
          | (s, Ok updated) =>
              match store_MaterializeAcceptedSubmission s (StoredSubmission.SubmissionID updated) with
              | (s, Some e) => (s, Err e)
              | (s, None) => (s, Ok RollupSubmissionActionAccepted)
              end
          end
      end
  end.

Definition submitEscapeRootAnchor (s : S) (root : AcceptedEscapeCollateralRootRecord.t) : Poll :=
  let batchID := AcceptedEscapeCollateralRootRecord.BatchID root in
  match submitCalldata c (PackEscapeCollateralRootCalldata c root) with
  | Err e => ((store_MarkEscapeCollateralRootFailed s batchID e).1, Err e)
  | Ok txHash =>
      marked_root (store_MarkEscapeCollateralRootSubmitted s batchID txHash)
        RollupSubmissionActionEscapeRootSubmitted
  end.

Definition advanceAfterEscapeRootReceipt (s : S) (root : AcceptedEscapeCollateralRootRecord.t) : Poll :=
  let batchID := AcceptedEscapeCollateralRootRecord.BatchID root in
  match lookupReceipt c (AcceptedEscapeCollateralRootRecord.AnchorTxHash root) with
  | Err e => ((store_MarkEscapeCollateralRootFailed s batchID e).1, Err e)
  | Ok None => (s, Ok RollupSubmissionActionEscapeRootPending)
  | Ok (Some false) =>
      marked_root (store_MarkEscapeCollateralRootFailed s batchID
                     "recordEscapeCollateralRoot tx reverted onchain") RollupSubmissionActionEscapeRootFailed
  | Ok (Some true) =>
      match loadEscapeCollateralRootState c (wrapu64 batchID) with
      | Err e => (s, Err e)
      | Ok (latest, merkleRoot) =>
          if negb (latest =? wrapu64 batchID) ||
             negb (String.eqb merkleRoot (HexToHash c (AcceptedEscapeCollateralRootRecord.MerkleRoot root)))
          then (s, Ok RollupSubmissionActionEscapeRootPending)
          else marked_root (store_MarkEscapeCollateralRootAnchored s batchID)
                 RollupSubmissionActionEscapeRootAnchored
      end
  end.

Fixpoint first_pending (subs : list StoredSubmission.t) : option StoredSubmission.t :=
  match subs with
  | [] => None
  | sub :: subs =>
      match StoredSubmission.Status sub with
      | SubmissionStatusAccepted => first_pending subs
      | _ => Some sub
      end
  end.

(** The earliest submission that is not accepted, or the next one prepared. *)
Definition nextSubmission (s : S) : S * result PrepareError StoredSubmission.t :=
  match first_pending (store_ListSubmissions s) with
  | Some sub => (s, Ok sub)
  | None => store_PrepareNextSubmission s batchLimit
  end.

(** What is done with the submission, by its status. *)
Definition advance (s : S) (sub : StoredSubmission.t) : Poll :=
  match StoredSubmission.Status sub with
  | SubmissionStatusBlockedAuth => (s, Ok RollupSubmissionActionBlockedAuth)
  | SubmissionStatusFailed =>
      match store_ReprepareFailedSubmission s (StoredSubmission.BatchID sub) with
      | (s, Err _) => (s, Ok RollupSubmissionActionFailedBlocked)
      | (s, Ok _) => (s, Ok RollupSubmissionActionReprepared)
      end
  | SubmissionStatusReady => submitRecordLeg s sub
  | SubmissionStatusRecordSubmitted => advanceAfterRecordReceipt s sub
  | SubmissionStatusDataPublished => submitAcceptLeg s sub
  | SubmissionStatusPublishSubmitted => advanceAfterPublishReceipt s sub
  | SubmissionStatusAcceptSubmitted => advanceAfterAcceptReceipt s sub
  | SubmissionStatusAccepted => (s, Ok RollupSubmissionActionNoop)
  end.

Definition poll_submission (s : S) : Poll :=
  match nextSubmission s with
  | (s, Err ErrNoPendingSubmission) => (s, Ok RollupSubmissionActionNoop)
  | (s, Err (ErrPrepare e)) => (s, Err e)
  | (s, Ok sub) => advance s sub
  end.

Definition PollOnce (s : S) : Poll :=
  match store_MaterializeAcceptedSubmissions s with
  | (s, Some e) => (s, Err e)
  | (s, None) =>
      if store_RollupFrozen s then (s, Ok RollupSubmissionActionFrozen)
      else
        match store_NextEscapeCollateralRootForAnchor s with
        | Some root =>
            let status := AcceptedEscapeCollateralRootRecord.AnchorStatus root in
            if String.eqb status "READY" then submitEscapeRootAnchor s root
            else if String.eqb status "SUBMITTED" then advanceAfterEscapeRootReceipt s root
            else if String.eqb status "FAILED" then (s, Ok RollupSubmissionActionEscapeRootFailed)
            else poll_submission s
        | None => poll_submission s
        end
  end.
End processor.

(** ** Polling until idle *)

(** The actions after which [RunUntilIdle] returns; after the others it polls again,
    at once or after a pause. *)
Definition idle (a : RollupSubmissionAction) : bool :=
  match a with
  | RollupSubmissionActionNoop | RollupSubmissionActionFrozen | RollupSubmissionActionEscapeRootFailed
  | RollupSubmissionActionBlockedAuth | RollupSubmissionActionFailedBlocked
  | RollupSubmissionActionFailed => true
  | _ => false
  end.

Section until_idle.
Context `{!JSON ShadowBatchSubmissionBundle.t} {S : Type} (store : Z → rollupSubmissionStore S) (batchLimit : Z).

(** [polls] gives the clock of the database and the node of every poll; the list ends
    where the context is cancelled during the pause.  The steps, and the error if any. *)
Fixpoint RunUntilIdle (polls : list (Z * Chain)) (s : S) : S * (list RollupSubmissionAction * option string) :=
  match polls with
  | [] => (s, ([], Some "context canceled"))
  | (now, c) :: polls =>
      match PollOnce (rollupSubmissionStore0 := store now) c batchLimit s with
      | (s, Err e) => (s, ([], Some e))
      | (s, Ok a) =>
          if idle a then (s, ([a], None))
          else let '(s, (steps, err)) := RunUntilIdle polls s in (s, (a :: steps, err))
      end
  end.
End until_idle.
