(* ===== verification/RollupCore.v ===== *)
(** * Chain service: reading the contract

    [chain/service/rollup_core_state.go]: the views of [FunnyRollupCore] that the submitter,
    the forced-withdrawal mirror and the satisfier read.  [callRollupCoreMethod] packs the
    call, asks the node and unpacks its answer with go-ethereum: it is a parameter, the Go
    values of each answer.  [read_abi] states the types that the ABI text of the file
    declares, and so the values that unpacking gives for a state of the contract. *)

From S2P Require Import Prelude Strings Shared RollupState Merkle RollupSubmission RollupSubmitter.

Local Open Scope Z_scope.
Local Open Scope go_scope.

(** ** Values of an answer *)

(** A Go value of type [any]: the types the decoders distinguish. *)
Inductive AbiValue :=
| AUint8 (n : Z) | AUint16 (n : Z) | AUint32 (n : Z) | AUint64 (n : Z)
| ABigPtr (n : Z) | ABig (n : Z) | ABool (b : bool)
| AAddress (bytes : string) | AArray20 (bytes : string)
| AHash (bytes : string) | AArray32 (bytes : string)
| ABytes (bytes : string).

Definition uint8_max : Z := 255.
Definition IsUint64 (n : Z) : bool := (0 <=? n) && (n <? 2 ^ 64).
Definition IsInt64 (n : Z) : bool := (MinInt64 <=? n) && (n <=? MaxInt64).

Definition decodeABIUint64Value (value : AbiValue) (field : string) : result string Z :=
  match value with
  | AUint8 n | AUint16 n | AUint32 n | AUint64 n => Ok n
  | ABigPtr n | ABig n =>
      if (n <? 0) || negb (IsUint64 n) then Err (field +:+ " must fit uint64") else Ok n
  | _ => Err (field +:+ " returned unsupported uint type")
  end.

Definition decodeABIUint8Value (value : AbiValue) (field : string) : result string Z :=
  match value with
  | AUint8 n => Ok n
  | AUint16 n | AUint32 n | AUint64 n =>
      if uint8_max <? n then Err (field +:+ " must fit uint8") else Ok n
  | ABigPtr n | ABig n =>
      if (n <? 0) || negb (IsUint64 n) || (uint8_max <? n) then Err (field +:+ " must fit uint8") else Ok n
  | _ => Err (field +:+ " returned unsupported uint8 type")
  end.

Definition decodeABIInt64FromUintValue (value : AbiValue) (field : string) : result string Z :=
  match value with
  | ABigPtr n | ABig n =>
      if (n <? 0) || negb (IsInt64 n) then Err (field +:+ " must fit int64") else Ok n
  | AUint64 n => if MaxInt64 <? n then Err (field +:+ " must fit int64") else Ok n
  | _ => Err (field +:+ " returned unsupported uint256 type")
  end.

Definition decodeABIInt64Value := decodeABIInt64FromUintValue.

Definition decodeABIBoolValue (value : AbiValue) (field : string) : result string bool :=
  match value with ABool b => Ok b | _ => Err (field +:+ " returned unsupported bool type") end.

Definition decodeABIAddressValue (value : AbiValue) (field : string) : result string string :=
  match value with
  | AAddress a | AArray20 a => Ok a
  | ABytes a =>
      if (String.length a =? 20)%nat then Ok a
      else Err (field +:+ " must be 20 bytes, got " +:+ pretty (String.length a))
  | _ => Err (field +:+ " returned unsupported address type")
  end.

Definition decodeABIBytes32Value (value : AbiValue) (field : string) : result string string :=
  match value with
  | AHash a | AArray32 a => Ok a
  | ABytes a =>
      if (String.length a =? 32)%nat then Ok a
      else Err (field +:+ " must be 32 bytes, got " +:+ pretty (String.length a))
  | _ => Err (field +:+ " returned unsupported bytes32 type")
  end.

(** [values[i]]: an index out of range panics. *)
Definition value_at (values : list AbiValue) (i : nat) : result string AbiValue :=
  match values !! i with Some v => Ok v | None => Err "panic: index out of range" end.

(** ** Steps of a service

    A service runs on tables [D] and hands transactions [T] to the node.  A statement of the
    database reads the clock, and may fail; the failures and the clock go by statement. *)

Record World (D T : Type) := mkWorld {
  fdb : D;
  fclock : nat → Z;
  ffail : nat → option string;
  fcount : nat;
  sent : list T;
}.
Arguments mkWorld {D T}. Arguments fdb {D T}. Arguments fclock {D T}. Arguments ffail {D T}.
Arguments fcount {D T}. Arguments sent {D T}.

(** How the submission of a transaction ends: before it is sent, refused by the node, or
    accepted with a hash. *)
Inductive Sending := NotSent (err : string) | SendFailed (err : string) | Sent (txHash : string).

Definition Step (D T A : Type) : Type := World D T → World D T * result string A.

Section steps.
Context {D T : Type}.

Definition mret {A} (x : A) : Step D T A := λ w, (w, Ok x).
Definition mfail {A} (e : string) : Step D T A := λ w, (w, Err e).
Definition mthen {A B} (x : Step D T A) (k : A → Step D T B) : Step D T B :=
  λ w, match x w with (w, Ok a) => k a w | (w, Err e) => (w, Err e) end.
Definition mlift {A} (r : result string A) : Step D T A := λ w, (w, r).

Definition statement {A} (body : Z → D → D * A) : Step D T A :=
  λ w,
  match ffail w (fcount w) with
  | Some err => (mkWorld (fdb w) (fclock w) (ffail w) (S (fcount w)) (sent w), Err err)
  | None =>
      let '(d, a) := body (fclock w (fcount w)) (fdb w) in
      (mkWorld d (fclock w) (ffail w) (S (fcount w)) (sent w), Ok a)
  end.

(** Handing a transaction to the node; [answer] is what becomes of it. *)
Definition hand_over (tx : T) (answer : Sending) : Step D T Sending :=
  λ w, match answer with
       | NotSent e => (w, Ok (NotSent e))
       | r => (mkWorld (fdb w) (fclock w) (ffail w) (fcount w) (sent w ++ [tx]), Ok r)
       end.

Lemma mthen_inv {A B} (x : Step D T A) (k : A → Step D T B) w w' r :
  mthen x k w = (w', r) →
  (∃ w1 a, x w = (w1, Ok a) ∧ k a w1 = (w', r)) ∨ (∃ e, x w = (w', Err e) ∧ r = Err e).
Proof.
  unfold mthen. destruct (x w) as [w1 [a|e]] eqn:E; intros H; [left; eauto|right].
  injection H as <- <-. eauto.
Qed.

Lemma statement_inv {A} (body : Z → D → D * A) w w' r :
  statement body w = (w', r) →
  sent w' = sent w ∧
  ((∃ now, fdb w' = (body now (fdb w)).1 ∧ r = Ok (body now (fdb w)).2) ∨ (fdb w' = fdb w ∧ ∃ e, r = Err e)).
Proof.
  unfold statement. destruct (ffail w (fcount w)) as [e|].
  - intros [= <- <-]. split; [done|right; eauto].
  - destruct (body _ _) as [d a] eqn:E. intros [= <- <-]. split; [done|left].
    exists (fclock w (fcount w)). cbn [fdb]. by rewrite E.
Qed.

Lemma statement_ok {A} (body : Z → D → D * A) w :
  (∀ n, ffail w n = None) →
  ∃ w' now, statement body w = (w', Ok (body now (fdb w)).2) ∧ fdb w' = (body now (fdb w)).1 ∧
    sent w' = sent w ∧ (∀ n, ffail w' n = None).
Proof.
  intros Hw. unfold statement. rewrite Hw. destruct (body _ _) as [d a] eqn:E.
  eexists _, (fclock w (fcount w)). rewrite E. done.
Qed.

(** A step that hands nothing to the node. *)
Definition quiet {A} (m : Step D T A) : Prop := ∀ w w' r, m w = (w', r) → sent w' = sent w.

Lemma quiet_ret {A} (x : A) : quiet (mret x).
Proof. by intros w w' r [= <- <-]. Qed.
Lemma quiet_fail {A} e : quiet (mfail (A := A) e).
Proof. by intros w w' r [= <- <-]. Qed.
Lemma quiet_lift {A} (x : result string A) : quiet (mlift x).
Proof. by intros w w' r [= <- <-]. Qed.
Lemma quiet_statement {A} (b : Z → D → D * A) : quiet (statement b).
Proof. by intros w w' r [H _]%statement_inv. Qed.
Lemma quiet_then {A B} (x : Step D T A) (k : A → Step D T B) : quiet x → (∀ a, quiet (k a)) → quiet (mthen x k).
Proof.
  intros Hx Hk w w' r [(w1 & a & H1 & H2)|(e & H1 & _)]%mthen_inv; [|exact (Hx _ _ _ H1)].
  rewrite (Hk _ _ _ _ H2). exact (Hx _ _ _ H1).
Qed.
End steps.

Notation "'do' x <- e1 ; e2" := (mthen e1 (λ x, e2)) (at level 200, x name, e1 at level 100, e2 at level 200).
#[export] Hint Resolve quiet_ret quiet_fail quiet_lift quiet_statement : core.

(** ** The views *)

Module rollupCoreFreezeState.
Record t := mk { Frozen : bool; FrozenAt : Z; FreezeRequestID : Z }.
End rollupCoreFreezeState.

Module CoreRequest.
Record t := mk {
  RequestID : Z;
  Wallet : string;
  Recipient : string;
  Amount : Z;
  RequestedAt : Z;
  DeadlineAt : Z;
  SatisfiedClaimID : string;
  SatisfiedAt : Z;
  FrozenAt : Z;
  Status : Z;
}.
End CoreRequest.

Module rollupCoreEscapeCollateralRootState.
Record t := mk {
  LatestEscapeCollateralBatchID : Z;
  LatestEscapeCollateralRoot : string;
  MerkleRoot : string;
  LeafCount : Z;
  TotalAmount : Z;
  AnchoredAt : Z;
}.
End rollupCoreEscapeCollateralRootState.

(** [callRollupCoreMethod], by method and arguments. *)
Definition Call : Type := string → list Z → result string (list AbiValue).

Section reads.
Context (callRollupCoreMethod : Call).

(** A view with one value. *)
Definition read_first {A} (decode : AbiValue → string → result string A) (method : string) (args : list Z)
    : result string A :=
  values ← callRollupCoreMethod method args; value ← value_at values 0; decode value method.

(** Value [i] of a view with several. *)
Definition field_at {A} (decode : AbiValue → string → result string A) (values : list AbiValue) (i : nat)
    (field : string) : result string A :=
  value ← value_at values i; decode value field.

Definition load_recorded (batchID : Z) : result string rollupCoreBatchMetadataState.t :=
  latestBatchID ← read_first decodeABIUint64Value "latestBatchId" [];
  latestStateRoot ← read_first decodeABIBytes32Value "latestStateRoot" [];
  values ← callRollupCoreMethod "batchMetadata" [batchID];
  batchDataHash ← field_at decodeABIBytes32Value values 0 "batchMetadata.batchDataHash";
  prevStateRoot ← field_at decodeABIBytes32Value values 1 "batchMetadata.prevStateRoot";
  nextStateRoot ← field_at decodeABIBytes32Value values 2 "batchMetadata.nextStateRoot";
  Ok (rollupCoreBatchMetadataState.mk latestBatchID latestStateRoot batchDataHash prevStateRoot nextStateRoot).

Definition load_published (batchID : Z) : result string bool :=
  read_first decodeABIBoolValue "batchDataPublished" [batchID].

Definition load_accepted (batchID : Z) : result string rollupCoreAcceptedBatchState.t :=
  latestAcceptedBatchID ← read_first decodeABIUint64Value "latestAcceptedBatchId" [];
  latestAcceptedStateRoot ← read_first decodeABIBytes32Value "latestAcceptedStateRoot" [];
  values ← callRollupCoreMethod "acceptedBatches" [batchID];
  firstSequenceNo ← field_at decodeABIUint64Value values 0 "acceptedBatches.firstSequenceNo";
  lastSequenceNo ← field_at decodeABIUint64Value values 1 "acceptedBatches.lastSequenceNo";
  entryCount ← field_at decodeABIUint64Value values 2 "acceptedBatches.entryCount";
  batchDataHash ← field_at decodeABIBytes32Value values 3 "acceptedBatches.batchDataHash";
  prevStateRoot ← field_at decodeABIBytes32Value values 4 "acceptedBatches.prevStateRoot";
  balancesRoot ← field_at decodeABIBytes32Value values 5 "acceptedBatches.balancesRoot";
  ordersRoot ← field_at decodeABIBytes32Value values 6 "acceptedBatches.ordersRoot";
  positionsFundingRoot ← field_at decodeABIBytes32Value values 7 "acceptedBatches.positionsFundingRoot";
  withdrawalsRoot ← field_at decodeABIBytes32Value values 8 "acceptedBatches.withdrawalsRoot";
  nextStateRoot ← field_at decodeABIBytes32Value values 9 "acceptedBatches.nextStateRoot";
  conservationHash ← field_at decodeABIBytes32Value values 10 "acceptedBatches.conservationHash";
  authProofHash ← field_at decodeABIBytes32Value values 11 "acceptedBatches.authProofHash";
  verifierGateHash ← field_at decodeABIBytes32Value values 12 "acceptedBatches.verifierGateHash";
  Ok (rollupCoreAcceptedBatchState.mk latestAcceptedBatchID latestAcceptedStateRoot firstSequenceNo lastSequenceNo
        entryCount batchDataHash prevStateRoot balancesRoot ordersRoot positionsFundingRoot withdrawalsRoot
        nextStateRoot conservationHash authProofHash verifierGateHash).

Definition loadFreezeState : result string rollupCoreFreezeState.t :=
  frozen ← read_first decodeABIBoolValue "frozen" [];
  frozenAt ← read_first decodeABIUint64Value "frozenAt" [];
  freezeRequestID ← read_first decodeABIUint64Value "freezeRequestId" [];
  Ok (rollupCoreFreezeState.mk frozen frozenAt freezeRequestID).

Definition load_escape_root (batchID : Z) : result string rollupCoreEscapeCollateralRootState.t :=
  latestBatchID ← read_first decodeABIUint64Value "latestEscapeCollateralBatchId" [];
  latestRoot ← read_first decodeABIBytes32Value "latestEscapeCollateralRoot" [];
  values ← callRollupCoreMethod "escapeCollateralRoots" [batchID];
  merkleRoot ← field_at decodeABIBytes32Value values 0 "escapeCollateralRoots.merkleRoot";
  leafCount ← field_at decodeABIUint64Value values 1 "escapeCollateralRoots.leafCount";
  totalAmount ← field_at decodeABIInt64Value values 2 "escapeCollateralRoots.totalAmount";
  anchoredAt ← field_at decodeABIUint64Value values 3 "escapeCollateralRoots.anchoredAt";
  Ok (rollupCoreEscapeCollateralRootState.mk latestBatchID latestRoot merkleRoot leafCount totalAmount anchoredAt).

Definition loadForcedWithdrawalRequestCount : result string Z :=
  read_first decodeABIUint64Value "forcedWithdrawalRequestCount" [].

Definition loadForcedWithdrawalRequest (requestID : Z) : result string CoreRequest.t :=
  values ← callRollupCoreMethod "forcedWithdrawalRequests" [requestID];
  wallet ← field_at decodeABIAddressValue values 0 "forcedWithdrawalRequests.wallet";
  recipient ← field_at decodeABIAddressValue values 1 "forcedWithdrawalRequests.recipient";
  amount ← field_at decodeABIInt64FromUintValue values 2 "forcedWithdrawalRequests.amount";
  requestedAt ← field_at decodeABIUint64Value values 3 "forcedWithdrawalRequests.requestedAt";
  deadlineAt ← field_at decodeABIUint64Value values 4 "forcedWithdrawalRequests.deadlineAt";
  satisfiedClaimID ← field_at decodeABIBytes32Value values 5 "forcedWithdrawalRequests.satisfiedClaimId";
  satisfiedAt ← field_at decodeABIUint64Value values 6 "forcedWithdrawalRequests.satisfiedAt";
  frozenAt ← field_at decodeABIUint64Value values 7 "forcedWithdrawalRequests.frozenAt";
  status ← field_at decodeABIUint8Value values 8 "forcedWithdrawalRequests.status";
  Ok (CoreRequest.mk requestID wallet recipient amount requestedAt deadlineAt satisfiedClaimID satisfiedAt
        frozenAt status).
End reads.

(** The node of the submitter, with these reads. *)
Definition core_chain (call : Call) (c : Chain) : Chain :=
  mkChain (submitCalldata c) (TransactionReceipt c) (load_recorded call) (load_published call) (load_accepted call)
    (λ batchID, s ← load_escape_root call batchID;
       Ok (rollupCoreEscapeCollateralRootState.LatestEscapeCollateralBatchID s,
           rollupCoreEscapeCollateralRootState.MerkleRoot s))
    (PackEscapeCollateralRootCalldata c) (HexToHash c).

(** ** The contract *)

(** The structs of [FunnyRollupCore.sol] that the views return. *)
Record BatchMetadata := mkBatchMetadata { m_batchDataHash : string; m_prevStateRoot : string; m_nextStateRoot : string }.

Record AcceptedBatch := mkAcceptedBatch {
  a_firstSequenceNo : Z;
  a_lastSequenceNo : Z;
  a_entryCount : Z;
  a_batchDataHash : string;
  a_prevStateRoot : string;
  a_balancesRoot : string;
  a_ordersRoot : string;
  a_positionsFundingRoot : string;
  a_withdrawalsRoot : string;
  a_nextStateRoot : string;
  a_conservationHash : string;
  a_authProofHash : string;
  a_verifierGateHash : string;
}.

Record ForcedWithdrawalRequest := mkForcedWithdrawalRequest {
  q_wallet : string;
  q_recipient : string;
  q_amount : Z;
  q_requestedAt : Z;
  q_deadlineAt : Z;
  q_satisfiedClaimId : string;
  q_satisfiedAt : Z;
  q_frozenAt : Z;
  q_status : Z;
}.

Record EscapeCollateralRoot := mkEscapeCollateralRoot {
  e_merkleRoot : string; e_leafCount : Z; e_totalAmount : Z; e_anchoredAt : Z;
}.

Record CoreState := mkCoreState {
  latestBatchId : Z;
  latestStateRoot : string;
  latestAcceptedBatchId : Z;
  latestAcceptedStateRoot : string;
  batchMetadata : Z → BatchMetadata;
  batchDataPublished : Z → bool;
  acceptedBatches : Z → AcceptedBatch;
  frozen : bool;
  frozenAt : Z;
  freezeRequestId : Z;
  forcedWithdrawalRequestCount : Z;
  forcedWithdrawalRequests : Z → ForcedWithdrawalRequest;
  latestEscapeCollateralBatchId : Z;
  latestEscapeCollateralRoot : string;
  escapeCollateralRoots : Z → EscapeCollateralRoot;
}.

(** What unpacking the answer of a view gives: [uint64] a [uint64], [uint256] a [*big.Int],
    [bytes32] a [[32]byte]. *)
Definition read_abi (st : CoreState) : Call := λ method args,
  match method, args with
  | "latestBatchId", [] => Ok [AUint64 (latestBatchId st)]
  | "latestStateRoot", [] => Ok [AArray32 (latestStateRoot st)]
  | "latestAcceptedBatchId", [] => Ok [AUint64 (latestAcceptedBatchId st)]
  | "latestAcceptedStateRoot", [] => Ok [AArray32 (latestAcceptedStateRoot st)]
  | "batchMetadata", [id] =>
      let m := batchMetadata st id in
      Ok [AArray32 (m_batchDataHash m); AArray32 (m_prevStateRoot m); AArray32 (m_nextStateRoot m)]
  | "batchDataPublished", [id] => Ok [ABool (batchDataPublished st id)]
  | "acceptedBatches", [id] =>
      let a := acceptedBatches st id in
      Ok [AUint64 (a_firstSequenceNo a); AUint64 (a_lastSequenceNo a); AUint64 (a_entryCount a);
          AArray32 (a_batchDataHash a); AArray32 (a_prevStateRoot a); AArray32 (a_balancesRoot a);
          AArray32 (a_ordersRoot a); AArray32 (a_positionsFundingRoot a); AArray32 (a_withdrawalsRoot a);
          AArray32 (a_nextStateRoot a); AArray32 (a_conservationHash a); AArray32 (a_authProofHash a);
          AArray32 (a_verifierGateHash a)]
  | "frozen", [] => Ok [ABool (frozen st)]
  | "frozenAt", [] => Ok [AUint64 (frozenAt st)]
  | "freezeRequestId", [] => Ok [AUint64 (freezeRequestId st)]
  | "forcedWithdrawalRequestCount", [] => Ok [AUint64 (forcedWithdrawalRequestCount st)]
  | "forcedWithdrawalRequests", [id] =>
      let q := forcedWithdrawalRequests st id in
      Ok [AAddress (q_wallet q); AAddress (q_recipient q); ABigPtr (q_amount q); AUint64 (q_requestedAt q);
          AUint64 (q_deadlineAt q); AArray32 (q_satisfiedClaimId q); AUint64 (q_satisfiedAt q);
          AUint64 (q_frozenAt q); AUint8 (q_status q)]
  | "latestEscapeCollateralBatchId", [] => Ok [AUint64 (latestEscapeCollateralBatchId st)]
  | "latestEscapeCollateralRoot", [] => Ok [AArray32 (latestEscapeCollateralRoot st)]
  | "escapeCollateralRoots", [id] =>
      let e := escapeCollateralRoots st id in
      Ok [AArray32 (e_merkleRoot e); AUint64 (e_leafCount e); ABigPtr (e_totalAmount e); AUint64 (e_anchoredAt e)]
  | _, _ => Err "pack"
  end.

Definition as_request (id : Z) (q : ForcedWithdrawalRequest) : CoreRequest.t :=
  CoreRequest.mk id (q_wallet q) (q_recipient q) (q_amount q) (q_requestedAt q) (q_deadlineAt q)
    (q_satisfiedClaimId q) (q_satisfiedAt q) (q_frozenAt q) (q_status q).

(** An unsigned value of the contract that does not fit is refused, not truncated. *)
Lemma decode_amount n field :
  0 ≤ n → decodeABIInt64FromUintValue (ABigPtr n) field =
  if n <=? MaxInt64 then Ok n else Err (field +:+ " must fit int64").
Proof.
  intros Hn. cbn [decodeABIInt64FromUintValue]. unfold IsInt64.
  rewrite (proj2 (Z.ltb_ge n 0) Hn), (proj2 (Z.leb_le MinInt64 n)) by (unfold MinInt64; lia).
  by destruct (n <=? MaxInt64).
Qed.

(** Reading a request of the contract. *)
Lemma read_request st id :
  0 ≤ q_amount (forcedWithdrawalRequests st id) →
  loadForcedWithdrawalRequest (read_abi st) id =
  if q_amount (forcedWithdrawalRequests st id) <=? MaxInt64 then Ok (as_request id (forcedWithdrawalRequests st id))
  else Err "forcedWithdrawalRequests.amount must fit int64".
Proof.
  intros Hn. unfold loadForcedWithdrawalRequest, field_at.
  cbn -[decodeABIInt64FromUintValue MaxInt64]. rewrite decode_amount by done.
  by destruct (_ <=? MaxInt64).
Qed.

Lemma loadForcedWithdrawalRequest_id call id c :
  loadForcedWithdrawalRequest call id = Ok c → CoreRequest.RequestID c = id.
Proof.
  unfold loadForcedWithdrawalRequest. intros H.
  repeat match goal with H : (_ ≫= _) = Ok _ |- _ => apply result_bind_Ok in H as (? & _ & H) end.
  by injection H as <-.
Qed.

(** Reading the whole contract gives its state back: the views of a batch, the freeze, the
    count of requests and the escape roots, whose total is refused when it does not fit. *)
Lemma core_reads_exact st b :
  let m := batchMetadata st b in let a := acceptedBatches st b in let e := escapeCollateralRoots st b in
  load_recorded (read_abi st) b =
    Ok (rollupCoreBatchMetadataState.mk (latestBatchId st) (latestStateRoot st) (m_batchDataHash m)
          (m_prevStateRoot m) (m_nextStateRoot m)) ∧
  load_published (read_abi st) b = Ok (batchDataPublished st b) ∧
  load_accepted (read_abi st) b =
    Ok (rollupCoreAcceptedBatchState.mk (latestAcceptedBatchId st) (latestAcceptedStateRoot st)
          (a_firstSequenceNo a) (a_lastSequenceNo a) (a_entryCount a) (a_batchDataHash a) (a_prevStateRoot a)
          (a_balancesRoot a) (a_ordersRoot a) (a_positionsFundingRoot a) (a_withdrawalsRoot a) (a_nextStateRoot a)
          (a_conservationHash a) (a_authProofHash a) (a_verifierGateHash a)) ∧
  loadFreezeState (read_abi st) = Ok (rollupCoreFreezeState.mk (frozen st) (frozenAt st) (freezeRequestId st)) ∧
  loadForcedWithdrawalRequestCount (read_abi st) = Ok (forcedWithdrawalRequestCount st) ∧
  (0 ≤ e_totalAmount e ≤ MaxInt64 →
   load_escape_root (read_abi st) b =
     Ok (rollupCoreEscapeCollateralRootState.mk (latestEscapeCollateralBatchId st) (latestEscapeCollateralRoot st)
           (e_merkleRoot e) (e_leafCount e) (e_totalAmount e) (e_anchoredAt e))).
Proof.
  cbv zeta. split_and!; try reflexivity. intros He. unfold load_escape_root, field_at.
  cbn -[decodeABIInt64FromUintValue MaxInt64]. unfold decodeABIInt64Value. rewrite decode_amount by lia.
  by rewrite (proj2 (Z.leb_le _ _)) by lia.
Qed.
