(* ===== verification/ForcedWithdrawal.v ===== *)
(** * Chain service: forced withdrawals

    [chain/service/forced_withdrawal_mirror.go] copies the requests of the contract into
    the database; [forced_withdrawal_satisfier.go] finds the claimed withdrawal that
    answers a request and submits it; [chain/service/sql_store.go] holds the statements
    they run.  The node is a [CoreReads], the answers it gives during one poll, which
    [RollupCore] decodes; signing and sending are go-ethereum's.  A hash is its 32 bytes, an address
    its 20 bytes. *)

From stdpp Require Import sorting.
From S2P Require Import Prelude Strings Shared RollupState Merkle RollupSubmission RollupSubmitter RollupCore.

Local Open Scope Z_scope.
Local Open Scope go_scope.

(** ** Data *)

Module ForcedRequest.
Record t := mk {
  RequestID : Z;
  WalletAddress : string;
  RecipientAddress : string;
  Amount : Z;
  RequestedAt : Z;
  DeadlineAt : Z;
  SatisfiedClaimID : string;
  SatisfiedAt : Z;
  FrozenAt : Z;
  Status : string;
  MatchedWithdrawalID : string;
  MatchedClaimID : string;
  SatisfactionStatus : string;
  SatisfactionTxHash : string;
  SatisfactionSubmittedAt : Z;
  SatisfactionLastError : string;
  SatisfactionLastErrorAt : Z;
  CreatedAt : Z;
  UpdatedAt : Z;
}.
End ForcedRequest.

Module RollupFreezeState.
Record t := mk { Frozen : bool; FrozenAt : Z; RequestID : Z; UpdatedAt : Z }.
End RollupFreezeState.

Module ClaimMatch.
Record t := mk { WithdrawalID : string; ClaimID : string; Amount : Z; ClaimedAt : Z }.
End ClaimMatch.

Definition StatusNone : string := "NONE".
Definition StatusReady : string := "READY".
Definition StatusSubmitted : string := "SUBMITTED".
Definition StatusFailed : string := "FAILED".
Definition StatusAmbiguous : string := "AMBIGUOUS".
Definition StatusSatisfied : string := "SATISFIED".
Definition StatusRequested : string := "REQUESTED".
Definition StatusFrozen : string := "FROZEN".

Definition mapForcedWithdrawalStatus (status : Z) : string :=
  if status =? 1 then StatusRequested else if status =? 2 then StatusSatisfied
  else if status =? 3 then StatusFrozen else StatusNone.

Record CoreReads := mkCoreReads {
  core_call : Call;
  satisfaction_receipt : string → result string (option bool);
  satisfy_tx : Z → string → Sending;
}.

(** ** The database *)

(** [rollup_forced_withdrawal_requests] by request, [rollup_accepted_withdrawals] by
    withdrawal, the row of [rollup_freeze_state]. *)
Record ForcedDB := mkForcedDB {
  f_requests : gmap Z ForcedRequest.t;
  f_withdrawals : gmap string AcceptedWithdrawalRecord.t;
  f_freeze : option RollupFreezeState.t;
}.

Definition set_f_requests d x : ForcedDB := mkForcedDB x (f_withdrawals d) (f_freeze d).

(** A transaction is the request and the claim. *)
Definition M (A : Type) : Type := Step ForcedDB (Z * string) A.

Definition truncateString (value : string) (size : nat) : string :=
  let trimmed := TrimSpace value in
  if (String.length trimmed <=? size)%nat then trimmed else String.substring 0 size trimmed.

(** [ON CONFLICT (request_id) DO UPDATE]: what the row keeps. *)
Definition upserted (now : Z) (old : option ForcedRequest.t) (r : ForcedRequest.t) : ForcedRequest.t :=
  match old with
  | None =>
      ForcedRequest.mk (ForcedRequest.RequestID r) (ForcedRequest.WalletAddress r)
        (ForcedRequest.RecipientAddress r) (ForcedRequest.Amount r) (ForcedRequest.RequestedAt r)
        (ForcedRequest.DeadlineAt r) (ForcedRequest.SatisfiedClaimID r) (ForcedRequest.SatisfiedAt r)
        (ForcedRequest.FrozenAt r) (ForcedRequest.Status r) (ForcedRequest.MatchedWithdrawalID r)
        (ForcedRequest.MatchedClaimID r)
        (let status := TrimSpace (ForcedRequest.SatisfactionStatus r) in
         if String.eqb status "" then StatusNone else status)
        (ForcedRequest.SatisfactionTxHash r) (ForcedRequest.SatisfactionSubmittedAt r)
        (ForcedRequest.SatisfactionLastError r) (ForcedRequest.SatisfactionLastErrorAt r) now now
  | Some o =>
      ForcedRequest.mk (ForcedRequest.RequestID r) (ForcedRequest.WalletAddress r)
        (ForcedRequest.RecipientAddress r) (ForcedRequest.Amount r) (ForcedRequest.RequestedAt r)
        (ForcedRequest.DeadlineAt r) (ForcedRequest.SatisfiedClaimID r) (ForcedRequest.SatisfiedAt r)
        (ForcedRequest.FrozenAt r) (ForcedRequest.Status r) (ForcedRequest.MatchedWithdrawalID o)
        (if String.eqb (ForcedRequest.SatisfiedClaimID r) "" then ForcedRequest.MatchedClaimID o
         else ForcedRequest.SatisfiedClaimID r)
        (if String.eqb (ForcedRequest.Status r) StatusSatisfied then StatusSatisfied
         else ForcedRequest.SatisfactionStatus o)
        (ForcedRequest.SatisfactionTxHash o) (ForcedRequest.SatisfactionSubmittedAt o)
        (ForcedRequest.SatisfactionLastError o) (ForcedRequest.SatisfactionLastErrorAt o)
        (ForcedRequest.CreatedAt o) now
  end.

Definition UpsertRollupForcedWithdrawalRequest (r : ForcedRequest.t) : M unit :=
  statement (λ now d, let id := ForcedRequest.RequestID r in
    (set_f_requests d (<[id := upserted now (f_requests d !! id) r]> (f_requests d)), ())).

Definition UpsertRollupFreezeState (f : RollupFreezeState.t) : M unit :=
  statement (λ now d, (mkForcedDB (f_requests d) (f_withdrawals d)
    (Some (RollupFreezeState.mk (RollupFreezeState.Frozen f) (RollupFreezeState.FrozenAt f)
             (RollupFreezeState.RequestID f) now)), ())).

Definition by_request (a b : ForcedRequest.t) : Prop := ForcedRequest.RequestID a ≤ ForcedRequest.RequestID b.
#[global] Instance by_request_dec a b : Decision (by_request a b).
Proof. unfold by_request. apply _. Defined.

Definition pending (limit : Z) (d : ForcedDB) : list ForcedRequest.t :=
  take (Z.to_nat (if limit <=? 0 then 20 else limit))
    (merge_sort by_request
       (filter (λ r, ForcedRequest.Status r = StatusRequested) (map_to_list (f_requests d)).*2)).

Definition ListPendingRollupForcedWithdrawalRequests (limit : Z) : M (list ForcedRequest.t) :=
  statement (λ _ d, (d, pending limit d)).

(** Another request that has the claim. *)
Definition claim_taken (d : ForcedDB) (requestID : Z) (claimID : string) : Prop :=
  map_Exists (λ id o, id ≠ requestID ∧
    (ForcedRequest.SatisfiedClaimID o = claimID ∨ ForcedRequest.MatchedClaimID o = claimID)) (f_requests d).

(** The [JOIN] for one withdrawal. *)
Definition answers (d : ForcedDB) (r : ForcedRequest.t) (w : AcceptedWithdrawalRecord.t) : Prop :=
  AcceptedWithdrawalRecord.WalletAddress w = ForcedRequest.WalletAddress r ∧
  AcceptedWithdrawalRecord.RecipientAddress w = ForcedRequest.RecipientAddress r ∧
  AcceptedWithdrawalRecord.ClaimStatus w = "CLAIMED" ∧ AcceptedWithdrawalRecord.ClaimID w ≠ "" ∧
  ¬ claim_taken d (ForcedRequest.RequestID r) (AcceptedWithdrawalRecord.ClaimID w).
#[global] Instance answers_dec d r w : Decision (answers d r w).
Proof. unfold answers, claim_taken. apply _. Defined.

Definition claimed_before (a b : ClaimMatch.t) : Prop :=
  ClaimMatch.ClaimedAt a < ClaimMatch.ClaimedAt b ∨
  (ClaimMatch.ClaimedAt a = ClaimMatch.ClaimedAt b ∧
   String.le (ClaimMatch.WithdrawalID a) (ClaimMatch.WithdrawalID b)).
#[global] Instance claimed_before_dec a b : Decision (claimed_before a b).
Proof. unfold claimed_before. apply _. Defined.

Definition match_of (w : AcceptedWithdrawalRecord.t) : ClaimMatch.t :=
  ClaimMatch.mk (AcceptedWithdrawalRecord.WithdrawalID w) (AcceptedWithdrawalRecord.ClaimID w)
    (AcceptedWithdrawalRecord.Amount w) (AcceptedWithdrawalRecord.ClaimedAt w).

Definition claim_matches (requestID limit : Z) (d : ForcedDB) : list ClaimMatch.t :=
  match f_requests d !! requestID with
  | Some r =>
      if String.eqb (ForcedRequest.Status r) StatusRequested then
        take (Z.to_nat (if limit <=? 0 then 2 else limit))
          (merge_sort claimed_before
             (match_of <$> filter (answers d r) (map_to_list (f_withdrawals d)).*2))
      else []
  | None => []
  end.

Definition ListForcedWithdrawalClaimMatches (requestID limit : Z) : M (list ClaimMatch.t) :=
  if requestID <=? 0 then mfail "request_id must be positive"
  else statement (λ _ d, (d, claim_matches requestID limit d)).

(** [UPDATE rollup_forced_withdrawal_requests ... WHERE request_id = $1]. *)
Definition update_request (requestID : Z) (f : Z → ForcedRequest.t → ForcedRequest.t) : M unit :=
  if requestID <=? 0 then mfail "request_id must be positive"
  else statement (λ now d, (set_f_requests d (alter (f now) requestID (f_requests d)), ())).

(** The row with other satisfaction columns. *)
Definition with_satisfaction (r : ForcedRequest.t) (withdrawalID claimID status txHash : string)
    (submittedAt : Z) (lastError : string) (lastErrorAt now : Z) : ForcedRequest.t :=
  ForcedRequest.mk (ForcedRequest.RequestID r) (ForcedRequest.WalletAddress r)
    (ForcedRequest.RecipientAddress r) (ForcedRequest.Amount r) (ForcedRequest.RequestedAt r)
    (ForcedRequest.DeadlineAt r) (ForcedRequest.SatisfiedClaimID r) (ForcedRequest.SatisfiedAt r)
    (ForcedRequest.FrozenAt r) (ForcedRequest.Status r) withdrawalID claimID status txHash submittedAt
    lastError lastErrorAt (ForcedRequest.CreatedAt r) now.

Definition UpdateRollupForcedWithdrawalMatch (requestID : Z) (withdrawalID claimID status errMsg : string)
    : M unit :=
  update_request requestID (λ now r,
    let status := TrimSpace status in
    let error := truncateString errMsg 255 in
    let reset := bool_decide (status ∈ [StatusNone; StatusReady; StatusAmbiguous]) in
    with_satisfaction r (TrimSpace withdrawalID) (TrimSpace claimID) status
      (if reset then "" else ForcedRequest.SatisfactionTxHash r)
      (if reset then 0 else ForcedRequest.SatisfactionSubmittedAt r)
      error (if String.eqb error "" then 0 else now) now).

Definition MarkRollupForcedWithdrawalSatisfactionSubmitted (requestID : Z) (txHash : string) : M unit :=
  update_request requestID (λ now r,
    with_satisfaction r (ForcedRequest.MatchedWithdrawalID r) (ForcedRequest.MatchedClaimID r)
      StatusSubmitted (normalizeChainTxHash txHash) now "" 0 now).

Definition MarkRollupForcedWithdrawalSatisfactionFailed (requestID : Z) (errMsg : string) : M unit :=
  update_request requestID (λ now r,
    with_satisfaction r (ForcedRequest.MatchedWithdrawalID r) (ForcedRequest.MatchedClaimID r)
      StatusFailed (ForcedRequest.SatisfactionTxHash r) (ForcedRequest.SatisfactionSubmittedAt r)
      (truncateString errMsg 255) now now).

(** ** The satisfier *)

Inductive SatisfyAction :=
| ActionNoop
| ActionSubmitted (requestID : Z) (claimID txHash : string)
| ActionPending (requestID : Z)
| ActionSatisfied (requestID : Z)
| ActionAmbiguous (requestID : Z)
| ActionFailed (requestID : Z)
| ActionRollupStop.

Definition zero_hash : string := zero_bytes 32.

Section satisfier.
(** [HexToHash] is go-ethereum's; the decimals are configuration. *)
Context (HexToHash : string → string) (decimals digits : Z).
Context (core : CoreReads).

(** The row of a request as the contract has it. *)
Definition from_core (c : CoreRequest.t) (withdrawalID claimID status txHash : string) (submittedAt : Z)
    (lastError : string) (lastErrorAt : Z) : ForcedRequest.t :=
  ForcedRequest.mk (wrap64 (CoreRequest.RequestID c)) (hex_text (CoreRequest.Wallet c))
    (hex_text (CoreRequest.Recipient c)) (CoreRequest.Amount c) (wrap64 (CoreRequest.RequestedAt c))
    (wrap64 (CoreRequest.DeadlineAt c)) (normalizeChainTxHash (hex_text (CoreRequest.SatisfiedClaimID c)))
    (wrap64 (CoreRequest.SatisfiedAt c)) (wrap64 (CoreRequest.FrozenAt c))
    (mapForcedWithdrawalStatus (CoreRequest.Status c)) withdrawalID claimID status txHash submittedAt
    lastError lastErrorAt 0 0.

Definition submitSatisfaction (requestID : Z) (claimID : string) : M SatisfyAction :=
  if requestID <=? 0 then mfail "request_id must be positive"
  else
    let claimHash := HexToHash (TrimSpace claimID) in
    do r <- hand_over (requestID, claimHash) (satisfy_tx core requestID claimHash);
    match r with
    | NotSent e => mfail e
    | SendFailed e =>
        do _ <- MarkRollupForcedWithdrawalSatisfactionFailed requestID e;
        mret (ActionFailed requestID)
    | Sent hash =>
        let txHash := normalizeChainTxHash hash in
        do _ <- MarkRollupForcedWithdrawalSatisfactionSubmitted requestID txHash;
        mret (ActionSubmitted requestID (normalizeChainTxHash (hex_text claimHash)) txHash)
    end.

Definition reconcileSubmitted (request : ForcedRequest.t) : M SatisfyAction :=
  let id := ForcedRequest.RequestID request in
  do receipt <- mlift (satisfaction_receipt core (normalizeChainTxHash (ForcedRequest.SatisfactionTxHash request)));
  match receipt with
  | None => mret (ActionPending id)
  | Some false =>
      do _ <- MarkRollupForcedWithdrawalSatisfactionFailed id "satisfyForcedWithdrawal receipt reverted";
      mret (ActionFailed id)
  | Some true =>
      do c <- mlift (loadForcedWithdrawalRequest (core_call core) (wrapu64 id));
      do _ <- UpsertRollupForcedWithdrawalRequest
                (from_core c (ForcedRequest.MatchedWithdrawalID request) (ForcedRequest.MatchedClaimID request)
                   (ForcedRequest.SatisfactionStatus request) (ForcedRequest.SatisfactionTxHash request)
                   (ForcedRequest.SatisfactionSubmittedAt request) (ForcedRequest.SatisfactionLastError request)
                   (ForcedRequest.SatisfactionLastErrorAt request));
      if (CoreRequest.Status c =? 2) || (0 <? CoreRequest.SatisfiedAt c) ||
         negb (String.eqb (CoreRequest.SatisfiedClaimID c) zero_hash)
      then mret (ActionSatisfied id) else mret (ActionPending id)
  end.

(** The matches of the amount the request asks for. *)
Fixpoint amount_matches (amount : Z) (ms : list ClaimMatch.t) : result string (list ClaimMatch.t) :=
  match ms with
  | [] => Ok []
  | m :: ms =>
      match AccountingToChainAmount (ClaimMatch.Amount m) decimals digits with
      | Err _ => Err "convert amount"
      | Ok chainAmount =>
          match amount_matches amount ms with
          | Err e => Err e
          | Ok rest => Ok (if chainAmount =? amount then m :: rest else rest)
          end
      end
  end.

(** One request of the loop: [Some] is a return. *)
Definition satisfy_one (request : ForcedRequest.t) : M (option SatisfyAction) :=
  let id := ForcedRequest.RequestID request in
  if String.eqb (ForcedRequest.SatisfactionStatus request) StatusSubmitted &&
     negb (String.eqb (ForcedRequest.SatisfactionTxHash request) "")
  then do a <- reconcileSubmitted request; mret (Some a)
  else
    do raw <- ListForcedWithdrawalClaimMatches id 8;
    do matches <- mlift (amount_matches (ForcedRequest.Amount request) raw);
    match matches with
    | [] =>
        if negb (String.eqb (ForcedRequest.SatisfactionStatus request) StatusNone) ||
           negb (String.eqb (ForcedRequest.MatchedWithdrawalID request) "") ||
           negb (String.eqb (ForcedRequest.MatchedClaimID request) "")
        then do _ <- UpdateRollupForcedWithdrawalMatch id "" "" StatusNone ""; mret None
        else mret None
    | [m] =>
        do _ <- UpdateRollupForcedWithdrawalMatch id (ClaimMatch.WithdrawalID m) (ClaimMatch.ClaimID m) StatusReady "";
        do a <- submitSatisfaction id (ClaimMatch.ClaimID m);
        mret (Some a)
    | _ :: _ :: _ =>
        do _ <- UpdateRollupForcedWithdrawalMatch id "" "" StatusAmbiguous
                  "multiple claimed withdrawals match one forced-withdrawal request";
        mret (Some (ActionAmbiguous id))
    end.

Fixpoint satisfy_loop (requests : list ForcedRequest.t) : M SatisfyAction :=
  match requests with
  | [] => mret ActionNoop
  | request :: rest =>
      do a <- satisfy_one request;
      match a with Some a => mret a | None => satisfy_loop rest end
  end.

Definition satisfier_PollOnce : M SatisfyAction :=
  do freeze <- mlift (loadFreezeState (core_call core));
  if rollupCoreFreezeState.Frozen freeze then mret ActionRollupStop
  else do requests <- ListPendingRollupForcedWithdrawalRequests 20; satisfy_loop requests.

(** ** The mirror *)

Fixpoint mirror_loop (id : Z) (n : nat) : M unit :=
  match n with
  | O => mret ()
  | S n =>
      do c <- mlift (loadForcedWithdrawalRequest (core_call core) id);
      do _ <- UpsertRollupForcedWithdrawalRequest (from_core c "" "" "" "" 0 "" 0);
      mirror_loop (id + 1) n
  end.

Definition mirror_PollOnce : M (Z * bool * Z) :=
  do freeze <- mlift (loadFreezeState (core_call core));
  do _ <- UpsertRollupFreezeState (RollupFreezeState.mk (rollupCoreFreezeState.Frozen freeze)
            (wrap64 (rollupCoreFreezeState.FrozenAt freeze)) (wrap64 (rollupCoreFreezeState.FreezeRequestID freeze)) 0);
  do count <- mlift (loadForcedWithdrawalRequestCount (core_call core));
  do _ <- mirror_loop 1 (Z.to_nat count);
  mret (wrap64 count, rollupCoreFreezeState.Frozen freeze, wrap64 (rollupCoreFreezeState.FreezeRequestID freeze)).
End satisfier.

(** ** Reasoning about a poll *)

(** Rows by their key. *)
Definition forced_wf (d : ForcedDB) : Prop :=
  ∀ id r, f_requests d !! id = Some r → ForcedRequest.RequestID r = id.

(** The columns the contract decides. *)
Definition same_core (a b : ForcedRequest.t) : Prop :=
  ForcedRequest.RequestID a = ForcedRequest.RequestID b ∧
  ForcedRequest.WalletAddress a = ForcedRequest.WalletAddress b ∧
  ForcedRequest.RecipientAddress a = ForcedRequest.RecipientAddress b ∧
  ForcedRequest.Amount a = ForcedRequest.Amount b ∧ ForcedRequest.Status a = ForcedRequest.Status b.

(** What an update of one request does to the tables. *)
Definition row_update (id : Z) (d d' : ForcedDB) : Prop :=
  f_withdrawals d' = f_withdrawals d ∧
  (∀ i, i ≠ id → f_requests d' !! i = f_requests d !! i) ∧
  (∀ r, f_requests d !! id = Some r → ∃ r', f_requests d' !! id = Some r' ∧ same_core r r').

Lemma row_update_refl id d : row_update id d d.
Proof. split_and!; [done..|]. intros r H. exists r. by repeat split. Qed.

Lemma row_update_trans id d1 d2 d3 : row_update id d1 d2 → row_update id d2 d3 → row_update id d1 d3.
Proof.
  intros (W1 & O1 & R1) (W2 & O2 & R2). split_and!; [congruence|intros; rewrite O2, O1; done|].
  intros r H. destruct (R1 r H) as (r1 & H1 & S1). destruct (R2 r1 H1) as (r2 & H2 & S2).
  exists r2. split; [done|]. unfold same_core in *. intuition congruence.
Qed.

Lemma update_request_inv id f w w' r :
  (∀ now r, same_core r (f now r)) → update_request id f w = (w', r) →
  sent w' = sent w ∧ row_update id (fdb w) (fdb w') ∧
  ((∃ e, r = Err e ∧ fdb w' = fdb w) ∨
   (r = Ok () ∧ ∃ now, f_requests (fdb w') !! id = f now <$> f_requests (fdb w) !! id)).
Proof.
  intros Hf. unfold update_request. destruct (id <=? 0).
  { unfold mfail. intros [= <- <-]. split_and!; [done|apply row_update_refl|left; eauto]. }
  intros [Hs [(now & E & ->)|(E & e & ->)]]%statement_inv; cbn [fst snd] in E; rewrite E.
  - split_and!; [done| |right; split; [done|exists now; cbn [f_requests set_f_requests]; by rewrite lookup_alter_eq]].
    split_and!; cbn [f_withdrawals f_requests set_f_requests]; [done|intros i Hi; by rewrite lookup_alter_ne|].
    intros r0 H0. exists (f now r0). rewrite lookup_alter_eq, H0. split; [done|apply Hf].
  - split_and!; [done|apply row_update_refl|left; eauto].
Qed.

Lemma with_satisfaction_core r a b c d e f g h : same_core r (with_satisfaction r a b c d e f g h).
Proof. repeat split. Qed.
#[local] Hint Resolve with_satisfaction_core row_update_refl : core.

Lemma forced_wf_update id d d' : forced_wf d → row_update id d d' →
  (∀ r', f_requests d' !! id = Some r' → is_Some (f_requests d !! id)) → forced_wf d'.
Proof.
  intros Hw (_ & HO & HR) Hd i r H. destruct (decide (i = id)) as [->|Hi].
  - destruct (Hd _ H) as [r0 H0]. destruct (HR _ H0) as (r1 & H1 & S & _).
    rewrite H in H1. injection H1 as <-. rewrite <- S. exact (Hw _ _ H0).
  - apply Hw. by rewrite <- HO.
Qed.

(** Updating a request does not change which claims answer it. *)
Lemma claim_taken_update id d d' c : row_update id d d' → claim_taken d' id c ↔ claim_taken d id c.
Proof.
  intros (_ & HO & _). unfold claim_taken. split; intros (i & o & Hi & Hne & Ho);
    exists i, o; (split; [|done]); [by rewrite <- HO|by rewrite HO].
Qed.

Lemma claim_matches_update id limit d d' r :
  forced_wf d → row_update id d d' → f_requests d !! id = Some r →
  claim_matches id limit d' = claim_matches id limit d.
Proof.
  intros Hw Hu Hr. pose proof Hu as (HW & _ & HR). destruct (HR _ Hr) as (r' & Hr' & HI & Hwa & Hre & _ & Hst).
  unfold claim_matches. rewrite Hr, Hr', <- Hst. destruct (String.eqb _ _); [|done].
  do 3 f_equal. rewrite HW. apply list_filter_iff. intros a. unfold answers.
  rewrite <- Hwa, <- Hre, <- HI, (Hw _ _ Hr), (claim_taken_update id d d') by done. done.
Qed.

Lemma elem_of_take_inv {A} n (l : list A) x : x ∈ take n l → x ∈ l.
Proof. intros (i & H & _)%elem_of_take. exact (list_elem_of_lookup_2 _ _ _ H). Qed.

Lemma pending_lookup limit d r :
  forced_wf d → r ∈ pending limit d →
  f_requests d !! ForcedRequest.RequestID r = Some r ∧ ForcedRequest.Status r = StatusRequested.
Proof.
  intros Hw H. apply elem_of_take_inv in H.
  rewrite merge_sort_Permutation in H. apply list_elem_of_filter in H as [Hs H].
  apply list_elem_of_fmap in H as [[i r'] [-> H]]. apply elem_of_map_to_list in H.
  cbn [snd] in *. by rewrite (Hw _ _ H).
Qed.

Lemma pending_NoDup limit d : forced_wf d → NoDup (ForcedRequest.RequestID <$> pending limit d).
Proof.
  intros Hw. unfold pending. eapply sublist_NoDup; [|apply fmap_sublist, sublist_take].
  rewrite merge_sort_Permutation. eapply sublist_NoDup; [|apply fmap_sublist, sublist_filter].
  replace (ForcedRequest.RequestID <$> (map_to_list (f_requests d)).*2) with (map_to_list (f_requests d)).*1.
  { apply NoDup_fst_map_to_list. }
  rewrite <- list_fmap_compose. apply list_fmap_ext. intros k [i r] H.
  apply list_elem_of_lookup_2, elem_of_map_to_list in H. symmetry. exact (Hw _ _ H).
Qed.

Lemma claim_matches_elem id limit d r m :
  f_requests d !! id = Some r → m ∈ claim_matches id limit d →
  ∃ wid aw, f_withdrawals d !! wid = Some aw ∧ answers d r aw ∧ m = match_of aw.
Proof.
  intros Hr. unfold claim_matches. rewrite Hr. destruct (String.eqb _ _); [|by rewrite elem_of_nil].
  intros H. apply elem_of_take_inv in H.
  rewrite merge_sort_Permutation in H. apply list_elem_of_fmap in H as (aw & -> & H).
  apply list_elem_of_filter in H as [Ha H]. apply list_elem_of_fmap in H as [[wid aw'] [-> H]].
  apply elem_of_map_to_list in H. eauto.
Qed.

Lemma amount_matches_elem decimals digits amount ms l :
  amount_matches decimals digits amount ms = Ok l →
  ∀ m, m ∈ l ↔ m ∈ ms ∧ AccountingToChainAmount (ClaimMatch.Amount m) decimals digits = Ok amount.
Proof.
  revert l. induction ms as [|m0 ms IH]; intros l; cbn [amount_matches].
  { intros [= <-] m. rewrite elem_of_nil. tauto. }
  destruct (AccountingToChainAmount _ _ _) as [c|] eqn:Ec; [|done].
  destruct (amount_matches _ _ _ ms) as [rest|]; [|done]. intros [= <-] m. specialize (IH rest eq_refl m).
  destruct (Z.eqb_spec c amount) as [->|Hne]; rewrite ?elem_of_cons, IH; [intuition congruence|].
  split; [tauto|]. intros [[->|?] HA]; [congruence|tauto].
Qed.

(** ** Transactions of the satisfier *)

(** A transaction is on its way. *)
Definition in_flight (r : ForcedRequest.t) : bool :=
  String.eqb (ForcedRequest.SatisfactionStatus r) StatusSubmitted &&
  negb (String.eqb (ForcedRequest.SatisfactionTxHash r) "").

Section transactions.
Context (HexToHash : string → string) (decimals digits : Z).
Context (core : CoreReads).

(** Why the claim [h] answers the request [id]: before the poll nothing was on its way;
    after it the row records the claimed withdrawal of this wallet, recipient and amount,
    which no other request has and which is the only one of the listed matches. *)
Definition justified (d d' : ForcedDB) (id : Z) (h : string) : Prop :=
  ∃ r r' wid aw,
    f_requests d !! id = Some r ∧ in_flight r = false ∧
    f_requests d' !! id = Some r' ∧ ForcedRequest.Status r' = StatusRequested ∧
    ForcedRequest.MatchedClaimID r' = TrimSpace (AcceptedWithdrawalRecord.ClaimID aw) ∧
    f_withdrawals d' !! wid = Some aw ∧ answers d' r' aw ∧
    AccountingToChainAmount (AcceptedWithdrawalRecord.Amount aw) decimals digits = Ok (ForcedRequest.Amount r') ∧
    h = HexToHash (TrimSpace (AcceptedWithdrawalRecord.ClaimID aw)) ∧
    (∀ m, m ∈ claim_matches id 8 d' →
       AccountingToChainAmount (ClaimMatch.Amount m) decimals digits = Ok (ForcedRequest.Amount r') →
       m = match_of aw).

Lemma quiet_update id f : quiet (update_request id f).
Proof. unfold update_request. destruct (id <=? 0); [apply quiet_fail|apply quiet_statement]. Qed.
Lemma quiet_list id limit : quiet (ListForcedWithdrawalClaimMatches id limit).
Proof. unfold ListForcedWithdrawalClaimMatches. destruct (id <=? 0); [apply quiet_fail|apply quiet_statement]. Qed.
#[local] Hint Resolve quiet_update quiet_list : core.

Lemma quiet_reconcile request : quiet (reconcileSubmitted core request).
Proof.
  apply quiet_then; [auto|]. intros [[|]|]; [|apply quiet_then; intros; apply quiet_update || auto|auto].
  apply quiet_then; [auto|intros c]. apply quiet_then; [apply quiet_statement|intros []].
  destruct (_ || _); auto.
Qed.

Lemma update_tail {A} id f (x : A) w w' r :
  (∀ now y, same_core y (f now y) ∧ ForcedRequest.MatchedClaimID (f now y) = ForcedRequest.MatchedClaimID y) →
  (do _ <- update_request id f; mret x) w = (w', r) →
  sent w' = sent w ∧ row_update id (fdb w) (fdb w') ∧
  ∀ y, f_requests (fdb w) !! id = Some y →
    ∃ y', f_requests (fdb w') !! id = Some y' ∧ ForcedRequest.MatchedClaimID y' = ForcedRequest.MatchedClaimID y.
Proof.
  intros Hf [(w1 & [] & H1 & [= <- <-])|(e & H1 & ->)]%mthen_inv;
    apply update_request_inv in H1 as (Hs & Hu & [(e' & _ & E)|(_ & now & E)]); try apply Hf;
    (split_and!; [done..|]); intros y Hy.
  1,3: exists y; by rewrite E.
  all: exists (f now y); rewrite E, Hy; split; [done|apply Hf].
Qed.

(** The end of [submitSatisfaction]: at most the one transaction, and the row keeps its match. *)
Lemma submit_inv id claimID w w' r :
  submitSatisfaction HexToHash core id claimID w = (w', r) →
  (sent w' = sent w) ∨
  (sent w' = sent w ++ [(id, HexToHash (TrimSpace claimID))] ∧ row_update id (fdb w) (fdb w') ∧
   ∀ x, f_requests (fdb w) !! id = Some x →
     ∃ x', f_requests (fdb w') !! id = Some x' ∧ ForcedRequest.MatchedClaimID x' = ForcedRequest.MatchedClaimID x).
Proof.
  unfold submitSatisfaction. destruct (id <=? 0); [intros [= <- <-]; by left|].
  intros [(w1 & a & H1 & H2)|(e & H1 & _)]%mthen_inv; revert H1; unfold hand_over;
    destruct (satisfy_tx _ _ _) as [e1|e1|hash]; try done; intros [= <- <-];
    [injection H2 as <- <-; by left|right..];
    apply update_tail in H2 as (Hs & Hu & Hm); try (intros; split; [apply with_satisfaction_core|done]);
    exact (conj Hs (conj Hu Hm)).
Qed.

Lemma update_match_inv id wid cid status e w w' r :
  UpdateRollupForcedWithdrawalMatch id wid cid status e w = (w', r) →
  sent w' = sent w ∧ row_update id (fdb w) (fdb w') ∧
  ((∃ e, r = Err e ∧ fdb w' = fdb w) ∨
   (r = Ok () ∧ ∀ x, f_requests (fdb w) !! id = Some x → ∃ x', f_requests (fdb w') !! id = Some x' ∧
      ForcedRequest.MatchedClaimID x' = TrimSpace cid)).
Proof.
  intros (Hs & Hu & Hr)%update_request_inv; [|intros; apply with_satisfaction_core].
  split_and!; [done..|]. destruct Hr as [Hr|(-> & now & E)]; [by left|right; split; [done|]].
  intros x Hx. rewrite E, Hx. eexists. split; [done|]. done.
Qed.

(** The request with one match. *)
Lemma submit_match_inv request m w w' r :
  let id := ForcedRequest.RequestID request in
  forced_wf (fdb w) → f_requests (fdb w) !! id = Some request → in_flight request = false →
  ForcedRequest.Status request = StatusRequested →
  amount_matches decimals digits (ForcedRequest.Amount request) (claim_matches id 8 (fdb w)) = Ok [m] →
  (do _ <- UpdateRollupForcedWithdrawalMatch id (ClaimMatch.WithdrawalID m) (ClaimMatch.ClaimID m) StatusReady "";
   do a <- submitSatisfaction HexToHash core id (ClaimMatch.ClaimID m); mret (Some a)) w = (w', r) →
  (sent w' = sent w ∧ r ≠ Ok None) ∨
  (∃ h, sent w' = sent w ++ [(id, h)] ∧ justified (fdb w) (fdb w') id h ∧ r ≠ Ok None).
Proof.
  intros id Hw Hr Hf Hst Hm [(w1 & [] & H1 & H2)|(e & H1 & ->)]%mthen_inv;
    apply update_match_inv in H1 as (Hs1 & Hu1 & [(e' & He & E)|(He & Hx)]); try done; [|by left].
  assert (∃ r2, submitSatisfaction HexToHash core id (ClaimMatch.ClaimID m) w1 = (w', r2) ∧ r ≠ Ok None) as (r2 & H3 & Hn).
  { apply mthen_inv in H2 as [(w2 & a & H2 & [= <- <-])|(e & H2 & ->)]; eauto. }
  clear H2. rewrite <- Hs1. apply submit_inv in H3 as [H3|(H3 & Hu2 & Hk)]; [left; done|right].
  eexists. split; [exact H3|]. split; [|done].
  destruct (Hx _ Hr) as (x1 & Hx1 & Hc1). destruct (Hk _ Hx1) as (x2 & Hx2 & Hc2).
  pose proof (row_update_trans _ _ _ _ Hu1 Hu2) as Hu. pose proof Hu as (HW & _ & HR).
  destruct (HR _ Hr) as (x2' & Hx2' & HI & Hwa & Hre & Ham & Hs).
  rewrite Hx2 in Hx2'. injection Hx2' as <-.
  pose proof (amount_matches_elem _ _ _ _ _ Hm) as Hall.
  destruct (proj1 (Hall m) ltac:(apply list_elem_of_singleton; done)) as [Hin Hacc].
  destruct (claim_matches_elem _ _ _ _ _ Hr Hin) as (wid & aw & Haw & Hans & Em).
  exists request, x2, wid, aw. rewrite HW, <- Ham, <- Hs, Hc2, Hc1, Em in *.
  split_and!; try done.
  - unfold answers in *. rewrite <- Hwa, <- Hre, <- HI.
    by rewrite (claim_taken_update (ForcedRequest.RequestID request) (fdb w)).
  - rewrite (claim_matches_update id 8 (fdb w) (fdb w') request) by done.
    intros m' Hm' Ha. apply list_elem_of_singleton, Hall. done.
Qed.

Lemma satisfy_one_inv request w w' r :
  let id := ForcedRequest.RequestID request in
  forced_wf (fdb w) → f_requests (fdb w) !! id = Some request → ForcedRequest.Status request = StatusRequested →
  satisfy_one HexToHash decimals digits core request w = (w', r) →
  (sent w' = sent w ∧ (r = Ok None → row_update id (fdb w) (fdb w'))) ∨
  (∃ h, sent w' = sent w ++ [(id, h)] ∧ justified (fdb w) (fdb w') id h ∧ r ≠ Ok None).
Proof.
  intros id Hw Hr Hst. unfold satisfy_one. fold id. change (_ && _) with (in_flight request).
  destruct (in_flight request) eqn:Hf.
  { intros [(w1 & a & H1 & [= <- <-])|(e & H1 & ->)]%mthen_inv; left; (split; [exact (quiet_reconcile _ _ _ _ H1)|done]). }
  intros [(w1 & raw & H1 & H2)|(e & H1 & ->)]%mthen_inv; [|left; split; [exact (quiet_list _ _ _ _ _ H1)|done]].
  assert (sent w1 = sent w ∧ fdb w1 = fdb w ∧ raw = claim_matches id 8 (fdb w)) as (Hs1 & Hd1 & ->).
  { revert H1. unfold ListForcedWithdrawalClaimMatches. destruct (id <=? 0); [done|].
    intros [Hs [(now & E & [= ->])|(_ & e & [=])]]%statement_inv. done. }
  clear H1. apply mthen_inv in H2 as [(w2 & ms & [= <- Hms] & H2)|(e & [= <- Hms] & ->)]; [|by left].
  rewrite <- Hs1, <- Hd1 in *. destruct ms as [|m [|m2 ms]].
  - left. destruct (_ || _).
    + apply mthen_inv in H2 as [(w3 & [] & H2 & [= <- <-])|(e & H2 & ->)];
        apply update_match_inv in H2 as (Hs & Hu & _); done.
    + injection H2 as <- <-. done.
  - apply submit_match_inv in H2; [|done..]. destruct H2 as [[? ?]|?]; [left|right]; done.
  - left. apply mthen_inv in H2 as [(w3 & [] & H2 & [= <- <-])|(e & H2 & ->)];
      apply update_match_inv in H2 as (Hs & _ & _); done.
Qed.

Lemma satisfy_loop_inv requests w w' r :
  forced_wf (fdb w) → NoDup (ForcedRequest.RequestID <$> requests) →
  (∀ x, x ∈ requests → f_requests (fdb w) !! ForcedRequest.RequestID x = Some x ∧
                       ForcedRequest.Status x = StatusRequested) →
  satisfy_loop HexToHash decimals digits core requests w = (w', r) →
  sent w' = sent w ∨
  (∃ id h, id ∈ ForcedRequest.RequestID <$> requests ∧ sent w' = sent w ++ [(id, h)] ∧
           justified (fdb w) (fdb w') id h).
Proof.
  revert w. induction requests as [|x rest IH]; intros w Hw Hnd Hin; cbn [satisfy_loop].
  { intros [= <- <-]. by left. }
  rewrite fmap_cons in *. apply NoDup_cons in Hnd as [Hx Hnd].
  destruct (Hin x ltac:(left)) as [Hrx Hsx].
  assert (∀ v, (∃ h, sent v = sent w ++ [(ForcedRequest.RequestID x, h)] ∧
                     justified (fdb w) (fdb v) (ForcedRequest.RequestID x) h) →
               ∃ id h, id ∈ ForcedRequest.RequestID x :: (ForcedRequest.RequestID <$> rest) ∧
                       sent v = sent w ++ [(id, h)] ∧ justified (fdb w) (fdb v) id h) as Hhead.
  { intros v (h & Hs & Hj). exists (ForcedRequest.RequestID x), h. split; [left|done]. }
  intros [(w1 & a & H1 & H2)|(e & H1 & ->)]%mthen_inv;
    apply satisfy_one_inv in H1 as [[Hs Hu]|(h & Hs & Hj & Hn)]; try done; [| |by left|right; eauto].
  2: { destruct a as [a|]; [injection H2 as <- <-; right; eauto|done]. }
  destruct a as [a|]; [injection H2 as <- <-; by left|].
  specialize (Hu eq_refl). rewrite <- Hs. pose proof Hu as (_ & HO & _).
  assert (∀ y, y ∈ rest → ForcedRequest.RequestID y ≠ ForcedRequest.RequestID x) as Hne.
  { intros y Hy E. apply Hx. rewrite <- E. by apply list_elem_of_fmap_2. }
  apply IH in H2 as [H2|(id & h & Hid & H2 & Hj)]; [by left| |..|done| ].
  - right. exists id, h. split; [by right|split; [done|]].
    apply list_elem_of_fmap in Hid as (y & -> & Hy).
    destruct Hj as (r0 & Hj). exists r0. by rewrite <- HO by auto.
  - eapply forced_wf_update; eauto.
  - intros y Hy. rewrite HO by auto. apply Hin. by right.
Qed.

End transactions.

(** ** The mirrored tables *)

(** The columns of a row that come from the contract. *)
Definition mirrors (c : CoreRequest.t) (row : ForcedRequest.t) : Prop :=
  ForcedRequest.WalletAddress row = hex_text (CoreRequest.Wallet c) ∧
  ForcedRequest.RecipientAddress row = hex_text (CoreRequest.Recipient c) ∧
  ForcedRequest.Amount row = CoreRequest.Amount c ∧
  ForcedRequest.DeadlineAt row = wrap64 (CoreRequest.DeadlineAt c) ∧
  ForcedRequest.SatisfiedClaimID row = normalizeChainTxHash (hex_text (CoreRequest.SatisfiedClaimID c)) ∧
  ForcedRequest.SatisfiedAt row = wrap64 (CoreRequest.SatisfiedAt c) ∧
  ForcedRequest.Status row = mapForcedWithdrawalStatus (CoreRequest.Status c).

(** The columns of the satisfier. *)
Definition progress_kept (c : CoreRequest.t) (old : option ForcedRequest.t) (row : ForcedRequest.t) : Prop :=
  ForcedRequest.SatisfactionTxHash row = default "" (ForcedRequest.SatisfactionTxHash <$> old) ∧
  ForcedRequest.SatisfactionSubmittedAt row = default 0 (ForcedRequest.SatisfactionSubmittedAt <$> old) ∧
  ForcedRequest.MatchedWithdrawalID row = default "" (ForcedRequest.MatchedWithdrawalID <$> old) ∧
  (CoreRequest.Status c ≠ 2 →
   ForcedRequest.SatisfactionStatus row = default StatusNone (ForcedRequest.SatisfactionStatus <$> old)).

Lemma upserted_mirrors now old c :
  let row := upserted now old (from_core c "" "" "" "" 0 "" 0) in mirrors c row ∧ progress_kept c old row.
Proof.
  unfold mirrors, progress_kept. destruct old as [o|]; cbn -[normalizeChainTxHash hex_text TrimSpace];
    split_and!; try done.
  unfold mapForcedWithdrawalStatus. intros H. rewrite (proj2 (Z.eqb_neq _ _) H).
  by destruct (CoreRequest.Status c =? 1), (CoreRequest.Status c =? 3).
Qed.

Section mirroring.
(** The contract, and a database that does not fail. *)
Context (core : CoreReads) (st : CoreState).
Context (reads : core_call core = read_abi st).

Definition amount_fits (i : Z) : Prop := 0 ≤ q_amount (forcedWithdrawalRequests st i) ≤ MaxInt64.

(** The row of request [i] after a poll. *)
Definition row_copied (d d' : ForcedDB) (i : Z) : Prop :=
  let c := as_request i (forcedWithdrawalRequests st i) in
  ∃ row, f_requests d' !! i = Some row ∧ mirrors c row ∧ progress_kept c (f_requests d !! i) row.

Lemma forced_upsert_ok r w :
  (∀ n, ffail w n = None) →
  ∃ w' now, UpsertRollupForcedWithdrawalRequest r w = (w', Ok ()) ∧ sent w' = sent w ∧ (∀ n, ffail w' n = None) ∧
    fdb w' = set_f_requests (fdb w)
      (<[ForcedRequest.RequestID r := upserted now (f_requests (fdb w) !! ForcedRequest.RequestID r) r]>
         (f_requests (fdb w))).
Proof.
  intros Hw. destruct (statement_ok (λ now d, let id := ForcedRequest.RequestID r in
    (set_f_requests d (<[id := upserted now (f_requests d !! id) r]> (f_requests d)), ())) w Hw)
    as (w' & now & E & Hd & Hs & Hw').
  by exists w', now.
Qed.

Lemma mirror_loop_ok n : ∀ id w,
  1 ≤ id → id + Z.of_nat n ≤ 2 ^ 63 → (∀ n, ffail w n = None) →
  (∀ i, id ≤ i < id + Z.of_nat n → amount_fits i) →
  ∃ w', mirror_loop core id n w = (w', Ok ()) ∧
    f_withdrawals (fdb w') = f_withdrawals (fdb w) ∧ f_freeze (fdb w') = f_freeze (fdb w) ∧ sent w' = sent w ∧
    (∀ i, id ≤ i < id + Z.of_nat n → row_copied (fdb w) (fdb w') i) ∧
    (∀ i, ¬ (id ≤ i < id + Z.of_nat n) → f_requests (fdb w') !! i = f_requests (fdb w) !! i).
Proof.
  induction n as [|n IH]; intros id w Hid Hn Hw Ha; cbn [mirror_loop].
  { exists w. split_and!; try done. lia. }
  unfold mthen at 1, mlift. destruct (Ha id ltac:(lia)) as [Ha0 Ha1].
  rewrite reads, read_request, (proj2 (Z.leb_le _ _) Ha1) by done.
  set (c := as_request id _). unfold mthen.
  destruct (forced_upsert_ok (from_core c "" "" "" "" 0 "" 0) w Hw) as (w1 & now & -> & Hs & Hw1 & Hd).
  assert (ForcedRequest.RequestID (from_core c "" "" "" "" 0 "" 0) = id) as Eid.
  { apply wrap64_id. unfold int64, MinInt64, MaxInt64. cbn. lia. }
  rewrite Eid in Hd. destruct (IH (id + 1) w1) as (w' & -> & HW & HF & HS & HR & HO);
    [lia|lia|done|intros; apply Ha; lia|].
  exists w'. rewrite Hd in *. cbn [f_withdrawals f_freeze f_requests set_f_requests] in *.
  split_and!; [done..|congruence| |].
  - intros i Hi. destruct (decide (i = id)) as [->|Hne].
    + eexists. rewrite HO, lookup_insert_eq by lia. split; [done|apply upserted_mirrors].
    + destruct (HR i ltac:(lia)) as (row & Hrow & Hm & Hp). exists row.
      cbn [f_requests set_f_requests] in Hp. rewrite lookup_insert_ne in Hp by done. done.
  - intros i Hi. rewrite HO by lia. by rewrite lookup_insert_ne by lia.
Qed.


Lemma mirror_loop_huge i n : ∀ id w w' r,
  1 ≤ id ≤ i → i < id + Z.of_nat n → i < 2 ^ 63 → MaxInt64 < q_amount (forcedWithdrawalRequests st i) →
  mirror_loop core id n w = (w', r) →
  (∃ e, r = Err e) ∧ (∀ j, i < j → f_requests (fdb w') !! j = f_requests (fdb w) !! j).
Proof.
  induction n as [|n IH]; intros id w w' r Hid Hi Hi63 Ha; [lia|]. cbn [mirror_loop].
  intros [(w1 & c & [= <- Hc] & H2)|(e & [= <- _] & ->)]%mthen_inv; [|eauto].
  destruct (decide (id = i)) as [->|Hne].
  { rewrite reads, read_request, (proj2 (Z.leb_gt _ _) Ha) in Hc by (unfold MaxInt64 in *; lia). done. }
  pose proof (loadForcedWithdrawalRequest_id _ _ _ Hc) as Eid.
  apply mthen_inv in H2 as [(w2 & [] & H2 & H3)|(e & H2 & ->)];
    apply statement_inv in H2 as [_ [(now & E & Er)|(E & e' & Er)]]; try done; cbn [fst snd] in E.
  - apply IH in H3 as [He HO]; [|lia..|done]. split; [done|]. intros j Hj. rewrite HO, E by lia.
    cbn [f_requests set_f_requests]. rewrite lookup_insert_ne; [done|].
    cbn [ForcedRequest.RequestID from_core]. rewrite Eid, wrap64_id; [lia|].
    unfold int64, MinInt64, MaxInt64. lia.
  - split; [eauto|]. intros j _. by rewrite E.
Qed.

(** A request for more than an [int64] holds, which anyone may make, ends every poll of the
    mirror with an error: no later request is copied, and so none is satisfied before its
    deadline. *)
Theorem huge_request_stops_mirror i w w' r :
  1 ≤ i ≤ forcedWithdrawalRequestCount st → i < 2 ^ 63 → MaxInt64 < q_amount (forcedWithdrawalRequests st i) →
  mirror_PollOnce core w = (w', r) →
  (∃ e, r = Err e) ∧ (∀ j, i < j → f_requests (fdb w') !! j = f_requests (fdb w) !! j).
Proof.
  intros Hi Hi63 Ha [(w1 & f & [= <- _] & H)|(e & [= <- _] & ->)]%mthen_inv; [|eauto].
  apply mthen_inv in H as [(w2 & [] & H1 & H)|(e & H1 & ->)];
    apply statement_inv in H1 as [_ [(now & E & Er)|(E & e' & Er)]]; try done; cbn [fst snd] in E;
    [|split; [eauto|intros j _; by rewrite E]].
  apply mthen_inv in H as [(w3 & count & [= <- Hcount] & H)|(e & [= <- _] & ->)];
    [|split; [eauto|intros j _; by rewrite E]].
  destruct (core_reads_exact st 0) as (_ & _ & _ & _ & Hn & _). rewrite reads, Hn in Hcount. injection Hcount as <-.
  assert (∃ r2, mirror_loop core 1 (Z.to_nat (forcedWithdrawalRequestCount st)) w2 = (w', r2) ∧
                ((∃ e, r2 = Err e) → ∃ e, r = Err e)) as (r2 & Hl & Hr).
  { apply mthen_inv in H as [(w4 & [] & H2 & [= <- <-])|(e & H2 & ->)]; eexists; (split; [exact H2|]); [by intros [? [=]]|eauto]. }
  apply (mirror_loop_huge i) in Hl as [He HO]; [|lia..|done].
  split; [by apply Hr|]. intros j Hj. by rewrite HO, E by lia.
Qed.
End mirroring.

(** ** Runs *)

Module ForcedRuns.
Definition to_hash (s : string) : string := default zero_hash (hex_bytes s).

Fixpoint repeated (n : nat) (c : string) : string :=
  match n with O => "" | S n => c +:+ repeated n c end.
Definition wallet (c : string) : string := repeated 20 c.
Definition hash (c : string) : string := repeated 32 c.

(** A claimed withdrawal of a wallet to itself; amounts have two digits, the token six. *)
Definition claimed (id : string) (c : string) (amount : Z) (claim : string) (at_ : Z) : AcceptedWithdrawalRecord.t :=
  AcceptedWithdrawalRecord.mk id 1 1 (hex_text (wallet c)) (hex_text (wallet c)) "" "USDT" amount "" "" "" 1
    (hex_text (hash claim)) "CLAIMED" "" 0 at_ "" 0 0 0.

Definition request (c : string) (amount : Z) : ForcedWithdrawalRequest :=
  mkForcedWithdrawalRequest (wallet c) (wallet c) amount 10 100 zero_hash 0 0 1.
Definition satisfied (q : ForcedWithdrawalRequest) (claim : string) : ForcedWithdrawalRequest :=
  mkForcedWithdrawalRequest (q_wallet q) (q_recipient q) (q_amount q) (q_requestedAt q) (q_deadlineAt q)
    claim 20 0 2.

(** A contract with these requests; every transaction is accepted by the node. *)
Definition core_of (qs : list ForcedWithdrawalRequest) : CoreState :=
  mkCoreState 0 zero_hash 0 zero_hash (λ _, mkBatchMetadata zero_hash zero_hash zero_hash) (λ _, false)
    (λ _, mkAcceptedBatch 0 0 0 zero_hash zero_hash zero_hash zero_hash zero_hash zero_hash zero_hash zero_hash
            zero_hash zero_hash)
    false 0 0 (Z.of_nat (length qs))
    (λ i, default (mkForcedWithdrawalRequest "" "" 0 0 0 zero_hash 0 0 0) (qs !! Z.to_nat (i - 1)))
    0 zero_hash (λ _, mkEscapeCollateralRoot zero_hash 0 0 0).
Definition contract (qs : list ForcedWithdrawalRequest) : CoreReads :=
  mkCoreReads (read_abi (core_of qs)) (λ _, Ok None) (λ _ _, Sent "0xAB").

Definition start (ws : list AcceptedWithdrawalRecord.t) : World ForcedDB (Z * string) :=
  mkWorld (mkForcedDB ∅ (list_to_map ((λ a, (AcceptedWithdrawalRecord.WithdrawalID a, a)) <$> ws)) None)
    (λ n, 1000 + Z.of_nat n) (λ _, None) 0 [].

Definition mirror (c : CoreReads) (w : World ForcedDB (Z * string)) : World ForcedDB (Z * string) := (mirror_PollOnce c w).1.
Definition poll (c : CoreReads) (w : World ForcedDB (Z * string)) : World ForcedDB (Z * string) * result string SatisfyAction :=
  satisfier_PollOnce to_hash 6 2 c w.

Definition alice1 : ForcedWithdrawalRequest := request "a" 50000.
Definition alice2 : ForcedWithdrawalRequest := request "a" 50000.
Definition bob2 : ForcedWithdrawalRequest := request "b" 70000.

(** The tables before a poll of a run: the requests were mirrored. *)
Definition one_claim : World ForcedDB (Z * string) := mirror (contract [alice1; alice2]) (start [claimed "wd_1" "a" 5 "x" 5]).
End ForcedRuns.

Import ForcedRuns.

Lemma forced_wf_check d : map_Forall (λ id r, ForcedRequest.RequestID r = id) (f_requests d) → forced_wf d.
Proof. intros H id r Hr. exact (H id r Hr). Qed.



(** One claimed withdrawal is submitted for two requests: a satisfied request holds the
    claim without the prefix that the accepted withdrawal has, so the exclusion does not
    find it. *)
Theorem claim_satisfies_two_requests :
  let w1 := (poll (contract [alice1; alice2]) one_claim).1 in
  let c := contract [satisfied alice1 (hash "x"); alice2] in
  sent (poll c (mirror c w1)).1 = [(1, hash "x"); (2, hash "x")].
Proof. vm_compute. reflexivity. Qed.

(** For a request the contract has not satisfied, the mirror replaces the match that the
    satisfier recorded by the zero hash. *)
Theorem mirror_erases_match now o c :
  CoreRequest.SatisfiedClaimID c = zero_hash →
  ForcedRequest.MatchedClaimID (upserted now (Some o) (from_core c "" "" "" "" 0 "" 0)) =
  EncodeToString zero_hash.
Proof.
  intros Hc. unfold upserted, from_core.
  cbn [ForcedRequest.MatchedClaimID ForcedRequest.SatisfiedClaimID]. rewrite Hc. vm_compute. reflexivity.
Qed.

(** A request with two matching withdrawals ends every poll, so the next request, which has
    its one claim, is not submitted. *)
Theorem ambiguous_request_blocks_rest :
  let c := contract [alice1; bob2] in
  let w := mirror c (start [claimed "wd_1" "a" 5 "x" 5; claimed "wd_2" "a" 5 "y" 6; claimed "wd_3" "b" 7 "z" 7]) in
  let '(w1, r1) := poll c w in let '(w2, r2) := poll c w1 in
  claim_matches 2 8 (fdb w) = [match_of (claimed "wd_3" "b" 7 "z" 7)] ∧
  r1 = Ok (ActionAmbiguous 1) ∧ r2 = Ok (ActionAmbiguous 1) ∧ sent w2 = [].
Proof. vm_compute. repeat split; reflexivity. Qed.

(** Only the eight oldest claimed withdrawals of the wallet are compared with the requested
    amount: the ninth, which has it, is not found. *)
Theorem match_limit_hides_claim :
  let c := contract [alice1] in
  let w := mirror c (start (claimed "wd_9" "a" 5 "x" 9 ::
    ((λ s, claimed ("old_" +:+ s) "a" 1 s 1) <$> ["1"; "2"; "3"; "4"; "5"; "6"; "7"; "8"]))) in
  AccountingToChainAmount 5 6 2 = Ok 50000 ∧
  (∃ r, f_requests (fdb w) !! 1 = Some r ∧ ForcedRequest.Amount r = 50000 ∧
        bool_decide (answers (fdb w) r (claimed "wd_9" "a" 5 "x" 9)) = true) ∧
  (poll c w).2 = Ok ActionNoop ∧ sent (poll c w).1 = [].
Proof.
  split; [vm_compute; reflexivity|split; [|split; vm_compute; reflexivity]].
  eexists. split; [vm_compute; reflexivity|]. split; vm_compute; reflexivity.
Qed.
