(* ===== verification/EscapeHatch.v ===== *)
(** * Chain service: the escape hatch

    [chain/service/escape_hatch_runtime.go]: the commands that request a forced withdrawal,
    freeze the rollup for a missed one, and claim the collateral of an anchored escape root;
    with the statements of [rollup/store.go] they run.  Keys, addresses and their text forms
    are go-ethereum's; an address is its 20 bytes. *)

From stdpp Require Import sorting.
From S2P Require Import Prelude Strings Shared Auth RollupState Merkle RollupSubmission RollupSubmitter.
From S2P Require Import RollupCore.

Local Open Scope Z_scope.
Local Open Scope go_scope.

Module Leaf := AcceptedEscapeCollateralLeafRecord.
Module Root := AcceptedEscapeCollateralRootRecord.

Definition EscapeCollateralClaimStatusSubmitted : string := "CLAIM_SUBMITTED".
Definition EscapeCollateralClaimStatusClaimed : string := "CLAIMED".
Definition EscapeCollateralClaimStatusFailed : string := "CLAIM_FAILED".

(** ** Data *)

Module EscapeHatchProgress.
Record t := mk {
  Action : string;
  RequestID : Z;
  Wallet : string;
  Recipient : string;
  Amount : Z;
  TxHash : string;
  Claim : option Leaf.t;
  RootOf : option Root.t;
  Frozen : bool;
  FrozenAt : Z;
  Note : string;
}.
End EscapeHatchProgress.

Inductive EscapeCall :=
| requestForcedWithdrawal (recipient : string) (amount : Z)
| freezeForMissedForcedWithdrawal (requestID : Z)
| claimEscapeCollateral (batchID leafIndex amount : Z) (recipient : string) (proof : list string).

(** [rollup_accepted_escape_roots] by batch, [rollup_accepted_escape_leaves] by claim. *)
Record EscapeDB := mkEscapeDB { e_roots : gmap Z Root.t; e_leaves : gmap string Leaf.t }.

(** A transaction: its sender and the call. *)
Definition E (A : Type) : Type := Step EscapeDB (string * EscapeCall) A.

(** The node during a command: the views, receipts by hash, and the answers a wait for a
    receipt gets until the context ends. *)
Record EscapeNode := mkEscapeNode {
  node_call : Call;
  node_send : string → EscapeCall → Sending;
  node_receipt : string → result string (option bool);
  node_wait : string → list (result string (option bool));
}.

(** ** The statements *)

Definition by_batch_desc (a b : Root.t) : Prop := Root.BatchID b ≤ Root.BatchID a.
#[global] Instance by_batch_desc_dec a b : Decision (by_batch_desc a b).
Proof. unfold by_batch_desc. apply _. Defined.

Definition latest_anchor (d : EscapeDB) : option Root.t :=
  head (merge_sort by_batch_desc
    (filter (λ r, Root.AnchorStatus r = "ANCHORED") (map_to_list (e_roots d)).*2)).

Definition by_status (a b : Leaf.t) : Prop :=
  (String.le (Leaf.ClaimStatus a) (Leaf.ClaimStatus b) ∧ Leaf.ClaimStatus a ≠ Leaf.ClaimStatus b) ∨
  (Leaf.ClaimStatus a = Leaf.ClaimStatus b ∧ Leaf.AccountID a ≤ Leaf.AccountID b).
#[global] Instance by_status_dec a b : Decision (by_status a b).
Proof. unfold by_status. apply _. Defined.

(** The conditions of the query; the wallet and the claim are normalized. *)
Definition selected (batchID accountID : Z) (wallet claimID : string) (l : Leaf.t) : Prop :=
  Leaf.BatchID l = batchID ∧ (0 < accountID → Leaf.AccountID l = accountID) ∧
  (wallet ≠ "" → Leaf.WalletAddress l = wallet) ∧ (claimID ≠ "" → Leaf.ClaimID l = claimID).
#[global] Instance selected_dec b a w c l : Decision (selected b a w c l).
Proof. unfold selected. apply _. Defined.

Definition find_claim (d : EscapeDB) (accountID : Z) (wallet claimID : string) : option (Root.t * Leaf.t) :=
  root ← latest_anchor d;
  leaf ← head (merge_sort by_status
                 (filter (selected (Root.BatchID root) accountID wallet claimID) (map_to_list (e_leaves d)).*2));
  Some (root, leaf).

Definition GetLatestAnchoredEscapeCollateralClaim (accountID : Z) (walletAddress claimID : string)
    : E (option (Root.t * Leaf.t)) :=
  statement (λ _ d, (d, find_claim d accountID (NormalizeHex walletAddress) (TrimSpace claimID))).

Definition updateEscapeCollateralClaim (claimID : string) (f : Z → Leaf.t → Leaf.t) : E Leaf.t :=
  let claimID := TrimSpace claimID in
  do found <- statement (λ now d,
    match e_leaves d !! claimID with
    | Some l => (mkEscapeDB (e_roots d) (<[claimID := f now l]> (e_leaves d)), Some (f now l))
    | None => (d, None)
    end);
  match found with
  | Some l => mret l
  | None => mfail ("rollup accepted escape claim " +:+ claimID +:+ " not found")
  end.

(** The leaf with other claim columns. *)
Definition with_claim (l : Leaf.t) (status txHash : string) (submittedAt claimedAt : Z) (lastError : string)
    (lastErrorAt now : Z) : Leaf.t :=
  Leaf.mk (Leaf.BatchID l) (Leaf.AccountID l) (Leaf.WalletAddress l) (Leaf.CollateralAsset l) (Leaf.ClaimAmount l)
    (Leaf.LeafIndex l) (Leaf.LeafHash l) (Leaf.ProofHashes l) (Leaf.ClaimID l) status txHash submittedAt claimedAt
    lastError lastErrorAt (Leaf.CreatedAt l) now.

Definition MarkEscapeCollateralClaimSubmitted (claimID txHash : string) : E Leaf.t :=
  updateEscapeCollateralClaim claimID (λ now l,
    with_claim l EscapeCollateralClaimStatusSubmitted (normalizeSubmissionTxHash txHash) now (Leaf.ClaimedAt l) "" 0 now).

Definition MarkEscapeCollateralClaimFailed (claimID errMsg : string) : E Leaf.t :=
  updateEscapeCollateralClaim claimID (λ now l,
    with_claim l EscapeCollateralClaimStatusFailed (Leaf.ClaimTxHash l) (Leaf.ClaimSubmittedAt l) (Leaf.ClaimedAt l)
      (normalizeSubmissionError errMsg) now now).

Definition MarkEscapeCollateralClaimClaimed (claimID txHash : string) : E Leaf.t :=
  updateEscapeCollateralClaim claimID (λ now l,
    with_claim l EscapeCollateralClaimStatusClaimed (normalizeSubmissionTxHash txHash) (Leaf.ClaimSubmittedAt l) now "" 0 now).

(** ** The commands *)

Section commands.
(** go-ethereum: a private key's address, the check and the bytes of an address text, its
    text with checksum, the bytes of a hash text, and Keccak-256. *)
Context (HexToECDSA : string → result string string) (IsHexAddress : string → bool)
  (HexToAddress Hex HexToHash Keccak256 : string → string).
Context (decimals digits : Z) (node : EscapeNode).

Definition validateClaimAddress (field value : string) : result string string :=
  let trimmed := TrimSpace value in
  if String.eqb trimmed "" then Err (field +:+ " is required")
  else if negb (IsHexAddress trimmed) then Err (field +:+ " must be a valid EVM address")
  else let address := HexToAddress trimmed in
       if String.eqb address (zero_bytes 20) then Err (field +:+ " must not be zero address") else Ok address.

Definition parseEscapeWalletKey (privateKeyHex : string) : result string string :=
  if String.eqb (TrimSpace privateKeyHex) "" then Err "wallet private key is required"
  else HexToECDSA (TrimPrefix0x (TrimSpace privateKeyHex)).

Definition normalizeEscapeRecipient (defaultAddress recipient : string) : result string string :=
  if String.eqb (TrimSpace recipient) "" then Ok defaultAddress else validateClaimAddress "recipient" recipient.

Definition sendEscapeTx (from : string) (call : EscapeCall) : E string :=
  do r <- hand_over (from, call) (node_send node from call);
  match r with
  | NotSent e | SendFailed e => mfail e
  | Sent hash => mret (normalizeChainTxHash hash)
  end.

Fixpoint wait_loop (answers : list (result string (option bool))) : result string unit :=
  match answers with
  | [] => Err "context canceled"
  | Err e :: _ => Err e
  | Ok None :: answers => wait_loop answers
  | Ok (Some false) :: _ => Err "transaction reverted onchain"
  | Ok (Some true) :: _ => Ok ()
  end.

Definition waitForSuccessfulReceipt (txHash : string) : result string unit :=
  wait_loop (node_wait node ("0x" +:+ normalizeChainTxHash txHash)).

Definition RunRequestForcedWithdrawalOnce (walletPrivateKey : string) (amountAccounting : Z) (recipient : string)
    : E EscapeHatchProgress.t :=
  do from <- mlift (parseEscapeWalletKey walletPrivateKey);
  do to <- mlift (normalizeEscapeRecipient from recipient);
  if amountAccounting <=? 0 then mfail "amount must be positive"
  else
    do chainAmount <- match AccountingToChainAmount amountAccounting decimals digits with
                      | Ok n => mret n | Err _ => mfail "convert amount" end;
    if chainAmount <=? 0 then mfail "amount resolves to non-positive chain amount"
    else
      do txHash <- sendEscapeTx from (requestForcedWithdrawal to chainAmount);
      do _ <- mlift (waitForSuccessfulReceipt txHash);
      do requestCount <- mlift (loadForcedWithdrawalRequestCount (node_call node));
      mret (EscapeHatchProgress.mk "FORCED_WITHDRAWAL_REQUESTED" requestCount (Hex from) (Hex to) chainAmount txHash
              None None false 0 "").

Definition RunFreezeForcedWithdrawalOnce (operatorPrivateKey : string) (requestID : Z) : E EscapeHatchProgress.t :=
  if requestID =? 0 then mfail "request_id must be positive"
  else
    do from <- mlift (parseEscapeWalletKey operatorPrivateKey);
    do txHash <- sendEscapeTx from (freezeForMissedForcedWithdrawal requestID);
    do _ <- mlift (waitForSuccessfulReceipt txHash);
    do freeze <- mlift (loadFreezeState (node_call node));
    mret (EscapeHatchProgress.mk "ROLLUP_FROZEN" requestID "" "" 0 txHash None None
            (rollupCoreFreezeState.Frozen freeze) (rollupCoreFreezeState.FrozenAt freeze) "").

Definition submitEscapeCollateralClaim (from to : string) (root : Root.t) (leaf : Leaf.t) : E string :=
  sendEscapeTx from (claimEscapeCollateral (wrapu64 (Root.BatchID root)) (wrapu64 (Leaf.LeafIndex leaf))
    (Leaf.ClaimAmount leaf) to (HexToHash <$> Leaf.ProofHashes leaf)).

Definition reconcileSubmittedEscapeClaim (leaf : Leaf.t) : E EscapeHatchProgress.t :=
  let txHash := normalizeChainTxHash (Leaf.ClaimTxHash leaf) in
  if String.eqb txHash "" then
    do updated <- MarkEscapeCollateralClaimFailed (Leaf.ClaimID leaf) "submitted escape claim is missing tx hash";
    mret (EscapeHatchProgress.mk "ESCAPE_COLLATERAL_CLAIM_FAILED" 0 "" "" (Leaf.ClaimAmount updated) "" (Some updated)
            None false 0 (Leaf.LastError updated))
  else
    do receipt <- mlift (node_receipt node ("0x" +:+ txHash));
    match receipt with
    | None =>
        mret (EscapeHatchProgress.mk "ESCAPE_COLLATERAL_CLAIM_PENDING" 0 "" "" (Leaf.ClaimAmount leaf)
                ("0x" +:+ txHash) (Some leaf) None false 0 "escape collateral claim transaction is still pending")
    | Some false =>
        do updated <- MarkEscapeCollateralClaimFailed (Leaf.ClaimID leaf) "escape collateral claim reverted onchain";
        mret (EscapeHatchProgress.mk "ESCAPE_COLLATERAL_CLAIM_FAILED" 0 "" "" (Leaf.ClaimAmount updated)
                ("0x" +:+ txHash) (Some updated) None false 0 (Leaf.LastError updated))
    | Some true =>
        do updated <- MarkEscapeCollateralClaimClaimed (Leaf.ClaimID leaf) txHash;
        mret (EscapeHatchProgress.mk "ESCAPE_COLLATERAL_CLAIMED" 0 "" "" (Leaf.ClaimAmount updated)
                ("0x" +:+ txHash) (Some updated) None false 0 "")
    end.

(** [progress.Wallet], [.Recipient] and [.Root] are set by the caller. *)
Definition addressed (from to : string) (root : Root.t) (p : EscapeHatchProgress.t) : EscapeHatchProgress.t :=
  EscapeHatchProgress.mk (EscapeHatchProgress.Action p) (EscapeHatchProgress.RequestID p) (Hex from) (Hex to)
    (EscapeHatchProgress.Amount p) (EscapeHatchProgress.TxHash p) (EscapeHatchProgress.Claim p) (Some root)
    (EscapeHatchProgress.Frozen p) (EscapeHatchProgress.FrozenAt p) (EscapeHatchProgress.Note p).

(** A step whose error the code handles. *)
Definition attempt {A} (m : E A) : E (result string A) := λ w, let '(w, r) := m w in (w, Ok r).

Definition submit_claim (from to : string) (root : Root.t) (leaf : Leaf.t) : E EscapeHatchProgress.t :=
  do submitted <- attempt (submitEscapeCollateralClaim from to root leaf);
  match submitted with
  | Err err =>
      do marked <- attempt (MarkEscapeCollateralClaimFailed (Leaf.ClaimID leaf) err);
      let leaf := match marked with Ok updated => updated | Err _ => leaf end in
      mret (EscapeHatchProgress.mk "ESCAPE_COLLATERAL_CLAIM_FAILED" 0 (Hex from) (Hex to) (Leaf.ClaimAmount leaf) ""
              (Some leaf) (Some root) false 0 err)
  | Ok txHash =>
      do leaf <- MarkEscapeCollateralClaimSubmitted (Leaf.ClaimID leaf) txHash;
      do progress <- reconcileSubmittedEscapeClaim leaf;
      mret (addressed from to root progress)
  end.

Definition claim_found (from to : string) (root : Root.t) (leaf : Leaf.t) : E EscapeHatchProgress.t :=
  if negb (VerifyAcceptedEscapeCollateralProof Keccak256 (Root.MerkleRoot root) (Leaf.LeafHash leaf)
             (Leaf.ProofHashes leaf) (Leaf.LeafIndex leaf))
  then mfail ("escape collateral proof does not verify for claim " +:+ Leaf.ClaimID leaf)
  else if String.eqb (Leaf.ClaimStatus leaf) EscapeCollateralClaimStatusClaimed then
    mret (EscapeHatchProgress.mk "ESCAPE_COLLATERAL_ALREADY_CLAIMED" 0 (Hex from) (Hex to) (Leaf.ClaimAmount leaf) ""
            (Some leaf) (Some root) false 0 "")
  else if String.eqb (Leaf.ClaimStatus leaf) EscapeCollateralClaimStatusSubmitted then
    do progress <- reconcileSubmittedEscapeClaim leaf;
    mret (addressed from to root progress)
  else submit_claim from to root leaf.

Definition RunClaimEscapeCollateralOnce (walletPrivateKey : string) (accountID : Z) (claimID recipient : string)
    : E EscapeHatchProgress.t :=
  do from <- mlift (parseEscapeWalletKey walletPrivateKey);
  do to <- mlift (normalizeEscapeRecipient from recipient);
  do found <- GetLatestAnchoredEscapeCollateralClaim accountID (Hex from) claimID;
  match found with
  | None => mfail ("no anchored escape collateral claim found for wallet " +:+ ToLower (Hex from))
  | Some (root, leaf) => claim_found from to root leaf
  end.
End commands.

(** ** What a command does *)

Lemma head_sorted {A} (R : relation A) `{!∀ x y, Decision (R x y), !Transitive R, !Total R} (l : list A) x :
  head (merge_sort R l) = Some x → x ∈ l ∧ ∀ y, y ∈ l → y = x ∨ R x y.
Proof.
  intros Hh. assert (Sorted.StronglySorted R (merge_sort R l)) as HS
    by (apply Sorted.Sorted_StronglySorted; [done|apply Sorted_merge_sort; apply _]).
  destruct (merge_sort R l) as [|x' rest] eqn:E; [done|]. injection Hh as ->. inversion HS as [|? ? _ HF]; subst.
  assert (∀ y, y ∈ l ↔ y ∈ x :: rest) as Hin by (intros y; by rewrite <- E, merge_sort_Permutation).
  split; [apply Hin; left|]. intros y [->|Hy]%Hin%elem_of_cons; [by left|right].
  by apply (proj1 (List.Forall_forall _ _) HF), list_elem_of_In.
Qed.

#[global] Instance by_batch_desc_trans : Transitive by_batch_desc.
Proof. unfold by_batch_desc. intros ???. lia. Qed.
#[global] Instance by_batch_desc_total : Total by_batch_desc.
Proof. unfold by_batch_desc. intros ??. lia. Qed.

(** The newest anchored root. *)
Definition is_latest (d : EscapeDB) (root : Root.t) : Prop :=
  (∃ b, e_roots d !! b = Some root) ∧ Root.AnchorStatus root = "ANCHORED" ∧
  ∀ b r, e_roots d !! b = Some r → Root.AnchorStatus r = "ANCHORED" → Root.BatchID r ≤ Root.BatchID root.

Lemma elem_of_values {K V} `{Countable K} (m : gmap K V) v : v ∈ (map_to_list m).*2 ↔ ∃ k, m !! k = Some v.
Proof.
  rewrite list_elem_of_fmap. split.
  - intros [[k v'] [-> Hin]]. exists k. by apply elem_of_map_to_list.
  - intros [k Hk]. exists (k, v). split; [done|by apply elem_of_map_to_list].
Qed.

Lemma find_claim_inv d accountID wallet claimID root leaf :
  find_claim d accountID wallet claimID = Some (root, leaf) →
  is_latest d root ∧ (∃ k, e_leaves d !! k = Some leaf) ∧ selected (Root.BatchID root) accountID wallet claimID leaf.
Proof.
  unfold find_claim. intros (root' & Hr & H)%bind_Some. apply bind_Some in H as (leaf' & Hl & [= <- <-]).
  apply head_sorted in Hr as [Hin Hmax]; [|apply _..]. apply list_elem_of_filter in Hin as [Ha Hin].
  split_and!.
  - split; [by apply elem_of_values|split; [done|]]. intros b r Hb Hs.
    destruct (Hmax r) as [->|Hle]; [|done|exact Hle]. apply list_elem_of_filter. split; [done|].
    apply elem_of_values. eauto.
  - apply head_Some_elem_of in Hl. rewrite merge_sort_Permutation in Hl.
    apply list_elem_of_filter in Hl as [_ Hl]. by apply elem_of_values.
  - apply head_Some_elem_of in Hl. rewrite merge_sort_Permutation in Hl.
    by apply list_elem_of_filter in Hl as [Hl _].
Qed.

Section escape.
Context (HexToECDSA : string → result string string) (IsHexAddress : string → bool)
  (HexToAddress Hex HexToHash Keccak256 : string → string).
Context (node : EscapeNode).

(** A leaf that became CLAIMED did so on a successful receipt of its transaction. *)
Definition claims_proved (d d' : EscapeDB) : Prop :=
  ∀ k l', e_leaves d' !! k = Some l' → Leaf.ClaimStatus l' = EscapeCollateralClaimStatusClaimed →
  e_leaves d !! k = Some l' ∨
  (∃ h, Leaf.ClaimTxHash l' = normalizeSubmissionTxHash h ∧ node_receipt node ("0x" +:+ h) = Ok (Some true)).

(** A step that sends nothing and respects the receipts. *)
Definition safe {A} (m : E A) : Prop :=
  ∀ w w' r, m w = (w', r) → sent w' = sent w ∧ claims_proved (fdb w) (fdb w').

Lemma claims_proved_refl d : claims_proved d d.
Proof. intros k l Hl Hs. by left. Qed.

Lemma claims_proved_trans d1 d2 d3 : claims_proved d1 d2 → claims_proved d2 d3 → claims_proved d1 d3.
Proof. intros H1 H2 k l3 Hl Hs. destruct (H2 k l3 Hl Hs) as [Hl2|?]; [by apply H1|by right]. Qed.

Lemma safe_quiet {A} (m : E A) : quiet m → (∀ w, fdb (m w).1 = fdb w) → safe m.
Proof.
  intros Hq Hd w w' r H. split; [exact (Hq _ _ _ H)|]. specialize (Hd w). rewrite H in Hd. cbn [fst] in Hd.
  rewrite Hd. apply claims_proved_refl.
Qed.
Lemma safe_ret {A} (x : A) : safe (mret x).
Proof. by apply safe_quiet. Qed.
Lemma safe_fail {A} e : safe (mfail (A := A) e).
Proof. by apply safe_quiet. Qed.
Lemma safe_lift {A} (x : result string A) : safe (mlift x).
Proof. by apply safe_quiet. Qed.
Lemma safe_then {A B} (x : E A) (k : A → E B) : safe x → (∀ a, safe (k a)) → safe (mthen x k).
Proof.
  intros Hx Hk w w' r [(w1 & a & H1 & H2)|(e & H1 & _)]%mthen_inv; [|exact (Hx _ _ _ H1)].
  destruct (Hx _ _ _ H1) as [E1 P1]. destruct (Hk _ _ _ _ H2) as [E2 P2].
  split; [congruence|by eapply claims_proved_trans].
Qed.
Lemma safe_attempt {A} (m : E A) : safe m → safe (attempt m).
Proof. intros Hm w w' r. unfold attempt. destruct (m w) as [w1 r1] eqn:E. intros [= <- <-]. exact (Hm _ _ _ E). Qed.

Lemma safe_update claimID f :
  (∀ now l, Leaf.ClaimStatus (f now l) = EscapeCollateralClaimStatusClaimed →
     ∃ h, Leaf.ClaimTxHash (f now l) = normalizeSubmissionTxHash h ∧
          node_receipt node ("0x" +:+ h) = Ok (Some true)) →
  safe (updateEscapeCollateralClaim claimID f).
Proof.
  intros Hf. apply safe_then; [|intros [l|]; [apply safe_ret|apply safe_fail]].
  intros w w' r [Hs [(now & E & _)|(E & _)]]%statement_inv; (split; [done|]); rewrite E; [|apply claims_proved_refl].
  destruct (e_leaves (fdb w) !! TrimSpace claimID) as [l|]; [|apply claims_proved_refl].
  intros k l' Hl' Hst. cbn [fst e_leaves] in Hl'. destruct (decide (k = TrimSpace claimID)) as [->|Hne].
  - rewrite lookup_insert_eq in Hl'. injection Hl' as <-. right. exact (Hf _ _ Hst).
  - rewrite lookup_insert_ne in Hl' by done. by left.
Qed.

Lemma safe_failed claimID e : safe (MarkEscapeCollateralClaimFailed claimID e).
Proof. apply safe_update. intros now l [=]. Qed.
Lemma safe_submitted claimID h : safe (MarkEscapeCollateralClaimSubmitted claimID h).
Proof. apply safe_update. intros now l [=]. Qed.

#[local] Hint Resolve safe_ret safe_fail safe_lift safe_failed safe_submitted : core.

Lemma safe_reconcile leaf : safe (reconcileSubmittedEscapeClaim node leaf).
Proof.
  unfold reconcileSubmittedEscapeClaim. destruct (String.eqb _ ""); [apply safe_then; auto|].
  intros w w' r [(w1 & rc & [= <- Hrc] & H)|(e & [= <- _] & ->)]%mthen_inv; [|by apply (safe_fail (A := unit) e w w (Err e))].
  revert w w' r H. destruct rc as [[|]|]; [|apply safe_then; auto|apply safe_ret].
  apply safe_then; [|auto]. apply safe_update. intros now l _. cbn [Leaf.ClaimTxHash with_claim]. eauto.
Qed.

(** The call for a claim. *)
Definition claim_call (to : string) (root : Root.t) (leaf : Leaf.t) : EscapeCall :=
  claimEscapeCollateral (wrapu64 (Root.BatchID root)) (wrapu64 (Leaf.LeafIndex leaf)) (Leaf.ClaimAmount leaf) to
    (HexToHash <$> Leaf.ProofHashes leaf).

Lemma submit_claim_inv from to root leaf w w' r :
  submit_claim Hex HexToHash node from to root leaf w = (w', r) →
  (sent w' = sent w ∨ sent w' = sent w ++ [(from, claim_call to root leaf)]) ∧ claims_proved (fdb w) (fdb w').
Proof.
  unfold submit_claim. intros [(w1 & s & H1 & H2)|(e & H1 & _)]%mthen_inv; revert H1; unfold attempt;
    destruct (submitEscapeCollateralClaim _ _ _ _ _ _ w) as [w2 s2] eqn:E; intros [= <- <-].
  assert (fdb w2 = fdb w ∧ (sent w2 = sent w ∨ sent w2 = sent w ++ [(from, claim_call to root leaf)])) as [<- Hs].
  { revert E. unfold submitEscapeCollateralClaim, sendEscapeTx. fold (claim_call to root leaf).
    unfold mthen, hand_over. destruct (node_send _ _ _); intros [= <- <-]; auto. }
  assert (sent w' = sent w2 ∧ claims_proved (fdb w2) (fdb w')) as [-> Hp]; [|done].
  revert H2. destruct s2 as [h|e].
  - apply safe_then; [auto|intros l; apply safe_then; [apply safe_reconcile|auto]].
  - apply safe_then; [by apply safe_attempt|auto].
Qed.

(** C40: An escape claim that is handed to the node is justified, and a claim is recorded as
    paid on the evidence of the chain only.  For all tables, failures of the database and
    answers of the node, one run of the command hands over at most one transaction, signed
    by the wallet of the given key: the claim of a leaf of the newest anchored root that
    belongs to the wallet (and to the account and claim id that were asked for), which is
    neither claimed nor on its way, whose Merkle proof verifies against the root, with the
    leaf's own batch, index, amount and proof; and a leaf that is CLAIMED afterwards either
    was the same row before or the node has a successful receipt for its transaction. *)
Theorem escape_claim_justified key accountID claimID recipient w w' r :
  RunClaimEscapeCollateralOnce HexToECDSA IsHexAddress HexToAddress Hex HexToHash Keccak256 node
    key accountID claimID recipient w = (w', r) →
  claims_proved (fdb w) (fdb w') ∧
  (sent w' = sent w ∨
   ∃ from to root leaf k,
     parseEscapeWalletKey HexToECDSA key = Ok from ∧
     normalizeEscapeRecipient IsHexAddress HexToAddress from recipient = Ok to ∧
     is_latest (fdb w) root ∧ e_leaves (fdb w) !! k = Some leaf ∧
     selected (Root.BatchID root) accountID (NormalizeHex (Hex from)) (TrimSpace claimID) leaf ∧
     Leaf.ClaimStatus leaf ≠ EscapeCollateralClaimStatusClaimed ∧
     Leaf.ClaimStatus leaf ≠ EscapeCollateralClaimStatusSubmitted ∧
     VerifyAcceptedEscapeCollateralProof Keccak256 (Root.MerkleRoot root) (Leaf.LeafHash leaf)
       (Leaf.ProofHashes leaf) (Leaf.LeafIndex leaf) = true ∧
     sent w' = sent w ++ [(from, claim_call to root leaf)]).
Proof.
  intros [(w1 & from & [= <- Hfrom] & H)|(e & [= <- _] & ->)]%mthen_inv; [|split; [apply claims_proved_refl|by left]].
  apply mthen_inv in H as [(w1 & to & [= <- Hto] & H)|(e & [= <- _] & ->)]; [|split; [apply claims_proved_refl|by left]].
  apply mthen_inv in H as [(w1 & found & H1 & H)|(e & H1 & ->)];
    apply statement_inv in H1 as [Hs [(now & E & Ef)|(E & e' & Ef)]]; try done; cbn [fst snd] in *;
    [|rewrite E, Hs; split; [apply claims_proved_refl|by left]].
  injection Ef as ->. rewrite <- Hs, <- E in *. clear Hs E.
  destruct (find_claim _ _ _ _) as [[root leaf]|] eqn:Efind;
    [|injection H as <- _; split; [apply claims_proved_refl|by left]].
  apply find_claim_inv in Efind as (Hlat & (k & Hk) & Hsel). revert H. unfold claim_found.
  destruct (VerifyAcceptedEscapeCollateralProof _ _ _ _ _) eqn:Ev; cbn [negb];
    [|intros [= <- _]; split; [apply claims_proved_refl|by left]].
  destruct (String.eqb_spec (Leaf.ClaimStatus leaf) EscapeCollateralClaimStatusClaimed) as [|Hc];
    [intros [= <- _]; split; [apply claims_proved_refl|by left]|].
  destruct (String.eqb_spec (Leaf.ClaimStatus leaf) EscapeCollateralClaimStatusSubmitted) as [|Hu].
  { intros H. apply (safe_then _ _ (safe_reconcile leaf)) in H as [? ?]; [split; [done|by left]|auto]. }
  intros [[Hs|Hs] Hp]%submit_claim_inv; (split; [done|]); [by left|right].
  exists from, to, root, leaf, k. done.
Qed.
End escape.

(** ** Runs *)

Module EscapeRuns.
Fixpoint repeated (n : nat) (c : string) : string :=
  match n with O => "" | S n => c +:+ repeated n c end.
Definition wallet : string := repeated 20 "a".
Definition to_key (s : string) : result string string := if String.eqb s "key" then Ok wallet else Err "invalid key".
Definition to_hash (s : string) : string := default "" (hex_bytes s).

(** A tree of one leaf is its hash. *)
Definition root : Root.t :=
  Root.mk 7 "" "USDT" (hex_text (repeated 32 "r")) 1 50000 "ANCHORED" "" 0 0 "" 0 0 0.
Definition leaf : Leaf.t :=
  Leaf.mk 7 1 (hex_text wallet) "USDT" 50000 0 (hex_text (repeated 32 "r")) [] "0xc1"
    EscapeCollateralClaimStatusClaimable "" 0 0 "" 0 0 0.
Definition tables : EscapeDB := mkEscapeDB {[ 7 := root ]} {[ "0xc1" := leaf ]}.
Definition start (fails : nat → option string) : World EscapeDB (string * EscapeCall) :=
  mkWorld tables (λ n, 1000 + Z.of_nat n) fails 0 [].

(** A node that accepts a transaction under [hash] and has these receipts. *)
Definition node (call : Call) (hash : string) (receipts : string → option bool) : EscapeNode :=
  mkEscapeNode call (λ _ _, Sent hash) (λ h, Ok (receipts h)) (λ h, [Ok None; Ok (receipts h)]).
Definition no_call : Call := λ _ _, Err "not called".

Definition claim (n : EscapeNode) : E EscapeHatchProgress.t :=
  RunClaimEscapeCollateralOnce to_key (λ _, true) to_hash hex_text to_hash id n "key" 0 "" "".
Definition claimed_at_aa (h : string) : option bool := if String.eqb h "0xaa" then Some true else None.
End EscapeRuns.

Import EscapeRuns.

Lemma escape_claim_justified_witness :
  let '(w', r) := claim (node no_call "0xAA" claimed_at_aa) (start (λ _, None)) in
  sent w' = [(wallet, claimEscapeCollateral 7 0 50000 wallet [])] ∧
  (∃ l, e_leaves (fdb w') !! "0xc1" = Some l ∧ Leaf.ClaimStatus l = EscapeCollateralClaimStatusClaimed) ∧
  claims_proved (node no_call "0xAA" claimed_at_aa) tables (fdb w').
Proof.
  destruct (claim _ _) as [w' r] eqn:Ec.
  split; [change w' with (w', r).1; rewrite <- Ec; vm_compute; reflexivity|]. split.
  - change w' with (w', r).1. rewrite <- Ec. eexists. split; vm_compute; reflexivity.
  - exact (proj1 (escape_claim_justified to_key (λ _, true) to_hash hex_text to_hash id
      (node no_call "0xAA" claimed_at_aa) "key" 0 "" "" (start (λ _, None)) w' r Ec)).
Defined.

(** When the row cannot be written after the transaction was accepted, the next run claims
    again; the contract refuses the second transaction, and the leaf ends as failed although
    the first one paid it. *)
Theorem paid_claim_recorded_failed :
  let receipts h := if String.eqb h "0xaa" then Some true else if String.eqb h "0xbb" then Some false else None in
  let '(w1, r1) := claim (node no_call "0xAA" receipts) (start (λ n, if (n =? 1)%nat then Some "connection lost" else None)) in
  let '(w2, r2) := claim (node no_call "0xBB" receipts) w1 in
  r1 = Err "connection lost" ∧ length (sent w2) = 2%nat ∧
  (∃ l, e_leaves (fdb w2) !! "0xc1" = Some l ∧ Leaf.ClaimStatus l = EscapeCollateralClaimStatusFailed).
Proof. vm_compute. split; [reflexivity|split; [reflexivity|eexists; split; reflexivity]]. Qed.

(** The number reported for a request is the count of requests at the time, which is that of
    a later request when one was made meanwhile. *)
Theorem request_reports_the_count st amount w w' p :
  RunRequestForcedWithdrawalOnce to_key (λ _, true) to_hash hex_text 6 2
    (node (read_abi st) "0xAA" claimed_at_aa) "key" amount "" w = (w', Ok p) →
  EscapeHatchProgress.RequestID p = forcedWithdrawalRequestCount st ∧
  sent w' = sent w ++ [(wallet, requestForcedWithdrawal wallet (EscapeHatchProgress.Amount p))].
Proof.
  unfold RunRequestForcedWithdrawalOnce. unfold mthen at 1 2, mlift at 1 2. cbn -[AccountingToChainAmount Z.leb].
  destruct (amount <=? 0); [done|]. unfold mthen at 1.
  destruct (AccountingToChainAmount amount 6 2) as [n|]; [|done]. cbn -[Z.leb].
  destruct (n <=? 0); [done|]. vm_compute. intros [= <- <-]. done.
Qed.
