(* ===== verification/RollupSubmitterProps.v ===== *)
(** * Chain service: batches are submitted one at a time

    What the submission runtime guarantees over any store that keeps the laws of its
    interface and any node: there is never more than one submission under way, the
    accepted ones are final, and a submission is accepted only on the evidence of its
    receipt and of the accepted state on chain. *)

From stdpp Require Import sorting.
From S2P Require Import Prelude Strings Shared RollupState RollupReplay Merkle.
From S2P Require Import RollupSubmission RollupSubmitter.

Local Open Scope Z_scope.

Notation Submission := StoredSubmission.t.
Notation is_accepted r := (StoredSubmission.Status r = SubmissionStatusAccepted).

Lemma StronglySorted_NoDup_lt (l : list Z) : StronglySorted Z.lt l → NoDup l.
Proof.
  induction 1 as [|x l _ IH Hx]; constructor; [|done].
  intros Hin. rewrite Forall_forall in Hx. specialize (Hx x Hin). lia.
Qed.

(** ** What the store promises *)

(** A failed submission taken up again. *)
Record resumes (old new : Submission) : Prop := {
  rs_status : StoredSubmission.Status new = resumeStatus old;
  rs_id : StoredSubmission.SubmissionID new = StoredSubmission.SubmissionID old;
  rs_batch : StoredSubmission.BatchID new = StoredSubmission.BatchID old;
  rs_record : StoredSubmission.RecordTxHash new = StoredSubmission.RecordTxHash old;
  rs_publish : StoredSubmission.PublishTxHash new = StoredSubmission.PublishTxHash old;
}.

Section laws.
Context {S : Type} (rows : S → list Submission) (inv : S → Prop).

Definition keeps (s s' : S) : Prop := inv s' ∧ rows s' = rows s.

(** A statement that updates the row of one submission. *)
Definition updates (s : S) (id : string) (f : Submission → Submission) (x : S * result string Submission) : Prop :=
  inv x.1 ∧
  match list_find (λ r, StoredSubmission.SubmissionID r = id) (rows s) with
  | Some (i, r) => rows x.1 = <[i := f r]> (rows s) ∧ x.2 = Ok (f r)
  | None => rows x.1 = rows s ∧ ∃ e, x.2 = Err e
  end.

Lemma updates_at s i r id f x :
  NoDup (StoredSubmission.SubmissionID <$> rows s) → rows s !! i = Some r → StoredSubmission.SubmissionID r = id →
  updates s id f x → inv x.1 ∧ rows x.1 = <[i := f r]> (rows s) ∧ x.2 = Ok (f r).
Proof.
  intros Hnd Hi Hid [Hinv' Hx]. split; [done|].
  assert (list_find (λ r, StoredSubmission.SubmissionID r = id) (rows s) = Some (i, r)) as Hf.
  { apply list_find_Some. split; [done|]. split; [done|]. intros j y Hj Hlt Hy.
    assert (j = i); [|lia]. apply (NoDup_lookup _ _ _ id Hnd); rewrite list_lookup_fmap.
    - by rewrite Hj, <-Hy.
    - by rewrite Hi, <-Hid. }
  rewrite Hf in Hx. done.
Qed.

Class SubmissionStoreLaws (now : Z) `{!rollupSubmissionStore S} : Prop := {
  law_ids s : inv s → NoDup (StoredSubmission.SubmissionID <$> rows s);
  law_order s : inv s → StronglySorted Z.lt (StoredSubmission.BatchID <$> rows s);
  law_list s : store_ListSubmissions s = rows s;
  law_materialize_all s : inv s → keeps s (store_MaterializeAcceptedSubmissions s).1;
  law_materialize s id : inv s → keeps s (store_MaterializeAcceptedSubmission s id).1;
  law_escape_submitted s b tx : inv s → keeps s (store_MarkEscapeCollateralRootSubmitted s b tx).1;
  law_escape_anchored s b : inv s → keeps s (store_MarkEscapeCollateralRootAnchored s b).1;
  law_escape_failed s b e : inv s → keeps s (store_MarkEscapeCollateralRootFailed s b e).1;
  law_record_submitted s id tx : inv s →
    updates s id (record_submitted now tx) (store_MarkSubmissionRecordSubmitted s id tx);
  law_publish_submitted s id tx : inv s →
    updates s id (publish_submitted now tx) (store_MarkSubmissionPublishSubmitted s id tx);
  law_data_published s id : inv s → updates s id (data_published now) (store_MarkSubmissionDataPublished s id);
  law_accept_submitted s id tx : inv s →
    updates s id (accept_submitted now tx) (store_MarkSubmissionAcceptSubmitted s id tx);
  law_accepted s id : inv s → updates s id (accepted now) (store_MarkSubmissionAccepted s id);
  law_failed s id e : inv s → updates s id (failed now e) (store_MarkSubmissionFailed s id e);
  law_error s id e : inv s → updates s id (with_error now e) (store_RecordSubmissionError s id e);
  law_prepare s limit : inv s → Forall (λ r, is_accepted r) (rows s) →
    let x := store_PrepareNextSubmission s limit in
    inv x.1 ∧
    match x.2 with
    | Err _ => rows x.1 = rows s
    | Ok r => rows x.1 = rows s ++ [r] ∧
        (StoredSubmission.Status r = SubmissionStatusReady ∨ StoredSubmission.Status r = SubmissionStatusBlockedAuth)
    end;
  law_reprepare s b : inv s →
    let s' := (store_ReprepareFailedSubmission s b).1 in
    inv s' ∧
    (rows s' = rows s ∨
     ∃ i old new, rows s !! i = Some old ∧ StoredSubmission.BatchID old = b ∧
       StoredSubmission.Status old = SubmissionStatusFailed ∧ rows s' = <[i := new]> (rows s) ∧
       resumes old new);
}.
End laws.

(** The expected state names the batch of the submission. *)
Lemma expected_batch `{!JSON ShadowBatchSubmissionBundle.t} r e :
  buildExpectedSubmissionState r = Ok e → expectedRollupSubmissionState.BatchID e = wrapu64 (StoredSubmission.BatchID r).
Proof.
  unfold buildExpectedSubmissionState, mbind, result_bind. intros H. repeat (case_match; [|done]).
  case_match; [done|]. by injection H as <-.
Qed.

(** ** One leg *)

Section legs.
Context `{!JSON ShadowBatchSubmissionBundle.t} (c : Chain) (now : Z).

(** How one poll changes the submission it works on, with what the node answered. *)
Inductive leg (r : Submission) : Submission → Prop :=
| leg_error e : leg r (with_error now e r)
| leg_record tx :
    StoredSubmission.Status r = SubmissionStatusReady →
    submitCalldata c (StoredSubmission.RecordCalldata r) = Ok tx → leg r (record_submitted now tx r)
| leg_publish tx :
    StoredSubmission.Status r = SubmissionStatusRecordSubmitted →
    lookupReceipt c (StoredSubmission.RecordTxHash r) = Ok (Some true) →
    reconcileRecordSubmissionState c r = Ok true →
    submitCalldata c (StoredSubmission.PublishCalldata r) = Ok tx → leg r (publish_submitted now tx r)
| leg_published r' :
    StoredSubmission.Status r = SubmissionStatusPublishSubmitted →
    lookupReceipt c (StoredSubmission.PublishTxHash r) = Ok (Some true) →
    reconcilePublishDataState c r = Ok true →
    (∃ e, r' = with_error now e (data_published now r)) ∨
    (∃ tx, submitCalldata c (StoredSubmission.AcceptCalldata r) = Ok tx ∧
       r' = accept_submitted now tx (data_published now r)) → leg r r'
| leg_accept tx :
    StoredSubmission.Status r = SubmissionStatusDataPublished →
    submitCalldata c (StoredSubmission.AcceptCalldata r) = Ok tx → leg r (accept_submitted now tx r)
| leg_accepted :
    StoredSubmission.Status r = SubmissionStatusAcceptSubmitted →
    lookupReceipt c (StoredSubmission.AcceptTxHash r) = Ok (Some true) →
    reconcileAcceptedSubmissionState c r = Ok true → leg r (accepted now r)
| leg_failed tx e :
    (StoredSubmission.Status r, tx) ∈
      [(SubmissionStatusRecordSubmitted, StoredSubmission.RecordTxHash r);
       (SubmissionStatusPublishSubmitted, StoredSubmission.PublishTxHash r);
       (SubmissionStatusAcceptSubmitted, StoredSubmission.AcceptTxHash r)] →
    lookupReceipt c tx = Ok (Some false) → leg r (failed now e r)
| leg_resume r' : StoredSubmission.Status r = SubmissionStatusFailed → resumes r r' → leg r r'.

Lemma leg_key r r' : leg r r' →
  StoredSubmission.SubmissionID r' = StoredSubmission.SubmissionID r ∧
  StoredSubmission.BatchID r' = StoredSubmission.BatchID r.
Proof.
  intros [| | |? ? ? ? [[? ->]|(? & ? & ->)]| | | |? ? []]; done.
Qed.

(** A leg that ends accepted started with the accepting transaction out. *)
Lemma leg_to_accepted r r' : leg r r' → ¬ is_accepted r → is_accepted r' →
  StoredSubmission.Status r = SubmissionStatusAcceptSubmitted ∧
  r' = accepted now r ∧ lookupReceipt c (StoredSubmission.AcceptTxHash r) = Ok (Some true) ∧
  reconcileAcceptedSubmissionState c r = Ok true.
Proof.
  intros [| | |? ? ? ? [[? ->]|(? & ? & ->)]| | | |? ? []] Hn; try discriminate 1; try done.
  intros Ha. exfalso. revert Ha. rewrite rs_status0. unfold resumeStatus. by repeat case_match.
Qed.

Lemma fresh_not_accepted r r' :
  StoredSubmission.Status r = SubmissionStatusReady ∨ StoredSubmission.Status r = SubmissionStatusBlockedAuth →
  leg r r' → ¬ is_accepted r'.
Proof.
  intros Hf Hleg Ha. assert (¬ is_accepted r) as Hn by (destruct Hf; congruence).
  destruct (leg_to_accepted r r' Hleg Hn Ha) as [Hst _]. destruct Hf; congruence.
Qed.
End legs.

(** ** One poll *)

Section poll.
Context `{!JSON ShadowBatchSubmissionBundle.t} (c : Chain) (now : Z).

Definition fresh_submission (r : Submission) : Prop :=
  StoredSubmission.Status r = SubmissionStatusReady ∨ StoredSubmission.Status r = SubmissionStatusBlockedAuth.

(** Nothing, or a leg of one submission that is not accepted yet. *)
Inductive advances (l : list Submission) : list Submission → Prop :=
| adv_none : advances l l
| adv_leg i r r' : l !! i = Some r → ¬ is_accepted r → leg c now r r' → advances l (<[i := r']> l).

(** A new submission is prepared when all are accepted; it may be advanced at once. *)
Inductive poll_effect (l : list Submission) : list Submission → Prop :=
| poll_pending l' : advances l l' → poll_effect l l'
| poll_prepared r l' :
    Forall (λ r, is_accepted r) l → fresh_submission r → advances (l ++ [r]) l' → poll_effect l l'.

Context {S : Type} {rows : S → list Submission} {inv : S → Prop}.
Context `{!rollupSubmissionStore S} `{!SubmissionStoreLaws rows inv now}.

(** What is asked of an operation on row [i]. *)
Definition works_on (s : S) (i : nat) (r : Submission) (s' : S) : Prop :=
  inv s' ∧ (rows s' = rows s ∨ ∃ r', leg c now r r' ∧ rows s' = <[i := r']> (rows s)).

Lemma works_still s i r : inv s → works_on s i r s.
Proof. intros. split; [done|by left]. Qed.

Lemma works_updates s i r f x :
  inv s → rows s !! i = Some r → updates rows inv s (StoredSubmission.SubmissionID r) f x →
  leg c now r (f r) → works_on s i r x.1.
Proof.
  intros Hinv Hi Hx Hleg. destruct (updates_at rows inv _ _ _ _ _ _ (law_ids rows inv s Hinv) Hi eq_refl Hx) as (? & ? & _).
  split; [done|]. right. by eexists.
Qed.

Lemma works_error s i r e :
  inv s → rows s !! i = Some r → works_on s i r (note_error s r e).1.
Proof.
  intros Hinv Hi. eapply works_updates; [done..| |apply leg_error]. by apply law_error.
Qed.

Lemma submit_record_works s i r :
  inv s → rows s !! i = Some r → StoredSubmission.Status r = SubmissionStatusReady →
  works_on s i r (submitRecordLeg c s r).1.
Proof.
  intros Hinv Hi Hst. unfold submitRecordLeg. destruct (submitCalldata c _) as [tx|e] eqn:E; [|by apply works_error].
  eapply works_updates; [done..|by apply law_record_submitted|by apply leg_record].
Qed.

Lemma submit_accept_works s i r :
  inv s → rows s !! i = Some r → StoredSubmission.Status r = SubmissionStatusDataPublished →
  works_on s i r (submitAcceptLeg c s r).1.
Proof.
  intros Hinv Hi Hst. unfold submitAcceptLeg. destruct (submitCalldata c _) as [tx|e] eqn:E; [|by apply works_error].
  eapply works_updates; [done..|by apply law_accept_submitted|by apply leg_accept].
Qed.

Lemma failed_works s i r tx e :
  inv s → rows s !! i = Some r →
  (StoredSubmission.Status r, tx) ∈
    [(SubmissionStatusRecordSubmitted, StoredSubmission.RecordTxHash r);
     (SubmissionStatusPublishSubmitted, StoredSubmission.PublishTxHash r);
     (SubmissionStatusAcceptSubmitted, StoredSubmission.AcceptTxHash r)] →
  lookupReceipt c tx = Ok (Some false) →
  works_on s i r (store_MarkSubmissionFailed s (StoredSubmission.SubmissionID r) e).1.
Proof.
  intros Hinv Hi Hst Hr. eapply works_updates; [done..|by apply law_failed|by eapply leg_failed].
Qed.

Lemma after_record_works s i r :
  inv s → rows s !! i = Some r → StoredSubmission.Status r = SubmissionStatusRecordSubmitted →
  works_on s i r (advanceAfterRecordReceipt c s r).1.
Proof.
  intros Hinv Hi Hst. unfold advanceAfterRecordReceipt, submitPublishDataLeg.
  destruct (lookupReceipt c _) as [[[|]|]|e] eqn:E; [| |by apply works_still|by apply works_error].
  - destruct (reconcileRecordSubmissionState c r) as [[|]|e] eqn:R; [|by apply works_still|by apply works_error].
    destruct (submitCalldata c _) as [tx|e] eqn:T; [|by apply works_error].
    eapply works_updates; [done..|by apply law_publish_submitted|by apply leg_publish].
  - eapply failed_works; [done..| |done]. rewrite Hst. left.
Qed.

Lemma after_publish_works s i r :
  inv s → rows s !! i = Some r → StoredSubmission.Status r = SubmissionStatusPublishSubmitted →
  works_on s i r (advanceAfterPublishReceipt c s r).1.
Proof.
  intros Hinv Hi Hst. unfold advanceAfterPublishReceipt, submitAcceptLeg.
  destruct (lookupReceipt c _) as [[[|]|]|e] eqn:E; [| |by apply works_still|by apply works_error].
  2:{ eapply failed_works; [done..| |done]. rewrite Hst. right. left. }
  destruct (reconcilePublishDataState c r) as [[|]|e] eqn:R; [|by apply works_still|by apply works_error].
  pose proof (updates_at rows inv _ _ _ _ _ _ (law_ids rows inv s Hinv) Hi eq_refl (law_data_published rows inv s _ Hinv)) as (Hinv1 & Hr1 & He).
  destruct (store_MarkSubmissionDataPublished s _) as [s1 x]. cbn [fst snd] in *. subst x.
  assert (rows s1 !! i = Some (data_published now r)) as Hi1.
  { rewrite Hr1. by eapply list_lookup_insert_eq, lookup_lt_Some. }
  assert (∀ f x, updates rows inv s1 (StoredSubmission.SubmissionID r) f x →
    leg c now r (f (data_published now r)) → works_on s i r x.1) as Hsecond.
  { intros f x Hx Hleg.
    destruct (updates_at rows inv s1 i (data_published now r) _ _ _ (law_ids rows inv s1 Hinv1) Hi1 eq_refl Hx) as (? & Hx2 & _).
    split; [done|]. right. eexists. split; [exact Hleg|]. by rewrite Hx2, Hr1, list_insert_insert_eq. }
  destruct (submitCalldata c _) as [tx|e] eqn:T.
  - eapply Hsecond; [by apply law_accept_submitted|]. eapply leg_published; [done..|]. right. by exists tx.
  - eapply Hsecond; [by apply law_error|]. eapply leg_published; [done..|]. left. by exists e.
Qed.

Lemma after_accept_works s i r :
  inv s → rows s !! i = Some r → StoredSubmission.Status r = SubmissionStatusAcceptSubmitted →
  works_on s i r (advanceAfterAcceptReceipt c s r).1.
Proof.
  intros Hinv Hi Hst. unfold advanceAfterAcceptReceipt.
  destruct (lookupReceipt c _) as [[[|]|]|e] eqn:E; [| |by apply works_still|by apply works_error].
  2:{ eapply failed_works; [done..| |done]. rewrite Hst. right. right. left. }
  destruct (reconcileAcceptedSubmissionState c r) as [[|]|e] eqn:R; [|by apply works_still|by apply works_error].
  pose proof (updates_at rows inv _ _ _ _ _ _ (law_ids rows inv s Hinv) Hi eq_refl (law_accepted rows inv s _ Hinv)) as (Hinv1 & Hr1 & He).
  destruct (store_MarkSubmissionAccepted s _) as [s1 x]. cbn [fst snd] in *. subst x.
  destruct (law_materialize rows inv s1 (StoredSubmission.SubmissionID (accepted now r)) Hinv1) as [Hinv2 Hr2].
  destruct (store_MaterializeAcceptedSubmission s1 _) as [s2 [e|]]; cbn [fst] in *;
    (split; [done|]; right; eexists; split; [by apply leg_accepted|congruence]).
Qed.

Lemma reprepare_works s i r :
  inv s → rows s !! i = Some r → StoredSubmission.Status r = SubmissionStatusFailed →
  works_on s i r (store_ReprepareFailedSubmission s (StoredSubmission.BatchID r)).1.
Proof.
  intros Hinv Hi Hst.
  destruct (law_reprepare rows inv s (StoredSubmission.BatchID r) Hinv) as [Hinv' [Hsame|(j & old & new & Hj & Hb & _ & Hrows & Hres)]].
  { split; [done|by left]. }
  split; [done|]. assert (j = i) as ->.
  { apply (NoDup_lookup (StoredSubmission.BatchID <$> rows s) _ _ (StoredSubmission.BatchID r)).
    - apply (StronglySorted_NoDup_lt _ (law_order rows inv s Hinv)).
    - by rewrite list_lookup_fmap, Hj, <-Hb.
    - by rewrite list_lookup_fmap, Hi. }
  right. exists new. split; [|done]. rewrite Hi in Hj. injection Hj as <-. by apply leg_resume.
Qed.

Lemma advance_works s i r :
  inv s → rows s !! i = Some r → works_on s i r (advance c s r).1.
Proof.
  intros Hinv Hi. unfold advance. destruct (StoredSubmission.Status r) eqn:Hst.
  - by apply submit_record_works.
  - by apply works_still.
  - by apply after_record_works.
  - by apply after_publish_works.
  - by apply submit_accept_works.
  - by apply after_accept_works.
  - by apply works_still.
  - pose proof (reprepare_works s i r Hinv Hi Hst) as H.
    by destruct (store_ReprepareFailedSubmission s _) as [s' [?|?]].
Qed.

Lemma first_pending_Some l r :
  first_pending l = Some r → ∃ i, l !! i = Some r ∧ ¬ is_accepted r.
Proof.
  induction l as [|r0 l IH]; cbn [first_pending]; [done|].
  destruct (StoredSubmission.Status r0) eqn:E; try (intros [= <-]; exists 0%nat; split; [done|congruence]).
  intros (i & ? & ?)%IH. by exists (Datatypes.S i).
Qed.

Lemma first_pending_None l : first_pending l = None → Forall (λ r, is_accepted r) l.
Proof.
  induction l as [|r0 l IH]; cbn [first_pending]; [constructor|].
  destruct (StoredSubmission.Status r0) eqn:E; try discriminate 1. intros ?%IH. by constructor.
Qed.

Lemma works_advances s i r s' :
  rows s !! i = Some r → ¬ is_accepted r → works_on s i r s' → advances (rows s) (rows s').
Proof.
  intros Hi Hn [_ [-> |(r' & Hleg & ->)]]; [constructor|]. by eapply adv_leg.
Qed.

Lemma poll_submission_effect batchLimit s :
  inv s → let s' := (poll_submission c batchLimit s).1 in inv s' ∧ poll_effect (rows s) (rows s').
Proof.
  intros Hinv. unfold poll_submission, nextSubmission. rewrite (law_list rows inv).
  destruct (first_pending (rows s)) as [r|] eqn:E.
  - apply first_pending_Some in E as (i & Hi & Hn). pose proof (advance_works s i r Hinv Hi) as Hw.
    split; [apply Hw|]. by eapply poll_pending, works_advances.
  - apply first_pending_None in E. destruct (law_prepare rows inv s batchLimit Hinv E) as [Hinv1 Hr].
    destruct (store_PrepareNextSubmission s batchLimit) as [s1 [r|[|e]]]; cbn [fst snd] in *;
      [|split; [done|]; rewrite Hr; by do 2 constructor..].
    destruct Hr as [Hr Hst]. assert (rows s1 !! length (rows s) = Some r) as Hi.
    { rewrite Hr. by apply list_lookup_middle. }
    pose proof (advance_works s1 _ r Hinv1 Hi) as Hw. split; [apply Hw|].
    apply (poll_prepared _ r); [done..|]. rewrite <-Hr. eapply works_advances; [done| |done].
    destruct Hst; congruence.
Qed.

Lemma keeps_effect s s' : keeps rows inv s s' → inv s' ∧ poll_effect (rows s) (rows s').
Proof. intros [? ->]. split; [done|]. by do 2 constructor. Qed.

Lemma PollOnce_effect batchLimit s :
  inv s → let s' := (PollOnce c batchLimit s).1 in inv s' ∧ poll_effect (rows s) (rows s').
Proof.
  intros Hinv. unfold PollOnce. destruct (law_materialize_all rows inv s Hinv) as [Hinv1 Hr1].
  destruct (store_MaterializeAcceptedSubmissions s) as [s1 [e|]]; cbn [fst] in *; rewrite <-Hr1;
    [by apply keeps_effect|].
  assert (keeps rows inv s1 s1) as Hid by done.
  destruct (store_RollupFrozen s1); [by apply keeps_effect|].
  destruct (store_NextEscapeCollateralRootForAnchor s1) as [root|]; [|by apply poll_submission_effect].
  unfold submitEscapeRootAnchor, advanceAfterEscapeRootReceipt, marked_root.
  repeat case_match; try (by apply poll_submission_effect); apply keeps_effect; cbn [fst];
    first [done|by apply (law_escape_submitted rows inv)|by apply (law_escape_anchored rows inv)
          |by apply (law_escape_failed rows inv)].
Qed.
End poll.

(** ** A poll is a sequence of store operations *)

Section steps.
Context `{!JSON ShadowBatchSubmissionBundle.t} {S : Type} `{!rollupSubmissionStore S}.

Inductive store_step (s : S) : S → Prop :=
| step_materialize_all : store_step s (store_MaterializeAcceptedSubmissions s).1
| step_materialize id : store_step s (store_MaterializeAcceptedSubmission s id).1
| step_escape_submitted b tx : store_step s (store_MarkEscapeCollateralRootSubmitted s b tx).1
| step_escape_anchored b : store_step s (store_MarkEscapeCollateralRootAnchored s b).1
| step_escape_failed b e : store_step s (store_MarkEscapeCollateralRootFailed s b e).1
| step_prepare limit : store_step s (store_PrepareNextSubmission s limit).1
| step_record_submitted id tx : store_step s (store_MarkSubmissionRecordSubmitted s id tx).1
| step_publish_submitted id tx : store_step s (store_MarkSubmissionPublishSubmitted s id tx).1
| step_data_published id : store_step s (store_MarkSubmissionDataPublished s id).1
| step_accept_submitted id tx : store_step s (store_MarkSubmissionAcceptSubmitted s id tx).1
| step_accepted id : store_step s (store_MarkSubmissionAccepted s id).1
| step_failed id e : store_step s (store_MarkSubmissionFailed s id e).1
| step_error id e : store_step s (store_RecordSubmissionError s id e).1
| step_reprepare b : store_step s (store_ReprepareFailedSubmission s b).1.

#[local] Hint Constructors store_step : go.
#[local] Hint Resolve rtc_refl rtc_once : go.

(** The operations along one path, one after the other. *)
Ltac path :=
  repeat match goal with
  | H : ?x = (?s', _) |- rtc store_step _ _ =>
      apply (f_equal fst) in H; cbn [fst] in H; subst s'
  end;
  cbn [fst]; eauto with go;
  try (eapply rtc_r; [|solve [constructor]]; eauto with go).

Lemma advance_steps c s r : rtc store_step s (advance c s r).1.
Proof.
  unfold advance, submitRecordLeg, advanceAfterRecordReceipt, submitPublishDataLeg, advanceAfterPublishReceipt,
    advanceAfterAcceptReceipt, submitAcceptLeg, note_error, marked.
  repeat case_match; path.
Qed.

Lemma PollOnce_steps c limit s : rtc store_step s (PollOnce c limit s).1.
Proof.
  unfold PollOnce. destruct (store_MaterializeAcceptedSubmissions s) as [s1 o] eqn:E.
  apply (f_equal fst) in E. cbn [fst] in E. eapply rtc_l; [apply step_materialize_all|]. rewrite E. clear E s.
  destruct o as [e|]; [constructor|]. destruct (store_RollupFrozen s1); [constructor|].
  assert (rtc store_step s1 (poll_submission c limit s1).1) as Hpoll.
  { unfold poll_submission, nextSubmission. destruct (first_pending _) as [r|]; [apply advance_steps|].
    destruct (store_PrepareNextSubmission s1 limit) as [s2 x] eqn:E.
    apply (f_equal fst) in E. cbn [fst] in E. eapply rtc_l; [apply (step_prepare _ limit)|]. rewrite E.
    destruct x as [r|[|e]]; [apply advance_steps|constructor..]. }
  destruct (store_NextEscapeCollateralRootForAnchor s1) as [root|]; [|done].
  unfold submitEscapeRootAnchor, advanceAfterEscapeRootReceipt, marked_root.
  repeat case_match; try done; cbn [fst]; eauto with go.
Qed.
End steps.

(** ** Many polls *)

(** Only the latest submission may be under way. *)
Definition one_at_a_time (l : list Submission) : Prop :=
  ∀ i r, l !! i = Some r → ¬ is_accepted r → S i = length l.

(** What is accepted stays as it is. *)
Definition accepted_final (l l' : list Submission) : Prop :=
  ∀ i r, l !! i = Some r → is_accepted r → l' !! i = Some r.

#[global] Instance accepted_final_preorder : PreOrder accepted_final.
Proof. split; [by intros l i r|]. intros l1 l2 l3 H1 H2 i r Hi Ha. by apply H2; [apply H1|]. Qed.

Section effects.
Context `{!JSON ShadowBatchSubmissionBundle.t} (c : Chain) (now : Z).

Lemma advances_one l l' : one_at_a_time l → advances c now l l' → one_at_a_time l'.
Proof.
  intros Hl [|i r r' Hi Hn Hleg]; [done|]. intros j x. rewrite list_lookup_insert.
  case_decide as Hd; [|rewrite length_insert; apply Hl].
  intros _ _. destruct Hd as [<- _]. rewrite length_insert. by eapply Hl.
Qed.

Lemma poll_one l l' : one_at_a_time l → poll_effect c now l l' → one_at_a_time l'.
Proof.
  intros Hl [? Ha|r ? Hacc _ Ha]; [by eapply advances_one|]. eapply advances_one; [|exact Ha].
  intros i x Hi Hn. rewrite length_app. cbn [length]. apply lookup_app_Some in Hi as [Hi|[Hge Hi]].
  - rewrite Forall_lookup in Hacc. by destruct (Hn (Hacc _ _ Hi)).
  - apply list_lookup_singleton_Some in Hi as [Hi _]. lia.
Qed.

Lemma advances_final l l' : advances c now l l' → accepted_final l l'.
Proof.
  intros [|i r r' Hi Hn _]; [done|]. intros j x Hj Hx. rewrite list_lookup_insert_ne; [done|].
  intros ->. congruence.
Qed.

Lemma poll_final l l' : poll_effect c now l l' → accepted_final l l'.
Proof.
  intros [? Ha|r ? _ _ Ha%advances_final]; [by apply advances_final|].
  intros i x Hi Hx. apply Ha; [|done]. by apply lookup_app_l_Some.
Qed.

(** A submission becomes accepted by the receipt and the state on chain only. *)
Lemma poll_accepts l l' i r' :
  poll_effect c now l l' → l' !! i = Some r' → is_accepted r' →
  l !! i = Some r' ∨
  ∃ r, l !! i = Some r ∧ r' = accepted now r ∧ lookupReceipt c (StoredSubmission.AcceptTxHash r) = Ok (Some true) ∧
    reconcileAcceptedSubmissionState c r = Ok true.
Proof.
  assert (∀ m l', advances c now m l' → l' !! i = Some r' → is_accepted r' →
    m !! i = Some r' ∨ ∃ r, m !! i = Some r ∧ ¬ is_accepted r ∧ leg c now r r') as Hadv.
  { intros m l1 [|k r r1 Hk Hn Hleg] Hi Ha; [by left|]. rewrite list_lookup_insert in Hi. case_decide as Hd; [|by left].
    destruct Hd as [-> _]. injection Hi as ->. right. by exists r. }
  intros [? Ha|r ? _ Hfresh Ha] Hi Hr'.
  - destruct (Hadv _ _ Ha Hi Hr') as [?|(r & Hr & Hn & Hleg)]; [by left|]. right. exists r. split; [done|].
    by apply (leg_to_accepted _ _ _ _ Hleg).
  - destruct (Hadv _ _ Ha Hi Hr') as [Hl|(r1 & Hl & Hn & Hleg)];
      apply lookup_app_Some in Hl as [Hl|[_ [_ Er]%list_lookup_singleton_Some]].
    + by left.
    + destruct Hfresh; congruence.
    + right. exists r1. split; [done|]. by apply (leg_to_accepted _ _ _ _ Hleg).
    + subst r1. by destruct (fresh_not_accepted _ _ r r' Hfresh Hleg).
Qed.
End effects.

Section runs.
Context `{!JSON ShadowBatchSubmissionBundle.t} {S : Type} (rows : S → list Submission) (inv : S → Prop).
Context (store : Z → rollupSubmissionStore S).
Context `{!∀ now, SubmissionStoreLaws rows inv now (rollupSubmissionStore0 := store now)}.

(** The polls with the clock of the database, the node and the batch limit of each. *)
Fixpoint run_polls (polls : list (Z * Chain * Z)) (s : S) : S :=
  match polls with
  | [] => s
  | (now, c, limit) :: polls => run_polls polls (PollOnce (rollupSubmissionStore0 := store now) c limit s).1
  end.

Lemma run_polls_spec polls s :
  inv s → one_at_a_time (rows s) →
  inv (run_polls polls s) ∧ one_at_a_time (rows (run_polls polls s)) ∧
  accepted_final (rows s) (rows (run_polls polls s)).
Proof.
  revert s. induction polls as [|[[now c] limit] polls IH]; intros s Hinv H1; [done|]. cbn [run_polls].
  destruct (PollOnce_effect (rollupSubmissionStore0 := store now) c now limit s Hinv) as [Hinv' He].
  destruct (IH _ Hinv' (poll_one _ _ _ _ H1 He)) as (? & ? & Hfin). split; [done|]. split; [done|].
  etrans; [by eapply poll_final|done].
Qed.
(** [RunUntilIdle] is a number of polls. *)
Lemma RunUntilIdle_polls limit polls s :
  ∃ n, (RunUntilIdle store limit polls s).1 =
       run_polls ((λ p, (p.1, p.2, limit)) <$> take n polls) s.
Proof.
  revert s. induction polls as [|[now c] polls IH]; intros s; [by exists 0%nat|]. cbn [RunUntilIdle].
  destruct (PollOnce c limit s) as [s1 [a|e]] eqn:E; [destruct (idle a)|];
    [exists 1%nat| |exists 1%nat]; [cbn; by rewrite E| |cbn; by rewrite E].
  destruct (IH s1) as [n Hn]. destruct (RunUntilIdle store limit polls s1) as [s2 [steps err]].
  exists (Datatypes.S n). cbn in *. by rewrite E.
Qed.
End runs.
