(* ===== verification/SubmissionStore.v ===== *)
(** * Rollup: the store behind the submission runtime

    [rollup.Store] implements the interface of the submission runtime and keeps its
    laws: every batch has at most one submission, in batch order and without gaps. *)

From stdpp Require Import sorting.
From S2P Require Import Prelude Strings Shared Auth RollupJournal RollupState.
From S2P Require Import RollupReplay Merkle AcceptedSnapshot RollupSubmission RollupSubmitter.
From S2P Require Import RollupSubmitterProps.

Local Open Scope Z_scope.

(** ** Rows in key order *)

Section rows.
Context {R : Type} (key : R → Z).

Lemma upsert_by_snoc k fresh update rows :
  Forall (λ r, key r < k) rows → upsert_by key k fresh update rows = rows ++ [fresh].
Proof.
  induction 1 as [|r rows Hr _ IH]; [done|]. cbn [upsert_by app].
  rewrite (proj2 (Z.ltb_ge k (key r))), (proj2 (Z.eqb_neq (key r) k)) by lia. by rewrite IH.
Qed.

Lemma upsert_by_update i r fresh update rows :
  StronglySorted Z.lt (key <$> rows) → rows !! i = Some r →
  upsert_by key (key r) fresh update rows = <[i := update r]> rows.
Proof.
  revert i. induction rows as [|r0 rows IH]; intros [|i]; cbn [fmap list_fmap]; [done..| |].
  - intros _ [= ->]. cbn [upsert_by]. by rewrite Z.ltb_irrefl, Z.eqb_refl.
  - intros [Hs Hall]%StronglySorted_inv Hi. cbn [lookup list_lookup] in Hi.
    assert (key r0 < key r) as Hlt.
    { rewrite Forall_fmap, Forall_lookup in Hall. by apply (Hall i). }
    cbn [upsert_by]. rewrite (proj2 (Z.ltb_ge _ _)), (proj2 (Z.eqb_neq _ _)) by lia.
    by rewrite (IH i).
Qed.

Lemma row_of_sorted i r rows :
  StronglySorted Z.lt (key <$> rows) → rows !! i = Some r → row_of key (key r) rows = Some r.
Proof.
  intros Hs Hi. unfold row_of.
  assert (list_find (λ r', key r' = key r) rows = Some (i, r)) as ->; [|done].
  apply list_find_Some. split; [done|]. split; [done|]. intros j y Hj Hlt Hy.
  assert (j = i); [|lia]. apply (NoDup_lookup _ _ _ (key r) (StronglySorted_NoDup_lt _ Hs)).
  - by rewrite list_lookup_fmap, Hj, <-Hy.
  - by rewrite list_lookup_fmap, Hi.
Qed.

Lemma row_of_Some k rows r : row_of key k rows = Some r → ∃ i, rows !! i = Some r ∧ key r = k.
Proof.
  unfold row_of. destruct (list_find _ rows) as [[i x]|] eqn:E; [|done]. intros [= <-].
  apply list_find_Some in E as (? & ? & _). by exists i.
Qed.

Lemma row_of_None k rows : k ∉ key <$> rows → row_of key k rows = None.
Proof.
  intros Hk. unfold row_of. destruct (list_find _ rows) as [[i x]|] eqn:E; [|done].
  apply list_find_Some in E as (Hx & <- & _). destruct Hk. apply list_elem_of_fmap.
  exists x. split; [done|]. by eapply list_elem_of_lookup_2.
Qed.
End rows.

Lemma StronglySorted_snoc (l : list Z) x :
  StronglySorted Z.lt l → Forall (λ y, y < x) l → StronglySorted Z.lt (l ++ [x]).
Proof.
  induction 1 as [|y l _ IH Hy]; intros Hl; [by do 2 constructor|].
  apply Forall_cons in Hl as [Hyx Hl]. constructor; [by apply IH|]. apply Forall_app. split; [done|by constructor].
Qed.

Lemma StronglySorted_prefix (l k : list Z) : l `prefix_of` k → StronglySorted Z.lt k → StronglySorted Z.lt l.
Proof.
  intros [m ->]. induction l as [|x l IH]; [constructor|]. intros [Hs Hx]%StronglySorted_inv.
  constructor; [by apply IH|]. by apply Forall_app in Hx as [? _].
Qed.

(** ** The invariant *)

Notation batch_ids d := (StoredBatch.BatchID <$> batch_rows (base d)).
Notation submitted_ids d := (StoredSubmission.BatchID <$> submissions d).

Record db_ok (d : DB) : Prop := {
  ok_batches : StronglySorted Z.lt (batch_ids d);
  ok_serial : Forall (λ b, b < next_batch (base d)) (batch_ids d);
  ok_prefix : submitted_ids d `prefix_of` batch_ids d;
  ok_ids : Forall (λ r, StoredSubmission.SubmissionID r = "rsub_" +:+ itoa (StoredSubmission.BatchID r)) (submissions d);
}.

Lemma db_ok_sorted d : db_ok d → StronglySorted Z.lt (submitted_ids d).
Proof. intros []. by eapply StronglySorted_prefix. Qed.

Lemma db_ok_ids d : db_ok d → NoDup (StoredSubmission.SubmissionID <$> submissions d).
Proof.
  intros Hd. pose proof (StronglySorted_NoDup_lt _ (db_ok_sorted d Hd)) as Hnd. destruct Hd as [_ _ _ Hids].
  assert (StoredSubmission.SubmissionID <$> submissions d = (λ b, "rsub_" +:+ itoa b) <$> submitted_ids d) as ->.
  { rewrite <-list_fmap_compose. apply list_fmap_ext. intros i r Hi. rewrite Forall_lookup in Hids. by eapply Hids. }
  apply NoDup_fmap_2; [|done]. intros x y E. apply (inj itoa), (inj (String.append "rsub_")), E.
Qed.

(** Tables other than these two do not matter. *)
Lemma db_ok_ext d d' : base d' = base d → submissions d' = submissions d → db_ok d → db_ok d'.
Proof. intros Eb Es []. split; rewrite ?Eb, ?Es; done. Qed.

(** A row replaced by one of the same keys. *)
Lemma db_ok_row d i r r' :
  submissions d !! i = Some r → StoredSubmission.SubmissionID r' = StoredSubmission.SubmissionID r →
  StoredSubmission.BatchID r' = StoredSubmission.BatchID r →
  db_ok d → db_ok (set_submissions d (<[i := r']> (submissions d))).
Proof.
  intros Hi Hid Hb [? ? Hp Hids].
  assert (StoredSubmission.BatchID <$> <[i := r']> (submissions d) = submitted_ids d) as Hk.
  { rewrite list_fmap_insert, Hb. apply list_insert_id. by rewrite list_lookup_fmap, Hi. }
  split; cbn [base submissions set_submissions]; [done..|by rewrite Hk|].
  apply Forall_insert; [done|]. rewrite Hid, Hb. rewrite Forall_lookup in Hids. by eapply Hids.
Qed.

(** ** The store *)

Section store.
Context (sha256 Keccak256 HexToAddress : string → string).
Context `{!JSON balanceLeaf.t, !JSON nonceLeaf.t, !JSON orderLeaf.t}.
Context `{!JSON positionLeaf.t, !JSON marketFundingLeaf.t, !JSON withdrawalLeaf.t}.
Context `{!JSON NonceAdvancedPayload.t, !JSON TradingKeyAuthorizationWitness.t}.
Context `{!JSON OrderAcceptedPayload.t, !JSON OrderCancelledPayload.t, !JSON TradeMatchedPayload.t}.
Context `{!JSON DepositCreditedPayload.t, !JSON WithdrawalRequestedPayload.t}.
Context `{!JSON MarketResolvedPayload.t, !JSON SettlementPayoutPayload.t, !JSON BatchInput.t}.
Context `{!JSON ShadowBatchSubmissionBundle.t}.
Context (artifacts : list StoredBatch.t → StoredBatch.t → result string Artifacts.t).
Context (insert_batch : StoredBatch.t → result string Z).

(** A statement on the submission table. *)
Definition update_submission (d : DB) (id : string) (f : StoredSubmission.t → StoredSubmission.t)
    : DB * result string StoredSubmission.t :=
  let '(rows, r) := updateSubmissionRuntime (submissions d) id f in (set_submissions d rows, r).

Definition sql_store (now : Z) : rollupSubmissionStore DB := {|
  store_ListSubmissions := submissions;
  store_MaterializeAcceptedSubmissions := MaterializeAcceptedSubmissions sha256 Keccak256 HexToAddress now;
  store_MaterializeAcceptedSubmission := MaterializeAcceptedSubmission sha256 Keccak256 HexToAddress now;
  store_NextEscapeCollateralRootForAnchor := NextEscapeCollateralRootForAnchor;
  store_MarkEscapeCollateralRootSubmitted d b tx := updateEscapeCollateralRoot d b (EscapeRoot.anchor_submitted now tx);
  store_MarkEscapeCollateralRootAnchored d b := updateEscapeCollateralRoot d b (EscapeRoot.anchored now);
  store_MarkEscapeCollateralRootFailed d b e := updateEscapeCollateralRoot d b (EscapeRoot.anchor_failed now e);
  store_RollupFrozen := frozen;
  store_PrepareNextSubmission := PrepareNextSubmission sha256 Keccak256 now artifacts insert_batch;
  store_MarkSubmissionRecordSubmitted d id tx := update_submission d id (record_submitted now tx);
  store_MarkSubmissionPublishSubmitted d id tx := update_submission d id (publish_submitted now tx);
  store_MarkSubmissionDataPublished d id := update_submission d id (data_published now);
  store_MarkSubmissionAcceptSubmitted d id tx := update_submission d id (accept_submitted now tx);
  store_MarkSubmissionAccepted d id := update_submission d id (accepted now);
  store_MarkSubmissionFailed d id e := update_submission d id (failed now e);
  store_RecordSubmissionError d id e := update_submission d id (with_error now e);
  store_ReprepareFailedSubmission := ReprepareFailedSubmission sha256 Keccak256 now artifacts;
|}.

(** *** Updates *)

Lemma update_submission_updates d id f :
  (∀ r, StoredSubmission.SubmissionID (f r) = StoredSubmission.SubmissionID r ∧
        StoredSubmission.BatchID (f r) = StoredSubmission.BatchID r) →
  db_ok d → updates submissions db_ok d id f (update_submission d id f).
Proof.
  intros Hf Hd. unfold updates, update_submission, updateSubmissionRuntime.
  destruct (list_find _ (submissions d)) as [[i r]|] eqn:E; cbn [fst snd].
  - split; [|done]. apply list_find_Some in E as (Hi & _ & _). destruct (Hf r). by eapply db_ok_row.
  - split; [by apply (db_ok_ext d)|]. split; [done|by eexists].
Qed.

Lemma escape_keeps d b f :
  db_ok d → keeps submissions db_ok d (updateEscapeCollateralRoot d b f).1.
Proof.
  intros Hd. unfold updateEscapeCollateralRoot. destruct (list_find _ _) as [[i r]|]; [|done].
  split; [by apply (db_ok_ext d)|done].
Qed.

Lemma materialize_tx_tables now d id d' :
  materialize_tx sha256 Keccak256 HexToAddress now d id = Ok d' →
  base d' = base d ∧ submissions d' = submissions d.
Proof.
  unfold materialize_tx. unfold mbind, result_bind. intros H. repeat case_match; simplify_eq; done.
Qed.

Lemma materialize_keeps now d id :
  db_ok d → keeps submissions db_ok d (MaterializeAcceptedSubmission sha256 Keccak256 HexToAddress now d id).1.
Proof.
  intros Hd. unfold MaterializeAcceptedSubmission.
  destruct (materialize_tx _ _ _ _ d id) as [d'|e] eqn:E; [|done].
  apply materialize_tx_tables in E as [Eb Es]. split; [by apply (db_ok_ext d)|done].
Qed.

Lemma materialize_each_keeps now d subs :
  db_ok d → keeps submissions db_ok d (materialize_each sha256 Keccak256 HexToAddress now d subs).1.
Proof.
  revert d. induction subs as [|sub subs IH]; intros d Hd; [done|]. cbn [materialize_each].
  case_bool_decide; [by apply IH|].
  destruct (materialize_keeps now d (StoredSubmission.SubmissionID sub) Hd) as [Hd1 Hr1].
  destruct (MaterializeAcceptedSubmission _ _ _ _ d _) as [d1 [e|]]; cbn [fst] in *; [done|].
  destruct (IH d1 Hd1) as [? ?]. split; [done|congruence].
Qed.

(** *** New submissions *)

Lemma first_unsubmitted_prefix submitted before batches sub :
  sub `prefix_of` StoredBatch.BatchID <$> batches → (∀ b, b ∈ sub → b ∈ submitted) →
  (∀ b, b ∈ StoredBatch.BatchID <$> batches → b ∈ submitted → b ∈ sub) → NoDup (StoredBatch.BatchID <$> batches) →
  match first_unsubmitted submitted before batches with
  | None => sub = StoredBatch.BatchID <$> batches
  | Some (_, b) => ∃ rest, StoredBatch.BatchID <$> batches = sub ++ StoredBatch.BatchID b :: rest
  end.
Proof.
  revert before sub. induction batches as [|b batches IH]; intros before sub Hp Hin Hout Hnd; cbn [first_unsubmitted].
  { by apply prefix_nil_inv in Hp. }
  rewrite fmap_cons in *. apply NoDup_cons in Hnd as [Hb Hnd]. destruct sub as [|x sub].
  { case_bool_decide as Hs; [|by eexists]. exfalso.
    eapply not_elem_of_nil, (Hout (StoredBatch.BatchID b)); [by left|done]. }
  pose proof (prefix_cons_inv_1 _ _ _ _ Hp) as ->. apply prefix_cons_inv_2 in Hp.
  rewrite bool_decide_true by (apply Hin; by left).
  specialize (IH (before ++ [b]) sub Hp). destruct (first_unsubmitted submitted (before ++ [b]) batches) as [[h b']|].
  - destruct IH as [rest ->]; [|intros y Hy Hys|done|by exists rest].
    { intros y Hy. apply Hin. by right. }
    destruct (proj1 (elem_of_cons _ _ _) (Hout y (list_elem_of_further _ _ _ Hy) Hys)) as [->|]; done.
  - rewrite IH; [done| |intros y Hy Hys|done].
    { intros y Hy. apply Hin. by right. }
    destruct (proj1 (elem_of_cons _ _ _) (Hout y (list_elem_of_further _ _ _ Hy) Hys)) as [->|]; done.
Qed.

Lemma submission_status_fresh statuses :
  buildSubmissionStatus statuses = SubmissionStatusReady ∨ buildSubmissionStatus statuses = SubmissionStatusBlockedAuth.
Proof. unfold buildSubmissionStatus. case_match; [by left|by right]. Qed.

(** The row of a batch that has none is appended. *)
Lemma submit_bundle_append now d history batch :
  Forall (λ b, b < StoredBatch.BatchID batch) (submitted_ids d) →
  let '(d', x) := submit_bundle sha256 Keccak256 now artifacts d history batch in
  match x with
  | Err _ => d' = d
  | Ok r => d' = set_submissions d (submissions d ++ [r]) ∧ fresh_submission r ∧
      StoredSubmission.BatchID r = StoredBatch.BatchID batch ∧
      StoredSubmission.SubmissionID r = "rsub_" +:+ itoa (StoredBatch.BatchID batch)
  end.
Proof.
  intros Hlt. unfold submit_bundle, BuildShadowBatchSubmissionBundle.
  destruct (artifacts history batch) as [a|e]; [|done]. unfold upsertSubmission.
  destruct (solidityBytes32 _ _) as [hash|e]; [|done]. destruct (solidityBytes32 _ _) as [root|e]; [|done].
  rewrite upsert_by_snoc by (by apply Forall_fmap in Hlt). rewrite row_of_None.
  2:{ intros Hin. rewrite Forall_forall in Hlt. specialize (Hlt _ Hin). lia. }
  split; [done|]. split; [apply submission_status_fresh|done].
Qed.

(** The row of a batch that has one is replaced and keeps its transactions. *)
Lemma submit_bundle_update now d history batch i old :
  db_ok d → submissions d !! i = Some old → StoredSubmission.BatchID old = StoredBatch.BatchID batch →
  let '(d', x) := submit_bundle sha256 Keccak256 now artifacts d history batch in
  match x with
  | Err _ => d' = d
  | Ok r => d' = set_submissions d (<[i := r]> (submissions d)) ∧
      StoredSubmission.BatchID r = StoredSubmission.BatchID old ∧
      StoredSubmission.SubmissionID r = StoredSubmission.SubmissionID old ∧
      StoredSubmission.RecordTxHash r = StoredSubmission.RecordTxHash old ∧
      StoredSubmission.PublishTxHash r = StoredSubmission.PublishTxHash old
  end.
Proof.
  intros Hd Hi Hb. pose proof (db_ok_sorted d Hd) as Hs. unfold submit_bundle, BuildShadowBatchSubmissionBundle.
  destruct (artifacts history batch) as [a|e]; [|done]. unfold upsertSubmission.
  destruct (solidityBytes32 _ _) as [hash|e]; [|done]. destruct (solidityBytes32 _ _) as [root|e]; [|done].
  rewrite <-Hb. by rewrite (upsert_by_update _ i old), (row_of_sorted _ i old).
Qed.

Lemma next_roots_tables st b :
  batch_rows (next_roots sha256 st b).1 = batch_rows st ∧ next_batch (next_roots sha256 st b).1 = next_batch st.
Proof. unfold next_roots, warmCacheFromFullReplay. repeat case_match; done. Qed.

Lemma MaterializeNextBatch_tables st limit :
  let '(st', x) := MaterializeNextBatch sha256 insert_batch st limit in
  next_batch st <= next_batch st' ∧
  match x with
  | Err _ => batch_rows st' = batch_rows st
  | Ok b => batch_rows st' = batch_rows st ++ [b] ∧ StoredBatch.BatchID b = next_batch st ∧
      next_batch st < next_batch st'
  end.
Proof.
  unfold MaterializeNextBatch. cbv zeta. destruct (loadJournalEntriesAfter _ _ _) as [|first rest]; [by split|].
  destruct (EncodeBatchInput sha256 _) as [data hash].
  set (draft := draft_batch _ _ _). destruct (next_roots_tables st draft) as [Hb Hn].
  destruct (next_roots sha256 st draft) as [st1 [r|e]]; cbn [fst] in *; [|by rewrite Hn].
  destruct (insert_batch _); cbn [next_batch batch_rows StoredBatch.BatchID]; rewrite Hn, Hb; split_and!; lia || done.
Qed.

Lemma db_ok_append d rest r :
  db_ok d → batch_ids d = submitted_ids d ++ StoredSubmission.BatchID r :: rest →
  StoredSubmission.SubmissionID r = "rsub_" +:+ itoa (StoredSubmission.BatchID r) →
  db_ok (set_submissions d (submissions d ++ [r])).
Proof.
  intros [Hb Hn _ Hids] Hsplit Hid. split; cbn [base submissions set_submissions]; [done..| |].
  - rewrite Hsplit, fmap_app. exists rest. by rewrite <-app_assoc.
  - apply Forall_app. split; [done|by constructor].
Qed.

Lemma sorted_app_lt (l : list Z) x rest : StronglySorted Z.lt (l ++ x :: rest) → Forall (λ y, y < x) l.
Proof.
  induction l as [|y l IH]; [constructor|]. intros [Hs Hy]%StronglySorted_inv. constructor; [|by apply IH].
  by apply Forall_app in Hy as [_ [? _]%Forall_cons].
Qed.

(** The next batch, whether it was there or not. *)
Lemma submit_next now d history batch rest :
  db_ok d → batch_ids d = submitted_ids d ++ StoredBatch.BatchID batch :: rest →
  let '(d', x) := submit_bundle sha256 Keccak256 now artifacts d history batch in
  db_ok d' ∧
  match x with
  | Err _ => submissions d' = submissions d
  | Ok r => submissions d' = submissions d ++ [r] ∧ fresh_submission r
  end.
Proof.
  intros Hd Hsplit. pose proof (ok_batches d Hd) as Hs. rewrite Hsplit in Hs.
  pose proof (submit_bundle_append now d history batch (sorted_app_lt _ _ _ Hs)) as H.
  destruct (submit_bundle _ _ _ _ d history batch) as [d' [r|e]]; [|by subst d'].
  destruct H as (-> & Hf & Hb & Hid). split; [|done]. apply (db_ok_append _ rest); [done| |]; by rewrite Hb.
Qed.

(** A batch added to the table. *)
Lemma db_ok_base d st (x : result MaterializeError StoredBatch.t) :
  db_ok d → submitted_ids d = batch_ids d →
  next_batch (base d) <= next_batch st ∧
  match x with
  | Err _ => batch_rows st = batch_rows (base d)
  | Ok b => batch_rows st = batch_rows (base d) ++ [b] ∧ StoredBatch.BatchID b = next_batch (base d) ∧
      next_batch (base d) < next_batch st
  end → db_ok (set_base d st).
Proof.
  intros [Hb Hn Hp Hids] Heq [Hle Hx].
  assert (Forall (λ b, b < next_batch st) (batch_ids d)) as Hn'.
  { eapply Forall_impl; [exact Hn|]. cbv beta. lia. }
  destruct x as [b|e]; [destruct Hx as (Hrows & Hid & Hlt)|rename Hx into Hrows];
    split; cbn [base submissions set_base]; rewrite ?Hrows; try done; rewrite fmap_app.
  - apply StronglySorted_snoc; [done|]. by rewrite Hid.
  - apply Forall_app. split; [done|]. constructor; [lia|constructor].
  - rewrite Heq. by apply prefix_app_r.
Qed.

Lemma prepare_law now d limit :
  db_ok d →
  let x := PrepareNextSubmission sha256 Keccak256 now artifacts insert_batch d limit in
  db_ok x.1 ∧
  match x.2 with
  | Err _ => submissions x.1 = submissions d
  | Ok r => submissions x.1 = submissions d ++ [r] ∧ fresh_submission r
  end.
Proof.
  intros Hd. unfold PrepareNextSubmission. cbv zeta.
  pose proof (first_unsubmitted_prefix (submitted_ids d) [] (batch_rows (base d)) (submitted_ids d)
    (ok_prefix d Hd) (λ b H, H) (λ b _ H, H) (StronglySorted_NoDup_lt _ (ok_batches d Hd))) as Hfirst.
  destruct (first_unsubmitted _ _ _) as [[history batch]|].
  - destruct Hfirst as [rest Hsplit]. pose proof (submit_next now d history batch rest Hd Hsplit) as H.
    by destruct (submit_bundle _ _ _ _ d history batch) as [d' [r|e]].
  - pose proof (MaterializeNextBatch_tables (base d) limit) as Hm.
    destruct (MaterializeNextBatch sha256 insert_batch (base d) limit) as [st x].
    pose proof (db_ok_base d st x Hd Hfirst Hm) as Hd'. destruct x as [batch|e]; [|done].
    destruct Hm as (_ & Hrows & _).
    pose proof (submit_next now (set_base d st) (batch_rows (base d)) batch [] Hd') as H.
    cbn [base set_base submissions] in H. rewrite Hrows, fmap_app, <-Hfirst in H. specialize (H eq_refl).
    by destruct (submit_bundle _ _ _ _ (set_base d st) _ batch) as [d' [r|e']].
Qed.

Lemma reprepare_law now d b :
  db_ok d →
  let d' := (ReprepareFailedSubmission sha256 Keccak256 now artifacts d b).1 in
  db_ok d' ∧
  (submissions d' = submissions d ∨
   ∃ i old new, submissions d !! i = Some old ∧ StoredSubmission.BatchID old = b ∧
     StoredSubmission.Status old = SubmissionStatusFailed ∧ submissions d' = <[i := new]> (submissions d) ∧
     resumes old new).
Proof.
  intros Hd. unfold ReprepareFailedSubmission. cbv zeta.
  destruct (row_of _ b (submissions d)) as [old|] eqn:E; [|by split; [|left]].
  apply row_of_Some in E as (i & Hi & Hb). case_bool_decide as Hst; [by split; [|left]|].
  destruct (list_find _ _) as [[j batch]|] eqn:E; [|by split; [|left]].
  apply list_find_Some in E as (_ & Hbatch & _).
  pose proof (submit_bundle_update now d (take j (batch_rows (base d))) batch i old Hd Hi) as H.
  rewrite Hb, Hbatch in H. specialize (H eq_refl).
  destruct (submit_bundle _ _ _ _ d _ batch) as [d1 [r|e]]; [|by subst d1; split; [|left]].
  destruct H as (-> & Hrb & Hrid & Hrec & Hpub).
  pose proof (db_ok_row d i old r Hi Hrid (eq_trans Hrb (eq_sym Hb)) Hd) as Hd1.
  set (d1 := set_submissions d (<[i := r]> (submissions d))) in *.
  assert (submissions d1 !! i = Some r) as Hi1 by (by eapply list_lookup_insert_eq, lookup_lt_Some).
  pose proof (update_submission_updates d1 ("rsub_" +:+ itoa b) (resumed now (resumeStatus old)) (λ r, conj eq_refl eq_refl) Hd1) as Hu.
  assert (StoredSubmission.SubmissionID r = "rsub_" +:+ itoa b) as Hidr.
  { rewrite Hrid, <-Hb. pose proof (ok_ids d Hd) as Hids. rewrite Forall_lookup in Hids. by apply (Hids i). }
  destruct (updates_at submissions db_ok d1 i r _ _ _ (db_ok_ids d1 Hd1) Hi1 Hidr Hu) as (Hd2 & Hr2 & _). unfold update_submission in Hd2, Hr2.
  destruct (updateSubmissionRuntime _ _ _) as [rows x]. split; [exact Hd2|]. right.
  exists i, old, (resumed now (resumeStatus old) r). split_and!; [done..| |].
  - cbn [fst submissions set_submissions] in *. rewrite Hr2. apply list_insert_insert_eq.
  - split; [done|exact Hrid|exact (eq_trans Hrb (eq_sym Hb))|exact Hrec|exact Hpub].
Qed.

#[global] Instance sql_store_laws now :
  SubmissionStoreLaws submissions db_ok now (rollupSubmissionStore0 := sql_store now).
Proof.
  split; cbn [sql_store store_ListSubmissions store_MaterializeAcceptedSubmissions store_MaterializeAcceptedSubmission
    store_MarkEscapeCollateralRootSubmitted store_MarkEscapeCollateralRootAnchored store_MarkEscapeCollateralRootFailed
    store_MarkSubmissionRecordSubmitted store_MarkSubmissionPublishSubmitted store_MarkSubmissionDataPublished
    store_MarkSubmissionAcceptSubmitted store_MarkSubmissionAccepted store_MarkSubmissionFailed
    store_RecordSubmissionError store_PrepareNextSubmission store_ReprepareFailedSubmission]; intros.
  - by apply db_ok_ids.
  - by apply db_ok_sorted.
  - done.
  - by apply materialize_each_keeps.
  - by apply materialize_keeps.
  - by apply escape_keeps.
  - by apply escape_keeps.
  - by apply escape_keeps.
  - by apply update_submission_updates.
  - by apply update_submission_updates.
  - by apply update_submission_updates.
  - by apply update_submission_updates.
  - by apply update_submission_updates.
  - by apply update_submission_updates.
  - by apply update_submission_updates.
  - by apply prepare_law.
  - by apply reprepare_law.
Qed.
End store.
