(* ===== verification/SubmissionRuns.v ===== *)
(** * Rollup: runs of the submission runtime

    The submission runtime over the real store: batches are submitted in order and one
    at a time, acceptance needs the evidence of the chain, and what an accepted batch
    is turned into never disturbs a queued claim; with concrete runs. *)

From stdpp Require Import sorting.
From S2P Require Import Prelude Strings Shared Auth AuthProps RollupJournal RollupState.
From S2P Require Import RollupReplay RollupRoots RollupProps Merkle AcceptedSnapshot AcceptedProps.
From S2P Require Import VerifierAuth VerifierAuthProps RollupSubmission VerifierBundle VerifierBundleProps RollupSubmitter.
From S2P Require Import RollupSubmitterProps SubmissionStore.

Local Open Scope Z_scope.

(** ** A concrete run *)

(** A digest of the right length. *)
Definition short_hash (s : string) : string := String.substring 0 32 (s +:+ "................................").

Definition sample_artifacts (history : list StoredBatch.t) (batch : StoredBatch.t) : result string Artifacts.t :=
  let hash := EncodeToString (short_hash "proof") in
  Ok (Artifacts.mk [] hash hash "record" "publish" "accept").

Definition sample_store : Store := mkStore sample_journal [] 1 None "".
Definition sample_db : DB := mkDB sample_store [] false {[1 := "0xab"; 2 := "0xcd"]} [] ∅ ∅ None [] ∅ ∅ ∅.

(** The two batches of the sample, nine entries and the rest, and their bundles. *)
Definition after_batch (st : Store) : Store := (MaterializeNextBatch short_hash (λ _, Ok 0) st 9).1.
Definition two_batches : list StoredBatch.t := batch_rows (after_batch (after_batch sample_store)).
Definition sample_bundles : list ShadowBatchSubmissionBundle.t :=
  omap (λ b, match BuildShadowBatchSubmissionBundle short_hash short_hash sample_artifacts [] b with
             | Ok x => Some x | Err _ => None end) two_batches.

Definition bundle_text (b : ShadowBatchSubmissionBundle.t) : string :=
  itoa (SubmissionBatchSummary.BatchID (ShadowBatchSubmissionBundle.Batch b)).

#[global] Instance bundle_json : JSON ShadowBatchSubmissionBundle.t :=
  {| Marshal := bundle_text;
     Unmarshal text := (list_to_map ((λ b, (bundle_text b, b)) <$> sample_bundles)
                          : gmap string ShadowBatchSubmissionBundle.t) !! text |}.

Definition run_store : Z → rollupSubmissionStore DB :=
  sql_store short_hash short_hash (λ a, a) sample_artifacts (λ _, Ok 0).

(** A node that mines every transaction at once and holds what was submitted. *)
Definition expected_of (batchID : Z) : expectedRollupSubmissionState.t :=
  let sub := StoredSubmission.mk "" batchID "" SubmissionStatusReady "" "" (EncodeToString (short_hash "proof"))
               (EncodeToString (short_hash "proof")) "" "" "" (itoa batchID) "" "" "" "" 0 0 0 0 "" 0 0 0 in
  match buildExpectedSubmissionState sub with
  | Ok e => e
  | Err _ => expectedRollupSubmissionState.mk 0 0 0 0 "" "" "" "" "" "" "" "" "" ""
  end.

Definition node (receipt : result string (option bool)) : Chain := mkChain
  (λ calldata, Ok calldata)
  (λ _, receipt)
  (λ b, let e := expected_of b in
        Ok (rollupCoreBatchMetadataState.mk b (expectedRollupSubmissionState.NextStateRoot e)
              (expectedRollupSubmissionState.BatchDataHash e) (expectedRollupSubmissionState.PrevStateRoot e)
              (expectedRollupSubmissionState.NextStateRoot e)))
  (λ _, Ok true)
  (λ b, let e := expected_of b in
        Ok (rollupCoreAcceptedBatchState.mk b (expectedRollupSubmissionState.NextStateRoot e)
              (expectedRollupSubmissionState.FirstSequenceNo e) (expectedRollupSubmissionState.LastSequenceNo e)
              (expectedRollupSubmissionState.EntryCount e) (expectedRollupSubmissionState.BatchDataHash e)
              (expectedRollupSubmissionState.PrevStateRoot e) (expectedRollupSubmissionState.BalancesRoot e)
              (expectedRollupSubmissionState.OrdersRoot e) (expectedRollupSubmissionState.PositionsFundingRoot e)
              (expectedRollupSubmissionState.WithdrawalsRoot e) (expectedRollupSubmissionState.NextStateRoot e)
              (expectedRollupSubmissionState.ConservationHash e) (expectedRollupSubmissionState.AuthProofHash e)
              (expectedRollupSubmissionState.VerifierGateHash e)))
  (λ b, Ok (b, ""))
  (λ _, "anchor")
  (λ _, "").

Definition mining : Chain := node (Ok (Some true)).

(** ** Claims that are queued *)

(** What the claim processor has done with a withdrawal. *)
Definition claim_state (w : AcceptedWithdrawalRecord.t) : string * string * Z * Z :=
  (AcceptedWithdrawalRecord.ClaimStatus w, AcceptedWithdrawalRecord.ClaimTxHash w,
   AcceptedWithdrawalRecord.ClaimSubmittedAt w, AcceptedWithdrawalRecord.ClaimedAt w).

Notation claim_tables := (gmap string AcceptedWithdrawalRecord.t * gmap string acceptedWithdrawalClaimPayload.t)%type.

(** Queued claims stay as they are, stored withdrawals keep their state, and every
    stored withdrawal has its claim queued. *)
Record claims_grow (t t' : claim_tables) : Prop := {
  cg_queue : t.2 ⊆ t'.2;
  cg_state id w : t.1 !! id = Some w → ∃ w', t'.1 !! id = Some w' ∧ claim_state w' = claim_state w;
  cg_queued : dom t.1 ⊆ dom t.2 → dom t'.1 ⊆ dom t'.2;
}.

#[global] Instance claims_grow_preorder : PreOrder claims_grow.
Proof.
  split.
  - intros t. split; [done| |done]. intros id w Hw. by exists w.
  - intros t1 t2 t3 [Q1 S1 D1] [Q2 S2 D2]. split; [by etrans| |by intros ?%D1%D2].
    intros id w (w1 & Hw1 & E1)%S1. destruct (S2 _ _ Hw1) as (w2 & Hw2 & E2). exists w2. by rewrite E2.
Qed.

Lemma upsertAcceptedWithdrawal_grows now t w : claims_grow t (upsertAcceptedWithdrawal now t w).1.
Proof.
  destruct t as [ws q]. unfold upsertAcceptedWithdrawal. cbn [fst]. set (id := AcceptedWithdrawalRecord.WithdrawalID w).
  split; cbn [fst snd].
  - case_match eqn:E; [done|]. by apply insert_subseteq.
  - intros k x Hk. rewrite lookup_insert. case_decide as Hd; [|by exists x].
    subst k. exists (withdrawal_row now w (ws !! id)). split; [done|]. by rewrite Hk.
  - intros Hsub. rewrite dom_insert. case_match eqn:E.
    + apply elem_of_dom_2 in E. set_solver.
    + rewrite dom_insert. set_solver.
Qed.

Lemma upsert_withdrawals_grows now t ws : claims_grow t (upsert_withdrawals now t ws).1.
Proof.
  revert t. induction ws as [|w ws IH]; intros t; [done|]. cbn [upsert_withdrawals].
  pose proof (upsertAcceptedWithdrawal_grows now t w) as H1.
  destruct (upsertAcceptedWithdrawal now t w) as [t1 stored]. specialize (IH t1).
  destruct (upsert_withdrawals now t1 ws) as [t2 rest]. by etrans.
Qed.

(** Every withdrawal of the list is stored. *)
Lemma upsert_withdrawals_stored now t ws w :
  w ∈ ws → is_Some ((upsert_withdrawals now t ws).1.1 !! AcceptedWithdrawalRecord.WithdrawalID w).
Proof.
  revert t. induction ws as [|w0 ws IH]; intros t; [by intros ?%not_elem_of_nil|]. cbn [upsert_withdrawals].
  assert (is_Some ((upsertAcceptedWithdrawal now t w0).1.1 !! AcceptedWithdrawalRecord.WithdrawalID w0)) as H0.
  { destruct t. cbn. rewrite lookup_insert_eq. by eexists. }
  destruct (upsertAcceptedWithdrawal now t w0) as [t1 stored]. specialize (IH t1).
  pose proof (upsert_withdrawals_grows now t1 ws) as Hg.
  destruct (upsert_withdrawals now t1 ws) as [t2 rest]. cbn [fst] in *.
  intros [->|Hin]%elem_of_cons; [|by apply IH]. destruct H0 as [x Hx].
  destruct (cg_state _ _ Hg _ _ Hx) as (x' & Hx' & _). by eexists.
Qed.

Definition claims_of (d : DB) : claim_tables := (accepted_withdrawals d, claim_queue d).

Section claims.
Context (sha256 Keccak256 HexToAddress : string → string).
Context `{!JSON balanceLeaf.t, !JSON nonceLeaf.t, !JSON orderLeaf.t}.
Context `{!JSON positionLeaf.t, !JSON marketFundingLeaf.t, !JSON withdrawalLeaf.t}.
Context `{!JSON NonceAdvancedPayload.t, !JSON TradingKeyAuthorizationWitness.t}.
Context `{!JSON OrderAcceptedPayload.t, !JSON OrderCancelledPayload.t, !JSON TradeMatchedPayload.t}.
Context `{!JSON DepositCreditedPayload.t, !JSON WithdrawalRequestedPayload.t}.
Context `{!JSON MarketResolvedPayload.t, !JSON SettlementPayoutPayload.t, !JSON BatchInput.t}.
Context `{!JSON ShadowBatchSubmissionBundle.t}.
Context (artifacts : list StoredBatch.t → StoredBatch.t → result string Artifacts.t).
Context (insert_batch : StoredBatch.t → result string Z).

Lemma materialize_tx_claims now d id d' :
  materialize_tx sha256 Keccak256 HexToAddress now d id = Ok d' →
  ∃ sub batch ws,
    loadSubmissionByID d id = Ok sub ∧ is_accepted sub ∧
    loadBatchByID d (StoredSubmission.BatchID sub) = Ok batch ∧
    ExtractAcceptedWithdrawals Keccak256 batch = Ok ws ∧
    claims_of d' = (upsert_withdrawals now (claims_of d) ws).1.
Proof.
  unfold materialize_tx, mbind, result_bind. destruct (loadSubmissionByID d id) as [sub|] eqn:Es; [|done].
  case_bool_decide as Hst; [done|]. destruct (loadBatchByID d _) as [batch|] eqn:Eb; [|done].
  destruct (ExtractAcceptedWithdrawals _ _) as [ws|] eqn:Ew; [|done].
  unfold claims_of. destruct (upsert_withdrawals now _ ws) as [[withdrawals queue] stored] eqn:Eu.
  intros H. exists sub, batch, ws. split_and!; [done..|]. rewrite Eu.
  repeat case_match; simplify_eq. done.
Qed.

Lemma materialize_grows now d id :
  claims_grow (claims_of d) (claims_of (MaterializeAcceptedSubmission sha256 Keccak256 HexToAddress now d id).1).
Proof.
  unfold MaterializeAcceptedSubmission. destruct (materialize_tx _ _ _ now d id) as [d'|e] eqn:E; [|done].
  apply materialize_tx_claims in E as (? & ? & ws & _ & _ & _ & _ & E). cbn [fst]. rewrite E.
  apply upsert_withdrawals_grows.
Qed.

Lemma materialize_each_grows now subs d :
  claims_grow (claims_of d) (claims_of (materialize_each sha256 Keccak256 HexToAddress now d subs).1).
Proof.
  revert d. induction subs as [|sub subs IH]; intros d; [done|]. cbn [materialize_each].
  case_bool_decide; [apply IH|]. pose proof (materialize_grows now d (StoredSubmission.SubmissionID sub)) as H1.
  destruct (MaterializeAcceptedSubmission _ _ _ now d _) as [d1 [e|]]; [done|]. by etrans; [exact H1|].
Qed.

Notation the_store := (sql_store sha256 Keccak256 HexToAddress artifacts insert_batch).

Lemma submit_bundle_claims now d history batch :
  claims_of (submit_bundle sha256 Keccak256 now artifacts d history batch).1 = claims_of d.
Proof. unfold submit_bundle. repeat case_match; done. Qed.

Lemma store_step_grows now d d' :
  store_step (rollupSubmissionStore0 := the_store now) d d' → claims_grow (claims_of d) (claims_of d').
Proof.
  intros Hs. destruct Hs; cbn [sql_store store_MaterializeAcceptedSubmissions store_MaterializeAcceptedSubmission
    store_MarkEscapeCollateralRootSubmitted store_MarkEscapeCollateralRootAnchored store_MarkEscapeCollateralRootFailed
    store_MarkSubmissionRecordSubmitted store_MarkSubmissionPublishSubmitted store_MarkSubmissionDataPublished
    store_MarkSubmissionAcceptSubmitted store_MarkSubmissionAccepted store_MarkSubmissionFailed
    store_RecordSubmissionError store_PrepareNextSubmission store_ReprepareFailedSubmission];
    try (unfold update_submission, updateEscapeCollateralRoot; repeat case_match; done).
  - apply materialize_each_grows.
  - apply materialize_grows.
  - unfold PrepareNextSubmission. cbv zeta. destruct (first_unsubmitted _ _ _) as [[h b]|].
    + cbn [fst]. by rewrite submit_bundle_claims.
    + destruct (MaterializeNextBatch _ _ _ _) as [st [b|e]]; [|done]. cbn [fst]. by rewrite submit_bundle_claims.
  - unfold ReprepareFailedSubmission. destruct (row_of _ _ _) as [old|]; [|done]. case_bool_decide; [done|].
    destruct (list_find _ _) as [[i batch]|]; [|done].
    pose proof (submit_bundle_claims now d (take i (batch_rows (base d))) batch) as Hc.
    destruct (submit_bundle _ _ _ _ d _ batch) as [d1 [r|e]]; cbn [fst] in *; [|by rewrite Hc].
    destruct (updateSubmissionRuntime _ _ _) as [rows x]. cbn [fst]. change (claims_grow (claims_of d) (claims_of d1)).
    by rewrite Hc.
Qed.

Lemma run_polls_grows polls d : claims_grow (claims_of d) (claims_of (run_polls the_store polls d)).
Proof.
  revert d. induction polls as [|[[now c] limit] polls IH]; intros d; [done|]. cbn [run_polls].
  etrans; [|apply IH].
  pose proof (PollOnce_steps (rollupSubmissionStore0 := the_store now) c limit d) as Hsteps. clear IH. revert Hsteps.
  generalize (PollOnce (rollupSubmissionStore0 := the_store now) c limit d).1. intros d' Hsteps.
  induction Hsteps as [|d1 d2 d3 H1 _ IH]; [done|]. etrans; [by eapply store_step_grows|done].
Qed.
End claims.

(** ** The runtime over the store *)

(** C22: batches are submitted in order, one at a time, and acceptance is final.  From a
    database whose submissions are those of the first batches, whatever the polls of
    the runtime meet (clocks, answers of the node, failures of the bundle or of the
    insert), only the latest submission may be under way, the submissions are still
    those of the first batches in batch order, without a gap, and every submission that
    was accepted is unchanged. *)
Theorem submissions_in_order (sha256 Keccak256 HexToAddress : string → string)
    `{!JSON balanceLeaf.t, !JSON nonceLeaf.t, !JSON orderLeaf.t}
    `{!JSON positionLeaf.t, !JSON marketFundingLeaf.t, !JSON withdrawalLeaf.t}
    `{!JSON NonceAdvancedPayload.t, !JSON TradingKeyAuthorizationWitness.t}
    `{!JSON OrderAcceptedPayload.t, !JSON OrderCancelledPayload.t, !JSON TradeMatchedPayload.t}
    `{!JSON DepositCreditedPayload.t, !JSON WithdrawalRequestedPayload.t}
    `{!JSON MarketResolvedPayload.t, !JSON SettlementPayoutPayload.t, !JSON BatchInput.t}
    `{!JSON ShadowBatchSubmissionBundle.t}
    (artifacts : list StoredBatch.t → StoredBatch.t → result string Artifacts.t)
    (insert_batch : StoredBatch.t → result string Z) (polls : list (Z * Chain * Z)) (d : DB) :
  db_ok d → one_at_a_time (submissions d) →
  let d' := run_polls (sql_store sha256 Keccak256 HexToAddress artifacts insert_batch) polls d in
  one_at_a_time (submissions d') ∧ StronglySorted Z.lt (submitted_ids d') ∧
  submitted_ids d' `prefix_of` batch_ids d' ∧ accepted_final (submissions d) (submissions d').
Proof.
  intros Hd H1.
  destruct (run_polls_spec submissions db_ok (sql_store sha256 Keccak256 HexToAddress artifacts insert_batch)
    polls d Hd H1) as (Hd' & H1' & Hfin).
  split_and!; [done|by apply db_ok_sorted|by apply ok_prefix|done].
Qed.

Lemma sample_db_ok : db_ok sample_db.
Proof. split; [constructor|constructor|by exists []|constructor]. Qed.

Definition many_polls (n : nat) : list (Z * Chain * Z) := repeat (5, mining, 9) n.

Lemma submissions_in_order_witness :
  let d' := run_polls run_store (many_polls 9) sample_db in
  StoredSubmission.Status <$> submissions d' = [SubmissionStatusAccepted; SubmissionStatusAcceptSubmitted] ∧
  one_at_a_time (submissions d') ∧ StronglySorted Z.lt (submitted_ids d') ∧
  submitted_ids d' `prefix_of` batch_ids d' ∧ accepted_final (submissions sample_db) (submissions d').
Proof.
  split; [vm_compute; reflexivity|].
  apply (submissions_in_order short_hash short_hash (λ a, a) sample_artifacts (λ _, Ok 0) (many_polls 9) sample_db).
  - exact sample_db_ok.
  - intros i r Hi. discriminate Hi.
Defined.

(** C23: a submission is accepted on the evidence of the chain only.  When a poll leaves a
    submission accepted that was not, it was there before with its accepting transaction
    out; the node holds a successful receipt of that transaction, and the batch the
    contract reports as its latest accepted one carries, field by field, the sequence
    range, the roots and the hashes of the stored bundle. *)
Theorem accepted_on_chain (sha256 Keccak256 HexToAddress : string → string)
    `{!JSON balanceLeaf.t, !JSON nonceLeaf.t, !JSON orderLeaf.t}
    `{!JSON positionLeaf.t, !JSON marketFundingLeaf.t, !JSON withdrawalLeaf.t}
    `{!JSON NonceAdvancedPayload.t, !JSON TradingKeyAuthorizationWitness.t}
    `{!JSON OrderAcceptedPayload.t, !JSON OrderCancelledPayload.t, !JSON TradeMatchedPayload.t}
    `{!JSON DepositCreditedPayload.t, !JSON WithdrawalRequestedPayload.t}
    `{!JSON MarketResolvedPayload.t, !JSON SettlementPayoutPayload.t, !JSON BatchInput.t}
    `{!JSON ShadowBatchSubmissionBundle.t}
    (artifacts : list StoredBatch.t → StoredBatch.t → result string Artifacts.t)
    (insert_batch : StoredBatch.t → result string Z) (now : Z) (c : Chain) (limit : Z) (d : DB) i r' :
  let st := sql_store sha256 Keccak256 HexToAddress artifacts insert_batch now in
  db_ok d → submissions (PollOnce (rollupSubmissionStore0 := st) c limit d).1 !! i = Some r' → is_accepted r' →
  submissions d !! i ≠ Some r' →
  ∃ r expected observed, submissions d !! i = Some r ∧ r' = accepted now r ∧
    lookupReceipt c (StoredSubmission.AcceptTxHash r) = Ok (Some true) ∧
    buildExpectedSubmissionState r = Ok expected ∧
    loadAcceptedBatchState c (wrapu64 (StoredSubmission.BatchID r)) = Ok observed ∧
    accepted_as observed expected = true.
Proof.
  intros st Hd Hi Ha Hne. destruct (PollOnce_effect (rollupSubmissionStore0 := st) c now limit d Hd) as [_ He].
  destruct (poll_accepts _ _ _ _ _ _ He Hi Ha) as [?|(r & Hr & -> & Hrec & Hcon)]; [done|].
  revert Hcon. unfold reconcileAcceptedSubmissionState, mbind, result_bind.
  destruct (buildExpectedSubmissionState r) as [expected|] eqn:Ee; [|done].
  rewrite (expected_batch _ _ Ee). destruct (loadAcceptedBatchState c _) as [observed|] eqn:El; [|done].
  intros [= Has]. by exists r, expected, observed.
Qed.

Definition before_acceptance : DB := run_polls run_store (many_polls 3) sample_db.

Lemma accepted_on_chain_witness :
  ∃ r', submissions (PollOnce (rollupSubmissionStore0 := run_store 7) mining 9 before_acceptance).1 !! 0%nat = Some r' ∧
    ∃ r expected observed, submissions before_acceptance !! 0%nat = Some r ∧ r' = accepted 7 r ∧
      lookupReceipt mining (StoredSubmission.AcceptTxHash r) = Ok (Some true) ∧
      buildExpectedSubmissionState r = Ok expected ∧
      loadAcceptedBatchState mining (wrapu64 (StoredSubmission.BatchID r)) = Ok observed ∧
      accepted_as observed expected = true.
Proof.
  eexists. split; [vm_compute; reflexivity|].
  refine (accepted_on_chain short_hash short_hash (λ a, a) sample_artifacts (λ _, Ok 0) 7 mining 9
    before_acceptance 0 _ _ _ _ _).
  - apply (run_polls_spec submissions db_ok run_store); [exact sample_db_ok|]. intros i r Hi. discriminate Hi.
  - vm_compute. reflexivity.
  - reflexivity.
  - vm_compute. discriminate.
Defined.

(** C24: the claim of an accepted withdrawal is queued, once and for all.  Whatever the
    polls meet, a claim that is queued keeps its payload, a withdrawal that is stored
    keeps the state of its claim although every poll writes it anew, and every stored
    withdrawal has its claim queued; and materialising an accepted submission queues
    the claim of every withdrawal of its batch. *)
Theorem claims_queued_once (sha256 Keccak256 HexToAddress : string → string)
    `{!JSON balanceLeaf.t, !JSON nonceLeaf.t, !JSON orderLeaf.t}
    `{!JSON positionLeaf.t, !JSON marketFundingLeaf.t, !JSON withdrawalLeaf.t}
    `{!JSON NonceAdvancedPayload.t, !JSON TradingKeyAuthorizationWitness.t}
    `{!JSON OrderAcceptedPayload.t, !JSON OrderCancelledPayload.t, !JSON TradeMatchedPayload.t}
    `{!JSON DepositCreditedPayload.t, !JSON WithdrawalRequestedPayload.t}
    `{!JSON MarketResolvedPayload.t, !JSON SettlementPayoutPayload.t, !JSON BatchInput.t}
    `{!JSON ShadowBatchSubmissionBundle.t}
    (artifacts : list StoredBatch.t → StoredBatch.t → result string Artifacts.t)
    (insert_batch : StoredBatch.t → result string Z) (polls : list (Z * Chain * Z)) (d : DB) :
  dom (accepted_withdrawals d) ⊆ dom (claim_queue d) →
  let d' := run_polls (sql_store sha256 Keccak256 HexToAddress artifacts insert_batch) polls d in
  claim_queue d ⊆ claim_queue d' ∧
  (∀ id w, accepted_withdrawals d !! id = Some w →
     ∃ w', accepted_withdrawals d' !! id = Some w' ∧ claim_state w' = claim_state w) ∧
  dom (accepted_withdrawals d') ⊆ dom (claim_queue d') ∧
  (∀ now sid d2, MaterializeAcceptedSubmission sha256 Keccak256 HexToAddress now d' sid = (d2, None) →
     ∃ sub batch ws, loadSubmissionByID d' sid = Ok sub ∧ loadBatchByID d' (StoredSubmission.BatchID sub) = Ok batch ∧
       ExtractAcceptedWithdrawals Keccak256 batch = Ok ws ∧
       ∀ w, w ∈ ws → is_Some (claim_queue d2 !! AcceptedWithdrawalRecord.WithdrawalID w)).
Proof.
  intros Hdom d'.
  destruct (run_polls_grows sha256 Keccak256 HexToAddress artifacts insert_batch polls d) as [Hq Hst Hd].
  split_and!; [exact Hq|exact Hst|by apply Hd|]. specialize (Hd Hdom). fold d' in Hd.
  intros now sid d2 Hm. unfold MaterializeAcceptedSubmission in Hm.
  destruct (materialize_tx _ _ _ now d' sid) as [x|e] eqn:E; [|done]. injection Hm as ->.
  apply materialize_tx_claims in E as (sub & batch & ws & Hs & _ & Hb & Hw & Hc).
  exists sub, batch, ws. split_and!; [done..|]. intros w Hin.
  pose proof (cg_queued _ _ (upsert_withdrawals_grows now (claims_of d') ws) Hd) as Hd2.
  pose proof (upsert_withdrawals_stored now (claims_of d') ws w Hin) as Hsome. rewrite <-Hc in Hd2, Hsome.
  by apply elem_of_dom, Hd2, elem_of_dom.
Qed.

Lemma claims_queued_once_witness :
  let d' := run_polls run_store (many_polls 14) sample_db in
  dom (claim_queue d') = {["w"]} ∧ dom (accepted_withdrawals d') ⊆ dom (claim_queue d').
Proof.
  split; [vm_compute; reflexivity|].
  destruct (claims_queued_once short_hash short_hash (λ a, a) sample_artifacts (λ _, Ok 0) (many_polls 14) sample_db)
    as (_ & _ & H & _); [|exact H].
  intros id Hin. exact Hin.
Defined.

(** ** Where the submission runtime goes astray

    Concrete runs of the submission runtime over the store in which the code does not do
    what it means to. *)

(** A node on which the data of no batch is published. *)
Definition unpublished (c : Chain) : Chain :=
  mkChain (submitCalldata c) (TransactionReceipt c) (loadRecordedBatchState c) (λ _, Ok false)
    (loadAcceptedBatchState c) (loadEscapeCollateralRootState c) (PackEscapeCollateralRootCalldata c) (HexToHash c).

Definition reverting : Chain := node (Ok (Some false)).
Definition unreachable : Chain := node (Err "connection refused").

Definition polled (nodes : list Chain) : DB := run_polls run_store ((λ c, (5, c, 9)) <$> nodes) sample_db.
Definition statuses (d : DB) : list SubmissionStatus := StoredSubmission.Status <$> submissions d.

(** The publishing transaction reverts; the submission fails, and is taken up again as
    if the data were published: the accepting transaction is sent while the chain says
    they are not. *)
Lemma reverted_publish_counts_as_published :
  statuses (polled [unpublished mining; unpublished mining; unpublished reverting]) = [SubmissionStatusFailed] ∧
  statuses (polled [unpublished mining; unpublished mining; unpublished reverting; unpublished mining])
    = [SubmissionStatusDataPublished] ∧
  statuses (polled [unpublished mining; unpublished mining; unpublished reverting; unpublished mining;
                    unpublished mining]) = [SubmissionStatusAcceptSubmitted].
Proof. split_and!; vm_compute; reflexivity. Qed.

(** The recording transaction reverts; the submission is taken up again at the same
    transaction, whose receipt never changes: it is never sent again. *)
Lemma reverted_record_is_never_resent :
  statuses (polled [mining; reverting]) = [SubmissionStatusFailed] ∧
  statuses (polled [mining; reverting; reverting]) = [SubmissionStatusRecordSubmitted] ∧
  statuses (polled [mining; reverting; reverting; reverting]) = [SubmissionStatusFailed] ∧
  (StoredSubmission.RecordTxHash <$> submissions (polled [mining; reverting; reverting; reverting])) =
  (StoredSubmission.RecordTxHash <$> submissions (polled [mining])).
Proof. split_and!; vm_compute; reflexivity. Qed.

(** With two accepted batches, materialising the earlier submission (every poll does)
    replaces the withdrawal tree of the later batch by the withdrawals of the earlier
    one, in a transaction of its own. *)
Lemma earlier_batch_overwrites_withdrawal_tree :
  let d := polled (repeat mining 14) in
  let d' := (MaterializeAcceptedSubmission short_hash short_hash (λ a, a) 6 d "rsub_1").1 in
  statuses d = [SubmissionStatusAccepted; SubmissionStatusAccepted] ∧
  (withdrawal_leaf_rows d !! 2) = Some [] ∧
  option_map (map AcceptedWithdrawalLeafRecord.WithdrawalID) (withdrawal_leaf_rows d' !! 2) = Some ["w"] ∧
  option_map AcceptedWithdrawalRecord.BatchID (accepted_withdrawals d' !! "w") = Some 1.
Proof. split_and!; vm_compute; reflexivity. Qed.

(** An escape root whose receipt could not be read once is marked failed, and no poll
    does anything any more, whatever the node answers. *)
Lemma unreachable_node_blocks_for_good :
  let d := polled (repeat mining 5 ++ [unreachable]) in
  (AcceptedEscapeCollateralRootRecord.AnchorStatus <$> escape_roots d) = ["FAILED"] ∧
  ∀ c, (PollOnce (rollupSubmissionStore0 := run_store 6) c 9 d).2 = Ok RollupSubmissionActionEscapeRootFailed.
Proof. split; [vm_compute; reflexivity|]. intros c. vm_compute. reflexivity. Qed.

(** ** A concrete bundle

    The bundle of a batch with one authorized order, its digests, and the witness
    material of the sample journal. *)

(** ** An encoder *)

(** One word for every static value; a word and the elements for a list. *)
Fixpoint uint8_words (xs : list Z) : string :=
  match xs with [] => "" | x :: xs => big_endian 32 x +:+ uint8_words xs end.
Definition pack_value (v : AbiValue) : string :=
  match v with
  | AbiUint64 z => big_endian 32 z
  | AbiBytes32 b => b
  | AbiBytes b => big_endian 32 (Z.of_nat (String.length b)) +:+ b
  | AbiUint8s xs => big_endian 32 (Z.of_nat (length xs)) +:+ uint8_words xs
  | AbiTuple _ => ""
  end.
Fixpoint pack_values (vs : list AbiValue) : string :=
  match vs with [] => "" | v :: vs => pack_value v +:+ pack_values vs end.
Definition sample_pack (vs : list AbiValue) : result string string := Ok (pack_values vs).

Lemma big_endian_32_inj x y : uint64 x → uint64 y → big_endian 32 x = big_endian 32 y → x = y.
Proof.
  intros Hx Hy E%big_endian_inj. unfold uint64 in *.
  assert (2 ^ 64 <= 256 ^ Z.of_nat 32) by (by vm_compute).
  rewrite !Z.mod_small in E by lia. done.
Qed.

Lemma pack_static_inj xs ys : Forall2 same_static xs ys → pack_values xs = pack_values ys → xs = ys.
Proof.
  induction 1 as [|x y xs ys Hxy _ IH]; [done|]. cbn [pack_values]. intros E.
  destruct Hxy as [x y Hx Hy|x y Hx Hy]; cbn [pack_value] in E; apply append_inj_l in E as [E1 E2];
    rewrite ?length_big_endian; try congruence.
  - by rewrite (big_endian_32_inj x y Hx Hy E1), (IH E2).
  - by rewrite E1, (IH E2).
Qed.

Lemma uint8_words_inj xs ys : small_uint8s xs → small_uint8s ys → uint8_words xs = uint8_words ys → xs = ys.
Proof.
  intros Hxs. revert ys. induction Hxs as [|x xs Hx _ IH]; intros ys [|y ys' Hy Hys]; [done|discriminate 1..|].
  cbn [uint8_words]. intros [E1 E2]%append_inj_l; [|by rewrite !length_big_endian].
  rewrite (IH ys' Hys E2). f_equal. apply big_endian_32_inj; [unfold uint64; lia..|done].
Qed.

Lemma sample_pack_Ok vs bytes : sample_pack vs = Ok bytes → bytes = pack_values vs.
Proof. unfold sample_pack. generalize (pack_values vs). by intros s [= <-]. Qed.

Lemma sample_pack_injective : abi_injective sample_pack.
Proof.
  split.
  - intros xs ys bytes H ->%sample_pack_Ok E%sample_pack_Ok. by apply pack_static_inj.
  - intros xs ys bytes Hx Hy ->%sample_pack_Ok E%sample_pack_Ok. revert E. cbn [pack_values pack_value].
    rewrite !append_nil_r. intros [_ E]%append_inj_l; [by apply uint8_words_inj|by rewrite !length_big_endian].
Qed.

Lemma length_substring n s : (n <= String.length s)%nat → String.length (String.substring 0 n s) = n.
Proof.
  revert n. induction s as [|a s IH]; intros [|n]; cbn [String.length String.substring]; [done|lia|done|].
  intros H. rewrite IH; [done|lia].
Qed.

Lemma length_append s t : String.length (s +:+ t) = (String.length s + String.length t)%nat.
Proof.
  induction s as [|a s IH]; [done|]. change (String a s +:+ t) with (String a (s +:+ t)). cbn. by rewrite IH.
Qed.

Lemma length_short_hash s : String.length (short_hash s) = 32%nat.
Proof.
  unfold short_hash. apply length_substring. rewrite length_append.
  change (String.length "................................") with 32%nat. lia.
Qed.

(** ** The bundle *)

#[local] Instance entry_json : JSON Entry.t := write_only (λ e, [Entry.EntryType e; Entry.Payload e]).
#[local] Instance balance_record_json : JSON AcceptedBalanceRecord.t :=
  write_only (λ r, [AcceptedBalanceRecord.Asset r; itoa (AcceptedBalanceRecord.Available r)]).
#[local] Instance position_record_json : JSON AcceptedPositionRecord.t :=
  write_only (λ r, [AcceptedPositionRecord.Outcome r; itoa (AcceptedPositionRecord.Quantity r)]).
#[local] Instance payout_record_json : JSON AcceptedPayoutRecord.t :=
  write_only (λ r, [AcceptedPayoutRecord.EventID r; itoa (AcceptedPayoutRecord.PayoutAmount r)]).
#[local] Instance withdrawal_root_json : JSON AcceptedWithdrawalRootRecord.t :=
  write_only (λ r, [AcceptedWithdrawalRootRecord.MerkleRoot r]).
#[local] Instance withdrawal_leaf_json : JSON AcceptedWithdrawalLeafRecord.t :=
  write_only (λ r, [AcceptedWithdrawalLeafRecord.LeafHash r]).
#[local] Instance escape_root_json : JSON AcceptedEscapeCollateralRootRecord.t :=
  write_only (λ r, [AcceptedEscapeCollateralRootRecord.MerkleRoot r]).
#[local] Instance escape_leaf_json : JSON AcceptedEscapeCollateralLeafRecord.t :=
  write_only (λ r, [AcceptedEscapeCollateralLeafRecord.LeafHash r]).

(** The witness material of the two batches of the sample journal. *)
Definition first_batch : list StoredBatch.t := take 1 two_batches.
Definition second_batch : StoredBatch.t := default sample_batch (last two_batches).

Lemma transition_material_agrees_witness :
  ∃ snap m, BuildAcceptedReplaySnapshot short_hash (first_batch ++ [second_batch]) = Ok snap ∧
    length (AcceptedReplaySnapshot.Balances snap) = 3%nat ∧ length (AcceptedReplaySnapshot.Payouts snap) = 1%nat ∧
    BuildStateTransitionWitnessMaterial short_hash short_hash (λ a, a) first_batch second_batch = Ok m ∧
    buildTransitionAcceptedReplaySnapshot short_hash (first_batch ++ [second_batch]) = Ok snap ∧
    StateTransitionWitnessMaterial.AcceptedBalancesHash m =
      hashAcceptedBalances short_hash (AcceptedReplaySnapshot.Balances snap).
Proof.
  destruct (BuildAcceptedReplaySnapshot short_hash (first_batch ++ [second_batch])) as [snap|] eqn:Es;
    [|exfalso; by vm_compute in Es].
  destruct (BuildStateTransitionWitnessMaterial short_hash short_hash (λ a, a) first_batch second_batch) as [m|e] eqn:Em;
    [|exfalso; by vm_compute in Em].
  destruct (transition_material_agrees short_hash short_hash (λ a, a) first_batch second_batch snap m Es Em)
    as (Ht & Hb & _).
  exists snap, m. split; [reflexivity|].
  split; [vm_compute in Es; injection Es as <-; reflexivity|].
  split; [vm_compute in Es; injection Es as <-; reflexivity|]. split; [reflexivity|]. split; [exact Ht|exact Hb].
Defined.

#[local] Existing Instance sample_key_json.
#[local] Existing Instance sample_nonce_json.
#[local] Existing Instance sample_input_json.
Definition sample_proof : string := pack_values (repeat (AbiUint64 0) 8).

Definition sample_verifier (history : list StoredBatch.t) (batch : StoredBatch.t) : result string Artifacts.t :=
  verifierArtifacts short_hash short_hash (λ a, a) (λ s, default "" (hex_bytes s)) sample_pack (λ m, m)
    (λ _ _, Ok sample_proof) history batch.


(** The inputs of the batch, and the same with a root spelled differently. *)
Definition raw_inputs : ShadowBatchPublicInputs.t := BuildShadowBatchPublicInputs short_hash short_hash sample_batch.
Definition respelled_inputs : ShadowBatchPublicInputs.t :=
  match raw_inputs with
  | ShadowBatchPublicInputs.mk v b f l n d prev br or_ pr wr next c =>
      ShadowBatchPublicInputs.mk v b f l n d (" 0X" +:+ ToUpper prev) br or_ pr wr next c
  end.

Lemma gate_hash_binds_witness :
  ∃ p1 p2 a g1 g2, raw_inputs ≠ respelled_inputs ∧
    buildSolidityVerifierPublicInputs short_hash raw_inputs = Ok p1 ∧
    buildSolidityVerifierPublicInputs short_hash respelled_inputs = Ok p2 ∧
    buildVerifierAuthProofDigest short_hash sample_pack [SolidityAuthJoinStatusJoined] = Ok a ∧
    buildVerifierGateDigestContract short_hash sample_pack p1 a = Ok g1 ∧
    buildVerifierGateDigestContract short_hash sample_pack p2 a = Ok g2 ∧
    (p1 = p2 ∨ ∃ x y, x ≠ y ∧ short_hash x = short_hash y).
Proof.
  destruct (buildSolidityVerifierPublicInputs short_hash raw_inputs) as [p1|] eqn:E1; [|exfalso; by vm_compute in E1].
  destruct (buildSolidityVerifierPublicInputs short_hash respelled_inputs) as [p2|] eqn:E2;
    [|exfalso; by vm_compute in E2].
  destruct (buildVerifierAuthProofDigest short_hash sample_pack [SolidityAuthJoinStatusJoined]) as [a|] eqn:Ea;
    [|exfalso; by vm_compute in Ea].
  destruct (buildVerifierGateDigestContract short_hash sample_pack p1 a) as [g1|] eqn:G1;
    [|exfalso; vm_compute in E1, Ea; injection E1 as <-; injection Ea as <-; by vm_compute in G1].
  destruct (buildVerifierGateDigestContract short_hash sample_pack p2 a) as [g2|] eqn:G2;
    [|exfalso; vm_compute in E2, Ea; injection E2 as <-; injection Ea as <-; by vm_compute in G2].
  assert (SolidityVerifierGateContext.VerifierGateHash g1 = SolidityVerifierGateContext.VerifierGateHash g2) as Hg.
  { vm_compute in E1, E2, Ea. injection E1 as <-. injection E2 as <-. injection Ea as <-.
    vm_compute in G1, G2. injection G1 as <-. injection G2 as <-. reflexivity. }
  exists p1, p2, a, g1, g2. split; [vm_compute; discriminate|]. do 5 (split; [reflexivity || assumption|]).
  destruct (gate_hash_binds short_hash short_hash sample_pack _ _ p1 p2 _ _ a a g1 g2 sample_pack_injective
    length_short_hash E1 E2 Ea Ea G1 G2 Hg) as [[H _]|(v1 & v2 & x & y & _ & _ & Hx & Hy & _)];
    [left; exact H|right; exists x, y; exact (conj Hx Hy)].
Defined.
