(* ===== verification/MatchStore.v ===== *)
(** * Matching service: persistence

    [matching/service/sql_store.go] over the tables of [migrations/001_init.sql]
    as finite maps by primary key, [market_lifecycle.go], [cached_store.go] and the
    cache of [market_cache.go].  A statement that violates a foreign key or a
    unique constraint is an error; a transaction that fails, or whose connection
    fails, leaves the database as it was.  Column widths are not modelled. *)

From stdpp Require Import sorting.
From S2P Require Import Prelude Strings Shared Messages MatchModel.
From S2P Require Import Engine Protocol Candles PostTrade RollupJournal.

Local Open Scope Z_scope.
Local Open Scope go_scope.

(** ** Market lifecycle ([market_lifecycle.go]) *)

Definition effectiveMarketStatusAt (status : string) (closeAt nowUnix : Z) : string :=
  let normalized := normalize_upper status in
  let normalized :=
    if bool_decide (normalized ∈ ["DRAFT"; "PAUSED"; "CLOSED"; "WAITING_RESOLUTION"; "RESOLVED"])
    then normalized else "OPEN" in
  if String.eqb normalized "OPEN" && (0 <? closeAt) && (closeAt <=? nowUnix) then "CLOSED"
  else normalized.

Definition marketTradingOpen (status : string) (closeAt nowUnix : Z) : bool :=
  String.eqb (effectiveMarketStatusAt status closeAt nowUnix) "OPEN".

Definition marketTradingEnabled (frozen : bool) (status : string) (closeAt nowUnix : Z) : bool :=
  negb frozen && marketTradingOpen status closeAt nowUnix.

(** ** Tables *)

Module OrderRow.
Record t := mk {
  client_order_id : string;
  command_id : string;
  user_id : Z;
  market_id : Z;
  outcome : string;
  side : string;
  order_type : string;
  time_in_force : string;
  collateral_asset : string;
  freeze_id : string;
  freeze_asset : string;
  freeze_amount : Z;
  price : Z;
  quantity : Z;
  filled_quantity : Z;
  remaining_quantity : Z;
  status : string;
  cancel_reason : string;
  created_at : Z;
  updated_at : Z;
}.
End OrderRow.

Module TradeRow.
Record t := mk {
  sequence_no : Z;
  market_id : Z;
  outcome : string;
  collateral_asset : string;
  price : Z;
  quantity : Z;
  taker_order_id : string;
  maker_order_id : string;
  taker_user_id : Z;
  maker_user_id : Z;
  taker_side : string;
  maker_side : string;
  occurred_at : Z;
}.
End TradeRow.

Module MarketRow.
Record t := mk {
  title : string;
  collateral_asset : string;
  status : string;
  close_at : Z;
  created_at : Z;
  updated_at : Z;
}.
End MarketRow.

(** [orders] by [order_id], [trades] by [trade_id], [markets] by [market_id], the
    [rollup_freeze_state] row if there is one, and the rollup journal. *)
Record DB := mkDB {
  orders : gmap string OrderRow.t;
  trades : gmap string TradeRow.t;
  markets : gmap Z MarketRow.t;
  freeze_state : option bool;
  journal : Journal;
}.

Definition set_orders (d : DB) o : DB := mkDB o (trades d) (markets d) (freeze_state d) (journal d).
Definition set_trades (d : DB) t : DB := mkDB (orders d) t (markets d) (freeze_state d) (journal d).
Definition set_markets (d : DB) m : DB := mkDB (orders d) (trades d) m (freeze_state d) (journal d).
Definition set_journal (d : DB) j : DB := mkDB (orders d) (trades d) (markets d) (freeze_state d) j.

Definition normalizeAsset (asset : string) : string :=
  if String.eqb (TrimSpace asset) "" then "USDT" else normalize_upper asset.

(** ** Statements of a transaction; [now] is [EXTRACT(EPOCH FROM NOW())] *)

Definition fk_error : string := "violates foreign key constraint".
Definition unique_error : string := "duplicate key value violates unique constraint".

(** [INSERT INTO markets ... ON CONFLICT (market_id) DO UPDATE]. *)
Definition ensureMarket (now : Z) (d : DB) (marketID : Z) (collateralAsset : string) : DB :=
  set_markets d (<[marketID :=
    match markets d !! marketID with
    | None => MarketRow.mk ("Market " +:+ itoa marketID) (normalizeAsset collateralAsset) "OPEN" 0
                now now
    | Some m => MarketRow.mk (MarketRow.title m)
                  (if String.eqb (MarketRow.collateral_asset m) ""
                   then normalizeAsset collateralAsset else MarketRow.collateral_asset m)
                  (MarketRow.status m) (MarketRow.close_at m) (MarketRow.created_at m) now
    end]> (markets d)).

(** The values of an order's row; the freeze and command columns are written for
    the command's own order only. *)
Definition order_values (now : Z) (command : OrderCommand.t) (order : Order.t)
    (isCommandOrder : bool) : OrderRow.t :=
  let freezeID := if isCommandOrder then OrderCommand.FreezeID command else "" in
  let freezeAsset := if isCommandOrder then OrderCommand.FreezeAsset command else "" in
  let freezeAmount := if isCommandOrder then OrderCommand.FreezeAmount command else 0 in
  let commandID := if isCommandOrder then OrderCommand.CommandID command else "" in
  OrderRow.mk (Order.ClientOrderID order) commandID (Order.UserID order) (Order.MarketID order)
    (normalize_upper (Order.Outcome order)) (OrderSide_string (Order.Side order))
    (OrderType_string (Order.Type_ order)) (TimeInForce_string (Order.TIF order))
    (normalizeAsset (OrderCommand.CollateralAsset command)) freezeID (normalizeAsset freezeAsset)
    freezeAmount (Order.Price order) (Order.Quantity order) (Order.FilledQuantity order)
    (Order.RemainingQuantity order) (OrderStatus_string (Order.Status order))
    (CancelReason_string (Order.Reason order)) (Order.CreatedAtMillis order `quot` 1000) now.

Definition keep_text (new old : string) : string := if String.eqb new "" then old else new.

(** [ON CONFLICT (order_id) DO UPDATE SET ...]. *)
Definition merge_row (old new : OrderRow.t) : OrderRow.t :=
  OrderRow.mk (keep_text (OrderRow.client_order_id new) (OrderRow.client_order_id old))
    (keep_text (OrderRow.command_id new) (OrderRow.command_id old))
    (OrderRow.user_id new) (OrderRow.market_id new) (OrderRow.outcome new) (OrderRow.side new)
    (OrderRow.order_type new) (OrderRow.time_in_force new) (OrderRow.collateral_asset new)
    (keep_text (OrderRow.freeze_id new) (OrderRow.freeze_id old))
    (keep_text (OrderRow.freeze_asset new) (OrderRow.freeze_asset old))
    (if OrderRow.freeze_amount new =? 0 then OrderRow.freeze_amount old
     else OrderRow.freeze_amount new)
    (OrderRow.price new) (OrderRow.quantity new) (OrderRow.filled_quantity new)
    (OrderRow.remaining_quantity new) (OrderRow.status new)
    (keep_text (OrderRow.cancel_reason new) (OrderRow.cancel_reason old))
    (OrderRow.created_at old) (OrderRow.updated_at new).

Definition upsert_row (d : DB) (id : string) (row : OrderRow.t) : result string DB :=
  if bool_decide (markets d !! OrderRow.market_id row = None) then Err fk_error
  else Ok (set_orders d (<[id :=
    match orders d !! id with None => row | Some old => merge_row old row end]> (orders d))).

Definition upsertOrder (now : Z) (d : DB) (command : OrderCommand.t) (order : option Order.t)
    (isCommandOrder : bool) : result string DB :=
  match order with
  | None => Ok d
  | Some order => upsert_row d (Order.OrderID order) (order_values now command order isCommandOrder)
  end.

Definition trade_key (trade : Trade.t) : string := "trd_" +:+ itoa (Trade.Sequence trade).

Definition trade_values (collateralAsset : string) (trade : Trade.t) : TradeRow.t :=
  TradeRow.mk (Trade.Sequence trade) (Trade.MarketID trade) (normalize_upper (Trade.Outcome trade))
    (normalizeAsset collateralAsset) (Trade.Price trade) (Trade.Quantity trade)
    (Trade.TakerOrderID trade) (Trade.MakerOrderID trade) (Trade.TakerUserID trade)
    (Trade.MakerUserID trade) (OrderSide_string (Trade.TakerSide trade))
    (OrderSide_string (Trade.MakerSide trade)) (Trade.MatchedAtMillis trade `quot` 1000).

(** [INSERT INTO trades ... ON CONFLICT (trade_id) DO NOTHING]. *)
Definition insertTrade (d : DB) (collateralAsset : string) (trade : Trade.t) : result string DB :=
  match trades d !! trade_key trade with
  | Some _ => Ok d
  | None =>
      if bool_decide (map_Exists (λ _ r, TradeRow.sequence_no r = Trade.Sequence trade) (trades d))
      then Err unique_error
      else if bool_decide (markets d !! Trade.MarketID trade = None) ||
              bool_decide (orders d !! Trade.TakerOrderID trade = None) ||
              bool_decide (orders d !! Trade.MakerOrderID trade = None) then Err fk_error
      else Ok (set_trades d (<[trade_key trade := trade_values collateralAsset trade]> (trades d)))
  end.

(** ** One result, one transaction *)

Fixpoint upsert_affected (now : Z) (d : DB) (command : OrderCommand.t) (affected : list Order.t)
    : result string DB :=
  match affected with
  | [] => Ok d
  | o :: affected =>
      d ← upsertOrder now d command (Some o) false; upsert_affected now d command affected
  end.

Fixpoint insert_trades (d : DB) (collateralAsset : string) (ts : list Trade.t) : result string DB :=
  match ts with
  | [] => Ok d
  | t :: ts => d ← insertTrade d collateralAsset t; insert_trades d collateralAsset ts
  end.

Definition persist_orders (now : Z) (d : DB) (item : PersistItem) : result string DB :=
  d ← upsertOrder now d item.1 (res_Order item.2) true;
  upsert_affected now d item.1 (res_Affected item.2).

Definition persist_result (rollup : bool) (fresh : nat → string) (now : Z) (d : DB)
    (command : OrderCommand.t) (result : Result) : Prelude.result string DB :=
  let d := ensureMarket now d (OrderCommand.MarketID command)
             (OrderCommand.CollateralAsset command) in
  d ← persist_orders now d (command, result);
  d ← insert_trades d (OrderCommand.CollateralAsset command) (res_Trades result);
  if rollup then
    j ← AppendEntriesTx fresh (journal d) (buildRollupEntries command result);
    Ok (set_journal d j)
  else Ok d.

(** ** A batch, one transaction *)

(** The rows of the multi-row market upsert: one per market, the first item's. *)
Fixpoint market_rows (seen : list Z) (items : list PersistItem) : list (Z * string) :=
  match items with
  | [] => []
  | (command, _) :: items =>
      if bool_decide (OrderCommand.MarketID command ∈ seen) then market_rows seen items
      else (OrderCommand.MarketID command, OrderCommand.CollateralAsset command) ::
           market_rows (OrderCommand.MarketID command :: seen) items
  end.

Definition bulkEnsureMarkets (now : Z) (d : DB) (items : list PersistItem) : DB :=
  foldl (λ d row, ensureMarket now d row.1 row.2) d (market_rows [] items).

(** [addRow]: a row with the same [order_id] is overwritten in place. *)
Definition addRow (rows : list (string * OrderRow.t)) (row : string * OrderRow.t)
    : list (string * OrderRow.t) :=
  match list_find (λ r, r.1 = row.1) rows with
  | Some (idx, _) => <[idx := row]> rows
  | None => rows ++ [row]
  end.

Definition item_rows (now : Z) (item : PersistItem) : list (string * OrderRow.t) :=
  let '(command, result) := item in
  match res_Order result with
  | Some o => [(Order.OrderID o, order_values now command o true)]
  | None => []
  end ++
  ((λ o, (Order.OrderID o, order_values now command o false)) <$> res_Affected result).

Definition order_rows (now : Z) (items : list PersistItem) : list (string * OrderRow.t) :=
  foldl addRow [] (items ≫= item_rows now).

Fixpoint upsert_rows (d : DB) (rows : list (string * OrderRow.t)) : result string DB :=
  match rows with
  | [] => Ok d
  | (id, row) :: rows => d ← upsert_row d id row; upsert_rows d rows
  end.

Definition bulkUpsertOrders (now : Z) (d : DB) (items : list PersistItem) : result string DB :=
  upsert_rows d (order_rows now items).

Fixpoint bulkInsertTrades (d : DB) (items : list PersistItem) : result string DB :=
  match items with
  | [] => Ok d
  | (command, result) :: items =>
      d ← insert_trades d (OrderCommand.CollateralAsset command) (res_Trades result);
      bulkInsertTrades d items
  end.

Definition persist_bulk (rollup : bool) (fresh : nat → string) (now : Z) (d : DB)
    (items : list PersistItem) : result string DB :=
  let d := bulkEnsureMarkets now d items in
  d ← bulkUpsertOrders now d items;
  d ← bulkInsertTrades d items;
  if rollup then
    j ← AppendBatchTx fresh (journal d) (items ≫= λ item, buildRollupEntries item.1 item.2);
    Ok (set_journal d j)
  else Ok d.

Definition persist_batch (rollup : bool) (fresh : nat → string) (now : Z) (d : DB)
    (items : list PersistItem) : result string DB :=
  match items with
  | [] => Ok d
  | [(command, result)] => persist_result rollup fresh now d command result
  | _ => persist_bulk rollup fresh now d items
  end.

(** ** The store as the post-trade service uses it *)

(** What a transaction meets outside the program: the database clock, a failure
    of the connection or of the server, the identifiers drawn for the journal. *)
Record Env := mkEnv {
  env_now : nat → Z;
  env_fail : nat → option string;
  env_fresh : nat → nat → string;
}.

(** [calls] counts the transactions so far; [rollup] says that a rollup store is
    attached. *)
Record SQLStore := mkStore { db : DB; rollup : bool; env : Env; calls : nat }.

Definition in_tx (s : SQLStore) (body : DB → result string DB) : SQLStore * option string :=
  let done d err := (mkStore d (rollup s) (env s) (S (calls s)), err) in
  match env_fail (env s) (calls s) with
  | Some err => done (db s) (Some err)
  | None =>
      match body (db s) with
      | Ok d => done d None
      | Err err => done (db s) (Some err)
      end
  end.

#[export] Instance sql_persist : PersistStore SQLStore := {|
  PersistResult s command result :=
    in_tx s (λ d, persist_result (rollup s) (env_fresh (env s) (calls s)) (env_now (env s) (calls s))
                    d command result);
  PersistBatch s items :=
    match items with
    | [] => (s, None)
    | _ => in_tx s (λ d, persist_batch (rollup s) (env_fresh (env s) (calls s))
                           (env_now (env s) (calls s)) d items)
    end;
|}.

(** ** Loading *)

Definition MaxTradeSequence (d : DB) : Z :=
  let m := map_fold (λ _ r acc, Z.max (TradeRow.sequence_no r) acc) 0 (trades d) in
  if m <=? 0 then 0 else m.

Definition rollupFrozen (d : DB) : bool := default false (freeze_state d).

Definition OrderStatus_of_string (s : string) : OrderStatus :=
  if String.eqb s "" then OrderStatusUnset
  else if String.eqb s "NEW" then OrderStatusNew
  else if String.eqb s "PARTIALLY_FILLED" then OrderStatusPartiallyFilled
  else if String.eqb s "FILLED" then OrderStatusFilled
  else if String.eqb s "CANCELLED" then OrderStatusCancelled
  else if String.eqb s "REJECTED" then OrderStatusRejected else OrderStatusOther s.

Definition declared_reasons : list CancelReason :=
  [CancelReasonUnset; CancelReasonNone; CancelReasonIOCNoLiquidity; CancelReasonIOCPartialFill;
   CancelReasonMarketClosed; CancelReasonMarketNoLiquidity; CancelReasonMarketNotTradable;
   CancelReasonMarketResolved; CancelReasonValidationFailed; CancelReasonSTPTaker;
   CancelReasonSTPMaker; CancelReasonSTPBoth; CancelReasonFOKNotFilled; CancelReasonPostOnlyCross;
   CancelReasonAmended].

Definition CancelReason_of_string (s : string) : CancelReason :=
  match list_find (λ r, CancelReason_string r = s) declared_reasons with
  | Some (_, r) => r
  | None => CancelReasonOther s
  end.

(** The scan of one row. *)
Definition row_to_order (id : string) (r : OrderRow.t) : Order.t :=
  Order.mk id (OrderRow.client_order_id r) (OrderRow.user_id r) (OrderRow.market_id r)
    (normalize_upper (OrderRow.outcome r))
    (OrderSide_of_string (normalize_upper (OrderRow.side r)))
    (OrderType_of_string (normalize_upper (OrderRow.order_type r)))
    (TimeInForce_of_string (normalize_upper (OrderRow.time_in_force r)))
    STPNone (OrderRow.price r) (OrderRow.quantity r) (OrderRow.filled_quantity r)
    (OrderStatus_of_string (normalize_upper (OrderRow.status r)))
    (CancelReason_of_string (normalize_upper (OrderRow.cancel_reason r)))
    (OrderRow.created_at r ⊠ 1000) (OrderRow.updated_at r ⊠ 1000).

(** The status, remainder and type conditions both queries share. *)
Definition row_resting (r : OrderRow.t) : bool :=
  bool_decide (OrderRow.status r ∈ ["NEW"; "PARTIALLY_FILLED"]) &&
  (0 <? OrderRow.remaining_quantity r) && String.eqb (OrderRow.order_type r) "LIMIT".

(** [LEFT JOIN]: an order without a market is in an open one. *)
Definition market_open_for (d : DB) (nowUnix : Z) (r : OrderRow.t) : bool :=
  match markets d !! OrderRow.market_id r with
  | None => true
  | Some m => String.eqb (MarketRow.status m) "OPEN" &&
              ((MarketRow.close_at m <=? 0) || (nowUnix <? MarketRow.close_at m))
  end.

(** [INNER JOIN]: the market is open and past its closing time. *)
Definition market_expired_for (d : DB) (nowUnix : Z) (r : OrderRow.t) : bool :=
  match markets d !! OrderRow.market_id r with
  | None => false
  | Some m => String.eqb (MarketRow.status m) "OPEN" && (0 <? MarketRow.close_at m) &&
              (MarketRow.close_at m <=? nowUnix)
  end.

Module ExpiredRestingOrder.
Record t := mk { Command : OrderCommand.t; Order : option Order.t }.
End ExpiredRestingOrder.

Definition expired_item (id : string) (r : OrderRow.t) : ExpiredRestingOrder.t :=
  let order := row_to_order id r in
  ExpiredRestingOrder.mk
    (OrderCommand.mk (OrderRow.command_id r) "" (Order.OrderID order) (Order.ClientOrderID order)
       (OrderRow.freeze_id r) (OrderRow.freeze_asset r) (OrderRow.freeze_amount r)
       (OrderRow.collateral_asset r) (Order.UserID order) (Order.MarketID order)
       (Order.Outcome order) "" (OrderSide_string (Order.Side order))
       (OrderType_string (Order.Type_ order)) (TimeInForce_string (Order.TIF order)) ""
       (Order.Price order) (Order.Quantity order) (Order.UpdatedAtMillis order))
    (Some order).

(** [ORDER BY] compares [order_id] with the database's collation. *)
Section load.
Context (collate : string → string → Prop) `{!RelDecision collate}.

Definition created_order (x y : string * OrderRow.t) : Prop :=
  OrderRow.created_at x.2 < OrderRow.created_at y.2 ∨
  OrderRow.created_at x.2 = OrderRow.created_at y.2 ∧ collate x.1 y.1.

#[global] Instance created_order_dec : RelDecision created_order.
Proof. intros x y. unfold created_order. apply _. Defined.

Definition LoadRestingOrders (nowUnix : Z) (d : DB) : list Order.t :=
  if rollupFrozen d then []
  else
    (λ kr, row_to_order kr.1 kr.2) <$>
      merge_sort created_order
        (filter (λ kr, row_resting kr.2 && market_open_for d nowUnix kr.2 = true)
           (map_to_list (orders d))).

Definition close_at_of (d : DB) (r : OrderRow.t) : Z :=
  from_option MarketRow.close_at 0 (markets d !! OrderRow.market_id r).

Definition expiry_order (d : DB) (x y : string * OrderRow.t) : Prop :=
  close_at_of d x.2 < close_at_of d y.2 ∨
  close_at_of d x.2 = close_at_of d y.2 ∧ created_order x y.

#[global] Instance expiry_order_dec d : RelDecision (expiry_order d).
Proof. intros x y. unfold expiry_order. apply _. Defined.

Definition LoadExpiredRestingOrders (nowUnix : Z) (d : DB) : list ExpiredRestingOrder.t :=
  if rollupFrozen d then []
  else
    (λ kr, expired_item kr.1 kr.2) <$>
      merge_sort (expiry_order d)
        (filter (λ kr, row_resting kr.2 && market_expired_for d nowUnix kr.2 = true)
           (map_to_list (orders d))).
End load.

Definition marketTradableWithFrozen (nowUnix : Z) (d : DB) (frozen : bool) (marketID : Z) : bool :=
  match markets d !! marketID with
  | None => negb frozen
  | Some m => marketTradingEnabled frozen (MarketRow.status m) (MarketRow.close_at m) nowUnix
  end.

Definition MarketIsTradable (nowUnix : Z) (d : DB) (marketID : Z) : bool :=
  marketTradableWithFrozen nowUnix d (rollupFrozen d) marketID.

(** ** The tradability cache ([market_cache.go])

    Times are nanoseconds; a cached value carries its expiry.  [fetch] and
    [fetchFrozen] are the answers of the two queries at the moment of the call. *)
Module MarketTradableCache.
Record t := mk {
  items : gmap Z (bool * Z);
  ttl : Z;
  frozen : option (bool * Z);  (* [frozenValid] with [frozen] and [frozenExp] *)
}.

Definition New (ttl : Z) : t := mk ∅ (if ttl <=? 0 then 5000000000 else ttl) None.

Definition isFrozen (now : Z) (fetchFrozen : result string bool) (c : t) : t * result string bool :=
  let fetch :=
    match fetchFrozen with
    | Err err => (c, Err err)
    | Ok f => (mk (items c) (ttl c) (Some (f, now + ttl c)), Ok f)
    end in
  match frozen c with
  | Some (f, exp) => if now <? exp then (c, Ok f) else fetch
  | None => fetch
  end.

Definition IsTradable (now1 now2 : Z) (fetchFrozen fetch : result string bool) (c : t)
    (marketID : Z) : t * result string bool :=
  let '(c, f) := isFrozen now1 fetchFrozen c in
  match f with
  | Err err => (c, Err err)
  | Ok true => (c, Ok false)
  | Ok false =>
      let refresh :=
        match fetch with
        | Err err => (c, Err err)
        | Ok tradable =>
            (mk (<[marketID := (tradable, now2 + ttl c)]> (items c)) (ttl c) (frozen c),
             Ok tradable)
        end in
      match items c !! marketID with
      | Some (tradable, exp) => if now2 <? exp then (c, Ok tradable) else refresh
      | None => refresh
      end
  end.

Definition Invalidate (c : t) (marketID : Z) : t :=
  mk (delete marketID (items c)) (ttl c) (frozen c).
Definition InvalidateAll (c : t) : t := mk ∅ (ttl c) None.
End MarketTradableCache.
