(* ===== verification/MatchStoreProps.v ===== *)
(** * Matching service: what the store keeps

    A batch and its items one by one store the same order states, trades and journal;
    what is stored of a resting order comes back from [LoadRestingOrders]; the
    tradability cache answers with values no older than its time to live. *)

From stdpp Require Import sorting.
From S2P Require Import Prelude Strings Shared Messages MatchModel.
From S2P Require Import Engine Protocol Candles PostTrade RollupJournal.
From S2P Require Import MatchStore.

Local Open Scope Z_scope.

(** ** Order rows *)

(** The columns that say what an order is and how far it is filled. *)
Definition row_state (r : OrderRow.t) : Z * Z * string * string * string * string * string * Z * Z * Z * Z * string :=
  (OrderRow.user_id r, OrderRow.market_id r, OrderRow.outcome r, OrderRow.side r,
   OrderRow.order_type r, OrderRow.time_in_force r, OrderRow.collateral_asset r, OrderRow.price r,
   OrderRow.quantity r, OrderRow.filled_quantity r, OrderRow.remaining_quantity r,
   OrderRow.status r).

Lemma merge_row_state old new : row_state (merge_row old new) = row_state new.
Proof. done. Qed.

(** The last row written for an order. *)
Definition last_row (id : string) (rows : list (string * OrderRow.t)) : option (string * OrderRow.t) :=
  last (filter (λ r, r.1 = id) rows).

Lemma last_row_app id rows1 rows2 :
  last_row id (rows1 ++ rows2) =
    match last_row id rows2 with Some r => Some r | None => last_row id rows1 end.
Proof. unfold last_row. by rewrite filter_app, last_app. Qed.

Lemma last_row_cons id r rows :
  last_row id (r :: rows) =
    match last_row id rows with
    | Some r' => Some r'
    | None => if decide (r.1 = id) then Some r else None
    end.
Proof.
  change (r :: rows) with ([r] ++ rows). rewrite last_row_app. unfold last_row at 2.
  rewrite filter_cons. by case_decide.
Qed.

Lemma last_row_fst id rows r : last_row id rows = Some r → r.1 = id.
Proof.
  unfold last_row. intros H%last_Some_elem_of. by apply list_elem_of_filter in H as [? _].
Qed.

Lemma upsert_row_Ok d id row d' :
  upsert_row d id row = Ok d' ↔
  is_Some (markets d !! OrderRow.market_id row) ∧
  d' = set_orders d (<[id := match orders d !! id with None => row | Some old => merge_row old row end]>
         (orders d)).
Proof.
  unfold upsert_row. case_bool_decide as E.
  - split; [done|]. intros [[? H] _]. by rewrite E in H.
  - rewrite <-not_eq_None_Some. naive_solver.
Qed.

Lemma upsert_row_state d id row d' id' :
  upsert_row d id row = Ok d' →
  row_state <$> orders d' !! id' =
    if decide (id = id') then Some (row_state row) else row_state <$> orders d !! id'.
Proof.
  intros [_ ->]%upsert_row_Ok. simpl. case_decide as E.
  - subst. rewrite lookup_insert_eq. by destruct (orders d !! id').
  - by rewrite lookup_insert_ne.
Qed.

Lemma upsert_rows_frame d rows d' :
  upsert_rows d rows = Ok d' →
  trades d' = trades d ∧ markets d' = markets d ∧ journal d' = journal d ∧
  freeze_state d' = freeze_state d.
Proof.
  revert d. induction rows as [|[id row] rows IH]; intros d; simpl; [by intros [= <-]|].
  intros (d1 & [_ ->]%upsert_row_Ok & E)%result_bind_Ok. by apply IH in E.
Qed.

Lemma upsert_rows_state d rows d' id :
  upsert_rows d rows = Ok d' →
  row_state <$> orders d' !! id =
    match last_row id rows with
    | Some r => Some (row_state r.2)
    | None => row_state <$> orders d !! id
    end.
Proof.
  revert d. induction rows as [|[id0 row] rows IH]; intros d; simpl; [by intros [= <-]|].
  intros (d1 & E1 & E)%result_bind_Ok. rewrite (IH _ E), last_row_cons. cbn [fst snd].
  destruct (last_row id rows); [done|]. rewrite (upsert_row_state _ _ _ _ _ E1).
  by case_decide.
Qed.

Lemma upsert_affected_rows now d command affected :
  upsert_affected now d command affected =
    upsert_rows d ((λ o, (Order.OrderID o, order_values now command o false)) <$> affected).
Proof.
  revert d. induction affected as [|o affected IH]; intros d; [done|]. simpl.
  destruct (upsert_row _ _ _); [by apply IH|done].
Qed.

Lemma persist_orders_rows now d item : persist_orders now d item = upsert_rows d (item_rows now item).
Proof.
  destruct item as [command r]. unfold persist_orders, item_rows. simpl.
  destruct (res_Order r) as [o|]; cbn [upsertOrder upsert_rows app].
  - destruct (upsert_row _ _ _); [|done]. apply upsert_affected_rows.
  - apply upsert_affected_rows.
Qed.

(** Deduplication keeps the last row of every order. *)
Lemma addRow_last rows row id :
  NoDup rows.*1 → NoDup (addRow rows row).*1 ∧
  last_row id (addRow rows row) = if decide (row.1 = id) then Some row else last_row id rows.
Proof.
  intros Hnd. unfold addRow. destruct (list_find _ rows) as [[idx r]|] eqn:E.
  - apply list_find_Some in E as (Hidx & Heq & _).
    assert ((<[idx:=row]> rows).*1 = rows.*1) as Ef.
    { rewrite list_fmap_insert. apply list_insert_id. by rewrite list_lookup_fmap, Hidx, <-Heq. }
    split; [by rewrite Ef|].
    rewrite <-(take_drop_middle rows idx r Hidx) in Hnd |- *.
    pose proof (lookup_lt_Some _ _ _ Hidx) as Hlt.
    assert (length (take idx rows) = idx) as Hlen by (rewrite length_take; lia).
    rewrite insert_app_r_alt, Hlen, Nat.sub_diag by lia. cbn [insert list_insert].
    rewrite !last_row_app, !last_row_cons. case_decide as Ed.
    + assert (last_row id (drop (S idx) rows) = None) as ->; [|done].
      unfold last_row. apply last_None, list_filter_none.
      rewrite fmap_app, fmap_cons in Hnd. apply NoDup_app in Hnd as (_ & _ & [Hn _]%NoDup_cons).
      intros x Hx Ex. apply Hn. rewrite Heq, Ed, <-Ex. by apply list_elem_of_fmap_2.
    + rewrite decide_False by (by rewrite Heq). done.
  - apply list_find_None in E. split.
    + rewrite fmap_app. apply NoDup_app. split_and!; [done| |apply NoDup_singleton].
      intros x (y & E1 & Hy)%list_elem_of_fmap E2%list_elem_of_singleton.
      rewrite Forall_forall in E. apply (E y Hy). by rewrite <-E1, E2.
    + rewrite last_row_app, last_row_cons. cbn. by case_decide.
Qed.

Lemma foldl_addRow_last rows acc id :
  NoDup acc.*1 → NoDup (foldl addRow acc rows).*1 ∧
  last_row id (foldl addRow acc rows) =
    match last_row id rows with Some r => Some r | None => last_row id acc end.
Proof.
  revert acc. induction rows as [|r rows IH]; intros acc Hnd; [done|]. cbn [foldl].
  destruct (addRow_last acc r id Hnd) as [Hnd' E]. destruct (IH _ Hnd') as [Hnd'' ->].
  split; [done|]. rewrite last_row_cons, E. destruct (last_row id rows); [done|]. by case_decide.
Qed.

Lemma order_rows_last now items id :
  last_row id (order_rows now items) = last_row id (items ≫= item_rows now).
Proof.
  unfold order_rows.
  destruct (foldl_addRow_last (items ≫= item_rows now) [] id) as [_ ->]; [constructor|].
  by destruct (last_row _ _).
Qed.

(** ** Trades and journal *)

Lemma insertTrade_frame d c t d' :
  insertTrade d c t = Ok d' →
  orders d' = orders d ∧ markets d' = markets d ∧ journal d' = journal d ∧
  freeze_state d' = freeze_state d.
Proof. unfold insertTrade. repeat case_match; intros [= <-]; done. Qed.

Lemma insert_trades_frame d c ts d' :
  insert_trades d c ts = Ok d' →
  orders d' = orders d ∧ markets d' = markets d ∧ journal d' = journal d ∧
  freeze_state d' = freeze_state d.
Proof.
  revert d. induction ts as [|t ts IH]; intros d; simpl; [by intros [= <-]|].
  intros (d1 & E1 & E)%result_bind_Ok. apply IH in E as (-> & -> & -> & ->).
  by apply (insertTrade_frame _ _ _ _ E1).
Qed.

(** The trades a batch leaves depend on the trades before it and on nothing else. *)
Lemma insertTrade_trades d1 d2 c t d1' d2' :
  trades d1 = trades d2 → insertTrade d1 c t = Ok d1' → insertTrade d2 c t = Ok d2' →
  trades d1' = trades d2'.
Proof.
  unfold insertTrade. intros E. rewrite E. case_match; [by intros [= <-] [= <-]|].
  case_bool_decide; [done|].
  repeat case_match; try done. intros [= <-] [= <-]. done.
Qed.

Lemma insert_trades_trades d1 d2 c ts d1' d2' :
  trades d1 = trades d2 → insert_trades d1 c ts = Ok d1' → insert_trades d2 c ts = Ok d2' →
  trades d1' = trades d2'.
Proof.
  revert d1 d2. induction ts as [|t ts IH]; intros d1 d2 E; simpl; [by intros [= <-] [= <-]|].
  intros (e1 & E1 & H1)%result_bind_Ok (e2 & E2 & H2)%result_bind_Ok.
  apply (IH _ _ (insertTrade_trades _ _ _ _ _ _ E E1 E2) H1 H2).
Qed.

(** A journal row without its random identifier. *)
Definition strip (e : JournalEntry.t) : Z * (string * string * string) * Z * JournalPayload :=
  (JournalEntry.Sequence e, JournalEntry.source e, JournalEntry.OccurredAtMillis e,
   JournalEntry.Payload e).

Definition same_journal (j1 j2 : Journal) : Prop :=
  strip <$> entries j1 = strip <$> entries j2 ∧ next_sequence j1 = next_sequence j2.

Lemma same_journal_source j1 j2 :
  same_journal j1 j2 → JournalEntry.source <$> entries j1 = JournalEntry.source <$> entries j2.
Proof.
  intros [E _]. apply (f_equal (fmap (λ x : Z * (string * string * string) * Z * JournalPayload,
    x.1.1.2))) in E. by rewrite <-!list_fmap_compose in E.
Qed.

Lemma insert_row_same j1 j2 id1 id2 e j1' j2' :
  same_journal j1 j2 → insert_row j1 id1 e = Ok j1' → insert_row j2 id2 e = Ok j2' →
  same_journal j1' j2'.
Proof.
  intros Hj. pose proof (same_journal_source _ _ Hj) as Es. destruct Hj as [E En].
  unfold insert_row. rewrite Es. case_bool_decide.
  { intros [= <-] [= <-]. split; simpl; [done|lia]. }
  repeat case_bool_decide; try done. intros [= <-] [= <-]. split; simpl; [|lia].
  rewrite !fmap_app, E. by unfold strip; simpl; rewrite En.
Qed.

Lemma insert_rows_same j1 j2 f1 f2 es j1' j2' :
  same_journal j1 j2 → insert_rows f1 j1 es = Ok j1' → insert_rows f2 j2 es = Ok j2' →
  same_journal j1' j2'.
Proof.
  revert j1 j2 f1 f2. induction es as [|e es IH]; intros j1 j2 f1 f2 Hj; cbn [insert_rows].
  { by intros [= <-] [= <-]. }
  intros (k1 & E1 & H1)%result_bind_Ok (k2 & E2 & H2)%result_bind_Ok.
  apply (IH _ _ _ _ (insert_row_same _ _ _ _ _ _ _ Hj E1 E2) H1 H2).
Qed.

Lemma insert_rows_app f j es1 es2 j' :
  insert_rows f j (es1 ++ es2) = Ok j' ↔
  ∃ j1, insert_rows f j es1 = Ok j1 ∧ insert_rows (λ i, f (length es1 + i)%nat) j1 es2 = Ok j'.
Proof.
  revert f j. induction es1 as [|e es1 IH]; intros f j; cbn [insert_rows app length].
  { naive_solver. }
  setoid_rewrite result_bind_Ok. setoid_rewrite IH. naive_solver.
Qed.

(** ** What persisting a list of results leaves, by the batch or one by one *)

(** Each item in its own transaction. *)
Fixpoint persist_each (rollup : bool) (fresh : nat → nat → string) (now : nat → Z) (d : DB)
    (items : list PersistItem) : result string DB :=
  match items with
  | [] => Ok d
  | (command, r) :: items =>
      d ← persist_result rollup (fresh 0%nat) (now 0%nat) d command r;
      persist_each rollup (λ i, fresh (S i)) (λ i, now (S i)) d items
  end.

Definition last_state (id : string) (rows : list (string * OrderRow.t)) :=
  (λ r, row_state r.2) <$> last_row id rows.

(** Row states do not depend on the clock. *)
Lemma item_rows_clock now now' item :
  prod_map id row_state <$> item_rows now item = prod_map id row_state <$> item_rows now' item.
Proof.
  destruct item as [command r]. unfold item_rows. rewrite !fmap_app, <-!list_fmap_compose.
  f_equal. by destruct (res_Order r).
Qed.

Lemma last_state_ext i rows1 rows2 :
  prod_map id row_state <$> rows1 = prod_map id row_state <$> rows2 →
  last_state i rows1 = last_state i rows2.
Proof.
  revert rows2. induction rows1 as [|[k1 r1] rows1 IH]; intros [|[k2 r2] rows2]; try done.
  intros E. assert (k1 = k2) as <- by exact (f_equal (λ l, default "" (option_map fst (hd_error l))) E).
  assert (Some (row_state r1) = Some (row_state r2)) as Er by exact (f_equal (λ l, option_map snd (hd_error l)) E).
  assert (prod_map id row_state <$> rows1 = prod_map id row_state <$> rows2) as Et
    by exact (f_equal tail E).
  specialize (IH _ Et). unfold last_state in *. rewrite !last_row_cons. cbn [fst].
  destruct (last_row i rows1), (last_row i rows2); try done. by case_decide.
Qed.

(** The journal and the trades, item by item. *)
Inductive chain {A} (R : PersistItem → A → A → Prop) : list PersistItem → A → A → Prop :=
| chain_nil a : chain R [] a a
| chain_cons item items a b c : R item a b → chain R items b c → chain R (item :: items) a c.

Lemma chain_det {A} (R : PersistItem → A → A → Prop) (sim : A → A → Prop) items a1 a2 b1 b2 :
  (∀ item x1 x2 y1 y2, sim x1 x2 → R item x1 y1 → R item x2 y2 → sim y1 y2) →
  sim a1 a2 → chain R items a1 b1 → chain R items a2 b2 → sim b1 b2.
Proof.
  intros HR Ha H1. revert a2 Ha. induction H1; intros a2 Ha H2; inversion H2; subst; [done|]. eauto.
Qed.

Definition trades_rel (item : PersistItem) (t t' : gmap string TradeRow.t) : Prop :=
  ∃ d d', trades d = t ∧ trades d' = t' ∧
    insert_trades d (OrderCommand.CollateralAsset item.1) (res_Trades item.2) = Ok d'.

Definition journal_rel (item : PersistItem) (j j' : Journal) : Prop :=
  ∃ f, insert_rows f j (buildRollupEntries item.1 item.2) = Ok j'.

Record effect (rollup : bool) (d : DB) (items : list PersistItem) (d' : DB) : Prop := {
  ef_orders : ∀ now id, row_state <$> orders d' !! id =
    match last_state id (items ≫= item_rows now) with
    | Some s => Some s | None => row_state <$> orders d !! id
    end;
  ef_trades : chain trades_rel items (trades d) (trades d');
  ef_journal : rollup = true → chain journal_rel items (journal d) (journal d');
}.

Lemma effect_det rollup d items d1 d2 :
  effect rollup d items d1 → effect rollup d items d2 →
  (∀ id, row_state <$> orders d1 !! id = row_state <$> orders d2 !! id) ∧
  trades d1 = trades d2 ∧ (rollup = true → same_journal (journal d1) (journal d2)).
Proof.
  intros [O1 T1 J1] [O2 T2 J2]. split_and!.
  - intros id. by rewrite (O1 0), (O2 0).
  - apply (chain_det trades_rel eq items (trades d) (trades d)); [|done..].
    intros item ? ? ? ? -> (x & x' & Ex & <- & Hx) (y & y' & Ey & <- & Hy).
    apply (insert_trades_trades _ _ _ _ _ _ (eq_trans Ex (eq_sym Ey)) Hx Hy).
  - intros Hr. apply (chain_det journal_rel same_journal items (journal d) (journal d)); [|done|by auto..].
    intros item x1 x2 y1 y2 Hx [f1 E1] [f2 E2]. by eapply insert_rows_same.
Qed.

Lemma last_state_app id rows1 rows2 :
  last_state id (rows1 ++ rows2) =
    match last_state id rows2 with Some s => Some s | None => last_state id rows1 end.
Proof. unfold last_state. rewrite last_row_app. by destruct (last_row id rows2). Qed.

Lemma upsert_rows_effect now d rows d' items id :
  upsert_rows d rows = Ok d' →
  last_state id rows = last_state id (items ≫= item_rows now) →
  ∀ now', row_state <$> orders d' !! id =
    match last_state id (items ≫= item_rows now') with
    | Some s => Some s | None => row_state <$> orders d !! id
    end.
Proof.
  intros E El now'. rewrite (upsert_rows_state _ _ _ id E).
  assert (last_state id (items ≫= item_rows now') = last_state id rows) as ->.
  { rewrite El. apply last_state_ext. clear. induction items as [|i items IH]; [done|].
    rewrite !bind_cons, !fmap_app. f_equal; [apply item_rows_clock|done]. }
  unfold last_state. by destruct (last_row id rows).
Qed.

(** ** One transaction per item *)

Lemma persist_result_effect rollup fresh now d command r d' :
  persist_result rollup fresh now d command r = Ok d' → effect rollup d [(command, r)] d'.
Proof.
  unfold persist_result. set (d0 := ensureMarket _ _ _ _). cbv zeta. rewrite persist_orders_rows.
  intros (d1 & E1 & (d2 & E2 & E3)%result_bind_Ok)%result_bind_Ok.
  destruct (upsert_rows_frame _ _ _ E1) as (Ft & _ & Fj & _).
  destruct (insert_trades_frame _ _ _ _ E2) as (Fo & _ & Fj2 & _).
  assert (orders d' = orders d2 ∧ trades d' = trades d2 ∧
    (rollup = true → AppendEntriesTx fresh (journal d2) (buildRollupEntries command r) =
       Ok (journal d'))) as (Eo & Et & Hj).
  { destruct rollup; [|by injection E3 as <-].
    apply result_bind_Ok in E3 as (j & Ej & [= <-]). by rewrite Ej. }
  split.
  - intros now' id. rewrite Eo, Fo.
    apply (upsert_rows_effect now d0 (item_rows now (command, r))); [done|].
    by rewrite bind_cons, app_nil_r.
  - econstructor; [|constructor]. exists d1, d2. by rewrite Ft, Et.
  - intros Hr. econstructor; [|constructor]. exists fresh.
    destruct (proj1 (AppendEntriesTx_rows _ _ _ _) (Hj Hr)) as [_ Hrows].
    by rewrite Fj2, Fj in Hrows.
Qed.

Lemma effect_cons rollup d item items d1 d' :
  effect rollup d [item] d1 → effect rollup d1 items d' → effect rollup d (item :: items) d'.
Proof.
  intros [O1 T1 J1] [O2 T2 J2]. split.
  - intros now id. rewrite bind_cons, last_state_app, (O2 now), (O1 now).
    rewrite bind_cons, app_nil_r. by destruct (last_state id (items ≫= item_rows now)).
  - inversion_clear T1 as [|? ? ? b ? HR Hn]. inversion Hn; subst. by econstructor.
  - intros Hr. specialize (J1 Hr). inversion_clear J1 as [|? ? ? b ? HR Hn]. inversion Hn; subst.
    econstructor; [done|by apply J2].
Qed.

Lemma persist_each_effect rollup fresh now d items d' :
  persist_each rollup fresh now d items = Ok d' → effect rollup d items d'.
Proof.
  revert fresh now d. induction items as [|[command r] items IH]; intros fresh now d; simpl.
  { intros [= <-]. split; [done|constructor|constructor]. }
  intros (d1 & E1 & E)%result_bind_Ok.
  apply (effect_cons _ _ _ _ d1); [by eapply persist_result_effect|by eapply IH].
Qed.

(** ** The batch *)

Lemma bulkEnsureMarkets_frame now d items :
  let d' := bulkEnsureMarkets now d items in
  orders d' = orders d ∧ trades d' = trades d ∧ journal d' = journal d.
Proof.
  unfold bulkEnsureMarkets. generalize (market_rows [] items). intros rows. revert d.
  induction rows as [|row rows IH]; intros d; [done|]. cbn [foldl].
  by destruct (IH (ensureMarket now d row.1 row.2)) as (-> & -> & ->).
Qed.

Lemma bulkInsertTrades_chain d items d' :
  bulkInsertTrades d items = Ok d' →
  chain trades_rel items (trades d) (trades d') ∧ orders d' = orders d ∧ journal d' = journal d.
Proof.
  revert d. induction items as [|[command r] items IH]; intros d; simpl.
  { intros [= <-]. split; [constructor|done]. }
  intros (d1 & E1 & E)%result_bind_Ok. destruct (IH _ E) as (Hc & -> & ->).
  destruct (insert_trades_frame _ _ _ _ E1) as (-> & _ & -> & _). split; [|done].
  econstructor; [|exact Hc]. by exists d, d1.
Qed.

Lemma insert_rows_chain f j items j' :
  insert_rows f j (items ≫= λ item, buildRollupEntries item.1 item.2) = Ok j' →
  chain journal_rel items j j'.
Proof.
  revert f j. induction items as [|item items IH]; intros f j; cbn [mbind list_bind].
  { intros [= <-]. constructor. }
  intros (j1 & E1 & E2)%insert_rows_app. econstructor; [by exists f|by eapply IH].
Qed.

Lemma persist_bulk_effect rollup fresh now d items d' :
  persist_bulk rollup fresh now d items = Ok d' → effect rollup d items d'.
Proof.
  unfold persist_bulk. cbv zeta.
  destruct (bulkEnsureMarkets_frame now d items) as (Fo & Ft & Fj). cbv zeta in Fo, Ft, Fj.
  intros (d1 & E1 & (d2 & E2 & E3)%result_bind_Ok)%result_bind_Ok.
  destruct (upsert_rows_frame _ _ _ E1) as (Gt & _ & Gj & _).
  destruct (bulkInsertTrades_chain _ _ _ E2) as (Hc & Go & Hj2).
  assert (orders d' = orders d2 ∧ trades d' = trades d2 ∧
    (rollup = true → chain journal_rel items (journal d2) (journal d'))) as (Eo & Et & Hj).
  { destruct rollup; [|by injection E3 as <-].
    apply result_bind_Ok in E3 as (j & Ej & [= <-]). split_and!; [done..|]. intros _. simpl.
    apply journal_batch_rows in Ej. by eapply insert_rows_chain. }
  split.
  - intros now' id. rewrite Eo, Go, <-Fo.
    apply (upsert_rows_effect now (bulkEnsureMarkets now d items) (order_rows now items)); [done|].
    unfold last_state. by rewrite order_rows_last.
  - rewrite Gt, Ft in Hc. by rewrite Et.
  - intros Hr. specialize (Hj Hr). by rewrite Hj2, Gj, Fj in Hj.
Qed.

Lemma persist_batch_effect rollup fresh now d items d' :
  persist_batch rollup fresh now d items = Ok d' → effect rollup d items d'.
Proof.
  destruct items as [|[command r] [|item2 items]].
  - intros [= <-]. split; [done|constructor|constructor].
  - apply persist_result_effect.
  - apply persist_bulk_effect.
Qed.

(** Persisting a batch in one transaction leaves what persisting its results
    one by one leaves: every order in its latest state (identity, price, quantities,
    remainder, status), the same trades, and the same journal rows in the same
    sequence up to their random identifiers, whatever clock each transaction reads. *)
Theorem persist_batch_equivalent rollup fresh fresh' now now' d items d1 d2 :
  persist_each rollup fresh now d items = Ok d1 →
  persist_batch rollup fresh' now' d items = Ok d2 →
  (∀ id, row_state <$> orders d1 !! id = row_state <$> orders d2 !! id) ∧
  trades d1 = trades d2 ∧ (rollup = true → same_journal (journal d1) (journal d2)).
Proof.
  intros H1%persist_each_effect H2%persist_batch_effect. by eapply effect_det.
Qed.

Definition sample_sell (filled : Z) (status : OrderStatus) : Order.t :=
  Order.mk "s1" "" 1 88 "YES" OrderSideSell OrderTypeLimit TimeInForceGTC STPNone 40 10 filled
    status CancelReasonUnset 1500 1500.
Definition sample_buy : Order.t :=
  Order.mk "b1" "" 2 88 "YES" OrderSideBuy OrderTypeLimit TimeInForceGTC STPNone 40 4 4
    OrderStatusFilled CancelReasonUnset 1700 1700.
Definition sample_cmd (id freeze asset : string) (amount : Z) (user : Z) (side : string) : OrderCommand.t :=
  OrderCommand.mk ("cmd_" +:+ id) "" id "" freeze asset amount "USDT" user 88 "YES" "88:YES" side
    "LIMIT" "GTC" "" 40 10 1500.

(** A sell order rests, then a buy order takes four of it: two results. *)
Definition sample_items : list PersistItem :=
  [(sample_cmd "s1" "frz_1" "POSITION:88:YES" 10 1 "SELL",
    mkResult (Some (sample_sell 0 OrderStatusNew)) [] [] zero_snapshot);
   (sample_cmd "b1" "frz_2" "USDT" 160 2 "BUY",
    mkResult (Some sample_buy) [sample_sell 4 OrderStatusPartiallyFilled]
      [Trade.mk 1 "88:YES:00000001" 88 "YES" "88:YES" 40 4 "b1" "s1" 2 1 OrderSideBuy OrderSideSell
         1700 0] zero_snapshot)].

Definition empty_db : DB := mkDB ∅ ∅ ∅ None (mkJournal [] 1).
Definition each_fresh (k i : nat) : string := sample_fresh (10 * k + i).

Lemma persist_batch_equivalent_witness :
  ∃ d1 d2, persist_each true each_fresh (λ _, 2) empty_db sample_items = Ok d1 ∧
    persist_batch true sample_fresh 3 empty_db sample_items = Ok d2 ∧
    (∀ id, row_state <$> orders d1 !! id = row_state <$> orders d2 !! id) ∧ trades d1 = trades d2.
Proof.
  destruct (persist_each true each_fresh (λ _, 2) empty_db sample_items) as [d1|] eqn:E1;
    [|by vm_compute in E1].
  destruct (persist_batch true sample_fresh 3 empty_db sample_items) as [d2|] eqn:E2;
    [|by vm_compute in E2].
  exists d1, d2. split; [done|]. split; [done|].
  destruct (persist_batch_equivalent _ _ _ _ _ _ _ _ _ E1 E2) as (H1 & H2 & _). by split.
Defined.

(** ** Restart: what is stored of a resting order comes back *)

(** A resting order with the strings the system produces. *)
Record storable (o : Order.t) : Prop := {
  st_outcome : normalize_upper (Order.Outcome o) = Order.Outcome o;
  st_side : OrderSide_IsValid (Order.Side o) = true;
  st_type : Order.Type_ o = OrderTypeLimit;
  st_tif : TimeInForce_IsValid (Order.TIF o) = true;
  st_status : Order.Status o = OrderStatusNew ∨ Order.Status o = OrderStatusPartiallyFilled;
  st_remaining : 0 < Order.RemainingQuantity o;
}.

(** The fields that survive: everything matching looks at but the self-trade
    prevention strategy. *)
Record reloads (o o' : Order.t) : Prop := {
  rl_id : Order.OrderID o' = Order.OrderID o;
  rl_user : Order.UserID o' = Order.UserID o;
  rl_market : Order.MarketID o' = Order.MarketID o;
  rl_outcome : Order.Outcome o' = Order.Outcome o;
  rl_side : Order.Side o' = Order.Side o;
  rl_type : Order.Type_ o' = Order.Type_ o;
  rl_tif : Order.TIF o' = Order.TIF o;
  rl_price : Order.Price o' = Order.Price o;
  rl_quantity : Order.Quantity o' = Order.Quantity o;
  rl_filled : Order.FilledQuantity o' = Order.FilledQuantity o;
  rl_status : Order.Status o' = Order.Status o;
  rl_stp : Order.STP o' = STPNone;
}.

Lemma reload_row r now command o b :
  row_state r = row_state (order_values now command o b) → storable o →
  reloads o (row_to_order (Order.OrderID o) r) ∧ row_resting r = true ∧
  OrderRow.market_id r = Order.MarketID o.
Proof.
  intros [= Eu Em Eo Es Et Ei Ec Ep Eq Ef Er Est] [Ho Hs Ht Hi Hst Hr].
  unfold row_to_order, row_resting. rewrite Ht in Et. split_and!; [|..|done].
  - split; cbn [Order.OrderID Order.UserID Order.MarketID Order.Outcome Order.Side Order.Type_
      Order.TIF Order.Price Order.Quantity Order.FilledQuantity Order.Status Order.STP]; try done.
    + by rewrite Eo, !Ho.
    + rewrite Es. unfold OrderSide_IsValid in Hs. by destruct (Order.Side o).
    + by rewrite Et, Ht.
    + rewrite Ei. by destruct (Order.TIF o).
    + rewrite Est. by destruct Hst as [->| ->].
  - rewrite Et, Er, !andb_true_iff. split_and!; [|by apply Z.ltb_lt|done].
    rewrite Est. by destruct Hst as [->| ->].
Qed.

Definition flagged_row (now : Z) (command : OrderCommand.t) (ob : Order.t * bool)
    : string * OrderRow.t :=
  (Order.OrderID ob.1, order_values now command ob.1 ob.2).

Lemma last_row_orders now command l o b :
  (o, b) ∈ l → NoDup (Order.OrderID <$> l.*1) →
  last_row (Order.OrderID o) (flagged_row now command <$> l) =
    Some (flagged_row now command (o, b)).
Proof.
  induction l as [|[o0 b0] l IH]; [by intros ?%elem_of_nil|].
  cbn [fmap list_fmap fst snd]. intros [[= -> ->]|Hin]%elem_of_cons [Hn Hnd]%NoDup_cons;
    rewrite last_row_cons; [|by rewrite (IH Hin Hnd)].
  rewrite decide_True by done.
  assert (last_row (Order.OrderID o0) (flagged_row now command <$> l) = None) as ->; [|done].
  unfold last_row. apply last_None, list_filter_none.
  intros x (y & -> & Hy)%list_elem_of_fmap Ex. cbn [flagged_row fst] in Ex. apply Hn. rewrite <-Ex.
  by apply (list_elem_of_fmap_2 Order.OrderID), (list_elem_of_fmap_2 fst).
Qed.

Definition flagged (r : Result) : list (Order.t * bool) :=
  ((., true) <$> option_list (res_Order r)) ++ ((., false) <$> res_Affected r).

Lemma flagged_orders r : (flagged r).*1 = result_orders r.
Proof.
  unfold flagged, result_orders. rewrite fmap_app, <-!list_fmap_compose. by rewrite !list_fmap_id.
Qed.

Lemma item_rows_flagged now command r :
  item_rows now (command, r) = flagged_row now command <$> flagged r.
Proof.
  unfold flagged, item_rows. rewrite fmap_app, <-!list_fmap_compose. by destruct (res_Order r).
Qed.

(** The row an order of the result ends up with. *)
Lemma result_row now command r o :
  o ∈ result_orders r → NoDup (Order.OrderID <$> result_orders r) →
  ∃ b, last_state (Order.OrderID o) (item_rows now (command, r)) =
         Some (row_state (order_values now command o b)).
Proof.
  rewrite <-flagged_orders. intros ([o' b] & -> & Hin)%list_elem_of_fmap Hnd. exists b.
  unfold last_state. rewrite item_rows_flagged. cbn [fst]. by rewrite (last_row_orders _ _ _ _ b).
Qed.

(** C17: restart round trip.  After a result is stored, every resting order of it
    whose market is open is loaded again by [LoadRestingOrders], exactly once, with
    the same owner, market, side, time in force, price, quantity, fill and status
    (and without its self-trade-prevention strategy, which has no column). *)
Theorem restart_round_trip collate `{!RelDecision collate} rollup fresh now nowUnix d command r d' o m :
  persist_result rollup fresh now d command r = Ok d' →
  o ∈ result_orders r → NoDup (Order.OrderID <$> result_orders r) → storable o →
  rollupFrozen d' = false → markets d' !! Order.MarketID o = Some m →
  MarketRow.status m = "OPEN" → MarketRow.close_at m ≤ 0 ∨ nowUnix < MarketRow.close_at m →
  ∃ o', o' ∈ LoadRestingOrders collate nowUnix d' ∧ reloads o o' ∧
    ∀ o'', o'' ∈ LoadRestingOrders collate nowUnix d' → Order.OrderID o'' = Order.OrderID o → o'' = o'.
Proof.
  intros Hp Ho Hnd Hst Hf Hm Hs Hc. destruct (persist_result_effect _ _ _ _ _ _ _ Hp) as [Eo _ _].
  specialize (Eo now (Order.OrderID o)).
  destruct (result_row now command r o Ho Hnd) as [b Eb]. rewrite bind_cons, app_nil_r, Eb in Eo.
  apply fmap_Some in Eo as (row & Erow & Es). symmetry in Es.
  destruct (reload_row row now command o b Es Hst) as (Hrl & Hrest & Emk).
  unfold LoadRestingOrders. rewrite Hf. exists (row_to_order (Order.OrderID o) row).
  assert (∀ k r, (k, r) ∈ merge_sort (created_order collate)
      (filter (λ kr, row_resting kr.2 && market_open_for d' nowUnix kr.2 = true)
         (map_to_list (orders d'))) ↔
    (row_resting r && market_open_for d' nowUnix r = true) ∧ orders d' !! k = Some r) as Hin.
  { intros k r0. by rewrite merge_sort_Permutation, list_elem_of_filter, elem_of_map_to_list. }
  split_and!; [|done|].
  - apply (list_elem_of_fmap_2' _ _ (Order.OrderID o, row)); [|done]. apply Hin. split; [|done].
    rewrite Hrest. unfold market_open_for. rewrite Emk, Hm, Hs. simpl.
    apply orb_true_iff. destruct Hc; [left; by apply Z.leb_le|right; by apply Z.ltb_lt].
  - intros o'' ([k r0] & -> & [_ Hk]%Hin)%list_elem_of_fmap Ek. cbn [fst snd row_to_order Order.OrderID] in *.
    subst k. by simplify_eq.
Qed.

Lemma restart_round_trip_witness :
  ∃ d', persist_result true sample_fresh 7 empty_db (sample_cmd "s1" "frz_1" "POSITION:88:YES" 10 1 "SELL")
          (mkResult (Some (sample_sell 4 OrderStatusPartiallyFilled)) [] [] zero_snapshot) = Ok d' ∧
    ∃ o', o' ∈ LoadRestingOrders String.le 9 d' ∧ reloads (sample_sell 4 OrderStatusPartiallyFilled) o'.
Proof.
  destruct (persist_result true sample_fresh 7 empty_db (sample_cmd "s1" "frz_1" "POSITION:88:YES" 10 1 "SELL")
          (mkResult (Some (sample_sell 4 OrderStatusPartiallyFilled)) [] [] zero_snapshot))
    as [d'|] eqn:E; [|by vm_compute in E].
  exists d'. split; [done|].
  destruct (restart_round_trip String.le _ _ 7 9 _ _ _ _ (sample_sell 4 OrderStatusPartiallyFilled)
    (MarketRow.mk "Market 88" "USDT" "OPEN" 0 7 7) E) as (o' & Hin & Hr & _).
  - left.
  - apply NoDup_singleton.
  - split; [done..|by right|done].
  - vm_compute in E. by injection E as <-.
  - vm_compute in E. by injection E as <-.
  - done.
  - by left.
  - by exists o'.
Defined.

(** ** Sequence numbers after a restart *)

(** Every trade row is stored under its own sequence number. *)
Definition trades_keyed (d : DB) : Prop :=
  map_Forall (λ k r, k = "trd_" +:+ itoa (TradeRow.sequence_no r)) (trades d).

Lemma insertTrade_keyed d c t d' : insertTrade d c t = Ok d' → trades_keyed d → trades_keyed d'.
Proof.
  unfold insertTrade, trades_keyed. repeat case_match; intros [= <-]; try done. intros Hk. simpl.
  by apply map_Forall_insert_2.
Qed.

Lemma MaxTradeSequence_max d k r : trades d !! k = Some r → TradeRow.sequence_no r ≤ MaxTradeSequence d.
Proof.
  intros Hk. unfold MaxTradeSequence.
  assert (∀ (m : gmap string TradeRow.t), m !! k = Some r →
    TradeRow.sequence_no r ≤ map_fold (λ _ r acc, Z.max (TradeRow.sequence_no r) acc) 0 m) as Hmax.
  { intros m. revert k r Hk.
    apply (map_fold_weak_ind (λ b m, ∀ k r, trades d !! k = Some r → m !! k = Some r → TradeRow.sequence_no r ≤ b)).
    - by intros k r _ ?%lookup_empty_Some.
    - intros i x m' b Hi IH k r Hk [(-> & ->)|[Hne Hm]]%lookup_insert_Some; [lia|].
      specialize (IH k r Hk Hm). lia. }
  specialize (Hmax _ Hk). destruct (Z.leb_spec (map_fold (λ (_ : string) (r0 : TradeRow.t) (acc : Z),
    TradeRow.sequence_no r0 `max` acc) 0 (trades d)) 0); lia.
Qed.

(** A trade numbered after [MaxTradeSequence] is a new row. *)
Lemma restart_sequence_fresh d t :
  trades_keyed d → MaxTradeSequence d < Trade.Sequence t → trades d !! trade_key t = None.
Proof.
  intros Hk Hlt. destruct (trades d !! trade_key t) as [r|] eqn:E; [|done]. exfalso.
  pose proof (MaxTradeSequence_max d _ _ E) as Hle. specialize (Hk _ _ E). unfold trade_key in Hk.
  assert (itoa (Trade.Sequence t) = itoa (TradeRow.sequence_no r)) as Ei%(inj itoa); [|lia].
  by injection Hk.
Qed.

(** ** The tradability cache *)

Section cache.
(** What the two queries would answer at each instant. *)
Context (frozenAt : Z → bool) (tradableAt : Z → Z → bool).

Import MarketTradableCache.

(** Every cached value is what its query answered one time-to-live before its expiry. *)
Record cache_ok (c : t) : Prop := {
  co_frozen : ∀ f exp, frozen c = Some (f, exp) → f = frozenAt (exp - ttl c);
  co_items : ∀ m b exp, items c !! m = Some (b, exp) → b = tradableAt (exp - ttl c) m;
}.

Definition bounded_by (now : Z) (c : t) : Prop :=
  (∀ f exp, frozen c = Some (f, exp) → exp ≤ now + ttl c) ∧
  (∀ m b exp, items c !! m = Some (b, exp) → exp ≤ now + ttl c).

Lemma New_cache_ok now ttl : cache_ok (New ttl) ∧ bounded_by now (New ttl).
Proof.
  split; split; cbn [New frozen items]; try done; intros m b exp H; by rewrite lookup_empty in H.
Qed.

Lemma isFrozen_ok now fetchFrozen c c' f :
  cache_ok c → bounded_by now c → (∀ b, fetchFrozen = Ok b → b = frozenAt now) →
  0 < ttl c → isFrozen now fetchFrozen c = (c', Ok f) →
  cache_ok c' ∧ bounded_by now c' ∧ ttl c' = ttl c ∧ items c' = items c ∧
  ∃ t, now - ttl c < t ≤ now ∧ f = frozenAt t.
Proof.
  intros [Hf Hi] [Bf Bi] Hfetch Ht. unfold isFrozen.
  assert ((let fetch := match fetchFrozen with
             | Err err => (c, Err err)
             | Ok f => (mk (items c) (ttl c) (Some (f, now + ttl c)), Ok f) end in fetch) = (c', Ok f) →
    cache_ok c' ∧ bounded_by now c' ∧ ttl c' = ttl c ∧ items c' = items c ∧
    ∃ t, now - ttl c < t ≤ now ∧ f = frozenAt t) as Hrefresh.
  { destruct fetchFrozen as [b|]; simpl; [|done]. intros [= <- <-].
    pose proof (Hfetch b eq_refl) as ->. split_and!; try done.
    - split; simpl; [|done]. intros f0 exp [= <- <-]. f_equal. lia.
    - split; simpl; [|done]. intros f0 exp [= <- <-]. lia.
    - exists now. split; [lia|done]. }
  destruct (frozen c) as [[f0 exp]|] eqn:Ef; [|exact Hrefresh].
  destruct (Z.ltb_spec now exp); [|exact Hrefresh]. intros [= <- <-].
  split; [split; [by rewrite Ef|done]|]. split; [split; [by rewrite Ef|done]|]. split; [done|].
  split; [done|]. exists (exp - ttl c). pose proof (Bf _ _ eq_refl). split; [lia|]. by apply Hf.
Qed.

(** The cache never answers with anything older than its time to live.
    Whatever was asked before, an answer of [IsTradable] combines a freeze state and
    a market state that each held at some instant less than one [ttl] ago, and the
    cache keeps that property. *)
Theorem cache_fresh now1 now2 fetchFrozen fetch c m c' b :
  cache_ok c → bounded_by now1 c → 0 < ttl c → now1 ≤ now2 →
  (∀ b, fetchFrozen = Ok b → b = frozenAt now1) → (∀ b, fetch = Ok b → b = tradableAt now2 m) →
  IsTradable now1 now2 fetchFrozen fetch c m = (c', Ok b) →
  cache_ok c' ∧ bounded_by now2 c' ∧
  ∃ t1 t2, now1 - ttl c < t1 ≤ now1 ∧ now2 - ttl c < t2 ≤ now2 ∧
    b = negb (frozenAt t1) && (frozenAt t1 || tradableAt t2 m).
Proof.
  intros Hc Hb Ht Hn Hff Hft. unfold IsTradable.
  destruct (isFrozen now1 fetchFrozen c) as [c1 [f|]] eqn:E1; [|done].
  destruct (isFrozen_ok _ _ _ _ _ Hc Hb Hff Ht E1) as ([Hf1 Hi1] & [Bf1 Bi1] & Et & Ei & t1 & Ht1 & ->).
  assert (bounded_by now2 c1) as Hb2.
  { split; [intros g e He; specialize (Bf1 g e He); lia|intros k g e He; specialize (Bi1 k g e He); lia]. }
  destruct (frozenAt t1) eqn:Eft.
  { intros [= <- <-]. split_and!; [done|done|]. exists t1, now2. rewrite Eft. split_and!; [lia..|done]. }
  assert ((match fetch with
      | Err err => (c1, Err err)
      | Ok tradable => (mk (<[m := (tradable, now2 + ttl c1)]> (items c1)) (ttl c1) (frozen c1), Ok tradable)
      end) = (c', Ok b) →
    cache_ok c' ∧ bounded_by now2 c' ∧
    ∃ t1 t2, now1 - ttl c < t1 ≤ now1 ∧ now2 - ttl c < t2 ≤ now2 ∧
      b = negb (frozenAt t1) && (frozenAt t1 || tradableAt t2 m)) as Hrefresh.
  { destruct fetch as [g|]; [|done]. intros [= <- <-]. pose proof (Hft g eq_refl) as ->. split_and!.
    - split; simpl; [done|]. intros k g e [(-> & [= <- <-])|[Hne He]]%lookup_insert_Some; [f_equal; lia|].
      by apply (Hi1 k).
    - destruct Hb2 as [Bf2 Bi2]. split; simpl; [done|].
      intros k g e [(-> & [= <- <-])|[Hne He]]%lookup_insert_Some; [lia|]. by apply (Bi2 k g).
    - exists t1, now2. rewrite Eft. split_and!; [lia..|done]. }
  destruct (items c1 !! m) as [[g e]|] eqn:Em; [|exact Hrefresh].
  destruct (Z.ltb_spec now2 e); [|exact Hrefresh]. intros [= <- <-]. split_and!; [done|done|].
  exists t1, (e - ttl c). rewrite Eft. destruct Hb2 as [_ Bi2]. specialize (Bi2 m g e Em).
  split_and!; try lia. simpl. rewrite <-Et. by apply Hi1.
Qed.
End cache.

(** A market that closes at time 100, never frozen, asked at 90 and again at 104
    with a time to live of 20: the second answer is still the first one's. *)
Lemma cache_fresh_witness :
  let frozenAt := λ _ : Z, false in let tradableAt := λ t _ : Z, t <? 100 in
  ∃ c1 c2, MarketTradableCache.IsTradable 90 90 (Ok false) (Ok true) (MarketTradableCache.New 20) 88 =
      (c1, Ok true) ∧
    MarketTradableCache.IsTradable 104 104 (Ok false) (Ok false) c1 88 = (c2, Ok true) ∧
    cache_ok frozenAt tradableAt c2.
Proof.
  intros frozenAt tradableAt.
  destruct (cache_fresh frozenAt tradableAt 90 90 (Ok false) (Ok true) (MarketTradableCache.New 20) 88
    (MarketTradableCache.mk {[88 := (true, 110)]} 20 (Some (false, 110))) true) as (H1 & H2 & _);
    [apply (New_cache_ok _ _ 0)|apply (New_cache_ok frozenAt tradableAt)|done|done|
     by intros b [= <-]..|reflexivity|].
  destruct (cache_fresh frozenAt tradableAt 104 104 (Ok false) (Ok false) _ 88
    (MarketTradableCache.mk {[88 := (true, 110)]} 20 (Some (false, 110))) true H1) as (H3 & _);
    [destruct H2 as [A B]; split; [intros f e [= <- <-]; simpl; lia|
       intros m b e He; specialize (B m b e He); simpl in *; lia]|done|done|
     by intros b [= <-]..|reflexivity|].
  eexists _, _. split; [reflexivity|]. split; [reflexivity|exact H3].
Defined.
