(* ===== verification/PostTradeProps.v ===== *)
(** * Post-trade service: what is published

    The events of a result, batches against single results, and failures. *)

From S2P Require Import Prelude Shared Messages MatchModel.
From S2P Require Import Engine Candles PostTrade RollupJournal MatchStore.
From S2P Require Import MatchStoreProps.

Local Open Scope Z_scope.

(** ** Reading a batch *)

Definition trades_in (items : list BatchItem) : list TradeMatchedEvent.t :=
  omap (λ i : BatchItem, match i.2 with PayloadTrade e => Some e | _ => None end) items.
Definition positions_in (items : list BatchItem) : list PositionChangedEvent.t :=
  omap (λ i : BatchItem, match i.2 with PayloadPosition e => Some e | _ => None end) items.
Definition orders_in (items : list BatchItem) : list OrderEvent.t :=
  omap (λ i : BatchItem, match i.2 with PayloadOrder e => Some e | _ => None end) items.

(** The event reports this trade, with the fees of the schedule on its notional. *)
Record reports (sched : Schedule) (t : Trade.t) (e : TradeMatchedEvent.t) : Prop := {
  rp_id : TradeMatchedEvent.TradeID e = Trade.TradeID t;
  rp_key : TradeMatchedEvent.BookKey e = Trade.BookKey t;
  rp_price : TradeMatchedEvent.Price e = Trade.Price t;
  rp_quantity : TradeMatchedEvent.Quantity e = Trade.Quantity t;
  rp_taker : TradeMatchedEvent.TakerUserID e = Trade.TakerUserID t ∧
             TradeMatchedEvent.TakerOrderID e = Trade.TakerOrderID t ∧
             TradeMatchedEvent.TakerSide e = OrderSide_string (Trade.TakerSide t);
  rp_maker : TradeMatchedEvent.MakerUserID e = Trade.MakerUserID t ∧
             TradeMatchedEvent.MakerOrderID e = Trade.MakerOrderID t ∧
             TradeMatchedEvent.MakerSide e = OrderSide_string (Trade.MakerSide t);
  rp_fees : ∀ r, Compute sched (wrap64 (Trade.Price t * Trade.Quantity t)) = Ok r →
    TradeMatchedEvent.TakerFee e = TakerFee r ∧ TradeMatchedEvent.MakerFee e = MakerFee r;
}.

(** What user [u] gained of position [asset]. *)
Definition moved (u : Z) (asset : string) (e : PositionChangedEvent.t) : Z :=
  if bool_decide (PositionChangedEvent.UserID e = u ∧ PositionChangedEvent.PositionAsset e = asset)
  then PositionChangedEvent.DeltaQuantity e else 0.

(** What user [u] bought less what it sold of [asset] in one trade: the taker buys
    when its side is BUY and sells otherwise, the maker does the opposite. *)
Definition net_bought (u : Z) (asset : string) (t : Trade.t) : Z :=
  let q := match Trade.TakerSide t with OrderSideBuy => Trade.Quantity t | _ => - Trade.Quantity t end in
  if bool_decide (PositionAsset (Trade.MarketID t) (Trade.Outcome t) = asset) then
    (if Trade.TakerUserID t =? u then q else 0) - (if Trade.MakerUserID t =? u then q else 0)
  else 0.

Lemma net_bought_sides u asset t :
  net_bought u asset t =
    if bool_decide (PositionAsset (Trade.MarketID t) (Trade.Outcome t) = asset) then
      (if (positionSides t).1 =? u then Trade.Quantity t else 0) -
      (if (positionSides t).2 =? u then Trade.Quantity t else 0)
    else 0.
Proof.
  unfold net_bought, positionSides. destruct (bool_decide (PositionAsset _ _ = _)); [|done].
  destruct (decide (Trade.TakerSide t = OrderSideBuy)) as [E|E].
  - rewrite bool_decide_eq_true_2, E by done. done.
  - rewrite bool_decide_eq_false_2 by done. cbn [fst snd].
    destruct (Trade.TakerSide t); [done|..]; repeat case_match; lia.
Qed.

(** The summary of a list of items. *)
Record events_of (sched : Schedule) (os : list Order.t) (ts : list Trade.t) (items : list BatchItem)
    : Prop := {
  ev_orders : OrderEvent.OrderID <$> orders_in items = Order.OrderID <$> os;
  ev_trades : Forall2 (reports sched) ts (trades_in items);
  ev_positions : ∀ u asset, sumZ (moved u asset) (positions_in items) = sumZ (net_bought u asset) ts;
  ev_total : sumZ PositionChangedEvent.DeltaQuantity (positions_in items) = 0;
}.

Lemma events_of_app sched os1 os2 ts1 ts2 items1 items2 :
  events_of sched os1 ts1 items1 → events_of sched os2 ts2 items2 →
  events_of sched (os1 ++ os2) (ts1 ++ ts2) (items1 ++ items2).
Proof.
  intros [O1 T1 P1 Z1] [O2 T2 P2 Z2]. split.
  - unfold orders_in in *. by rewrite omap_app, !fmap_app, O1, O2.
  - unfold trades_in in *. rewrite omap_app. by apply Forall2_app.
  - intros u asset. unfold positions_in in *. by rewrite omap_app, !sumZ_app, P1, P2.
  - unfold positions_in in *. by rewrite omap_app, sumZ_app, Z1, Z2.
Qed.

Lemma events_of_nil sched : events_of sched [] [] [].
Proof. by split. Qed.

(** Items that are neither order, trade nor position events. *)
Definition silent (i : BatchItem) : Prop :=
  match i.2 with PayloadOrder _ | PayloadTrade _ | PayloadPosition _ => False | _ => True end.

Lemma events_of_silent sched i : silent i → events_of sched [] [] [i].
Proof. destruct i as [[topic key] []]; intros []; by split. Qed.

Section props.
Context {C D P : Type} `{!CandleTracker C, !PersistStore D, !Publisher P, !PublisherLog P}.
Context (fresh : string → nat → string) (clock : nat → Z).
Implicit Types s : Service C D P.
Implicit Types st : bstate C.

Definition tradeable (t : Trade.t) : Prop := 0 < Trade.Quantity t ≤ MaxInt64.

Lemma buildOrderEvent_events sched cmd o st :
  events_of sched (option_list o) [] (buildOrderEvent fresh clock cmd o st).1.
Proof. destruct o; by split. Qed.

Lemma build_affected_events sched cmd os st :
  events_of sched os [] (build_affected fresh clock cmd os st).1.
Proof.
  revert st. induction os as [|o os IH]; intros st; [apply events_of_nil|].
  cbn [build_affected mbind Build_bind]. unfold mbind, Build_bind.
  destruct (buildPassiveOrderEvent _ _ _ _ (Some o) st) as [items1 st1] eqn:E1.
  specialize (IH st1). destruct (build_affected fresh clock cmd os st1) as [items2 st2].
  apply (events_of_app sched [o] os [] [] items1 items2); [|exact IH].
  injection E1 as <- _. by split.
Qed.

Lemma neg_quantity q : 0 < q ≤ MaxInt64 → wrap64 (- q) = - q.
Proof. intros Hq. apply wrap64_id. unfold int64, MinInt64, MaxInt64 in *. lia. Qed.

(** The trade event with its two position events. *)
Lemma trade_events sched cmd t st :
  tradeable t →
  events_of sched [] [t]
    ((buildTradeEvent fresh sched (OrderCommand.TraceID cmd) (OrderCommand.CollateralAsset cmd) t st).1
     :: (buildPositionEvents fresh (OrderCommand.TraceID cmd) t
          (buildTradeEvent fresh sched (OrderCommand.TraceID cmd) (OrderCommand.CollateralAsset cmd) t
             st).2).1).
Proof.
  intros Ht. unfold buildTradeEvent, buildPositionEvents, mbind, Build_bind, mret, Build_ret, NewID.
  destruct (positionSides t) as [b s] eqn:Eps. split; [done|..].
  - constructor; [|constructor]. split; try done. cbn. unfold trade_fees. by intros r ->.
  - intros u asset. cbn [sumZ]. rewrite net_bought_sides, Eps.
    cbn -[wrap64 bool_decide PositionAsset]. rewrite (neg_quantity _ Ht). unfold moved.
    cbn -[bool_decide PositionAsset].
    destruct (decide (PositionAsset (Trade.MarketID t) (Trade.Outcome t) = asset)) as [E|E].
    + rewrite (bool_decide_eq_true_2 (_ = asset)) by done.
      destruct (Z.eqb_spec b u), (Z.eqb_spec s u); repeat case_bool_decide; naive_solver lia.
    + rewrite !bool_decide_eq_false_2 by tauto. lia.
  - cbn. rewrite (neg_quantity _ Ht). lia.
Qed.

Lemma candle_silent tr t st : silent (buildCandleEvent fresh tr t st).1.
Proof. unfold buildCandleEvent. destruct (tracker st) as [c|]; [|done]. by destruct (TrackTrade _ _ _). Qed.

Lemma build_trades_events sched cmd ts st :
  Forall tradeable ts → events_of sched [] ts (build_trades fresh sched cmd ts st).1.
Proof.
  intros Hts. revert st. induction Hts as [|t ts Ht _ IH]; intros st; [apply events_of_nil|].
  cbn [build_trades]. unfold mbind at 1, Build_bind at 1.
  pose proof (trade_events sched cmd t st Ht) as He.
  destruct (buildTradeEvent _ _ _ _ t st) as [te st1]. cbn [fst snd] in He.
  unfold mbind at 1, Build_bind at 1.
  destruct (buildPositionEvents _ _ t st1) as [pe st2]. cbn [fst] in He.
  unfold mbind at 1, Build_bind at 1.
  pose proof (candle_silent (OrderCommand.TraceID cmd) t st2) as Hc.
  destruct (buildCandleEvent _ _ t st2) as [ce st3]. cbn [fst] in Hc.
  unfold mbind at 1, Build_bind at 1. specialize (IH st3).
  destruct (build_trades fresh sched cmd ts st3) as [items st4]. cbn [fst] in IH.
  apply (events_of_app sched [] [] [t] ts (te :: pe) (ce :: items)); [exact He|].
  apply (events_of_app sched [] [] [] ts [ce] items); [by apply events_of_silent|exact IH].
Qed.

Lemma quote_events sched tr r st : events_of sched [] [] (buildQuoteEvents fresh clock tr r st).1.
Proof.
  unfold buildQuoteEvents, mbind, Build_bind, mret, Build_ret, NewID, Now. cbn -[last].
  by destruct (last (res_Trades r)).
Qed.

Lemma build_result_events sched mr st :
  Forall tradeable (res_Trades (MatchResult.Res mr)) →
  events_of sched (result_orders (MatchResult.Res mr)) (res_Trades (MatchResult.Res mr))
    (build_result fresh clock sched mr st).1.
Proof.
  intros Hts. unfold build_result, result_orders.
  set (cmd := MatchResult.Command mr). set (r := MatchResult.Res mr) in *.
  unfold mbind at 1, Build_bind at 1. pose proof (buildOrderEvent_events sched cmd (res_Order r) st) as H1.
  destruct (buildOrderEvent _ _ cmd (res_Order r) st) as [i1 st1].
  unfold mbind at 1, Build_bind at 1. pose proof (build_affected_events sched cmd (res_Affected r) st1) as H2.
  destruct (build_affected _ _ cmd (res_Affected r) st1) as [i2 st2].
  unfold mbind at 1, Build_bind at 1. pose proof (build_trades_events sched cmd (res_Trades r) st2 Hts) as H3.
  destruct (build_trades _ sched cmd (res_Trades r) st2) as [i3 st3].
  unfold mbind at 1, Build_bind at 1.
  pose proof (quote_events sched (OrderCommand.TraceID cmd) r st3) as H4.
  destruct (buildQuoteEvents _ _ _ r st3) as [i4 st4]. cbn [fst] in *.
  pose proof (events_of_app _ _ _ _ _ _ _ H3 H4) as H34.
  rewrite (app_nil_r (res_Trades r)) in H34. change ([] ++ []) with (@nil Order.t) in H34.
  pose proof (events_of_app _ _ _ _ _ _ _ H2 H34) as H234. rewrite app_nil_r in H234.
  apply (events_of_app _ _ _ _ _ _ _ H1 H234).
Qed.

Lemma build_result_nonempty sched mr st : (build_result fresh clock sched mr st).1 ≠ [].
Proof.
  unfold build_result. unfold mbind, Build_bind.
  destruct (buildOrderEvent _ _ _ _ st) as [i1 st1].
  destruct (build_affected _ _ _ _ st1) as [i2 st2]. destruct (build_trades _ _ _ _ st2) as [i3 st3].
  unfold buildQuoteEvents, mbind, Build_bind, mret, Build_ret, NewID, Now. cbn -[last].
  destruct (last _); cbn; by destruct i1, i2, i3.
Qed.

(** ** Publishing *)

Lemma publish_batch_published s st batch s' :
  publish_batch s st batch = (s', None) →
  published (publisher s') = published (publisher s) ++ batch ∧ building s' = st ∧
  feeSched s' = feeSched s ∧ store s' = store s.
Proof.
  unfold publish_batch. destruct batch as [|i batch].
  { intros [= <-]. by rewrite app_nil_r. }
  destruct (PublishJSONBatch (publisher s) (i :: batch)) as [p err] eqn:E. intros [= <- ->]. simpl.
  by rewrite (publish_batch_ok _ _ _ E).
Qed.

Lemma ProcessResult_published s mr s' :
  ProcessResult fresh clock s mr = (s', None) →
  published (publisher s') = published (publisher s) ++ (build_result fresh clock (feeSched s) mr (building s)).1 ∧
  building s' = (build_result fresh clock (feeSched s) mr (building s)).2 ∧ feeSched s' = feeSched s.
Proof.
  unfold ProcessResult.
  destruct (store s) as [d|]; [destruct (PersistResult d _ _) as [d' [err|]]; [done|]|];
    simpl; destruct (build_result _ _ _ _ _) as [batch st]; intros (H1 & H2 & H3 & _)%publish_batch_published;
    by rewrite H1.
Qed.

(** What one match result tells the rest of the system.  When
    [ProcessResult] succeeds, the events appended to the log contain exactly one
    order event for the command's order and for each affected maker, exactly one
    trade event per trade with its identity, parties, price, quantity and the fees
    the schedule computes, and position changes that give every user exactly what it
    bought less what it sold of each position and sum to zero. *)
Theorem post_trade_events s mr s' :
  Forall tradeable (res_Trades (MatchResult.Res mr)) →
  ProcessResult fresh clock s mr = (s', None) →
  ∃ items, published (publisher s') = published (publisher s) ++ items ∧
    events_of (feeSched s) (result_orders (MatchResult.Res mr)) (res_Trades (MatchResult.Res mr)) items.
Proof.
  intros Hts (Hp & _ & _)%ProcessResult_published. eexists. split; [exact Hp|].
  by apply build_result_events.
Qed.

(** ** Batches *)

Fixpoint process_each s (mrs : list MatchResult.t) : Service C D P * option string :=
  match mrs with
  | [] => (s, None)
  | mr :: mrs =>
      match ProcessResult fresh clock s mr with
      | (s, None) => process_each s mrs
      | (s, Some err) => (s, Some err)
      end
  end.

Lemma process_each_published s mrs s' :
  process_each s mrs = (s', None) →
  published (publisher s') = published (publisher s) ++ (build_results fresh clock (feeSched s) mrs (building s)).1 ∧
  building s' = (build_results fresh clock (feeSched s) mrs (building s)).2.
Proof.
  revert s. induction mrs as [|mr mrs IH]; intros s; cbn [process_each].
  { intros [= <-]. by rewrite app_nil_r. }
  destruct (ProcessResult fresh clock s mr) as [s1 [err|]] eqn:E1; [done|]. intros E.
  destruct (ProcessResult_published _ _ _ E1) as (H1 & H2 & H3).
  destruct (IH _ E) as (H4 & H5). rewrite H3, H2 in H4, H5.
  cbn [build_results]. unfold mbind, Build_bind in *.
  destruct (build_result fresh clock (feeSched s) mr (building s)) as [i1 st1].
  cbn [fst snd] in *. destruct (build_results fresh clock (feeSched s) mrs st1) as [i2 st2].
  split; [|done]. rewrite H4, H1. by rewrite <-app_assoc.
Qed.

Lemma ProcessBatch_published s mrs s' :
  ProcessBatch fresh clock s mrs = (s', None) →
  published (publisher s') = published (publisher s) ++ (build_results fresh clock (feeSched s) mrs (building s)).1 ∧
  building s' = (build_results fresh clock (feeSched s) mrs (building s)).2.
Proof.
  unfold ProcessBatch. destruct mrs as [|mr [|mr2 mrs]].
  - intros [= <-]. by rewrite app_nil_r.
  - intros (H1 & H2 & _)%ProcessResult_published. cbn [build_results]. unfold mbind, Build_bind.
    destruct (build_result fresh clock (feeSched s) mr (building s)) as [i st].
    unfold mret, Build_ret. cbn [fst snd] in *. by rewrite app_nil_r.
  - remember (mr :: mr2 :: mrs) as all eqn:Eall.
    destruct (store s) as [d|]; [destruct (PersistBatch d _) as [d' [err|]]; [done|]|];
      simpl; destruct (build_results _ _ _ _ _) as [batch st]; intros (H1 & H2 & H3 & _)%publish_batch_published;
      by rewrite H1.
Qed.

Lemma build_results_single sched mr st :
  (build_results fresh clock sched [mr] st).1 = (build_result fresh clock sched mr st).1.
Proof.
  cbn [build_results]. unfold mbind, Build_bind. destruct (build_result _ _ _ _ _) as [i st1].
  cbn. by rewrite app_nil_r.
Qed.

(** Batching changes nothing that is published.  A batch that is processed in
    one go appends the same events in the same order as its results processed one by
    one, draws the same identifiers, and leaves the same candles. *)
Theorem post_trade_batch_equivalent s mrs s1 s2 :
  process_each s mrs = (s1, None) → ProcessBatch fresh clock s mrs = (s2, None) →
  published (publisher s1) = published (publisher s2) ∧ building s1 = building s2.
Proof.
  intros [E1 B1]%process_each_published [E2 B2]%ProcessBatch_published.
  by rewrite E1, E2, B1, B2.
Qed.
End props.

(** ** Failures *)

(** What a transaction of the store can do. *)
Lemma in_tx_cases (st st' : SQLStore) body err :
  in_tx st body = (st', err) →
  match err with
  | None => body (db st) = Ok (db st')
  | Some _ => db st' = db st
  end.
Proof.
  unfold in_tx. destruct (env_fail (env st) (calls st)); [by intros [= <- <-]|].
  destruct (body (db st)); by intros [= <- <-].
Qed.

Lemma publish_batch_failed {C D P} `{!Publisher P, !PublisherLog P} (s : Service C D P) st batch s' err :
  publish_batch s st batch = (s', Some err) →
  store s' = store s ∧
  ∃ part, part `sublist_of` batch ∧ published (publisher s') = published (publisher s) ++ part.
Proof.
  unfold publish_batch. destruct batch as [|i batch]; [done|].
  destruct (PublishJSONBatch (publisher s) (i :: batch)) as [p e] eqn:E. intros [= <- ->]. simpl.
  split; [done|]. by apply (publish_batch_err _ _ _ _ E).
Qed.

(** A failed batch never leaves half a transaction.  When [ProcessBatch] over the
    SQL store reports an error, either the store refused: the database, the log of
    published events and the candles are as before; or everything was committed and
    only the publication of the events failed, of which some may be out. *)
Theorem post_trade_failure {C P} `{!CandleTracker C, !Publisher P, !PublisherLog P}
    fresh clock (s : Service C SQLStore P) mrs s' err d :
  store s = Some d → ProcessBatch fresh clock s mrs = (s', Some err) →
  ∃ d', store s' = Some d' ∧
    ((db d' = db d ∧ published (publisher s') = published (publisher s) ∧ building s' = building s) ∨
     (persist_batch (rollup d) (env_fresh (env d) (calls d)) (env_now (env d) (calls d)) (db d)
        (persist_item <$> mrs) = Ok (db d') ∧
      ∃ part, part `sublist_of` (build_results fresh clock (feeSched s) mrs (building s)).1 ∧
        published (publisher s') = published (publisher s) ++ part)).
Proof.
  intros Hd. unfold ProcessBatch. destruct mrs as [|mr [|mr2 mrs]]; [done|..].
  - unfold ProcessResult. rewrite Hd.
    destruct (PersistResult d _ _) as [d' [e|]] eqn:E; apply in_tx_cases in E.
    { intros [= <- <-]. exists d'. split; [done|]. by left. }
    cbn [set_pstore feeSched building publisher store].
    pose proof (build_results_single fresh clock (feeSched s) mr (building s)) as Eb.
    destruct (build_result _ _ _ _ _) as [batch st].
    intros (Es & part & Hs & Hp)%publish_batch_failed. exists d'. split; [done|]. right.
    split; [exact E|]. exists part. cbn [fst] in Eb. by rewrite Eb.
  - rewrite Hd. remember (mr :: mr2 :: mrs) as all eqn:Eall.
    assert (PersistBatch d (persist_item <$> all) = in_tx d (λ db, persist_batch (rollup d)
      (env_fresh (env d) (calls d)) (env_now (env d) (calls d)) db (persist_item <$> all))) as -> by by subst.
    destruct (in_tx d _) as [d' [e|]] eqn:E; apply in_tx_cases in E.
    { intros [= <- <-]. exists d'. split; [done|]. by left. }
    simpl. destruct (build_results _ _ _ _ _) as [batch st].
    intros (Es & part & Hs & Hp)%publish_batch_failed. exists d'. split; [done|]. right. by eauto.
Qed.

(** ** The theorems at work *)

Definition demo_fresh (prefix : string) (n : nat) : string := prefix +:+ "_" +:+ itoa (Z.of_nat n).
Definition demo_env (fail : nat → option string) : Env := mkEnv (λ _, 5) fail each_fresh.
Definition demo_service (fail : nat → option string) : Service CandleBook SQLStore (list BatchItem) :=
  mkService [] (Some (mkStore empty_db true (demo_env fail) 0)) (mkBState 0 (Some (NewCandleBook 0 0)))
    DefaultSchedule.
Definition demo_results : list MatchResult.t :=
  (λ item : PersistItem, MatchResult.mk item.1 item.2 false 0) <$> sample_items.

Definition demo_sell : MatchResult.t :=
  MatchResult.mk (sample_cmd "s1" "frz_1" "POSITION:88:YES" 10 1 "SELL")
    (mkResult (Some (sample_sell 0 OrderStatusNew)) [] [] zero_snapshot) false 0.

(** The service after the sell order of the two results. *)
Definition demo_after : Service CandleBook SQLStore (list BatchItem) :=
  (ProcessResult demo_fresh (λ _, 9) (demo_service (λ _, None)) demo_sell).1.

Lemma post_trade_events_witness :
  ∃ mr s', demo_results !! 1%nat = Some mr ∧
    ProcessResult demo_fresh (λ _, 9) demo_after mr = (s', None) ∧
    ∃ items, published (publisher s') = published (publisher demo_after) ++ items ∧
      events_of DefaultSchedule (result_orders (MatchResult.Res mr)) (res_Trades (MatchResult.Res mr)) items ∧
      TradeMatchedEvent.TakerFee <$> trades_in items = [3].
Proof.
  set (mr := MatchResult.mk (sample_cmd "b1" "frz_2" "USDT" 160 2 "BUY")
    (mkResult (Some sample_buy) [sample_sell 4 OrderStatusPartiallyFilled]
      [Trade.mk 1 "88:YES:00000001" 88 "YES" "88:YES" 40 4 "b1" "s1" 2 1 OrderSideBuy OrderSideSell
         1700 0] zero_snapshot) false 0).
  exists mr. destruct (ProcessResult demo_fresh (λ _, 9) demo_after mr) as [s' [e|]] eqn:E;
    [by vm_compute in E|].
  exists s'. split; [done|]. split; [done|].
  destruct (post_trade_events demo_fresh (λ _, 9) demo_after mr s') as (items & Hp & He).
  - repeat constructor; by vm_compute.
  - exact E.
  - exists items. split; [exact Hp|]. split; [exact He|].
    assert (published (publisher s') = published (publisher demo_after) ++
      (build_result demo_fresh (λ _, 9) DefaultSchedule mr (building demo_after)).1) as Hp2
      by apply (ProcessResult_published _ _ _ _ _ E).
    rewrite Hp in Hp2. apply (inj (app _)) in Hp2 as ->. by vm_compute.
Defined.

Lemma post_trade_batch_equivalent_witness :
  ∃ s1 s2, process_each demo_fresh (λ _, 9) (demo_service (λ _, None)) demo_results = (s1, None) ∧
    ProcessBatch demo_fresh (λ _, 9) (demo_service (λ _, None)) demo_results = (s2, None) ∧
    published (publisher s1) = published (publisher s2) ∧ building s1 = building s2.
Proof.
  destruct (process_each demo_fresh (λ _, 9) (demo_service (λ _, None)) demo_results) as [s1 [e|]] eqn:E1;
    [by vm_compute in E1|].
  destruct (ProcessBatch demo_fresh (λ _, 9) (demo_service (λ _, None)) demo_results) as [s2 [e|]] eqn:E2;
    [by vm_compute in E2|].
  exists s1, s2. split; [done|]. split; [done|].
  exact (post_trade_batch_equivalent demo_fresh (λ _, 9) (demo_service (λ _, None)) demo_results s1 s2 E1 E2).
Defined.

Lemma post_trade_failure_witness :
  ∃ s' e d', ProcessBatch demo_fresh (λ _, 9) (demo_service (λ _, Some "connection reset")) demo_results =
      (s', Some e) ∧ store s' = Some d' ∧ db d' = empty_db ∧ published (publisher s') = [].
Proof.
  destruct (ProcessBatch demo_fresh (λ _, 9) (demo_service (λ _, Some "connection reset")) demo_results)
    as [s' [e|]] eqn:E; [|by vm_compute in E].
  destruct (post_trade_failure demo_fresh (λ _, 9) (demo_service (λ _, Some "connection reset"))
    demo_results s' e (mkStore empty_db true (demo_env (λ _, Some "connection reset")) 0) eq_refl E)
    as (d' & Hd & [(H1 & H2 & _)|(H & _)]).
  - by exists s', e, d'.
  - exists s', e, d'. vm_compute in E. injection E as <- <-. injection Hd as <-.
    split; [by vm_compute|]. done.
Defined.

(** A rejected order still publishes depth and ticker, built from the zero
    snapshot: an empty book of market 0 under the empty key. *)
Lemma rejected_order_blanks_quotes :
  (λ i : BatchItem, i.1.2) <$> filter (λ i : BatchItem, i.1.1 = TopicQuoteDepth ∨ i.1.1 = TopicQuoteTicker)
    (build_result demo_fresh (λ _, 9) DefaultSchedule
       (MatchResult.mk (sample_cmd "b1" "f" "USDT" 1 2 "BUY")
          (order_result (Order.Reject sample_buy CancelReasonValidationFailed)) true 0)
       (mkBState (C := CandleBook) 0 None)).1 = [""; ""].
Proof. by vm_compute. Qed.
