(* ===== verification/Pipeline.v ===== *)
(** * Matching pipeline: gateway, book engines, dispatcher

    [matching/pipeline/bookengine.go], [supervisor.go], [dispatcher.go] and the parts of
    [pipeline.go], [gateway.go] and [matching/service/order_expiry.go] that move
    commands; the roles and epochs of [matching/ha] that switch the dispatcher.
    The goroutines are interleaved by the step relation of [PipelineProps]; the
    operations they are made of are here.  A book engine's goroutine is its drained
    batch [buf], the batch's clock reading [nowMillis] and the results it still has to
    send; handling one command is one step, so the numbers two books draw from the
    shared sequence within one command do not interleave. *)

From S2P Require Import Prelude Shared Messages MatchModel.
From S2P Require Import Bitmap BookHeap OrderBookDirect Engine RingBuffer RingConc.
From S2P Require Import Protocol Candles PostTrade MatchStore.
From stdpp Require Import list.

Local Open Scope Z_scope.

Definition bookRBSize : Z := 1024.
Definition matchDrainBatch : Z := 64.
Definition outputChSize : Z := 8192.
Definition dispatchBatchMax : Z := 128.
Definition dispatchWorkers : Z := 4.

(** ** Roles and epochs ([ha/role.go], [ha/epoch.go]) *)

Inductive Role := RolePrimary | RoleStandby.

#[global] Instance Role_eq_dec : EqDecision Role.
Proof. solve_decision. Defined.

Inductive DispatchMode := DispatchModeActive | DispatchModeShadow.

#[global] Instance DispatchMode_eq_dec : EqDecision DispatchMode.
Proof. solve_decision. Defined.

(** The node: role, epoch and dispatcher mode. *)
Record Node := mkNode { role : Role; epoch : Z; mode : DispatchMode }.

Definition EpochManager_Advance (e : Z) : Z := wrapu64 (e + 1).

(** The listener [server.go] registers. *)
Definition on_transition (n : Node) (newRole : Role) : Node :=
  match newRole with
  | RolePrimary => mkNode newRole (EpochManager_Advance (epoch n)) DispatchModeActive
  | RoleStandby => mkNode newRole (epoch n) DispatchModeShadow
  end.

Definition Transition (n : Node) (newRole : Role) : Node :=
  if bool_decide (role n = newRole) then n else on_transition n newRole.

(** ** Book engines ([bookengine.go]) *)

Module BookEngine.
Record t := mk {
  bookKey : string;
  eng : Engine;
  inputRB : RingBuffer MatchCommand.t;
  buf : list MatchCommand.t;
  nowMillis : Z;
  sending : list Protocol.MatchResult.t;
  matched : Z;
  batches : Z;
}.
End BookEngine.

(** The engine's [sequence] is a pointer to the supervisor's: its value is set when a
    command is handled. *)
Definition NewBookEngine (bookKey : string) : BookEngine.t :=
  BookEngine.mk bookKey Engine.New
    (RingBuffer.New MatchCommand.zero bookRBSize) [] 0 [] 0 0.

Definition set_EpochID (epochID : Z) (t : Trade.t) : Trade.t :=
  Trade.mk (Trade.Sequence t) (Trade.TradeID t) (Trade.MarketID t) (Trade.Outcome t)
    (Trade.BookKey t) (Trade.Price t) (Trade.Quantity t) (Trade.TakerOrderID t)
    (Trade.MakerOrderID t) (Trade.TakerUserID t) (Trade.MakerUserID t) (Trade.TakerSide t)
    (Trade.MakerSide t) (Trade.MatchedAtMillis t) epochID.

Definition handlePlace (clock : Z → Z) (epochID : Z) (e : Engine) (cmd : MatchCommand.t)
    (nowMillis : Z) : option (Engine * list Protocol.MatchResult.t) :=
  let order := MatchCommand.ToOrder cmd nowMillis in
  '(e, result, err) ← PlaceOrder clock e (Some order);
  let result := mkResult (res_Order result) (res_Affected result)
                  (set_EpochID epochID <$> res_Trades result) (res_Book result) in
  Some (e, [Protocol.MatchResult.mk cmd result (bool_decide (err ≠ None)) epochID]).

(** The order built for a cancel: identity, book, side and price. *)
Definition cancel_target (cmd : MatchCommand.t) : Order.t :=
  Order.mk (MatchCommand.OrderID cmd) "" 0 (MatchCommand.MarketID cmd) (MatchCommand.Outcome cmd)
    (SideFlag_ToModel (MatchCommand.Side cmd)) (OrderTypeOther "") (TimeInForceOther "") STPNone
    (MatchCommand.Price cmd) 0 0 OrderStatusUnset CancelReasonUnset 0 0.

Definition handleCancel (now : Z) (e : Engine) (cmd : MatchCommand.t)
    : option (Engine * list Protocol.MatchResult.t) :=
  '(e, r, _) ← CancelOrders now e [Some (cancel_target cmd)]
                 (CancelReasonFlag_ToModel (MatchCommand.CancelReason cmd));
  Some (e,
    ((λ cancelled, Protocol.MatchResult.mk cmd
        (mkResult (Some cancelled) [cancelled] [] zero_snapshot) false 0) <$> cancel_Orders r) ++
    ((λ book, Protocol.MatchResult.mk cmd (mkResult None [] [] book) false 0) <$> cancel_Books r)).

(** The switch of [Run]; an unknown action does nothing. *)
Definition handle (clock : Z → Z) (epochID nowMillis now : Z) (e : Engine) (cmd : MatchCommand.t)
    : option (Engine * list Protocol.MatchResult.t) :=
  if MatchCommand.Action cmd =? ActionPlace then handlePlace clock epochID e cmd nowMillis
  else if MatchCommand.Action cmd =? ActionCancel then handleCancel now e cmd
  else Some (e, []).

(** [n := be.inputRB.DrainTo(buf, matchDrainBatch)] and the clock reading. *)
Definition drain (nowMillis : Z) (be : BookEngine.t) : option BookEngine.t :=
  '(rb, items) ← DrainTo (BookEngine.inputRB be) matchDrainBatch matchDrainBatch;
  Some (match items with
        | [] => BookEngine.mk (BookEngine.bookKey be) (BookEngine.eng be) rb []
                  (BookEngine.nowMillis be) [] (BookEngine.matched be) (BookEngine.batches be)
        | _ => BookEngine.mk (BookEngine.bookKey be) (BookEngine.eng be) rb items nowMillis []
                 (BookEngine.matched be) (wrapu64 (BookEngine.batches be + 1))
        end).

(** ** Supervisor ([supervisor.go]) *)

Record BookSupervisor := mkSupervisor {
  sequence : Z;
  books : gmap string BookEngine.t;
  outputCh : list Protocol.MatchResult.t;
}.

Definition NewBookSupervisor : BookSupervisor := mkSupervisor 0 ∅ [].

Definition set_books (s : BookSupervisor) bs : BookSupervisor :=
  mkSupervisor (sequence s) bs (outputCh s).

Definition getOrCreate (s : BookSupervisor) (bookKey : string) : BookSupervisor * BookEngine.t :=
  match books s !! bookKey with
  | Some be => (s, be)
  | None =>
      let be := NewBookEngine bookKey in
      (set_books s (<[bookKey := be]> (books s)), be)
  end.

Definition set_inputRB (be : BookEngine.t) rb : BookEngine.t :=
  BookEngine.mk (BookEngine.bookKey be) (BookEngine.eng be) rb (BookEngine.buf be)
    (BookEngine.nowMillis be) (BookEngine.sending be) (BookEngine.matched be)
    (BookEngine.batches be).

Definition Route (s : BookSupervisor) (cmd : MatchCommand.t) : option (BookSupervisor * bool) :=
  let key := MatchCommand.BookKey cmd in
  let '(s, be) := getOrCreate s key in
  '(rb, ok) ← TryPublish (BookEngine.inputRB be) cmd;
  Some (set_books s (<[key := set_inputRB be rb]> (books s)), ok).

Definition SubmitCancel (s : BookSupervisor) (cmd : MatchCommand.t)
    : option (BookSupervisor * bool) :=
  Route s (MatchCommand.set_Action cmd ActionCancel).

Definition set_eng (be : BookEngine.t) (e : Engine) : BookEngine.t :=
  BookEngine.mk (BookEngine.bookKey be) e (BookEngine.inputRB be) (BookEngine.buf be)
    (BookEngine.nowMillis be) (BookEngine.sending be) (BookEngine.matched be)
    (BookEngine.batches be).

(** The orders of one book, restored one after the other. *)
Fixpoint restore_orders (e : Engine) (os : list Order.t) : option (Engine * option EngineError) :=
  match os with
  | [] => Some (e, None)
  | o :: os =>
      '(e, err) ← RestoreOrder e (Some o);
      match err with
      | Some err => Some (e, Some err)
      | None => restore_orders e os
      end
  end.

(** The loop over [grouped]: one entry per book key.  Go iterates a map in an
    unspecified order; the keys are taken here in the order of their first order. *)
Fixpoint restore_books (s : BookSupervisor) (orders : list Order.t) (keys : list string)
    : option (BookSupervisor * option EngineError) :=
  match keys with
  | [] => Some (s, None)
  | key :: keys =>
      let '(s, be) := getOrCreate s key in
      '(e, err) ← restore_orders (BookEngine.eng be) (filter (λ o, Order.BookKey o = key) orders);
      let s := set_books s (<[key := set_eng be e]> (books s)) in
      match err with
      | Some err => Some (s, Some err)
      | None => restore_books s orders keys
      end
  end.

Definition Restore (s : BookSupervisor) (sequence : Z) (orders : list (option Order.t))
    : option (BookSupervisor * option EngineError) :=
  let orders := omap id orders in
  restore_books (mkSupervisor sequence (books s) (outputCh s)) orders
    (remove_dups (Order.BookKey <$> orders)).

Definition LocalSeq (be : BookEngine.t) : Z := localSeq (BookEngine.eng be).

Definition ExportRestingOrders (be : BookEngine.t) : option (list Order.t) :=
  map_fold (λ _ book acc, l ← acc; os ← RestingOrders book; Some (l ++ os)) (Some [])
    (Engine.books (BookEngine.eng be)).

Module BookSnapshotData.
Record t := mk { BookKey : string; LocalSeq : Z; Orders : list Order.t }.
End BookSnapshotData.

Module FullSnapshot.
Record t := mk { GlobalSequence : Z; Books : list BookSnapshotData.t }.
End FullSnapshot.

Definition TakeSnapshot (s : BookSupervisor) : option FullSnapshot.t :=
  bs ← map_fold (λ key be acc, l ← acc; os ← ExportRestingOrders be;
         Some (l ++ [BookSnapshotData.mk key (LocalSeq be) os])) (Some []) (books s);
  Some (FullSnapshot.mk (sequence s) bs).

(** ** Dispatcher ([dispatcher.go]) *)

Fixpoint fnv_loop (h : Z) (s : string) : Z :=
  match s with
  | EmptyString => h
  | String a s =>
      fnv_loop ((Z.lxor h (Z.of_nat (Ascii.nat_of_ascii a)) * 16777619) `mod` 2 ^ 32) s
  end.

Definition fnvHash (s : string) : Z := Z.land (fnv_loop 2166136261 s) 2147483647.

Definition worker_of (key : string) : Z := fnvHash key `rem` dispatchWorkers.

Definition convertResult (mr : Protocol.MatchResult.t) : PostTrade.MatchResult.t :=
  PostTrade.MatchResult.mk (MatchCommand.ToKafkaCommand (Protocol.MatchResult.Command mr))
    (Protocol.MatchResult.Res mr) (Protocol.MatchResult.Rejected mr)
    (Protocol.MatchResult.EpochID mr).

(** ** Expiry sweep ([order_expiry.go]) *)

Definition expiry_command (item : ExpiredRestingOrder.t) (order : Order.t) : MatchCommand.t :=
  let c := ExpiredRestingOrder.Command item in
  MatchCommand.mk 0 (Order.MarketID order) (Order.Price order) 0 (OrderCommand.FreezeAmount c) 0
    (Order.OrderID order) "" (Order.Outcome order)
    (BuildBookKey (Order.MarketID order) (Order.Outcome order)) (OrderCommand.CommandID c)
    "market_close_sweep" (OrderCommand.FreezeID c) (OrderCommand.FreezeAsset c)
    (OrderCommand.CollateralAsset c) ActionCancel (SideFlagFrom (Order.Side order)) 0 0 0
    CancelReasonFlagMarketClosed.

(** The loop of [sweepOnce]: the supervisor afterwards and how many were submitted. *)
Fixpoint sweep (s : BookSupervisor) (items : list ExpiredRestingOrder.t)
    : option (BookSupervisor * nat) :=
  match items with
  | [] => Some (s, 0%nat)
  | item :: items =>
      match ExpiredRestingOrder.Order item with
      | None => sweep s items
      | Some order =>
          '(s, ok) ← SubmitCancel s (expiry_command item order);
          '(s, n) ← sweep s items;
          Some (s, if ok : bool then S n else n)
      end
  end.

(** ** The goroutines interleaved

    The pipeline as a transition system: any goroutine may take its next step.  A step
    is a call of [Route], one iteration point of a book engine's loop (draining,
    handling one command, sending one result), the dispatcher taking one result off
    the channel, a worker flushing a batch, or a change of role.  [trace] records what
    happened. *)

Notation MR := Protocol.MatchResult.t.

Definition mr_key (mr : MR) : string := MatchCommand.BookKey (Protocol.MatchResult.Command mr).

Record State (C D P : Type) := mkState {
  sup : BookSupervisor;
  node : Node;
  workers : list (list MR);
  pt : Service C D P;
}.
Arguments mkState {C D P} _ _ _ _.
Arguments sup {C D P} _.
Arguments node {C D P} _.
Arguments workers {C D P} _.
Arguments pt {C D P} _.

(** How a command was handled: what it read from outside the engine. *)
Record Handling := mkHandling {
  h_cmd : MatchCommand.t;
  h_sequence : Z;
  h_epoch : Z;
  h_nowMillis : Z;
  h_now : Z;
}.

Inductive event :=
| EvRoute (cmd : MatchCommand.t) (ok : bool)
| EvDrain (key : string)
| EvHandle (key : string) (h : Handling)
| EvSend (key : string)
| EvDispatch (mr : MR)
| EvShadow (mr : MR)
| EvProcess (i : nat) (batch : list MR)
| EvRole (r : Role).

Notation trace := (list event).

Section steps.
Context {C D P : Type} `{!CandleTracker C, !PersistStore D, !Publisher P}.
(** Trade clocks by book, and the post-trade service's identifiers and clock. *)
Context (clock : string → Z → Z) (fresh : string → nat → string) (ptclock : nat → Z).

Definition set_sup (st : State C D P) s : State C D P := mkState s (node st) (workers st) (pt st).

Definition put_book (s : BookSupervisor) (key : string) (be : BookEngine.t) : BookSupervisor :=
  mkSupervisor (sequence s) (<[key := be]> (books s)) (outputCh s).

(** The book engine after handling the head of its batch. *)
Definition after_handle (be : BookEngine.t) (e : Engine) (rest : list MatchCommand.t) (rs : list MR)
    : BookEngine.t :=
  BookEngine.mk (BookEngine.bookKey be) e (BookEngine.inputRB be) rest (BookEngine.nowMillis be) rs
    (wrapu64 (BookEngine.matched be + 1)) (BookEngine.batches be).

Definition after_send (be : BookEngine.t) (rs : list MR) : BookEngine.t :=
  BookEngine.mk (BookEngine.bookKey be) (BookEngine.eng be) (BookEngine.inputRB be)
    (BookEngine.buf be) (BookEngine.nowMillis be) rs (BookEngine.matched be) (BookEngine.batches be).

Definition run_handling (key : string) (e : Engine) (h : Handling) : option (Engine * list MR) :=
  handle (clock key) (h_epoch h) (h_nowMillis h) (h_now h) (SetSequence e (h_sequence h)) (h_cmd h).

Inductive step : State C D P → event → State C D P → Prop :=
| step_route st cmd s' ok :
    Route (sup st) cmd = Some (s', ok) → step st (EvRoute cmd ok) (set_sup st s')
| step_drain st key be be' nowMillis :
    books (sup st) !! key = Some be → BookEngine.buf be = [] → BookEngine.sending be = [] →
    drain nowMillis be = Some be' →
    step st (EvDrain key) (set_sup st (put_book (sup st) key be'))
| step_handle st key be cmd rest h e rs :
    books (sup st) !! key = Some be → BookEngine.sending be = [] → BookEngine.buf be = cmd :: rest →
    h_cmd h = cmd → h_sequence h = sequence (sup st) → h_epoch h = epoch (node st) →
    h_nowMillis h = BookEngine.nowMillis be →
    run_handling key (BookEngine.eng be) h = Some (e, rs) →
    step st (EvHandle key h)
      (set_sup st (mkSupervisor (Engine.sequence e)
         (<[key := after_handle be e rest rs]> (books (sup st))) (outputCh (sup st))))
| step_send st key be mr rest :
    books (sup st) !! key = Some be → BookEngine.sending be = mr :: rest →
    Z.of_nat (length (outputCh (sup st))) < outputChSize →
    step st (EvSend key)
      (set_sup st (mkSupervisor (sequence (sup st)) (<[key := after_send be rest]> (books (sup st)))
         (outputCh (sup st) ++ [mr])))
| step_dispatch st mr rest w :
    outputCh (sup st) = mr :: rest → mode (node st) = DispatchModeActive →
    workers st !! Z.to_nat (worker_of (mr_key mr)) = Some w →
    Z.of_nat (length w) < dispatchBatchMax * 2 →
    step st (EvDispatch mr)
      (mkState (mkSupervisor (sequence (sup st)) (books (sup st)) rest) (node st)
         (<[Z.to_nat (worker_of (mr_key mr)) := w ++ [mr]]> (workers st)) (pt st))
| step_shadow st mr rest :
    outputCh (sup st) = mr :: rest → mode (node st) = DispatchModeShadow →
    step st (EvShadow mr) (set_sup st (mkSupervisor (sequence (sup st)) (books (sup st)) rest))
| step_process st i w n pt' err :
    workers st !! i = Some w → (1 ≤ n ≤ length w)%nat → Z.of_nat n ≤ dispatchBatchMax →
    ProcessBatch fresh ptclock (pt st) (convertResult <$> take n w) = (pt', err) →
    step st (EvProcess i (take n w))
      (mkState (sup st) (node st) (<[i := drop n w]> (workers st)) pt')
| step_role st r : step st (EvRole r) (mkState (sup st) (Transition (node st) r) (workers st) (pt st)).

(** The pipeline right after [Start]: every loop idle, nothing in flight. *)
Record initial (st : State C D P) : Prop := {
  in_books : map_Forall (λ key be, BookEngine.bookKey be = key ∧
    BookEngine.inputRB be = RingBuffer.New MatchCommand.zero bookRBSize ∧ BookEngine.buf be = [] ∧
    BookEngine.sending be = []) (books (sup st));
  in_output : outputCh (sup st) = [];
  in_workers : workers st = replicate (Z.to_nat dispatchWorkers) [];
}.

Inductive reach (st0 : State C D P) : trace → State C D P → Prop :=
| reach_start : reach st0 [] st0
| reach_step tr st ev st' : reach st0 tr st → step st ev st' → reach st0 (tr ++ [ev]) st'.
End steps.

(** ** Reading a trace *)

Definition accepted (key : string) (tr : trace) : list MatchCommand.t :=
  omap (λ ev, match ev with
    | EvRoute cmd true => if decide (MatchCommand.BookKey cmd = key) then Some cmd else None
    | _ => None end) tr.

Definition handled (key : string) (tr : trace) : list Handling :=
  omap (λ ev, match ev with
    | EvHandle k h => if decide (k = key) then Some h else None | _ => None end) tr.

(** The results of a book the dispatcher took off the channel. *)
Definition delivered (key : string) (tr : trace) : list MR :=
  omap (λ ev, match ev with
    | EvDispatch mr | EvShadow mr => if decide (mr_key mr = key) then Some mr else None
    | _ => None end) tr.

(** The results of a book handed to the workers, and those a worker flushed. *)
Definition dispatched (key : string) (tr : trace) : list MR :=
  omap (λ ev, match ev with
    | EvDispatch mr => if decide (mr_key mr = key) then Some mr else None | _ => None end) tr.

Definition flushed (key : string) (tr : trace) : list MR :=
  tr ≫= λ ev, match ev with EvProcess _ batch => filter (λ mr, mr_key mr = key) batch | _ => [] end.

Section replay.
Context (clock : string → Z → Z).

(** The book's commands handled one after the other by one engine. *)
Fixpoint replay (key : string) (e : Engine) (hs : list Handling) : option (Engine * list MR) :=
  match hs with
  | [] => Some (e, [])
  | h :: hs =>
      '(e, rs) ← run_handling clock key e h;
      '(e, rs') ← replay key e hs;
      Some (e, rs ++ rs')
  end.

Lemma replay_snoc key e hs h e1 rs1 :
  replay key e hs = Some (e1, rs1) →
  replay key e (hs ++ [h]) =
    ('(e2, rs2) ← run_handling clock key e1 h; Some (e2, rs1 ++ rs2)).
Proof.
  revert e rs1. induction hs as [|h0 hs IH]; intros e rs1; cbn [replay app].
  { intros [= <- <-]. destruct (run_handling clock key e h) as [[e2 rs2]|]; [|done]. simpl.
    by rewrite app_nil_r. }
  destruct (run_handling clock key e h0) as [[e0 rs0]|]; [|done]. simpl.
  destruct (replay key e0 hs) as [[e3 rs3]|] eqn:E; [|done]. simpl. intros [= <- <-].
  rewrite (IH _ _ E). destruct (run_handling clock key e3 h) as [[e2 rs2]|]; [|done]. simpl.
  by rewrite app_assoc.
Qed.
End replay.
