(* ===== verification/PipelineInv.v ===== *)
(** * Matching pipeline: the invariant of the interleaved goroutines *)

From S2P Require Import Prelude Shared Messages MatchModel.
From S2P Require Import Engine RingBuffer RingConc Protocol.
From S2P Require Import Candles PostTrade MatchStore Pipeline.

Local Open Scope Z_scope.

(** ** Traces grow at the end *)

Section traces.
Variables (key : string) (tr : trace).

Lemma accepted_snoc ev : accepted key (tr ++ [ev]) = accepted key tr ++ accepted key [ev].
Proof. apply omap_app. Qed.
Lemma handled_snoc ev : handled key (tr ++ [ev]) = handled key tr ++ handled key [ev].
Proof. apply omap_app. Qed.
Lemma delivered_snoc ev : delivered key (tr ++ [ev]) = delivered key tr ++ delivered key [ev].
Proof. apply omap_app. Qed.
Lemma dispatched_snoc ev : dispatched key (tr ++ [ev]) = dispatched key tr ++ dispatched key [ev].
Proof. apply omap_app. Qed.
Lemma flushed_snoc ev : flushed key (tr ++ [ev]) = flushed key tr ++ flushed key [ev].
Proof. apply bind_app. Qed.
End traces.

(** The number of calls of [Route]. *)
Fixpoint routes (tr : trace) : nat :=
  match tr with
  | [] => 0
  | EvRoute _ _ :: tr => S (routes tr)
  | _ :: tr => routes tr
  end.

Lemma routes_snoc tr ev :
  routes (tr ++ [ev]) = (routes tr + match ev with EvRoute _ _ => 1 | _ => 0 end)%nat.
Proof. induction tr as [|[] tr IH]; cbn; rewrite ?IH; [by destruct ev|lia..]. Qed.

Lemma accepted_length key tr : (length (accepted key tr) ≤ routes tr)%nat.
Proof.
  induction tr as [|ev tr IH]; [done|].
  destruct ev as [cmd []| | | | | | |]; cbn; try case_decide; cbn; unfold accepted in IH; lia.
Qed.

(** An event that is not about [key] (routes, handles or delivers nothing of it). *)
Definition foreign (key : string) (ev : event) : Prop :=
  accepted key [ev] = [] ∧ handled key [ev] = [] ∧ delivered key [ev] = [].

(** ** Results carry the key of their command *)

Lemma handle_keys clk ep now1 now2 e cmd e' rs :
  handle clk ep now1 now2 e cmd = Some (e', rs) →
  Forall (λ mr, Protocol.MatchResult.Command mr = cmd) rs.
Proof.
  unfold handle, handlePlace, handleCancel. case_match.
  { destruct (PlaceOrder _ _ _) as [[[e1 r] err]|]; [|done]. intros [= _ <-]. by repeat constructor. }
  case_match.
  { destruct (CancelOrders _ _ _ _) as [[[e1 r] err]|]; [|done]. intros [= _ <-].
    apply Forall_app. split; apply Forall_fmap, Forall_true; by intros. }
  by intros [= _ <-].
Qed.

Section inv.
Context {C D P : Type} `{!CandleTracker C, !PersistStore D, !Publisher P}.
Context (clock : string → Z → Z) (fresh : string → nat → string) (ptclock : nat → Z).
Context (st0 : State C D P).

Notation step := (step clock fresh ptclock).
Notation reach := (reach clock fresh ptclock st0).

(** The engine a book starts with. *)
Definition start_engine (key : string) : Engine :=
  from_option BookEngine.eng Engine.New (books (sup st0) !! key).

Record book_ok (tr : trace) (out : list MR) (key : string) (be : BookEngine.t) : Prop := {
  bo_queue : ∃ k, queue k (BookEngine.inputRB be) (accepted key tr)
                    ((h_cmd <$> handled key tr) ++ BookEngine.buf be);
  bo_replay : replay clock key (start_engine key) (handled key tr) =
    Some (BookEngine.eng be,
          delivered key tr ++ filter (λ mr, mr_key mr = key) out ++ BookEngine.sending be);
  bo_sending : Forall (λ mr, mr_key mr = key) (BookEngine.sending be);
  bo_accepted : Forall (λ c, MatchCommand.BookKey c = key) (accepted key tr);
}.

Record book_absent (tr : trace) (out : list MR) (key : string) : Prop := {
  ba_start : books (sup st0) !! key = None;
  ba_accepted : accepted key tr = [];
  ba_handled : handled key tr = [];
  ba_delivered : delivered key tr ++ filter (λ mr, mr_key mr = key) out = [];
}.

Definition books_ok (tr : trace) (s : BookSupervisor) : Prop :=
  ∀ key, match books s !! key with
         | Some be => book_ok tr (outputCh s) key be
         | None => book_absent tr (outputCh s) key
         end.

Record workers_ok (tr : trace) (ws : list (list MR)) : Prop := {
  wo_length : length ws = Z.to_nat dispatchWorkers;
  wo_home : ∀ i w mr, ws !! i = Some w → mr ∈ w → Z.to_nat (worker_of (mr_key mr)) = i;
  wo_fifo : ∀ key w, ws !! Z.to_nat (worker_of key) = Some w →
    dispatched key tr = flushed key tr ++ filter (λ mr, mr_key mr = key) w;
}.

(** ** Start *)

Lemma initial_books_ok : initial st0 → books_ok [] (sup st0).
Proof.
  intros [Hb Ho Hw] key. destruct (books (sup st0) !! key) as [be|] eqn:E.
  - destruct (Hb _ _ E) as (Hk & Hrb & Hbuf & Hs). split.
    + destruct (ring_ok_new MatchCommand.zero bookRBSize) as (k & _ & _ & Hok);
        [unfold bookRBSize; lia|]. exists k. by rewrite Hrb, Hbuf.
    + unfold start_engine. by rewrite E, Ho, Hs.
    + by rewrite Hs.
    + constructor.
  - split; [done..|]. by rewrite Ho.
Qed.

Lemma initial_workers_ok : initial st0 → workers_ok [] (workers st0).
Proof.
  intros [_ _ ->]. split; [by rewrite length_replicate|..].
  - intros i w mr [-> _]%lookup_replicate Hmr. by apply elem_of_nil in Hmr.
  - by intros key w [-> _]%lookup_replicate.
Qed.

(** ** Steps that do not concern a book *)

Lemma book_ok_foreign tr out key be ev :
  foreign key ev → book_ok tr out key be → book_ok (tr ++ [ev]) out key be.
Proof.
  intros (Ha & Hh & Hd) [Hq Hr Hs Hk].
  split; rewrite ?accepted_snoc, ?handled_snoc, ?delivered_snoc, ?Ha, ?Hh, ?Hd, ?app_nil_r; done.
Qed.

Lemma book_absent_foreign tr out key ev :
  foreign key ev → book_absent tr out key → book_absent (tr ++ [ev]) out key.
Proof.
  intros (Ha & Hh & Hd) [Hb Hac Hha Hde].
  split; rewrite ?accepted_snoc, ?handled_snoc, ?delivered_snoc, ?Ha, ?Hh, ?Hd, ?app_nil_r; done.
Qed.

Lemma books_ok_foreign tr s s' ev :
  (∀ key, foreign key ev) → books s' = books s → outputCh s' = outputCh s →
  books_ok tr s → books_ok (tr ++ [ev]) s'.
Proof.
  intros Hf Eb Eo Hok key. rewrite Eb, Eo. specialize (Hok key).
  destruct (books s !! key); [by apply book_ok_foreign|by apply book_absent_foreign].
Qed.

(** A step of one book: the others only see a foreign event. *)
Lemma books_ok_update tr s s' ev key be' :
  books_ok tr s → books s' = <[key := be']> (books s) → outputCh s' = outputCh s →
  (∀ k, k ≠ key → foreign k ev) → book_ok (tr ++ [ev]) (outputCh s') key be' →
  books_ok (tr ++ [ev]) s'.
Proof.
  intros Hok Eb Eo Hf Hbe k. rewrite Eb. destruct (decide (k = key)) as [->|Hk].
  - by rewrite lookup_insert_eq.
  - rewrite lookup_insert_ne by done. specialize (Hok k). rewrite Eo.
    destruct (books s !! k); [apply book_ok_foreign|apply book_absent_foreign]; auto.
Qed.

(** ** Routing *)

(** A book engine created on the spot is in order. *)
Lemma new_book_ok tr out key :
  book_absent tr out key → book_ok tr out key (NewBookEngine key).
Proof.
  intros [Hs Ha Hh Hd]. split.
  - destruct (ring_ok_new MatchCommand.zero bookRBSize) as (k & _ & _ & Hok);
      [unfold bookRBSize; lia|]. exists k. by rewrite Ha, Hh.
  - unfold start_engine. rewrite Hs, Hh. cbn [replay from_option].
    rewrite (app_assoc (delivered key tr)), Hd. done.
  - constructor.
  - by rewrite Ha.
Qed.

Lemma getOrCreate_ok tr s key s' be :
  books_ok tr s → getOrCreate s key = (s', be) →
  book_ok tr (outputCh s) key be ∧ outputCh s' = outputCh s ∧
  (∀ be', <[key := be']> (books s') = <[key := be']> (books s)).
Proof.
  intros Hok. specialize (Hok key). unfold getOrCreate.
  destruct (books s !! key) as [be0|]; intros [= <- <-]; [done|].
  split; [by apply new_book_ok|]. split; [done|]. intros be'. simpl. apply insert_insert_eq.
Qed.

Lemma route_total tr s cmd :
  books_ok tr s → Z.of_nat (routes tr) + 1 < 2 ^ 64 →
  ∃ s' ok, Route s cmd = Some (s', ok) ∧ books_ok (tr ++ [EvRoute cmd ok]) s'.
Proof.
  intros Hok Hlen. unfold Route. set (key := MatchCommand.BookKey cmd).
  destruct (getOrCreate s key) as [s1 be] eqn:Eg.
  destruct (getOrCreate_ok _ _ _ _ _ Hok Eg) as ([[k Hq] Hr Hs Hk] & Eo & Eb).
  pose proof (accepted_length key tr) as Hal.
  destruct (TryPublish_queue k _ _ _ cmd Hq ltac:(lia)) as (rb & ok & -> & Hrb). rewrite Some_bind.
  eexists _, ok. split; [done|].
  apply (books_ok_update tr s _ _ key (set_inputRB be rb) Hok); [by simpl; rewrite Eb|done|..].
  - intros k' Hk'. unfold foreign. cbn. destruct ok; cbn; by rewrite ?decide_False by done.
  - assert (handled key [EvRoute cmd ok] = [] ∧ delivered key [EvRoute cmd ok] = []) as [Eh Ed]
      by by destruct ok.
    split; rewrite ?accepted_snoc, ?handled_snoc, ?delivered_snoc, ?Eh, ?Ed, ?app_nil_r; simpl;
      rewrite ?Eo; try done; destruct ok; cbn; rewrite ?decide_True, ?app_nil_r by done; try done.
    + by exists k.
    + destruct Hrb as [-> _]. by exists k.
    + apply Forall_app. split; [done|by repeat constructor].
Qed.

(** ** The loop of a book engine *)

Lemma drain_total tr s key be nowMillis :
  books_ok tr s → books s !! key = Some be → BookEngine.buf be = [] → BookEngine.sending be = [] →
  Z.of_nat (routes tr) < 2 ^ 64 →
  ∃ be', drain nowMillis be = Some be' ∧ books_ok (tr ++ [EvDrain key]) (put_book s key be') ∧
    (BookEngine.buf be' = [] → h_cmd <$> handled key tr = accepted key tr).
Proof.
  intros Hok Hbe Hbuf Hsend Hlen. pose proof (Hok key) as Hb. rewrite Hbe in Hb.
  destruct Hb as [[k Hq] Hr Hs Hk]. rewrite Hbuf, app_nil_r in Hq.
  pose proof (accepted_length key tr) as Hal. unfold drain.
  destruct (DrainTo_queue k _ _ _ matchDrainBatch Hq) as (rb & items & -> & Hq' & _ & Hemp);
    [lia|unfold matchDrainBatch; lia|]. rewrite Some_bind.
  set (be' := match items with [] => _ | _ => _ end).
  assert (BookEngine.inputRB be' = rb ∧ BookEngine.buf be' = items ∧ BookEngine.sending be' = [] ∧
    BookEngine.eng be' = BookEngine.eng be) as (E1 & E2 & E3 & E4) by by subst be'; destruct items.
  exists be'. split; [done|]. split; [|rewrite E2; exact Hemp].
  apply (books_ok_update tr s _ _ key be' Hok); [done|done|by unfold foreign|].
  split; rewrite ?accepted_snoc, ?handled_snoc, ?delivered_snoc, ?app_nil_r; cbn [outputCh put_book];
    rewrite ?E3, ?E4; try done.
  - exists k. by rewrite E1, E2.
  - by rewrite <-Hsend.
Qed.

Lemma handle_books_ok tr s key be cmd rest h e rs :
  books_ok tr s → books s !! key = Some be → BookEngine.sending be = [] →
  BookEngine.buf be = cmd :: rest → h_cmd h = cmd →
  run_handling clock key (BookEngine.eng be) h = Some (e, rs) →
  books_ok (tr ++ [EvHandle key h])
    (mkSupervisor (Engine.sequence e) (<[key := after_handle be e rest rs]> (books s)) (outputCh s)).
Proof.
  intros Hok Hbe Hsend Hbuf Hcmd Hrun. pose proof (Hok key) as Hb. rewrite Hbe in Hb.
  destruct Hb as [[k Hq] Hr Hs Hk].
  assert (handled key [EvHandle key h] = [h]) as Eh by (cbn; by rewrite decide_True).
  apply (books_ok_update tr s _ _ key (after_handle be e rest rs) Hok); [done|done|..].
  - intros k' Hk'. unfold foreign. cbn. by rewrite decide_False.
  - rewrite Hbuf in Hq. rewrite Hsend, app_nil_r in Hr.
    split; rewrite ?accepted_snoc, ?handled_snoc, ?delivered_snoc, ?Eh; cbn [outputCh after_handle
      BookEngine.inputRB BookEngine.buf BookEngine.eng BookEngine.sending]; rewrite ?app_nil_r; try done.
    + exists k. by rewrite fmap_app, <-app_assoc, <-Hcmd in *.
    + rewrite (replay_snoc clock key _ _ h _ _ Hr), Hrun. simpl. by rewrite <-app_assoc.
    + assert (MatchCommand.BookKey cmd = key) as Ek.
      { rewrite Forall_forall in Hk. apply Hk. destruct (queue_prefix _ _ _ _ Hq) as [l ->].
        rewrite <-app_assoc. apply elem_of_app. right. apply elem_of_cons. by left. }
      apply handle_keys in Hrun. eapply Forall_impl; [exact Hrun|]. intros mr E.
      unfold mr_key. by rewrite E, Hcmd.
Qed.

(** Moving a result between the stages: [out'] and [sending'] hold what [out],
    [sending] and the event's delivery held. *)
Lemma book_ok_move tr out out' key be be' ev :
  book_ok tr out key be → accepted key [ev] = [] → handled key [ev] = [] →
  BookEngine.inputRB be' = BookEngine.inputRB be → BookEngine.buf be' = BookEngine.buf be →
  BookEngine.eng be' = BookEngine.eng be → BookEngine.sending be' `suffix_of` BookEngine.sending be →
  filter (λ mr, mr_key mr = key) out ++ BookEngine.sending be =
    delivered key [ev] ++ filter (λ mr, mr_key mr = key) out' ++ BookEngine.sending be' →
  book_ok (tr ++ [ev]) out' key be'.
Proof.
  intros [Hq Hr Hs Hk] Ha Hh E1 E2 E3 [pre Es] E.
  split; rewrite ?accepted_snoc, ?handled_snoc, ?delivered_snoc, ?Ha, ?Hh, ?app_nil_r, ?E1, ?E2, ?E3;
    try done.
  - by rewrite Hr, E, <-app_assoc.
  - rewrite Es in Hs. by apply Forall_app in Hs as [_ ?].
Qed.

Lemma book_absent_move tr out out' key ev :
  book_absent tr out key → accepted key [ev] = [] → handled key [ev] = [] →
  filter (λ mr, mr_key mr = key) out = delivered key [ev] ++ filter (λ mr, mr_key mr = key) out' →
  book_absent (tr ++ [ev]) out' key.
Proof.
  intros [Hs Ha Hh Hd] Ea Eh E.
  split; rewrite ?accepted_snoc, ?handled_snoc, ?delivered_snoc, ?Ea, ?Eh, ?app_nil_r; try done.
  by rewrite <-app_assoc, <-E.
Qed.

Lemma send_books_ok tr s key be mr rest :
  books_ok tr s → books s !! key = Some be → BookEngine.sending be = mr :: rest →
  books_ok (tr ++ [EvSend key])
    (mkSupervisor (sequence s) (<[key := after_send be rest]> (books s)) (outputCh s ++ [mr])).
Proof.
  intros Hok Hbe Hsend. pose proof (Hok key) as Hb. rewrite Hbe in Hb.
  pose proof (bo_sending _ _ _ _ Hb) as Hkeys. rewrite Hsend in Hkeys.
  apply Forall_cons in Hkeys as [Hmr _]. intros k. cbn [books outputCh].
  destruct (decide (k = key)) as [->|Hk].
  - rewrite lookup_insert_eq. eapply book_ok_move; [exact Hb|done..| |].
    + cbn. rewrite Hsend. by exists [mr].
    + cbn [after_send BookEngine.sending]. rewrite Hsend, filter_app, filter_cons_True by done.
      cbn. by rewrite <-app_assoc.
  - rewrite lookup_insert_ne by done. specialize (Hok k).
    assert (filter (λ mr, mr_key mr = k) (outputCh s ++ [mr]) = filter (λ mr, mr_key mr = k) (outputCh s)) as E.
    { rewrite filter_app, filter_cons_False by (rewrite Hmr; congruence). by rewrite app_nil_r. }
    destruct (books s !! k) as [be'|].
    + eapply book_ok_move; [exact Hok|done..|]. by rewrite E.
    + eapply book_absent_move; [exact Hok|done..|]. by rewrite E.
Qed.

Lemma deliver_books_ok tr s mr rest ev :
  books_ok tr s → outputCh s = mr :: rest → ev = EvDispatch mr ∨ ev = EvShadow mr →
  books_ok (tr ++ [ev]) (mkSupervisor (sequence s) (books s) rest).
Proof.
  intros Hok Ho Hev k. cbn [books outputCh]. specialize (Hok k). rewrite Ho in Hok.
  assert (accepted k [ev] = [] ∧ handled k [ev] = [] ∧
    filter (λ mr, mr_key mr = k) (mr :: rest) = delivered k [ev] ++ filter (λ mr, mr_key mr = k) rest)
    as (E1 & E2 & E3).
  { rewrite filter_cons. split_and!; [by destruct Hev as [->| ->]..|].
    destruct Hev as [->| ->]; cbn; by case_decide. }
  destruct (books s !! k) as [be|].
  - eapply book_ok_move; [exact Hok|done..|]. by rewrite E3, <-app_assoc.
  - by eapply book_absent_move.
Qed.

(** ** Workers *)

Lemma dispatch_workers_ok tr ws mr w :
  workers_ok tr ws → ws !! Z.to_nat (worker_of (mr_key mr)) = Some w →
  workers_ok (tr ++ [EvDispatch mr]) (<[Z.to_nat (worker_of (mr_key mr)) := w ++ [mr]]> ws).
Proof.
  intros [Hl Hh Hf] Hw. split.
  - by rewrite length_insert.
  - intros i w' x [(<- & <- & _)|[Hne Hi]]%list_lookup_insert_Some Hx; [|by apply (Hh i w')].
    apply elem_of_app in Hx as [Hx|Hx%list_elem_of_singleton]; [by apply (Hh _ w)|by subst].
  - intros key w' Hk. rewrite dispatched_snoc, flushed_snoc. cbn [flushed mbind list_bind app].
    rewrite app_nil_r.
    apply list_lookup_insert_Some in Hk as [(Ei & <- & _)|[Hne Hi]].
    + rewrite filter_app, (app_assoc (flushed key tr)), <-(Hf key w) by (by rewrite <-Ei).
      f_equal. rewrite filter_cons. cbn. by case_decide.
    + rewrite (Hf key w' Hi). cbn. rewrite decide_False by (intros E; apply Hne; by rewrite E).
      by rewrite app_nil_r.
Qed.

Lemma process_workers_ok tr ws i w n :
  workers_ok tr ws → ws !! i = Some w →
  workers_ok (tr ++ [EvProcess i (take n w)]) (<[i := drop n w]> ws).
Proof.
  intros [Hl Hh Hf] Hw. split.
  - by rewrite length_insert.
  - intros j w' x [(<- & <- & _)|[Hne Hj]]%list_lookup_insert_Some Hx; [|by apply (Hh j w')].
    apply (Hh _ w); [done|]. rewrite <-(take_drop n w). apply elem_of_app. by right.
  - intros key w' Hk. rewrite dispatched_snoc, flushed_snoc. cbn -[take drop].
    rewrite !app_nil_r.
    apply list_lookup_insert_Some in Hk as [(Ei & <- & _)|[Hne Hj]].
    + rewrite (Hf key w) by (by rewrite <-Ei). rewrite <-app_assoc. f_equal.
      by rewrite <-filter_app, take_drop.
    + rewrite (Hf key w' Hj). f_equal.
      rewrite (list_filter_none _ (take n w)); [by rewrite app_nil_r|].
      intros x Hx Ex. apply Hne. rewrite <-Ex. symmetry. apply (Hh i w); [done|].
      rewrite <-(take_drop n w). apply elem_of_app. by left.
Qed.

Lemma workers_ok_other tr ws ev :
  (∀ key, dispatched key [ev] = [] ∧ flushed key [ev] = []) → workers_ok tr ws →
  workers_ok (tr ++ [ev]) ws.
Proof.
  intros He [Hl Hh Hf]. split; [done..|]. intros key w Hw. destruct (He key) as [E1 E2].
  by rewrite dispatched_snoc, flushed_snoc, E1, E2, !app_nil_r, (Hf key w).
Qed.

(** ** Every step keeps the invariant *)

Lemma pipeline_step_ok tr st ev st' :
  books_ok tr (sup st) → workers_ok tr (workers st) → Z.of_nat (routes (tr ++ [ev])) < 2 ^ 64 →
  step st ev st' → books_ok (tr ++ [ev]) (sup st') ∧ workers_ok (tr ++ [ev]) (workers st').
Proof.
  intros Hb Hw Hlen Hs. rewrite routes_snoc in Hlen.
  destruct Hs as [st cmd s' ok Hr|st key be be' now H1 H2 H3 H4|st key be cmd rest h e rs H1 H2 H3 H4 _ _ _ H5
    |st key be mr rest H1 H2 _|st mr rest w H1 _ H2 _|st mr rest H1 _|st i w n pt' err H1 _ _ _|st r];
    cbn [sup workers set_sup] in *.
  - split; [|by apply workers_ok_other].
    destruct (route_total tr (sup st) cmd Hb ltac:(lia)) as (s1 & ok1 & E & Hok). by simplify_eq.
  - split; [|by apply workers_ok_other].
    destruct (drain_total tr (sup st) key be now Hb H1 H2 H3 ltac:(lia)) as (b1 & E & Hok & _). by simplify_eq.
  - split; [by eapply handle_books_ok|by apply workers_ok_other].
  - split; [by eapply send_books_ok|by apply workers_ok_other].
  - split; [eapply deliver_books_ok; eauto|by apply dispatch_workers_ok].
  - split; [eapply deliver_books_ok; eauto|by apply workers_ok_other].
  - split; [by eapply books_ok_foreign|by apply process_workers_ok].
  - split; [by eapply books_ok_foreign|by apply workers_ok_other].
Qed.

Lemma reach_ok tr st :
  initial st0 → reach tr st → Z.of_nat (routes tr) < 2 ^ 64 →
  books_ok tr (sup st) ∧ workers_ok tr (workers st).
Proof.
  intros H0. induction 1 as [|tr st ev st' _ IH Hs]; intros Hlen.
  { split; [by apply initial_books_ok|by apply initial_workers_ok]. }
  destruct IH as [Hb Hw]; [rewrite routes_snoc in Hlen; lia|].
  by apply (pipeline_step_ok tr st ev st').
Qed.
End inv.
