(* ===== verification/PipelineProps.v ===== *)
(** * Matching pipeline: per-book order, panic freedom, progress

    For every interleaving of gateway, book engines, dispatcher and workers. *)

From S2P Require Import Prelude Shared Messages MatchModel.
From S2P Require Import Bitmap BookHeap OrderBookDirect Engine.
From S2P Require Import EngineSpec EngineView MatchFacts EngineInv.
From S2P Require Import RingBuffer RingConc Protocol.
From S2P Require Import Candles PostTrade MatchStore Pipeline.
From S2P Require Import PipelineInv.

Local Open Scope Z_scope.

(** ** Handling never panics *)

(** A quantity within [int64]. *)
Definition cmd_ok (cmd : MatchCommand.t) : Prop := MatchCommand.Quantity cmd ≤ MaxInt64.

Lemma cancel_one_length reason now bs c bs' cs ks :
  cancel_one reason now (bs, [], []) c = Some (bs', cs, ks) →
  (length cs ≤ 1)%nat ∧ (length ks ≤ 1)%nat.
Proof.
  unfold cancel_one. destruct c as [c|]; [|intros [= <- <- <-]; cbn; lia].
  destruct (bs !! Order.BookKey c) as [book|]; [|intros [= <- <- <-]; cbn; lia].
  destruct (GetDirectOrder book (Order.OrderID c)) as [x|]; [|intros [= <- <- <-]; cbn; lia].
  destruct (OrderBookDirect.store book !! x) as [d|]; [|done]. rewrite Some_bind.
  case_match; [intros [= <- <- <-]; cbn; lia|].
  destruct (RemoveDirectOrder _ _) as [b'|]; [|done]. rewrite Some_bind. intros [= <- <- <-].
  cbn. split; [lia|]. repeat case_match; cbn; lia.
Qed.

Lemma snapshot_loop_length ks bs bs' snaps :
  snapshot_loop ks bs = Some (bs', snaps) → (length snaps ≤ length ks)%nat.
Proof.
  revert bs bs' snaps. induction ks as [|key ks IH]; intros bs bs' snaps; cbn [snapshot_loop].
  { intros [= _ <-]. done. }
  destruct (bs !! key) as [book|]; [|intros H%IH; cbn; lia].
  destruct (Snapshot book 5) as [snap|]; [|done]. rewrite Some_bind.
  destruct (snapshot_loop ks _) as [[bs1 snaps1]|] eqn:E; [|done]. rewrite Some_bind.
  intros [= _ <-]. apply IH in E. cbn. lia.
Qed.

(** A cancel answers with at most one order and one book. *)
Lemma CancelOrders_one_length now e c reason e' r err :
  CancelOrders now e [c] reason = Some (e', r, err) →
  (length (cancel_Orders r) ≤ 1)%nat ∧ (length (cancel_Books r) ≤ 1)%nat.
Proof.
  unfold CancelOrders. case_bool_decide; [intros [= _ <- _]; cbn; lia|]. cbn [cancel_loop].
  destruct (cancel_one reason now (Engine.books e, [], []) c) as [[[bs cs] ks]|] eqn:E; [|done].
  rewrite !Some_bind. destruct (snapshot_loop ks bs) as [[bs' snaps]|] eqn:E2; [|done].
  rewrite Some_bind. intros [= _ <- _]. apply cancel_one_length in E as [? ?].
  apply snapshot_loop_length in E2. cbn. lia.
Qed.

Lemma place_total clk e o :
  engine_inv e → Order.FilledQuantity o = 0 → Order.Quantity o ≤ MaxInt64 →
  ∃ e' r err, PlaceOrder clk e (Some o) = Some (e', r, err) ∧ engine_inv e'.
Proof.
  intros He Hf Hq. destruct (decide (0 < Order.Quantity o)) as [Hp|Hp].
  - destruct (PlaceOrder_total clk e (Some o) He) as (e' & r & err & E & He' & _).
    + intros o' [= <-]. split; [split; lia|]. unfold Order.RemainingQuantity.
      rewrite Hf, Z.sub_0_r, wrap64_id by (unfold int64, MinInt64, MaxInt64 in *; lia).
      destruct (Z.ltb_spec (Order.Quantity o) 0); lia.
    + by exists e', r, err.
  - destruct (Order.Validate o) as [u|err] eqn:Ev.
    + exfalso. unfold Order.Validate in Ev. case_match; [done|].
      destruct (Z.leb_spec (Order.Quantity o) 0); [done|lia].
    + unfold PlaceOrder. rewrite Ev. by eexists _, _, _.
Qed.

Lemma handle_total clk ep n1 n2 e cmd :
  engine_inv e → cmd_ok cmd →
  ∃ e' rs, handle clk ep n1 n2 e cmd = Some (e', rs) ∧ engine_inv e' ∧ (length rs ≤ 2)%nat.
Proof.
  intros He Hc. unfold handle, handlePlace, handleCancel. case_match.
  { destruct (place_total clk e (MatchCommand.ToOrder cmd n1) He) as (e' & r & err & -> & He');
      [done|done|]. rewrite Some_bind. eexists _, _. split; [done|]. cbn. auto. }
  case_match; [|eexists _, _; split; [done|]; split; [done|cbn; lia]].
  destruct (CancelOrders_spec n2 e [Some (cancel_target cmd)]
    (CancelReasonFlag_ToModel (MatchCommand.CancelReason cmd)) He) as (e' & r & E & He' & _).
  { unfold CancelReasonFlag_ToModel. by case_match. }
  pose proof (CancelOrders_one_length _ _ _ _ _ _ _ E) as [Hl1 Hl2].
  rewrite E, Some_bind. eexists _, _. split; [done|]. split; [done|].
  rewrite length_app, !length_fmap. lia.
Qed.

Lemma SetSequence_inv e seq : engine_inv e → uint64 seq → engine_inv (SetSequence e seq).
Proof. intros [Hb Hs Hl] Hu. by split. Qed.

(** ** The booted pipeline *)

Lemma restore_orders_total e os :
  engine_inv e → Forall Order.quantities_ok os →
  ∃ e' err, restore_orders e os = Some (e', err) ∧ engine_inv e'.
Proof.
  intros He Hos. revert e He. induction Hos as [|o os Ho _ IH]; intros e He; cbn [restore_orders].
  { by eexists _, _. }
  destruct (RestoreOrder_total e (Some o) He) as (e1 & err & -> & He1); [by intros o' [= <-]|].
  rewrite Some_bind. destruct err; [by eexists _, _|by apply IH].
Qed.

Definition fresh_book (key : string) (be : BookEngine.t) : Prop :=
  BookEngine.bookKey be = key ∧
  BookEngine.inputRB be = RingBuffer.New MatchCommand.zero bookRBSize ∧ BookEngine.buf be = [] ∧
  BookEngine.sending be = [] ∧ engine_inv (BookEngine.eng be).

Lemma restore_books_total s orders keys :
  map_Forall fresh_book (books s) → Forall Order.quantities_ok orders →
  ∃ s' err, restore_books s orders keys = Some (s', err) ∧ map_Forall fresh_book (books s') ∧
    sequence s' = sequence s ∧ outputCh s' = outputCh s.
Proof.
  intros Hs Hos. revert s Hs. induction keys as [|key keys IH]; intros s Hs; cbn [restore_books].
  { by eexists _, _. }
  destruct (getOrCreate s key) as [s1 be] eqn:Eg.
  assert (map_Forall fresh_book (books s1) ∧ fresh_book key be ∧ sequence s1 = sequence s ∧
    outputCh s1 = outputCh s) as (Hs1 & (Hb1 & Hb2 & Hb3 & Hb4 & Hb5) & Eq & Eo).
  { unfold getOrCreate in Eg. destruct (books s !! key) as [b|] eqn:Eb; injection Eg as <- <-.
    - split_and!; [done|by apply Hs|done|done].
    - assert (fresh_book key (NewBookEngine key)) as Hn by (split_and!; try done; apply New_inv).
      split_and!; [|done..]. by apply map_Forall_insert_2. }
  destruct (restore_orders_total (BookEngine.eng be) (filter (λ o, Order.BookKey o = key) orders))
    as (e' & err & -> & He'); [done| |].
  { apply Forall_forall. intros o [_ Ho]%list_elem_of_filter. rewrite Forall_forall in Hos. auto. }
  rewrite Some_bind.
  set (s2 := set_books s1 (<[key := set_eng be e']> (books s1))).
  assert (map_Forall fresh_book (books s2)) as Hs2 by by apply map_Forall_insert_2.
  destruct err; [by exists s2; eexists|].
  destruct (IH s2 Hs2) as (s' & err & E & Hf & E1 & E2). exists s', err. split_and!; [done|done|..].
  - by rewrite E1.
  - by rewrite E2.
Qed.

Section props.
Context {C D P : Type} `{!CandleTracker C, !PersistStore D, !Publisher P}.
Context (clock : string → Z → Z) (fresh : string → nat → string) (ptclock : nat → Z).
Implicit Types st : State C D P.

(** [New], then [Restore] of stored resting orders, then [Start]. *)
Definition booted st : Prop :=
  ∃ seq orders s n service, uint64 seq ∧ Forall Order.quantities_ok (omap id orders) ∧
    Restore NewBookSupervisor seq orders = Some (s, None) ∧
    st = mkState s n (replicate (Z.to_nat dispatchWorkers) []) service.

Definition engines_ok (s : BookSupervisor) : Prop :=
  map_Forall (λ _ be, engine_inv (BookEngine.eng be)) (books s) ∧ uint64 (sequence s).

Lemma booted_ok st : booted st → initial st ∧ engines_ok (sup st).
Proof.
  intros (seq & orders & s & n & service & Hu & Hq & HR & ->). unfold Restore in HR.
  destruct (restore_books_total (mkSupervisor seq (books NewBookSupervisor) (outputCh NewBookSupervisor))
    (omap id orders) (remove_dups (Order.BookKey <$> omap id orders)))
    as (s' & err & E & Hf & Es & Eo); [apply map_Forall_empty|done|].
  cbv zeta in HR. simplify_eq. split; [split|split].
  - eapply map_Forall_impl; [exact Hf|]. by intros key be (? & ? & ? & ? & _).
  - by cbn; rewrite Eo.
  - done.
  - eapply map_Forall_impl; [exact Hf|]. by intros key be (_ & _ & _ & _ & ?).
  - cbn [sup]. by rewrite Es.
Qed.

(** Every command routed so far has a quantity within [int64]. *)
Definition routed_ok (tr : trace) : Prop :=
  Forall (λ ev, match ev with EvRoute cmd _ => cmd_ok cmd | _ => True end) tr.

Lemma accepted_cmd_ok key tr : routed_ok tr → Forall cmd_ok (accepted key tr).
Proof.
  induction 1 as [|ev tr Hev _ IH]; [constructor|]. unfold accepted in *. cbn.
  destruct ev as [cmd []| | | | | | |]; try done. case_decide; [by constructor|done].
Qed.

Lemma buf_cmd_ok st0 tr s key be :
  books_ok clock st0 tr s → routed_ok tr → books s !! key = Some be →
  Forall cmd_ok (BookEngine.buf be).
Proof.
  intros Hok Hr Hbe. specialize (Hok key). rewrite Hbe in Hok. destruct (bo_queue _ _ _ _ _ _ Hok) as [k Hq].
  destruct (queue_prefix _ _ _ _ Hq) as [l El]. pose proof (accepted_cmd_ok key tr Hr) as Ha.
  rewrite El in Ha. apply Forall_app in Ha as [Ha _]. by apply Forall_app in Ha as [_ ?].
Qed.

Lemma step_engines_ok st0 tr st ev st' :
  books_ok clock st0 tr (sup st) → routed_ok tr → engines_ok (sup st) →
  step clock fresh ptclock st ev st' → engines_ok (sup st').
Proof.
  intros Hok Hr [He Hu] Hs.
  destruct Hs as [st cmd s' ok HR|st key be be' now H1 H2 H3 H4|st key be cmd rest h e rs H1 H2 H3 H4 H5 _ _ H6
    |st key be mr rest H1 H2 _|st mr rest w H1 _ H2 _|st mr rest H1 _|st i w n pt' err H1 _ _ _|st r];
    cbn [sup set_sup] in *; try by split.
  - unfold Route in HR. destruct (getOrCreate (sup st) (MatchCommand.BookKey cmd)) as [s1 be] eqn:Eg.
    destruct (TryPublish _ cmd) as [[rb b]|]; [|done]. injection HR as <- _.
    unfold getOrCreate in Eg. destruct (books (sup st) !! _) as [b0|] eqn:Eb; injection Eg as <- <-.
    + split; [|done]. apply map_Forall_insert_2; [apply (He _ _ Eb)|done].
    + split; [|done]. cbn. rewrite insert_insert_eq. apply map_Forall_insert_2; [apply New_inv|done].
  - split; [|done]. apply map_Forall_insert_2; [|done]. unfold drain in H4.
    destruct (DrainTo _ _ _) as [[rb items]|]; [|done]. rewrite Some_bind in H4. injection H4 as <-.
    specialize (He _ _ H1). by destruct items.
  - pose proof (buf_cmd_ok st0 tr _ _ _ Hok Hr H1) as Hb. rewrite H3 in Hb.
    apply Forall_cons in Hb as [Hc _].
    destruct (handle_total (clock key) (h_epoch h) (h_nowMillis h) (h_now h)
      (SetSequence (BookEngine.eng be) (h_sequence h)) cmd) as (e' & rs' & E & He' & _).
    { apply SetSequence_inv; [apply (He _ _ H1)|by rewrite H5]. }
    { done. }
    unfold run_handling in H6. rewrite H4, E in H6. injection H6 as <- <-.
    split; [|apply (ei_sequence _ He')]. by apply map_Forall_insert_2.
  - split; [|done]. apply map_Forall_insert_2; [apply (He _ _ H1)|done].
Qed.

Lemma reach_engines_ok st0 tr st :
  booted st0 → reach clock fresh ptclock st0 tr st → Z.of_nat (routes tr) < 2 ^ 64 → routed_ok tr →
  engines_ok (sup st).
Proof.
  intros Hboot. pose proof (booted_ok _ Hboot) as [Hi He].
  induction 1 as [|tr st ev st' Hreach IH Hs]; intros Hlen Hr; [done|].
  apply Forall_app in Hr as [Hr _]. rewrite routes_snoc in Hlen.
  destruct (reach_ok clock fresh ptclock st0 tr st Hi Hreach ltac:(lia)) as [Hok _].
  eapply step_engines_ok; [exact Hok|exact Hr|apply IH; [lia|done]|exact Hs].
Qed.

(** ** Theorems *)


(** No goroutine of the pipeline panics.  After a restart and whatever
    commands were routed (with quantities within [int64], valid or not), routing any
    command, draining any idle book engine and handling the next command of any batch
    succeed, and every engine satisfies the book invariant. *)
Theorem pipeline_never_panics st0 tr st :
  booted st0 → reach clock fresh ptclock st0 tr st → Z.of_nat (routes tr) + 1 < 2 ^ 64 →
  routed_ok tr →
  (∀ cmd, ∃ s' ok, Route (sup st) cmd = Some (s', ok)) ∧
  ∀ key be, books (sup st) !! key = Some be →
    engine_inv (BookEngine.eng be) ∧
    (BookEngine.buf be = [] → BookEngine.sending be = [] → ∀ now, ∃ be', drain now be = Some be') ∧
    (∀ cmd rest now, BookEngine.buf be = cmd :: rest →
       ∃ e rs, run_handling clock key (BookEngine.eng be)
         (mkHandling cmd (sequence (sup st)) (epoch (node st)) (BookEngine.nowMillis be) now) =
         Some (e, rs)).
Proof.
  intros Hboot Hreach Hlen Hr. pose proof (booted_ok _ Hboot) as [Hi _].
  destruct (reach_ok clock fresh ptclock st0 tr st Hi Hreach ltac:(lia)) as [Hok _].
  pose proof (reach_engines_ok st0 tr st Hboot Hreach ltac:(lia) Hr) as [He Hu]. split.
  - intros cmd. destruct (route_total clock st0 tr (sup st) cmd Hok Hlen) as (s' & ok & E & _). by eauto.
  - intros key be Hbe. split; [apply (He _ _ Hbe)|]. split.
    + intros Hb Hs now. destruct (drain_total clock st0 tr (sup st) key be now Hok Hbe Hb Hs ltac:(lia))
        as (be' & E & _). by eauto.
    + intros cmd rest now Hb. pose proof (buf_cmd_ok st0 tr _ _ _ Hok Hr Hbe) as Hc. rewrite Hb in Hc.
      apply Forall_cons in Hc as [Hc _]. unfold run_handling. cbn.
      destruct (handle_total (clock key) (epoch (node st)) (BookEngine.nowMillis be) now
        (SetSequence (BookEngine.eng be) (sequence (sup st))) cmd) as (e & rs & E & _);
        [apply SetSequence_inv; [apply (He _ _ Hbe)|done]|done|]. by eauto.
Qed.
End props.
