(* ===== verification/PipelineDrain.v ===== *)
(** * Matching pipeline: accepted work can always be finished

    From every reachable state the book engines, the dispatcher and the workers can
    bring everything in flight to its end: each step of theirs lowers a measure of the
    work left, and while there is work some step is enabled. *)

From S2P Require Import Prelude Shared Messages MatchModel.
From S2P Require Import Bitmap BookHeap OrderBookDirect Engine EngineInv EngineProps.
From S2P Require Import RingBuffer RingConc Protocol.
From S2P Require Import Candles PostTrade RollupJournal RollupState MatchStore Pipeline.
From S2P Require Import MatchStoreProps PostTradeProps PipelineInv PipelineProps.

Local Open Scope Z_scope.

Lemma sumZ_insert {A} (f : A → Z) (l : list A) i x y :
  l !! i = Some x → sumZ f (<[i := y]> l) = sumZ f l - f x + f y.
Proof.
  revert i. induction l as [|a l IH]; intros [|i]; simpl; try done; [intros [= ->]; lia|].
  intros H. rewrite (IH i H). lia.
Qed.

(** Events of the pipeline's own goroutines. *)
Definition internal (ev : event) : Prop :=
  match ev with EvRoute _ _ | EvRole _ => False | _ => True end.

Lemma internal_accepted key tr : Forall internal tr → accepted key tr = [].
Proof. induction 1 as [|ev tr Hev _ IH]; [done|]. unfold accepted in *. by destruct ev. Qed.

Lemma internal_routes tr tr' : Forall internal tr' → routes (tr ++ tr') = routes tr.
Proof.
  intros H. revert tr. induction H as [|ev tr' Hev _ IH]; intros tr; [by rewrite app_nil_r|].
  replace (tr ++ ev :: tr') with ((tr ++ [ev]) ++ tr') by (by rewrite <-app_assoc).
  rewrite IH, routes_snoc. by destruct ev; [|lia..|].
Qed.

Definition book_work (be : BookEngine.t) : Z :=
  10 * Size (BookEngine.inputRB be) + 9 * Z.of_nat (length (BookEngine.buf be)) +
  3 * Z.of_nat (length (BookEngine.sending be)).

Definition idle (be : BookEngine.t) : Prop :=
  Size (BookEngine.inputRB be) = 0 ∧ BookEngine.buf be = [] ∧ BookEngine.sending be = [].

Section drain.
Context {C D P : Type} `{!CandleTracker C, !PersistStore D, !Publisher P}.
Context (clock : string → Z → Z) (fresh : string → nat → string) (ptclock : nat → Z).
Context (st0 : State C D P).
Implicit Types st : State C D P.

Notation step := (step clock fresh ptclock).
Notation reach := (reach clock fresh ptclock st0).

Definition quiescent st : Prop :=
  map_Forall (λ _ be, idle be) (books (sup st)) ∧ outputCh (sup st) = [] ∧
  Forall (λ w, w = []) (workers st).

Definition work st : Z :=
  msum book_work (books (sup st)) + 2 * Z.of_nat (length (outputCh (sup st))) +
  sumZ (λ w, Z.of_nat (length w)) (workers st).

(** What the ring buffer holds, by the trace. *)
Lemma book_size tr out key be :
  book_ok clock st0 tr out key be → Z.of_nat (routes tr) < 2 ^ 64 →
  Size (BookEngine.inputRB be) = Z.of_nat (length (accepted key tr)) -
    Z.of_nat (length (handled key tr)) - Z.of_nat (length (BookEngine.buf be)).
Proof.
  intros [[k Hq] _ _ _] Hlen. pose proof (accepted_length key tr).
  pose proof (ok_write _ _ Hq) as Hw. pose proof (ok_read _ _ Hq) as Hr.
  pose proof (ok_size _ _ Hq) as Hs. pose proof (pow_bound k (ok_k _ _ Hq)).
  pose proof (prefix_length _ _ (queue_prefix _ _ _ _ Hq)) as Hp.
  cbn [ring pubs outs] in *. rewrite length_app, length_fmap in *. unfold Size.
  rewrite wrap64_id by (unfold int64, MinInt64, MaxInt64; lia). lia.
Qed.

Lemma book_work_nonneg tr s :
  books_ok clock st0 tr s → Z.of_nat (routes tr) < 2 ^ 64 →
  map_Forall (λ _ be, 0 ≤ book_work be) (books s).
Proof.
  intros Hok Hlen key be Hbe. specialize (Hok key). rewrite Hbe in Hok.
  unfold book_work. rewrite (book_size _ _ _ _ Hok Hlen).
  destruct Hok as [[k Hq] _ _ _].
  pose proof (prefix_length _ _ (queue_prefix _ _ _ _ Hq)) as Hp.
  rewrite length_app, length_fmap in Hp. lia.
Qed.

Lemma work_nonneg tr st :
  books_ok clock st0 tr (sup st) → Z.of_nat (routes tr) < 2 ^ 64 → 0 ≤ work st.
Proof.
  intros Hok Hlen. unfold work.
  pose proof (msum_nonneg book_work _ (book_work_nonneg _ _ Hok Hlen)).
  pose proof (sumZ_nonneg (λ w : list MR, Z.of_nat (length w)) (workers st)) as Hw.
  assert (Forall (λ w : list MR, 0 ≤ Z.of_nat (length w)) (workers st))
    by (apply Forall_true; intros; lia). specialize (Hw ltac:(done)). lia.
Qed.

(** A worker with something queued can flush; the channel's head can be taken when
    the workers are empty. *)
Lemma progress_workers st :
  ¬ Forall (λ w, w = []) (workers st) →
  ∃ ev st', step st ev st' ∧ internal ev ∧ work st' < work st.
Proof.
  intros Hn. destruct (list_find (λ w : list MR, w ≠ []) (workers st)) as [[i w]|] eqn:E.
  2:{ apply list_find_None in E. exfalso. apply Hn. eapply Forall_impl; [exact E|].
      intros w Hw. by apply dec_stable. }
  apply list_find_Some in E as (Hi & Hw & _).
  set (n := Nat.min (length w) 128).
  assert (1 ≤ n ≤ length w)%nat as Hl by (destruct w; [done|subst n; simpl length; lia]).
  destruct (ProcessBatch fresh ptclock (pt st) (convertResult <$> take n w)) as [pt' err] eqn:Ep.
  eexists _, _. split; [apply (step_process clock fresh ptclock st i w n pt' err)|].
  - done.
  - done.
  - unfold dispatchBatchMax. lia.
  - done.
  - split; [done|]. unfold work. cbn [sup workers].
    rewrite (sumZ_insert _ _ _ _ _ Hi), length_drop. lia.
Qed.

Lemma progress_channel st :
  length (workers st) = Z.to_nat dispatchWorkers → Forall (λ w, w = []) (workers st) →
  outputCh (sup st) ≠ [] → ∃ ev st', step st ev st' ∧ internal ev ∧ work st' < work st.
Proof.
  intros Hl Hw Ho. destruct (outputCh (sup st)) as [|mr rest] eqn:E; [done|].
  destruct (mode (node st)) eqn:Em.
  - destruct (lookup_lt_is_Some_2 (workers st) (Z.to_nat (worker_of (mr_key mr)))) as [w Hi].
    { rewrite Hl. pose proof (Z.rem_bound_pos (fnvHash (mr_key mr)) dispatchWorkers).
      assert (0 ≤ fnvHash (mr_key mr)) by (apply Z.land_nonneg; right; lia).
      unfold worker_of, dispatchWorkers in *. lia. }
    assert (w = []) as -> by (rewrite Forall_lookup in Hw; by apply (Hw _ _ Hi)).
    eexists _, _. split; [eapply step_dispatch; [exact E|done|exact Hi|done]|]. split; [done|].
    unfold work. cbn [sup workers books outputCh]. rewrite (sumZ_insert _ _ _ _ _ Hi), E. simpl. lia.
  - eexists _, _. split; [by eapply step_shadow|]. split; [done|].
    unfold work. cbn [sup workers books outputCh set_sup]. rewrite E. simpl. lia.
Qed.

(** A book engine that is not idle can take its next step. *)
Lemma progress_book tr st key be :
  books_ok clock st0 tr (sup st) → engines_ok (sup st) → routed_ok tr →
  Z.of_nat (routes tr) < 2 ^ 64 → outputCh (sup st) = [] →
  books (sup st) !! key = Some be → ¬ idle be →
  ∃ ev st', step st ev st' ∧ internal ev ∧ work st' < work st.
Proof.
  intros Hok [He Hu] Hr Hlen Ho Hbe Hidle. pose proof (Hok key) as Hb. rewrite Hbe in Hb.
  destruct (BookEngine.sending be) as [|mr rest] eqn:Es.
  2:{ eexists _, _. split; [eapply step_send; [exact Hbe|exact Es|]|].
      { rewrite Ho. by unfold outputChSize. }
      split; [done|]. unfold work. cbn [sup set_sup books outputCh workers].
      rewrite (msum_update _ _ _ _ _ Hbe), Ho. unfold book_work.
      cbn [after_send BookEngine.inputRB BookEngine.buf BookEngine.sending]. rewrite Es. simpl length. lia. }
  destruct (BookEngine.buf be) as [|cmd rest] eqn:Eb.
  - destruct (drain_total clock st0 tr (sup st) key be 0 Hok Hbe Eb Es Hlen) as (be' & Ed & Hok' & Hemp).
    eexists _, _. split; [by eapply step_drain|]. split; [done|].
    unfold work. cbn [sup set_sup put_book books outputCh workers].
    rewrite (msum_update _ _ _ _ _ Hbe). unfold book_work.
    pose proof (Hok' key) as Hb'. cbn [put_book books outputCh] in Hb'. rewrite lookup_insert_eq in Hb'.
    rewrite (book_size _ _ _ _ Hb Hlen), (book_size _ _ _ _ Hb') by (by rewrite routes_snoc, Nat.add_0_r).
    rewrite accepted_snoc, handled_snoc, Es, Eb. cbn [accepted handled omap list_omap].
    rewrite !app_nil_r.
    assert (BookEngine.sending be' = []) as ->.
    { unfold drain in Ed. destruct (DrainTo _ _ _) as [[rb items]|]; [|done]. rewrite Some_bind in Ed.
      injection Ed as <-. by destruct items. }
    destruct (BookEngine.buf be') as [|c l] eqn:Eb'; [|simpl length; lia].
    exfalso. apply Hidle. split; [|done]. rewrite (book_size _ _ _ _ Hb Hlen), Eb.
    rewrite <-(Hemp eq_refl), length_fmap. simpl. lia.
  - pose proof (buf_cmd_ok clock st0 tr _ _ _ Hok Hr Hbe) as Hc. rewrite Eb in Hc.
    apply Forall_cons in Hc as [Hc _].
    destruct (handle_total (clock key) (epoch (node st)) (BookEngine.nowMillis be) 0
      (SetSequence (BookEngine.eng be) (sequence (sup st))) cmd) as (e & rs & Eh & _ & Hrs);
      [apply SetSequence_inv; [apply (He _ _ Hbe)|done]|done|].
    eexists _, _. split.
    { apply (step_handle clock fresh ptclock st key be cmd rest
        (mkHandling cmd (sequence (sup st)) (epoch (node st)) (BookEngine.nowMillis be) 0) e rs); done. }
    split; [done|]. unfold work. cbn [sup set_sup books outputCh workers].
    rewrite (msum_update _ _ _ _ _ Hbe). unfold book_work.
    cbn [after_handle BookEngine.inputRB BookEngine.buf BookEngine.sending]. rewrite Es, Eb.
    simpl length. lia.
Qed.

Lemma progress tr st :
  books_ok clock st0 tr (sup st) → workers_ok tr (workers st) → engines_ok (sup st) → routed_ok tr →
  Z.of_nat (routes tr) < 2 ^ 64 →
  quiescent st ∨ ∃ ev st', step st ev st' ∧ internal ev ∧ work st' < work st.
Proof.
  intros Hok Hwo He Hr Hlen.
  destruct (decide (Forall (λ w, w = []) (workers st))) as [Hw|Hw]; [|right; by apply progress_workers].
  destruct (decide (outputCh (sup st) = [])) as [Ho|Ho].
  2:{ right. apply progress_channel; [apply (wo_length _ _ Hwo)|done|done]. }
  destruct (decide (map_Forall (λ _ be, idle be) (books (sup st)))) as [Hb|Hb]; [by left|].
  right. apply map_not_Forall in Hb as (key & be & Hbe & Hn); [|apply _].
  by eapply progress_book.
Qed.

Lemma drains tr st :
  booted st0 → reach tr st → Z.of_nat (routes tr) < 2 ^ 64 → routed_ok tr →
  ∃ tr' st', reach (tr ++ tr') st' ∧ Forall internal tr' ∧ quiescent st'.
Proof.
  intros Hboot. pose proof (booted_ok _ Hboot) as [Hi _].
  assert (∀ n : nat, ∀ tr st, work st < Z.of_nat n → reach tr st → Z.of_nat (routes tr) < 2 ^ 64 →
    routed_ok tr → ∃ tr' st', reach (tr ++ tr') st' ∧ Forall internal tr' ∧ quiescent st') as H.
  2:{ intros Hreach Hlen Hr.
      destruct (reach_ok clock fresh ptclock st0 tr st Hi Hreach Hlen) as [Hok _].
      pose proof (work_nonneg tr st Hok Hlen). apply (H (S (Z.to_nat (work st))) tr st); [lia|done..]. }
  clear tr st. induction n as [|n IH]; intros tr st Hn Hreach Hlen Hr;
    destruct (reach_ok clock fresh ptclock st0 tr st Hi Hreach Hlen) as [Hok Hwo].
  { pose proof (work_nonneg tr st Hok Hlen). lia. }
  pose proof (reach_engines_ok clock fresh ptclock st0 tr st Hboot Hreach Hlen Hr) as He.
  destruct (progress tr st Hok Hwo He Hr Hlen) as [Hq|(ev & st' & Hs & Hint & Hlt)].
  { exists [], st. by rewrite app_nil_r. }
  assert (routes (tr ++ [ev]) = routes tr) as Er by (rewrite routes_snoc; destruct ev; done || lia).
  destruct (IH (tr ++ [ev]) st') as (tr' & st'' & Hreach' & Hint' & Hq); [lia|by econstructor|lia|..].
  { apply Forall_app. split; [done|]. constructor; [by destruct ev|constructor]. }
  exists (ev :: tr'), st''. split; [by rewrite <-app_assoc in Hreach'|]. split; [by constructor|done].
Qed.

End drain.

(** ** The theorems at work: one command routed to a new book *)

Definition pipe_clock (key : string) (n : Z) : Z := 1000 + n.
Definition pipe_cmd : MatchCommand.t := CommandFromKafka sample_command.
Definition pipe_start : State CandleBook SQLStore (list BatchItem) :=
  mkState NewBookSupervisor (mkNode RolePrimary 1 DispatchModeActive)
    (replicate (Z.to_nat dispatchWorkers) []) (demo_service (λ _, None)).
Definition pipe_routed : State CandleBook SQLStore (list BatchItem) :=
  set_sup pipe_start (from_option fst NewBookSupervisor (Route NewBookSupervisor pipe_cmd)).

Lemma pipe_booted : booted pipe_start.
Proof.
  exists 0, [], NewBookSupervisor, (mkNode RolePrimary 1 DispatchModeActive), (demo_service (λ _, None)).
  split; [by vm_compute|]. split; [constructor|]. by split.
Qed.

Lemma pipe_reach :
  reach pipe_clock demo_fresh (λ _, 9) pipe_start [EvRoute pipe_cmd true] pipe_routed.
Proof.
  apply (reach_step _ _ _ pipe_start [] pipe_start); [constructor|].
  apply step_route. unfold pipe_start. cbn [sup].
  assert (∃ s, Route NewBookSupervisor pipe_cmd = Some (s, true)) as [s ->]; [|done].
  destruct (Route NewBookSupervisor pipe_cmd) as [[s b]|] eqn:E; [|by vm_compute in E].
  exists s. assert (b = true) as -> by (by vm_compute in E; injection E). done.
Qed.

Lemma pipe_routed_ok : routed_ok [EvRoute pipe_cmd true].
Proof. repeat constructor. by vm_compute. Qed.



Lemma pipeline_never_panics_witness :
  ∃ be, books (sup pipe_routed) !! "88:YES" = Some be ∧ engine_inv (BookEngine.eng be).
Proof.
  destruct (books (sup pipe_routed) !! "88:YES") as [be|] eqn:E; [|by vm_compute in E].
  exists be. split; [done|].
  destruct (pipeline_never_panics pipe_clock demo_fresh (λ _, 9) pipe_start [EvRoute pipe_cmd true]
    pipe_routed pipe_booted pipe_reach) as [_ Hall]; [done|apply pipe_routed_ok|].
  apply (Hall "88:YES" be E).
Defined.

(** ** What a restart and a failed publication lose *)

(** ** Trade identifiers start again *)

Lemma RestoreOrder_localSeq e o e' err :
  RestoreOrder e o = Some (e', err) → localSeq e' = localSeq e.
Proof.
  unfold RestoreOrder, getOrCreateBook. destruct o as [o|]; [|by intros [= <- _]].
  destruct (Order.Validate o); [|by intros [= <- _]]. case_match; [by intros [= <- _]|].
  destruct (Engine.books e !! Order.BookKey o) as [b|]; (case_match; [by intros [= <- _]|]);
    (destruct (AddOrder _ _) as [b'|]; [|done]); rewrite Some_bind; by intros [= <- _].
Qed.

Lemma restore_orders_localSeq e os e' err :
  restore_orders e os = Some (e', err) → localSeq e' = localSeq e.
Proof.
  revert e. induction os as [|o os IH]; intros e; cbn [restore_orders]; [by intros [= <- _]|].
  destruct (RestoreOrder e (Some o)) as [[e1 [er|]]|] eqn:E; rewrite ?Some_bind; [..|done].
  - intros [= <- _]. by apply RestoreOrder_localSeq in E.
  - intros H%IH. rewrite H. by apply RestoreOrder_localSeq in E.
Qed.

Lemma restore_books_localSeq s orders keys s' err :
  map_Forall (λ _ be, LocalSeq be = 0) (books s) →
  restore_books s orders keys = Some (s', err) → map_Forall (λ _ be, LocalSeq be = 0) (books s').
Proof.
  revert s. induction keys as [|key keys IH]; intros s Hs; cbn [restore_books]; [by intros [= <- _]|].
  destruct (getOrCreate s key) as [s1 be] eqn:Eg.
  assert (map_Forall (λ _ be, LocalSeq be = 0) (books s1) ∧ LocalSeq be = 0) as [Hs1 Hb].
  { unfold getOrCreate in Eg. destruct (books s !! key) as [b|] eqn:Eb; injection Eg as <- <-.
    - split; [done|]. apply (Hs _ _ Eb).
    - split; [|done]. by apply map_Forall_insert_2. }
  destruct (restore_orders _ _) as [[e er]|] eqn:E; [|done]. rewrite Some_bind.
  apply restore_orders_localSeq in E.
  assert (map_Forall (λ _ be, LocalSeq be = 0) (<[key := set_eng be e]> (books s1))) as Hi.
  { apply map_Forall_insert_2; [|done]. unfold LocalSeq in *. cbn. by rewrite E. }
  destruct er; [by intros [= <- _]|]. by apply IH.
Qed.

(** Whatever was matched before the restart and whatever sequence is restored, every
    book counts its trades from zero again, so the first trade of a book after a
    restart has the identifier [<book>:00000001] its first trade ever had; the
    account service takes that identifier for a trade it has already settled. *)
Lemma restart_restarts_trade_ids seq orders s err key be :
  Restore NewBookSupervisor seq orders = Some (s, err) → books s !! key = Some be →
  LocalSeq be = 0 ∧
  DeterministicTradeID key (LocalSeq be + 1) = key +:+ ":00000001".
Proof.
  intros HR Hbe. assert (LocalSeq be = 0) as ->; [|done].
  apply (restore_books_localSeq _ _ _ _ _ (map_Forall_empty _) HR key be Hbe).
Qed.

(** ** Events of a committed batch are not retried *)

Definition refusing_service : Service CandleBook SQLStore refusing :=
  mkService (mkRefusing []) (Some (mkStore empty_db true (demo_env (λ _, None)) 0))
    (mkBState 0 (Some (NewCandleBook 0 0))) DefaultSchedule.

(** The worker logs the error and drops the batch: the trade is in the database and
    its event, on which balances move, is never published. *)
Lemma failed_publish_is_lost :
  ∃ s' d', ProcessBatch demo_fresh (λ _, 9) refusing_service demo_results =
      (s', Some "broker unavailable") ∧
    store s' = Some d' ∧ is_Some (trades (db d') !! "trd_1") ∧ published (publisher s') = [].
Proof.
  destruct (ProcessBatch demo_fresh (λ _, 9) refusing_service demo_results) as [s' e] eqn:E.
  vm_compute in E. injection E as <- <-. eexists _, _. split; [done|]. split; [done|].
  split; [by eexists; vm_compute|done].
Qed.

(** ** A swept order is reported twice *)

(** [handleCancel] answers with the cancelled order both as the command's order and
    as an affected one: two order events for one cancellation. *)
Lemma cancel_reported_twice cmd o :
  OrderEvent.OrderID <$> orders_in
    (build_result demo_fresh (λ _, 9) DefaultSchedule
       (convertResult (Protocol.MatchResult.mk cmd (mkResult (Some o) [o] [] zero_snapshot) false 0))
       (mkBState (C := CandleBook) 0 None)).1 = [Order.OrderID o; Order.OrderID o].
Proof. done. Qed.

(** ** Where the store does not keep what it is given *)

Definition freeze_columns (d : DB) (id : string) : option (string * string * string * Z) :=
  (λ r, (OrderRow.command_id r, OrderRow.freeze_id r, OrderRow.freeze_asset r,
         OrderRow.freeze_amount r)) <$> orders d !! id.

(** A maker's update carries an empty freeze asset, which [normalizeAsset] turns
    into ["USDT"], so the [CASE WHEN EXCLUDED.freeze_asset <> ''] guard does not
    keep the stored one: the sell order's frozen position becomes frozen USDT. *)
Lemma maker_freeze_asset_overwritten :
  ∃ d1 d2, persist_each true each_fresh (λ _, 2) empty_db (take 1 sample_items) = Ok d1 ∧
    persist_each true each_fresh (λ _, 2) empty_db sample_items = Ok d2 ∧
    freeze_columns d1 "s1" = Some ("cmd_s1", "frz_1", "POSITION:88:YES", 10) ∧
    freeze_columns d2 "s1" = Some ("cmd_s1", "frz_1", "USDT", 10).
Proof. eexists _, _. split; [reflexivity|]. split; [reflexivity|]. by split. Qed.

(** In one batch the maker's row replaces the taker's row of the same order before
    anything is written, so the command and the freeze are never stored. *)
Lemma batch_drops_freeze :
  ∃ d, persist_batch true sample_fresh 2 empty_db sample_items = Ok d ∧
    freeze_columns d "s1" = Some ("", "", "USDT", 0).
Proof. eexists. split; [reflexivity|]. reflexivity. Qed.

(** Two sell orders at one price, sent 300 ms apart within one second: the second
    one's identifier sorts first, and it is restored first. *)
Definition early : Order.t :=
  Order.mk "ord_b" "" 1 88 "YES" OrderSideSell OrderTypeLimit TimeInForceGTC STPNone 40 10 0
    OrderStatusNew CancelReasonUnset 1100 1100.
Definition late : Order.t :=
  Order.mk "ord_a" "" 2 88 "YES" OrderSideSell OrderTypeLimit TimeInForceGTC STPNone 40 10 0
    OrderStatusNew CancelReasonUnset 1400 1400.

Lemma restart_swaps_priority :
  ∃ d, persist_each false each_fresh (λ _, 2) empty_db
         [(sample_cmd "ord_b" "f1" "P" 10 1 "SELL", mkResult (Some early) [] [] zero_snapshot);
          (sample_cmd "ord_a" "f2" "P" 10 2 "SELL", mkResult (Some late) [] [] zero_snapshot)] = Ok d ∧
    Order.OrderID <$> LoadRestingOrders String.le 9 d = ["ord_a"; "ord_b"].
Proof. eexists. split; [reflexivity|]. by vm_compute. Qed.

(** ** Journals that do not replay

    What the matching service writes to the journal, replayed as the rollup replays
    it. *)

(** The payload the replay reads back for one the matching service writes. *)
Definition read_back (p : JournalPayload) : option EntryPayload :=
  match p with
  | OrderAccepted p => Some (POrderAccepted p)
  | OrderCancelled p => Some (POrderCancelled p)
  | TradeMatched p => Some (PTradeMatched p)
  | OtherPayload _ => None
  end.

Fixpoint replay_written (s : shadowState) (sequence : Z) (es : list JournalAppend.t)
    : shadowState * option string :=
  match es with
  | [] => (s, None)
  | e :: es =>
      match read_back (JournalAppend.Payload e) with
      | None => (s, Some "json")
      | Some p =>
          match apply_payload s sequence p with
          | (s, Some err) => (s, Some err)
          | (s, None) => replay_written s (sequence + 1) es
          end
      end
  end.

(** The command an order came from. *)
Definition command_for (o : Order.t) (asset : string) (amount : Z) (side tif : string) : OrderCommand.t :=
  OrderCommand.mk ("cmd_" +:+ Order.OrderID o) "" (Order.OrderID o) "" "frz" asset amount "USDT"
    (Order.UserID o) (Order.MarketID o) (Order.Outcome o) "" side "LIMIT" tif "" (Order.Price o)
    (Order.Quantity o) 0.

(** The journal of a resting sell order and a buy order that meets it. *)
Definition sell_then_buy (buy : Order.t) (tif : string) : option (list string * option string) :=
  '(e1, r1, _) ← PlaceOrder demo_clock Engine.New (Some demo_ask1);
  '(_, r2, _) ← PlaceOrder demo_clock e1 (Some buy);
  let asset := PositionAsset (Order.MarketID demo_ask1) (Order.Outcome demo_ask1) in
  let written :=
    buildRollupEntries (command_for demo_ask1 asset (Order.Quantity demo_ask1) "SELL" "GTC") r1 ++
    buildRollupEntries
      (command_for buy "USDT" (Order.Price buy * Order.Quantity buy) "BUY" tif) r2 in
  Some (JournalAppend.EntryType <$> written, (replay_written emptyShadow 1 written).2).

(** A good-till-cancelled buy that takes the whole ask and rests with the remainder
    replays. *)
Example gtc_partial_fill_replays :
  sell_then_buy (demo_buy TimeInForceGTC 40 14) "GTC" =
  Some ([EntryTypeOrderAccepted; EntryTypeOrderAccepted; EntryTypeTradeMatched], None).
Proof. vm_compute. reflexivity. Qed.

(** The same buy as immediate-or-cancel is filled in part and its remainder cancelled.
    The cancellation is written before the trades, so the replay has forgotten the
    order when its trade arrives, and no batch from this entry on can be built. *)
Theorem ioc_partial_fill_breaks_replay :
  sell_then_buy (demo_buy TimeInForceIOC 40 14) "IOC" =
  Some ([EntryTypeOrderAccepted; EntryTypeOrderAccepted; EntryTypeOrderCancelled; EntryTypeTradeMatched],
        Some "rollup trade references unknown order: b1").
Proof. vm_compute. reflexivity. Qed.
