(* ===== verification/Account.v ===== *)
(** * Account service: the balance book

    [account/service/balance_book.go] and [account/model/balance.go].  A
    [BalanceBook] holds the mutable trading balances, the freeze records and the
    in-memory set of applied references, in front of an optional [BalanceStore].
    The store is a database: it appears here as a type class, one method per
    method of the Go interface that the book calls, each returning the new store
    state and what the call returned.

    Every operation changes memory under the lock, then persists without it, then
    undoes the change if persisting failed.  The model performs the three phases
    in this order on one state, which is what a caller observes when no other
    operation runs between them. *)

From S2P Require Import Prelude.

Local Open Scope Z_scope.
Local Open Scope go_scope.

Module Balance.
Record t := mk { UserID : Z; Asset : string; Available : Z; Frozen : Z }.
Definition Total (b : t) : Z := Available b ⊞ Frozen b.
Definition add (b : t) (available frozen : Z) : t :=
  mk (UserID b) (Asset b) (Available b ⊞ available) (Frozen b ⊞ frozen).
Definition zero : t := mk 0 "" 0 0.
End Balance.

Module FreezeRecord.
Record t := mk {
  FreezeID : string;
  UserID : Z;
  Asset : string;
  RefType : string;
  RefID : string;
  OriginalAmount : Z;
  Amount : Z;
  Released : bool;
  Consumed : bool;
}.
Definition set_amount (r : t) (amount : Z) (released consumed : bool) : t :=
  mk (FreezeID r) (UserID r) (Asset r) (RefType r) (RefID r) (OriginalAmount r) amount
     released consumed.
Definition active (r : t) : bool := negb (Released r || Consumed r).
End FreezeRecord.

Module FreezeRequest.
Record t := mk {
  FreezeID : string; UserID : Z; Asset : string; RefType : string; RefID : string; Amount : Z;
}.
End FreezeRequest.

(** [CreditRequest] and [DebitRequest] have the same fields. *)
Module CreditRequest.
Record t := mk { UserID : Z; Asset : string; Amount : Z; RefType : string; RefID : string }.
End CreditRequest.

Inductive AccountError :=
| ErrInvalidAsset
| ErrInvalidAmount
| ErrInsufficientBalance
| ErrFreezeNotFound
| ErrFreezeAlreadyClosed
| ErrFreezeAlreadyExists
| ErrReleaseExceedsFrozen
| ErrConsumeExceedsFrozen
| ErrStore (e : string).

#[global] Instance AccountError_eq_dec : EqDecision AccountError.
Proof. solve_decision. Defined.

(** The [BalanceStore] interface. *)
Class BalanceStore (S : Type) := {
  UpsertBalance : S → Balance.t → S * option string;
  UpsertBalanceAndFreeze : S → Balance.t → FreezeRecord.t → S * option string;
  ApplyCreditEvent : S → CreditRequest.t → S * result AccountError (Balance.t * bool);
  ApplyDebitEvent : S → CreditRequest.t → S * result AccountError (Balance.t * bool);
}.

Definition normalizeAsset (asset : string) : string := normalize_upper asset.
Definition balanceKey (userID : Z) (asset : string) : string :=
  itoa userID +:+ ":" +:+ normalizeAsset asset.

Section book.
Context {S : Type} `{!BalanceStore S}.

Record BalanceBook := mkBook {
  balances : gmap string Balance.t;
  freezes : gmap string FreezeRecord.t;
  processedRefs : gset string;
  store : option S;
}.

Definition NewBalanceBook : BalanceBook := mkBook ∅ ∅ ∅ None.
Definition NewBalanceBookWithStore (s : S) : BalanceBook := mkBook ∅ ∅ ∅ (Some s).

Definition set_balances (b : BalanceBook) (m : gmap string Balance.t) : BalanceBook :=
  mkBook m (freezes b) (processedRefs b) (store b).
Definition set_freezes (b : BalanceBook) (m : gmap string FreezeRecord.t) : BalanceBook :=
  mkBook (balances b) m (processedRefs b) (store b).
Definition set_store (b : BalanceBook) (s : S) : BalanceBook :=
  mkBook (balances b) (freezes b) (processedRefs b) (Some s).
Definition mark_ref (b : BalanceBook) (ref : string) : BalanceBook :=
  mkBook (balances b) (freezes b) ({[ref]} ∪ processedRefs b) (store b).

Definition persistBalance (b : BalanceBook) (balance : Balance.t)
    : BalanceBook * option AccountError :=
  match store b with
  | None => (b, None)
  | Some s => let '(s, err) := UpsertBalance s balance in (set_store b s, ErrStore <$> err)
  end.

Definition persistBalanceAndFreeze (b : BalanceBook) (balance : Balance.t)
    (freeze : FreezeRecord.t) : BalanceBook * option AccountError :=
  match store b with
  | None => (b, None)
  | Some s =>
      let '(s, err) := UpsertBalanceAndFreeze s balance freeze in
      (set_store b s, ErrStore <$> err)
  end.

Definition SeedBalance (b : BalanceBook) (userID : Z) (asset : string) (available : Z)
    : BalanceBook :=
  let balance := Balance.mk userID (normalizeAsset asset) available 0 in
  fst (persistBalance
    (set_balances b (<[balanceKey userID asset := balance]> (balances b))) balance).

(** The entry of a balance, created with zero amounts when missing. *)
Definition ensureBalance (b : BalanceBook) (userID : Z) (asset : string)
    : BalanceBook * Balance.t :=
  let key := balanceKey userID asset in
  match balances b !! key with
  | Some balance => (b, balance)
  | None =>
      let balance := Balance.mk userID (normalizeAsset asset) 0 0 in
      (set_balances b (<[key := balance]> (balances b)), balance)
  end.

(** [fresh] is the identifier [sharedkafka.NewID] draws when none is given. *)
Definition PreFreeze (b : BalanceBook) (fresh : string) (req : FreezeRequest.t)
    : BalanceBook * result AccountError FreezeRecord.t :=
  let userID := FreezeRequest.UserID req in
  let asset := FreezeRequest.Asset req in
  let amount := FreezeRequest.Amount req in
  if userID <=? 0 then (b, Err ErrInvalidAmount)
  else if amount <=? 0 then (b, Err ErrInvalidAmount)
  else if String.eqb (normalizeAsset asset) "" then (b, Err ErrInvalidAsset)
  else
    let '(b, balance) := ensureBalance b userID asset in
    if Balance.Available balance <? amount then (b, Err ErrInsufficientBalance)
    else
      let trimmed := TrimSpace (FreezeRequest.FreezeID req) in
      let freezeID := if String.eqb trimmed "" then fresh else trimmed in
      match freezes b !! freezeID with
      | Some _ => (b, Err ErrFreezeAlreadyExists)
      | None =>
          let key := balanceKey userID asset in
          let balance' := Balance.add balance (- amount) amount in
          let record := FreezeRecord.mk freezeID userID (normalizeAsset asset)
            (FreezeRequest.RefType req) (FreezeRequest.RefID req) amount amount false false in
          let b := set_freezes (set_balances b (<[key := balance']> (balances b)))
                     (<[freezeID := record]> (freezes b)) in
          match persistBalanceAndFreeze b balance' record with
          | (b, None) => (b, Ok record)
          | (b, Some err) =>
              (set_freezes
                 (set_balances b
                    (alter (λ x, Balance.add x amount (- amount)) key (balances b)))
                 (delete freezeID (freezes b)), Err err)
          end
      end.

Definition ApplyExternalFreeze (b : BalanceBook) (fresh : string) (req : FreezeRequest.t)
    : BalanceBook * result AccountError FreezeRecord.t :=
  if String.eqb (TrimSpace (FreezeRequest.FreezeID req)) "" then (b, Err ErrFreezeNotFound)
  else PreFreeze b fresh req.

Definition getActiveFreezeLocked (b : BalanceBook) (freezeID : string)
    : result AccountError (FreezeRecord.t * Balance.t) :=
  match freezes b !! freezeID with
  | None => Err ErrFreezeNotFound
  | Some record =>
      if FreezeRecord.Released record || FreezeRecord.Consumed record
      then Err ErrFreezeAlreadyClosed
      else
        match balances b !! balanceKey (FreezeRecord.UserID record) (FreezeRecord.Asset record) with
        | None => Err ErrFreezeNotFound
        | Some balance => Ok (record, balance)
        end
  end.

(** The common tail of the freeze operations: store both objects, persist, and
    put the old objects back when persisting fails. *)
Definition commit_freeze (b : BalanceBook) (freezeID : string) (record : FreezeRecord.t)
    (balance : Balance.t) (record' : FreezeRecord.t) (balance' : Balance.t)
    : BalanceBook * option AccountError :=
  let key := balanceKey (FreezeRecord.UserID record) (FreezeRecord.Asset record) in
  let b := set_freezes (set_balances b (<[key := balance']> (balances b)))
             (<[freezeID := record']> (freezes b)) in
  match persistBalanceAndFreeze b balance' record' with
  | (b, None) => (b, None)
  | (b, Some err) =>
      (set_freezes (set_balances b (<[key := balance]> (balances b)))
         (<[freezeID := record]> (freezes b)), Some err)
  end.

Definition ReleaseFreeze (b : BalanceBook) (freezeID : string) : BalanceBook * option AccountError :=
  match getActiveFreezeLocked b freezeID with
  | Err err => (b, Some err)
  | Ok (record, balance) =>
      let amount := FreezeRecord.Amount record in
      commit_freeze b freezeID record balance
        (FreezeRecord.set_amount record 0 true (FreezeRecord.Consumed record))
        (Balance.add balance amount (- amount))
  end.

Definition ReleaseFreezeAmount (b : BalanceBook) (freezeID : string) (amount : Z)
    : BalanceBook * option AccountError :=
  if amount <=? 0 then (b, Some ErrInvalidAmount)
  else
    match getActiveFreezeLocked b freezeID with
    | Err err => (b, Some err)
    | Ok (record, balance) =>
        if FreezeRecord.Amount record <? amount then (b, Some ErrReleaseExceedsFrozen)
        else
          let left := FreezeRecord.Amount record ⊟ amount in
          commit_freeze b freezeID record balance
            (FreezeRecord.set_amount record left
               (if left =? 0 then true else FreezeRecord.Released record)
               (FreezeRecord.Consumed record))
            (Balance.add balance amount (- amount))
    end.

Definition ConsumeFreeze (b : BalanceBook) (freezeID : string) (amount : Z)
    : BalanceBook * option AccountError :=
  if amount <=? 0 then (b, Some ErrInvalidAmount)
  else
    match getActiveFreezeLocked b freezeID with
    | Err err => (b, Some err)
    | Ok (record, balance) =>
        if FreezeRecord.Amount record <? amount then (b, Some ErrConsumeExceedsFrozen)
        else
          let left := FreezeRecord.Amount record ⊟ amount in
          commit_freeze b freezeID record balance
            (FreezeRecord.set_amount record left (FreezeRecord.Released record)
               (if left =? 0 then true else FreezeRecord.Consumed record))
            (Balance.add balance 0 (- amount))
    end.

Definition GetBalance (b : BalanceBook) (userID : Z) (asset : string) : Balance.t :=
  default (Balance.mk userID (normalizeAsset asset) 0 0) (balances b !! balanceKey userID asset).

(** Adds [delta] to an available balance, persists, undoes it on failure. *)
Definition commit_available (b : BalanceBook) (key : string) (balance : Balance.t) (delta : Z)
    : BalanceBook * option AccountError :=
  let balance' := Balance.add balance delta 0 in
  match persistBalance (set_balances b (<[key := balance']> (balances b))) balance' with
  | (b, None) => (b, None)
  | (b, Some err) =>
      (set_balances b (alter (λ x, Balance.add x (- delta) 0) key (balances b)), Some err)
  end.

Definition CreditAvailable (b : BalanceBook) (userID : Z) (asset : string) (amount : Z)
    : BalanceBook * option AccountError :=
  if (userID <=? 0) || (amount <=? 0) then (b, Some ErrInvalidAmount)
  else if String.eqb (normalizeAsset asset) "" then (b, Some ErrInvalidAsset)
  else
    let '(b, balance) := ensureBalance b userID asset in
    commit_available b (balanceKey userID asset) balance amount.

Definition DebitAvailable (b : BalanceBook) (userID : Z) (asset : string) (amount : Z)
    : BalanceBook * option AccountError :=
  if (userID <=? 0) || (amount <=? 0) then (b, Some ErrInvalidAmount)
  else if String.eqb (normalizeAsset asset) "" then (b, Some ErrInvalidAsset)
  else
    match balances b !! balanceKey userID asset with
    | None => (b, Some ErrInsufficientBalance)
    | Some balance =>
        if Balance.Available balance <? amount then (b, Some ErrInsufficientBalance)
        else commit_available b (balanceKey userID asset) balance (- amount)
    end.

Definition ref_key (req : CreditRequest.t) : string :=
  normalize_upper (CreditRequest.RefType req) +:+ ":" +:+ TrimSpace (CreditRequest.RefID req).

Definition normalized_request (req : CreditRequest.t) : CreditRequest.t :=
  CreditRequest.mk (CreditRequest.UserID req) (normalizeAsset (CreditRequest.Asset req))
    (CreditRequest.Amount req) (normalize_upper (CreditRequest.RefType req))
    (TrimSpace (CreditRequest.RefID req)).

(** The two [WithRef] operations differ only in the store method and in the
    in-memory operation they use. *)
Definition apply_with_ref (remote : S → CreditRequest.t → S * result AccountError (Balance.t * bool))
    (local : BalanceBook → Z → string → Z → BalanceBook * option AccountError)
    (b : BalanceBook) (req : CreditRequest.t)
    : BalanceBook * result AccountError (Balance.t * bool) :=
  let userID := CreditRequest.UserID req in
  let asset := CreditRequest.Asset req in
  let amount := CreditRequest.Amount req in
  if (userID <=? 0) || (amount <=? 0) then (b, Err ErrInvalidAmount)
  else if String.eqb (normalizeAsset asset) "" then (b, Err ErrInvalidAsset)
  else if String.eqb (TrimSpace (CreditRequest.RefType req)) "" ||
          String.eqb (TrimSpace (CreditRequest.RefID req)) "" then (b, Err ErrInvalidAmount)
  else
    match store b with
    | Some s =>
        match remote s (normalized_request req) with
        | (s, Err e) => (set_store b s, Err e)
        | (s, Ok (balance, applied)) =>
            let b := set_store b s in
            (set_balances b
               (<[balanceKey (Balance.UserID balance) (Balance.Asset balance) := balance]>
                  (balances b)), Ok (balance, applied))
        end
    | None =>
        if bool_decide (ref_key req ∈ processedRefs b)
        then (b, Ok (GetBalance b userID asset, false))
        else
          match local b userID asset amount with
          | (b, Some err) => (b, Err err)
          | (b, None) =>
              let b := mark_ref b (ref_key req) in (b, Ok (GetBalance b userID asset, true))
          end
    end.

Definition CreditAvailableWithRef (b : BalanceBook) (req : CreditRequest.t)
    : BalanceBook * result AccountError (Balance.t * bool) :=
  apply_with_ref ApplyCreditEvent CreditAvailable b req.

Definition DebitAvailableWithRef (b : BalanceBook) (req : CreditRequest.t)
    : BalanceBook * result AccountError (Balance.t * bool) :=
  apply_with_ref ApplyDebitEvent DebitAvailable b req.

Definition OutstandingFrozen (b : BalanceBook) (asset : string) : Z :=
  map_fold (λ _ record total,
    if negb (String.eqb (FreezeRecord.Asset record) (normalizeAsset asset)) then total
    else if FreezeRecord.Released record || FreezeRecord.Consumed record then total
    else total ⊞ FreezeRecord.Amount record) 0 (freezes b).

Definition FreezeAmount (b : BalanceBook) (freezeID : string) : option Z :=
  match freezes b !! freezeID with
  | None => None
  | Some record =>
      if FreezeRecord.Released record || FreezeRecord.Consumed record then Some 0
      else Some (FreezeRecord.Amount record)
  end.

Definition Hydrate (b : BalanceBook) (bs : list Balance.t) (fs : list FreezeRecord.t)
    : BalanceBook :=
  let add_balance (m : gmap string Balance.t) (item : Balance.t) :=
    let balance := Balance.mk (Balance.UserID item) (normalizeAsset (Balance.Asset item))
                     (Balance.Available item) (Balance.Frozen item) in
    <[balanceKey (Balance.UserID balance) (Balance.Asset balance) := balance]> m in
  let add_freeze (m : gmap string FreezeRecord.t) (item : FreezeRecord.t) :=
    let record := FreezeRecord.mk (FreezeRecord.FreezeID item) (FreezeRecord.UserID item)
      (normalizeAsset (FreezeRecord.Asset item)) (FreezeRecord.RefType item)
      (FreezeRecord.RefID item) (FreezeRecord.OriginalAmount item) (FreezeRecord.Amount item)
      (FreezeRecord.Released item) (FreezeRecord.Consumed item) in
    <[FreezeRecord.FreezeID record := record]> m in
  mkBook (fold_left add_balance bs ∅) (fold_left add_freeze fs ∅) (processedRefs b) (store b).

Definition BalanceCount (b : BalanceBook) : Z := Z.of_nat (size (balances b)).
End book.

Arguments BalanceBook S : clear implicits.
