(* ===== verification/AccountInv.v ===== *)
(** * Account service: solvency of the balance book

    The invariant that ties frozen balances to freeze records, its preservation
    by every operation whatever the store answers, exact undo when persisting
    fails, conservation of totals, and exactly-once credits. *)

From S2P Require Import Prelude Strings Account.

Local Open Scope Z_scope.
Local Open Scope go_scope.

Section inv.
Context {S : Type} `{!BalanceStore S}.
Implicit Types b : BalanceBook S.

Definition freeze_key (r : FreezeRecord.t) : string :=
  balanceKey (FreezeRecord.UserID r) (FreezeRecord.Asset r).

(** The amount frozen for one balance according to the freeze records. *)
Definition frozen_for (k : string) (r : FreezeRecord.t) : Z :=
  if String.eqb (freeze_key r) k then FreezeRecord.Amount r else 0.

Definition frozen_at b (k : string) : Z := default 0 (Balance.Frozen <$> balances b !! k).

Definition balance_ok (x : Balance.t) : Prop :=
  0 ≤ Balance.Available x ∧ 0 ≤ Balance.Frozen x ∧
  Balance.Available x + Balance.Frozen x ≤ MaxInt64.

Definition freeze_ok (id : string) (r : FreezeRecord.t) : Prop :=
  FreezeRecord.FreezeID r = id ∧ 0 ≤ FreezeRecord.Amount r ∧
  (FreezeRecord.active r = false → FreezeRecord.Amount r = 0).

Record book_ok b : Prop := {
  ok_balances : map_Forall (λ _ x, balance_ok x) (balances b);
  ok_freezes : map_Forall freeze_ok (freezes b);
  ok_frozen : ∀ k, frozen_at b k = msum (frozen_for k) (freezes b);
}.

Lemma balanceKey_normalize u a : balanceKey u (normalizeAsset a) = balanceKey u a.
Proof. unfold balanceKey, normalizeAsset. by rewrite normalize_upper_idem. Qed.

Lemma NewBalanceBook_ok : book_ok NewBalanceBook.
Proof. split; [done|done|]. intros k. unfold frozen_at. simpl. by rewrite msum_empty. Qed.

(** ** Arithmetic of one balance *)

Lemma add_exact x a f :
  int64 (Balance.Available x + a) → int64 (Balance.Frozen x + f) →
  Balance.Available (Balance.add x a f) = Balance.Available x + a ∧
  Balance.Frozen (Balance.add x a f) = Balance.Frozen x + f.
Proof. intros H1 H2. simpl. by rewrite !wrap64_id. Qed.

Lemma add_undo x a f :
  int64 (Balance.Available x) → int64 (Balance.Frozen x) →
  Balance.add (Balance.add x a f) (- a) (- f) = x.
Proof.
  destruct x as [u s av fr]. unfold Balance.add. simpl. intros H1 H2.
  rewrite !wrap64_add_l. replace (av + a + - a) with av by lia.
  replace (fr + f + - f) with fr by lia. by rewrite !wrap64_id.
Qed.

Lemma balance_ok_int64 x :
  balance_ok x → int64 (Balance.Available x) ∧ int64 (Balance.Frozen x).
Proof. unfold balance_ok, int64, MinInt64, MaxInt64. lia. Qed.

(** ** What persisting does: only the store changes *)

Lemma persistBalance_spec b x :
  let '(b', err) := persistBalance b x in
  balances b' = balances b ∧ freezes b' = freezes b ∧ processedRefs b' = processedRefs b.
Proof. unfold persistBalance. destruct (store b); [|done]. by destruct (UpsertBalance _ _). Qed.

Lemma persistBalanceAndFreeze_spec b x r :
  let '(b', err) := persistBalanceAndFreeze b x r in
  balances b' = balances b ∧ freezes b' = freezes b ∧ processedRefs b' = processedRefs b.
Proof.
  unfold persistBalanceAndFreeze. destruct (store b); [|done].
  by destruct (UpsertBalanceAndFreeze _ _ _).
Qed.

(** The memory of a book, without its store. *)
Definition same_memory b b' : Prop :=
  balances b' = balances b ∧ freezes b' = freezes b ∧ processedRefs b' = processedRefs b.

Lemma book_ok_memory b b' :
  balances b' = balances b → freezes b' = freezes b → book_ok b → book_ok b'.
Proof.
  intros E1 E2 [H1 H2 H3]. split; rewrite ?E1, ?E2; [done|done|].
  intros k. unfold frozen_at. rewrite E1. apply H3.
Qed.

(** ** Changing one balance and one freeze *)

Lemma frozen_at_insert b k x k' fs :
  frozen_at (mkBook (<[k := x]> (balances b)) fs (processedRefs b) (store b)) k' =
    if decide (k' = k) then Balance.Frozen x else frozen_at b k'.
Proof.
  unfold frozen_at. cbn [balances]. case_decide as E.
  - by rewrite E, lookup_insert_eq.
  - by rewrite lookup_insert_ne.
Qed.

Lemma eqb_key_decide r k : frozen_for k r = if decide (k = freeze_key r) then FreezeRecord.Amount r else 0.
Proof.
  unfold frozen_for. destruct (String.eqb_spec (freeze_key r) k); case_decide; congruence.
Qed.

(** Replacing a freeze record and its balance together keeps the invariant when
    the two frozen amounts move by the same quantity. *)
Lemma book_ok_update b id r r' x x' :
  book_ok b → freezes b !! id = Some r → balances b !! freeze_key r = Some x →
  freeze_key r' = freeze_key r → freeze_ok id r' → balance_ok x' →
  Balance.Frozen x' - Balance.Frozen x = FreezeRecord.Amount r' - FreezeRecord.Amount r →
  book_ok (mkBook (<[freeze_key r := x']> (balances b)) (<[id := r']> (freezes b))
             (processedRefs b) (store b)).
Proof.
  intros [H1 H2 H3] Hr Hx Hk Hr' Hx' Hd. split; cbn [balances freezes].
  - by apply map_Forall_insert_2.
  - by apply map_Forall_insert_2.
  - intros k. rewrite frozen_at_insert, (msum_update _ _ _ r) by done.
    rewrite !eqb_key_decide, Hk. specialize (H3 k). case_decide as E; [|lia].
    subst k. unfold frozen_at in H3. rewrite Hx in H3. simpl in H3. lia.
Qed.

Lemma ensureBalance_spec b u a :
  book_ok b →
  ∃ b' x, ensureBalance b u a = (b', x) ∧ book_ok b' ∧ balance_ok x ∧
    balances b' !! balanceKey u a = Some x ∧
    balances b' = <[balanceKey u a := x]> (balances b) ∧ freezes b' = freezes b ∧
    processedRefs b' = processedRefs b ∧ store b' = store b ∧
    x = GetBalance b u a.
Proof.
  intros Hb. unfold ensureBalance, GetBalance.
  destruct (balances b !! balanceKey u a) as [x|] eqn:Ex.
  - exists b, x. split_and!; try done; [by apply (ok_balances _ Hb _ _ Ex)|].
    by rewrite insert_id.
  - eexists _, _. split; [done|]. destruct Hb as [H1 H2 H3].
    assert (balance_ok (Balance.mk u (normalizeAsset a) 0 0)) as Hx
      by (unfold balance_ok, MaxInt64; simpl; lia).
    split_and!; try done; [split|]; cbn [balances freezes].
    + by apply map_Forall_insert_2.
    + done.
    + intros k. unfold set_balances. rewrite frozen_at_insert. case_decide as E; [|apply H3].
      specialize (H3 k). subst k. unfold frozen_at in H3. rewrite Ex in H3. exact H3.
    + apply lookup_insert_eq.
Qed.

(** Total money of a book under one key. *)
Definition total_at b (k : string) : Z :=
  default 0 ((λ x, Balance.Available x + Balance.Frozen x) <$> balances b !! k).

Lemma total_at_lookup b k x :
  balances b !! k = Some x → total_at b k = Balance.Available x + Balance.Frozen x.
Proof. intros H. unfold total_at. by rewrite H. Qed.

Lemma total_at_insert b k x k' fs refs st :
  total_at (mkBook (<[k := x]> (balances b)) fs refs st) k' =
    if decide (k' = k) then Balance.Available x + Balance.Frozen x else total_at b k'.
Proof.
  unfold total_at. cbn [balances]. case_decide as E.
  - by rewrite E, lookup_insert_eq.
  - by rewrite lookup_insert_ne.
Qed.

(** ** Observational equality

    Two books are equal to a client when they answer every query alike; an entry
    with zero amounts and a missing entry cannot be told apart. *)
Record obs_eq b b' : Prop := {
  obs_balance : ∀ u a, GetBalance b' u a = GetBalance b u a;
  obs_freezes : freezes b' = freezes b;
  obs_refs : processedRefs b' = processedRefs b;
}.

#[global] Instance obs_eq_equivalence : Equivalence obs_eq.
Proof.
  split.
  - by split.
  - intros b b' [H1 H2 H3]. by split.
  - intros b b' b'' [H1 H2 H3] [H4 H5 H6]. split; [|congruence..]. intros u a. by rewrite H4.
Qed.

#[global] Instance GetBalance_proper : Proper (obs_eq ==> eq ==> eq ==> eq) GetBalance.
Proof. intros b b' [H _ _] u ? <- a ? <-. symmetry. apply H. Qed.

#[global] Instance FreezeAmount_proper : Proper (obs_eq ==> eq ==> eq) FreezeAmount.
Proof. intros b b' [_ H _] id ? <-. unfold FreezeAmount. by rewrite H. Qed.

Lemma balanceKey_inj u a u' a' :
  balanceKey u a = balanceKey u' a' → u = u' ∧ normalizeAsset a = normalizeAsset a'.
Proof. apply itoa_key_inj. Qed.

Lemma obs_eq_memory b b' : same_memory b b' → obs_eq b b'.
Proof. intros (H1 & H2 & H3). split; [|done..]. intros u a. unfold GetBalance. by rewrite H1. Qed.

(** Making the zero entry explicit is not observable. *)
Lemma obs_eq_ensure b u a b' :
  balances b' = <[balanceKey u a := GetBalance b u a]> (balances b) →
  freezes b' = freezes b → processedRefs b' = processedRefs b → obs_eq b b'.
Proof.
  intros E1 E2 E3. split; [|done..]. intros u' a'. unfold GetBalance at 1. rewrite E1.
  destruct (decide (balanceKey u a = balanceKey u' a')) as [E|E].
  - rewrite <-E, lookup_insert_eq. simpl. apply balanceKey_inj in E as E'. destruct E' as [-> En].
    unfold GetBalance. by rewrite E, En.
  - by rewrite lookup_insert_ne.
Qed.

(** ** The commit step *)

Lemma commit_freeze_spec b id r x r' x' :
  freezes b !! id = Some r → balances b !! freeze_key r = Some x →
  let '(b', err) := commit_freeze b id r x r' x' in
  processedRefs b' = processedRefs b ∧
  match err with
  | None => balances b' = <[freeze_key r := x']> (balances b) ∧ freezes b' = <[id := r']> (freezes b)
  | Some _ => same_memory b b'
  end.
Proof.
  intros Hr Hx. unfold commit_freeze. fold (freeze_key r).
  set (b1 := set_freezes _ _). pose proof (persistBalanceAndFreeze_spec b1 x' r') as Hp.
  destruct (persistBalanceAndFreeze b1 x' r') as [b2 [err|]]; destruct Hp as (E1 & E2 & E3).
  - unfold same_memory. cbn [processedRefs balances freezes set_freezes set_balances].
    rewrite E1, E2, E3. unfold b1. cbn [processedRefs balances freezes set_freezes set_balances].
    by rewrite !insert_insert_eq, !insert_id.
  - done.
Qed.

Lemma commit_available_spec b key x delta :
  balances b !! key = Some x → balance_ok x →
  let '(b', err) := commit_available b key x delta in
  freezes b' = freezes b ∧ processedRefs b' = processedRefs b ∧
  balances b' = match err with
                | None => <[key := Balance.add x delta 0]> (balances b)
                | Some _ => balances b
                end.
Proof.
  intros Hx Hok. unfold commit_available. set (b1 := set_balances _ _).
  pose proof (persistBalance_spec b1 (Balance.add x delta 0)) as Hp.
  destruct (persistBalance b1 (Balance.add x delta 0)) as [b2 [err|]]; destruct Hp as (E1 & E2 & E3).
  - cbn [processedRefs balances freezes set_balances]. rewrite E1, E2, E3. unfold b1.
    cbn [processedRefs balances freezes set_balances]. split_and!; try done.
    destruct (balance_ok_int64 x Hok) as [I1 I2].
    pose proof (add_undo x delta 0 I1 I2) as Hu. rewrite Z.opp_0 in Hu.
    rewrite alter_insert_eq, Hu. by apply insert_id.
  - rewrite E1, E2, E3. done.
Qed.

Lemma getActiveFreezeLocked_ok b id r x :
  book_ok b → getActiveFreezeLocked b id = Ok (r, x) →
  freezes b !! id = Some r ∧ balances b !! freeze_key r = Some x ∧ freeze_ok id r ∧ balance_ok x ∧
  FreezeRecord.Released r = false ∧ FreezeRecord.Consumed r = false ∧
  0 ≤ FreezeRecord.Amount r ≤ Balance.Frozen x.
Proof.
  intros Hb. unfold getActiveFreezeLocked. destruct (freezes b !! id) as [r'|] eqn:Er; [|done].
  destruct (_ || _) eqn:Eo; [done|].
  destruct (balances b !! _) as [x'|] eqn:Ex; [|done]. intros [= <- <-].
  apply orb_false_iff in Eo as [E1 E2].
  pose proof (ok_freezes _ Hb _ _ Er) as Hr. pose proof (ok_balances _ Hb _ _ Ex) as Hx.
  pose proof (ok_frozen _ Hb (freeze_key r')) as Hf. unfold frozen_at in Hf.
  fold (freeze_key r') in Ex. rewrite Ex in Hf. simpl in Hf.
  pose proof (msum_ge (frozen_for (freeze_key r')) (freezes b) id r') as Hge.
  assert (frozen_for (freeze_key r') r' = FreezeRecord.Amount r') as Ef
    by (unfold frozen_for; by rewrite String.eqb_refl).
  split_and!; try done; [apply Hr|]. rewrite Hf, <-Ef. apply Hge; [|done].
  intros k v Hv. unfold frozen_for. destruct (String.eqb _ _); [|lia].
  by apply (ok_freezes _ Hb _ _ Hv).
Qed.

(** ** The operations *)

(** An operation that reports an error changed nothing a client can see; one that
    succeeds kept the invariant and moved the totals by [delta]. *)
Record outcome_ok b (res : BalanceBook S * option AccountError) (delta : string → Z) : Prop := {
  oo_inv : book_ok res.1;
  oo_error : res.2 ≠ None → obs_eq b res.1 ∧ ∀ k, total_at res.1 k = total_at b k;
  oo_total : res.2 = None → ∀ k, total_at res.1 k = total_at b k + delta k;
}.

Definition at_key (k : string) (d : Z) : string → Z := λ k', if decide (k' = k) then d else 0.

Lemma outcome_ok_error b err : book_ok b → outcome_ok b (b, Some err) (λ _, 0).
Proof. intros Hb. split; simpl; done. Qed.

Lemma same_memory_total b b' k : same_memory b b' → total_at b' k = total_at b k.
Proof. intros (E & _). unfold total_at. by rewrite E. Qed.

Lemma outcome_ok_delta b res d d' : (∀ k, d k = d' k) → outcome_ok b res d → outcome_ok b res d'.
Proof. intros E [H1 H2 H3]. split; [done|done|]. intros Hn k. rewrite <-E. by apply H3. Qed.

(** Moving [q] out of a freeze, [a] of it back to the available balance. *)
Lemma commit_freeze_ok b id r x a q rel con :
  book_ok b → getActiveFreezeLocked b id = Ok (r, x) →
  0 ≤ q ≤ FreezeRecord.Amount r → 0 ≤ a ≤ q →
  (rel || con = true → FreezeRecord.Amount r - q = 0) →
  outcome_ok b (commit_freeze b id r x
    (FreezeRecord.set_amount r (FreezeRecord.Amount r - q) rel con) (Balance.add x a (- q)))
    (at_key (freeze_key r) (a - q)).
Proof.
  intros Hb Hg Hq Ha Hclosed.
  destruct (getActiveFreezeLocked_ok b id r x Hb Hg) as (Hr & Hx & Hrok & Hxok & _ & _ & Hle).
  set (r' := FreezeRecord.set_amount _ _ _ _). set (x' := Balance.add _ _ _).
  destruct (add_exact x a (- q)) as [EA EF];
    [unfold balance_ok, int64, MinInt64, MaxInt64 in *; lia..|]. fold x' in EA, EF.
  pose proof (commit_freeze_spec b id r x r' x' Hr Hx) as Hc.
  destruct (commit_freeze b id r x r' x') as [b' [err|]]; destruct Hc as [Hrefs Hc].
  - split; simpl; [| |done].
    + destruct Hc as (E1 & E2 & _). by apply (book_ok_memory b).
    + intros _. split; [by apply obs_eq_memory|]. intros k. by apply same_memory_total.
  - destruct Hc as [E1 E2]. split; simpl; [|done|].
    + apply (book_ok_memory (mkBook (<[freeze_key r := x']> (balances b)) (<[id := r']> (freezes b))
        (processedRefs b) (store b))); [done|done|].
      apply (book_ok_update b id r r' x x'); try done.
      * destruct Hrok as (HI & H0 & _). split_and!; simpl; [done|lia|].
        unfold FreezeRecord.active. simpl. rewrite negb_false_iff. done.
      * unfold balance_ok in *. rewrite EA, EF. lia.
      * rewrite EF. simpl. lia.
    + intros _ k. transitivity (total_at (mkBook (<[freeze_key r := x']> (balances b)) (freezes b')
        (processedRefs b') (store b')) k); [unfold total_at; by rewrite E1|].
      rewrite total_at_insert. unfold at_key. case_decide as E; [|lia]. subst k.
      rewrite (total_at_lookup b _ x Hx), EA, EF. lia.
Qed.

Lemma ReleaseFreeze_ok b id :
  book_ok b → outcome_ok b (ReleaseFreeze b id) (λ _, 0).
Proof.
  intros Hb. unfold ReleaseFreeze. destruct (getActiveFreezeLocked b id) as [[r x]|err] eqn:Hg;
    [|by apply outcome_ok_error].
  destruct (getActiveFreezeLocked_ok b id r x Hb Hg) as (_ & _ & _ & _ & _ & _ & Hle).
  eapply outcome_ok_delta; [|replace 0 with (FreezeRecord.Amount r - FreezeRecord.Amount r) by lia;
    apply (commit_freeze_ok b id r x (FreezeRecord.Amount r) (FreezeRecord.Amount r)); try done; lia].
  intros k. unfold at_key. case_decide; lia.
Qed.

Lemma partial_amount b id r x amount :
  book_ok b → getActiveFreezeLocked b id = Ok (r, x) → 0 < amount ≤ FreezeRecord.Amount r →
  FreezeRecord.Amount r ⊟ amount = FreezeRecord.Amount r - amount.
Proof.
  intros Hb Hg Ha.
  destruct (getActiveFreezeLocked_ok b id r x Hb Hg) as (_ & _ & _ & Hx & _ & _ & Hle).
  apply wrap64_id. unfold balance_ok, int64, MinInt64, MaxInt64 in *. lia.
Qed.

Lemma ReleaseFreezeAmount_ok b id amount :
  book_ok b → outcome_ok b (ReleaseFreezeAmount b id amount) (λ _, 0).
Proof.
  intros Hb. unfold ReleaseFreezeAmount. destruct (Z.leb_spec amount 0); [by apply outcome_ok_error|].
  destruct (getActiveFreezeLocked b id) as [[r x]|err] eqn:Hg; [|by apply outcome_ok_error].
  destruct (Z.ltb_spec (FreezeRecord.Amount r) amount); [by apply outcome_ok_error|].
  rewrite (partial_amount b id r x) by (done || lia).
  destruct (getActiveFreezeLocked_ok b id r x Hb Hg) as (_ & _ & _ & _ & HR & HC & _).
  eapply outcome_ok_delta; [|apply (commit_freeze_ok b id r x amount amount); try done; try lia].
  - intros k. unfold at_key. case_decide; lia.
  - rewrite HR, HC, orb_false_r. destruct (Z.eqb_spec (FreezeRecord.Amount r - amount) 0); [lia|done].
Qed.

(** The balance a freeze belongs to. *)
Definition freeze_owner b (id : string) : string :=
  default "" (freeze_key <$> freezes b !! id).

Lemma ConsumeFreeze_ok b id amount :
  book_ok b → outcome_ok b (ConsumeFreeze b id amount) (at_key (freeze_owner b id) (- amount)).
Proof.
  intros Hb. unfold ConsumeFreeze.
  assert (∀ err, outcome_ok b (b, Some err) (at_key (freeze_owner b id) (- amount))) as Herr.
  { intros err. split; simpl; done. }
  destruct (Z.leb_spec amount 0); [by apply Herr|].
  destruct (getActiveFreezeLocked b id) as [[r x]|err] eqn:Hg; [|by apply Herr].
  destruct (Z.ltb_spec (FreezeRecord.Amount r) amount); [by apply Herr|].
  rewrite (partial_amount b id r x) by (done || lia).
  destruct (getActiveFreezeLocked_ok b id r x Hb Hg) as (Hr & _ & _ & _ & HR & HC & _).
  eapply outcome_ok_delta; [|apply (commit_freeze_ok b id r x 0 amount); try done; try lia].
  - intros k. unfold freeze_owner. rewrite Hr. done.
  - rewrite HR, HC. simpl. destruct (Z.eqb_spec (FreezeRecord.Amount r - amount) 0); [lia|done].
Qed.

(** Adding to or taking from an available balance. *)
Lemma commit_available_ok b b0 key x delta :
  book_ok b → obs_eq b0 b → (∀ k, total_at b k = total_at b0 k) → balances b !! key = Some x →
  0 ≤ Balance.Available x + delta → Balance.Available x + Balance.Frozen x + delta ≤ MaxInt64 →
  outcome_ok b0 (commit_available b key x delta) (at_key key delta).
Proof.
  intros Hb Hobs Htot Hx H0 H1. pose proof (ok_balances _ Hb _ _ Hx) as Hxok.
  pose proof (commit_available_spec b key x delta Hx Hxok) as Hc.
  destruct (add_exact x delta 0) as [EA EF];
    [unfold balance_ok, int64, MinInt64, MaxInt64 in *; lia..|].
  destruct (commit_available b key x delta) as [b' [err|]]; destruct Hc as (E1 & E2 & E3);
    split; simpl; try done.
  - by apply (book_ok_memory b).
  - intros _. split.
    + etransitivity; [exact Hobs|]. by apply obs_eq_memory.
    + intros k. rewrite <-Htot. by apply same_memory_total.
  - apply (book_ok_memory (mkBook (<[key := Balance.add x delta 0]> (balances b)) (freezes b)
      (processedRefs b) (store b))); [done|done|].
    destruct Hb as [B1 B2 B3]. split; cbn [balances freezes]; [|done|].
    + apply map_Forall_insert_2; [|done]. unfold balance_ok in *. rewrite EA, EF. lia.
    + intros k. rewrite frozen_at_insert. case_decide as E; [|apply B3]. rewrite EF.
      specialize (B3 k). subst k. unfold frozen_at in B3. rewrite Hx in B3. simpl in B3. lia.
  - intros _ k. rewrite <-Htot. unfold total_at at 1. rewrite E3. unfold at_key. case_decide as E.
    + subst k. rewrite lookup_insert_eq, (total_at_lookup b key x Hx).
      change (default 0 _) with
        (Balance.Available (Balance.add x delta 0) + Balance.Frozen (Balance.add x delta 0)).
      rewrite EA, EF. lia.
    + rewrite lookup_insert_ne by done. fold (total_at b k). lia.
Qed.

Lemma ensure_total b u a b' :
  balances b' = <[balanceKey u a := GetBalance b u a]> (balances b) →
  ∀ k, total_at b' k = total_at b k.
Proof.
  intros E k. unfold total_at. rewrite E. destruct (decide (k = balanceKey u a)) as [->|].
  - rewrite lookup_insert_eq. unfold GetBalance. by destruct (balances b !! balanceKey u a).
  - by rewrite lookup_insert_ne.
Qed.

(** A credit must fit; the code does not check this. *)
Definition credit_fits b (u : Z) (a : string) (amount : Z) : Prop :=
  total_at b (balanceKey u a) + amount ≤ MaxInt64.

Lemma CreditAvailable_ok b u a amount :
  book_ok b → credit_fits b u a amount →
  outcome_ok b (CreditAvailable b u a amount) (at_key (balanceKey u a) amount).
Proof.
  intros Hb Hfit. unfold CreditAvailable.
  assert (∀ err, outcome_ok b (b, Some err) (at_key (balanceKey u a) amount)) as Herr.
  { intros err. split; simpl; done. }
  destruct (_ || _) eqn:Ha; [by apply Herr|].
  apply orb_false_iff in Ha as [_ Ha%Z.leb_gt]. destruct (String.eqb _ ""); [by apply Herr|].
  destruct (ensureBalance_spec b u a Hb) as (b' & x & -> & Hb' & Hx & Ex & E1 & E2 & E3 & _ & EG).
  rewrite EG in E1. pose proof (ensure_total b u a b' E1) as Ht.
  apply commit_available_ok; try done.
  - by apply (obs_eq_ensure b u a).
  - unfold balance_ok in Hx. lia.
  - unfold credit_fits in Hfit. rewrite <-Ht in Hfit. rewrite (total_at_lookup b' _ x Ex) in Hfit. lia.
Qed.

Lemma DebitAvailable_ok b u a amount :
  book_ok b → outcome_ok b (DebitAvailable b u a amount) (at_key (balanceKey u a) (- amount)).
Proof.
  intros Hb. unfold DebitAvailable.
  assert (∀ err, outcome_ok b (b, Some err) (at_key (balanceKey u a) (- amount))) as Herr.
  { intros err. split; simpl; done. }
  destruct (_ || _) eqn:Ha; [by apply Herr|].
  apply orb_false_iff in Ha as [_ Ha%Z.leb_gt]. destruct (String.eqb _ ""); [by apply Herr|].
  destruct (balances b !! _) as [x|] eqn:Ex; [|by apply Herr].
  destruct (Z.ltb_spec (Balance.Available x) amount); [by apply Herr|].
  pose proof (ok_balances _ Hb _ _ Ex) as Hx. unfold balance_ok in Hx.
  apply commit_available_ok; try done; lia.
Qed.

(** ** Freezing *)

Definition to_error {A} (r : result AccountError A) : option AccountError :=
  match r with Ok _ => None | Err e => Some e end.

(** A new freeze: the balance moves from available to frozen and the record is
    new. *)
Record frozen_new b b' (u : Z) (a : string) (r : FreezeRecord.t) : Prop := {
  fn_available : Balance.Available (GetBalance b' u a) =
    Balance.Available (GetBalance b u a) - FreezeRecord.Amount r;
  fn_frozen : Balance.Frozen (GetBalance b' u a) =
    Balance.Frozen (GetBalance b u a) + FreezeRecord.Amount r;
  fn_new : freezes b !! FreezeRecord.FreezeID r = None;
  fn_record : freezes b' = <[FreezeRecord.FreezeID r := r]> (freezes b);
  fn_others : ∀ u' a', balanceKey u' a' ≠ balanceKey u a → GetBalance b' u' a' = GetBalance b u' a';
}.

Lemma PreFreeze_ok b fresh req :
  book_ok b →
  let '(b', res) := PreFreeze b fresh req in
  outcome_ok b (b', to_error res) (λ _, 0) ∧
  ∀ r, res = Ok r → FreezeRecord.Amount r = FreezeRequest.Amount req ∧
    frozen_new b b' (FreezeRequest.UserID req) (FreezeRequest.Asset req) r.
Proof.
  intros Hb. unfold PreFreeze.
  set (u := FreezeRequest.UserID req). set (a := FreezeRequest.Asset req).
  set (amount := FreezeRequest.Amount req).
  destruct (u <=? 0); [by split; [apply outcome_ok_error|]|].
  destruct (Z.leb_spec amount 0); [by split; [apply outcome_ok_error|]|].
  destruct (String.eqb _ ""); [by split; [apply outcome_ok_error|]|].
  destruct (ensureBalance_spec b u a Hb) as (b1 & x & -> & Hb1 & Hx & Ex & E1 & E2 & E3 & E4 & EG).
  rewrite EG in E1. pose proof (ensure_total b u a b1 E1) as Ht.
  assert (obs_eq b b1) as Hobs by by apply (obs_eq_ensure b u a).
  assert (∀ err, outcome_ok b (b1, Some err) (λ _, 0)) as Herr by (intros; by split).
  destruct (Z.ltb_spec (Balance.Available x) amount) as [|Hav]; [by split; [apply Herr|]|].
  set (id := if String.eqb _ "" then fresh else _).
  destruct (freezes b1 !! id) as [r0|] eqn:Ef; [by split; [apply Herr|]|].
  set (x' := Balance.add x (- amount) amount). set (r := FreezeRecord.mk _ _ _ _ _ _ _ _ _).
  destruct (add_exact x (- amount) amount) as [EA EF];
    [unfold balance_ok, int64, MinInt64, MaxInt64 in *; lia..|]. fold x' in EA, EF.
  assert (freeze_key r = balanceKey u a) as Hk by apply balanceKey_normalize.
  set (b2 := set_freezes _ _).
  pose proof (persistBalanceAndFreeze_spec b2 x' r) as Hp.
  destruct (persistBalanceAndFreeze b2 x' r) as [b3 [err|]]; destruct Hp as (P1 & P2 & P3).
  - split; [|done]. destruct (balance_ok_int64 x Hx) as [I1 I2].
    assert (same_memory b1 (set_freezes (set_balances b3
      (alter (λ y, Balance.add y amount (- amount)) (balanceKey u a) (balances b3)))
      (delete id (freezes b3)))) as Hm.
    { unfold same_memory. cbn [balances freezes processedRefs set_freezes set_balances].
      rewrite P1, P2, P3. unfold b2. cbn [balances freezes processedRefs set_freezes set_balances].
      pose proof (add_undo x (- amount) amount I1 I2) as Hu. rewrite Z.opp_involutive in Hu.
      rewrite alter_insert_eq. unfold x'. rewrite Hu, insert_id by done. split_and!; [done| |done].
      by rewrite delete_insert_id. }
    split; simpl; [| |done].
    + destruct Hm as (M1 & M2 & M3). by apply (book_ok_memory b1).
    + intros _. split; [etransitivity; [exact Hobs|by apply obs_eq_memory]|].
      intros k. rewrite <-Ht. by apply same_memory_total.
  - unfold b2 in P1, P2, P3. cbn [balances freezes processedRefs set_freezes set_balances] in P1, P2, P3.
    split; [split; simpl; [|done|]|].
    + apply (book_ok_memory (mkBook (<[balanceKey u a := x']> (balances b1)) (<[id := r]> (freezes b1))
        (processedRefs b1) (store b1))); [done|done|].
      destruct Hb1 as [B1 B2 B3]. split; cbn [balances freezes].
      * apply map_Forall_insert_2; [|done]. unfold balance_ok in *. rewrite EA, EF. lia.
      * apply map_Forall_insert_2; [|done]. split_and!; simpl; [done|lia|done].
      * intros k. rewrite frozen_at_insert, msum_insert by done. rewrite eqb_key_decide, Hk.
        specialize (B3 k). case_decide as E; [|lia]. subst k. unfold frozen_at in B3.
        rewrite Ex in B3. simpl in B3. rewrite EF. simpl. lia.
    + intros _ k. rewrite <-Ht.
      transitivity (total_at (mkBook (<[balanceKey u a := x']> (balances b1)) (freezes b3)
        (processedRefs b3) (store b3)) k); [unfold total_at; by rewrite P1|].
      rewrite total_at_insert. case_decide as E; [|lia]. subst k.
      rewrite (total_at_lookup b1 _ x Ex), EA, EF. lia.
    + intros r' [= <-]. split; [done|].
      assert (GetBalance b3 u a = x') as EG3
        by (unfold GetBalance; by rewrite P1, lookup_insert_eq).
      split; rewrite ?EG3, <-?EG.
      * rewrite EA. simpl. lia.
      * by rewrite EF.
      * simpl. by rewrite <-E2.
      * by rewrite P2, E2.
      * intros u' a' Hne. transitivity (GetBalance b1 u' a'); [|apply Hobs].
        unfold GetBalance. by rewrite P1, lookup_insert_ne by done.
Qed.

(** ** References *)

Lemma apply_with_ref_local remote local b req d :
  let u := CreditRequest.UserID req in
  let a := CreditRequest.Asset req in
  let n := CreditRequest.Amount req in
  book_ok b → store b = None → outcome_ok b (local b u a n) d →
  processedRefs (local b u a n).1 = processedRefs b → store (local b u a n).1 = store b →
  let '(b', res) := apply_with_ref remote local b req in
  book_ok b' ∧ store b' = None ∧
  match res with
  | Err _ => obs_eq b b' ∧ ∀ k, total_at b' k = total_at b k
  | Ok (x, false) => b' = b ∧ ref_key req ∈ processedRefs b
  | Ok (x, true) =>
      ref_key req ∉ processedRefs b ∧ processedRefs b' = {[ref_key req]} ∪ processedRefs b ∧
      x = GetBalance b' u a ∧ ∀ k, total_at b' k = total_at b k + d k
  end.
Proof.
  intros u a n Hb Hs Hl R1 R2. unfold apply_with_ref. fold u a n.
  destruct (_ || _); [done|]. destruct (String.eqb _ ""); [done|]. destruct (_ || _); [done|].
  rewrite Hs. case_bool_decide as Hin; [done|].
  destruct Hl as [L1 L2 L3].
  destruct (local b u a n) as [b1 [err|]]; simpl in *.
  - split_and!; [done|by rewrite R2|by apply L2|by apply L2].
  - split_and!; [by apply (book_ok_memory b1)|by rewrite R2|done|by rewrite R1|done|].
    by apply L3.
Qed.

(** Without a store the in-memory operations touch neither the references nor
    the store. *)
Lemma commit_available_frame b key x d :
  store b = None → let '(b', err) := commit_available b key x d in
  processedRefs b' = processedRefs b ∧ store b' = None ∧ err = None.
Proof. intros Hs. unfold commit_available, persistBalance. simpl. rewrite Hs. done. Qed.

Lemma ensureBalance_frame b u a :
  let '(b', x) := ensureBalance b u a in
  processedRefs b' = processedRefs b ∧ store b' = store b.
Proof. unfold ensureBalance. by destruct (balances b !! _). Qed.

Lemma CreditAvailable_frame b u a n :
  store b = None → processedRefs (CreditAvailable b u a n).1 = processedRefs b ∧
  store (CreditAvailable b u a n).1 = store b.
Proof.
  intros Hs. unfold CreditAvailable. destruct (_ || _); [done|]. destruct (String.eqb _ _); [done|].
  pose proof (ensureBalance_frame b u a) as He. destruct (ensureBalance b u a) as [b1 x].
  destruct He as [E1 E2]. pose proof (commit_available_frame b1 (balanceKey u a) x n) as Hc.
  destruct (commit_available b1 (balanceKey u a) x n) as [b' err]. simpl.
  destruct Hc as (C1 & C2 & _); [congruence|]. split; congruence.
Qed.

Lemma DebitAvailable_frame b u a n :
  store b = None → processedRefs (DebitAvailable b u a n).1 = processedRefs b ∧
  store (DebitAvailable b u a n).1 = store b.
Proof.
  intros Hs. unfold DebitAvailable. destruct (_ || _); [done|]. destruct (String.eqb _ _); [done|].
  destruct (balances b !! _) as [x|]; [|done]. destruct (_ <? _); [done|].
  pose proof (commit_available_frame b (balanceKey u a) x (- n) Hs) as Hc.
  destruct (commit_available b (balanceKey u a) x (- n)) as [b' err]. simpl.
  destruct Hc as (C1 & C2 & _). split; congruence.
Qed.
End inv.
