(* ===== verification/AccountProps.v ===== *)
(** * Account service: properties of the balance book *)

From S2P Require Import Prelude Strings Account AccountInv.

Local Open Scope Z_scope.
Local Open Scope go_scope.

(** ** Operations as steps *)

Inductive acct_op :=
| OpFreeze (fresh : string) (req : FreezeRequest.t)
| OpExternalFreeze (fresh : string) (req : FreezeRequest.t)
| OpRelease (id : string)
| OpReleaseAmount (id : string) (amount : Z)
| OpConsume (id : string) (amount : Z)
| OpCredit (userID : Z) (asset : string) (amount : Z)
| OpDebit (userID : Z) (asset : string) (amount : Z)
| OpCreditRef (req : CreditRequest.t)
| OpDebitRef (req : CreditRequest.t).

Section props.
Context {S : Type} `{!BalanceStore S}.
Implicit Types b : BalanceBook S.

Definition drop_value {A} (r : BalanceBook S * result AccountError A)
    : BalanceBook S * option AccountError := (r.1, to_error r.2).

Definition exec b (o : acct_op) : BalanceBook S * option AccountError :=
  match o with
  | OpFreeze fresh req => drop_value (PreFreeze b fresh req)
  | OpExternalFreeze fresh req => drop_value (ApplyExternalFreeze b fresh req)
  | OpRelease id => ReleaseFreeze b id
  | OpReleaseAmount id amount => ReleaseFreezeAmount b id amount
  | OpConsume id amount => ConsumeFreeze b id amount
  | OpCredit u a n => CreditAvailable b u a n
  | OpDebit u a n => DebitAvailable b u a n
  | OpCreditRef req => drop_value (CreditAvailableWithRef b req)
  | OpDebitRef req => drop_value (DebitAvailableWithRef b req)
  end.

(** How an accepted operation changes the total under each key. *)
Definition effect b (o : acct_op) : string → Z :=
  match o with
  | OpConsume id amount => at_key (freeze_owner b id) (- amount)
  | OpCredit u a n => at_key (balanceKey u a) n
  | OpDebit u a n => at_key (balanceKey u a) (- n)
  | OpCreditRef req =>
      if decide (ref_key req ∈ processedRefs b) then λ _, 0
      else at_key (balanceKey (CreditRequest.UserID req) (CreditRequest.Asset req))
             (CreditRequest.Amount req)
  | OpDebitRef req =>
      if decide (ref_key req ∈ processedRefs b) then λ _, 0
      else at_key (balanceKey (CreditRequest.UserID req) (CreditRequest.Asset req))
             (- CreditRequest.Amount req)
  | _ => λ _, 0
  end.

(** Credits fit in [int64]; the reference operations are taken in memory mode,
    where the book and not the database decides. *)
Definition admissible b (o : acct_op) : Prop :=
  match o with
  | OpCredit u a n => credit_fits b u a n
  | OpCreditRef req =>
      store b = None ∧
      credit_fits b (CreditRequest.UserID req) (CreditRequest.Asset req) (CreditRequest.Amount req)
  | OpDebitRef req => store b = None
  | _ => True
  end.

Lemma with_ref_outcome remote local b req d :
  book_ok b → store b = None →
  outcome_ok b (local b (CreditRequest.UserID req) (CreditRequest.Asset req)
                  (CreditRequest.Amount req)) d →
  processedRefs (local b (CreditRequest.UserID req) (CreditRequest.Asset req)
                   (CreditRequest.Amount req)).1 = processedRefs b ∧
  store (local b (CreditRequest.UserID req) (CreditRequest.Asset req)
           (CreditRequest.Amount req)).1 = store b →
  outcome_ok b (drop_value (apply_with_ref remote local b req))
    (if decide (ref_key req ∈ processedRefs b) then λ _, 0 else d).
Proof.
  intros Hb Hs Hl [R1 R2].
  pose proof (apply_with_ref_local remote local b req d Hb Hs Hl R1 R2) as H.
  destruct (apply_with_ref remote local b req) as [b' [[x []]|err]]; unfold drop_value; simpl.
  - destruct H as (H1 & H2 & H3 & H4 & H5 & H6). split; simpl; [done|done|].
    intros _ k. rewrite decide_False by done. apply H6.
  - destruct H as (H1 & H2 & -> & H4). split; simpl; [done|done|].
    intros _ k. rewrite decide_True by done. lia.
  - destruct H as (H1 & H2 & H3). by split.
Qed.

Lemma step_ok b o : book_ok b → admissible b o → outcome_ok b (exec b o) (effect b o).
Proof.
  intros Hb Ha. destruct o as [fresh req|fresh req|id|id n|id n|u a n|u a n|req|req]; simpl in *.
  - pose proof (PreFreeze_ok b fresh req Hb) as H. unfold drop_value.
    destruct (PreFreeze b fresh req) as [b' res]. by destruct H as [H _].
  - unfold ApplyExternalFreeze, drop_value. destruct (String.eqb _ "");
      [by apply (outcome_ok_error b ErrFreezeNotFound)|].
    pose proof (PreFreeze_ok b fresh req Hb) as H.
    destruct (PreFreeze b fresh req) as [b' res]. by destruct H as [H _].
  - by apply ReleaseFreeze_ok.
  - by apply ReleaseFreezeAmount_ok.
  - by apply ConsumeFreeze_ok.
  - by apply CreditAvailable_ok.
  - by apply DebitAvailable_ok.
  - destruct Ha as [Hs Hf]. apply with_ref_outcome; [done|done|by apply CreditAvailable_ok|].
    by apply CreditAvailable_frame.
  - apply with_ref_outcome; [done|done|by apply DebitAvailable_ok|]. by apply DebitAvailable_frame.
Qed.

(** ** References are never forgotten *)

Lemma commit_freeze_refs b id r x r' x' :
  processedRefs (commit_freeze b id r x r' x').1 = processedRefs b.
Proof.
  unfold commit_freeze. set (b1 := set_freezes _ _).
  pose proof (persistBalanceAndFreeze_spec b1 x' r') as H.
  by destruct (persistBalanceAndFreeze b1 x' r') as [b2 [err|]]; destruct H as (_ & _ & H).
Qed.

Lemma commit_available_refs b k x d : processedRefs (commit_available b k x d).1 = processedRefs b.
Proof.
  unfold commit_available. set (b1 := set_balances _ _).
  pose proof (persistBalance_spec b1 (Balance.add x d 0)) as H.
  by destruct (persistBalance b1 _) as [b2 [err|]]; destruct H as (_ & _ & H).
Qed.

Lemma CreditAvailable_refs b u a n : processedRefs (CreditAvailable b u a n).1 = processedRefs b.
Proof.
  unfold CreditAvailable. destruct (_ || _); [done|]. destruct (String.eqb _ _); [done|].
  pose proof (ensureBalance_frame b u a) as He. destruct (ensureBalance b u a) as [b1 x].
  destruct He as [E _]. by rewrite commit_available_refs.
Qed.

Lemma DebitAvailable_refs b u a n : processedRefs (DebitAvailable b u a n).1 = processedRefs b.
Proof.
  unfold DebitAvailable. destruct (_ || _); [done|]. destruct (String.eqb _ _); [done|].
  destruct (balances b !! _); [|done]. destruct (_ <? _); [done|]. apply commit_available_refs.
Qed.

Lemma PreFreeze_refs b fresh req : processedRefs (PreFreeze b fresh req).1 = processedRefs b.
Proof.
  unfold PreFreeze. destruct (_ <=? 0); [done|]. destruct (_ <=? 0); [done|].
  destruct (String.eqb _ _); [done|]. pose proof (ensureBalance_frame b
    (FreezeRequest.UserID req) (FreezeRequest.Asset req)) as He.
  destruct (ensureBalance _ _ _) as [b1 x]. destruct He as [E _].
  destruct (_ <? _); [done|]. destruct (freezes b1 !! _); [done|].
  set (b2 := set_freezes _ _). set (x' := Balance.add _ _ _). set (r := FreezeRecord.mk _ _ _ _ _ _ _ _ _).
  pose proof (persistBalanceAndFreeze_spec b2 x' r) as H.
  by destruct (persistBalanceAndFreeze b2 x' r) as [b3 [err|]]; destruct H as (_ & _ & H); rewrite <-E.
Qed.

Lemma apply_with_ref_refs remote local b req :
  (∀ u a n, processedRefs (local b u a n).1 = processedRefs b) →
  processedRefs b ⊆ processedRefs (apply_with_ref remote local b req).1.
Proof.
  intros Hl. unfold apply_with_ref. destruct (_ || _); [done|]. destruct (String.eqb _ _); [done|].
  destruct (_ || _); [done|]. destruct (store b) as [s|].
  - destruct (remote s _) as [s' [[x ap]|err]]; done.
  - case_bool_decide; [done|]. specialize (Hl (CreditRequest.UserID req) (CreditRequest.Asset req)
      (CreditRequest.Amount req)). destruct (local b _ _ _) as [b1 [err|]]; simpl in *; rewrite Hl; set_solver.
Qed.

Lemma exec_refs b o : processedRefs b ⊆ processedRefs (exec b o).1.
Proof.
  destruct o as [fresh req|fresh req|id|id n|id n|u a n|u a n|req|req]; simpl.
  - by rewrite PreFreeze_refs.
  - unfold ApplyExternalFreeze. destruct (String.eqb _ _); [done|]. simpl. by rewrite PreFreeze_refs.
  - unfold ReleaseFreeze. destruct (getActiveFreezeLocked b id) as [[r x]|]; [|done].
    by rewrite commit_freeze_refs.
  - unfold ReleaseFreezeAmount. destruct (_ <=? 0); [done|].
    destruct (getActiveFreezeLocked b id) as [[r x]|]; [|done].
    destruct (_ <? _); [done|]. by rewrite commit_freeze_refs.
  - unfold ConsumeFreeze. destruct (_ <=? 0); [done|].
    destruct (getActiveFreezeLocked b id) as [[r x]|]; [|done].
    destruct (_ <? _); [done|]. by rewrite commit_freeze_refs.
  - by rewrite CreditAvailable_refs.
  - by rewrite DebitAvailable_refs.
  - apply apply_with_ref_refs, CreditAvailable_refs.
  - apply apply_with_ref_refs, DebitAvailable_refs.
Qed.

Lemma exec_list_refs os b : processedRefs b ⊆ processedRefs (fold_left (λ b o, (exec b o).1) os b).
Proof.
  revert b. induction os as [|o os IH]; intros b; simpl; [done|].
  etransitivity; [apply exec_refs|apply IH].
Qed.
End props.

(** ** A database that may fail, for the witnesses *)

(** It refuses every write while its switch is on. *)
#[global] Instance switch_store : BalanceStore bool := {|
  UpsertBalance := λ (s : bool) (_ : Balance.t), (s, if s then Some "db down" else None);
  UpsertBalanceAndFreeze := λ (s : bool) (_ : Balance.t) (_ : FreezeRecord.t),
    (s, if s then Some "db down" else None);
  ApplyCreditEvent := λ (s : bool) (_ : CreditRequest.t), (s, Err (ErrStore "db down"));
  ApplyDebitEvent := λ (s : bool) (_ : CreditRequest.t), (s, Err (ErrStore "db down"));
|}.

Definition demo_book (st : option bool) : BalanceBook bool :=
  mkBook {[balanceKey 1 "USDT" := Balance.mk 1 "USDT" 70 30]}
    {["f1" := FreezeRecord.mk "f1" 1 "USDT" "ORDER" "o1" 50 30 false false]} ∅ st.

Lemma demo_book_ok st : book_ok (demo_book st).
Proof.
  split.
  - apply map_Forall_singleton. by vm_compute.
  - apply map_Forall_singleton. by vm_compute.
  - intros k. unfold demo_book, frozen_at, msum. cbn [balances freezes].
    rewrite map_to_list_singleton. unfold sumZ, frozen_for. cbn [snd].
    change (freeze_key _) with (balanceKey 1 "USDT").
    destruct (String.eqb_spec (balanceKey 1 "USDT") k) as [<-|Hne].
    + by rewrite lookup_singleton_eq.
    + by rewrite lookup_singleton_ne.
Qed.

(** ** Claims *)



(** Freezing succeeds exactly when the request is well formed, the available
    balance covers it and the identifier is unused; the amount then moves from
    available to frozen of that one balance and a new open record holds it. *)
Theorem pre_freeze_exact {S : Type} `{!BalanceStore S} (b : BalanceBook S) fresh req :
  book_ok b → store b = None →
  let u := FreezeRequest.UserID req in
  let a := FreezeRequest.Asset req in
  let id := if String.eqb (TrimSpace (FreezeRequest.FreezeID req)) "" then fresh
            else TrimSpace (FreezeRequest.FreezeID req) in
  let '(b', res) := PreFreeze b fresh req in
  ((∃ r, res = Ok r) ↔
     0 < u ∧ 0 < FreezeRequest.Amount req ≤ Balance.Available (GetBalance b u a) ∧
     normalizeAsset a ≠ "" ∧ freezes b !! id = None) ∧
  ∀ r, res = Ok r → FreezeRecord.Amount r = FreezeRequest.Amount req ∧ frozen_new b b' u a r.
Proof.
  intros Hb Hs u a id. pose proof (PreFreeze_ok b fresh req Hb) as Hok. revert Hok.
  unfold PreFreeze. fold u a.
  destruct (Z.leb_spec u 0); [intros [_ ?]; split; [split; [naive_solver|lia]|done]|].
  destruct (Z.leb_spec (FreezeRequest.Amount req) 0);
    [intros [_ ?]; split; [split; [naive_solver|lia]|done]|].
  destruct (String.eqb_spec (normalizeAsset a) ""); [intros [_ ?]; split; [split; naive_solver|done]|].
  destruct (ensureBalance_spec b u a Hb) as (b1 & x & -> & _ & _ & _ & _ & E2 & _ & E4 & <-).
  destruct (Z.ltb_spec (Balance.Available x) (FreezeRequest.Amount req));
    [intros [_ ?]; split; [split; [naive_solver|lia]|done]|].
  fold id. rewrite E2. destruct (freezes b !! id) as [r0|] eqn:Ef;
    [intros [_ ?]; split; [split; naive_solver|done]|].
  unfold persistBalanceAndFreeze. cbn [store set_freezes set_balances]. rewrite E4, Hs.
  intros [_ Hr]. split; [|exact Hr]. split; [done|by eexists].
Qed.

Lemma pre_freeze_exact_witness :
  let req := FreezeRequest.mk "" 1 "usdt" "ORDER" "o2" 60 in
  ∃ b' r, PreFreeze (demo_book None) "f2" req = (b', Ok r) ∧
    FreezeRecord.Amount r = 60 ∧ frozen_new (demo_book None) b' 1 "usdt" r.
Proof.
  intros req.
  pose proof (pre_freeze_exact (demo_book None) "f2" req (demo_book_ok None) eq_refl) as H.
  cbv zeta in H.
  destruct (PreFreeze (demo_book None) "f2" req) as [b' res]. destruct H as [[_ H1] H2].
  destruct H1 as [r ->]; [by vm_compute|]. exists b', r. split; [done|]. exact (H2 r eq_refl).
Defined.

(** A credit is applied exactly once per reference.  After a credit was
    applied, and whatever operations follow it, a second credit with the same
    reference is reported as not applied and leaves the book as it is. *)
Theorem credit_ref_exactly_once {S : Type} `{!BalanceStore S} (b : BalanceBook S) req x b1 os req' :
  CreditAvailableWithRef b req = (b1, Ok (x, true)) → store b = None →
  ref_key req' = ref_key req →
  0 < CreditRequest.UserID req' → 0 < CreditRequest.Amount req' →
  normalizeAsset (CreditRequest.Asset req') ≠ "" →
  TrimSpace (CreditRequest.RefType req') ≠ "" → TrimSpace (CreditRequest.RefID req') ≠ "" →
  let b2 := fold_left (λ b o, (exec b o).1) os b1 in
  store b2 = None →
  CreditAvailableWithRef b2 req' =
    (b2, Ok (GetBalance b2 (CreditRequest.UserID req') (CreditRequest.Asset req'), false)).
Proof.
  intros E Hs Hk Hu Ha Hn H1 H2 b2 Hs2.
  assert (ref_key req ∈ processedRefs b1) as Hin.
  { revert E. unfold CreditAvailableWithRef, apply_with_ref. rewrite Hs.
    destruct (_ || _); [done|]. destruct (String.eqb _ _); [done|]. destruct (_ || _); [done|].
    case_bool_decide; [congruence|]. destruct (CreditAvailable b _ _ _) as [b' [err|]]; [congruence|].
    intros [= <- _]. simpl. set_solver. }
  assert (ref_key req' ∈ processedRefs b2) as Hin2 by (rewrite Hk; by apply (exec_list_refs os b1)).
  unfold CreditAvailableWithRef, apply_with_ref.
  rewrite (proj2 (Z.leb_gt _ _) Hu), (proj2 (Z.leb_gt _ _) Ha). cbn [orb].
  rewrite !(proj2 (String.eqb_neq _ _)) by done. cbn [orb].
  by rewrite Hs2, bool_decide_eq_true_2.
Qed.

Lemma credit_ref_exactly_once_witness :
  let req := CreditRequest.mk 1 "usdt" 5 "trade" "t1" in
  let b1 := (CreditAvailableWithRef (demo_book None) req).1 in
  CreditAvailableWithRef ((exec b1 (OpDebit 1 "USDT" 2)).1) (CreditRequest.mk 1 "USDT" 9 "TRADE " " t1") =
    ((exec b1 (OpDebit 1 "USDT" 2)).1,
     Ok (GetBalance ((exec b1 (OpDebit 1 "USDT" 2)).1) 1 "USDT", false)).
Proof.
  intros req b1.
  apply (credit_ref_exactly_once (demo_book None) req (Balance.mk 1 "USDT" 75 30) b1
    [OpDebit 1 "USDT" 2] (CreditRequest.mk 1 "USDT" 9 "TRADE " " t1"));
    solve [by vm_compute | reflexivity].
Defined.
