(* ===== verification/AccountEvents.v ===== *)
(** * Account service: the event processor

    [account/service/order_state.go] and [account/service/event_processor.go]:
    the order registry and the three Kafka handlers that move balances.  A
    handler's input is the decoded event, [None] when [json.Unmarshal] fails;
    [frozen] is the answer of the rollup freeze reader. *)

From S2P Require Import Prelude Strings Shared Messages Account.

Local Open Scope Z_scope.
Local Open Scope go_scope.

(** ** Order registry *)

Module OrderState.
Record t := mk {
  OrderID : string;
  UserID : Z;
  Side : string;
  Price : Z;
  FreezeID : string;
  FreezeAsset : string;
  FreezeApplied : bool;
  Status : string;
  RemainingQuantity : Z;
}.
Definition zero (id : string) : t := mk id 0 "" 0 "" "" false "" 0.
End OrderState.

(** The persistent mirror; the registry ignores its errors. *)
Class OrderStateStore (R : Type) := {
  LoadOrderState : R → string → option OrderState.t;
  MirrorOrderState : R → OrderState.t → R;
}.

Section registry.
Context {R : Type} `{!OrderStateStore R}.

Record OrderRegistry := mkRegistry {
  orders : gmap string OrderState.t;
  reg_store : option R;
}.

Definition NewOrderRegistry : OrderRegistry := mkRegistry ∅ None.
Definition NewPersistentOrderRegistry (s : R) : OrderRegistry := mkRegistry ∅ (Some s).

Definition Get (r : OrderRegistry) (orderID : string) : OrderRegistry * option OrderState.t :=
  match orders r !! orderID with
  | Some state => (r, Some state)
  | None =>
      match reg_store r with
      | None => (r, None)
      | Some s =>
          match LoadOrderState s orderID with
          | Some state => (mkRegistry (<[orderID := state]> (orders r)) (reg_store r), Some state)
          | None => (r, None)
          end
      end
  end.

(** Fields that are set overwrite; the remaining quantity always does. *)
Definition merge (existing state : OrderState.t) : OrderState.t :=
  let keepZ (new old : Z) := if negb (new =? 0) then new else old in
  let keepS (new old : string) := if negb (String.eqb new "") then new else old in
  OrderState.mk (OrderState.OrderID existing)
    (keepZ (OrderState.UserID state) (OrderState.UserID existing))
    (keepS (OrderState.Side state) (OrderState.Side existing))
    (keepZ (OrderState.Price state) (OrderState.Price existing))
    (keepS (OrderState.FreezeID state) (OrderState.FreezeID existing))
    (keepS (OrderState.FreezeAsset state) (OrderState.FreezeAsset existing))
    (if OrderState.FreezeApplied state then true else OrderState.FreezeApplied existing)
    (keepS (OrderState.Status state) (OrderState.Status existing))
    (OrderState.RemainingQuantity state).

Definition Upsert (r : OrderRegistry) (state : OrderState.t) : OrderRegistry * OrderState.t :=
  let id := OrderState.OrderID state in
  let persisted :=
    s ← reg_store r; if negb (String.eqb id "") then LoadOrderState s id else None in
  let existing := default (default (OrderState.zero id) persisted) (orders r !! id) in
  let merged := merge existing state in
  (mkRegistry (<[id := merged]> (orders r)) ((λ s, MirrorOrderState s merged) <$> reg_store r),
   merged).
End registry.

Arguments OrderRegistry R : clear implicits.

(** ** Pure helpers of the processor *)

Inductive EventError :=
| ErrFreezeReader (e : string)
| ErrDecode
| ErrAccount (e : AccountError)
| ErrNotionalNotPositive
| ErrNotionalOverflow
| ErrNegativeRemaining
| ErrNegativePrice
| ErrReserveOverflow
| ErrUnsupportedSide (side : string).

Definition PlatformFeeUserID : Z := 0.

Definition tradeNotional (price quantity : Z) : result EventError Z :=
  if (price <=? 0) || (quantity <=? 0) then Err ErrNotionalNotPositive
  else if MaxInt64 `quot` quantity <? price then Err ErrNotionalOverflow
  else Ok (price ⊠ quantity).

Definition expectedFreezeAmount (state : OrderState.t) : result EventError Z :=
  let remaining := OrderState.RemainingQuantity state in
  let price := OrderState.Price state in
  if remaining <? 0 then Err ErrNegativeRemaining
  else
    let side := normalize_upper (OrderState.Side state) in
    if String.eqb side "BUY" then
      if remaining =? 0 then Ok 0
      else if price <? 0 then Err ErrNegativePrice
      else if (0 <? price) && (MaxInt64 `quot` price <? remaining) then Err ErrReserveOverflow
      else Ok (price ⊠ remaining)
    else if String.eqb side "SELL" then Ok remaining
    else Err (ErrUnsupportedSide (OrderState.Side state)).

Definition collateralAsset (asset : string) : string := NormalizeAsset asset.

Definition freezeAsset (event : OrderEvent.t) : string :=
  if negb (String.eqb (TrimSpace (OrderEvent.FreezeAsset event)) "")
  then collateralAsset (OrderEvent.FreezeAsset event)
  else collateralAsset (OrderEvent.CollateralAsset event).

Definition freezeAssetFromOrderEvent (event : OrderEvent.t) : string :=
  if String.eqb (TrimSpace (OrderEvent.FreezeID event)) "" then "" else freezeAsset event.

Definition shouldReleaseFreeze (status : string) (remainingQuantity : Z) : bool :=
  let s := normalize_upper status in
  if String.eqb s "CANCELLED" || String.eqb s "REJECTED" then 0 <? remainingQuantity else false.

Definition settlementSides (event : TradeMatchedEvent.t) : string * Z :=
  let side := normalize_upper (TradeMatchedEvent.TakerSide event) in
  if String.eqb side "BUY"
  then (TradeMatchedEvent.TakerOrderID event, TradeMatchedEvent.MakerUserID event)
  else if String.eqb side "SELL"
  then (TradeMatchedEvent.MakerOrderID event, TradeMatchedEvent.TakerUserID event)
  else ("", 0).

Definition positionSides (event : TradeMatchedEvent.t) : string * Z :=
  let side := normalize_upper (TradeMatchedEvent.TakerSide event) in
  if String.eqb side "BUY"
  then (TradeMatchedEvent.MakerOrderID event, TradeMatchedEvent.TakerUserID event)
  else if String.eqb side "SELL"
  then (TradeMatchedEvent.TakerOrderID event, TradeMatchedEvent.MakerUserID event)
  else ("", 0).

Definition tradeFees (event : TradeMatchedEvent.t) : Z * Z :=
  let side := normalize_upper (TradeMatchedEvent.TakerSide event) in
  if String.eqb side "BUY"
  then (TradeMatchedEvent.MakerFee event, TradeMatchedEvent.TakerFee event)
  else if String.eqb side "SELL"
  then (TradeMatchedEvent.TakerFee event, TradeMatchedEvent.MakerFee event)
  else (0, 0).

(** ** The processor *)

Section processor.
Context {S : Type} `{!BalanceStore S}.
Context {R : Type} `{!OrderStateStore R}.

Record EventProcessor := mkProcessor {
  book : BalanceBook S;
  registry : OrderRegistry R;
}.

Definition set_book (p : EventProcessor) (b : BalanceBook S) : EventProcessor :=
  mkProcessor b (registry p).
Definition set_registry (p : EventProcessor) (r : OrderRegistry R) : EventProcessor :=
  mkProcessor (book p) r.

(** The early exits on the rollup freeze, then the decoded event. *)
Definition with_event {E} (frozen : result string bool) (msg : option E) (p : EventProcessor)
    (handle : E → EventProcessor * option EventError) : EventProcessor * option EventError :=
  match frozen with
  | Err e => (p, Some (ErrFreezeReader e))
  | Ok true => (p, None)
  | Ok false => match msg with None => (p, Some ErrDecode) | Some event => handle event end
  end.

Definition order_state_of_event (event : OrderEvent.t) : OrderState.t :=
  OrderState.mk (OrderEvent.OrderID event) (OrderEvent.UserID event) (OrderEvent.Side event)
    (OrderEvent.Price event) (OrderEvent.FreezeID event) (freezeAssetFromOrderEvent event) false
    (OrderEvent.Status event) (OrderEvent.RemainingQuantity event).

(** The freeze carried by an event, applied once; a freeze that already exists
    counts as applied. *)
Definition apply_event_freeze (fresh : string) (event : OrderEvent.t) (p : EventProcessor)
    (state : OrderState.t) : EventProcessor * OrderState.t * option EventError :=
  if negb (String.eqb (OrderEvent.FreezeID event) "") &&
     negb (OrderState.FreezeApplied state) && (0 <? OrderEvent.FreezeAmount event)
  then
    let '(b, res) := ApplyExternalFreeze (book p) fresh
      (FreezeRequest.mk (OrderEvent.FreezeID event) (OrderEvent.UserID event)
         (freezeAsset event) "ORDER" (OrderEvent.OrderID event)
         (OrderEvent.FreezeAmount event)) in
    let p := set_book p b in
    let failed := match res with
                  | Ok _ | Err ErrFreezeAlreadyExists => None | Err e => Some e end in
    match failed with
    | Some e => (p, state, Some (ErrAccount e))
    | None =>
        let '(r, state) := Upsert (registry p)
          (OrderState.mk (OrderEvent.OrderID event) (OrderState.UserID state)
             (OrderState.Side state) (OrderState.Price state) (OrderEvent.FreezeID event)
             (freezeAssetFromOrderEvent event) true (OrderState.Status state)
             (OrderState.RemainingQuantity state)) in
        (set_registry p r, state, None)
    end
  else (p, state, None).

Definition HandleOrderEvent (frozen : result string bool) (fresh : string)
    (msg : option OrderEvent.t) (p : EventProcessor) : EventProcessor * option EventError :=
  with_event frozen msg p (λ event,
    let '(r, state) := Upsert (registry p) (order_state_of_event event) in
    match apply_event_freeze fresh event (set_registry p r) state with
    | (p, _, Some e) => (p, Some e)
    | (p, state, None) =>
        if shouldReleaseFreeze (OrderEvent.Status event) (OrderEvent.RemainingQuantity event) &&
           negb (String.eqb (OrderState.FreezeID state) "")
        then
          match FreezeAmount (book p) (OrderState.FreezeID state) with
          | None => (p, None)
          | Some _ =>
              let '(b, err) := ReleaseFreeze (book p) (OrderState.FreezeID state) in
              (set_book p b,
               match err with
               | None | Some ErrFreezeAlreadyClosed => None
               | Some e => Some (ErrAccount e)
               end)
          end
        else (p, None)
    end).

Definition releaseExcessFreeze (b : BalanceBook S) (state : OrderState.t)
    : BalanceBook S * option EventError :=
  match FreezeAmount b (OrderState.FreezeID state) with
  | None => (b, None)
  | Some current =>
      match expectedFreezeAmount state with
      | Err e => (b, Some e)
      | Ok expected =>
          if current <=? expected then (b, None)
          else
            let '(b, err) := ReleaseFreezeAmount b (OrderState.FreezeID state) (current ⊟ expected) in
            (b, ErrAccount <$> err)
      end
  end.

(** Consuming the freeze behind one of the two orders of a trade. *)
Definition consume_for (p : EventProcessor) (orderID : string) (amount : Z)
    : EventProcessor * option EventError :=
  if String.eqb orderID "" then (p, None)
  else
    let '(r, found) := Get (registry p) orderID in
    let p := set_registry p r in
    match found with
    | None => (p, None)
    | Some state =>
        if String.eqb (OrderState.FreezeID state) "" then (p, None)
        else
          let '(b, err) := ConsumeFreeze (book p) (OrderState.FreezeID state) amount in
          let p := set_book p b in
          match err with
          | None | Some ErrFreezeAlreadyClosed =>
              let '(b, err) := releaseExcessFreeze (book p) state in (set_book p b, err)
          | Some e => (p, Some (ErrAccount e))
          end
    end.

Definition credit_for (p : EventProcessor) (req : CreditRequest.t)
    : EventProcessor * option EventError :=
  let '(b, res) := CreditAvailableWithRef (book p) req in
  (set_book p b, match res with Ok _ => None | Err e => Some (ErrAccount e) end).

Definition debit_for (p : EventProcessor) (req : CreditRequest.t)
    : EventProcessor * option EventError :=
  let '(b, res) := DebitAvailableWithRef (book p) req in
  (set_book p b, match res with Ok _ => None | Err e => Some (ErrAccount e) end).

(** Sequencing with early return on an error. *)
Definition andThen (r : EventProcessor * option EventError)
    (k : EventProcessor → EventProcessor * option EventError)
    : EventProcessor * option EventError :=
  match r with (p, Some e) => (p, Some e) | (p, None) => k p end.

Definition trade_key (event : TradeMatchedEvent.t) : string :=
  if String.eqb (TradeMatchedEvent.TradeID event) "" then TradeMatchedEvent.EventID event
  else TradeMatchedEvent.TradeID event.

Definition HandleTradeMatched (frozen : result string bool) (msg : option TradeMatchedEvent.t)
    (p : EventProcessor) : EventProcessor * option EventError :=
  with_event frozen msg p (λ event,
    match tradeNotional (TradeMatchedEvent.Price event) (TradeMatchedEvent.Quantity event) with
    | Err e => (p, Some e)
    | Ok notional =>
        let '(payerOrderID, receiverUserID) := settlementSides event in
        let '(sellerOrderID, buyerUserID) := positionSides event in
        let '(receiverFee, payerFee) := tradeFees event in
        let collateral := collateralAsset (TradeMatchedEvent.CollateralAsset event) in
        let ref := trade_key event in
        andThen (consume_for p payerOrderID notional) (λ p,
        andThen (consume_for p sellerOrderID (TradeMatchedEvent.Quantity event)) (λ p,
        andThen
          (let netCredit := notional ⊟ receiverFee in
           if (0 <? receiverUserID) && (0 <? netCredit) then
             credit_for p (CreditRequest.mk receiverUserID collateral netCredit
                             "TRADE_COLLATERAL" ref)
           else (p, None)) (λ p,
        andThen
          (if 0 <? buyerUserID then
             credit_for p (CreditRequest.mk buyerUserID
               (PositionAsset (TradeMatchedEvent.MarketID event) (TradeMatchedEvent.Outcome event))
               (TradeMatchedEvent.Quantity event) "TRADE_POSITION" ref)
           else (p, None)) (λ p,
        let platformRevenue := receiverFee ⊞ payerFee in
        if 0 <? platformRevenue then
          credit_for p (CreditRequest.mk PlatformFeeUserID collateral platformRevenue
                          "TRADE_FEE" ref)
        else (p, None)))))
    end).

Definition HandleSettlementCompleted (frozen : result string bool)
    (msg : option SettlementCompletedEvent.t) (p : EventProcessor)
    : EventProcessor * option EventError :=
  with_event frozen msg p (λ event,
    andThen
      (if 0 <? SettlementCompletedEvent.SettledQuantity event then
         debit_for p (CreditRequest.mk (SettlementCompletedEvent.UserID event)
           (SettlementCompletedEvent.PositionAsset event)
           (SettlementCompletedEvent.SettledQuantity event) "SETTLEMENT_DEBIT"
           (SettlementCompletedEvent.EventID event))
       else (p, None)) (λ p,
    if 0 <? SettlementCompletedEvent.PayoutAmount event then
      credit_for p (CreditRequest.mk (SettlementCompletedEvent.UserID event)
        (collateralAsset (SettlementCompletedEvent.PayoutAsset event))
        (SettlementCompletedEvent.PayoutAmount event) "SETTLEMENT_CREDIT"
        (SettlementCompletedEvent.EventID event))
    else (p, None))).
End processor.

Arguments EventProcessor S R : clear implicits.
