(* ===== verification/AccountSql.v ===== *)
(** * Account service: the SQL store

    [account/service/sql_store.go]: the production [BalanceStore] and [OrderStateStore].
    Every method is one transaction over the tables, which may fail; a failed one leaves
    them as they were.  Then what the balance book over this store keeps: its memory and
    the tables agree after every operation, a restart loses nothing, and a reference is
    applied once for all.  A [BIGINT] column refuses a value outside of 64 bits; the width
    of text columns is left out. *)

From S2P Require Import Prelude Strings MatchStore Account AccountInv AccountProps AccountEvents.

Local Open Scope Z_scope.
Local Open Scope go_scope.

(** ** Tables *)

Module BalanceRow.
Record t := mk { available : Z; frozen : Z; created_at : Z; updated_at : Z }.
End BalanceRow.

Module FreezeRow.
Record t := mk {
  user_id : Z;
  asset : string;
  ref_type : string;
  ref_id : string;
  original_amount : Z;
  remaining_amount : Z;
  status : string;
  created_at : Z;
  updated_at : Z;
}.
End FreezeRow.

Module EventRow.
Record t := mk { user_id : Z; asset : string; direction : string; amount : Z; created_at : Z }.
End EventRow.

(** [account_balances] by user and asset, [freeze_records] by [freeze_id],
    [account_balance_events] by type and reference, [orders] by [order_id], the last row of
    [rollup_freeze_state] if there is one. *)
Record AcctDB := mkAcctDB {
  acct_balances : gmap (Z * string) BalanceRow.t;
  acct_freezes : gmap string FreezeRow.t;
  acct_events : gmap (string * string) EventRow.t;
  acct_orders : gmap string OrderRow.t;
  acct_frozen : option bool;
}.

Definition set_acct_balances d x : AcctDB :=
  mkAcctDB x (acct_freezes d) (acct_events d) (acct_orders d) (acct_frozen d).
Definition set_acct_freezes d x : AcctDB :=
  mkAcctDB (acct_balances d) x (acct_events d) (acct_orders d) (acct_frozen d).
Definition set_acct_events d x : AcctDB :=
  mkAcctDB (acct_balances d) (acct_freezes d) x (acct_orders d) (acct_frozen d).
Definition set_acct_orders d x : AcctDB :=
  mkAcctDB (acct_balances d) (acct_freezes d) (acct_events d) x (acct_frozen d).

(** The clock of the database and the failures, by transaction. *)
Record AcctEnv := mkAcctEnv { acct_seconds : nat → Z; acct_fail : nat → option string }.

Record AcctStore := mkAcctStore { adb : AcctDB; aenv : AcctEnv; acount : nat }.

Definition acct_now (s : AcctStore) : Z := acct_seconds (aenv s) (acount s).

Definition acct_tx {A} (s : AcctStore) (body : AcctDB → result AccountError (AcctDB * A))
    : AcctStore * result AccountError A :=
  let next d r := (mkAcctStore d (aenv s) (S (acount s)), r) in
  match acct_fail (aenv s) (acount s) with
  | Some err => next (adb s) (Err (ErrStore err))
  | None =>
      match body (adb s) with
      | Ok (d, a) => next d (Ok a)
      | Err e => next (adb s) (Err e)
      end
  end.

Definition fits_bigint (z : Z) : result AccountError Z :=
  if bool_decide (int64 z) then Ok z else Err (ErrStore "bigint out of range").

(** ** Statements *)

Definition upsert_balance (now : Z) (d : AcctDB) (balance : Balance.t) : AcctDB :=
  let key := (Balance.UserID balance, Balance.Asset balance) in
  let created := match acct_balances d !! key with Some r => BalanceRow.created_at r | None => now end in
  set_acct_balances d (<[key := BalanceRow.mk (Balance.Available balance) (Balance.Frozen balance)
                                  created now]> (acct_balances d)).

Definition freeze_status (r : FreezeRecord.t) : string :=
  if FreezeRecord.Consumed r then "CONSUMED" else if FreezeRecord.Released r then "RELEASED" else "ACTIVE".

Definition original_amount (r : FreezeRecord.t) : Z :=
  if FreezeRecord.OriginalAmount r <=? 0 then FreezeRecord.Amount r else FreezeRecord.OriginalAmount r.

(** A row that has an original amount keeps it. *)
Definition upsert_freeze (now : Z) (d : AcctDB) (r : FreezeRecord.t) : AcctDB :=
  let '(original, created) :=
    match acct_freezes d !! FreezeRecord.FreezeID r with
    | Some row => (if 0 <? FreezeRow.original_amount row then FreezeRow.original_amount row
                   else original_amount r, FreezeRow.created_at row)
    | None => (original_amount r, now)
    end in
  set_acct_freezes d (<[FreezeRecord.FreezeID r :=
    FreezeRow.mk (FreezeRecord.UserID r) (FreezeRecord.Asset r) (FreezeRecord.RefType r)
      (FreezeRecord.RefID r) original (FreezeRecord.Amount r) (freeze_status r) created now]>
    (acct_freezes d)).

(** No row: a balance of zero. *)
Definition loadBalanceTx (d : AcctDB) (userID : Z) (asset : string) : Balance.t :=
  match acct_balances d !! (userID, asset) with
  | Some r => Balance.mk userID asset (BalanceRow.available r) (BalanceRow.frozen r)
  | None => Balance.mk userID asset 0 0
  end.

Definition event_key (req : CreditRequest.t) : string * string :=
  (CreditRequest.RefType req, CreditRequest.RefID req).

(** [INSERT INTO account_balance_events ... ON CONFLICT DO NOTHING]. *)
Definition insert_event (now : Z) (direction : string) (d : AcctDB) (req : CreditRequest.t) : AcctDB :=
  set_acct_events d (<[event_key req := EventRow.mk (CreditRequest.UserID req) (CreditRequest.Asset req)
                                          direction (CreditRequest.Amount req) now]> (acct_events d)).

(** The balance of the request with [available], as [RETURNING] reports it. *)
Definition write_available (now : Z) (d : AcctDB) (req : CreditRequest.t) (available : Z)
    : AcctDB * Balance.t :=
  let current := loadBalanceTx d (CreditRequest.UserID req) (CreditRequest.Asset req) in
  let balance := Balance.mk (CreditRequest.UserID req) (CreditRequest.Asset req) available
                   (Balance.Frozen current) in
  (upsert_balance now d balance, balance).

Definition credit_body (now : Z) (req : CreditRequest.t) (d : AcctDB)
    : result AccountError (AcctDB * (Balance.t * bool)) :=
  let current := loadBalanceTx d (CreditRequest.UserID req) (CreditRequest.Asset req) in
  match acct_events d !! event_key req with
  | Some _ => Ok (d, (current, false))
  | None =>
      let d := insert_event now "CREDIT" d req in
      available ← fits_bigint (Balance.Available current + CreditRequest.Amount req);
      let '(d, balance) := write_available now d req available in
      Ok (d, (balance, true))
  end.

Definition debit_body (now : Z) (req : CreditRequest.t) (d : AcctDB)
    : result AccountError (AcctDB * (Balance.t * bool)) :=
  let current := loadBalanceTx d (CreditRequest.UserID req) (CreditRequest.Asset req) in
  match acct_events d !! event_key req with
  | Some _ => Ok (d, (current, false))
  | None =>
      let d := insert_event now "DEBIT" d req in
      if Balance.Available current <? CreditRequest.Amount req then Err ErrInsufficientBalance
      else if bool_decide (acct_balances d !! (CreditRequest.UserID req, CreditRequest.Asset req) = None)
      then Err ErrInsufficientBalance
      else
        available ← fits_bigint (Balance.Available current - CreditRequest.Amount req);
        let '(d, balance) := write_available now d req available in
        Ok (d, (balance, true))
  end.

(** ** The store *)

Definition store_error {A} (r : result AccountError A) : option string :=
  match r with Ok _ => None | Err (ErrStore e) => Some e | Err _ => Some "" end.

Definition sql_UpsertBalance (s : AcctStore) (balance : Balance.t) : AcctStore * option string :=
  let '(s', r) := acct_tx s (λ d, Ok (upsert_balance (acct_now s) d balance, ())) in (s', store_error r).

Definition sql_UpsertFreeze (s : AcctStore) (record : FreezeRecord.t) : AcctStore * option string :=
  let '(s', r) := acct_tx s (λ d, Ok (upsert_freeze (acct_now s) d record, ())) in (s', store_error r).

Definition sql_UpsertBalanceAndFreeze (s : AcctStore) (balance : Balance.t) (freeze : FreezeRecord.t)
    : AcctStore * option string :=
  let '(s', r) := acct_tx s (λ d,
    Ok (upsert_freeze (acct_now s) (upsert_balance (acct_now s) d balance) freeze, ())) in
  (s', store_error r).

Definition sql_ApplyCreditEvent (s : AcctStore) (req : CreditRequest.t)
    : AcctStore * result AccountError (Balance.t * bool) := acct_tx s (credit_body (acct_now s) req).

Definition sql_ApplyDebitEvent (s : AcctStore) (req : CreditRequest.t)
    : AcctStore * result AccountError (Balance.t * bool) := acct_tx s (debit_body (acct_now s) req).

Definition sql_RollupFrozen (s : AcctStore) : AcctStore * result AccountError bool :=
  acct_tx s (λ d, Ok (d, default false (acct_frozen d))).

#[global] Instance acct_sql : BalanceStore AcctStore := {|
  UpsertBalance := sql_UpsertBalance;
  UpsertBalanceAndFreeze := sql_UpsertBalanceAndFreeze;
  ApplyCreditEvent := sql_ApplyCreditEvent;
  ApplyDebitEvent := sql_ApplyDebitEvent;
|}.

(** The rows as the queries return them; the order they fix is left open. *)
Definition row_balance (kr : Z * string * BalanceRow.t) : Balance.t :=
  Balance.mk kr.1.1 kr.1.2 (BalanceRow.available kr.2) (BalanceRow.frozen kr.2).

Definition row_freeze (kr : string * FreezeRow.t) : FreezeRecord.t :=
  FreezeRecord.mk kr.1 (FreezeRow.user_id kr.2) (FreezeRow.asset kr.2) (FreezeRow.ref_type kr.2)
    (FreezeRow.ref_id kr.2) (FreezeRow.original_amount kr.2) (FreezeRow.remaining_amount kr.2)
    (String.eqb (FreezeRow.status kr.2) "RELEASED") (String.eqb (FreezeRow.status kr.2) "CONSUMED").

Definition LoadBalances (d : AcctDB) : list Balance.t := row_balance <$> map_to_list (acct_balances d).

Definition LoadFreezes (d : AcctDB) : list FreezeRecord.t :=
  row_freeze <$> filter (λ kr, FreezeRow.status kr.2 = "ACTIVE") (map_to_list (acct_freezes d)).

(** A failed read is no state; the registry ignores the error. *)
Definition sql_LoadOrderState (s : AcctStore) (orderID : string) : option OrderState.t :=
  match acct_fail (aenv s) (acount s) with
  | Some _ => None
  | None =>
      r ← acct_orders (adb s) !! orderID;
      Some (OrderState.mk orderID (OrderRow.user_id r) (OrderRow.side r) (OrderRow.price r)
              (OrderRow.freeze_id r) (OrderRow.freeze_asset r) (negb (String.eqb (OrderRow.freeze_id r) ""))
              (OrderRow.status r) (OrderRow.remaining_quantity r))
  end.

Definition mirror_row (now : Z) (state : OrderState.t) (r : OrderRow.t) : OrderRow.t :=
  let keepZ (new old : Z) := if negb (new =? 0) then new else old in
  let keepS (new old : string) := if negb (String.eqb new "") then new else old in
  OrderRow.mk (OrderRow.client_order_id r) (OrderRow.command_id r)
    (keepZ (OrderState.UserID state) (OrderRow.user_id r)) (OrderRow.market_id r) (OrderRow.outcome r)
    (keepS (OrderState.Side state) (OrderRow.side r)) (OrderRow.order_type r) (OrderRow.time_in_force r)
    (OrderRow.collateral_asset r) (keepS (OrderState.FreezeID state) (OrderRow.freeze_id r))
    (keepS (OrderState.FreezeAsset state) (OrderRow.freeze_asset r)) (OrderRow.freeze_amount r)
    (keepZ (OrderState.Price state) (OrderRow.price r)) (OrderRow.quantity r) (OrderRow.filled_quantity r)
    (keepZ (OrderState.RemainingQuantity state) (OrderRow.remaining_quantity r))
    (keepS (OrderState.Status state) (OrderRow.status r)) (OrderRow.cancel_reason r)
    (OrderRow.created_at r) now.

Definition sql_MirrorOrderState (s : AcctStore) (state : OrderState.t) : AcctStore :=
  if String.eqb (OrderState.OrderID state) "" then s
  else (acct_tx s (λ d, Ok (set_acct_orders d
          (alter (mirror_row (acct_now s) state) (OrderState.OrderID state) (acct_orders d)), ()))).1.

#[global] Instance acct_order_states : OrderStateStore AcctStore := {|
  LoadOrderState := sql_LoadOrderState;
  MirrorOrderState := sql_MirrorOrderState;
|}.

(** The book a start of the service builds from the rows ([Run]). *)
Definition hydrated (s : AcctStore) (bs : list Balance.t) (fs : list FreezeRecord.t) : BalanceBook AcctStore :=
  Hydrate (NewBalanceBookWithStore s) bs fs.

(** ** Memory and tables *)

(** A freeze record without its original amount, which the table may keep from an older
    freeze of the same name. *)
Definition erase (r : FreezeRecord.t) : FreezeRecord.t :=
  FreezeRecord.mk (FreezeRecord.FreezeID r) (FreezeRecord.UserID r) (FreezeRecord.Asset r)
    (FreezeRecord.RefType r) (FreezeRecord.RefID r) 0 (FreezeRecord.Amount r) (FreezeRecord.Released r)
    (FreezeRecord.Consumed r).

Definition open_freeze (f : gmap string FreezeRecord.t) (id : string) : option FreezeRecord.t :=
  match f !! id with
  | Some r => if FreezeRecord.active r then Some (erase r) else None
  | None => None
  end.

Definition open_row (d : AcctDB) (id : string) : option FreezeRecord.t :=
  match acct_freezes d !! id with
  | Some row => if String.eqb (FreezeRow.status row) "ACTIVE" then Some (erase (row_freeze (id, row))) else None
  | None => None
  end.

Definition balance_at (m : gmap string Balance.t) (u : Z) (a : string) : Balance.t :=
  default (Balance.mk u a 0 0) (m !! balanceKey u a).

Record mirrors (m : gmap string Balance.t) (f : gmap string FreezeRecord.t) (d : AcctDB) : Prop := {
  mi_named : ∀ k x, m !! k = Some x →
    k = balanceKey (Balance.UserID x) (Balance.Asset x) ∧ normalizeAsset (Balance.Asset x) = Balance.Asset x;
  mi_rows : ∀ u a row, acct_balances d !! (u, a) = Some row → normalizeAsset a = a;
  mi_balance : ∀ u a, normalizeAsset a = a → balance_at m u a = loadBalanceTx d u a;
  mi_freeze : ∀ id, open_freeze f id = open_row d id;
  mi_assets : ∀ id r, f !! id = Some r → normalizeAsset (FreezeRecord.Asset r) = FreezeRecord.Asset r;
}.

Lemma normal_asset a : normalizeAsset (normalizeAsset a) = normalizeAsset a.
Proof. apply normalize_upper_idem. Qed.

Lemma key_inj u a u' a' : normalizeAsset a = a → normalizeAsset a' = a' →
  balanceKey u a = balanceKey u' a' → u = u' ∧ a = a'.
Proof. intros H1 H2 [-> H]%balanceKey_inj. split; congruence. Qed.

(** Writing one balance to both. *)
Lemma mirrors_balance m f d now x k :
  mirrors m f d → normalizeAsset (Balance.Asset x) = Balance.Asset x →
  k = balanceKey (Balance.UserID x) (Balance.Asset x) →
  mirrors (<[k := x]> m) f (upsert_balance now d x).
Proof.
  intros [H1 H2 H3 H4 H5] Hx ->. split; [| | |exact H4|exact H5].
  - intros k y [[<- <-]|[_ Hy]]%lookup_insert_Some; [done|by apply H1].
  - intros u a row. unfold upsert_balance. cbn [acct_balances set_acct_balances].
    intros [[[= <- <-] _]|[_ Hy]]%lookup_insert_Some; [done|by eapply H2].
  - intros u a Ha. unfold balance_at, loadBalanceTx, upsert_balance. cbn [acct_balances set_acct_balances].
    destruct (decide ((Balance.UserID x, Balance.Asset x) = (u, a))) as [[= <- <-]|Hne].
    + rewrite !lookup_insert_eq. by destruct x.
    + rewrite (lookup_insert_ne (acct_balances d)) by done.
      rewrite lookup_insert_ne; [by apply H3|]. intros E%key_inj; [|done..]. destruct E as [<- <-]. done.
Qed.

(** An entry of zero is as good as none. *)
Lemma mirrors_ensure m f d u a :
  mirrors m f d → m !! balanceKey u a = None →
  mirrors (<[balanceKey u a := Balance.mk u (normalizeAsset a) 0 0]> m) f d.
Proof.
  intros [H1 H2 H3 H4 H5] Hn. split; [|exact H2| |exact H4|exact H5].
  - intros k y [[<- <-]|[_ Hy]]%lookup_insert_Some; [|by apply H1].
    cbn [Balance.UserID Balance.Asset]. by rewrite balanceKey_normalize, normal_asset.
  - intros u' a' Ha. rewrite <-H3 by done. unfold balance_at.
    destruct (decide (balanceKey u a = balanceKey u' a')) as [E|]; [|by rewrite lookup_insert_ne].
    rewrite <-E, lookup_insert_eq, Hn. apply balanceKey_inj in E as [-> ->]. by rewrite Ha.
Qed.

(** Writing one freeze to both. *)
Lemma mirrors_freeze m f d now r id :
  mirrors m f d → FreezeRecord.FreezeID r = id → normalizeAsset (FreezeRecord.Asset r) = FreezeRecord.Asset r →
  mirrors m (<[id := r]> f) (upsert_freeze now d r).
Proof.
  intros [H1 H2 H3 H4 H5] <- Hr.
  assert (∃ o c, upsert_freeze now d r = set_acct_freezes d (<[FreezeRecord.FreezeID r :=
    FreezeRow.mk (FreezeRecord.UserID r) (FreezeRecord.Asset r) (FreezeRecord.RefType r)
      (FreezeRecord.RefID r) o (FreezeRecord.Amount r) (freeze_status r) c now]> (acct_freezes d))) as (o & c & ->).
  { unfold upsert_freeze. by destruct (acct_freezes d !! _); eexists _, _. }
  split; [done..| |].
  - intros id. unfold open_freeze, open_row. cbn [acct_freezes set_acct_freezes].
    destruct (decide (FreezeRecord.FreezeID r = id)) as [<-|Hne]; [|rewrite !lookup_insert_ne by done; apply H4].
    rewrite !lookup_insert_eq. destruct r as [i u a rt ri og am [] []]; reflexivity.
  - intros id r' [[_ <-]|[_ Hy]]%lookup_insert_Some; [done|by eapply H5].
Qed.

(** ** Persisting *)

Lemma acct_tx_cases {A} s (body : AcctDB → result AccountError (AcctDB * A)) s' r :
  acct_tx s body = (s', r) →
  (∃ d a, body (adb s) = Ok (d, a) ∧ adb s' = d ∧ r = Ok a) ∨ (∃ e, adb s' = adb s ∧ r = Err e).
Proof.
  unfold acct_tx. destruct (acct_fail _ _); [intros [= <- <-]; right; eauto|].
  destruct (body (adb s)) as [[d a]|e]; intros [= <- <-]; [left|right]; eauto.
Qed.

(** Either the tables have what memory was given, or the call failed and changed nothing. *)
Definition persisted (s s' : AcctStore) (d : AcctDB) (err : option AccountError) : Prop :=
  (err = None ∧ adb s' = d) ∨ (err ≠ None ∧ adb s' = adb s).

Lemma persist_balance_sql b s x : store b = Some s →
  ∃ s' err, persistBalance b x = (set_store b s', err) ∧ persisted s s' (upsert_balance (acct_now s) (adb s) x) err.
Proof.
  intros Hs. unfold persistBalance, UpsertBalance, acct_sql, sql_UpsertBalance. rewrite Hs.
  destruct (acct_tx s _) as [s' r] eqn:E. exists s'. eexists. split; [done|].
  apply acct_tx_cases in E as [(d & a & [= <- _] & ? & ->)|(e & ? & ->)]; [by left|right].
  split; [|done]. by destruct e.
Qed.

Lemma persist_freeze_sql b s x r : store b = Some s →
  ∃ s' err, persistBalanceAndFreeze b x r = (set_store b s', err) ∧
    persisted s s' (upsert_freeze (acct_now s) (upsert_balance (acct_now s) (adb s) x) r) err.
Proof.
  intros Hs. unfold persistBalanceAndFreeze, UpsertBalanceAndFreeze, acct_sql, sql_UpsertBalanceAndFreeze. rewrite Hs.
  destruct (acct_tx s _) as [s' res] eqn:E. exists s'. eexists. split; [done|].
  apply acct_tx_cases in E as [(d & a & [= <- _] & ? & ->)|(e & ? & ->)]; [by left|right].
  split; [|done]. by destruct e.
Qed.

(** ** The operations keep memory and tables together *)

(** After [b]: memory and tables agree, and the events are those of [s]. *)
Definition kept (s : AcctStore) (b : BalanceBook AcctStore) : Prop :=
  ∃ s', store b = Some s' ∧ mirrors (balances b) (freezes b) (adb s') ∧
    acct_events (adb s') = acct_events (adb s).

Lemma kept_refl b s : store b = Some s → mirrors (balances b) (freezes b) (adb s) → kept s b.
Proof. intros Hs Hm. by exists s. Qed.

Lemma upsert_freeze_events now d r : acct_events (upsert_freeze now d r) = acct_events d.
Proof. unfold upsert_freeze. by destruct (acct_freezes d !! _). Qed.

Lemma commit_freeze_kept b s id r x r' x' :
  store b = Some s → mirrors (balances b) (freezes b) (adb s) →
  freezes b !! id = Some r → balances b !! freeze_key r = Some x → FreezeRecord.FreezeID r' = id →
  FreezeRecord.Asset r' = FreezeRecord.Asset r →
  Balance.UserID x' = Balance.UserID x → Balance.Asset x' = Balance.Asset x →
  kept s (commit_freeze b id r x r' x').1.
Proof.
  intros Hs Hm Hr Hx Hid Ha Hu Hxa. unfold commit_freeze. fold (freeze_key r). set (b1 := set_freezes _ _).
  destruct (persist_freeze_sql b1 s x' r' Hs) as (s' & err & -> & [[-> Hd]|[He Hd]]).
  - exists s'. split; [done|]. cbn [fst set_store balances freezes b1 set_freezes set_balances]. rewrite Hd. split.
    + destruct (mi_named _ _ _ Hm _ _ Hx) as [Hk Hn]. apply mirrors_freeze; [|done|].
      * apply mirrors_balance; [done|congruence|]. by rewrite Hk, Hu, Hxa.
      * rewrite Ha. by eapply mi_assets.
    + by rewrite upsert_freeze_events.
  - destruct err; [|done]. exists s'. split; [done|].
    cbn [fst set_store balances freezes b1 set_freezes set_balances]. rewrite !insert_insert_eq, !insert_id, Hd by done. done.
Qed.

Lemma commit_available_kept b s key x delta :
  store b = Some s → mirrors (balances b) (freezes b) (adb s) → balances b !! key = Some x → balance_ok x →
  kept s (commit_available b key x delta).1.
Proof.
  intros Hs Hm Hx Hok. unfold commit_available. set (b1 := set_balances _ _).
  destruct (persist_balance_sql b1 s (Balance.add x delta 0) Hs) as (s' & err & -> & [[-> Hd]|[He Hd]]).
  - exists s'. split; [done|]. cbn [fst set_store balances freezes b1 set_balances]. rewrite Hd. split; [|done].
    destruct (mi_named _ _ _ Hm _ _ Hx) as [Hk Hn]. by apply mirrors_balance.
  - destruct err; [|done]. exists s'. split; [done|]. cbn [fst set_store balances freezes b1 set_balances].
    destruct (balance_ok_int64 x Hok) as [I1 I2]. pose proof (add_undo x delta 0 I1 I2) as Hu. rewrite Z.opp_0 in Hu.
    rewrite alter_insert_eq, Hu, insert_id, Hd by done. done.
Qed.

Lemma ensure_kept b s u a : store b = Some s → mirrors (balances b) (freezes b) (adb s) →
  store (ensureBalance b u a).1 = Some s ∧
  mirrors (balances (ensureBalance b u a).1) (freezes (ensureBalance b u a).1) (adb s) ∧
  balances (ensureBalance b u a).1 !! balanceKey u a = Some (ensureBalance b u a).2.
Proof.
  intros Hs Hm. unfold ensureBalance. destruct (balances b !! balanceKey u a) as [x|] eqn:E; [done|].
  split_and!; [done| |apply lookup_insert_eq]. by apply mirrors_ensure.
Qed.

Lemma freeze_kept b s fresh req :
  store b = Some s → mirrors (balances b) (freezes b) (adb s) → book_ok b → kept s (PreFreeze b fresh req).1.
Proof.
  intros Hs Hm Hb. unfold PreFreeze.
  set (u := FreezeRequest.UserID req). set (a := FreezeRequest.Asset req). set (amount := FreezeRequest.Amount req).
  do 3 (destruct (_ : bool); [by apply kept_refl|]).
  destruct (ensure_kept b s u a Hs Hm) as (Hs1 & Hm1 & Hx).
  destruct (ensureBalance_spec b u a Hb) as (b1 & x & E & Hb1 & Hok & _). rewrite E in *. cbn [fst snd] in *.
  destruct (_ <? _); [by apply kept_refl|]. set (id := if String.eqb _ "" then fresh else _).
  destruct (freezes b1 !! id) eqn:Ef; [by apply kept_refl|].
  set (x' := Balance.add x (- amount) amount). set (r := FreezeRecord.mk _ _ _ _ _ _ _ _ _). set (b2 := set_freezes _ _).
  destruct (mi_named _ _ _ Hm1 _ _ Hx) as [Hk Hn].
  destruct (persist_freeze_sql b2 s x' r Hs1) as (s' & err & -> & [[-> Hd]|[He Hd]]).
  - exists s'. split; [done|]. cbn [fst set_store balances freezes b2 set_freezes set_balances]. rewrite Hd.
    split; [|by rewrite upsert_freeze_events].
    apply mirrors_freeze; [|done|apply normal_asset]. by apply mirrors_balance.
  - destruct err; [|done]. exists s'. split; [done|].
    cbn [fst set_store balances freezes b2 set_freezes set_balances].
    destruct (balance_ok_int64 x Hok) as [I1 I2].
    pose proof (add_undo x (- amount) amount I1 I2) as Hu. rewrite Z.opp_involutive in Hu.
    rewrite alter_insert_eq. unfold x'. rewrite Hu, insert_id, delete_insert_id, Hd by done. done.
Qed.

Lemma active_kept b s id r x r' x' :
  store b = Some s → mirrors (balances b) (freezes b) (adb s) → book_ok b →
  getActiveFreezeLocked b id = Ok (r, x) → FreezeRecord.FreezeID r' = FreezeRecord.FreezeID r →
  FreezeRecord.Asset r' = FreezeRecord.Asset r →
  Balance.UserID x' = Balance.UserID x → Balance.Asset x' = Balance.Asset x →
  kept s (commit_freeze b id r x r' x').1.
Proof.
  intros Hs Hm Hb Hg Hi Ha Hu Hxa.
  destruct (getActiveFreezeLocked_ok b id r x Hb Hg) as (Hr & Hx & (Hid & _) & _).
  apply commit_freeze_kept; try done. congruence.
Qed.

(** The operations other than those with a reference. *)
Lemma exec_kept b s o :
  store b = Some s → mirrors (balances b) (freezes b) (adb s) → book_ok b →
  match o with OpCreditRef _ | OpDebitRef _ => True | _ => kept s (exec b o).1 end.
Proof.
  intros Hs Hm Hb.
  destruct o as [fresh req|fresh req|id|id n|id n|u a n|u a n|req|req]; cbn [exec drop_value fst]; try done.
  - by apply freeze_kept.
  - unfold ApplyExternalFreeze. destruct (String.eqb _ ""); [by apply kept_refl|]. by apply freeze_kept.
  - unfold ReleaseFreeze. destruct (getActiveFreezeLocked b id) as [[r x]|] eqn:Hg; [|by apply kept_refl].
    by apply active_kept.
  - unfold ReleaseFreezeAmount. destruct (_ <=? _); [by apply kept_refl|].
    destruct (getActiveFreezeLocked b id) as [[r x]|] eqn:Hg; [|by apply kept_refl].
    destruct (_ <? _); [by apply kept_refl|]. by apply active_kept.
  - unfold ConsumeFreeze. destruct (_ <=? _); [by apply kept_refl|].
    destruct (getActiveFreezeLocked b id) as [[r x]|] eqn:Hg; [|by apply kept_refl].
    destruct (_ <? _); [by apply kept_refl|]. by apply active_kept.
  - unfold CreditAvailable. destruct (_ || _); [by apply kept_refl|]. destruct (String.eqb _ ""); [by apply kept_refl|].
    destruct (ensure_kept b s u a Hs Hm) as (Hs1 & Hm1 & Hx).
    destruct (ensureBalance_spec b u a Hb) as (b1 & x & E & Hb1 & Hok & _). rewrite E in *. cbn [fst snd] in *.
    by apply commit_available_kept.
  - unfold DebitAvailable. destruct (_ || _); [by apply kept_refl|]. destruct (String.eqb _ ""); [by apply kept_refl|].
    destruct (balances b !! _) as [x|] eqn:Ex; [|by apply kept_refl]. destruct (_ <? _); [by apply kept_refl|].
    apply commit_available_kept; [done..|]. by apply (ok_balances _ Hb _ _ Ex).
Qed.

(** ** References *)

Definition ref_of (req : CreditRequest.t) : string * string :=
  (normalize_upper (CreditRequest.RefType req), TrimSpace (CreditRequest.RefID req)).

(** What an accepted call with a reference does to memory and tables. *)
Record ref_applied (sign : Z) (b b' : BalanceBook AcctStore) (s s' : AcctStore) (req : CreditRequest.t)
    (x : Balance.t) (applied : bool) : Prop := {
  ra_store : store b' = Some s';
  ra_mirrors : mirrors (balances b') (freezes b') (adb s');
  ra_answer : x = GetBalance b' (CreditRequest.UserID req) (CreditRequest.Asset req);
  ra_applied : applied = true ↔ acct_events (adb s) !! ref_of req = None;
  ra_recorded : is_Some (acct_events (adb s') !! ref_of req);
  ra_events : acct_events (adb s) ⊆ acct_events (adb s');
  ra_amount : ∀ k, total_at b' k = total_at b k +
    (if applied then at_key (balanceKey (CreditRequest.UserID req) (CreditRequest.Asset req))
                       (sign * CreditRequest.Amount req) k else 0);
}.

Lemma mirrors_same m f d u a : mirrors m f d → normalizeAsset a = a →
  mirrors (<[balanceKey u a := balance_at m u a]> m) f d.
Proof.
  intros Hm Ha. unfold balance_at. destruct (m !! balanceKey u a) as [x|] eqn:E; cbn [default from_option id].
  - by rewrite insert_id.
  - rewrite <-Ha at 2. by apply mirrors_ensure.
Qed.

Lemma mirrors_event m f d now dir req : mirrors m f d → mirrors m f (insert_event now dir d req).
Proof. by intros [H1 H2 H3 H4 H5]. Qed.

(** The two ways a transaction with a reference ends well. *)
Definition body_ok (sign now : Z) (dir : string) (req : CreditRequest.t) (d d' : AcctDB) (x : Balance.t) (applied : bool) : Prop :=
  let cur := loadBalanceTx d (CreditRequest.UserID req) (CreditRequest.Asset req) in
  (applied = false ∧ is_Some (acct_events d !! event_key req) ∧ d' = d ∧ x = cur) ∨
  (applied = true ∧ acct_events d !! event_key req = None ∧
   d' = upsert_balance now (insert_event now dir d req) x ∧
   x = Balance.mk (CreditRequest.UserID req) (CreditRequest.Asset req)
         (Balance.Available cur + sign * CreditRequest.Amount req) (Balance.Frozen cur) ∧
   (sign = -1 → CreditRequest.Amount req ≤ Balance.Available cur)).

Lemma fits_bigint_Ok z z' : fits_bigint z = Ok z' → z' = z.
Proof. unfold fits_bigint. case_bool_decide; [by intros [= <-]|done]. Qed.

Lemma credit_cases now req d d' x applied :
  credit_body now req d = Ok (d', (x, applied)) → body_ok 1 now "CREDIT" req d d' x applied.
Proof.
  unfold credit_body, body_ok. destruct (acct_events d !! event_key req) eqn:E; cbv zeta.
  - intros [= <- <- <-]. left. by eauto.
  - intros (z & Hz%fits_bigint_Ok & [= <- <- <-])%result_bind_Ok. right. subst z.
    split_and!; [done|done|done| |lia]. by rewrite Z.mul_1_l.
Qed.

Lemma debit_cases now req d d' x applied :
  debit_body now req d = Ok (d', (x, applied)) → body_ok (-1) now "DEBIT" req d d' x applied.
Proof.
  unfold debit_body, body_ok. destruct (acct_events d !! event_key req) eqn:E; cbv zeta.
  - intros [= <- <- <-]. left. by eauto.
  - destruct (Z.ltb_spec (Balance.Available (loadBalanceTx d (CreditRequest.UserID req) (CreditRequest.Asset req)))
      (CreditRequest.Amount req)); [done|].
    destruct (bool_decide _); [done|].
    intros (z & Hz%fits_bigint_Ok & [= <- <- <-])%result_bind_Ok. right. subst z.
    split_and!; [done..|lia].
Qed.

(** Replacing one balance by one with the same frozen amount. *)
Lemma book_ok_balance (b : BalanceBook AcctStore) k x :
  book_ok b → Balance.Frozen x = frozen_at b k → balance_ok x → book_ok (set_balances b (<[k := x]> (balances b))).
Proof.
  intros [H1 H2 H3] Hf Hx. split; [by apply map_Forall_insert_2|done|].
  intros k'. unfold set_balances. rewrite frozen_at_insert. case_decide as E; [|apply H3]. subst k'. by rewrite Hf.
Qed.

Lemma balance_at_facts (b : BalanceBook AcctStore) u a : book_ok b →
  balance_ok (balance_at (balances b) u a) ∧
  Balance.Frozen (balance_at (balances b) u a) = frozen_at b (balanceKey u a) ∧
  Balance.Available (balance_at (balances b) u a) + Balance.Frozen (balance_at (balances b) u a) =
    total_at b (balanceKey u a).
Proof.
  intros Hb. unfold balance_at, frozen_at, total_at. destruct (balances b !! balanceKey u a) as [x|] eqn:E.
  - split_and!; [by apply (ok_balances _ Hb _ _ E)|done..].
  - split_and!; [|done..]. unfold balance_ok, MaxInt64. cbn. lia.
Qed.

(** One call of the store, written back to memory. *)
Lemma body_applied sign now dir (b : BalanceBook AcctStore) s s' req x applied :
  let u := CreditRequest.UserID req in
  let a := normalizeAsset (CreditRequest.Asset req) in
  let b' := set_balances (set_store b s') (<[balanceKey (Balance.UserID x) (Balance.Asset x) := x]> (balances b)) in
  store b = Some s → mirrors (balances b) (freezes b) (adb s) → book_ok b →
  (sign = 1 ∧ credit_fits b u (CreditRequest.Asset req) (CreditRequest.Amount req) ∨ sign = -1) →
  0 < CreditRequest.Amount req →
  body_ok sign now dir (normalized_request req) (adb s) (adb s') x applied →
  ref_applied sign b b' s s' req x applied ∧ book_ok b'.
Proof.
  intros u a b' Hs Hm Hb Hsign Hpos Hbody.
  assert (normalizeAsset a = a) as Ha by apply normal_asset.
  destruct (balance_at_facts b u a Hb) as (Hok & Hfr & Htot).
  assert (balanceKey u a = balanceKey u (CreditRequest.Asset req)) as Hkey by apply balanceKey_normalize.
  unfold credit_fits in Hsign. rewrite <-Hkey in Hsign.
  pose proof (mi_balance _ _ _ Hm u a Ha) as Hcur. change (event_key (normalized_request req)) with (ref_of req) in *.
  unfold body_ok in Hbody. cbn [normalized_request CreditRequest.UserID CreditRequest.Asset CreditRequest.Amount] in Hbody.
  fold u a in Hbody. rewrite <-Hcur in Hbody.
  assert (∀ y, Balance.UserID y = u → Balance.Asset y = a →
    GetBalance (set_balances (set_store b s') (<[balanceKey u a := y]> (balances b))) u (CreditRequest.Asset req) = y) as Hget.
  { intros y _ _. unfold GetBalance. cbn [balances set_balances]. by rewrite <-Hkey, lookup_insert_eq. }
  assert (∀ y k, total_at (set_balances (set_store b s') (<[balanceKey u a := y]> (balances b))) k =
    if decide (k = balanceKey u a) then Balance.Available y + Balance.Frozen y else total_at b k) as Htotal.
  { intros y k. unfold set_balances. apply total_at_insert. }
  destruct Hbody as [(-> & Hev & Hd & ->)|(-> & Hev & Hd & Hx & Hle)].
  - assert (Balance.UserID (balance_at (balances b) u a) = u ∧ Balance.Asset (balance_at (balances b) u a) = a) as [E1 E2].
    { rewrite Hcur. unfold loadBalanceTx. by destruct (acct_balances (adb s) !! (u, a)). }
    subst b'. rewrite E1, E2. split; [split|].
    + done.
    + cbn [balances freezes set_balances set_store]. rewrite Hd. by apply mirrors_same.
    + by rewrite Hget.
    + split; [done|]. intros He. change (event_key (normalized_request req)) with (ref_of req) in Hev.
      rewrite He in Hev. by destruct Hev.
    + by rewrite Hd.
    + by rewrite Hd.
    + intros k. rewrite Htotal. case_decide as E; [|lia]. subst k. lia.
    + apply (book_ok_balance (set_store b s')); [by apply (book_ok_memory b)|exact Hfr|exact Hok].
  - assert (Balance.UserID x = u ∧ Balance.Asset x = a) as [E1 E2] by (by rewrite Hx).
    assert (Balance.Available x = Balance.Available (balance_at (balances b) u a) + sign * CreditRequest.Amount req ∧
      Balance.Frozen x = Balance.Frozen (balance_at (balances b) u a)) as [E3 E4] by (by rewrite Hx).
    subst b'. rewrite E1, E2. split; [split|].
    + done.
    + cbn [balances freezes set_balances set_store]. rewrite Hd. apply mirrors_balance; [by apply mirrors_event|by rewrite E2|by rewrite E1, E2].
    + by rewrite Hget.
    + done.
    + rewrite Hd. cbn [upsert_balance insert_event acct_events set_acct_balances set_acct_events].
      change (event_key (normalized_request req)) with (ref_of req). rewrite lookup_insert_eq. by eexists.
    + rewrite Hd. cbn [upsert_balance insert_event acct_events set_acct_balances set_acct_events].
      by apply insert_subseteq.
    + intros k. rewrite Htotal. unfold at_key. fold u. rewrite <-Hkey. case_decide as E; [|lia]. subst k. lia.
    + apply (book_ok_balance (set_store b s')); [by apply (book_ok_memory b)|by rewrite E4|].
      unfold balance_ok in *. rewrite E3, E4. destruct Hsign as [[-> Hfit]| ->]; [lia|]. specialize (Hle eq_refl). lia.
Qed.

Lemma with_ref_sql sign dir body remote local (b b' : BalanceBook AcctStore) s req res :
  (∀ s r, remote s r = acct_tx s (body (acct_now s) r)) →
  (∀ now r d d' x applied, body now r d = Ok (d', (x, applied)) → body_ok sign now dir r d d' x applied) →
  (sign = 1 ∧ credit_fits b (CreditRequest.UserID req) (CreditRequest.Asset req) (CreditRequest.Amount req) ∨ sign = -1) →
  store b = Some s → mirrors (balances b) (freezes b) (adb s) → book_ok b →
  apply_with_ref remote local b req = (b', res) →
  book_ok b' ∧
  match res with
  | Ok (x, applied) => ∃ s', ref_applied sign b b' s s' req x applied
  | Err _ => kept s b' ∧ obs_eq b b'
  end.
Proof.
  intros Hr Hbody Hfit Hs Hm Hb. unfold apply_with_ref.
  assert (∀ e, (b, Err e) = (b', res) → book_ok b' ∧
    match res with
    | Ok (x, applied) => ∃ s', ref_applied sign b b' s s' req x applied
    | Err _ => kept s b' ∧ obs_eq b b'
    end) as Hrefused.
  { intros e [= <- <-]. split; [done|]. split; [by apply kept_refl|done]. }
  destruct (_ || _) eqn:Eg; [apply Hrefused|]. apply orb_false_iff in Eg as [_ Hpos%Z.leb_gt].
  destruct (String.eqb _ ""); [apply Hrefused|]. destruct (_ || _); [apply Hrefused|].
  rewrite Hs, Hr. destruct (acct_tx s _) as [s' r] eqn:E.
  apply acct_tx_cases in E as [(d & [x applied] & E & Hd & ->)|(e & Hd & ->)].
  - intros [= <- <-]. apply Hbody in E. rewrite <-Hd in E.
    destruct (body_applied sign _ dir b s s' req x applied Hs Hm Hb Hfit Hpos E) as [H1 H2].
    split; [exact H2|]. exists s'. exact H1.
  - intros [= <- <-]. split; [by apply (book_ok_memory b)|]. split; [exists s'; by rewrite Hd|]. by apply obs_eq_memory.
Qed.

(** ** A restart *)

Section fold.
Context {A V : Type} (key : A → string) (val : A → V).
Implicit Types (l : list A) (m : gmap string V).

Lemma fold_insert l m k v : NoDup (key <$> l) →
  fold_left (λ m x, <[key x := val x]> m) l m !! k = Some v ↔
  (∃ x, x ∈ l ∧ key x = k ∧ val x = v) ∨ (m !! k = Some v ∧ k ∉ key <$> l).
Proof.
  revert m. induction l as [|y l IH]; intros m.
  - intros _. split; [by right; split; [done|apply not_elem_of_nil]|]. intros [(x & Hx & _)|[? _]]; [|done].
    by apply elem_of_nil in Hx.
  - intros [Hy Hl]%NoDup_cons. cbn [fold_left]. rewrite IH by done. split.
    + intros [(x & Hx & ? & ?)|[[[<- <-]|[Hne ?]]%lookup_insert_Some Hk]].
      * left. exists x. split_and!; [by right|done..].
      * left. exists y. split_and!; [by left|done..].
      * right. split; [done|]. rewrite fmap_cons. apply not_elem_of_cons. split; [by intros ->|done].
    + intros [(x & [->|Hx]%elem_of_cons & <- & <-)|[? [? ?]%not_elem_of_cons]].
      * right. split; [apply lookup_insert_eq|done].
      * left. by exists x.
      * right. split; [|done]. by rewrite lookup_insert_ne.
Qed.
End fold.

Definition named_balance (x : Balance.t) : Balance.t :=
  Balance.mk (Balance.UserID x) (normalizeAsset (Balance.Asset x)) (Balance.Available x) (Balance.Frozen x).
Definition named_freeze (r : FreezeRecord.t) : FreezeRecord.t :=
  FreezeRecord.mk (FreezeRecord.FreezeID r) (FreezeRecord.UserID r) (normalizeAsset (FreezeRecord.Asset r))
    (FreezeRecord.RefType r) (FreezeRecord.RefID r) (FreezeRecord.OriginalAmount r) (FreezeRecord.Amount r)
    (FreezeRecord.Released r) (FreezeRecord.Consumed r).

Lemma hydrated_balances s bs fs : balances (hydrated s bs fs) =
  fold_left (λ m x, <[balanceKey (Balance.UserID x) (normalizeAsset (Balance.Asset x)) := named_balance x]> m) bs ∅.
Proof. reflexivity. Qed.

Lemma hydrated_freezes s bs fs : freezes (hydrated s bs fs) =
  fold_left (λ m x, <[FreezeRecord.FreezeID x := named_freeze x]> m) fs ∅.
Proof. reflexivity. Qed.

(** The rows as a list without repetition. *)
Lemma load_balances_spec d bs : (∀ u a row, acct_balances d !! (u, a) = Some row → normalizeAsset a = a) →
  bs ≡ₚ LoadBalances d →
  NoDup ((λ x, balanceKey (Balance.UserID x) (normalizeAsset (Balance.Asset x))) <$> bs) ∧
  ∀ x, x ∈ bs ↔ ∃ u a row, acct_balances d !! (u, a) = Some row ∧ x = row_balance (u, a, row).
Proof.
  intros Hn Hp. split.
  - rewrite Hp. unfold LoadBalances. rewrite <-list_fmap_compose.
    apply (NoDup_fmap_2_strong _ _); [|apply NoDup_map_to_list].
    intros [[u a] r] [[u' a'] r'] H1%elem_of_map_to_list H2%elem_of_map_to_list.
    cbn [compose row_balance Balance.UserID Balance.Asset fst snd]. rewrite (Hn _ _ _ H1), (Hn _ _ _ H2).
    intros E%key_inj; [|by eapply Hn..]. destruct E as [<- <-]. congruence.
  - intros x. rewrite Hp. unfold LoadBalances. rewrite list_elem_of_fmap. split.
    + intros ([[u a] r] & -> & Hx%elem_of_map_to_list). by exists u, a, r.
    + intros (u & a & r & Hx & ->). exists (u, a, r). by rewrite elem_of_map_to_list.
Qed.

Lemma load_freezes_spec d fs : fs ≡ₚ LoadFreezes d →
  NoDup (FreezeRecord.FreezeID <$> fs) ∧
  ∀ r, r ∈ fs ↔ ∃ id row, acct_freezes d !! id = Some row ∧ FreezeRow.status row = "ACTIVE" ∧ r = row_freeze (id, row).
Proof.
  intros Hp. split.
  - rewrite Hp. unfold LoadFreezes. rewrite <-list_fmap_compose.
    apply (NoDup_fmap_2_strong _ _); [|apply NoDup_filter, NoDup_map_to_list].
    intros [i r] [i' r'] [_ H1%elem_of_map_to_list]%list_elem_of_filter [_ H2%elem_of_map_to_list]%list_elem_of_filter.
    cbn. intros <-. congruence.
  - intros r. rewrite Hp. unfold LoadFreezes. rewrite list_elem_of_fmap. split.
    + intros ([i row] & -> & [Hst Hx%elem_of_map_to_list]%list_elem_of_filter). by exists i, row.
    + intros (i & row & Hx & Hst & ->). exists (i, row). split; [done|]. apply list_elem_of_filter.
      by rewrite elem_of_map_to_list.
Qed.

Lemma hydrated_mirrors m f d s bs fs :
  mirrors m f d → bs ≡ₚ LoadBalances d → fs ≡ₚ LoadFreezes d →
  mirrors (balances (hydrated s bs fs)) (freezes (hydrated s bs fs)) d.
Proof.
  intros Hm Hbs Hfs. pose proof Hm as [H1 H2 H3 H4 H5].
  destruct (load_balances_spec d bs H2 Hbs) as [Hnb Hb]. destruct (load_freezes_spec d fs Hfs) as [Hnf Hf].
  assert (∀ id row, acct_freezes d !! id = Some row → FreezeRow.status row = "ACTIVE" →
    normalizeAsset (FreezeRow.asset row) = FreezeRow.asset row) as Hasset.
  { intros id row Hr Hst. pose proof (H4 id) as E. unfold open_freeze, open_row in E. rewrite Hr, Hst in E. cbn in E.
    destruct (f !! id) as [r|] eqn:Er; [|done]. destruct (FreezeRecord.active r); [|done].
    pose proof (H5 id r Er) as Hn. injection E as _ _ Ea _ _ _ _ _. congruence. }
  rewrite hydrated_balances, hydrated_freezes. split.
  - intros k x [(y & (u & a & row & Hrow & ->)%Hb & <- & <-)|[Hx _]]%fold_insert; [|by rewrite lookup_empty in Hx|done].
    split; [done|apply normal_asset].
  - exact H2.
  - intros u a Ha. unfold balance_at, loadBalanceTx.
    destruct (acct_balances d !! (u, a)) as [row|] eqn:Er.
    + assert (fold_left (λ m x, <[balanceKey (Balance.UserID x) (normalizeAsset (Balance.Asset x)) := named_balance x]> m)
        bs ∅ !! balanceKey u a = Some (named_balance (row_balance (u, a, row)))) as ->.
      { apply fold_insert; [done|]. left. exists (row_balance (u, a, row)). split_and!; [|cbn [row_balance Balance.UserID Balance.Asset fst snd]; by rewrite Ha|done].
        apply Hb. by exists u, a, row. }
      unfold named_balance. cbn [default from_option row_balance Balance.UserID Balance.Asset Balance.Available Balance.Frozen fst snd].
      unfold id. by rewrite Ha.
    + destruct (fold_left _ bs ∅ !! balanceKey u a) as [x|] eqn:E; [|done].
      apply fold_insert in E as [(y & (u' & a' & row & Hrow & ->)%Hb & Ek & <-)|[Hx _]];
        [|by rewrite lookup_empty in Hx|done].
      cbn [row_balance Balance.UserID Balance.Asset fst snd] in Ek. rewrite (H2 _ _ _ Hrow) in Ek. apply key_inj in Ek as [-> ->]; [congruence|by eapply H2|done].
  - intros id. unfold open_freeze, open_row.
    destruct (fold_left _ fs ∅ !! id) as [r|] eqn:E.
    + apply fold_insert in E as [(y & (id' & row & Hrow & Hst & ->)%Hf & Ek & <-)|[Hx _]];
        [|by rewrite lookup_empty in Hx|done].
      cbn in Ek. subst id'. rewrite Hrow, Hst. unfold FreezeRecord.active, named_freeze, row_freeze, erase.
      cbn [FreezeRecord.FreezeID FreezeRecord.UserID FreezeRecord.Asset FreezeRecord.RefType FreezeRecord.RefID
        FreezeRecord.Amount FreezeRecord.Released FreezeRecord.Consumed fst snd].
      by rewrite Hst, (Hasset id row Hrow Hst).
    + destruct (acct_freezes d !! id) as [row|] eqn:Er; [|done].
      destruct (String.eqb_spec (FreezeRow.status row) "ACTIVE") as [Hst|]; [|done]. exfalso.
      pose proof (proj2 (fold_insert FreezeRecord.FreezeID named_freeze fs ∅ id (named_freeze (row_freeze (id, row))) Hnf))
        as Hc. rewrite E in Hc. discriminate Hc. left. exists (row_freeze (id, row)). split_and!; [|done..].
      apply Hf. by exists id, row.
  - intros id r [(y & _ & _ & <-)|[Hx _]]%fold_insert; [apply normal_asset|by rewrite lookup_empty in Hx|done].
Qed.

(** Sums over two maps that agree up to entries that count for nothing. *)
Lemma msum_agree {V} (f : V → Z) (m m' : gmap string V) :
  (∀ k, default 0 (f <$> m' !! k) = default 0 (f <$> m !! k)) → msum f m' = msum f m.
Proof.
  revert m'. induction m as [|k v m Hk IH] using map_ind; intros m' Hm.
  - rewrite msum_empty. revert Hm. induction m' as [|k v m' Hk IH'] using map_ind; intros Hm; [by rewrite msum_empty|].
    rewrite msum_insert by done. pose proof (Hm k) as E. rewrite lookup_insert_eq, lookup_empty in E. cbn in E.
    rewrite E, IH'; [done|]. intros k'. destruct (decide (k = k')) as [<-|]; [by rewrite Hk|].
    pose proof (Hm k') as E'. by rewrite lookup_insert_ne in E'.
  - rewrite msum_insert by done. pose proof (Hm k) as E. rewrite lookup_insert_eq in E. cbn in E.
    assert (msum f m' = default 0 (f <$> m' !! k) + msum f (delete k m')) as ->.
    { destruct (m' !! k) as [v'|] eqn:Ev; cbn; [rewrite (msum_delete f m' k v' Ev); lia|by rewrite delete_id]. }
    rewrite E, (IH (delete k m')); [done|]. intros k'. destruct (decide (k = k')) as [<-|].
    + by rewrite lookup_delete_eq, Hk.
    + rewrite lookup_delete_ne by done. rewrite Hm. by rewrite lookup_insert_ne.
Qed.

(** Two books that mirror the same tables look the same. *)
Lemma same_tables (b b' : BalanceBook AcctStore) d :
  mirrors (balances b) (freezes b) d → mirrors (balances b') (freezes b') d →
  (∀ u a, GetBalance b' u a = GetBalance b u a) ∧ (∀ k, frozen_at b' k = frozen_at b k) ∧
  ∀ id, open_freeze (freezes b') id = open_freeze (freezes b) id.
Proof.
  intros Hm Hm'.
  assert (∀ u a, GetBalance b' u a = GetBalance b u a) as Hg.
  { intros u a. pose proof (normal_asset a) as Ha.
    pose proof (mi_balance _ _ _ Hm u _ Ha) as E. pose proof (mi_balance _ _ _ Hm' u _ Ha) as E'.
    unfold balance_at in E, E'. rewrite balanceKey_normalize in E, E'. unfold GetBalance. congruence. }
  split_and!; [done| |].
  - assert (∀ (c c' : BalanceBook AcctStore) k, mirrors (balances c) (freezes c) d → mirrors (balances c') (freezes c') d →
      (∀ u a, GetBalance c' u a = GetBalance c u a) → ∀ x, balances c !! k = Some x → frozen_at c' k = frozen_at c k) as Hone.
    { intros c c' k Hc Hc' Hcg x Hx. destruct (mi_named _ _ _ Hc _ _ Hx) as [-> Hn].
      pose proof (Hcg (Balance.UserID x) (Balance.Asset x)) as E. unfold GetBalance in E. unfold frozen_at. rewrite Hx in *.
      cbn in E. destruct (balances c' !! _); cbn in *; by rewrite <-E. }
    intros k. destruct (balances b !! k) as [x|] eqn:E; [by eapply Hone|].
    destruct (balances b' !! k) as [x|] eqn:E'; [symmetry; by eapply Hone|]. unfold frozen_at. by rewrite E, E'.
  - intros id. rewrite (mi_freeze _ _ _ Hm), (mi_freeze _ _ _ Hm'). done.
Qed.

Lemma open_amount f id k : (∀ r, f !! id = Some r → freeze_ok id r) →
  default 0 (frozen_for k <$> f !! id) = default 0 (frozen_for k <$> open_freeze f id).
Proof.
  intros Hok. unfold open_freeze. destruct (f !! id) as [r|] eqn:E; [|done].
  destruct (FreezeRecord.active r) eqn:Ea; [done|]. cbn. unfold frozen_for.
  destruct (Hok r eq_refl) as (_ & _ & ->); [|done]. by destruct (String.eqb _ _).
Qed.

Lemma hydrated_active d s bs fs id r :
  fs ≡ₚ LoadFreezes d → freezes (hydrated s bs fs) !! id = Some r → FreezeRecord.active r = true.
Proof.
  intros Hfs. destruct (load_freezes_spec d fs Hfs) as [Hnf Hf]. rewrite hydrated_freezes.
  intros [(y & (i & row & _ & Hst & ->)%Hf & _ & <-)|[Hx _]]%fold_insert; [|by rewrite lookup_empty in Hx|done].
  unfold FreezeRecord.active. cbn. by rewrite Hst.
Qed.

Lemma hydrated_ok (b : BalanceBook AcctStore) d s bs fs :
  book_ok b → mirrors (balances b) (freezes b) d → bs ≡ₚ LoadBalances d → fs ≡ₚ LoadFreezes d →
  book_ok (hydrated s bs fs).
Proof.
  intros Hb Hm Hbs Hfs. pose proof (hydrated_mirrors _ _ d s bs fs Hm Hbs Hfs) as Hm'.
  set (b' := hydrated s bs fs) in *. destruct (same_tables b b' d Hm Hm') as (Hg & Hfr & Hop).
  assert (∀ id r, freezes b' !! id = Some r → freeze_ok id r) as Hok'.
  { intros id r Hr. pose proof (hydrated_active d s bs fs id r Hfs Hr) as Hact. specialize (Hop id).
    unfold open_freeze in Hop. rewrite Hr, Hact in Hop. destruct (freezes b !! id) as [r0|] eqn:Er; [|done].
    destruct (FreezeRecord.active r0) eqn:Ea; [|done]. destruct (ok_freezes _ Hb _ _ Er) as (Hid & Ham & _).
    injection Hop as Ei _ _ _ _ Eam _ _. split_and!; [congruence|by rewrite Eam|by rewrite Hact]. }
  split; [|exact Hok'|].
  - intros k x Hx. destruct (mi_named _ _ _ Hm' _ _ Hx) as [-> Hn].
    assert (x = GetBalance b (Balance.UserID x) (Balance.Asset x)) as -> by (rewrite <-Hg; unfold GetBalance; by rewrite Hx).
    unfold GetBalance. destruct (balances b !! _) eqn:E; [by apply (ok_balances _ Hb _ _ E)|].
    unfold balance_ok, MaxInt64. cbn. lia.
  - intros k. rewrite Hfr, (ok_frozen _ Hb k). symmetry. apply msum_agree. intros id.
    rewrite (open_amount (freezes b') id k), (open_amount (freezes b) id k), Hop; [done| |by apply Hok'].
    intros r Hr. by apply (ok_freezes _ Hb).
Qed.

(** ** Reachable books *)

(** Credits must fit; the code does not check this. *)
Definition fits (b : BalanceBook AcctStore) (o : acct_op) : Prop :=
  match o with
  | OpCredit u a n => credit_fits b u a n
  | OpCreditRef req => credit_fits b (CreditRequest.UserID req) (CreditRequest.Asset req) (CreditRequest.Amount req)
  | _ => True
  end.

(** An operation of the book, or a restart of the service on the tables as they are. *)
Inductive acct_step : BalanceBook AcctStore → BalanceBook AcctStore → Prop :=
| acct_exec b o : fits b o → acct_step b (exec b o).1
| acct_restart b s s' bs fs :
    store b = Some s → adb s' = adb s → bs ≡ₚ LoadBalances (adb s) → fs ≡ₚ LoadFreezes (adb s) →
    acct_step b (hydrated s' bs fs).

Inductive acct_reach : BalanceBook AcctStore → Prop :=
| acct_reach_new s : acct_balances (adb s) = ∅ → acct_freezes (adb s) = ∅ → acct_reach (NewBalanceBookWithStore s)
| acct_reach_step b b' : acct_reach b → acct_step b b' → acct_reach b'.

Definition acct_good (b : BalanceBook AcctStore) : Prop :=
  book_ok b ∧ ∃ s, store b = Some s ∧ mirrors (balances b) (freezes b) (adb s).

(** The references recorded for good. *)
Definition events_of (b : BalanceBook AcctStore) : gmap (string * string) EventRow.t :=
  match store b with Some s => acct_events (adb s) | None => ∅ end.

Definition call (credit : bool) (b : BalanceBook AcctStore) (req : CreditRequest.t)
    : BalanceBook AcctStore * result AccountError (Balance.t * bool) :=
  if credit then CreditAvailableWithRef b req else DebitAvailableWithRef b req.
Definition call_sign (credit : bool) : Z := if credit then 1 else -1.
Definition call_op (credit : bool) (req : CreditRequest.t) : acct_op :=
  if credit then OpCreditRef req else OpDebitRef req.

Lemma call_sql credit (b : BalanceBook AcctStore) s req b' res :
  fits b (call_op credit req) → store b = Some s → mirrors (balances b) (freezes b) (adb s) → book_ok b →
  call credit b req = (b', res) →
  book_ok b' ∧
  match res with
  | Ok (x, applied) => ∃ s', ref_applied (call_sign credit) b b' s s' req x applied
  | Err _ => kept s b' ∧ obs_eq b b'
  end.
Proof.
  destruct credit; cbn [call call_op fits call_sign]; intros Hf Hs Hm Hb E.
  - eapply (with_ref_sql 1 "CREDIT" credit_body); [..|exact E]; try done; [apply credit_cases|by left].
  - eapply (with_ref_sql (-1) "DEBIT" debit_body); [..|exact E]; try done; [apply debit_cases|by right].
Qed.

Lemma exec_call credit b req : exec b (call_op credit req) = drop_value (call credit b req).
Proof. by destruct credit. Qed.

Lemma call_good credit b req : fits b (call_op credit req) → acct_good b →
  acct_good (call credit b req).1 ∧ events_of b ⊆ events_of (call credit b req).1.
Proof.
  intros Hf (Hb & s & Hs & Hm). destruct (call credit b req) as [b' res] eqn:E.
  apply (call_sql credit b s) in E as [Hb' E]; [|done..]. cbn [fst]. unfold acct_good, events_of. rewrite Hs.
  destruct res as [[x applied]|].
  - destruct E as (s' & [H1 H2 _ _ _ H3 _]). rewrite H1. split; [split; [done|by exists s']|done].
  - destruct E as [(s' & H1 & H2 & H3) _]. rewrite H1. split; [split; [done|by exists s']|by rewrite H3].
Qed.

Lemma step_good b b' : acct_step b b' → acct_good b → acct_good b' ∧ events_of b ⊆ events_of b'.
Proof.
  intros [b0 o Hf|b0 s s' bs fs Hs Hd Hbs Hfs] (Hb & s0 & Hs0 & Hm).
  - assert (∀ credit req, o = call_op credit req → acct_good (exec b0 o).1 ∧ events_of b0 ⊆ events_of (exec b0 o).1) as Href.
    { intros credit req ->. rewrite exec_call. apply call_good; [done|]. split; [done|by exists s0]. }
    pose proof (exec_kept b0 s0 o Hs0 Hm Hb) as Hk.
    destruct o as [? ?|? ?|?|? ?|? ?|? ? ?|? ? ?|req|req]; [..|by apply (Href true req)|by apply (Href false req)].
    all: destruct Hk as (s1 & H1 & H2 & H3); unfold acct_good, events_of; rewrite H1, Hs0, H3; split; [|done];
      split; [|by exists s1]; apply (step_ok b0 _ Hb); done.
  - rewrite Hs in Hs0. injection Hs0 as <-. split.
    + split; [by eapply hydrated_ok|]. exists s'. split; [done|]. rewrite Hd. by eapply hydrated_mirrors.
    + unfold events_of. rewrite Hs. cbn. by rewrite Hd.
Qed.

Lemma reach_good b : acct_reach b → acct_good b.
Proof.
  induction 1 as [s Hb Hf|b b' _ IH Hs]; [|by apply (step_good b b')].
  split; [split; [done|done|]|].
  - intros k. unfold frozen_at. cbn. by rewrite msum_empty.
  - exists s. split; [done|]. split; cbn [balances freezes NewBalanceBookWithStore]; try done.
    + rewrite Hb. intros u a row Hr. by rewrite lookup_empty in Hr.
    + intros u a Ha. unfold balance_at, loadBalanceTx. by rewrite Hb, !lookup_empty.
    + intros id. unfold open_freeze, open_row. by rewrite Hf, !lookup_empty.
Qed.

Lemma steps_good b b' : rtc acct_step b b' → acct_good b → acct_good b' ∧ events_of b ⊆ events_of b'.
Proof.
  induction 1 as [|b b1 b' Hs _ IH]; [done|]. intros Hb. apply (step_good b b1 Hs) in Hb as [Hb1 H1].
  apply IH in Hb1 as [Hb' H2]. split; [done|]. by etransitivity.
Qed.

(** ** What the service promises *)


(** C37: a reference is applied once for all.  A credit or debit with a reference that the
    service accepts is applied exactly when the reference is new: then the balance moves by
    the amount and nothing else does, and otherwise nothing moves.  The answer is the
    balance.  Once it is accepted, no later call with the reference is applied, in either
    direction, after whatever operations, failures and restarts. *)
Theorem reference_applied_once credit b req b' x applied :
  acct_reach b → fits b (call_op credit req) → call credit b req = (b', Ok (x, applied)) →
  let key := balanceKey (CreditRequest.UserID req) (CreditRequest.Asset req) in
  (applied = true ↔ events_of b !! ref_of req = None) ∧
  x = GetBalance b' (CreditRequest.UserID req) (CreditRequest.Asset req) ∧
  (∀ k, total_at b' k = total_at b k +
     (if applied then at_key key (call_sign credit * CreditRequest.Amount req) k else 0)) ∧
  ∀ b2 credit' req' y, rtc acct_step b' b2 → ref_of req' = ref_of req → fits b2 (call_op credit' req') →
    (call credit' b2 req').2 ≠ Ok (y, true).
Proof.
  intros (Hb & s & Hs & Hm)%reach_good Hf E key. destruct (call_sql credit b s req b' _ Hf Hs Hm Hb E) as (Hb' & s' & Hr).
  destruct Hr as [R1 R2 R3 R4 R5 R6 R7]. split_and!; [unfold events_of; by rewrite Hs|done|done|].
  intros b2 credit' req' y Hsteps Href Hf2.
  apply steps_good in Hsteps as [(Hb2 & s2 & Hs2 & Hm2) Hev]; [|split; [done|by exists s']].
  destruct (call credit' b2 req') as [b3 res] eqn:E2. apply (call_sql credit' b2 s2) in E2 as [_ E2]; [|done..].
  cbn [snd]. intros ->. destruct E2 as (s3 & [_ _ _ Hap _ _ _]).
  pose proof (proj1 Hap eq_refl) as Hn. unfold events_of in Hev. rewrite R1, Hs2 in Hev. rewrite Href in Hn.
  destruct R5 as [ev Hev1]. eapply lookup_weaken in Hev1; [|exact Hev]. congruence.
Qed.

(** ** A concrete run *)

Definition sql_env (failing : list nat) : AcctEnv :=
  mkAcctEnv (λ _, 100) (λ n, if bool_decide (n ∈ failing) then Some "connection reset" else None).
Definition sql_start (failing : list nat) : BalanceBook AcctStore :=
  NewBalanceBookWithStore (mkAcctStore (mkAcctDB ∅ ∅ ∅ ∅ None) (sql_env failing) 0).
Definition deposit : CreditRequest.t := CreditRequest.mk 7 "usdt" 100 "deposit" "tx-1".
Definition order_freeze : FreezeRequest.t := FreezeRequest.mk "f1" 7 "USDT" "ORDER" "o1" 30.
Definition funded (failing : list nat) : BalanceBook AcctStore := (exec (sql_start failing) (OpCreditRef deposit)).1.
Definition with_freeze : BalanceBook AcctStore := (exec (funded []) (OpFreeze "" order_freeze)).1.

Definition db_of (b : BalanceBook AcctStore) : AcctDB :=
  match store b with Some s => adb s | None => mkAcctDB ∅ ∅ ∅ ∅ None end.
Definition restarted (b : BalanceBook AcctStore) : BalanceBook AcctStore :=
  match store b with Some s => hydrated s (LoadBalances (adb s)) (LoadFreezes (adb s)) | None => b end.

Lemma funded_reach failing : acct_reach (funded failing).
Proof.
  eapply acct_reach_step; [apply (acct_reach_new (mkAcctStore (mkAcctDB ∅ ∅ ∅ ∅ None) (sql_env failing) 0)); done|].
  apply (acct_exec (sql_start failing)). unfold fits, credit_fits. vm_compute. discriminate.
Qed.

Lemma with_freeze_reach : acct_reach with_freeze.
Proof. eapply acct_reach_step; [apply (funded_reach [])|]. by apply (acct_exec (funded [])). Qed.


Lemma reference_applied_once_witness :
  (call true (sql_start []) deposit).2 = Ok (Balance.mk 7 "USDT" 100 0, true) ∧
  ∀ y, (call true (restarted (funded [])) deposit).2 ≠ Ok (y, true).
Proof.
  assert ((call true (sql_start []) deposit).2 = Ok (Balance.mk 7 "USDT" 100 0, true)) as E by (vm_compute; reflexivity).
  split; [exact E|]. intros y.
  assert (call true (sql_start []) deposit = (funded [], Ok (Balance.mk 7 "USDT" 100 0, true))) as Ec
    by (rewrite <-E; exact (surjective_pairing (call true (sql_start []) deposit))).
  refine (proj2 (proj2 (proj2 (reference_applied_once true (sql_start []) deposit (funded []) _ true _ _ Ec)))
    (restarted (funded [])) true deposit y _ eq_refl _).
  - apply (acct_reach_new (mkAcctStore (mkAcctDB ∅ ∅ ∅ ∅ None) (sql_env []) 0)); done.
  - unfold fits, credit_fits. vm_compute. discriminate.
  - apply rtc_once. destruct (store (funded [])) as [s|] eqn:Es; [|vm_compute in Es; discriminate Es].
    unfold restarted. rewrite Es. by apply (acct_restart (funded []) s s).
  - unfold fits, credit_fits. vm_compute. discriminate.
Defined.

(** ** What a restart forgets *)

(** Only open freezes are loaded, so a restart forgets the names of the closed ones: the
    book refuses to freeze again under a name it has seen, and after a restart it accepts
    it.  The row then keeps the original amount of the old freeze. *)
Theorem closed_freeze_reused_after_restart :
  let closed := (exec with_freeze (OpRelease "f1")).1 in
  let again := OpFreeze "" (FreezeRequest.mk "f1" 7 "USDT" "ORDER" "o2" 50) in
  (exec closed again).2 = Some ErrFreezeAlreadyExists ∧
  (exec (restarted closed) again).2 = None ∧
  (λ r, (FreezeRow.original_amount r, FreezeRow.remaining_amount r, FreezeRow.ref_id r)) <$>
    acct_freezes (db_of (exec (restarted closed) again).1) !! "f1" = Some (30, 50, "o2").
Proof. split_and!; vm_compute; reflexivity. Qed.

(** The mirror writes no remaining quantity of zero: an order that is filled keeps its old
    quantity in the row, and a registry that starts again reads it back. *)
Theorem filled_order_mirrored_open :
  let row := OrderRow.mk "c1" "cmd1" 7 88 "YES" "BUY" "LIMIT" "GTC" "USDT" "f1" "USDT" 30 50 60 0 60 "NEW" "" 90 90 in
  let s := mkAcctStore (mkAcctDB ∅ ∅ ∅ {["o1" := row]} None) (sql_env []) 0 in
  let filled := OrderState.mk "o1" 0 "" 0 "" "" false "FILLED" 0 in
  let r := (Upsert (NewPersistentOrderRegistry s) filled).1 in
  let again := match reg_store r with Some s => NewPersistentOrderRegistry s | None => r end in
  OrderState.RemainingQuantity <$> (Get r "o1").2 = Some 0 ∧
  (λ st, (OrderState.Status st, OrderState.RemainingQuantity st)) <$> (Get again "o1").2 = Some ("FILLED", 60).
Proof. split; vm_compute; reflexivity. Qed.
