(* ===== verification/AccountEventProps.v ===== *)
(** * Account service: what the event handlers do to the balances *)

From S2P Require Import Prelude Strings Shared Messages Account.
From S2P Require Import AccountInv AccountProps AccountEvents.

Local Open Scope Z_scope.
Local Open Scope go_scope.

Section events.
Context {S : Type} `{!BalanceStore S}.
Context {R : Type} `{!OrderStateStore R}.
Implicit Types b : BalanceBook S.
Implicit Types p : EventProcessor S R.

(** ** Freeze operations that succeed *)

(** A book in memory mode after a change of one freeze: nothing else moved. *)
Record freeze_step b b' (id : string) (delta : string → Z) : Prop := {
  fs_ok : book_ok b';
  fs_store : store b' = None;
  fs_refs : processedRefs b' = processedRefs b;
  fs_total : ∀ k, total_at b' k = total_at b k + delta k;
  fs_other : ∀ id', id' ≠ id → freezes b' !! id' = freezes b !! id';
  fs_keys : ∀ k, is_Some (balances b !! k) → is_Some (balances b' !! k);
}.

Lemma commit_freeze_step b id r x a q rel con :
  book_ok b → store b = None → getActiveFreezeLocked b id = Ok (r, x) →
  0 ≤ q ≤ FreezeRecord.Amount r → 0 ≤ a ≤ q →
  (rel || con = true → FreezeRecord.Amount r - q = 0) →
  let r' := FreezeRecord.set_amount r (FreezeRecord.Amount r - q) rel con in
  ∃ b', commit_freeze b id r x r' (Balance.add x a (- q)) = (b', None) ∧
    freeze_step b b' id (at_key (freeze_key r) (a - q)) ∧ freezes b' !! id = Some r'.
Proof.
  intros Hb Hs Hg Hq Ha Hc r'.
  pose proof (commit_freeze_ok b id r x a q rel con Hb Hg Hq Ha Hc) as Hok. fold r' in Hok.
  destruct (getActiveFreezeLocked_ok b id r x Hb Hg) as (Hr & Hx & _).
  pose proof (commit_freeze_spec b id r x r' (Balance.add x a (- q)) Hr Hx) as Hsp.
  assert (∃ b', commit_freeze b id r x r' (Balance.add x a (- q)) = (b', None) ∧ store b' = None)
    as (b' & E & Hs').
  { unfold commit_freeze, persistBalanceAndFreeze. cbn [store set_freezes set_balances].
    rewrite Hs. eauto. }
  rewrite E in *. destruct Hok as [H1 _ H3]. destruct Hsp as (Hrefs & E1 & E2). simpl in *.
  exists b'. split; [done|]. split; [split; try done|].
  - by apply H3.
  - intros id' Hne. by rewrite E2, lookup_insert_ne.
  - intros k Hk. rewrite E1. destruct (decide (k = freeze_key r)) as [->|].
    + rewrite lookup_insert_eq. by eexists.
    + by rewrite lookup_insert_ne.
  - by rewrite E2, lookup_insert_eq.
Qed.

Lemma ConsumeFreeze_step b id r x amount :
  book_ok b → store b = None → getActiveFreezeLocked b id = Ok (r, x) →
  0 < amount ≤ FreezeRecord.Amount r →
  ∃ b', ConsumeFreeze b id amount = (b', None) ∧
    freeze_step b b' id (at_key (freeze_key r) (- amount)) ∧
    FreezeAmount b' id = Some (FreezeRecord.Amount r - amount) ∧
    ∃ r', freezes b' !! id = Some r' ∧ freeze_key r' = freeze_key r.
Proof.
  intros Hb Hs Hg Ha. unfold ConsumeFreeze. rewrite (proj2 (Z.leb_gt _ _)), Hg by lia.
  rewrite (proj2 (Z.ltb_ge _ _)) by lia. rewrite (partial_amount b id r x) by done.
  destruct (getActiveFreezeLocked_ok b id r x Hb Hg) as (_ & _ & _ & _ & HR & HC & _).
  set (con := if _ =? 0 then true else _).
  destruct (commit_freeze_step b id r x 0 amount (FreezeRecord.Released r) con)
    as (b' & E & Hst & Hr'); try done; [lia|lia| |].
  { rewrite HR. simpl. unfold con. rewrite HC. intros H.
    by destruct (Z.eqb_spec (FreezeRecord.Amount r - amount) 0). }
  exists b'. split_and!; [done| | |by eexists].
  - by replace (- amount) with (0 - amount) by lia.
  - unfold FreezeAmount. rewrite Hr'. simpl. rewrite HR. simpl. unfold con. rewrite HC.
    by destruct (Z.eqb_spec (FreezeRecord.Amount r - amount) 0) as [->|].
Qed.

Lemma ReleaseFreezeAmount_step b id r x amount :
  book_ok b → store b = None → getActiveFreezeLocked b id = Ok (r, x) →
  0 < amount ≤ FreezeRecord.Amount r →
  ∃ b', ReleaseFreezeAmount b id amount = (b', None) ∧ freeze_step b b' id (λ _, 0).
Proof.
  intros Hb Hs Hg Ha. unfold ReleaseFreezeAmount. rewrite (proj2 (Z.leb_gt _ _)), Hg by lia.
  rewrite (proj2 (Z.ltb_ge _ _)) by lia. rewrite (partial_amount b id r x) by done.
  destruct (getActiveFreezeLocked_ok b id r x Hb Hg) as (_ & _ & _ & _ & HR & HC & _).
  set (rel := if _ =? 0 then true else _).
  destruct (commit_freeze_step b id r x amount amount rel (FreezeRecord.Consumed r))
    as (b' & E & Hst & Hr'); try done; [lia|lia| |].
  { rewrite HC, orb_false_r. unfold rel. rewrite HR. intros H.
    by destruct (Z.eqb_spec (FreezeRecord.Amount r - amount) 0). }
  exists b'. split; [done|]. destruct Hst as [H1 H2 H3 H4 H5 H6]. split; try done.
  intros k. rewrite H4. unfold at_key. case_decide; lia.
Qed.

Lemma freeze_step_trans b1 b2 b3 id d1 d2 :
  freeze_step b1 b2 id d1 → freeze_step b2 b3 id d2 →
  freeze_step b1 b3 id (λ k, d1 k + d2 k).
Proof.
  intros [A1 A2 A3 A4 A5 A6] [B1 B2 B3 B4 B5 B6]. split; try done.
  - congruence.
  - intros k. rewrite B4, A4. lia.
  - intros id' Hne. by rewrite B5, A5.
  - intros k Hk. by apply B6, A6.
Qed.

Lemma freeze_step_refl b id :
  book_ok b → store b = None → freeze_step b b id (λ _, 0).
Proof. intros Hb Hs. split; try done. intros k. lia. Qed.

Lemma expectedFreezeAmount_range st e :
  expectedFreezeAmount st = Ok e → OrderState.RemainingQuantity st ≤ MaxInt64 →
  0 ≤ e ≤ MaxInt64.
Proof.
  unfold expectedFreezeAmount. set (q := OrderState.RemainingQuantity st).
  set (pr := OrderState.Price st). destruct (Z.ltb_spec q 0); [done|].
  destruct (String.eqb _ "BUY").
  - destruct (Z.eqb_spec q 0); [intros [= <-]; unfold MaxInt64; lia|].
    destruct (Z.ltb_spec pr 0); [done|]. destruct ((0 <? pr) && _) eqn:Hg; [done|].
    intros [= <-] _. destruct (Z.ltb_spec 0 pr) as [Hp|Hp].
    + simpl in Hg. apply quot_guard in Hg; [|lia|lia].
      rewrite mul_fits by lia. nia.
    + replace pr with 0 by lia. rewrite Z.mul_0_l. by vm_compute.
  - destruct (String.eqb _ "SELL"); [|done]. intros [= <-]. lia.
Qed.

(** What is kept of an open freeze is open: a positive amount means active. *)
Lemma FreezeAmount_active b id n :
  book_ok b → FreezeAmount b id = Some n → 0 < n →
  (∀ r, freezes b !! id = Some r → is_Some (balances b !! freeze_key r)) →
  ∃ r x, getActiveFreezeLocked b id = Ok (r, x) ∧ FreezeRecord.Amount r = n.
Proof.
  unfold FreezeAmount, getActiveFreezeLocked. intros Hb.
  destruct (freezes b !! id) as [r|] eqn:Er; [|done]. intros HF Hn Hk.
  destruct (_ || _); [injection HF; lia|]. injection HF as HF.
  destruct (Hk r eq_refl) as [x Hx]. unfold freeze_key in Hx. rewrite Hx. eauto.
Qed.

Lemma releaseExcess_step b st e n :
  book_ok b → store b = None → FreezeAmount b (OrderState.FreezeID st) = Some n → 0 ≤ n ≤ MaxInt64 →
  (∀ r, freezes b !! OrderState.FreezeID st = Some r → is_Some (balances b !! freeze_key r)) →
  expectedFreezeAmount st = Ok e → OrderState.RemainingQuantity st ≤ MaxInt64 →
  ∃ b', releaseExcessFreeze b st = (b', None) ∧
    freeze_step b b' (OrderState.FreezeID st) (λ _, 0).
Proof.
  intros Hb Hs HF Hn Hk He Hq. pose proof (expectedFreezeAmount_range st e He Hq) as Hr.
  unfold releaseExcessFreeze. rewrite HF, He.
  destruct (Z.leb_spec n e); [exists b; split; [done|by apply freeze_step_refl]|].
  rewrite wrap64_id by (unfold int64, MinInt64, MaxInt64 in *; lia).
  destruct (FreezeAmount_active b _ n Hb HF ltac:(lia) Hk) as (r & x & Hg & Hrn).
  destruct (ReleaseFreezeAmount_step b _ r x (n - e) Hb Hs Hg) as (b' & -> & Hst); [lia|].
  by exists b'.
Qed.

(** ** One side of a trade *)

(** The order is registered with an open freeze that covers [amount]. *)
Record funded b (reg : OrderRegistry R) (oid : string) (amount : Z) (st : OrderState.t)
    (r : FreezeRecord.t) : Prop := {
  fu_id : oid ≠ "";
  fu_state : orders reg !! oid = Some st;
  fu_freeze : OrderState.FreezeID st ≠ "";
  fu_open : ∃ x, getActiveFreezeLocked b (OrderState.FreezeID st) = Ok (r, x);
  fu_amount : 0 < amount ≤ FreezeRecord.Amount r;
  fu_remaining : OrderState.RemainingQuantity st ≤ MaxInt64;
  fu_expected : ∃ e, expectedFreezeAmount st = Ok e;
}.

Lemma consume_for_step p oid amount st r :
  book_ok (book p) → store (book p) = None → funded (book p) (registry p) oid amount st r →
  ∃ b', consume_for p oid amount = (mkProcessor b' (registry p), None) ∧
    freeze_step (book p) b' (OrderState.FreezeID st) (at_key (freeze_key r) (- amount)).
Proof.
  intros Hb Hs [Hid Hst Hf [x Hg] Ha Hq [e He]]. unfold consume_for, Get.
  rewrite (proj2 (String.eqb_neq _ _) Hid), Hst. cbn [set_registry book registry].
  rewrite (proj2 (String.eqb_neq _ _) Hf).
  destruct (ConsumeFreeze_step _ _ r x amount Hb Hs Hg Ha) as (b1 & -> & Hst1 & HF & r1 & Hr1 & Hk1).
  destruct (getActiveFreezeLocked_ok _ _ r x Hb Hg) as (Hfr & Hbal & _ & Hx & _ & _ & Hle).
  cbn [set_book book registry].
  destruct (releaseExcess_step b1 st e (FreezeRecord.Amount r - amount)) as (b2 & E2 & Hst2);
    try done; try apply Hst1.
  - unfold balance_ok in Hx. lia.
  - intros r2 Hr2. rewrite Hr1 in Hr2. injection Hr2 as <-. rewrite Hk1.
    apply (fs_keys _ _ _ _ Hst1). by eexists.
  - rewrite E2. exists b2. split; [done|].
    destruct (freeze_step_trans _ _ _ _ _ _ Hst1 Hst2) as [H1 H2 H3 H4 H5 H6]. split; try done.
    intros k. rewrite H4. lia.
Qed.

(** A freeze with another identifier stays funded. *)
Lemma funded_other b b' reg oid amount st r id d :
  freeze_step b b' id d → OrderState.FreezeID st ≠ id →
  funded b reg oid amount st r → funded b' reg oid amount st r.
Proof.
  intros Hst Hne [H1 H2 H3 [x Hg] H5 H6 H7]. split; try done.
  revert Hg. unfold getActiveFreezeLocked. rewrite (fs_other _ _ _ _ Hst) by done.
  destruct (freezes b !! _) as [r'|]; [|done]. destruct (_ || _); [done|].
  destruct (balances b !! _) as [x'|] eqn:Ex; [|done]. intros [= <- <-].
  destruct (fs_keys _ _ _ _ Hst (balanceKey (FreezeRecord.UserID r') (FreezeRecord.Asset r')))
    as [y ->]; [by eexists|]. by eexists.
Qed.

(** ** Credits *)

Lemma credit_for_step p u a n rt rid :
  book_ok (book p) → store (book p) = None → 0 < u → 0 < n →
  normalizeAsset a ≠ "" → TrimSpace rt ≠ "" → TrimSpace rid ≠ "" →
  credit_fits (book p) u a n →
  ref_key (CreditRequest.mk u a n rt rid) ∉ processedRefs (book p) →
  ∃ b', credit_for p (CreditRequest.mk u a n rt rid) = (mkProcessor b' (registry p), None) ∧
    book_ok b' ∧ store b' = None ∧
    processedRefs b' = {[ref_key (CreditRequest.mk u a n rt rid)]} ∪ processedRefs (book p) ∧
    ∀ k, total_at b' k = total_at (book p) k + at_key (balanceKey u a) n k.
Proof.
  intros Hb Hs Hu Hn Ha Ht Hi Hfit Hnew. set (req := CreditRequest.mk u a n rt rid).
  assert (outcome_ok (book p) (CreditAvailable (book p) u a n) (at_key (balanceKey u a) n)) as Hok
    by by apply CreditAvailable_ok.
  destruct (CreditAvailable_frame (book p) u a n Hs) as [F1 F2].
  pose proof (apply_with_ref_local ApplyCreditEvent CreditAvailable (book p) req _ Hb Hs Hok F1 F2) as H.
  assert ((CreditAvailable (book p) u a n).2 = None) as Hno.
  { unfold CreditAvailable. rewrite (proj2 (Z.leb_gt _ _) Hu), (proj2 (Z.leb_gt _ _) Hn). cbn [orb].
    rewrite (proj2 (String.eqb_neq _ _) Ha).
    pose proof (ensureBalance_frame (book p) u a) as He.
    destruct (ensureBalance (book p) u a) as [b1 x]. destruct He as [_ He].
    pose proof (commit_available_frame b1 (balanceKey u a) x n ltac:(congruence)) as Hc.
    destruct (commit_available b1 _ x n) as [b2 err]. by destruct Hc as (_ & _ & ->). }
  unfold credit_for, CreditAvailableWithRef.
  assert (∃ y, (apply_with_ref ApplyCreditEvent CreditAvailable (book p) req).2 = Ok (y, true)) as [y Ey].
  { unfold apply_with_ref. cbn [CreditRequest.UserID CreditRequest.Asset CreditRequest.Amount
      CreditRequest.RefType CreditRequest.RefID req].
    rewrite (proj2 (Z.leb_gt _ _) Hu), (proj2 (Z.leb_gt _ _) Hn). cbn [orb].
    rewrite !(proj2 (String.eqb_neq _ _)) by done. cbn [orb].
    rewrite Hs, bool_decide_eq_false_2 by done.
    destruct (CreditAvailable (book p) u a n) as [b1 err]. simpl in Hno. subst err. simpl. by eexists. }
  destruct (apply_with_ref _ _ (book p) req) as [b' res]. simpl in Ey. subst res.
  destruct H as (H1 & H2 & H3 & H4 & H5 & H6). exists b'. split_and!; done.
Qed.

(** ** A whole trade *)

Lemma normalizeAsset_collateral a : normalizeAsset (collateralAsset a) ≠ "".
Proof.
  unfold normalizeAsset, collateralAsset, NormalizeAsset.
  destruct (String.eqb_spec (normalize_upper a) ""); [done|]. by rewrite normalize_upper_idem.
Qed.

Lemma normalizeAsset_position m o : normalizeAsset (PositionAsset m o) ≠ "".
Proof. by apply normalize_upper_nonempty. Qed.

Definition collateral_ref (event : TradeMatchedEvent.t) : string :=
  "TRADE_COLLATERAL:" +:+ TrimSpace (trade_key event).
Definition position_ref (event : TradeMatchedEvent.t) : string :=
  "TRADE_POSITION:" +:+ TrimSpace (trade_key event).

(** A trade the books can settle: both orders are funded by different open
    freezes, both users exist, the fees are zero, the trade is new and nothing
    overflows. *)
Record settleable p (event : TradeMatchedEvent.t) (notional : Z)
    (sp : OrderState.t) (rp : FreezeRecord.t) (ss : OrderState.t) (rs : FreezeRecord.t) : Prop := {
  se_ok : book_ok (book p);
  se_store : store (book p) = None;
  se_notional : tradeNotional (TradeMatchedEvent.Price event) (TradeMatchedEvent.Quantity event)
                = Ok notional;
  se_payer : funded (book p) (registry p) (settlementSides event).1 notional sp rp;
  se_seller : funded (book p) (registry p) (positionSides event).1
                (TradeMatchedEvent.Quantity event) ss rs;
  se_distinct : OrderState.FreezeID sp ≠ OrderState.FreezeID ss;
  se_receiver : 0 < (settlementSides event).2;
  se_buyer : 0 < (positionSides event).2;
  se_fees : tradeFees event = (0, 0);
  se_key : TrimSpace (trade_key event) ≠ "";
  se_new : collateral_ref event ∉ processedRefs (book p) ∧ position_ref event ∉ processedRefs (book p);
  se_fits : ∀ k, total_at (book p) k + notional + TradeMatchedEvent.Quantity event ≤ MaxInt64;
}.

(** What the trade moves: [notional] of collateral from the payer's freeze to the
    receiver, [quantity] shares from the seller's freeze to the buyer. *)
Definition trade_effect (event : TradeMatchedEvent.t) (notional : Z) (rp rs : FreezeRecord.t)
    (k : string) : Z :=
  at_key (freeze_key rp) (- notional) k +
  at_key (balanceKey (settlementSides event).2
            (collateralAsset (TradeMatchedEvent.CollateralAsset event))) notional k +
  (at_key (freeze_key rs) (- TradeMatchedEvent.Quantity event) k +
   at_key (balanceKey (positionSides event).2
             (PositionAsset (TradeMatchedEvent.MarketID event) (TradeMatchedEvent.Outcome event)))
     (TradeMatchedEvent.Quantity event) k).

Lemma at_key_le k d k' : 0 ≤ d → at_key k (- d) k' ≤ 0 ∧ at_key k d k' ≤ d.
Proof. unfold at_key. case_decide; lia. Qed.

Lemma tradeNotional_pos pr q n : tradeNotional pr q = Ok n → 0 < q → 0 < n.
Proof.
  unfold tradeNotional. destruct (Z.leb_spec pr 0); [done|]. destruct (Z.leb_spec q 0); [done|].
  simpl. destruct (MaxInt64 `quot` q <? pr) eqn:Hg; [done|]. intros [= <-] _.
  apply quot_guard in Hg; [|lia|lia]. rewrite mul_fits by lia. nia.
Qed.

Lemma settle_trade p event notional sp rp ss rs :
  settleable p event notional sp rp ss rs →
  ∃ b', HandleTradeMatched (Ok false) (Some event) p = (mkProcessor b' (registry p), None) ∧
    book_ok b' ∧ store b' = None ∧
    ∀ k, total_at b' k = total_at (book p) k + trade_effect event notional rp rs k.
Proof.
  intros [Hb Hs Hn Hp Hse Hd Hr Hbu Hfee Hk [Hnew1 Hnew2] Hfits].
  set (q := TradeMatchedEvent.Quantity event) in *.
  assert (0 < q) as Hq by apply (fu_amount _ _ _ _ _ _ Hse).
  pose proof (tradeNotional_pos _ _ _ Hn Hq) as Hn0.
  unfold HandleTradeMatched, with_event. fold q. rewrite Hn.
  unfold trade_effect in *. fold q. unfold collateral_ref, position_ref in *.
  destruct (settlementSides event) as [payer receiver]. destruct (positionSides event) as [seller buyer].
  rewrite Hfee. simpl in Hr, Hbu, Hp, Hse.
  destruct (consume_for_step p payer notional sp rp Hb Hs Hp) as (b1 & -> & S1). cbn [andThen].
  set (p1 := mkProcessor b1 (registry p)).
  destruct (consume_for_step p1 seller q ss rs) as (b2 & -> & S2); [apply S1|apply S1| |].
  { eapply funded_other; [exact S1|by apply not_eq_sym|done]. }
  cbn [andThen]. rewrite Z.sub_0_r.
  assert (notional ≤ MaxInt64) as Hmax.
  { pose proof (se_fits_bound := Hfits (freeze_key rp)). unfold total_at in *.
    destruct Hp as [_ _ _ [x Hg] Ha _ _].
    destruct (getActiveFreezeLocked_ok _ _ _ _ Hb Hg) as (_ & _ & _ & Hx & _ & _ & Hle).
    unfold balance_ok in Hx. lia. }
  rewrite wrap64_id by (unfold int64, MinInt64, MaxInt64 in *; lia).
  rewrite (proj2 (Z.ltb_lt _ _) Hr), (proj2 (Z.ltb_lt _ _) Hn0). cbn [andb].
  set (p2 := mkProcessor b2 (registry p1)).
  set (coll := collateralAsset (TradeMatchedEvent.CollateralAsset event)).
  set (pos := PositionAsset (TradeMatchedEvent.MarketID event) (TradeMatchedEvent.Outcome event)).
  assert (∀ k, total_at b2 k = total_at (book p) k + at_key (freeze_key rp) (- notional) k +
    at_key (freeze_key rs) (- q) k) as T2.
  { intros k. rewrite (fs_total _ _ _ _ S2). cbn [book p1]. rewrite (fs_total _ _ _ _ S1). lia. }
  assert (processedRefs b2 = processedRefs (book p)) as R2
    by (rewrite (fs_refs _ _ _ _ S2); apply S1).
  destruct (credit_for_step p2 receiver coll notional "TRADE_COLLATERAL" (trade_key event))
    as (b3 & -> & B3 & St3 & R3 & T3); try done; [apply S2|apply S2|apply normalizeAsset_collateral| | |].
  { unfold credit_fits. cbn [book p2]. rewrite T2.
    pose proof (at_key_le (freeze_key rp) notional (balanceKey receiver coll) ltac:(lia)).
    pose proof (at_key_le (freeze_key rs) q (balanceKey receiver coll) ltac:(lia)).
    specialize (Hfits (balanceKey receiver coll)). lia. }
  { cbn [book p2]. rewrite R2. exact Hnew1. }
  cbn [andThen]. rewrite (proj2 (Z.ltb_lt _ _) Hbu). set (p3 := mkProcessor b3 (registry p2)).
  destruct (credit_for_step p3 buyer pos q "TRADE_POSITION" (trade_key event))
    as (b4 & -> & B4 & St4 & R4 & T4); try done; [apply normalizeAsset_position| | |].
  { unfold credit_fits. cbn [book p3]. rewrite T3. cbn [book p2]. rewrite T2.
    pose proof (at_key_le (freeze_key rp) notional (balanceKey buyer pos) ltac:(lia)).
    pose proof (at_key_le (freeze_key rs) q (balanceKey buyer pos) ltac:(lia)).
    pose proof (at_key_le (balanceKey receiver coll) notional (balanceKey buyer pos) ltac:(lia)).
    specialize (Hfits (balanceKey buyer pos)). lia. }
  { cbn [book p3]. rewrite R3. cbn [book p2]. rewrite R2.
    intros [E%elem_of_singleton|Hin]%elem_of_union; [by vm_compute in E|]. by apply Hnew2. }
  cbn [andThen]. change (0 <? wrap64 (0 + 0)) with false. cbn iota.
  exists b4. split_and!; [done|done|done|].
  intros k. rewrite T4. cbn [book p3]. rewrite T3. cbn [book p2]. rewrite T2. cbn [snd]. lia.
Qed.

(** ** Redelivery *)

Lemma with_ref_again remote local b req b1 v b2 :
  store b = None → apply_with_ref remote local b req = (b1, Ok v) →
  store b2 = None → processedRefs b1 ⊆ processedRefs b2 →
  apply_with_ref remote local b2 req =
    (b2, Ok (GetBalance b2 (CreditRequest.UserID req) (CreditRequest.Asset req), false)).
Proof.
  intros Hs E Hs2 Hsub. revert E. unfold apply_with_ref. rewrite Hs, Hs2.
  destruct (_ || _); [done|]. destruct (String.eqb _ _); [done|]. destruct (_ || _); [done|].
  assert (ref_key req ∈ processedRefs b1 → bool_decide (ref_key req ∈ processedRefs b2) = true) as H
    by (intros; apply bool_decide_eq_true_2; set_solver).
  destruct (bool_decide (ref_key req ∈ processedRefs b)) eqn:Hin.
  - apply bool_decide_eq_true in Hin. intros E. injection E as <- _. by rewrite H.
  - destruct (local b _ _ _) as [b' [err|]]; [done|]. intros E. injection E as <- _.
    rewrite H; [done|]. simpl. set_solver.
Qed.

Lemma apply_with_ref_store remote local b req :
  store b = None → (∀ u a n, store (local b u a n).1 = None) →
  store (apply_with_ref remote local b req).1 = None.
Proof.
  intros Hs Hl. unfold apply_with_ref. destruct (_ || _); [done|]. destruct (String.eqb _ _); [done|].
  destruct (_ || _); [done|]. rewrite Hs. case_bool_decide; [done|].
  specialize (Hl (CreditRequest.UserID req) (CreditRequest.Asset req) (CreditRequest.Amount req)).
  by destruct (local b _ _ _) as [b' [err|]].
Qed.

Lemma credit_store b req : store b = None → store (CreditAvailableWithRef b req).1 = None.
Proof.
  intros Hs. apply apply_with_ref_store; [done|]. intros u a n.
  by rewrite (proj2 (CreditAvailable_frame b u a n Hs)).
Qed.

Lemma debit_store b req : store b = None → store (DebitAvailableWithRef b req).1 = None.
Proof.
  intros Hs. apply apply_with_ref_store; [done|]. intros u a n.
  by rewrite (proj2 (DebitAvailable_frame b u a n Hs)).
Qed.

Lemma credit_refs b req : processedRefs b ⊆ processedRefs (CreditAvailableWithRef b req).1.
Proof. apply apply_with_ref_refs. intros. apply CreditAvailable_refs. Qed.

Lemma set_book_id p : set_book p (book p) = p.
Proof. by destruct p. Qed.

Lemma settlement_again event p p1 :
  store (book p) = None → HandleSettlementCompleted (Ok false) (Some event) p = (p1, None) →
  HandleSettlementCompleted (Ok false) (Some event) p1 = (p1, None).
Proof.
  intros Hs. unfold HandleSettlementCompleted, with_event, debit_for, credit_for.
  set (dreq := CreditRequest.mk _ _ (SettlementCompletedEvent.SettledQuantity event) _ _).
  set (creq := CreditRequest.mk _ _ (SettlementCompletedEvent.PayoutAmount event) _ _).
  assert (∀ q : EventProcessor S R, store (book q) = None →
    (let '(b, res) := CreditAvailableWithRef (book q) creq in
     (set_book q b, match res with Ok _ => None | Err e => Some (ErrAccount e) end)) = (p1, None) →
    store (book p1) = None ∧ processedRefs (book q) ⊆ processedRefs (book p1) ∧
    CreditAvailableWithRef (book p1) creq = (book p1, Ok (GetBalance (book p1)
      (CreditRequest.UserID creq) (CreditRequest.Asset creq), false))) as Hcr.
  { intros q Hq. pose proof (credit_store (book q) creq Hq) as Hst.
    pose proof (credit_refs (book q) creq) as Hrf.
    destruct (CreditAvailableWithRef (book q) creq) as [b [v|err]] eqn:E; [|done]. intros [= <-].
    split_and!; [done|done|]. exact (with_ref_again _ _ _ _ _ _ b Hq E Hst (reflexivity _)). }
  destruct (0 <? SettlementCompletedEvent.SettledQuantity event) eqn:H1.
  - pose proof (debit_store (book p) dreq Hs) as Hst.
    destruct (DebitAvailableWithRef (book p) dreq) as [b [v|err]] eqn:E; [|done]. cbn [andThen].
    destruct (0 <? SettlementCompletedEvent.PayoutAmount event) eqn:H2.
    + intros Hc. destruct (Hcr (set_book p b) Hst Hc) as (S1 & R1 & C1).
      unfold DebitAvailableWithRef in *. rewrite (with_ref_again _ _ _ _ _ _ (book p1) Hs E S1 R1).
      cbn [andThen set_book book]. rewrite C1. cbn [set_book registry]. by destruct p1.
    + intros [= <-]. unfold DebitAvailableWithRef in *.
      cbn [set_book book]. by rewrite (with_ref_again _ _ _ _ _ _ b Hs E Hst).
  - cbn [andThen]. destruct (0 <? SettlementCompletedEvent.PayoutAmount event) eqn:H2.
    + intros Hc. destruct (Hcr _ Hs Hc) as (S1 & R1 & C1). rewrite C1. by destruct p1.
    + by intros [= <-].
Qed.

(** ** Order events never change a total *)

Definition same_totals b b' : Prop := book_ok b' ∧ ∀ k, total_at b' k = total_at b k.

Lemma outcome_same_totals b b' err : outcome_ok b (b', err) (λ _, 0) → same_totals b b'.
Proof.
  intros [H1 H2 H3]. simpl in *. split; [done|]. intros k. destruct err as [e|].
  - by apply H2.
  - rewrite H3 by done. lia.
Qed.

Lemma apply_event_freeze_totals fresh event p state :
  book_ok (book p) → same_totals (book p) (book (apply_event_freeze fresh event p state).1.1).
Proof.
  intros Hb. unfold apply_event_freeze. destruct (_ && _); [|done].
  set (req := FreezeRequest.mk _ _ _ _ _ _).
  pose proof (step_ok (book p) (OpExternalFreeze fresh req) Hb I) as Hs. simpl in Hs.
  unfold drop_value in Hs. destruct (ApplyExternalFreeze (book p) fresh req) as [b1 res].
  simpl in Hs. apply outcome_same_totals in Hs.
  destruct (match res with Ok _ => _ | Err _ => _ end); [done|]. by destruct (Upsert _ _).
Qed.

Lemma order_event_totals frozen fresh msg p :
  book_ok (book p) → same_totals (book p) (book (HandleOrderEvent frozen fresh msg p).1).
Proof.
  intros Hb. assert (same_totals (book p) (book p)) as Hrefl by done.
  unfold HandleOrderEvent, with_event. destruct frozen as [[]|]; [done| |done].
  destruct msg as [event|]; [|done].
  destruct (Upsert (registry p) _) as [r state].
  pose proof (apply_event_freeze_totals fresh event (set_registry p r) state Hb) as H1.
  destruct (apply_event_freeze _ _ _ _) as [[p1 st1] [e|]]; simpl in H1; [done|].
  destruct (_ && _); [|done]. destruct (FreezeAmount (book p1) _); [|done].
  pose proof (ReleaseFreeze_ok (book p1) (OrderState.FreezeID st1) (proj1 H1)) as Hr.
  destruct (ReleaseFreeze (book p1) _) as [b2 err]. apply outcome_same_totals in Hr. simpl.
  destruct H1 as [_ T1], Hr as [B2 T2]. split; [done|]. intros k. by rewrite T2, T1.
Qed.
End events.

(** ** A concrete market, for the witnesses *)

#[global] Instance no_order_store : OrderStateStore () := {|
  LoadOrderState := λ (_ : ()) (_ : string), None;
  MirrorOrderState := λ (s : ()) (_ : OrderState.t), s;
|}.

Definition funding_processor : EventProcessor bool () :=
  mkProcessor
    (mkBook
       (<[balanceKey 2 "USDT" := Balance.mk 2 "USDT" 500 600]>
        {[balanceKey 1 "POSITION:7:YES" := Balance.mk 1 "POSITION:7:YES" 0 12]})
       (<["fB" := FreezeRecord.mk "fB" 2 "USDT" "ORDER" "b1" 600 600 false false]>
        {["fS" := FreezeRecord.mk "fS" 1 "POSITION:7:YES" "ORDER" "a1" 12 12 false false]})
       ∅ None)
    (mkRegistry
       (<["b1" := OrderState.mk "b1" 2 "BUY" 50 "fB" "USDT" true "FILLED" 0]>
        {["a1" := OrderState.mk "a1" 1 "SELL" 40 "fS" "POSITION:7:YES" true "FILLED" 0]}) None).

(** User 2 buys 12 shares at 40 from user 1. *)
Definition demo_trade (takerFee makerFee : Z) : TradeMatchedEvent.t :=
  TradeMatchedEvent.mk "e1" "7:YES:00000001" 1 0 "" "" 7 "yes" "7:YES" 40 12 "b1" "a1" 2 1
    "BUY" "SELL" 200 (-50) takerFee makerFee 0.

Definition total_of (b : BalanceBook bool) (u : Z) (a : string) : Z := total_at b (balanceKey u a).

Lemma funding_ok : book_ok (book funding_processor).
Proof.
  split.
  - apply map_Forall_insert_2; [|apply map_Forall_singleton]; by vm_compute.
  - apply map_Forall_insert_2; [|apply map_Forall_singleton]; by vm_compute.
  - intros k. unfold funding_processor. cbn [book freezes].
    rewrite msum_insert, msum_singleton by done.
    rewrite !eqb_key_decide. unfold frozen_at. cbn [balances].
    change (freeze_key (FreezeRecord.mk "fB" _ _ _ _ _ _ _ _)) with (balanceKey 2 "USDT").
    change (freeze_key (FreezeRecord.mk "fS" _ _ _ _ _ _ _ _)) with (balanceKey 1 "POSITION:7:YES").
    assert (balanceKey 2 "USDT" ≠ balanceKey 1 "POSITION:7:YES") as Hne by by vm_compute.
    destruct (decide (k = balanceKey 2 "USDT")) as [->|H1].
    + rewrite lookup_insert_eq, decide_False by done. done.
    + rewrite lookup_insert_ne by done.
      destruct (decide (k = balanceKey 1 "POSITION:7:YES")) as [->|H2].
      * by rewrite lookup_singleton_eq.
      * by rewrite lookup_singleton_ne by done.
Qed.



(** Order events only move money between available and frozen: whatever the
    event, the database and the mirror answer, the book stays solvent and every
    total is unchanged. *)
Theorem order_event_keeps_totals {S : Type} `{!BalanceStore S} {R : Type} `{!OrderStateStore R}
    (p : EventProcessor S R) frozen fresh msg :
  book_ok (book p) →
  book_ok (book (HandleOrderEvent frozen fresh msg p).1) ∧
  ∀ k, total_at (book (HandleOrderEvent frozen fresh msg p).1) k = total_at (book p) k.
Proof. apply order_event_totals. Qed.

Definition demo_order_event : OrderEvent.t :=
  OrderEvent.mk "e0" "c0" "" "o9" "" "f9" "" 100 "USDT" 2 7 "yes" "BUY" "LIMIT" "GTC" "NEW" ""
    50 2 0 2 0.

Lemma order_event_keeps_totals_witness :
  total_of (book (HandleOrderEvent (Ok false) "" (Some demo_order_event) funding_processor).1) 2 "USDT" =
  total_of (book funding_processor) 2 "USDT".
Proof. apply (order_event_keeps_totals funding_processor (Ok false) "" (Some demo_order_event) funding_ok). Defined.

(** Settlement events are idempotent: delivering a settlement that was
    applied a second time changes nothing. *)
Theorem settlement_event_idempotent {S : Type} `{!BalanceStore S} {R : Type} `{!OrderStateStore R}
    (p p1 : EventProcessor S R) event :
  store (book p) = None →
  HandleSettlementCompleted (Ok false) (Some event) p = (p1, None) →
  HandleSettlementCompleted (Ok false) (Some event) p1 = (p1, None).
Proof. apply settlement_again. Qed.

Definition demo_settlement : SettlementCompletedEvent.t :=
  SettlementCompletedEvent.mk "s1" 7 2 "YES" "USDT" 100 "" 700 0.

Lemma settlement_event_idempotent_witness :
  let p1 := (HandleSettlementCompleted (Ok false) (Some demo_settlement) funding_processor).1 in
  HandleSettlementCompleted (Ok false) (Some demo_settlement) p1 = (p1, None).
Proof.
  apply (settlement_event_idempotent funding_processor); [done|by vm_compute].
Defined.

(** ** Behaviours that differ from what the code says it does *)

(** The platform account is user 0, and credits to users below 1 are refused: a
    trade with a positive platform fee fails after the freezes were consumed and
    both parties credited. *)
Theorem trade_with_fee_fails :
  let '(p, err) := HandleTradeMatched (Ok false) (Some (demo_trade 9 (-2))) funding_processor in
  err = Some (ErrAccount ErrInvalidAmount) ∧
  total_of (book p) 2 "USDT" = 620 ∧ total_of (book p) 1 "USDT" = 482 ∧
  total_of (book p) 2 "POSITION:7:YES" = 12.
Proof. vm_compute. done. Qed.

(** A trade of 4 of the 12 shares; the orders stay open for the other 8. *)
Definition partial_processor : EventProcessor bool () :=
  mkProcessor (book funding_processor)
    (mkRegistry
       (<["b1" := OrderState.mk "b1" 2 "BUY" 50 "fB" "USDT" true "PARTIALLY_FILLED" 8]>
        {["a1" := OrderState.mk "a1" 1 "SELL" 40 "fS" "POSITION:7:YES" true "PARTIALLY_FILLED" 8]}) None).

Definition partial_trade : TradeMatchedEvent.t :=
  TradeMatchedEvent.mk "e1" "7:YES:00000001" 1 0 "" "" 7 "yes" "7:YES" 40 4 "b1" "a1" 2 1
    "BUY" "SELL" 0 0 0 0 0.

(** The credits of a trade are applied once per trade, but the freezes are
    consumed on every delivery: a second delivery of the same trade destroys
    160 of the buyer's collateral and 4 of the seller's shares. *)
Theorem trade_redelivery_loses_money :
  let deliver p := HandleTradeMatched (Ok false) (Some partial_trade) p in
  let '(p1, err1) := deliver partial_processor in
  let '(p2, err2) := deliver p1 in
  err1 = None ∧ err2 = None ∧
  (total_of (book p1) 2 "USDT", total_of (book p2) 2 "USDT") = (940, 780) ∧
  (total_of (book p1) 1 "USDT", total_of (book p2) 1 "USDT") = (160, 160) ∧
  (total_of (book p1) 1 "POSITION:7:YES", total_of (book p2) 1 "POSITION:7:YES") = (8, 4).
Proof. vm_compute. done. Qed.

(** Seeding a balance drops what it had frozen while the freeze record stays
    open. *)
Theorem seed_forgets_frozen :
  let b := SeedBalance (demo_book None) 1 "usdt" 1000 in
  Balance.Frozen (GetBalance b 1 "USDT") = 0 ∧ FreezeAmount b "f1" = Some 30.
Proof. vm_compute. done. Qed.
