(* ===== verification/OrderService.v ===== *)
(** * Order service

    [order/validate.go], [freeze.go], [types.go] and [service.go]: an order request is
    validated, its freeze is computed and taken from the account service, and the
    command is published to the book's partition; a failed publication gives the
    freeze back.  The account client and the market store are interfaces here as in
    the code; the laws say what the account service promises through its client when a
    call's outcome is known (a call that takes effect but whose answer is lost is not
    one of them). *)

From S2P Require Import Prelude Strings Shared Messages MatchModel.

Local Open Scope Z_scope.
Local Open Scope go_scope.

(** ** Requests, results, errors ([types.go]) *)

Module SubmitRequest.
Record t := mk {
  UserID : Z;
  MarketID : Z;
  Outcome : string;
  Side : string;
  Type_ : string;
  TimeInForce : string;
  Price : Z;
  Quantity : Z;
  TraceID : string;
  ClientOrderID : string;
  RequestedAt : Z;
  OrderID : string;
}.
End SubmitRequest.

Module SubmitResult.
Record t := mk { CommandID : string; OrderID : string; FreezeID : string; Asset : string; Amount : Z }.
End SubmitResult.

Module SeedLiquidityRequest.
Record t := mk {
  OperatorUserID : Z;
  MarketID : Z;
  Outcome : string;
  Quantity : Z;
  Price : Z;
  TraceID : string;
}.
End SeedLiquidityRequest.

Module InventoryItem.
Record t := mk { Outcome : string; PositionAsset : string; Quantity : Z }.
End InventoryItem.

Module SeedLiquidityResult.
Record t := mk {
  FirstLiquidityID : string;
  OrderID : string;
  CollateralDebit : Z;
  Inventory : list InventoryItem.t;
}.
End SeedLiquidityResult.

(** The sentinel errors with the text wrapped around them; [ErrOther] is an error
    passed through. *)
Inductive OrderError :=
| ErrMarketNotFound (msg : string)
| ErrMarketNotTradable
| ErrRollupFrozen
| ErrInsufficientFunds (msg : string)
| ErrValidationFailed (msg : string)
| ErrPublishFailed (msg : string)
| ErrOther (msg : string).

(** ** Validation and freezes *)

Definition ValidateOrderFields (outcome side orderType tif : string) (price quantity : Z)
    : result string () :=
  if String.eqb outcome "" then Err "outcome is required"
  else if negb (String.eqb side "BUY") && negb (String.eqb side "SELL")
  then Err ("invalid side: " +:+ side)
  else if negb (String.eqb orderType "LIMIT") && negb (String.eqb orderType "MARKET")
  then Err ("invalid order type: " +:+ orderType)
  else if negb (String.eqb tif "GTC") && negb (String.eqb tif "IOC")
  then Err ("invalid time_in_force: " +:+ tif)
  else if quantity <=? 0 then Err "quantity must be positive"
  else if String.eqb orderType "LIMIT" && ((price <? 1) || (99 <? price))
  then Err "limit order price must be between 1 and 99"
  else Ok ().

Definition CalculateFreeze (side orderType : string) (marketID : Z) (outcome : string)
    (price quantity : Z) : result string (string * Z) :=
  if quantity <=? 0 then Err "quantity must be positive"
  else if String.eqb side "BUY" then
    if String.eqb orderType "LIMIT" then
      if price <=? 0 then Err "limit order requires positive price"
      else if (0 <? quantity) && (MaxInt64 `quot` quantity <? price)
      then Err "freeze amount overflow"
      else Ok (DefaultCollateralAsset, price ⊠ quantity)
    else if String.eqb orderType "MARKET" then
      if (0 <? quantity) && (MaxInt64 `quot` quantity <? 100) then Err "freeze amount overflow"
      else Ok (DefaultCollateralAsset, 100 ⊠ quantity)
    else Err ("unsupported order type: " +:+ orderType)
  else if String.eqb side "SELL" then
    if String.eqb (TrimSpace outcome) "" then Err "sell order requires outcome"
    else Ok (PositionAsset marketID outcome, quantity)
  else Err ("unsupported side: " +:+ side).

(** ** Interfaces *)

(** The fields of [dto.MarketResponse] the service reads. *)
Module Market.
Record t := mk { Status : string; CloseAt : Z; CollateralAsset : string }.
End Market.

Class MarketStore (M : Type) := {
  GetMarket : M → Z → result string Market.t;
  GetRollupFreezeState : M → result string bool;
}.

(** [accountclient.FreezeRequest] and [FreezeRecord]. *)
Module FreezeRequest.
Record t := mk { UserID : Z; Asset : string; RefType : string; RefID : string; Amount : Z }.
End FreezeRequest.
Module FreezeRecord.
Record t := mk { FreezeID : string; UserID : Z; Asset : string; RefType : string; RefID : string; Amount : Z }.
End FreezeRecord.

(** [CreditBalance] and [DebitBalance] answer with their [Applied] flag. *)
Class AccountClient (A : Type) := {
  PreFreeze : A → FreezeRequest.t → A * result string FreezeRecord.t;
  ReleaseFreeze : A → string → A * option string;
  CreditBalance : A → Z → string → Z → string → string → A * result string bool;
  DebitBalance : A → Z → string → Z → string → string → A * result string bool;
}.

Class AccountLaws (A : Type) `{!AccountClient A} := {
  acct_ok : A → Prop;
  available : A → Z → string → Z;
  frozen : A → Z → string → Z;
  same_balances a a' := ∀ u s, available a' u s = available a u s ∧ frozen a' u s = frozen a u s;
  prefreeze_ok a req a' r :
    acct_ok a → PreFreeze a req = (a', Ok r) →
    acct_ok a' ∧ FreezeRecord.Amount r = FreezeRequest.Amount req ∧
    FreezeRecord.Asset r = normalize_upper (FreezeRequest.Asset req) ∧
    ∀ u s,
      let d := on_balance (FreezeRequest.UserID req) (FreezeRequest.Asset req)
                 (FreezeRequest.Amount req) u s in
      available a' u s = available a u s - d ∧ frozen a' u s = frozen a u s + d;
  prefreeze_err a req a' e :
    acct_ok a → PreFreeze a req = (a', Err e) → acct_ok a' ∧ same_balances a a';
  release_back a req a1 r a2 :
    acct_ok a → PreFreeze a req = (a1, Ok r) → ReleaseFreeze a1 (FreezeRecord.FreezeID r) = (a2, None) →
    acct_ok a2 ∧ same_balances a a2;
  release_err a id a' e :
    acct_ok a → ReleaseFreeze a id = (a', Some e) → acct_ok a' ∧ same_balances a a';
  credit_ok a u s n ty ref a' applied :
    acct_ok a → available a u s + frozen a u s + n ≤ MaxInt64 →
    CreditBalance a u s n ty ref = (a', Ok applied) →
    acct_ok a' ∧ ∀ u' s', frozen a' u' s' = frozen a u' s' ∧
      available a' u' s' = available a u' s' + on_balance u s (if applied : bool then n else 0) u' s';
  credit_err a u s n ty ref a' e :
    acct_ok a → available a u s + frozen a u s + n ≤ MaxInt64 →
    CreditBalance a u s n ty ref = (a', Err e) → acct_ok a' ∧ same_balances a a';
  acct_nonneg a u s : acct_ok a → 0 ≤ available a u s ∧ 0 ≤ frozen a u s;
  debit_ok a u s n ty ref a' applied :
    acct_ok a → DebitBalance a u s n ty ref = (a', Ok applied) →
    acct_ok a' ∧ ∀ u' s', frozen a' u' s' = frozen a u' s' ∧
      available a' u' s' = available a u' s' - on_balance u s (if applied : bool then n else 0) u' s';
  debit_err a u s n ty ref a' e :
    acct_ok a → DebitBalance a u s n ty ref = (a', Err e) → acct_ok a' ∧ same_balances a a';
}.

(** [strings.Contains]. *)
Fixpoint has_prefix (p s : string) : bool :=
  match p, s with
  | EmptyString, _ => true
  | String a p, String b s => Ascii.eqb a b && has_prefix p s
  | _, _ => false
  end.
Fixpoint contains (s sub : string) : bool :=
  has_prefix sub s || match s with EmptyString => false | String _ s => contains s sub end.

Definition looksLikeInsufficientBalance (err : string) : bool :=
  contains (ToLower err) "insufficient".

Definition marketIsOpenForTrading (market : Market.t) (nowUnix : Z) : bool :=
  let status := normalize_upper (Market.Status market) in
  if negb (String.eqb status "") && negb (String.eqb status "OPEN") then false
  else if (0 <? Market.CloseAt market) && (Market.CloseAt market <=? nowUnix) then false
  else true.

(** ** The service ([service.go]) *)

Section service.
Context {A M P : Type} `{!AccountClient A, !MarketStore M, !Publisher P}.
(** [NewID prefix] by the number of identifiers drawn so far. *)
Context (fresh : string → nat → string).

(** [dedupCheck] is optional. *)
Record Service := mkService {
  account : A;
  publisher : P;
  store : M;
  dedupCheck : option (string → result string bool);
  draws : nat;
}.

Definition set_account (s : Service) (a : A) : Service :=
  mkService a (publisher s) (store s) (dedupCheck s) (draws s).
Definition set_publisher (s : Service) (p : P) : Service :=
  mkService (account s) p (store s) (dedupCheck s) (draws s).

Definition NewID (s : Service) (prefix : string) : Service * string :=
  (mkService (account s) (publisher s) (store s) (dedupCheck s) (S (draws s)),
   fresh prefix (draws s)).

(** A store that fails to answer counts as not frozen. *)
Definition requireRollupNotFrozen (store : option M) : option OrderError :=
  match store with
  | None => None
  | Some m =>
      match GetRollupFreezeState m with
      | Err _ => None
      | Ok true => Some ErrRollupFrozen
      | Ok false => None
      end
  end.

(** The guards before anything is drawn or frozen: rollup state and market. *)
Definition check_market (s : Service) (marketID nowUnix : Z) : result OrderError Market.t :=
  match requireRollupNotFrozen (Some (store s)) with
  | Some err => Err err
  | None =>
      match GetMarket (store s) marketID with
      | Err e => Err (ErrMarketNotFound e)
      | Ok market =>
          if negb (marketIsOpenForTrading market nowUnix) then Err ErrMarketNotTradable else Ok market
      end
  end.

(** A client-supplied identifier that is already known; a failing check is ignored. *)
Definition duplicate (s : Service) (clientSuppliedID : bool) (orderID : string) : bool :=
  match dedupCheck s with
  | Some check =>
      clientSuppliedID && match check orderID with Ok exists_ => exists_ | Err _ => false end
  | None => false
  end.

(** Market orders become marketable limit orders. *)
Definition command_terms (side orderType tif : string) (price : Z) : string * string * Z :=
  if String.eqb orderType "MARKET"
  then ("LIMIT", "IOC", if String.eqb side "BUY" then 99 else 1)
  else (orderType, tif, price).

Definition SubmitOrder (nowUnix : Z) (s : Service) (req : SubmitRequest.t)
    : Service * result OrderError SubmitResult.t :=
  let outcome := normalize_upper (SubmitRequest.Outcome req) in
  let side := normalize_upper (SubmitRequest.Side req) in
  let orderType := normalize_upper (SubmitRequest.Type_ req) in
  let tif := normalize_upper (SubmitRequest.TimeInForce req) in
  let marketID := SubmitRequest.MarketID req in
  let quantity := SubmitRequest.Quantity req in
  if (marketID <=? 0) || (quantity <=? 0) || (SubmitRequest.UserID req <=? 0)
  then (s, Err (ErrValidationFailed "market_id, quantity, and user_id must be positive"))
  else
    match ValidateOrderFields outcome side orderType tif (SubmitRequest.Price req) quantity with
    | Err e => (s, Err (ErrValidationFailed e))
    | Ok _ =>
    match check_market s marketID nowUnix with
    | Err e => (s, Err e)
    | Ok _ =>
    match CalculateFreeze side orderType marketID outcome (SubmitRequest.Price req) quantity with
    | Err e => (s, Err (ErrValidationFailed e))
    | Ok (freezeAsset, freezeAmount) =>
        let clientSuppliedID := negb (String.eqb (SubmitRequest.OrderID req) "") in
        let '(s, orderID) := if clientSuppliedID then (s, SubmitRequest.OrderID req)
                             else NewID s "ord" in
        let '(s, commandID) := NewID s "cmd" in
        let bookKey := itoa marketID +:+ ":" +:+ outcome in
        if duplicate s clientSuppliedID orderID
        then (s, Err (ErrValidationFailed ("duplicate order_id " +:+ orderID)))
        else
          let '(a, frz) := PreFreeze (account s)
            (FreezeRequest.mk (SubmitRequest.UserID req) freezeAsset "ORDER" orderID freezeAmount) in
          let s := set_account s a in
          match frz with
          | Err e => (s, Err (if looksLikeInsufficientBalance e then ErrInsufficientFunds e
                              else ErrOther e))
          | Ok record =>
              let '(commandType, commandTIF, commandPrice) :=
                command_terms side orderType tif (SubmitRequest.Price req) in
              let command := OrderCommand.mk commandID (TrimSpace (SubmitRequest.TraceID req)) orderID
                (TrimSpace (SubmitRequest.ClientOrderID req)) (FreezeRecord.FreezeID record)
                (FreezeRecord.Asset record) (FreezeRecord.Amount record) DefaultCollateralAsset
                (SubmitRequest.UserID req) marketID outcome bookKey side commandType commandTIF ""
                commandPrice quantity (SubmitRequest.RequestedAt req) in
              let '(p, err) := PublishJSON (publisher s) TopicOrderCommand bookKey
                                 (PayloadCommand command) in
              let s := set_publisher s p in
              match err with
              | Some e =>
                  let '(a, _) := ReleaseFreeze (account s) (FreezeRecord.FreezeID record) in
                  (set_account s a, Err (ErrPublishFailed e))
              | None =>
                  (s, Ok (SubmitResult.mk commandID orderID (FreezeRecord.FreezeID record)
                            (FreezeRecord.Asset record) (FreezeRecord.Amount record)))
              end
          end
    end end end.

(** One outcome's inventory: the position is credited and its event published; a
    failing publication is only logged. *)
Fixpoint seed_inventory (s : Service) (firstLiquidityID : string) (userID marketID nowMillis : Z)
    (items : list InventoryItem.t) : Service * option OrderError :=
  match items with
  | [] => (s, None)
  | item :: items =>
      let '(a, res) := CreditBalance (account s) userID (InventoryItem.PositionAsset item)
        (InventoryItem.Quantity item) "FIRST_LIQUIDITY_POSITION"
        (firstLiquidityID +:+ ":" +:+ InventoryItem.Outcome item) in
      let s := set_account s a in
      match res with
      | Ok true =>
          let '(s, id) := NewID s "evt_pos" in
          let '(p, _) := PublishJSON (publisher s) TopicPositionChange
            (itoa marketID +:+ ":" +:+ InventoryItem.Outcome item)
            (PayloadPosition (PositionChangedEvent.mk id firstLiquidityID firstLiquidityID userID
               marketID (InventoryItem.Outcome item) (InventoryItem.PositionAsset item)
               (InventoryItem.Quantity item) nowMillis)) in
          seed_inventory (set_publisher s p) firstLiquidityID userID marketID nowMillis items
      | _ => (s, Some (ErrOther "credit first-liquidity inventory failed"))
      end
  end.

(** [nowUnix] and [nowMillis] are read by this call, [nowUnix'] by the order it submits. *)
Definition SeedLiquidity (nowUnix nowMillis nowUnix' : Z) (s : Service)
    (req : SeedLiquidityRequest.t) : Service * result OrderError SeedLiquidityResult.t :=
  let userID := SeedLiquidityRequest.OperatorUserID req in
  let marketID := SeedLiquidityRequest.MarketID req in
  let quantity := SeedLiquidityRequest.Quantity req in
  if (marketID <=? 0) || (quantity <=? 0) || (SeedLiquidityRequest.Price req <=? 0) || (userID <=? 0)
  then (s, Err (ErrValidationFailed "all fields must be positive"))
  else
    let outcome := normalize_upper (SeedLiquidityRequest.Outcome req) in
    if negb (String.eqb outcome "YES") && negb (String.eqb outcome "NO")
    then (s, Err (ErrValidationFailed "outcome must be YES or NO"))
    else
    match check_market s marketID nowUnix with
    | Err e => (s, Err e)
    | Ok market =>
        let '(s, firstLiquidityID) := NewID s "liq" in
        match WinningPayoutAmount quantity with
        | Err _ => (s, Err (ErrValidationFailed "payout amount"))
        | Ok collateralDebit =>
            let '(a, debit) := DebitBalance (account s) userID
              (NormalizeAsset (Market.CollateralAsset market)) collateralDebit
              "FIRST_LIQUIDITY_COLLATERAL" (firstLiquidityID +:+ ":collateral") in
            let s := set_account s a in
            match debit with
            | Err e => (s, Err (if looksLikeInsufficientBalance e then ErrInsufficientFunds e
                                else ErrOther e))
            | Ok false => (s, Err (ErrInsufficientFunds "collateral debit was not applied"))
            | Ok true =>
                let inventory :=
                  [InventoryItem.mk "YES" (PositionAsset marketID "YES") quantity;
                   InventoryItem.mk "NO" (PositionAsset marketID "NO") quantity] in
                match seed_inventory s firstLiquidityID userID marketID nowMillis inventory with
                | (s, Some err) => (s, Err err)
                | (s, None) =>
                    let '(s, res) := SubmitOrder nowUnix' s
                      (SubmitRequest.mk userID marketID outcome "SELL" "LIMIT" "GTC"
                         (SeedLiquidityRequest.Price req) quantity firstLiquidityID "" nowMillis "") in
                    match res with
                    | Err err => (s, Err err)
                    | Ok r => (s, Ok (SeedLiquidityResult.mk firstLiquidityID
                                        (SubmitResult.OrderID r) collateralDebit inventory))
                    end
                end
            end
        end
    end.
End service.

Arguments Service A M P : clear implicits.
