(* ===== verification/AccountGrpc.v ===== *)
(** * Account service over gRPC

    [account/service/grpc_server.go] and [account/client/client.go]: the server maps a
    request to the balance book and the book's errors to status codes; the client maps
    the answer back.  [status.Error] is grpc's and only its text matters to a caller, so
    it is a parameter.  The client of a book without a database keeps the laws the
    order service is proved against. *)

From S2P Require Import Prelude Strings Shared Messages.
From S2P Require Import OrderService.
From S2P Require Import Account AccountInv.

Local Open Scope Z_scope.
Local Open Scope go_scope.

Inductive Code :=
| InvalidArgument
| FailedPrecondition
| NotFound
| AlreadyExists
| Internal.

(** [err.Error()] of the sentinel errors. *)
Definition AccountError_text (err : AccountError) : string :=
  match err with
  | ErrInvalidAsset => "invalid asset"
  | ErrInvalidAmount => "invalid amount"
  | ErrInsufficientBalance => "insufficient available balance"
  | ErrFreezeNotFound => "freeze record not found"
  | ErrFreezeAlreadyClosed => "freeze record already closed"
  | ErrFreezeAlreadyExists => "freeze record already exists"
  | ErrReleaseExceedsFrozen => "release amount exceeds frozen amount"
  | ErrConsumeExceedsFrozen => "consume amount exceeds frozen amount"
  | ErrStore e => e
  end.

Definition mapBalanceBookError (err : AccountError) : Code * string :=
  (match err with
   | ErrInvalidAsset | ErrInvalidAmount => InvalidArgument
   | ErrInsufficientBalance => FailedPrecondition
   | ErrFreezeNotFound => NotFound
   | ErrFreezeAlreadyClosed => FailedPrecondition
   | ErrFreezeAlreadyExists => AlreadyExists
   | _ => Internal
   end, AccountError_text err).

(** ** The server *)

Module GRPCServer.
Section server.
Context {S : Type} `{!BalanceStore S}.

Definition PreFreeze (b : BalanceBook S) (fresh : string) (req : OrderService.FreezeRequest.t)
    : BalanceBook S * result (Code * string) OrderService.FreezeRecord.t :=
  match Account.PreFreeze b fresh
    (FreezeRequest.mk "" (OrderService.FreezeRequest.UserID req)
       (OrderService.FreezeRequest.Asset req) (OrderService.FreezeRequest.RefType req)
       (OrderService.FreezeRequest.RefID req) (OrderService.FreezeRequest.Amount req)) with
  | (b, Err err) => (b, Err (mapBalanceBookError err))
  | (b, Ok record) =>
      (b, Ok (OrderService.FreezeRecord.mk (FreezeRecord.FreezeID record) (FreezeRecord.UserID record)
                (FreezeRecord.Asset record) (FreezeRecord.RefType record)
                (FreezeRecord.RefID record) (FreezeRecord.Amount record)))
  end.

Definition ReleaseFreeze (b : BalanceBook S) (freezeID : string)
    : BalanceBook S * option (Code * string) :=
  let '(b, err) := Account.ReleaseFreeze b freezeID in (b, mapBalanceBookError <$> err).

Definition answer (r : BalanceBook S * result AccountError (Balance.t * bool))
    : BalanceBook S * result (Code * string) (Balance.t * bool) :=
  match r with
  | (b, Err err) => (b, Err (mapBalanceBookError err))
  | (b, Ok v) => (b, Ok v)
  end.

Definition CreditBalance (b : BalanceBook S) (req : CreditRequest.t)
    : BalanceBook S * result (Code * string) (Balance.t * bool) :=
  answer (CreditAvailableWithRef b req).

Definition DebitBalance (b : BalanceBook S) (req : CreditRequest.t)
    : BalanceBook S * result (Code * string) (Balance.t * bool) :=
  answer (DebitAvailableWithRef b req).
End server.
End GRPCServer.

(** ** The client *)

(** A client connected to the server of one book; [drawn] counts the freeze
    identifiers drawn, [fresh_id n] is the [n]-th. *)
Record GRPCClient (S : Type) := mkClient {
  book : BalanceBook S;
  status_text : Code → string → string;
  fresh_id : nat → string;
  drawn : nat;
}.
Arguments mkClient {S}. Arguments book {S}. Arguments status_text {S}.
Arguments fresh_id {S}. Arguments drawn {S}.

Section client.
Context {S : Type} `{!BalanceStore S}.

Definition with_book (c : GRPCClient S) (b : BalanceBook S) : GRPCClient S :=
  mkClient b (status_text c) (fresh_id c) (Datatypes.S (drawn c)).
Definition error_text (c : GRPCClient S) (err : Code * string) : string :=
  status_text c err.1 err.2.
Definition applied (c : GRPCClient S) (res : result (Code * string) (Balance.t * bool))
    : result string bool :=
  match res with Ok (_, applied) => Ok applied | Err err => Err (error_text c err) end.

#[export] Instance grpc_client : OrderService.AccountClient (GRPCClient S) := {|
  OrderService.PreFreeze c req :=
    match GRPCServer.PreFreeze (book c) (fresh_id c (drawn c)) req with
    | (b, Ok r) => (with_book c b, Ok r)
    | (b, Err err) => (with_book c b, Err (error_text c err))
    end;
  OrderService.ReleaseFreeze c freezeID :=
    let '(b, err) := GRPCServer.ReleaseFreeze (book c) freezeID in
    (with_book c b, error_text c <$> err);
  OrderService.CreditBalance c userID asset amount refType refID :=
    let '(b, res) := GRPCServer.CreditBalance (book c)
                       (CreditRequest.mk userID asset amount refType refID) in
    (with_book c b, applied c res);
  OrderService.DebitBalance c userID asset amount refType refID :=
    let '(b, res) := GRPCServer.DebitBalance (book c)
                       (CreditRequest.mk userID asset amount refType refID) in
    (with_book c b, applied c res);
|}.
End client.

(** ** The laws *)

Section laws.
Context {S : Type} `{!BalanceStore S}.
Implicit Types b : BalanceBook S.

(** The frozen side of a balance is the sum of its freezes and the rest of the total
    is available: two books with the same totals and freezes have the same balances. *)
Lemma balance_split b u a :
  book_ok b →
  Balance.Frozen (GetBalance b u a) = msum (frozen_for (balanceKey u a)) (freezes b) ∧
  Balance.Available (GetBalance b u a) =
    total_at b (balanceKey u a) - msum (frozen_for (balanceKey u a)) (freezes b).
Proof.
  intros Hb. pose proof (ok_frozen _ Hb (balanceKey u a)) as Hf.
  unfold frozen_at, total_at, GetBalance in *.
  destruct (balances b !! balanceKey u a); simpl in *; lia.
Qed.

Lemma at_key_on_balance u a d u' a' :
  at_key (balanceKey u a) d (balanceKey u' a') = on_balance u a d u' a'.
Proof.
  unfold at_key, on_balance. case_decide as E; case_bool_decide as H; try done.
  - apply balanceKey_inj in E as [-> E]. destruct H. by split.
  - destruct H as [-> H]. destruct E. unfold balanceKey, normalizeAsset. by rewrite H.
Qed.

Lemma PreFreeze_record b fresh req b' r :
  PreFreeze b fresh req = (b', Ok r) →
  FreezeRecord.Asset r = normalizeAsset (FreezeRequest.Asset req) ∧
  FreezeRecord.UserID r = FreezeRequest.UserID req.
Proof.
  unfold PreFreeze. repeat (case_match; try done); intros [= <- <-]; by simplify_eq.
Qed.

Lemma ReleaseFreeze_freezes b id b' r :
  book_ok b → freezes b !! id = Some r → ReleaseFreeze b id = (b', None) →
  freezes b' = <[id := FreezeRecord.set_amount r 0 true (FreezeRecord.Consumed r)]> (freezes b).
Proof.
  intros Hb Hr. unfold ReleaseFreeze.
  destruct (getActiveFreezeLocked b id) as [[r' x]|] eqn:Hg; [|done].
  destruct (getActiveFreezeLocked_ok b id r' x Hb Hg) as (Hr' & Hx & _). simplify_eq.
  intros Hc. eapply (commit_freeze_spec b id) in Hx as Hs; [|done].
  rewrite Hc in Hs. by destruct Hs as (_ & _ & ->).
Qed.

Lemma commit_available_freezes b k x d : freezes (commit_available b k x d).1 = freezes b.
Proof.
  unfold commit_available. set (b1 := set_balances _ _).
  pose proof (persistBalance_spec b1 (Balance.add x d 0)) as Hp.
  destruct (persistBalance b1 _) as [b2 [err|]]; destruct Hp as (_ & E & _); simpl; by rewrite E.
Qed.

Lemma with_ref_freezes remote local b req :
  (∀ u a n, freezes (local b u a n).1 = freezes b) →
  freezes (apply_with_ref remote local b req).1 = freezes b.
Proof.
  intros Hl. unfold apply_with_ref. destruct (_ || _); [done|]. destruct (String.eqb _ _); [done|].
  destruct (_ || _); [done|]. destruct (store b) as [s|].
  - destruct (remote s _) as [s' [[x ap]|e]]; done.
  - case_bool_decide; [done|].
    specialize (Hl (CreditRequest.UserID req) (CreditRequest.Asset req) (CreditRequest.Amount req)).
    by destruct (local b _ _ _) as [b' [err|]].
Qed.

Lemma CreditAvailable_freezes b u a n : freezes (CreditAvailable b u a n).1 = freezes b.
Proof.
  unfold CreditAvailable. destruct (_ || _); [done|]. destruct (String.eqb _ _); [done|].
  destruct (ensureBalance b u a) as [b1 x] eqn:E. rewrite commit_available_freezes.
  unfold ensureBalance in E. by destruct (balances b !! _); simplify_eq.
Qed.

Lemma DebitAvailable_freezes b u a n : freezes (DebitAvailable b u a n).1 = freezes b.
Proof.
  unfold DebitAvailable. repeat (case_match; try done). by rewrite commit_available_freezes.
Qed.

Definition client_ok (c : GRPCClient S) : Prop := book_ok (book c) ∧ store (book c) = None.

Lemma PreFreeze_store b fresh req : store b = None → store (PreFreeze b fresh req).1 = None.
Proof.
  intros Hs. unfold PreFreeze, ensureBalance, persistBalanceAndFreeze.
  repeat (case_match; simplify_eq; simpl; try done); by simplify_eq.
Qed.

Lemma ReleaseFreeze_store b id : store b = None → store (ReleaseFreeze b id).1 = None.
Proof.
  intros Hs. unfold ReleaseFreeze, commit_freeze, persistBalanceAndFreeze.
  repeat (case_match; simplify_eq; simpl; try done); by simplify_eq.
Qed.

(** Without a database both operations with a reference move the available balance by
    their amount when they apply, and nothing otherwise. *)
Lemma with_ref_balances remote local b req d b' res :
  book_ok b → store b = None →
  outcome_ok b (local b (CreditRequest.UserID req) (CreditRequest.Asset req)
                  (CreditRequest.Amount req))
    (at_key (balanceKey (CreditRequest.UserID req) (CreditRequest.Asset req)) d) →
  (∀ u a n, processedRefs (local b u a n).1 = processedRefs b ∧ store (local b u a n).1 = store b ∧
            freezes (local b u a n).1 = freezes b) →
  apply_with_ref remote local b req = (b', res) →
  (book_ok b' ∧ store b' = None) ∧
  ∀ u a, Balance.Frozen (GetBalance b' u a) = Balance.Frozen (GetBalance b u a) ∧
    Balance.Available (GetBalance b' u a) = Balance.Available (GetBalance b u a) +
      on_balance (CreditRequest.UserID req) (CreditRequest.Asset req)
        (match res with Ok (_, true) => d | _ => 0 end) u a.
Proof.
  intros Hb Hs Hl Hframe E.
  pose proof (with_ref_freezes remote local b req (λ u a n, proj2 (proj2 (Hframe u a n)))) as Ef.
  pose proof (apply_with_ref_local remote local b req _ Hb Hs Hl
    (proj1 (Hframe _ _ _)) (proj1 (proj2 (Hframe _ _ _)))) as Hr.
  rewrite E in Hr, Ef. simpl in Ef. destruct Hr as (Hb' & Hs' & Hr). split; [done|]. intros u a.
  destruct (balance_split b u a Hb) as [F1 A1]. destruct (balance_split b' u a Hb') as [F2 A2].
  rewrite F1, F2, A1, A2, Ef. rewrite <-at_key_on_balance. split; [done|].
  assert (∀ k : string, at_key (balanceKey (CreditRequest.UserID req) (CreditRequest.Asset req)) 0 k = 0)
    as Hz by (intros k; unfold at_key; by case_decide).
  destruct res as [[x []]|err].
  - destruct Hr as (_ & _ & _ & Ht). rewrite Ht. lia.
  - destruct Hr as [-> _]. rewrite Hz. lia.
  - destruct Hr as [_ Ht]. rewrite Ht, Hz. lia.
Qed.

Lemma credit_balances b req b' res :
  book_ok b → store b = None →
  Balance.Available (GetBalance b (CreditRequest.UserID req) (CreditRequest.Asset req)) +
    Balance.Frozen (GetBalance b (CreditRequest.UserID req) (CreditRequest.Asset req)) +
    CreditRequest.Amount req ≤ MaxInt64 →
  CreditAvailableWithRef b req = (b', res) →
  (book_ok b' ∧ store b' = None) ∧
  ∀ u a, Balance.Frozen (GetBalance b' u a) = Balance.Frozen (GetBalance b u a) ∧
    Balance.Available (GetBalance b' u a) = Balance.Available (GetBalance b u a) +
      on_balance (CreditRequest.UserID req) (CreditRequest.Asset req)
        (match res with Ok (_, true) => CreditRequest.Amount req | _ => 0 end) u a.
Proof.
  intros Hb Hs Hfit. apply with_ref_balances; [done|done| |].
  - apply CreditAvailable_ok; [done|]. unfold credit_fits.
    destruct (balance_split b (CreditRequest.UserID req) (CreditRequest.Asset req) Hb). lia.
  - intros u a n. destruct (CreditAvailable_frame b u a n Hs). split_and!; try done.
    apply CreditAvailable_freezes.
Qed.

Lemma debit_balances b req b' res :
  book_ok b → store b = None → DebitAvailableWithRef b req = (b', res) →
  (book_ok b' ∧ store b' = None) ∧
  ∀ u a, Balance.Frozen (GetBalance b' u a) = Balance.Frozen (GetBalance b u a) ∧
    Balance.Available (GetBalance b' u a) = Balance.Available (GetBalance b u a) +
      on_balance (CreditRequest.UserID req) (CreditRequest.Asset req)
        (match res with Ok (_, true) => - CreditRequest.Amount req | _ => 0 end) u a.
Proof.
  intros Hb Hs. apply with_ref_balances; [done|done|by apply DebitAvailable_ok|].
  intros u a n. destruct (DebitAvailable_frame b u a n Hs). split_and!; try done.
  apply DebitAvailable_freezes.
Qed.

(** What a freeze does to the balances, and that releasing it takes it back. *)
Lemma prefreeze_balances b fresh req b' res :
  book_ok b → PreFreeze b fresh req = (b', res) →
  book_ok b' ∧
  ∀ u a,
    let d := on_balance (FreezeRequest.UserID req) (FreezeRequest.Asset req)
               (match res with Ok _ => FreezeRequest.Amount req | Err _ => 0 end) u a in
    Balance.Available (GetBalance b' u a) = Balance.Available (GetBalance b u a) - d ∧
    Balance.Frozen (GetBalance b' u a) = Balance.Frozen (GetBalance b u a) + d.
Proof.
  intros Hb E. pose proof (PreFreeze_ok b fresh req Hb) as Hp. rewrite E in Hp.
  destruct Hp as [[Hb' Herr _] Hok]. split; [done|]. intros u a. cbv zeta.
  rewrite <-at_key_on_balance. unfold at_key. destruct res as [r|err].
  - destruct (Hok r eq_refl) as [Hamt [H1 H2 _ _ H5]]. rewrite Hamt in H1, H2. case_decide as Ek.
    + apply balanceKey_inj in Ek as Ek'. destruct Ek' as [-> En].
      unfold GetBalance in *. rewrite Ek in *. rewrite En in *. lia.
    + rewrite H5 by done. lia.
  - destruct Herr as [Ho _]; [done|]. rewrite (obs_balance _ _ Ho). case_decide; lia.
Qed.

Lemma release_restores b fresh req b1 r b2 :
  book_ok b → PreFreeze b fresh req = (b1, Ok r) →
  ReleaseFreeze b1 (FreezeRecord.FreezeID r) = (b2, None) →
  book_ok b2 ∧ ∀ u a, Balance.Available (GetBalance b2 u a) = Balance.Available (GetBalance b u a) ∧
                      Balance.Frozen (GetBalance b2 u a) = Balance.Frozen (GetBalance b u a).
Proof.
  intros Hb E1 E2. pose proof (PreFreeze_ok b fresh req Hb) as Hp. rewrite E1 in Hp.
  destruct Hp as [[Hb1 _ Ht1] Hok]. destruct (Hok r eq_refl) as [_ [_ _ Hnew Hrec _]].
  simpl in Hb1, Ht1. pose proof (ReleaseFreeze_ok b1 (FreezeRecord.FreezeID r) Hb1) as [Hb2 _ Ht2].
  rewrite E2 in Hb2, Ht2. simpl in Hb2, Ht2. split; [done|]. intros u a.
  assert (freezes b1 !! FreezeRecord.FreezeID r = Some r) as Hr by (by rewrite Hrec, lookup_insert_eq).
  pose proof (ReleaseFreeze_freezes b1 _ b2 r Hb1 Hr E2) as Ef.
  destruct (balance_split b u a Hb) as [F1 A1]. destruct (balance_split b2 u a Hb2) as [F2 A2].
  rewrite F1, F2, A1, A2, Ef, Hrec, insert_insert_eq, msum_insert by done.
  rewrite Ht2, Ht1 by done.
  assert (frozen_for (balanceKey u a)
    (FreezeRecord.set_amount r 0 true (FreezeRecord.Consumed r)) = 0) as ->.
  { unfold frozen_for. by destruct (String.eqb _ _). }
  lia.
Qed.

Lemma balance_nonneg b u a :
  book_ok b → 0 ≤ Balance.Available (GetBalance b u a) ∧ 0 ≤ Balance.Frozen (GetBalance b u a).
Proof.
  intros Hb. unfold GetBalance. destruct (balances b !! _) as [x|] eqn:E; simpl; [|lia].
  pose proof (ok_balances _ Hb _ _ E) as Hx. unfold balance_ok in Hx. simpl in Hx. lia.
Qed.

#[export, refine] Instance grpc_laws : OrderService.AccountLaws (GRPCClient S) := {|
  OrderService.acct_ok := client_ok;
  OrderService.available c u a := Balance.Available (GetBalance (book c) u a);
  OrderService.frozen c u a := Balance.Frozen (GetBalance (book c) u a);
|}.
Proof.
  - intros c req c' r [Hb Hs]. cbn. unfold GRPCServer.PreFreeze.
    set (req' := FreezeRequest.mk _ _ _ _ _ _).
    destruct (PreFreeze (book c) (fresh_id c (drawn c)) req') as [b' [r'|err]] eqn:E; [|done].
    intros [= <- <-]. destruct (prefreeze_balances _ _ _ _ _ Hb E) as [Hb' Hd].
    pose proof (PreFreeze_store (book c) (fresh_id c (drawn c)) req' Hs) as Hs'.
    pose proof (PreFreeze_ok (book c) (fresh_id c (drawn c)) req' Hb) as Hp.
    rewrite E in Hs', Hp. destruct Hp as [_ Hok]. destruct (Hok r' eq_refl) as [Hamt _].
    destruct (PreFreeze_record _ _ _ _ _ E) as [Ha _].
    split; [done|]. split; [done|]. split; [done|]. exact Hd.
  - intros c req c' e [Hb Hs]. cbn. unfold GRPCServer.PreFreeze.
    set (req' := FreezeRequest.mk _ _ _ _ _ _).
    destruct (PreFreeze (book c) (fresh_id c (drawn c)) req') as [b' [r'|err]] eqn:E; [done|].
    intros [= <- _]. destruct (prefreeze_balances _ _ _ _ _ Hb E) as [Hb' Hd].
    pose proof (PreFreeze_store (book c) (fresh_id c (drawn c)) req' Hs) as Hs'. rewrite E in Hs'.
    split; [done|]. intros u a. specialize (Hd u a). cbn in Hd |- *.
    rewrite on_balance_0 in Hd. lia.
  - intros c req c1 r c2 [Hb Hs]. cbn. unfold GRPCServer.PreFreeze, GRPCServer.ReleaseFreeze.
    set (req' := FreezeRequest.mk _ _ _ _ _ _).
    destruct (PreFreeze (book c) (fresh_id c (drawn c)) req') as [b1 [r1|err]] eqn:E; [|done].
    intros [= <- <-]. cbn. destruct (ReleaseFreeze b1 _) as [b2 [err|]] eqn:E2; [done|].
    intros [= <-]. pose proof (PreFreeze_store (book c) (fresh_id c (drawn c)) req' Hs) as Hs'.
    rewrite E in Hs'. pose proof (ReleaseFreeze_store b1 (FreezeRecord.FreezeID r1) Hs') as Hs2.
    rewrite E2 in Hs2. destruct (release_restores _ _ _ _ _ _ Hb E E2) as [Hb2 Hd]. done.
  - intros c id c' e [Hb Hs]. cbn. unfold GRPCServer.ReleaseFreeze.
    destruct (ReleaseFreeze (book c) id) as [b' [err|]] eqn:E; [|done]. intros [= <- _].
    pose proof (ReleaseFreeze_ok (book c) id Hb) as [Hb' Herr _].
    pose proof (ReleaseFreeze_store (book c) id Hs) as Hs'. rewrite E in Hb', Herr, Hs'.
    destruct Herr as [Ho _]; [done|]. split; [done|]. intros u a. cbn.
    by rewrite (obs_balance _ _ Ho).
  - intros c u a n ty ref c' ap [Hb Hs] Hfit. cbn. unfold GRPCServer.CreditBalance.
    destruct (CreditAvailableWithRef (book c) _) as [b' res] eqn:E. cbn in Hfit.
    destruct (credit_balances _ (CreditRequest.mk u a n ty ref) _ _ Hb Hs Hfit E) as [Hok Hd].
    destruct res as [[x ap']|err]; intros [= <- <-]; (split; [done|]). exact Hd.
  - intros c u a n ty ref c' e [Hb Hs] Hfit. cbn. unfold GRPCServer.CreditBalance.
    destruct (CreditAvailableWithRef (book c) _) as [b' res] eqn:E. cbn in Hfit.
    destruct (credit_balances _ (CreditRequest.mk u a n ty ref) _ _ Hb Hs Hfit E) as [Hok Hd].
    destruct res as [[x ap']|err]; intros [= <- _]; (split; [done|]). intros u' a'.
    destruct (Hd u' a') as [HF HA]. cbn in HF, HA |- *. rewrite on_balance_0 in HA. lia.
  - intros c u a [Hb Hs]. cbn. by apply balance_nonneg.
  - intros c u a n ty ref c' ap [Hb Hs]. cbn. unfold GRPCServer.DebitBalance.
    destruct (DebitAvailableWithRef (book c) _) as [b' res] eqn:E.
    destruct (debit_balances _ _ _ _ Hb Hs E) as [Hok Hd].
    destruct res as [[x ap']|err]; intros [= <- <-]; (split; [done|]). intros u' a'.
    destruct (Hd u' a') as [HF HA]. cbn in HF, HA |- *.
    destruct ap'; rewrite ?on_balance_opp, ?on_balance_0 in *; lia.
  - intros c u a n ty ref c' e [Hb Hs]. cbn. unfold GRPCServer.DebitBalance.
    destruct (DebitAvailableWithRef (book c) _) as [b' res] eqn:E.
    destruct (debit_balances _ _ _ _ Hb Hs E) as [Hok Hd].
    destruct res as [[x ap']|err]; intros [= <- _]; (split; [done|]). intros u' a'.
    destruct (Hd u' a') as [HF HA]. cbn in HF, HA |- *. rewrite on_balance_0 in HA. lia.
Defined.
End laws.
