(* ===== verification/OrderProps.v ===== *)
(** * Order service: what an order is backed by

    An accepted order puts exactly one well-formed command on its book's partition,
    behind a freeze that covers the worst the order can cost; a refused one leaves the
    balances alone; seeding mints complete pairs.  Stated against the laws of the
    account client and of the publisher; the witnesses run on the balance book behind
    its gRPC client and on a recording publisher. *)

From S2P Require Import Prelude Strings Shared Messages.
From S2P Require Import MatchModel Protocol Account AccountInv AccountProps.
From S2P Require Import AccountGrpc OrderService.

Local Open Scope Z_scope.
Local Open Scope go_scope.

(** ** Validation *)

Lemma validated outcome side ty tif price quantity :
  ValidateOrderFields outcome side ty tif price quantity = Ok () →
  outcome ≠ "" ∧ (side = "BUY" ∨ side = "SELL") ∧ (ty = "LIMIT" ∨ ty = "MARKET") ∧
  (tif = "GTC" ∨ tif = "IOC") ∧ 0 < quantity ∧ (ty = "LIMIT" → 1 ≤ price ≤ 99).
Proof.
  unfold ValidateOrderFields.
  destruct (String.eqb_spec outcome ""); [done|].
  destruct (String.eqb_spec side "BUY"), (String.eqb_spec side "SELL"); try done;
  (destruct (String.eqb_spec ty "LIMIT"), (String.eqb_spec ty "MARKET"); try done);
  (destruct (String.eqb_spec tif "GTC"), (String.eqb_spec tif "IOC"); try done); simpl;
  (destruct (Z.leb_spec quantity 0); [done|]);
  (destruct (Z.ltb_spec price 1), (Z.ltb_spec 99 price); simpl; try done);
  intros _; subst; split_and!; auto; try lia; done.
Qed.

(** The freeze covers the command the order becomes: at its (possibly substituted)
    price for a buy, the shares themselves for a sell; nothing wraps. *)
Lemma freeze_covers outcome side ty tif m price quantity asset amount ty' tif' price' :
  ValidateOrderFields outcome side ty tif price quantity = Ok () →
  int64 price → int64 quantity →
  CalculateFreeze side ty m outcome price quantity = Ok (asset, amount) →
  command_terms side ty tif price = (ty', tif', price') →
  ty' = "LIMIT" ∧ (tif' = "GTC" ∨ tif' = "IOC") ∧ 1 ≤ price' ≤ 99 ∧ 0 < amount ≤ MaxInt64 ∧
  if String.eqb side "BUY" then asset = DefaultCollateralAsset ∧ price' * quantity ≤ amount
  else asset = PositionAsset m outcome ∧ amount = quantity.
Proof.
  intros (Ho & Hside & Hty & Htif & Hq & Hp)%validated Ip Iq.
  unfold CalculateFreeze, command_terms.
  destruct (Z.leb_spec quantity 0); [lia|]. rewrite (proj2 (Z.ltb_lt 0 quantity)) by lia.
  assert (∀ p, 0 < p → (MaxInt64 `quot` quantity <? p) = false → 0 < p * quantity ≤ MaxInt64) as Hfits.
  { intros p Hp0 Hle%Z.ltb_ge. rewrite Z.quot_div_nonneg in Hle by (unfold MaxInt64; lia).
    pose proof (Z.mul_div_le MaxInt64 quantity). nia. }
  destruct Hside as [-> | ->], Hty as [-> | ->]; cbn [String.eqb Ascii.eqb Bool.eqb andb]; simpl.
  - destruct (Z.leb_spec price 0); [done|]. destruct (MaxInt64 `quot` quantity <? price) eqn:E; [done|].
    intros [= <- <-] [= <- <- <-]. specialize (Hfits price ltac:(lia) E).
    rewrite wrap64_id by (unfold int64, MinInt64, MaxInt64 in *; lia). specialize (Hp eq_refl).
    by split_and!; try lia.
  - destruct (MaxInt64 `quot` quantity <? 100) eqn:E; [done|].
    intros [= <- <-] [= <- <- <-]. specialize (Hfits 100 ltac:(lia) E).
    rewrite wrap64_id by (unfold int64, MinInt64, MaxInt64 in *; lia).
    by split_and!; auto; try lia.
  - destruct (String.eqb _ ""); [done|]. intros [= <- <-] [= <- <- <-]. specialize (Hp eq_refl).
    unfold int64, MaxInt64 in *. by split_and!; try lia.
  - destruct (String.eqb _ ""); [done|]. intros [= <- <-] [= <- <- <-].
    unfold int64, MaxInt64 in *. by split_and!; auto; try lia.
Qed.

Section service.
Context {A M P : Type} `{!AccountClient A, !MarketStore M, !Publisher P}.
Context (fresh : string → nat → string).
Implicit Types s : Service A M P.

Definition norm_outcome (req : SubmitRequest.t) : string := normalize_upper (SubmitRequest.Outcome req).
Definition norm_side (req : SubmitRequest.t) : string := normalize_upper (SubmitRequest.Side req).
Definition norm_type (req : SubmitRequest.t) : string := normalize_upper (SubmitRequest.Type_ req).
Definition norm_tif (req : SubmitRequest.t) : string := normalize_upper (SubmitRequest.TimeInForce req).

(** The command an accepted request becomes. *)
Definition command_of (req : SubmitRequest.t) (orderID commandID : string)
    (record : FreezeRecord.t) : OrderCommand.t :=
  let '(ty, tif, price) :=
    command_terms (norm_side req) (norm_type req) (norm_tif req) (SubmitRequest.Price req) in
  OrderCommand.mk commandID (TrimSpace (SubmitRequest.TraceID req)) orderID
    (TrimSpace (SubmitRequest.ClientOrderID req)) (FreezeRecord.FreezeID record)
    (FreezeRecord.Asset record) (FreezeRecord.Amount record) DefaultCollateralAsset
    (SubmitRequest.UserID req) (SubmitRequest.MarketID req) (norm_outcome req)
    (itoa (SubmitRequest.MarketID req) +:+ ":" +:+ norm_outcome req) (norm_side req) ty tif ""
    price (SubmitRequest.Quantity req) (SubmitRequest.RequestedAt req).

Lemma command_of_fields req orderID commandID record :
  let cmd := command_of req orderID commandID record in
  OrderCommand.BookKey cmd = itoa (SubmitRequest.MarketID req) +:+ ":" +:+ norm_outcome req ∧
  OrderCommand.FreezeAmount cmd = FreezeRecord.Amount record ∧
  OrderCommand.OrderID cmd = orderID ∧ OrderCommand.UserID cmd = SubmitRequest.UserID req ∧
  OrderCommand.Quantity cmd = SubmitRequest.Quantity req ∧ OrderCommand.STPStrategy cmd = "".
Proof. unfold command_of. by destruct (command_terms _ _ _ _) as [[ty tif] price]. Qed.

(** Past the guards: the freeze that was asked for and what followed. *)
Record frozen_run s (req : SubmitRequest.t) s' (res : result OrderError SubmitResult.t)
    (freezeAsset : string) (freezeAmount : Z) (orderID commandID : string) : Prop := {
  fr_valid : ValidateOrderFields (norm_outcome req) (norm_side req) (norm_type req) (norm_tif req)
               (SubmitRequest.Price req) (SubmitRequest.Quantity req) = Ok ();
  fr_freeze : CalculateFreeze (norm_side req) (norm_type req) (SubmitRequest.MarketID req)
                (norm_outcome req) (SubmitRequest.Price req) (SubmitRequest.Quantity req) =
              Ok (freezeAsset, freezeAmount);
  fr_id : orderID ≠ "" ∨ ∃ n, orderID = fresh "ord" n;
  fr_run :
    let '(a, frz) := PreFreeze (account s)
      (FreezeRequest.mk (SubmitRequest.UserID req) freezeAsset "ORDER" orderID freezeAmount) in
    match frz with
    | Err _ => account s' = a ∧ publisher s' = publisher s ∧
               ∃ e, res = Err e ∧ ∀ m, e ≠ ErrPublishFailed m
    | Ok record =>
        let '(p, err) := PublishJSON (publisher s) TopicOrderCommand
          (itoa (SubmitRequest.MarketID req) +:+ ":" +:+ norm_outcome req)
          (PayloadCommand (command_of req orderID commandID record)) in
        publisher s' = p ∧
        match err with
        | Some e => account s' = (ReleaseFreeze a (FreezeRecord.FreezeID record)).1 ∧
                    res = Err (ErrPublishFailed e)
        | None => account s' = a ∧
                  res = Ok (SubmitResult.mk commandID orderID (FreezeRecord.FreezeID record)
                              (FreezeRecord.Asset record) (FreezeRecord.Amount record))
        end
    end;
}.

Lemma SubmitOrder_run nowUnix s req s' res :
  SubmitOrder fresh nowUnix s req = (s', res) →
  (account s' = account s ∧ publisher s' = publisher s ∧
   ∃ e, res = Err e ∧ ∀ m, e ≠ ErrPublishFailed m) ∨
  ∃ asset amount orderID commandID, frozen_run s req s' res asset amount orderID commandID.
Proof.
  unfold SubmitOrder. fold (norm_outcome req) (norm_side req) (norm_type req) (norm_tif req).
  destruct (_ || _); [intros [= <- <-]; left; split_and!; eauto|].
  destruct (ValidateOrderFields _ _ _ _ _ _) as [[]|e] eqn:EV;
    [|intros [= <- <-]; left; split_and!; eauto].
  destruct (check_market s _ nowUnix) as [mk|e] eqn:EM.
  2: { intros [= <- <-]. left. split_and!; [done..|]. exists e. split; [done|]. intros m ->.
       revert EM. unfold check_market, requireRollupNotFrozen. repeat case_match; congruence. }
  destruct (CalculateFreeze _ _ _ _ _ _) as [[asset amount]|e] eqn:EF;
    [|intros [= <- <-]; left; split_and!; eauto].
  set (drawn := if negb (String.eqb (SubmitRequest.OrderID req) "") then _ else _).
  assert (account drawn.1 = account s ∧ publisher drawn.1 = publisher s ∧
    (drawn.2 ≠ "" ∨ ∃ n, drawn.2 = fresh "ord" n)) as (Da & Dp & Did).
  { unfold drawn. destruct (String.eqb_spec (SubmitRequest.OrderID req) ""); simpl; eauto. }
  clearbody drawn. destruct drawn as [s1 orderID]. unfold NewID. simpl in Da, Dp, Did.
  cbn beta iota zeta. destruct (duplicate _ _ orderID); [intros [= <- <-]; left; split_and!; eauto|].
  cbn [account publisher]. intros H. right. exists asset, amount, orderID, (fresh "cmd" (draws s1)).
  split; [done..|]. rewrite <-Da, <-Dp.
  destruct (PreFreeze (account s1) _) as [a [record|e]].
  - unfold command_of. destruct (command_terms _ _ _ _) as [[ty tif] price]. cbn in H |- *.
    destruct (PublishJSON _ _ _ _) as [p [e|]]; [destruct (ReleaseFreeze a _) as [a' err]|];
      simplify_eq; done.
  - cbn in H. simplify_eq. split_and!; [done..|]. eexists. split; [done|]. by case_match.
Qed.
End service.

(** ** Claims *)

Section claims.
Context {A M P : Type} `{!AccountClient A, !AccountLaws A, !MarketStore M}.
Context `{!Publisher P, !PublisherLog P}.
Context (fresh : string → nat → string).
Implicit Types s : Service A M P.

(** What the engine reads from the command of an accepted request. *)
Lemma command_of_order req orderID commandID record asset amount nowMillis :
  ValidateOrderFields (norm_outcome req) (norm_side req) (norm_type req) (norm_tif req)
    (SubmitRequest.Price req) (SubmitRequest.Quantity req) = Ok () →
  CalculateFreeze (norm_side req) (norm_type req) (SubmitRequest.MarketID req)
    (norm_outcome req) (SubmitRequest.Price req) (SubmitRequest.Quantity req) = Ok (asset, amount) →
  int64 (SubmitRequest.Price req) → int64 (SubmitRequest.Quantity req) → orderID ≠ "" →
  FreezeRecord.Amount record = amount → FreezeRecord.Asset record = normalize_upper asset →
  let cmd := command_of req orderID commandID record in
  let o := MatchCommand.ToOrder (CommandFromKafka cmd) nowMillis in
  Order.Validate o = Ok () ∧ MatchCommand.BookKey (CommandFromKafka cmd) = Order.BookKey o ∧
  OrderCommand.BookKey cmd = Order.BookKey o ∧ OrderCommand.FreezeAsset cmd = asset ∧
  Order.Type_ o = OrderTypeLimit ∧ (Order.TIF o = TimeInForceGTC ∨ Order.TIF o = TimeInForceIOC) ∧
  1 ≤ Order.Price o ≤ 99 ∧ 0 < OrderCommand.FreezeAmount cmd ≤ MaxInt64 ∧
  if Order.IsBuy o
  then asset = DefaultCollateralAsset ∧ Order.Price o * Order.Quantity o ≤ OrderCommand.FreezeAmount cmd
  else asset = PositionAsset (Order.MarketID o) (Order.Outcome o) ∧
       OrderCommand.FreezeAmount cmd = Order.Quantity o.
Proof.
  intros HV HF Ip Iq Hid Hamt Hasset.
  assert (BuildBookKey (SubmitRequest.MarketID req) (norm_outcome req) =
    itoa (SubmitRequest.MarketID req) +:+ ":" +:+ norm_outcome req) as Hkey.
  { unfold BuildBookKey, norm_outcome. by rewrite normalize_upper_idem. }
  assert (itoa (SubmitRequest.MarketID req) +:+ ":" +:+ norm_outcome req ≠ "") as Hne.
  { destruct (itoa_tight (SubmitRequest.MarketID req)) as [_ Hn]. by destruct (itoa _). }
  pose proof (validated _ _ _ _ _ _ HV) as (_ & Hside & _ & _ & Hq & _).
  unfold command_of. destruct (command_terms _ _ _ _) as [[ty tif] price] eqn:ET.
  destruct (freeze_covers _ _ _ _ _ _ _ _ _ _ _ _ HV Ip Iq HF ET) as (-> & Htif & Hp & Ha & Hcov).
  unfold CommandFromKafka, MatchCommand.ToOrder, Order.Validate, Order.IsBuy, Order.BookKey. cbn -[itoa String.eqb].
  rewrite Hkey, Hamt, Hasset.
  destruct (String.eqb_spec orderID ""); [done|]. destruct (Z.leb_spec (SubmitRequest.Quantity req) 0); [lia|].
  destruct (Z.ltb_spec price 1); [lia|]. destruct (Z.ltb_spec 9999 price); [lia|].
  destruct (String.eqb_spec (itoa (SubmitRequest.MarketID req) +:+ ":" +:+ norm_outcome req) "");
    [done|].
  assert (normalize_upper asset = asset) as ->.
  { destruct Hside as [Hs|Hs]; rewrite Hs in Hcov; simpl in Hcov; destruct Hcov as [-> _];
      [by vm_compute|apply PositionAsset_normal]. }
  destruct Htif as [-> | ->], Hside as [Hs|Hs]; rewrite Hs in Hcov |- *; simpl in Hcov;
    split_and!; simpl; auto; try lia; try apply Hcov.
Qed.

(** The sum of the credits of an inventory at one balance. *)
Definition credited (user : Z) (items : list InventoryItem.t) (u : Z) (a : string) : Z :=
  sumZ (λ i, on_balance user (InventoryItem.PositionAsset i) (InventoryItem.Quantity i) u a) items.

Lemma seed_inventory_ok id user market now items s s' :
  acct_ok (account s) → Forall (λ i, 0 ≤ InventoryItem.Quantity i) items →
  (∀ a, available (account s) user a + frozen (account s) user a +
        sumZ InventoryItem.Quantity items ≤ MaxInt64) →
  seed_inventory fresh s id user market now items = (s', None) →
  acct_ok (account s') ∧
  ∀ u a, frozen (account s') u a = frozen (account s) u a ∧
         available (account s') u a = available (account s) u a + credited user items u a.
Proof.
  revert s. induction items as [|i items IH]; intros s Hok Hpos Hfit; simpl.
  { intros [= <-]. split; [done|]. intros u a. unfold credited. simpl. lia. }
  apply Forall_cons in Hpos as [Hi Hpos].
  destruct (CreditBalance (account s) _ _ _ _ _) as [a [[]|e]] eqn:EC; [|done|done].
  destruct (PublishJSON _ _ _ _) as [p err]. cbn [sumZ] in Hfit.
  assert (0 ≤ sumZ InventoryItem.Quantity items) as Hsum by (by apply sumZ_nonneg).
  apply credit_ok in EC as [Hok' Hbal];
    [|done|specialize (Hfit (InventoryItem.PositionAsset i)); lia].
  intros Hrun. apply IH in Hrun as [Hok'' Hrest]; [|done|done|].
  - split; [done|]. intros u x. destruct (Hrest u x) as [F1 A1]. destruct (Hbal u x) as [F2 A2].
    unfold credited in *. cbn [sumZ account set_account set_publisher] in *. lia.
  - intros x. cbn. destruct (Hbal user x) as [-> ->]. specialize (Hfit x).
    unfold on_balance. case_bool_decide; lia.
Qed.

(** The sell order of a seeding freezes its shares. *)
Lemma sell_order_freezes nowUnix s req s' r :
  acct_ok (account s) → norm_side req = "SELL" → SubmitOrder fresh nowUnix s req = (s', Ok r) →
  acct_ok (account s') ∧
  ∀ u a,
    let d := on_balance (SubmitRequest.UserID req)
      (PositionAsset (SubmitRequest.MarketID req) (norm_outcome req)) (SubmitRequest.Quantity req) u a in
    available (account s') u a = available (account s) u a - d ∧
    frozen (account s') u a = frozen (account s) u a + d.
Proof.
  intros Hok Hside Hrun.
  apply SubmitOrder_run in Hrun as [(_ & _ & e & [=] & _)|(asset & amount & oid & cid & [HV HF Hid Hr])].
  destruct (PreFreeze (account s) _) as [a [record|e]] eqn:EP; [|by destruct Hr as (_ & _ & e' & [=] & _)].
  destruct (PublishJSON _ _ _ _) as [p [e|]]; destruct Hr as [_ Hr]; [by destruct Hr|].
  destruct Hr as [-> _]. destruct (prefreeze_ok _ _ _ _ Hok EP) as (Hok' & _ & _ & Hbal).
  rewrite Hside in HF. unfold CalculateFreeze in HF. cbn in HF.
  destruct (_ <=? 0); [done|]. destruct (String.eqb (TrimSpace _) ""); [done|].
  injection HF as <- <-. split; [done|]. exact Hbal.
Qed.
End claims.

(** C13: an accepted order is backed.  [SubmitOrder] publishes exactly one command, on
    its book's key; the order the engine builds from it passes [Validate], is a limit
    order at 1 to 99 with the requested quantity, under the identifier that was
    returned; its freeze covers the worst case (price times quantity of collateral for
    a buy, the shares themselves for a sell), and exactly this freeze moved from the
    user's available to the frozen balance, no other balance changing. *)
Theorem accepted_order_backed {A M P : Type} `{!AccountClient A, !AccountLaws A, !MarketStore M}
    `{!Publisher P, !PublisherLog P} fresh nowUnix nowMillis (s : Service A M P) req s' r :
  (∀ n, fresh "ord" n ≠ "") → int64 (SubmitRequest.Price req) → int64 (SubmitRequest.Quantity req) →
  acct_ok (account s) → SubmitOrder fresh nowUnix s req = (s', Ok r) →
  ∃ cmd, published (publisher s') =
           published (publisher s) ++ [(TopicOrderCommand, OrderCommand.BookKey cmd, PayloadCommand cmd)] ∧
    let o := MatchCommand.ToOrder (CommandFromKafka cmd) nowMillis in
    (Order.Validate o = Ok () ∧ MatchCommand.BookKey (CommandFromKafka cmd) = Order.BookKey o ∧
     OrderCommand.BookKey cmd = Order.BookKey o ∧ Order.Type_ o = OrderTypeLimit ∧
     1 ≤ Order.Price o ≤ 99 ∧ Order.Quantity o = SubmitRequest.Quantity req ∧
     Order.UserID o = SubmitRequest.UserID req ∧ Order.OrderID o = SubmitResult.OrderID r) ∧
    (if Order.IsBuy o
     then OrderCommand.FreezeAsset cmd = DefaultCollateralAsset ∧
          Order.Price o * Order.Quantity o ≤ OrderCommand.FreezeAmount cmd
     else OrderCommand.FreezeAsset cmd = PositionAsset (Order.MarketID o) (Order.Outcome o) ∧
          OrderCommand.FreezeAmount cmd = Order.Quantity o) ∧
    acct_ok (account s') ∧
    ∀ u a,
      let d := on_balance (Order.UserID o) (OrderCommand.FreezeAsset cmd)
                 (OrderCommand.FreezeAmount cmd) u a in
      available (account s') u a = available (account s) u a - d ∧
      frozen (account s') u a = frozen (account s) u a + d.
Proof.
  intros Hfresh Ip Iq Hok Hrun.
  apply SubmitOrder_run in Hrun as [(_ & _ & e & [=] & _)|(asset & amount & oid & cid & [HV HF Hid Hr])].
  destruct (PreFreeze (account s) _) as [a [record|e]] eqn:EP; [|by destruct Hr as (_ & _ & e' & [=] & _)].
  destruct (PublishJSON _ _ _ _) as [p [e|]] eqn:EB; destruct Hr as [Ep Hr]; [by destruct Hr|].
  destruct Hr as [Ea [= ->]].
  destruct (prefreeze_ok _ _ _ _ Hok EP) as (Hok' & Hamt & Has & Hbal). cbn in Hamt, Has.
  assert (oid ≠ "") as Hne by (destruct Hid as [?|[n ->]]; auto).
  destruct (command_of_order req oid cid record asset amount nowMillis HV HF Ip Iq Hne Hamt Has)
    as (H1 & H2 & H3 & H4 & H5 & H6 & H7 & H8 & H9).
  exists (command_of req oid cid record). rewrite Ep, Ea.
  pose proof (command_of_fields req oid cid record) as (F1 & F2 & F3 & F4 & F5 & _).
  split; [rewrite F1; by apply publish_ok|].
  cbv zeta. cbv zeta in H1, H2, H3, H4, H5, H7, H9. rewrite H4.
  cbn [Order.UserID Order.Quantity Order.OrderID MatchCommand.ToOrder MatchCommand.UserID
       MatchCommand.Quantity MatchCommand.OrderID CommandFromKafka] in *.
  split_and!; try done; [lia|lia|]. rewrite F2, F4, Hamt. exact Hbal.
Qed.


(** Seeding mints complete pairs.  When [SeedLiquidity] succeeds the operator paid
    100 collateral units per pair, received the same number of YES and NO shares, and
    the shares of the chosen outcome (only these) are frozen behind the sell order. *)
Theorem seed_liquidity_mints_pairs {A M P : Type} `{!AccountClient A, !AccountLaws A, !MarketStore M}
    `{!Publisher P, !PublisherLog P} fresh nowUnix nowMillis nowUnix' (s : Service A M P) req s' r market :
  let user := SeedLiquidityRequest.OperatorUserID req in
  let m := SeedLiquidityRequest.MarketID req in
  let q := SeedLiquidityRequest.Quantity req in
  acct_ok (account s) → GetMarket (store s) m = Ok market →
  (∀ a, available (account s) user a + frozen (account s) user a + 2 * q ≤ MaxInt64) →
  SeedLiquidity fresh nowUnix nowMillis nowUnix' s req = (s', Ok r) →
  0 < q ∧ SeedLiquidityResult.CollateralDebit r = 100 * q ∧ acct_ok (account s') ∧
  ∀ u a,
    let sold := on_balance user (PositionAsset m (SeedLiquidityRequest.Outcome req)) q u a in
    available (account s') u a = available (account s) u a
      - on_balance user (NormalizeAsset (Market.CollateralAsset market)) (100 * q) u a
      + on_balance user (PositionAsset m "YES") q u a + on_balance user (PositionAsset m "NO") q u a
      - sold ∧
    frozen (account s') u a = frozen (account s) u a + sold.
Proof.
  intros user m q Hok Hm Hfit. unfold SeedLiquidity. fold user m q.
  destruct (_ || _) eqn:Hg; [done|].
  assert (0 < q) as Hq by (repeat (apply orb_false_iff in Hg as [Hg ?]); lia).
  destruct (negb _ && negb _); [done|]. unfold check_market. rewrite Hm.
  destruct (requireRollupNotFrozen _); [done|]. destruct (negb _); [done|].
  unfold NewID. cbn beta iota zeta.
  destruct (WinningPayoutAmount q) as [debit|] eqn:EW; [|done].
  assert (debit = 100 * q) as ->.
  { revert EW. unfold WinningPayoutAmount, DefaultWinningSharePayout. destruct (q <=? 0); [done|].
    destruct (Z.ltb_spec (MaxInt64 `quot` 100) q) as [|Hle]; [done|]. intros [= <-].
    change (MaxInt64 `quot` 100) with 92233720368547758 in Hle.
    rewrite wrap64_id by (unfold int64, MinInt64, MaxInt64; lia). lia. }
  cbn [account publisher store]. destruct (DebitBalance _ _ _ _ _ _) as [a [[]|e]] eqn:ED; [|done|done].
  destruct (debit_ok _ _ _ _ _ _ _ _ Hok ED) as [Hok1 Hbal1].
  destruct (seed_inventory _ _ _ _ _ _ _) as [s1 [err|]] eqn:EI; [done|].
  apply seed_inventory_ok in EI as [Hok2 Hbal2]; [|done|by repeat constructor; simpl; lia|].
  2: { intros x. cbn. destruct (Hbal1 user x) as [-> ->]. specialize (Hfit x).
       unfold on_balance. case_bool_decide; lia. }
  destruct (SubmitOrder _ _ _ _) as [s2 [sr|err]] eqn:ES; [|done]. intros [= <- <-].
  apply sell_order_freezes in ES as [Hok3 Hbal3]; [|done|done].
  split_and!; [done|done|done|]. intros u x. cbv zeta.
  destruct (Hbal1 u x) as [F1 A1]. destruct (Hbal2 u x) as [F2 A2]. destruct (Hbal3 u x) as [A3 F3].
  unfold credited, norm_outcome, PositionAsset in *. cbn -[on_balance normalize_upper itoa] in *.
  rewrite !normalize_upper_idem in A3, F3. lia.
Qed.

(** ** Witnesses *)

#[local] Instance demo_markets : MarketStore () := {|
  GetMarket _ m := if m =? 7 then Ok (Market.mk "OPEN" 0 "USDT") else Err "market not found";
  GetRollupFreezeState _ := Ok false;
|}.

Definition demo_fresh (prefix : string) (n : nat) : string := prefix +:+ "_" +:+ itoa (Z.of_nat n).

Definition demo_account : GRPCClient bool :=
  mkClient (SeedBalance (NewBalanceBook (S := bool)) 1 "USDT" 100000) (λ _ text, text)
    (λ n, "frz_" +:+ itoa (Z.of_nat n)) 0.

Lemma demo_account_ok : client_ok demo_account.
Proof.
  split; [|done]. split.
  - apply map_Forall_insert_2; [by vm_compute|done].
  - done.
  - intros k. unfold frozen_at. cbn. rewrite msum_empty.
    destruct (decide (balanceKey 1 "USDT" = k)) as [<-|Hne].
    + by rewrite lookup_insert_eq.
    + by rewrite lookup_insert_ne.
Qed.

Lemma demo_account_total u a :
  Balance.Available (GetBalance (book demo_account) u a) +
  Balance.Frozen (GetBalance (book demo_account) u a) ≤ 100000.
Proof.
  unfold GetBalance.
  change (balances (book demo_account)) with
    ({[balanceKey 1 "USDT" := Balance.mk 1 "USDT" 100000 0]} : gmap string Balance.t).
  destruct (_ !! balanceKey u a) as [x|] eqn:E; simpl; [|lia].
  apply lookup_singleton_Some in E as [_ <-]. simpl. lia.
Qed.

Definition demo_orders : Service (GRPCClient bool) () (list BatchItem) :=
  mkService demo_account [] () None 0.
Definition demo_refused : Service (GRPCClient bool) () refusing :=
  mkService demo_account (mkRefusing []) () None 0.
Definition demo_request : SubmitRequest.t :=
  SubmitRequest.mk 1 7 " yes" "buy" "market" "GTC" 0 40 "t" "c" 1000 "".
Definition demo_seed (price : Z) : SeedLiquidityRequest.t :=
  SeedLiquidityRequest.mk 1 7 "yes" 10 price "t".

Lemma accepted_order_backed_witness :
  ∃ s' r cmd, SubmitOrder demo_fresh 50 demo_orders demo_request = (s', Ok r) ∧
    SubmitResult.Amount r = 4000 ∧
    published (publisher s') = [(TopicOrderCommand, OrderCommand.BookKey cmd, PayloadCommand cmd)] ∧
    Order.Validate (MatchCommand.ToOrder (CommandFromKafka cmd) 60) = Ok ().
Proof.
  destruct (SubmitOrder demo_fresh 50 demo_orders demo_request) as [s' [r|e]] eqn:E;
    [|vm_compute in E; discriminate E].
  destruct (accepted_order_backed demo_fresh 50 60 demo_orders demo_request s' r)
    as (cmd & Hpub & [HV _] & _).
  - by intros n.
  - by vm_compute.
  - by vm_compute.
  - exact demo_account_ok.
  - exact E.
  - exists s', r, cmd. split; [done|]. split; [vm_compute in E; by injection E as <- <-|].
    split; [exact Hpub|exact HV].
Defined.


Lemma seed_liquidity_mints_pairs_witness :
  ∃ s' r, SeedLiquidity demo_fresh 50 51 52 demo_orders (demo_seed 60) = (s', Ok r) ∧
    available (account s') 1 "USDT" = 99000 ∧ available (account s') 1 "POSITION:7:NO" = 10 ∧
    frozen (account s') 1 "POSITION:7:YES" = 10.
Proof.
  destruct (SeedLiquidity demo_fresh 50 51 52 demo_orders (demo_seed 60)) as [s' [r|e]] eqn:E;
    [|vm_compute in E; discriminate E].
  exists s', r. split; [done|].
  destruct (seed_liquidity_mints_pairs demo_fresh 50 51 52 demo_orders (demo_seed 60) s' r
    (Market.mk "OPEN" 0 "USDT")) as (_ & _ & _ & Hbal).
  - exact demo_account_ok.
  - done.
  - intros a. pose proof (demo_account_total 1 a) as Ht. cbn in Ht |- *. unfold MaxInt64. lia.
  - exact E.
  - split; [exact (proj1 (Hbal 1 "USDT"))|].
    split; [exact (proj1 (Hbal 1 "POSITION:7:NO"))|exact (proj2 (Hbal 1 "POSITION:7:YES"))].
Defined.

(** ** Findings *)

(** The command never carries a self-trade prevention strategy: every order goes to the
    engine with the default one. *)
Lemma submitted_orders_have_no_stp req orderID commandID record nowMillis :
  Order.STP (MatchCommand.ToOrder (CommandFromKafka (command_of req orderID commandID record)) nowMillis) =
    STPFlag_ToModel (STPFlagFrom (STPStrategy_of_string "")).
Proof.
  pose proof (command_of_fields req orderID commandID record) as (_ & _ & _ & _ & _ & F).
  unfold CommandFromKafka, MatchCommand.ToOrder. cbn [Order.STP MatchCommand.STP]. by rewrite F.
Qed.

(** [SeedLiquidity] only asks for a positive price: at 100 the collateral is taken and
    the pairs are credited before the order is refused, and nothing is given back. *)
Lemma seed_at_100_is_refused_after_the_debit :
  ∃ s', SeedLiquidity demo_fresh 50 51 52 demo_orders (demo_seed 100) =
          (s', Err (ErrValidationFailed "limit order price must be between 1 and 99")) ∧
    available (account s') 1 "USDT" = 99000 ∧ available (account s') 1 "POSITION:7:YES" = 10.
Proof.
  destruct (SeedLiquidity demo_fresh 50 51 52 demo_orders (demo_seed 100)) as [s' res] eqn:E.
  exists s'. split; [f_equal; apply (f_equal snd) in E; etransitivity; [symmetry; exact E|by vm_compute]|].
  apply (f_equal fst) in E. simpl in E. subst s'. by vm_compute.
Qed.
