(* ===== verification/Custody.v ===== *)
(** * Custody: deposits and withdrawals through the wallet service

    The package [custody]: [handler.go] (the deposit callback, deposit addresses and
    withdrawals), [store.go] (its two tables), [price.go] (the cache of prices) and the
    requests of [client.go].  The wallet service ([SaaS]), the price feed ([fetch]) and
    the account service are interfaces.  A [float64] is Rocq's executable binary floating
    point of 53 bits, a [big.Float] one of the precision the code gives it. *)

From Stdlib Require Import Ascii.
From Stdlib Require Import SpecFloat.
From S2P Require Import Prelude Strings Shared Messages OrderService.

Local Open Scope Z_scope.
Local Open Scope go_scope.

(** ** Data *)

Module DepositCoinConfig.
Record t := mk { Coin : string; ChainDecimals : Z; IsNative : bool }.
End DepositCoinConfig.

Module AddressMapping.
Record t := mk { UserID : Z; Chain : string; Network : string; Coin : string; Address : string; KeyID : string }.
End AddressMapping.

Module DepositRecord.
Record t := mk {
  BizID : string;
  UserID : Z;
  Address : string;
  Asset : string;
  CreditAsset : string;
  ChainAmount : string;
  CreditAmount : Z;
  ChainID : Z;
  TxHash : string;
  TxIndex : Z;
}.
End DepositRecord.

Module DepositNotifyRequest.
Record t := mk {
  BizID : string;
  ChainID : Z;
  TxHash : string;
  TxIndex : Z;
  Address : string;
  Asset : string;
  Amount : string;
}.
End DepositNotifyRequest.

Module CreateWithdrawRequest.
Record t := mk {
  AccountID : string;
  OrderID : string;
  KeyID : string;
  Chain : string;
  Network : string;
  Coin : string;
  To : string;
  Amount : string;
}.
End CreateWithdrawRequest.

Module WithdrawRequest.
Record t := mk { ToAddress : string; Amount : Z; Asset : string }.
End WithdrawRequest.

(** The configuration of the handler. *)
Record Config := mkConfig {
  depositToken : string;
  chain : string;
  network : string;
  coin : string;
  chainDecimals : Z;
  accountingDigits : Z;
  depositCoins : list DepositCoinConfig.t;
}.

Definition DefaultBSCDepositCoins (usdtChainDecimals : Z) : list DepositCoinConfig.t :=
  [DepositCoinConfig.mk "USDT" usdtChainDecimals false; DepositCoinConfig.mk "BNB" 18 true].

Definition or_default (value fallback : string) : string := if String.eqb value "" then fallback else value.

Definition NewHandler (d : Config) : Config :=
  let decimals := if chainDecimals d <=? 0 then DefaultCollateralChainDecimals else chainDecimals d in
  mkConfig (depositToken d) (or_default (chain d) "binance") (or_default (network d) "testnet")
    (or_default (coin d) "USDT") decimals
    (if accountingDigits d <=? 0 then DefaultCollateralDisplayDigits else accountingDigits d)
    match depositCoins d with [] => DefaultBSCDepositCoins decimals | coins => coins end.

(** ** The tables ([store.go]) *)

Definition norm (s : string) : string := ToLower (TrimSpace s).

Class CustodyStore (S : Type) := {
  LookupUserByAddress : S → string → string → string → result string Z;
  GetUserAddress : S → Z → string → string → string → result string string;
  GetUserAddressWithKeyID : S → Z → string → string → string → result string (string * string);
  SaveAddressMapping : S → AddressMapping.t → S * option string;
  IsDepositProcessed : S → string → result string bool;
  InsertDeposit : S → DepositRecord.t → S * option string;
}.

(** What the callback relies on: a deposit that was recorded is found, and recording one
    forgets none. *)
Class CustodyStoreLaws (S : Type) `{!CustodyStore S} := {
  deposited : S → list string;
  processed_spec s id b : IsDepositProcessed s id = Ok b → b = bool_decide (id ∈ deposited s);
  insert_recorded s d s' : InsertDeposit s d = (s', None) → DepositRecord.BizID d ∈ deposited s';
  insert_keeps s d s' e id : InsertDeposit s d = (s', e) → id ∈ deposited s → id ∈ deposited s';
}.

(** [custody_address_mapping] in the order of its rows, and [custody_deposits]. *)
Record Store := mkStore { mappings : list AddressMapping.t; deposits : list DepositRecord.t }.

Definition same_address (m n : AddressMapping.t) : bool :=
  String.eqb (AddressMapping.Chain m) (AddressMapping.Chain n) &&
  String.eqb (AddressMapping.Network m) (AddressMapping.Network n) &&
  String.eqb (AddressMapping.Coin m) (AddressMapping.Coin n) &&
  String.eqb (AddressMapping.Address m) (AddressMapping.Address n).

Definition sql_LookupUserByAddress (s : Store) (address chain network : string) : result string Z :=
  Ok (from_option AddressMapping.UserID 0 (List.find (λ m,
    String.eqb (AddressMapping.Address m) (norm address) && String.eqb (AddressMapping.Chain m) (norm chain) &&
    String.eqb (AddressMapping.Network m) (norm network)) (mappings s))).

Definition user_mapping (s : Store) (userID : Z) (chain network coin : string) : option AddressMapping.t :=
  List.find (λ m, (AddressMapping.UserID m =? userID) && String.eqb (AddressMapping.Chain m) (norm chain) &&
    String.eqb (AddressMapping.Network m) (norm network) && String.eqb (AddressMapping.Coin m) (norm coin))
    (mappings s).

Definition sql_GetUserAddress (s : Store) (userID : Z) (chain network coin : string) : result string string :=
  Ok (from_option AddressMapping.Address "" (user_mapping s userID chain network coin)).

Definition sql_GetUserAddressWithKeyID (s : Store) (userID : Z) (chain network coin : string)
    : result string (string * string) :=
  Ok match user_mapping s userID chain network coin with
     | Some m => (AddressMapping.Address m, AddressMapping.KeyID m)
     | None => ("", "")
     end.

(** A row that is there keeps its user and takes the key. *)
Definition sql_SaveAddressMapping (s : Store) (m : AddressMapping.t) : Store * option string :=
  let m := AddressMapping.mk (AddressMapping.UserID m) (norm (AddressMapping.Chain m))
    (norm (AddressMapping.Network m)) (norm (AddressMapping.Coin m)) (norm (AddressMapping.Address m))
    (AddressMapping.KeyID m) in
  (mkStore
     (if existsb (same_address m) (mappings s)
      then (λ n, if same_address m n
                 then AddressMapping.mk (AddressMapping.UserID n) (AddressMapping.Chain n) (AddressMapping.Network n)
                        (AddressMapping.Coin n) (AddressMapping.Address n) (AddressMapping.KeyID m)
                 else n) <$> mappings s
      else mappings s ++ [m])
     (deposits s), None).

Definition sql_IsDepositProcessed (s : Store) (bizID : string) : result string bool :=
  Ok (bool_decide (bizID ∈ DepositRecord.BizID <$> deposits s)).

Definition sql_InsertDeposit (s : Store) (d : DepositRecord.t) : Store * option string :=
  let creditAsset := normalize_upper (DepositRecord.CreditAsset d) in
  let asset := normalize_upper (DepositRecord.Asset d) in
  let creditAsset := if String.eqb creditAsset "" then asset else creditAsset in
  if bool_decide (DepositRecord.BizID d ∈ DepositRecord.BizID <$> deposits s) then (s, None)
  else (mkStore (mappings s)
          (deposits s ++ [DepositRecord.mk (DepositRecord.BizID d) (DepositRecord.UserID d)
             (norm (DepositRecord.Address d)) asset creditAsset (DepositRecord.ChainAmount d)
             (DepositRecord.CreditAmount d) (DepositRecord.ChainID d) (DepositRecord.TxHash d)
             (DepositRecord.TxIndex d)]), None).

#[export] Instance sql_store : CustodyStore Store := {|
  LookupUserByAddress := sql_LookupUserByAddress;
  GetUserAddress := sql_GetUserAddress;
  GetUserAddressWithKeyID := sql_GetUserAddressWithKeyID;
  SaveAddressMapping := sql_SaveAddressMapping;
  IsDepositProcessed := sql_IsDepositProcessed;
  InsertDeposit := sql_InsertDeposit;
|}.

#[export, refine] Instance sql_store_laws : CustodyStoreLaws Store := {|
  deposited s := DepositRecord.BizID <$> deposits s;
|}.
Proof.
  - by intros s id b [= <-].
  - intros s d s'. cbn. unfold sql_InsertDeposit. case_bool_decide; intros [= <-]; [done|]. cbn.
    rewrite fmap_app. apply elem_of_app. right. by left.
  - intros s d s' e id. cbn. unfold sql_InsertDeposit. case_bool_decide; intros [= <- _]; [done|]. cbn.
    rewrite fmap_app. intros ?. apply elem_of_app. by left.
Defined.

(** ** The wallet service ([client.go]) *)

(** An address is answered with its key; a withdrawal with transaction and status. *)
Class SaaS (C : Type) := {
  UpsertAccount : C → string → C * option string;
  CreateAddress : C → string → string → string → string → C * result string (string * string);
  SubmitWithdraw : C → CreateWithdrawRequest.t → C * result string (string * string);
}.

(** The withdrawals the service took.  A request it answers is taken, one that fails may
    have been; addresses are no withdrawals. *)
Class SaaSLog (C : Type) `{!SaaS C} := {
  taken : C → list CreateWithdrawRequest.t;
  submit_ok c r c' a : SubmitWithdraw c r = (c', Ok a) → taken c' = taken c ++ [r];
  submit_err c r c' e : SubmitWithdraw c r = (c', Err e) → taken c' = taken c ∨ taken c' = taken c ++ [r];
}.

(** ** Prices ([price.go]) *)

(** [float64]. *)
Notation float64 := spec_float.
Definition float64_of (m : Z) : float64 := binary_normalize 53 1024 m 0 false.
Definition float64_mul : float64 → float64 → float64 := SFmul 53 1024.

Module cachedPrice.
Record t := mk { price : float64; fetchedAt : Z }.
End cachedPrice.

Record PriceProvider := mkPrices { cache : gmap string cachedPrice.t; cacheTTL : Z }.

(** 15 seconds, in nanoseconds. *)
Definition NewPriceProvider (cacheTTL : Z) : PriceProvider :=
  mkPrices ∅ (if cacheTTL <=? 0 then 15 * 10 ^ 9 else cacheTTL).

(** [fetch] is [fetchBinancePrice]; the clock is read for the age and for the entry. *)
Definition GetUSDTPrice (fetch : string → result string float64) (now now' : Z) (p : PriceProvider) (symbol : string)
    : PriceProvider * result string float64 :=
  let symbol := normalize_upper symbol in
  if String.eqb symbol "USDT" || String.eqb symbol "" then (p, Ok (float64_of 1))
  else
    let cached := cache p !! symbol in
    if from_option (λ c, now ⊟ cachedPrice.fetchedAt c <? cacheTTL p) false cached
    then (p, Ok (from_option cachedPrice.price (float64_of 0) cached))
    else
      match fetch (symbol +:+ "USDT") with
      | Err e => (p, match cached with Some c => Ok (cachedPrice.price c) | None => Err e end)
      | Ok price => (mkPrices (<[symbol := cachedPrice.mk price now']> (cache p)) (cacheTTL p), Ok price)
      end.

(** ** Amounts *)

(** [big.Int.SetString(s, 10)]. *)
Definition SetString10 (s : string) : option Z :=
  match s with
  | String "-" s => Z.opp <$> parse_unsigned s
  | String "+" s => parse_unsigned s
  | _ => parse_unsigned s
  end.

(** [new(big.Float).SetInt(a)] divided by [SetInt(b)], rounded to [float64]: a quotient
    has the precision of the wider operand, which is at least 64. *)
Definition big_prec (a : Z) : Z := Z.max 64 (Z.log2 a + 1).
Definition big_quotient (a b : Z) : float64 :=
  let prec := Z.max (big_prec a) (big_prec b) in
  let big z := binary_normalize prec (2 ^ 20) z 0 false in
  match SFdiv prec (2 ^ 20) (big a) (big b) with
  | S754_finite s m e => binary_normalize 53 1024 (if s then - Zpos m else Zpos m) e s
  | x => x
  end.

(** [int64(f)]: towards zero; out of range it is the least [int64] (amd64). *)
Definition int64_of_float (f : float64) : Z :=
  match f with
  | S754_zero _ => 0
  | S754_finite s m e =>
      let z := if 0 <=? e then Zpos m * 2 ^ e else Zpos m / 2 ^ (- e) in
      let z := if s then - z else z in
      if bool_decide (int64 z) then z else MinInt64
  | _ => MinInt64
  end.

Definition findDepositCoin (cfg : Config) (asset : string) : option DepositCoinConfig.t :=
  List.find (λ c, String.eqb (DepositCoinConfig.Coin c) (normalize_upper asset)) (depositCoins cfg).

Definition supportedCoinNames (cfg : Config) : list string := DepositCoinConfig.Coin <$> depositCoins cfg.

(** The collateral itself: the raw amount without the digits that are not kept. *)
Definition collateral_credit (cfg : Config) (coinCfg : option DepositCoinConfig.t) (amount : Z) : result string Z :=
  let decimals := from_option DepositCoinConfig.ChainDecimals (chainDecimals cfg) coinCfg in
  let diff := decimals - accountingDigits cfg in
  let amount := if 0 <? diff then amount / 10 ^ diff else amount in
  if bool_decide (int64 amount) then Ok amount else Err "amount overflows int64".

(** Another coin: its value at the price, in accounting units. *)
Definition priced_credit (cfg : Config) (coinCfg : DepositCoinConfig.t) (amount : Z) (price : float64) : Z :=
  let tokenAmount := big_quotient amount (10 ^ DepositCoinConfig.ChainDecimals coinCfg) in
  let usdtValue := float64_mul tokenAmount price in
  (* [math.Pow(10, digits)] is exact up to 22 digits *)
  int64_of_float (float64_mul usdtValue (float64_of (10 ^ accountingDigits cfg))).

Definition convertDepositToCollateral (fetch : string → result string float64) (now now' : Z) (cfg : Config)
    (p : PriceProvider) (assetName rawAmount : string) : PriceProvider * result string (Z * string) :=
  let rawAmount := TrimSpace rawAmount in
  if String.eqb rawAmount "" then (p, Err "empty amount")
  else
    match SetString10 rawAmount with
    | None => (p, Err ("invalid amount: " +:+ rawAmount))
    | Some amount =>
        if amount <=? 0 then (p, Ok (0, ""))
        else
          let normalized := normalize_upper assetName in
          let coinCfg := findDepositCoin cfg normalized in
          if String.eqb normalized DefaultCollateralAsset then
            (p, match collateral_credit cfg coinCfg amount with
                | Ok n => Ok (n, DefaultCollateralAsset)
                | Err e => Err e
                end)
          else
            match coinCfg with
            | None => (p, Err ("unsupported deposit coin: " +:+ normalized))
            | Some c =>
                match GetUSDTPrice fetch now now' p normalized with
                | (p, Err e) => (p, Err ("get " +:+ normalized +:+ " price: " +:+ e))
                | (p, Ok price) => (p, Ok (priced_credit cfg c amount price, DefaultCollateralAsset))
                end
            end
    end.

(** ** The handlers ([handler.go]) *)

Section handler.
Context {A S C P : Type} `{!AccountClient A, !CustodyStore S, !SaaS C, !Publisher P}.
Context (fresh : string → nat → string) (cfg : Config).

(** The wallet service and the publisher are optional. *)
Record Handler := mkHandler {
  account : A;
  store : S;
  saas : option C;
  prices : PriceProvider;
  publisher : option P;
  draws : nat;
}.

Definition set_account (h : Handler) (a : A) : Handler :=
  mkHandler a (store h) (saas h) (prices h) (publisher h) (draws h).
Definition set_store (h : Handler) (s : S) : Handler :=
  mkHandler (account h) s (saas h) (prices h) (publisher h) (draws h).
Definition set_saas (h : Handler) (c : C) : Handler :=
  mkHandler (account h) (store h) (Some c) (prices h) (publisher h) (draws h).
Definition set_prices (h : Handler) (p : PriceProvider) : Handler :=
  mkHandler (account h) (store h) (saas h) p (publisher h) (draws h).
Definition set_publisher (h : Handler) (p : P) : Handler :=
  mkHandler (account h) (store h) (saas h) (prices h) (Some p) (draws h).
Definition NewID (h : Handler) (prefix : string) : Handler * string :=
  (mkHandler (account h) (store h) (saas h) (prices h) (publisher h) (Datatypes.S (draws h)), fresh prefix (draws h)).

(** [NotifyResponse] with the HTTP status. *)
Notation Answer := (Z * Z * string)%type.

Definition deposit_record (req : DepositNotifyRequest.t) (userID : Z) (creditAsset : string) (creditAmount : Z)
    : DepositRecord.t :=
  DepositRecord.mk (DepositNotifyRequest.BizID req) userID (DepositNotifyRequest.Address req)
    (DepositNotifyRequest.Asset req) creditAsset (DepositNotifyRequest.Amount req) creditAmount
    (DepositNotifyRequest.ChainID req) (DepositNotifyRequest.TxHash req) (DepositNotifyRequest.TxIndex req).

(** The credit, its record and its event; failures of the last two are only logged. *)
Definition credit_deposit (nowUnix : Z) (h : Handler) (req : DepositNotifyRequest.t) (userID : Z) (creditAsset : string)
    (creditAmount : Z) : Handler * Answer :=
  let '(h, depositID) := NewID h "cdep" in
  let '(a, res) := CreditBalance (account h) userID creditAsset creditAmount "CUSTODY_DEPOSIT" depositID in
  let h := set_account h a in
  match res with
  | Err _ => (h, (500, 500, "credit failed"))
  | Ok _ =>
      let '(s, _) := InsertDeposit (store h) (deposit_record req userID creditAsset creditAmount) in
      let h := set_store h s in
      let h :=
        match publisher h with
        | None => h
        | Some p => set_publisher h (PublishJSON p TopicCustodyDeposit (itoa userID)
            (PayloadCustodyDeposit (CustodyDepositEvent.mk depositID userID (DepositNotifyRequest.Asset req) creditAsset
               creditAmount (DepositNotifyRequest.Amount req) (DepositNotifyRequest.TxHash req) nowUnix))).1
        end in
      (h, (200, 0, "ok"))
  end.

(** [token] is the [x-deposit-token] header; the price is read at [now], kept at [now']. *)
Definition DepositNotify (fetch : string → result string float64) (now now' nowUnix : Z) (h : Handler) (token : string)
    (req : DepositNotifyRequest.t) : Handler * Answer :=
  if negb (String.eqb (depositToken cfg) "") && negb (String.eqb token (depositToken cfg))
  then (h, (401, 401, "unauthorized"))
  else if String.eqb (DepositNotifyRequest.BizID req) "" || String.eqb (DepositNotifyRequest.Address req) "" ||
          String.eqb (DepositNotifyRequest.Amount req) ""
  then (h, (400, 400, "biz_id, address, amount required"))
  else
    match IsDepositProcessed (store h) (DepositNotifyRequest.BizID req) with
    | Err _ => (h, (500, 500, "internal error"))
    | Ok true => (h, (200, 0, "already processed"))
    | Ok false =>
        match LookupUserByAddress (store h) (DepositNotifyRequest.Address req) (chain cfg) (network cfg) with
        | Err _ => (h, (500, 500, "internal error"))
        | Ok userID =>
            if userID =? 0 then (h, (200, 10000, "address not mapped"))
            else
              match convertDepositToCollateral fetch now now' cfg (prices h) (DepositNotifyRequest.Asset req)
                      (DepositNotifyRequest.Amount req) with
              | (p, Err _) => (set_prices h p, (400, 400, "invalid amount"))
              | (p, Ok (creditAmount, creditAsset)) =>
                  let h := set_prices h p in
                  if creditAmount <=? 0 then (h, (200, 0, "dust deposit ignored"))
                  else credit_deposit nowUnix h req userID creditAsset creditAmount
              end
        end
    end.

(** ** Addresses *)

(** One more coin is watched at the address; what fails is only logged. *)
Definition watch_coin (userID : Z) (address keyID : string) (h : Handler) (dc : DepositCoinConfig.t) : Handler :=
  match saas h with
  | None => h
  | Some c =>
      let '(c, res) := CreateAddress c (itoa userID) (chain cfg) (DepositCoinConfig.Coin dc) (network cfg) in
      let h := set_saas h c in
      match res with
      | Err _ => h
      | Ok _ => set_store h (SaveAddressMapping (store h) (AddressMapping.mk userID (chain cfg) (network cfg)
                  (DepositCoinConfig.Coin dc) address keyID)).1
      end
  end.

(** [strings.EqualFold]. *)
Definition other_coin (dc : DepositCoinConfig.t) : bool :=
  negb (String.eqb (ToLower (DepositCoinConfig.Coin dc)) (ToLower (coin cfg))).

Definition registerExtraCoinWatches (h : Handler) (address keyID : string) (userID : Z) : Handler :=
  fold_left (λ h dc, if other_coin dc then watch_coin userID address keyID h dc else h) (depositCoins cfg) h.

(** Runs in the background; a coin that has an address is left alone. *)
Definition backfillExtraCoinWatches (h : Handler) (userID : Z) (address : string) : Handler :=
  let keyID := match GetUserAddressWithKeyID (store h) userID (chain cfg) (network cfg) (coin cfg) with
               | Ok (_, keyID) => keyID | Err _ => "" end in
  fold_left (λ h dc,
    if other_coin dc then
      let existing := match GetUserAddress (store h) userID (chain cfg) (network cfg) (DepositCoinConfig.Coin dc) with
                      | Ok a => a | Err _ => "" end in
      if String.eqb existing "" then watch_coin userID address keyID h dc else h
    else h) (depositCoins cfg) h.

(** The address, and whether the watches are filled in behind the answer. *)
Definition GetDepositAddress (h : Handler) (userID : Z) : Handler * result (Z * string) (string * bool) :=
  match GetUserAddress (store h) userID (chain cfg) (network cfg) (coin cfg) with
  | Err _ => (h, Err (500, "internal error"))
  | Ok address =>
      if negb (String.eqb address "") then (h, Ok (address, true))
      else
        match saas h with
        | None => (h, Err (503, "custody service not configured"))
        | Some c =>
            let '(c, err) := UpsertAccount c (itoa userID) in
            let h := set_saas h c in
            match err with
            | Some _ => (h, Err (502, "custody account creation failed"))
            | None =>
                let '(c, res) := CreateAddress c (itoa userID) (chain cfg) (coin cfg) (network cfg) in
                let h := set_saas h c in
                match res with
                | Err _ => (h, Err (502, "address creation failed"))
                | Ok (address, keyID) =>
                    let h := set_store h (SaveAddressMapping (store h) (AddressMapping.mk userID (chain cfg)
                               (network cfg) (coin cfg) address keyID)).1 in
                    (registerExtraCoinWatches h address keyID userID, Ok (address, false))
                end
            end
        end
  end.

(** ** Withdrawals *)

Definition release (h : Handler) (freezeID : string) : Handler := set_account h (ReleaseFreeze (account h) freezeID).1.

Definition withdraw_request (h : Handler) (userID : Z) (withdrawID : string) (to : string) (chainAmount : Z)
    : CreateWithdrawRequest.t :=
  let keyID := match GetUserAddressWithKeyID (store h) userID (chain cfg) (network cfg) (coin cfg) with
               | Ok (_, keyID) => keyID | Err _ => "" end in
  CreateWithdrawRequest.mk (itoa userID) withdrawID keyID (chain cfg) (network cfg) (coin cfg) to (itoa chainAmount).

(** The freeze is given back and the amount debited once the service has taken the
    withdrawal; both results are dropped. *)
Definition RequestWithdraw (h : Handler) (userID : Z) (req : WithdrawRequest.t)
    : Handler * result (Z * string) (string * string * string) :=
  if String.eqb (WithdrawRequest.ToAddress req) "" || (WithdrawRequest.Amount req <=? 0) then (h, Err (400, "binding"))
  else
    let asset := NormalizeAsset (WithdrawRequest.Asset req) in
    let asset := if String.eqb asset "" then DefaultCollateralAsset else asset in
    let '(h, withdrawID) := NewID h "cwdr" in
    let '(a, frz) := PreFreeze (account h)
      (FreezeRequest.mk userID asset "CUSTODY_WITHDRAW" withdrawID (WithdrawRequest.Amount req)) in
    let h := set_account h a in
    match frz with
    | Err _ => (h, Err (400, "insufficient balance"))
    | Ok freeze =>
        match saas h with
        | None => (h, Err (503, "custody service not configured"))
        | Some c =>
            match AccountingToAssetChainAmount asset (WithdrawRequest.Amount req) with
            | Err _ => (release h (FreezeRecord.FreezeID freeze), Err (500, "amount conversion failed"))
            | Ok chainAmount =>
                let '(c, res) := SubmitWithdraw c
                  (withdraw_request h userID withdrawID (WithdrawRequest.ToAddress req) chainAmount) in
                let h := set_saas h c in
                match res with
                | Err _ => (release h (FreezeRecord.FreezeID freeze), Err (502, "withdrawal submission failed"))
                | Ok (txHash, status) =>
                    let h := release h (FreezeRecord.FreezeID freeze) in
                    let '(a, _) := DebitBalance (account h) userID asset (WithdrawRequest.Amount req)
                                     "CUSTODY_WITHDRAW" withdrawID in
                    (set_account h a, Ok (withdrawID, status, txHash))
                end
            end
        end
    end.
End handler.
