(* ===== verification/CustodyProps.v ===== *)
(** * Custody: what deposits and withdrawals move

    A deposit callback credits the user of the address, once per deposit as long as its
    record is stored, with the collateral that arrived; a withdrawal that is paid is
    covered by the user's balance.  The last part holds runs on which the code does not
    do what it means to. *)

From Stdlib Require Import Ascii SpecFloat.
From S2P Require Import Prelude Strings Shared Messages Account AccountGrpc OrderService Custody OrderProps.

Local Open Scope Z_scope.

(** ** Amounts *)

(** The digits of a collateral deposit that are not kept. *)
Definition dropped_digits (cfg : Config) : Z :=
  Z.max 0 (from_option DepositCoinConfig.ChainDecimals (chainDecimals cfg)
    (findDepositCoin cfg DefaultCollateralAsset) - accountingDigits cfg).

Lemma convert_Ok fetch now now' cfg p assetName rawAmount p' n creditAsset :
  convertDepositToCollateral fetch now now' cfg p assetName rawAmount = (p', Ok (n, creditAsset)) → 0 < n →
  creditAsset = DefaultCollateralAsset ∧ int64 n ∧
  ∃ amount, SetString10 (TrimSpace rawAmount) = Some amount ∧ 0 < amount ∧
    (normalize_upper assetName = DefaultCollateralAsset → n = amount / 10 ^ dropped_digits cfg).
Proof.
  unfold convertDepositToCollateral. destruct (String.eqb _ ""); [done|].
  destruct (SetString10 _) as [amount|]; [|done]. destruct (Z.leb_spec amount 0); [intros [= _ <- _]; lia|].
  destruct (String.eqb_spec (normalize_upper assetName) DefaultCollateralAsset) as [E|E].
  - destruct (collateral_credit _ _ _) as [m|] eqn:Ec; [|done]. intros [= _ <- <-] Hn. split; [done|].
    revert Ec. unfold collateral_credit. rewrite E.
    change (normalize_upper DefaultCollateralAsset) with DefaultCollateralAsset.
    case_bool_decide as Hi; [|done]. intros [= <-]. split; [done|]. exists amount. split_and!; [done|lia|].
    intros _. unfold dropped_digits. destruct (Z.ltb_spec 0
      (from_option DepositCoinConfig.ChainDecimals (chainDecimals cfg) (findDepositCoin cfg DefaultCollateralAsset) -
       accountingDigits cfg)); [by rewrite Z.max_r by lia|].
    rewrite Z.max_l by lia. by rewrite Z.pow_0_r, Z.div_1_r.
  - destruct (findDepositCoin _ _) as [c|]; [|done].
    destruct (GetUSDTPrice _ _ _ _ _) as [p1 [price|]]; [|done]. intros [= _ <- <-] _. split; [done|].
    split; [|by exists amount]. unfold priced_credit, int64_of_float. cbv zeta.
    destruct (float64_mul _ _); try by (unfold int64, MinInt64, MaxInt64; lia).
    case_bool_decide; [done|]. unfold int64, MinInt64, MaxInt64. lia.
Qed.

Section deposits.
Context {A S C P : Type} `{!AccountClient A, !CustodyStore S, !SaaS C, !Publisher P}.
Context (fresh : string → nat → string) (cfg : Config).
Implicit Types h : Handler (A := A) (S := S) (C := C) (P := P).

(** A callback that reached the credit. *)
Record credited_run fetch (now now' : Z) h (req : DepositNotifyRequest.t) h' (ans : Z * Z * string) (userID credit : Z)
    : Prop := {
  cr_new : IsDepositProcessed (store h) (DepositNotifyRequest.BizID req) = Ok false;
  cr_user : LookupUserByAddress (store h) (DepositNotifyRequest.Address req) (chain cfg) (network cfg) = Ok userID;
  cr_mapped : userID ≠ 0;
  cr_positive : 0 < credit;
  cr_convert : (convertDepositToCollateral fetch now now' cfg (prices h) (DepositNotifyRequest.Asset req)
    (DepositNotifyRequest.Amount req)).2 = Ok (credit, DefaultCollateralAsset);
  cr_run : ∃ res, CreditBalance (account h) userID DefaultCollateralAsset credit "CUSTODY_DEPOSIT"
      (fresh "cdep" (draws h)) = (account h', res) ∧
    match res with
    | Ok _ => ans = (200, 0, "ok") ∧
        ∃ e, InsertDeposit (store h) (deposit_record req userID DefaultCollateralAsset credit) = (store h', e)
    | Err _ => ans = (500, 500, "credit failed") ∧ store h' = store h
    end;
}.

Lemma DepositNotify_cases fetch now now' nowUnix h token req h' ans :
  DepositNotify fresh cfg fetch now now' nowUnix h token req = (h', ans) →
  account h' = account h ∧ store h' = store h ∧ ans ≠ (200, 0, "ok") ∨
  ∃ userID credit, credited_run fetch now now' h req h' ans userID credit.
Proof.
  unfold DepositNotify. destruct (_ && _); [intros [= <- <-]; by left|]. destruct (_ || _ || _); [intros [= <- <-]; by left|].
  destruct (IsDepositProcessed _ _) as [[]|] eqn:Ep; [intros [= <- <-]; by left| |intros [= <- <-]; by left].
  destruct (LookupUserByAddress _ _ _ _) as [userID|] eqn:Eu; [|intros [= <- <-]; by left].
  destruct (Z.eqb_spec userID 0); [intros [= <- <-]; by left|].
  destruct (convertDepositToCollateral _ _ _ _ _ _ _) as [p [[credit asset]|]] eqn:Ec; [|intros [= <- <-]; by left].
  destruct (Z.leb_spec credit 0); [intros [= <- <-]; by left|].
  pose proof Ec as (-> & _)%convert_Ok; [|done].
  unfold credit_deposit. cbn [NewID account store set_prices draws publisher set_account].
  destruct (CreditBalance _ _ _ _ _ _) as [a [applied|e]] eqn:Eb.
  - destruct (InsertDeposit _ _) as [s e] eqn:Ei. intros Hr. right. exists userID, credit.
    assert (account h' = a ∧ store h' = s ∧ ans = (200, 0, "ok")) as (<- & <- & ->).
    { revert Hr. destruct (publisher h); by intros [= <- <-]. }
    split; try done; [by rewrite Ec|]. exists (Ok applied). split; [done|]. split; [done|]. by exists e.
  - intros [= <- <-]. right. exists userID, credit. split; try done; [by rewrite Ec|]. by exists (Err e).
Qed.

(** ** Once *)

Record Callback := mkCallback {
  cb_fetch : string → result string float64;
  cb_now : Z;
  cb_now' : Z;
  cb_nowUnix : Z;
  cb_token : string;
  cb_req : DepositNotifyRequest.t;
}.

Definition notify h (c : Callback) : Handler * (Z * Z * string) :=
  DepositNotify fresh cfg (cb_fetch c) (cb_now c) (cb_now' c) (cb_nowUnix c) h (cb_token c) (cb_req c).

(** The deposits that were credited along a sequence of callbacks. *)
Fixpoint notify_all h (calls : list Callback) : Handler (A := A) (S := S) (C := C) (P := P) * list string :=
  match calls with
  | [] => (h, [])
  | c :: calls =>
      let '(h, ans) := notify h c in
      let '(h, rest) := notify_all h calls in
      (h, if decide (ans = (200, 0, "ok")) then DepositNotifyRequest.BizID (cb_req c) :: rest else rest)
  end.
End deposits.

Section once.
Context {A S C P : Type} `{!AccountClient A, !CustodyStore S, !CustodyStoreLaws S, !SaaS C, !Publisher P}.
Context (fresh : string → nat → string) (cfg : Config).
Implicit Types h : Handler (A := A) (S := S) (C := C) (P := P).

Lemma notify_keeps h c h' ans id :
  notify fresh cfg h c = (h', ans) → id ∈ deposited (store h) → id ∈ deposited (store h').
Proof.
  intros [(_ & -> & _)|(userID & credit & [_ _ _ _ _ (res & _ & Hr)])]%DepositNotify_cases Hid; [done|].
  destruct res; [|by destruct Hr as [_ ->]]. destruct Hr as [_ [e Hi]]. by eapply insert_keeps.
Qed.

Lemma notify_new h c h' :
  notify fresh cfg h c = (h', (200, 0, "ok")) → DepositNotifyRequest.BizID (cb_req c) ∉ deposited (store h).
Proof.
  intros [(_ & _ & [])|(userID & credit & [Hn _ _ _ _ _])]%DepositNotify_cases; [done|].
  apply processed_spec in Hn. symmetry in Hn. by apply bool_decide_eq_false in Hn.
Qed.

Lemma notify_recorded h c h' :
  (∀ (s : S) d s' e, InsertDeposit s d = (s', e) → e = None) →
  notify fresh cfg h c = (h', (200, 0, "ok")) → DepositNotifyRequest.BizID (cb_req c) ∈ deposited (store h').
Proof.
  intros Hins [(_ & _ & [])|(userID & credit & [_ _ _ _ _ (res & _ & Hr)])]%DepositNotify_cases; [done|].
  destruct res; [|by destruct Hr]. destruct Hr as [_ [e Hi]]. rewrite (Hins _ _ _ _ Hi) in Hi.
  by apply insert_recorded in Hi.
Qed.

Lemma notify_all_new h calls :
  (∀ id, id ∈ (notify_all fresh cfg h calls).2 → id ∉ deposited (store h)).
Proof.
  revert h. induction calls as [|c calls IH]; intros h id; cbn [notify_all snd]; [by intros ?%elem_of_nil|].
  destruct (notify fresh cfg h c) as [h1 ans] eqn:E. specialize (IH h1).
  destruct (notify_all fresh cfg h1 calls) as [h2 rest]. cbn [snd] in *.
  assert (id ∈ rest → id ∉ deposited (store h)) as Hrest.
  { intros Hid Hd. by apply (IH id Hid), (notify_keeps _ _ _ _ _ E). }
  case_decide as Ha; [|done]. rewrite elem_of_cons. intros [->|Hid]; [|by apply Hrest].
  subst ans. by eapply notify_new.
Qed.
End once.


(** A deposit credits the user of its address with the collateral that arrived.  A
    callback leaves every balance as it was, or, for a deposit not recorded before,
    raises the available collateral of the user its address is mapped to, and nothing
    else; for a collateral deposit by the amount without the digits that are not kept,
    so never by more than arrived. *)
Theorem deposit_credits_exactly {A S C P : Type} `{!AccountClient A, !AccountLaws A, !CustodyStore S, !SaaS C}
    `{!Publisher P} fresh cfg fetch now now' nowUnix (h : Handler (A := A) (S := S) (C := C) (P := P)) token req h' ans :
  acct_ok (account h) →
  (∀ u n, (convertDepositToCollateral fetch now now' cfg (prices h) (DepositNotifyRequest.Asset req)
     (DepositNotifyRequest.Amount req)).2 = Ok (n, DefaultCollateralAsset) →
     available (account h) u DefaultCollateralAsset + frozen (account h) u DefaultCollateralAsset + n ≤ MaxInt64) →
  DepositNotify fresh cfg fetch now now' nowUnix h token req = (h', ans) →
  acct_ok (account h') ∧
  (same_balances (account h) (account h') ∨
   ∃ userID credit amount,
     IsDepositProcessed (store h) (DepositNotifyRequest.BizID req) = Ok false ∧
     LookupUserByAddress (store h) (DepositNotifyRequest.Address req) (chain cfg) (network cfg) = Ok userID ∧
     SetString10 (TrimSpace (DepositNotifyRequest.Amount req)) = Some amount ∧ 0 < credit ∧
     (normalize_upper (DepositNotifyRequest.Asset req) = DefaultCollateralAsset →
      credit * 10 ^ dropped_digits cfg ≤ amount < (credit + 1) * 10 ^ dropped_digits cfg) ∧
     ∀ u a, frozen (account h') u a = frozen (account h) u a ∧
       available (account h') u a = available (account h) u a + on_balance userID DefaultCollateralAsset credit u a).
Proof.
  intros Hok Hfit [(-> & _)|(userID & credit & [Hnew Hu _ Hpos Hc (res & Hb & Hr)])]%DepositNotify_cases.
  { split; [done|]. left. by intros u a. }
  specialize (Hfit userID credit Hc).
  destruct (convertDepositToCollateral _ _ _ _ _ _ _) as [p r] eqn:Ec. cbn in Hc. subst r.
  apply convert_Ok in Ec as (_ & _ & amount & Ha & _ & Hn); [|done].
  destruct res as [applied|e].
  - apply credit_ok in Hb as [Hok' Hbal]; [|done|lia]. split; [done|]. destruct applied.
    + right. exists userID, credit, amount. split_and!; [done..| |exact Hbal]. intros E. rewrite (Hn E).
      assert (0 < 10 ^ dropped_digits cfg) by (apply Z.pow_pos_nonneg; [lia|unfold dropped_digits; lia]).
      pose proof (Z.mul_div_le amount (10 ^ dropped_digits cfg) ltac:(lia)).
      pose proof (Z.mul_succ_div_gt amount (10 ^ dropped_digits cfg) ltac:(lia)). lia.
    + left. intros u a. destruct (Hbal u a) as [-> ->]. rewrite on_balance_0. lia.
  - apply credit_err in Hb as [Hok' Hsame]; [|done|lia]. split; [done|]. by left.
Qed.

(** ** Withdrawals *)

Lemma NormalizeAsset_nonempty a : NormalizeAsset a ≠ "".
Proof. unfold NormalizeAsset. cbv zeta. by destruct (String.eqb_spec (normalize_upper a) ""). Qed.

Lemma on_balance_self u a n : on_balance u a n u a = n.
Proof. unfold on_balance. by rewrite bool_decide_true. Qed.

Section withdrawals.
Context {A S C P : Type} `{!AccountClient A, !AccountLaws A, !CustodyStore S, !SaaS C, !Publisher P}.
Context (fresh : string → nat → string) (cfg : Config).
Implicit Types h : Handler (A := A) (S := S) (C := C) (P := P).

Definition same_totals (a a' : A) : Prop :=
  ∀ u s, available a' u s + frozen a' u s = available a u s + frozen a u s.

(** A freeze that is given back, or could not be, keeps the totals. *)
Lemma frozen_and_released a req a1 r a2 err :
  acct_ok a → PreFreeze a req = (a1, Ok r) → ReleaseFreeze a1 (FreezeRecord.FreezeID r) = (a2, err) →
  acct_ok a2 ∧ same_totals a a2 ∧ (err = None → same_balances a a2).
Proof.
  intros Hok Hf Hr. destruct (prefreeze_ok _ _ _ _ Hok Hf) as (Hok1 & _ & _ & Hb).
  destruct err as [e|].
  - destruct (release_err _ _ _ _ Hok1 Hr) as [Hok2 Hs]. split_and!; [done| |done].
    intros u s. destruct (Hs u s) as [-> ->]. specialize (Hb u s). cbv zeta in Hb. lia.
  - destruct (release_back _ _ _ _ _ Hok Hf Hr) as [Hok2 Hs]. split_and!; [done| |done].
    intros u s. destruct (Hs u s) as [-> ->]. lia.
Qed.
End withdrawals.

(** C29: a withdrawal is covered.  A withdrawal that is refused keeps the total of every
    balance, and unless the wallet service failed to answer it took nothing.  One that is
    answered asked the service for exactly one payment to the given address, of the
    chain amount of the request, which the user had available; and when neither the
    release of the freeze nor the debit behind it failed, exactly the requested amount
    was taken from the user's available balance. *)
Theorem withdrawal_covered {A S C P : Type} `{!AccountClient A, !AccountLaws A, !CustodyStore S, !SaaS C, !SaaSLog C}
    `{!Publisher P} fresh cfg (h : Handler (A := A) (S := S) (C := C) (P := P)) userID req h' r :
  acct_ok (account h) → RequestWithdraw fresh cfg h userID req = (h', r) →
  let amount := WithdrawRequest.Amount req in
  let asset := NormalizeAsset (WithdrawRequest.Asset req) in
  let withdrawID := fresh "cwdr" (draws h) in
  acct_ok (account h') ∧
  match r with
  | Err e =>
      same_totals (account h) (account h') ∧
      (e = (502, "withdrawal submission failed") ∨ taken <$> saas h' = taken <$> saas h)
  | Ok (id, _, _) =>
      id = withdrawID ∧ 0 < amount ≤ available (account h) userID asset ∧
      ∃ c c' chainAmount, saas h = Some c ∧ saas h' = Some c' ∧
        AccountingToAssetChainAmount asset amount = Ok chainAmount ∧
        taken c' = taken c ++ [withdraw_request cfg h userID id (WithdrawRequest.ToAddress req) chainAmount] ∧
        ∃ a1 freeze a2 released debited,
          PreFreeze (account h) (FreezeRequest.mk userID asset "CUSTODY_WITHDRAW" id amount) = (a1, Ok freeze) ∧
          ReleaseFreeze a1 (FreezeRecord.FreezeID freeze) = (a2, released) ∧
          DebitBalance a2 userID asset amount "CUSTODY_WITHDRAW" id = (account h', debited) ∧
          (released = None → debited = Ok true → ∀ u a, frozen (account h') u a = frozen (account h) u a ∧
             available (account h') u a = available (account h) u a - on_balance userID asset amount u a)
  end.
Proof.
  intros Hok. unfold RequestWithdraw. cbv zeta. destruct (_ || _) eqn:Eg.
  { intros [= <- <-]. split; [done|]. split; [by intros u s|by right]. }
  apply orb_false_iff in Eg as [_ Hamt%Z.leb_gt].
  rewrite (proj2 (String.eqb_neq _ _) (NormalizeAsset_nonempty (WithdrawRequest.Asset req))).
  set (asset := NormalizeAsset (WithdrawRequest.Asset req)). cbn [NewID account set_account saas draws].
  destruct (PreFreeze _ _) as [a1 [freeze|e]] eqn:Ef.
  2: { intros [= <- <-]. destruct (prefreeze_err _ _ _ _ Hok Ef) as [Hok1 Hs]. split; [done|].
       split; [|by right]. intros u s. cbn. by destruct (Hs u s) as [-> ->]. }
  destruct (prefreeze_ok _ _ _ _ Hok Ef) as (Hok1 & _ & _ & Hb). cbn [FreezeRequest.UserID FreezeRequest.Asset
    FreezeRequest.Amount] in Hb.
  assert (same_totals (account h) a1) as Ht by (intros u s; specialize (Hb u s); cbv zeta in Hb; lia).
  destruct (saas h) as [c|] eqn:Es; [|intros [= <- <-]; split; [done|split; [exact Ht|by right]]].
  destruct (ReleaseFreeze a1 (FreezeRecord.FreezeID freeze)) as [a2 released] eqn:Er.
  destruct (frozen_and_released _ _ _ _ _ _ Hok Ef Er) as (Hok2 & Ht2 & Hback).
  destruct (AccountingToAssetChainAmount asset (WithdrawRequest.Amount req)) as [chainAmount|] eqn:Ec.
  2: { intros [= <- <-]. unfold release. cbn [account set_account saas]. rewrite Er. split; [done|].
       split; [done|by right]. }
  destruct (SubmitWithdraw c _) as [c' [[txHash status]|e]] eqn:Ew.
  2: { intros [= <- <-]. unfold release. cbn [account set_account saas set_saas]. rewrite Er. split; [done|].
       split; [done|by left]. }
  unfold release. cbn [account set_account set_saas]. rewrite Er. cbn [fst account set_account].
  destruct (DebitBalance a2 _ _ _ _ _) as [a3 debited] eqn:Ed. intros [= <- <-]. cbn [account set_account saas set_saas].
  assert (acct_ok a3) as Hok3.
  { destruct debited; [by destruct (debit_ok _ _ _ _ _ _ _ _ Hok2 Ed)|by destruct (debit_err _ _ _ _ _ _ _ _ Hok2 Ed)]. }
  split; [done|]. split; [done|]. split.
  { split; [done|]. destruct (Hb userID asset) as [Ha _]. rewrite on_balance_self in Ha.
    destruct (acct_nonneg a1 userID asset Hok1). lia. }
  exists c, c', chainAmount. split_and!; [done..|by apply submit_ok in Ew|].
  exists a1, freeze, a2, released, debited. split_and!; [done..|]. intros -> -> u a.
  destruct (debit_ok _ _ _ _ _ _ _ _ Hok2 Ed) as [_ Hd]. destruct (Hd u a) as [-> ->].
  destruct (Hback eq_refl u a) as [-> ->]. done.
Qed.

(** ** Runs *)

(** A wallet service that takes every withdrawal, and gives every account an address. *)
#[export] Instance recording_saas : SaaS (list CreateWithdrawRequest.t) := {|
  UpsertAccount c _ := (c, None);
  CreateAddress c accountID _ _ _ := (c, Ok ("0xAB" +:+ accountID, "k" +:+ accountID));
  SubmitWithdraw c r := (c ++ [r], Ok ("0x01", "PENDING"));
|}.
#[export, refine] Instance recording_saas_log : SaaSLog (list CreateWithdrawRequest.t) := {| taken c := c |}.
Proof. - by intros c r c' a [= <- <-]. - done. Defined.

Definition run_cfg (decimals : Z) : Config := NewHandler (mkConfig "secret" "" "" "" decimals 0 []).
Definition no_fetch (pair : string) : result string float64 := Err "unreachable".

Definition run_mapping : AddressMapping.t := AddressMapping.mk 1 "binance" "testnet" "usdt" "0xab1" "k1".

Definition run_handler : Handler (A := GRPCClient bool) (S := Store) (C := list CreateWithdrawRequest.t) (P := list BatchItem) :=
  mkHandler demo_account (mkStore [run_mapping] []) (Some []) (NewPriceProvider 0) (Some []) 0.

Definition run_deposit (id amount : string) : DepositNotifyRequest.t :=
  DepositNotifyRequest.mk id 97 "0x02" 0 " 0xAB1" "usdt" amount.
Definition run_callback (id amount : string) : Callback :=
  mkCallback no_fetch 0 0 7 "secret" (run_deposit id amount).


Lemma deposit_credits_exactly_witness :
  ∃ h' userID credit amount,
    DepositNotify demo_fresh (run_cfg 6) no_fetch 0 0 7 run_handler "secret" (run_deposit "d1" "50000001") =
      (h', (200, 0, "ok")) ∧
    available (account h') 1 "USDT" = 105000 ∧ userID = 1 ∧
    credit * 10 ^ dropped_digits (run_cfg 6) ≤ amount < (credit + 1) * 10 ^ dropped_digits (run_cfg 6).
Proof.
  destruct (DepositNotify demo_fresh (run_cfg 6) no_fetch 0 0 7 run_handler "secret" (run_deposit "d1" "50000001"))
    as [h' ans] eqn:E.
  destruct (deposit_credits_exactly demo_fresh (run_cfg 6) no_fetch 0 0 7 run_handler "secret"
    (run_deposit "d1" "50000001") h' ans) as (_ & [Hsame|(userID & credit & amount & _ & Hu & _ & _ & Hn & _)]).
  - exact demo_account_ok.
  - intros u n Hc. vm_compute in Hc. injection Hc as <-. pose proof (demo_account_total u "USDT").
    change (available (account run_handler) u DefaultCollateralAsset) with
      (Balance.Available (GetBalance (book demo_account) u "USDT")).
    change (frozen (account run_handler) u DefaultCollateralAsset) with
      (Balance.Frozen (GetBalance (book demo_account) u "USDT")). unfold MaxInt64. lia.
  - exact E.
  - exfalso. vm_compute in E. injection E as <- <-. destruct (Hsame 1 "USDT") as [Ha _]. vm_compute in Ha. discriminate Ha.
  - exists h', userID, credit, amount. split; [vm_compute in E; by injection E as <- <-|].
    split; [vm_compute in E; injection E as <- <-; vm_compute; reflexivity|].
    split; [vm_compute in Hu; by injection Hu as <-|]. apply Hn. vm_compute. reflexivity.
Defined.

Lemma withdrawal_covered_witness :
  ∃ h' c' id s t, RequestWithdraw demo_fresh (run_cfg 6) run_handler 1 (WithdrawRequest.mk "0xCC" 4000 "") =
      (h', Ok (id, s, t)) ∧
    saas h' = Some c' ∧ taken c' = [CreateWithdrawRequest.mk "1" id "k1" "binance" "testnet" "USDT" "0xCC" "40000000"] ∧
    available (account h') 1 "USDT" = 96000.
Proof.
  destruct (RequestWithdraw demo_fresh (run_cfg 6) run_handler 1 (WithdrawRequest.mk "0xCC" 4000 ""))
    as [h' r] eqn:E.
  destruct r as [[[id s] t]|e]; [|vm_compute in E; discriminate E].
  destruct (withdrawal_covered demo_fresh (run_cfg 6) run_handler 1 (WithdrawRequest.mk "0xCC" 4000 "") h'
    (Ok (id, s, t))) as (_ & _ & _ & c & c' & chainAmount & Hc & Hc' & Hchain & Ht & _).
  - exact demo_account_ok.
  - exact E.
  - exists h', c', id, s, t. split; [done|]. split; [done|]. injection Hc as <-.
    vm_compute in Hchain. injection Hchain as <-. split; [exact Ht|].
    vm_compute in E. injection E as <- _ _ _. vm_compute. reflexivity.
Defined.

(** ** Where custody goes astray *)

(** A database that answers reads and refuses to record deposits. *)
Record Forgetful := forgetful { kept_store : Store }.
#[local] Instance forgetful_store : CustodyStore Forgetful := {|
  LookupUserByAddress s := LookupUserByAddress (kept_store s);
  GetUserAddress s := GetUserAddress (kept_store s);
  GetUserAddressWithKeyID s := GetUserAddressWithKeyID (kept_store s);
  SaveAddressMapping s m := (s, Some "connection reset");
  IsDepositProcessed s := IsDepositProcessed (kept_store s);
  InsertDeposit s d := (s, Some "connection reset");
|}.

(** The record is written after the credit, its failure is only logged, and the credit is
    filed under a new identifier and not under that of the deposit: when the record is
    lost, the redelivered callback credits again. *)
Theorem lost_record_credits_twice :
  let h := mkHandler (C := list CreateWithdrawRequest.t) (P := list BatchItem) demo_account
             (forgetful (mkStore [run_mapping] [])) (Some []) (NewPriceProvider 0) (Some []) 0 in
  let run := notify_all demo_fresh (run_cfg 6) h [run_callback "d1" "50000000"; run_callback "d1" "50000000"] in
  run.2 = ["d1"; "d1"] ∧ available (account run.1) 1 "USDT" = 110000.
Proof. split; vm_compute; reflexivity. Qed.

(** A deposit is converted with the configured decimals, a withdrawal always with six:
    with the 18 decimals that the comments give for USDT on BSC, five USDT that were
    deposited are debited again for a payment of [5000000 / 10 ^ 18]. *)
Theorem withdrawal_ignores_decimals :
  let h1 := (DepositNotify demo_fresh (run_cfg 18) no_fetch 0 0 7 run_handler "secret"
               (run_deposit "d1" "5000000000000000000")).1 in
  let h2 := (RequestWithdraw demo_fresh (run_cfg 18) h1 1 (WithdrawRequest.mk "0xCC" 500 "")).1 in
  available (account h1) 1 "USDT" = 100500 ∧ available (account h2) 1 "USDT" = 100000 ∧
  option_map (map CreateWithdrawRequest.Amount) (saas h2) = Some ["5000000"].
Proof. split; [|split]; vm_compute; reflexivity. Qed.

(** The asset of a withdrawal is the caller's, the coin that is paid is the collateral:
    shares of a market are taken from the balance and USDT is paid for them. *)
Theorem shares_withdrawn_as_collateral :
  let h := mkHandler (S := Store) (C := list CreateWithdrawRequest.t) (P := list BatchItem)
             (mkClient (SeedBalance (NewBalanceBook (S := bool)) 1 "POSITION:7:NO" 1000000) (λ _ text, text)
                (λ n, "frz_" +:+ itoa (Z.of_nat n)) 0)
             (mkStore [run_mapping] []) (Some []) (NewPriceProvider 0) (Some []) 0 in
  let h' := (RequestWithdraw demo_fresh (run_cfg 6) h 1 (WithdrawRequest.mk "0xCC" 1000000 "position:7:no")).1 in
  available (account h') 1 "POSITION:7:NO" = 0 ∧
  option_map (map (λ r, (CreateWithdrawRequest.Coin r, CreateWithdrawRequest.Amount r))) (saas h') = Some [("USDT", "1000000")].
Proof. split; vm_compute; reflexivity. Qed.

(** Without a wallet service the answer is an error, and the freeze that was taken
    before that is found out is never given back. *)
Theorem unconfigured_withdrawal_stays_frozen :
  let h := mkHandler (S := Store) (C := list CreateWithdrawRequest.t) (P := list BatchItem) demo_account
             (mkStore [] []) None (NewPriceProvider 0) (Some []) 0 in
  ∃ h', RequestWithdraw demo_fresh (run_cfg 6) h 1 (WithdrawRequest.mk "0xCC" 4000 "") =
      (h', Err (503, "custody service not configured")) ∧
    available (account h') 1 "USDT" = 96000 ∧ frozen (account h') 1 "USDT" = 4000.
Proof. eexists. split; [reflexivity|]. split; vm_compute; reflexivity. Qed.

(** The calls of a withdrawal to the account service, with an order of the same user
    between the release and the debit: the payment is out, the order holds the money,
    the debit fails and its error is dropped. *)
Theorem order_between_release_and_debit :
  let '(a1, f) := PreFreeze demo_account (FreezeRequest.mk 1 "USDT" "CUSTODY_WITHDRAW" "w" 100000) in
  let a2 := match f with Ok r => (ReleaseFreeze a1 (FreezeRecord.FreezeID r)).1 | Err _ => a1 end in
  let '(a3, g) := PreFreeze a2 (FreezeRequest.mk 1 "USDT" "ORDER" "o" 100000) in
  let '(a4, d) := DebitBalance a3 1 "USDT" 100000 "CUSTODY_WITHDRAW" "w" in
  (∃ r, f = Ok r) ∧ (∃ r, g = Ok r) ∧ (∃ e, d = Err e) ∧ frozen a4 1 "USDT" = 100000.
Proof. vm_compute. split_and!; [by eexists..|done]. Qed.

(** A priced deposit: two BNB at 612.5 are 1225 USDT. *)
Example bnb_deposit :
  (convertDepositToCollateral (λ _, Ok (SFdiv 53 1024 (float64_of 1225) (float64_of 2))) 0 0 (run_cfg 6)
     (NewPriceProvider 0) "bnb" "2000000000000000000").2 = Ok (122500, "USDT").
Proof. vm_compute. reflexivity. Qed.
