(* ===== verification/SessionStore.v ===== *)
(** * API: sessions, trading keys and profiles

    The authorization tables of [api/handler/sql_store.go] ([wallet_sessions],
    [trading_key_challenges], [user_profiles]) with [api/handler/rollup_shadow.go], which
    journals what is written there, and [api/dto/profile.go].  Every operation is one
    statement or one transaction; one that fails leaves the tables as they were.  [now]
    is [time.Now] in milliseconds, [dbnow] the database clock in seconds; [fresh] draws
    the identifiers of journal entries. *)

From Stdlib Require Import Ascii.
From S2P Require Import Prelude Strings Shared Auth RollupJournal RollupState.

Local Open Scope Z_scope.
Local Open Scope go_scope.

(** ** Data *)

Inductive StoreError :=
| ErrNotFound
| ErrSessionNonceConflict
| ErrTradingKeyChallengeExpired
| ErrTradingKeyChallengeConsumed
| ErrStore (e : string).

Module SessionResponse.
Record t := mk {
  SessionID : string;
  UserID : Z;
  WalletAddress : string;
  SessionPublicKey : string;
  Scope : string;
  ChainID : Z;
  VaultAddress : string;
  SessionNonce : string;
  LastOrderNonce : Z;
  Status : string;
  IssuedAtMillis : Z;
  ExpiresAtMillis : Z;
  RevokedAtMillis : Z;
  CreatedAt : Z;
  UpdatedAt : Z;
}.

Definition set_status (s : t) (status : string) (revokedAt updatedAt : Z) : t :=
  mk (SessionID s) (UserID s) (WalletAddress s) (SessionPublicKey s) (Scope s) (ChainID s) (VaultAddress s)
    (SessionNonce s) (LastOrderNonce s) status (IssuedAtMillis s) (ExpiresAtMillis s) revokedAt (CreatedAt s)
    updatedAt.
Definition set_nonce (s : t) (nonce updatedAt : Z) : t :=
  mk (SessionID s) (UserID s) (WalletAddress s) (SessionPublicKey s) (Scope s) (ChainID s) (VaultAddress s)
    (SessionNonce s) nonce (Status s) (IssuedAtMillis s) (ExpiresAtMillis s) (RevokedAtMillis s) (CreatedAt s)
    updatedAt.

(** The columns of the unique constraint beside the key. *)
Definition scope_key (s : t) : string * Z * string * string :=
  (WalletAddress s, ChainID s, VaultAddress s, SessionPublicKey s).
End SessionResponse.

Module tradingKeyChallengeRecord.
Record t := mk {
  ChallengeID : string;
  WalletAddress : string;
  ChainID : Z;
  VaultAddress : string;
  Challenge : string;
  ExpiresAt : Z;
  ConsumedAt : Z;
}.
Definition set_consumed (c : t) (at_ : Z) : t :=
  mk (ChallengeID c) (WalletAddress c) (ChainID c) (VaultAddress c) (Challenge c) (ExpiresAt c) at_.
Definition scope_key (c : t) : string * Z * string * string :=
  (WalletAddress c, ChainID c, VaultAddress c, Challenge c).
End tradingKeyChallengeRecord.

Module UserProfileResponse.
Record t := mk {
  UserID : Z;
  WalletAddress : string;
  DisplayName : string;
  AvatarPreset : string;
  CreatedAt : Z;
  UpdatedAt : Z;
}.
End UserProfileResponse.

Module CreateSessionRequest.
Record t := mk {
  SessionID : string;
  UserID : Z;
  WalletAddress : string;
  SessionPublicKey : string;
  Scope : string;
  ChainID : Z;
  Nonce : string;
  IssuedAtMillis : Z;
  ExpiresAtMillis : Z;
  WalletSignature : string;
}.
End CreateSessionRequest.

Module CreateTradingKeyChallengeRequest.
Record t := mk {
  ChallengeID : string;
  Challenge : string;
  ChallengeExpiresAt : Z;
  WalletAddress : string;
  ChainID : Z;
  VaultAddress : string;
}.
End CreateTradingKeyChallengeRequest.

Module TradingKeyChallengeResponse.
Record t := mk { ChallengeID : string; Challenge : string; ChallengeExpiresAt : Z }.
End TradingKeyChallengeResponse.

Module RegisterTradingKeyRequest.
Record t := mk {
  SessionID : string;
  UserID : Z;
  WalletAddress : string;
  ChainID : Z;
  VaultAddress : string;
  ChallengeID : string;
  Challenge : string;
  ChallengeExpiresAtMillis : Z;
  TradingPublicKey : string;
  TradingKeyScheme : string;
  Scope : string;
  KeyExpiresAtMillis : Z;
  WalletSignatureStandard : string;
  WalletSignature : string;
}.
End RegisterTradingKeyRequest.

Module AdvanceSessionNonceRequest.
Record t := mk {
  SessionID : string;
  Nonce : Z;
  AuthorizationWitness : option OrderAuthorizationWitness.t;
}.
End AdvanceSessionNonceRequest.

Module UpdateUserProfileRequest.
Record t := mk { UserID : Z; SessionID : string; DisplayName : string; AvatarPreset : string }.
End UpdateUserProfileRequest.

(** The tables by primary key. *)
Record AuthDB := mkAuthDB {
  sessions : gmap string SessionResponse.t;
  challenges : gmap string tradingKeyChallengeRecord.t;
  profiles : gmap Z UserProfileResponse.t;
  shadow : Journal;
}.

Definition set_sessions (d : AuthDB) (m : gmap string SessionResponse.t) : AuthDB :=
  mkAuthDB m (challenges d) (profiles d) (shadow d).
Definition set_challenges (d : AuthDB) (m : gmap string tradingKeyChallengeRecord.t) : AuthDB :=
  mkAuthDB (sessions d) m (profiles d) (shadow d).
Definition set_profiles (d : AuthDB) (m : gmap Z UserProfileResponse.t) : AuthDB :=
  mkAuthDB (sessions d) (challenges d) m (shadow d).
Definition set_shadow (d : AuthDB) (j : Journal) : AuthDB :=
  mkAuthDB (sessions d) (challenges d) (profiles d) j.

(** ** Text *)

Definition normalizeWalletAddress (walletAddress : string) : string := ToLower (TrimSpace walletAddress).
Definition normalizeVaultAddress (vaultAddress : string) : string := ToLower (TrimSpace vaultAddress).
Definition normalizePublicKey (publicKey : string) : string := ToLower (TrimSpace publicKey).
Definition normalizeChallengeValue (challenge : string) : string := TrimPrefix0x (ToLower (TrimSpace challenge)).
Definition formatChallengeValue (challenge : string) : string :=
  let normalized := normalizeChallengeValue challenge in
  if String.eqb normalized "" then "" else "0x" +:+ normalized.
Definition normalizeSessionScope (scope : string) : string :=
  let normalized := normalize_upper scope in if String.eqb normalized "" then "TRADE" else normalized.
(** [strings.EqualFold] on ASCII text. *)
Definition EqualFold (s t : string) : bool := String.eqb (ToLower s) (ToLower t).

(** ** Profiles ([dto/profile.go]) *)

Definition avatarPresetOrder : list string := ["aurora"; "ember"; "ocean"; "violet"; "mono"; "forest"].

(** [hash/fnv]'s [New32a]. *)
Fixpoint fnv32a (h : Z) (s : string) : Z :=
  match s with
  | EmptyString => h
  | String b s => fnv32a ((Z.lxor h (Z.of_N (N_of_ascii b)) * 16777619) `mod` 2 ^ 32) s
  end.

Definition NormalizeUserDisplayName (value : string) : string :=
  let cleaned := TrimSpace value in
  if (32 <? String.length cleaned)%nat then String.substring 0 32 cleaned else cleaned.

Definition NormalizeAvatarPreset (value : string) : string * bool :=
  let cleaned := ToLower (TrimSpace value) in (cleaned, bool_decide (cleaned ∈ avatarPresetOrder)).

Definition DefaultAvatarPreset (userID : Z) (walletAddress : string) : string :=
  let sum := fnv32a 2166136261 (ToLower (TrimSpace walletAddress)) ⊞ Z.rem userID 7 in
  let sum := if sum <? 0 then wrap64 (- sum) else sum in
  nth (Z.to_nat (Z.rem sum 6)) avatarPresetOrder "".

(** A row may be written under a key unless another row holds the unique column. *)
Definition wallet_taken (m : gmap Z UserProfileResponse.t) (userID : Z) (wallet : string) : bool :=
  bool_decide (map_Exists (λ u p, u ≠ userID ∧ UserProfileResponse.WalletAddress p = wallet) m).

Definition unique_violation : StoreError := ErrStore "duplicate key value violates unique constraint".

Definition ensureUserProfileTx (dbnow userID : Z) (walletAddress : string) (m : gmap Z UserProfileResponse.t)
    : result StoreError (gmap Z UserProfileResponse.t) :=
  if (userID <=? 0) || String.eqb (TrimSpace walletAddress) "" then Ok m
  else
    let wallet := normalizeWalletAddress walletAddress in
    if wallet_taken m userID wallet then Err unique_violation
    else Ok (<[userID :=
      match m !! userID with
      | None => UserProfileResponse.mk userID wallet "" (DefaultAvatarPreset userID walletAddress) dbnow dbnow
      | Some p => UserProfileResponse.mk userID wallet (UserProfileResponse.DisplayName p)
                    (UserProfileResponse.AvatarPreset p) (UserProfileResponse.CreatedAt p) dbnow
      end]> m).

(** [SELECT user_id ... WHERE wallet_address = $1 LIMIT 1]. *)
Definition user_of_wallet (wallet : string) (m : gmap Z UserProfileResponse.t) : option Z :=
  (λ x, x.2.1) <$> list_find (λ kv : Z * UserProfileResponse.t, UserProfileResponse.WalletAddress kv.2 = wallet) (map_to_list m).

(** [COALESCE(MAX(user_id), 1000) + 1]. *)
Definition next_user_id (m : gmap Z UserProfileResponse.t) : Z :=
  match (map_to_list m).*1 with [] => 1000 | u :: us => foldr Z.max u us end + 1.

(** The second query runs under the lock and, the table being unchanged, finds what
    the first one found. *)
Definition resolveOrCreateUserIDTx (dbnow : Z) (walletAddress : string) (m : gmap Z UserProfileResponse.t)
    : result StoreError (gmap Z UserProfileResponse.t * Z) :=
  let wallet := normalizeWalletAddress walletAddress in
  if String.eqb wallet "" then Err ErrNotFound
  else
    match user_of_wallet wallet m with
    | Some userID => Ok (m, userID)
    | None =>
        let userID := next_user_id m in
        Ok (<[userID := UserProfileResponse.mk userID wallet "" (DefaultAvatarPreset userID wallet) dbnow dbnow]> m,
            userID)
    end.

Definition UpsertUserProfile (dbnow : Z) (d : AuthDB) (req : UpdateUserProfileRequest.t) (walletAddress : string)
    : AuthDB * result StoreError UserProfileResponse.t :=
  let userID := UpdateUserProfileRequest.UserID req in
  let wallet := normalizeWalletAddress walletAddress in
  if wallet_taken (profiles d) userID wallet then (d, Err unique_violation)
  else
    let row := UserProfileResponse.mk userID wallet
      (NormalizeUserDisplayName (UpdateUserProfileRequest.DisplayName req))
      (UpdateUserProfileRequest.AvatarPreset req)
      (default dbnow (UserProfileResponse.CreatedAt <$> profiles d !! userID)) dbnow in
    (set_profiles d (<[userID := row]> (profiles d)), Ok row).

(** ** Journal entries ([rollup_shadow.go]) *)

Definition SourceTypeAPIAuth : string := "API_AUTH".

Definition authorizedTradingKeyFromSession (s : SessionResponse.t) : AuthorizedTradingKey.t :=
  AuthorizedTradingKey.mk (TrimSpace (SessionResponse.SessionID s)) (SessionResponse.UserID s)
    (TrimSpace (SessionResponse.WalletAddress s)) (TrimSpace (SessionResponse.SessionPublicKey s))
    DefaultTradingKeyScheme (TrimSpace (SessionResponse.Scope s)) (SessionResponse.ChainID s)
    (TrimSpace (SessionResponse.VaultAddress s)) (TrimSpace (SessionResponse.Status s))
    (SessionResponse.ExpiresAtMillis s) (TrimSpace (SessionResponse.SessionNonce s)).

Definition authorization_of (req : RegisterTradingKeyRequest.t) : TradingKeyAuthorization.t :=
  TradingKeyAuthorization.mk (RegisterTradingKeyRequest.WalletAddress req)
    (RegisterTradingKeyRequest.TradingPublicKey req) (RegisterTradingKeyRequest.TradingKeyScheme req)
    (RegisterTradingKeyRequest.Scope req) (RegisterTradingKeyRequest.Challenge req)
    (RegisterTradingKeyRequest.ChallengeExpiresAtMillis req) (RegisterTradingKeyRequest.KeyExpiresAtMillis req)
    (RegisterTradingKeyRequest.ChainID req) (RegisterTradingKeyRequest.VaultAddress req).

Definition nonce_payload (s : SessionResponse.t) (nonce occurredAtMillis : Z)
    (orderAuthorization : option OrderAuthorizationWitness.t) : NonceAdvancedPayload.t :=
  NonceAdvancedPayload.mk (SessionResponse.UserID s) (TrimSpace (SessionResponse.SessionID s))
    (normalize_upper (SessionResponse.Scope s)) (normalize_upper (SessionResponse.Status s)) nonce
    (wrapu64 (nonce + 1)) occurredAtMillis orderAuthorization.

Section store.
Context (TypedDataAndHash : TypedData.t → result string string) (fresh : nat → string).
Context `{!JSON NonceAdvancedPayload.t, !JSON TradingKeyAuthorizationWitness.t}.
(** Whether [WithRollup] was called. *)
Context (rollup : bool).
Context (now dbnow : Z).

Definition buildNonceAdvanceEntry (s : SessionResponse.t) (nonce occurredAtMillis : Z)
    (orderAuthorization : option OrderAuthorizationWitness.t) : result string JournalAppend.t :=
  let sessionID := TrimSpace (SessionResponse.SessionID s) in
  if String.eqb sessionID "" then Err "session_id is required for nonce shadow entry"
  else if SessionResponse.UserID s <=? 0 then Err "user_id is required for nonce shadow entry"
  else if nonce =? 0 then Err "nonce must be positive for nonce shadow entry"
  else if nonce =? 2 ^ 64 - 1 then Err "nonce overflow for nonce shadow entry"
  else Ok (JournalAppend.mk "" EntryTypeNonceAdvanced SourceTypeAPIAuth (sessionID +:+ ":" +:+ itoa nonce)
             occurredAtMillis (OtherPayload (Marshal (nonce_payload s nonce occurredAtMillis orderAuthorization)))).

Definition buildTradingKeyAuthorizedEntry (s : SessionResponse.t) (req : RegisterTradingKeyRequest.t)
    (walletSignature : string) : result string JournalAppend.t :=
  let key := authorizedTradingKeyFromSession s in
  let authorizationRef := AuthorizedTradingKey.AuthorizationRef key in
  if String.eqb authorizationRef "" then Err "authorization_ref is required for trading key auth witness entry"
  else
    witness ← BuildTradingKeyAuthorizationWitness TypedDataAndHash (SessionResponse.UserID s)
                (authorization_of req) key walletSignature (SessionResponse.IssuedAtMillis s);
    Ok (JournalAppend.mk "" EntryTypeTradingKeyAuthorized SourceTypeAPIAuth authorizationRef
          (SessionResponse.IssuedAtMillis s) (OtherPayload (Marshal witness))).

(** The entry is appended in the same transaction, when there is a rollup store. *)
Definition append_shadow (d : AuthDB) (entry : result string JournalAppend.t) : result StoreError AuthDB :=
  if rollup then
    match entry with
    | Err e => Err (ErrStore e)
    | Ok e =>
        match AppendEntriesTx fresh (shadow d) [e] with
        | Err e => Err (ErrStore e)
        | Ok j => Ok (set_shadow d j)
        end
    end
  else Ok d.

(** ** Sessions *)

Definition GetSession (d : AuthDB) (sessionID : string) : result StoreError SessionResponse.t :=
  match sessions d !! TrimSpace sessionID with Some s => Ok s | None => Err ErrNotFound end.

Definition getActiveTradingKeyTx (d : AuthDB) (sessionID : string) : option SessionResponse.t :=
  match sessions d !! TrimSpace sessionID with
  | Some s => if String.eqb (SessionResponse.Status s) "ACTIVE" then Some s else None
  | None => None
  end.

(** [INSERT ... ON CONFLICT (session_id) DO UPDATE]: a row that exists keeps its order
    nonce and its creation time. *)
Definition upsert_session (row : SessionResponse.t) (m : gmap string SessionResponse.t)
    : result StoreError (gmap string SessionResponse.t * SessionResponse.t) :=
  let id := SessionResponse.SessionID row in
  if bool_decide (map_Exists (λ k s, k ≠ id ∧ SessionResponse.scope_key s = SessionResponse.scope_key row) m)
  then Err unique_violation
  else
    let row :=
      match m !! id with
      | None => row
      | Some old =>
          SessionResponse.mk id (SessionResponse.UserID row) (SessionResponse.WalletAddress row)
            (SessionResponse.SessionPublicKey row) (SessionResponse.Scope row) (SessionResponse.ChainID row)
            (SessionResponse.VaultAddress row) (SessionResponse.SessionNonce row) (SessionResponse.LastOrderNonce old)
            "ACTIVE" (SessionResponse.IssuedAtMillis row) (SessionResponse.ExpiresAtMillis row) 0
            (SessionResponse.CreatedAt old) dbnow
      end in
    Ok (<[id := row]> m, row).

Definition create_session_tx (d : AuthDB) (req : CreateSessionRequest.t)
    : result StoreError (AuthDB * SessionResponse.t) :=
  '(m, session) ← upsert_session
     (SessionResponse.mk (CreateSessionRequest.SessionID req) (CreateSessionRequest.UserID req)
        (ToLower (TrimSpace (CreateSessionRequest.WalletAddress req)))
        (ToLower (TrimSpace (CreateSessionRequest.SessionPublicKey req)))
        (normalizeSessionScope (CreateSessionRequest.Scope req)) (CreateSessionRequest.ChainID req) ""
        (TrimSpace (CreateSessionRequest.Nonce req)) 0 "ACTIVE" (CreateSessionRequest.IssuedAtMillis req)
        (CreateSessionRequest.ExpiresAtMillis req) 0 dbnow dbnow) (sessions d);
  p ← ensureUserProfileTx dbnow (SessionResponse.UserID session) (SessionResponse.WalletAddress session) (profiles d);
  Ok (set_profiles (set_sessions d m) p, session).

(** A transaction, and what it answers. *)
Definition committed {A} (d : AuthDB) (r : result StoreError (AuthDB * A)) : AuthDB * result StoreError A :=
  match r with Ok (d, a) => (d, Ok a) | Err e => (d, Err e) end.

Definition CreateSession (d : AuthDB) (req : CreateSessionRequest.t) : AuthDB * result StoreError SessionResponse.t :=
  committed d (create_session_tx d req).

Definition RevokeSession (d : AuthDB) (sessionID : string) : AuthDB * result StoreError SessionResponse.t :=
  match sessions d !! TrimSpace sessionID with
  | None => (d, Err ErrNotFound)
  | Some s =>
      let s := SessionResponse.set_status s "REVOKED" (dbnow ⊠ 1000) dbnow in
      (set_sessions d (<[TrimSpace sessionID := s]> (sessions d)), Ok s)
  end.

Definition maxInt64Uint64 : Z := 2 ^ 63 - 1.

Definition advance_nonce_tx (d : AuthDB) (req : AdvanceSessionNonceRequest.t)
    : result StoreError (AuthDB * SessionResponse.t) :=
  let id := TrimSpace (AdvanceSessionNonceRequest.SessionID req) in
  let nonce := AdvanceSessionNonceRequest.Nonce req in
  match sessions d !! id with
  | None => Err ErrNotFound
  | Some s =>
      if String.eqb (SessionResponse.Status s) "ACTIVE" && (SessionResponse.LastOrderNonce s <? nonce) then
        let s := SessionResponse.set_nonce s nonce (now `div` 1000) in
        d ← append_shadow (set_sessions d (<[id := s]> (sessions d)))
              (buildNonceAdvanceEntry s nonce now (AdvanceSessionNonceRequest.AuthorizationWitness req));
        Ok (d, s)
      else Err ErrSessionNonceConflict
  end.

Definition AdvanceSessionNonce (d : AuthDB) (req : AdvanceSessionNonceRequest.t)
    : AuthDB * result StoreError SessionResponse.t :=
  if maxInt64Uint64 <? AdvanceSessionNonceRequest.Nonce req
  then (d, Err (ErrStore "order nonce exceeds supported range"))
  else committed d (advance_nonce_tx d req).

(** ** Trading keys *)

Definition CreateTradingKeyChallenge (d : AuthDB) (req : CreateTradingKeyChallengeRequest.t)
    : AuthDB * result StoreError TradingKeyChallengeResponse.t :=
  let id := TrimSpace (CreateTradingKeyChallengeRequest.ChallengeID req) in
  let row := tradingKeyChallengeRecord.mk id
    (normalizeWalletAddress (CreateTradingKeyChallengeRequest.WalletAddress req))
    (CreateTradingKeyChallengeRequest.ChainID req)
    (normalizeVaultAddress (CreateTradingKeyChallengeRequest.VaultAddress req))
    (normalizeChallengeValue (CreateTradingKeyChallengeRequest.Challenge req))
    (CreateTradingKeyChallengeRequest.ChallengeExpiresAt req) 0 in
  if bool_decide (is_Some (challenges d !! id)) ||
     bool_decide (map_Exists (λ _ c, tradingKeyChallengeRecord.scope_key c = tradingKeyChallengeRecord.scope_key row)
                    (challenges d))
  then (d, Err unique_violation)
  else (set_challenges d (<[id := row]> (challenges d)),
        Ok (TradingKeyChallengeResponse.mk id
              (formatChallengeValue (CreateTradingKeyChallengeRequest.Challenge req))
              (CreateTradingKeyChallengeRequest.ChallengeExpiresAt req))).

(** [existing] is empty when there is none. *)
Definition isIdempotentTradingKeyRetry (existing : option SessionResponse.t) (req : RegisterTradingKeyRequest.t)
    (normalizedChallenge : string) : bool :=
  match existing with
  | None => false
  | Some e =>
      negb (String.eqb (SessionResponse.SessionID e) "") &&
      String.eqb (ToUpper (SessionResponse.Status e)) "ACTIVE" &&
      String.eqb (SessionResponse.SessionID e) (TrimSpace (RegisterTradingKeyRequest.SessionID req)) &&
      String.eqb (SessionResponse.WalletAddress e)
        (normalizeWalletAddress (RegisterTradingKeyRequest.WalletAddress req)) &&
      (SessionResponse.ChainID e =? RegisterTradingKeyRequest.ChainID req) &&
      String.eqb (SessionResponse.VaultAddress e)
        (normalizeVaultAddress (RegisterTradingKeyRequest.VaultAddress req)) &&
      EqualFold (SessionResponse.SessionPublicKey e)
        (normalizePublicKey (RegisterTradingKeyRequest.TradingPublicKey req)) &&
      EqualFold (SessionResponse.SessionNonce e) normalizedChallenge
  end.

(** [UPDATE wallet_sessions SET status = 'ROTATED' ...]. *)
Definition rotated (wallet : string) (chainID : Z) (vault keep : string) (id : string) (s : SessionResponse.t)
    : SessionResponse.t :=
  if String.eqb (SessionResponse.WalletAddress s) wallet && (SessionResponse.ChainID s =? chainID) &&
     String.eqb (SessionResponse.VaultAddress s) vault && String.eqb (SessionResponse.Status s) "ACTIVE" &&
     negb (String.eqb id keep)
  then SessionResponse.set_status s "ROTATED" now dbnow else s.

(** The key that is registered already. *)
Definition same_key (s : SessionResponse.t) (req : RegisterTradingKeyRequest.t) : bool :=
  negb (String.eqb (SessionResponse.SessionID s) "") &&
  String.eqb (SessionResponse.WalletAddress s) (normalizeWalletAddress (RegisterTradingKeyRequest.WalletAddress req)) &&
  (SessionResponse.ChainID s =? RegisterTradingKeyRequest.ChainID req) &&
  String.eqb (SessionResponse.VaultAddress s) (normalizeVaultAddress (RegisterTradingKeyRequest.VaultAddress req)) &&
  ((SessionResponse.ExpiresAtMillis s =? 0) || (now <=? SessionResponse.ExpiresAtMillis s)) &&
  EqualFold (SessionResponse.SessionPublicKey s)
    (normalizePublicKey (RegisterTradingKeyRequest.TradingPublicKey req)).

(** After the challenge has been consumed. *)
Definition write_trading_key (d : AuthDB) (req : RegisterTradingKeyRequest.t)
    : result StoreError (AuthDB * SessionResponse.t) :=
  let wallet := normalizeWalletAddress (RegisterTradingKeyRequest.WalletAddress req) in
  let vault := normalizeVaultAddress (RegisterTradingKeyRequest.VaultAddress req) in
  let id := RegisterTradingKeyRequest.SessionID req in
  '(p, userID) ← resolveOrCreateUserIDTx dbnow wallet (profiles d);
  let d := set_profiles d p in
  let rotate_and_insert :=
    '(m, session) ← upsert_session
       (SessionResponse.mk id userID wallet (normalizePublicKey (RegisterTradingKeyRequest.TradingPublicKey req))
          (normalizeSessionScope (RegisterTradingKeyRequest.Scope req)) (RegisterTradingKeyRequest.ChainID req) vault
          (normalizeChallengeValue (RegisterTradingKeyRequest.Challenge req)) 0 "ACTIVE" now
          (RegisterTradingKeyRequest.KeyExpiresAtMillis req) 0 dbnow dbnow)
       (map_imap (λ k s, Some (rotated wallet (RegisterTradingKeyRequest.ChainID req) vault id k s)) (sessions d));
    p ← ensureUserProfileTx dbnow (SessionResponse.UserID session) (SessionResponse.WalletAddress session) (profiles d);
    d ← append_shadow (set_profiles (set_sessions d m) p)
          (buildTradingKeyAuthorizedEntry session req (RegisterTradingKeyRequest.WalletSignature req));
    Ok (d, session) in
  match getActiveTradingKeyTx d id with
  | Some s => if same_key s req then Ok (d, s) else rotate_and_insert
  | None => rotate_and_insert
  end.

Definition register_tx (d : AuthDB) (req : RegisterTradingKeyRequest.t)
    : result StoreError (AuthDB * SessionResponse.t) :=
  let challenge := normalizeChallengeValue (RegisterTradingKeyRequest.Challenge req) in
  let existing := sessions d !! TrimSpace (RegisterTradingKeyRequest.SessionID req) in
  let retry (e : StoreError) :=
    match existing with
    | Some s => if isIdempotentTradingKeyRetry existing req challenge then Ok (d, s) else Err e
    | None => Err e
    end in
  let id := TrimSpace (RegisterTradingKeyRequest.ChallengeID req) in
  match challenges d !! id with
  | None => retry ErrNotFound
  | Some c =>
      if negb (String.eqb (tradingKeyChallengeRecord.WalletAddress c)
                 (normalizeWalletAddress (RegisterTradingKeyRequest.WalletAddress req)) &&
               (tradingKeyChallengeRecord.ChainID c =? RegisterTradingKeyRequest.ChainID req) &&
               String.eqb (tradingKeyChallengeRecord.VaultAddress c)
                 (normalizeVaultAddress (RegisterTradingKeyRequest.VaultAddress req)) &&
               String.eqb (tradingKeyChallengeRecord.Challenge c) challenge)
      then Err ErrNotFound
      else if tradingKeyChallengeRecord.ExpiresAt c <? now then retry ErrTradingKeyChallengeExpired
      else if 0 <? tradingKeyChallengeRecord.ConsumedAt c then retry ErrTradingKeyChallengeConsumed
      else if negb (tradingKeyChallengeRecord.ConsumedAt c =? 0) then retry ErrTradingKeyChallengeConsumed
      else write_trading_key
             (set_challenges d (<[id := tradingKeyChallengeRecord.set_consumed c now]> (challenges d))) req
  end.

Definition RegisterTradingKey (d : AuthDB) (req : RegisterTradingKeyRequest.t)
    : AuthDB * result StoreError SessionResponse.t := committed d (register_tx d req).
End store.
