(* ===== verification/SessionProps.v ===== *)
(** * API: what the authorization tables guarantee

    Whatever calls are made, in whatever order: a session never forgets a nonce it
    accepted, a challenge authorizes one registration, and a wallet has at most one
    active trading key per chain and vault. *)

From Stdlib Require Import Ascii Sorted.
From S2P Require Import Prelude Strings Shared Auth RollupJournal RollupState SessionStore.

Local Open Scope Z_scope.

(** ** Calls *)

Inductive AuthCall :=
| CallCreateSession (req : CreateSessionRequest.t)
| CallCreateChallenge (req : CreateTradingKeyChallengeRequest.t)
| CallRegister (req : RegisterTradingKeyRequest.t)
| CallRevoke (sessionID : string)
| CallAdvance (req : AdvanceSessionNonceRequest.t)
| CallProfile (req : UpdateUserProfileRequest.t) (wallet : string).

Section calls.
Context (TypedDataAndHash : TypedData.t → result string string) (fresh : nat → string).
Context `{!JSON NonceAdvancedPayload.t, !JSON TradingKeyAuthorizationWitness.t}.
Context (rollup : bool).

(** The tables after a call at the two clocks, and the nonce it accepted. *)
Definition perform (d : AuthDB) (call : AuthCall) (now dbnow : Z) : AuthDB * option (string * Z) :=
  match call with
  | CallCreateSession req => ((CreateSession dbnow d req).1, None)
  | CallCreateChallenge req => ((CreateTradingKeyChallenge d req).1, None)
  | CallRegister req => ((RegisterTradingKey TypedDataAndHash fresh rollup now dbnow d req).1, None)
  | CallRevoke id => ((RevokeSession dbnow d id).1, None)
  | CallAdvance req =>
      match AdvanceSessionNonce fresh rollup now d req with
      | (d, Ok s) => (d, Some (TrimSpace (AdvanceSessionNonceRequest.SessionID req),
                               AdvanceSessionNonceRequest.Nonce req))
      | (d, Err _) => (d, None)
      end
  | CallProfile req wallet => ((UpsertUserProfile dbnow d req wallet).1, None)
  end.

(** ** The shapes of the transactions *)

Lemma append_shadow_tables d e d' :
  append_shadow fresh rollup d e = Ok d' →
  sessions d' = sessions d ∧ challenges d' = challenges d ∧ profiles d' = profiles d.
Proof.
  unfold append_shadow. destruct rollup; [|by intros [= <-]]. destruct e as [e|]; [|done].
  destruct (AppendEntriesTx _ _ _); [|done]. by intros [= <-].
Qed.

Lemma upsert_session_Ok dbnow row m m' s :
  upsert_session dbnow row m = Ok (m', s) →
  m' = <[SessionResponse.SessionID row := s]> m ∧
  SessionResponse.scope_key s = SessionResponse.scope_key row ∧
  SessionResponse.LastOrderNonce s =
    from_option SessionResponse.LastOrderNonce (SessionResponse.LastOrderNonce row)
      (m !! SessionResponse.SessionID row) ∧
  SessionResponse.SessionID s = SessionResponse.SessionID row.
Proof.
  unfold upsert_session. cbv zeta. case_bool_decide; [done|]. intros [= <- <-].
  split; [done|]. by destruct (m !! _).
Qed.

Lemma create_session_Ok dbnow d req d' s :
  create_session_tx dbnow d req = Ok (d', s) →
  ∃ row, upsert_session dbnow row (sessions d) = Ok (sessions d', s) ∧
    SessionResponse.LastOrderNonce row = 0 ∧ SessionResponse.VaultAddress row = "" ∧ challenges d' = challenges d.
Proof.
  unfold create_session_tx. intros ([m s0] & Hu & (p & _ & [= <- <-])%result_bind_Ok)%result_bind_Ok.
  eexists. split; [exact Hu|done].
Qed.

(** A registration that writes: the challenge is consumed, other keys of the scope are
    rotated, the row is written. *)
Record registered (now dbnow : Z) (d : AuthDB) (req : RegisterTradingKeyRequest.t) (d' : AuthDB)
    (s : SessionResponse.t) : Prop := {
  rg_rotated : ∃ row, upsert_session dbnow row
    (map_imap (λ k s, Some (rotated now dbnow (normalizeWalletAddress (RegisterTradingKeyRequest.WalletAddress req))
       (RegisterTradingKeyRequest.ChainID req)
       (normalizeVaultAddress (RegisterTradingKeyRequest.VaultAddress req)) (RegisterTradingKeyRequest.SessionID req)
       k s)) (sessions d)) = Ok (sessions d', s) ∧
    SessionResponse.SessionID row = RegisterTradingKeyRequest.SessionID req ∧
    SessionResponse.LastOrderNonce row = 0 ∧
    SessionResponse.WalletAddress row = normalizeWalletAddress (RegisterTradingKeyRequest.WalletAddress req) ∧
    SessionResponse.ChainID row = RegisterTradingKeyRequest.ChainID req ∧
    SessionResponse.VaultAddress row = normalizeVaultAddress (RegisterTradingKeyRequest.VaultAddress req);
  rg_challenges : challenges d' = challenges d;
}.

Lemma normalizeWallet_idem w : normalizeWalletAddress (normalizeWalletAddress w) = normalizeWalletAddress w.
Proof. apply lower_trim_idem. Qed.

Lemma write_trading_key_Ok now dbnow d req d' s :
  write_trading_key TypedDataAndHash fresh rollup now dbnow d req = Ok (d', s) →
  (sessions d' = sessions d ∧ challenges d' = challenges d ∧
   sessions d !! TrimSpace (RegisterTradingKeyRequest.SessionID req) = Some s) ∨
  registered now dbnow d req d' s.
Proof.
  unfold write_trading_key. cbv zeta. intros ([p u] & _ & H)%result_bind_Ok.
  match type of H with context [match _ with Some _ => if _ then _ else ?r | None => _ end] => set (ins := r) in H end.
  assert (ins = Ok (d', s) → registered now dbnow d req d' s) as Hins.
  { subst ins. clear H.
    intros ([m s0] & Hu & (p' & _ & (d1 & Ha%append_shadow_tables & [= <- <-])%result_bind_Ok)%result_bind_Ok)%result_bind_Ok.
    destruct Ha as (Hs & Hc & _). split; [|by rewrite Hc]. eexists. rewrite Hs. split; [exact Hu|done]. }
  unfold getActiveTradingKeyTx in H. cbn [sessions set_profiles] in H.
  destruct (sessions d !! TrimSpace (RegisterTradingKeyRequest.SessionID req)) as [s1|] eqn:E; [|by right; apply Hins].
  destruct (String.eqb _ _); [|by right; apply Hins].
  destruct (same_key now s1 req); [|by right; apply Hins]. injection H as <- <-. by left.
Qed.

(** A registration changes the tables only through a challenge that is still open. *)
Record fresh_challenge (now : Z) (d : AuthDB) (req : RegisterTradingKeyRequest.t) (c : tradingKeyChallengeRecord.t)
    : Prop := {
  fc_stored : challenges d !! TrimSpace (RegisterTradingKeyRequest.ChallengeID req) = Some c;
  fc_unused : tradingKeyChallengeRecord.ConsumedAt c = 0;
  fc_open : now ≤ tradingKeyChallengeRecord.ExpiresAt c;
  fc_wallet : tradingKeyChallengeRecord.WalletAddress c =
    normalizeWalletAddress (RegisterTradingKeyRequest.WalletAddress req);
  fc_chain : tradingKeyChallengeRecord.ChainID c = RegisterTradingKeyRequest.ChainID req;
  fc_vault : tradingKeyChallengeRecord.VaultAddress c =
    normalizeVaultAddress (RegisterTradingKeyRequest.VaultAddress req);
  fc_value : tradingKeyChallengeRecord.Challenge c =
    normalizeChallengeValue (RegisterTradingKeyRequest.Challenge req);
}.

Definition consume (now : Z) (d : AuthDB) (req : RegisterTradingKeyRequest.t) (c : tradingKeyChallengeRecord.t) : AuthDB :=
  set_challenges d (<[TrimSpace (RegisterTradingKeyRequest.ChallengeID req) :=
    tradingKeyChallengeRecord.set_consumed c now]> (challenges d)).

Lemma register_tx_Ok now dbnow d req d' s :
  register_tx TypedDataAndHash fresh rollup now dbnow d req = Ok (d', s) →
  (d' = d ∧ sessions d !! TrimSpace (RegisterTradingKeyRequest.SessionID req) = Some s ∧
   isIdempotentTradingKeyRetry (Some s) req
     (normalizeChallengeValue (RegisterTradingKeyRequest.Challenge req)) = true) ∨
  ∃ c, fresh_challenge now d req c ∧
    write_trading_key TypedDataAndHash fresh rollup now dbnow (consume now d req c) req = Ok (d', s).
Proof.
  unfold register_tx. cbv zeta.
  assert (∀ e : StoreError, match sessions d !! TrimSpace (RegisterTradingKeyRequest.SessionID req) with
    | Some s0 => if isIdempotentTradingKeyRetry (sessions d !! TrimSpace (RegisterTradingKeyRequest.SessionID req)) req
        (normalizeChallengeValue (RegisterTradingKeyRequest.Challenge req)) then Ok (d, s0) else Err e
    | None => Err e end = Ok (d', s) →
    d' = d ∧ sessions d !! TrimSpace (RegisterTradingKeyRequest.SessionID req) = Some s ∧
    isIdempotentTradingKeyRetry (Some s) req
      (normalizeChallengeValue (RegisterTradingKeyRequest.Challenge req)) = true) as Hretry.
  { intros e. destruct (sessions d !! _) as [s0|]; [|done].
    destruct (isIdempotentTradingKeyRetry (Some s0) req _) eqn:Er; [|done]. by intros [= <- <-]. }
  destruct (challenges d !! _) as [c|] eqn:Ec; [|intros H%Hretry; by left].
  destruct (_ && _ && _ && _) eqn:Em; cbn [negb]; [|done]. rewrite !andb_true_iff in Em.
  destruct Em as [[[Hw%String.eqb_eq Hch%Z.eqb_eq] Hv%String.eqb_eq] Hval%String.eqb_eq].
  destruct (Z.ltb_spec (tradingKeyChallengeRecord.ExpiresAt c) now); [intros H1%Hretry; by left|].
  destruct (0 <? _); [intros H1%Hretry; by left|].
  destruct (Z.eqb_spec (tradingKeyChallengeRecord.ConsumedAt c) 0); cbn [negb]; [|intros H1%Hretry; by left].
  intros Hwr. right. exists c. by split.
Qed.

(** ** Nonces *)

Definition last_nonce (d : AuthDB) (id : string) : option Z := SessionResponse.LastOrderNonce <$> sessions d !! id.

(** Sessions are kept, and their nonces never go back. *)
Definition nonces_kept (d d' : AuthDB) : Prop :=
  ∀ id n, last_nonce d id = Some n → ∃ n', last_nonce d' id = Some n' ∧ n ≤ n'.

#[export] Instance nonces_kept_preorder : PreOrder nonces_kept.
Proof.
  split.
  - intros d id n H. by exists n.
  - intros d1 d2 d3 H1 H2 id n H. destruct (H1 _ _ H) as (n1 & E1 & ?). destruct (H2 _ _ E1) as (n2 & E2 & ?).
    exists n2. split; [done|lia].
Qed.

Lemma nonces_kept_eq d d' : sessions d' = sessions d → nonces_kept d d'.
Proof. intros E id n H. exists n. unfold last_nonce. by rewrite E. Qed.

Lemma upsert_keeps_nonces dbnow row m m' s d d' :
  upsert_session dbnow row m = Ok (m', s) → SessionResponse.LastOrderNonce row = 0 →
  sessions d' = m' →
  (∀ id, SessionResponse.LastOrderNonce <$> m !! id = last_nonce d id) → nonces_kept d d'.
Proof.
  intros Hu Hz Hd Hm id n Hn. apply upsert_session_Ok in Hu as (-> & _ & Hl & _).
  unfold last_nonce. rewrite Hd, lookup_insert. case_decide as Hid.
  - subst id. rewrite <-Hm in Hn. destruct (m !! _) as [old|]; [|done]. injection Hn as <-. simpl in *.
    exists (SessionResponse.LastOrderNonce s). rewrite Hl. split; [done|lia].
  - exists n. by rewrite Hm.
Qed.

Lemma rotated_nonce now dbnow w c v keep k s :
  SessionResponse.LastOrderNonce (rotated now dbnow w c v keep k s) = SessionResponse.LastOrderNonce s.
Proof. unfold rotated. by destruct (_ && _). Qed.

Lemma registered_keeps_nonces now dbnow d req d' s : registered now dbnow d req d' s → nonces_kept d d'.
Proof.
  intros [(row & Hu & _ & Hz & _) _]. eapply upsert_keeps_nonces; [exact Hu|done..|].
  intros id. rewrite map_lookup_imap. unfold last_nonce. destruct (sessions d !! id); [|done]. simpl.
  by rewrite rotated_nonce.
Qed.

Lemma register_keeps_nonces now dbnow d req :
  nonces_kept d (RegisterTradingKey TypedDataAndHash fresh rollup now dbnow d req).1.
Proof.
  unfold RegisterTradingKey, committed.
  destruct (register_tx _ _ _ _ _ _ _) as [[d' s]|] eqn:E; [|reflexivity].
  apply register_tx_Ok in E as [[-> _]|(c & _ & [(Hs & _)|Hr]%write_trading_key_Ok)]; [reflexivity| |].
  - by apply nonces_kept_eq.
  - apply registered_keeps_nonces in Hr. etransitivity; [|exact Hr]. by apply nonces_kept_eq.
Qed.

(** An accepted nonce is above the last one, which it replaces. *)
Lemma advance_Ok now d req d' s :
  AdvanceSessionNonce fresh rollup now d req = (d', Ok s) →
  let id := TrimSpace (AdvanceSessionNonceRequest.SessionID req) in
  ∃ s0, sessions d !! id = Some s0 ∧ SessionResponse.Status s0 = "ACTIVE" ∧
    SessionResponse.LastOrderNonce s0 < AdvanceSessionNonceRequest.Nonce req ∧
    s = SessionResponse.set_nonce s0 (AdvanceSessionNonceRequest.Nonce req) (now `div` 1000) ∧
    sessions d' = <[id := s]> (sessions d) ∧
    append_shadow fresh rollup (set_sessions d (sessions d'))
      (buildNonceAdvanceEntry s (AdvanceSessionNonceRequest.Nonce req) now
         (AdvanceSessionNonceRequest.AuthorizationWitness req)) = Ok d'.
Proof.
  cbv zeta. unfold AdvanceSessionNonce. destruct (_ <? _); [done|]. unfold committed.
  destruct (advance_nonce_tx _ _ _ _ _) as [[d1 s1]|] eqn:E; [|done]. intros [= <- <-].
  revert E. unfold advance_nonce_tx. cbv zeta. destruct (sessions d !! _) as [s0|] eqn:Es; [|done].
  destruct (_ && _) eqn:Eg; [|done]. apply andb_true_iff in Eg as [Ha%String.eqb_eq Hlt%Z.ltb_lt].
  intros (d2 & Hd2 & [= <- <-])%result_bind_Ok. exists s0. pose proof (append_shadow_tables _ _ _ Hd2) as (Hs & _).
  cbn in Hs. split_and!; try done. by rewrite Hs.
Qed.

Lemma advance_Err now d req d' e : AdvanceSessionNonce fresh rollup now d req = (d', Err e) → d' = d.
Proof.
  unfold AdvanceSessionNonce. destruct (_ <? _); [by intros [= <- _]|]. unfold committed.
  destruct (advance_nonce_tx _ _ _ _ _) as [[]|]; [done|]. by intros [= <- _].
Qed.

Lemma advance_keeps_nonces now d req :
  nonces_kept d (AdvanceSessionNonce fresh rollup now d req).1.
Proof.
  destruct (AdvanceSessionNonce fresh rollup now d req) as [d' [s|e]] eqn:E.
  - apply advance_Ok in E as (s0 & Es & _ & Hlt & -> & Hs & _). intros id n Hn. unfold last_nonce in *. cbn.
    rewrite Hs, lookup_insert. case_decide as Hid; [|by exists n]. subst id. rewrite Es in Hn. injection Hn as <-.
    simpl. eexists. split; [done|]. cbn. lia.
  - by rewrite (advance_Err _ _ _ _ _ E).
Qed.

Lemma perform_keeps_nonces d call now dbnow : nonces_kept d (perform d call now dbnow).1.
Proof.
  destruct call as [req|req|req|id|req|req w]; cbn [perform fst].
  - unfold CreateSession, committed. destruct (create_session_tx _ _ _) as [[d' s]|] eqn:E; [|reflexivity].
    apply create_session_Ok in E as (row & Hu & Hz & _). by eapply upsert_keeps_nonces.
  - unfold CreateTradingKeyChallenge. cbv zeta. destruct (_ || _); [reflexivity|]. by apply nonces_kept_eq.
  - apply register_keeps_nonces.
  - unfold RevokeSession. destruct (sessions d !! TrimSpace id) as [s|] eqn:E; [|reflexivity].
    intros k n Hn. exists n. split; [|lia]. unfold last_nonce in *. cbn. rewrite lookup_insert.
    case_decide as Hk; [|done]. subst k. by rewrite E in Hn.
  - pose proof (advance_keeps_nonces now d req) as H. by destruct (AdvanceSessionNonce _ _ _ _ _) as [d' []].
  - unfold UpsertUserProfile. cbv zeta. destruct (wallet_taken _ _ _); [reflexivity|]. by apply nonces_kept_eq.
Qed.

End calls.

(** A call with the clocks and the identifiers it draws. *)
Module TimedCall.
Record t := mk { Call : AuthCall; Drawn : nat → string; Now : Z; DbNow : Z }.
End TimedCall.

Section sequences.
Context (TypedDataAndHash : TypedData.t → result string string).
Context `{!JSON NonceAdvancedPayload.t, !JSON TradingKeyAuthorizationWitness.t}.
Context (rollup : bool).

Definition perform_one (d : AuthDB) (c : TimedCall.t) : AuthDB * option (string * Z) :=
  perform TypedDataAndHash (TimedCall.Drawn c) rollup d (TimedCall.Call c) (TimedCall.Now c) (TimedCall.DbNow c).

(** The tables after a sequence of calls, and the accepted nonces in order. *)
Fixpoint perform_all (d : AuthDB) (calls : list TimedCall.t) : AuthDB * list (string * Z) :=
  match calls with
  | [] => (d, [])
  | c :: calls =>
      let '(d, accepted) := perform_one d c in
      let '(d, rest) := perform_all d calls in
      (d, option_list accepted ++ rest)
  end.

(** What the nonces accepted from here on are above. *)
Lemma perform_all_above d calls id n :
  last_nonce d id = Some n →
  Forall (λ m, n < m) (snd <$> filter (λ a, a.1 = id) (perform_all d calls).2).
Proof.
  revert d n. induction calls as [|[call fresh now dbnow] calls IH]; intros d n Hn; cbn [perform_all]; [constructor|].
  pose proof (perform_keeps_nonces TypedDataAndHash fresh rollup d call now dbnow _ _ Hn) as (n' & Hn' & Hle).
  unfold perform_one. cbn [TimedCall.Call TimedCall.Drawn TimedCall.Now TimedCall.DbNow].
  destruct (perform _ _ _ d call now dbnow) as [d' acc] eqn:E. cbn [fst] in Hn'. specialize (IH d' n' Hn').
  destruct (perform_all d' calls) as [d2 rest]. cbn [snd] in *. rewrite filter_app, fmap_app. apply Forall_app.
  split; [|eapply Forall_impl; [exact IH|]; simpl; lia].
  destruct acc as [[id' m]|]; unfold option_list; cbn [option_rect]; [|constructor]. rewrite filter_cons.
  case_decide as Hid; [|constructor]. cbn in Hid. subst id'.
  destruct call as [| | | |req|]; cbn [perform] in E; try discriminate E.
  destruct (AdvanceSessionNonce _ _ _ _ _) as [d1 [s|]] eqn:Ea; [|done]. injection E as <- <- <-.
  apply advance_Ok in Ea as (s0 & Es & _ & Hlt & _). unfold last_nonce in Hn. rewrite Es in Hn. injection Hn as <-.
  rewrite filter_nil. by repeat constructor.
Qed.
End sequences.

(** An order nonce is accepted once.  Along every sequence of calls to the
    authorization store (sessions created again, keys registered, rotated and revoked
    in between), the nonces accepted for a session are strictly increasing. *)
Theorem order_nonces_single_use (TypedDataAndHash : TypedData.t → result string string)
    `{!JSON NonceAdvancedPayload.t, !JSON TradingKeyAuthorizationWitness.t} (rollup : bool) d calls id :
  StronglySorted Z.lt
    (snd <$> filter (λ a, a.1 = id) (perform_all TypedDataAndHash rollup d calls).2).
Proof.
  revert d. induction calls as [|[call fresh now dbnow] calls IH]; intros d; cbn [perform_all]; [constructor|].
  unfold perform_one. cbn [TimedCall.Call TimedCall.Drawn TimedCall.Now TimedCall.DbNow].
  destruct (perform _ _ _ d call now dbnow) as [d' acc] eqn:E. specialize (IH d').
  pose proof (perform_all_above TypedDataAndHash rollup d' calls) as Hab.
  destruct (perform_all _ _ d' calls) as [d2 rest]. cbn [snd] in *.
  destruct acc as [[id' m]|]; unfold option_list; cbn [option_rect app]; [|done]. rewrite filter_cons.
  case_decide as Hid; [|done]. cbn in Hid. subst id'. rewrite fmap_cons. constructor; [done|]. apply Hab.
  destruct call as [| | | |req|]; cbn [perform] in E; try discriminate E.
  destruct (AdvanceSessionNonce _ _ _ _ _) as [d1 [s|]] eqn:Ea; [|done]. injection E as <- <- <-.
  apply advance_Ok in Ea as (s0 & _ & _ & _ & -> & Hs & _). unfold last_nonce. by rewrite Hs, lookup_insert_eq.
Qed.

(** A challenge authorizes one registration.  A registration changes the tables only
    through a challenge that was issued for that wallet, chain and vault, has not
    expired and is unused, and marks it as used; and no call ever changes a challenge
    that is used.  With any other challenge the answer is an error or the session that
    the same challenge has registered, still active. *)
Theorem challenge_authorizes_once (TypedDataAndHash : TypedData.t → result string string) (fresh : nat → string)
    `{!JSON NonceAdvancedPayload.t, !JSON TradingKeyAuthorizationWitness.t} (rollup : bool) d :
  (∀ call now dbnow id c, challenges d !! id = Some c → tradingKeyChallengeRecord.ConsumedAt c ≠ 0 →
     challenges (perform TypedDataAndHash fresh rollup d call now dbnow).1 !! id = Some c) ∧
  (∀ req now dbnow d' r, RegisterTradingKey TypedDataAndHash fresh rollup now dbnow d req = (d', r) →
     (∃ c, fresh_challenge now d req c ∧
        challenges d' !! TrimSpace (RegisterTradingKeyRequest.ChallengeID req) =
          Some (tradingKeyChallengeRecord.set_consumed c now)) ∨
     d' = d ∧ ∀ s, r = Ok s →
       sessions d !! TrimSpace (RegisterTradingKeyRequest.SessionID req) = Some s ∧
       ToUpper (SessionResponse.Status s) = "ACTIVE" ∧
       EqualFold (SessionResponse.SessionNonce s)
         (normalizeChallengeValue (RegisterTradingKeyRequest.Challenge req)) = true).
Proof.
  split.
  - intros call now dbnow id c Hc Hused. destruct call as [req|req|req|sid|req|req w]; cbn [perform fst].
    + unfold CreateSession, committed. destruct (create_session_tx _ _ _) as [[d' s]|] eqn:E; [|done].
      apply create_session_Ok in E as (? & _ & _ & _ & Hch). cbn. by rewrite Hch.
    + unfold CreateTradingKeyChallenge. cbv zeta. case_bool_decide as Hx; [done|]. cbn [orb].
      case_bool_decide; [done|]. cbn. rewrite lookup_insert_ne; [done|]. intros <-. apply Hx. by eexists.
    + unfold RegisterTradingKey, committed. destruct (register_tx _ _ _ _ _ _ _) as [[d' s]|] eqn:E; [|done]. cbn.
      apply register_tx_Ok in E as [[-> _]|(c' & Hf & [(_ & Hch & _)|[_ Hch]]%write_trading_key_Ok)]; [done|..];
        rewrite Hch; cbn; (rewrite lookup_insert_ne; [done|]); intros <-; destruct Hf; congruence.
    + unfold RevokeSession. by destruct (sessions d !! _).
    + destruct (AdvanceSessionNonce fresh rollup now d req) as [d' [s|]] eqn:E; cbn.
      * apply advance_Ok in E as (_ & _ & _ & _ & _ & _ & Ha%append_shadow_tables). destruct Ha as (_ & -> & _). done.
      * by rewrite (advance_Err _ _ _ _ _ _ _ E).
    + unfold UpsertUserProfile. cbv zeta. by destruct (wallet_taken _ _ _).
  - intros req now dbnow d' r. unfold RegisterTradingKey, committed.
    destruct (register_tx _ _ _ _ _ _ _) as [[d1 s]|] eqn:E; [|by intros [= <- <-]; right].
    intros [= <- <-]. apply register_tx_Ok in E as [(-> & Hs & Hi)|(c & Hf & Hw)].
    + right. split; [done|]. intros s1 [= <-]. split; [done|]. cbn in Hi. rewrite !andb_true_iff in Hi.
      destruct Hi as [[[[[[[_ Ha%String.eqb_eq] _] _] _] _] _] Hn]. done.
    + left. exists c. split; [done|]. apply write_trading_key_Ok in Hw as [(_ & Hch & _)|[_ Hch]]; rewrite Hch; cbn;
        by rewrite lookup_insert_eq.
Qed.

(** ** One key at a time *)

Definition active_at (s : SessionResponse.t) (w : string) (c : Z) (v : string) : Prop :=
  SessionResponse.Status s = "ACTIVE" ∧ SessionResponse.WalletAddress s = w ∧ SessionResponse.ChainID s = c ∧
  SessionResponse.VaultAddress s = v.

(** Sessions without a vault are the deprecated ones. *)
Definition one_key (m : gmap string SessionResponse.t) : Prop :=
  ∀ i j s t w c v, m !! i = Some s → m !! j = Some t → v ≠ "" → active_at s w c v → active_at t w c v → i = j.

(** Changing rows so that none becomes active elsewhere. *)
Lemma one_key_shrink m m' :
  one_key m → (∀ i s, m' !! i = Some s → SessionResponse.Status s = "ACTIVE" → SessionResponse.VaultAddress s ≠ "" →
    ∃ s0, m !! i = Some s0 ∧ SessionResponse.Status s0 = "ACTIVE" ∧
      SessionResponse.WalletAddress s0 = SessionResponse.WalletAddress s ∧
      SessionResponse.ChainID s0 = SessionResponse.ChainID s ∧
      SessionResponse.VaultAddress s0 = SessionResponse.VaultAddress s) → one_key m'.
Proof.
  intros H Hs i j s t w c v Hi Hj Hv (As & <- & <- & <-) (At & Ew & Ec & Ev).
  destruct (Hs _ _ Hi As Hv) as (s0 & ? & ? & Es1 & Es2 & Es3).
  rewrite <-Ev in Hv. destruct (Hs _ _ Hj At Hv) as (t0 & ? & ? & Et1 & Et2 & Et3).
  rewrite Ev in *. eapply (H i j s0 t0); try done; split_and!; try done; congruence.
Qed.

Lemma one_key_insert m id s :
  one_key m →
  (∀ k t, m !! k = Some t → SessionResponse.VaultAddress s ≠ "" → k ≠ id →
     ¬ active_at t (SessionResponse.WalletAddress s) (SessionResponse.ChainID s) (SessionResponse.VaultAddress s)) →
  one_key (<[id := s]> m).
Proof.
  intros H Hno i j si sj w c v. rewrite !lookup_insert. repeat case_decide; subst; try done.
  - intros [= <-] Hj Hv (_ & <- & <- & <-) Ht. exfalso. by eapply Hno.
  - intros Hi [= <-] Hv Hs (_ & <- & <- & <-). exfalso. by eapply Hno.
  - by apply H.
Qed.

Lemma one_key_update m id s s' :
  one_key m → m !! id = Some s →
  (SessionResponse.Status s' = "ACTIVE" →
   active_at s (SessionResponse.WalletAddress s') (SessionResponse.ChainID s') (SessionResponse.VaultAddress s')) →
  one_key (<[id := s']> m).
Proof.
  intros H Hs Ha. eapply one_key_shrink; [exact H|]. intros i t. rewrite lookup_insert. case_decide as Hi.
  - subst i. intros [= <-] Hact _. destruct (Ha Hact) as (? & ? & ? & ?). by exists s.
  - intros Ht Hact _. by exists t.
Qed.

Lemma rotated_cases now dbnow w c v keep k s :
  rotated now dbnow w c v keep k s = s ∧ (k ≠ keep → ¬ active_at s w c v) ∨
  SessionResponse.Status (rotated now dbnow w c v keep k s) = "ROTATED".
Proof.
  unfold rotated. destruct (_ && _ && _ && _ && _) eqn:E; [by right|]. left. split; [done|].
  intros Hk (Ha & Hw & Hc & Hv). rewrite Ha, Hw, Hc, Hv, !String.eqb_refl, Z.eqb_refl in E. cbn in E.
  by rewrite (proj2 (String.eqb_neq _ _) Hk) in E.
Qed.

Lemma registered_one_key now dbnow d req d' s : registered now dbnow d req d' s → one_key (sessions d) → one_key (sessions d').
Proof.
  intros [(row & Hu & Hid & _ & Hw & Hc & Hv) _] H.
  apply upsert_session_Ok in Hu as (-> & Hk & _ & _). unfold SessionResponse.scope_key in Hk.
  rewrite Hw, Hc, Hv in Hk. injection Hk as Hsw Hsc Hsv _. apply one_key_insert.
  - eapply one_key_shrink; [exact H|]. intros i t. rewrite map_lookup_imap.
    destruct (sessions d !! i) as [t0|]; [|done]. simpl. intros [= <-] Ha _. exists t0. split; [done|].
    destruct (rotated_cases now dbnow (normalizeWalletAddress (RegisterTradingKeyRequest.WalletAddress req))
      (RegisterTradingKeyRequest.ChainID req) (normalizeVaultAddress (RegisterTradingKeyRequest.VaultAddress req))
      (RegisterTradingKeyRequest.SessionID req) i t0) as [[E _]|E]; [rewrite E in *; done|]. by rewrite E in Ha.
  - intros k t. rewrite map_lookup_imap, Hid, Hsw, Hsc, Hsv.
    destruct (sessions d !! k) as [t0|]; [|done]. simpl. intros [= <-] _ Hk.
    destruct (rotated_cases now dbnow (normalizeWalletAddress (RegisterTradingKeyRequest.WalletAddress req))
      (RegisterTradingKeyRequest.ChainID req) (normalizeVaultAddress (RegisterTradingKeyRequest.VaultAddress req))
      (RegisterTradingKeyRequest.SessionID req) k t0) as [[-> Hno]|E]; [by apply Hno|].
    intros (Ha & _). by rewrite E in Ha.
Qed.

(** A wallet trades with one key at a time.  Every call keeps at most one trading key
    active for a wallet, a chain and a vault: registering another one rotates it out. *)
Theorem one_active_trading_key (TypedDataAndHash : TypedData.t → result string string) (fresh : nat → string)
    `{!JSON NonceAdvancedPayload.t, !JSON TradingKeyAuthorizationWitness.t} (rollup : bool) d call now dbnow :
  one_key (sessions d) → one_key (sessions (perform TypedDataAndHash fresh rollup d call now dbnow).1).
Proof.
  intros H. destruct call as [req|req|req|sid|req|req w]; cbn [perform fst].
  - unfold CreateSession, committed. destruct (create_session_tx _ _ _) as [[d' s]|] eqn:E; [|done]. cbn.
    apply create_session_Ok in E as (row & Hu & _ & Hv & _). apply upsert_session_Ok in Hu as (-> & Hk & _).
    apply one_key_insert; [done|]. intros k t _ Hne. unfold SessionResponse.scope_key in Hk. rewrite Hv in Hk.
    injection Hk as _ _ Hsv _. by rewrite Hsv in Hne.
  - unfold CreateTradingKeyChallenge. cbv zeta. by destruct (_ || _).
  - unfold RegisterTradingKey, committed. destruct (register_tx _ _ _ _ _ _ _) as [[d' s]|] eqn:E; [|done]. cbn.
    apply register_tx_Ok in E as [[-> _]|(c & _ & [(Hs & _)|Hr]%write_trading_key_Ok)]; [done|by rewrite Hs|].
    by apply registered_one_key in Hr.
  - unfold RevokeSession. destruct (sessions d !! TrimSpace sid) as [s|] eqn:E; [|done]. cbn.
    by eapply one_key_update.
  - pose proof (advance_Ok fresh rollup now d req) as Ha.
    destruct (AdvanceSessionNonce fresh rollup now d req) as [d' [s|]] eqn:E; cbn.
    + destruct (Ha _ _ eq_refl) as (s0 & Es & Hact & _ & -> & -> & _). eapply one_key_update; [done..|]. by intros _.
    + by rewrite (advance_Err _ _ _ _ _ _ _ E).
  - unfold UpsertUserProfile. cbv zeta. by destruct (wallet_taken _ _ _).
Qed.
