(* ===== verification/OperatorAuth.v ===== *)
(** * API: operator proofs

    The parts of [api/dto/operator_auth.go] and [api/handler/operator_auth.go] that
    privileged actions are signed and checked with, and the guards of
    [api/middleware.go].  [None] of a guard lets the request pass; an answer is its HTTP
    status and its error text.  [recover] is [RecoverPersonalSignAddress] ([Auth]). *)

From Stdlib Require Import Ascii.
From S2P Require Import Prelude Strings Shared Auth SessionStore.

Local Open Scope Z_scope.
Local Open Scope go_scope.

Notation HttpError := (Z * string)%type.

(** ** Text *)

(** [strings.Fields] on ASCII text; [word] is the field being read. *)
Fixpoint fields_from (word s : string) : list string :=
  let done_ := if String.eqb word "" then [] else [word] in
  match s with
  | EmptyString => done_
  | String a s => if is_space_byte a then done_ ++ fields_from "" s else fields_from (word +:+ String a "") s
  end.
Definition Fields (s : string) : list string := fields_from "" s.

Definition cleanOperatorText (value : string) : string := String.concat " " (Fields (TrimSpace value)).
Definition normalizeOperatorAddress (value : string) : string := ToLower (TrimSpace value).

Definition NormalizeBinaryOutcome (value : string) : string * bool :=
  let outcome := ToUpper (cleanOperatorText value) in
  if String.eqb outcome "YES" || String.eqb outcome "NO" then (outcome, true) else ("", false).

(** ** Messages *)

Module OperatorAction.
Record t := mk { WalletAddress : string; RequestedAt : Z; Signature : string }.
End OperatorAction.

Definition operatorWalletAddress (operator : option OperatorAction.t) : string :=
  from_option OperatorAction.WalletAddress "" operator.
Definition operatorRequestedAt (operator : option OperatorAction.t) : Z :=
  from_option OperatorAction.RequestedAt 0 operator.

Definition operator_header : string := "FunnyOption Operator Authorization" +:+ newline +:+ newline.

Definition ResolveOperatorMessage (operator : option OperatorAction.t) (outcome : string) (marketID : Z) : string :=
  operator_header +:+ line "action: " "RESOLVE_MARKET"
    (line "wallet: " (normalizeOperatorAddress (operatorWalletAddress operator))
      (line "market_id: " (itoa marketID)
        (line "outcome: " (ToUpper (cleanOperatorText outcome))
          (line "requested_at: " (itoa (operatorRequestedAt operator)) "")))).

Definition buildBootstrapOperatorMessage (walletAddress : string) (marketID userID quantity : Z) (outcome : string)
    (price requestedAt : Z) : string :=
  operator_header +:+ line "action: " "ISSUE_FIRST_LIQUIDITY"
    (line "wallet: " (normalizeOperatorAddress walletAddress)
      (line "market_id: " (itoa marketID)
        (line "user_id: " (itoa userID)
          (line "quantity: " (itoa quantity)
            (line "outcome: " (ToUpper (cleanOperatorText outcome))
              (line "price: " (itoa price)
                (line "requested_at: " (itoa requestedAt) ""))))))).

Definition buildBootstrapSemanticKey (marketID userID quantity : Z) (outcome : string) (price : Z) : string :=
  let '(normalizedOutcome, ok) := NormalizeBinaryOutcome outcome in
  let normalizedOutcome := if ok then normalizedOutcome else ToUpper (cleanOperatorText outcome) in
  "bootstrap-order:" +:+ itoa marketID +:+ ":" +:+ itoa userID +:+ ":" +:+ itoa quantity +:+ ":" +:+
    normalizedOutcome +:+ ":" +:+ itoa price.

Definition buildBootstrapOrderID (sha256 : string → string) (semanticKey : string) : string :=
  "ord_bootstrap_" +:+ EncodeToString (String.substring 0 16 (sha256 semanticKey)).

(** ** Checks ([handler/operator_auth.go]) *)

Module verifiedOperatorAction.
Record t := mk { WalletAddress : string; RequestedAt : Z }.
End verifiedOperatorAction.

(** 5 minutes. *)
Definition operatorSignatureWindow : Z := 300000.

Definition normalizeOperatorWalletSet (wallets : list string) : list string :=
  filter (λ w, w ≠ "") (NormalizeHex <$> wallets).

Definition privilegedOperatorUserID (operatorUserID : Z) : Z :=
  if 0 <? operatorUserID then operatorUserID else 1001.

Definition requirePrivilegedOperator (recover : string → string → result string string)
    (operatorWallets : list string) (now : Z) (operator : option OperatorAction.t) (message : string)
    : result HttpError verifiedOperatorAction.t :=
  match operatorWallets with
  | [] => Err (403, "operator wallets are not configured for privileged actions")
  | _ =>
      match operator with
      | None => Err (401, "operator proof is required for privileged actions")
      | Some op =>
          let walletAddress := NormalizeHex (OperatorAction.WalletAddress op) in
          let signature := TrimSpace (OperatorAction.Signature op) in
          if String.eqb walletAddress "" || String.eqb signature "" || (OperatorAction.RequestedAt op <=? 0)
          then Err (400, "operator wallet, signature, and requested_at are required")
          else if operatorSignatureWindow <? Z.abs (now ⊟ OperatorAction.RequestedAt op)
          then Err (401, "operator signature expired")
          else
            match recover message signature with
            | Err _ => Err (401, "invalid operator signature")
            | Ok recoveredWallet =>
                if negb (String.eqb recoveredWallet walletAddress)
                then Err (401, "operator signature does not match wallet")
                else if bool_decide (recoveredWallet ∈ operatorWallets)
                then Ok (verifiedOperatorAction.mk recoveredWallet (OperatorAction.RequestedAt op))
                else Err (403, "wallet is not authorized for operator actions")
            end
      end
  end.

(** ** Guards ([middleware.go]) *)

Module tradeWriteEnvelope.
Record t := mk {
  UserID : Z;
  SessionID : string;
  SessionSignature : string;
  RequestedAtMillis : Z;
  Operator : option OperatorAction.t;
}.
End tradeWriteEnvelope.

Definition blank (s : string) : bool := String.eqb (TrimSpace s) "".

Definition operator_incomplete (op : OperatorAction.t) : bool :=
  blank (OperatorAction.WalletAddress op) || blank (OperatorAction.Signature op) ||
  (OperatorAction.RequestedAt op <=? 0).

Definition requireTradeWriteBoundary (payload : tradeWriteEnvelope.t) : option HttpError :=
  let sessionID := tradeWriteEnvelope.SessionID payload in
  let signature := tradeWriteEnvelope.SessionSignature payload in
  if negb (blank sessionID) || negb (blank signature) then
    if blank sessionID || blank signature || (tradeWriteEnvelope.RequestedAtMillis payload <=? 0)
    then Some (401, "trading-key-backed trade authorization is required") else None
  else
    match tradeWriteEnvelope.Operator payload with
    | Some op => if operator_incomplete op then Some (400, "operator wallet, signature, and requested_at are required")
                 else None
    | None => Some (401, "trading-key-backed trade authorization or operator proof is required")
    end.

Definition requireOperatorProofEnvelope (operator : option OperatorAction.t) : option HttpError :=
  match operator with
  | None => Some (401, "operator proof is required for privileged actions")
  | Some op => if operator_incomplete op then Some (400, "operator wallet, signature, and requested_at are required")
               else None
  end.

(** [strings.TrimPrefix(s, "Bearer ")]. *)
Definition bearer (header : string) : option string :=
  let header := TrimSpace header in
  if String.prefix "Bearer " header
  then Some (TrimSpace (String.substring 7 (String.length header - 7) header)) else None.

(** [LookupActiveSession] and [requireSessionAuth]: the user the request acts for. *)
Definition LookupActiveSession (d : AuthDB) (sessionID : string) : result string Z :=
  match GetSession d sessionID with
  | Err _ => Err "not found"
  | Ok s => if negb (String.eqb (SessionResponse.Status s) "ACTIVE") then Err "session is not active"
            else Ok (SessionResponse.UserID s)
  end.

Definition requireSessionAuth (d : AuthDB) (authHeader : string) : result HttpError Z :=
  match bearer authHeader with
  | None => Err (401, "authorization required")
  | Some sessionID =>
      if String.eqb sessionID "" then Err (401, "authorization required")
      else
        match LookupActiveSession d sessionID with
        | Err _ => Err (401, "invalid or expired session")
        | Ok userID => if userID <=? 0 then Err (401, "invalid or expired session") else Ok userID
        end
  end.

(** The [user_id] the handlers read: the query's, or the authenticated one. *)
Definition enforceUserScope (authUserID : Z) (query : string) : result HttpError Z :=
  let qUserID := TrimSpace query in
  if String.eqb qUserID "" then Ok authUserID
  else
    match ParseInt qUserID with
    | Some parsed => if parsed =? authUserID then Ok parsed else Err (403, "access denied")
    | None => Err (403, "access denied")
    end.
