(* ===== verification/ApiHandlers.v ===== *)
(** * API: trading-key and order handlers

    [api/handler/order_handler.go] with [bootstrap_replay.go] and [market_lifecycle.go]:
    sessions and trading keys, orders, the first liquidity of a market and its
    resolution.  A request is its decoded body; [binding:"required"] fields are checked
    by [missing].  The handler keeps the authorization tables ([SessionStore]) and the
    order service, whose account client, publisher and market store it shares.  The
    clocks are arguments, one for every place the code reads the time. *)

From Stdlib Require Import Ascii.
From S2P Require Import Prelude Strings Shared Messages MatchModel Auth RollupJournal RollupState.
From S2P Require Import OrderService SessionStore OperatorAuth.

Local Open Scope Z_scope.
Local Open Scope go_scope.

(** ** Requests and answers *)

Module CreateOrderRequest.
Record t := mk {
  ClientOrderID : string;
  TraceID : string;
  UserID : Z;
  SessionID : string;
  SessionSignature : string;
  Operator : option OperatorAction.t;
  OrderNonce : Z;
  RequestedAtMillis : Z;
  MarketID : Z;
  Outcome : string;
  Side : string;
  Type_ : string;
  TimeInForce : string;
  Price : Z;
  Quantity : Z;
}.

Definition BootstrapOperatorMessage (r : t) : string :=
  buildBootstrapOperatorMessage (operatorWalletAddress (Operator r)) (MarketID r) (UserID r) (Quantity r) (Outcome r)
    (Price r) (operatorRequestedAt (Operator r)).
Definition BootstrapSemanticKey (r : t) : string :=
  buildBootstrapSemanticKey (MarketID r) (UserID r) (Quantity r) (Outcome r) (Price r).
Definition BootstrapOrderID (sha256 : string → string) (r : t) : string :=
  buildBootstrapOrderID sha256 (BootstrapSemanticKey r).

Definition missing (r : t) : bool :=
  (MarketID r =? 0) || String.eqb (Outcome r) "" || String.eqb (Side r) "" || String.eqb (Type_ r) "" ||
  String.eqb (TimeInForce r) "" || (Quantity r =? 0).

Definition envelope (r : t) : tradeWriteEnvelope.t :=
  tradeWriteEnvelope.mk (UserID r) (SessionID r) (SessionSignature r) (RequestedAtMillis r) (Operator r).
End CreateOrderRequest.

Module CreateOrderResponse.
Record t := mk {
  CommandID : string;
  OrderID : string;
  FreezeID : string;
  Asset : string;
  Amount : Z;
  Status : string;
}.
End CreateOrderResponse.

Module CreateFirstLiquidityRequest.
Record t := mk { UserID : Z; Quantity : Z; Outcome : string; Price : Z; Operator : option OperatorAction.t }.

Definition OperatorMessage (r : t) (marketID : Z) : string :=
  buildBootstrapOperatorMessage (operatorWalletAddress (Operator r)) marketID (UserID r) (Quantity r) (Outcome r)
    (Price r) (operatorRequestedAt (Operator r)).
Definition BootstrapOrderID (sha256 : string → string) (r : t) (marketID : Z) : string :=
  buildBootstrapOrderID sha256 (buildBootstrapSemanticKey marketID (UserID r) (Quantity r) (Outcome r) (Price r)).
End CreateFirstLiquidityRequest.

Module CreateFirstLiquidityResponse.
Record t := mk {
  FirstLiquidityID : string;
  MarketID : Z;
  UserID : Z;
  CollateralAsset : string;
  CollateralDebit : Z;
  Inventory : list InventoryItem.t;
  OrderID : string;
}.
End CreateFirstLiquidityResponse.

Module issuedFirstLiquidityInventory.
Record t := mk {
  Outcome : string;
  PositionAsset : string;
  Quantity : Z;
  Credited : bool;
  EventPublished : bool;
}.
End issuedFirstLiquidityInventory.

Module ResolveMarketRequest.
Record t := mk { Outcome : string; Operator : option OperatorAction.t }.
End ResolveMarketRequest.

(** [dto.MarketResponse] by the fields the handlers read. *)
Module MarketResponse.
Record t := mk {
  Status : string;
  CloseAt : Z;
  ResolveAt : Z;
  CollateralAsset : string;
  OracleResolution : bool;  (* [marketUsesOracleResolution] of its metadata *)
  CreatedBy : Z;
  Title : string;
}.
End MarketResponse.

(** ** The market's status ([market_lifecycle.go]) *)

Definition normalizeLifecycleMarketStatus (status : string) : string :=
  let normalized := normalize_upper status in
  if bool_decide (normalized ∈ ["DRAFT"; "PAUSED"; "CLOSED"; "WAITING_RESOLUTION"; "RESOLVED"; "PENDING_REVIEW";
                                "REJECTED"])
  then normalized else "OPEN".

Definition effectiveMarketStatusAt (status : string) (closeAt resolveAt nowUnix : Z) (oracle : bool) : string :=
  let normalized := normalizeLifecycleMarketStatus status in
  if negb (String.eqb normalized "OPEN") then normalized
  else if (closeAt <=? 0) || (nowUnix <? closeAt) then "OPEN"
  else if oracle then "CLOSED"
  else if (resolveAt <=? 0) || (resolveAt <=? nowUnix) then "WAITING_RESOLUTION"
  else "CLOSED".

Definition effective_status (m : MarketResponse.t) (nowUnix : Z) : string :=
  effectiveMarketStatusAt (MarketResponse.Status m) (MarketResponse.CloseAt m) (MarketResponse.ResolveAt m) nowUnix
    (MarketResponse.OracleResolution m).

Definition isTradableMarket (m : MarketResponse.t) (nowUnix : Z) : bool := String.eqb (effective_status m nowUnix) "OPEN".

(** ** What the handlers read of the store beside the authorization tables *)

Class ApiStore (M : Type) := {
  LoadMarket : M → Z → result StoreError MarketResponse.t;
  LoadOrder : M → string → result StoreError ();
  LoadFreezeStatus : M → string → string → result StoreError string;
  LoadFrozen : M → result StoreError bool;
}.

Section handlers.
Context {A M P : Type} `{!AccountClient A, !MarketStore M, !ApiStore M, !Publisher P}.
Context (sha256 : string → string) (Ed25519Verify : string → string → string → bool).
Context (hexutil_Decode : string → option string) (IsHexAddress : string → bool).
Context (TextHash : string → string) (TypedDataAndHash : TypedData.t → result string string).
Context (SigToAddress : string → string → result string string).
Context `{!JSON NonceAdvancedPayload.t, !JSON TradingKeyAuthorizationWitness.t}.
Context (fresh : string → nat → string) (fresh_entry : nat → string).
(** The configuration: operator wallets, target chain, whether there is a rollup store. *)
Context (operatorWallets : list string) (expectedChainID : Z) (rollup : bool).

Record OrderHandler := mkHandler { auth : AuthDB; svc : Service A M P }.

Definition set_auth (h : OrderHandler) (d : AuthDB) : OrderHandler := mkHandler d (svc h).
Definition set_svc (h : OrderHandler) (s : Service A M P) : OrderHandler := mkHandler (auth h) s.

Definition recover : string → string → result string string :=
  RecoverPersonalSignAddress hexutil_Decode TextHash SigToAddress.

Definition validateTradingKeyDomain (chainID : Z) : option string :=
  if negb (chainID =? expectedChainID) then Some "chain_id does not match target chain" else None.

(** ** Trading keys and sessions *)

(** [challengeBytes] are the 32 random bytes, [challengeID] the drawn identifier. *)
Definition CreateTradingKeyChallenge (now : Z) (challengeID challengeBytes : string) (h : OrderHandler)
    (walletAddress : string) (chainID : Z) (vaultAddress : string)
    : OrderHandler * result HttpError TradingKeyChallengeResponse.t :=
  if String.eqb walletAddress "" || (chainID =? 0) || String.eqb vaultAddress "" then (h, Err (400, "binding"))
  else if expectedChainID <=? 0 then (h, Err (500, "trading key auth is not configured"))
  else
    let wallet := NormalizeHex walletAddress in
    let vault := NormalizeHex vaultAddress in
    if negb (IsHexAddress wallet) then (h, Err (400, "wallet_address is invalid"))
    else
      match validateTradingKeyDomain chainID with
      | Some e => (h, Err (400, e))
      | None =>
          match SessionStore.CreateTradingKeyChallenge (auth h)
                  (CreateTradingKeyChallengeRequest.mk challengeID (hex_text challengeBytes) (now ⊞ 300000)
                     wallet chainID vault) with
          | (d, Err _) => (set_auth h d, Err (502, "create trading key challenge failed"))
          | (d, Ok item) => (set_auth h d, Ok item)
          end
      end.

(** The request with the fields of the normalised authorization. *)
Definition normalized_registration (req : RegisterTradingKeyRequest.t) : RegisterTradingKeyRequest.t :=
  let authz := authorization_of req in
  let n := TradingKeyAuthorization.Normalize authz in
  RegisterTradingKeyRequest.mk (TradingKeyAuthorization.TradingKeyID sha256 authz)
    (RegisterTradingKeyRequest.UserID req) (TradingKeyAuthorization.WalletAddress n)
    (RegisterTradingKeyRequest.ChainID req) (TradingKeyAuthorization.VaultAddress n)
    (RegisterTradingKeyRequest.ChallengeID req) (TradingKeyAuthorization.Challenge n)
    (RegisterTradingKeyRequest.ChallengeExpiresAtMillis req) (TradingKeyAuthorization.TradingPublicKey n)
    (TradingKeyAuthorization.TradingKeyScheme n) (TradingKeyAuthorization.Scope n)
    (RegisterTradingKeyRequest.KeyExpiresAtMillis req) DefaultWalletSignatureStandard
    (RegisterTradingKeyRequest.WalletSignature req).

Definition register_missing (r : RegisterTradingKeyRequest.t) : bool :=
  String.eqb (RegisterTradingKeyRequest.WalletAddress r) "" || (RegisterTradingKeyRequest.ChainID r =? 0) ||
  String.eqb (RegisterTradingKeyRequest.VaultAddress r) "" || String.eqb (RegisterTradingKeyRequest.ChallengeID r) "" ||
  String.eqb (RegisterTradingKeyRequest.Challenge r) "" ||
  (RegisterTradingKeyRequest.ChallengeExpiresAtMillis r =? 0) ||
  String.eqb (RegisterTradingKeyRequest.TradingPublicKey r) "" ||
  String.eqb (RegisterTradingKeyRequest.TradingKeyScheme r) "" ||
  String.eqb (RegisterTradingKeyRequest.WalletSignatureStandard r) "" ||
  String.eqb (RegisterTradingKeyRequest.WalletSignature r) "".

(** [now] is read by the handler, [now'] and [dbnow] by the store. *)
Definition RegisterTradingKey (now now' dbnow : Z) (h : OrderHandler) (req : RegisterTradingKeyRequest.t)
    : OrderHandler * result HttpError SessionResponse.t :=
  if register_missing req then (h, Err (400, "binding"))
  else if expectedChainID <=? 0 then (h, Err (500, "trading key auth is not configured"))
  else if negb (String.eqb (normalize_upper (RegisterTradingKeyRequest.WalletSignatureStandard req))
                  DefaultWalletSignatureStandard)
  then (h, Err (400, "wallet_signature_standard must be EIP712_V4"))
  else
    let authz := authorization_of req in
    match ValidateTradingKeyAuthorization hexutil_Decode IsHexAddress authz now with
    | Some e => (h, Err (400, e))
    | None =>
        match validateTradingKeyDomain (TradingKeyAuthorization.ChainID (TradingKeyAuthorization.Normalize authz)) with
        | Some e => (h, Err (400, e))
        | None =>
            match VerifyTradingKeyAuthorizationSignature hexutil_Decode TypedDataAndHash SigToAddress authz
                    (RegisterTradingKeyRequest.WalletSignature req) with
            | Err e => (h, Err (400, e))
            | Ok _ =>
                match SessionStore.RegisterTradingKey TypedDataAndHash fresh_entry rollup now' dbnow (auth h)
                        (normalized_registration req) with
                | (d, Ok session) => (set_auth h d, Ok session)
                | (d, Err e) =>
                    (set_auth h d,
                     Err match e with
                         | ErrTradingKeyChallengeConsumed => (409, "trading key challenge already used")
                         | ErrTradingKeyChallengeExpired => (410, "trading key challenge expired")
                         | ErrNotFound => (400, "trading key challenge is invalid")
                         | _ => (502, "register trading key failed")
                         end)
                end
            end
        end
    end.

Definition grant_of (req : CreateSessionRequest.t) : SessionGrant.t :=
  SessionGrant.mk (CreateSessionRequest.WalletAddress req) (CreateSessionRequest.SessionPublicKey req)
    (CreateSessionRequest.Scope req) (CreateSessionRequest.ChainID req) (CreateSessionRequest.Nonce req)
    (CreateSessionRequest.IssuedAtMillis req) (CreateSessionRequest.ExpiresAtMillis req).

Definition session_missing (r : CreateSessionRequest.t) : bool :=
  (CreateSessionRequest.UserID r =? 0) || String.eqb (CreateSessionRequest.WalletAddress r) "" ||
  String.eqb (CreateSessionRequest.SessionPublicKey r) "" || (CreateSessionRequest.ChainID r =? 0) ||
  String.eqb (CreateSessionRequest.Nonce r) "" || (CreateSessionRequest.IssuedAtMillis r =? 0) ||
  (CreateSessionRequest.ExpiresAtMillis r =? 0) || String.eqb (CreateSessionRequest.WalletSignature r) "".

Definition CreateSession (now dbnow : Z) (h : OrderHandler) (req : CreateSessionRequest.t)
    : OrderHandler * result HttpError SessionResponse.t :=
  if session_missing req then (h, Err (400, "binding"))
  else if CreateSessionRequest.UserID req <=? 0 then (h, Err (400, "user_id must be positive"))
  else
    let grant := grant_of req in
    match SessionGrant.Validate grant now with
    | Some e => (h, Err (400, e))
    | None =>
        match VerifyGrantSignature hexutil_Decode TextHash SigToAddress grant
                (CreateSessionRequest.WalletSignature req) with
        | Err e => (h, Err (400, e))
        | Ok _ =>
            let n := SessionGrant.Normalize grant in
            match SessionStore.CreateSession dbnow (auth h)
                    (CreateSessionRequest.mk (SessionGrant.SessionID sha256 grant) (CreateSessionRequest.UserID req)
                       (SessionGrant.WalletAddress n) (SessionGrant.SessionPublicKey n) (SessionGrant.Scope n)
                       (CreateSessionRequest.ChainID req) (SessionGrant.Nonce n)
                       (CreateSessionRequest.IssuedAtMillis req) (CreateSessionRequest.ExpiresAtMillis req)
                       (CreateSessionRequest.WalletSignature req)) with
            | (d, Err _) => (set_auth h d, Err (502, "create session failed"))
            | (d, Ok session) => (set_auth h d, Ok session)
            end
        end
    end.

Definition RevokeSession (dbnow : Z) (h : OrderHandler) (sessionID : string)
    : OrderHandler * result HttpError SessionResponse.t :=
  let sessionID := TrimSpace sessionID in
  if String.eqb sessionID "" then (h, Err (400, "session_id is required"))
  else
    match SessionStore.RevokeSession dbnow (auth h) sessionID with
    | (d, Err ErrNotFound) => (set_auth h d, Err (404, "session not found"))
    | (d, Err _) => (set_auth h d, Err (502, "revoke session failed"))
    | (d, Ok item) => (set_auth h d, Ok item)
    end.

Definition UpdateProfile (now dbnow : Z) (h : OrderHandler) (req : UpdateUserProfileRequest.t)
    : OrderHandler * result HttpError UserProfileResponse.t :=
  if (UpdateUserProfileRequest.UserID req =? 0) || String.eqb (UpdateUserProfileRequest.SessionID req) "" ||
     String.eqb (UpdateUserProfileRequest.AvatarPreset req) "" then (h, Err (400, "binding"))
  else
    let '(preset, ok) := NormalizeAvatarPreset (UpdateUserProfileRequest.AvatarPreset req) in
    if negb ok then (h, Err (400, "avatar_preset is invalid"))
    else
      match GetSession (auth h) (UpdateUserProfileRequest.SessionID req) with
      | Err ErrNotFound => (h, Err (401, "active session is required"))
      | Err _ => (h, Err (502, "profile update failed"))
      | Ok session =>
          if negb (SessionResponse.UserID session =? UpdateUserProfileRequest.UserID req) ||
             negb (String.eqb (ToUpper (SessionResponse.Status session)) "ACTIVE")
          then (h, Err (401, "active session is required"))
          else if (0 <? SessionResponse.ExpiresAtMillis session) && (SessionResponse.ExpiresAtMillis session <? now)
          then (h, Err (401, "session is expired"))
          else
            match UpsertUserProfile dbnow (auth h)
                    (UpdateUserProfileRequest.mk (UpdateUserProfileRequest.UserID req)
                       (UpdateUserProfileRequest.SessionID req)
                       (NormalizeUserDisplayName (UpdateUserProfileRequest.DisplayName req)) preset)
                    (SessionResponse.WalletAddress session) with
            | (d, Err _) => (set_auth h d, Err (502, "profile update failed"))
            | (d, Ok item) => (set_auth h d, Ok item)
            end
      end.

(** ** Orders *)

Definition writeOrderServiceError (e : OrderError) : HttpError :=
  match e with
  | ErrMarketNotFound _ => (404, "market not found")
  | ErrMarketNotTradable => (409, "market is not tradable")
  | ErrRollupFrozen => (409, "rollup is frozen")
  | ErrInsufficientFunds m => (409, m)
  | ErrValidationFailed m => (400, m)
  | ErrPublishFailed _ => (502, "publish order command failed")
  | ErrOther m => (502, m)
  end.

(** Whether an order of this identifier was accepted before ([bootstrap_replay.go]). *)
Definition bootstrapOrderAlreadyAccepted (store : M) (orderID : string) : result StoreError bool :=
  match LoadOrder store orderID with
  | Ok _ => Ok true
  | Err ErrNotFound =>
      match LoadFreezeStatus store "ORDER" orderID with
      | Err ErrNotFound => Ok false
      | Err e => Err e
      | Ok status =>
          let status := normalize_upper status in
          Ok (negb (String.eqb status "" || String.eqb status "RELEASED"))
      end
  | Err e => Err e
  end.

(** The terms that are executed: a market order is an immediate order at 100. *)
Record Terms := mkTerms { t_outcome : string; t_side : string; t_type : string; t_tif : string; t_price : Z }.

Definition order_terms (req : CreateOrderRequest.t) : result HttpError Terms :=
  let outcome := normalize_upper (CreateOrderRequest.Outcome req) in
  let side := normalize_upper (CreateOrderRequest.Side req) in
  let orderType := normalize_upper (CreateOrderRequest.Type_ req) in
  let tif := normalize_upper (CreateOrderRequest.TimeInForce req) in
  if String.eqb orderType "LIMIT" then Ok (mkTerms outcome side orderType tif (CreateOrderRequest.Price req))
  else if String.eqb orderType "MARKET" then Ok (mkTerms outcome side orderType "IOC" 100)
  else Err (400, "order type must be LIMIT or MARKET").

Definition intent_for (session : SessionResponse.t) (req : CreateOrderRequest.t) (t : Terms) : OrderIntent.t :=
  OrderIntent.mk (SessionResponse.SessionID session) (SessionResponse.WalletAddress session)
    (SessionResponse.UserID session) (CreateOrderRequest.MarketID req) (t_outcome t) (t_side t) (t_type t) (t_tif t)
    (t_price t) (CreateOrderRequest.Quantity req) (TrimSpace (CreateOrderRequest.ClientOrderID req))
    (CreateOrderRequest.OrderNonce req) (CreateOrderRequest.RequestedAtMillis req).

(** The session lane: the user the order is for, its nonce consumed. *)
Definition authorize_by_session (now now' : Z) (d : AuthDB) (req : CreateOrderRequest.t) (t : Terms)
    : AuthDB * result HttpError Z :=
  if CreateOrderRequest.RequestedAtMillis req <=? 0
  then (d, Err (400, "requested_at is required for trading-key orders"))
  else
    match GetSession d (CreateOrderRequest.SessionID req) with
    | Err ErrNotFound => (d, Err (404, "trading key not found"))
    | Err _ => (d, Err (502, "get trading key failed"))
    | Ok session =>
        if negb (String.eqb (SessionResponse.Status session) "ACTIVE") then (d, Err (409, "trading key is not active"))
        else if (0 <? SessionResponse.ExpiresAtMillis session) && (SessionResponse.ExpiresAtMillis session <? now)
        then (d, Err (409, "trading key expired"))
        else if (0 <? CreateOrderRequest.UserID req) &&
                negb (CreateOrderRequest.UserID req =? SessionResponse.UserID session)
        then (d, Err (400, "user_id does not match trading key"))
        else
          let intent := intent_for session req t in
          match OrderIntent.Validate intent now with
          | Some e => (d, Err (400, e))
          | None =>
              match VerifyOrderIntentSignature Ed25519Verify hexutil_Decode intent
                      (SessionResponse.SessionPublicKey session) (CreateOrderRequest.SessionSignature req) with
              | Some e => (d, Err (400, e))
              | None =>
                  match AdvanceSessionNonce fresh_entry rollup now' d
                          (AdvanceSessionNonceRequest.mk (SessionResponse.SessionID session)
                             (CreateOrderRequest.OrderNonce req)
                             (Some (BuildOrderAuthorizationWitness sha256 (SessionResponse.UserID session)
                                      (authorizedTradingKeyFromSession session) intent
                                      (CreateOrderRequest.SessionSignature req)))) with
                  | (d, Err ErrSessionNonceConflict) => (d, Err (409, "trading key nonce conflict"))
                  | (d, Err ErrNotFound) => (d, Err (404, "trading key not found"))
                  | (d, Err _) => (d, Err (502, "advance trading key nonce failed"))
                  | (d, Ok _) => (d, Ok (SessionResponse.UserID session))
                  end
              end
          end
    end.

(** The operator lane: the identifier of the order and the time it was requested. *)
Definition authorize_by_operator (now : Z) (store : M) (req : CreateOrderRequest.t) (t : Terms)
    : result HttpError (string * Z) :=
  if CreateOrderRequest.UserID req <=? 0
  then Err (400, "user_id is required for operator-authenticated bootstrap orders")
  else if negb (String.eqb (t_side t) "SELL") || negb (String.eqb (t_type t) "LIMIT") || negb (String.eqb (t_tif t) "GTC")
  then Err (400, "operator-authenticated orders only support bootstrap sell limit GTC orders")
  else if (0 <? CreateOrderRequest.RequestedAtMillis req) &&
          negb (CreateOrderRequest.RequestedAtMillis req =? operatorRequestedAt (CreateOrderRequest.Operator req))
  then Err (400, "requested_at must match operator.requested_at")
  else
    operator ← requirePrivilegedOperator recover operatorWallets now (CreateOrderRequest.Operator req)
                 (CreateOrderRequest.BootstrapOperatorMessage req);
    let orderID := CreateOrderRequest.BootstrapOrderID sha256 req in
    match bootstrapOrderAlreadyAccepted store orderID with
    | Err _ => Err (502, "check bootstrap order uniqueness failed")
    | Ok true => Err (409, "operator bootstrap order already accepted")
    | Ok false => Ok (orderID, verifiedOperatorAction.RequestedAt operator)
    end.

Definition submit_request (req : CreateOrderRequest.t) (t : Terms) (userID : Z) (orderID : string) (requestedAt : Z)
    : SubmitRequest.t :=
  SubmitRequest.mk userID (CreateOrderRequest.MarketID req) (t_outcome t) (t_side t) (t_type t) (t_tif t) (t_price t)
    (CreateOrderRequest.Quantity req) (TrimSpace (CreateOrderRequest.TraceID req))
    (TrimSpace (CreateOrderRequest.ClientOrderID req)) requestedAt orderID.

Definition submit (nowUnix : Z) (h : OrderHandler) (r : SubmitRequest.t)
    : OrderHandler * result HttpError CreateOrderResponse.t :=
  if SubmitRequest.UserID r <=? 0 then (h, Err (400, "user_id or trading key id is required"))
  else
    match SubmitOrder fresh nowUnix (svc h) r with
    | (s, Err e) => (set_svc h s, Err (writeOrderServiceError e))
    | (s, Ok res) =>
        (set_svc h s, Ok (CreateOrderResponse.mk (SubmitResult.CommandID res) (SubmitResult.OrderID res)
                            (SubmitResult.FreezeID res) (SubmitResult.Asset res) (SubmitResult.Amount res) "QUEUED"))
    end.

(** The handler; the bootstrap lock serialises orders with the same terms. *)
Definition CreateOrder (now now' nowUnix : Z) (h : OrderHandler) (req : CreateOrderRequest.t)
    : OrderHandler * result HttpError CreateOrderResponse.t :=
  if CreateOrderRequest.missing req then (h, Err (400, "binding"))
  else if (CreateOrderRequest.MarketID req <=? 0) || (CreateOrderRequest.Quantity req <=? 0)
  then (h, Err (400, "market_id and quantity must be positive"))
  else
    let '(s, orderID) := NewID fresh (svc h) "ord" in
    let h := set_svc h s in
    match order_terms req with
    | Err e => (h, Err e)
    | Ok t =>
        if negb (blank (CreateOrderRequest.SessionID req)) then
          match authorize_by_session now now' (auth h) req t with
          | (d, Err e) => (set_auth h d, Err e)
          | (d, Ok userID) =>
              submit nowUnix (set_auth h d)
                (submit_request req t userID orderID (CreateOrderRequest.RequestedAtMillis req))
          end
        else
          match CreateOrderRequest.Operator req with
          | None => (h, Err (401, "trading-key-backed trade authorization or operator proof is required"))
          | Some _ =>
              match authorize_by_operator now' (store (svc h)) req t with
              | Err e => (h, Err e)
              | Ok (orderID, requestedAt) =>
                  submit nowUnix h (submit_request req t (CreateOrderRequest.UserID req) orderID requestedAt)
              end
          end
    end.

(** [POST /orders]. *)
Definition post_order (now now' nowUnix : Z) (h : OrderHandler) (req : CreateOrderRequest.t)
    : OrderHandler * result HttpError CreateOrderResponse.t :=
  match requireTradeWriteBoundary (CreateOrderRequest.envelope req) with
  | Some e => (h, Err e)
  | None => CreateOrder now now' nowUnix h req
  end.

(** ** First liquidity *)

Definition requireRollupNotFrozen (store : M) : option HttpError :=
  match LoadFrozen store with
  | Err ErrNotFound => None
  | Err _ => Some (502, "get rollup freeze state failed")
  | Ok true => Some (409, "rollup is frozen")
  | Ok false => None
  end.

Definition firstLiquidityCollateralRef (id : string) : string := TrimSpace id +:+ ":collateral".
Definition firstLiquidityCollateralRollbackRef (id : string) : string := TrimSpace id +:+ ":collateral:rollback".
Definition firstLiquidityPositionRef (id outcome : string) : string := TrimSpace id +:+ ":" +:+ normalize_upper outcome.
Definition firstLiquidityPositionRollbackRef (id outcome : string) : string :=
  firstLiquidityPositionRef id outcome +:+ ":rollback".
Definition firstLiquidityRollbackTradeRef (id outcome : string) : string :=
  TrimSpace id +:+ ":rollback:" +:+ normalize_upper outcome.

(** The part between the first and the second colon, if there is a second. *)
Definition marketIDFromPositionAsset (asset : string) : Z :=
  match split_colon (normalize_upper asset) with
  | Some (_, rest) =>
      match split_colon rest with
      | Some (id, _) => default 0 (ParseInt id)
      | None => 0
      end
  | None => 0
  end.

Definition position_event (s : Service A M P) (traceID tradeID : string) (userID marketID : Z)
    (i : issuedFirstLiquidityInventory.t) (delta nowMillis : Z) : Service A M P * option string :=
  let '(s, id) := NewID fresh s "evt_pos" in
  let '(p, err) := PublishJSON (publisher s) TopicPositionChange
    (itoa marketID +:+ ":" +:+ issuedFirstLiquidityInventory.Outcome i)
    (PayloadPosition (PositionChangedEvent.mk id traceID tradeID userID marketID
       (issuedFirstLiquidityInventory.Outcome i) (issuedFirstLiquidityInventory.PositionAsset i) delta nowMillis)) in
  (set_publisher s p, err).

(** One inventory is taken back; failures are only logged. *)
Definition rollback_item (nowMillis : Z) (id : string) (userID : Z) (s : Service A M P)
    (i : issuedFirstLiquidityInventory.t) : Service A M P :=
  let outcome := issuedFirstLiquidityInventory.Outcome i in
  let asset := issuedFirstLiquidityInventory.PositionAsset i in
  let s :=
    if issuedFirstLiquidityInventory.Credited i
    then set_account s (DebitBalance (account s) userID asset (issuedFirstLiquidityInventory.Quantity i)
           "FIRST_LIQUIDITY_POSITION_ROLLBACK" (firstLiquidityPositionRollbackRef id outcome)).1
    else s in
  if issuedFirstLiquidityInventory.EventPublished i
  then (position_event s id (firstLiquidityRollbackTradeRef id outcome) userID (marketIDFromPositionAsset asset) i
          (wrap64 (- issuedFirstLiquidityInventory.Quantity i)) nowMillis).1
  else s.

Definition rollbackFirstLiquidity (nowMillis : Z) (id : string) (userID : Z) (collateralAsset : string)
    (collateralAmount : Z) (issued : list issuedFirstLiquidityInventory.t) (s : Service A M P) : Service A M P :=
  let s := fold_left (rollback_item nowMillis id userID) (rev issued) s in
  if collateralAmount <=? 0 then s
  else set_account s (CreditBalance (account s) userID collateralAsset collateralAmount
         "FIRST_LIQUIDITY_COLLATERAL_ROLLBACK" (firstLiquidityCollateralRollbackRef id)).1.

(** Both outcomes are credited and announced in order; what was done before a failure
    comes back with it. *)
Fixpoint issue_inventory (nowMillis : Z) (id : string) (userID marketID : Z) (s : Service A M P)
    (before todo : list issuedFirstLiquidityInventory.t)
    : Service A M P * result (HttpError * list issuedFirstLiquidityInventory.t) (list issuedFirstLiquidityInventory.t) :=
  match todo with
  | [] => (s, Ok before)
  | i :: todo =>
      let mark credited published :=
        issuedFirstLiquidityInventory.mk (issuedFirstLiquidityInventory.Outcome i)
          (issuedFirstLiquidityInventory.PositionAsset i) (issuedFirstLiquidityInventory.Quantity i)
          credited published in
      let '(a, res) := CreditBalance (account s) userID (issuedFirstLiquidityInventory.PositionAsset i)
        (issuedFirstLiquidityInventory.Quantity i) "FIRST_LIQUIDITY_POSITION"
        (firstLiquidityPositionRef id (issuedFirstLiquidityInventory.Outcome i)) in
      let s := set_account s a in
      match res with
      | Err _ => (s, Err ((502, "credit first-liquidity inventory failed"), before ++ i :: todo))
      | Ok false => (s, Err ((409, "first-liquidity inventory credit was not applied"), before ++ i :: todo))
      | Ok true =>
          let '(s, err) := position_event s id id userID marketID i (issuedFirstLiquidityInventory.Quantity i) nowMillis in
          match err with
          | Some _ => (s, Err ((502, "publish first-liquidity position event failed"), before ++ mark true false :: todo))
          | None => issue_inventory nowMillis id userID marketID s (before ++ [mark true true]) todo
          end
      end
  end.

(** The order of the seeded outcome; a refused publication releases its freeze. *)
Definition bootstrap_order (s : Service A M P) (id commandID orderID : string) (marketID : Z) (collateralAsset : string)
    (req : CreateFirstLiquidityRequest.t) (requestedAt : Z) : Service A M P * option HttpError :=
  let outcome := CreateFirstLiquidityRequest.Outcome req in
  let userID := CreateFirstLiquidityRequest.UserID req in
  let quantity := CreateFirstLiquidityRequest.Quantity req in
  let '(a, frz) := PreFreeze (account s)
    (FreezeRequest.mk userID (PositionAsset marketID outcome) "ORDER" orderID quantity) in
  let s := set_account s a in
  match frz with
  | Err e => (s, Some (if looksLikeInsufficientBalance e then 409 else 502, e))
  | Ok record =>
      let command := OrderCommand.mk commandID id orderID "" (FreezeRecord.FreezeID record) (FreezeRecord.Asset record)
        (FreezeRecord.Amount record) collateralAsset userID marketID outcome "" "SELL" "LIMIT" "GTC" ""
        (CreateFirstLiquidityRequest.Price req) quantity requestedAt in
      let '(p, err) := PublishJSON (publisher s) TopicOrderCommand (itoa marketID +:+ ":" +:+ outcome)
                         (PayloadCommand command) in
      let s := set_publisher s p in
      match err with
      | None => (s, None)
      | Some _ => (set_account s (ReleaseFreeze (account s) (FreezeRecord.FreezeID record)).1,
                   Some (502, "publish first-liquidity bootstrap order failed"))
      end
  end.

Definition to_issue (marketID quantity : Z) : list issuedFirstLiquidityInventory.t :=
  [issuedFirstLiquidityInventory.mk "YES" (PositionAsset marketID "YES") quantity false false;
   issuedFirstLiquidityInventory.mk "NO" (PositionAsset marketID "NO") quantity false false].

(** Past the checks: collateral, inventory, order; whatever fails is rolled back. *)
Definition issue_first_liquidity (nowMillis : Z) (s : Service A M P) (marketID : Z) (market : MarketResponse.t)
    (orderID : string) (req : CreateFirstLiquidityRequest.t) (requestedAt : Z)
    : Service A M P * result HttpError CreateFirstLiquidityResponse.t :=
  let userID := CreateFirstLiquidityRequest.UserID req in
  let '(s, id) := NewID fresh s "liq" in
  let '(s, commandID) := NewID fresh s "cmd" in
  let collateralAsset := NormalizeAsset (MarketResponse.CollateralAsset market) in
  match WinningPayoutAmount (CreateFirstLiquidityRequest.Quantity req) with
  | Err _ => (s, Err (400, "payout amount"))
  | Ok collateralDebit =>
      let '(a, debit) := DebitBalance (account s) userID collateralAsset collateralDebit
        "FIRST_LIQUIDITY_COLLATERAL" (firstLiquidityCollateralRef id) in
      let s := set_account s a in
      let undo s issued := rollbackFirstLiquidity nowMillis id userID collateralAsset collateralDebit issued s in
      match debit with
      | Err e => (s, Err (if looksLikeInsufficientBalance e then 409 else 502, e))
      | Ok false => (s, Err (409, "first liquidity collateral debit was not applied"))
      | Ok true =>
          match issue_inventory nowMillis id userID marketID s []
                  (to_issue marketID (CreateFirstLiquidityRequest.Quantity req)) with
          | (s, Err (e, issued)) => (undo s issued, Err e)
          | (s, Ok issued) =>
              match bootstrap_order s id commandID orderID marketID collateralAsset req requestedAt with
              | (s, Some e) => (undo s issued, Err e)
              | (s, None) =>
                  (s, Ok (CreateFirstLiquidityResponse.mk id marketID userID collateralAsset collateralDebit
                            ((λ i, InventoryItem.mk (issuedFirstLiquidityInventory.Outcome i)
                                     (issuedFirstLiquidityInventory.PositionAsset i)
                                     (issuedFirstLiquidityInventory.Quantity i)) <$> issued)
                            orderID))
              end
          end
      end
  end.

(** [now] is read for the proof, [nowUnix] for the market, [nowMillis] for the events. *)
Definition CreateFirstLiquidity (now nowUnix nowMillis : Z) (h : OrderHandler) (market_id : string)
    (req : CreateFirstLiquidityRequest.t) : OrderHandler * result HttpError CreateFirstLiquidityResponse.t :=
  match ParseInt market_id with
  | None => (h, Err (400, "invalid market_id"))
  | Some marketID =>
      if marketID <=? 0 then (h, Err (400, "invalid market_id"))
      else if (CreateFirstLiquidityRequest.UserID req =? 0) || (CreateFirstLiquidityRequest.Quantity req =? 0)
      then (h, Err (400, "binding"))
      else
        let '(outcome, ok) := NormalizeBinaryOutcome (CreateFirstLiquidityRequest.Outcome req) in
        if negb ok then (h, Err (400, "operator bootstrap proof requires outcome to be YES or NO"))
        else if CreateFirstLiquidityRequest.Price req <=? 0
        then (h, Err (400, "operator bootstrap proof requires price to be positive"))
        else
          let req := CreateFirstLiquidityRequest.mk (CreateFirstLiquidityRequest.UserID req)
            (CreateFirstLiquidityRequest.Quantity req) outcome (CreateFirstLiquidityRequest.Price req)
            (CreateFirstLiquidityRequest.Operator req) in
          match requirePrivilegedOperator recover operatorWallets now (CreateFirstLiquidityRequest.Operator req)
                  (CreateFirstLiquidityRequest.OperatorMessage req marketID) with
          | Err e => (h, Err e)
          | Ok operator =>
              if (CreateFirstLiquidityRequest.UserID req <=? 0) || (CreateFirstLiquidityRequest.Quantity req <=? 0)
              then (h, Err (400, "user_id and quantity must be positive"))
              else
                match requireRollupNotFrozen (store (svc h)) with
                | Some e => (h, Err e)
                | None =>
                    let orderID := CreateFirstLiquidityRequest.BootstrapOrderID sha256 req marketID in
                    match bootstrapOrderAlreadyAccepted (store (svc h)) orderID with
                    | Err _ => (h, Err (502, "check bootstrap order uniqueness failed"))
                    | Ok true => (h, Err (409, "operator bootstrap order already accepted"))
                    | Ok false =>
                        match LoadMarket (store (svc h)) marketID with
                        | Err ErrNotFound => (h, Err (404, "market not found"))
                        | Err _ => (h, Err (502, "get market failed"))
                        | Ok market =>
                            if negb (isTradableMarket market nowUnix) then (h, Err (409, "market is not tradable"))
                            else
                              let '(s, r) := issue_first_liquidity nowMillis (svc h) marketID market orderID req
                                (verifiedOperatorAction.RequestedAt operator) in
                              (set_svc h s, r)
                        end
                    end
                end
          end
  end.

(** ** Resolution *)

Definition ResolveMarket (now nowUnix nowMillis : Z) (traceID : string) (h : OrderHandler) (market_id : string)
    (req : ResolveMarketRequest.t) : OrderHandler * result HttpError (Z * string) :=
  match ParseInt market_id with
  | None => (h, Err (400, "invalid market_id"))
  | Some marketID =>
      if marketID <=? 0 then (h, Err (400, "invalid market_id"))
      else if String.eqb (ResolveMarketRequest.Outcome req) "" then (h, Err (400, "binding"))
      else
        let '(outcome, ok) := NormalizeBinaryOutcome (ResolveMarketRequest.Outcome req) in
        if negb ok then (h, Err (400, "outcome must be YES or NO"))
        else
          match requirePrivilegedOperator recover operatorWallets now (ResolveMarketRequest.Operator req)
                  (ResolveOperatorMessage (ResolveMarketRequest.Operator req) outcome marketID) with
          | Err e => (h, Err e)
          | Ok _ =>
              match requireRollupNotFrozen (store (svc h)) with
              | Some e => (h, Err e)
              | None =>
                  match LoadMarket (store (svc h)) marketID with
                  | Err ErrNotFound => (h, Err (404, "market not found"))
                  | Err _ => (h, Err (502, "load market failed"))
                  | Ok market =>
                      let status := effective_status market nowUnix in
                      if String.eqb status "RESOLVED" then (h, Err (409, "market is already resolved"))
                      else if MarketResponse.OracleResolution market
                      then (h, Err (409, "oracle market must resolve through oracle worker"))
                      else if negb (String.eqb status "WAITING_RESOLUTION")
                      then (h, Err (409, "market is not waiting for resolution"))
                      else
                        let '(s, id) := NewID fresh (svc h) "evt_market" in
                        let '(p, err) := PublishJSON (publisher s) TopicMarketEvent (itoa marketID)
                          (PayloadMarket (MarketEvent.mk id (TrimSpace traceID) marketID "RESOLVED" outcome nowMillis)) in
                        let h := set_svc h (set_publisher s p) in
                        match err with
                        | Some _ => (h, Err (502, "publish market resolve event failed"))
                        | None => (h, Ok (marketID, outcome))
                        end
                  end
              end
          end
  end.
End handlers.
