(* ===== verification/ApiJoin.v ===== *)
(** * API: what the journal says of a trading key and its orders

    The registration of a trading key and every order accepted with it are journalled,
    and the verifier joins the one to the other. *)

From Stdlib Require Import Ascii.
From S2P Require Import Prelude Strings Shared Messages MatchModel Auth AuthProps RollupJournal RollupState.
From S2P Require Import RollupReplay VerifierAuth VerifierAuthProps OrderService OrderProps SessionStore SessionProps.
From S2P Require Import OperatorAuth ApiHandlers.

Local Open Scope Z_scope.

(** ** Authorization of API orders *)

(** Rows are stored under their identifier. *)
Definition keyed (d : AuthDB) : Prop := map_Forall (λ id s, SessionResponse.SessionID s = id) (sessions d).

Lemma keyed_insert d id s m :
  keyed d → SessionResponse.SessionID s = id → m = <[id := s]> (sessions d) →
  map_Forall (λ id s, SessionResponse.SessionID s = id) m.
Proof. intros H Hs ->. by apply map_Forall_insert_2. Qed.

Lemma upsert_keyed dbnow row m m' s :
  upsert_session dbnow row m = Ok (m', s) → map_Forall (λ id s, SessionResponse.SessionID s = id) m →
  map_Forall (λ id s, SessionResponse.SessionID s = id) m'.
Proof. intros (-> & _ & _ & Hs)%upsert_session_Ok H. by apply map_Forall_insert_2. Qed.

Lemma perform_keyed (TypedDataAndHash : TypedData.t → result string string) (fresh : nat → string)
    `{!JSON NonceAdvancedPayload.t, !JSON TradingKeyAuthorizationWitness.t} (rollup : bool) d call now dbnow :
  keyed d → keyed (perform TypedDataAndHash fresh rollup d call now dbnow).1.
Proof.
  intros H. destruct call as [req|req|req|sid|req|req w]; cbn [perform fst].
  - unfold SessionStore.CreateSession, committed. destruct (create_session_tx _ _ _) as [[d' s]|] eqn:E; [|done].
    apply create_session_Ok in E as (row & Hu & _). by eapply upsert_keyed.
  - unfold SessionStore.CreateTradingKeyChallenge. cbv zeta. by destruct (_ || _).
  - unfold SessionStore.RegisterTradingKey, committed.
    destruct (register_tx _ _ _ _ _ _ _) as [[d' s]|] eqn:E; [|done]. cbn.
    apply register_tx_Ok in E as [[-> _]|(c & _ & [(Hs & _)|Hr]%write_trading_key_Ok)]; [done|unfold keyed; by rewrite Hs|].
    destruct Hr as [(row & Hu & _) _]. eapply upsert_keyed; [exact Hu|].
    intros id s1. rewrite map_lookup_imap. cbn. destruct (sessions d !! id) as [s0|] eqn:E0; [|done]. simpl.
    intros [= <-]. unfold rotated. specialize (H _ _ E0). by destruct (_ && _).
  - unfold SessionStore.RevokeSession. destruct (sessions d !! TrimSpace sid) as [s|] eqn:E; [|done]. cbn.
    eapply keyed_insert; [done| |done]. exact (H _ _ E).
  - destruct (AdvanceSessionNonce fresh rollup now d req) as [d' [s|]] eqn:E; cbn.
    + apply advance_Ok in E as (s0 & Es & _ & _ & -> & Hs & _). unfold keyed. eapply keyed_insert; [done| |exact Hs].
      exact (H _ _ Es).
    + by rewrite (advance_Err _ _ _ _ _ _ _ E).
  - unfold UpsertUserProfile. cbv zeta. by destruct (wallet_taken _ _ _).
Qed.

Section handlers.
Context {A M P : Type} `{!AccountClient A, !MarketStore M, !ApiStore M, !Publisher P}.
Context (sha256 : string → string) (Ed25519Verify : string → string → string → bool).
Context (hexutil_Decode : string → option string) (IsHexAddress : string → bool).
Context (TextHash : string → string) (TypedDataAndHash : TypedData.t → result string string).
Context (SigToAddress : string → string → result string string).
Context `{!JSON NonceAdvancedPayload.t, !JSON TradingKeyAuthorizationWitness.t}.
Context (fresh : string → nat → string) (fresh_entry : nat → string).
Context (operatorWallets : list string) (expectedChainID : Z) (rollup : bool).

(** What an order that passed the session lane was authorized with. *)
Record session_order (now now' : Z) (d : AuthDB) (req : CreateOrderRequest.t) (t : Terms) (s : SessionResponse.t)
    (d' : AuthDB) : Prop := {
  so_session : sessions d !! TrimSpace (CreateOrderRequest.SessionID req) = Some s;
  so_active : SessionResponse.Status s = "ACTIVE";
  so_unexpired : SessionResponse.ExpiresAtMillis s ≤ 0 ∨ now ≤ SessionResponse.ExpiresAtMillis s;
  so_user : CreateOrderRequest.UserID req ≤ 0 ∨ CreateOrderRequest.UserID req = SessionResponse.UserID s;
  so_valid : OrderIntent.Validate (intent_for s req t) now = None;
  so_signed : VerifyOrderIntentSignature Ed25519Verify hexutil_Decode (intent_for s req t)
    (SessionResponse.SessionPublicKey s) (CreateOrderRequest.SessionSignature req) = None;
  so_advance : ∃ s', AdvanceSessionNonce fresh_entry rollup now' d
    (AdvanceSessionNonceRequest.mk (SessionResponse.SessionID s) (CreateOrderRequest.OrderNonce req)
       (Some (BuildOrderAuthorizationWitness sha256 (SessionResponse.UserID s) (authorizedTradingKeyFromSession s)
          (intent_for s req t) (CreateOrderRequest.SessionSignature req)))) = (d', Ok s');
}.

Lemma authorize_by_session_Ok now now' d req t d' userID :
  authorize_by_session sha256 Ed25519Verify hexutil_Decode fresh_entry rollup now now' d req t = (d', Ok userID) →
  ∃ s, session_order now now' d req t s d' ∧ userID = SessionResponse.UserID s.
Proof.
  unfold authorize_by_session. destruct (_ <=? 0); [done|]. unfold GetSession.
  destruct (sessions d !! _) as [s|] eqn:Es; [|done].
  destruct (String.eqb_spec (SessionResponse.Status s) "ACTIVE"); cbn [negb]; [|done].
  destruct (Z.ltb_spec 0 (SessionResponse.ExpiresAtMillis s)), (Z.ltb_spec (SessionResponse.ExpiresAtMillis s) now);
    cbn [andb]; try done;
  (destruct (Z.ltb_spec 0 (CreateOrderRequest.UserID req)), (Z.eqb_spec (CreateOrderRequest.UserID req) (SessionResponse.UserID s));
    cbn [andb negb]; try done);
  (destruct (OrderIntent.Validate _ now) eqn:Ev; [done|]);
  (destruct (VerifyOrderIntentSignature _ _ _ _ _) eqn:Eg; [done|]);
  (destruct (AdvanceSessionNonce _ _ _ _ _) as [d1 [s1|[]]] eqn:Ea; try done); intros [= <- <-]; exists s;
  (split; [|done]); (split; [done|done|lia|lia|done|done|by exists s1]).
Qed.

(** Past the lanes, the order service decides. *)
Lemma CreateOrder_session now now' nowUnix h req h' r :
  blank (CreateOrderRequest.SessionID req) = false →
  CreateOrder sha256 Ed25519Verify hexutil_Decode TextHash SigToAddress fresh fresh_entry operatorWallets rollup
    now now' nowUnix h req = (h', Ok r) →
  ∃ t s orderID res,
    order_terms req = Ok t ∧ session_order now now' (auth h) req t s (auth h') ∧
    SubmitOrder fresh nowUnix (NewID fresh (svc h) "ord").1
      (submit_request req t (SessionResponse.UserID s) orderID (CreateOrderRequest.RequestedAtMillis req)) =
      (svc h', Ok res) ∧
    CreateOrderResponse.OrderID r = SubmitResult.OrderID res.
Proof.
  intros Hb. unfold CreateOrder. destruct (CreateOrderRequest.missing req); [done|].
  destruct (_ || _); [done|]. cbn [NewID]. destruct (order_terms req) as [t|e] eqn:Et; [|done].
  rewrite Hb. cbn [negb set_svc auth].
  destruct (authorize_by_session _ _ _ _ _ _ _ _ _ _) as [d [userID|e]] eqn:Ea; [|done].
  apply authorize_by_session_Ok in Ea as (s & Hs & ->). unfold submit. cbn [submit_request SubmitRequest.UserID].
  destruct (SessionResponse.UserID s <=? 0); [done|]. cbn [svc set_auth set_svc].
  match goal with |- context [SubmitOrder fresh nowUnix ?x ?y] =>
    destruct (SubmitOrder fresh nowUnix x y) as [s' [res|e]] eqn:Er end; [|done].
  intros [= <- <-]. by eexists t, s, _, res.
Qed.


(** The terms are in normal form, so the order service keeps them. *)
Lemma order_terms_Ok req t :
  order_terms req = Ok t →
  normalize_upper (t_outcome t) = t_outcome t ∧ normalize_upper (t_side t) = t_side t ∧
  normalize_upper (t_type t) = t_type t ∧ normalize_upper (t_tif t) = t_tif t.
Proof.
  unfold order_terms. cbv zeta. destruct (String.eqb _ "LIMIT"); [|destruct (String.eqb _ "MARKET"); [|done]];
    intros [= <-]; cbn [t_outcome t_side t_type t_tif]; rewrite ?normalize_upper_idem; split_and!; done.
Qed.

(** C26: an order that is accepted through a trading key is the order that was signed.
    The session is stored, active and unexpired; its key signed the intent with exactly
    the terms that are executed; the nonce is above every nonce accepted before and is
    now the last one; and exactly one command is published, for the user of the session,
    with the signed market, outcome, side and quantity and the price and type that stand
    for the signed ones. *)
Theorem api_order_authorized `{!PublisherLog P} now now' nowUnix h req h' r :
  blank (CreateOrderRequest.SessionID req) = false → keyed (auth h) →
  post_order sha256 Ed25519Verify hexutil_Decode TextHash SigToAddress fresh fresh_entry operatorWallets rollup
    now now' nowUnix h req = (h', Ok r) →
  let id := TrimSpace (CreateOrderRequest.SessionID req) in
  ∃ t s cmd,
    order_terms req = Ok t ∧
    (sessions (auth h) !! id = Some s ∧ SessionResponse.Status s = "ACTIVE" ∧
     (SessionResponse.ExpiresAtMillis s ≤ 0 ∨ now ≤ SessionResponse.ExpiresAtMillis s)) ∧
    VerifyOrderIntentSignature Ed25519Verify hexutil_Decode (intent_for s req t)
      (SessionResponse.SessionPublicKey s) (CreateOrderRequest.SessionSignature req) = None ∧
    (SessionResponse.LastOrderNonce s < CreateOrderRequest.OrderNonce req ∧
     last_nonce (auth h') id = Some (CreateOrderRequest.OrderNonce req)) ∧
    published (publisher (svc h')) = published (publisher (svc h)) ++
      [(TopicOrderCommand, OrderCommand.BookKey cmd, PayloadCommand cmd)] ∧
    OrderCommand.OrderID cmd = CreateOrderResponse.OrderID r ∧
    OrderCommand.UserID cmd = OrderIntent.UserID (intent_for s req t) ∧
    OrderCommand.MarketID cmd = OrderIntent.MarketID (intent_for s req t) ∧
    OrderCommand.Outcome cmd = OrderIntent.Outcome (intent_for s req t) ∧
    OrderCommand.Side cmd = OrderIntent.Side (intent_for s req t) ∧
    OrderCommand.Quantity cmd = OrderIntent.Quantity (intent_for s req t) ∧
    (OrderCommand.Type_ cmd, OrderCommand.TimeInForce cmd, OrderCommand.Price cmd) =
      command_terms (OrderIntent.Side (intent_for s req t)) (OrderIntent.OrderType (intent_for s req t))
        (OrderIntent.TimeInForce (intent_for s req t)) (OrderIntent.Price (intent_for s req t)).
Proof.
  intros Hb Hk. unfold post_order. destruct (requireTradeWriteBoundary _); [done|]. intros H.
  apply CreateOrder_session in H as (t & s & orderID & res & Ht & [Hs Ha He _ _ Hg [s' Hadv]] & Hsub & Hid); [|done].
  apply advance_Ok in Hadv as (s0 & Hs0 & _ & Hlt & -> & Hd & _).
  cbn [AdvanceSessionNonceRequest.SessionID AdvanceSessionNonceRequest.Nonce] in Hs0, Hlt, Hd.
  assert (SessionResponse.SessionID s = TrimSpace (CreateOrderRequest.SessionID req)) as Eid by exact (Hk _ _ Hs).
  rewrite Eid, TrimSpace_idem in Hs0, Hd. rewrite Hs in Hs0. injection Hs0 as <-.
  apply SubmitOrder_run in Hsub as [(_ & _ & e & [=] & _)|(asset & amount & oid & cid & [_ _ _ Hr])].
  cbn [svc NewID fst account publisher] in Hr.
  destruct (PreFreeze _ _) as [a [record|e]]; [|by destruct Hr as (_ & _ & e' & [=] & _)].
  destruct (PublishJSON _ _ _ _) as [p [e|]] eqn:EB; destruct Hr as [Ep Hr]; [by destruct Hr|].
  destruct Hr as [_ [= ->]]. cbn in Hid.
  set (sr := submit_request req t (SessionResponse.UserID s) orderID (CreateOrderRequest.RequestedAtMillis req)) in *.
  destruct (order_terms_Ok _ _ Ht) as (No & Ns & Nty & Nti).
  assert (norm_outcome sr = t_outcome t ∧ norm_side sr = t_side t ∧ norm_type sr = t_type t ∧ norm_tif sr = t_tif t)
    as (Eo & Es & Ety & Eti) by done.
  exists t, s, (command_of sr oid cid record).
  pose proof (command_of_fields sr oid cid record) as (F1 & _ & F3 & F4 & F5 & _).
  split_and!; try done.
  - unfold last_nonce. by rewrite Hd, lookup_insert_eq.
  - rewrite Ep, F1. by apply publish_ok.
  - by rewrite F3.
  - unfold command_of. by destruct (command_terms _ _ _ _) as [[??]?].
  - unfold command_of. destruct (command_terms _ _ _ _) as [[??]?]. exact Eo.
  - unfold command_of. destruct (command_terms _ _ _ _) as [[??]?]. exact Es.
  - cbn [intent_for OrderIntent.Side OrderIntent.OrderType OrderIntent.TimeInForce OrderIntent.Price].
    rewrite <-Es, <-Ety, <-Eti. unfold command_of. change (SubmitRequest.Price sr) with (t_price t).
    by destruct (command_terms _ _ _ _) as [[??]?].
Qed.
End handlers.

(** ** From the registration to the join *)

(** ** Rows of the journal *)

(** The row an entry becomes under a sequence number and an identifier. *)
Definition row_of (sequence : Z) (id : string) (e : JournalAppend.t) : JournalEntry.t :=
  JournalEntry.mk sequence id (TrimSpace (JournalAppend.EntryType e)) (TrimSpace (JournalAppend.SourceType e))
    (TrimSpace (JournalAppend.SourceRef e)) (JournalAppend.OccurredAtMillis e) (JournalAppend.Payload e).

(** The entry of a batch that is read back from a row of the authorization store. *)
Definition batch_entry (e : JournalEntry.t) : Entry.t :=
  Entry.mk (JournalEntry.Sequence e) (JournalEntry.EntryID e) (JournalEntry.EntryType e) (JournalEntry.SourceType e)
    (JournalEntry.SourceRef e) (JournalEntry.OccurredAtMillis e)
    match JournalEntry.Payload e with OtherPayload json => json | _ => "" end.

(** One entry adds its row, or its source is there already. *)
Lemma append_shadow_row fresh d e d' :
  append_shadow fresh true d (Ok e) = Ok d' →
  append_source e ∈ JournalEntry.source <$> entries (shadow d) ∧ entries (shadow d') = entries (shadow d) ∨
  ∃ n id, entries (shadow d') = entries (shadow d) ++ [row_of n id e].
Proof.
  unfold append_shadow. cbn [AppendEntriesTx]. destruct (appendEntry _ _ _) as [j|] eqn:E; [|done]. intros [= <-].
  revert E. unfold appendEntry. repeat pass_guard. unfold insert_row. case_bool_decide; [intros [= <-]; by left|].
  case_bool_decide; [done|]. intros [= <-]. right. by eexists _, _.
Qed.

Lemma append_shadow_entry fresh d r d' :
  append_shadow fresh true d r = Ok d' → ∃ e, r = Ok e.
Proof. unfold append_shadow. destruct r; [by eexists|done]. Qed.

(** ** Nonces that are journalled *)

Definition nonce_ref (id : string) (n : Z) : string := id +:+ ":" +:+ itoa n.

Definition nonce_source (id : string) (n : Z) : string * string * string :=
  (EntryTypeNonceAdvanced, SourceTypeAPIAuth, nonce_ref id n).

Lemma nonce_ref_trim id n : TrimSpace id ≠ "" → 0 < n → TrimSpace (nonce_ref (TrimSpace id) n) = nonce_ref (TrimSpace id) n.
Proof.
  intros Hid Hn. unfold nonce_ref. destruct (itoa_tight n) as [Ht Hne]. apply TrimSpace_id.
  - apply tight_append; [done|apply TrimSpace_tight].
  - rewrite !rev_append. rewrite append_assoc. apply tight_append.
    + intros E. apply Hne. by rewrite <-(rev_rev (itoa n)), E.
    + destruct (itoa_shape n) as [(k & Hk & ->)|(k & Hk & _)]; [|lia].
      destruct (pretty_N_parse k) as (_ & Hd & _). apply no_space_tight. rewrite no_space_rev.
      revert Hd. generalize (pretty k). intros s. induction s as [|a s IH]; [done|]. cbn [all_digits no_space].
      intros [Ha Hs]%andb_true_iff. rewrite (IH Hs), andb_true_r. revert Ha. by destruct a as [[] [] [] [] [] [] [] []].
Qed.

Lemma nonce_ref_inj id1 id2 n1 n2 : 0 < n1 → 0 < n2 → nonce_ref id1 n1 = nonce_ref id2 n2 → id1 = id2 ∧ n1 = n2.
Proof.
  intros H1 H2. unfold nonce_ref. intros E.
  destruct (itoa_shape n1) as [(k1 & ? & E1)|(k1 & ? & ?)]; [|lia].
  destruct (itoa_shape n2) as [(k2 & ? & E2)|(k2 & ? & ?)]; [|lia].
  destruct (pretty_N_parse k1) as (_ & D1 & _), (pretty_N_parse k2) as (_ & D2 & _).
  rewrite <-E1 in D1. rewrite <-E2 in D2.
  apply last_colon_inj in E as [-> ->%(inj itoa)]; [done|by apply all_digits_no_colon..].
Qed.

(** Every journalled nonce is at most the last one of its session. *)
Definition behind (d : AuthDB) : Prop :=
  ∀ e, e ∈ entries (shadow d) → JournalEntry.EntryType e = EntryTypeNonceAdvanced →
    ∃ id n m, JournalEntry.SourceRef e = nonce_ref id n ∧ 0 < n ≤ m ∧ last_nonce d id = Some m.

Section journal.
Context (TypedDataAndHash : TypedData.t → result string string) (fresh : nat → string).
Context `{!JSON NonceAdvancedPayload.t, !JSON TradingKeyAuthorizationWitness.t}.

(** The session of a key that was just registered. *)
Record key_row (now : Z) (req : RegisterTradingKeyRequest.t) (s : SessionResponse.t) : Prop := {
  kr_id : SessionResponse.SessionID s = RegisterTradingKeyRequest.SessionID req;
  kr_wallet : SessionResponse.WalletAddress s = normalizeWalletAddress (RegisterTradingKeyRequest.WalletAddress req);
  kr_key : SessionResponse.SessionPublicKey s = normalizePublicKey (RegisterTradingKeyRequest.TradingPublicKey req);
  kr_scope : SessionResponse.Scope s = normalizeSessionScope (RegisterTradingKeyRequest.Scope req);
  kr_chain : SessionResponse.ChainID s = RegisterTradingKeyRequest.ChainID req;
  kr_vault : SessionResponse.VaultAddress s = normalizeVaultAddress (RegisterTradingKeyRequest.VaultAddress req);
  kr_nonce : SessionResponse.SessionNonce s = normalizeChallengeValue (RegisterTradingKeyRequest.Challenge req);
  kr_status : SessionResponse.Status s = "ACTIVE";
  kr_issued : SessionResponse.IssuedAtMillis s = now;
}.

(** A registration adds at most the row of the key. *)
Lemma write_trading_key_journal rollup now dbnow d req d' s :
  write_trading_key TypedDataAndHash fresh rollup now dbnow d req = Ok (d', s) →
  entries (shadow d') = entries (shadow d) ∨
  ∃ e n id, buildTradingKeyAuthorizedEntry TypedDataAndHash s req (RegisterTradingKeyRequest.WalletSignature req) = Ok e ∧
    key_row now req s ∧ sessions d' !! RegisterTradingKeyRequest.SessionID req = Some s ∧
    entries (shadow d') = entries (shadow d) ++ [row_of n id e].
Proof.
  unfold write_trading_key. cbv zeta. intros ([p u] & _ & H)%result_bind_Ok.
  match type of H with context [match _ with Some _ => if _ then _ else ?r | None => _ end] => set (ins := r) in H end.
  match goal with |- ?C => assert (ins = Ok (d', s) → C) as Hins end.
  { subst ins. clear H.
    intros ([m s0] & Hu & (p' & _ & (d1 & Ha & [= <- <-])%result_bind_Ok)%result_bind_Ok)%result_bind_Ok.
    pose proof (append_shadow_tables _ _ _ _ _ Ha) as (Hs & _).
    destruct rollup; [|injection Ha as <-; by left].
    destruct (append_shadow_entry _ _ _ _ Ha) as [e He]. rewrite He in Ha.
    apply append_shadow_row in Ha as [[_ Ha]|(n & id & Ha)]; [by left|]. right. exists e, n, id.
    split; [exact He|]. revert Hu. unfold upsert_session. cbv zeta. case_bool_decide; [done|]. intros [= <- <-].
    split; [|split; [|exact Ha]].
    - cbn [SessionResponse.SessionID]. by destruct (_ !! _).
    - rewrite Hs. cbn [sessions set_profiles set_sessions SessionResponse.SessionID]. by rewrite lookup_insert_eq. }
  unfold getActiveTradingKeyTx in H. cbn [sessions set_profiles] in H.
  destruct (sessions d !! TrimSpace (RegisterTradingKeyRequest.SessionID req)) as [s1|]; [|by apply Hins].
  destruct (String.eqb _ _); [|by apply Hins].
  destruct (same_key now s1 req); [|by apply Hins]. injection H as <- <-. by left.
Qed.

Lemma key_entry_type s req sig e :
  buildTradingKeyAuthorizedEntry TypedDataAndHash s req sig = Ok e →
  JournalAppend.EntryType e = EntryTypeTradingKeyAuthorized.
Proof.
  unfold buildTradingKeyAuthorizedEntry. cbv zeta. pass_guard.
  by intros (w & _ & [= <-])%result_bind_Ok.
Qed.

(** What an accepted nonce leaves in the journal. *)
Lemma nonce_entry_Ok s nonce at_ w e :
  buildNonceAdvanceEntry s nonce at_ w = Ok e →
  TrimSpace (SessionResponse.SessionID s) ≠ "" ∧ nonce ≠ 0 ∧
  e = JournalAppend.mk "" EntryTypeNonceAdvanced SourceTypeAPIAuth
        (nonce_ref (TrimSpace (SessionResponse.SessionID s)) nonce) at_
        (OtherPayload (Marshal (nonce_payload s nonce at_ w))).
Proof.
  unfold buildNonceAdvanceEntry. cbv zeta.
  destruct (String.eqb_spec (TrimSpace (SessionResponse.SessionID s)) ""); [done|].
  destruct (_ <=? 0); [done|]. destruct (Z.eqb_spec nonce 0); [done|]. destruct (_ =? _); [done|].
  by intros [= <-].
Qed.

Lemma behind_kept d d' :
  behind d → nonces_kept d d' → entries (shadow d') = entries (shadow d) → behind d'.
Proof.
  intros H Hk E e He Ht. rewrite E in He. destruct (H e He Ht) as (id & n & m & Hr & Hn & Hm).
  destruct (Hk _ _ Hm) as (m' & Hm' & ?). exists id, n, m'. split_and!; [done|lia|lia|done].
Qed.

Definition nonces_nonneg (m : gmap string SessionResponse.t) : Prop :=
  map_Forall (λ _ s, 0 ≤ SessionResponse.LastOrderNonce s) m.

(** An order's nonce is appended: the journal holds no row of its source. *)
Lemma advance_journal now d req d' s :
  keyed d → behind d → nonces_nonneg (sessions d) →
  AdvanceSessionNonce fresh true now d req = (d', Ok s) →
  let nonce := AdvanceSessionNonceRequest.Nonce req in
  ∃ n id, entries (shadow d') = entries (shadow d) ++
    [row_of n id (JournalAppend.mk "" EntryTypeNonceAdvanced SourceTypeAPIAuth
       (nonce_ref (TrimSpace (AdvanceSessionNonceRequest.SessionID req)) nonce) now
       (OtherPayload (Marshal (nonce_payload s nonce now (AdvanceSessionNonceRequest.AuthorizationWitness req)))))] ∧
    0 < nonce ∧ TrimSpace (AdvanceSessionNonceRequest.SessionID req) ≠ "".
Proof.
  intros Hk Hb Hpos (s0 & Hs0 & _ & Hlt & -> & Hd & Ha)%advance_Ok. cbv zeta.
  destruct (append_shadow_entry _ _ _ _ Ha) as [e He]. rewrite He in Ha.
  apply nonce_entry_Ok in He as (Hid & _ & ->). cbn [SessionResponse.set_nonce SessionResponse.SessionID] in Hid, Ha.
  rewrite (Hk _ _ Hs0), TrimSpace_idem in Ha, Hid.
  assert (0 < AdvanceSessionNonceRequest.Nonce req) as Hn.
  { pose proof (Hpos _ _ Hs0). cbn in *. lia. }
  apply append_shadow_row in Ha as [[Hin _]|(n & rid & Hrow)]; [exfalso|by exists n, rid].
  apply list_elem_of_fmap in Hin as (x & Hx & Hin). cbn [shadow set_sessions] in Hin.
  unfold append_source, JournalEntry.source in Hx.
  cbn [JournalAppend.EntryType JournalAppend.SourceType JournalAppend.SourceRef] in Hx.
  injection Hx as Ht _ Hr. destruct (Hb x Hin) as (id & n & m & Hr' & Hnm & Hm); [by rewrite <-Ht|].
  rewrite Hr' in Hr. rewrite nonce_ref_trim in Hr by done. apply nonce_ref_inj in Hr as [<- <-]; [|lia..].
  unfold last_nonce in Hm. rewrite Hs0 in Hm. injection Hm as <-. lia.
Qed.

(** What every call keeps. *)
Record auth_ok (d : AuthDB) : Prop := {
  ao_keyed : keyed d;
  ao_behind : behind d;
  ao_nonneg : nonces_nonneg (sessions d);
}.

Lemma upsert_nonneg dbnow row m m' s :
  upsert_session dbnow row m = Ok (m', s) → SessionResponse.LastOrderNonce row = 0 → nonces_nonneg m → nonces_nonneg m'.
Proof.
  intros (-> & _ & Hn & _)%upsert_session_Ok H0 H. apply map_Forall_insert_2; [|done]. rewrite Hn, H0.
  destruct (m !! _) as [old|] eqn:E; simpl; [exact (H _ _ E)|lia].
Qed.

Lemma perform_nonneg rollup d call now dbnow :
  nonces_nonneg (sessions d) → nonces_nonneg (sessions (perform TypedDataAndHash fresh rollup d call now dbnow).1).
Proof.
  intros H. destruct call as [req|req|req|sid|req|req w]; cbn [perform fst].
  - unfold SessionStore.CreateSession, committed. destruct (create_session_tx _ _ _) as [[d' s]|] eqn:E; [|done].
    apply create_session_Ok in E as (row & Hu & Hz & _). by eapply upsert_nonneg.
  - unfold SessionStore.CreateTradingKeyChallenge. cbv zeta. by destruct (_ || _).
  - unfold SessionStore.RegisterTradingKey, committed.
    destruct (register_tx _ _ _ _ _ _ _) as [[d' s]|] eqn:E; [|done]. cbn.
    apply register_tx_Ok in E as [[-> _]|(c & _ & [(Hs & _)|Hr]%write_trading_key_Ok)]; [done|by rewrite Hs|].
    destruct Hr as [(row & Hu & _ & Hz & _) _]. eapply upsert_nonneg; [exact Hu|done|].
    intros id s1. rewrite map_lookup_imap. cbn. destruct (sessions d !! id) as [s0|] eqn:E0; [|done]. simpl.
    intros [= <-]. unfold rotated. specialize (H _ _ E0). by destruct (_ && _).
  - unfold SessionStore.RevokeSession. destruct (sessions d !! TrimSpace sid) as [s|] eqn:E; [|done]. cbn.
    apply map_Forall_insert_2; [|done]. exact (H _ _ E).
  - destruct (AdvanceSessionNonce fresh rollup now d req) as [d' [s|]] eqn:E; cbn.
    + apply advance_Ok in E as (s0 & Es & _ & Hlt & -> & -> & _). apply map_Forall_insert_2; [|done].
      pose proof (H _ _ Es). cbn in *. lia.
    + by rewrite (advance_Err _ _ _ _ _ _ _ E).
  - unfold UpsertUserProfile. cbv zeta. by destruct (wallet_taken _ _ _).
Qed.

(** Rows beside the nonces do not matter. *)
Lemma behind_app d d' es :
  behind d → nonces_kept d d' → entries (shadow d') = entries (shadow d) ++ es →
  (∀ e, e ∈ es → JournalEntry.EntryType e = EntryTypeNonceAdvanced →
    ∃ id n m, JournalEntry.SourceRef e = nonce_ref id n ∧ 0 < n ≤ m ∧ last_nonce d' id = Some m) → behind d'.
Proof.
  intros H Hk E Hes e He Ht. rewrite E in He. apply elem_of_app in He as [He|He]; [|by apply Hes].
  destruct (H e He Ht) as (id & n & m & Hr & Hn & Hm).
  destruct (Hk _ _ Hm) as (m' & Hm' & ?). exists id, n, m'. split_and!; [done|lia|lia|done].
Qed.

Lemma advance_shadow_off now d req :
  shadow (AdvanceSessionNonce fresh false now d req).1 = shadow d.
Proof.
  destruct (AdvanceSessionNonce fresh false now d req) as [d' [s|]] eqn:E; cbn.
  - apply advance_Ok in E as (s0 & _ & _ & _ & _ & _ & [= <-]). done.
  - by rewrite (advance_Err _ _ _ _ _ _ _ E).
Qed.

Lemma perform_auth_ok rollup d call now dbnow :
  auth_ok d → auth_ok (perform TypedDataAndHash fresh rollup d call now dbnow).1.
Proof.
  intros [Hk Hb Hn]. split; [by apply perform_keyed| |by apply perform_nonneg].
  pose proof (perform_keeps_nonces TypedDataAndHash fresh rollup d call now dbnow) as Hkept.
  destruct call as [req|req|req|sid|req|req w]; cbn [perform fst] in *.
  - apply (behind_kept d); [done..|]. unfold SessionStore.CreateSession, committed.
    destruct (create_session_tx _ _ _) as [[d' s]|] eqn:E; [|done]. cbn. revert E. unfold create_session_tx.
    by intros ([m s0] & _ & (p & _ & [= <- <-])%result_bind_Ok)%result_bind_Ok.
  - apply (behind_kept d); [done..|]. unfold SessionStore.CreateTradingKeyChallenge. cbv zeta. by destruct (_ || _).
  - revert Hkept. unfold SessionStore.RegisterTradingKey, committed.
    destruct (register_tx _ _ _ _ _ _ _) as [[d' s]|] eqn:E; [|done]. cbn [fst]. intros Hkept.
    apply register_tx_Ok in E as [[-> _]|(c & _ & [Ej|(e & n & id & He & _ & _ & Ej)]%write_trading_key_journal)];
      [done|by apply (behind_kept d)|].
    apply (behind_app d d' _ Hb Hkept Ej). intros x ->%list_elem_of_singleton Ht. exfalso.
    unfold row_of in Ht. cbn [JournalEntry.EntryType] in Ht. by rewrite (key_entry_type _ _ _ _ He) in Ht.
  - apply (behind_kept d); [done..|]. unfold SessionStore.RevokeSession. by destruct (sessions d !! _).
  - destruct rollup; [|apply (behind_kept d); [done..|]; rewrite <-(advance_shadow_off now d req);
      by destruct (AdvanceSessionNonce _ _ _ _ _) as [d' []]].
    destruct (AdvanceSessionNonce fresh true now d req) as [d' [s|]] eqn:E; cbn [fst] in *.
    + destruct (advance_journal now d req d' s Hk Hb Hn E) as (n & rid & Ej & Hpos & Hid).
      apply (behind_app d d' _ Hb Hkept Ej). intros x ->%list_elem_of_singleton _.
      apply advance_Ok in E as (s0 & _ & _ & _ & Es & Hs & _).
      exists (TrimSpace (AdvanceSessionNonceRequest.SessionID req)), (AdvanceSessionNonceRequest.Nonce req),
        (AdvanceSessionNonceRequest.Nonce req). split_and!; [|done..|].
      * unfold row_of. cbn [JournalEntry.SourceRef JournalAppend.SourceRef]. by rewrite nonce_ref_trim.
      * unfold last_nonce. by rewrite Hs, lookup_insert_eq, Es.
    + by rewrite (advance_Err _ _ _ _ _ _ _ E).
  - apply (behind_kept d); [done..|]. unfold UpsertUserProfile. cbv zeta. by destruct (wallet_taken _ _ _).
Qed.
End journal.

(** ** The key that was registered *)

Lemma NormalizeHex_trim v : NormalizeHex (TrimSpace v) = NormalizeHex v.
Proof. by rewrite !NormalizeHex_lower, TrimSpace_idem. Qed.

Lemma upper_or_trim d v : upper_or d (TrimSpace v) = upper_or d v.
Proof. unfold upper_or, normalize_upper. by rewrite TrimSpace_idem. Qed.

Lemma NormalizeHex_nonempty v : TrimSpace v ≠ "" → TrimSpace (NormalizeHex v) ≠ "".
Proof.
  intros Hv. rewrite NormalizeHex_lower. intros E. apply Hv. rewrite TrimSpace_lower, TrimSpace_idem in E.
  by destruct (TrimSpace v).
Qed.

Lemma decodeHex_nonempty hexutil_Decode v b : decodeHexBytes hexutil_Decode v = Ok b → TrimSpace v ≠ "".
Proof. unfold decodeHexBytes. by destruct (String.eqb_spec (TrimSpace v) ""). Qed.

Lemma no_space_TradingKeyID sha256 a : no_space (TradingKeyAuthorization.TradingKeyID sha256 a) = true.
Proof. unfold TradingKeyAuthorization.TradingKeyID. cbv zeta. by rewrite no_space_append, no_space_hex. Qed.

Lemma prefix_TradingKeyID sha256 a : String.prefix "tk_" (TradingKeyAuthorization.TradingKeyID sha256 a) = true.
Proof. unfold TradingKeyAuthorization.TradingKeyID. cbv zeta. by destruct (EncodeToString _). Qed.

(** The fields that a valid authorization has. *)
Lemma valid_authorization hexutil_Decode IsHexAddress a now :
  IsHexAddress "" = false → ValidateTradingKeyAuthorization hexutil_Decode IsHexAddress a now = None →
  let n := TradingKeyAuthorization.Normalize a in
  TradingKeyAuthorization.WalletAddress n ≠ "" ∧ TradingKeyAuthorization.VaultAddress n ≠ "" ∧
  0 < TradingKeyAuthorization.ChainID n ∧ TradingKeyAuthorization.TradingKeyScheme n = DefaultTradingKeyScheme ∧
  TradingKeyAuthorization.TradingPublicKey n ≠ "".
Proof.
  intros Hhex. unfold ValidateTradingKeyAuthorization. cbv zeta.
  set (n := TradingKeyAuthorization.Normalize a). clearbody n.
  destruct (IsHexAddress (TradingKeyAuthorization.WalletAddress n)) eqn:Ew; [cbn [negb]|done].
  destruct (IsHexAddress (TradingKeyAuthorization.VaultAddress n)) eqn:Ev; [cbn [negb]|done].
  destruct (Z.leb_spec (TradingKeyAuthorization.ChainID n) 0); [done|].
  destruct (String.eqb_spec (TradingKeyAuthorization.TradingKeyScheme n) DefaultTradingKeyScheme); [cbn [negb]|done].
  destruct (String.eqb _ ""); [done|].
  destruct (validateFixedHex hexutil_Decode "trading public key" _ _) eqn:Ek; [done|]. intros _.
  split_and!; [congruence|congruence|done|done|]. intros E. rewrite E in Ek. discriminate Ek.
Qed.

Section keys.
Context (sha256 : string → string) (hexutil_Decode : string → option string) (IsHexAddress : string → bool).

Lemma registered_key now now' reg s :
  IsHexAddress "" = false →
  ValidateTradingKeyAuthorization hexutil_Decode IsHexAddress (authorization_of reg) now = None →
  key_row now' (normalized_registration sha256 reg) s →
  AuthorizedTradingKey.AuthorizationRef (authorizedTradingKeyFromSession s) ≠ "" → 0 < SessionResponse.UserID s →
  key_matches (authorization_of (normalized_registration sha256 reg)) (authorizedTradingKeyFromSession s) ∧
  key_complete (SessionResponse.UserID s) (authorizedTradingKeyFromSession s).
Proof.
  intros Hhex (Hw & Hv & Hc & Hsch & Hp)%valid_authorization [Kid Kw Kk Ksc Kc Kv _ Kst _] Href Hu; [|done].
  unfold normalized_registration, authorization_of, TradingKeyAuthorization.Normalize in *.
  cbn [RegisterTradingKeyRequest.SessionID RegisterTradingKeyRequest.WalletAddress
    RegisterTradingKeyRequest.TradingPublicKey RegisterTradingKeyRequest.Scope RegisterTradingKeyRequest.ChainID
    RegisterTradingKeyRequest.VaultAddress RegisterTradingKeyRequest.TradingKeyScheme
    RegisterTradingKeyRequest.Challenge RegisterTradingKeyRequest.ChallengeExpiresAtMillis
    RegisterTradingKeyRequest.KeyExpiresAtMillis
    TradingKeyAuthorization.WalletAddress TradingKeyAuthorization.TradingPublicKey TradingKeyAuthorization.Scope
    TradingKeyAuthorization.ChainID TradingKeyAuthorization.VaultAddress TradingKeyAuthorization.TradingKeyScheme
    TradingKeyAuthorization.Challenge TradingKeyAuthorization.ChallengeExpiresAtMillis
    TradingKeyAuthorization.KeyExpiresAtMillis] in *.
  assert (∀ v, normalizeWalletAddress v = NormalizeHex v) as Nw by (intros v; by rewrite NormalizeHex_lower).
  assert (∀ v, normalizePublicKey v = NormalizeHex v) as Nk by (intros v; by rewrite NormalizeHex_lower).
  assert (∀ v, normalizeVaultAddress v = NormalizeHex v) as Nv by (intros v; by rewrite NormalizeHex_lower).
  change normalizeSessionScope with (upper_or DefaultSessionScope) in Ksc.
  rewrite Nw, NormalizeHex_idem in Kw. rewrite Nk, NormalizeHex_idem in Kk. rewrite Nv, NormalizeHex_idem in Kv.
  rewrite upper_or_idem in Ksc by done.
  unfold authorizedTradingKeyFromSession. split; split;
    cbn [AuthorizedTradingKey.WalletAddress AuthorizedTradingKey.TradingPublicKey AuthorizedTradingKey.TradingKeyScheme
      AuthorizedTradingKey.Scope AuthorizedTradingKey.ChainID AuthorizedTradingKey.VaultAddress
      AuthorizedTradingKey.Status TradingKeyAuthorization.WalletAddress TradingKeyAuthorization.TradingPublicKey
      TradingKeyAuthorization.Scope TradingKeyAuthorization.ChainID TradingKeyAuthorization.VaultAddress
      TradingKeyAuthorization.TradingKeyScheme];
    rewrite ?NormalizeHex_trim, ?upper_or_trim, ?Kw, ?Kk, ?Kv, ?Ksc, ?Kc, ?Kst, ?NormalizeHex_idem; try done.
  - by rewrite Hsch.
  - unfold AuthorizedTradingKey.VerifierEligibility, AuthorizedTradingKey.Normalize.
    with_strategy opaque [TrimSpace normalize_upper NormalizeHex upper_or formatHexWithPrefix String.prefix] cbn.
    rewrite !NormalizeHex_trim, !TrimSpace_idem, Kid, TrimSpace_no_space by apply no_space_TradingKeyID.
    rewrite prefix_TradingKeyID. cbn [negb].
    rewrite ?Kk, ?Kv, ?Kc, !NormalizeHex_idem. rewrite !(proj2 (String.eqb_neq _ _)) by done.
    by rewrite (proj2 (Z.leb_gt _ _)) by done.
  - revert Href. unfold AuthorizedTradingKey.AuthorizationRef, authorizedTradingKeyFromSession,
      AuthorizedTradingKey.Normalize.
    with_strategy opaque [TrimSpace normalize_upper NormalizeHex upper_or formatHexWithPrefix] cbn.
    destruct (_ || _); [done|]. rewrite !TrimSpace_idem, Kid, TrimSpace_no_space by apply no_space_TradingKeyID.
    intros Hne. by apply TrimSpace_nonempty.
Qed.
End keys.

(** ** The end-to-end claim *)

Section handlers.
Context {A M P : Type} `{!AccountClient A, !MarketStore M, !ApiStore M, !Publisher P}.
Context (sha256 : string → string) (Ed25519Verify : string → string → string → bool).
Context (hexutil_Decode : string → option string) (IsHexAddress : string → bool).
Context (TextHash : string → string) (TypedDataAndHash : TypedData.t → result string string).
Context (SigToAddress : string → string → result string string).
Context `{!JSON NonceAdvancedPayload.t, !JSON TradingKeyAuthorizationWitness.t}.
Context (fresh : string → nat → string) (fresh_entry : nat → string).
Context (operatorWallets : list string) (expectedChainID : Z).
Implicit Types h : OrderHandler (A := A) (M := M) (P := P).

Lemma RegisterTradingKey_Ok drawn rollup now now' dbnow h reg h' s :
  ApiHandlers.RegisterTradingKey sha256 hexutil_Decode IsHexAddress TypedDataAndHash SigToAddress drawn
    expectedChainID rollup now now' dbnow h reg = (h', Ok s) →
  ValidateTradingKeyAuthorization hexutil_Decode IsHexAddress (authorization_of reg) now = None ∧
  TrimSpace (RegisterTradingKeyRequest.WalletSignature reg) ≠ "" ∧
  SessionStore.RegisterTradingKey TypedDataAndHash drawn rollup now' dbnow (auth h)
    (normalized_registration sha256 reg) = (auth h', Ok s).
Proof.
  unfold ApiHandlers.RegisterTradingKey. destruct (register_missing reg); [done|]. destruct (_ <=? 0); [done|].
  destruct (negb _); [done|]. cbv zeta.
  destruct (ValidateTradingKeyAuthorization _ _ _ _) eqn:Ev; [done|]. destruct (validateTradingKeyDomain _ _); [done|].
  destruct (VerifyTradingKeyAuthorizationSignature _ _ _ _ _) as [a|e] eqn:Es; [|done].
  destruct (SessionStore.RegisterTradingKey _ _ _ _ _ _ _) as [d [s1|e]]; [|done]. intros [= <- <-].
  split_and!; [done| |done]. revert Es. unfold VerifyTradingKeyAuthorizationSignature, RecoverTypedDataAddress,
    recovery_signature. cbv zeta. destruct (decodeHexBytes _ _) eqn:Ed; [|done]. intros _.
  by eapply decodeHex_nonempty.
Qed.

(** The payload of the nonce entry of an order. *)
Definition order_payload (now : Z) (s : SessionResponse.t) (req : CreateOrderRequest.t) (t : Terms) : NonceAdvancedPayload.t :=
  nonce_payload (SessionResponse.set_nonce s (CreateOrderRequest.OrderNonce req) (now `div` 1000))
    (CreateOrderRequest.OrderNonce req) now
    (Some (BuildOrderAuthorizationWitness sha256 (SessionResponse.UserID s) (authorizedTradingKeyFromSession s)
       (intent_for s req t) (CreateOrderRequest.SessionSignature req))).

(** What an accepted order appends to the journal. *)
Lemma session_order_journal now now' d req t s d' :
  auth_ok d → session_order sha256 Ed25519Verify hexutil_Decode fresh_entry true now now' d req t s d' →
  (∃ n id, entries (shadow d') = entries (shadow d) ++
    [row_of n id (JournalAppend.mk "" EntryTypeNonceAdvanced SourceTypeAPIAuth
       (nonce_ref (TrimSpace (SessionResponse.SessionID s)) (CreateOrderRequest.OrderNonce req)) now'
       (OtherPayload (Marshal (order_payload now' s req t))))]) ∧
  0 < SessionResponse.UserID s ∧ TrimSpace (CreateOrderRequest.SessionSignature req) ≠ "".
Proof.
  intros [Hk Hb Hn] [Hs _ _ _ Hv Hg [s' Ha]].
  pose proof Ha as (s0 & Hs0 & _ & _ & Es' & _)%advance_Ok.
  cbn [AdvanceSessionNonceRequest.SessionID AdvanceSessionNonceRequest.Nonce] in Hs0, Es'.
  rewrite (Hk _ _ Hs), TrimSpace_idem, Hs in Hs0. injection Hs0 as <-.
  destruct (advance_journal fresh_entry _ _ _ _ _ Hk Hb Hn Ha) as (n & id & Ej & _ & _).
  split_and!.
  - exists n, id. rewrite Ej, Es'. done.
  - revert Hv. unfold OrderIntent.Validate. cbv zeta. repeat pass_guard. intros _.
    match goal with H : (OrderIntent.UserID _ <=? 0) = false |- _ => by apply Z.leb_gt in H end.
  - revert Hg. unfold VerifyOrderIntentSignature. destruct (decodeHexBytes _ _); [|done].
    destruct (negb _); [done|]. destruct (decodeHexBytes hexutil_Decode (CreateOrderRequest.SessionSignature req)) eqn:E;
      [|done]. intros _. by eapply decodeHex_nonempty.
Qed.

(** The registration and the order, joined: the two rows of the journal through the
    loop of the verifier. *)
Lemma key_then_order_ready s authz w walletSig at_ intent orderSig payload ke ne :
  let key := authorizedTradingKeyFromSession s in
  key_matches authz key → key_complete (SessionResponse.UserID s) key →
  BuildTradingKeyAuthorizationWitness TypedDataAndHash (SessionResponse.UserID s) authz key walletSig at_ = Ok w →
  TrimSpace (NormalizeHex walletSig) ≠ "" → TrimSpace (NormalizeHex orderSig) ≠ "" →
  intent_of (SessionResponse.UserID s) key intent →
  NonceAdvancedPayload.OrderAuthorization payload =
    Some (BuildOrderAuthorizationWitness sha256 (SessionResponse.UserID s) key intent orderSig) →
  TrimSpace (NonceAdvancedPayload.AuthKeyID payload) = TrimSpace (AuthorizedTradingKey.TradingKeyID key) →
  NonceAdvancedPayload.AccountID payload = SessionResponse.UserID s →
  normalize_upper (NonceAdvancedPayload.Scope payload) =
    upper_or DefaultSessionScope (AuthorizedTradingKey.Scope key) →
  normalize_upper (NonceAdvancedPayload.KeyStatus payload) = normalize_upper (AuthorizedTradingKey.Status key) →
  Entry.EntryType ke = EntryTypeTradingKeyAuthorized → Unmarshal (Entry.Payload ke) = Some w →
  Entry.EntryType ne = EntryTypeNonceAdvanced → Unmarshal (Entry.Payload ne) = Some payload →
  ∀ b j, readyForVerifier j = true →
    ∃ j1, join_entries b [ke] j = Ok j1 ∧ readyForVerifier j1 = true ∧
    ∀ b' j2, readyForVerifier j2 = true →
      index j2 !! TrimSpace (AuthorizedTradingKey.AuthorizationRef key) =
        index j1 !! TrimSpace (AuthorizedTradingKey.AuthorizationRef key) →
      ∃ j3, join_entries b' [ne] j2 = Ok j3 ∧ readyForVerifier j3 = true.
Proof.
  intros key Hm Hc Hw Hws Hos Hi Hoa Hid Hacc Hsc Hst Tke Uke Tne Une b j Hj.
  assert (∀ nb ix, _) as Hjoin by (intros nb ix; exact (authorized_order_joins sha256 TypedDataAndHash _ _ _ _ _ _ b ke
    _ _ nb ne _ ix Hm Hc Hw Uke Hws Hi Hos Hoa Hid Hacc Hsc Hst)).
  destruct (Hjoin 0 ∅) as (kr & _ & Hkr & Hbind & _).
  eexists. cbn [join_entries]. rewrite Tke, Hkr. cbn. split_and!; [done|done|]. intros b' j2 Hj2 Hix.
  destruct (Hjoin b' (index j2)) as (kr' & record & Hkr' & _ & Hb & Hs & _).
  rewrite Hkr in Hkr'. injection Hkr' as <-.
  assert (index_record kr (index j2) = index j2) as Hidx.
  { apply insert_id. rewrite Hbind. cbn [key_binding VerifierAuthBinding.AuthorizationRef]. rewrite Hix.
    unfold index_record. rewrite Hbind. apply lookup_insert_eq. }
  rewrite Hidx in Hb. eexists. cbn [join_entries]. rewrite Tne, Une, Hb. cbn [String.eqb]. split; [done|].
  unfold join_nonce. cbn [readyForVerifier]. by rewrite Hs.
Qed.

(** C27: an order signed with a registered trading key is ready for the verifier.  When
    the registration of a key is journalled, and an order is later accepted in its
    session, then each has appended exactly one entry to the journal, and the verifier's
    loop over the two (whatever else it has joined before and in between, as long as no
    other authorization took the key's reference) joins the order to the key and keeps
    the batch ready. *)
Theorem registered_key_order_is_ready drawn regNow regNow' dbnow h reg h1 s h2 n u now now' nowUnix req h3 r :
  IsHexAddress "" = false →
  ApiHandlers.RegisterTradingKey sha256 hexutil_Decode IsHexAddress TypedDataAndHash SigToAddress drawn
    expectedChainID true regNow regNow' dbnow h reg = (h1, Ok s) →
  entries (shadow (auth h1)) ≠ entries (shadow (auth h)) →
  auth_ok (auth h2) → sessions (auth h2) !! SessionResponse.SessionID s = Some (SessionResponse.set_nonce s n u) →
  TrimSpace (CreateOrderRequest.SessionID req) = SessionResponse.SessionID s →
  post_order sha256 Ed25519Verify hexutil_Decode TextHash SigToAddress fresh fresh_entry operatorWallets true
    now now' nowUnix h2 req = (h3, Ok r) →
  (∀ w, BuildTradingKeyAuthorizationWitness TypedDataAndHash (SessionResponse.UserID s)
     (authorization_of (normalized_registration sha256 reg)) (authorizedTradingKeyFromSession s)
     (RegisterTradingKeyRequest.WalletSignature reg) (SessionResponse.IssuedAtMillis s) = Ok w →
     Unmarshal (Marshal w) = Some w) →
  (∀ t, order_terms req = Ok t →
     Unmarshal (Marshal (order_payload now' (SessionResponse.set_nonce s n u) req t)) =
       Some (order_payload now' (SessionResponse.set_nonce s n u) req t)) →
  ∃ ke ne,
    entries (shadow (auth h1)) = entries (shadow (auth h)) ++ [ke] ∧
    entries (shadow (auth h3)) = entries (shadow (auth h2)) ++ [ne] ∧
    let ref := TrimSpace (AuthorizedTradingKey.AuthorizationRef (authorizedTradingKeyFromSession s)) in
    ∀ b j, readyForVerifier j = true →
      ∃ j1, join_entries b [batch_entry ke] j = Ok j1 ∧ readyForVerifier j1 = true ∧
      ∀ b' j2, readyForVerifier j2 = true → index j2 !! ref = index j1 !! ref →
        ∃ j3, join_entries b' [batch_entry ne] j2 = Ok j3 ∧ readyForVerifier j3 = true.
Proof.
  intros Hhex (Hval & Hwsig & Hreg)%RegisterTradingKey_Ok Hgrew Hok Hs2 Hid Hpost Hkjson Hnjson.
  (* the registration *)
  revert Hreg. unfold SessionStore.RegisterTradingKey, committed.
  destruct (register_tx _ _ _ _ _ _ _) as [[d1 s1]|] eqn:Er; [|done]. intros [= -> ->].
  apply register_tx_Ok in Er as [[E _]|(c & _ & [E|(e & sq & rid & He & Hrow & Hs & Ej)]%write_trading_key_journal)];
    [by rewrite E in Hgrew|done|].
  revert He. unfold buildTradingKeyAuthorizedEntry. cbv zeta.
  destruct (String.eqb_spec (AuthorizedTradingKey.AuthorizationRef (authorizedTradingKeyFromSession s)) "") as [|Href];
    [done|]. intros (w & Hw & [= <-])%result_bind_Ok.
  (* the order *)
  revert Hpost. unfold post_order. destruct (requireTradeWriteBoundary _); [done|]. intros Hpost.
  assert (String.prefix "tk_" (SessionResponse.SessionID s) = true) as Htk.
  { rewrite (kr_id _ _ _ Hrow). apply prefix_TradingKeyID. }
  apply CreateOrder_session in Hpost as (t & s' & orderID & res & Ht & Hso & _).
  2: { unfold blank. rewrite Hid. by destruct (String.eqb_spec (SessionResponse.SessionID s) "") as [E|]; [rewrite E in Htk|]. }
  pose proof (so_session _ _ _ _ _ _ _ _ _ _ _ _ Hso) as Hs'. rewrite Hid, Hs2 in Hs'. injection Hs' as <-.
  destruct (session_order_journal _ _ _ _ _ _ _ Hok Hso) as ((sq' & rid' & Ej') & Hu & Hosig).
  cbn [SessionResponse.set_nonce SessionResponse.UserID] in Hu.
  destruct (registered_key _ _ _ _ _ _ _ Hhex Hval Hrow Href Hu) as [Hm Hc].
  eexists _, _. split; [exact Ej|]. split; [exact Ej'|]. cbv zeta.
  eapply (key_then_order_ready s _ w _ _ (intent_for (SessionResponse.set_nonce s n u) req t) _
    (order_payload now' (SessionResponse.set_nonce s n u) req t)); try exact Hm; try exact Hc; try exact Hw.
  - by apply NormalizeHex_nonempty.
  - apply NormalizeHex_nonempty. exact Hosig.
  - split; cbn [intent_for OrderIntent.SessionID OrderIntent.WalletAddress OrderIntent.UserID SessionResponse.set_nonce
      SessionResponse.SessionID SessionResponse.WalletAddress SessionResponse.UserID authorizedTradingKeyFromSession
      AuthorizedTradingKey.TradingKeyID AuthorizedTradingKey.WalletAddress]; by rewrite ?TrimSpace_idem, ?NormalizeHex_trim.
  - done.
  - cbn [order_payload nonce_payload NonceAdvancedPayload.AuthKeyID SessionResponse.set_nonce SessionResponse.SessionID
      authorizedTradingKeyFromSession AuthorizedTradingKey.TradingKeyID]. done.
  - done.
  - cbn [order_payload nonce_payload NonceAdvancedPayload.Scope SessionResponse.set_nonce SessionResponse.Scope
      authorizedTradingKeyFromSession AuthorizedTradingKey.Scope].
    rewrite upper_or_trim, normalize_upper_idem, (kr_scope _ _ _ Hrow).
    change normalizeSessionScope with (upper_or DefaultSessionScope). by rewrite normalize_upper_or, upper_or_idem.
  - cbn [order_payload nonce_payload NonceAdvancedPayload.KeyStatus SessionResponse.set_nonce SessionResponse.Status
      authorizedTradingKeyFromSession AuthorizedTradingKey.Status]. by rewrite (kr_status _ _ _ Hrow).
  - reflexivity.
  - by apply Hkjson.
  - reflexivity.
  - by apply Hnjson.
Qed.
End handlers.
