(* ===== verification/ApiRuns.v ===== *)
(** * API: runs

    Concrete runs of the handlers: a wallet registers a key, trades with it, and registers
    another one.  The signature schemes accept every signature of the right length, the
    digest and the typed-data hash are the identity and a constant. *)

From Stdlib Require Import Ascii.
From S2P Require Import Prelude Strings Shared Messages MatchModel Auth AuthProps RollupJournal RollupState.
From S2P Require Import RollupReplay VerifierAuth VerifierAuthProps Account AccountGrpc OrderService OrderProps.
From S2P Require Import SessionStore SessionProps OperatorAuth ApiHandlers ApiJoin.

Local Open Scope Z_scope.

#[export] Instance run_markets : MarketStore () := {|
  GetMarket _ m := if m =? 7 then Ok (Market.mk "OPEN" 0 "USDT") else Err "market not found";
  GetRollupFreezeState _ := Ok false;
|}.
#[export] Instance run_store : ApiStore () := {|
  LoadMarket _ m := if m =? 7 then Ok (MarketResponse.mk "OPEN" 0 0 "USDT" false 1 "t") else Err ErrNotFound;
  LoadOrder _ _ := Err ErrNotFound;
  LoadFreezeStatus _ _ _ := Err ErrNotFound;
  LoadFrozen _ := Ok false;
|}.

Definition repeated (n : nat) (c : ascii) : string := Nat.iter n (String c) "".
Definition run_wallet : string := "0x" +:+ repeated 40 "a".
Definition run_vault : string := "0x" +:+ repeated 40 "b".
Definition run_key (c : ascii) : string := "0x" +:+ repeated 64 c.
Definition run_decode (s : string) : option string := DecodeString (String.substring 2 (String.length s - 2) s).
Definition run_address (s : string) : bool := (String.length s =? 42)%nat.
Definition run_verify (key message signature : string) : bool := true.
Definition run_typed (t : TypedData.t) : result string string := Ok "hash".
Definition run_signer (hash signature : string) : result string string := Ok run_wallet.
Definition run_text (s : string) : string := s.
Definition run_sha (s : string) : string := String.substring (String.length s - 20) 16 s.
Definition run_entry (n : nat) : string := "rj_" +:+ itoa (Z.of_nat n).

Definition run_svc : Service (GRPCClient bool) () (list BatchItem) :=
  mkService (mkClient (SeedBalance (NewBalanceBook (S := bool)) 1001 "USDT" 100000) (λ _ text, text)
    (λ n, "frz_" +:+ itoa (Z.of_nat n)) 0) [] () None 0.

Definition run_start : OrderHandler (A := GRPCClient bool) (M := ()) (P := list BatchItem) :=
  mkHandler (mkAuthDB ∅ ∅ ∅ (mkJournal [] 1)) run_svc.

Definition run_challenge (h : OrderHandler) (id : string) (byte : ascii) : OrderHandler :=
  (ApiHandlers.CreateTradingKeyChallenge (A := GRPCClient bool) (M := ()) (P := list BatchItem) run_address 9 1000 id
     (repeated 32 byte) h run_wallet 9 run_vault).1.

Definition run_registration (id : string) (byte key : ascii) : RegisterTradingKeyRequest.t :=
  RegisterTradingKeyRequest.mk "" 0 run_wallet 9 run_vault id (hex_text (repeated 32 byte)) 301000 (run_key key)
    "ed25519" "" 0 "EIP712_V4" ("0x" +:+ repeated 130 "0").

Definition run_challenged : OrderHandler := run_challenge run_start "ch_1" "1".

(** ** A codec for the two payloads of the runs *)

Section run.
Context (nonces : JSON NonceAdvancedPayload.t) (keys : JSON TradingKeyAuthorizationWitness.t).

Definition run_register (now : Z) (h : OrderHandler) (reg : RegisterTradingKeyRequest.t) :=
  ApiHandlers.RegisterTradingKey (A := GRPCClient bool) (M := ()) (P := list BatchItem) run_sha run_decode run_address
    run_typed run_signer run_entry 9 true now now (now `div` 1000) h reg.

Definition run_order (now : Z) (h : OrderHandler) (req : CreateOrderRequest.t) :=
  post_order (A := GRPCClient bool) (M := ()) (P := list BatchItem) run_sha run_verify run_decode run_text run_signer demo_fresh (λ n, run_entry (S n)) []
    true now now (now `div` 1000) h req.
End run.

Definition write_nonces : JSON NonceAdvancedPayload.t := {| Marshal _ := "nonce"; Unmarshal _ := None |}.
Definition write_keys : JSON TradingKeyAuthorizationWitness.t := {| Marshal _ := "key"; Unmarshal _ := None |}.

Definition no_session : SessionResponse.t := SessionResponse.mk "" 0 "" "" "" 0 "" "" 0 "" 0 0 0 0 0.

(** The session the first registration answers. *)
Definition run_session : SessionResponse.t :=
  Eval vm_compute in
  match (run_register write_keys 2000 run_challenged (run_registration "ch_1" "1" "c")).2 with
  | Ok s => s | Err _ => no_session end.

Definition run_request : CreateOrderRequest.t :=
  CreateOrderRequest.mk "c1" "t1" 0 (SessionResponse.SessionID run_session) ("0x" +:+ repeated 128 "5") None 3 2500 7
    " yes" "buy" "market" "GTC" 0 40.

Definition run_terms : Terms := mkTerms "YES" "BUY" "MARKET" "IOC" 100.

Definition run_witness : option TradingKeyAuthorizationWitness.t :=
  match BuildTradingKeyAuthorizationWitness run_typed (SessionResponse.UserID run_session)
     (authorization_of (normalized_registration run_sha (run_registration "ch_1" "1" "c")))
     (authorizedTradingKeyFromSession run_session) ("0x" +:+ repeated 130 "0")
     (SessionResponse.IssuedAtMillis run_session) with
  | Ok w => Some w | Err _ => None end.

#[local] Instance run_nonces : JSON NonceAdvancedPayload.t :=
  {| Marshal _ := "nonce"; Unmarshal _ := Some (order_payload run_sha 3000 run_session run_request run_terms) |}.
#[local] Instance run_keys : JSON TradingKeyAuthorizationWitness.t :=
  {| Marshal _ := "key"; Unmarshal _ := run_witness |}.

Definition run_registered := run_register run_keys 2000 run_challenged (run_registration "ch_1" "1" "c").
Definition run_ordered := run_order run_nonces 3000 run_registered.1 run_request.

Example run_works :
  run_registered.2 = Ok run_session ∧ SessionResponse.Status run_session = "ACTIVE" ∧
  (CreateOrderResponse.Amount <$> (match run_ordered.2 with Ok r => Some r | Err _ => None end)) = Some 4000.
Proof. vm_compute. done. Qed.

(** ** The tables of the runs *)

Lemma empty_auth_ok j : entries j = [] → auth_ok (mkAuthDB ∅ ∅ ∅ j).
Proof.
  intros Hj. split.
  - by intros id s.
  - intros e. cbn. rewrite Hj. by intros ?%elem_of_nil.
  - by intros id s.
Qed.

Definition run_calls : list TimedCall.t :=
  [TimedCall.mk (CallCreateChallenge (CreateTradingKeyChallengeRequest.mk "ch_1" (hex_text (repeated 32 "1")) 301000
     run_wallet 9 run_vault)) run_entry 1000 1;
   TimedCall.mk (CallRegister (normalized_registration run_sha (run_registration "ch_1" "1" "c"))) run_entry 2000 2].

Lemma perform_all_auth_ok d calls : auth_ok d → auth_ok (perform_all run_typed true d calls).1.
Proof.
  revert d. induction calls as [|c calls IH]; intros d Hd; [done|]. cbn [perform_all]. unfold perform_one.
  pose proof (perform_auth_ok run_typed (TimedCall.Drawn c) true d (TimedCall.Call c) (TimedCall.Now c)
    (TimedCall.DbNow c) Hd) as H1.
  destruct (perform _ _ _ _ _ _ _) as [d1 acc]. cbn [fst] in H1. specialize (IH d1 H1).
  by destruct (perform_all _ _ _ _) as [d2 rest].
Qed.

Lemma run_registered_ok : auth_ok (auth run_registered.1).
Proof.
  replace (auth run_registered.1) with (perform_all run_typed true (auth run_start) run_calls).1.
  - apply perform_all_auth_ok. by apply empty_auth_ok.
  - vm_compute. reflexivity.
Qed.

Lemma api_order_authorized_witness :
  ∃ r s cmd, run_ordered.2 = Ok r ∧ sessions (auth run_registered.1) !! SessionResponse.SessionID run_session = Some s ∧
    VerifyOrderIntentSignature run_verify run_decode (intent_for s run_request run_terms)
      (SessionResponse.SessionPublicKey s) ("0x" +:+ repeated 128 "5") = None ∧
    last_nonce (auth run_ordered.1) (SessionResponse.SessionID run_session) = Some 3 ∧
    published (publisher (svc run_ordered.1)) = [(TopicOrderCommand, OrderCommand.BookKey cmd, PayloadCommand cmd)] ∧
    OrderCommand.UserID cmd = 1001 ∧ OrderCommand.Price cmd = 99.
Proof.
  destruct run_ordered as [h' [r|e]] eqn:E; [|vm_compute in E; discriminate E].
  destruct (api_order_authorized run_sha run_verify run_decode run_text run_signer demo_fresh (λ n, run_entry (S n)) []
    true 3000 3000 3 run_registered.1 run_request h' r)
    as (t & s & cmd & Ht & (Hs & _) & Hg & (_ & Hn) & Hp & _ & Hu & _ & _ & _ & _ & Hterms).
  - vm_compute. reflexivity.
  - apply run_registered_ok.
  - exact E.
  - assert (t = run_terms) as -> by (vm_compute in Ht; by injection Ht as <-).
    exists r, s, cmd. split; [done|]. split; [exact Hs|]. split; [exact Hg|]. split; [exact Hn|].
    split; [exact Hp|]. split; [|by injection Hterms].
    rewrite Hu. vm_compute in Hs. injection Hs as <-. vm_compute. reflexivity.
Defined.

Lemma registered_key_order_is_ready_witness :
  ∃ ke ne j1 j3,
    entries (shadow (auth run_ordered.1)) = [ke; ne] ∧
    join_entries 1 [batch_entry ke] (mkJoined ∅ ∅ [] true) = Ok j1 ∧
    join_entries 1 [batch_entry ne] j1 = Ok j3 ∧ readyForVerifier j3 = true.
Proof.
  destruct run_ordered as [h3 [r|e]] eqn:E; [|vm_compute in E; discriminate E].
  destruct (registered_key_order_is_ready run_sha run_verify run_decode run_address run_text run_typed run_signer
    demo_fresh (λ n, run_entry (S n)) [] 9 run_entry 2000 2000 2 run_challenged (run_registration "ch_1" "1" "c")
    run_registered.1 run_session run_registered.1 0 2 3000 3000 3 run_request h3 r) as (ke & ne & Hke & Hne & Hjoin).
  - reflexivity.
  - vm_compute. reflexivity.
  - vm_compute. discriminate.
  - exact run_registered_ok.
  - vm_compute. reflexivity.
  - vm_compute. reflexivity.
  - exact E.
  - intros w Hw. vm_compute in Hw. injection Hw as <-. vm_compute. reflexivity.
  - intros t Ht. assert (t = run_terms) as -> by (vm_compute in Ht; by injection Ht as <-).
    vm_compute. reflexivity.
  - destruct (Hjoin 1 (mkJoined ∅ ∅ [] true) eq_refl) as (j1 & Hj1 & Hr1 & Hnext).
    destruct (Hnext 1 j1 Hr1 eq_refl) as (j3 & Hj3 & Hr3). exists ke, ne, j1, j3.
    split; [|split; [exact Hj1|split; [exact Hj3|exact Hr3]]]. cbn [fst]. rewrite Hne, Hke. vm_compute. reflexivity.
Defined.

(** ** Another key *)

Definition rotation_calls : list TimedCall.t :=
  run_calls ++
  [TimedCall.mk (CallCreateChallenge (CreateTradingKeyChallengeRequest.mk "ch_2" (hex_text (repeated 32 "2")) 301000
     run_wallet 9 run_vault)) run_entry 3000 3;
   TimedCall.mk (CallRegister (normalized_registration run_sha (run_registration "ch_2" "2" "d")))
     (λ n, run_entry (S n)) 4000 4].

Definition rotation_tables : AuthDB := (perform_all run_typed true (auth run_start) rotation_calls).1.

Lemma perform_all_cons d c calls :
  (perform_all run_typed true d (c :: calls)).1 = (perform_all run_typed true (perform_one run_typed true d c).1 calls).1.
Proof.
  cbn [perform_all]. destruct (perform_one _ _ d c) as [d1 acc]. cbn [fst].
  destruct (perform_all _ _ d1 calls) as [d2 rest]. reflexivity.
Qed.

Lemma one_active_trading_key_witness :
  one_key (sessions rotation_tables) ∧
  (SessionResponse.Status <$> (map_to_list (sessions rotation_tables)).*2) ≡ₚ ["ROTATED"; "ACTIVE"].
Proof.
  split; [|apply (bool_decide_unpack _); vm_compute; exact I]. unfold rotation_tables, rotation_calls, run_calls.
  cbn [app]. rewrite !perform_all_cons. unfold perform_one. cbn [perform_all fst].
  do 4 apply one_active_trading_key. by intros i j s t w c v.
Defined.

(** ** What the session routes allow

    Runs of the handlers that show where the compatibility route for sessions, and what
    is checked of a session, differ from what the rest of the service relies on. *)

Definition thief_wallet : string := "0x" +:+ repeated 40 "e".
Definition thief_signer (hash signature : string) : result string string := Ok thief_wallet.

(** A grant that names the user of another wallet. *)
Definition thief_grant : CreateSessionRequest.t :=
  CreateSessionRequest.mk "" 1001 thief_wallet (run_key "f") "" 9 "n1" 2000 900000 ("0x" +:+ repeated 130 "0").

Definition thief_session (now : Z) (h : OrderHandler) :=
  ApiHandlers.CreateSession (A := GRPCClient bool) (M := ()) (P := list BatchItem) run_sha run_decode run_text
    thief_signer now (now `div` 1000) h thief_grant.

Definition thief_id : string := SessionGrant.SessionID run_sha (grant_of thief_grant).

Definition thief_order (nonce : Z) : CreateOrderRequest.t :=
  CreateOrderRequest.mk "c2" "t2" 0 thief_id ("0x" +:+ repeated 128 "5") None nonce 2900 7 "yes" "buy" "limit" "GTC" 60 40.

Definition accepted {T} (r : result HttpError T) : bool := match r with Ok _ => true | Err _ => false end.

Definition post (now : Z) (h : OrderHandler) (req : CreateOrderRequest.t) :=
  run_order write_nonces now h req.

(** After the registration of the owner of user 1001. *)
Definition owned : OrderHandler (A := GRPCClient bool) (M := ()) (P := list BatchItem) :=
  (run_register write_keys 2000 run_challenged (run_registration "ch_1" "1" "c")).1.

(** [POST /sessions] takes the user from the body and checks only the signature of the
    wallet that the body names: another wallet gets an active session for user 1001, the
    profile of that user now names the other wallet, and an order signed with the other
    wallet's session key freezes the user's collateral. *)
Theorem session_takes_over_account :
  (UserProfileResponse.WalletAddress <$> profiles (auth owned) !! 1001) = Some run_wallet ∧
  let h := (thief_session 2500 owned).1 in
  (UserProfileResponse.WalletAddress <$> profiles (auth h) !! 1001) = Some thief_wallet ∧
  accepted (post 3000 h (thief_order 1)).2 = true ∧
  available (account (svc (post 3000 h (thief_order 1)).1)) 1001 "USDT" = 97600.
Proof. split; [|split; [|split]]; vm_compute; reflexivity. Qed.

(** Revoking does not last: the grant that opened the session is still valid, and
    posting it again, which needs no new signature, activates the session. *)
Theorem revoked_session_replayed :
  let h1 := (thief_session 2500 owned).1 in
  let h2 := (ApiHandlers.RevokeSession 3 h1 thief_id).1 in
  let h3 := (thief_session 3000 h2).1 in
  (SessionResponse.Status <$> sessions (auth h2) !! thief_id) = Some "REVOKED" ∧
  (SessionResponse.Status <$> sessions (auth h3) !! thief_id) = Some "ACTIVE".
Proof. split; vm_compute; reflexivity. Qed.

(** The session that authenticates the user's reads may have expired: orders refuse it,
    [requireSessionAuth] has no clock to compare its expiry with and accepts it. *)
Theorem expired_session_reads :
  let h := (thief_session 2500 owned).1 in
  (∃ s, sessions (auth h) !! thief_id = Some s ∧ 0 < SessionResponse.ExpiresAtMillis s < 1000000) ∧
  (post 1000000 h (thief_order 1)).2 = Err (409, "trading key expired") ∧
  requireSessionAuth (auth h) ("Bearer " +:+ thief_id) = Ok 1001.
Proof.
  split; [|split; vm_compute; reflexivity].
  destruct (sessions (auth (thief_session 2500 owned).1) !! thief_id) as [s|] eqn:E; [|vm_compute in E; discriminate E].
  exists s. split; [reflexivity|]. vm_compute in E. injection E as <-. vm_compute. split; reflexivity.
Qed.

(** ** First liquidity *)

Definition operator_wallet : string := run_wallet.

Definition liquidity (price : Z) : CreateFirstLiquidityRequest.t :=
  CreateFirstLiquidityRequest.mk 1001 10 "yes" price
    (Some (OperatorAction.mk operator_wallet 2000 ("0x" +:+ repeated 130 "0"))).

Definition open_liquidity (price : Z) :=
  CreateFirstLiquidity (A := GRPCClient bool) (M := ()) (P := list BatchItem) run_sha run_decode run_text run_signer
    demo_fresh [operator_wallet] 2000 2 2000 owned "7" (liquidity price).

Definition command_price (p : Payload) : option Z :=
  match p with PayloadCommand c => Some (OrderCommand.Price c) | _ => None end.

(** An order of the order service is priced at 1 to 99; first liquidity only asks for a
    positive price, and its command goes to the engine's topic at 150. *)
Theorem first_liquidity_price_unbounded :
  accepted (open_liquidity 150).2 = true ∧
  option_map (λ i : BatchItem, (i.1, command_price i.2)) (last (publisher (svc (open_liquidity 150).1))) =
    Some ((TopicOrderCommand, "7:YES"), Some 150) ∧
  (SubmitOrder demo_fresh 2 (svc owned) (SubmitRequest.mk 1001 7 "YES" "SELL" "LIMIT" "GTC" 150 10 "" "" 2000 "")).2 =
    Err (ErrValidationFailed "limit order price must be between 1 and 99").
Proof. split; [|split]; vm_compute; reflexivity. Qed.
