(* ===== verification/Ledger.v ===== *)
(** * Ledger service: the double-entry journal

    [ledger/model/entry.go], [ledger/model/report.go], [ledger/service/journal.go],
    [trade_consumer.go], [settlement_consumer.go] and [report.go].  The journal is
    append-only; its persistent copy is a type class.  Iteration over a Go map is
    iteration over a finite map where the order does not show. *)

From stdpp Require Import sorting.
From S2P Require Import Prelude Strings Shared Messages.

Local Open Scope Z_scope.
Local Open Scope go_scope.

(** ** Data *)

Inductive Direction :=
| DirectionDebit
| DirectionCredit
| DirectionOther (s : string).

Module Posting.
Record t := mk { Account : string; Asset : string; Dir : Direction; Amount : Z }.
End Posting.

(** A zero [CreatedAt] is [None]. *)
Module Entry.
Record t := mk {
  EntryID : string;
  BizType : string;
  RefID : string;
  Postings : list Posting.t;
  CreatedAt : option Z;
  Status : string;
}.
End Entry.

Definition BizTypeTrade : string := "TRADE".
Definition BizTypeSettlement : string := "SETTLEMENT".
Definition EntryStatusConfirmed : string := "CONFIRMED".

Inductive LedgerError :=
| ErrEmptyEntry
| ErrInvalidPosting
| ErrUnbalancedEntry
| ErrDuplicateEntryID
| ErrLedgerStore (e : string)
| ErrLedgerDecode
| ErrLedgerNotionalNotPositive
| ErrLedgerNotionalOverflow
| ErrUnsupportedTakerSide (side : string).

Definition normalizeAsset (asset : string) : string := normalize_upper asset.
Definition normalizeAccount (account : string) : string := ToLower (TrimSpace account).

(** ** Journal *)

Class JournalStore (S : Type) := {
  AppendEntry : S → Entry.t → S * option string;
}.

Notation amounts := (gmap string Z).
Definition amount_of (m : amounts) (asset : string) : Z := default 0 (m !! asset).
Definition add_amount (m : amounts) (asset : string) (n : Z) : amounts :=
  <[asset := amount_of m asset ⊞ n]> m.

Definition normalize_posting (p : Posting.t) : Posting.t :=
  Posting.mk (normalizeAccount (Posting.Account p)) (normalizeAsset (Posting.Asset p))
    (Posting.Dir p) (Posting.Amount p).

Definition posting_valid (p : Posting.t) : bool :=
  negb (String.eqb (Posting.Account p) "" || String.eqb (Posting.Asset p) "" ||
        (Posting.Amount p <=? 0)).

(** The posting loop: debits and credits per asset, and the normalised list. *)
Fixpoint normalize_postings (ps : list Posting.t) (debits credits : amounts)
    : result LedgerError (amounts * amounts * list Posting.t) :=
  match ps with
  | [] => Ok (debits, credits, [])
  | p :: ps =>
      let n := normalize_posting p in
      if negb (posting_valid n) then Err ErrInvalidPosting
      else
        let next :=
          match Posting.Dir n with
          | DirectionDebit =>
              Ok (add_amount debits (Posting.Asset n) (Posting.Amount n), credits)
          | DirectionCredit =>
              Ok (debits, add_amount credits (Posting.Asset n) (Posting.Amount n))
          | DirectionOther _ => Err ErrInvalidPosting
          end in
        match next with
        | Err e => Err e
        | Ok (debits, credits) =>
            match normalize_postings ps debits credits with
            | Err e => Err e
            | Ok (debits, credits, rest) => Ok (debits, credits, n :: rest)
            end
        end
  end.

Definition balanced (debits credits : amounts) : bool :=
  bool_decide (map_Forall (λ asset debit, amount_of credits asset = debit) debits) &&
  bool_decide (map_Forall (λ asset credit, amount_of debits asset = credit) credits).

(** [fresh] is the identifier drawn when the entry has none, [now] the clock. *)
Definition normalizeEntry (fresh : string) (now : Z) (entry : Entry.t)
    : result LedgerError Entry.t :=
  match Entry.Postings entry with
  | [] => Err ErrEmptyEntry
  | _ =>
      let id := if String.eqb (TrimSpace (Entry.EntryID entry)) "" then fresh
                else Entry.EntryID entry in
      let created := default now (Entry.CreatedAt entry) in
      let status := if String.eqb (Entry.Status entry) "" then EntryStatusConfirmed
                    else Entry.Status entry in
      match normalize_postings (Entry.Postings entry) ∅ ∅ with
      | Err e => Err e
      | Ok (debits, credits, postings) =>
          if negb (balanced debits credits) then Err ErrUnbalancedEntry
          else Ok (Entry.mk id (normalize_upper (Entry.BizType entry))
                     (TrimSpace (Entry.RefID entry)) postings (Some created) status)
      end
  end.

Section journal.
Context {S : Type} `{!JournalStore S}.

Record Journal := mkJournal {
  entries : list Entry.t;
  entrySeen : gset string;
  jstore : option S;
}.

Definition NewJournal : Journal := mkJournal [] ∅ None.
Definition NewPersistentJournal (s : S) : Journal := mkJournal [] ∅ (Some s).

Definition Append (fresh : string) (now : Z) (j : Journal) (entry : Entry.t)
    : Journal * result LedgerError Entry.t :=
  match normalizeEntry fresh now entry with
  | Err e => (j, Err e)
  | Ok normalized =>
      if bool_decide (Entry.EntryID normalized ∈ entrySeen j) then (j, Err ErrDuplicateEntryID)
      else
        let '(st, err) :=
          match jstore j with
          | None => (None, None)
          | Some s => let '(s, err) := AppendEntry s normalized in (Some s, err)
          end in
        match err with
        | Some e => (mkJournal (entries j) (entrySeen j) st, Err (ErrLedgerStore e))
        | None =>
            (mkJournal (entries j ++ [normalized]) ({[Entry.EntryID normalized]} ∪ entrySeen j) st,
             Ok normalized)
        end
  end.

(** The signed amount a posting contributes to an account. *)
Definition apply_posting (account asset : string) (balance : Z) (p : Posting.t) : Z :=
  if negb (String.eqb (normalizeAccount (Posting.Account p)) account) ||
     negb (String.eqb (normalizeAsset (Posting.Asset p)) asset) then balance
  else
    match Posting.Dir p with
    | DirectionCredit => balance ⊞ Posting.Amount p
    | DirectionDebit => balance ⊟ Posting.Amount p
    | DirectionOther _ => balance
    end.

Definition BalanceOf (j : Journal) (account asset : string) : Z :=
  let account := normalizeAccount account in
  let asset := normalizeAsset asset in
  fold_left (λ balance entry, fold_left (apply_posting account asset) (Entry.Postings entry) balance)
    (entries j) 0.

(** ** Consumers *)

Definition availableAccount (userID : Z) : string := "user:" +:+ itoa userID +:+ ":available".
Definition positionAccount (userID marketID : Z) (outcome : string) : string :=
  "user:" +:+ itoa userID +:+ ":position:" +:+ itoa marketID +:+ ":" +:+ normalize_upper outcome.
Definition marketTreasuryAccount (marketID : Z) : string :=
  "market:" +:+ itoa marketID +:+ ":treasury".
Definition resolvedPoolAccount (marketID : Z) (outcome : string) : string :=
  "market:" +:+ itoa marketID +:+ ":resolved:" +:+ outcome.

Definition ledgerNotional (price quantity : Z) : result LedgerError Z :=
  if (price <=? 0) || (quantity <=? 0) then Err ErrLedgerNotionalNotPositive
  else if MaxInt64 `quot` quantity <? price then Err ErrLedgerNotionalOverflow
  else Ok (price ⊠ quantity).

(** [transferParties] (payer, receiver) and [positionParties] (buyer, seller)
    return the same pair. *)
Definition transferParties (event : TradeMatchedEvent.t) : result LedgerError (Z * Z) :=
  let side := normalize_upper (TradeMatchedEvent.TakerSide event) in
  if String.eqb side "BUY"
  then Ok (TradeMatchedEvent.TakerUserID event, TradeMatchedEvent.MakerUserID event)
  else if String.eqb side "SELL"
  then Ok (TradeMatchedEvent.MakerUserID event, TradeMatchedEvent.TakerUserID event)
  else Err (ErrUnsupportedTakerSide (TradeMatchedEvent.TakerSide event)).

Definition positionParties (event : TradeMatchedEvent.t) : result LedgerError (Z * Z) :=
  let side := normalize_upper (TradeMatchedEvent.TakerSide event) in
  if String.eqb side "BUY"
  then Ok (TradeMatchedEvent.TakerUserID event, TradeMatchedEvent.MakerUserID event)
  else if String.eqb side "SELL"
  then Ok (TradeMatchedEvent.MakerUserID event, TradeMatchedEvent.TakerUserID event)
  else Err (ErrUnsupportedTakerSide (TradeMatchedEvent.TakerSide event)).

Definition trade_asset (event : TradeMatchedEvent.t) : string :=
  let asset := normalize_upper (TradeMatchedEvent.CollateralAsset event) in
  if String.eqb asset "" then "USDT" else asset.

Definition trade_postings (event : TradeMatchedEvent.t) (notional payer receiver buyer seller : Z)
    : list Posting.t :=
  let asset := trade_asset event in
  let market := TradeMatchedEvent.MarketID event in
  let outcome := TradeMatchedEvent.Outcome event in
  let quantity := TradeMatchedEvent.Quantity event in
  [Posting.mk (availableAccount payer) asset DirectionDebit notional;
   Posting.mk (availableAccount receiver) asset DirectionCredit notional;
   Posting.mk (positionAccount seller market outcome) (PositionAsset market outcome)
     DirectionDebit quantity;
   Posting.mk (positionAccount buyer market outcome) (PositionAsset market outcome)
     DirectionCredit quantity].

Definition HandleTradeMatched (fresh : string) (now : Z) (msg : option TradeMatchedEvent.t)
    (j : Journal) : Journal * option LedgerError :=
  match msg with
  | None => (j, Some ErrLedgerDecode)
  | Some event =>
      match ledgerNotional (TradeMatchedEvent.Price event) (TradeMatchedEvent.Quantity event) with
      | Err e => (j, Some e)
      | Ok notional =>
          match transferParties event, positionParties event with
          | Err e, _ => (j, Some e)
          | Ok _, Err e => (j, Some e)
          | Ok (payer, receiver), Ok (buyer, seller) =>
              let '(j, res) := Append fresh now j
                (Entry.mk "" BizTypeTrade (TradeMatchedEvent.EventID event)
                   (trade_postings event notional payer receiver buyer seller) None "") in
              (j, match res with Ok _ => None | Err e => Some e end)
          end
      end
  end.

Definition settlement_postings (event : SettlementCompletedEvent.t) : list Posting.t :=
  let user := SettlementCompletedEvent.UserID event in
  let market := SettlementCompletedEvent.MarketID event in
  let outcome := SettlementCompletedEvent.WinningOutcome event in
  let quantity := SettlementCompletedEvent.SettledQuantity event in
  let payout := SettlementCompletedEvent.PayoutAmount event in
  [Posting.mk (positionAccount user market outcome)
     (SettlementCompletedEvent.PositionAsset event) DirectionDebit quantity;
   Posting.mk (resolvedPoolAccount market outcome)
     (SettlementCompletedEvent.PositionAsset event) DirectionCredit quantity;
   Posting.mk (marketTreasuryAccount market)
     (SettlementCompletedEvent.PayoutAsset event) DirectionDebit payout;
   Posting.mk (availableAccount user)
     (SettlementCompletedEvent.PayoutAsset event) DirectionCredit payout].

Definition HandleSettlementCompleted (fresh : string) (now : Z)
    (msg : option SettlementCompletedEvent.t) (j : Journal) : Journal * option LedgerError :=
  match msg with
  | None => (j, Some ErrLedgerDecode)
  | Some event =>
      let '(j, res) := Append fresh now j
        (Entry.mk "" BizTypeSettlement (SettlementCompletedEvent.EventID event)
           (settlement_postings event) None "") in
      (j, match res with Ok _ => None | Err e => Some e end)
  end.
End journal.

Arguments Journal S : clear implicits.

(** ** Reconciliation report *)

Record LiabilitySnapshot := mkLiability {
  liab_Asset : string;
  UserAvailable : Z;
  UserFrozen : Z;
  PendingSettlement : Z;
  PendingWithdraw : Z;
  PlatformFeeLiability : Z;
}.

Record ChainSnapshot := mkChain {
  chain_Asset : string;
  HotWallet : Z;
  ColdWallet : Z;
  ContractLocked : Z;
}.

Record ReportLine := mkReportLine {
  line_Asset : string;
  line_Internal : Z;
  line_Chain : Z;
  Difference : Z;
  line_Status : string;
}.

Definition InternalTotal (s : LiabilitySnapshot) : Z :=
  UserAvailable s ⊞ UserFrozen s ⊞ PendingSettlement s ⊞ PendingWithdraw s ⊞
    PlatformFeeLiability s.
Definition ChainTotal (s : ChainSnapshot) : Z := HotWallet s ⊞ ColdWallet s ⊞ ContractLocked s.

Definition report_line (liabilities : gmap string LiabilitySnapshot)
    (chains : gmap string ChainSnapshot) (asset : string) : ReportLine :=
  let internal := InternalTotal (default (mkLiability "" 0 0 0 0 0) (liabilities !! asset)) in
  let chain := ChainTotal (default (mkChain "" 0 0 0) (chains !! asset)) in
  let diff := chain ⊟ internal in
  mkReportLine asset internal chain diff (if negb (diff =? 0) then "DRIFT" else "BALANCED").

(** A later item of the same asset replaces an earlier one. *)
Definition index_by {A} (asset : A → string) (l : list A) : gmap string A :=
  fold_left (λ m item, <[normalizeAsset (asset item) := item]> m) l ∅.

Definition BuildReport (liabilities : list LiabilitySnapshot) (chains : list ChainSnapshot)
    : list ReportLine :=
  let liabilityMap := index_by liab_Asset liabilities in
  let chainMap := index_by chain_Asset chains in
  let keys : gset string := dom liabilityMap ∪ dom chainMap in
  report_line liabilityMap chainMap <$> merge_sort String.le (elements keys).

(** ** The SQL store

    [ledger/service/sql_store.go]: an entry and its postings in one transaction, which may
    fail.  An instant is stored as its Unix time in seconds. *)

Module EntryRow.
Record t := mk { biz_type : string; ref_id : string; status : string; created_at : Z }.
End EntryRow.

Module PostingRow.
Record t := mk {
  entry_id : string;
  account_ref : string;
  asset : string;
  direction : Direction;
  amount : Z;
  created_at : Z;
}.
End PostingRow.

(** [ledger_entries] by [entry_id], [ledger_postings] in the order of insertion; the
    failures by transaction. *)
Record LedgerTables := mkLedgerTables {
  t_entries : gmap string EntryRow.t;
  t_postings : list PostingRow.t;
  ledger_fail : nat → option string;
  ledger_count : nat;
}.

Definition entry_row (e : Entry.t) : EntryRow.t :=
  EntryRow.mk (Entry.BizType e) (Entry.RefID e) (Entry.Status e) (default 0 (Entry.CreatedAt e)).

Definition posting_row (e : Entry.t) (p : Posting.t) : PostingRow.t :=
  PostingRow.mk (Entry.EntryID e) (Posting.Account p) (Posting.Asset p) (Posting.Dir p)
    (Posting.Amount p) (default 0 (Entry.CreatedAt e)).

(** The entry is inserted unless there is one of its name; the postings always are. *)
Definition sql_AppendEntry (s : LedgerTables) (e : Entry.t) : LedgerTables * option string :=
  match ledger_fail s (ledger_count s) with
  | Some err => (mkLedgerTables (t_entries s) (t_postings s) (ledger_fail s) (S (ledger_count s)), Some err)
  | None =>
      (mkLedgerTables
         (match t_entries s !! Entry.EntryID e with
          | Some _ => t_entries s
          | None => <[Entry.EntryID e := entry_row e]> (t_entries s)
          end)
         (t_postings s ++ (posting_row e <$> Entry.Postings e)) (ledger_fail s) (S (ledger_count s)), None)
  end.

#[global] Instance sql_journal : JournalStore LedgerTables := {| AppendEntry := sql_AppendEntry |}.
