(* ===== verification/LedgerProps.v ===== *)
(** * Ledger service: the journal is a double-entry book

    The invariant of the journal, that appending keeps it, that the balances of
    an asset cancel out over all accounts, what one trade moves, and the
    reconciliation report. *)

From stdpp Require Import sorting.
From S2P Require Import Prelude Strings Shared Messages Ledger.

Local Open Scope Z_scope.
Local Open Scope go_scope.

(** ** Signed amounts *)

Definition signed (p : Posting.t) : Z :=
  match Posting.Dir p with
  | DirectionCredit => Posting.Amount p
  | DirectionDebit => - Posting.Amount p
  | DirectionOther _ => 0
  end.

(** What a posting contributes to an account, and to an asset as a whole. *)
Definition share (account asset : string) (p : Posting.t) : Z :=
  if bool_decide (normalizeAccount (Posting.Account p) = account ∧
                  normalizeAsset (Posting.Asset p) = asset) then signed p else 0.

Definition asset_share (asset : string) (p : Posting.t) : Z :=
  if bool_decide (Posting.Asset p = asset) then signed p else 0.

Definition journal_postings {S} (j : Journal S) : list Posting.t :=
  entries j ≫= Entry.Postings.

Lemma apply_posting_share account asset b p :
  apply_posting account asset b p = wrap64 (b + share account asset p) ∨
  (apply_posting account asset b p = b ∧ share account asset p = 0).
Proof.
  unfold apply_posting, share, signed.
  destruct (String.eqb_spec (normalizeAccount (Posting.Account p)) account) as [E1|E1];
    destruct (String.eqb_spec (normalizeAsset (Posting.Asset p)) asset) as [E2|E2]; simpl;
    rewrite ?bool_decide_true, ?bool_decide_false by naive_solver; auto.
  destruct (Posting.Dir p); auto.
Qed.

Lemma wrap64_add_wrap a b c : wrap64 a = wrap64 b → wrap64 (a + c) = wrap64 (b + c).
Proof. intros H. by rewrite <-(wrap64_add_l a), <-(wrap64_add_l b), H. Qed.

Lemma fold_postings account asset ps b :
  wrap64 (fold_left (apply_posting account asset) ps b) =
  wrap64 (b + sumZ (share account asset) ps).
Proof.
  revert b. induction ps as [|p ps IH]; intros b; simpl; [by rewrite Z.add_0_r|].
  rewrite IH, Z.add_assoc. apply wrap64_add_wrap.
  destruct (apply_posting_share account asset b p) as [->|[-> ->]].
  - apply wrap64_id, wrap64_range.
  - by rewrite Z.add_0_r.
Qed.

Lemma fold_postings_range account asset ps b :
  int64 b → int64 (fold_left (apply_posting account asset) ps b).
Proof.
  revert b. induction ps as [|p ps IH]; intros b Hb; simpl; [done|]. apply IH.
  destruct (apply_posting_share account asset b p) as [->|[-> _]]; [auto with go|done].
Qed.

Lemma int64_0 : int64 0.
Proof. by unfold int64, MinInt64, MaxInt64. Qed.

(** The running total of [BalanceOf] is the wrapped sum of the signed postings. *)
Lemma BalanceOf_sum {S} (j : Journal S) account asset :
  BalanceOf j account asset =
  wrap64 (sumZ (share (normalizeAccount account) (normalizeAsset asset)) (journal_postings j)).
Proof.
  unfold BalanceOf, journal_postings. generalize (normalizeAccount account) (normalizeAsset asset).
  clear account asset. intros account asset.
  enough (∀ b, int64 b → fold_left (λ balance entry,
      fold_left (apply_posting account asset) (Entry.Postings entry) balance) (entries j) b =
    wrap64 (b + sumZ (share account asset) (entries j ≫= Entry.Postings))) as H.
  { by rewrite H by apply int64_0. }
  induction (entries j) as [|e es IH]; intros b Hb; simpl.
  - by rewrite Z.add_0_r, wrap64_id.
  - rewrite IH by (by apply fold_postings_range).
    rewrite sumZ_app, Z.add_assoc. apply wrap64_add_wrap, fold_postings.
Qed.

(** ** Normalised entries *)

Lemma normalizeAccount_idem a : normalizeAccount (normalizeAccount a) = normalizeAccount a.
Proof. apply lower_trim_idem. Qed.

Lemma normalizeAsset_idem a : normalizeAsset (normalizeAsset a) = normalizeAsset a.
Proof. apply normalize_upper_idem. Qed.

Definition posting_ok (p : Posting.t) : Prop :=
  normalize_posting p = p ∧ posting_valid p = true ∧
  (Posting.Dir p = DirectionDebit ∨ Posting.Dir p = DirectionCredit).

(** Every posting is normalised and positive, and each asset nets to zero. *)
Definition entry_ok (e : Entry.t) : Prop :=
  Entry.Postings e ≠ [] ∧ Forall posting_ok (Entry.Postings e) ∧
  is_Some (Entry.CreatedAt e) ∧ Entry.Status e ≠ "" ∧
  ∀ asset, wrap64 (sumZ (asset_share asset) (Entry.Postings e)) = 0.

Definition journal_ok {S} (j : Journal S) : Prop :=
  NoDup (Entry.EntryID <$> entries j) ∧
  (∀ id, id ∈ entrySeen j ↔ id ∈ Entry.EntryID <$> entries j) ∧
  Forall entry_ok (entries j).

Lemma normalize_posting_idem p : normalize_posting (normalize_posting p) = normalize_posting p.
Proof. unfold normalize_posting. simpl. by rewrite normalizeAccount_idem, normalizeAsset_idem. Qed.

Lemma amount_of_add m asset n a :
  amount_of (add_amount m asset n) a =
  if bool_decide (asset = a) then amount_of m a ⊞ n else amount_of m a.
Proof.
  unfold amount_of, add_amount. case_bool_decide as E; subst.
  - by rewrite lookup_insert_eq.
  - by rewrite lookup_insert_ne.
Qed.

Lemma wrap64_sub_both a b c : wrap64 (wrap64 (a + c) - b) = wrap64 (a - b + c).
Proof. rewrite wrap64_sub_l. f_equal. lia. Qed.

Lemma wrap64_sub_r a b : wrap64 (a - wrap64 b) = wrap64 (a - b).
Proof.
  unfold wrap64. f_equal.
  replace (a - ((b + 2 ^ 63) `mod` 2 ^ 64 - 2 ^ 63) + 2 ^ 63)
    with ((a + 2 ^ 63 + 2 ^ 63) - (b + 2 ^ 63) `mod` 2 ^ 64) by lia.
  rewrite Zminus_mod_idemp_r. f_equal. lia.
Qed.

(** The posting loop returns normalised valid postings, and the difference of its
    two maps is their net. *)
Lemma normalize_postings_spec ps debits credits d c out :
  normalize_postings ps debits credits = Ok (d, c, out) →
  Forall posting_ok out ∧ length out = length ps ∧
  ∀ asset, wrap64 (amount_of c asset - amount_of d asset) =
    wrap64 (amount_of credits asset - amount_of debits asset + sumZ (asset_share asset) out).
Proof.
  revert debits credits d c out. induction ps as [|p ps IH]; intros debits credits d c out.
  { simpl. intros [= <- <- <-]. split_and!; [done..|]. intros. f_equal. simpl. lia. }
  cbn [normalize_postings].
  destruct (posting_valid (normalize_posting p)) eqn:Hv; [|done]. cbn [negb].
  assert (∀ debits' credits',
    (Posting.Dir (normalize_posting p) = DirectionDebit ∨
     Posting.Dir (normalize_posting p) = DirectionCredit) →
    (∀ asset, wrap64 (amount_of credits' asset - amount_of debits' asset) =
       wrap64 (amount_of credits asset - amount_of debits asset +
               asset_share asset (normalize_posting p))) →
    match normalize_postings ps debits' credits' with
    | Ok (d, c, rest) => Ok (d, c, normalize_posting p :: rest) | Err e => Err e
    end = Ok (d, c, out) →
    Forall posting_ok out ∧ length out = length (p :: ps) ∧
    ∀ asset, wrap64 (amount_of c asset - amount_of d asset) =
      wrap64 (amount_of credits asset - amount_of debits asset + sumZ (asset_share asset) out))
    as Hstep.
  { intros debits' credits' Hdir Hnet.
    destruct (normalize_postings ps debits' credits') as [[[d' c'] rest]|] eqn:E; [|done].
    intros [= <- <- <-]. destruct (IH _ _ _ _ _ E) as (Hok & Hlen & Hsum).
    split_and!.
    - constructor; [|done]. split_and!; [apply normalize_posting_idem|done|done].
    - simpl. by rewrite Hlen.
    - intros asset. rewrite Hsum. simpl. rewrite Z.add_assoc.
      apply wrap64_add_wrap, Hnet. }
  destruct (Posting.Dir (normalize_posting p)) eqn:Hdir; [| |done]; apply Hstep; auto; intros asset;
    rewrite amount_of_add; unfold asset_share, signed; rewrite Hdir; case_bool_decide;
    rewrite ?Z.add_0_r; try done.
  - rewrite wrap64_sub_r. f_equal. lia.
  - by rewrite wrap64_sub_both.
Qed.

Lemma balanced_net d c asset : balanced d c = true → amount_of c asset = amount_of d asset.
Proof.
  unfold balanced. rewrite andb_true_iff, !bool_decide_eq_true. intros [Hd Hc].
  destruct (d !! asset) as [x|] eqn:Ed.
  - rewrite (Hd _ _ Ed). unfold amount_of. by rewrite Ed.
  - destruct (c !! asset) as [y|] eqn:Ec.
    + rewrite (Hc _ _ Ec). unfold amount_of. by rewrite Ec.
    + unfold amount_of. by rewrite Ed, Ec.
Qed.

Lemma normalizeEntry_ok fresh now e n : normalizeEntry fresh now e = Ok n → entry_ok n.
Proof.
  unfold normalizeEntry. destruct (Entry.Postings e) as [|p ps] eqn:Ep; [done|].
  destruct (normalize_postings _ ∅ ∅) as [[[d c] out]|] eqn:E; [|done].
  destruct (balanced d c) eqn:Hb; [|done]. intros [= <-].
  destruct (normalize_postings_spec _ _ _ _ _ _ E) as (Hok & Hlen & Hnet).
  split_and!; simpl.
  - intros ->. done.
  - done.
  - done.
  - by destruct (String.eqb_spec (Entry.Status e) "").
  - intros asset. specialize (Hnet asset). rewrite (balanced_net d c asset Hb) in Hnet.
    unfold amount_of in Hnet at 3 4. rewrite !lookup_empty in Hnet. simpl in Hnet.
    by rewrite Z.sub_diag in Hnet.
Qed.

(** ** Appending *)

Section append.
Context {S : Type} `{!JournalStore S}.

Lemma Append_cases fresh now (j j' : Journal S) entry res :
  Append fresh now j entry = (j', res) →
  (∃ n, res = Ok n ∧ normalizeEntry fresh now entry = Ok n ∧ Entry.EntryID n ∉ entrySeen j ∧
     entries j' = entries j ++ [n] ∧ entrySeen j' = {[Entry.EntryID n]} ∪ entrySeen j) ∨
  (∃ e, res = Err e ∧ entries j' = entries j ∧ entrySeen j' = entrySeen j).
Proof.
  unfold Append. destruct (normalizeEntry fresh now entry) as [n|e]; [|intros [= <- <-]; right; eauto].
  case_bool_decide as Hseen; [intros [= <- <-]; right; eauto|].
  destruct (jstore j) as [s|]; [destruct (AppendEntry s n) as [s' [e|]]|]; intros [= <- <-];
    [right|left|left]; simpl; eauto 10.
Qed.

Lemma journal_ok_append (j j' : Journal S) n :
  journal_ok j → entry_ok n → Entry.EntryID n ∉ entrySeen j →
  entries j' = entries j ++ [n] → entrySeen j' = {[Entry.EntryID n]} ∪ entrySeen j →
  journal_ok j'.
Proof.
  intros (Hnd & Hseen & Hok) Hn Hnew He Hs. unfold journal_ok. rewrite He, Hs, fmap_app. simpl.
  split_and!.
  - apply NoDup_app. split_and!; [done| |apply NoDup_singleton].
    intros id Hid ->%list_elem_of_singleton. by apply Hnew, Hseen.
  - intros id. rewrite elem_of_union, elem_of_singleton, elem_of_app, Hseen, list_elem_of_singleton.
    tauto.
  - apply Forall_app. split; [done|by constructor].
Qed.

(** The journals a process can reach: new ones, then any sequence of appends,
    whatever identifier and clock value each draws and whatever its store answers. *)
Inductive reachable : Journal S → Prop :=
| reach_new : reachable NewJournal
| reach_store s : reachable (NewPersistentJournal s)
| reach_append j fresh now entry :
    reachable j → reachable (Append fresh now j entry).1.

Lemma journal_ok_new o : journal_ok (mkJournal [] ∅ o : Journal S).
Proof. split_and!; [constructor| |constructor]. intros id. simpl. set_solver. Qed.

Lemma reachable_ok j : reachable j → journal_ok j.
Proof.
  induction 1 as [|s|j fresh now entry _ IH]; [apply journal_ok_new..|].
  destruct (Append fresh now j entry) as [j' res] eqn:E. simpl.
  destruct (Append_cases _ _ _ _ _ _ E) as [(n & _ & Hn & Hnew & He & Hs)|(e & _ & He & Hs)].
  - eapply journal_ok_append; eauto using normalizeEntry_ok.
  - unfold journal_ok. by rewrite He, Hs.
Qed.

(** ** The books balance *)

Lemma share_sum_accounts asset accounts p :
  posting_ok p → NoDup accounts → Posting.Account p ∈ accounts →
  sumZ (λ a, share a asset p) accounts = asset_share asset p.
Proof.
  intros (Hn & _ & _) Hnd Hin. 
  pose proof (f_equal Posting.Account Hn) as Hacc. pose proof (f_equal Posting.Asset Hn) as Hass.
  simpl in Hacc, Hass. clear Hn.
  assert (∀ l, Posting.Account p ∉ l → sumZ (λ a, share a asset p) l = 0) as Hz.
  { induction l as [|a l IH]; [done|]. simpl. intros Hnot. rewrite IH by set_solver.
    unfold share. rewrite bool_decide_false; [done|]. rewrite Hacc. set_solver. }
  induction Hnd as [|a l Hnot Hnd IH]; [by apply not_elem_of_nil in Hin|]. simpl.
  destruct (decide (Posting.Account p = a)) as [<-|Hne].
  - rewrite Hz, Z.add_0_r by done. unfold share, asset_share. rewrite Hacc, Hass.
    by rewrite (bool_decide_ext _ (Posting.Asset p = asset)) by naive_solver.
  - rewrite IH by set_solver. unfold share at 1. rewrite bool_decide_false by (rewrite Hacc; naive_solver).
    done.
Qed.

Lemma sumZ_add {A} (f g : A → Z) l : sumZ (λ x, f x + g x) l = sumZ f l + sumZ g l.
Proof. induction l; simpl; lia. Qed.

Lemma sumZ_zero {A} (l : list A) : sumZ (λ _, 0) l = 0.
Proof. induction l; simpl; lia. Qed.

(** Summing account by account or posting by posting. *)
Lemma sumZ_swap {A B} (f : A → B → Z) la lb :
  sumZ (λ a, sumZ (f a) lb) la = sumZ (λ b, sumZ (λ a, f a b) la) lb.
Proof.
  induction lb as [|b lb IH]; simpl; [apply sumZ_zero|]. by rewrite sumZ_add, IH.
Qed.

Lemma wrap64_sumZ {A} (f : A → Z) l : wrap64 (sumZ (λ x, wrap64 (f x)) l) = wrap64 (sumZ f l).
Proof.
  induction l as [|x l IH]; simpl; [done|]. rewrite wrap64_add_l, !(Z.add_comm (f x)).
  by apply wrap64_add_wrap.
Qed.

Lemma entries_net (es : list Entry.t) asset :
  Forall entry_ok es → wrap64 (sumZ (asset_share asset) (es ≫= Entry.Postings)) = 0.
Proof.
  induction 1 as [|e es (_ & _ & _ & _ & He) _ IH]; [done|]. simpl.
  rewrite sumZ_app, <-wrap64_add_l, He. done.
Qed.

Lemma journal_postings_ok (j : Journal S) :
  journal_ok j → Forall posting_ok (journal_postings j).
Proof.
  intros (_ & _ & Hok). unfold journal_postings. induction Hok as [|e es (_ & He & _) _ IH]; [done|].
  simpl. by apply Forall_app.
Qed.

Lemma balances_cancel (j : Journal S) asset accounts :
  journal_ok j → NoDup accounts → Forall (λ a, normalizeAccount a = a) accounts →
  Forall (λ p, Posting.Account p ∈ accounts) (journal_postings j) →
  wrap64 (sumZ (λ a, BalanceOf j a asset) accounts) = 0.
Proof.
  intros Hj Hnd Hnorm Hcover.
  rewrite (sumZ_ext_in _ (λ a, wrap64 (sumZ (share a (normalizeAsset asset)) (journal_postings j)))).
  2:{ intros a Ha. rewrite BalanceOf_sum. by rewrite (proj1 (Forall_forall _ _) Hnorm a Ha). }
  rewrite wrap64_sumZ, sumZ_swap.
  rewrite (sumZ_ext_in _ (asset_share (normalizeAsset asset))).
  - by apply entries_net, Hj.
  - intros p Hp. apply share_sum_accounts; [|done|].
    + exact (proj1 (Forall_forall _ _) (journal_postings_ok j Hj) p Hp).
    + exact (proj1 (Forall_forall _ _) Hcover p Hp).
Qed.
End append.

(** ** Account names *)

Lemma availableAccount_normal u : normalizeAccount (availableAccount u) = availableAccount u.
Proof.
  unfold normalizeAccount. rewrite TrimSpace_id.
  - unfold availableAccount, ToLower. rewrite !string_map_append.
    fold (ToLower (itoa u)). by rewrite itoa_lower.
  - done.
  - unfold availableAccount. rewrite !rev_append. done.
Qed.

Lemma positionAccount_lower u m o :
  normalizeAccount (positionAccount u m o) =
  "user:" +:+ itoa u +:+ ":position:" +:+ itoa m +:+ ":" +:+ ToLower (normalize_upper o).
Proof.
  unfold normalizeAccount. rewrite TrimSpace_id.
  - unfold positionAccount, ToLower. rewrite !string_map_append.
    fold (ToLower (itoa u)) (ToLower (itoa m)). by rewrite !itoa_lower.
  - done.
  - unfold positionAccount. rewrite !rev_append. pose proof (rev_normalize_tight o) as Ht.
    destruct (String.rev (normalize_upper o)) as [|a t]; done.
Qed.

Lemma user_prefix_inj a b : "user:" +:+ a = "user:" +:+ b → a = b.
Proof. apply (inj (String.append "user:")). Qed.

Lemma available_inj u v :
  normalizeAccount (availableAccount u) = normalizeAccount (availableAccount v) ↔ u = v.
Proof.
  rewrite !availableAccount_normal. split; [|by intros ->]. intros H%user_prefix_inj.
  by apply (itoa_key_inj u v "available" "available") in H as [? _].
Qed.

Lemma available_position u v m o :
  normalizeAccount (availableAccount u) ≠ normalizeAccount (positionAccount v m o).
Proof.
  rewrite availableAccount_normal, positionAccount_lower. intros H%user_prefix_inj.
  apply (itoa_key_inj u v "available" ("position:" +:+ itoa m +:+ ":" +:+ ToLower (normalize_upper o)))
    in H as [_ H]. done.
Qed.

Lemma position_inj u v m o :
  normalizeAccount (positionAccount u m o) = normalizeAccount (positionAccount v m o) ↔ u = v.
Proof.
  rewrite !positionAccount_lower. split; [|by intros ->]. intros H%user_prefix_inj.
  by apply (itoa_key_inj u v ("position:" +:+ itoa m +:+ ":" +:+ ToLower (normalize_upper o))
    ("position:" +:+ itoa m +:+ ":" +:+ ToLower (normalize_upper o))) in H as [? _].
Qed.

Lemma share_normalize account asset p :
  share account asset (normalize_posting p) = share account asset p.
Proof. unfold share. simpl. by rewrite normalizeAccount_idem, normalizeAsset_idem. Qed.

Lemma trade_asset_normal event :
  normalizeAsset (trade_asset event) = trade_asset event ∧ trade_asset event ≠ "".
Proof.
  unfold trade_asset, normalizeAsset.
  destruct (String.eqb_spec (normalize_upper (TradeMatchedEvent.CollateralAsset event)) "").
  - done.
  - by rewrite normalize_upper_idem.
Qed.

(** The four postings of a trade pass the checks of [normalizeEntry]. *)
Lemma trade_entry_normalizes fresh now event notional payer receiver :
  0 < notional → 0 < TradeMatchedEvent.Quantity event →
  ∃ n, normalizeEntry fresh now
      (Entry.mk "" BizTypeTrade (TradeMatchedEvent.EventID event)
         (trade_postings event notional payer receiver payer receiver) None "") = Ok n ∧
    Entry.EntryID n = fresh ∧
    Entry.Postings n =
      normalize_posting <$> trade_postings event notional payer receiver payer receiver.
Proof.
  intros Hn Hq. destruct (trade_asset_normal event) as [Ha Hane].
  set (PA := PositionAsset (TradeMatchedEvent.MarketID event) (TradeMatchedEvent.Outcome event)).
  assert (∀ u, posting_valid (normalize_posting
    (Posting.mk (availableAccount u) (trade_asset event) DirectionDebit notional)) = true) as H1.
  { intros u. unfold posting_valid. simpl. rewrite availableAccount_normal, Ha.
    destruct (String.eqb_spec (trade_asset event) ""); [done|].
    by rewrite (proj2 (Z.leb_gt _ _) Hn). }
  assert (∀ u, posting_valid (normalize_posting
    (Posting.mk (positionAccount u (TradeMatchedEvent.MarketID event) (TradeMatchedEvent.Outcome event))
       PA DirectionDebit (TradeMatchedEvent.Quantity event))) = true) as H2.
  { intros u. unfold posting_valid. simpl. rewrite positionAccount_lower.
    destruct (String.eqb_spec (normalizeAsset PA) "") as [E|_].
    { by apply normalize_upper_nonempty in E. }
    by rewrite (proj2 (Z.leb_gt _ _) Hq). }
  eexists. split; [|split].
  - unfold normalizeEntry, trade_postings. fold PA. cbn [Entry.Postings normalize_postings Entry.EntryID].
    change (posting_valid (normalize_posting
      (Posting.mk (availableAccount receiver) (trade_asset event) DirectionCredit notional)))
      with (posting_valid (normalize_posting
      (Posting.mk (availableAccount receiver) (trade_asset event) DirectionDebit notional))).
    change (posting_valid (normalize_posting (Posting.mk
      (positionAccount payer (TradeMatchedEvent.MarketID event) (TradeMatchedEvent.Outcome event))
       PA DirectionCredit (TradeMatchedEvent.Quantity event))))
      with (posting_valid (normalize_posting (Posting.mk
      (positionAccount payer (TradeMatchedEvent.MarketID event) (TradeMatchedEvent.Outcome event))
       PA DirectionDebit (TradeMatchedEvent.Quantity event)))).
    rewrite !H1, !H2.
    cbn [negb normalize_posting Posting.Dir Posting.Asset Posting.Amount Posting.Account].
    match goal with |- context [balanced ?d ?d] => assert (balanced d d = true) as -> end.
    { unfold balanced. apply andb_true_iff. split; apply bool_decide_eq_true;
        intros a x Hx; unfold amount_of; by rewrite Hx. }
    reflexivity.
  - done.
  - done.
Qed.

Section effect.
Context {S : Type} `{!JournalStore S}.

(** The store of a journal, if it has one, accepts what it is given. *)
Definition store_accepts (j : Journal S) : Prop :=
  ∀ s n, jstore j = Some s → (AppendEntry s n).2 = None.

Lemma Append_ok fresh now (j : Journal S) entry n :
  normalizeEntry fresh now entry = Ok n → Entry.EntryID n ∉ entrySeen j → store_accepts j →
  ∃ j', Append fresh now j entry = (j', Ok n) ∧ entries j' = entries j ++ [n].
Proof.
  intros Hn Hnew Hst. unfold Append. rewrite Hn, bool_decide_false by done.
  destruct (jstore j) as [s|] eqn:E; [|eauto].
  specialize (Hst s n E). destruct (AppendEntry s n) as [s' err]. simpl in Hst. subst. eauto.
Qed.

Lemma BalanceOf_append (j j' : Journal S) n account asset :
  entries j' = entries j ++ [n] →
  BalanceOf j' account asset = wrap64 (BalanceOf j account asset +
    sumZ (share (normalizeAccount account) (normalizeAsset asset)) (Entry.Postings n)).
Proof.
  intros He. rewrite !BalanceOf_sum, wrap64_add_l. unfold journal_postings.
  rewrite He, bind_app, sumZ_app. simpl. by rewrite app_nil_r.
Qed.

Lemma transfer_position_parties event : positionParties event = transferParties event.
Proof. done. Qed.

Lemma trade_appended (j : Journal S) fresh now event notional payer receiver :
  ledgerNotional (TradeMatchedEvent.Price event) (TradeMatchedEvent.Quantity event) = Ok notional →
  transferParties event = Ok (payer, receiver) →
  fresh ∉ entrySeen j → store_accepts j →
  ∃ j', HandleTradeMatched fresh now (Some event) j = (j', None) ∧
    ∀ account asset, BalanceOf j' account asset = wrap64 (BalanceOf j account asset +
      sumZ (share (normalizeAccount account) (normalizeAsset asset))
        (trade_postings event notional payer receiver payer receiver)).
Proof.
  intros Hnot Hpar Hfresh Hst. unfold HandleTradeMatched.
  rewrite (transfer_position_parties event), Hnot, Hpar.
  assert (0 < TradeMatchedEvent.Quantity event ∧ 0 < notional) as [Hq Hn].
  { revert Hnot. unfold ledgerNotional.
    destruct (Z.leb_spec (TradeMatchedEvent.Price event) 0); [done|].
    destruct (Z.leb_spec (TradeMatchedEvent.Quantity event) 0); [done|]. simpl.
    destruct (Z.ltb_spec (MaxInt64 `quot` TradeMatchedEvent.Quantity event)
      (TradeMatchedEvent.Price event)); [done|]. intros [= <-].
    rewrite mul_fits by (try apply quot_guard; lia). nia. }
  destruct (trade_entry_normalizes fresh now event notional payer receiver Hn Hq)
    as (n & Hnorm & Hid & Hps).
  destruct (Append_ok fresh now j _ n Hnorm) as (j' & -> & He); [by rewrite Hid|done|].
  exists j'. split; [done|]. intros account asset. rewrite (BalanceOf_append _ _ _ _ _ He), Hps.
  f_equal. f_equal. unfold trade_postings. cbn [fmap list_fmap sumZ]. by rewrite !share_normalize.
Qed.
End effect.

(** ** Theorems *)

(** The journal is append-only: whatever entry is offered, whatever the
    persistent store answers, [Append] keeps the invariant (unique entry ids, the
    seen set is exactly the stored ids, every stored entry normalised and balanced
    in each asset), and either adds the one entry it returns, whose id was not
    there before, or reports an error and leaves the entries as they were. *)
Theorem journal_append_only {S} `{!JournalStore S} fresh now (j : Journal S) entry :
  journal_ok j →
  let '(j', res) := Append fresh now j entry in
  journal_ok j' ∧
  match res with
  | Ok n => entries j' = entries j ++ [n] ∧ Entry.EntryID n ∉ Entry.EntryID <$> entries j
  | Err _ => entries j' = entries j ∧ entrySeen j' = entrySeen j
  end.
Proof.
  intros Hj. destruct (Append fresh now j entry) as [j' res] eqn:E.
  destruct (Append_cases _ _ _ _ _ _ E) as [(n & -> & Hn & Hnew & He & Hs)|(e & -> & He & Hs)].
  - split; [eapply journal_ok_append; eauto using normalizeEntry_ok|]. split; [done|].
    by rewrite <-(proj1 (proj2 Hj)).
  - split; [|done]. unfold journal_ok. by rewrite He, Hs.
Qed.

(** C9: the books balance: in every journal a process can reach, the balances
    [BalanceOf] reports for one asset, summed over the accounts that occur, are
    zero in 64-bit arithmetic. *)
Theorem books_balance {S} `{!JournalStore S} (j : Journal S) asset accounts :
  reachable j → NoDup accounts → Forall (λ a, normalizeAccount a = a) accounts →
  Forall (λ p, Posting.Account p ∈ accounts) (journal_postings j) →
  wrap64 (sumZ (λ a, BalanceOf j a asset) accounts) = 0.
Proof. intros Hj%reachable_ok. by apply balances_cancel. Qed.

(** Recording a trade moves the notional from the payer's available account
    to the receiver's and the traded quantity from the receiver's position to the
    payer's, and no other available or position account of that market: the buyer
    who pays is the one who gets the shares. *)
Theorem ledger_trade_effect {S} `{!JournalStore S} (j : Journal S) fresh now event
    notional payer receiver :
  ledgerNotional (TradeMatchedEvent.Price event) (TradeMatchedEvent.Quantity event) = Ok notional →
  transferParties event = Ok (payer, receiver) →
  fresh ∉ entrySeen j → store_accepts j →
  let '(j', err) := HandleTradeMatched fresh now (Some event) j in
  let asset := trade_asset event in
  let position u := positionAccount u (TradeMatchedEvent.MarketID event)
                      (TradeMatchedEvent.Outcome event) in
  let shares := PositionAsset (TradeMatchedEvent.MarketID event)
                  (TradeMatchedEvent.Outcome event) in
  let quantity := TradeMatchedEvent.Quantity event in
  err = None ∧
  (∀ u, BalanceOf j' (availableAccount u) asset =
     wrap64 (BalanceOf j (availableAccount u) asset +
       (if decide (u = receiver) then notional else 0) -
       (if decide (u = payer) then notional else 0))) ∧
  (∀ u, BalanceOf j' (position u) shares =
     wrap64 (BalanceOf j (position u) shares +
       (if decide (u = payer) then quantity else 0) -
       (if decide (u = receiver) then quantity else 0))).
Proof.
  intros Hnot Hpar Hfresh Hst.
  destruct (trade_appended j fresh now event notional payer receiver Hnot Hpar Hfresh Hst)
    as (j' & -> & Hbal).
  split; [done|]. split; intros u; rewrite Hbal; f_equal;
    unfold trade_postings, share, signed;
    cbn [sumZ Posting.Account Posting.Asset Posting.Dir Posting.Amount].
  - rewrite (bool_decide_ext (_ ∧ _) (payer = u)) by (rewrite available_inj; naive_solver).
    rewrite (bool_decide_ext (normalizeAccount (availableAccount receiver) = _ ∧ _) (receiver = u))
      by (rewrite available_inj; naive_solver).
    rewrite !(bool_decide_false (normalizeAccount (positionAccount _ _ _) = _ ∧ _))
      by (intros [H _]; by apply eq_sym, available_position in H).
    repeat case_bool_decide; repeat case_decide; subst; try done; lia.
  - rewrite !(bool_decide_false (normalizeAccount (availableAccount _) = _ ∧ _))
      by (intros [H _]; by apply available_position in H).
    rewrite (bool_decide_ext (_ ∧ _) (receiver = u)) by (rewrite position_inj; naive_solver).
    rewrite (bool_decide_ext (_ ∧ _) (payer = u)) by (rewrite position_inj; naive_solver).
    repeat case_bool_decide; repeat case_decide; subst; try done; lia.
Qed.

Lemma dom_index_by {A} (key : A → string) l a :
  a ∈ dom (index_by key l) ↔ ∃ x, x ∈ l ∧ normalizeAsset (key x) = a.
Proof.
  unfold index_by.
  enough (∀ m : gmap string A, a ∈ dom (fold_left
      (λ m item, <[normalizeAsset (key item) := item]> m) l m) ↔
    a ∈ dom m ∨ ∃ x, x ∈ l ∧ normalizeAsset (key x) = a) as H.
  { rewrite H, dom_empty, elem_of_empty. tauto. }
  induction l as [|x l IH]; intros m; cbn [fold_left].
  - split; [by left|]. intros [?|(x & Hx & _)]; [done|]. by apply not_elem_of_nil in Hx.
  - rewrite IH, dom_insert, elem_of_union, elem_of_singleton. setoid_rewrite elem_of_cons.
    naive_solver.
Qed.

Lemma report_line_status l c a :
  let r := report_line l c a in
  line_Asset r = a ∧ Difference r = line_Chain r ⊟ line_Internal r ∧
  (line_Status r = "BALANCED" ↔ line_Chain r = line_Internal r).
Proof.
  unfold report_line. cbn [line_Asset Difference line_Status line_Chain line_Internal].
  assert (∀ s, int64 (ChainTotal s)) as Hc by (intros s; apply wrap64_range).
  assert (∀ s, int64 (InternalTotal s)) as Hi by (intros s; apply wrap64_range).
  generalize (Hc (default (mkChain "" 0 0 0) (c !! a))).
  generalize (Hi (default (mkLiability "" 0 0 0 0 0) (l !! a))).
  generalize (ChainTotal (default (mkChain "" 0 0 0) (c !! a))) as x.
  generalize (InternalTotal (default (mkLiability "" 0 0 0 0 0) (l !! a))) as y.
  intros y x Hy Hx. split; [reflexivity|]. split; [reflexivity|].
  destruct (Z.eqb_spec (x ⊟ y) 0) as [E|E]; simpl; split; try done.
  - intros _. revert E Hx Hy. unfold wrap64, int64, MinInt64, MaxInt64. intros E Hx Hy.
    pose proof (Z.div_mod (x - y + 2 ^ 63) (2 ^ 64) ltac:(lia)). lia.
  - intros H. rewrite H in E. by rewrite Z.sub_diag in E.
Qed.

(** The reconciliation report has exactly one line per asset that occurs in
    the liabilities or the chain balances, in order of the asset name, and a line
    says [BALANCED] exactly when the chain total equals the internal total. *)
Theorem report_complete liabilities chains :
  let report := BuildReport liabilities chains in
  StronglySorted String.le (line_Asset <$> report) ∧ NoDup (line_Asset <$> report) ∧
  (∀ a, a ∈ line_Asset <$> report ↔
     (∃ x, x ∈ liabilities ∧ normalizeAsset (liab_Asset x) = a) ∨
     (∃ x, x ∈ chains ∧ normalizeAsset (chain_Asset x) = a)) ∧
  Forall (λ r, Difference r = line_Chain r ⊟ line_Internal r ∧
    (line_Status r = "BALANCED" ↔ line_Chain r = line_Internal r)) report.
Proof.
  unfold BuildReport. rewrite <-list_fmap_compose.
  set (keys := _ ∪ _ : gset string). cbv zeta.
  rewrite (list_fmap_ext _ id _ (λ _ _ _, eq_refl)), list_fmap_id.
  split_and!.
  - apply (StronglySorted_merge_sort String.le).
  - rewrite merge_sort_Permutation. apply NoDup_elements.
  - intros a. rewrite merge_sort_Permutation, elem_of_elements. unfold keys.
    by rewrite elem_of_union, !dom_index_by.
  - apply Forall_fmap, Forall_true. intros a. apply report_line_status.
Qed.

(** ** The tables *)

(** The journals over tables that were empty when the process started. *)
Inductive sql_reachable : Journal LedgerTables → Prop :=
| sql_reach_new fail n : sql_reachable (NewPersistentJournal (mkLedgerTables ∅ [] fail n))
| sql_reach_append j fresh now entry : sql_reachable j → sql_reachable (Append fresh now j entry).1.

Definition tables_hold (es : list Entry.t) (s : LedgerTables) : Prop :=
  t_postings s = (es ≫= λ e, posting_row e <$> Entry.Postings e) ∧
  ∀ id row, t_entries s !! id = Some row ↔ ∃ e, e ∈ es ∧ Entry.EntryID e = id ∧ row = entry_row e.

Definition row_share (asset : string) (r : PostingRow.t) : Z :=
  asset_share asset (Posting.mk (PostingRow.account_ref r) (PostingRow.asset r) (PostingRow.direction r)
    (PostingRow.amount r)).

Lemma sql_reachable_reachable j : sql_reachable j → reachable j.
Proof. induction 1; [apply reach_store|by apply reach_append]. Qed.

Lemma append_tables (es : list Entry.t) s n s' err :
  tables_hold es s → Entry.EntryID n ∉ Entry.EntryID <$> es → AppendEntry s n = (s', err) →
  tables_hold (match err with None => es ++ [n] | Some _ => es end) s'.
Proof.
  intros [Hp He] Hn. unfold AppendEntry, sql_journal, sql_AppendEntry.
  destruct (ledger_fail s _); intros [= <- <-]; [done|]. split.
  - cbn [t_postings]. rewrite bind_app, Hp. cbn. by rewrite app_nil_r.
  - intros id row. cbn [t_entries].
    assert (t_entries s !! Entry.EntryID n = None) as ->.
    { destruct (t_entries s !! Entry.EntryID n) as [r|] eqn:E; [|done].
      apply He in E as (e & Hin & Hid & _). destruct Hn. rewrite <-Hid. by apply list_elem_of_fmap_2. }
    rewrite lookup_insert_Some, He. setoid_rewrite elem_of_app. setoid_rewrite list_elem_of_singleton. split.
    + intros [[<- <-]|[_ (e & Hin & Hid & ->)]]; [by exists n; auto|by exists e; auto].
    + intros (e & [Hin| ->] & <- & ->); [|by left]. right. split; [|by exists e].
      intros E. destruct Hn. rewrite E. by apply list_elem_of_fmap_2.
Qed.

Lemma sql_reachable_tables j : sql_reachable j → ∃ s, jstore j = Some s ∧ tables_hold (entries j) s.
Proof.
  induction 1 as [fail n|j fresh now entry Hj (s & Hs & Ht)].
  - eexists. split; [done|]. split; [done|]. intros id row. cbn [t_entries entries NewPersistentJournal].
    rewrite lookup_empty. split; [done|]. by intros (e & ?%elem_of_nil & _).
  - pose proof (reachable_ok _ (sql_reachable_reachable _ Hj)) as (_ & Hseen & _). unfold Append.
    destruct (normalizeEntry fresh now entry) as [n|e]; [|by exists s].
    case_bool_decide as Hnew; [by exists s|]. rewrite Hs. destruct (AppendEntry s n) as [s' err] eqn:E.
    apply (append_tables (entries j)) in E; [|done|by rewrite <-Hseen]. destruct err; by exists s'.
Qed.

(** The tables hold the journal: the entries that were accepted and no others, with their
    postings in order, and over all postings each asset nets to zero. *)
Theorem ledger_tables_mirror (j : Journal LedgerTables) :
  sql_reachable j →
  ∃ s, jstore j = Some s ∧ tables_hold (entries j) s ∧
    ∀ asset, wrap64 (sumZ (row_share asset) (t_postings s)) = 0.
Proof.
  intros Hj. destruct (sql_reachable_tables j Hj) as (s & Hs & Ht). exists s. split_and!; [done..|].
  intros asset. destruct (reachable_ok _ (sql_reachable_reachable _ Hj)) as (_ & _ & Hok).
  rewrite <-(entries_net (entries j) asset Hok), (proj1 Ht). f_equal. clear.
  induction (entries j) as [|e es IH]; [done|]. cbn [mbind list_bind]. rewrite !sumZ_app. f_equal; [|exact IH].
  induction (Entry.Postings e) as [|[ac a d n] ps IHp]; [done|]. cbn [fmap list_fmap sumZ]. by rewrite IHp.
Qed.

(** The set of names is in memory only.  After a restart an entry that is offered again under
    its name is accepted: its row stays single, its postings are inserted a second time. *)
Theorem restart_doubles_postings :
  let p d := Posting.mk "user:7:available" "USDT" d 5 in
  let e := Entry.mk "led_1" "TRADE" "evt_1" [p DirectionDebit; p DirectionCredit] None "" in
  let j1 := (Append "" 1000 (NewPersistentJournal (mkLedgerTables ∅ [] (λ _, None) 0)) e).1 in
  let again := match jstore j1 with Some s => Append "" 2000 (NewPersistentJournal s) e | None => (j1, Err ErrEmptyEntry) end in
  is_Ok again.2 = true ∧ (λ s, (size (t_entries s), length (t_postings s))) <$> jstore again.1 = Some (1%nat, 4%nat).
Proof. split; vm_compute; reflexivity. Qed.

(** ** Witnesses *)

(** A store that keeps the entries it is given. *)
#[export] Instance recording_store : JournalStore (list Entry.t) :=
  {| AppendEntry s e := (s ++ [e], None) |}.

Definition demo_trade : TradeMatchedEvent.t :=
  TradeMatchedEvent.mk "evt_1" "88:YES:000001" 1 1 "" "usdt" 88 "yes" "88:YES" 60 5 "o2" "o1" 7 9
    "buy" "sell" 0 0 0 0 1000.

Definition demo_journal : Journal (list Entry.t) := NewPersistentJournal [].
Definition demo_after : Journal (list Entry.t) :=
  (HandleTradeMatched "led_1" 1000 (Some demo_trade) demo_journal).1.

Lemma demo_after_reachable : reachable demo_after.
Proof.
  unfold demo_after, HandleTradeMatched. cbn [ledgerNotional].
  replace (ledgerNotional (TradeMatchedEvent.Price demo_trade) (TradeMatchedEvent.Quantity demo_trade))
    with (Ok (E := LedgerError) 300) by reflexivity.
  replace (transferParties demo_trade) with (Ok (E := LedgerError) (7, 9)) by reflexivity.
  replace (positionParties demo_trade) with (Ok (E := LedgerError) (7, 9)) by reflexivity.
  pose proof (reach_append demo_journal "led_1" 1000
    (Entry.mk "" BizTypeTrade (TradeMatchedEvent.EventID demo_trade)
       (trade_postings demo_trade 300 7 9 7 9) None "") (reach_store [])) as H.
  destruct (Append _ _ _ _). exact H.
Qed.

Definition demo_accounts : list string :=
  ["user:7:available"; "user:9:available"; "user:7:position:88:yes"; "user:9:position:88:yes"].

Lemma journal_append_only_witness :
  let '(j', res) := Append "led_2" 1000 demo_after (Entry.mk "" "TRADE" "" [] None "") in
  res = Err ErrEmptyEntry ∧ entries j' = entries demo_after.
Proof.
  pose proof (journal_append_only "led_2" 1000 demo_after (Entry.mk "" "TRADE" "" [] None "")
    (reachable_ok _ demo_after_reachable)) as H.
  change (Append "led_2" 1000 demo_after (Entry.mk "" "TRADE" "" [] None ""))
    with (demo_after, Err (A := Entry.t) ErrEmptyEntry) in *.
  destruct H as [_ [H _]]. split; [reflexivity|exact H].
Defined.

Lemma books_balance_witness :
  BalanceOf demo_after "user:7:available" "USDT" = -300 ∧
  wrap64 (sumZ (λ a, BalanceOf demo_after a "USDT") demo_accounts) = 0.
Proof.
  split; [vm_compute; reflexivity|].
  apply books_balance; [exact demo_after_reachable| | |].
  - apply (bool_decide_unpack _). vm_compute. exact I.
  - apply (bool_decide_unpack _). vm_compute. exact I.
  - apply (bool_decide_unpack _). vm_compute. exact I.
Defined.

Lemma ledger_trade_effect_witness :
  let '(j', err) := HandleTradeMatched "led_2" 1000 (Some demo_trade) demo_after in
  err = None ∧ BalanceOf j' (availableAccount 9) "USDT" = 600.
Proof.
  pose proof (ledger_trade_effect demo_after "led_2" 1000 demo_trade 300 7 9 eq_refl eq_refl) as H.
  assert ("led_2" ∉ entrySeen demo_after) as Hf
    by (apply (bool_decide_unpack _); vm_compute; exact I).
  assert (store_accepts demo_after) as Hs by (intros s n _; reflexivity).
  specialize (H Hf Hs). destruct (HandleTradeMatched "led_2" 1000 (Some demo_trade) demo_after) as [j' err].
  destruct H as [He [Hb _]]. split; [exact He|]. exact (Hb 9).
Defined.

(** ** Behaviours worth knowing *)

(** The balance check adds in 64 bits: three debits whose sum is [2 ^ 64] and no
    credit at all pass it, and the entry is stored. *)
Theorem one_sided_entry_accepted :
  let p n := Posting.mk "user:1:available" "USDT" DirectionDebit n in
  match (Append "led_1" 1000 NewJournal
    (Entry.mk "" "TRADE" "" [p MaxInt64; p MaxInt64; p 2] None "")).2 with
  | Ok n => length (Entry.Postings n) = 3%nat
  | Err _ => False
  end.
Proof. vm_compute. reflexivity. Qed.

(** A trade event that is delivered twice is recorded twice: each delivery draws a
    new entry id and nothing looks at the event id kept in [RefID]. *)
Theorem redelivered_trade_recorded_twice :
  let j := (HandleTradeMatched "led_2" 1000 (Some demo_trade) demo_after).1 in
  Entry.RefID <$> entries j = ["evt_1"; "evt_1"] ∧
  BalanceOf j (availableAccount 9) "USDT" = 600.
Proof. vm_compute. auto. Qed.
