(* ===== verification/Settlement.v ===== *)
(** * Settlement service

    [settlement/service/processor.go] and [store.go].  The processor keeps nothing
    itself: positions and market outcomes are behind the [PositionStore] interface,
    which is a type class here with the in-memory store as an instance, and events
    leave through a publisher.  A Go map is iterated in an unspecified order; the
    theorems about [WinningPositions] do not depend on the order. *)

From S2P Require Import Prelude Strings Shared Messages.

Local Open Scope Z_scope.
Local Open Scope go_scope.

(** ** Data *)

Module ResolveMarketInput.
Record t := mk { MarketID : Z; ResolvedOutcome : string; OccurredAtMillis : Z }.
End ResolveMarketInput.

Module winningPosition.
Record t := mk { MarketID : Z; UserID : Z; Outcome : string; Quantity : Z }.
End winningPosition.

Module cancelledOrder.
Record t := mk {
  OrderID : string;
  CommandID : string;
  ClientOrderID : string;
  UserID : Z;
  MarketID : Z;
  Outcome : string;
  Side : string;
  OrderType : string;
  TimeInForce : string;
  CollateralAsset : string;
  FreezeID : string;
  FreezeAsset : string;
  FreezeAmount : Z;
  Price : Z;
  Quantity : Z;
  FilledQuantity : Z;
  RemainingQuantity : Z;
  Status : string;
  CancelReason : string;
  UpdatedAtMillis : Z;
}.
End cancelledOrder.

Inductive SettlementError :=
| ErrSettlementStore (e : string)
| ErrAlreadyResolved (marketID : Z) (outcome : string)
| ErrSettlementDecode
| ErrPayout (e : AssetError)
| ErrPublish (e : string).

(** ** Interfaces *)

(** Every method takes the store state and returns the next one. *)
Class PositionStore (S : Type) := {
  ApplyDelta : S → Z → Z → string → string → Z → S * option SettlementError;
  ResolveMarket : S → ResolveMarketInput.t → S * result SettlementError bool;
  CancelActiveOrders : S → Z → string → S * result SettlementError (list cancelledOrder.t);
  WinningPositions : S → Z → string → S * result SettlementError (list winningPosition.t);
  MarkSettled : S → SettlementCompletedEvent.t → S * option SettlementError;
  RollupFrozen : S → S * result SettlementError bool;
}.

(** ** The in-memory store *)

(** [positionKey]: market, user, outcome. *)
Definition positionKey : Type := Z * Z * string.

Record positionStore := mkPositionStore {
  positions : gmap positionKey Z;
  resolved : gmap Z string;
  settled : gset positionKey;
}.

Definition newPositionStore : positionStore := mkPositionStore ∅ ∅ ∅.

Definition mem_ApplyDelta (s : positionStore) (marketID userID : Z)
    (outcome positionAsset : string) (delta : Z) : positionStore * option SettlementError :=
  let key := (marketID, userID, outcome) in
  (mkPositionStore (<[key := default 0 (positions s !! key) ⊞ delta]> (positions s))
     (resolved s) (settled s), None).

Definition mem_ResolveMarket (s : positionStore) (input : ResolveMarketInput.t)
    : positionStore * result SettlementError bool :=
  let m := ResolveMarketInput.MarketID input in
  let o := ResolveMarketInput.ResolvedOutcome input in
  match resolved s !! m with
  | Some existing =>
      if String.eqb existing o then (s, Ok false) else (s, Err (ErrAlreadyResolved m existing))
  | None => (mkPositionStore (positions s) (<[m := o]> (resolved s)) (settled s), Ok true)
  end.

(** The guard of the loop in [WinningPositions]. *)
Definition is_winning (s : positionStore) (marketID : Z) (outcome : string)
    (kq : positionKey * Z) : bool :=
  let '((m, u, o), qty) := kq in
  negb (negb (m =? marketID) || negb (String.eqb o outcome) || (qty <=? 0)) &&
  negb (bool_decide ((m, u, o) ∈ settled s)).

Definition mem_WinningPositions (s : positionStore) (marketID : Z) (outcome : string)
    : positionStore * result SettlementError (list winningPosition.t) :=
  (s, Ok ((λ kq : positionKey * Z,
             winningPosition.mk marketID (kq.1.1.2) outcome (kq.2)) <$>
          filter (λ kq, is_winning s marketID outcome kq) (map_to_list (positions s)))).

Definition mem_CancelActiveOrders (s : positionStore) (marketID : Z) (reason : string)
    : positionStore * result SettlementError (list cancelledOrder.t) := (s, Ok []).

Definition mem_MarkSettled (s : positionStore) (event : SettlementCompletedEvent.t)
    : positionStore * option SettlementError :=
  (mkPositionStore (positions s) (resolved s)
     ({[(SettlementCompletedEvent.MarketID event, SettlementCompletedEvent.UserID event,
         SettlementCompletedEvent.WinningOutcome event)]} ∪ settled s), None).

Definition mem_RollupFrozen (s : positionStore) : positionStore * result SettlementError bool :=
  (s, Ok false).

#[export] Instance positionStore_store : PositionStore positionStore := {|
  ApplyDelta := mem_ApplyDelta;
  ResolveMarket := mem_ResolveMarket;
  CancelActiveOrders := mem_CancelActiveOrders;
  WinningPositions := mem_WinningPositions;
  MarkSettled := mem_MarkSettled;
  RollupFrozen := mem_RollupFrozen;
|}.

(** ** Keys and identifiers *)

Definition settlementKey (marketID userID : Z) : string := itoa marketID +:+ ":" +:+ itoa userID.
Definition marketBookKey (marketID : Z) (outcome : string) : string :=
  itoa marketID +:+ ":" +:+ normalize_upper outcome.
Definition settlementEventID (marketID userID : Z) (outcome : string) : string :=
  "evt_settlement_" +:+ itoa marketID +:+ "_" +:+ itoa userID +:+ "_" +:+ normalize_upper outcome.

(** ** The processor *)

Section processor.
Context {S P : Type} `{!PositionStore S, !Publisher P}.

Record Processor := mkProcessor { pstore : S; publisher : P }.

Definition NewProcessor (s : S) (p : P) : Processor := mkProcessor s p.

Definition set_pstore (p : Processor) (s : S) : Processor := mkProcessor s (publisher p).
Definition set_publisher (p : Processor) (q : P) : Processor := mkProcessor (pstore p) q.

(** Both handlers drop the message while the rollup is frozen. *)
Definition unless_frozen (p : Processor) (k : Processor → Processor * option SettlementError)
    : Processor * option SettlementError :=
  let '(s, frozen) := RollupFrozen (pstore p) in
  let p := set_pstore p s in
  match frozen with
  | Err e => (p, Some e)
  | Ok true => (p, None)
  | Ok false => k p
  end.

Definition HandlePositionChanged (msg : option PositionChangedEvent.t) (p : Processor)
    : Processor * option SettlementError :=
  unless_frozen p (λ p,
    match msg with
    | None => (p, Some ErrSettlementDecode)
    | Some event =>
        let '(s, err) := ApplyDelta (pstore p) (PositionChangedEvent.MarketID event)
          (PositionChangedEvent.UserID event) (normalize_upper (PositionChangedEvent.Outcome event))
          (PositionChangedEvent.PositionAsset event) (PositionChangedEvent.DeltaQuantity event) in
        (set_pstore p s, err)
    end).

Definition settlement_of (now : Z) (position : winningPosition.t) (payout : Z)
    : SettlementCompletedEvent.t :=
  let m := winningPosition.MarketID position in
  let u := winningPosition.UserID position in
  let o := winningPosition.Outcome position in
  SettlementCompletedEvent.mk (settlementEventID m u o) m u o (PositionAsset m o)
    (winningPosition.Quantity position) DefaultCollateralAsset payout now.

(** The payout loop; [clock i] is the time read in the [i]-th round. *)
Fixpoint settle_loop (clock : nat → Z) (i : nat) (ps : list winningPosition.t) (p : Processor)
    : Processor * option SettlementError :=
  match ps with
  | [] => (p, None)
  | position :: ps =>
      match WinningPayoutAmount (winningPosition.Quantity position) with
      | Err e => (p, Some (ErrPayout e))
      | Ok payout =>
          let settlement := settlement_of (clock i) position payout in
          let '(q, err) := PublishJSON (publisher p) TopicSettlementDone
            (settlementKey (winningPosition.MarketID position) (winningPosition.UserID position))
            (PayloadSettlement settlement) in
          let p := set_publisher p q in
          match err with
          | Some e => (p, Some (ErrPublish e))
          | None =>
              let '(s, err) := MarkSettled (pstore p) settlement in
              let p := set_pstore p s in
              match err with
              | Some e => (p, Some e)
              | None => settle_loop clock (i + 1) ps p
              end
          end
      end
  end.

Definition settleWinningPositions (clock : nat → Z) (marketID : Z) (resolvedOutcome : string)
    (p : Processor) : Processor * option SettlementError :=
  let '(s, res) := WinningPositions (pstore p) marketID resolvedOutcome in
  let p := set_pstore p s in
  match res with
  | Err e => (p, Some e)
  | Ok ps => settle_loop clock 0 ps p
  end.

Definition cancel_event (fresh : string) (now : Z) (traceID : string) (order : cancelledOrder.t)
    : OrderEvent.t :=
  OrderEvent.mk fresh (cancelledOrder.CommandID order) traceID (cancelledOrder.OrderID order)
    (cancelledOrder.ClientOrderID order) (cancelledOrder.FreezeID order)
    (cancelledOrder.FreezeAsset order) (cancelledOrder.FreezeAmount order)
    (cancelledOrder.CollateralAsset order) (cancelledOrder.UserID order)
    (cancelledOrder.MarketID order) (cancelledOrder.Outcome order) (cancelledOrder.Side order)
    (cancelledOrder.OrderType order) (cancelledOrder.TimeInForce order)
    (cancelledOrder.Status order) (cancelledOrder.CancelReason order) (cancelledOrder.Price order)
    (cancelledOrder.Quantity order) (cancelledOrder.FilledQuantity order)
    (cancelledOrder.RemainingQuantity order) now.

Fixpoint publish_cancelled (fresh : nat → string) (clock : nat → Z) (traceID : string) (i : nat)
    (orders : list cancelledOrder.t) (p : Processor) : Processor * option SettlementError :=
  match orders with
  | [] => (p, None)
  | order :: orders =>
      let '(q, err) := PublishJSON (publisher p) TopicOrderEvent
        (marketBookKey (cancelledOrder.MarketID order) (cancelledOrder.Outcome order))
        (PayloadOrder (cancel_event (fresh i) (clock i) traceID order)) in
      let p := set_publisher p q in
      match err with
      | Some e => (p, Some (ErrPublish e))
      | None => publish_cancelled fresh clock traceID (i + 1) orders p
      end
  end.

Definition HandleMarketEvent (fresh : nat → string) (clock : nat → Z) (msg : option MarketEvent.t)
    (p : Processor) : Processor * option SettlementError :=
  unless_frozen p (λ p,
    match msg with
    | None => (p, Some ErrSettlementDecode)
    | Some event =>
        if negb (String.eqb (normalize_upper (MarketEvent.Status event)) "RESOLVED") then (p, None)
        else
          let resolvedOutcome := normalize_upper (MarketEvent.ResolvedOutcome event) in
          let m := MarketEvent.MarketID event in
          if String.eqb resolvedOutcome "" then (p, None)
          else
            let '(s, res) := ResolveMarket (pstore p)
              (ResolveMarketInput.mk m resolvedOutcome (MarketEvent.OccurredAtMillis event)) in
            let p := set_pstore p s in
            match res with
            | Err e => (p, Some e)
            | Ok false => settleWinningPositions clock m resolvedOutcome p
            | Ok true =>
                let '(s, res) := CancelActiveOrders (pstore p) m "MARKET_RESOLVED" in
                let p := set_pstore p s in
                match res with
                | Err e => (p, Some e)
                | Ok cancelled =>
                    match publish_cancelled fresh clock (MarketEvent.TraceID event) 0 cancelled p with
                    | (p, Some e) => (p, Some e)
                    | (p, None) => settleWinningPositions clock m resolvedOutcome p
                    end
                end
            end
    end).
End processor.

Arguments Processor S P : clear implicits.
