(* ===== verification/SettlementSql.v ===== *)
(** * Settlement service: persistence

    [settlement/service/sql_store.go] and [rollup_shadow.go].  The tables of
    [migrations/001_init.sql] are finite maps by primary key, without the columns this
    service only fills with constants; [evidence] is the text the database returns.
    A method is one or two transactions: a statement outside an explicit one commits by
    itself.  A transaction that fails, or whose connection fails, leaves the database as
    it was.  An arithmetic result outside [BIGINT] is an error of the statement. *)

From stdpp Require Import sorting.
From S2P Require Import Prelude Strings Shared Messages.
From S2P Require Import RollupJournal RollupState MatchStore Settlement.

Local Open Scope Z_scope.
Local Open Scope go_scope.

(** ** Tables *)

Module PositionRow.
Record t := mk {
  position_asset : string;
  quantity : Z;
  settled_quantity : Z;
  created_at : Z;
  updated_at : Z;
}.
End PositionRow.

Module SettleMarketRow.
Record t := mk {
  title : string;
  collateral_asset : string;
  status : string;
  resolved_outcome : string;
  created_at : Z;
  updated_at : Z;
}.
End SettleMarketRow.

Module resolutionRecord.
Record t := mk {
  Status : string;
  ResolvedOutcome : string;
  ResolverType : string;
  ResolverRef : string;
  Evidence : string;
}.
End resolutionRecord.

(** A row of [market_resolutions]: the record with [created_at] and [updated_at]. *)
Definition ResolutionRow : Type := resolutionRecord.t * Z * Z.

Module PayoutRow.
Record t := mk {
  market_id : Z;
  user_id : Z;
  winning_outcome : string;
  position_asset : string;
  settled_quantity : Z;
  payout_asset : string;
  payout_amount : Z;
  status : string;
  created_at : Z;
  updated_at : Z;
}.
End PayoutRow.

(** [positions] by market, user and outcome; [markets] and [market_resolutions] by
    market; [orders] by [order_id]; [settlement_payouts] by [event_id]; the last row of
    [rollup_freeze_state] if there is one; the rollup journal. *)
Record SettleDB := mkSettleDB {
  t_positions : gmap positionKey PositionRow.t;
  t_markets : gmap Z SettleMarketRow.t;
  t_resolutions : gmap Z ResolutionRow;
  t_orders : gmap string OrderRow.t;
  t_payouts : gmap string PayoutRow.t;
  t_freeze : option bool;
  t_journal : Journal;
}.

Definition set_t_positions d x : SettleDB :=
  mkSettleDB x (t_markets d) (t_resolutions d) (t_orders d) (t_payouts d) (t_freeze d) (t_journal d).
Definition set_t_markets d x : SettleDB :=
  mkSettleDB (t_positions d) x (t_resolutions d) (t_orders d) (t_payouts d) (t_freeze d) (t_journal d).
Definition set_t_resolutions d x : SettleDB :=
  mkSettleDB (t_positions d) (t_markets d) x (t_orders d) (t_payouts d) (t_freeze d) (t_journal d).
Definition set_t_orders d x : SettleDB :=
  mkSettleDB (t_positions d) (t_markets d) (t_resolutions d) x (t_payouts d) (t_freeze d) (t_journal d).
Definition set_t_payouts d x : SettleDB :=
  mkSettleDB (t_positions d) (t_markets d) (t_resolutions d) (t_orders d) x (t_freeze d) (t_journal d).
Definition set_t_journal d x : SettleDB :=
  mkSettleDB (t_positions d) (t_markets d) (t_resolutions d) (t_orders d) (t_payouts d) (t_freeze d) x.

(** What the calls meet outside the program: the clock of the database and the clock of
    the process, failures, the identifiers drawn for the journal. *)
Record SettleEnv := mkSettleEnv {
  at_seconds : nat → Z;
  at_millis : nat → Z;
  tx_fail : nat → option string;
  tx_fresh : nat → nat → string;
}.

(** [tx_count] counts the transactions so far; [with_rollup] says that [WithRollup] gave
    the store a rollup store. *)
Record SettleStore := mkSettleStore {
  sdb : SettleDB;
  with_rollup : bool;
  senv : SettleEnv;
  tx_count : nat;
}.

Definition settle_tx {A} (s : SettleStore) (body : SettleDB → result SettlementError (SettleDB * A))
    : SettleStore * result SettlementError A :=
  let next d r := (mkSettleStore d (with_rollup s) (senv s) (S (tx_count s)), r) in
  match tx_fail (senv s) (tx_count s) with
  | Some err => next (sdb s) (Err (ErrSettlementStore err))
  | None =>
      match body (sdb s) with
      | Ok (d, a) => next d (Ok a)
      | Err e => next (sdb s) (Err e)
      end
  end.

Definition error_of {E A} (r : result E A) : option E :=
  match r with Ok _ => None | Err e => Some e end.

Definition bigint (z : Z) : result SettlementError Z :=
  if bool_decide (int64 z) then Ok z else Err (ErrSettlementStore "bigint out of range").

Definition seconds (s : SettleStore) : Z := at_seconds (senv s) (tx_count s).
Definition millis (s : SettleStore) : Z := at_millis (senv s) (tx_count s).

(** ** Journal entries ([rollup_shadow.go]) *)

Definition SourceTypeSettlementMarket : string := "SETTLEMENT_MARKET".
Definition SourceTypeSettlementOrder : string := "SETTLEMENT_ORDER".
Definition SourceTypeSettlementPayout : string := "SETTLEMENT_PAYOUT".

(** The anonymous struct [extractOracleAttestation] reads the evidence into. *)
Module evidenceEnvelope.
Record t := mk { Attestation : option OracleAttestationWitness.t }.
End evidenceEnvelope.

Definition normalizeResolutionEvidence (raw : string) : string :=
  if String.eqb raw "" then "{}" else raw.

Definition settlementReserveAsset (order : cancelledOrder.t) : string :=
  if String.eqb (normalize_upper (cancelledOrder.Side order)) "SELL"
  then "POSITION:" +:+ itoa (cancelledOrder.MarketID order) +:+ ":"
         +:+ normalize_upper (cancelledOrder.Outcome order)
  else
    let asset := normalize_upper (cancelledOrder.FreezeAsset order) in
    if negb (String.eqb asset "") then asset
    else
      let asset := normalize_upper (cancelledOrder.CollateralAsset order) in
      if negb (String.eqb asset "") then asset else "USDT".

Definition cancellation_entry (order : cancelledOrder.t) : JournalAppend.t :=
  JournalAppend.mk "" EntryTypeOrderCancelled SourceTypeSettlementOrder
    (cancelledOrder.OrderID order) (cancelledOrder.UpdatedAtMillis order)
    (OrderCancelled (OrderCancelledPayload.mk (cancelledOrder.OrderID order)
       (cancelledOrder.UserID order) (cancelledOrder.MarketID order) (cancelledOrder.Outcome order)
       (cancelledOrder.Side order) (settlementReserveAsset order) (cancelledOrder.Price order)
       (cancelledOrder.RemainingQuantity order) (cancelledOrder.CancelReason order))).

Definition buildSettlementCancellationEntries (cancelled : list cancelledOrder.t)
    : list JournalAppend.t := cancellation_entry <$> cancelled.

Definition payout_payload (event : SettlementCompletedEvent.t) : SettlementPayoutPayload.t :=
  SettlementPayoutPayload.mk (SettlementCompletedEvent.EventID event)
    (SettlementCompletedEvent.MarketID event) (SettlementCompletedEvent.UserID event)
    (SettlementCompletedEvent.WinningOutcome event) (SettlementCompletedEvent.PositionAsset event)
    (SettlementCompletedEvent.SettledQuantity event) (SettlementCompletedEvent.PayoutAsset event)
    (SettlementCompletedEvent.PayoutAmount event) (SettlementCompletedEvent.OccurredAtMillis event).

(** ** Resolution records *)

Definition shouldPreserveOracleOwnership (current : resolutionRecord.t) (outcome : string) : bool :=
  let status := normalize_upper (resolutionRecord.Status current) in
  let resolverType := normalize_upper (resolutionRecord.ResolverType current) in
  let resolvedOutcome := normalize_upper (resolutionRecord.ResolvedOutcome current) in
  if negb (String.eqb resolverType "ORACLE_PRICE") then false
  else if negb (String.eqb status "OBSERVED") && negb (String.eqb status "RESOLVED") then false
  else negb (String.eqb resolvedOutcome "") && String.eqb resolvedOutcome (normalize_upper outcome).

Definition finalizeResolutionRecord (current : resolutionRecord.t) (outcome : string)
    : resolutionRecord.t :=
  if shouldPreserveOracleOwnership current outcome
  then resolutionRecord.mk "RESOLVED" outcome (resolutionRecord.ResolverType current)
         (resolutionRecord.ResolverRef current)
         (normalizeResolutionEvidence (resolutionRecord.Evidence current))
  else resolutionRecord.mk "RESOLVED" outcome "ADMIN" "" "{}".

(** No row: the zero record. *)
Definition loadResolutionRecordTx (d : SettleDB) (marketID : Z) : resolutionRecord.t :=
  match t_resolutions d !! marketID with
  | Some (r, _, _) => r
  | None => resolutionRecord.mk "" "" "" "" ""
  end.

Definition normalizeResolveMarketInput (nowMillis : Z) (input : ResolveMarketInput.t)
    : ResolveMarketInput.t :=
  ResolveMarketInput.mk (ResolveMarketInput.MarketID input)
    (normalize_upper (ResolveMarketInput.ResolvedOutcome input))
    (if ResolveMarketInput.OccurredAtMillis input <=? 0 then nowMillis
     else ResolveMarketInput.OccurredAtMillis input).

Definition normalizeSettlementEvent (nowMillis : Z) (event : SettlementCompletedEvent.t)
    (positionAsset : string) : SettlementCompletedEvent.t :=
  let payoutAsset := normalize_upper (SettlementCompletedEvent.PayoutAsset event) in
  SettlementCompletedEvent.mk (TrimSpace (SettlementCompletedEvent.EventID event))
    (SettlementCompletedEvent.MarketID event) (SettlementCompletedEvent.UserID event)
    (normalize_upper (SettlementCompletedEvent.WinningOutcome event)) positionAsset
    (SettlementCompletedEvent.SettledQuantity event)
    (if String.eqb payoutAsset "" then "USDT" else payoutAsset)
    (SettlementCompletedEvent.PayoutAmount event)
    (if SettlementCompletedEvent.OccurredAtMillis event <=? 0 then nowMillis
     else SettlementCompletedEvent.OccurredAtMillis event).

(** ** Statements *)

(** [INSERT INTO markets ... ON CONFLICT (market_id) DO NOTHING]. *)
Definition insert_market (now : Z) (d : SettleDB) (marketID : Z) : SettleDB :=
  match t_markets d !! marketID with
  | Some _ => d
  | None => set_t_markets d (<[marketID :=
      SettleMarketRow.mk ("Market " +:+ itoa marketID) "USDT" "OPEN" "" now now]> (t_markets d))
  end.

Definition settle_ensureMarket (s : SettleStore) (marketID : Z)
    : SettleStore * result SettlementError unit :=
  settle_tx s (λ d, Ok (insert_market (seconds s) d marketID, ())).

(** [INSERT INTO positions ... ON CONFLICT (market_id, user_id, outcome) DO UPDATE]. *)
Definition upsert_position (now : Z) (d : SettleDB) (marketID userID : Z)
    (outcome positionAsset : string) (delta : Z) : result SettlementError SettleDB :=
  let key := (marketID, userID, outcome) in
  match t_positions d !! key with
  | None =>
      if bool_decide (t_markets d !! marketID = None) then Err (ErrSettlementStore fk_error)
      else Ok (set_t_positions d (<[key := PositionRow.mk positionAsset delta 0 now now]> (t_positions d)))
  | Some row =>
      q ← bigint (PositionRow.quantity row + delta);
      Ok (set_t_positions d (<[key := PositionRow.mk positionAsset q (PositionRow.settled_quantity row)
            (PositionRow.created_at row) now]> (t_positions d)))
  end.

Definition is_active (marketID : Z) (row : OrderRow.t) : bool :=
  (OrderRow.market_id row =? marketID) &&
  (String.eqb (OrderRow.status row) "NEW" || String.eqb (OrderRow.status row) "PARTIALLY_FILLED") &&
  (0 <? OrderRow.remaining_quantity row).

Definition cancel_row (now : Z) (reason : string) (row : OrderRow.t) : OrderRow.t :=
  OrderRow.mk (OrderRow.client_order_id row) (OrderRow.command_id row) (OrderRow.user_id row)
    (OrderRow.market_id row) (OrderRow.outcome row) (OrderRow.side row) (OrderRow.order_type row)
    (OrderRow.time_in_force row) (OrderRow.collateral_asset row) (OrderRow.freeze_id row)
    (OrderRow.freeze_asset row) (OrderRow.freeze_amount row) (OrderRow.price row)
    (OrderRow.quantity row) (OrderRow.filled_quantity row) (OrderRow.remaining_quantity row)
    "CANCELLED" reason (OrderRow.created_at row) now.

(** A row of [RETURNING]. *)
Definition returned (id : string) (row : OrderRow.t) : cancelledOrder.t :=
  cancelledOrder.mk id (OrderRow.command_id row) (OrderRow.client_order_id row) (OrderRow.user_id row)
    (OrderRow.market_id row) (OrderRow.outcome row) (OrderRow.side row) (OrderRow.order_type row)
    (OrderRow.time_in_force row) (OrderRow.collateral_asset row) (OrderRow.freeze_id row)
    (OrderRow.freeze_asset row) (OrderRow.freeze_amount row) (OrderRow.price row)
    (OrderRow.quantity row) (OrderRow.filled_quantity row) (OrderRow.remaining_quantity row)
    (OrderRow.status row) (OrderRow.cancel_reason row) (OrderRow.updated_at row ⊠ 1000).

(** The rows the [UPDATE] touches; their order is not specified. *)
Definition active_rows (d : SettleDB) (marketID : Z) : list (string * OrderRow.t) :=
  filter (λ r, is_active marketID r.2 = true) (map_to_list (t_orders d)).

Definition cancel_orders (now : Z) (reason : string) (d : SettleDB) (marketID : Z)
    : SettleDB * list cancelledOrder.t :=
  (set_t_orders d ((λ row, if is_active marketID row then cancel_row now reason row else row)
                     <$> t_orders d),
   (λ r, returned r.1 (cancel_row now reason r.2)) <$> active_rows d marketID).

Definition unsettled_rows (d : SettleDB) (marketID : Z) (outcome : string)
    : list (positionKey * PositionRow.t) :=
  filter (λ kr, kr.1.1.1 = marketID ∧ kr.1.2 = outcome ∧
            PositionRow.settled_quantity kr.2 < PositionRow.quantity kr.2)
    (map_to_list (t_positions d)).

Definition by_user (a b : positionKey * PositionRow.t) : Prop := a.1.1.2 ≤ b.1.1.2.
#[global] Instance by_user_dec a b : Decision (by_user a b).
Proof. unfold by_user. apply _. Defined.

Definition remaining_position (kr : positionKey * PositionRow.t)
    : result SettlementError winningPosition.t :=
  q ← bigint (PositionRow.quantity kr.2 - PositionRow.settled_quantity kr.2);
  Ok (winningPosition.mk kr.1.1.1 kr.1.1.2 kr.1.2 q).

Definition select_winning (d : SettleDB) (marketID : Z) (outcome : string)
    : result SettlementError (list winningPosition.t) :=
  mapM remaining_position (merge_sort by_user (unsettled_rows d marketID outcome)).

Definition settled_asset (event : SettlementCompletedEvent.t) : string :=
  let positionAsset := normalize_upper (SettlementCompletedEvent.PositionAsset event) in
  if String.eqb positionAsset ""
  then "POSITION:" +:+ itoa (SettlementCompletedEvent.MarketID event) +:+ ":"
         +:+ normalize_upper (SettlementCompletedEvent.WinningOutcome event)
  else positionAsset.

Definition payout_row (now : Z) (event : SettlementCompletedEvent.t) : PayoutRow.t :=
  PayoutRow.mk (SettlementCompletedEvent.MarketID event) (SettlementCompletedEvent.UserID event)
    (normalize_upper (SettlementCompletedEvent.WinningOutcome event)) (settled_asset event)
    (SettlementCompletedEvent.SettledQuantity event)
    (normalize_upper (SettlementCompletedEvent.PayoutAsset event))
    (SettlementCompletedEvent.PayoutAmount event) "COMPLETED" now now.

(** [UPDATE positions SET settled_quantity = settled_quantity + ...]. *)
Definition settle_position (now : Z) (d : SettleDB) (key : positionKey) (quantity : Z)
    : result SettlementError SettleDB :=
  match t_positions d !! key with
  | None => Ok d
  | Some row =>
      q ← bigint (PositionRow.settled_quantity row + quantity);
      Ok (set_t_positions d (<[key := PositionRow.mk (PositionRow.position_asset row)
            (PositionRow.quantity row) q (PositionRow.created_at row) now]> (t_positions d)))
  end.

(** ** The store *)

Section sql_store.
Context (sha256 : string → string).
Context `{!JSON MarketResolvedPayload.t, !JSON SettlementPayoutPayload.t, !JSON evidenceEnvelope.t}.

Definition extractOracleAttestation (raw : string) : option OracleAttestationWitness.t :=
  if String.eqb raw "" then None
  else
    match Unmarshal (T := evidenceEnvelope.t) raw with
    | None => None
    | Some envelope =>
        match evidenceEnvelope.Attestation envelope with
        | None => None
        | Some a => if String.eqb (OracleAttestationWitness.Signature a) "" then None else Some a
        end
    end.

Definition hashResolutionEvidence (raw : string) : string :=
  EncodeToString (sha256 (normalizeResolutionEvidence raw)).

Definition resolved_payload (input : ResolveMarketInput.t) (record : resolutionRecord.t)
    : MarketResolvedPayload.t :=
  MarketResolvedPayload.mk (ResolveMarketInput.MarketID input)
    (ResolveMarketInput.ResolvedOutcome input) (normalize_upper (resolutionRecord.ResolverType record))
    (TrimSpace (resolutionRecord.ResolverRef record))
    (hashResolutionEvidence (resolutionRecord.Evidence record))
    (ResolveMarketInput.OccurredAtMillis input)
    (extractOracleAttestation (resolutionRecord.Evidence record)).

Definition buildMarketResolvedEntry (input : ResolveMarketInput.t) (record : resolutionRecord.t)
    : JournalAppend.t :=
  JournalAppend.mk "" EntryTypeMarketResolved SourceTypeSettlementMarket
    (itoa (ResolveMarketInput.MarketID input)) (ResolveMarketInput.OccurredAtMillis input)
    (OtherPayload (Marshal (resolved_payload input record))).

Definition buildSettlementPayoutEntry (event : SettlementCompletedEvent.t) : JournalAppend.t :=
  JournalAppend.mk "" EntryTypeSettlementPayout SourceTypeSettlementPayout
    (TrimSpace (SettlementCompletedEvent.EventID event))
    (SettlementCompletedEvent.OccurredAtMillis event)
    (OtherPayload (Marshal (payout_payload event))).

(** [AppendEntriesTx] in the transaction, when there is a rollup store. *)
Definition append_settlement (s : SettleStore) (d : SettleDB) (es : list JournalAppend.t)
    : result SettlementError SettleDB :=
  if with_rollup s then
    match AppendEntriesTx (tx_fresh (senv s) (tx_count s)) (t_journal d) es with
    | Ok j => Ok (set_t_journal d j)
    | Err e => Err (ErrSettlementStore e)
    end
  else Ok d.

Definition sql_ApplyDelta (s : SettleStore) (marketID userID : Z) (outcome positionAsset : string)
    (delta : Z) : SettleStore * option SettlementError :=
  match settle_ensureMarket s marketID with
  | (s, Err e) => (s, Some e)
  | (s, Ok _) =>
      let '(s, r) := settle_tx s (λ d,
        d ← upsert_position (seconds s) d marketID userID outcome positionAsset delta; Ok (d, ())) in
      (s, error_of r)
  end.

Definition sql_RollupFrozen (s : SettleStore) : SettleStore * result SettlementError bool :=
  settle_tx s (λ d, Ok (d, default false (t_freeze d))).

(** A market that is already resolved: the same outcome is no change, another one an
    error. *)
Definition resolve_again (d : SettleDB) (input : ResolveMarketInput.t) (row : SettleMarketRow.t)
    : result SettlementError (SettleDB * bool) :=
  if String.eqb (normalize_upper (SettleMarketRow.status row)) "RESOLVED" &&
     String.eqb (normalize_upper (SettleMarketRow.resolved_outcome row))
       (normalize_upper (ResolveMarketInput.ResolvedOutcome input))
  then Ok (d, false)
  else Err (ErrAlreadyResolved (ResolveMarketInput.MarketID input)
              (SettleMarketRow.resolved_outcome row)).

(** The [UPDATE] of [markets] and the upsert of [market_resolutions]. *)
Definition write_resolution (now : Z) (d : SettleDB) (marketID : Z) (outcome : string)
    (row : SettleMarketRow.t) (final : resolutionRecord.t) : SettleDB :=
  let d := set_t_markets d (<[marketID := SettleMarketRow.mk (SettleMarketRow.title row)
    (SettleMarketRow.collateral_asset row) "RESOLVED" outcome (SettleMarketRow.created_at row) now]>
    (t_markets d)) in
  set_t_resolutions d (<[marketID :=
    (resolutionRecord.mk "RESOLVED" outcome (resolutionRecord.ResolverType final)
       (resolutionRecord.ResolverRef final)
       (normalizeResolutionEvidence (resolutionRecord.Evidence final)),
     match t_resolutions d !! marketID with Some (_, created, _) => created | None => now end,
     now)]> (t_resolutions d)).

Definition resolve_body (s : SettleStore) (input : ResolveMarketInput.t) (d : SettleDB)
    : result SettlementError (SettleDB * bool) :=
  let marketID := ResolveMarketInput.MarketID input in
  let outcome := ResolveMarketInput.ResolvedOutcome input in
  match t_markets d !! marketID with
  | None => Err (ErrSettlementStore "sql: no rows in result set")
  | Some row =>
      if String.eqb (SettleMarketRow.status row) "RESOLVED" then resolve_again d input row
      else
        let final := finalizeResolutionRecord (loadResolutionRecordTx d marketID) outcome in
        d ← append_settlement s (write_resolution (seconds s) d marketID outcome row final)
              [buildMarketResolvedEntry (normalizeResolveMarketInput (millis s) input) final];
        Ok (d, true)
  end.

Definition sql_ResolveMarket (s : SettleStore) (input : ResolveMarketInput.t)
    : SettleStore * result SettlementError bool :=
  match settle_ensureMarket s (ResolveMarketInput.MarketID input) with
  | (s, Err e) => (s, Err e)
  | (s, Ok _) => settle_tx s (resolve_body s input)
  end.

Definition cancel_body (s : SettleStore) (marketID : Z) (reason : string) (d : SettleDB)
    : result SettlementError (SettleDB * list cancelledOrder.t) :=
  let '(d, cancelled) := cancel_orders (seconds s) (normalize_upper reason) d marketID in
  d ← append_settlement s d (buildSettlementCancellationEntries cancelled);
  Ok (d, cancelled).

Definition sql_CancelActiveOrders (s : SettleStore) (marketID : Z) (reason : string)
    : SettleStore * result SettlementError (list cancelledOrder.t) :=
  settle_tx s (cancel_body s marketID reason).

Definition sql_WinningPositions (s : SettleStore) (marketID : Z) (outcome : string)
    : SettleStore * result SettlementError (list winningPosition.t) :=
  settle_tx s (λ d, ps ← select_winning d marketID outcome; Ok (d, ps)).

(** [INSERT INTO settlement_payouts ... ON CONFLICT (event_id) DO NOTHING]; a conflict
    ends the transaction without touching the position. *)
Definition mark_body (s : SettleStore) (event : SettlementCompletedEvent.t) (d : SettleDB)
    : result SettlementError (SettleDB * unit) :=
  let id := TrimSpace (SettlementCompletedEvent.EventID event) in
  match t_payouts d !! id with
  | Some _ => Ok (d, ())
  | None =>
      if bool_decide (t_markets d !! SettlementCompletedEvent.MarketID event = None)
      then Err (ErrSettlementStore fk_error)
      else
        let d := set_t_payouts d (<[id := payout_row (seconds s) event]> (t_payouts d)) in
        d ← settle_position (seconds s) d
              (SettlementCompletedEvent.MarketID event, SettlementCompletedEvent.UserID event,
               normalize_upper (SettlementCompletedEvent.WinningOutcome event))
              (SettlementCompletedEvent.SettledQuantity event);
        d ← append_settlement s d
              [buildSettlementPayoutEntry (normalizeSettlementEvent (millis s) event (settled_asset event))];
        Ok (d, ())
  end.

Definition sql_MarkSettled (s : SettleStore) (event : SettlementCompletedEvent.t)
    : SettleStore * option SettlementError :=
  let '(s, r) := settle_tx s (mark_body s event) in (s, error_of r).

Definition sql_positions : PositionStore SettleStore := {|
  ApplyDelta := sql_ApplyDelta;
  ResolveMarket := sql_ResolveMarket;
  CancelActiveOrders := sql_CancelActiveOrders;
  WinningPositions := sql_WinningPositions;
  MarkSettled := sql_MarkSettled;
  RollupFrozen := sql_RollupFrozen;
|}.
End sql_store.

Definition settle_db0 : SettleDB := mkSettleDB ∅ ∅ ∅ ∅ ∅ None (mkJournal [] 1).
Definition NewSQLStore (env : SettleEnv) : SettleStore := mkSettleStore settle_db0 false env 0.
Definition WithRollup (s : SettleStore) : SettleStore :=
  mkSettleStore (sdb s) true (senv s) (tx_count s).
