(* ===== verification/SettlementProps.v ===== *)
(** * Settlement service: who is paid, and how often

    Reachable states of the processor over the in-memory store and an arbitrary
    publisher, the invariant of its message log, and the theorems about market
    resolution and payouts. *)

From S2P Require Import Prelude Strings Shared Messages.
From S2P Require Import Settlement.

Local Open Scope Z_scope.
Local Open Scope go_scope.

(** ** The settlements in the log *)

Definition settlement_in (m : BatchItem) : option SettlementCompletedEvent.t :=
  match m.2 with PayloadSettlement e => Some e | _ => None end.

Definition event_key (e : SettlementCompletedEvent.t) : positionKey :=
  (SettlementCompletedEvent.MarketID e, SettlementCompletedEvent.UserID e,
   SettlementCompletedEvent.WinningOutcome e).

Definition position_key (w : winningPosition.t) : positionKey :=
  (winningPosition.MarketID w, winningPosition.UserID w, winningPosition.Outcome w).

(** The event that pays a winning position. *)
Definition pays (w : winningPosition.t) (e : SettlementCompletedEvent.t) : Prop :=
  ∃ now payout, WinningPayoutAmount (winningPosition.Quantity w) = Ok payout ∧
    e = settlement_of now w payout.

(** A well-formed payout event. *)
Definition payout_ok (e : SettlementCompletedEvent.t) : Prop :=
  let m := SettlementCompletedEvent.MarketID e in
  let u := SettlementCompletedEvent.UserID e in
  let o := SettlementCompletedEvent.WinningOutcome e in
  0 < SettlementCompletedEvent.SettledQuantity e ∧
  SettlementCompletedEvent.PayoutAmount e =
    DefaultWinningSharePayout * SettlementCompletedEvent.SettledQuantity e ∧
  SettlementCompletedEvent.PayoutAmount e ≤ MaxInt64 ∧
  SettlementCompletedEvent.PayoutAsset e = DefaultCollateralAsset ∧
  SettlementCompletedEvent.PositionAsset e = PositionAsset m o ∧
  SettlementCompletedEvent.EventID e = settlementEventID m u o.

Lemma payout_exact q r : WinningPayoutAmount q = Ok r →
  0 < q ∧ r = DefaultWinningSharePayout * q ∧ r ≤ MaxInt64.
Proof.
  unfold WinningPayoutAmount. destruct (Z.leb_spec q 0); [done|].
  destruct (MaxInt64 `quot` DefaultWinningSharePayout <? q) eqn:E; [done|]. intros [= <-].
  apply quot_guard in E; [|unfold DefaultWinningSharePayout; lia..].
  rewrite mul_fits by (unfold DefaultWinningSharePayout in *; lia). lia.
Qed.

Lemma payout_defined q : 0 < q → q * DefaultWinningSharePayout ≤ MaxInt64 →
  ∃ r, WinningPayoutAmount q = Ok r.
Proof.
  intros Hq Hm. unfold WinningPayoutAmount. destruct (Z.leb_spec q 0); [lia|].
  apply quot_guard in Hm; [|unfold DefaultWinningSharePayout; lia..]. rewrite Hm. eauto.
Qed.

Lemma pays_ok w e : pays w e → payout_ok e ∧ event_key e = position_key w ∧
  SettlementCompletedEvent.SettledQuantity e = winningPosition.Quantity w.
Proof. intros (now & r & (Hq & -> & Hr)%payout_exact & ->). split; [|done]. by split_and!. Qed.

Section settle.
Context {P : Type} `{!Publisher P, !PublisherLog P}.

Notation proc := (Processor positionStore P).

Definition settlements (p : proc) : list SettlementCompletedEvent.t :=
  omap settlement_in (published (publisher p)).

(** The publisher accepts every message. *)
Definition reliable : Prop := ∀ (q : P) t k v, (PublishJSON q t k v).2 = None.

Lemma settlements_publish (p : proc) q t k v err :
  PublishJSON (publisher p) t k v = (q, err) →
  settlements (set_publisher p q) = settlements p ∨
  ∃ e, v = PayloadSettlement e ∧ settlements (set_publisher p q) = settlements p ++ [e].
Proof.
  intros E. unfold settlements. simpl.
  assert (published q = published (publisher p) ∨
    published q = published (publisher p) ++ [(t, k, v)]) as [->| ->]; [|by left|].
  { destruct err; [by eapply publish_err|right; by eapply publish_ok]. }
  rewrite omap_app. destruct v; simpl; eauto; left; by rewrite app_nil_r.
Qed.

(** One run of the payout loop. *)
Lemma settle_loop_spec clock i ps (p p' : proc) err :
  settle_loop clock i ps p = (p', err) →
  ∃ evs, settlements p' = settlements p ++ evs ∧
    Forall (λ e, ∃ w, w ∈ ps ∧ pays w e) evs ∧
    positions (pstore p') = positions (pstore p) ∧
    resolved (pstore p') = resolved (pstore p) ∧
    settled (pstore p) ⊆ settled (pstore p') ∧
    (∀ k, k ∈ settled (pstore p') → k ∈ settled (pstore p) ∨ k ∈ event_key <$> evs) ∧
    (reliable →
      (∀ k, k ∈ event_key <$> evs → k ∈ settled (pstore p')) ∧
      (∃ n, event_key <$> evs = position_key <$> take n ps) ∧
      (Forall (λ w, ∃ r, WinningPayoutAmount (winningPosition.Quantity w) = Ok r) ps →
       err = None ∧ Forall2 pays ps evs)).
Proof.
  revert i p. induction ps as [|w ps IH]; intros i p; cbn [settle_loop].
  { intros [= <- <-]. exists []. rewrite app_nil_r. split_and!; try done; [by left|]. intros _.
    split_and!; [by intros k ?%not_elem_of_nil|by exists 0%nat|done]. }
  destruct (WinningPayoutAmount (winningPosition.Quantity w)) as [r|e] eqn:Er.
  2:{ intros [= <- <-]. exists []. rewrite app_nil_r. split_and!; try done; [by left|]. intros _.
      split_and!; [by intros k ?%not_elem_of_nil|by exists 0%nat|].
      intros [[? ?] _]%Forall_cons. congruence. }
  set (ev := settlement_of (clock i) w r).
  assert (pays w ev) as Hpay by (by exists (clock i), r).
  destruct (PublishJSON (publisher p) TopicSettlementDone _ (PayloadSettlement ev)) as [q pe] eqn:Ep.
  destruct pe as [e|].
  { intros [= <- <-]. pose proof (settlements_publish _ _ _ _ _ _ Ep) as Hs.
    assert (¬ reliable) as Hrel.
    { intros H. specialize (H (publisher p) TopicSettlementDone
        (settlementKey (winningPosition.MarketID w) (winningPosition.UserID w)) (PayloadSettlement ev)).
      by rewrite Ep in H. }
    destruct Hs as [->|(ev' & [= <-] & ->)].
    - exists []. rewrite app_nil_r. split_and!; try done. by left.
    - exists [ev]. split_and!; try done; [|by left]. constructor; [|done].
      exists w. split; [by left|done]. }
  apply publish_ok in Ep as Hlog. cbn [pstore set_publisher MarkSettled positionStore_store mem_MarkSettled].
  intros H. apply IH in H as (evs & Hs & Hev & Hpos & Hres & Hset & Hnew & Hrel).
  cbn [pstore set_pstore set_publisher positions resolved settled] in *.
  exists (ev :: evs). split_and!; [| |done|done| | |].
  - rewrite Hs. unfold settlements at 1. cbn [publisher set_pstore set_publisher].
    rewrite Hlog, omap_app, <-app_assoc. done.
  - constructor; [exists w; split; [by left|done]|].
    eapply Forall_impl; [exact Hev|]. intros e (w' & ? & ?). exists w'. split; [by right|done].
  - set_solver.
  - intros k Hk. apply Hnew in Hk as [Hk|Hk]; [|right; by right].
    apply elem_of_union in Hk as [->%elem_of_singleton|Hk]; [right; by left|by left].
  - intros R. destruct (Hrel R) as (H1 & (n & Hn) & H2). split_and!.
    + intros k [->|Hk]%elem_of_cons; [|by apply H1]. apply Hset. set_solver.
    + exists (Datatypes.S n). cbn [take fmap list_fmap]. by rewrite <-Hn.
    + intros [_ Hps]%Forall_cons. destruct (H2 Hps) as [-> Hall]. split; [done|]. by constructor.
Qed.

Lemma mem_winning s m o w :
  w ∈ (λ kq : positionKey * Z, winningPosition.mk m (kq.1.1.2) o (kq.2)) <$>
      filter (λ kq, is_winning s m o kq) (map_to_list (positions s)) ↔
  winningPosition.MarketID w = m ∧ winningPosition.Outcome w = o ∧
  positions s !! position_key w = Some (winningPosition.Quantity w) ∧
  0 < winningPosition.Quantity w ∧ position_key w ∉ settled s.
Proof.
  rewrite list_elem_of_fmap. setoid_rewrite list_elem_of_filter. split.
  - intros ([[[m' u] o'] q] & -> & Hw & Hin%elem_of_map_to_list). revert Hw. unfold is_winning. simpl.
    intros [Hw Hs%negb_prop_elim]%andb_prop_elim. apply negb_prop_elim in Hw.
    destruct (Z.eqb_spec m' m); [|done]. destruct (String.eqb_spec o' o); [|done].
    destruct (Z.leb_spec q 0); [done|]. subst. split_and!; try done.
    by rewrite bool_decide_spec in Hs.
  - intros (<- & <- & Hp & Hq & Hs). destruct w as [m u o q]. unfold position_key in *. simpl in *.
    exists ((m, u, o), q). split_and!; [done| |by apply elem_of_map_to_list].
    unfold is_winning. rewrite Z.eqb_refl, String.eqb_refl, (proj2 (Z.leb_gt q 0) Hq). simpl.
    by rewrite bool_decide_false.
Qed.

Lemma mem_winning_nodup s m o :
  NoDup (position_key <$> ((λ kq : positionKey * Z, winningPosition.mk m (kq.1.1.2) o (kq.2)) <$>
      filter (λ kq, is_winning s m o kq) (map_to_list (positions s)))).
Proof.
  rewrite <-list_fmap_compose.
  assert (∀ kq, kq ∈ filter (λ kq, is_winning s m o kq) (map_to_list (positions s)) →
    (position_key ∘ (λ kq : positionKey * Z, winningPosition.mk m (kq.1.1.2) o (kq.2))) kq = kq.1) as H.
  { intros [[[m' u] o'] q] [Hw _]%list_elem_of_filter. revert Hw. unfold is_winning. simpl.
    intros [Hw _]%andb_prop_elim. apply negb_prop_elim in Hw.
    destruct (Z.eqb_spec m' m); [|done]. destruct (String.eqb_spec o' o); [|done]. by subst. }
  rewrite (list_fmap_ext _ fst); [|intros ? ? ?%list_elem_of_lookup_2; by apply H].
  eapply sublist_NoDup; [apply (NoDup_fst_map_to_list (positions s))|].
  apply fmap_sublist, sublist_filter.
Qed.

Lemma settleWinning_spec clock m o (p p' : proc) err :
  settleWinningPositions clock m o p = (p', err) →
  ∃ ps evs,
    (∀ w, w ∈ ps ↔ winningPosition.MarketID w = m ∧ winningPosition.Outcome w = o ∧
       positions (pstore p) !! position_key w = Some (winningPosition.Quantity w) ∧
       0 < winningPosition.Quantity w ∧ position_key w ∉ settled (pstore p)) ∧
    NoDup (position_key <$> ps) ∧
    settlements p' = settlements p ++ evs ∧
    Forall (λ e, ∃ w, w ∈ ps ∧ pays w e) evs ∧
    positions (pstore p') = positions (pstore p) ∧
    resolved (pstore p') = resolved (pstore p) ∧
    settled (pstore p) ⊆ settled (pstore p') ∧
    (∀ k, k ∈ settled (pstore p') → k ∈ settled (pstore p) ∨ k ∈ event_key <$> evs) ∧
    (reliable →
      (∀ k, k ∈ event_key <$> evs → k ∈ settled (pstore p')) ∧
      (∃ n, event_key <$> evs = position_key <$> take n ps) ∧
      (Forall (λ w, ∃ r, WinningPayoutAmount (winningPosition.Quantity w) = Ok r) ps →
       err = None ∧ Forall2 pays ps evs)).
Proof.
  unfold settleWinningPositions. cbn [WinningPositions positionStore_store mem_WinningPositions].
  intros H%settle_loop_spec. destruct H as (evs & H). eexists _, evs.
  split; [intros w; apply mem_winning|]. split; [apply mem_winning_nodup|].
  destruct p as [st q]. exact H.
Qed.

(** ** Reachable states *)

Inductive sstep : proc → proc → Prop :=
| step_position msg p : sstep p (HandlePositionChanged msg p).1
| step_market fresh clock msg p : sstep p (HandleMarketEvent fresh clock msg p).1.

Inductive sreach : proc → Prop :=
| sreach_new q : published q = [] → sreach (NewProcessor newPositionStore q)
| sreach_step p p' : sreach p → sstep p p' → sreach p'.

(** A market event either does nothing (not a resolution, no outcome, a
    conflicting outcome) or fixes the outcome and runs the payout loop. *)
Lemma market_event_cases fresh clock msg (p p' : proc) err :
  HandleMarketEvent fresh clock msg p = (p', err) →
  p' = p ∨
  ∃ event p1, msg = Some event ∧
    let m := MarketEvent.MarketID event in
    let o := normalize_upper (MarketEvent.ResolvedOutcome event) in
    normalize_upper (MarketEvent.Status event) = "RESOLVED" ∧ o ≠ "" ∧
    (resolved (pstore p) !! m = None ∨ resolved (pstore p) !! m = Some o) ∧
    publisher p1 = publisher p ∧ positions (pstore p1) = positions (pstore p) ∧
    settled (pstore p1) = settled (pstore p) ∧
    resolved (pstore p1) = <[m := o]> (resolved (pstore p)) ∧
    settleWinningPositions clock m o p1 = (p', err).
Proof.
  destruct p as [st q]. unfold HandleMarketEvent, unless_frozen.
  cbn [RollupFrozen positionStore_store mem_RollupFrozen pstore set_pstore publisher].
  destruct msg as [event|]; [|by intros [= <- <-]; left].
  destruct (String.eqb_spec (normalize_upper (MarketEvent.Status event)) "RESOLVED") as [Hst|];
    [|by intros [= <- <-]; left]. cbn [negb].
  destruct (String.eqb_spec (normalize_upper (MarketEvent.ResolvedOutcome event)) "") as [|Ho];
    [by intros [= <- <-]; left|].
  cbn [ResolveMarket positionStore_store pstore set_pstore publisher]. unfold mem_ResolveMarket.
  cbn [ResolveMarketInput.MarketID ResolveMarketInput.ResolvedOutcome].
  destruct (resolved st !! MarketEvent.MarketID event) as [existing|] eqn:Er.
  - destruct (String.eqb_spec existing (normalize_upper (MarketEvent.ResolvedOutcome event)))
      as [->|]; [|by intros [= <- <-]; left].
    intros H. right. exists event, (mkProcessor st q). cbn [pstore publisher positions settled resolved].
    rewrite insert_id by done. by split_and!; try right.
  - cbn [CancelActiveOrders positionStore_store mem_CancelActiveOrders publish_cancelled pstore set_pstore].
    intros H. right. eexists event, _. split; [done|]. cbn zeta. split_and!; try exact H; try done.
    by left.
Qed.

Lemma position_event_cases msg (p p' : proc) err :
  HandlePositionChanged msg p = (p', err) →
  publisher p' = publisher p ∧ resolved (pstore p') = resolved (pstore p) ∧
  settled (pstore p') = settled (pstore p).
Proof.
  unfold HandlePositionChanged, unless_frozen. cbn. destruct msg; by intros [= <- <-].
Qed.

(** ** The invariant of the log *)

Definition log_ok (p : proc) : Prop :=
  Forall (λ e, payout_ok e ∧
    resolved (pstore p) !! SettlementCompletedEvent.MarketID e =
      Some (SettlementCompletedEvent.WinningOutcome e)) (settlements p) ∧
  (∀ k, k ∈ settled (pstore p) → k ∈ event_key <$> settlements p).

Definition once_ok (p : proc) : Prop :=
  NoDup (event_key <$> settlements p) ∧
  (∀ k, k ∈ event_key <$> settlements p ↔ k ∈ settled (pstore p)).

Lemma resolved_grows (p p' : proc) m o :
  sstep p p' → resolved (pstore p) !! m = Some o → resolved (pstore p') !! m = Some o.
Proof.
  intros Hs Hm. destruct Hs as [msg p|fresh clock msg p].
  - destruct (HandlePositionChanged msg p) as [p' err] eqn:E.
    apply position_event_cases in E as (_ & E & _). simpl. by rewrite E.
  - destruct (HandleMarketEvent fresh clock msg p) as [p' err] eqn:E. simpl.
    apply market_event_cases in E as [->|(event & p1 & -> & _ & _ & Hr & _ & _ & _ & Hres & Hw)]; [done|].
    apply settleWinning_spec in Hw as (_ & _ & _ & _ & _ & _ & _ & -> & _). rewrite Hres.
    destruct (decide (m = MarketEvent.MarketID event)) as [->|Hne].
    + rewrite lookup_insert_eq. destruct Hr; congruence.
    + by rewrite lookup_insert_ne.
Qed.

Lemma settlements_publisher (p p' : proc) :
  publisher p' = publisher p → settlements p' = settlements p.
Proof. unfold settlements. by intros ->. Qed.

Lemma log_ok_step p p' : sstep p p' → log_ok p → log_ok p'.
Proof.
  intros Hs (Hl & Hk). pose proof (λ m o, resolved_grows p p' m o Hs) as Hgrow.
  destruct Hs as [msg p|fresh clock msg p].
  - destruct (HandlePositionChanged msg p) as [p' err] eqn:E.
    apply position_event_cases in E as (Hp & Hr & Hst). simpl in *.
    unfold log_ok. by rewrite (settlements_publisher _ _ Hp), Hr, Hst.
  - destruct (HandleMarketEvent fresh clock msg p) as [p' err] eqn:E. simpl in *.
    apply market_event_cases in E as
      [->|(event & p1 & -> & _ & _ & _ & Hp & Hpos & Hst & Hres & Hw)]; [done|].
    apply settleWinning_spec in Hw as
      (ps & evs & Hps & _ & Hlog & Hev & _ & Hr' & _ & Hset & _).
    rewrite (settlements_publisher _ _ Hp) in Hlog. unfold log_ok. rewrite Hlog, fmap_app. split.
    + apply Forall_app. split; [eapply Forall_impl; [exact Hl|]; naive_solver|].
      eapply Forall_impl; [exact Hev|]. intros e (w & (Hm & Ho & _)%Hps & Hpay).
      apply pays_ok in Hpay as (Hok & Hkey & _). split; [done|].
      unfold event_key, position_key in Hkey. injection Hkey as -> _ ->.
      by rewrite Hr', Hres, Hm, Ho, lookup_insert_eq.
    + intros k [Hk'|Hk']%Hset; apply elem_of_app; [left; apply Hk; by rewrite <-Hst|by right].
Qed.

Lemma once_ok_step p p' : reliable → sstep p p' → once_ok p → once_ok p'.
Proof.
  intros R Hs (Hnd & Hk). destruct Hs as [msg p|fresh clock msg p].
  - destruct (HandlePositionChanged msg p) as [p' err] eqn:E.
    apply position_event_cases in E as (Hp & Hr & Hst). simpl in *.
    unfold once_ok. by rewrite (settlements_publisher _ _ Hp), Hst.
  - destruct (HandleMarketEvent fresh clock msg p) as [p' err] eqn:E. simpl in *.
    apply market_event_cases in E as
      [->|(event & p1 & -> & _ & _ & _ & Hp & Hpos & Hst & Hres & Hw)]; [done|].
    apply settleWinning_spec in Hw as
      (ps & evs & Hps & Hnps & Hlog & Hev & _ & _ & Hsub & Hset & Hrel).
    destruct (Hrel R) as (Hin & (n & Hn) & _).
    rewrite (settlements_publisher _ _ Hp) in Hlog. unfold once_ok. rewrite Hlog, fmap_app. split.
    + apply NoDup_app. split_and!; [done| |].
      * intros k Hk1 Hk2. apply Hk in Hk1. rewrite Hn, list_elem_of_fmap in Hk2.
        destruct Hk2 as (w & -> & Hw%elem_of_take). destruct Hw as (i & Hw & _).
        apply list_elem_of_lookup_2, Hps in Hw as (_ & _ & _ & _ & Hw). by rewrite Hst in Hw.
      * rewrite Hn. eapply sublist_NoDup; [exact Hnps|]. apply fmap_sublist, sublist_take.
    + intros k. rewrite elem_of_app, Hk, <-Hst. split.
      * intros [?|?]; [by apply Hsub|by apply Hin].
      * apply Hset.
Qed.

Lemma sreach_log_ok p : sreach p → log_ok p.
Proof.
  induction 1 as [q Hq|p p' _ IH Hs]; [|by eapply log_ok_step].
  unfold log_ok, settlements. simpl. rewrite Hq. split; [constructor|]. intros k Hk. set_solver.
Qed.

Lemma sreach_once_ok p : reliable → sreach p → once_ok p.
Proof.
  intros R. induction 1 as [q Hq|p p' _ IH Hs]; [|by eapply once_ok_step].
  unfold once_ok, settlements. simpl. rewrite Hq. split; [constructor|]. intros k. simpl. set_solver.
Qed.
End settle.

(** ** Theorems *)

Section theorems.
Context {P : Type} `{!Publisher P, !PublisherLog P}.

Notation proc := (Processor positionStore P).

(** Only winners are paid, at the fixed price: in every reachable state, under
    any publisher failures, each settlement event that left the service is for the
    outcome its market is resolved to, for a positive quantity, pays exactly 100
    per share in the collateral asset without overflow, and carries the identifier
    determined by its position. *)
Theorem settlement_sound (p : proc) :
  sreach p →
  Forall (λ e, payout_ok e ∧
    resolved (pstore p) !! SettlementCompletedEvent.MarketID e =
      Some (SettlementCompletedEvent.WinningOutcome e)) (settlements p).
Proof. intros [H _]%sreach_log_ok. exact H. Qed.

(** With a publisher that accepts its messages, no position is ever paid
    twice, whatever sequence of position and market events is handled, redelivered
    ones included. *)
Theorem paid_at_most_once (p : proc) :
  reliable (P := P) → sreach p → NoDup (event_key <$> settlements p).
Proof. intros R [H _]%sreach_once_ok; [exact H|exact R]. Qed.

(** A resolution is final: no event changes the outcome of a resolved market,
    and an event that names another outcome is refused and changes nothing. *)
Theorem resolution_final (p : proc) m o :
  resolved (pstore p) !! m = Some o →
  (∀ p', sstep p p' → resolved (pstore p') !! m = Some o) ∧
  (∀ fresh clock event, MarketEvent.MarketID event = m →
     normalize_upper (MarketEvent.Status event) = "RESOLVED" →
     normalize_upper (MarketEvent.ResolvedOutcome event) ≠ "" →
     normalize_upper (MarketEvent.ResolvedOutcome event) ≠ o →
     HandleMarketEvent fresh clock (Some event) p = (p, Some (ErrAlreadyResolved m o))).
Proof.
  intros Hm. split; [intros p' Hs; by eapply resolved_grows|].
  intros fresh clock event <- Hst Hne Ho. destruct p as [st q]. unfold HandleMarketEvent, unless_frozen.
  cbn [RollupFrozen positionStore_store mem_RollupFrozen pstore set_pstore publisher].
  rewrite Hst. destruct (String.eqb_spec (normalize_upper (MarketEvent.ResolvedOutcome event)) "");
    [done|]. cbn [negb String.eqb Ascii.eqb Bool.eqb].
  cbn [ResolveMarket positionStore_store pstore set_pstore publisher]. unfold mem_ResolveMarket.
  cbn [ResolveMarketInput.MarketID ResolveMarketInput.ResolvedOutcome]. simpl in Hm. rewrite Hm.
  by destruct (String.eqb_spec o (normalize_upper (MarketEvent.ResolvedOutcome event))) as [->|].
Qed.

(** The payout loop of a resolution that can pay: every winner gets its event. *)
Lemma settle_pays_all clock m o (p p' : proc) err :
  reliable (P := P) →
  (∀ u q, positions (pstore p) !! (m, u, o) = Some q → q * DefaultWinningSharePayout ≤ MaxInt64) →
  settleWinningPositions clock m o p = (p', err) →
  err = None ∧
  (∀ u q, positions (pstore p) !! (m, u, o) = Some q → 0 < q →
     (m, u, o) ∈ settled (pstore p') ∧
     ((m, u, o) ∉ settled (pstore p) →
      ∃ e, e ∈ settlements p' ∧ event_key e = (m, u, o) ∧
        SettlementCompletedEvent.SettledQuantity e = q)).
Proof.
  intros R Hfit (ps & evs & Hps & _ & Hlog & _ & _ & _ & Hsub & _ & Hrel)%settleWinning_spec.
  destruct (Hrel R) as (Hin & _ & Hall). destruct Hall as [Herr H2].
  { apply Forall_forall. intros w (Hm & Ho & Hp & Hq & _)%Hps. apply payout_defined; [done|].
    unfold position_key in Hp. rewrite Hm, Ho in Hp. by eapply Hfit. }
  split; [done|]. intros u q Hp Hq.
  destruct (decide ((m, u, o) ∈ settled (pstore p))) as [Hs|Hs]; [split; [by apply Hsub|done]|].
  assert (winningPosition.mk m u o q ∈ ps) as Hw by (by apply Hps).
  apply list_elem_of_lookup in Hw as (i & Hi).
  destruct (Forall2_lookup_l _ _ _ _ _ H2 Hi) as (e & He & Hpay).
  apply list_elem_of_lookup_2 in He. apply pays_ok in Hpay as (_ & Hk & Hq').
  split.
  - apply Hin. apply list_elem_of_fmap. by exists e.
  - intros _. exists e. rewrite Hlog. split_and!; [|done|done]. apply elem_of_app. by right.
Qed.

(** Resolving pays everybody: when a resolution event arrives for a market
    that is open or already has that outcome, and every payout fits in 64 bits, the
    handler succeeds, every holder of the winning outcome not settled before gets a
    settlement event for the whole quantity, and delivering the event again
    publishes nothing. *)
Theorem resolve_pays_every_winner fresh clock event (p : proc) :
  let m := MarketEvent.MarketID event in
  let o := normalize_upper (MarketEvent.ResolvedOutcome event) in
  reliable (P := P) →
  normalize_upper (MarketEvent.Status event) = "RESOLVED" → o ≠ "" →
  (resolved (pstore p) !! m = None ∨ resolved (pstore p) !! m = Some o) →
  (∀ u q, positions (pstore p) !! (m, u, o) = Some q → q * DefaultWinningSharePayout ≤ MaxInt64) →
  let '(p', err) := HandleMarketEvent fresh clock (Some event) p in
  err = None ∧
  (∀ u q, positions (pstore p) !! (m, u, o) = Some q → 0 < q → (m, u, o) ∉ settled (pstore p) →
     ∃ e, e ∈ settlements p' ∧ event_key e = (m, u, o) ∧
       SettlementCompletedEvent.SettledQuantity e = q) ∧
  settlements (HandleMarketEvent fresh clock (Some event) p').1 = settlements p'.
Proof.
  intros m o R Hst Ho Hres Hfit.
  destruct (HandleMarketEvent fresh clock (Some event) p) as [p' err] eqn:E.
  assert (∃ p1 : proc, positions (pstore p1) = positions (pstore p) ∧
    settled (pstore p1) = settled (pstore p) ∧
    settleWinningPositions clock m o p1 = (p', err)) as (p1 & Hpos & Hset & Hw).
  { revert E. destruct p as [st q]. unfold HandleMarketEvent, unless_frozen.
    cbn [RollupFrozen positionStore_store mem_RollupFrozen pstore set_pstore publisher].
    rewrite Hst. fold m o. destruct (String.eqb_spec o ""); [done|].
    cbn [negb String.eqb Ascii.eqb Bool.eqb].
    cbn [ResolveMarket positionStore_store pstore set_pstore publisher]. unfold mem_ResolveMarket.
    cbn [ResolveMarketInput.MarketID ResolveMarketInput.ResolvedOutcome]. simpl in Hres.
    destruct Hres as [->| ->]; [|rewrite String.eqb_refl]; intros E; (eexists; split_and!; [| |exact E]);
      reflexivity. }
  pose proof (settleWinning_spec _ _ _ _ _ _ Hw) as (_ & _ & _ & _ & _ & _ & Hpos' & _).
  rewrite Hpos in Hpos'.
  apply settle_pays_all in Hw as [-> Hall]; [|done|by rewrite Hpos]. rewrite Hpos, Hset in Hall.
  split; [done|]. split; [intros u q Hp Hq Hs; by apply Hall|].
  destruct (HandleMarketEvent fresh clock (Some event) p') as [p2 err2] eqn:E2. simpl.
  apply market_event_cases in E2
    as [->|(event' & p3 & [= <-] & _ & _ & _ & Hq3 & Hpos3 & Hset3 & _ & Hw)]; [done|].
  apply settleWinning_spec in Hw as (ps & evs & Hps & _ & Hlog & Hev & _).
  rewrite Hlog, (settlements_publisher _ _ Hq3). fold m o in Hps.
  destruct evs as [|e evs]; [by rewrite app_nil_r|].
  apply Forall_cons in Hev as [(w & Hw & _) _]. apply Hps in Hw as (Hm & Ho' & Hp & Hq & Hns).
  destruct Hns. rewrite Hset3. unfold position_key in *. rewrite Hm, Ho' in *.
  rewrite Hpos3, Hpos' in Hp. by destruct (Hall _ _ Hp Hq).
Qed.
End theorems.

(** ** Witnesses *)

Definition demo_position (user : Z) (outcome : string) (qty : Z) : PositionChangedEvent.t :=
  PositionChangedEvent.mk "pos" "" "t" user 88 outcome "" qty 0.
Definition demo_resolution (outcome : string) : MarketEvent.t :=
  MarketEvent.mk "mkt" "" 88 "resolved" outcome 0.

Definition sdemo0 : Processor positionStore (list BatchItem) :=
  NewProcessor newPositionStore [].
Definition sdemo1 := (HandlePositionChanged (Some (demo_position 1001 "yes" 25)) sdemo0).1.
Definition sdemo2 :=
  (HandleMarketEvent (λ _, "evt") (λ _, 0) (Some (demo_resolution "yes")) sdemo1).1.

Lemma sdemo1_reach : sreach sdemo1.
Proof. eapply sreach_step; [by apply (sreach_new [])|]. apply step_position. Qed.

Lemma sdemo2_reach : sreach sdemo2.
Proof. eapply sreach_step; [exact sdemo1_reach|]. apply step_market. Qed.

Lemma recording_reliable : reliable (P := list BatchItem).
Proof. by intros q t k v. Qed.

Lemma settlement_sound_witness :
  Forall (λ e, payout_ok e ∧
    resolved (pstore sdemo2) !! SettlementCompletedEvent.MarketID e =
      Some (SettlementCompletedEvent.WinningOutcome e)) (settlements sdemo2) ∧
  SettlementCompletedEvent.PayoutAmount <$> settlements sdemo2 = [2500].
Proof. split; [exact (settlement_sound sdemo2 sdemo2_reach)|vm_compute; reflexivity]. Defined.

Lemma paid_at_most_once_witness :
  NoDup (event_key <$> settlements sdemo2) ∧
  event_key <$> settlements sdemo2 = [(88, 1001, "YES")].
Proof.
  split; [exact (paid_at_most_once sdemo2 recording_reliable sdemo2_reach)|vm_compute; reflexivity].
Defined.

Lemma resolution_final_witness :
  HandleMarketEvent (λ _, "evt") (λ _, 0) (Some (demo_resolution "no")) sdemo2 =
  (sdemo2, Some (ErrAlreadyResolved 88 "YES")).
Proof.
  apply (resolution_final sdemo2 88 "YES"); [vm_compute; reflexivity|reflexivity|
    vm_compute; reflexivity|by vm_compute|by vm_compute].
Defined.

Lemma resolve_pays_every_winner_witness :
  (HandleMarketEvent (λ _, "evt") (λ _, 0) (Some (demo_resolution "yes")) sdemo1).2 = None.
Proof.
  pose proof (resolve_pays_every_winner (λ _, "evt") (λ _, 0) (demo_resolution "yes") sdemo1
    recording_reliable) as H. cbv zeta in H.
  specialize (H ltac:(vm_compute; reflexivity) ltac:(by vm_compute) ltac:(left; vm_compute; reflexivity)).
  assert (map_Forall (λ _ q, q * DefaultWinningSharePayout ≤ MaxInt64) (positions (pstore sdemo1))) as Hf
    by (apply (bool_decide_unpack _); vm_compute; exact I).
  specialize (H (λ u q Hq, Hf _ _ Hq)).
  destruct (HandleMarketEvent (λ _, "evt") (λ _, 0) (Some (demo_resolution "yes")) sdemo1).
  exact (proj1 H).
Defined.

(** Shares booked after the payout are never paid: a position event handled after
    the resolution (the two topics have separate consumers) adds to a position that
    is already marked as settled. *)
Theorem late_position_never_paid :
  let p := (HandlePositionChanged (Some (demo_position 1001 "yes" 10)) sdemo2).1 in
  let p' := (HandleMarketEvent (λ _, "evt") (λ _, 0) (Some (demo_resolution "yes")) p).1 in
  positions (pstore p') !! (88, 1001, "YES") = Some 35 ∧
  SettlementCompletedEvent.SettledQuantity <$> settlements p' = [25].
Proof. vm_compute. auto. Qed.
