(* ===== verification/SettlementSqlProps.v ===== *)
(** * Settlement service over its database: what is recorded and what is paid

    Reachable states of the processor over the SQL store, with other services writing to
    the same database, any transaction failing and an arbitrary publisher.  The invariant
    ties the payout table, the settled quantities, the published events and the rollup
    journal to each other. *)

From Stdlib Require Import Ascii.
From stdpp Require Import sorting.
From S2P Require Import Prelude Strings Shared Messages.
From S2P Require Import RollupJournal RollupState MatchStore Settlement SettlementSql SettlementProps.

Local Open Scope Z_scope.
Local Open Scope go_scope.

(** ** Event identifiers *)

Fixpoint free_of (c : ascii) (s : string) : bool :=
  match s with EmptyString => true | String a s => negb (Ascii.eqb a c) && free_of c s end.

Lemma split_at_inj c s1 s2 t1 t2 :
  free_of c s1 = true → free_of c s2 = true →
  s1 +:+ String c t1 = s2 +:+ String c t2 → s1 = s2 ∧ t1 = t2.
Proof.
  revert s2. induction s1 as [|a s1 IH]; intros [|b s2]; cbn [free_of].
  - intros _ _ [= ->]. done.
  - intros _ [Hb _]%andb_true_iff [= <- _]. by rewrite Ascii.eqb_refl in Hb.
  - intros [Ha _]%andb_true_iff _ [= -> _]. by rewrite Ascii.eqb_refl in Ha.
  - intros [_ H1]%andb_true_iff [_ H2]%andb_true_iff E.
    change (String a s1 +:+ String c t1) with (String a (s1 +:+ String c t1)) in E.
    change (String b s2 +:+ String c t2) with (String b (s2 +:+ String c t2)) in E.
    injection E as -> E. by destruct (IH s2 H1 H2 E) as [-> ->].
Qed.

Lemma all_digits_free c s : is_digit c = false → all_digits s = true → free_of c s = true.
Proof.
  intros Hc. induction s as [|a s IH]; [done|]. intros H. pose proof (digit_not a s c H Hc) as Ha.
  apply andb_true_iff in H as [_ H]. cbn [free_of].
  destruct (Ascii.eqb_spec a c); [done|]. by apply IH.
Qed.

Lemma itoa_free_underscore z : free_of "_" (itoa z) = true.
Proof.
  destruct (itoa_shape z) as [(n & -> & ->)|(n & -> & ->)];
    [|change (free_of "_" ("-" +:+ pretty n)) with (free_of "_" (pretty n))];
    by apply all_digits_free, pretty_N_parse.
Qed.

(** The identifier of a settlement determines the position it settles. *)
Lemma settlementEventID_inj m u o m' u' o' :
  settlementEventID m u o = settlementEventID m' u' o' →
  m = m' ∧ u = u' ∧ normalize_upper o = normalize_upper o'.
Proof.
  unfold settlementEventID. intros E.
  change ("evt_settlement_" +:+ itoa m +:+ String "_" (itoa u +:+ String "_" (normalize_upper o)) =
          "evt_settlement_" +:+ itoa m' +:+ String "_" (itoa u' +:+ String "_" (normalize_upper o'))) in E.
  repeat (injection E as E). apply split_at_inj in E as [Em E]; [|apply itoa_free_underscore..].
  apply split_at_inj in E as [Eu E]; [|apply itoa_free_underscore..].
  by apply itoa_inj in Em as ->; apply itoa_inj in Eu as ->.
Qed.

Lemma settlementEventID_tight m u o : TrimSpace (settlementEventID m u o) = settlementEventID m u o.
Proof.
  apply TrimSpace_id; [done|]. unfold settlementEventID. rewrite !rev_append.
  pose proof (rev_normalize_tight o) as Ht. by destruct (String.rev (normalize_upper o)) as [|a t].
Qed.

(** ** The journal *)

Definition settlement_source (kind source : string) (ref : string) (e : JournalEntry.t) : Prop :=
  JournalEntry.source e = (kind, source, ref).

(** Rows other services append. *)
Definition foreign (e : JournalEntry.t) : Prop :=
  JournalEntry.SourceType e ∉ [SourceTypeSettlementMarket; SourceTypeSettlementPayout].

Definition entry_ids (j : Journal) : list string := JournalEntry.EntryID <$> entries j.

Lemma insert_row_entries j id e j' :
  insert_row j id e = Ok j' →
  (append_source e ∈ JournalEntry.source <$> entries j ∧ entries j' = entries j) ∨
  (append_source e ∉ JournalEntry.source <$> entries j ∧
   ∃ row, entries j' = entries j ++ [row] ∧ JournalEntry.source row = append_source e ∧
     JournalEntry.EntryID row = id ∧ JournalEntry.Payload row = JournalAppend.Payload e ∧
     JournalEntry.OccurredAtMillis row = JournalAppend.OccurredAtMillis e).
Proof.
  unfold insert_row. case_bool_decide as Ec; [intros [= <-]; by left|].
  case_bool_decide; [done|]. intros [= <-]. right. split; [done|]. by eexists.
Qed.

(** What a list of appends adds: rows of the appends' sources. *)
Lemma append_entries_rows fresh j es j' :
  AppendEntriesTx fresh j es = Ok j' →
  ∃ rows, entries j' = entries j ++ rows ∧
    Forall (λ r, ∃ e, e ∈ es ∧ JournalEntry.source r = append_source e) rows.
Proof.
  intros [_ H]%AppendEntriesTx_rows. revert fresh j H.
  induction es as [|e es IH]; intros fresh j; cbn [insert_rows].
  { intros [= <-]. exists []. by rewrite app_nil_r. }
  intros (j1 & E1 & (rows & E2 & Hr)%IH)%result_bind_Ok.
  assert (Forall (λ r, ∃ e', e' ∈ e :: es ∧ JournalEntry.source r = append_source e') rows) as Hr'.
  { eapply Forall_impl; [exact Hr|]. intros r (e' & ? & ?). exists e'. split; [by right|done]. }
  apply insert_row_entries in E1 as [(_ & E1)|(_ & row & E1 & Hs & _)].
  - exists rows. by rewrite E2, E1.
  - exists (row :: rows). rewrite E2, E1, <-app_assoc. split; [done|]. constructor; [|done].
    exists e. split; [by left|done].
Qed.

Lemma append_one fresh j e j' :
  AppendEntriesTx fresh j [e] = Ok j' → append_source e ∉ JournalEntry.source <$> entries j →
  ∃ row, entries j' = entries j ++ [row] ∧ JournalEntry.source row = append_source e ∧
    JournalEntry.Payload row = JournalAppend.Payload e ∧
    JournalEntry.OccurredAtMillis row = JournalAppend.OccurredAtMillis e.
Proof.
  cbn [AppendEntriesTx]. intros (j1 & [_ E]%appendEntry_insert & [= <-])%result_bind_Ok Hn.
  apply insert_row_entries in E as [(? & _)|(_ & row & E & Hs & _ & Hp & Ho)]; [done|]. by exists row.
Qed.

(** Entries with drawn identifiers go through when the identifiers are unused. *)
Lemma insert_rows_total (fresh : nat → string) j es :
  Inj (=) (=) fresh → (∀ i, fresh i ∉ entry_ids j) →
  Forall (λ e, JournalAppend.EntryID e = "") es →
  ∃ j', insert_rows fresh j es = Ok j' ∧
    ∀ id, id ∈ entry_ids j' → id ∈ entry_ids j ∨ ∃ i, id = fresh i.
Proof.
  intros Hi Hf Hes. revert fresh j Hi Hf. induction Hes as [|e es He _ IH]; intros fresh j Hi Hf.
  { exists j. cbn [insert_rows]. auto. }
  cbn [insert_rows]. assert (entry_id (fresh 0%nat) e = fresh 0%nat) as -> by (unfold entry_id; by rewrite He).
  destruct (insert_row j (fresh 0%nat) e) as [j1|err] eqn:E.
  2:{ revert E. unfold insert_row. case_bool_decide; [done|]. by rewrite bool_decide_false by apply Hf. }
  assert (∀ id, id ∈ entry_ids j1 → id ∈ entry_ids j ∨ id = fresh 0%nat) as Hj1.
  { unfold entry_ids. apply insert_row_entries in E as [(_ & ->)|(_ & row & -> & _ & Hid & _)]; [by left|].
    intros id. rewrite fmap_app, elem_of_app. cbn [fmap list_fmap]. rewrite list_elem_of_singleton, Hid. auto. }
  destruct (IH (λ i, fresh (S i)) j1) as (j' & E' & Hj').
  - intros a b [=]%Hi. done.
  - intros i [?|E0%Hi]%Hj1; [by eapply Hf|done].
  - exists j'. cbn. rewrite E'. split; [done|]. intros id [[?| ->]%Hj1|(i & ->)]%Hj'; eauto.
Qed.

(** ** The invariant *)

(** The market is resolved to the outcome. *)
Definition resolved_to (d : SettleDB) (m : Z) (o : string) : Prop :=
  ∃ row, t_markets d !! m = Some row ∧ SettleMarketRow.status row = "RESOLVED" ∧
    SettleMarketRow.resolved_outcome row = o.

Definition key_id (k : positionKey) : string := settlementEventID k.1.1 k.1.2 k.2.

(** What the payout table has recorded for a position. *)
Definition recorded (d : SettleDB) (k : positionKey) : Z :=
  match t_payouts d !! key_id k with Some r => PayoutRow.settled_quantity r | None => 0 end.

(** An event that may leave the service. *)
Definition event_ok (d : SettleDB) (e : SettlementCompletedEvent.t) : Prop :=
  payout_ok e ∧ normalize_upper (SettlementCompletedEvent.WinningOutcome e) =
                SettlementCompletedEvent.WinningOutcome e ∧
  resolved_to d (SettlementCompletedEvent.MarketID e) (SettlementCompletedEvent.WinningOutcome e).

Record sql_ok (d : SettleDB) (log : list SettlementCompletedEvent.t) : Prop := {
  so_log : Forall (event_ok d) log;
  so_payouts id r : t_payouts d !! id = Some r →
    ∃ e now, e ∈ log ∧ id = SettlementCompletedEvent.EventID e ∧ r = payout_row now e ∧
      is_Some (t_positions d !! event_key e);
  so_positions k row : t_positions d !! k = Some row →
    normalize_upper k.2 = k.2 ∧ PositionRow.settled_quantity row = recorded d k;
  so_markets m o : resolved_to d m o → normalize_upper o = o;
}.

Definition resolved_row (m : Z) (e : JournalEntry.t) : Prop :=
  settlement_source EntryTypeMarketResolved SourceTypeSettlementMarket (itoa m) e.
Definition payout_journal_row (id : string) (e : JournalEntry.t) : Prop :=
  settlement_source EntryTypeSettlementPayout SourceTypeSettlementPayout id e.

(** The payload a payout row stands for. *)
Definition row_payload (id : string) (r : PayoutRow.t) (occurredAt : Z) : SettlementPayoutPayload.t :=
  SettlementPayoutPayload.mk id (PayoutRow.market_id r) (PayoutRow.user_id r)
    (PayoutRow.winning_outcome r) (PayoutRow.position_asset r) (PayoutRow.settled_quantity r)
    (PayoutRow.payout_asset r) (PayoutRow.payout_amount r) occurredAt.

Section mirror.
Context `{!JSON SettlementPayoutPayload.t}.

Record mirrored (d : SettleDB) : Prop := {
  mi_resolved m : (∃ o, resolved_to d m o) →
    ∃ x, x ∈ entries (t_journal d) ∧ resolved_row m x;
  mi_payouts id r : t_payouts d !! id = Some r →
    ∃ i x, entries (t_journal d) !! i = Some x ∧ payout_journal_row id x ∧
      JournalEntry.Payload x =
        OtherPayload (Marshal (row_payload id r (JournalEntry.OccurredAtMillis x))) ∧
      ∃ k y, (k < i)%nat ∧ entries (t_journal d) !! k = Some y ∧
        resolved_row (PayoutRow.market_id r) y;
  mi_only x : x ∈ entries (t_journal d) →
    JournalEntry.SourceType x = SourceTypeSettlementPayout →
    ∃ id, is_Some (t_payouts d !! id) ∧ payout_journal_row id x;
  mi_markets x : x ∈ entries (t_journal d) →
    JournalEntry.SourceType x = SourceTypeSettlementMarket →
    ∃ m o, resolved_to d m o ∧ resolved_row m x;
}.

(** What other services may do to the shared tables: orders, resolutions and the freeze
    flag are theirs as well; they neither resolve a market nor touch a resolved one, and
    append rows of their own sources to the journal. *)
Record others (d d' : SettleDB) : Prop := {
  ot_positions : t_positions d' = t_positions d;
  ot_payouts : t_payouts d' = t_payouts d;
  ot_resolved m row : SettleMarketRow.status row = "RESOLVED" →
    (t_markets d' !! m = Some row ↔ t_markets d !! m = Some row);
  ot_journal : ∃ rows, entries (t_journal d') = entries (t_journal d) ++ rows ∧ Forall foreign rows;
}.

Definition sql_inv (s : SettleStore) (log : list SettlementCompletedEvent.t) : Prop :=
  sql_ok (sdb s) log ∧ (with_rollup s = true → mirrored (sdb s)).

Lemma others_resolved d d' m o : others d d' → resolved_to d m o ↔ resolved_to d' m o.
Proof.
  intros [_ _ Hr _]. unfold resolved_to. split; intros (row & H & Hs & Ho); exists row; split_and!; try done;
    by apply (Hr m row Hs).
Qed.

Lemma event_ok_mono d d' e :
  (∀ m o, resolved_to d m o → resolved_to d' m o) → event_ok d e → event_ok d' e.
Proof. intros H (? & ? & ?). split_and!; [done..|by apply H]. Qed.

Lemma sql_ok_same d d' log :
  t_positions d' = t_positions d → t_payouts d' = t_payouts d →
  (∀ m o, resolved_to d m o ↔ resolved_to d' m o) → sql_ok d log → sql_ok d' log.
Proof.
  intros Hp Hy Hr [Hl Hpay Hpos Hmk]. split.
  - eapply Forall_impl; [exact Hl|]. intros e. apply event_ok_mono. apply Hr.
  - rewrite Hy, Hp. done.
  - unfold recorded. by rewrite Hy, Hp.
  - intros m o Ho%Hr. by eapply Hmk.
Qed.

(** Rows at the end of the journal that are not the settlement's own keep the mirror. *)
Lemma mirrored_extend d d' rows :
  t_payouts d' = t_payouts d → (∀ m o, resolved_to d m o ↔ resolved_to d' m o) →
  entries (t_journal d') = entries (t_journal d) ++ rows → Forall foreign rows →
  mirrored d → mirrored d'.
Proof.
  intros Hy Hr Hj Hf [H1 H2 H3 H4].
  assert (∀ x, x ∈ entries (t_journal d') →
    JournalEntry.SourceType x ∈ [SourceTypeSettlementMarket; SourceTypeSettlementPayout] →
    x ∈ entries (t_journal d)) as Hin.
  { intros x. rewrite Hj, elem_of_app. intros [?|Hx] Hs; [done|].
    by destruct (proj1 (Forall_forall _ _) Hf x Hx). }
  split.
  - intros m (o & Ho%Hr). destruct (H1 m) as (x & ? & ?); [by exists o|]. exists x. rewrite Hj, elem_of_app. auto.
  - rewrite Hy, Hj. intros id r (i & x & Hi & Hx & Hp & k & y & Hk & Hy' & Hres)%H2.
    exists i, x. split_and!; [by apply lookup_app_l_Some|done..|]. exists k, y. split_and!; [done| |done].
    by apply lookup_app_l_Some.
  - rewrite Hy. intros x Hx Hs. apply H3; [|done]. apply Hin; [done|]. rewrite Hs. set_solver.
  - intros x Hx Hs. destruct (H4 x) as (m & o & Ho & Hx'); [|done|].
    + apply Hin; [done|]. rewrite Hs. set_solver.
    + exists m, o. split; [by apply Hr|done].
Qed.

Lemma sql_inv_others s d log :
  others (sdb s) d → sql_inv s log → sql_inv (mkSettleStore d (with_rollup s) (senv s) (tx_count s)) log.
Proof.
  intros Ho [Hok Hm]. pose proof (λ m o, others_resolved _ _ m o Ho) as Hr. destruct Ho as [Hp Hy _ (rows & Hj & Hf)].
  split; cbn [sdb with_rollup].
  - by eapply sql_ok_same.
  - intros Hroll. eapply mirrored_extend; eauto.
Qed.
End mirror.

(** ** The operations *)

Lemma settle_tx_cases {A} s (body : SettleDB → result SettlementError (SettleDB * A)) s' r :
  settle_tx s body = (s', r) →
  with_rollup s' = with_rollup s ∧ senv s' = senv s ∧ tx_count s' = S (tx_count s) ∧
  ((∃ d a, tx_fail (senv s) (tx_count s) = None ∧ body (sdb s) = Ok (d, a) ∧ sdb s' = d ∧ r = Ok a) ∨
   (∃ e, sdb s' = sdb s ∧ r = Err e ∧
      (is_Some (tx_fail (senv s) (tx_count s)) ∨ body (sdb s) = Err e))).
Proof.
  unfold settle_tx. destruct (tx_fail (senv s) (tx_count s)) as [err|].
  { intros [= <- <-]. split_and!; [done..|]. right. eexists. split_and!; [done..|]. left. by eexists. }
  destruct (body (sdb s)) as [[d a]|e]; intros [= <- <-]; (split_and!; [done..|]).
  - left. by exists d, a.
  - right. exists e. split_and!; [done..|]. by right.
Qed.

(** The steps that leave positions, payouts and resolutions alone. *)
Definition quiet (s s' : SettleStore) : Prop :=
  with_rollup s' = with_rollup s ∧ senv s' = senv s ∧ others (sdb s) (sdb s').

Lemma others_refl d : others d d.
Proof. split; [done..|]. exists []. by rewrite app_nil_r. Qed.

Lemma others_trans d1 d2 d3 : others d1 d2 → others d2 d3 → others d1 d3.
Proof.
  intros [? ? Hr1 (r1 & E1 & F1)] [? ? Hr2 (r2 & E2 & F2)]. split; [congruence..| |].
  - intros m row Hs. rewrite (Hr2 m row Hs). by apply Hr1.
  - exists (r1 ++ r2). rewrite E2, E1, <-app_assoc. split; [done|]. by apply Forall_app.
Qed.

#[global] Instance quiet_preorder : PreOrder quiet.
Proof.
  split.
  - intros s. split_and!; [done..|]. apply others_refl.
  - intros s1 s2 s3 (H1 & H2 & H3) (H4 & H5 & H6). split_and!; [congruence..|]. by eapply others_trans.
Qed.

Lemma quiet_tx {A} s (body : SettleDB → result SettlementError (SettleDB * A)) s' r :
  settle_tx s body = (s', r) →
  (∀ d a, body (sdb s) = Ok (d, a) → others (sdb s) d) → quiet s s'.
Proof.
  intros (H1 & H2 & _ & [(d & a & _ & E & Ed & _)|(e & Ed & _)])%settle_tx_cases Hb.
  - split_and!; [done..|]. rewrite Ed. by eapply Hb.
  - split_and!; [done..|]. rewrite Ed. apply others_refl.
Qed.

Lemma ensure_quiet s m s' r : settle_ensureMarket s m = (s', r) → quiet s s'.
Proof.
  intros H. eapply quiet_tx; [exact H|]. intros d a [= <- _]. unfold insert_market.
  destruct (t_markets (sdb s) !! m) eqn:E; [apply others_refl|].
  split; [done..| |by exists []; rewrite app_nil_r]. intros m' row Hs. cbn [t_markets set_t_markets].
  destruct (decide (m = m')) as [<-|]; [|by rewrite lookup_insert_ne].
  rewrite lookup_insert_eq, E. split; [|done]. by intros [= <-].
Qed.

Lemma frozen_quiet s s' r : sql_RollupFrozen s = (s', r) → quiet s s'.
Proof. intros H. eapply quiet_tx; [exact H|]. intros d a [= <- _]. apply others_refl. Qed.

Lemma winning_quiet s m o s' r : sql_WinningPositions s m o = (s', r) →
  quiet s s' ∧ sdb s' = sdb s ∧ (∀ ps, r = Ok ps → select_winning (sdb s) m o = Ok ps).
Proof.
  intros H. split.
  { eapply quiet_tx; [exact H|]. intros d a (? & _ & [= <- _])%result_bind_Ok. apply others_refl. }
  apply settle_tx_cases in H as (_ & _ & _ & [(d & a & _ & E & Ed & Er)|(e & Ed & Er & _)]).
  - apply result_bind_Ok in E as (ps & E & [= Hd Ha]). rewrite Ed, Er, <-Hd, <-Ha.
    split; [done|]. by intros ps' [= <-].
  - rewrite Ed, Er. done.
Qed.

Lemma append_settlement_rows s d es d' :
  append_settlement s d es = Ok d' →
  ∃ j rows, d' = set_t_journal d j ∧ entries j = entries (t_journal d) ++ rows ∧
    Forall (λ r, ∃ e, e ∈ es ∧ JournalEntry.source r = append_source e) rows.
Proof.
  unfold append_settlement. destruct (with_rollup s).
  - destruct (AppendEntriesTx _ _ _) as [j|] eqn:E; [|done]. intros [= <-].
    apply append_entries_rows in E as (rows & E & Hr). by exists j, rows.
  - intros [= <-]. exists (t_journal d), []. rewrite app_nil_r. by destruct d.
Qed.

Lemma cancel_quiet s m reason s' r : sql_CancelActiveOrders s m reason = (s', r) → quiet s s'.
Proof.
  intros H. eapply quiet_tx; [exact H|]. intros d a. unfold cancel_body, cancel_orders.
  intros (d1 & E & [= <- _])%result_bind_Ok.
  apply append_settlement_rows in E as (j & rows & -> & Hj & Hr). split; [done..|].
  exists rows. split; [done|]. eapply Forall_impl; [exact Hr|]. intros x (e & He & Hs).
  apply list_elem_of_fmap in He as (o & -> & _). unfold foreign. injection Hs as _ -> _.
  apply (bool_decide_unpack _). vm_compute. exact I.
Qed.

Lemma upsert_position_ok now d m u o asset delta d' log :
  normalize_upper o = o → upsert_position now d m u o asset delta = Ok d' → sql_ok d log →
  sql_ok d' log ∧ t_payouts d' = t_payouts d ∧ t_markets d' = t_markets d ∧ t_journal d' = t_journal d.
Proof.
  intros Ho E Hok.
  assert (∃ row, PositionRow.settled_quantity row = recorded d (m, u, o) ∧
    d' = set_t_positions d (<[(m, u, o) := row]> (t_positions d))) as (row & Hrow & ->).
  { revert E. unfold upsert_position. destruct (t_positions d !! (m, u, o)) as [row|] eqn:Ek.
    - intros (q & _ & [= <-])%result_bind_Ok. eexists. split; [|done].
      by apply (so_positions _ _ Hok) in Ek as [_ ?].
    - case_bool_decide; [done|]. intros [= <-]. eexists. split; [|done]. simpl. unfold recorded.
      destruct (t_payouts d !! key_id (m, u, o)) as [r|] eqn:Er; [|done].
      apply (so_payouts _ _ Hok) in Er as (e & t & He & Hid & _ & Hp).
      pose proof (proj1 (Forall_forall _ _) (so_log _ _ Hok) e He) as ((_ & _ & _ & _ & _ & Hid') & Hn & _).
      rewrite Hid' in Hid. unfold key_id in Hid. cbn [fst snd] in Hid.
      apply settlementEventID_inj in Hid as (-> & -> & Hoo).
      assert (event_key e = (SettlementCompletedEvent.MarketID e, SettlementCompletedEvent.UserID e, o)) as Hk.
      { unfold event_key. congruence. }
      rewrite Hk in Hp. destruct Hp as [x Hx]. pose proof (eq_trans (eq_sym Ek) Hx) as [=]. }
  split_and!; [|done..]. destruct Hok as [Hl Hpay Hpos Hmk]. split; cbn [t_payouts t_positions set_t_positions].
  - exact Hl.
  - intros id r (e & t & He & Hid & Hr & Hp)%Hpay. exists e, t. split_and!; [done..|].
    by apply lookup_insert_is_Some'; right.
  - intros k row' [[<- <-]|[_ Hk]]%lookup_insert_Some; [done|]. by apply Hpos.
  - exact Hmk.
Qed.

Section ops.
Context (sha256 : string → string).
Context `{!JSON MarketResolvedPayload.t, !JSON SettlementPayoutPayload.t, !JSON evidenceEnvelope.t}.

Lemma sql_inv_same s s' log :
  with_rollup s' = with_rollup s → sql_ok (sdb s') log →
  t_payouts (sdb s') = t_payouts (sdb s) → t_markets (sdb s') = t_markets (sdb s) →
  t_journal (sdb s') = t_journal (sdb s) → sql_inv s log → sql_inv s' log.
Proof.
  intros Hw Hok Hy Hm Hj [_ Hmi]. split; [done|]. rewrite Hw. intros Hr.
  eapply (mirrored_extend _ _ []); [done| |by rewrite Hj, app_nil_r|done|by apply Hmi].
  intros m o. unfold resolved_to. by rewrite Hm.
Qed.

Lemma quiet_inv s s' log : quiet s s' → sql_inv s log → sql_inv s' log.
Proof.
  intros (Hw & He & Ho) Hi. apply (sql_inv_others _ _ _ Ho) in Hi. destruct s' as [d w e n].
  cbn in *. subst. exact Hi.
Qed.

Lemma quiet_resolved s s' m o : quiet s s' → resolved_to (sdb s) m o ↔ resolved_to (sdb s') m o.
Proof. intros (_ & _ & Ho). by apply others_resolved. Qed.

Lemma apply_delta_inv s m u o asset delta s' err log :
  normalize_upper o = o → sql_ApplyDelta s m u o asset delta = (s', err) → sql_inv s log → sql_inv s' log.
Proof.
  intros Ho. unfold sql_ApplyDelta. destruct (settle_ensureMarket s m) as [s1 [[]|e]] eqn:E1;
    apply ensure_quiet in E1.
  2:{ intros [= <- _]. by apply quiet_inv. }
  destruct (settle_tx s1 _) as [s2 r] eqn:E2. intros [= <- _] Hi%(quiet_inv _ _ _ E1).
  apply settle_tx_cases in E2 as (Hw & _ & _ & [(d & a & _ & E & Ed & _)|(e & Ed & _)]).
  - apply result_bind_Ok in E as (d1 & E & [= Hd _]). rewrite Hd in E. rewrite <-Ed in E.
    apply (upsert_position_ok _ _ _ _ _ _ _ _ log Ho) in E as (Hok & ? & ? & ?); [|apply Hi].
    by apply (sql_inv_same s1).
  - apply (sql_inv_same s1); rewrite ?Ed; try done. apply Hi.
Qed.

(** Appending one settlement entry whose source is new. *)
Lemma append_settlement_one s d e d' :
  append_settlement s d [e] = Ok d' →
  (with_rollup s = true → append_source e ∉ JournalEntry.source <$> entries (t_journal d)) →
  ∃ j, d' = set_t_journal d j ∧
    (with_rollup s = true → ∃ row, entries j = entries (t_journal d) ++ [row] ∧
       JournalEntry.source row = append_source e ∧ JournalEntry.Payload row = JournalAppend.Payload e ∧
       JournalEntry.OccurredAtMillis row = JournalAppend.OccurredAtMillis e).
Proof.
  unfold append_settlement. destruct (with_rollup s).
  - destruct (AppendEntriesTx _ _ _) as [j|] eqn:E; [|done]. intros [= <-] Hn.
    exists j. split; [done|]. intros _. by eapply append_one; [|apply Hn].
  - intros [= <-] _. exists (t_journal d). by destruct d.
Qed.

Lemma trim_itoa z : TrimSpace (itoa z) = itoa z.
Proof.
  apply TrimSpace_no_space.
  assert (∀ s, all_digits s = true → no_space s = true) as Hs.
  { intros s. induction s as [|a s IH]; [done|]. cbn [all_digits no_space].
    intros [Ha Hd]%andb_true_iff. rewrite (IH Hd), andb_true_r.
    by destruct a as [[] [] [] [] [] [] [] []]. }
  destruct (itoa_shape z) as [(n & -> & ->)|(n & -> & ->)]; [|change (no_space (pretty n) = true)];
    apply Hs, pretty_N_parse.
Qed.

(** A market without a resolution has no resolution in the journal. *)
Lemma resolved_source_new d m : mirrored d → (∀ o, ¬ resolved_to d m o) →
  (EntryTypeMarketResolved, SourceTypeSettlementMarket, itoa m) ∉
    JournalEntry.source <$> entries (t_journal d).
Proof.
  intros Hm Hn (x & Hs & Hx)%list_elem_of_fmap.
  destruct (mi_markets _ Hm x Hx) as (m' & o' & Hr & Hs'); [by injection Hs as _ <- _|].
  unfold resolved_row, settlement_source in Hs'. rewrite <-Hs in Hs'. injection Hs' as Hs'.
  apply itoa_inj in Hs' as ->. by eapply Hn.
Qed.

Lemma payout_source_new d id : mirrored d → t_payouts d !! id = None →
  (EntryTypeSettlementPayout, SourceTypeSettlementPayout, id) ∉
    JournalEntry.source <$> entries (t_journal d).
Proof.
  intros Hm Hn (x & Hs & Hx)%list_elem_of_fmap.
  destruct (mi_only _ Hm x Hx) as (id' & [r Hr] & Hs'); [by injection Hs as _ <- _|].
  unfold payout_journal_row, settlement_source in Hs'. rewrite <-Hs in Hs'. injection Hs' as ->. congruence.
Qed.

Lemma write_resolution_resolved now d m o row final :
  t_markets d !! m = Some row → SettleMarketRow.status row ≠ "RESOLVED" →
  let d' := write_resolution now d m o row final in
  ∀ m' o', resolved_to d' m' o' ↔ (m' = m ∧ o' = o) ∨ resolved_to d m' o'.
Proof.
  intros Hm Hs d' m' o'. unfold resolved_to, d', write_resolution. cbn [t_markets set_t_resolutions set_t_markets].
  destruct (decide (m' = m)) as [->|Hne].
  - rewrite lookup_insert_eq, Hm. split.
    + intros (r & [= <-] & _ & Ho). by left.
    + intros [[_ ->]|(r & [= <-] & ? & _)]; [|done]. by eexists.
  - rewrite lookup_insert_ne by done. naive_solver.
Qed.

(** A resolution and its journal row. *)
Lemma mirrored_resolved d d' m o x :
  t_payouts d' = t_payouts d → entries (t_journal d') = entries (t_journal d) ++ [x] →
  (∀ m' o', resolved_to d' m' o' ↔ (m' = m ∧ o' = o) ∨ resolved_to d m' o') →
  resolved_row m x → mirrored d → mirrored d'.
Proof.
  intros Hy Hj Hr Hx [H1 H2 H3 H4]. pose proof Hx as Hs. unfold resolved_row, settlement_source in Hs.
  assert (x ∈ entries (t_journal d')) as Hin by (rewrite Hj; apply elem_of_app; right; by left).
  split.
  - intros m' (o' & [[-> ->]|Ho]%Hr); [by exists x|]. destruct (H1 m') as (y & ? & ?); [by exists o'|].
    exists y. rewrite Hj, elem_of_app. auto.
  - rewrite Hy, Hj. intros id r (i & y & Hi & Hy' & Hp & k & z & Hk & Hz & Hres)%H2.
    exists i, y. split_and!; [by apply lookup_app_l_Some|done..|]. exists k, z.
    split_and!; [done| |done]. by apply lookup_app_l_Some.
  - rewrite Hy, Hj. intros y [Hy'| ->%list_elem_of_singleton]%elem_of_app Hsy; [by apply H3|].
    injection Hs as _ Hs _. by rewrite Hs in Hsy.
  - rewrite Hj. intros y [Hy'| ->%list_elem_of_singleton]%elem_of_app Hsy.
    + destruct (H4 y Hy' Hsy) as (m' & o' & Ho & ?). exists m', o'. split; [apply Hr; by right|done].
    + exists m, o. split; [apply Hr; by left|done].
Qed.

(** A payout and its journal row. *)
Lemma mirrored_paid d d' id r x o :
  t_payouts d !! id = None → t_payouts d' = <[id := r]> (t_payouts d) → t_markets d' = t_markets d →
  entries (t_journal d') = entries (t_journal d) ++ [x] → payout_journal_row id x →
  JournalEntry.Payload x = OtherPayload (Marshal (row_payload id r (JournalEntry.OccurredAtMillis x))) →
  resolved_to d (PayoutRow.market_id r) o → mirrored d → mirrored d'.
Proof.
  intros Hn Hy Hm Hj Hx Hp Hr [H1 H2 H3 H4]. pose proof Hx as Hs. unfold payout_journal_row, settlement_source in Hs.
  assert (∀ m o, resolved_to d' m o ↔ resolved_to d m o) as Hre by (intros; unfold resolved_to; by rewrite Hm).
  split.
  - intros m' (o' & Ho%Hre). destruct (H1 m') as (y & ? & ?); [by exists o'|]. exists y. rewrite Hj, elem_of_app. auto.
  - rewrite Hy, Hj. intros id' r' [[<- <-]|[Hne Hr']]%lookup_insert_Some.
    + exists (length (entries (t_journal d))), x. split_and!; [by apply list_lookup_middle|done..|].
      destruct (H1 (PayoutRow.market_id r)) as (y & (k & Hk)%list_elem_of_lookup & Hy'); [by exists o|].
      exists k, y. split_and!; [by eapply lookup_lt_Some|by apply lookup_app_l_Some|done].
    + apply H2 in Hr' as (i & y & Hi & Hy' & Hp' & k & z & Hk & Hz & Hres).
      exists i, y. split_and!; [by apply lookup_app_l_Some|done..|]. exists k, z.
      split_and!; [done| |done]. by apply lookup_app_l_Some.
  - rewrite Hy, Hj. intros y [Hy'| ->%list_elem_of_singleton]%elem_of_app Hsy.
    + destruct (H3 y Hy' Hsy) as (id' & ? & ?). exists id'. split; [|done]. apply lookup_insert_is_Some'. by right.
    + exists id. split; [by rewrite lookup_insert_eq|done].
  - rewrite Hj. intros y [Hy'| ->%list_elem_of_singleton]%elem_of_app Hsy.
    + destruct (H4 y Hy' Hsy) as (m' & o' & Ho & ?). exists m', o'. split; [by apply Hre|done].
    + injection Hs as _ Hs _. by rewrite Hs in Hsy.
Qed.

(** Either nothing changed, or the market went from open to resolved. *)
Lemma resolve_body_ok s input d b log :
  normalize_upper (ResolveMarketInput.ResolvedOutcome input) = ResolveMarketInput.ResolvedOutcome input →
  resolve_body sha256 s input (sdb s) = Ok (d, b) → sql_inv s log →
  let m := ResolveMarketInput.MarketID input in
  let o := ResolveMarketInput.ResolvedOutcome input in
  sql_ok d log ∧ (with_rollup s = true → mirrored d) ∧ resolved_to d m o ∧
  (∀ m' o', resolved_to (sdb s) m' o' → resolved_to d m' o') ∧
  t_positions d = t_positions (sdb s) ∧ t_payouts d = t_payouts (sdb s).
Proof.
  intros Ho E [Hok Hmi] m o. revert E. unfold resolve_body. fold m o.
  destruct (t_markets (sdb s) !! m) as [row|] eqn:Em; [|done].
  destruct (String.eqb_spec (SettleMarketRow.status row) "RESOLVED") as [Hst|Hst].
  { unfold resolve_again. fold m o. case_match eqn:Ec; [|done]. intros [= <- <-].
    apply andb_true_iff in Ec as [_ Ec%String.eqb_eq]. split_and!; try done. exists row. split_and!; [done..|].
    assert (normalize_upper (SettleMarketRow.resolved_outcome row) = SettleMarketRow.resolved_outcome row) as En.
    { apply (so_markets _ _ Hok m). by exists row. }
    unfold o in *. congruence. }
  intros (d1 & E & [= <- <-])%result_bind_Ok.
  set (final := finalizeResolutionRecord _ _) in *.
  pose proof (write_resolution_resolved (seconds s) (sdb s) m o row final Em Hst) as Hres. cbv zeta in Hres.
  assert (∀ o', ¬ resolved_to (sdb s) m o') as Hnew by (intros o' (r & Hr & ? & _); congruence).
  set (e := buildMarketResolvedEntry _ _ _) in *.
  assert (append_source e = (EntryTypeMarketResolved, SourceTypeSettlementMarket, itoa m)) as Hse.
  { unfold append_source, e. cbn [JournalAppend.SourceRef JournalAppend.EntryType JournalAppend.SourceType
      buildMarketResolvedEntry]. by rewrite trim_itoa. }
  apply append_settlement_one in E as (j & -> & Hj).
  2:{ intros Hroll. rewrite Hse. exact (resolved_source_new _ _ (Hmi Hroll) Hnew). }
  assert (∀ m' o', resolved_to (set_t_journal (write_resolution (seconds s) (sdb s) m o row final) j) m' o' ↔
    (m' = m ∧ o' = o) ∨ resolved_to (sdb s) m' o') as Hres' by exact Hres.
  split_and!.
  - destruct Hok as [Hl Hpay Hpos Hmk]. split; [|exact Hpay|exact Hpos|].
    + eapply Forall_impl; [exact Hl|]. intros x. apply event_ok_mono. intros m' o' ?. apply Hres'. by right.
    + intros m' o' [[-> ->]|?]%Hres'; [done|by eapply Hmk].
  - intros Hroll. destruct (Hj Hroll) as (x & Hx & Hsx & _).
    eapply (mirrored_resolved (sdb s) _ m o x);
      [done|exact Hx|exact Hres'|by unfold resolved_row, settlement_source; rewrite Hsx|by apply Hmi].
  - apply Hres'. by left.
  - intros m' o' ?. apply Hres'. by right.
  - done.
  - done.
Qed.

Lemma resolve_inv s input s' r log :
  normalize_upper (ResolveMarketInput.ResolvedOutcome input) = ResolveMarketInput.ResolvedOutcome input →
  sql_ResolveMarket sha256 s input = (s', r) → sql_inv s log →
  sql_inv s' log ∧ with_rollup s' = with_rollup s ∧ senv s' = senv s ∧
  (∀ m o, resolved_to (sdb s) m o → resolved_to (sdb s') m o) ∧
  t_positions (sdb s') = t_positions (sdb s) ∧ t_payouts (sdb s') = t_payouts (sdb s) ∧
  (is_Ok r = true → resolved_to (sdb s') (ResolveMarketInput.MarketID input)
                      (ResolveMarketInput.ResolvedOutcome input)).
Proof.
  intros Ho. unfold sql_ResolveMarket. destruct (settle_ensureMarket s _) as [s1 r1] eqn:E1.
  apply ensure_quiet in E1. intros E Hi. apply (quiet_inv _ _ _ E1) in Hi as Hi1.
  pose proof (λ m o, quiet_resolved _ _ m o E1) as Hq. destruct E1 as (Hw & He & [Hp Hy _ _]).
  destruct r1 as [[]|e]; [|injection E as <- <-; split_and!; try done; apply Hq].
  apply settle_tx_cases in E as (Hw' & He' & _ & [(d & a & _ & E & Ed & ->)|(e & Ed & -> & _)]).
  - apply (resolve_body_ok _ _ _ _ log Ho) in E as E0; [|exact Hi1]. cbv zeta in E0. rewrite <-Ed in E0.
    destruct E0 as (Hok & Hm & Hr & Hmono & Hp' & Hy'). split_and!; try congruence.
    + split; [done|]. by rewrite Hw'.
    + intros m o ?%Hq. by apply Hmono.
  - split_and!; rewrite ?Ed; try congruence; [|by apply Hq|done].
    split; rewrite Ed; [apply Hi1|]. rewrite Hw'. apply Hi1.
Qed.

(** ** Recording a payout *)

Lemma event_ok_forms d e : event_ok d e →
  TrimSpace (SettlementCompletedEvent.EventID e) = SettlementCompletedEvent.EventID e ∧
  settled_asset e = SettlementCompletedEvent.PositionAsset e ∧
  SettlementCompletedEvent.PayoutAsset e = "USDT" ∧
  SettlementCompletedEvent.EventID e = key_id (event_key e).
Proof.
  intros ((_ & _ & _ & Ha & Hp & Hid) & Hn & _). split_and!; [| |done|done].
  - rewrite Hid. apply settlementEventID_tight.
  - unfold settled_asset. cbv zeta. rewrite Hp, PositionAsset_normal.
    destruct (String.eqb_spec (PositionAsset (SettlementCompletedEvent.MarketID e)
      (SettlementCompletedEvent.WinningOutcome e)) ""); [done|]. done.
Qed.

Lemma payout_payload_row d e now ms : event_ok d e →
  let e' := normalizeSettlementEvent ms e (settled_asset e) in
  payout_payload e' = row_payload (SettlementCompletedEvent.EventID e) (payout_row now e)
                        (SettlementCompletedEvent.OccurredAtMillis e').
Proof.
  intros (Hid & Ha & Hu & _)%event_ok_forms. unfold payout_payload, row_payload, payout_row,
    normalizeSettlementEvent. cbv zeta. rewrite Hid, Hu. reflexivity.
Qed.

(** The two ways a payout is recorded: the identifier is known and nothing changes, or the
    row, the settled quantity and the journal entry are written together. *)
Lemma mark_body_cases s e d u :
  event_ok (sdb s) e → is_Some (t_positions (sdb s) !! event_key e) →
  mark_body s e (sdb s) = Ok (d, u) →
  let id := SettlementCompletedEvent.EventID e in
  (is_Some (t_payouts (sdb s) !! id) ∧ d = sdb s) ∨
  (t_payouts (sdb s) !! id = None ∧
   ∃ now row q d1,
     t_positions (sdb s) !! event_key e = Some row ∧
     q = PositionRow.settled_quantity row + SettlementCompletedEvent.SettledQuantity e ∧
     d1 = set_t_positions (set_t_payouts (sdb s) (<[id := payout_row now e]> (t_payouts (sdb s))))
            (<[event_key e := PositionRow.mk (PositionRow.position_asset row) (PositionRow.quantity row) q
                                (PositionRow.created_at row) now]> (t_positions (sdb s))) ∧
     append_settlement s d1
       [buildSettlementPayoutEntry (normalizeSettlementEvent (millis s) e (settled_asset e))] = Ok d).
Proof.
  intros Hok [row Hrow] E id. destruct (event_ok_forms _ _ Hok) as (Hid & Ha & Hu & Hk).
  destruct Hok as (_ & Hn & _). revert E. unfold mark_body. rewrite Hid, Hn. fold id.
  destruct (t_payouts (sdb s) !! id) as [r|] eqn:Er; [intros [= <- _]; left; by eexists|].
  case_bool_decide; [done|]. cbv zeta.
  intros (d1 & E1 & (d2 & E2 & [= <- _])%result_bind_Ok)%result_bind_Ok. right. split; [done|].
  revert E1. unfold settle_position. change (t_positions (set_t_payouts (sdb s) ?x)) with (t_positions (sdb s)).
  change (SettlementCompletedEvent.MarketID e, SettlementCompletedEvent.UserID e,
    SettlementCompletedEvent.WinningOutcome e) with (event_key e).
  rewrite Hrow. intros (q & Hq & [= <-])%result_bind_Ok. exists (seconds s), row, q. eexists.
  split_and!; [done| |reflexivity|exact E2]. revert Hq. unfold bigint. case_bool_decide; [|done]. by intros [= <-].
Qed.

(** What recording payouts leaves alone: markets, orders, held quantities, and every payout
    that is already recorded. *)
Record records (d d' : SettleDB) : Prop := {
  re_markets : t_markets d' = t_markets d;
  re_orders : t_orders d' = t_orders d;
  re_payouts : t_payouts d ⊆ t_payouts d';
  re_quantity k : PositionRow.quantity <$> (t_positions d' !! k) = PositionRow.quantity <$> (t_positions d !! k);
}.

#[local] Instance records_preorder : PreOrder records.
Proof.
  split; [by intros d; split|]. intros d1 d2 d3 [? ? ? H1] [? ? ? H2]. split; [congruence..|by etrans|].
  intros k. by rewrite H2.
Qed.

Lemma append_settlement_others s d e d' :
  append_settlement s d [e] = Ok d' → t_positions d' = t_positions d ∧ t_payouts d' = t_payouts d ∧
  t_markets d' = t_markets d ∧ t_orders d' = t_orders d.
Proof. intros (j & rows & -> & _)%append_settlement_rows. done. Qed.

Lemma payout_entry_source d e ms : event_ok d e →
  append_source (buildSettlementPayoutEntry (normalizeSettlementEvent ms e (settled_asset e))) =
  (EntryTypeSettlementPayout, SourceTypeSettlementPayout, SettlementCompletedEvent.EventID e).
Proof.
  intros (Hid & _)%event_ok_forms.
  unfold append_source, buildSettlementPayoutEntry, normalizeSettlementEvent.
  cbn [JournalAppend.EntryType JournalAppend.SourceType JournalAppend.SourceRef SettlementCompletedEvent.EventID].
  by rewrite !Hid.
Qed.

Lemma mark_body_ok s e d u log :
  sql_inv s log → e ∈ log → is_Some (t_positions (sdb s) !! event_key e) →
  mark_body s e (sdb s) = Ok (d, u) →
  let id := SettlementCompletedEvent.EventID e in
  sql_ok d log ∧ (with_rollup s = true → mirrored d) ∧ records (sdb s) d ∧
  (t_payouts (sdb s) !! id = None → ∃ now, t_payouts d !! id = Some (payout_row now e)) ∧
  is_Some (t_payouts d !! id) ∧ (∀ id', id' ≠ id → t_payouts d !! id' = t_payouts (sdb s) !! id').
Proof.
  intros [Hok Hmi] He Hpos E id.
  pose proof (proj1 (Forall_forall _ _) (so_log _ _ Hok) e He) as Hev.
  destruct (event_ok_forms _ _ Hev) as (_ & _ & _ & Hk).
  apply mark_body_cases in E as [([r Hr] & ->)|(Hn & now & row & q & d1 & Hrow & Hq & Hd1 & E)]; [| |done..].
  { split_and!; [exact Hok|exact Hmi|reflexivity|intros H; unfold id in H; congruence|by eexists|done]. }
  destruct (append_settlement_others _ _ _ _ E) as (Ep & Ey & Em & Eo). fold id in Hn, Hd1.
  assert (t_positions d = <[event_key e := PositionRow.mk (PositionRow.position_asset row) (PositionRow.quantity row) q
      (PositionRow.created_at row) now]> (t_positions (sdb s))) as Hp' by (rewrite Ep, Hd1; done).
  assert (t_payouts d = <[id := payout_row now e]> (t_payouts (sdb s))) as Hy' by (rewrite Ey, Hd1; done).
  assert (t_markets d = t_markets (sdb s)) as Hm' by (rewrite Em, Hd1; done).
  assert (t_orders d = t_orders (sdb s)) as Ho' by (rewrite Eo, Hd1; done).
  assert (∀ m o, resolved_to (sdb s) m o ↔ resolved_to d m o) as Hres by (intros; unfold resolved_to; by rewrite Hm').
  split_and!.
  - destruct Hok as [Hl Hpay Hps Hmk]. split.
    + eapply Forall_impl; [exact Hl|]. intros x. apply event_ok_mono, Hres.
    + rewrite Hy', Hp'. intros id' r [[<- <-]|[_ Hr]]%lookup_insert_Some.
      * exists e, now. split_and!; [done..|]. by rewrite lookup_insert_eq.
      * apply Hpay in Hr as (e' & t & ? & ? & ? & ?). exists e', t. split_and!; [done..|].
        apply lookup_insert_is_Some'. by right.
    + rewrite Hp'. intros k row' [[<- <-]|[Hne Hk']]%lookup_insert_Some.
      * split; [by apply Hev|]. unfold recorded. rewrite Hy', <-Hk, lookup_insert_eq. cbn.
        apply Hps in Hrow as [_ Hrow]. unfold recorded in Hrow. rewrite <-Hk in Hrow. fold id in Hrow.
        rewrite Hn in Hrow. lia.
      * destruct (Hps _ _ Hk') as [Hnk ->]. split; [done|]. unfold recorded. rewrite Hy', lookup_insert_ne; [done|].
        unfold id. rewrite Hk. unfold key_id. intros Heq%settlementEventID_inj.
        destruct Heq as (H1 & H2 & H3). apply Hne. destruct Hev as (_ & Hno & _).
        destruct k as [[m1 u1] o1]. unfold event_key in *. cbn [fst snd] in *. congruence.
    + intros m o ?%Hres. by eapply Hmk.
  - intros Hroll. apply append_settlement_one in E as (j & Hd & Hj).
    2:{ intros _. rewrite (payout_entry_source _ _ _ Hev), Hd1.
        exact (payout_source_new _ _ (Hmi Hroll) Hn). }
    destruct (Hj Hroll) as (x & Hx & Hs & Hpl & Hoc).
    eapply (mirrored_paid (sdb s) d id (payout_row now e) x); [done..| | | | |by apply Hmi].
    + rewrite Hd. cbn. rewrite Hx, Hd1. done.
    + unfold payout_journal_row, settlement_source. rewrite Hs. by eapply payout_entry_source.
    + rewrite Hpl, Hoc. unfold buildSettlementPayoutEntry. cbn [JournalAppend.Payload JournalAppend.OccurredAtMillis].
      by rewrite (payout_payload_row _ _ now _ Hev).
    + apply Hev.
  - split; [done..| |].
    + rewrite Hy'. by apply insert_subseteq.
    + intros k. rewrite Hp'. destruct (decide (k = event_key e)) as [->|];
        [by rewrite lookup_insert_eq, Hrow|by rewrite lookup_insert_ne].
  - intros _. exists now. by rewrite Hy', lookup_insert_eq.
  - rewrite Hy', lookup_insert_eq. by eexists.
  - intros id' Hne. by rewrite Hy', lookup_insert_ne.
Qed.

Lemma mark_inv s e s' err log :
  sql_inv s log → e ∈ log → is_Some (t_positions (sdb s) !! event_key e) →
  sql_MarkSettled s e = (s', err) →
  let id := SettlementCompletedEvent.EventID e in
  sql_inv s' log ∧ with_rollup s' = with_rollup s ∧ senv s' = senv s ∧ records (sdb s) (sdb s') ∧
  (∀ id', id' ≠ id → t_payouts (sdb s') !! id' = t_payouts (sdb s) !! id') ∧
  (err = None → is_Some (t_payouts (sdb s') !! id) ∧
     (t_payouts (sdb s) !! id = None → ∃ now, t_payouts (sdb s') !! id = Some (payout_row now e))).
Proof.
  intros Hi He Hpos. unfold sql_MarkSettled. destruct (settle_tx s _) as [s1 r] eqn:E.
  intros [= <- <-].
  apply settle_tx_cases in E as (Hw & Hs & _ & [(d & a & _ & E & Ed & ->)|(e' & Ed & -> & _)]).
  - apply (mark_body_ok _ _ _ _ _ Hi He Hpos) in E as (Hok & Hmi & Hre & Hnew & Hin & Hoth). rewrite <-Ed in *.
    split_and!; [|done..]. split; [done|]. by rewrite Hw.
  - split_and!; [|done|done|by rewrite Ed|by rewrite Ed|done]. destruct Hi as [? ?]. split; rewrite Ed, ?Hw; done.
Qed.

(** ** The positions to pay *)

Lemma mapM_Ok {E A B} (f : A → result E B) l k :
  mapM f l = Ok k ↔ Forall2 (λ x y, f x = Ok y) l k.
Proof.
  revert k. induction l as [|x l IH]; intros k; cbn [mapM].
  { split; [by intros [= <-]|]. by intros ->%Forall2_nil_inv_l. }
  rewrite result_bind_Ok. setoid_rewrite result_bind_Ok. setoid_rewrite IH. split.
  - intros (y & Hy & k' & Hk & [= <-]). by constructor.
  - intros (y & k' & Hy & Hk & ->)%Forall2_cons_inv_l. eauto.
Qed.

Definition owed (d : SettleDB) (m : Z) (o : string) (w : winningPosition.t) : Prop :=
  winningPosition.MarketID w = m ∧ winningPosition.Outcome w = o ∧
  ∃ row, t_positions d !! position_key w = Some row ∧
    PositionRow.settled_quantity row < PositionRow.quantity row ∧
    winningPosition.Quantity w = PositionRow.quantity row - PositionRow.settled_quantity row.

Lemma remaining_inv kr w : remaining_position kr = Ok w →
  position_key w = kr.1 ∧
  winningPosition.Quantity w = PositionRow.quantity kr.2 - PositionRow.settled_quantity kr.2.
Proof.
  destruct kr as [[[m u] o] row]. unfold remaining_position, bigint. cbn [fst snd].
  case_bool_decide; [|done]. by intros [= <-].
Qed.

Lemma select_winning_spec d m o ps : select_winning d m o = Ok ps →
  (∀ w, w ∈ ps ↔ owed d m o w) ∧ NoDup (position_key <$> ps).
Proof.
  unfold select_winning. intros H2%mapM_Ok.
  pose proof (merge_sort_Permutation by_user (unsettled_rows d m o)) as Hperm.
  set (rows := merge_sort by_user (unsettled_rows d m o)) in *.
  assert (∀ kr, kr ∈ rows ↔ kr.1.1.1 = m ∧ kr.1.2 = o ∧
    PositionRow.settled_quantity kr.2 < PositionRow.quantity kr.2 ∧ t_positions d !! kr.1 = Some kr.2) as Hrows.
  { intros [k row]. rewrite Hperm. unfold unsettled_rows. rewrite list_elem_of_filter, elem_of_map_to_list. tauto. }
  assert (position_key <$> ps = fst <$> rows) as Hkeys.
  { clear -H2. induction H2 as [|kr w rows ps Hw _ IH]; [done|]. cbn [fmap list_fmap]. f_equal; [|done].
    by apply remaining_inv. }
  split.
  - intros w. split.
    + intros (i & Hi)%list_elem_of_lookup. destruct (Forall2_lookup_r _ _ _ _ _ H2 Hi) as ([[[m1 u1] o1] row] & Hk & Hw).
      apply list_elem_of_lookup_2, Hrows in Hk as (Hm & Ho & Hlt & Hk).
      apply remaining_inv in Hw as [Hkey Hq]. unfold owed. rewrite Hkey. cbn [fst snd] in *.
      injection Hkey as -> _ ->. split_and!; [done..|]. by exists row.
    + intros (Hm & Ho & row & Hrow & Hlt & Hq).
      assert ((position_key w, row) ∈ rows) as Hin by (apply Hrows; unfold position_key; by split_and!).
      apply list_elem_of_lookup in Hin as (i & Hi). destruct (Forall2_lookup_l _ _ _ _ _ H2 Hi) as (w' & Hi' & Hw').
      apply remaining_inv in Hw' as [Hkey' Hq']. cbn [fst snd] in Hkey', Hq'.
      assert (w' = w) as <-; [|by eapply list_elem_of_lookup_2].
      destruct w as [m1 u1 o1 q1], w' as [m2 u2 o2 q2]. unfold position_key in Hkey'. cbn in *. congruence.
  - rewrite Hkeys, Hperm. eapply sublist_NoDup; [apply (NoDup_fst_map_to_list (t_positions d))|].
    apply fmap_sublist, sublist_filter.
Qed.

(** ** The payout loop *)

Context {P : Type} `{!Publisher P, !PublisherLog P}.
#[local] Instance sqlp : PositionStore SettleStore := sql_positions sha256.

Notation sproc := (Processor SettleStore P).

Definition paid (p : sproc) : list SettlementCompletedEvent.t :=
  omap settlement_in (published (publisher p)).

Definition proc_inv (p : sproc) : Prop := sql_inv (pstore p) (paid p).

(** A publication adds at most the event that is published. *)
Lemma paid_publish (p : sproc) t k e q err :
  PublishJSON (publisher p) t k (PayloadSettlement e) = (q, err) →
  paid (set_publisher p q) = paid p ++ [e] ∨ (is_Some err ∧ paid (set_publisher p q) = paid p).
Proof.
  intros E. unfold paid. cbn [publisher set_publisher]. destruct err as [x|].
  - apply publish_err in E as [->| ->]; [right; split; [by eexists|done]|]. left. by rewrite omap_app.
  - apply publish_ok in E as ->. left. by rewrite omap_app.
Qed.

Lemma paid_publish_order (p : sproc) t k e q err :
  PublishJSON (publisher p) t k (PayloadOrder e) = (q, err) → paid (set_publisher p q) = paid p.
Proof.
  intros E. unfold paid. cbn [publisher set_publisher].
  assert (published q = published (publisher p) ∨
    published q = published (publisher p) ++ [(t, k, PayloadOrder e)]) as [->| ->]; [|done|].
  { destruct err; [by eapply publish_err|right; by eapply publish_ok]. }
  rewrite omap_app. cbn. by rewrite app_nil_r.
Qed.

Lemma sql_inv_log s log e :
  event_ok (sdb s) e → sql_inv s log → sql_inv s (log ++ [e]).
Proof.
  intros He [[Hl Hpay Hpos Hmk] Hm]. split; [|done]. split; [|..|done|done].
  - apply Forall_app. split; [done|]. by constructor.
  - intros id r (e' & t & ? & ?)%Hpay. exists e', t. rewrite elem_of_app. split; [by left|done].
Qed.

(** A position the loop may pay. *)
Definition payable (d : SettleDB) (m : Z) (o : string) (w : winningPosition.t) : Prop :=
  winningPosition.MarketID w = m ∧ winningPosition.Outcome w = o ∧
  is_Some (t_positions d !! position_key w).

Lemma payable_records d d' m o w : records d d' → payable d m o w → payable d' m o w.
Proof.
  intros [_ _ _ Hq] (Hm & Ho & [row Hr]). split_and!; [done..|]. specialize (Hq (position_key w)).
  rewrite Hr in Hq. destruct (t_positions d' !! position_key w); [by eexists|done].
Qed.

Lemma pays_event_ok d m o w e :
  normalize_upper o = o → resolved_to d m o → payable d m o w → pays w e →
  event_ok d e ∧ event_key e = position_key w.
Proof.
  intros Hn Hr (Hm & Ho & _) (Hok & Hk & _)%pays_ok. split; [|done]. unfold event_key, position_key in Hk.
  injection Hk as H1 H2 H3. split_and!; [done| |]; by rewrite ?H1, H3, ?Hm, Ho.
Qed.

Definition same_config (p p' : sproc) : Prop :=
  with_rollup (pstore p') = with_rollup (pstore p) ∧ senv (pstore p') = senv (pstore p).

Lemma loop_inv clock i ps (p p' : sproc) err m o :
  normalize_upper o = o → resolved_to (sdb (pstore p)) m o →
  Forall (payable (sdb (pstore p)) m o) ps → proc_inv p →
  settle_loop clock i ps p = (p', err) →
  proc_inv p' ∧ same_config p p' ∧ records (sdb (pstore p)) (sdb (pstore p')) ∧
  ∃ evs, paid p' = paid p ++ evs ∧ Forall (λ e, ∃ w, w ∈ ps ∧ pays w e) evs ∧
    (err = None → Forall2 pays ps evs ∧
       (NoDup (position_key <$> ps) → Forall (λ w, ∃ r, t_payouts (sdb (pstore p')) !! key_id (position_key w) = Some r ∧
         (t_payouts (sdb (pstore p)) !! key_id (position_key w) = None →
          PayoutRow.settled_quantity r = winningPosition.Quantity w)) ps)).
Proof.
  intros Hn. revert i p. induction ps as [|w ps IH]; intros i p Hr Hps Hi; cbn [settle_loop].
  { intros [= <- <-]. split_and!; [done..|]. exists []. rewrite app_nil_r. by split_and!. }
  apply Forall_cons in Hps as [Hw Hps].
  destruct (WinningPayoutAmount (winningPosition.Quantity w)) as [amount|e] eqn:Er.
  2:{ intros [= <- <-]. split_and!; [done..|]. exists []. rewrite app_nil_r. by split_and!. }
  set (ev := settlement_of (clock i) w amount).
  assert (pays w ev) as Hpay by (by exists (clock i), amount).
  destruct (pays_event_ok _ _ _ _ _ Hn Hr Hw Hpay) as [Hev Hk].
  destruct (PublishJSON (publisher p) TopicSettlementDone _ (PayloadSettlement ev)) as [q pe] eqn:Ep.
  assert (proc_inv (set_publisher p q) ∧
    (paid (set_publisher p q) = paid p ++ [ev] ∨ (is_Some pe ∧ paid (set_publisher p q) = paid p))) as [Hi1 Hlog].
  { pose proof (paid_publish _ _ _ _ _ _ Ep) as Hl. split; [|done]. unfold proc_inv.
    destruct Hl as [->|[_ ->]]; [|exact Hi]. by apply sql_inv_log. }
  destruct pe as [x|].
  { intros [= <- <-]. split_and!; [done..|].
    destruct Hlog as [Hl|[_ Hl]]; [exists [ev]|exists []; rewrite app_nil_r]; split_and!; try done.
    constructor; [|done]. exists w. split; [by left|done]. }
  destruct Hlog as [Hl|[[? ?] _]]; [|done].
  destruct (MarkSettled (pstore (set_publisher p q)) ev) as [s1 me] eqn:Em.
  apply (mark_inv _ _ _ _ (paid (set_publisher p q))) in Em as (Hi2 & Hw2 & He2 & Hre & Hoth & Hrec);
    [|exact Hi1|rewrite Hl; apply elem_of_app; right; by left|rewrite Hk; apply Hw].
  cbn [pstore set_publisher] in Hre, Hrec, Hoth, Hw2, He2.
  destruct me as [x|].
  { intros [= <- <-]. split_and!; [done..|]. exists [ev]. split_and!; [done| |done].
    constructor; [|done]. exists w. split; [by left|done]. }
  intros E. apply IH in E as (Hi3 & (Hw3 & He3) & Hre3 & evs & Hl3 & Hf3 & Hall).
  2:{ unfold resolved_to in *. cbn [pstore set_pstore]. by rewrite (re_markets _ _ Hre). }
  2:{ eapply Forall_impl; [exact Hps|]. intros w'. by apply payable_records. }
  2:{ exact Hi2. }
  cbn [pstore set_pstore] in *. split_and!; [done|split; congruence|by etrans|].
  exists (ev :: evs). split_and!.
  - rewrite Hl3. change (paid (set_pstore (set_publisher p q) s1)) with (paid (set_publisher p q)).
    by rewrite Hl, <-app_assoc.
  - constructor; [exists w; split; [by left|done]|]. eapply Forall_impl; [exact Hf3|].
    intros e (w' & ? & ?). exists w'. split; [by right|done].
  - intros Herr. destruct (Hall Herr) as [H2 H3]. split; [by constructor|].
    intros [Hnw Hnd]%NoDup_cons. destruct (Hrec eq_refl) as [[r Hin] Hnew].
    assert (SettlementCompletedEvent.EventID ev = key_id (position_key w)) as Hid.
    { rewrite <-Hk. by apply (event_ok_forms _ _ Hev). }
    rewrite Hid in *. constructor.
    + exists r. split; [by eapply lookup_weaken; [|apply Hre3]|]. intros Hnone.
      destruct (Hnew Hnone) as [now Hr']. rewrite Hin in Hr'. injection Hr' as ->. done.
    + specialize (H3 Hnd). apply Forall_forall. intros w' Hw'.
      destruct (proj1 (Forall_forall _ _) H3 w' Hw') as (r' & Hr' & Hq'). exists r'. split; [done|].
      intros Hnone. apply Hq'. rewrite Hoth; [done|]. intros Heq%settlementEventID_inj.
      apply Hnw. apply list_elem_of_fmap. exists w'. split; [|done].
      destruct (proj1 (Forall_forall _ _) Hps w' Hw') as (Hm' & Ho' & _). destruct Hw as (Hm1 & Ho1 & _).
      unfold position_key in *. cbn [fst snd] in Heq. destruct Heq as (_ & -> & _). congruence.
Qed.

Lemma settle_inv clock m o (p p' : sproc) err :
  normalize_upper o = o → resolved_to (sdb (pstore p)) m o → proc_inv p →
  settleWinningPositions clock m o p = (p', err) →
  proc_inv p' ∧ same_config p p' ∧ records (sdb (pstore p)) (sdb (pstore p')) ∧
  ∃ evs, paid p' = paid p ++ evs ∧ Forall (λ e, ∃ w, owed (sdb (pstore p)) m o w ∧ pays w e) evs ∧
    (err = None →
      (∀ w, owed (sdb (pstore p)) m o w →
         (∃ e, e ∈ evs ∧ pays w e) ∧
         ∃ r, t_payouts (sdb (pstore p')) !! key_id (position_key w) = Some r ∧
           (t_payouts (sdb (pstore p)) !! key_id (position_key w) = None →
            PayoutRow.settled_quantity r = winningPosition.Quantity w))).
Proof.
  intros Hn Hr Hi. unfold settleWinningPositions.
  destruct (WinningPositions (pstore p) m o) as [s1 r] eqn:E1.
  apply winning_quiet in E1 as (Hq & Ed & Hsel). pose proof Hq as (Hw & He & _).
  assert (proc_inv (set_pstore p s1)) as Hi1 by exact (quiet_inv _ _ _ Hq Hi).
  destruct r as [ps|e].
  2:{ intros [= <- <-]. split_and!; [done..|cbn; by rewrite Ed|]. exists []. by rewrite app_nil_r. }
  specialize (Hsel ps eq_refl). apply select_winning_spec in Hsel as [Hps Hnd].
  intros E. apply (loop_inv _ _ _ _ _ _ m o Hn) in E as (Hi2 & (Hw2 & He2) & Hre & evs & Hl & Hf & Hall).
  2:{ cbn [pstore set_pstore]. by rewrite Ed. }
  2:{ cbn [pstore set_pstore]. rewrite Ed. apply Forall_forall. intros w (Hm & Ho & row & Hrow & _)%Hps.
      split_and!; [done..|by eexists]. }
  2:{ exact Hi1. }
  cbn [pstore set_pstore] in *. rewrite Ed in Hre, Hall. split_and!; [done|split; congruence|done|].
  exists evs. split_and!; [exact Hl| |].
  - eapply Forall_impl; [exact Hf|]. intros e (w & Hw'%Hps & ?). by exists w.
  - intros Herr. destruct (Hall Herr) as [H2 H3]. specialize (H3 Hnd). intros w Hw'%Hps. split.
    + apply list_elem_of_lookup in Hw' as (i & Hi'). destruct (Forall2_lookup_l _ _ _ _ _ H2 Hi') as (e & ? & ?).
      exists e. split; [by eapply list_elem_of_lookup_2|done].
    + exact (proj1 (Forall_forall _ _) H3 w Hw').
Qed.

(** ** Reachable states *)

Inductive sql_step : sproc → sproc → Prop :=
| sql_position msg p : sql_step p (HandlePositionChanged msg p).1
| sql_market fresh clock msg p : sql_step p (HandleMarketEvent fresh clock msg p).1
| sql_others d p : others (sdb (pstore p)) d →
    sql_step p (set_pstore p (mkSettleStore d (with_rollup (pstore p)) (senv (pstore p)) (tx_count (pstore p)))).

(** The service starts on tables without positions, payouts and resolutions. *)
Definition fresh_db (d : SettleDB) : Prop :=
  t_positions d = ∅ ∧ t_payouts d = ∅ ∧ (∀ m o, ¬ resolved_to d m o) ∧
  Forall foreign (entries (t_journal d)).

Inductive sql_reach : sproc → Prop :=
| sql_reach_new s q : fresh_db (sdb s) → published q = [] → sql_reach (NewProcessor s q)
| sql_reach_step p p' : sql_reach p → sql_step p p' → sql_reach p'.

Lemma fresh_inv s : fresh_db (sdb s) → sql_inv s [].
Proof.
  intros (Hp & Hy & Hr & Hj). split.
  - split; [constructor|..].
    + rewrite Hy. intros id r. by rewrite lookup_empty.
    + rewrite Hp. intros k row. by rewrite lookup_empty.
    + intros m o Ho. by destruct (Hr m o).
  - intros _. rewrite Forall_forall in Hj. split.
    + intros m (o & Ho). by destruct (Hr m o).
    + rewrite Hy. intros id r. by rewrite lookup_empty.
    + intros x Hx Hs. destruct (Hj x Hx). rewrite Hs. set_solver.
    + intros x Hx Hs. destruct (Hj x Hx). rewrite Hs. set_solver.
Qed.

Lemma frozen_cases (p : sproc) k p' err :
  unless_frozen p k = (p', err) →
  ∃ s, quiet (pstore p) s ∧ sdb s = sdb (pstore p) ∧
    ((p' = set_pstore p s ∧ (err = None → t_freeze (sdb (pstore p)) = Some true)) ∨
     k (set_pstore p s) = (p', err)).
Proof.
  unfold unless_frozen. destruct (RollupFrozen (pstore p)) as [s r] eqn:E. apply frozen_quiet in E as Hq.
  apply settle_tx_cases in E as (_ & _ & _ & Hc).
  assert (sdb s = sdb (pstore p) ∧ (r = Ok true → t_freeze (sdb (pstore p)) = Some true)) as [Ed Hf].
  { destruct Hc as [(d & a & _ & [= <- <-] & -> & ->)|(e & -> & -> & _)]; [|done]. split; [done|].
    destruct (t_freeze _) as [[]|]; [done|by intros [=]..]. }
  destruct r as [[]|e]; intros H; exists s; (split_and!; [done..|]).
  - injection H as <- <-. left. split; [done|]. by intros _; apply Hf.
  - by right.
  - injection H as <- <-. by left.
Qed.

Lemma position_inv msg (p p' : sproc) err :
  HandlePositionChanged msg p = (p', err) → proc_inv p → proc_inv p'.
Proof.
  intros (s & Hq & _ & H)%frozen_cases Hi. apply (quiet_inv _ _ _ Hq) in Hi.
  destruct H as [[-> _]|H]; [exact Hi|]. destruct msg as [ev|]; [|by injection H as <- _].
  destruct (ApplyDelta _ _ _ _ _ _) as [s1 e1] eqn:E. injection H as <- _.
  eapply apply_delta_inv in E; [exact E|apply normalize_upper_idem|exact Hi].
Qed.

Lemma publish_cancelled_inv fresh clock trace i os (p p' : sproc) err :
  publish_cancelled fresh clock trace i os p = (p', err) → pstore p' = pstore p ∧ paid p' = paid p.
Proof.
  revert i p. induction os as [|o os IH]; intros i p; cbn [publish_cancelled]; [by intros [= <- _]|].
  destruct (PublishJSON _ _ _ _) as [q pe] eqn:E. apply paid_publish_order in E as Hl.
  destruct pe; [by intros [= <- _]|]. intros (Hs & Hp)%IH. by rewrite Hs, Hp.
Qed.

Lemma resolve_orders s input s' r :
  sql_ResolveMarket sha256 s input = (s', r) → t_orders (sdb s') = t_orders (sdb s) ∧
  (r = Ok false → ∃ o, resolved_to (sdb s) (ResolveMarketInput.MarketID input) o).
Proof.
  unfold sql_ResolveMarket. destruct (settle_ensureMarket s _) as [s1 r1] eqn:E1.
  apply ensure_quiet in E1 as Hq. pose proof (λ m o, quiet_resolved _ _ m o Hq) as Hr.
  assert (t_orders (sdb s1) = t_orders (sdb s)) as Ho1.
  { apply settle_tx_cases in E1 as (_ & _ & _ & [(d & a & _ & [= <- _] & -> & _)|(e & -> & _)]); [|done].
    unfold insert_market. by case_match. }
  destruct r1 as [[]|e]; [|by intros [= <- <-]].
  intros (_ & _ & _ & [(d & a & _ & E & -> & ->)|(e & -> & -> & _)])%settle_tx_cases; [|done].
  rewrite <-Ho1. setoid_rewrite Hr. revert E. unfold resolve_body. destruct (t_markets (sdb s1) !! _) as [row|] eqn:Em; [|done].
  destruct (String.eqb_spec (SettleMarketRow.status row) "RESOLVED") as [Hst|Hst].
  - unfold resolve_again. case_match; [|done]. intros [= <- <-]. split; [done|]. intros _. eexists. by exists row.
  - intros (d1 & (j & rows & -> & _)%append_settlement_rows & [= <- <-])%result_bind_Ok. done.
Qed.

(** The order event of an order the resolution cancelled. *)
Definition cancel_published (p : sproc) (id : string) (row : OrderRow.t) : Prop :=
  ∃ k e, (TopicOrderEvent, k, PayloadOrder e) ∈ published (publisher p) ∧
    OrderEvent.OrderID e = id ∧ OrderEvent.FreezeID e = OrderRow.freeze_id row ∧
    OrderEvent.Status e = "CANCELLED" ∧ OrderEvent.RemainingQuantity e = OrderRow.remaining_quantity row.

Lemma publish_grows (p : sproc) t k v q err x :
  PublishJSON (publisher p) t k v = (q, err) → x ∈ published (publisher p) → x ∈ published q.
Proof.
  intros E Hx. destruct err; [apply publish_err in E as [->| ->]|apply publish_ok in E as ->];
    rewrite ?elem_of_app; auto.
Qed.

Lemma publish_cancelled_all fresh clock trace i os (p p' : sproc) :
  publish_cancelled fresh clock trace i os p = (p', None) →
  (∀ x, x ∈ published (publisher p) → x ∈ published (publisher p')) ∧
  Forall (λ o, ∃ k now f, (TopicOrderEvent, k, PayloadOrder (cancel_event f now trace o)) ∈
    published (publisher p')) os.
Proof.
  revert i p. induction os as [|o os IH]; intros i p; cbn [publish_cancelled]; [by intros [= <-]|].
  destruct (PublishJSON _ _ _ _) as [q pe] eqn:E. destruct pe; [done|]. intros (Hg & Hall)%IH.
  cbn [publisher set_publisher] in *. split.
  - intros x Hx. apply Hg. by eapply publish_grows.
  - constructor; [|done]. eexists _, _, _. apply Hg. apply publish_ok in E as ->. apply elem_of_app. right. by left.
Qed.

Lemma loop_publishes clock i ps (p p' : sproc) err x :
  settle_loop clock i ps p = (p', err) → x ∈ published (publisher p) → x ∈ published (publisher p').
Proof.
  revert i p. induction ps as [|w ps IH]; intros i p; cbn [settle_loop]; [by intros [= <- _]|].
  destruct (WinningPayoutAmount _); [|by intros [= <- _]].
  destruct (PublishJSON _ _ _ _) as [q pe] eqn:E. pose proof (publish_grows _ _ _ _ _ _ x E) as Hg.
  destruct pe; [by intros [= <- _]|]. destruct (MarkSettled _ _) as [s1 [e|]]; [by intros [= <- _]|].
  intros H Hx. eapply IH; [exact H|]. by apply Hg.
Qed.

Lemma cancel_spec s m reason s' os :
  sql_CancelActiveOrders s m reason = (s', Ok os) →
  ∀ id row, t_orders (sdb s) !! id = Some row → is_active m row = true →
    ∃ now, t_orders (sdb s') !! id = Some (cancel_row now (normalize_upper reason) row) ∧
      returned id (cancel_row now (normalize_upper reason) row) ∈ os.
Proof.
  intros (_ & _ & _ & [(d & a & _ & E & -> & [= ->])|(e & _ & [=] & _)])%settle_tx_cases id row Hrow Ha.
  unfold cancel_body, cancel_orders in E. apply result_bind_Ok in E as (d1 & E & [= <- <-]).
  apply append_settlement_rows in E as (j & rows & -> & _). exists (seconds s). split.
  - cbn [t_orders set_t_journal set_t_orders]. rewrite lookup_fmap, Hrow. cbn. by rewrite Ha.
  - apply list_elem_of_fmap. exists (id, row). split; [done|]. apply list_elem_of_filter. split; [done|].
    by apply elem_of_map_to_list.
Qed.

Record before_settling (p p2 : sproc) : Prop := {
  bs_inv : proc_inv p2;
  bs_paid : paid p2 = paid p;
  bs_resolved m o : resolved_to (sdb (pstore p)) m o → resolved_to (sdb (pstore p2)) m o;
  bs_positions : t_positions (sdb (pstore p2)) = t_positions (sdb (pstore p));
  bs_payouts : t_payouts (sdb (pstore p2)) = t_payouts (sdb (pstore p));
}.

Definition orders_cancelled (p p2 : sproc) (m : Z) : Prop :=
  (∀ o, ¬ resolved_to (sdb (pstore p)) m o) →
  ∀ id row, t_orders (sdb (pstore p)) !! id = Some row → is_active m row = true →
    (∃ now, t_orders (sdb (pstore p2)) !! id = Some (cancel_row now "MARKET_RESOLVED" row)) ∧
    cancel_published p2 id row.

Lemma quiet_before (p : sproc) s : quiet (pstore p) s → proc_inv p → before_settling p (set_pstore p s).
Proof.
  intros Hq Hi. split; cbn [pstore set_pstore].
  - exact (quiet_inv _ _ _ Hq Hi).
  - done.
  - intros m o. apply (quiet_resolved _ _ m o Hq).
  - apply Hq.
  - apply Hq.
Qed.

Lemma before_trans p p2 p3 : before_settling p p2 → before_settling p2 p3 → before_settling p p3.
Proof. intros [] []. split; [done|congruence|eauto|congruence|congruence]. Qed.

(** The event changed the outcome of no position, or the payout loop ran. *)
Lemma resolution_cases fresh clock event (p p' : sproc) err :
  let m := MarketEvent.MarketID event in
  let o := normalize_upper (MarketEvent.ResolvedOutcome event) in
  normalize_upper (MarketEvent.Status event) = "RESOLVED" → o ≠ "" →
  HandleMarketEvent fresh clock (Some event) p = (p', err) → proc_inv p →
  (before_settling p p' ∧ (err = None → t_freeze (sdb (pstore p)) = Some true)) ∨
  ∃ p2, before_settling p p2 ∧ resolved_to (sdb (pstore p2)) m o ∧ orders_cancelled p p2 m ∧
    settleWinningPositions clock m o p2 = (p', err).
Proof.
  intros m o Hst Ho (s & Hq & Ed & H)%frozen_cases Hi. pose proof (quiet_before _ _ Hq Hi) as Hb.
  destruct H as [[-> Hf]|H]; [by left|]. rewrite Hst in H. fold o m in H.
  cbn [negb String.eqb Ascii.eqb Bool.eqb] in H. rewrite (proj2 (String.eqb_neq o "") Ho) in H.
  destruct (ResolveMarket (pstore (set_pstore p s)) _) as [s1 r1] eqn:E1.
  apply resolve_orders in E1 as Ho1. destruct Ho1 as [Ho1 Hold].
  apply (resolve_inv _ _ _ _ (paid p)) in E1 as (Hi1 & _ & _ & Hmono & Hp1 & Hy1 & Hres);
    [|apply normalize_upper_idem|apply Hb].
  cbn [ResolveMarketInput.MarketID ResolveMarketInput.ResolvedOutcome pstore set_pstore] in *.
  assert (before_settling p (set_pstore p s1)) as Hb1.
  { eapply before_trans; [exact Hb|]. split; done. }
  change (set_pstore (set_pstore p s) s1) with (set_pstore p s1) in H.
  destruct r1 as [[]|e]; cbn beta iota zeta in H; [| |injection H as <- <-; by left].
  2:{ right. exists (set_pstore p s1). split_and!; [done|by apply Hres| |done].
      intros Hnew. destruct (Hold eq_refl) as [o' Ho']. destruct (Hnew o'). by rewrite <-Ed. }
  destruct (CancelActiveOrders _ m _) as [s2 r2] eqn:E2. cbn [pstore set_pstore] in E2.
  apply cancel_quiet in E2 as Hq2. pose proof (quiet_before (set_pstore p s1) s2 Hq2 (bs_inv _ _ Hb1)) as Hb2.
  change (set_pstore (set_pstore p s1) s2) with (set_pstore p s2) in *.
  pose proof (before_trans _ _ _ Hb1 Hb2) as Hb12.
  destruct r2 as [os|e]; cbn beta iota zeta in H; [|injection H as <- <-; by left].
  destruct (publish_cancelled fresh clock _ 0 os (set_pstore p s2)) as [p3 e3] eqn:E3.
  apply publish_cancelled_inv in E3 as Hs3. destruct Hs3 as [Hs3 Hp3].
  assert (before_settling p p3) as Hb3.
  { eapply before_trans; [exact Hb12|]. split; rewrite ?Hs3; try done. unfold proc_inv. rewrite Hs3, Hp3. apply Hb12. }
  destruct e3 as [e|]; [injection H as <- <-; by left|].
  right. exists p3. split_and!; [done| |..|done].
  { rewrite Hs3. apply (bs_resolved _ _ Hb2). by apply Hres. }
  intros _ id row Hrow Ha. rewrite <-Ed, <-Ho1 in Hrow.
  destruct (cancel_spec _ _ _ _ _ E2 id row Hrow Ha) as (now & Hnow & Hin).
  apply publish_cancelled_all in E3 as [_ Hall].
  destruct (proj1 (Forall_forall _ _) Hall _ Hin) as (k & t & f & Hk). split; [exists now; by rewrite Hs3|].
  eexists k, _. split_and!; [exact Hk|reflexivity..].
Qed.

Lemma market_inv fresh clock msg (p p' : sproc) err :
  HandleMarketEvent fresh clock msg p = (p', err) → proc_inv p →
  proc_inv p' ∧ ∀ m o, resolved_to (sdb (pstore p)) m o → resolved_to (sdb (pstore p')) m o.
Proof.
  intros H Hi. destruct msg as [event|].
  2:{ apply frozen_cases in H as (s & Hq & _ & H). pose proof (quiet_before _ _ Hq Hi) as Hb.
      destruct H as [[-> _]|[= <- _]]; split; apply Hb. }
  destruct (decide (normalize_upper (MarketEvent.Status event) = "RESOLVED")) as [Hst|Hst];
    [destruct (decide (normalize_upper (MarketEvent.ResolvedOutcome event) = "")) as [Ho|Ho]|].
  - apply frozen_cases in H as (s & Hq & _ & H). pose proof (quiet_before _ _ Hq Hi) as Hb.
    destruct H as [[-> _]|H]; [split; apply Hb|]. rewrite Hst, Ho in H. cbn in H. injection H as <- _. split; apply Hb.
  - apply resolution_cases in H as [[Hb _]|(p2 & Hb & Hr & _ & H)]; [split; apply Hb| |done..].
    apply settle_inv in H as (Hi' & _ & Hre & _); [|apply normalize_upper_idem|done|apply Hb].
    split; [done|]. intros m o Hm%(bs_resolved _ _ Hb). unfold resolved_to. by rewrite (re_markets _ _ Hre).
  - apply frozen_cases in H as (s & Hq & _ & H). pose proof (quiet_before _ _ Hq Hi) as Hb.
    destruct H as [[-> _]|H]; [split; apply Hb|].
    rewrite (proj2 (String.eqb_neq _ _) Hst) in H. injection H as <- _. split; apply Hb.
Qed.

Lemma sql_reach_inv p : sql_reach p → proc_inv p.
Proof.
  induction 1 as [s q Hf Hq|p p' _ IH Hs].
  - unfold proc_inv, paid. cbn [publisher NewProcessor pstore]. rewrite Hq. by apply fresh_inv.
  - destruct Hs as [msg p|fresh clock msg p|d p Ho].
    + destruct (HandlePositionChanged msg p) as [p' err] eqn:E. by apply position_inv in E.
    + destruct (HandleMarketEvent fresh clock msg p) as [p' err] eqn:E. by apply market_inv in E as [? _].
    + by apply sql_inv_others.
Qed.

(** ** Success when nothing outside fails *)

(** No transaction is cut off, and the identifiers drawn from now on are new. *)
Record healthy (s : SettleStore) : Prop := {
  he_fail n : tx_fail (senv s) n = None;
  he_inj n i n' i' : tx_fresh (senv s) n i = tx_fresh (senv s) n' i' → n = n' ∧ i = i';
  he_fresh n i : (tx_count s ≤ n)%nat → tx_fresh (senv s) n i ∉ entry_ids (t_journal (sdb s));
}.

Definition next_store (s : SettleStore) (d : SettleDB) : SettleStore :=
  mkSettleStore d (with_rollup s) (senv s) (S (tx_count s)).

Lemma settle_tx_ok {A} s (body : SettleDB → result SettlementError (SettleDB * A)) d a :
  healthy s → body (sdb s) = Ok (d, a) → settle_tx s body = (next_store s d, Ok a).
Proof. intros Hh E. unfold settle_tx. by rewrite (he_fail _ Hh), E. Qed.

(** The identifiers a transaction may add are its own. *)
Definition ids_ok (s : SettleStore) (d : SettleDB) : Prop :=
  ∀ id, id ∈ entry_ids (t_journal d) →
    id ∈ entry_ids (t_journal (sdb s)) ∨ ∃ i, id = tx_fresh (senv s) (tx_count s) i.

Lemma healthy_next s d : healthy s → ids_ok s d → healthy (next_store s d).
Proof.
  intros [Hf Hi Hn] Hd. split; cbn [next_store senv tx_count sdb]; [done|done|].
  intros n i Hle [Hin|(k & Hk)]%Hd; [by apply (Hn n i); [lia|]|]. apply Hi in Hk as [-> _]. lia.
Qed.

Lemma append_total s d es :
  healthy s → t_journal d = t_journal (sdb s) →
  Forall (λ e, JournalAppend.EntryID e = "" ∧ missing_field e = false) es →
  ∃ d', append_settlement s d es = Ok d' ∧ ids_ok s d'.
Proof.
  intros Hh Hj Hes. unfold append_settlement. destruct (with_rollup s).
  2:{ exists d. split; [done|]. intros id Hid. left. by rewrite <-Hj. }
  destruct (insert_rows_total (tx_fresh (senv s) (tx_count s)) (t_journal (sdb s)) es) as (j & Ej & Hids).
  - intros a b Hab. by apply (he_inj _ Hh) in Hab as [_ ?].
  - intros i. by apply (he_fresh _ Hh).
  - eapply Forall_impl; [exact Hes|]. by intros e [? _].
  - rewrite Hj. assert (AppendEntriesTx (tx_fresh (senv s) (tx_count s)) (t_journal (sdb s)) es = Ok j) as ->.
    { apply AppendEntriesTx_rows. split; [|done]. clear -Hes. induction Hes as [|e es [_ He] _ IH]; [done|].
      cbn [existsb]. by rewrite He, IH. }
    eexists. split; [done|]. exact Hids.
Qed.

Lemma frozen_ok s : healthy s →
  sql_RollupFrozen s = (next_store s (sdb s), Ok (default false (t_freeze (sdb s)))) ∧
  healthy (next_store s (sdb s)).
Proof. intros Hh. split; [by apply settle_tx_ok|]. apply healthy_next; [done|]. intros id. by left. Qed.

Lemma ensure_ok s m : healthy s →
  ∃ s', settle_ensureMarket s m = (s', Ok ()) ∧ healthy s' ∧ is_Some (t_markets (sdb s') !! m).
Proof.
  intros Hh. eexists. split; [by apply settle_tx_ok|]. split.
  - apply healthy_next; [done|]. intros id Hid. left. revert Hid. unfold insert_market. by case_match.
  - cbn [sdb next_store]. unfold insert_market. destruct (t_markets (sdb s) !! m) eqn:E; [by rewrite E|].
    cbn. by rewrite lookup_insert_eq.
Qed.

Lemma trim_nonempty s : s ≠ "" → TrimSpace s = s → String.eqb (TrimSpace s) "" = false.
Proof. intros H ->. by apply String.eqb_neq. Qed.

Lemma resolve_total s m o at_ : healthy s →
  (∀ o', resolved_to (sdb s) m o' → o' = o) →
  ∃ s' b, sql_ResolveMarket sha256 s (ResolveMarketInput.mk m o at_) = (s', Ok b) ∧ healthy s'.
Proof.
  intros Hh Hold. unfold sql_ResolveMarket. cbn [ResolveMarketInput.MarketID].
  destruct (ensure_ok s m Hh) as (s1 & E1 & Hh1 & [row Hrow]). rewrite E1.
  apply ensure_quiet in E1 as Hq. pose proof (λ o, proj2 (quiet_resolved _ _ m o Hq)) as Hr.
  assert (∃ d b, resolve_body sha256 s1 (ResolveMarketInput.mk m o at_) (sdb s1) = Ok (d, b) ∧ ids_ok s1 d)
    as (d & b & E & Hids).
  { unfold resolve_body. cbn [ResolveMarketInput.MarketID ResolveMarketInput.ResolvedOutcome]. rewrite Hrow.
    destruct (String.eqb_spec (SettleMarketRow.status row) "RESOLVED") as [Hst|Hst].
    - unfold resolve_again. cbn [ResolveMarketInput.MarketID ResolveMarketInput.ResolvedOutcome].
      rewrite Hst, (Hold (SettleMarketRow.resolved_outcome row)), !String.eqb_refl by (apply Hr; by exists row).
      exists (sdb s1), false. split; [reflexivity|]. intros id. by left.
    - destruct (append_total s1 (write_resolution (seconds s1) (sdb s1) m o row
        (finalizeResolutionRecord (loadResolutionRecordTx (sdb s1) m) o))
        [buildMarketResolvedEntry sha256 (normalizeResolveMarketInput (millis s1) (ResolveMarketInput.mk m o at_))
           (finalizeResolutionRecord (loadResolutionRecordTx (sdb s1) m) o)]) as (d & E & Hids); [done|done| |].
      + repeat constructor. unfold missing_field.
        cbn [buildMarketResolvedEntry JournalAppend.EntryType JournalAppend.SourceType JournalAppend.SourceRef
          normalizeResolveMarketInput ResolveMarketInput.MarketID].
        rewrite (trim_nonempty (itoa m)); [done|apply itoa_tight|apply trim_itoa].
      + exists d, true. rewrite E. done. }
  exists (next_store s1 d), b. split; [by apply settle_tx_ok|by apply healthy_next].
Qed.

Lemma cancel_total s m reason : healthy s →
  (∀ id row, t_orders (sdb s) !! id = Some row → TrimSpace id ≠ "") →
  ∃ s' os, sql_CancelActiveOrders s m reason = (s', Ok os) ∧ healthy s'.
Proof.
  intros Hh Hids.
  assert (∃ d os, cancel_body s m reason (sdb s) = Ok (d, os) ∧ ids_ok s d) as (d & os & E & Hd).
  { unfold cancel_body, cancel_orders. set (os := (λ r, returned _ _) <$> active_rows _ _).
    edestruct (append_total s) as (d & E & Hd); [done| | |rewrite E; exists d, os; by split]; [done|].
    apply Forall_fmap, Forall_forall. intros o ([id row] & -> & Hin)%list_elem_of_fmap.
    apply list_elem_of_filter in Hin as [_ Hin%elem_of_map_to_list]. split; [done|]. unfold missing_field.
    cbn [compose cancellation_entry JournalAppend.EntryType JournalAppend.SourceType JournalAppend.SourceRef
      returned cancelledOrder.OrderID fst snd].
    rewrite (proj2 (String.eqb_neq (TrimSpace id) "") (Hids _ _ Hin)). done. }
  exists (next_store s d), os. split; [by apply settle_tx_ok|by apply healthy_next].
Qed.

Lemma recorded_nonneg d log k : sql_ok d log → 0 ≤ recorded d k.
Proof.
  intros Hok. unfold recorded. destruct (t_payouts d !! key_id k) as [r|] eqn:E; [|done].
  apply (so_payouts _ _ Hok) in E as (e & t & He & _ & -> & _).
  pose proof (proj1 (Forall_forall _ _) (so_log _ _ Hok) e He) as ((Hq & _) & _). cbn. lia.
Qed.

Lemma mark_total s e log : healthy s → sql_inv s log → event_ok (sdb s) e →
  is_Some (t_positions (sdb s) !! event_key e) →
  ∃ s', sql_MarkSettled s e = (s', None) ∧ healthy s'.
Proof.
  intros Hh [Hok _] Hev [row Hrow].
  assert (∃ d, mark_body s e (sdb s) = Ok (d, ()) ∧ ids_ok s d) as (d & E & Hd).
  { destruct (event_ok_forms _ _ Hev) as (Hid & _ & _ & Hk). pose proof Hev as (Hpo & Hn & (mrow & Hm & _)).
    unfold mark_body. rewrite Hid, Hn.
    destruct (t_payouts (sdb s) !! SettlementCompletedEvent.EventID e) as [r|] eqn:Er.
    { eexists. split; [done|]. intros id. by left. }
    rewrite bool_decide_false by congruence. cbv zeta. unfold settle_position.
    change (t_positions (set_t_payouts (sdb s) ?x)) with (t_positions (sdb s)).
    change (SettlementCompletedEvent.MarketID e, SettlementCompletedEvent.UserID e,
      SettlementCompletedEvent.WinningOutcome e) with (event_key e).
    rewrite Hrow. apply (so_positions _ _ Hok) in Hrow as [_ Hs]. unfold recorded in Hs. rewrite <-Hk, Er in Hs.
    rewrite Hs. unfold bigint. rewrite bool_decide_true.
    2:{ destruct Hpo as (? & ? & ? & _). unfold int64, MinInt64, MaxInt64, DefaultWinningSharePayout in *. lia. }
    cbn [mbind result_bind].
    edestruct (append_total s) as (d & E & Hd); [done| | |rewrite E; exists d; by split]; [done|].
    repeat constructor. unfold missing_field.
    pose proof (f_equal snd (payout_entry_source _ _ (millis s) Hev)) as Hsrc.
    unfold append_source in Hsrc. cbn [snd] in Hsrc. rewrite Hsrc. destruct Hpo as (_ & _ & _ & _ & _ & ->). done. }
  exists (next_store s d). split; [|by apply healthy_next]. unfold sql_MarkSettled. by rewrite (settle_tx_ok s _ d ()).
Qed.

Definition accepts : Prop := ∀ (q : P) t k v, (PublishJSON q t k v).2 = None.

Lemma loop_total clock i ps (p : sproc) m o :
  accepts → normalize_upper o = o → resolved_to (sdb (pstore p)) m o →
  Forall (payable (sdb (pstore p)) m o) ps → proc_inv p → healthy (pstore p) →
  Forall (λ w, ∃ r, WinningPayoutAmount (winningPosition.Quantity w) = Ok r) ps →
  (settle_loop clock i ps p).2 = None.
Proof.
  intros Ha Hn. revert i p. induction ps as [|w ps IH]; intros i p Hr Hps Hi Hh Hf; [done|].
  cbn [settle_loop]. apply Forall_cons in Hps as [Hw Hps]. apply Forall_cons in Hf as [[amount Hamount] Hf].
  rewrite Hamount.
  set (ev := settlement_of (clock i) w amount).
  destruct (pays_event_ok _ _ _ _ ev Hn Hr Hw) as [Hev Hk].
  { by exists (clock i), amount. }
  destruct (PublishJSON (publisher p) TopicSettlementDone _ (PayloadSettlement ev)) as [q pe] eqn:Ep.
  assert (pe = None) as -> by (specialize (Ha (publisher p) TopicSettlementDone
    (settlementKey (winningPosition.MarketID w) (winningPosition.UserID w)) (PayloadSettlement ev)); by rewrite Ep in Ha).
  assert (sql_inv (pstore p) (paid p ++ [ev])) as Hi1 by (by apply sql_inv_log).
  apply paid_publish in Ep as [Hl|[[? ?] _]]; [|done].
  destruct (mark_total (pstore p) ev _ Hh Hi1 Hev) as (s1 & Em & Hh1); [rewrite Hk; apply Hw|].
  change (MarkSettled (pstore (set_publisher p q)) ev) with (sql_MarkSettled (pstore p) ev). rewrite Em.
  apply (mark_inv _ _ _ _ _ Hi1) in Em as (Hi2 & _ & _ & Hre & _);
    [|apply elem_of_app; right; by left|rewrite Hk; apply Hw].
  apply IH; cbn [pstore set_pstore]; [| |unfold proc_inv|done|done].
  - unfold resolved_to in *. by rewrite (re_markets _ _ Hre).
  - eapply Forall_impl; [exact Hps|]. intros w'. by apply payable_records.
  - cbn [pstore set_pstore]. change (paid (set_pstore (set_publisher p q) s1)) with (paid (set_publisher p q)).
    by rewrite Hl.
Qed.

Lemma publish_cancelled_total fresh clock trace i os (p : sproc) :
  accepts → (publish_cancelled fresh clock trace i os p).2 = None.
Proof.
  intros Ha. revert i p. induction os as [|o os IH]; intros i p; [done|]. cbn [publish_cancelled].
  destruct (PublishJSON _ _ _ _) as [q pe] eqn:E. pose proof (Ha (publisher p) TopicOrderEvent
    (marketBookKey (cancelledOrder.MarketID o) (cancelledOrder.Outcome o))
    (PayloadOrder (cancel_event (fresh i) (clock i) trace o))) as Hn.
  rewrite E in Hn. cbn in Hn. rewrite Hn. apply IH.
Qed.

Lemma settle_total clock m o (p : sproc) :
  accepts → normalize_upper o = o → resolved_to (sdb (pstore p)) m o → proc_inv p → healthy (pstore p) →
  (∀ u row, t_positions (sdb (pstore p)) !! (m, u, o) = Some row →
     PositionRow.quantity row * DefaultWinningSharePayout ≤ MaxInt64) →
  (settleWinningPositions clock m o p).2 = None.
Proof.
  intros Ha Hn Hr Hi Hh Hfit. unfold settleWinningPositions.
  assert (∃ ps, select_winning (sdb (pstore p)) m o = Ok ps) as [ps Hsel].
  { unfold select_winning. set (rows := merge_sort _ _).
    assert (Forall (λ kr, ∃ w, remaining_position kr = Ok w) rows) as Hall.
    { apply Forall_forall. intros [[[m1 u1] o1] row] Hin. unfold rows in Hin.
      rewrite merge_sort_Permutation in Hin. apply list_elem_of_filter in Hin as [(Hm & Ho & Hlt) Hk%elem_of_map_to_list].
      cbn [fst snd] in *. subst m1 o1. pose proof (Hfit _ _ Hk) as Hq.
      apply (so_positions _ _ (proj1 Hi)) in Hk as [_ Hs]. pose proof (recorded_nonneg _ _ (m, u1, o) (proj1 Hi)).
      unfold remaining_position, bigint. cbn [fst snd]. rewrite bool_decide_true; [by eexists|].
      unfold int64, MinInt64, MaxInt64, DefaultWinningSharePayout in *. lia. }
    clear -Hall. induction Hall as [|kr rows [w Hw] _ [ps IH]]; [by exists []|].
    exists (w :: ps). cbn [mapM]. by rewrite Hw; cbn; rewrite IH. }
  assert (sql_WinningPositions (pstore p) m o = (next_store (pstore p) (sdb (pstore p)), Ok ps)) as E.
  { apply settle_tx_ok; [done|]. by rewrite Hsel. }
  change (WinningPositions (pstore p) m o) with (sql_WinningPositions (pstore p) m o). rewrite E.
  pose proof (select_winning_spec _ _ _ _ Hsel) as [Hps _].
  apply (loop_total _ _ _ _ m o Ha Hn); cbn [pstore set_pstore next_store sdb]; [done| | | |].
  - apply Forall_forall. intros w (Hm & Ho & row & Hrow & _)%Hps. split_and!; [done..|by eexists].
  - exact Hi.
  - apply healthy_next; [done|]. intros id. by left.
  - apply Forall_forall. intros w (Hm & Ho & row & Hrow & Hlt & Hq)%Hps.
    unfold position_key in Hrow. rewrite Hm, Ho in Hrow. pose proof (Hfit _ _ Hrow) as Hqm.
    apply (so_positions _ _ (proj1 Hi)) in Hrow as [_ Hs]. pose proof (recorded_nonneg _ _ (m, winningPosition.UserID w, o) (proj1 Hi)).
    apply payout_defined; rewrite Hq; unfold DefaultWinningSharePayout in *; lia.
Qed.


Lemma resolution_total fresh clock event (p : sproc) :
  let m := MarketEvent.MarketID event in
  let o := normalize_upper (MarketEvent.ResolvedOutcome event) in
  let d := sdb (pstore p) in
  normalize_upper (MarketEvent.Status event) = "RESOLVED" → o ≠ "" → proc_inv p →
  accepts → healthy (pstore p) → (∀ o', resolved_to d m o' → o' = o) →
  (∀ id row, t_orders d !! id = Some row → TrimSpace id ≠ "") →
  (∀ u row, t_positions d !! (m, u, o) = Some row →
     PositionRow.quantity row * DefaultWinningSharePayout ≤ MaxInt64) →
  (HandleMarketEvent fresh clock (Some event) p).2 = None.
Proof.
  intros m o d Hst Ho Hi Ha Hh Hold Hids Hfit. unfold HandleMarketEvent, unless_frozen.
  destruct (frozen_ok _ Hh) as [Ef Hh0].
  change (RollupFrozen (pstore p)) with (sql_RollupFrozen (pstore p)). rewrite Ef.
  destruct (default false (t_freeze (sdb (pstore p)))); [done|]. set (s0 := next_store _ _) in *.
  rewrite Hst. fold m o. cbn [negb String.eqb Ascii.eqb Bool.eqb].
  rewrite (proj2 (String.eqb_neq o "") Ho).
  destruct (resolve_total s0 m o (MarketEvent.OccurredAtMillis event) Hh0 Hold) as (s1 & b & E1 & Hh1).
  change (ResolveMarket (pstore (set_pstore p s0))) with (sql_ResolveMarket sha256 s0). rewrite E1.
  destruct (resolve_orders _ _ _ _ E1) as [Ho1 _].
  apply (resolve_inv _ _ _ _ (paid p)) in E1 as (Hi1 & _ & _ & _ & Hp1 & _ & Hres);
    [|apply normalize_upper_idem|exact Hi].
  specialize (Hres eq_refl). cbn [ResolveMarketInput.MarketID ResolveMarketInput.ResolvedOutcome] in Hres.
  change (sdb s0) with d in *. change (set_pstore (set_pstore p s0) s1) with (set_pstore p s1).
  assert (∀ u row, t_positions (sdb s1) !! (m, u, o) = Some row →
    PositionRow.quantity row * DefaultWinningSharePayout ≤ MaxInt64) as Hfit1 by (by rewrite Hp1).
  destruct b; [|apply settle_total; try done; apply normalize_upper_idem].
  destruct (cancel_total s1 m "MARKET_RESOLVED" Hh1) as (s2 & os & E2 & Hh2); [by rewrite Ho1|].
  change (CancelActiveOrders (pstore (set_pstore p s1))) with (sql_CancelActiveOrders s1). rewrite E2.
  apply cancel_quiet in E2. change (set_pstore (set_pstore p s1) s2) with (set_pstore p s2).
  pose proof (publish_cancelled_total fresh clock (MarketEvent.TraceID event) 0 os (set_pstore p s2) Ha) as He3.
  destruct (publish_cancelled _ _ _ _ _ _) as [p3 e3] eqn:E3. cbn in He3. rewrite He3.
  apply publish_cancelled_inv in E3 as [Hs3 Hp3]. apply settle_total; rewrite ?Hs3; [done|apply normalize_upper_idem|..].
  - by apply (quiet_resolved _ _ m o E2).
  - unfold proc_inv. rewrite Hs3, Hp3. by apply (quiet_inv _ _ _ E2).
  - exact Hh2.
  - cbn [pstore set_pstore]. destruct E2 as (_ & _ & [-> _ _ _]). exact Hfit1.
Qed.

(** After a successful run, a position without an earlier payout is settled in full. *)
Lemma settled_in_full clock m o (p p' : sproc) u row :
  normalize_upper o = o → resolved_to (sdb (pstore p)) m o → proc_inv p →
  settleWinningPositions clock m o p = (p', None) →
  t_positions (sdb (pstore p)) !! (m, u, o) = Some row → 0 < PositionRow.quantity row →
  t_payouts (sdb (pstore p)) !! settlementEventID m u o = None →
  ∃ row', t_positions (sdb (pstore p')) !! (m, u, o) = Some row' ∧
    PositionRow.quantity row' = PositionRow.quantity row ∧
    PositionRow.settled_quantity row' = PositionRow.quantity row.
Proof.
  intros Hn Hr Hi E Hrow Hq Hnone.
  apply settle_inv in E as (Hi' & _ & Hre & evs & _ & _ & Hall); [|done..].
  destruct (so_positions _ _ (proj1 Hi) _ _ Hrow) as [_ Hs]. unfold recorded in Hs.
  change (key_id (m, u, o)) with (settlementEventID m u o) in Hs. rewrite Hnone in Hs.
  destruct (Hall eq_refl (winningPosition.mk m u o (PositionRow.quantity row - PositionRow.settled_quantity row)))
    as (_ & r & Hr' & Hset).
  { split_and!; [done..|]. exists row. split_and!; [done|lia|done]. }
  specialize (Hset Hnone). cbn in Hset. 
  pose proof (eq_trans (re_quantity _ _ Hre (m, u, o)) (f_equal (fmap PositionRow.quantity) Hrow)) as Hqq.
  destruct (t_positions (sdb (pstore p')) !! ((m, u, o) : positionKey)) as [row'|] eqn:Hrow'; [|done].
  exists row'. cbn [fmap option_fmap option_map] in Hqq. injection Hqq as Hqq. destruct (so_positions _ _ (proj1 Hi') _ _ Hrow') as [_ Hs'].
  unfold recorded in Hs'. change (position_key _) with (m, u, o) in Hr'. rewrite Hr' in Hs'.
  split_and!; [done|done|]. lia.
Qed.

End ops.

(** ** Theorems *)

Section sql_theorems.
Context (sha256 : string → string).
Context `{!JSON MarketResolvedPayload.t, !JSON SettlementPayoutPayload.t, !JSON evidenceEnvelope.t}.
Context {P : Type} `{!Publisher P, !PublisherLog P}.

(** C30: the settlement tables agree with what was paid: in every state reachable through
    position and market events, writes of other services, failing transactions and a
    failing publisher, each published settlement pays exactly 100 per share to a holder of
    the outcome its market is resolved to; each row of the payout table is one of those
    events; and the settled quantity of a position is what the payout table has recorded
    under the position's own identifier, so nothing is settled twice. *)
Theorem sql_settlement_consistent (p : Processor SettleStore P) :
  sql_reach sha256 p →
  let d := sdb (pstore p) in
  (∀ e, e ∈ paid p → payout_ok e ∧
     resolved_to d (SettlementCompletedEvent.MarketID e) (SettlementCompletedEvent.WinningOutcome e)) ∧
  (∀ id r, t_payouts d !! id = Some r →
     ∃ e now, e ∈ paid p ∧ id = SettlementCompletedEvent.EventID e ∧ r = payout_row now e) ∧
  (∀ m u o row, t_positions d !! (m, u, o) = Some row →
     PositionRow.settled_quantity row =
       match t_payouts d !! settlementEventID m u o with
       | Some r => PayoutRow.settled_quantity r
       | None => 0
       end).
Proof.
  intros [[Hl Hpay Hpos _] _]%sql_reach_inv d. split_and!.
  - intros e He. rewrite Forall_forall in Hl. destruct (Hl e He) as (? & _ & ?). done.
  - intros id r (e & now & ? & ? & ? & _)%Hpay. by exists e, now.
  - intros m u o row [_ H]%Hpos. exact H.
Qed.

(** C31: the rollup journal tells the same story: when the store has a rollup attached, a
    payout row has a journal entry under its identifier whose payload is the row, which
    comes after the entry of its market's resolution; and every settlement entry of the
    journal belongs to a payout row. *)
Theorem settlement_journal_mirrors (p : Processor SettleStore P) :
  sql_reach sha256 p → with_rollup (pstore p) = true →
  let d := sdb (pstore p) in
  (∀ id r, t_payouts d !! id = Some r →
     ∃ i x k y, entries (t_journal d) !! i = Some x ∧ payout_journal_row id x ∧
       JournalEntry.Payload x =
         OtherPayload (Marshal (row_payload id r (JournalEntry.OccurredAtMillis x))) ∧
       (k < i)%nat ∧ entries (t_journal d) !! k = Some y ∧ resolved_row (PayoutRow.market_id r) y) ∧
  (∀ x, x ∈ entries (t_journal d) → JournalEntry.SourceType x = SourceTypeSettlementPayout →
     ∃ id r, t_payouts d !! id = Some r ∧ payout_journal_row id x).
Proof.
  intros [_ Hm]%sql_reach_inv Hroll d. destruct (Hm Hroll) as [_ H2 H3 _]. split.
  - intros id r (i & x & Hi & Hx & Hp & k & y & Hk & Hy & Hr)%H2. by exists i, x, k, y.
  - intros x Hx Hs. destruct (H3 x Hx Hs) as (id & [r Hr] & ?). by exists id, r.
Qed.

End sql_theorems.

(** ** A concrete run *)

(** Payload texts for evaluation: the fields that tell payloads apart. *)
#[local] Instance demo_resolved_json : JSON MarketResolvedPayload.t :=
  {| Marshal p := itoa (MarketResolvedPayload.MarketID p) +:+ "=" +:+ MarketResolvedPayload.ResolvedOutcome p;
     Unmarshal _ := None |}.
#[local] Instance demo_payout_json : JSON SettlementPayoutPayload.t :=
  {| Marshal p := SettlementPayoutPayload.EventID p +:+ "=" +:+ itoa (SettlementPayoutPayload.SettledQuantity p);
     Unmarshal _ := None |}.
#[local] Instance demo_evidence_json : JSON evidenceEnvelope.t := {| Marshal _ := "{}"; Unmarshal _ := None |}.
Definition demo_sha (s : string) : string := s.

Definition demo_env (failing : list nat) : SettleEnv :=
  mkSettleEnv (λ _, 100) (λ _, 100000)
    (λ n, if bool_decide (n ∈ failing) then Some "connection reset" else None)
    (λ n i, "j" +:+ itoa (Z.of_nat n) +:+ "_" +:+ itoa (Z.of_nat i)).

Definition demo_order : OrderRow.t :=
  OrderRow.mk "c1" "cmd1" 1002 88 "NO" "BUY" "LIMIT" "GTC" "USDT" "frz1" "USDT" 500 50 10 0 10
    "NEW" "" 90 90.

Definition demo_db : SettleDB :=
  mkSettleDB ∅ {[88 := SettleMarketRow.mk "Market 88" "USDT" "OPEN" "" 0 0]} ∅ {["o1" := demo_order]} ∅
    None (mkJournal [] 1).

Definition sqldemo0 (failing : list nat) : Processor SettleStore (list BatchItem) :=
  NewProcessor (mkSettleStore demo_db true (demo_env failing) 0) [].
Definition sqldemo1 (failing : list nat) : Processor SettleStore (list BatchItem) :=
  (HandlePositionChanged (PositionStore0 := sqlp demo_sha) (Some (demo_position 1001 "yes" 25))
     (sqldemo0 failing)).1.
Definition sql_resolve (p : Processor SettleStore (list BatchItem)) :=
  HandleMarketEvent (PositionStore0 := sqlp demo_sha) (λ _, "evt") (λ _, 7) (Some (demo_resolution "yes")) p.
Definition sqldemo2 : Processor SettleStore (list BatchItem) := (sql_resolve (sqldemo1 [])).1.

Lemma demo_db_fresh : fresh_db demo_db.
Proof.
  split_and!; [done..| |constructor]. intros m o (row & Hr & Hs & _).
  unfold demo_db in Hr. cbn [t_markets] in Hr. apply lookup_singleton_Some in Hr as [_ <-]. done.
Qed.

Lemma sqldemo1_reach failing : sql_reach demo_sha (sqldemo1 failing).
Proof.
  eapply sql_reach_step; [apply (sql_reach_new demo_sha (mkSettleStore demo_db true (demo_env failing) 0) []); [apply demo_db_fresh|done]|].
  apply (sql_position demo_sha).
Qed.

Lemma sqldemo2_reach : sql_reach demo_sha sqldemo2.
Proof. eapply sql_reach_step; [apply (sqldemo1_reach [])|]. apply (sql_market demo_sha). Qed.

Definition settled_pair (p : Processor SettleStore (list BatchItem)) (k : positionKey) : option (Z * Z) :=
  (λ r, (PositionRow.quantity r, PositionRow.settled_quantity r)) <$> t_positions (sdb (pstore p)) !! k.
Definition paid_quantities (p : Processor SettleStore (list BatchItem)) : list (string * Z) :=
  (λ e, (SettlementCompletedEvent.EventID e, SettlementCompletedEvent.SettledQuantity e)) <$> paid p.
Definition order_events (p : Processor SettleStore (list BatchItem)) : list (string * string) :=
  omap (λ m : BatchItem, match m.2 with
    | PayloadOrder e => Some (OrderEvent.OrderID e, OrderEvent.Status e) | _ => None end)
    (published (publisher p)).
Definition order_status (p : Processor SettleStore (list BatchItem)) (id : string) : option string :=
  OrderRow.status <$> t_orders (sdb (pstore p)) !! id.

Lemma sql_settlement_consistent_witness :
  (∀ e, e ∈ paid sqldemo2 → payout_ok e ∧
     resolved_to (sdb (pstore sqldemo2)) (SettlementCompletedEvent.MarketID e)
       (SettlementCompletedEvent.WinningOutcome e)) ∧
  settled_pair sqldemo2 (88, 1001, "YES") = Some (25, 25) ∧
  paid_quantities sqldemo2 = [("evt_settlement_88_1001_YES", 25)].
Proof.
  split; [exact (proj1 (sql_settlement_consistent demo_sha sqldemo2 sqldemo2_reach))|].
  split; vm_compute; reflexivity.
Defined.

Lemma settlement_journal_mirrors_witness :
  (∀ x, x ∈ entries (t_journal (sdb (pstore sqldemo2))) →
     JournalEntry.SourceType x = SourceTypeSettlementPayout →
     ∃ id r, t_payouts (sdb (pstore sqldemo2)) !! id = Some r ∧ payout_journal_row id x) ∧
  JournalEntry.source <$> entries (t_journal (sdb (pstore sqldemo2))) =
    [("MARKET_RESOLVED", "SETTLEMENT_MARKET", "88"); ("ORDER_CANCELLED", "SETTLEMENT_ORDER", "o1");
     ("SETTLEMENT_PAYOUT", "SETTLEMENT_PAYOUT", "evt_settlement_88_1001_YES")].
Proof.
  split; [exact (proj2 (settlement_journal_mirrors demo_sha sqldemo2 sqldemo2_reach eq_refl))|].
  vm_compute. reflexivity.
Defined.


(** ** What the order of its steps costs *)

(** Shares booked after the payout are announced again with the old identifier on every
    redelivery of the resolution, but the payout row that exists makes [MarkSettled] skip
    the position: the quantity stays unsettled, and the account service, which knows the
    identifier, ignores the event. *)
Theorem late_position_republished :
  let p3 := (HandlePositionChanged (PositionStore0 := sqlp demo_sha)
               (Some (demo_position 1001 "yes" 10)) sqldemo2).1 in
  let p4 := (sql_resolve p3).1 in
  let p5 := (sql_resolve p4).1 in
  settled_pair p5 (88, 1001, "YES") = Some (35, 25) ∧
  paid_quantities p5 = [("evt_settlement_88_1001_YES", 25); ("evt_settlement_88_1001_YES", 10);
                        ("evt_settlement_88_1001_YES", 10)].
Proof. split; vm_compute; reflexivity. Qed.

(** The orders are cancelled only by the delivery that resolves the market.  When that
    delivery loses its connection after the resolution is committed, the redelivery
    succeeds and the orders stay open. *)
Theorem lost_cancellation_leaves_orders :
  let first := sql_resolve (sqldemo1 [6%nat]) in
  let again := sql_resolve first.1 in
  is_Some first.2 ∧ again.2 = None ∧ order_status again.1 "o1" = Some "NEW" ∧
  paid_quantities again.1 = [("evt_settlement_88_1001_YES", 25)].
Proof. split_and!; [vm_compute; eauto|vm_compute; reflexivity..]. Qed.

(** And when the broker refuses the first order event after the cancellation is committed,
    the order is cancelled in the database but its cancellation, which would release its
    freeze, is never announced. *)
Theorem cancelled_orders_never_announced :
  let first := HandleMarketEvent (PositionStore0 := sqlp demo_sha) (λ _, "evt") (λ _, 7)
                 (Some (demo_resolution "yes")) (mkProcessor (pstore (sqldemo1 [])) (mkRefusing [])) in
  let again := sql_resolve (mkProcessor (pstore first.1) []) in
  is_Some first.2 ∧ again.2 = None ∧ order_status again.1 "o1" = Some "CANCELLED" ∧
  order_events again.1 = [] ∧ paid_quantities again.1 = [("evt_settlement_88_1001_YES", 25)].
Proof. split_and!; [vm_compute; eauto|vm_compute; reflexivity..]. Qed.
