(* ===== verification/Oracle.v ===== *)
(** * Oracle: price contracts, evidence and attestations

    [oracle/service/metadata.go] and [oracle/attestation.go]: the resolution contract a
    market's metadata describes, its threshold and the observed price as exact decimals,
    the evidence that is stored with a resolution, and signed price attestations.  JSON
    texts are read and written through [JSON] instances; an [any] value is its text.
    [Keccak256] and the signature scheme of go-ethereum are parameters.  The clock is an
    argument. *)

From Stdlib Require Import Ascii.
From S2P Require Import Prelude Strings RollupState.

Local Open Scope Z_scope.
Local Open Scope go_scope.

(** ** [math/big]: rational numbers from text *)

Module Rat.
Record t := mk { Num : Z; Denom : Z }.

(** Lowest terms, positive denominator. *)
Definition norm (n d : Z) : t := let g := Z.gcd n d in mk (n / g) (d / g).
End Rat.

(** What [nat.scan] keeps while it reads digits: the value, the digits seen, the digits
    before the point, the class of the previous character ('_', a digit, or neither) and
    whether a separator was misplaced. *)
Inductive prev_char := PrevSep | PrevDigit | PrevOther.

Record Scan := mkScan {
  sc_value : Z;
  sc_count : Z;
  sc_dp : option Z;
  sc_prev : prev_char;
  sc_inval : bool;
  sc_frac : bool;
}.

Definition is_digit_prev (p : prev_char) : bool := match p with PrevDigit => true | _ => false end.
Definition is_sep_prev (p : prev_char) : bool := match p with PrevSep => true | _ => false end.

Definition char_digit (ch : ascii) : Z :=
  let n := Z.of_N (N_of_ascii ch) in
  if (48 <=? n) && (n <=? 57) then n - 48
  else if (97 <=? n) && (n <=? 122) then n - 97 + 10
  else if (65 <=? n) && (n <=? 90) then n - 65 + 10
  else 63.

(** The digit loop; separators count for base 0 only, which is the base of every call. *)
Fixpoint scan_digits (b : Z) (s : string) (st : Scan) : Scan * string :=
  match s with
  | EmptyString => (st, EmptyString)
  | String ch s' =>
      if Ascii.eqb ch "." && sc_frac st then
        scan_digits b s' (mkScan (sc_value st) (sc_count st) (Some (sc_count st)) PrevOther
                            (sc_inval st || is_sep_prev (sc_prev st)) false)
      else if Ascii.eqb ch "_" then
        scan_digits b s' (mkScan (sc_value st) (sc_count st) (sc_dp st) PrevSep
                            (sc_inval st || negb (is_digit_prev (sc_prev st))) (sc_frac st))
      else
        let d := char_digit ch in
        if b <=? d then (st, s)
        else scan_digits b s' (mkScan (sc_value st * b + d) (sc_count st + 1) (sc_dp st) PrevDigit
                                 (sc_inval st) (sc_frac st))
  end.

(** The base prefix: base, whether the prefix is the bare octal 0, the state and the rest. *)
Definition scan_prefix (fracOk : bool) (s : string) : Z * bool * Scan * string :=
  let zero st_prev count := mkScan 0 count None st_prev false fracOk in
  match s with
  | String "0" EmptyString => (10, false, zero PrevDigit 1, EmptyString)
  | String "0" (String ch rest as s1) =>
      if Ascii.eqb ch "b" || Ascii.eqb ch "B" then (2, false, zero PrevDigit 0, rest)
      else if Ascii.eqb ch "o" || Ascii.eqb ch "O" then (8, false, zero PrevDigit 0, rest)
      else if Ascii.eqb ch "x" || Ascii.eqb ch "X" then (16, false, zero PrevDigit 0, rest)
      else if fracOk then (10, false, zero PrevDigit 1, s1)
      else (8, true, zero PrevDigit 0, s1)
  | _ => (10, false, zero PrevOther 0, s)
  end.

(** [nat.scan(r, 0, fracOk)]: the value, the base, minus the number of digits after the
    point (or the number of digits), and what is left to read. *)
Definition nat_scan (fracOk : bool) (s : string) : option (Z * Z * Z * string) :=
  let '(b, octal, st, rest) := scan_prefix fracOk s in
  let '(st, rest) := scan_digits b rest st in
  let inval := sc_inval st || is_sep_prev (sc_prev st) in
  if sc_count st =? 0 then if octal then Some (0, 10, 1, rest) else None
  else if inval then None
  else
    let count := match sc_dp st with Some dp => dp - sc_count st | None => sc_count st end in
    Some (sc_value st, b, count, rest).

(** [scanSign] of a non-empty text. *)
Definition scan_sign (s : string) : bool * string :=
  match s with
  | String "-" s => (true, s)
  | String "+" s => (false, s)
  | _ => (false, s)
  end.

Fixpoint scan_exp_digits (s : string) (digits : string) (prev : prev_char) (inval : bool)
    : string * prev_char * bool * string :=
  match s with
  | EmptyString => (digits, prev, inval, EmptyString)
  | String ch s' =>
      if is_digit ch then scan_exp_digits s' (digits +:+ String ch "") PrevDigit inval
      else if Ascii.eqb ch "_"
      then scan_exp_digits s' digits PrevSep (inval || negb (is_digit_prev prev))
      else (digits, prev, inval, s)
  end.

(** [scanExponent(r, true, true)]: exponent, its base, what is left. *)
Definition scan_exponent (s : string) : option (Z * Z * string) :=
  match s with
  | EmptyString => Some (0, 10, s)
  | String ch s1 =>
      let ebase := if Ascii.eqb ch "e" || Ascii.eqb ch "E" then Some 10
                   else if Ascii.eqb ch "p" || Ascii.eqb ch "P" then Some 2 else None in
      match ebase with
      | None => Some (0, 10, s)
      | Some ebase =>
          let '(neg, s2) := scan_sign s1 in
          let '(digits, prev, inval, rest) := scan_exp_digits s2 "" PrevOther false in
          if String.eqb digits "" then None
          else
            match ParseInt ((if neg : bool then "-" else "") +:+ digits) with
            | None => None
            | Some exp => if inval || is_sep_prev prev then None else Some (exp, ebase, rest)
            end
      end
  end.

(** [Int.SetString(s, 0)]. *)
Definition Int_SetString0 (s : string) : option Z :=
  let '(neg, s1) := scan_sign s in
  '(v, _, _, rest) ← nat_scan false s1;
  if String.eqb rest "" then Some (if neg : bool then - v else v) else None.

Fixpoint split_slash (s : string) : option (string * string) :=
  match s with
  | EmptyString => None
  | String ch s =>
      if Ascii.eqb ch "/" then Some (EmptyString, s)
      else '(l, r) ← split_slash s; Some (String ch l, r)
  end.

(** [value * base ^ exp], exactly. *)
Definition scale_by (base : Z) (nd : Z * Z) (exp : Z) : Z * Z :=
  if exp <? 0 then (nd.1, nd.2 * base ^ (- exp)) else (nd.1 * base ^ exp, nd.2).

(** [Rat.SetString]. *)
Definition Rat_SetString (s : string) : option Rat.t :=
  if String.eqb s "" then None
  else
    match split_slash s with
    | Some (l, r) =>
        a ← Int_SetString0 l;
        '(b, _, _, rest) ← nat_scan false r;
        if negb (String.eqb rest "") || (b =? 0) then None else Some (Rat.norm a b)
    | None =>
        let '(neg, s1) := scan_sign s in
        '(mant, base, fcount, s2) ← nat_scan true s1;
        '(exp, ebase, rest) ← scan_exponent s2;
        if negb (String.eqb rest "") then None
        else if mant =? 0 then Some (Rat.mk 0 1)
        else
          let d := if fcount <? 0 then fcount else 0 in
          let exp5 := (if base =? 10 then d else 0) + (if ebase =? 10 then exp else 0) in
          let exp2 := (if base =? 8 then 3 * d else if base =? 16 then 4 * d else d) + exp in
          if (1000000 <? Z.abs exp5) || (10000000 <? Z.abs exp2) then None
          else
            let '(n, dn) := scale_by 2 (scale_by 5 (mant, 1) exp5) exp2 in
            Some (Rat.norm (if neg : bool then - n else n) dn)
    end.

(** ** Decimals with a scale *)

(** The loop of [pow10]. *)
Fixpoint pow10_loop (n : nat) (value : Z) : Z :=
  match n with O => value | S n => pow10_loop n (value * 10) end.
Definition pow10 (scale : Z) : Z := pow10_loop (Z.to_nat scale) 1.

Fixpoint repeat_zero (n : nat) : string :=
  match n with O => "" | S n => String "0" (repeat_zero n) end.

Fixpoint string_take (n : nat) (s : string) : string :=
  match n, s with S n, String a s => String a (string_take n s) | _, _ => "" end.
Fixpoint string_drop (n : nat) (s : string) : string :=
  match n, s with S n, String _ s => string_drop n s | _, _ => s end.

Definition formatScaled (value scale : Z) : string :=
  if scale =? 0 then itoa value
  else
    let sign := if value <? 0 then "-" else "" in
    let digits := itoa (Z.abs value) in
    let len := Z.of_nat (String.length digits) in
    let digits := if len <=? scale then repeat_zero (Z.to_nat (scale - len + 1)) +:+ digits else digits in
    let cut := (String.length digits - Z.to_nat scale)%nat in
    sign +:+ string_take cut digits +:+ "." +:+ string_drop cut digits.

(** Half a unit or more is rounded up. *)
Definition round_half_up (num den : Z) : Z :=
  let quotient := num `quot` den in
  let remainder := num `rem` den in
  if negb (remainder =? 0) && (den <=? remainder * 2) then quotient + 1 else quotient.

Definition normalizeDecimal (value : string) (scale : Z) : option (Z * string) :=
  let trimmed := TrimSpace value in
  if String.eqb trimmed "" then None
  else
    rat ← Rat_SetString trimmed;
    if Rat.Num rat <? 0 then None
    else
      let scaled := Rat.norm (Rat.Num rat * pow10 scale) (Rat.Denom rat) in
      let quotient := round_half_up (Rat.Num scaled) (Rat.Denom scaled) in
      Some (quotient, formatScaled quotient scale).

(** ** Data *)

Definition ResolutionModeOraclePrice : string := "ORACLE_PRICE".
Definition ResolutionMarketKindCryptoPrice : string := "CRYPTO_PRICE_THRESHOLD".
Definition ResolverTypeOraclePrice : string := "ORACLE_PRICE".
Definition ErrorCodeSourceTimeout : string := "SOURCE_TIMEOUT".
Definition ErrorCodeSourceUnavailable : string := "SOURCE_UNAVAILABLE".
Definition ErrorCodeStalePrice : string := "STALE_PRICE".
Definition ErrorCodePriceNotInWindow : string := "PRICE_NOT_IN_WINDOW".
Definition ErrorCodeUnsupportedSymbol : string := "UNSUPPORTED_SYMBOL".
Definition ErrorCodeUnsupportedRule : string := "UNSUPPORTED_RULE".
Definition ErrorCodeConflictingObservation : string := "CONFLICTING_OBSERVATION".
Definition ErrorCodeInvalidMetadata : string := "INVALID_METADATA".
Definition DispatchStatusPending : string := "PENDING".
Definition DispatchStatusDispatched : string := "DISPATCHED".

Module ResolutionInstrument.
Record t := mk { Kind : string; BaseAsset : string; QuoteAsset : string; Symbol : string }.
End ResolutionInstrument.

Module ResolutionPriceConfig.
Record t := mk { Field : string; Scale : Z; RoundingMode : string; MaxDataAgeSec : Z }.
End ResolutionPriceConfig.

Module ResolutionWindow.
Record t := mk { Anchor : string; BeforeSec : Z; AfterSec : Z }.
End ResolutionWindow.

Module ResolutionRule.
Record t := mk { Type_ : string; Comparator : string; ThresholdPrice : string }.
End ResolutionRule.

Module ResolutionOracleConfig.
Record t := mk {
  SourceKind : string;
  ProviderKey : string;
  Instrument : ResolutionInstrument.t;
  Price : ResolutionPriceConfig.t;
  Window : ResolutionWindow.t;
  Rule : ResolutionRule.t;
}.
End ResolutionOracleConfig.

Module ResolutionMetadata.
Record t := mk {
  Version : Z;
  Mode : string;
  MarketKind : string;
  ManualFallbackAllowed : bool;
  Oracle : ResolutionOracleConfig.t;
}.
End ResolutionMetadata.

Module Contract.
Record t := mk { Metadata : ResolutionMetadata.t; ThresholdScaled : option Z }.
Definition cfg (c : t) : ResolutionOracleConfig.t := ResolutionMetadata.Oracle (Metadata c).
Definition Window (c : t) : ResolutionWindow.t := ResolutionOracleConfig.Window (cfg c).
Definition Price (c : t) : ResolutionPriceConfig.t := ResolutionOracleConfig.Price (cfg c).
Definition Rule (c : t) : ResolutionRule.t := ResolutionOracleConfig.Rule (cfg c).
Definition Symbol (c : t) : string := ResolutionInstrument.Symbol (ResolutionOracleConfig.Instrument (cfg c)).
End Contract.

Module Observation.
Record t := mk {
  FetchedAt : Z;
  EffectiveAt : Z;
  ObservedPrice : string;
  ObservedScaled : option Z;
  RawPayload : string;
  RawPayloadHash : string;
}.
End Observation.

Module EvidenceAttestation.
Record t := mk {
  Version : Z;
  AssetPair : string;
  Price : string;
  Timestamp : Z;
  Provider : string;
  Signature : string;
  SignerAddress : string;
}.
End EvidenceAttestation.

Module EvidenceSource.
Record t := mk {
  SourceKind : string;
  ProviderKey : string;
  Instrument : ResolutionInstrument.t;
  PriceField : string;
  PriceScale : Z;
}.
End EvidenceSource.

Module EvidenceWindow.
Record t := mk { Anchor : string; TargetTime : Z; BeforeSec : Z; AfterSec : Z; MaxDataAgeSec : Z }.
End EvidenceWindow.

Module EvidenceObservation.
Record t := mk {
  ObservationID : string;
  FetchedAt : Z;
  EffectiveAt : Z;
  ObservedPrice : string;
  ResolvedOutcome : string;
  RawPayloadHash : string;
  RawPayload : string;
}.
End EvidenceObservation.

Module EvidenceRetry.
Record t := mk { AttemptCount : Z; LastAttemptAt : Z; NextRetryAt : Z; LastErrorCode : string }.
End EvidenceRetry.

Module EvidenceDispatch.
Record t := mk {
  Status : string;
  AttemptCount : Z;
  LastAttemptAt : Z;
  DispatchedAt : Z;
  LastError : string;
}.
End EvidenceDispatch.

(** [EvidenceRule] has the fields of [ResolutionRule]. *)
Module Evidence.
Record t := mk {
  Version : Z;
  ResolutionMode : string;
  Source : EvidenceSource.t;
  Rule : ResolutionRule.t;
  Window : EvidenceWindow.t;
  Observation : option EvidenceObservation.t;
  Attestation : option EvidenceAttestation.t;
  Retry : EvidenceRetry.t;
  Dispatch : option EvidenceDispatch.t;
}.
End Evidence.

Module StoredEvidence.
Record t := mk {
  Observation : option EvidenceObservation.t;
  Retry : EvidenceRetry.t;
  Dispatch : option EvidenceDispatch.t;
}.

(** The fields it shares with [Evidence]. *)
Definition of_evidence (e : Evidence.t) : t :=
  mk (Evidence.Observation e) (Evidence.Retry e) (Evidence.Dispatch e).
End StoredEvidence.

(** The anonymous struct of [HasOracleResolutionMode]. *)
Module resolutionMode.
Record t := mk { Mode : string }.
End resolutionMode.

(** ** Contracts *)

Definition isBinaryOptionKeys (optionKeys : list string) : bool :=
  (length optionKeys =? 2)%nat &&
  bool_decide ("YES" ∈ normalize_upper <$> optionKeys) && bool_decide ("NO" ∈ normalize_upper <$> optionKeys).

Definition normalizeInstrument (i : ResolutionInstrument.t) : ResolutionInstrument.t :=
  ResolutionInstrument.mk (normalize_upper (ResolutionInstrument.Kind i))
    (normalize_upper (ResolutionInstrument.BaseAsset i))
    (normalize_upper (ResolutionInstrument.QuoteAsset i))
    (normalize_upper (ResolutionInstrument.Symbol i)).

Definition normalizeContract (m : ResolutionMetadata.t) : ResolutionMetadata.t :=
  let o := ResolutionMetadata.Oracle m in
  let p := ResolutionOracleConfig.Price o in
  let w := ResolutionOracleConfig.Window o in
  let r := ResolutionOracleConfig.Rule o in
  ResolutionMetadata.mk (ResolutionMetadata.Version m) (normalize_upper (ResolutionMetadata.Mode m))
    (normalize_upper (ResolutionMetadata.MarketKind m)) (ResolutionMetadata.ManualFallbackAllowed m)
    (ResolutionOracleConfig.mk (normalize_upper (ResolutionOracleConfig.SourceKind o))
       (normalize_upper (ResolutionOracleConfig.ProviderKey o))
       (normalizeInstrument (ResolutionOracleConfig.Instrument o))
       (ResolutionPriceConfig.mk (normalize_upper (ResolutionPriceConfig.Field p))
          (ResolutionPriceConfig.Scale p) (normalize_upper (ResolutionPriceConfig.RoundingMode p))
          (ResolutionPriceConfig.MaxDataAgeSec p))
       (ResolutionWindow.mk (normalize_upper (ResolutionWindow.Anchor w)) (ResolutionWindow.BeforeSec w)
          (ResolutionWindow.AfterSec w))
       (ResolutionRule.mk (normalize_upper (ResolutionRule.Type_ r))
          (normalize_upper (ResolutionRule.Comparator r)) (TrimSpace (ResolutionRule.ThresholdPrice r)))).

(** The guards of [validateContract] before the threshold, as the detail of the first
    that fails. *)
Definition contract_fault (categoryKey : string) (optionKeys : list string) (resolveAt : Z)
    (m : ResolutionMetadata.t) : option string :=
  let o := ResolutionMetadata.Oracle m in
  let i := ResolutionOracleConfig.Instrument o in
  let p := ResolutionOracleConfig.Price o in
  let w := ResolutionOracleConfig.Window o in
  let r := ResolutionOracleConfig.Rule o in
  if negb (String.eqb (ResolutionMetadata.Mode m) ResolutionModeOraclePrice)
  then Some "metadata.resolution.mode must be ORACLE_PRICE"
  else if negb (String.eqb (normalize_upper categoryKey) "CRYPTO")
  then Some "oracle-settled markets must use category_key = CRYPTO"
  else if negb (isBinaryOptionKeys optionKeys)
  then Some "oracle-settled markets must use YES/NO binary options"
  else if resolveAt <=? 0 then Some "oracle-settled markets require resolve_at > 0"
  else if negb (ResolutionMetadata.Version m =? 1) then Some "metadata.resolution.version must be 1"
  else if negb (String.eqb (ResolutionMetadata.MarketKind m) ResolutionMarketKindCryptoPrice)
  then Some "metadata.resolution.market_kind must be CRYPTO_PRICE_THRESHOLD"
  else if negb (ResolutionMetadata.ManualFallbackAllowed m)
  then Some "metadata.resolution.manual_fallback_allowed must be true"
  else if negb (String.eqb (ResolutionOracleConfig.SourceKind o) "HTTP_JSON")
  then Some "metadata.resolution.oracle.source_kind must be HTTP_JSON"
  else if negb (String.eqb (ResolutionOracleConfig.ProviderKey o) "BINANCE")
  then Some "metadata.resolution.oracle.provider_key must be BINANCE"
  else if negb (String.eqb (ResolutionInstrument.Kind i) "SPOT")
  then Some "metadata.resolution.oracle.instrument.kind must be SPOT"
  else if String.eqb (ResolutionInstrument.Symbol i) ""
  then Some "metadata.resolution.oracle.instrument.symbol is required"
  else if negb (String.eqb (ResolutionPriceConfig.Field p) "LAST_PRICE")
  then Some "metadata.resolution.oracle.price.field must be LAST_PRICE"
  else if (ResolutionPriceConfig.Scale p <? 0) || (18 <? ResolutionPriceConfig.Scale p)
  then Some "metadata.resolution.oracle.price.scale must be between 0 and 18"
  else if negb (String.eqb (ResolutionPriceConfig.RoundingMode p) "ROUND_HALF_UP")
  then Some "metadata.resolution.oracle.price.rounding_mode must be ROUND_HALF_UP"
  else if ResolutionPriceConfig.MaxDataAgeSec p <=? 0
  then Some "metadata.resolution.oracle.price.max_data_age_sec must be greater than 0"
  else if negb (String.eqb (ResolutionWindow.Anchor w) "RESOLVE_AT")
  then Some "metadata.resolution.oracle.window.anchor must be RESOLVE_AT"
  else if (ResolutionWindow.BeforeSec w <? 0) || (ResolutionWindow.AfterSec w <? 0)
  then Some "metadata.resolution.oracle.window.before_sec and after_sec must be non-negative"
  else if negb (String.eqb (ResolutionRule.Type_ r) "PRICE_THRESHOLD")
  then Some "metadata.resolution.oracle.rule.type must be PRICE_THRESHOLD"
  else if negb (bool_decide (ResolutionRule.Comparator r ∈ ["GT"; "GTE"; "LT"; "LTE"]))
  then Some "metadata.resolution.oracle.rule.comparator must be GT, GTE, LT, or LTE"
  else None.

Definition invalidMetadataMessage (detail : string) : string := ErrorCodeInvalidMetadata +:+ ": " +:+ detail.

(** The metadata with another threshold text. *)
Definition with_threshold (m : ResolutionMetadata.t) (text : string) : ResolutionMetadata.t :=
  let o := ResolutionMetadata.Oracle m in
  let r := ResolutionOracleConfig.Rule o in
  ResolutionMetadata.mk (ResolutionMetadata.Version m) (ResolutionMetadata.Mode m)
    (ResolutionMetadata.MarketKind m) (ResolutionMetadata.ManualFallbackAllowed m)
    (ResolutionOracleConfig.mk (ResolutionOracleConfig.SourceKind o) (ResolutionOracleConfig.ProviderKey o)
       (ResolutionOracleConfig.Instrument o) (ResolutionOracleConfig.Price o)
       (ResolutionOracleConfig.Window o)
       (ResolutionRule.mk (ResolutionRule.Type_ r) (ResolutionRule.Comparator r) text)).

Definition validateContract (categoryKey : string) (optionKeys : list string) (resolveAt : Z)
    (c : Contract.t) : result string Contract.t :=
  let m := Contract.Metadata c in
  match contract_fault categoryKey optionKeys resolveAt m with
  | Some detail => Err (invalidMetadataMessage detail)
  | None =>
      match normalizeDecimal (ResolutionRule.ThresholdPrice (Contract.Rule c))
              (ResolutionPriceConfig.Scale (Contract.Price c)) with
      | None => Err (invalidMetadataMessage
          "metadata.resolution.oracle.rule.threshold_price must be a decimal string compatible with price.scale")
      | Some (scaled, text) => Ok (Contract.mk (with_threshold m text) (Some scaled))
      end
  end.

Definition ResolverRef (c : Contract.t) (resolveAt : Z) : string :=
  "oracle_price:" +:+ ResolutionOracleConfig.ProviderKey (Contract.cfg c) +:+ ":" +:+ Contract.Symbol c
    +:+ ":" +:+ itoa resolveAt.

Definition ResolveOutcome (c : Contract.t) (observed : option Z) : result string string :=
  match observed, Contract.ThresholdScaled c with
  | Some observed, Some threshold =>
      let comparator := normalize_upper (ResolutionRule.Comparator (Contract.Rule c)) in
      let yes b := Ok (if b : bool then "YES" else "NO") in
      if String.eqb comparator "GT" then yes (threshold <? observed)
      else if String.eqb comparator "GTE" then yes (threshold <=? observed)
      else if String.eqb comparator "LT" then yes (observed <? threshold)
      else if String.eqb comparator "LTE" then yes (observed <=? threshold)
      else Err (invalidMetadataMessage "metadata.resolution.oracle.rule.comparator is not supported")
  | _, _ => Err (invalidMetadataMessage "normalized oracle price is required")
  end.

Definition NormalizeObservedPrice (c : Contract.t) (value : string) : option (Z * string) :=
  normalizeDecimal value (ResolutionPriceConfig.Scale (Contract.Price c)).

(** Nothing, or the JSON null. *)
Definition blank_json (raw : string) : bool :=
  let trimmed := TrimSpace raw in String.eqb trimmed "" || String.eqb trimmed "null".

Section json.
Context `{!JSON (gmap string string), !JSON ResolutionMetadata.t, !JSON resolutionMode.t}.
Context `{!JSON Evidence.t, !JSON StoredEvidence.t}.

Definition parseMetadataObject (raw : string) : option (gmap string string) :=
  if blank_json raw then None else Unmarshal (TrimSpace raw).

Definition HasOracleResolutionMode (raw : string) : bool :=
  match parseMetadataObject raw ≫= lookup "resolution" with
  | None => false
  | Some text =>
      match Unmarshal (T := resolutionMode.t) text with
      | None => false
      | Some r => String.eqb (normalize_upper (resolutionMode.Mode r)) ResolutionModeOraclePrice
      end
  end.

(** [(contract, isOracle, err)]. *)
Definition ParseContract (categoryKey : string) (optionKeys : list string) (resolveAt : Z) (raw : string)
    : option Contract.t * bool * option string :=
  match parseMetadataObject raw ≫= lookup "resolution" with
  | None => (None, false, None)
  | Some text =>
      let not_object := Some (invalidMetadataMessage "metadata.resolution must be an object") in
      if blank_json text then (None, false, not_object)
      else
        match Unmarshal (T := ResolutionMetadata.t) text with
        | None => (None, false, not_object)
        | Some m =>
            match validateContract categoryKey optionKeys resolveAt
                    (Contract.mk (normalizeContract m) None) with
            | Err e => (None, true, Some e)
            | Ok c => (Some c, true, None)
            end
        end
  end.

(** ** Evidence *)

Definition nextAttemptCount (raw : string) : Z :=
  if String.eqb (TrimSpace raw) "" then 1
  else
    match Unmarshal (T := StoredEvidence.t) raw with
    | None => 1
    | Some stored =>
        let n := EvidenceRetry.AttemptCount (StoredEvidence.Retry stored) in
        if n <=? 0 then 1 else n ⊞ 1
    end.

Definition evidence_source (c : Contract.t) : EvidenceSource.t :=
  let o := Contract.cfg c in
  EvidenceSource.mk (ResolutionOracleConfig.SourceKind o) (ResolutionOracleConfig.ProviderKey o)
    (ResolutionOracleConfig.Instrument o) (ResolutionPriceConfig.Field (Contract.Price c))
    (ResolutionPriceConfig.Scale (Contract.Price c)).

Definition evidence_window (c : Contract.t) (resolveAt : Z) : EvidenceWindow.t :=
  let w := Contract.Window c in
  EvidenceWindow.mk (ResolutionWindow.Anchor w) resolveAt (ResolutionWindow.BeforeSec w)
    (ResolutionWindow.AfterSec w) (ResolutionPriceConfig.MaxDataAgeSec (Contract.Price c)).

Definition evidence_observation (c : Contract.t) (resolveAt : Z) (obs : Observation.t)
    (resolvedOutcome : string) : EvidenceObservation.t :=
  EvidenceObservation.mk (ResolverRef c resolveAt) (Observation.FetchedAt obs)
    (Observation.EffectiveAt obs) (Observation.ObservedPrice obs) resolvedOutcome
    (Observation.RawPayloadHash obs) (Observation.RawPayload obs).

Definition BuildEvidence (now : Z) (contract : option Contract.t) (resolveAt : Z)
    (observation : option Observation.t) (previous : string) (attemptCount nextRetryAt : Z)
    (lastErrorCode resolvedOutcome : string) (attestation : option EvidenceAttestation.t) : string :=
  match contract with
  | None => previous
  | Some c =>
      let attemptCount := if attemptCount <=? 0 then nextAttemptCount previous else attemptCount in
      let evidence obs att retry dispatch :=
        Marshal (Evidence.mk 1 ResolutionModeOraclePrice (evidence_source c) (Contract.Rule c)
          (evidence_window c resolveAt) obs att retry dispatch) in
      match observation with
      | None => evidence None None (EvidenceRetry.mk attemptCount now nextRetryAt lastErrorCode) None
      | Some obs =>
          evidence (Some (evidence_observation c resolveAt obs resolvedOutcome)) attestation
            (EvidenceRetry.mk attemptCount (Observation.FetchedAt obs) 0 lastErrorCode)
            (Some (EvidenceDispatch.mk DispatchStatusPending 0 0 0 ""))
      end
  end.

Definition parseStoredEvidence (raw : string) : option StoredEvidence.t :=
  if blank_json raw then None else Unmarshal (TrimSpace raw).

Definition parseEvidence (raw : string) : option Evidence.t :=
  if blank_json raw then None else Unmarshal (TrimSpace raw).

Definition normalizeDispatchStatus (d : option EvidenceDispatch.t) : string :=
  match d with None => "" | Some d => normalize_upper (EvidenceDispatch.Status d) end.

Definition dispatchPending (raw : string) : bool :=
  match parseStoredEvidence raw with
  | None => true
  | Some stored =>
      negb (String.eqb (normalizeDispatchStatus (StoredEvidence.Dispatch stored)) DispatchStatusDispatched)
  end.

Definition set_Dispatch (e : Evidence.t) (d : EvidenceDispatch.t) : Evidence.t :=
  Evidence.mk (Evidence.Version e) (Evidence.ResolutionMode e) (Evidence.Source e) (Evidence.Rule e)
    (Evidence.Window e) (Evidence.Observation e) (Evidence.Attestation e) (Evidence.Retry e) (Some d).

Definition recordDispatchAttempt (now : Z) (raw : string) (dispatched : bool) (attemptedAt : Z)
    (lastError : string) : string :=
  match parseEvidence raw with
  | None => raw
  | Some e =>
      let attemptedAt := if attemptedAt <=? 0 then now else attemptedAt in
      let attemptCount :=
        match Evidence.Dispatch e with
        | Some d => if 0 <? EvidenceDispatch.AttemptCount d then EvidenceDispatch.AttemptCount d ⊞ 1 else 1
        | None => 1
        end in
      Marshal (set_Dispatch e
        (if dispatched
         then EvidenceDispatch.mk DispatchStatusDispatched attemptCount attemptedAt attemptedAt ""
         else EvidenceDispatch.mk DispatchStatusPending attemptCount attemptedAt 0 (TrimSpace lastError)))
  end.
End json.

(** ** Attestations ([attestation.go]) *)

Definition AttestationVersion : Z := 1.
Definition attestationDomain : string := "funny-oracle-attestation-v1".
Definition ethSignedMsgPrefix : string := String "025" "Ethereum Signed Message:" +:+ String "010" "32".

(** [SignedOracleAttestation] has the fields of [EvidenceAttestation]. *)
Notation SignedOracleAttestation := EvidenceAttestation.t.

(** [common.LeftPadBytes(s, 32)]. *)
Definition left_pad32 (s : string) : string :=
  let len := String.length s in
  if (32 <=? len)%nat then s
  else (fix zeros (n : nat) := match n with O => s | S n => String "000" (zeros n) end) (32 - len)%nat.

(** [big.Int.Bytes] of a non-negative 64-bit value, most significant byte first. *)
Fixpoint strip_zero_bytes (s : string) : string :=
  match s with
  | String a s' => if Ascii.eqb a "000" then strip_zero_bytes s' else s
  | EmptyString => EmptyString
  end.
Definition int_bytes (z : Z) : string := strip_zero_bytes (PutUint64 (Z.abs z)).

(** [common.FromHex]: an optional prefix, an even number of digits, and what decodes. *)
Fixpoint hex_prefix_bytes (s : string) : string :=
  match s with
  | String a (String b s) =>
      match fromHexChar a, fromHexChar b with
      | Some hi, Some lo => String (ascii_of_N (hi * 16 + lo)) (hex_prefix_bytes s)
      | _, _ => EmptyString
      end
  | _ => EmptyString
  end.
Definition FromHex (s : string) : string :=
  let s := match s with
           | String a (String b s') =>
               if Ascii.eqb a "0" && (Ascii.eqb b "x" || Ascii.eqb b "X") then s' else s
           | _ => s
           end in
  hex_prefix_bytes (if Nat.odd (String.length s) then String "0" s else s).

(** The recovery byte is written 27 higher than the library's. *)
Fixpoint map_byte_at (n : nat) (f : ascii → ascii) (s : string) : string :=
  match n, s with
  | O, String a s => String (f a) s
  | S n, String a s => String a (map_byte_at n f s)
  | _, EmptyString => EmptyString
  end.
Definition raise_v (a : ascii) : ascii := ascii_of_N ((N_of_ascii a + 27) mod 256).
Definition lower_v (a : ascii) : ascii :=
  if (27 <=? N_of_ascii a)%N then ascii_of_N (N_of_ascii a - 27) else a.

Section attestation.
(** [Address] is [common.Address]; [Hex] its text. *)
Context {PrivateKey PublicKey Address : Type} `{!EqDecision Address}.
Context (Keccak256 : string → string) (Sign : string → PrivateKey → option string).
Context (SigToPub : string → string → option PublicKey).
Context (Public : PrivateKey → PublicKey) (PubkeyToAddress : PublicKey → Address) (Hex : Address → string).

Definition attestationDigest (assetPair price : string) (timestamp : Z) (provider : string) : string :=
  Keccak256 (attestationDomain +:+ left_pad32 assetPair +:+ Keccak256 price
    +:+ left_pad32 (int_bytes timestamp) +:+ left_pad32 provider).

Definition prefixedHash (digest : string) : string := Keccak256 (ethSignedMsgPrefix +:+ digest).

Definition BuildOracleAttestation (assetPair price : string) (timestamp : Z) (provider : string)
    (signerKey : option PrivateKey) : result string SignedOracleAttestation :=
  match signerKey with
  | None => Err "signer key is required"
  | Some key =>
      let assetPair := normalize_upper assetPair in
      let provider := normalize_upper provider in
      let price := TrimSpace price in
      if String.eqb assetPair "" || String.eqb price "" || (timestamp <=? 0) || String.eqb provider ""
      then Err "asset_pair, price, timestamp, and provider are all required"
      else
        match Sign (prefixedHash (attestationDigest assetPair price timestamp provider)) key with
        | None => Err "signing attestation"
        | Some sig =>
            let sig := if (String.length sig =? 65)%nat then map_byte_at 64 raise_v sig else sig in
            Ok (EvidenceAttestation.mk AttestationVersion assetPair price timestamp provider
                  (EncodeToString sig) (ToLower (Hex (PubkeyToAddress (Public key)))))
        end
  end.

Definition RecoverAttestationSigner (att : option SignedOracleAttestation) : result string Address :=
  match att with
  | None => Err "attestation is nil"
  | Some att =>
      let sig := FromHex (EvidenceAttestation.Signature att) in
      if negb (String.length sig =? 65)%nat then Err "invalid signature length"
      else
        let digest := attestationDigest (normalize_upper (EvidenceAttestation.AssetPair att))
          (TrimSpace (EvidenceAttestation.Price att)) (EvidenceAttestation.Timestamp att)
          (normalize_upper (EvidenceAttestation.Provider att)) in
        match SigToPub (prefixedHash digest) (map_byte_at 64 lower_v sig) with
        | None => Err "recovering signer"
        | Some pub => Ok (PubkeyToAddress pub)
        end
  end.

Definition VerifyOracleAttestation (att : option SignedOracleAttestation) (trustedSigners : list Address)
    : option string :=
  match att with
  | None => Some "attestation is nil"
  | Some a =>
      if negb (EvidenceAttestation.Version a =? AttestationVersion) then Some "unsupported attestation version"
      else if String.eqb (EvidenceAttestation.AssetPair a) "" || String.eqb (EvidenceAttestation.Price a) ""
              || (EvidenceAttestation.Timestamp a <=? 0) || String.eqb (EvidenceAttestation.Provider a) ""
      then Some "attestation fields are incomplete"
      else if String.eqb (EvidenceAttestation.Signature a) "" then Some "attestation signature is empty"
      else
        match RecoverAttestationSigner att with
        | Err e => Some e
        | Ok recovered =>
            if bool_decide (recovered ∈ trustedSigners) then None
            else Some ("attestation signer " +:+ Hex recovered +:+ " is not in trusted set")
        end
  end.
End attestation.
