(* ===== verification/OracleWorker.v ===== *)
(** * Oracle: the worker

    [oracle/service/worker.go], [store.go], [sql_store.go] and [provider_binance.go].  A
    poll lists the markets that are due, observes a price for each, writes the resolution
    and announces it.  The store, the price provider and the publisher are interfaces; the
    SQL store shares the tables of the settlement service, and a [JSONB] column holds
    [jsonb] of the text that is written.  The counters of [stats.go] are left out.  Every
    reading of a clock and every new identifier is an argument. *)

From stdpp Require Import sorting.
From S2P Require Import Prelude Strings Shared Messages.
From S2P Require Import RollupJournal RollupState MatchStore Settlement SettlementSql Oracle.

Local Open Scope Z_scope.
Local Open Scope go_scope.

(** ** Data *)

Module EligibleMarket.
Record t := mk {
  MarketID : Z;
  ResolveAt : Z;
  MarketStatus : string;
  CategoryKey : string;
  Metadata : string;
  OptionSchema : string;
  ResolutionStatus : string;
  ResolvedOutcome : string;
  ResolverType : string;
  ResolverRef : string;
  Evidence : string;
}.
End EligibleMarket.

Module ResolutionUpdate.
Record t := mk {
  MarketID : Z;
  Status : string;
  ResolvedOutcome : string;
  ResolverType : string;
  ResolverRef : string;
  Evidence : string;
}.
End ResolutionUpdate.

Module providerError.
Record t := mk { Code : string; Retryable : bool; Message : string }.
End providerError.

Module marketOption.
Record t := mk { Key : string }.
End marketOption.

(** ** Interfaces *)

Class MarketStore (S : Type) := {
  ListEligibleMarkets : S → Z → Z → S * result string (list EligibleMarket.t);
  UpsertResolution : S → ResolutionUpdate.t → S * option string;
  OracleFrozen : S → S * result string bool;
}.

Class PriceProvider (V : Type) := {
  Observe : V → Contract.t → V * (option Observation.t * option providerError.t);
}.

(** The readings of the clock while one market is processed, and the identifier of the
    event. *)
Record Reading := mkReading {
  at_evidence : Z;
  at_attempt : Z;
  at_record : Z;
  event_millis : Z;
  event_id : string;
}.

(** [time.Second] in nanoseconds. *)
Definition Second : Z := 1000000000.

Definition retryDelaySeconds (interval : Z) : Z :=
  if interval <=? 0 then 5
  else let seconds := interval `quot` Second in if seconds <=? 0 then 1 else seconds.

Definition validateObservationTiming (resolveAt : Z) (c : Contract.t) (obs : Observation.t) : string :=
  let targetBefore := resolveAt ⊟ ResolutionWindow.BeforeSec (Contract.Window c) in
  let targetAfter := resolveAt ⊞ ResolutionWindow.AfterSec (Contract.Window c) in
  if (Observation.EffectiveAt obs <? targetBefore) || (targetAfter <? Observation.EffectiveAt obs)
  then ErrorCodePriceNotInWindow
  else if ResolutionPriceConfig.MaxDataAgeSec (Contract.Price c) <?
          Observation.FetchedAt obs ⊟ Observation.EffectiveAt obs
  then ErrorCodeStalePrice
  else "".

Definition resolverRefForMarket (contract : option Contract.t) (resolveAt : Z) : string :=
  match contract with None => "" | Some c => ResolverRef c resolveAt end.

(** An oracle resolution of this contract, with an outcome. *)
Definition own_resolution (market : EligibleMarket.t) (resolverRef : string) : bool :=
  String.eqb (normalize_upper (EligibleMarket.ResolverType market)) ResolverTypeOraclePrice &&
  String.eqb (TrimSpace (EligibleMarket.ResolverRef market)) resolverRef &&
  negb (String.eqb (normalize_upper (EligibleMarket.ResolvedOutcome market)) "").

(** ** The worker *)

Section worker.
Context {S P V : Type} `{!MarketStore S, !Publisher P, !PriceProvider V}.
Context `{!JSON (gmap string string), !JSON ResolutionMetadata.t, !JSON (list marketOption.t)}.
Context `{!JSON Evidence.t, !JSON StoredEvidence.t}.
(** [attest]: the attestation the worker builds when it has a key. *)
Context (attest : option (string → string → Z → string → result string EvidenceAttestation.t)).

Record Worker := mkWorker { wstore : S; wpublisher : P; wprovider : V; pollInterval : Z; batchSize : Z }.

Definition NewWorker (s : S) (v : V) (p : P) (interval : Z) : Worker :=
  mkWorker s p v (if interval <=? 0 then 5 * Second else interval) 20.

Definition set_wstore (w : Worker) (s : S) : Worker :=
  mkWorker s (wpublisher w) (wprovider w) (pollInterval w) (batchSize w).
Definition set_wpublisher (w : Worker) (p : P) : Worker :=
  mkWorker (wstore w) p (wprovider w) (pollInterval w) (batchSize w).
Definition set_wprovider (w : Worker) (v : V) : Worker :=
  mkWorker (wstore w) (wpublisher w) v (pollInterval w) (batchSize w).

Definition upsert (w : Worker) (u : ResolutionUpdate.t) : Worker * option string :=
  let '(s, err) := UpsertResolution (wstore w) u in (set_wstore w s, err).

Definition optionKeysFromSchema (raw : string) : option (list string) :=
  match Unmarshal (T := list marketOption.t) raw with
  | None => None
  | Some options => Some (marketOption.Key <$> options)
  end.

Definition writeTerminalResolution (r : Reading) (market : EligibleMarket.t) (contract : option Contract.t)
    (errorCode : string) (w : Worker) : Worker * option string :=
  upsert w (ResolutionUpdate.mk (EligibleMarket.MarketID market) "TERMINAL_ERROR" "" ResolverTypeOraclePrice
    (resolverRefForMarket contract (EligibleMarket.ResolveAt market))
    (BuildEvidence (at_evidence r) contract (EligibleMarket.ResolveAt market) None
       (EligibleMarket.Evidence market) 0 0 errorCode "" None)).

Definition writeObservationError (r : Reading) (now : Z) (market : EligibleMarket.t) (c : Contract.t)
    (e : providerError.t) (w : Worker) : Worker * option string :=
  let resolveAt := EligibleMarket.ResolveAt market in
  let deadline := resolveAt ⊞ ResolutionWindow.AfterSec (Contract.Window c) in
  let '(status, nextRetryAt) :=
    if providerError.Retryable e && (now <=? deadline)
    then ("RETRYABLE_ERROR", now ⊞ retryDelaySeconds (pollInterval w))
    else ("TERMINAL_ERROR", 0) in
  upsert w (ResolutionUpdate.mk (EligibleMarket.MarketID market) status "" ResolverTypeOraclePrice
    (resolverRefForMarket (Some c) resolveAt)
    (BuildEvidence (at_evidence r) (Some c) resolveAt None (EligibleMarket.Evidence market) 0 nextRetryAt
       (providerError.Code e) "" None)).

Definition resolved_event (r : Reading) (marketID : Z) (outcome : string) : MarketEvent.t :=
  MarketEvent.mk (event_id r) "" marketID "RESOLVED" (normalize_upper outcome) (event_millis r).

Definition publishResolvedEvent (r : Reading) (marketID : Z) (outcome : string) (w : Worker)
    : Worker * option string :=
  let '(p, err) := PublishJSON (wpublisher w) TopicMarketEvent (itoa marketID)
                     (PayloadMarket (resolved_event r marketID outcome)) in
  (set_wpublisher w p, err).

Definition with_evidence (u : ResolutionUpdate.t) (evidence : string) : ResolutionUpdate.t :=
  ResolutionUpdate.mk (ResolutionUpdate.MarketID u) (ResolutionUpdate.Status u)
    (ResolutionUpdate.ResolvedOutcome u) (ResolutionUpdate.ResolverType u)
    (ResolutionUpdate.ResolverRef u) evidence.

Definition dispatchObservedResolution (r : Reading) (u : ResolutionUpdate.t) (w : Worker)
    : Worker * option string :=
  match publishResolvedEvent r (ResolutionUpdate.MarketID u) (ResolutionUpdate.ResolvedOutcome u) w with
  | (w, Some err) =>
      let u := with_evidence u
        (recordDispatchAttempt (at_record r) (ResolutionUpdate.Evidence u) false (at_attempt r) err) in
      match upsert w u with
      | (w, Some markErr) =>
          (w, Some ("publish resolved market.event: " +:+ err +:+
                    " (also failed to persist pending dispatch: " +:+ markErr +:+ ")"))
      | (w, None) => (w, Some err)
      end
  | (w, None) =>
      upsert w (with_evidence u
        (recordDispatchAttempt (at_record r) (ResolutionUpdate.Evidence u) true (at_attempt r) ""))
  end.

(** A failed attestation is logged and left out. *)
Definition build_attestation (c : Contract.t) (obs : Observation.t) : option EvidenceAttestation.t :=
  match attest with
  | None => None
  | Some f =>
      match f (Contract.Symbol c) (Observation.ObservedPrice obs) (Observation.EffectiveAt obs)
              (ResolutionOracleConfig.ProviderKey (Contract.cfg c)) with
      | Ok a => Some a
      | Err _ => None
      end
  end.

Definition observed_update (r : Reading) (market : EligibleMarket.t) (c : Contract.t) (obs : Observation.t)
    (outcome : string) : ResolutionUpdate.t :=
  let resolveAt := EligibleMarket.ResolveAt market in
  ResolutionUpdate.mk (EligibleMarket.MarketID market) "OBSERVED" outcome ResolverTypeOraclePrice
    (ResolverRef c resolveAt)
    (BuildEvidence (at_evidence r) (Some c) resolveAt (Some obs) (EligibleMarket.Evidence market) 0 0 ""
       outcome (build_attestation c obs)).

(** What follows the provider's answer. *)
Definition settle_observation (r : Reading) (now : Z) (market : EligibleMarket.t) (c : Contract.t)
    (answer : option Observation.t * option providerError.t) (w : Worker) : Worker * option string :=
  match answer with
  | (_, Some e) => writeObservationError r now market c e w
  | (None, None) =>
      writeObservationError r now market c
        (providerError.mk ErrorCodeSourceUnavailable true "oracle provider returned no observation") w
  | (Some obs, None) =>
      let statusCode := validateObservationTiming (EligibleMarket.ResolveAt market) c obs in
      if negb (String.eqb statusCode "") then
        writeObservationError r now market c
          (providerError.mk statusCode
             (String.eqb statusCode ErrorCodePriceNotInWindow || String.eqb statusCode ErrorCodeStalePrice)
             statusCode) w
      else
        match ResolveOutcome c (Observation.ObservedScaled obs) with
        | Err _ => writeTerminalResolution r market (Some c) ErrorCodeUnsupportedRule w
        | Ok outcome =>
            let u := observed_update r market c obs outcome in
            match upsert w u with
            | (w, Some err) => (w, Some err)
            | (w, None) => dispatchObservedResolution r u w
            end
        end
  end.

(** A resolution the market already has: kept when it is the oracle's own, announced again
    while its dispatch is pending. *)
Definition dispatch_again (r : Reading) (market : EligibleMarket.t) (resolverRef : string) (w : Worker)
    : Worker * option string :=
  if negb (dispatchPending (EligibleMarket.Evidence market)) then (w, None)
  else dispatchObservedResolution r
    (ResolutionUpdate.mk (EligibleMarket.MarketID market) "OBSERVED"
       (normalize_upper (EligibleMarket.ResolvedOutcome market)) ResolverTypeOraclePrice resolverRef
       (EligibleMarket.Evidence market)) w.

(** [ParseContract] returns a contract whenever it reports one without an error. *)
Definition processMarket (r : Reading) (now : Z) (market : EligibleMarket.t) (w : Worker)
    : Worker * option string :=
  match optionKeysFromSchema (EligibleMarket.OptionSchema market) with
  | None => writeTerminalResolution r market None ErrorCodeInvalidMetadata w
  | Some optionKeys =>
      match ParseContract (EligibleMarket.CategoryKey market) optionKeys (EligibleMarket.ResolveAt market)
              (EligibleMarket.Metadata market) with
      | (contract, _, Some _) => writeTerminalResolution r market contract ErrorCodeInvalidMetadata w
      | (_, false, None) => (w, None)
      | (None, true, None) => (w, None)
      | (Some c, true, None) =>
          let resolverRef := ResolverRef c (EligibleMarket.ResolveAt market) in
          let status := normalize_upper (EligibleMarket.ResolutionStatus market) in
          if String.eqb status "RESOLVED" then
            if own_resolution market resolverRef then (w, None)
            else writeTerminalResolution r market (Some c) ErrorCodeConflictingObservation w
          else if String.eqb status "OBSERVED" then
            if own_resolution market resolverRef then dispatch_again r market resolverRef w
            else writeTerminalResolution r market (Some c) ErrorCodeConflictingObservation w
          else
            let '(v, answer) := Observe (wprovider w) c in
            settle_observation r now market c answer (set_wprovider w v)
      end
  end.

(** The loop over the markets of one poll; it stops at the first error. *)
Fixpoint process_all (readings : nat → Reading) (now : Z) (i : nat) (markets : list EligibleMarket.t)
    (w : Worker) : Worker * option string :=
  match markets with
  | [] => (w, None)
  | market :: markets =>
      match processMarket (readings i) now market w with
      | (w, Some err) => (w, Some err)
      | (w, None) => process_all readings now (i + 1) markets w
      end
  end.

Definition pollOnce (readings : nat → Reading) (now : Z) (w : Worker) : Worker * option string :=
  let '(s, frozen) := OracleFrozen (wstore w) in
  let w := set_wstore w s in
  match frozen with
  | Err e => (w, Some e)
  | Ok true => (w, None)
  | Ok false =>
      let '(s, markets) := ListEligibleMarkets (wstore w) now (batchSize w) in
      let w := set_wstore w s in
      match markets with
      | Err e => (w, Some e)
      | Ok markets => process_all readings now 0 markets w
      end
  end.
End worker.

Arguments Worker S P V : clear implicits.

(** ** The SQL store *)

(** The columns of a market that the oracle reads and nobody here writes: [resolve_at], the
    key of its category if it has one, [metadata], and its option set if it has one. *)
Module MarketInfo.
Record t := mk { resolve_at : Z; category_key : option string; metadata : string; option_schema : option string }.
End MarketInfo.

Record OracleStore := mkOracleStore {
  odb : SettleDB;
  oinfo : gmap Z MarketInfo.t;
  oenv : SettleEnv;
  ocount : nat;
}.

Definition set_odb (s : OracleStore) (d : SettleDB) : OracleStore :=
  mkOracleStore d (oinfo s) (oenv s) (S (ocount s)).

Definition normalizeJSONRaw (raw : string) : string := if String.eqb raw "" then "{}" else raw.

Section sql.
(** [jsonb]: the text a [JSONB] column returns; [mode_of]: [metadata->'resolution'->>'mode']. *)
Context (jsonb : string → string) (mode_of : string → option string).

Definition no_resolution : resolutionRecord.t := resolutionRecord.mk "" "" "" "" "{}".

(** A row of the join. *)
Definition eligible_row (m : Z) (row : SettleMarketRow.t) (i : MarketInfo.t) (category : string)
    (r : resolutionRecord.t) : EligibleMarket.t :=
  EligibleMarket.mk m (MarketInfo.resolve_at i) (SettleMarketRow.status row) category
    (normalizeJSONRaw (MarketInfo.metadata i))
    (normalizeJSONRaw (default "[]" (MarketInfo.option_schema i)))
    (resolutionRecord.Status r) (resolutionRecord.ResolvedOutcome r) (resolutionRecord.ResolverType r)
    (resolutionRecord.ResolverRef r) (normalizeJSONRaw (resolutionRecord.Evidence r)).

Definition open_status (r : option ResolutionRow) : bool :=
  match r with
  | None => true
  | Some (r, _, _) =>
      bool_decide (resolutionRecord.Status r ∈ [""; "PENDING"; "RETRYABLE_ERROR"; "TERMINAL_ERROR"; "OBSERVED"])
  end.

(** The [WHERE] clause for one market. *)
Definition eligible (now : Z) (s : OracleStore) (mrow : Z * SettleMarketRow.t) : option EligibleMarket.t :=
  let '(m, row) := mrow in
  i ← oinfo s !! m;
  category ← MarketInfo.category_key i;
  let r := t_resolutions (odb s) !! m in
  if (0 <? MarketInfo.resolve_at i) && (MarketInfo.resolve_at i <=? now) &&
     negb (String.eqb (SettleMarketRow.status row) "RESOLVED") && String.eqb category "CRYPTO" &&
     String.eqb (default "" (mode_of (MarketInfo.metadata i))) "ORACLE_PRICE" && open_status r
  then Some (eligible_row m row i category
               (match r with Some (r, _, _) => r | None => no_resolution end))
  else None.

(** [ORDER BY m.resolve_at ASC, m.market_id ASC]. *)
Definition due_before (a b : EligibleMarket.t) : Prop :=
  EligibleMarket.ResolveAt a < EligibleMarket.ResolveAt b ∨
  (EligibleMarket.ResolveAt a = EligibleMarket.ResolveAt b ∧
   EligibleMarket.MarketID a ≤ EligibleMarket.MarketID b).
#[global] Instance due_before_dec a b : Decision (due_before a b).
Proof. unfold due_before. apply _. Defined.

Definition eligible_markets (now limit : Z) (s : OracleStore) : list EligibleMarket.t :=
  take (Z.to_nat limit) (merge_sort due_before (omap (eligible now s) (map_to_list (t_markets (odb s))))).

(** The outcome of a call that may lose its connection. *)
Definition oracle_call {A} (s : OracleStore) (k : SettleDB → SettleDB * result string A)
    : OracleStore * result string A :=
  match tx_fail (oenv s) (ocount s) with
  | Some err => (set_odb s (odb s), Err err)
  | None => let '(d, r) := k (odb s) in (set_odb s d, r)
  end.

Definition upsert_resolution (now : Z) (u : ResolutionUpdate.t) (d : SettleDB)
    : SettleDB * result string unit :=
  let m := ResolutionUpdate.MarketID u in
  let row := resolutionRecord.mk (ResolutionUpdate.Status u) (ResolutionUpdate.ResolvedOutcome u)
    (ResolutionUpdate.ResolverType u) (ResolutionUpdate.ResolverRef u)
    (jsonb (normalizeResolutionEvidence (ResolutionUpdate.Evidence u))) in
  match t_resolutions d !! m with
  | Some (_, created, _) => (set_t_resolutions d (<[m := (row, created, now)]> (t_resolutions d)), Ok ())
  | None =>
      if bool_decide (t_markets d !! m = None) then (d, Err fk_error)
      else (set_t_resolutions d (<[m := (row, now, now)]> (t_resolutions d)), Ok ())
  end.

Definition oracle_sql : MarketStore OracleStore := {|
  ListEligibleMarkets s now limit := oracle_call s (λ d, (d, Ok (eligible_markets now limit s)));
  UpsertResolution s u :=
    let '(s', r) := oracle_call s (upsert_resolution (at_seconds (oenv s) (ocount s)) u) in (s', error_of r);
  OracleFrozen s := oracle_call s (λ d, (d, Ok (default false (t_freeze d))));
|}.
End sql.

(** ** The Binance provider *)

Module binanceTrade.
Record t := mk { ID : Z; Price : string; Quantity : string; QuoteQty : string; Time : Z;
  IsBuyerMaker : bool; IsBestMatch : bool }.
End binanceTrade.

(** A JSON value as its text. *)
Module rawJSON.
Record t := mk { text : string }.
End rawJSON.

(** How the request for the last trade ended. *)
Inductive HttpAnswer :=
| RequestError (msg : string)
| DoError (timeout : bool) (msg : string)
| ReadError (msg : string)
| Response (code : Z) (body : string).

(** [strings.Contains]. *)
Fixpoint contains (s sub : string) : bool :=
  String.prefix sub s || match s with EmptyString => false | String _ s => contains s sub end.

Section binance.
Context (sha256 : string → string) `{!JSON (list binanceTrade.t), !JSON (list rawJSON.t)}.

Definition hashRawPayload (body : string) : string := "sha256:" +:+ EncodeToString (sha256 body).

(** [isTimeoutError]: the error says so, or its text does. *)
Definition timed_out (timeout : bool) (msg : string) : bool := timeout || contains (ToLower msg) "timeout".

Definition raw_first (body : string) : string :=
  match Unmarshal (T := list rawJSON.t) body with Some (x :: _) => rawJSON.text x | _ => body end.

Definition observe_trade (c : Contract.t) (now : Z) (body : string) (t : binanceTrade.t)
    : option Observation.t * option providerError.t :=
  match NormalizeObservedPrice c (binanceTrade.Price t) with
  | None => (None, Some (providerError.mk ErrorCodeInvalidMetadata false "invalid price"))
  | Some (scaled, text) =>
      (Some (Observation.mk now (binanceTrade.Time t `quot` 1000) text (Some scaled) (raw_first body)
               (hashRawPayload body)), None)
  end.

Definition binance_Observe (answer : HttpAnswer) (now : Z) (c : Contract.t)
    : option Observation.t * option providerError.t :=
  let fail code retryable msg := (None, Some (providerError.mk code retryable msg)) in
  match answer with
  | RequestError msg => fail ErrorCodeSourceUnavailable true msg
  | DoError timeout msg =>
      if timed_out timeout msg then fail ErrorCodeSourceTimeout true msg
      else fail ErrorCodeSourceUnavailable true msg
  | ReadError msg => fail ErrorCodeSourceUnavailable true msg
  | Response code body =>
      if (code =? 429) || (500 <=? code)
      then fail ErrorCodeSourceUnavailable true ("binance returned " +:+ itoa code)
      else if 400 <=? code then
        fail (if contains (ToLower body) "invalid symbol" then ErrorCodeUnsupportedSymbol
              else ErrorCodeInvalidMetadata) false ("binance returned " +:+ itoa code)
      else
        match Unmarshal (T := list binanceTrade.t) body with
        | None => fail ErrorCodeSourceUnavailable true "json"
        | Some [] => fail ErrorCodeSourceUnavailable true "binance returned no trades"
        | Some (t :: _) => observe_trade c now body t
        end
  end.
End binance.
