(* ===== verification/OracleProps.v ===== *)
(** * Oracle: exact prices, justified outcomes, verifiable attestations

    Prices are rounded to the nearest unit and their canonical text reads back as the same
    price; a signed attestation verifies; every resolution the worker announces rests on an
    observation inside the contract's window; and what it writes is what the settlement
    service finalises. *)

From Stdlib Require Import Ascii.
From stdpp Require Import sorting.
From S2P Require Import Prelude Strings Shared Messages.
From S2P Require Import RollupJournal RollupState MatchStore Settlement SettlementSql Oracle OracleWorker.
From S2P Require Import SettlementProps SettlementSqlProps.

Local Open Scope Z_scope.
Local Open Scope go_scope.

(** ** Rational numbers *)

Lemma norm_pos n d : 0 < d →
  let r := Rat.norm n d in 0 < Rat.Denom r ∧ Rat.Num r * d = n * Rat.Denom r.
Proof.
  intros Hd r. unfold r, Rat.norm. cbn [Rat.Num Rat.Denom].
  assert (0 < Z.gcd n d) as Hg.
  { pose proof (Z.gcd_nonneg n d). assert (Z.gcd n d ≠ 0); [|lia]. intros E%Z.gcd_eq_0_r. lia. }
  destruct (Z.gcd_divide_l n d) as [a Ha]. destruct (Z.gcd_divide_r n d) as [b Hb].
  generalize dependent (Z.gcd n d). intros g Hg Ha Hb. subst n d. rewrite !Z.div_mul by lia. nia.
Qed.

Lemma scale_by_pos base nd e : 0 < base → 0 < nd.2 → 0 < (scale_by base nd e).2.
Proof.
  intros Hb Hd. unfold scale_by. destruct (Z.ltb_spec e 0); cbn; [|done].
  pose proof (Z.pow_pos_nonneg base (- e)). nia.
Qed.

Lemma nat_scan_nonneg fracOk s v b count rest : nat_scan fracOk s = Some (v, b, count, rest) → 0 ≤ v.
Proof.
  assert (∀ b s st, 0 < b → 0 ≤ sc_value st → 0 ≤ sc_value (scan_digits b s st).1) as Hs.
  { clear. intros b s. induction s as [|ch s IH]; intros st Hb Hv; [done|]. cbn [scan_digits].
    destruct (_ && _); [by apply IH|]. destruct (Ascii.eqb ch "_"); [by apply IH|].
    destruct (b <=? char_digit ch) eqn:E; [done|]. apply IH; [done|]. cbn.
    assert (0 ≤ char_digit ch); [|nia]. unfold char_digit. repeat case_match; lia. }
  unfold nat_scan. destruct (scan_prefix fracOk s) as [[[b' octal] st] r] eqn:Ep.
  assert (0 < b' ∧ sc_value st = 0) as [Hb Hst].
  { revert Ep. unfold scan_prefix. repeat case_match; intros [= <- <- <- <-]; done. }
  pose proof (Hs b' r st Hb ltac:(lia)) as Hv. destruct (scan_digits b' r st) as [st' r'].
  repeat case_match; intros [= <- <- <- <-]; cbn in *; lia.
Qed.

Lemma Rat_SetString_pos s r : Rat_SetString s = Some r → 0 < Rat.Denom r.
Proof.
  unfold Rat_SetString. destruct (String.eqb s ""); [done|]. destruct (split_slash s) as [[l t]|].
  - destruct (Int_SetString0 l) as [a|]; [|done]. cbn.
    destruct (nat_scan false t) as [[[[b ?] ?] rest]|] eqn:E; [|done]. cbn.
    apply nat_scan_nonneg in E. destruct (negb _); [done|]. cbn. destruct (Z.eqb_spec b 0); [done|].
    intros [= <-]. apply norm_pos. lia.
  - destruct (scan_sign s) as [neg s1]. destruct (nat_scan true s1) as [[[[mant base] fc] s2]|]; [|done]. cbn.
    destruct (scan_exponent s2) as [[[e eb] rest]|]; [|done]. cbn.
    destruct (negb _); [done|]. destruct (mant =? 0); [by intros [= <-]|]. cbv zeta.
    destruct (_ || _); [done|]. intros H.
    match type of H with context [scale_by 2 ?x ?e2] => destruct (scale_by 2 x e2) as [n dn] eqn:E2;
      assert (0 < dn) as Hd by (change dn with ((n, dn).2); rewrite <-E2; apply scale_by_pos; [lia|];
        apply scale_by_pos; cbn; lia) end.
    injection H as <-. by apply norm_pos.
Qed.

(** ** Rounding *)

Lemma round_half_up_spec n d : 0 ≤ n → 0 < d →
  let q := round_half_up n d in (2 * q - 1) * d ≤ 2 * n < (2 * q + 1) * d.
Proof.
  intros Hn Hd q. unfold q, round_half_up. rewrite Z.quot_div_nonneg, Z.rem_mod_nonneg by lia.
  pose proof (Z.div_mod n d ltac:(lia)). pose proof (Z.mod_pos_bound n d Hd).
  destruct (Z.eqb_spec (n mod d) 0), (Z.leb_spec d (n mod d * 2)); cbn [negb andb]; nia.
Qed.

Lemma pow10_spec n : pow10 n = 10 ^ (Z.max 0 n).
Proof.
  unfold pow10. assert (∀ k v, pow10_loop k v = v * 10 ^ Z.of_nat k) as H.
  { intros k. induction k as [|k IH]; intros v; [cbn; lia|]. cbn [pow10_loop]. rewrite IH, Nat2Z.inj_succ, Z.pow_succ_r; lia. }
  rewrite H. rewrite Z.mul_1_l. f_equal. lia.
Qed.

(** The normalised value is the number the text denotes, rounded to the nearest multiple of
    [10 ^ -scale], a tie upwards; the text is its decimal form. *)
Lemma normalizeDecimal_nearest value scale q text :
  0 ≤ scale → normalizeDecimal value scale = Some (q, text) →
  text = formatScaled q scale ∧ 0 ≤ q ∧
  ∃ r, Rat_SetString (TrimSpace value) = Some r ∧ 0 < Rat.Denom r ∧ 0 ≤ Rat.Num r ∧
    (2 * q - 1) * Rat.Denom r ≤ 2 * (Rat.Num r * 10 ^ scale) < (2 * q + 1) * Rat.Denom r.
Proof.
  intros Hs. unfold normalizeDecimal. destruct (String.eqb _ ""); [done|].
  destruct (Rat_SetString (TrimSpace value)) as [r|] eqn:Er; [|done]. cbn [mbind option_bind].
  apply Rat_SetString_pos in Er as Hd. destruct (Z.ltb_spec (Rat.Num r) 0); [done|]. cbv zeta.
  rewrite pow10_spec, (Z.max_r 0 scale) by lia. intros [= <- <-]. split; [done|].
  pose proof (Z.pow_pos_nonneg 10 scale ltac:(lia) Hs) as Hp.
  destruct (norm_pos (Rat.Num r * 10 ^ scale) (Rat.Denom r) Hd) as [Hd' He].
  set (s := Rat.norm _ _) in *.
  assert (0 ≤ Rat.Num s) as Hn by nia.
  pose proof (round_half_up_spec (Rat.Num s) (Rat.Denom s) Hn Hd') as Hq. cbv zeta in Hq.
  set (q := round_half_up _ _) in *. split; [nia|]. exists r. split_and!; [done..|nia|nia].
Qed.

(** ** The canonical text of a price *)

Lemma string_take_drop n s : string_take n s +:+ string_drop n s = s.
Proof. revert n. induction s as [|a s IH]; intros [|n]; cbn; try done. exact (f_equal (String a) (IH n)). Qed.

Lemma string_length_append s t : String.length (s +:+ t) = (String.length s + String.length t)%nat.
Proof. induction s as [|a s IH]; [done|]. exact (f_equal S IH). Qed.

Lemma length_string_take n s : (n ≤ String.length s)%nat → String.length (string_take n s) = n.
Proof. revert n. induction s as [|a s IH]; intros [|n] H; cbn in *; try lia. by rewrite IH by lia. Qed.

Lemma all_digits_append s t : all_digits (s +:+ t) = all_digits s && all_digits t.
Proof.
  induction s as [|a s IH]; [done|].
  change (is_digit a && all_digits (s +:+ t) = is_digit a && all_digits s && all_digits t).
  by rewrite IH, andb_assoc.
Qed.

Lemma all_digits_no_space s : all_digits s = true → no_space s = true.
Proof.
  induction s as [|a s IH]; [done|]. cbn [all_digits no_space]. intros [Ha Hd]%andb_true_iff.
  rewrite (IH Hd), andb_true_r. by destruct a as [[] [] [] [] [] [] [] []].
Qed.

Lemma parse_digits_append acc s t :
  parse_digits acc (s +:+ t) = parse_digits acc s ≫= λ v, parse_digits v t.
Proof.
  revert acc. induction s as [|a s IH]; intros acc; [done|].
  change (digit_value a ≫= (λ d, parse_digits (acc * 10 + d) (s +:+ t)) =
          (digit_value a ≫= λ d, parse_digits (acc * 10 + d) s) ≫= λ v, parse_digits v t).
  destruct (digit_value a); [|done]. cbn. apply IH.
Qed.

Lemma digit_char (a : ascii) d : digit_value a = Some d →
  char_digit a = d ∧ 0 ≤ d < 10 ∧ Ascii.eqb a "." = false ∧ Ascii.eqb a "_" = false.
Proof. destruct a as [[] [] [] [] [] [] [] []]; cbn; try done; by intros [= <-]. Qed.

(** The digit loop over a run of digits. *)
Lemma scan_run ds t st v :
  parse_digits (sc_value st) ds = Some v →
  scan_digits 10 (ds +:+ t) st =
  scan_digits 10 t (mkScan v (sc_count st + Z.of_nat (String.length ds)) (sc_dp st)
                      (match ds with EmptyString => sc_prev st | _ => PrevDigit end) (sc_inval st) (sc_frac st)).
Proof.
  revert st. induction ds as [|a ds IH]; intros st; cbn [parse_digits].
  { intros [= <-]. destruct st. cbn. by rewrite Z.add_0_r. }
  destruct (digit_value a) as [d|] eqn:Ed; [|done]. cbn [mbind option_bind].
  apply digit_char in Ed as (Hd & Hr & H1 & H2). intros Hp.
  change (String a ds +:+ t) with (String a (ds +:+ t)). cbn [scan_digits].
  rewrite H1, H2, Hd, (proj2 (Z.leb_gt 10 d)) by lia. cbn [andb].
  rewrite IH; [|exact Hp]. cbn [sc_count sc_dp sc_inval sc_frac sc_prev String.length].
  f_equal. f_equal; [lia|]. by destruct ds.
Qed.

Lemma all_digits_parse acc ds : all_digits ds = true → ∃ v, parse_digits acc ds = Some v.
Proof.
  revert acc. induction ds as [|a ds IH]; intros acc; [by eexists|]. cbn [all_digits parse_digits].
  intros [[d Hd]%bool_decide_eq_true H]%andb_true_iff. rewrite Hd. cbn. by apply IH.
Qed.

Definition scan0 : Scan := mkScan 0 0 None PrevOther false true.

Lemma scan_prefix_digits a s :
  is_digit a = true →
  (match s with String ch _ => is_digit ch = true ∨ ch = "."%char | EmptyString => True end) →
  ∃ st r, scan_prefix true (String a s) = (10, false, st, r) ∧
    scan_digits 10 r st = scan_digits 10 (String a s) scan0.
Proof.
  intros Ha Hs. destruct (decide (a = "0"%char)) as [->|Hne].
  - destruct s as [|ch s].
    + eexists _, _. split; [reflexivity|]. reflexivity.
    + eexists _, (String ch s). split.
      * cbn [scan_prefix]. destruct Hs as [Hd| ->]; [|reflexivity].
        destruct ch as [[] [] [] [] [] [] [] []]; try discriminate Hd; reflexivity.
      * reflexivity.
  - eexists _, (String a s). split; [|reflexivity].
    destruct a as [[] [] [] [] [] [] [] []]; try discriminate Ha; try reflexivity. by destruct Hne.
Qed.

Lemma repeat_zero_digits n : all_digits (repeat_zero n) = true ∧ String.length (repeat_zero n) = n ∧
  ∀ acc, parse_digits acc (repeat_zero n) = Some (acc * 10 ^ Z.of_nat n).
Proof.
  induction n as [|n (IH1 & IH2 & IH3)]; [split_and!; [done..|]; intros; cbn; f_equal; lia|].
  split_and!; [exact IH1|cbn; by rewrite IH2|]. intros acc. cbn [repeat_zero parse_digits].
  change (digit_value "0") with (Some 0). cbn [mbind option_bind]. rewrite IH3, Nat2Z.inj_succ, Z.pow_succ_r by lia.
  f_equal. lia.
Qed.

(** [formatScaled] is the digits of the value with a point, and no more zeros in front than
    the point needs. *)
Lemma formatScaled_shape q scale : 0 ≤ q → 0 < scale →
  ∃ l r, formatScaled q scale = l +:+ String "." r ∧ l ≠ "" ∧ all_digits (l +:+ r) = true ∧
    parse_digits 0 (l +:+ r) = Some q ∧ Z.of_nat (String.length r) = scale.
Proof.
  intros Hq Hs. unfold formatScaled. rewrite (proj2 (Z.eqb_neq scale 0)), (proj2 (Z.ltb_ge q 0)) by lia.
  rewrite Z.abs_eq by lia. cbv zeta.
  assert (∃ n, itoa q = pretty n ∧ q = Z.of_N n) as (n & Ei & ->).
  { destruct (itoa_shape q) as [(n & ? & ?)|(n & Hn & E)]; [by exists n|].
    destruct (decide (n = 0%N)) as [->|]; [|lia]. exists 0%N. by subst. }
  rewrite Ei. destruct (pretty_N_parse n) as (Hp & Hd & Hne).
  assert (parse_digits 0 (pretty n) = Some (Z.of_N n)) as Hp'.
  { revert Hp. unfold parse_unsigned. by destruct (pretty n). }
  set (len := String.length (pretty n)).
  set (D := if Z.of_nat len <=? scale then repeat_zero (Z.to_nat (scale - Z.of_nat len + 1)) +:+ pretty n else pretty n).
  assert (all_digits D = true ∧ parse_digits 0 D = Some (Z.of_N n) ∧ scale < Z.of_nat (String.length D)) as (HD & HDp & HDl).
  { unfold D. destruct (Z.leb_spec (Z.of_nat len) scale); [|done].
    destruct (repeat_zero_digits (Z.to_nat (scale - Z.of_nat len + 1))) as (H1 & H2 & H3).
    rewrite all_digits_append, H1, parse_digits_append, H3, string_length_append, H2. cbn. split_and!; [done|done|]. fold len. lia. }
  set (cut := (String.length D - Z.to_nat scale)%nat).
  exists (string_take cut D), (string_drop cut D). rewrite string_take_drop. split_and!; [done| |done|done|].
  - intros E%(f_equal String.length). rewrite length_string_take in E by lia. cbn in E. lia.
  - pose proof (f_equal String.length (string_take_drop cut D)) as E. rewrite string_length_append, length_string_take in E by lia. lia.
Qed.

Lemma no_slash_digits s : all_digits s = true → ∀ t, split_slash (s +:+ t) = '(l, r) ← split_slash t; Some (s +:+ l, r).
Proof.
  induction s as [|a s IH]; intros Hd t.
  { change ("" +:+ t) with t. destruct (split_slash t) as [[l r]|]; done. }
  cbn [all_digits] in Hd. apply andb_true_iff in Hd as [Ha Hd].
  change (String a s +:+ t) with (String a (s +:+ t)). cbn [split_slash].
  destruct (Ascii.eqb_spec a "/") as [->|_]; [done|]. rewrite (IH Hd).
  destruct (split_slash t) as [[l r]|]; done.
Qed.

(** What the scanner makes of digits with an optional point. *)
Lemma nat_scan_decimal l r q :
  l ≠ "" → all_digits (l +:+ r) = true → parse_digits 0 (l +:+ r) = Some q →
  nat_scan true (l +:+ String "." r) = Some (q, 10, - Z.of_nat (String.length r), "").
Proof.
  intros Hl Hd Hp. rewrite all_digits_append in Hd. apply andb_true_iff in Hd as [Hdl Hdr].
  rewrite parse_digits_append in Hp. destruct (parse_digits 0 l) as [v|] eqn:Hv; [|done]. cbn in Hp.
  destruct l as [|a l]; [done|]. pose proof Hdl as Hdl'. cbn [all_digits] in Hdl'. apply andb_true_iff in Hdl' as [Ha Hl'].
  change (String a l +:+ String "." r) with (String a (l +:+ String "." r)).
  destruct (scan_prefix_digits a (l +:+ String "." r) Ha) as (st & rest & E1 & E2).
  { destruct l as [|b l]; [by right|]. left. cbn [all_digits] in Hl'. by apply andb_true_iff in Hl' as [? _]. }
  unfold nat_scan. rewrite E1, E2. change (String a (l +:+ String "." r)) with (String a l +:+ String "." r).
  rewrite (scan_run (String a l) _ scan0 v Hv). cbn [scan_digits Ascii.eqb Bool.eqb andb sc_frac sc_value sc_count sc_dp sc_prev sc_inval scan0].
  rewrite <-(append_nil_r r) at 1. set (st1 := mkScan v _ _ _ _ _). rewrite (scan_run r "" st1 q Hp).
  cbn [scan_digits sc_inval sc_prev sc_count sc_dp sc_value st1 is_sep_prev orb].
  assert (is_sep_prev (match r with EmptyString => PrevOther | _ => PrevDigit end) = false) as -> by by destruct r.
  set (c := 0 + Z.of_nat (String.length (String a l))).
  assert (0 < c) by (unfold c; cbn [String.length]; lia).
  rewrite (proj2 (Z.eqb_neq (c + Z.of_nat (String.length r)) 0)) by lia. do 3 f_equal. f_equal. lia.
Qed.

Lemma nat_scan_digits l q :
  l ≠ "" → all_digits l = true → parse_digits 0 l = Some q →
  nat_scan true l = Some (q, 10, Z.of_nat (String.length l), "").
Proof.
  intros Hl Hd Hv. destruct l as [|a l]; [done|]. pose proof Hd as Hd'. cbn [all_digits] in Hd'.
  apply andb_true_iff in Hd' as [Ha Hl'].
  destruct (scan_prefix_digits a l Ha) as (st & rest & E1 & E2).
  { destruct l as [|b l]; [done|]. left. cbn [all_digits] in Hl'. by apply andb_true_iff in Hl' as [? _]. }
  unfold nat_scan. rewrite E1, E2. rewrite <-(append_nil_r (String a l)) at 1.
  rewrite (scan_run (String a l) "" scan0 q Hv). cbn [scan_digits sc_inval sc_prev sc_count sc_dp sc_value scan0 is_sep_prev orb].
  rewrite (proj2 (Z.eqb_neq _ 0)) by (cbn [String.length]; lia). done.
Qed.

Lemma scan_sign_digit a s : is_digit a = true → scan_sign (String a s) = (false, String a s).
Proof. destruct a as [[] [] [] [] [] [] [] []]; try done; by intros. Qed.

Lemma Rat_SetString_canonical q scale : 0 ≤ q → 0 ≤ scale ≤ 1000000 →
  let s := formatScaled q scale in
  TrimSpace s = s ∧ s ≠ "" ∧
  ∃ r, Rat_SetString s = Some r ∧ 0 ≤ Rat.Num r ∧ 0 < Rat.Denom r ∧ Rat.Num r * 10 ^ scale = q * Rat.Denom r.
Proof.
  intros Hq Hs s.
  assert (∃ a t fc, s = String a t ∧ is_digit a = true ∧ no_space s = true ∧ split_slash s = None ∧
    nat_scan true s = Some (q, 10, fc, "") ∧ (if fc <? 0 then fc else 0) = - scale) as (a & t & fc & Es & Ha & Hsp & Hsl & Hn & Hfc).
  { unfold s. destruct (decide (scale = 0)) as [->|].
    - unfold formatScaled. cbn [Z.eqb]. destruct (itoa_shape q) as [(n & -> & E)|(n & Hn & E)].
      + rewrite E. destruct (pretty_N_parse n) as (Hp & Hd & Hne).
        assert (parse_digits 0 (pretty n) = Some (Z.of_N n)) as Hp'
          by (revert Hp; unfold parse_unsigned; by destruct (pretty n)).
        pose proof (nat_scan_digits _ _ Hne Hd Hp') as Hscan. pose proof (no_slash_digits _ Hd "") as Hsl.
        rewrite append_nil_r in Hsl. pose proof (all_digits_no_space _ Hd) as Hsp.
        destruct (pretty n) as [|a t]; [done|]. exists a, t. eexists. split_and!; [done| |done|done|exact Hscan|].
        * cbn [all_digits] in Hd. by apply andb_true_iff in Hd as [? _].
        * by destruct (Z.ltb_spec (Z.of_nat (String.length (String a t))) 0); [lia|].
      + assert (n = 0%N) as -> by lia. subst q. discriminate E.
    - destruct (formatScaled_shape q scale Hq ltac:(lia)) as (l & r & -> & Hl & Hd & Hp & Hlen).
      pose proof (nat_scan_decimal l r q Hl Hd Hp) as Hscan. rewrite all_digits_append in Hd.
      apply andb_true_iff in Hd as [Hdl Hdr].
      assert (no_space (l +:+ String "." r) = true) as Hsp.
      { rewrite no_space_append. cbn [no_space]. by rewrite (all_digits_no_space l Hdl), (all_digits_no_space r Hdr). }
      assert (split_slash (l +:+ String "." r) = None) as Hsl.
      { rewrite (no_slash_digits l Hdl). cbn [split_slash Ascii.eqb Bool.eqb].
        pose proof (no_slash_digits r Hdr "") as E. rewrite append_nil_r in E. by rewrite E. }
      destruct l as [|a l]; [done|]. exists a, (l +:+ String "." r). eexists.
      split_and!; [done| |done|done|exact Hscan|].
      + cbn [all_digits] in Hdl. by apply andb_true_iff in Hdl as [? _].
      + destruct (Z.ltb_spec (- Z.of_nat (String.length r)) 0); lia. }
  split_and!; [by apply TrimSpace_no_space|by rewrite Es|].
  unfold Rat_SetString. rewrite Hsl. rewrite (proj2 (String.eqb_neq s "")) by (by rewrite Es).
  rewrite Es, (scan_sign_digit a t Ha), <-Es, Hn. cbn [mbind option_bind scan_exponent].
  rewrite Hfc. cbn [String.eqb negb Z.eqb Pos.eqb]. rewrite Z.add_0_r.
  pose proof (Z.pow_pos_nonneg 10 scale ltac:(lia) ltac:(lia)) as Hp10.
  destruct (Z.eqb_spec q 0) as [->|Hq0]; [eexists; split; [done|]; cbn; lia|].
  rewrite (proj2 (Z.ltb_ge 1000000 (Z.abs (- scale)))), (proj2 (Z.ltb_ge 10000000 (Z.abs (- scale)))) by lia.
  cbn [orb]. unfold scale_by. cbn [fst snd].
  assert (10 ^ scale = 5 ^ scale * 2 ^ scale) as H10 by (rewrite <-Z.pow_mul_l; done).
  destruct (Z.ltb_spec (- scale) 0).
  - cbn [fst snd]. rewrite !Z.opp_involutive. eexists. split; [done|].
    assert (0 < 1 * 5 ^ scale * 2 ^ scale) as Hd by (rewrite Z.mul_1_l, <-H10; done).
    destruct (norm_pos q _ Hd) as [Hd' He]. set (rr := Rat.norm _ _) in *.
    rewrite Z.mul_1_l, <-H10 in He. split_and!; [|done|done]. nia.
  - assert (scale = 0) as -> by lia. cbn [fst snd Z.opp Z.pow]. rewrite !Z.mul_1_r. eexists. split; [done|].
    destruct (norm_pos q 1 ltac:(lia)) as [Hd' He]. set (rr := Rat.norm _ _) in *.
    split_and!; [|done|]; nia.
Qed.

Lemma normalizeDecimal_exact value scale q r :
  0 ≤ scale → TrimSpace value ≠ "" → Rat_SetString (TrimSpace value) = Some r → 0 ≤ Rat.Num r →
  Rat.Num r * 10 ^ scale = q * Rat.Denom r → normalizeDecimal value scale = Some (q, formatScaled q scale).
Proof.
  intros Hs Hne Hr Hn Hq.
  destruct (normalizeDecimal value scale) as [[q' text]|] eqn:E.
  - apply normalizeDecimal_nearest in E as (-> & _ & r' & Hr' & Hd & _ & Hlo & Hhi); [|done].
    rewrite Hr in Hr'. injection Hr' as <-. assert (q' = q) as -> by nia. done.
  - exfalso. revert E. unfold normalizeDecimal. rewrite (proj2 (String.eqb_neq _ _) Hne), Hr. cbn.
    by destruct (Z.ltb_spec (Rat.Num r) 0); [lia|].
Qed.

(** ** Attestations *)

Lemma length_map_byte n f s : String.length (map_byte_at n f s) = String.length s.
Proof. revert s. induction n as [|n IH]; intros [|a s]; cbn; try done. by rewrite IH. Qed.

(** The last byte of a signature: the recovery identifier. *)
Fixpoint byte_at (n : nat) (s : string) : option ascii :=
  match n, s with
  | O, String a _ => Some a
  | S n, String _ s => byte_at n s
  | _, EmptyString => None
  end.

Lemma lower_raise n s a : byte_at n s = Some a → (N_of_ascii a < 27)%N →
  map_byte_at n lower_v (map_byte_at n raise_v s) = s.
Proof.
  revert s. induction n as [|n IH]; intros [|b s]; cbn [byte_at map_byte_at]; try done.
  - intros [= <-] Hb. f_equal. unfold lower_v, raise_v.
    rewrite N.mod_small, N_ascii_embedding by lia. rewrite (proj2 (N.leb_le 27 _)) by lia.
    rewrite N.add_sub. apply ascii_N_embedding.
  - intros Hb Ha. f_equal. by apply IH.
Qed.

Lemma FromHex_Encode s : String.length s = 65%nat → FromHex (EncodeToString s) = s.
Proof.
  intros Hl.
  assert (∀ s, hex_prefix_bytes (EncodeToString s) = s) as Hp.
  { clear. intros s. induction s as [|b s IH]; [done|]. cbn [EncodeToString hex_prefix_bytes].
    destruct (hex_byte b) as (-> & -> & E). by rewrite IH, E. }
  unfold FromHex.
  assert ((match EncodeToString s with
    | String a (String b s') => if Ascii.eqb a "0" && (Ascii.eqb b "x" || Ascii.eqb b "X") then s' else EncodeToString s
    | _ => EncodeToString s end) = EncodeToString s) as ->.
  { destruct s as [|b s]; [done|]. cbn [EncodeToString].
    destruct b as [[] [] [] [] [] [] [] []]; reflexivity. }
  rewrite length_EncodeToString, Hl. cbn [Nat.mul Nat.odd Nat.even Nat.add negb]. apply Hp.
Qed.

Section attest.
Context {PrivateKey PublicKey Address : Type} `{!EqDecision Address}.
Context (Keccak256 : string → string) (Sign : string → PrivateKey → option string).
Context (SigToPub : string → string → option PublicKey).
Context (Public : PrivateKey → PublicKey) (PubkeyToAddress : PublicKey → Address) (Hex : Address → string).

(** What go-ethereum documents of [crypto.Sign]: 65 bytes, the last one 0 or 1, from which
    [SigToPub] recovers the key. *)
Definition signature_law : Prop := ∀ h k sig, Sign h k = Some sig →
  String.length sig = 65%nat ∧ SigToPub h sig = Some (Public k) ∧
  ∃ v, byte_at 64 sig = Some v ∧ (N_of_ascii v ≤ 1)%N.

(** An attestation the oracle builds verifies: the signer recovered from it is the
    signer, and it is accepted by everybody who trusts the signer and by nobody else.  The
    fields are already in the form that is signed. *)
Theorem attestation_round_trip pair price ts provider k att trusted :
  signature_law →
  BuildOracleAttestation Keccak256 Sign Public PubkeyToAddress Hex pair price ts provider (Some k) = Ok att →
  let address := PubkeyToAddress (Public k) in
  RecoverAttestationSigner Keccak256 SigToPub PubkeyToAddress (Some att) = Ok address ∧
  (VerifyOracleAttestation Keccak256 SigToPub PubkeyToAddress Hex (Some att) trusted = None ↔ address ∈ trusted) ∧
  EvidenceAttestation.AssetPair att = normalize_upper pair ∧ EvidenceAttestation.Price att = TrimSpace price ∧
  EvidenceAttestation.Timestamp att = ts ∧ EvidenceAttestation.Provider att = normalize_upper provider.
Proof.
  intros Hlaw H address. revert H. unfold BuildOracleAttestation. cbv zeta.
  destruct (_ || _) eqn:Eg; [done|].
  destruct (Sign _ k) as [sig|] eqn:Es; [|done]. destruct (Hlaw _ _ _ Es) as (Hlen & Hpub & v & Hv & Hsmall).
  rewrite Hlen. cbn [Nat.eqb]. set (sig' := map_byte_at 64 raise_v sig). intros [= <-].
  assert (RecoverAttestationSigner Keccak256 SigToPub PubkeyToAddress (Some (EvidenceAttestation.mk AttestationVersion
    (normalize_upper pair) (TrimSpace price) ts (normalize_upper provider) (EncodeToString sig')
    (ToLower (Hex address)))) = Ok address) as Hrec.
  { unfold RecoverAttestationSigner.
    cbn [EvidenceAttestation.Signature EvidenceAttestation.AssetPair EvidenceAttestation.Price
      EvidenceAttestation.Timestamp EvidenceAttestation.Provider].
    assert (String.length sig' = 65%nat) as Hlen' by (unfold sig'; by rewrite length_map_byte).
    rewrite (FromHex_Encode sig' Hlen'), Hlen'. cbn [Nat.eqb negb]. cbv zeta.
    rewrite !normalize_upper_idem, TrimSpace_idem. unfold sig'. rewrite (lower_raise 64 sig v Hv) by lia.
    by rewrite Hpub. }
  fold address. split; [exact Hrec|]. split; [|done]. unfold VerifyOracleAttestation. rewrite Hrec.
  cbn [EvidenceAttestation.Version EvidenceAttestation.Signature EvidenceAttestation.AssetPair EvidenceAttestation.Price
    EvidenceAttestation.Timestamp EvidenceAttestation.Provider]. rewrite Eg.
  assert (String.eqb (EncodeToString sig') "" = false) as ->.
  { apply String.eqb_neq. intros E%(f_equal String.length). rewrite length_EncodeToString in E.
    unfold sig' in E. rewrite length_map_byte, Hlen in E. done. }
  cbn [negb Z.eqb Pos.eqb AttestationVersion]. case_bool_decide; naive_solver.
Qed.
End attest.

(** ** Prices *)

(** C35: a price is read exactly: the scaled value is the number the text denotes rounded to
    the nearest unit of the scale, a tie upwards, and the canonical text that is stored and
    signed reads back as the very same value and text. *)
Theorem oracle_price_round_trip value scale q text :
  0 ≤ scale ≤ 18 → normalizeDecimal value scale = Some (q, text) →
  normalizeDecimal text scale = Some (q, text) ∧
  ∃ r, Rat_SetString (TrimSpace value) = Some r ∧ 0 < Rat.Denom r ∧
    (2 * q - 1) * Rat.Denom r ≤ 2 * (Rat.Num r * 10 ^ scale) < (2 * q + 1) * Rat.Denom r.
Proof.
  intros Hs H. apply normalizeDecimal_nearest in H as (-> & Hq & r & Hr & Hd & _ & Hn); [|lia]. split; [|by exists r].
  destruct (Rat_SetString_canonical q scale Hq ltac:(lia)) as (Ht & Hne & r' & Hr' & Hn' & _ & Hq').
  apply (normalizeDecimal_exact _ _ _ r'); rewrite ?Ht; done || lia.
Qed.

(** ** Witnesses *)

Lemma oracle_price_round_trip_witness :
  normalizeDecimal "100000.125" 2 = Some (10000013, "100000.13") ∧
  normalizeDecimal "100000.13" 2 = Some (10000013, "100000.13").
Proof.
  assert (normalizeDecimal "100000.125" 2 = Some (10000013, "100000.13")) as E by (vm_compute; reflexivity).
  split; [exact E|]. apply (oracle_price_round_trip "100000.125" 2 10000013 "100000.13"); [lia|exact E].
Defined.

(** A toy scheme: the signature repeats the key, whose first byte recovers it. *)
Definition toy_sign (h : string) (k : ascii) : option string :=
  Some (String k (repeat_zero 63 +:+ String "000" "")).
Definition toy_recover (h sig : string) : option ascii := byte_at 0 sig.

Lemma toy_law : signature_law toy_sign toy_recover id.
Proof. intros h k sig [= <-]. split_and!; [done..|]. by exists "000"%char. Qed.

Definition toy_attestation : result string EvidenceAttestation.t :=
  BuildOracleAttestation id toy_sign id id (λ a, String a "") " btcusdt" "100000.13" 1700000000 "binance" (Some "k"%char).

Lemma attestation_round_trip_witness :
  ∃ att, toy_attestation = Ok att ∧
    VerifyOracleAttestation id toy_recover id (λ a, String a "") (Some att) ["k"%char] = None ∧
    EvidenceAttestation.AssetPair att = "BTCUSDT".
Proof.
  destruct toy_attestation as [att|e] eqn:E; [|vm_compute in E; discriminate E].
  exists att. split; [reflexivity|].
  pose proof (attestation_round_trip id toy_sign toy_recover id id (λ a, String a "")
    " btcusdt" "100000.13" 1700000000 "binance" "k"%char att ["k"%char] toy_law E) as (_ & Hv & Hp & _).
  split; [apply Hv; by left|]. rewrite Hp. vm_compute. reflexivity.
Defined.
