(* ===== verification/OracleRuns.v ===== *)
(** * Oracle: what the worker announces, and what the settlement makes of it

    Reachable states of the worker over the SQL store, with other services writing to the
    same tables, failing connections and an arbitrary broker. *)

From Stdlib Require Import Ascii.
From stdpp Require Import sorting.
From S2P Require Import Prelude Strings Shared Messages.
From S2P Require Import RollupJournal RollupState MatchStore Settlement SettlementSql Oracle OracleWorker.
From S2P Require Import SettlementProps SettlementSqlProps.

Local Open Scope Z_scope.
Local Open Scope go_scope.

Section oracle.
Context {P V : Type} `{!Publisher P, !PublisherLog P, !PriceProvider V}.
Context `{!JSON (gmap string string), !JSON ResolutionMetadata.t, !JSON (list marketOption.t)}.
Context `{!JSON Evidence.t, !JSON StoredEvidence.t}.
Context (attest : option (string → string → Z → string → result string EvidenceAttestation.t)).
Context (jsonb : string → string) (mode_of : string → option string).
(** What the provider answers for: the observations it returns are genuine. *)
Context (genuine : Contract.t → Observation.t → Prop).
Definition provider_law : Prop := ∀ (v : V) c obs, (Observe v c).2 = (Some obs, None) → genuine c obs.

#[local] Instance osql : MarketStore OracleStore := oracle_sql jsonb mode_of.
Notation worker := (Worker OracleStore P V).

(** ** Justified outcomes *)

(** The contract of a market, as every poll parses it. *)
Definition contract_of (i : MarketInfo.t) : option Contract.t :=
  match MarketInfo.category_key i,
        optionKeysFromSchema (normalizeJSONRaw (default "[]" (MarketInfo.option_schema i))) with
  | Some category, Some keys =>
      match ParseContract category keys (MarketInfo.resolve_at i) (normalizeJSONRaw (MarketInfo.metadata i)) with
      | (Some c, true, None) => Some c
      | _ => None
      end
  | _, _ => None
  end.

(** A genuine observation, in the window of the contract and fresh enough when fetched. *)
Definition in_window (resolveAt : Z) (c : Contract.t) (obs : Observation.t) : Prop :=
  resolveAt ⊟ ResolutionWindow.BeforeSec (Contract.Window c) ≤ Observation.EffectiveAt obs ≤
    resolveAt ⊞ ResolutionWindow.AfterSec (Contract.Window c) ∧
  Observation.FetchedAt obs ⊟ Observation.EffectiveAt obs ≤ ResolutionPriceConfig.MaxDataAgeSec (Contract.Price c).

Definition justified (info : gmap Z MarketInfo.t) (m : Z) (outcome : string) : Prop :=
  ∃ i c obs, info !! m = Some i ∧ contract_of i = Some c ∧ genuine c obs ∧
    in_window (MarketInfo.resolve_at i) c obs ∧ ResolveOutcome c (Observation.ObservedScaled obs) = Ok outcome.

Lemma timing_ok resolveAt c obs : validateObservationTiming resolveAt c obs = "" → in_window resolveAt c obs.
Proof.
  unfold validateObservationTiming, in_window. cbv zeta.
  destruct (Z.ltb_spec (Observation.EffectiveAt obs) (resolveAt ⊟ ResolutionWindow.BeforeSec (Contract.Window c)));
    [done|]. cbn [orb].
  destruct (Z.ltb_spec (resolveAt ⊞ ResolutionWindow.AfterSec (Contract.Window c)) (Observation.EffectiveAt obs)); [done|].
  destruct (Z.ltb_spec (ResolutionPriceConfig.MaxDataAgeSec (Contract.Price c))
    (Observation.FetchedAt obs ⊟ Observation.EffectiveAt obs)); [done|]. lia.
Qed.

Lemma yes_or_no c x o : ResolveOutcome c x = Ok o → o = "YES" ∨ o = "NO".
Proof.
  unfold ResolveOutcome. destruct x, (Contract.ThresholdScaled c); try done. cbv zeta.
  repeat (destruct (String.eqb _ _); [destruct (_ : bool); intros [= <-]; auto|]). done.
Qed.

Lemma justified_normal info m o : justified info m o → normalize_upper o = o ∧ o ≠ "".
Proof. intros (i & c & obs & _ & _ & _ & _ & [-> | ->]%yes_or_no); done. Qed.

(** ** The invariant *)

Definition observed_ok (s : OracleStore) : Prop :=
  ∀ m r created updated, t_resolutions (odb s) !! m = Some (r, created, updated) →
    resolutionRecord.Status r = "OBSERVED" → justified (oinfo s) m (resolutionRecord.ResolvedOutcome r).

Definition announced (w : worker) : list MarketEvent.t :=
  omap (λ x : BatchItem, match x.2 with PayloadMarket e => Some e | _ => None end) (published (wpublisher w)).

Definition event_good (info : gmap Z MarketInfo.t) (e : MarketEvent.t) : Prop :=
  MarketEvent.Status e = "RESOLVED" ∧ justified info (MarketEvent.MarketID e) (MarketEvent.ResolvedOutcome e).

Definition worker_ok (info : gmap Z MarketInfo.t) (w : worker) : Prop :=
  oinfo (wstore w) = info ∧ observed_ok (wstore w) ∧ Forall (event_good info) (announced w).

(** A market as a poll lists it. *)
Definition market_ok (info : gmap Z MarketInfo.t) (market : EligibleMarket.t) : Prop :=
  (∃ i, info !! EligibleMarket.MarketID market = Some i ∧
     EligibleMarket.ResolveAt market = MarketInfo.resolve_at i ∧
     Some (EligibleMarket.CategoryKey market) = MarketInfo.category_key i ∧
     EligibleMarket.Metadata market = normalizeJSONRaw (MarketInfo.metadata i) ∧
     EligibleMarket.OptionSchema market = normalizeJSONRaw (default "[]" (MarketInfo.option_schema i))) ∧
  (normalize_upper (EligibleMarket.ResolutionStatus market) = "OBSERVED" →
   justified info (EligibleMarket.MarketID market) (EligibleMarket.ResolvedOutcome market)).

Lemma eligible_ok now s mrow market :
  observed_ok s → eligible mode_of now s mrow = Some market → market_ok (oinfo s) market.
Proof.
  intros Hs. destruct mrow as [m row]. cbn [eligible]. destruct (oinfo s !! m) as [i|] eqn:Ei; [|done]. cbn [mbind option_bind].
  destruct (MarketInfo.category_key i) as [cat|] eqn:Ec; [|done]. cbn [mbind option_bind].
  destruct (_ && _) eqn:Eg; [|done]. intros [= <-]. split.
  - exists i. by split_and!.
  - cbn [EligibleMarket.ResolutionStatus eligible_row EligibleMarket.MarketID EligibleMarket.ResolvedOutcome].
    destruct (t_resolutions (odb s) !! m) as [[[r cr] up]|] eqn:Er; [|done].
    apply andb_true_iff in Eg as [_ Eo]. cbn [open_status] in Eo. apply bool_decide_eq_true in Eo.
    intros Hn. apply (Hs m r cr up Er).
    repeat (apply elem_of_cons in Eo as [E|Eo]; [rewrite E in Hn; try discriminate Hn; exact E|]). set_solver.
Qed.

Lemma list_ok now limit s : observed_ok s → Forall (market_ok (oinfo s)) (eligible_markets mode_of now limit s).
Proof.
  intros Hs. unfold eligible_markets. apply Forall_take. rewrite merge_sort_Permutation.
  apply Forall_forall. intros x (mrow & _ & Hx)%list_elem_of_omap. by eapply eligible_ok.
Qed.

(** ** Writing *)

Definition may_write (info : gmap Z MarketInfo.t) (u : ResolutionUpdate.t) : Prop :=
  ResolutionUpdate.Status u = "OBSERVED" →
  justified info (ResolutionUpdate.MarketID u) (ResolutionUpdate.ResolvedOutcome u).

Lemma oracle_call_cases {A} s (k : SettleDB → SettleDB * result string A) s' r :
  oracle_call s k = (s', r) →
  oinfo s' = oinfo s ∧ (odb s' = odb s ∨ (odb s', r) = k (odb s)).
Proof.
  unfold oracle_call. destruct (tx_fail _ _); [intros [= <- <-]; auto|].
  destruct (k (odb s)) as [d r'] eqn:E. intros [= <- <-]. cbn. auto.
Qed.

Lemma upsert_ok info (w w' : worker) u err :
  worker_ok info w → may_write info u → upsert w u = (w', err) →
  worker_ok info w' ∧ wpublisher w' = wpublisher w.
Proof.
  intros (Hi & Ho & Hl) Hu. unfold upsert, UpsertResolution, osql, oracle_sql.
  destruct (oracle_call _ _) as [s' r] eqn:E. intros [= <- _]. split; [|done].
  apply oracle_call_cases in E as [Hi' E]. unfold worker_ok. cbn [wstore set_wstore].
  split_and!; [congruence| |exact Hl]. unfold observed_ok. rewrite Hi', Hi.
  destruct E as [Ed|E]; [rewrite Ed; unfold observed_ok in Ho; by rewrite Hi in Ho|].
  unfold upsert_resolution in E. unfold observed_ok in Ho. rewrite Hi in Ho.
  destruct (t_resolutions (odb (wstore w)) !! ResolutionUpdate.MarketID u) as [[[r0 c0] u0]|] eqn:Er.
  - injection E as -> _. cbn [t_resolutions set_t_resolutions]. intros m r1 c1 u1.
    intros [[<- [= <- <- <-]]|[_ Hold]]%lookup_insert_Some; [exact Hu|by eapply Ho].
  - case_bool_decide; injection E as -> _; [exact Ho|]. cbn [t_resolutions set_t_resolutions]. intros m r1 c1 u1.
    intros [[<- [= <- <- <-]]|[_ Hold]]%lookup_insert_Some; [exact Hu|by eapply Ho].
Qed.

Lemma worker_ok_same info (w w' : worker) :
  wstore w' = wstore w → announced w' = announced w → worker_ok info w → worker_ok info w'.
Proof. unfold worker_ok. by intros -> ->. Qed.

Lemma publish_resolved_ok info r m o (w w' : worker) err :
  worker_ok info w → justified info m o → publishResolvedEvent r m o w = (w', err) → worker_ok info w'.
Proof.
  intros (Hi & Ho & Hl) Hj. unfold publishResolvedEvent. destruct (PublishJSON _ _ _ _) as [p e] eqn:E.
  intros [= <- _]. split_and!; [done|done|]. unfold announced. cbn [wpublisher set_wpublisher].
  assert (published p = published (wpublisher w) ∨ published p = published (wpublisher w) ++
    [(TopicMarketEvent, itoa m, PayloadMarket (resolved_event r m o))]) as [->| ->]; [|exact Hl|].
  { destruct e; [by eapply publish_err|right; by eapply publish_ok]. }
  rewrite omap_app. apply Forall_app. split; [exact Hl|]. constructor; [|done]. split; [done|].
  cbn [resolved_event MarketEvent.MarketID MarketEvent.ResolvedOutcome]. by rewrite (proj1 (justified_normal _ _ _ Hj)).
Qed.

Lemma dispatch_ok info r u (w w' : worker) err :
  worker_ok info w → justified info (ResolutionUpdate.MarketID u) (ResolutionUpdate.ResolvedOutcome u) →
  dispatchObservedResolution r u w = (w', err) → worker_ok info w'.
Proof.
  intros Hw Hj. unfold dispatchObservedResolution. destruct (publishResolvedEvent _ _ _ _) as [w1 e1] eqn:E1.
  apply (publish_resolved_ok info) in E1; [|done|done].
  assert (∀ t, may_write info (with_evidence u t)) as Hm by (intros t _; exact Hj).
  destruct e1 as [e|].
  - destruct (upsert w1 _) as [w2 e2] eqn:E2. apply (upsert_ok info) in E2 as [? _]; [|done|done].
    by destruct e2; intros [= <- _].
  - intros E2. by apply (upsert_ok info) in E2 as [? _].
Qed.

Lemma terminal_ok info r market c code (w w' : worker) err :
  worker_ok info w → writeTerminalResolution r market c code w = (w', err) → worker_ok info w'.
Proof. intros Hw E. apply (upsert_ok info) in E as [? _]; [done|done|]. by intros [=]. Qed.

Lemma error_ok info r now market c e (w w' : worker) err :
  worker_ok info w → writeObservationError r now market c e w = (w', err) → worker_ok info w'.
Proof.
  intros Hw. unfold writeObservationError. cbv zeta. destruct (_ && _); intros E;
    (apply (upsert_ok info) in E as [? _]; [done|done|]; by intros [=]).
Qed.

Lemma settle_observation_ok info r now market i c answer (w w' : worker) err :
  worker_ok info w → info !! EligibleMarket.MarketID market = Some i → contract_of i = Some c →
  EligibleMarket.ResolveAt market = MarketInfo.resolve_at i →
  (∀ obs, answer = (Some obs, None) → genuine c obs) →
  settle_observation attest r now market c answer w = (w', err) → worker_ok info w'.
Proof.
  intros Hw Hi Hc Hra Hg. destruct answer as [[obs|] [e|]]; cbn [settle_observation];
    try (intros E; by eapply error_ok in E).
  destruct (String.eqb_spec (validateObservationTiming (EligibleMarket.ResolveAt market) c obs) "") as [Ht|Ht];
    cbn [negb]; [|intros E; by eapply error_ok in E].
  destruct (ResolveOutcome c (Observation.ObservedScaled obs)) as [o|] eqn:Eo; [|intros E; by eapply terminal_ok in E].
  assert (justified info (EligibleMarket.MarketID market) o) as Hj.
  { exists i, c, obs. split_and!; [done|done|by apply Hg|rewrite <-Hra; by apply timing_ok|done]. }
  destruct (upsert w _) as [w1 e1] eqn:E1. apply (upsert_ok info) in E1 as [Hw1 _]; [|done|by intros _].
  destruct e1; [by intros [= <- _]|]. intros E. by apply (dispatch_ok info) in E.
Qed.

Lemma process_ok info r now market (w w' : worker) err :
  provider_law → worker_ok info w → market_ok info market →
  processMarket attest r now market w = (w', err) → worker_ok info w'.
Proof.
  intros Hlaw Hw ((i & Hi & Hra & Hcat & Hmeta & Hschema) & Hobs). unfold processMarket.
  destruct (optionKeysFromSchema (EligibleMarket.OptionSchema market)) as [keys|] eqn:Ek;
    [|intros E; by eapply terminal_ok in E].
  destruct (ParseContract _ keys _ _) as [[contract oracle] perr] eqn:Ep.
  destruct perr; [destruct oracle, contract; intros E; by eapply terminal_ok in E|].
  destruct oracle; [|by destruct contract; intros [= <- _]]. destruct contract as [c|]; [|by intros [= <- _]].
  assert (contract_of i = Some c) as Hc.
  { unfold contract_of. rewrite <-Hcat, <-Hschema, Ek, <-Hra, <-Hmeta, Ep. done. }
  cbv zeta. destruct (String.eqb_spec (normalize_upper (EligibleMarket.ResolutionStatus market)) "RESOLVED").
  { destruct (own_resolution _ _); [by intros [= <- _]|]. intros E. by eapply terminal_ok in E. }
  destruct (String.eqb_spec (normalize_upper (EligibleMarket.ResolutionStatus market)) "OBSERVED") as [Hst|_].
  { destruct (own_resolution _ _); [|intros E; by eapply terminal_ok in E]. unfold dispatch_again.
    destruct (negb _); [by intros [= <- _]|]. pose proof (Hobs Hst) as Hj. intros E.
    apply (dispatch_ok info) in E; [done|done|]. cbn [ResolutionUpdate.MarketID ResolutionUpdate.ResolvedOutcome].
    by rewrite (proj1 (justified_normal _ _ _ Hj)). }
  destruct (Observe (wprovider w) c) as [v answer] eqn:Eo. intros E.
  eapply settle_observation_ok in E; [exact E|by eapply worker_ok_same|done..|].
  intros obs ->. apply (Hlaw (wprovider w)). by rewrite Eo.
Qed.

Lemma process_all_ok info readings now i markets (w w' : worker) err :
  provider_law → worker_ok info w → Forall (market_ok info) markets →
  process_all attest readings now i markets w = (w', err) → worker_ok info w'.
Proof.
  intros Hlaw Hw Hm. revert i w Hw. induction Hm as [|market markets H1 _ IH]; intros i w Hw; cbn [process_all];
    [by intros [= <- _]|].
  destruct (processMarket _ _ _ _ _) as [w1 e1] eqn:E1. apply (process_ok info) in E1; [|done..].
  destruct e1; [by intros [= <- _]|]. by apply IH.
Qed.

(** ** Reachable states *)

(** Other services change what they like, but write only resolutions that are final. *)
Definition others_resolve (d d' : SettleDB) : Prop :=
  ∀ m, t_resolutions d' !! m = t_resolutions d !! m ∨
    ∃ r created updated, t_resolutions d' !! m = Some (r, created, updated) ∧ resolutionRecord.Status r = "RESOLVED".

Inductive oracle_step : worker → worker → Prop :=
| oracle_poll readings now w : oracle_step w (pollOnce attest readings now w).1
| oracle_others d w : others_resolve (odb (wstore w)) d →
    oracle_step w (set_wstore w (set_odb (wstore w) d)).

Inductive oracle_reach (info : gmap Z MarketInfo.t) : worker → Prop :=
| oracle_reach_new s v p interval :
    oinfo s = info → t_resolutions (odb s) = ∅ → published p = [] → oracle_reach info (NewWorker s v p interval)
| oracle_reach_step w w' : oracle_reach info w → oracle_step w w' → oracle_reach info w'.

Lemma poll_ok info readings now (w w' : worker) err :
  provider_law → worker_ok info w → pollOnce attest readings now w = (w', err) → worker_ok info w'.
Proof.
  intros Hlaw Hw. unfold pollOnce, OracleFrozen, ListEligibleMarkets, osql, oracle_sql.
  destruct (oracle_call (wstore w) _) as [s1 r1] eqn:E1.
  assert (worker_ok info (set_wstore w s1)) as Hw1.
  { apply oracle_call_cases in E1 as [Hi E]. destruct Hw as (Hi0 & Ho & Hl). split_and!; [cbn; congruence| |done].
    unfold observed_ok. cbn [wstore set_wstore]. rewrite Hi.
    assert (odb s1 = odb (wstore w)) as -> by (destruct E as [?|[= -> _]]; done). exact Ho. }
  destruct r1 as [[]|e]; [by intros [= <- _]| |by intros [= <- _]].
  destruct (oracle_call (wstore (set_wstore w s1)) _) as [s2 r2] eqn:E2. cbn [wstore set_wstore] in E2.
  assert (worker_ok info (set_wstore (set_wstore w s1) s2) ∧
    (∀ ms, r2 = Ok ms → Forall (market_ok info) ms)) as [Hw2 Hms].
  { destruct Hw1 as (Hi1 & Ho & Hl). cbn [wstore set_wstore] in *.
    assert (oinfo s2 = info ∧ odb s2 = odb s1 ∧ (∀ ms, r2 = Ok ms →
      ms = eligible_markets mode_of now (batchSize (set_wstore w s1)) s1)) as (Hi2 & Ed & Hr).
    { revert E2. unfold oracle_call. destruct (tx_fail _ _); intros [= <- <-]; cbn; (split_and!; [done|done|]); [done|].
      by intros ms [= <-]. }
    split.
    - split_and!; [done| |done]. unfold observed_ok. cbn [wstore set_wstore]. rewrite Ed, Hi2, <-Hi1. exact Ho.
    - intros ms ->%Hr. rewrite <-Hi1. by apply list_ok. }
  destruct r2 as [ms|e]; [|by intros [= <- _]]. intros E. eapply process_all_ok in E; [exact E|done..|by apply Hms].
Qed.

Lemma oracle_reach_ok info w : provider_law → oracle_reach info w → worker_ok info w.
Proof.
  intros Hlaw. induction 1 as [s v p interval Hi Hr Hp|w w' _ IH Hs].
  - split_and!; [done| |].
    + intros m r c u. cbn [wstore NewWorker]. rewrite Hr. by rewrite lookup_empty.
    + unfold announced. cbn [wpublisher NewWorker]. rewrite Hp. constructor.
  - destruct Hs as [readings now w|d w Ho].
    + destruct (pollOnce attest readings now w) as [w' err] eqn:E. by eapply poll_ok in E.
    + destruct IH as (Hi & Hob & Hl). split_and!; [done| |done]. intros m r c u. cbn [wstore set_wstore set_odb odb oinfo].
      intros Er Est. destruct (Ho m) as [E|(r' & c' & u' & E & Hst)]; pose proof (eq_trans (eq_sym E) Er) as Er'.
      * by eapply Hob.
      * injection Er' as -> _ _. congruence.
Qed.

(** C33: every resolution the oracle announces is justified.  Whatever the database, the
    broker and the other services do, an announced outcome comes from a genuine observation
    of the market's own contract, made inside the contract's window around the resolution
    time and not older than it allows, and is YES or NO as the contract's rule says of the
    observed price. *)
Theorem oracle_outcomes_justified info w :
  provider_law → oracle_reach info w →
  Forall (λ e, MarketEvent.Status e = "RESOLVED" ∧
    justified info (MarketEvent.MarketID e) (MarketEvent.ResolvedOutcome e)) (announced w).
Proof. intros Hlaw (_ & _ & Hl)%oracle_reach_ok; [exact Hl|done]. Qed.
End oracle.

(** ** Evidence *)

Section evidence.
Context `{!JSON Evidence.t, !JSON StoredEvidence.t, !JSON evidenceEnvelope.t}.

Definition witness_of (a : EvidenceAttestation.t) : OracleAttestationWitness.t :=
  OracleAttestationWitness.mk (EvidenceAttestation.Version a) (EvidenceAttestation.AssetPair a)
    (EvidenceAttestation.Price a) (EvidenceAttestation.Timestamp a) (EvidenceAttestation.Provider a)
    (EvidenceAttestation.Signature a) (EvidenceAttestation.SignerAddress a).

(** The evidence with another text for the raw payload. *)
Definition with_raw (e : Evidence.t) (raw : string) : Evidence.t :=
  Evidence.mk (Evidence.Version e) (Evidence.ResolutionMode e) (Evidence.Source e) (Evidence.Rule e)
    (Evidence.Window e)
    ((λ o, EvidenceObservation.mk (EvidenceObservation.ObservationID o) (EvidenceObservation.FetchedAt o)
       (EvidenceObservation.EffectiveAt o) (EvidenceObservation.ObservedPrice o)
       (EvidenceObservation.ResolvedOutcome o) (EvidenceObservation.RawPayloadHash o) raw)
     <$> Evidence.Observation e)
    (Evidence.Attestation e) (Evidence.Retry e) (Evidence.Dispatch e).

(** A text that reads back as the evidence, whichever struct reads it; the raw payload may
    come back as another text of the same value. *)
Record denotes (t : string) (e : Evidence.t) : Prop := {
  de_trim : TrimSpace t = t;
  de_blank : t ≠ "" ∧ t ≠ "null";
  de_parse : ∃ raw, Unmarshal t = Some (with_raw e raw);
  de_stored : ∃ raw, Unmarshal t = Some (StoredEvidence.of_evidence (with_raw e raw));
  de_envelope : Unmarshal t = Some (evidenceEnvelope.mk (witness_of <$> Evidence.Attestation e));
}.

(** What [encoding/json] and a [JSONB] column keep of an encoded evidence. *)
Definition evidence_law (jsonb : string → string) : Prop :=
  (∀ e, denotes (Marshal e) e) ∧ (∀ t e, denotes t e → denotes (jsonb t) e).

Lemma denotes_blank t e : denotes t e → blank_json t = false ∧ normalizeResolutionEvidence t = t.
Proof.
  intros [Ht [H1 H2] _ _ _]. unfold blank_json, normalizeResolutionEvidence. rewrite Ht.
  by rewrite (proj2 (String.eqb_neq _ _) H1), (proj2 (String.eqb_neq _ _) H2).
Qed.

Lemma record_denotes jsonb now t e dispatched at_ msg :
  evidence_law jsonb → denotes t e →
  ∃ raw d, denotes (recordDispatchAttempt now t dispatched at_ msg) (set_Dispatch (with_raw e raw) d) ∧
    EvidenceDispatch.Status d = (if dispatched then DispatchStatusDispatched else DispatchStatusPending).
Proof.
  intros [Hm _] Hd. unfold recordDispatchAttempt, parseEvidence. rewrite (proj1 (denotes_blank _ _ Hd)), (de_trim _ _ Hd).
  destruct (de_parse _ _ Hd) as [raw ->]. exists raw. eexists. split; [apply Hm|]. by destruct dispatched.
Qed.

Lemma dispatched_final t e d : denotes t e → Evidence.Dispatch e = Some d →
  EvidenceDispatch.Status d = DispatchStatusDispatched → dispatchPending t = false.
Proof.
  intros Ht Hd Hs. unfold dispatchPending, parseStoredEvidence. rewrite (proj1 (denotes_blank _ _ Ht)), (de_trim _ _ Ht).
  destruct (de_stored _ _ Ht) as [raw ->]. cbn [StoredEvidence.of_evidence with_raw StoredEvidence.Dispatch Evidence.Dispatch].
  rewrite Hd. cbn [normalizeDispatchStatus]. by rewrite Hs.
Qed.

(** ** Finalising an observed resolution *)

Context (sha256 : string → string) `{!JSON MarketResolvedPayload.t}.

Definition signed (a : EvidenceAttestation.t) : Prop := EvidenceAttestation.Signature a ≠ "".

(** The payload of the journal entry for an observed resolution. *)
Definition oracle_payload (m : Z) (o ref t : string) (att : option EvidenceAttestation.t) (at_ : Z)
    : MarketResolvedPayload.t :=
  MarketResolvedPayload.mk m o "ORACLE_PRICE" (TrimSpace ref) (EncodeToString (sha256 t)) at_ (witness_of <$> att).

Lemma ensure_keeps s m s' r : settle_ensureMarket s m = (s', r) →
  with_rollup s' = with_rollup s ∧ t_resolutions (sdb s') = t_resolutions (sdb s) ∧
  t_journal (sdb s') = t_journal (sdb s).
Proof.
  intros (Hw & _ & _ & [(d & [] & _ & [= Hd] & Ed & _)|(e & Ed & _)])%settle_tx_cases; rewrite Ed; [|done].
  rewrite <-Hd. unfold insert_market. by destruct (t_markets (sdb s) !! m).
Qed.

Lemma preserved o ref t : normalize_upper o = o → o ≠ "" → t ≠ "" →
  finalizeResolutionRecord (resolutionRecord.mk "OBSERVED" o "ORACLE_PRICE" ref t) o =
  resolutionRecord.mk "RESOLVED" o "ORACLE_PRICE" ref t.
Proof.
  intros Ho Hne Ht. unfold finalizeResolutionRecord, shouldPreserveOracleOwnership, normalizeResolutionEvidence.
  cbn [resolutionRecord.Status resolutionRecord.ResolverType resolutionRecord.ResolvedOutcome
    resolutionRecord.ResolverRef resolutionRecord.Evidence].
  rewrite Ho, (proj2 (String.eqb_neq _ _) Hne), (proj2 (String.eqb_neq _ _) Ht), (String.eqb_refl o). reflexivity.
Qed.

Lemma attestation_extracted t e : denotes t e → (∀ a, Evidence.Attestation e = Some a → signed a) →
  extractOracleAttestation t = witness_of <$> Evidence.Attestation e.
Proof.
  intros Hd Hs. unfold extractOracleAttestation. rewrite (proj2 (String.eqb_neq _ _) (proj1 (de_blank _ _ Hd))).
  rewrite (de_envelope _ _ Hd). cbn [evidenceEnvelope.Attestation]. destruct (Evidence.Attestation e) as [a|]; [|done].
  cbn [fmap option_fmap option_map witness_of OracleAttestationWitness.Signature].
  by rewrite (proj2 (String.eqb_neq _ _) (Hs a eq_refl)).
Qed.

Lemma resolve_keeps_oracle s m o ref t e created updated at_ s' :
  t_resolutions (sdb s) !! m = Some (resolutionRecord.mk "OBSERVED" o "ORACLE_PRICE" ref t, created, updated) →
  normalize_upper o = o → o ≠ "" → 0 < at_ → denotes t e → (∀ a, Evidence.Attestation e = Some a → signed a) →
  sql_ResolveMarket sha256 s (ResolveMarketInput.mk m o at_) = (s', Ok true) →
  (∃ now, t_resolutions (sdb s') !! m =
     Some (resolutionRecord.mk "RESOLVED" o "ORACLE_PRICE" ref t, created, now)) ∧
  (with_rollup s = true →
   (EntryTypeMarketResolved, SourceTypeSettlementMarket, itoa m) ∉
     JournalEntry.source <$> entries (t_journal (sdb s)) →
   ∃ x, x ∈ entries (t_journal (sdb s')) ∧ resolved_row m x ∧
     JournalEntry.Payload x = OtherPayload (Marshal (oracle_payload m o ref t (Evidence.Attestation e) at_))).
Proof.
  intros Hr Ho Hne Hat Hd Hsig. unfold sql_ResolveMarket. cbn [ResolveMarketInput.MarketID].
  destruct (settle_ensureMarket s m) as [s1 r1] eqn:E1. apply ensure_keeps in E1 as (Hw & He & Hj).
  destruct r1 as [[]|]; [|done].
  intros (_ & _ & _ & [(d & b & _ & E & Ed & [= <-])|(x & _ & [=] & _)])%settle_tx_cases. rewrite Ed. clear Ed.
  revert E. unfold resolve_body. cbn [ResolveMarketInput.MarketID ResolveMarketInput.ResolvedOutcome].
  destruct (t_markets (sdb s1) !! m) as [row|] eqn:Em; [|done].
  destruct (String.eqb_spec (SettleMarketRow.status row) "RESOLVED") as [_|_].
  { unfold resolve_again. destruct (_ && _); done. }
  assert (loadResolutionRecordTx (sdb s1) m = resolutionRecord.mk "OBSERVED" o "ORACLE_PRICE" ref t) as ->.
  { unfold loadResolutionRecordTx. rewrite He. by rewrite (Hr : t_resolutions (sdb s) !! m = _). }
  rewrite (preserved o ref t Ho Hne (proj1 (de_blank _ _ Hd))). cbv zeta.
  set (final := resolutionRecord.mk _ _ _ _ _). set (en := buildMarketResolvedEntry _ _ _).
  intros (d1 & E & [= <-])%result_bind_Ok.
  assert (append_source en = (EntryTypeMarketResolved, SourceTypeSettlementMarket, itoa m)) as Hse.
  { unfold append_source, en. cbn [JournalAppend.SourceRef JournalAppend.EntryType JournalAppend.SourceType
      buildMarketResolvedEntry]. by rewrite trim_itoa. }
  split.
  - apply append_settlement_rows in E as (j & rows & -> & _). exists (seconds s1).
    cbn [set_t_journal t_resolutions write_resolution set_t_resolutions set_t_markets].
    rewrite lookup_insert_eq, He, (Hr : t_resolutions (sdb s) !! m = _). unfold final.
    cbn [resolutionRecord.ResolverType resolutionRecord.ResolverRef resolutionRecord.Evidence].
    by rewrite (proj2 (denotes_blank _ _ Hd)).
  - intros Hroll Hn. apply append_settlement_one in E as (j & -> & Hrow).
    2:{ intros _. rewrite Hse. cbn [write_resolution set_t_resolutions set_t_markets t_journal]. by rewrite Hj. }
    destruct Hrow as (x & Hx & Hs & Hp & _); [congruence|]. exists x. split_and!.
    + cbn [set_t_journal t_journal]. rewrite Hx. set_solver.
    + unfold resolved_row, settlement_source. by rewrite Hs.
    + rewrite Hp. unfold en, buildMarketResolvedEntry, resolved_payload, oracle_payload, hashResolutionEvidence. unfold final.
      cbn [JournalAppend.Payload normalizeResolveMarketInput ResolveMarketInput.MarketID ResolveMarketInput.ResolvedOutcome
        ResolveMarketInput.OccurredAtMillis resolutionRecord.ResolverType resolutionRecord.ResolverRef
        resolutionRecord.Evidence].
      rewrite Ho, (proj2 (denotes_blank _ _ Hd)), (attestation_extracted t e Hd Hsig).
      by destruct (Z.leb_spec at_ 0); [lia|].
Qed.
End evidence.

(** ** From the observation to the settled market *)

Section composition.
Context {P V : Type} `{!Publisher P, !PublisherLog P, !PriceProvider V}.
Context `{!JSON (gmap string string), !JSON ResolutionMetadata.t, !JSON (list marketOption.t)}.
Context `{!JSON Evidence.t, !JSON StoredEvidence.t, !JSON evidenceEnvelope.t, !JSON MarketResolvedPayload.t}.
Context (attest : option (string → string → Z → string → result string EvidenceAttestation.t)).
Context (jsonb : string → string) (mode_of : string → option string) (sha256 : string → string).

#[local] Instance csql : MarketStore OracleStore := oracle_sql jsonb mode_of.
Notation worker := (Worker OracleStore P V).

(** An attestation that is built carries a signature. *)
Definition attest_law : Prop :=
  ∀ f pair price ts provider a, attest = Some f → f pair price ts provider = Ok a → signed a.

Lemma build_signed c obs a : attest_law → build_attestation attest c obs = Some a → signed a.
Proof.
  unfold attest_law, build_attestation. intros Hl. revert Hl. destruct attest as [f|]; [|done]. intros Hl.
  destruct (f _ _ _ _) eqn:E; [|done]. intros [= <-]. by eapply Hl.
Qed.

Lemma built_denotes now c resolveAt obs prev o att :
  evidence_law jsonb →
  ∃ e, denotes (BuildEvidence now (Some c) resolveAt (Some obs) prev 0 0 "" o att) e ∧ Evidence.Attestation e = att.
Proof. intros [Hm _]. eexists. split; [apply Hm|done]. Qed.

Lemma upsert_writes (w w' : worker) u : upsert w u = (w', None) →
  wpublisher w' = wpublisher w ∧
  ∃ created now, t_resolutions (odb (wstore w')) !! ResolutionUpdate.MarketID u =
    Some (resolutionRecord.mk (ResolutionUpdate.Status u) (ResolutionUpdate.ResolvedOutcome u)
            (ResolutionUpdate.ResolverType u) (ResolutionUpdate.ResolverRef u)
            (jsonb (normalizeResolutionEvidence (ResolutionUpdate.Evidence u))), created, now).
Proof.
  unfold upsert, UpsertResolution, csql, oracle_sql, oracle_call.
  destruct (tx_fail _ _); [done|]. unfold upsert_resolution.
  destruct (t_resolutions (odb (wstore w)) !! ResolutionUpdate.MarketID u) as [[[r0 c0] u0]|] eqn:Er.
  - intros [= <-]. split; [done|]. eexists _, _. apply lookup_insert_eq.
  - case_bool_decide; [done|]. intros [= <-]. split; [done|]. eexists _, _. apply lookup_insert_eq.
Qed.

(** Publishing, then recording that it was published. *)
Lemma dispatch_writes r u (w w' : worker) e :
  evidence_law jsonb → denotes (ResolutionUpdate.Evidence u) e → dispatchObservedResolution r u w = (w', None) →
  published (wpublisher w') = published (wpublisher w) ++
    [(TopicMarketEvent, itoa (ResolutionUpdate.MarketID u),
      PayloadMarket (resolved_event r (ResolutionUpdate.MarketID u) (ResolutionUpdate.ResolvedOutcome u)))] ∧
  ∃ created now t e', t_resolutions (odb (wstore w')) !! ResolutionUpdate.MarketID u =
    Some (resolutionRecord.mk (ResolutionUpdate.Status u) (ResolutionUpdate.ResolvedOutcome u)
            (ResolutionUpdate.ResolverType u) (ResolutionUpdate.ResolverRef u) t, created, now) ∧
    denotes t e' ∧ Evidence.Attestation e' = Evidence.Attestation e ∧ dispatchPending t = false.
Proof.
  intros Hl He. unfold dispatchObservedResolution, publishResolvedEvent.
  destruct (PublishJSON _ _ _ _) as [p [err|]] eqn:Ep.
  { destruct (upsert _ _) as [w2 [?|]]; done. }
  intros E. apply upsert_writes in E as (Hp & created & now & Hr). split.
  - rewrite Hp. cbn [wpublisher set_wpublisher]. by apply publish_ok in Ep.
  - destruct (record_denotes jsonb (at_record r) (ResolutionUpdate.Evidence u) e true (at_attempt r) "" Hl He)
      as (raw & d & Hd & Hs).
    unfold with_evidence in Hr. cbn [ResolutionUpdate.MarketID ResolutionUpdate.Evidence ResolutionUpdate.Status
      ResolutionUpdate.ResolvedOutcome ResolutionUpdate.ResolverType ResolutionUpdate.ResolverRef] in Hr.
    rewrite (proj2 (denotes_blank _ _ Hd)) in Hr.
    exists created, now. eexists _, (set_Dispatch (with_raw e raw) d).
    split; [exact Hr|]. apply (proj2 Hl) in Hd. split_and!; [exact Hd|done|].
    by eapply dispatched_final.
Qed.
(** The provider gives an unresolved market an observation the contract accepts. *)
Record observes (w : worker) (market : EligibleMarket.t) (c : Contract.t) (obs : Observation.t) (o : string) : Prop := {
  ob_contract : ∃ keys, optionKeysFromSchema (EligibleMarket.OptionSchema market) = Some keys ∧
    ParseContract (EligibleMarket.CategoryKey market) keys (EligibleMarket.ResolveAt market)
      (EligibleMarket.Metadata market) = (Some c, true, None);
  ob_open : normalize_upper (EligibleMarket.ResolutionStatus market) ≠ "RESOLVED" ∧
    normalize_upper (EligibleMarket.ResolutionStatus market) ≠ "OBSERVED";
  ob_answer : (Observe (wprovider w) c).2 = (Some obs, None);
  ob_timing : validateObservationTiming (EligibleMarket.ResolveAt market) c obs = "";
  ob_outcome : ResolveOutcome c (Observation.ObservedScaled obs) = Ok o;
}.

Lemma process_observed r now market c obs o (w w' : worker) :
  observes w market c obs o → processMarket attest r now market w = (w', None) →
  ∃ v w1, upsert (set_wprovider w v) (observed_update attest r market c obs o) = (w1, None) ∧
    dispatchObservedResolution r (observed_update attest r market c obs o) w1 = (w', None).
Proof.
  intros [(keys & Hk & Hp) [H1 H2] Ha Ht Ho]. unfold processMarket. rewrite Hk, Hp. cbv zeta.
  rewrite (proj2 (String.eqb_neq _ _) H1), (proj2 (String.eqb_neq _ _) H2).
  destruct (Observe (wprovider w) c) as [v answer]. cbn [snd] in Ha. rewrite Ha. cbn [settle_observation].
  rewrite Ht, Ho. cbn [String.eqb negb]. destruct (upsert _ _) as [w1 [?|]] eqn:E; [done|]. intros E'. by exists v, w1.
Qed.

(** C34: an observation reaches the settled market and the journal unchanged.  When the
    worker processes an unresolved market whose price it can observe and reports no error,
    it has announced the outcome once, and the row it leaves holds the outcome, the oracle
    as resolver, the reference of the observation and evidence marked dispatched that
    carries the attestation.  When the settlement then resolves the market with that
    outcome, the row becomes final with the same resolver, reference and evidence, and the
    journal gets one entry with the hash of that evidence and the attestation. *)
Theorem oracle_resolution_settles r now market c obs o (w w' : worker) :
  evidence_law jsonb → attest_law → observes w market c obs o →
  processMarket attest r now market w = (w', None) →
  let m := EligibleMarket.MarketID market in
  let ref := ResolverRef c (EligibleMarket.ResolveAt market) in
  published (wpublisher w') = published (wpublisher w) ++
    [(TopicMarketEvent, itoa m, PayloadMarket (resolved_event r m o))] ∧
  ∃ created updated t,
    t_resolutions (odb (wstore w')) !! m =
      Some (resolutionRecord.mk "OBSERVED" o "ORACLE_PRICE" ref t, created, updated) ∧
    dispatchPending t = false ∧
    ∀ s s' at_, t_resolutions (sdb s) !! m = t_resolutions (odb (wstore w')) !! m → 0 < at_ →
      sql_ResolveMarket sha256 s (ResolveMarketInput.mk m o at_) = (s', Ok true) →
      (∃ now', t_resolutions (sdb s') !! m =
         Some (resolutionRecord.mk "RESOLVED" o "ORACLE_PRICE" ref t, created, now')) ∧
      (with_rollup s = true →
       (EntryTypeMarketResolved, SourceTypeSettlementMarket, itoa m) ∉
         JournalEntry.source <$> entries (t_journal (sdb s)) →
       ∃ x, x ∈ entries (t_journal (sdb s')) ∧ resolved_row m x ∧
         JournalEntry.Payload x =
           OtherPayload (Marshal (oracle_payload sha256 m o ref t (build_attestation attest c obs) at_))).
Proof.
  intros Hl Hs Hob E m ref. destruct (process_observed _ _ _ _ _ _ _ _ Hob E) as (v & w1 & E1 & E2).
  apply upsert_writes in E1 as [Hp1 _].
  destruct (built_denotes (at_evidence r) c (EligibleMarket.ResolveAt market) obs (EligibleMarket.Evidence market) o
    (build_attestation attest c obs) Hl) as (e & He & Ha).
  destruct (dispatch_writes r (observed_update attest r market c obs o) _ _ e Hl He E2) as (Hp & created & updated & t & e' & Hr & Ht & Ha' & Hpend).
  split; [rewrite Hp, Hp1; done|]. exists created, updated, t. split_and!; [exact Hr|exact Hpend|].
  intros s s' at_ Hrow Hat Hres. rewrite Ha in Ha'.
  pose proof (yes_or_no _ _ _ (ob_outcome _ _ _ _ _ Hob)) as Ho.
  apply (resolve_keeps_oracle sha256 s m o ref t e' created updated at_) in Hres;
    [|exact (eq_trans Hrow Hr)|by destruct Ho as [-> | ->]..|done|done|].
  - rewrite Ha' in Hres. exact Hres.
  - intros a. rewrite Ha'. by apply build_signed.
Qed.
End composition.

(** ** Concrete runs *)

(** An encoding of evidence for evaluation: the bits of its code, as text. *)
#[local] Instance instrument_eq : EqDecision ResolutionInstrument.t.
Proof. solve_decision. Defined.
#[local] Instance rule_eq : EqDecision ResolutionRule.t.
Proof. solve_decision. Defined.
#[local] Instance source_eq : EqDecision EvidenceSource.t.
Proof. solve_decision. Defined.
#[local] Instance window_eq : EqDecision EvidenceWindow.t.
Proof. solve_decision. Defined.
#[local] Instance observation_eq : EqDecision EvidenceObservation.t.
Proof. solve_decision. Defined.
#[local] Instance attestation_eq : EqDecision EvidenceAttestation.t.
Proof. solve_decision. Defined.
#[local] Instance retry_eq : EqDecision EvidenceRetry.t.
Proof. solve_decision. Defined.
#[local] Instance dispatch_eq : EqDecision EvidenceDispatch.t.
Proof. solve_decision. Defined.
#[local] Instance evidence_eq : EqDecision Evidence.t.
Proof. solve_decision. Defined.

#[local] Instance instrument_countable : Countable ResolutionInstrument.t.
Proof.
  refine (inj_countable' (λ i, (ResolutionInstrument.Kind i, ResolutionInstrument.BaseAsset i,
    ResolutionInstrument.QuoteAsset i, ResolutionInstrument.Symbol i))
    (λ '(a, b, c, d), ResolutionInstrument.mk a b c d) _). by intros [].
Defined.
#[local] Instance rule_countable : Countable ResolutionRule.t.
Proof.
  refine (inj_countable' (λ i, (ResolutionRule.Type_ i, ResolutionRule.Comparator i, ResolutionRule.ThresholdPrice i))
    (λ '(a, b, c), ResolutionRule.mk a b c) _). by intros [].
Defined.
#[local] Instance source_countable : Countable EvidenceSource.t.
Proof.
  refine (inj_countable' (λ i, (EvidenceSource.SourceKind i, EvidenceSource.ProviderKey i,
    EvidenceSource.Instrument i, EvidenceSource.PriceField i, EvidenceSource.PriceScale i))
    (λ '(a, b, c, d, e), EvidenceSource.mk a b c d e) _). by intros [].
Defined.
#[local] Instance window_countable : Countable EvidenceWindow.t.
Proof.
  refine (inj_countable' (λ i, (EvidenceWindow.Anchor i, EvidenceWindow.TargetTime i, EvidenceWindow.BeforeSec i,
    EvidenceWindow.AfterSec i, EvidenceWindow.MaxDataAgeSec i))
    (λ '(a, b, c, d, e), EvidenceWindow.mk a b c d e) _). by intros [].
Defined.
#[local] Instance observation_countable : Countable EvidenceObservation.t.
Proof.
  refine (inj_countable' (λ i, (EvidenceObservation.ObservationID i, EvidenceObservation.FetchedAt i,
    EvidenceObservation.EffectiveAt i, EvidenceObservation.ObservedPrice i, EvidenceObservation.ResolvedOutcome i,
    EvidenceObservation.RawPayloadHash i, EvidenceObservation.RawPayload i))
    (λ '(a, b, c, d, e, f, g), EvidenceObservation.mk a b c d e f g) _). by intros [].
Defined.
#[local] Instance attestation_countable : Countable EvidenceAttestation.t.
Proof.
  refine (inj_countable' (λ i, (EvidenceAttestation.Version i, EvidenceAttestation.AssetPair i,
    EvidenceAttestation.Price i, EvidenceAttestation.Timestamp i, EvidenceAttestation.Provider i,
    EvidenceAttestation.Signature i, EvidenceAttestation.SignerAddress i))
    (λ '(a, b, c, d, e, f, g), EvidenceAttestation.mk a b c d e f g) _). by intros [].
Defined.
#[local] Instance retry_countable : Countable EvidenceRetry.t.
Proof.
  refine (inj_countable' (λ i, (EvidenceRetry.AttemptCount i, EvidenceRetry.LastAttemptAt i,
    EvidenceRetry.NextRetryAt i, EvidenceRetry.LastErrorCode i)) (λ '(a, b, c, d), EvidenceRetry.mk a b c d) _).
  by intros [].
Defined.
#[local] Instance dispatch_countable : Countable EvidenceDispatch.t.
Proof.
  refine (inj_countable' (λ i, (EvidenceDispatch.Status i, EvidenceDispatch.AttemptCount i,
    EvidenceDispatch.LastAttemptAt i, EvidenceDispatch.DispatchedAt i, EvidenceDispatch.LastError i))
    (λ '(a, b, c, d, e), EvidenceDispatch.mk a b c d e) _). by intros [].
Defined.
#[local] Instance evidence_countable : Countable Evidence.t.
Proof.
  refine (inj_countable' (λ i, (Evidence.Version i, Evidence.ResolutionMode i, Evidence.Source i, Evidence.Rule i,
    Evidence.Window i, Evidence.Observation i, Evidence.Attestation i, Evidence.Retry i, Evidence.Dispatch i))
    (λ '(a, b, c, d, e, f, g, h, i), Evidence.mk a b c d e f g h i) _). by intros [].
Defined.

Fixpoint bits (p : positive) : string :=
  match p with xH => "." | xO p => String "0"%char (bits p) | xI p => String "1"%char (bits p) end.
Fixpoint unbits (s : string) : option positive :=
  match s with
  | String "0"%char s => xO <$> unbits s
  | String "1"%char s => xI <$> unbits s
  | String "."%char _ => Some xH
  | _ => None
  end.
Lemma unbits_bits p : unbits (bits p) = Some p.
Proof. induction p as [p IH|p IH|]; cbn; [by rewrite IH..|done]. Qed.
Lemma bits_no_space p : no_space (bits p) = true.
Proof. induction p as [p IH|p IH|]; cbn [bits no_space]; [by rewrite IH..|done]. Qed.

#[local] Instance demo_evidence : JSON Evidence.t :=
  {| Marshal e := bits (countable.encode e); Unmarshal t := match unbits t with Some p => countable.decode p | None => None end |}.
#[local] Instance demo_stored : JSON StoredEvidence.t :=
  {| Marshal _ := ""; Unmarshal t := StoredEvidence.of_evidence <$> Unmarshal (T := Evidence.t) t |}.
#[local] Instance demo_envelope : JSON evidenceEnvelope.t :=
  {| Marshal _ := ""; Unmarshal t :=
       (λ e, evidenceEnvelope.mk (witness_of <$> Evidence.Attestation e)) <$> Unmarshal (T := Evidence.t) t |}.

Lemma with_own_raw e : ∃ raw, with_raw e raw = e.
Proof.
  destruct e as [v md src rl wd [ob|] att rt di]; [exists (EvidenceObservation.RawPayload ob); by destruct ob|by exists ""].
Qed.

Lemma demo_evidence_law : evidence_law id.
Proof.
  split; [|done]. intros e.
  assert (Unmarshal (T := Evidence.t) (Marshal e) = Some e) as Hu.
  { cbn [Marshal Unmarshal demo_evidence]. rewrite unbits_bits. apply countable.decode_encode. }
  destruct (with_own_raw e) as [raw Hraw]. split.
  - apply TrimSpace_no_space, bits_no_space.
  - split; [cbn [Marshal demo_evidence]; by destruct (countable.encode e)|]. intros Hn. pose proof (f_equal unbits Hn) as Hb.
    cbn [Marshal demo_evidence] in Hb. rewrite unbits_bits in Hb. discriminate Hb.
  - exists raw. by rewrite Hraw.
  - exists raw. rewrite Hraw. unfold Unmarshal at 1, demo_stored. by rewrite Hu.
  - unfold Unmarshal at 1, demo_envelope. by rewrite Hu.
Qed.

(** A market on the price of BTC, due at 1000, and a provider that answers with the last
    trade at 999. *)
Definition demo_metadata : ResolutionMetadata.t :=
  ResolutionMetadata.mk 1 "ORACLE_PRICE" "CRYPTO_PRICE_THRESHOLD" true
    (ResolutionOracleConfig.mk "HTTP_JSON" "BINANCE" (ResolutionInstrument.mk "SPOT" "BTC" "USDT" "BTCUSDT")
       (ResolutionPriceConfig.mk "LAST_PRICE" 2 "ROUND_HALF_UP" 120) (ResolutionWindow.mk "RESOLVE_AT" 300 300)
       (ResolutionRule.mk "PRICE_THRESHOLD" "GTE" "100000")).
#[local] Instance demo_object : JSON (gmap string string) :=
  {| Marshal _ := ""; Unmarshal _ := Some {["resolution" := "r"]} |}.
#[local] Instance demo_contract_json : JSON ResolutionMetadata.t :=
  {| Marshal _ := ""; Unmarshal _ := Some demo_metadata |}.
#[local] Instance demo_options : JSON (list marketOption.t) :=
  {| Marshal _ := ""; Unmarshal _ := Some [marketOption.mk "YES"; marketOption.mk "NO"] |}.
#[local] Instance demo_resolved : JSON MarketResolvedPayload.t :=
  {| Marshal p := MarketResolvedPayload.ResolverType p +:+ " " +:+ MarketResolvedPayload.ResolvedOutcome p +:+ " " +:+
       match MarketResolvedPayload.OracleAttestation p with
       | Some a => OracleAttestationWitness.Signature a | None => "unsigned" end;
     Unmarshal _ := None |}.

Definition demo_observation : Observation.t := Observation.mk 1010 999 "100500.00" (Some 10050000) "{}" "sha256:00".
#[local] Instance demo_provider : PriceProvider unit :=
  {| Observe v _ := (v, (Some demo_observation, None)) |}.
Definition demo_attest : option (string → string → Z → string → result string EvidenceAttestation.t) :=
  Some (λ pair price ts provider, Ok (EvidenceAttestation.mk 1 pair price ts provider "sig" "0xsigner")).
Definition demo_mode (_ : string) : option string := Some "ORACLE_PRICE".
#[local] Instance demo_sql : MarketStore OracleStore := oracle_sql id demo_mode.

Definition demo_oenv (failing : list nat) : SettleEnv :=
  mkSettleEnv (λ _, 1010) (λ _, 1010000)
    (λ n, if bool_decide (n ∈ failing) then Some "connection reset" else None)
    (λ n i, "j" +:+ itoa (Z.of_nat n) +:+ "_" +:+ itoa (Z.of_nat i)).
Definition demo_row : SettleMarketRow.t := SettleMarketRow.mk "BTC" "USDT" "OPEN" "" 0 0.
Definition demo_info : gmap Z MarketInfo.t := {[88 := MarketInfo.mk 1000 (Some "CRYPTO") "{..}" (Some "[..]")]}.
Definition demo_odb : SettleDB := mkSettleDB ∅ {[88 := demo_row]} ∅ ∅ ∅ None (mkJournal [] 1).
Definition demo_store (failing : list nat) : OracleStore := mkOracleStore demo_odb demo_info (demo_oenv failing) 0.
Definition demo_reading (_ : nat) : Reading := mkReading 1010 1010 1010 1010000 "evt".

Definition demo_worker (failing : list nat) : Worker OracleStore (list BatchItem) unit :=
  NewWorker (demo_store failing) () [] 0.
Definition demo_poll (w : Worker OracleStore (list BatchItem) unit) := pollOnce demo_attest demo_reading 1010 w.
Definition demo_polled : Worker OracleStore (list BatchItem) unit := (demo_poll (demo_worker [])).1.

Definition announcements (w : Worker OracleStore (list BatchItem) unit) : list (Z * string) :=
  (λ e, (MarketEvent.MarketID e, MarketEvent.ResolvedOutcome e)) <$> announced w.
Definition row_status (d : SettleDB) (m : Z) : option (string * string) :=
  (λ r : ResolutionRow, (resolutionRecord.Status r.1.1, resolutionRecord.ResolverType r.1.1)) <$> t_resolutions d !! m.

Lemma demo_polled_reach : oracle_reach demo_attest id demo_mode demo_info demo_polled.
Proof.
  eapply oracle_reach_step; [by apply (oracle_reach_new demo_attest id demo_mode demo_info (demo_store []) () [] 0)|].
  apply (oracle_poll demo_attest id demo_mode demo_reading 1010).
Qed.

Lemma oracle_outcomes_justified_witness :
  announcements demo_polled = [(88, "YES")] ∧
  Forall (λ e, MarketEvent.Status e = "RESOLVED" ∧
    justified (λ _ obs, obs = demo_observation) demo_info (MarketEvent.MarketID e) (MarketEvent.ResolvedOutcome e))
    (announced demo_polled).
Proof.
  split; [vm_compute; reflexivity|].
  apply (oracle_outcomes_justified demo_attest id demo_mode (λ _ obs, obs = demo_observation)).
  - intros v c obs [= <-]. reflexivity.
  - exact demo_polled_reach.
Defined.

Definition demo_market : EligibleMarket.t :=
  eligible_row 88 demo_row (MarketInfo.mk 1000 (Some "CRYPTO") "{..}" (Some "[..]")) "CRYPTO" no_resolution.
Definition demo_contract : Contract.t :=
  Contract.mk (with_threshold demo_metadata "100000.00") (Some 10000000).
Definition demo_processed := processMarket demo_attest (demo_reading 0) 1010 demo_market (demo_worker []).
Definition demo_settle (w : Worker OracleStore (list BatchItem) unit) : SettleStore * result SettlementError bool :=
  sql_ResolveMarket id (mkSettleStore (odb (wstore w)) true (demo_oenv []) 0) (ResolveMarketInput.mk 88 "YES" 1010000).

Lemma demo_observes : observes (demo_worker []) demo_market demo_contract demo_observation "YES".
Proof.
  split; [exists ["YES"; "NO"]; split; vm_compute; reflexivity|split; vm_compute; discriminate|reflexivity|
    vm_compute; reflexivity..].
Qed.

Lemma demo_attest_law : attest_law demo_attest.
Proof. intros f pair price ts provider a [= <-] [= <-]. discriminate. Qed.

Lemma oracle_resolution_settles_witness :
  row_status (odb (wstore demo_processed.1)) 88 = Some ("OBSERVED", "ORACLE_PRICE") ∧
  row_status (sdb (demo_settle demo_processed.1).1) 88 = Some ("RESOLVED", "ORACLE_PRICE") ∧
  (∃ x t, x ∈ entries (t_journal (sdb (demo_settle demo_processed.1).1)) ∧
     JournalEntry.Payload x = OtherPayload (Marshal (oracle_payload id 88 "YES" "oracle_price:BINANCE:BTCUSDT:1000" t
       (Some (EvidenceAttestation.mk 1 "BTCUSDT" "100500.00" 999 "BINANCE" "sig" "0xsigner")) 1010000))).
Proof.
  split; [vm_compute; reflexivity|]. split; [vm_compute; reflexivity|].
  assert (demo_processed.2 = None) as E by (vm_compute; reflexivity).
  assert ((demo_settle demo_processed.1).2 = Ok true) as Es by (vm_compute; reflexivity).
  assert (entries (t_journal (odb (wstore demo_processed.1))) = []) as Ej by (vm_compute; reflexivity).
  apply (f_equal (pair demo_processed.1)) in E. rewrite <-surjective_pairing in E. unfold demo_processed at 1 in E.
  revert E Es Ej. generalize demo_processed.1 as w. intros w E Es Ej.
  destruct (demo_settle w) as [s r] eqn:Ed. cbn [fst snd] in *. subst r. unfold demo_settle in Ed.
  pose proof (oracle_resolution_settles demo_attest id demo_mode id (demo_reading 0) 1010 demo_market demo_contract
    demo_observation "YES" (demo_worker []) w demo_evidence_law demo_attest_law demo_observes E)
    as (_ & created & updated & t & _ & _ & Hs).
  destruct (Hs (mkSettleStore (odb (wstore w)) true (demo_oenv []) 0) s 1010000 eq_refl ltac:(lia) Ed) as [_ Hj].
  destruct (Hj eq_refl) as (x & Hx & _ & Hp).
  { cbn [sdb]. rewrite Ej. apply not_elem_of_nil. }
  exists x, t. split; [exact Hx|exact Hp].
Defined.

(** ** What the worker does not keep *)

(** The row is written again after the event is published.  When the settlement has
    resolved the market in between, that write takes the final status back: the market is
    resolved and its resolution is not. *)
Theorem dispatch_overwrites_resolution :
  let u := observed_update demo_attest (demo_reading 0) demo_market demo_contract demo_observation "YES" in
  let w1 := (upsert (demo_worker []) u).1 in
  let w2 := (publishResolvedEvent (demo_reading 0) 88 "YES" w1).1 in
  let settled := (demo_settle w2).1 in
  let w3 := (upsert (set_wstore w2 (set_odb (wstore w2) (sdb settled)))
               (with_evidence u (recordDispatchAttempt 1010 (ResolutionUpdate.Evidence u) true 1010 ""))).1 in
  row_status (sdb settled) 88 = Some ("RESOLVED", "ORACLE_PRICE") ∧
  SettleMarketRow.status <$> t_markets (odb (wstore w3)) !! 88 = Some "RESOLVED" ∧
  row_status (odb (wstore w3)) 88 = Some ("OBSERVED", "ORACLE_PRICE").
Proof. split_and!; vm_compute; reflexivity. Qed.

(** An observation that conflicts with the contract is written off as terminal, but
    terminal errors are listed too: the next poll observes the market and announces it. *)
Theorem conflict_announced_next_poll :
  let d := set_t_resolutions demo_odb
    {[88 := (resolutionRecord.mk "OBSERVED" "NO" "ORACLE_PRICE" "oracle_price:BINANCE:BTCUSDT:900" "{}", 900, 900)]} in
  let w0 := NewWorker (P := list BatchItem) (mkOracleStore d demo_info (demo_oenv []) 0) () [] 0 in
  let w1 := (demo_poll w0).1 in
  let w2 := (demo_poll w1).1 in
  row_status (odb (wstore w1)) 88 = Some ("TERMINAL_ERROR", "ORACLE_PRICE") ∧ announcements w1 = [] ∧
  row_status (odb (wstore w2)) 88 = Some ("OBSERVED", "ORACLE_PRICE") ∧ announcements w2 = [(88, "YES")].
Proof. split_and!; vm_compute; reflexivity. Qed.

(** A provider that knows none of the symbols. *)
Record unlisted := mkUnlisted { asked : Z }.
#[local] Instance unlisted_provider : PriceProvider unlisted :=
  {| Observe v _ := (mkUnlisted (asked v + 1),
       (None, Some (providerError.mk ErrorCodeUnsupportedSymbol false "binance returned 400"))) |}.

Definition many_ids : list Z := seqZ 1 21.
Definition many_store : OracleStore :=
  mkOracleStore
    (mkSettleDB ∅ (list_to_map ((λ m, (m, demo_row)) <$> many_ids)) ∅ ∅ ∅ None (mkJournal [] 1))
    (list_to_map ((λ m, (m, MarketInfo.mk (900 + m) (Some "CRYPTO") "{..}" (Some "[..]"))) <$> many_ids))
    (demo_oenv []) 0.
Definition many_poll (w : Worker OracleStore (list BatchItem) unlisted) :=
  (pollOnce demo_attest demo_reading 1010 w).1.

(** Twenty markets that failed for good fill every later poll: the market due after them is
    never asked for. *)
Theorem terminal_errors_starve :
  let w1 := many_poll (NewWorker many_store (mkUnlisted 0) [] 0) in
  let w2 := many_poll w1 in
  let listed w := EligibleMarket.MarketID <$> eligible_markets demo_mode 1010 20 (wstore w) in
  asked (wprovider w1) = 20 ∧ asked (wprovider w2) = 40 ∧
  listed w1 = seqZ 1 20 ∧ listed w2 = seqZ 1 20 ∧
  row_status (odb (wstore w2)) 1 = Some ("TERMINAL_ERROR", "ORACLE_PRICE") ∧
  row_status (odb (wstore w2)) 21 = None.
Proof. split_and!; vm_compute; reflexivity. Qed.

(** Thresholds that are not decimal numbers are accepted. *)
Theorem threshold_not_decimal :
  normalizeDecimal "0x10" 2 = Some (1600, "16.00") ∧ normalizeDecimal "1/3" 2 = Some (33, "0.33") ∧
  normalizeDecimal "1e3" 2 = Some (100000, "1000.00").
Proof. split_and!; vm_compute; reflexivity. Qed.
